(* ===== verification/_CoqProject ===== *)
-Q . S2P
Prelude.v
Bitmap.v
Array.v
Heap.v
LinkedList.v
CString.v
Printf.v
Hashtable.v
ThreadList.v
PidTree.v
UserCopy.v
Uio.v
Sfs.v
SfsIo.v
SfsDir.v
Synch.v
Swap.v
PageTable.v
Coremap.v
Vm.v
AddrSpace.v
LongLong.v
Qdivrem.v
Vfs.v
VfsDev.v
VfsList.v
VfsRefs.v
Kmalloc.v
KheapInv.v
KheapFree.v
Qsort.v
Files.v
Proc.v
ProcInv.v
ProcSys.v
ProcRun.v
Umalloc.v
