(* ===== verification/Prelude.v ===== *)
(** * A verification of the core of an OS/161 kernel

    The repository is an OS/161 tree: a small Unix-like kernel for a simulated
    MIPS machine (src/kern), the C library routines kernel and user programs
    share (src/common/libc), and a user land.  The files of this development
    translate parts of it into Rocq functions, one function per C function, and
    prove what they do.

    ** How C is modelled

    - A function that can stop the machine, run out of an object or loop returns
      in [res] (this file): [Ret], [Panic] (a failed [KASSERT] or [panic]),
      [Undef] (an access outside of an object, a null or dangling pointer) or
      [Diverge] (the fuel of a loop is used up).  A theorem that ends in
      [... = Ret _] therefore says that no assertion fails, nothing undefined
      happens and the loops end.
    - Integers are [Z]; where the width matters the wrap-around is written out
      ([u8], [u16], [u32], [u64], [i32]).  Arrays are lists, accessed by [rd] and
      [wr]; linked structures are finite maps from locations to nodes, so that
      sharing and dangling pointers are visible.
    - Fuel: loops over a known number of elements recurse on that number.  The
      other loops have a fuel that the caller computes from the data
      ([str_fuel], [walk_fuel], [uiomove_fuel], ...) or a constant bound
      ([grow_fuel], [add_fuel], [tree_fuel], [printnum_fuel]); each theorem about
      such a function concludes [Ret], so it proves that the fuel is enough.
    - What is decided outside of a component is an argument: [script] is the list
      of outcomes of the coming [kmalloc] calls, [sfs_rd] and [sfs_wr] are those
      of the coming disk requests.  Theorems quantify over them.

    ** Files, and what is proved of them

    - [Prelude] (this file): outcomes, machine integers, arrays, the allocator
      as its clients see it, tactics and shared lemmas.
    - [Bitmap] (kern/lib/bitmap.c): bit maps on words of eight bits.  Allocation
      is first fit; mark and unmark are inverse.
    - [Array] (kern/lib/array.c, kern/include/array.h): resizable arrays.
      Operations as list operations; the doubling loop does not end for requests
      above 2^31.
    - [Heap] (kern/lib/heap.c): the binary heap over [Array] is a priority queue
      for every strict weak order; its self-check panics on every non-empty heap.
    - [LinkedList] (kern/lib/list.c, queue.c): linked lists over a store of nodes,
      and the class [ListLaws] that states what a list promises.  [Queue] is proved
      against that class.
    - [CString] (common/libc/string, stdlib/atoi.c): string and memory routines
      on byte buffers, word-wise copies included.
    - [Printf] (common/libc/printf): the formatter over any sink, and snprintf.
    - [Hashtable] (kern/lib/hashtable.c): the chained hash table over the list
      interface refines a finite map, also through growing and shrinking; what
      happens when memory runs out; keys made from integers.  Removal frees the key
      of the pair: the class [KeyMem] says what that does, and the refinement is for
      clients whose keys are blocks of the heap, one for each pair.
    - [ThreadList] (kern/thread/threadlist.c): doubly linked lists of threads over
      one shared store refine double-ended queues.
    - [PidTree] (kern/proc/pid.c): the directory of process identifiers.  What is
      proved of it is for directories whose blocks are search trees; allocation keeps
      that, removal may not.
    - [UserCopy] (kern/vm/copyinout.c): copies across the user/kernel boundary stay
      inside the range named and outside of the kernel.
    - [Uio] (kern/lib/uio.c): scatter/gather transfers.
    - [Sfs] (kern/fs/sfs/sfs_balloc.c, sfs_bmap.c, the block layer of sfs_io.c,
      [lhd_io] of kern/dev/lamebus/lhd.c): block allocation, block maps and
      truncation keep the volume consistent under read errors.
    - [SfsIo] (kern/fs/sfs/sfs_io.c): reading and writing files through a uio; what
      is written is read back.
    - [SfsDir] (kern/fs/sfs/sfs_dir.c): directories as files of fixed-size entries:
      searching, linking and unlinking names.
    - [Synch] (kern/thread/synch.c, spinlock.c, the wait channels of thread.c):
      semaphores, locks and condition variables run by any number of threads in any
      interleaving: a step relation, its invariant, mutual exclusion, and the
      reasons for which a run can get stuck.
    - [Swap] (kern/vm/swap.c, the block device of kern/vfs/device.c): the slots of
      the swap space and the transfer of pages.
    - [PageTable] (kern/vm/pagetable.c): the two-level page table as a map from page
      numbers to entries.
    - [Coremap] (kern/vm/coremap.c, vm.c, parts of kern/arch/mips/vm/mipsvm.c): the
      frames of memory: first-fit allocation of runs, eviction, paging in, freeing,
      and the TLB, whose entries match as in the processor, by page and by address
      space id.  The theorems on paging are for a swap disk without errors, which
      swap.c ignores.
    - [Vm] (kern/arch/mips/vm/mipsvm.c, kern/vm/addrspace.c, kern/syscall/sbrk.c):
      page faults, regions, the heap and the stack of a process.
    - [AddrSpace] (the rest of pagetable.c and addrspace.c): removing pages, copying
      an address space, destroying it.  A copy holds what the pages held where each
      clean page in memory is in its slot too, which a page that was never written to
      need not be.
    - [LongLong], [Qdivrem] (common/gcc-millicode): 64-bit arithmetic on pairs of
      32-bit words.  Multiplication, shifts and comparisons are those of [Z] modulo
      2^64; Knuth's long division gives quotient and remainder.
    - [Vfs] (kern/vfs/vnode.c, vfslist.c, vfslookup.c, vfspath.c, vfscwd.c): vnodes,
      the device table, path names and the operations on them.  A file system is an
      instance of the class [FsOps] (struct vnode_ops and struct fs_ops), what it
      promises is the class [FsLaws]; links and renames need only work within a file
      system, as those of the SFS assert.
    - [VfsDev] (kern/vfs/device.c, vfsfail.c, devnull.c): devices are such an
      instance and keep the promises.
    - [VfsList]: names in the device table are distinct and lead where they should.
    - [VfsRefs]: every operation on pathnames gives back the references and the lock
      it takes, for every file system that satisfies [FsLaws].

    - [Kmalloc], [KheapInv], [KheapFree] (kern/vm/kmalloc.c): the kernel heap: pages of
      blocks of one size, the pagerefs that describe them and their lists.  [Kmalloc]
      has the code, the interface [KPages] and [KPagesLaws] of whole pages and the
      invariant; [KheapInv] shows that allocation keeps it, [KheapFree] that freeing
      does, and what clients can rely on.  [accounts] says that nothing is kept for
      no reason: every page the heap owns has a live block or holds pagerefs, and every
      pageref in use belongs to a page, but for those that failed allocations lose; the
      theorems are for fewer than 256 of these, with which the heap still works.
    - [Files] (kern/syscall/file_syscalls.c, the copying of open files in
      kern/proc/proc.c): open, read, write and close on the table of open files of a
      process, for every file system that satisfies [FsLaws] and [FileLaws].
    - [Proc] (kern/proc/proc.c, kern/syscall/process_syscalls.c, common_prog of
      kern/main/menu.c): processes, their creation, fork, exit and waiting.  Address
      spaces are behind the interface [AsOps].  [ProcInv] has the invariant: the
      processes are a forest, the directory finds them, the references and address
      spaces they hold are theirs, and a thread that waits has been woken when its child
      has exited.  [ProcSys] shows that every call keeps it and what it does to the table
      of processes, [ProcRun] runs histories of calls from the start of the kernel.
    - [Umalloc] (userland/lib/libc/stdlib/malloc.c): the allocator of user programs on
      the words of the heap.  The heap is a list of blocks; [malloc] and [free] keep
      it, and serve exactly the blocks that the program holds.  The search has fuel for
      a header every eight bytes of the heap.
    - [Qsort] (userland/lib/libc/stdlib/qsort.c): the sorting routine of the user-level
      C library.

    Theorems whose comment starts with an identifier [C<n>] are the properties; the
    ones without hypotheses named after a defect run a concrete scenario in which
    the code does not do what it is meant to.  Lemmas ending in [_witness] apply a
    property at a concrete input.

    ** Not modelled

    Context switching, interrupts and the machine-dependent code; the first moments
    of the virtual memory system, when it carves its own tables out of raw memory;
    [execv], program loading and the clock, which end in user mode or in hardware;
    devices other than the transfer loop of the disk; the user programs and the tests.
    [Synch] models interleavings; in the other components each operation is one atomic
    step and the locks it takes are left out, or checked where the code can return with
    one held ([PageTable], [Proc]).  The theorems on processes are for up to eight of
    them, the kernel included, which fill the first block of the directory: beyond that
    [pid_remove_proc] loses processes.  They are for forks of processes without open
    files, whose vnodes fork does not count.  What [common_prog] does is one step.  The
    virtual memory runs on one processor.  The type tags of the containers
    ([KASSERT_LIST] and the like) are left out: Rocq's types play their role. *)

From stdpp Require Export base tactics list gmap numbers list_numbers.
From Stdlib Require Export ZArith Lia.

#[global] Open Scope Z_scope.

(** ** Outcomes

    A kernel routine returns ([Ret]), stops the machine through a failed
    [KASSERT] or a call of [panic] ([Panic]), accesses memory outside an object
    or dereferences a null or dangling pointer ([Undef]), or has used up the
    fuel of a loop ([Diverge]).  Error numbers are ordinary results. *)

Inductive res (A : Type) : Type :=
| Ret (a : A)
| Panic
| Undef
| Diverge.

Arguments Ret {A} a.
Arguments Panic {A}.
Arguments Undef {A}.
Arguments Diverge {A}.

#[global] Instance res_ret : MRet res := @Ret.

#[global] Instance res_bind : MBind res := λ A B f m,
  match m with
  | Ret a => f a
  | Panic => Panic
  | Undef => Undef
  | Diverge => Diverge
  end.

(** [KASSERT(c)] *)
Definition kassert (c : bool) : res unit := if c then Ret tt else Panic.

(** Dereferencing a pointer that may be [NULL] or dangling. *)
Definition deref {A} (o : option A) : res A :=
  match o with Some a => Ret a | None => Undef end.

(** ** Error numbers (kern/include/kern/errno.h) *)

Definition ENOMEM : Z := 3.
Definition EFAULT : Z := 6.
Definition ENAMETOOLONG : Z := 7.
Definition EINVAL : Z := 8.
Definition ENOENT : Z := 19.
Definition EEXIST : Z := 22.
Definition EMFILE : Z := 28.
Definition EIO : Z := 32.
Definition ENOSPC : Z := 36.
Definition EFBIG : Z := 38.

(** ** Machine integers

    A C integer is a [Z]; the conversions write the wrap-around out. *)

Definition u8 (z : Z) : Z := z mod 2 ^ 8.
Definition u16 (z : Z) : Z := z mod 2 ^ 16.
Definition u32 (z : Z) : Z := z mod 2 ^ 32.
Definition u64 (z : Z) : Z := z mod 2 ^ 64.
Definition i32 (z : Z) : Z := (z + 2 ^ 31) mod 2 ^ 32 - 2 ^ 31.

(** [DIVROUNDUP(a, b)] of kern/include/lib.h on [unsigned] operands. *)
Definition DIVROUNDUP (a b : Z) : Z := u32 (a + b - 1) / b.

(** ** Arrays

    A C array is a list; an access outside of it is undefined behaviour. *)

Definition rd {A} (l : list A) (i : Z) : res A :=
  if 0 <=? i then deref (l !! Z.to_nat i) else Undef.

Definition wr {A} (l : list A) (i : Z) (x : A) : res (list A) :=
  if (0 <=? i) && (i <? Z.of_nat (length l))
  then Ret (<[Z.to_nat i := x]> l) else Undef.

(** ** The kernel allocator seen by its clients

    Whether a [kmalloc] call succeeds is decided outside of the component that
    makes it.  A run is given a script of outcomes, one per call; an exhausted
    script means that the remaining calls succeed. *)

Definition script : Type := list bool.

Definition kmalloc (o : script) : bool * script :=
  match o with [] => (true, []) | b :: o' => (b, o') end.

(** ** Notations *)

Declare Scope os_scope.
Delimit Scope os_scope with os.
Notation "l .[ i ]" := (rd l i) (at level 1, i at level 200, format "l .[ i ]") : os_scope.
Notation "l .[ i <- x ]" := (wr l i x)
  (at level 1, i at level 200, x at level 200, format "l .[ i  <-  x ]") : os_scope.
#[global] Open Scope os_scope.

#[global] Arguments Z.eqb !x !y.
#[global] Arguments Z.ltb !x !y.
#[global] Arguments Z.leb !x !y.
#[global] Arguments Z.gtb !x !y.
#[global] Arguments Z.geb !x !y.

(** ** Generic lemmas *)

Lemma bind_Ret {A B} (m : res A) (f : A → res B) b :
  (m ≫= f) = Ret b ↔ ∃ a, m = Ret a ∧ f a = Ret b.
Proof.
  split; [|by intros (a & -> & ?)].
  destruct m; cbn; naive_solver.
Qed.

Lemma kassert_Ret c u : kassert c = Ret u ↔ c = true.
Proof. destruct c, u; cbn; naive_solver. Qed.

Lemma kassert_true c : c = true → kassert c = Ret tt.
Proof. by intros ->. Qed.

Lemma rd_Ret {A} (l : list A) i x :
  l.[i] = Ret x ↔ 0 ≤ i ∧ l !! Z.to_nat i = Some x.
Proof.
  unfold rd. destruct (Z.leb_spec 0 i).
  - destruct (l !! Z.to_nat i); cbn; naive_solver.
  - split; [done|]. intros [? _]. lia.
Qed.

Lemma rd_lookup {A} (l : list A) i x :
  0 ≤ i → l !! Z.to_nat i = Some x → l.[i] = Ret x.
Proof. intros. by apply rd_Ret. Qed.

Lemma rd_in_range {A} (l : list A) i :
  0 ≤ i < Z.of_nat (length l) → ∃ x, l.[i] = Ret x ∧ l !! Z.to_nat i = Some x.
Proof.
  intros [? ?]. destruct (lookup_lt_is_Some_2 l (Z.to_nat i)) as [x Hx]; [lia|].
  exists x. by rewrite rd_Ret.
Qed.

Lemma rd_out_of_range {A} (l : list A) i :
  Z.of_nat (length l) ≤ i → l.[i] = Undef.
Proof.
  intros. unfold rd. rewrite lookup_ge_None_2 by lia.
  by destruct (0 <=? i).
Qed.

Lemma wr_in_range {A} (l : list A) i x :
  0 ≤ i < Z.of_nat (length l) → l.[i <- x] = Ret (<[Z.to_nat i := x]> l).
Proof.
  intros [? ?]. unfold wr.
  by rewrite (proj2 (Z.leb_le _ _)), (proj2 (Z.ltb_lt _ _)) by lia.
Qed.

Lemma rd_nat {A} (l : list A) (i : nat) x : l !! i = Some x → l.[Z.of_nat i] = Ret x.
Proof. intros. apply rd_lookup; [lia|]. by rewrite Nat2Z.id. Qed.

Lemma wr_nat {A} (l : list A) (i : nat) x : (i < length l)%nat → l.[Z.of_nat i <- x] = Ret (<[i := x]> l).
Proof. intros. rewrite wr_in_range by lia. by rewrite Nat2Z.id. Qed.

Lemma wr_Ret {A} (l : list A) i x l' :
  l.[i <- x] = Ret l' ↔
  0 ≤ i < Z.of_nat (length l) ∧ l' = <[Z.to_nat i := x]> l.
Proof.
  unfold wr. destruct (Z.leb_spec 0 i), (Z.ltb_spec i (Z.of_nat (length l)));
    cbn; split; intros; naive_solver lia.
Qed.

(** [land w (1 << k)] tests bit [k]. *)
Lemma land_pow2_eqb w k :
  0 ≤ k → (Z.land w (2 ^ k) =? 0) = negb (Z.testbit w k).
Proof.
  intros Hk. destruct (Z.testbit w k) eqn:Hb; cbn.
  - apply Z.eqb_neq. intros H0.
    assert (Z.testbit (Z.land w (2 ^ k)) k = false) as Hf by (by rewrite H0, Z.bits_0).
    rewrite Z.land_spec, Z.pow2_bits_true, Hb in Hf by lia. done.
  - apply Z.eqb_eq, Z.bits_inj_0. intros n. rewrite Z.land_spec.
    destruct (decide (n = k)) as [->|]; [by rewrite Hb|].
    destruct (decide (0 ≤ n)).
    + rewrite Z.pow2_bits_false by lia. apply andb_false_r.
    + rewrite Z.testbit_neg_r by lia. done.
Qed.

Lemma u8_testbit w k : 0 ≤ k < 8 → Z.testbit (u8 w) k = Z.testbit w k.
Proof. intros. unfold u8. by rewrite Z.mod_pow2_bits_low by lia. Qed.

Lemma u8_range w : 0 ≤ u8 w < 256.
Proof. unfold u8. apply Z.mod_pos_bound. lia. Qed.

Lemma u8_id w : 0 ≤ w < 256 → u8 w = w.
Proof. intros. unfold u8. apply Z.mod_small. lia. Qed.

Lemma u32_range w : 0 ≤ u32 w < 2 ^ 32.
Proof. unfold u32. apply Z.mod_pos_bound. lia. Qed.

Lemma u32_id w : 0 ≤ w < 2 ^ 32 → u32 w = w.
Proof. intros. unfold u32. by apply Z.mod_small. Qed.

Lemma i32_add_l a b : i32 (i32 a + b) = i32 (a + b).
Proof.
  unfold i32. f_equal. replace ((a + 2 ^ 31) mod 2 ^ 32 - 2 ^ 31 + b + 2 ^ 31)
    with ((a + 2 ^ 31) mod 2 ^ 32 + b) by lia.
  rewrite Z.add_mod_idemp_l by lia. f_equal. lia.
Qed.

Lemma i32_id z : - 2 ^ 31 ≤ z < 2 ^ 31 → i32 z = z.
Proof. intros. unfold i32. rewrite Z.mod_small by lia. lia. Qed.

Lemma i32_range z : - 2 ^ 31 ≤ i32 z < 2 ^ 31.
Proof. unfold i32. pose proof (Z.mod_pos_bound (z + 2 ^ 31) (2 ^ 32)). lia. Qed.

Lemma i32_u32 x : i32 (u32 x) = i32 x.
Proof. unfold i32, u32. by rewrite Z.add_mod_idemp_l by lia. Qed.

Lemma i32_opp_u32 x : i32 (u32 (- u32 x)) = i32 (- x).
Proof.
  rewrite i32_u32. unfold i32, u32. f_equal.
  rewrite <-(Z.add_mod_idemp_l (- (x mod _))), <-(Z.add_mod_idemp_l (- x)) by lia.
  do 2 f_equal. rewrite <-(Z.sub_0_l x), <-Z.sub_0_l. apply Zminus_mod_idemp_r.
Qed.

(** One list of a list of lists, and the rest. *)
Lemma concat_split {A} (bs : list (list A)) i xs : bs !! i = Some xs →
  concat bs ≡ₚ xs ++ concat (delete i bs).
Proof.
  intros H. rewrite delete_take_drop, <-(take_drop_middle _ _ _ H) at 1.
  rewrite !concat_app. cbn. solve_Permutation.
Qed.

Lemma concat_insert {A} (bs : list (list A)) i xs ys : bs !! i = Some xs →
  concat (<[i := ys]> bs) ≡ₚ ys ++ concat (delete i bs).
Proof.
  intros H. rewrite (concat_split (<[i := ys]> bs) i ys).
  - by rewrite !delete_take_drop, take_insert_ge, drop_insert_lt by lia.
  - apply list_lookup_insert_eq. by eapply lookup_lt_Some.
Qed.

Lemma byte_high_bits w k : 0 ≤ w < 256 → 8 ≤ k → Z.testbit w k = false.
Proof.
  intros. apply Z.bits_above_log2; [lia|].
  destruct (decide (w = 0)) as [->|]; [cbn; lia|].
  apply Z.log2_lt_pow2; [lia|].
  apply Z.lt_le_trans with (2 ^ 8); [lia|]. apply Z.pow_le_mono_r; lia.
Qed.

(** Two bytes with the same eight bits are equal. *)
Lemma byte_ext w1 w2 :
  0 ≤ w1 < 256 → 0 ≤ w2 < 256 →
  (∀ k, 0 ≤ k < 8 → Z.testbit w1 k = Z.testbit w2 k) → w1 = w2.
Proof.
  intros ? ? Hb. apply Z.bits_inj'. intros n Hn.
  destruct (decide (n < 8)); [by apply Hb|].
  by rewrite !byte_high_bits by lia.
Qed.

Create HintDb os discriminated.
#[export] Hint Resolve u8_range u32_range : os.

Create Rewrite HintDb os_rw.
#[export] Hint Rewrite @length_insert @length_replicate @length_app : os_rw.

(** ** Tactics *)

(** Splits the equations [m ≫= f = Ret b] of the context. *)
Ltac res_inv :=
  repeat match goal with
  | H : (_ ≫= _) = Ret _ |- _ =>
      let a := fresh "r" in let E := fresh "E" in
      apply bind_Ret in H as (a & E & H); cbn beta in H
  | H : kassert _ = Ret _ |- _ => apply kassert_Ret in H
  | H : Ret _ = Ret _ |- _ => injection H as H; subst
  | H : Ret _ = _ |- _ => discriminate H
  | H : Panic = Ret _ |- _ => discriminate H
  | H : Undef = Ret _ |- _ => discriminate H
  | H : Diverge = Ret _ |- _ => discriminate H
  end.

(** Case analysis on the condition of the outermost conditional. *)
Ltac case_cmp :=
  match goal with
  | |- context [if ?c then _ else _] =>
      match c with
      | Z.eqb ?a ?b => destruct (Z.eqb_spec a b)
      | Z.ltb ?a ?b => destruct (Z.ltb_spec a b)
      | Z.leb ?a ?b => destruct (Z.leb_spec a b)
      | Z.gtb ?a ?b => destruct (Z.gtb_spec a b)
      | Z.geb ?a ?b => destruct (Z.geb_spec a b)
      | Nat.eqb ?a ?b => destruct (Nat.eqb_spec a b)
      | Nat.ltb ?a ?b => destruct (Nat.ltb_spec a b)
      | Nat.leb ?a ?b => destruct (Nat.leb_spec a b)
      | _ => destruct c eqn:?
      end
  end.

(** Linear arithmetic with division and remainder by constants. *)
Ltac zdiv_lia := Z.div_mod_to_equations; lia.
