(* ===== verification/Bitmap.v ===== *)
(** * Bitmaps (kern/lib/bitmap.c)

    The fixed-size bit array from which the coremap, the swap space, the page
    table and the file system allocate.  The model keeps the byte array of the
    code; [bit] is the abstract view, and the lemmas [alloc_after_correct],
    [mark_correct], [unmark_correct] and [isset_correct] are what the clients
    use. *)

From S2P Require Import Prelude.

(** ** Data and operations *)

Definition BITS_PER_WORD : Z := 8.
Definition WORD_ALLBITS : Z := 255.

Record bitmap := Bitmap { b_nbits : Z; b_v : list Z }.

#[global] Instance bitmap_eq_dec : EqDecision bitmap.
Proof. solve_decision. Defined.

(** The loop that marks the leftover bits [j .. 7] of word [ix] in use. *)
Fixpoint mark_leftover (n : nat) (v : list Z) (ix j : Z) : res (list Z) :=
  match n with
  | O => Ret v
  | S n' =>
      w ← v.[ix];
      v' ← v.[ix <- u8 (Z.lor w (Z.shiftl 1 j))];
      mark_leftover n' v' ix (j + 1)
  end.

(** The initialisation done once both allocations have succeeded. *)
Definition bitmap_init (nb : Z) : res bitmap :=
  let words := DIVROUNDUP nb BITS_PER_WORD in
  let v0 := replicate (Z.to_nat words) 0 in
  if nb / BITS_PER_WORD <? words then
    let ix := words - 1 in
    let overbits := u32 (nb - ix * BITS_PER_WORD) in
    _ ← kassert (nb / BITS_PER_WORD =? words - 1);
    _ ← kassert ((0 <? overbits) && (overbits <? BITS_PER_WORD));
    v1 ← mark_leftover (Z.to_nat (BITS_PER_WORD - overbits)) v0 ix overbits;
    Ret (Bitmap nb v1)
  else Ret (Bitmap nb v0).

Definition bitmap_create (nb : Z) (o : script) : res (option bitmap * script) :=
  let '(ok, o) := kmalloc o in
  if negb ok then Ret (None, o) else
  let '(ok, o) := kmalloc o in
  if negb ok then Ret (None, o) else
  b ← bitmap_init nb;
  Ret (Some b, o).

(** The inner loop of [bitmap_alloc_after]: the first clear bit of the word
    [w] at [offset] or above. *)
Fixpoint scan_word (n : nat) (w offset : Z) : option Z :=
  match n with
  | O => None
  | S n' =>
      let mask := u8 (Z.shiftl 1 offset) in
      if Z.land w mask =? 0 then Some offset else scan_word n' w (offset + 1)
  end.

(** The outer loop, [n] words from [ix] on. *)
Fixpoint scan_words (n : nat) (b : bitmap) (ix offset : Z) (first : bool)
    : res (Z + Z * bitmap) :=
  match n with
  | O => Ret (inl ENOSPC)
  | S n' =>
      w ← b.(b_v).[ix];
      if negb (w =? WORD_ALLBITS) then
        let offset := if first then offset else 0 in
        match scan_word (Z.to_nat (BITS_PER_WORD - offset)) w offset with
        | Some off =>
            v' ← b.(b_v).[ix <- u8 (Z.lor w (u8 (Z.shiftl 1 off)))];
            let index := u32 (ix * BITS_PER_WORD + off) in
            _ ← kassert (index <? b.(b_nbits));
            Ret (inr (index, Bitmap b.(b_nbits) v'))
        | None =>
            _ ← (if first then Ret tt else kassert false);
            scan_words n' b (ix + 1) BITS_PER_WORD false
        end
      else scan_words n' b (ix + 1) offset false
  end.

Definition bitmap_alloc_after (b : bitmap) (min : Z) : res (Z + Z * bitmap) :=
  let maxix := DIVROUNDUP b.(b_nbits) BITS_PER_WORD in
  let offset := min mod BITS_PER_WORD in
  let ix := min / BITS_PER_WORD in
  scan_words (Z.to_nat (maxix - ix)) b ix offset true.

Definition bitmap_alloc (b : bitmap) : res (Z + Z * bitmap) :=
  bitmap_alloc_after b 0.

Definition bitmap_translate (bitno : Z) : Z * Z :=
  (bitno / BITS_PER_WORD, u8 (Z.shiftl 1 (bitno mod BITS_PER_WORD))).

Definition bitmap_mark (b : bitmap) (index : Z) : res bitmap :=
  _ ← kassert (index <? b.(b_nbits));
  let '(ix, mask) := bitmap_translate index in
  w ← b.(b_v).[ix];
  _ ← kassert (Z.land w mask =? 0);
  v' ← b.(b_v).[ix <- u8 (Z.lor w mask)];
  Ret (Bitmap b.(b_nbits) v').

Definition bitmap_unmark (b : bitmap) (index : Z) : res bitmap :=
  _ ← kassert (index <? b.(b_nbits));
  let '(ix, mask) := bitmap_translate index in
  w ← b.(b_v).[ix];
  v' ← b.(b_v).[ix <- u8 (Z.land w (Z.lnot mask))];
  Ret (Bitmap b.(b_nbits) v').

(** The C function returns the masked word; its callers only test it. *)
Definition bitmap_isset (b : bitmap) (index : Z) : res bool :=
  let '(ix, mask) := bitmap_translate index in
  w ← b.(b_v).[ix];
  Ret (negb (Z.land w mask =? 0)).

(** ** Abstract view and invariant *)

(** Bit [i] of the map. *)
Definition bit (b : bitmap) (i : Z) : bool :=
  Z.testbit (b.(b_v) !!! Z.to_nat (i / 8)) (i mod 8).

(** The array has one byte per eight bits, rounded up, and the bits past the
    end are in use. *)
Definition wf (b : bitmap) : Prop :=
  0 ≤ b.(b_nbits) < 2 ^ 32 - 8 ∧
  Z.of_nat (length b.(b_v)) = (b.(b_nbits) + 7) / 8 ∧
  Forall (λ w, 0 ≤ w < 256) b.(b_v) ∧
  ∀ i, b.(b_nbits) ≤ i < 8 * Z.of_nat (length b.(b_v)) → bit b i = true.

(** [b'] is [b] with bit [i] set to [x]. *)
Definition updated (b : bitmap) (i : Z) (x : bool) (b' : bitmap) : Prop :=
  wf b' ∧ b'.(b_nbits) = b.(b_nbits) ∧
  ∀ j, 0 ≤ j → bit b' j = if j =? i then x else bit b j.

(** What [bitmap_alloc_after b min] promises. *)
Definition alloc_post (b : bitmap) (min : Z) (r : res (Z + Z * bitmap)) : Prop :=
  match r with
  | Ret (inl e) =>
      e = ENOSPC ∧ ∀ i, min ≤ i < b.(b_nbits) → bit b i = true
  | Ret (inr (i, b')) =>
      min ≤ i < b.(b_nbits) ∧ bit b i = false ∧
      (∀ j, min ≤ j < i → bit b j = true) ∧
      updated b i true b'
  | _ => False
  end.

(** ** Lemmas *)

Lemma mask_pow2 k : 0 ≤ k < 8 → u8 (Z.shiftl 1 k) = 2 ^ k.
Proof.
  intros. rewrite Z.shiftl_1_l. apply u8_id.
  split; [by apply Z.pow_nonneg|]. change 256 with (2 ^ 8).
  apply Z.pow_lt_mono_r; lia.
Qed.

Lemma wf_length b : wf b → 8 * Z.of_nat (length b.(b_v)) < b.(b_nbits) + 8
  ∧ b.(b_nbits) ≤ 8 * Z.of_nat (length b.(b_v)).
Proof. intros (? & Hl & _). rewrite Hl. zdiv_lia. Qed.

Lemma wf_maxix b : wf b → DIVROUNDUP b.(b_nbits) BITS_PER_WORD = Z.of_nat (length b.(b_v)).
Proof.
  intros (? & Hl & _). unfold DIVROUNDUP, BITS_PER_WORD.
  rewrite u32_id by lia. rewrite Hl. f_equal. lia.
Qed.

(** Reading the word of a bit in range. *)
Lemma wf_rd b ix : wf b → 0 ≤ ix < Z.of_nat (length b.(b_v)) →
  b.(b_v).[ix] = Ret (b.(b_v) !!! Z.to_nat ix) ∧ 0 ≤ b.(b_v) !!! Z.to_nat ix < 256.
Proof.
  intros (_ & _ & Hb & _) Hix.
  destruct (rd_in_range _ _ Hix) as (w & Hw & Hlk).
  rewrite (list_lookup_total_correct _ _ _ Hlk). split; [done|].
  by eapply Forall_lookup in Hb.
Qed.

Lemma bit_update n vv ix w i :
  0 ≤ i → 0 ≤ ix < Z.of_nat (length vv) →
  bit (Bitmap n (<[Z.to_nat ix := w]> vv)) i =
  if i / 8 =? ix then Z.testbit w (i mod 8) else bit (Bitmap n vv) i.
Proof.
  intros Hi Hix. unfold bit; cbn. assert (0 ≤ i / 8) by (apply Z.div_pos; lia).
  case_cmp; subst.
  - rewrite list_lookup_total_insert_eq; [done|lia].
  - rewrite list_lookup_total_insert_ne; [done|]. lia.
Qed.

(** Replacing the word of bit [i] by one that differs from it only in bit [i]. *)
Lemma update_word b i w x :
  wf b → 0 ≤ i < b.(b_nbits) → 0 ≤ w < 256 →
  (∀ k, 0 ≤ k < 8 → Z.testbit w k =
    if k =? i mod 8 then x else Z.testbit (b.(b_v) !!! Z.to_nat (i / 8)) k) →
  updated b i x (Bitmap b.(b_nbits) (<[Z.to_nat (i / 8) := w]> b.(b_v))).
Proof.
  intros Hwf Hi Hw Hk. destruct (wf_length _ Hwf) as [Hl1 Hl2].
  assert (0 ≤ i / 8 < Z.of_nat (length b.(b_v))) by zdiv_lia.
  assert (∀ j, 0 ≤ j → bit (Bitmap b.(b_nbits) (<[Z.to_nat (i / 8) := w]> b.(b_v))) j =
    if j =? i then x else bit b j) as Hbit.
  { intros j Hj. rewrite bit_update by lia. case_cmp.
    - rewrite Hk by (apply Z.mod_pos_bound; lia).
      destruct (Z.eqb_spec (j mod 8) (i mod 8)), (Z.eqb_spec j i); try done;
        [zdiv_lia|by subst|]. unfold bit. by rewrite e.
    - case_cmp; [by subst|]. by destruct b. }
  destruct Hwf as (? & Hlen & Hf & Hover).
  split; [|done]. repeat split; cbn; [lia|lia| | |].
  - by rewrite length_insert.
  - by apply Forall_insert.
  - intros j [Hj1 Hj2]. rewrite length_insert in Hj2. rewrite Hbit by lia.
    case_cmp; [lia|]. apply Hover. lia.
Qed.

(** The spec of the inner loop. *)
Lemma scan_word_spec n w off :
  0 ≤ off → off + Z.of_nat n = 8 →
  match scan_word n w off with
  | Some k => off ≤ k < 8 ∧ Z.testbit w k = false ∧
              ∀ j, off ≤ j < k → Z.testbit w j = true
  | None => ∀ j, off ≤ j < 8 → Z.testbit w j = true
  end.
Proof.
  revert off. induction n as [|n IH]; intros off H0 Hn; cbn -[Z.shiftl u8]; [lia|].
  rewrite mask_pow2, land_pow2_eqb by lia.
  destruct (Z.testbit w off) eqn:Hb; cbn; [|lia || naive_solver lia].
  specialize (IH (off + 1)). destruct (scan_word n w (off + 1)).
  - destruct IH as (? & ? & Hj); [lia..|]. repeat split; [lia|lia|done|].
    intros j ?. destruct (decide (j = off)) as [->|]; [done|]. apply Hj; lia.
  - intros j ?. destruct (decide (j = off)) as [->|]; [done|]. apply IH; lia.
Qed.

Lemma alloc_post_mono b min min' r :
  min ≤ min' → (∀ i, min ≤ i < min' → bit b i = true) →
  alloc_post b min' r → alloc_post b min r.
Proof.
  intros Hle Hset. destruct r as [[e|[i b']]| | |]; cbn; try done.
  - intros [-> Ha]. split; [done|]. intros i ?.
    destruct (decide (i < min')); [apply Hset|apply Ha]; lia.
  - intros (? & ? & Hj & ? & ? & ?). split_and!; try done; [lia..|].
    intros j ?. destruct (decide (j < min')); [apply Hset|apply Hj]; lia.
Qed.

(** Bit [8 * ix + k] is bit [k] of word [ix]. *)
Lemma bit_of_word b ix k :
  0 ≤ ix → 0 ≤ k < 8 → bit b (8 * ix + k) = Z.testbit (b.(b_v) !!! Z.to_nat ix) k.
Proof.
  intros. unfold bit. replace ((8 * ix + k) / 8) with ix by zdiv_lia.
  by replace ((8 * ix + k) mod 8) with k by zdiv_lia.
Qed.

Lemma lor_mask_testbit w k j :
  0 ≤ k < 8 → 0 ≤ j < 8 →
  Z.testbit (u8 (Z.lor w (u8 (Z.shiftl 1 k)))) j = if j =? k then true else Z.testbit w j.
Proof.
  intros. rewrite u8_testbit, mask_pow2, Z.lor_spec, Z.pow2_bits_eqb by lia.
  rewrite (Z.eqb_sym k j). destruct (j =? k); [apply orb_true_r|apply orb_false_r].
Qed.

Lemma ldiff_mask_testbit w k j :
  0 ≤ k < 8 → 0 ≤ j < 8 →
  Z.testbit (u8 (Z.land w (Z.lnot (u8 (Z.shiftl 1 k))))) j
  = if j =? k then false else Z.testbit w j.
Proof.
  intros. rewrite u8_testbit, mask_pow2, Z.land_spec, Z.lnot_spec, Z.pow2_bits_eqb by lia.
  rewrite (Z.eqb_sym k j). destruct (j =? k); [apply andb_false_r|apply andb_true_r].
Qed.

(** The word found by [scan_word] gives the allocated bit. *)
Lemma alloc_word b ix start k :
  wf b → 0 ≤ ix < Z.of_nat (length b.(b_v)) → 8 * ix ≤ start ≤ 8 * ix + k → 0 ≤ k < 8 →
  Z.testbit (b.(b_v) !!! Z.to_nat ix) k = false →
  (∀ j, start ≤ j < 8 * ix + k → bit b j = true) →
  let w := b.(b_v) !!! Z.to_nat ix in
  alloc_post b start
    (v' ← b.(b_v).[ix <- u8 (Z.lor w (u8 (Z.shiftl 1 k)))];
     let index := u32 (ix * BITS_PER_WORD + k) in
     _ ← kassert (index <? b.(b_nbits));
     Ret (inr (index, Bitmap b.(b_nbits) v'))).
Proof.
  intros Hwf Hix Hst Hk Hclr Hset w.
  assert (bit b (8 * ix + k) = false) as Hb by (rewrite bit_of_word; auto; lia).
  assert (8 * ix + k < b.(b_nbits)) as Hlt.
  { destruct (decide (8 * ix + k < b.(b_nbits))); [done|].
    destruct Hwf as (_ & _ & _ & Hover). rewrite Hover in Hb by lia. done. }
  assert (b.(b_nbits) < 2 ^ 32) by (destruct Hwf; lia).
  rewrite wr_in_range by lia. cbn -[u8 Z.shiftl u32 BITS_PER_WORD].
  unfold BITS_PER_WORD. replace (ix * 8 + k) with (8 * ix + k) by lia.
  rewrite u32_id by lia.
  rewrite (proj2 (Z.ltb_lt _ _)) by lia. cbn -[u8 Z.shiftl].
  opose proof (update_word b (8 * ix + k) (u8 (Z.lor w (u8 (Z.shiftl 1 k)))) true _ _ _ _)
    as Hupd; [done|lia|apply u8_range| |].
  { intros j Hj. rewrite lor_mask_testbit by lia.
    replace ((8 * ix + k) mod 8) with k by zdiv_lia.
    by replace ((8 * ix + k) / 8) with ix by zdiv_lia. }
  replace ((8 * ix + k) / 8) with ix in * by zdiv_lia.
  unfold alloc_post. split_and!; try done; lia.
Qed.

Lemma allbits_word b ix k : 0 ≤ ix → 0 ≤ k < 8 →
  b.(b_v) !!! Z.to_nat ix = WORD_ALLBITS → bit b (8 * ix + k) = true.
Proof.
  intros ? Hk Hw. rewrite bit_of_word, Hw by lia. change WORD_ALLBITS with (Z.ones 8).
  rewrite Z.ones_spec_low; [done|lia].
Qed.

(** The spec of the outer loop. *)
Lemma scan_words_spec n b ix off first :
  wf b → 0 ≤ ix → n = Z.to_nat (Z.of_nat (length b.(b_v)) - ix) →
  0 ≤ off ≤ 8 → (first = true → off < 8) →
  alloc_post b (if first then 8 * ix + off else 8 * ix) (scan_words n b ix off first).
Proof.
  intros Hwf. revert ix off first.
  induction n as [|n IH]; intros ix off first Hix Hn Hoff Hf; cbn -[u8 Z.shiftl u32 BITS_PER_WORD].
  { split; [done|]. intros i Hi. destruct (wf_length _ Hwf). destruct first; lia. }
  set (start := if first then 8 * ix + off else 8 * ix).
  assert (8 * ix ≤ start < 8 * ix + 8) as Hst by (subst start; destruct first; naive_solver lia).
  destruct (wf_rd b ix Hwf) as [-> Hw]; [lia|]. cbn -[u8 Z.shiftl u32 BITS_PER_WORD].
  set (w := b.(b_v) !!! Z.to_nat ix) in *.
  assert (∀ o, alloc_post b (8 * (ix + 1)) (scan_words n b (ix + 1) o false) →
    (∀ k, 8 * ix ≤ start ≤ 8 * ix + k → 0 ≤ k < 8 → bit b (8 * ix + k) = true) →
    alloc_post b start (scan_words n b (ix + 1) o false)) as Hnext.
  { intros o Hp Hall. eapply alloc_post_mono; [|..|exact Hp]; [lia|].
    intros i Hi. replace i with (8 * ix + (i - 8 * ix)) by lia. apply Hall; lia. }
  destruct (Z.eqb_spec w WORD_ALLBITS) as [Hall|Hne]; cbn -[u8 Z.shiftl u32 BITS_PER_WORD].
  { refine (Hnext _ _ _); [apply (IH (ix + 1) off false); lia || done|].
    intros k _ Hk. apply allbits_word; auto; lia. }
  set (off' := if first then off else 0).
  assert (start = 8 * ix + off') as Hso by (subst start off'; destruct first; lia).
  assert (0 ≤ off' < 8) as Ho' by lia.
  pose proof (scan_word_spec (Z.to_nat (BITS_PER_WORD - off')) w off') as Hsw.
  unfold BITS_PER_WORD in Hsw at 1. specialize (Hsw ltac:(lia) ltac:(lia)).
  destruct (scan_word _ w off') as [k|].
  - destruct Hsw as (Hk & Hclr & Hset). apply alloc_word; try done; try lia.
    intros j Hj. replace j with (8 * ix + (j - 8 * ix)) by lia.
    rewrite bit_of_word by lia. apply Hset. lia.
  - destruct first; cbn -[u8 Z.shiftl u32 BITS_PER_WORD].
    + refine (Hnext _ _ _);
        [apply (IH (ix + 1) BITS_PER_WORD false); unfold BITS_PER_WORD; lia || done|].
      intros k ? Hk. rewrite bit_of_word by lia. apply Hsw. lia.
    + exfalso. apply Hne. apply byte_ext; [done|unfold WORD_ALLBITS; lia|].
      intros k Hk. change WORD_ALLBITS with (Z.ones 8).
      rewrite Z.ones_spec_low by lia. apply Hsw. subst off'; lia.
Qed.

Lemma alloc_after_correct b min :
  wf b → 0 ≤ min → alloc_post b min (bitmap_alloc_after b min).
Proof.
  intros Hwf Hmin. unfold bitmap_alloc_after. rewrite wf_maxix by done.
  unfold BITS_PER_WORD.
  replace min with (8 * (min / 8) + min mod 8) at 1 by zdiv_lia.
  apply (scan_words_spec _ b (min / 8) (min mod 8) true); try done; zdiv_lia.
Qed.

(** Bit [index] through the word and mask of [bitmap_translate]. *)
Lemma translate_rd b i :
  wf b → 0 ≤ i < 8 * Z.of_nat (length b.(b_v)) →
  b.(b_v).[i / 8] = Ret (b.(b_v) !!! Z.to_nat (i / 8)) ∧
  (Z.land (b.(b_v) !!! Z.to_nat (i / 8)) (u8 (Z.shiftl 1 (i mod 8))) =? 0)
  = negb (bit b i).
Proof.
  intros Hwf Hi. split; [apply wf_rd; [done|zdiv_lia]|].
  rewrite mask_pow2, land_pow2_eqb by zdiv_lia. done.
Qed.

Lemma isset_correct b i :
  wf b → 0 ≤ i < 8 * Z.of_nat (length b.(b_v)) → bitmap_isset b i = Ret (bit b i).
Proof.
  intros Hwf Hi. destruct (translate_rd b i Hwf Hi) as [Hrd Hland].
  unfold bitmap_isset, bitmap_translate, BITS_PER_WORD.
  rewrite Hrd. cbn -[u8 Z.shiftl]. rewrite Hland. by rewrite negb_involutive.
Qed.

Lemma mark_correct b i :
  wf b → 0 ≤ i < b.(b_nbits) →
  if bit b i then bitmap_mark b i = Panic
  else ∃ b', bitmap_mark b i = Ret b' ∧ updated b i true b'.
Proof.
  intros Hwf Hi. pose proof (wf_length b Hwf) as [Hl1 Hl2].
  destruct (translate_rd b i Hwf) as [Hrd Hland]; [lia|].
  unfold bitmap_mark, bitmap_translate, BITS_PER_WORD.
  rewrite (proj2 (Z.ltb_lt _ _)), Hrd by lia. cbn -[u8 Z.shiftl]. rewrite Hland.
  destruct (bit b i); cbn -[u8 Z.shiftl]; [done|].
  rewrite wr_in_range by zdiv_lia. eexists. split; [done|].
  apply update_word; [done|done|apply u8_range|].
  intros k Hk. apply lor_mask_testbit; [zdiv_lia|done].
Qed.

Lemma unmark_correct b i :
  wf b → 0 ≤ i < b.(b_nbits) →
  ∃ b', bitmap_unmark b i = Ret b' ∧ updated b i false b'.
Proof.
  intros Hwf Hi. pose proof (wf_length b Hwf) as [Hl1 Hl2].
  destruct (translate_rd b i Hwf) as [Hrd Hland]; [lia|].
  unfold bitmap_unmark, bitmap_translate, BITS_PER_WORD.
  rewrite (proj2 (Z.ltb_lt _ _)), Hrd by lia. cbn -[u8 Z.shiftl].
  rewrite wr_in_range by zdiv_lia. eexists. split; [done|].
  apply update_word; [done|done|apply u8_range|].
  intros k Hk. apply ldiff_mask_testbit; [zdiv_lia|done].
Qed.

(** A well-formed bitmap is determined by its size and its bits. *)
Lemma bitmap_ext b1 b2 :
  wf b1 → wf b2 → b1.(b_nbits) = b2.(b_nbits) →
  (∀ i, 0 ≤ i < b1.(b_nbits) → bit b1 i = bit b2 i) → b1 = b2.
Proof.
  intros H1 H2 Hn Hb.
  assert (length b1.(b_v) = length b2.(b_v)) as Hlen.
  { destruct H1 as (_ & H1 & _), H2 as (_ & H2 & _). rewrite Hn in H1. lia. }
  destruct b1 as [n1 v1], b2 as [n2 v2]; cbn in *. subst n2. f_equal.
  apply list_eq_same_length with (length v1); [done|done|].
  intros k w1 w2 Hk Hw1 Hw2.
  pose proof H1 as (_ & _ & Hf1 & Ho1). pose proof H2 as (_ & _ & Hf2 & Ho2). cbn in *.
  pose proof (proj1 (Forall_lookup _ _) Hf1 _ _ Hw1).
  pose proof (proj1 (Forall_lookup _ _) Hf2 _ _ Hw2). apply byte_ext; [done..|].
  intros j Hj.
  assert (∀ vv w, vv !! k = Some w →
    bit (Bitmap n1 vv) (8 * Z.of_nat k + j) = Z.testbit w j) as Hbw.
  { intros vv w Hw. rewrite bit_of_word by lia. cbn. rewrite Nat2Z.id.
    by rewrite (list_lookup_total_correct _ _ _ Hw). }
  rewrite <- (Hbw v1 w1), <- (Hbw v2 w2) by done.
  destruct (decide (8 * Z.of_nat k + j < n1)); [apply Hb; lia|].
  rewrite Ho1, Ho2 by lia. done.
Qed.

(** [updated] as a function on the bits is deterministic. *)
Lemma updated_det b i x b1 b2 : updated b i x b1 → updated b i x b2 → b1 = b2.
Proof.
  intros (? & Hn1 & Hb1) (? & Hn2 & Hb2).
  apply bitmap_ext; [done..|congruence|]. intros j ?. by rewrite Hb1, Hb2 by lia.
Qed.

Lemma mark_leftover_spec n vv ix j w :
  0 ≤ ix → vv !! Z.to_nat ix = Some w → 0 ≤ w < 256 → 0 ≤ j → j + Z.of_nat n = 8 →
  ∃ w', mark_leftover n vv ix j = Ret (<[Z.to_nat ix := w']> vv) ∧ 0 ≤ w' < 256 ∧
    ∀ k, 0 ≤ k < 8 → Z.testbit w' k = (j <=? k) || Z.testbit w k.
Proof.
  revert vv j w. induction n as [|n IH]; intros vv j w Hix Hw Hr Hj Hn.
  { exists w. rewrite list_insert_id by done. split; [done|]. split; [done|].
    intros k Hk. by rewrite (proj2 (Z.leb_gt _ _)) by lia. }
  assert (Z.to_nat ix < length vv)%nat by (by eapply lookup_lt_Some).
  cbn -[u8 Z.shiftl]. rewrite (rd_lookup _ _ _ Hix Hw). cbn -[u8 Z.shiftl].
  rewrite wr_in_range by lia. cbn -[u8 Z.shiftl].
  destruct (IH (<[Z.to_nat ix := u8 (Z.lor w (Z.shiftl 1 j))]> vv) (j + 1)
    (u8 (Z.lor w (Z.shiftl 1 j)))) as (w' & -> & Hr' & Hb); [done| |apply u8_range|lia..|].
  { by apply list_lookup_insert_eq. }
  exists w'. rewrite list_insert_insert_eq. split; [done|]. split; [done|].
  intros k Hk. rewrite Hb, u8_testbit, Z.lor_spec, Z.shiftl_1_l, Z.pow2_bits_eqb by lia.
  destruct (Z.leb_spec (j + 1) k), (Z.leb_spec j k), (Z.eqb_spec j k);
    cbn; try lia; rewrite ?orb_true_r, ?orb_false_r; done.
Qed.

Lemma bit_replicate n m i :
  0 ≤ i < 8 * Z.of_nat m → bit (Bitmap n (replicate m 0)) i = false.
Proof.
  intros. unfold bit; cbn. rewrite lookup_total_replicate_2 by zdiv_lia. apply Z.bits_0.
Qed.

(** The freshly initialised map when its last word is only partly used. *)
Lemma init_partial nb :
  0 ≤ nb → nb mod 8 ≠ 0 →
  let ix := (nb + 7) / 8 - 1 in
  let ov := nb - ix * 8 in
  ∃ vv, mark_leftover (Z.to_nat (8 - ov)) (replicate (Z.to_nat ((nb + 7) / 8)) 0) ix ov = Ret vv ∧
    Z.of_nat (length vv) = (nb + 7) / 8 ∧ Forall (λ w, 0 ≤ w < 256) vv ∧
    ∀ i, 0 ≤ i < nb + 8 - ov → bit (Bitmap nb vv) i = (i / 8 =? ix) && (ov <=? i mod 8).
Proof.
  intros Hnb Hm ix ov.
  assert (0 < ov < 8 ∧ 0 ≤ ix) as [Hov Hix] by (subst ov ix; zdiv_lia).
  destruct (mark_leftover_spec (Z.to_nat (8 - ov))
    (replicate (Z.to_nat ((nb + 7) / 8)) 0) ix ov 0) as (w & Hml & Hr & Hbw);
    [done|apply lookup_replicate_2; lia|lia..|].
  eexists. split; [done|]. split_and!.
  - rewrite length_insert, length_replicate. lia.
  - apply Forall_insert; [|lia]. apply Forall_replicate. lia.
  - intros i Hi. rewrite bit_update by (rewrite ?length_replicate; lia).
    case_cmp; [|apply bit_replicate; subst ov ix; zdiv_lia].
    rewrite Hbw by zdiv_lia. by rewrite Z.bits_0, orb_false_r.
Qed.

Lemma bitmap_init_correct nb :
  0 ≤ nb < 2 ^ 32 - 8 →
  ∃ b, bitmap_init nb = Ret b ∧ wf b ∧ b.(b_nbits) = nb ∧
    ∀ i, 0 ≤ i < nb → bit b i = false.
Proof.
  intros Hnb. unfold bitmap_init, DIVROUNDUP, BITS_PER_WORD. cbv zeta.
  rewrite !u32_id by zdiv_lia. replace (nb + 8 - 1) with (nb + 7) by lia.
  destruct (decide (nb mod 8 = 0)) as [Hm|Hm].
  - rewrite (proj2 (Z.ltb_ge _ _)) by zdiv_lia. eexists. split; [done|].
    split_and!; cbn; [|done|intros; apply bit_replicate; zdiv_lia].
    split_and!; cbn; try lia; rewrite ?length_replicate; [zdiv_lia| |].
    + apply Forall_replicate. lia.
    + intros i Hi. zdiv_lia.
  - rewrite !(proj2 (Z.ltb_lt _ _)), !(proj2 (Z.eqb_eq _ _)) by zdiv_lia. cbn [andb kassert].
    destruct (init_partial nb) as (vv & -> & Hlen & Hf & Hbit); [lia|done|].
    eexists. split; [done|]. split_and!; [|done|].
    + split_and!; cbn; try done; try lia. intros i Hi. rewrite Hbit by zdiv_lia.
      apply andb_true_iff. split; [apply Z.eqb_eq|apply Z.leb_le]; zdiv_lia.
    + intros i Hi. rewrite Hbit by zdiv_lia. apply andb_false_iff.
      destruct (Z.eqb_spec (i / 8) ((nb + 7) / 8 - 1)); [right|by left].
      apply Z.leb_gt. zdiv_lia.
Qed.

(** ** Properties *)

(** [bitmap_alloc_after] (and so [bitmap_alloc], its case [min = 0]) returns
    the least clear bit at or after [min], sets it and nothing else, keeps the
    map well formed, and fails with [ENOSPC] only when every bit from [min] on is
    in use; it never runs out of its arrays. *)
Theorem bitmap_alloc_first_fit b min :
  wf b → 0 ≤ min → alloc_post b min (bitmap_alloc_after b min).
Proof. apply alloc_after_correct. Qed.

Lemma bitmap_alloc_first_fit_witness :
  alloc_post (Bitmap 11 [7; 250]) 1 (bitmap_alloc_after (Bitmap 11 [7; 250]) 1).
Proof.
  apply (bitmap_alloc_first_fit (Bitmap 11 [7; 250]) 1); [|lia].
  split_and!; cbn; [lia|lia|done|by repeat constructor|].
  intros i Hi. assert (i = 11 ∨ i = 12 ∨ i = 13 ∨ i = 14 ∨ i = 15) as Hc by lia.
  by destruct Hc as [->|[->|[->|[->| ->]]]].
Defined.

(** Marking a clear bit and clearing it again gives back exactly the map
    there was, and marking a bit that is set panics. *)
Theorem bitmap_mark_unmark b i : wf b → 0 ≤ i < b.(b_nbits) →
  if bit b i then bitmap_mark b i = Panic
  else ∃ b', bitmap_mark b i = Ret b' ∧ wf b' ∧ bitmap_isset b' i = Ret true ∧
         bitmap_unmark b' i = Ret b.
Proof.
  intros Hwf Hi. pose proof (mark_correct b i Hwf Hi) as Hm.
  destruct (bit b i) eqn:Hbit; [done|]. destruct Hm as (b' & -> & Hb' & Hn & Hj).
  exists b'. pose proof (wf_length b' Hb').
  split_and!; [done|done|rewrite isset_correct by (done || lia); by rewrite Hj, Z.eqb_refl by lia|].
  destruct (unmark_correct b' i Hb') as (b'' & -> & Hb'' & Hn' & Hj'); [lia|].
  f_equal. apply bitmap_ext; [done|done|congruence|].
  intros j ?. rewrite Hj', Hj by lia. destruct (Z.eqb_spec j i); [by subst|done].
Qed.

Lemma bitmap_mark_unmark_witness :
  ∃ b', bitmap_mark (Bitmap 11 [7; 250]) 8 = Ret b' ∧ wf b' ∧ bitmap_isset b' 8 = Ret true ∧
    bitmap_unmark b' 8 = Ret (Bitmap 11 [7; 250]).
Proof.
  apply (bitmap_mark_unmark (Bitmap 11 [7; 250]) 8); [|done].
  split_and!; cbn; [lia|lia|done|by repeat constructor|].
  intros i Hi. assert (i = 11 ∨ i = 12 ∨ i = 13 ∨ i = 14 ∨ i = 15) as Hc by lia.
  by destruct Hc as [->|[->|[->|[->| ->]]]].
Defined.
