(* ===== verification/Array.v ===== *)
(** * Resizeable arrays (kern/lib/array.c, kern/include/array.h)

    The model keeps the buffer [a_v], the number of elements [a_num] and the
    capacity [a_max].  A slot that was never stored into is [None]; reading it
    is [Undef].  [rep a l] says that the array holds the list [l]; the
    operations are shown to be the list operations under it. *)

From S2P Require Import Prelude.

(** ** Data and operations *)

Record array (A : Type) := Array { a_v : list (option A); a_num : Z; a_max : Z }.
Arguments Array {A} a_v a_num a_max.
Arguments a_v {A} a.
Arguments a_num {A} a.
Arguments a_max {A} a.

Definition sizeof_ptr : Z := 4.

Section Ops.
Context {A : Type}.
Implicit Types (a : array A).

Definition array_init : array A := Array [] 0 0.

Definition array_create (o : script) : option (array A) * script :=
  let '(ok, o) := kmalloc o in
  if ok then (Some array_init, o) else (None, o).

Definition array_cleanup a : res unit := kassert (a.(a_num) =? 0).

(** Ends with the array freed. *)
Definition array_destroy a : res unit := array_cleanup a.

Definition array_getnum a : Z := a.(a_num).

Definition array_get a (index : Z) : res A :=
  _ ← kassert (index <? a.(a_num));
  s ← a.(a_v).[index];
  deref s.

Definition array_set a (index : Z) (val : A) : res (array A) :=
  _ ← kassert (index <? a.(a_num));
  v' ← a.(a_v).[index <- Some val];
  Ret (Array v' a.(a_num) a.(a_max)).

(** The doubling loop of [array_preallocate]. *)
Fixpoint grow_max (fuel : nat) (num newmax : Z) : res Z :=
  match fuel with
  | O => Diverge
  | S fuel' =>
      if newmax <? num
      then grow_max fuel' num (if newmax =? 0 then 4 else u32 (newmax * 2))
      else Ret newmax
  end.

(** 32 doublings leave the range of [unsigned]. *)
Definition grow_fuel : nat := 34.

Definition array_preallocate a (num : Z) (o : script) : res (Z * array A * script) :=
  if a.(a_max) <? num then
    newmax ← grow_max grow_fuel num a.(a_max);
    let '(ok, o) := kmalloc o in
    if negb ok then Ret (ENOMEM, a, o) else
    let cap := u32 (newmax * sizeof_ptr) / sizeof_ptr in
    let v' := take (Z.to_nat a.(a_num)) a.(a_v) in
    Ret (0, Array (v' ++ replicate (Z.to_nat cap - length v') None) a.(a_num) newmax, o)
  else Ret (0, a, o).

Definition array_setsize a (num : Z) (o : script) : res (Z * array A * script) :=
  '(result, a', o') ← array_preallocate a num o;
  if negb (result =? 0) then Ret (result, a', o')
  else Ret (0, Array a'.(a_v) num a'.(a_max), o').

(** Returns the error, the array and the index of the new element. *)
Definition array_add a (val : A) (o : script) : res (Z * array A * Z * script) :=
  let index := a.(a_num) in
  '(ret, a', o') ← array_setsize a (u32 (index + 1)) o;
  if negb (ret =? 0) then Ret (ret, a', index, o') else
  v' ← a'.(a_v).[index <- Some val];
  Ret (0, Array v' a'.(a_num) a'.(a_max), index, o').

(** [memmove] of the elements above [index] one slot down. *)
Definition array_remove a (index : Z) : res (array A) :=
  _ ← kassert (a.(a_num) <=? a.(a_max));
  _ ← kassert (index <? a.(a_num));
  let num_to_move := u32 (a.(a_num) - (index + 1)) in
  if (0 <=? index) && (index + 1 + num_to_move <=? Z.of_nat (length a.(a_v))) then
    let src := take (Z.to_nat num_to_move) (drop (Z.to_nat (index + 1)) a.(a_v)) in
    let v' := take (Z.to_nat index) a.(a_v) ++ src
              ++ drop (Z.to_nat (index + num_to_move)) a.(a_v) in
    Ret (Array v' (u32 (a.(a_num) - 1)) a.(a_max))
  else Undef.

(** ** Representation *)

(** Capacities reached by doubling from 4; below [2^30] the byte count
    [newmax * 4] does not wrap around. *)
Definition capacity (m : Z) : Prop := m = 0 ∨ ∃ k, 0 ≤ k ≤ 27 ∧ m = 4 * 2 ^ k.

Definition rep a (l : list A) : Prop :=
  capacity a.(a_max) ∧ Z.of_nat (length a.(a_v)) = a.(a_max) ∧
  a.(a_num) = Z.of_nat (length l) ∧ a.(a_num) ≤ a.(a_max) ∧
  take (length l) a.(a_v) = Some <$> l.

(** ** Lemmas *)

Lemma capacity_bound m : capacity m → 0 ≤ m ≤ 2 ^ 29.
Proof.
  intros [->|(k & Hk & ->)]; [lia|].
  assert (2 ^ 0 ≤ 2 ^ k ≤ 2 ^ 27) by (split; apply Z.pow_le_mono_r; lia). lia.
Qed.

Lemma rep_init : rep array_init [].
Proof. split_and!; cbn; try done. by left. Qed.

Lemma rep_lookup a l i x :
  rep a l → l !! i = Some x → a.(a_v) !! i = Some (Some x).
Proof.
  intros (_ & _ & _ & _ & Ht) Hi. pose proof (lookup_lt_Some _ _ _ Hi).
  rewrite <- (lookup_take_lt _ (length l)) by done.
  rewrite Ht, list_lookup_fmap, Hi. done.
Qed.

Lemma get_correct a l i x :
  rep a l → 0 ≤ i → l !! Z.to_nat i = Some x → array_get a i = Ret x.
Proof.
  intros Hr Hi Hx. pose proof (lookup_lt_Some _ _ _ Hx).
  pose proof (rep_lookup _ _ _ _ Hr Hx) as Hv.
  destruct Hr as (_ & _ & Hn & _). unfold array_get.
  rewrite (proj2 (Z.ltb_lt _ _)) by lia. cbn.
  by rewrite (rd_lookup _ _ _ Hi Hv).
Qed.

Lemma get_out_of_range a l i :
  rep a l → Z.of_nat (length l) ≤ i → array_get a i = Panic.
Proof.
  intros (_ & _ & Hn & _) Hi. unfold array_get.
  by rewrite (proj2 (Z.ltb_ge _ _)) by lia.
Qed.

Lemma set_correct a l i x :
  rep a l → 0 ≤ i < Z.of_nat (length l) →
  ∃ a', array_set a i x = Ret a' ∧ rep a' (<[Z.to_nat i := x]> l) ∧ a'.(a_num) = a.(a_num).
Proof.
  intros (Hc & Hm & Hn & Hle & Ht) Hi. unfold array_set.
  rewrite (proj2 (Z.ltb_lt _ _)) by lia. cbn.
  rewrite wr_in_range by lia. cbn. eexists. split; [done|]. split; [|done].
  split_and!; cbn; rewrite ?length_insert; try lia; [done|].
  rewrite take_insert_lt by lia. rewrite Ht. symmetry. apply list_fmap_insert.
Qed.

Lemma grow_max_S fuel num m :
  grow_max (S fuel) num m =
  if m <? num then grow_max fuel num (if m =? 0 then 4 else u32 (m * 2)) else Ret m.
Proof. done. Qed.

(** The doubling loop ends for every size whose byte count does not wrap. *)
Lemma grow_max_pow k num : 0 ≤ k ≤ 27 → num ≤ 2 ^ 29 →
  ∀ fuel, 28 - k ≤ Z.of_nat fuel →
  ∃ k', k ≤ k' ≤ 27 ∧ grow_max fuel num (4 * 2 ^ k) = Ret (4 * 2 ^ k') ∧
    num ≤ 4 * 2 ^ k' ∧ (k < k' → 2 * 2 ^ k' < num).
Proof.
  intros Hk Hnum fuel. revert k Hk.
  induction fuel as [|fuel IH]; intros k Hk Hf; [lia|].
  assert (0 < 2 ^ k) by (apply Z.pow_pos_nonneg; lia).
  assert (2 ^ k ≤ 2 ^ 27) by (apply Z.pow_le_mono_r; lia).
  cbn [grow_max]. case_cmp; [|exists k; split_and!; try done; intros; lia].
  assert (k < 27).
  { destruct (decide (k = 27)) as [->|]; [change (2 ^ 27) with 134217728 in *; lia|lia]. }
  rewrite (proj2 (Z.eqb_neq _ _)) by lia.
  rewrite u32_id by lia.
  replace (4 * 2 ^ k * 2) with (4 * 2 ^ (k + 1)) by (rewrite Z.pow_add_r by lia; lia).
  destruct (IH (k + 1)) as (k' & ? & -> & ? & Hlt); [lia..|].
  exists k'. split_and!; try done; try lia. intros _.
  destruct (decide (k + 1 < k')); [by apply Hlt|].
  replace k' with (k + 1) by lia. rewrite Z.pow_add_r by lia. lia.
Qed.

Lemma grow_max_correct m num :
  capacity m → m < num ≤ 2 ^ 29 →
  ∃ m', grow_max grow_fuel num m = Ret m' ∧ capacity m' ∧ m < m' ∧ num ≤ m' < Z.max 8 (2 * num).
Proof.
  intros [->|(k & Hk & ->)] Hnum.
  - unfold grow_fuel. rewrite grow_max_S.
    rewrite (proj2 (Z.ltb_lt _ _)) by lia. cbn [Z.eqb].
    destruct (grow_max_pow 0 num) with (fuel := 33%nat) as (k' & ? & Hg & ? & Hlt); [lia..|].
    change (4 * 2 ^ 0) with 4 in Hg. rewrite Hg. eexists. split; [done|].
    assert (0 < 2 ^ k') by (apply Z.pow_pos_nonneg; lia).
    split_and!; try lia; [right; exists k'; lia|].
    destruct (decide (0 < k')); [specialize (Hlt ltac:(lia)); lia|].
    replace k' with 0 by lia. change (2 ^ 0) with 1. lia.
  - destruct (grow_max_pow k num) with (fuel := grow_fuel) as (k' & ? & -> & ? & Hlt);
      [lia..|unfold grow_fuel; lia|].
    assert (k < k').
    { destruct (decide (k' = k)) as [->|]; lia. }
    specialize (Hlt ltac:(lia)).
    eexists. split_and!; [done|right; exists k'; lia| |lia..].
    apply Z.mul_lt_mono_pos_l, Z.pow_lt_mono_r; lia.
Qed.

(** Expanding the buffer, or not when the allocation fails. *)
Lemma preallocate_correct a l num o :
  rep a l → 0 ≤ num ≤ 2 ^ 29 →
  ∃ err a', array_preallocate a num o =
      Ret (err, a', if a.(a_max) <? num then snd (kmalloc o) else o) ∧
    rep a' l ∧
    ((err = 0 ∧ num ≤ a'.(a_max) ∧ ((a.(a_max) <? num) = true → fst (kmalloc o) = true)) ∨
     (err = ENOMEM ∧ a' = a ∧ a.(a_max) < num ∧ fst (kmalloc o) = false)).
Proof.
  intros Hr Hnum. unfold array_preallocate. case_cmp; [|eexists 0, a; naive_solver].
  pose proof Hr as (Hc & Hm & Hn & Hle & Ht).
  destruct (grow_max_correct a.(a_max) num) as (m' & -> & Hc' & ? & ?); [done|lia|]. cbn.
  destruct (kmalloc o) as [[] o'] eqn:Ho; cbn -[u32]; [|eexists ENOMEM, a; naive_solver].
  eexists 0, _. split; [done|]. split; [|left; cbn; lia || naive_solver lia].
  pose proof (capacity_bound _ Hc'). unfold sizeof_ptr. rewrite u32_id by lia.
  rewrite Z.div_mul by lia.
  assert (length (take (Z.to_nat a.(a_num)) a.(a_v)) = length l).
  { rewrite length_take. lia. }
  split_and!; cbn; try done; try lia.
  - rewrite length_app, length_replicate. lia.
  - rewrite take_app_le by lia. rewrite take_take. rewrite <- Ht. f_equal; lia.
Qed.

Lemma array_add_correct a l x o :
  rep a l → Z.of_nat (length l) < 2 ^ 29 →
  ∃ err a' o', array_add a x o = Ret (err, a', Z.of_nat (length l), o') ∧
    ((err = 0 ∧ rep a' (l ++ [x])) ∨ (err = ENOMEM ∧ rep a' l ∧ fst (kmalloc o) = false)).
Proof.
  intros Hr Hl. pose proof Hr as (_ & _ & Hn & _).
  unfold array_add, array_setsize. rewrite u32_id by lia.
  destruct (preallocate_correct a l (a.(a_num) + 1) o) as (err & a' & -> & Hr' & Hcase);
    [done|lia|]. cbn. rewrite Hn.
  destruct Hcase as [(-> & Hmax & _)|(-> & -> & _ & Hf)]; cbn.
  - destruct Hr' as (Hc' & Hm' & Hn' & Hle' & Ht').
    rewrite wr_in_range by lia. cbn. eexists 0, _, _. split; [done|]. left. split; [done|].
    split_and!; cbn; rewrite ?length_insert, ?length_app; cbn; try done; try lia.
    rewrite Nat.add_1_r, Nat2Z.id.
    rewrite (take_S_r _ _ (Some x)) by (apply list_lookup_insert_eq; lia).
    rewrite take_insert_ge by lia. by rewrite Ht', fmap_app.
  - eexists ENOMEM, a, _. split; [done|]. right. done.
Qed.

(** Dropping the last element, as [heap_pop] does by decrementing [num]. *)
Lemma rep_drop_last a l :
  rep a l → (0 < length l)%nat →
  rep (Array a.(a_v) (a.(a_num) - 1) a.(a_max)) (take (length l - 1) l).
Proof.
  intros (Hc & Hm & Hn & Hle & Ht) Hl.
  split_and!; cbn; rewrite ?length_take; try done; try lia.
  rewrite fmap_take, <- Ht, take_take. f_equal; lia.
Qed.

Lemma array_remove_correct a l i :
  rep a l → 0 ≤ i < Z.of_nat (length l) →
  ∃ a', array_remove a i = Ret a' ∧ rep a' (delete (Z.to_nat i) l).
Proof.
  intros Hr Hi. pose proof Hr as (Hc & Hm & Hn & Hle & Ht).
  pose proof (capacity_bound _ Hc). unfold array_remove.
  rewrite (proj2 (Z.leb_le a.(a_num) a.(a_max))), (proj2 (Z.ltb_lt i a.(a_num))) by lia.
  rewrite !u32_id by lia. cbn.
  rewrite (proj2 (Z.leb_le 0 i)), (proj2 (Z.leb_le (i + 1 + _) _)) by lia. cbn.
  eexists. split; [done|].
  destruct (lookup_lt_is_Some_2 l (Z.to_nat i)) as [x Hx]; [lia|].
  pose proof (delete_take_drop l (Z.to_nat i)) as Hd.
  assert (length (delete (Z.to_nat i) l) = length l - 1)%nat as Hlen
    by (rewrite length_delete by (by eexists); lia).
  split_and!; cbn; rewrite ?Hlen; try done; try lia.
  - rewrite !length_app, !length_take, !length_drop. lia.
  - rewrite app_assoc, take_app_le by (rewrite length_app, !length_take, length_drop; lia).
    rewrite take_ge by (rewrite length_app, !length_take, length_drop; lia).
    rewrite Hd, fmap_app, fmap_take, fmap_drop, <- Ht, take_take, skipn_firstn_comm.
    replace (Z.to_nat (i + 1)) with (S (Z.to_nat i)) by lia. f_equal; f_equal; lia.
Qed.

End Ops.

(** ** Properties *)

(** [array_add] appends to the array it stands for and reports the old
    length as index, growing the storage when it is full; a failed allocation
    leaves the content as it was. *)
Theorem array_add_appends {A} (a : array A) l x o :
  rep a l → Z.of_nat (length l) < 2 ^ 29 →
  ∃ err a' o', array_add a x o = Ret (err, a', Z.of_nat (length l), o') ∧
    ((err = 0 ∧ rep a' (l ++ [x])) ∨ (err = ENOMEM ∧ rep a' l ∧ fst (kmalloc o) = false)).
Proof. apply array_add_correct. Qed.

Lemma array_add_appends_witness :
  ∃ err a' o', array_add array_init 5 [] = Ret (err, a', 0, o') ∧
    ((err = 0 ∧ rep a' [5]) ∨ (err = ENOMEM ∧ rep a' [] ∧ fst (kmalloc []) = false)).
Proof. apply (array_add_appends array_init [] 5 []); [apply rep_init|cbn; lia]. Defined.

(** [array_remove] deletes one element and moves the later ones down. *)
Theorem array_remove_shifts {A} (a : array A) l i :
  rep a l → 0 ≤ i < Z.of_nat (length l) →
  ∃ a', array_remove a i = Ret a' ∧ rep a' (delete (Z.to_nat i) l).
Proof. apply array_remove_correct. Qed.

Lemma array_remove_shifts_witness :
  ∃ a', array_remove (Array [Some 7; Some 8; Some 9; None] 3 4) 1 = Ret a' ∧ rep a' [7; 9].
Proof.
  apply (array_remove_shifts (Array [Some 7; Some 8; Some 9; None] 3 4) [7; 8; 9] 1); [|done].
  split_and!; cbn; [right; exists 0; split; [lia|done]|done..|lia|done].
Defined.

(** The lengths the doubling loop goes through: zero, and powers of two. *)
Lemma grow_max_cycle fuel num newmax : 2 ^ 31 < num < 2 ^ 32 →
  newmax = 0 ∨ (∃ k : nat, (k ≤ 29)%nat ∧ newmax = 4 * 2 ^ Z.of_nat k) →
  grow_max fuel num newmax = Diverge.
Proof.
  intros Hnum. revert newmax. induction fuel as [|fuel IH]; intros newmax Hm; [done|].
  rewrite grow_max_S. assert (newmax ≤ 2 ^ 31) as Hle.
  { destruct Hm as [->|(k & Hk & ->)]; [lia|].
    assert (2 ^ Z.of_nat k ≤ 2 ^ 29) by (apply Z.pow_le_mono_r; lia). lia. }
  rewrite (proj2 (Z.ltb_lt _ _)) by lia. apply IH.
  destruct Hm as [->|(k & Hk & ->)]; [right; exists 0%nat; split; [lia|done]|].
  pose proof (Z.pow_pos_nonneg 2 (Z.of_nat k)).
  destruct (Z.eqb_spec (4 * 2 ^ Z.of_nat k) 0); [lia|].
  destruct (decide (k = 29%nat)) as [->|Hne]; [by left|right].
  exists (S k). split; [lia|]. rewrite Nat2Z.inj_succ, Z.pow_succ_r by lia.
  assert (2 ^ Z.of_nat k ≤ 2 ^ 28) by (apply Z.pow_le_mono_r; lia).
  rewrite u32_id by lia. lia.
Qed.

(** C40: Asked for more than 2^31 slots, the doubling loop of
    [array_preallocate] never ends: the capacity wraps around to zero and starts
    again, whatever number of turns is allowed. *)
Theorem array_doubling_diverges fuel num :
  2 ^ 31 < num < 2 ^ 32 → grow_max fuel num 0 = Diverge.
Proof. intros. apply grow_max_cycle; [done|by left]. Qed.

Lemma array_doubling_diverges_witness : grow_max 1000 (2 ^ 31 + 1) 0 = Diverge.
Proof. apply (array_doubling_diverges 1000 (2 ^ 31 + 1)). lia. Defined.
