(* ===== verification/Heap.v ===== *)
(** * Priority queues (kern/lib/heap.c)

    A binary heap in a resizeable array.  [cmp x y] is the comparator of the
    client: it holds when [x] precedes [y].  The loops go through [array_get]
    and [array_set], so that an index outside of the array is a failed
    assertion of the model as it is of the code. *)

From Stdlib Require Import Sorting.Sorted.
From S2P Require Import Prelude Array.

Section Heap.
Context {A : Type} (cmp : A → A → bool).

(** ** Operations *)

Definition PARENT (i : Z) : Z := Z.quot (i - 1) 2.
Definition LEFT (i : Z) : Z := 2 * i + 1.
Definition RIGHT (i : Z) : Z := 2 * i + 2.

(** The record has the array only: the comparator is a section variable and
    the [datatype] canary of a live heap is always [HEAPTYPE]. *)
Record heap := Heap { vals : array A }.

Definition heap_create (o : script) : option heap * script :=
  let '(ok, o) := kmalloc o in
  if negb ok then (None, o) else
  let '(a, o) := array_create o in
  (Heap <$> a, o).

(** Exchanges the elements at [i] and [j]. *)
Definition swap_vals (a : array A) (i j : Z) : res (array A) :=
  t ← array_get a i;
  y ← array_get a j;
  a1 ← array_set a i y;
  array_set a1 j t.

Fixpoint bubble_up (fuel : nat) (a : array A) (index : Z) : res (array A) :=
  match fuel with
  | O => Diverge
  | S fuel' =>
      let p := PARENT index in
      if 0 <? index then
        x ← array_get a index;
        y ← array_get a p;
        if cmp x y then
          a' ← swap_vals a index p;
          bubble_up fuel' a' p
        else Ret a
      else Ret a
  end.

(** The child that [trickle_down] exchanges with [index], [-1] for none. *)
Definition trickle_child (a : array A) (index : Z) : res Z :=
  let r := u32 (RIGHT index) in
  let l := u32 (LEFT index) in
  right_first ← (if r <? a.(a_num)
    then y ← array_get a r; x ← array_get a index; Ret (cmp y x)
    else Ret false);
  if (right_first : bool) then
    yl ← array_get a l;
    yr ← array_get a r;
    Ret (if cmp yl yr then i32 l else i32 r)
  else
    left_first ← (if l <? a.(a_num)
      then y ← array_get a l; x ← array_get a index; Ret (cmp y x)
      else Ret false);
    Ret (if (left_first : bool) then i32 l else -1).

Fixpoint trickle_down (fuel : nat) (a : array A) (index : Z) : res (array A) :=
  match fuel with
  | O => Diverge
  | S fuel' =>
      if 0 <=? index then
        j ← trickle_child a index;
        if 0 <=? j then
          a' ← swap_vals a j index;
          trickle_down fuel' a' j
        else trickle_down fuel' a j
      else Ret a
  end.

(** On failure of the allocation the heap is destroyed. *)
Definition heap_push (h : heap) (newval : A) (o : script) : res (Z * option heap * script) :=
  '(err, a, newindex, o) ← array_add h.(vals) newval o;
  if err =? ENOMEM then
    _ ← array_destroy a;
    Ret (ENOMEM, None, o)
  else
    _ ← kassert (newindex =? u32 (a.(a_num) - 1));
    a' ← bubble_up (Z.to_nat a.(a_num)) a (a.(a_num) - 1);
    Ret (0, Some (Heap a'), o).

Definition heap_pop (h : heap) : res (option A * heap) :=
  let a := h.(vals) in
  if a.(a_num) =? 0 then Ret (None, h) else
  top ← array_get a 0;
  last ← array_get a (a.(a_num) - 1);
  a1 ← array_set a 0 last;
  let a2 := Array a1.(a_v) (a1.(a_num) - 1) a1.(a_max) in
  a3 ← trickle_down (S (S (Z.to_nat a2.(a_num)))) a2 0;
  Ret (Some top, Heap a3).

Definition heap_top (h : heap) : res A := array_get h.(vals) 0.

Definition heap_isempty (h : heap) : bool := h.(vals).(a_num) =? 0.

Definition heap_getsize (h : heap) : Z := h.(vals).(a_num).

Definition heap_destroy (h : heap) : res unit := array_destroy h.(vals).

Fixpoint assert_heap_property (fuel : nat) (a : array A) (index max : Z) : res unit :=
  match fuel with
  | O => Diverge
  | S fuel' =>
      if index <? max then
        x ← array_get a index;
        l ← array_get a (LEFT index);
        _ ← kassert (cmp x l);
        x' ← array_get a index;
        r ← array_get a (RIGHT index);
        _ ← kassert (cmp x' r);
        _ ← assert_heap_property fuel' a (LEFT index) max;
        assert_heap_property fuel' a (RIGHT index) max
      else Ret tt
  end.

Definition heap_assertvalid (h : heap) : res unit :=
  assert_heap_property (S (Z.to_nat h.(vals).(a_num))) h.(vals) 0 h.(vals).(a_num).

(** Clients: push every element of a list, and pop until the heap is empty. *)
Fixpoint push_all (l : list A) (h : heap) : res heap :=
  match l with
  | [] => Ret h
  | x :: l' =>
      '(_, oh, _) ← heap_push h x [];
      h' ← deref oh;
      push_all l' h'
  end.

Fixpoint pop_all (fuel : nat) (h : heap) : res (list A) :=
  match fuel with
  | O => Diverge
  | S fuel' =>
      '(ox, h') ← heap_pop h;
      match ox with
      | None => Ret []
      | Some x => l ← pop_all fuel' h'; Ret (x :: l)
      end
  end.

(** ** Specification *)

(** [x] may stand above [y]. *)
Definition le (x y : A) : Prop := cmp y x = false.

Definition parent (j : nat) : nat := ((j - 1) / 2)%nat.

(** Every element stands above its children, except as [P] allows. *)
Definition ordered_but (P : nat → Prop) (l : list A) : Prop :=
  ∀ j x y, (0 < j)%nat → ¬ P j →
    l !! parent j = Some x → l !! j = Some y → le x y.

Definition heap_ordered (l : list A) : Prop := ordered_but (λ _, False) l.

(** The grandparent condition that both loops keep around their hole [i]. *)
Definition above_hole (l : list A) (i : nat) : Prop :=
  ∀ j x y, (0 < i)%nat → parent j = i → (0 < j)%nat →
    l !! parent i = Some x → l !! j = Some y → le x y.

(** A heap that holds the elements of [l]. *)
Definition is_heap (h : heap) (l : list A) : Prop :=
  ∃ l', rep h.(vals) l' ∧ heap_ordered l' ∧ l' ≡ₚ l.

(** The comparator is a strict weak order. *)
Class StrictWeakOrder : Prop := {
  cmp_asym : ∀ x y, cmp x y = true → cmp y x = false;
  cmp_neg_trans : ∀ x y z, cmp x y = false → cmp y z = false → cmp x z = false
}.

(** ** Lemmas *)

Context `{SWO : StrictWeakOrder}.

#[local] Arguments parent : simpl never.
#[local] Arguments swap_vals : simpl never.
#[local] Arguments trickle_child : simpl never.
#[local] Arguments array_get : simpl never.
#[local] Arguments array_set : simpl never.
#[local] Arguments u32 : simpl never.
#[local] Arguments i32 : simpl never.
#[local] Arguments Nat.mul : simpl never.

Lemma le_trans x y z : le x y → le y z → le x z.
Proof. unfold le. intros. by apply cmp_neg_trans with y. Qed.

Lemma cmp_le x y : cmp x y = true → le x y.
Proof. apply cmp_asym. Qed.

Lemma le_refl x : le x x.
Proof. unfold le. destruct (cmp x x) eqn:E; [|done]. by rewrite (cmp_asym _ _ E) in E. Qed.

Lemma parent_lt j : (0 < j)%nat → (parent j < j)%nat.
Proof. intros. unfold parent. apply Nat.Div0.div_lt_upper_bound. lia. Qed.

Lemma parent_children j i :
  (0 < j)%nat → parent j = i ↔ (0 < j)%nat ∧ (j = 2 * i + 1 ∨ j = 2 * i + 2)%nat.
Proof.
  intros. unfold parent. pose proof (Nat.div_mod_eq (j - 1) 2).
  pose proof (Nat.mod_upper_bound (j - 1) 2). lia.
Qed.

Lemma PARENT_nat (i : nat) : (0 < i)%nat → PARENT (Z.of_nat i) = Z.of_nat (parent i).
Proof.
  intros. unfold PARENT, parent. rewrite Z.quot_div_nonneg by lia.
  rewrite Nat2Z.inj_div. f_equal; lia.
Qed.

Lemma heap_ordered_le l j x y :
  heap_ordered l → (0 < j)%nat → l !! parent j = Some x → l !! j = Some y → le x y.
Proof. intros Ho ? ? ?. by apply (Ho j); [|intros []|..]. Qed.

(** Exchanging two elements permutes the list. *)
Lemma insert_Permutation (l : list A) i x y :
  l !! i = Some x → x :: <[i := y]> l ≡ₚ y :: l.
Proof.
  intros Hx. rewrite <- (take_drop_middle l i x Hx) at 2.
  rewrite insert_take_drop by (by eapply lookup_lt_Some).
  rewrite <- !Permutation_middle. apply Permutation_swap.
Qed.

Lemma swap_Permutation (l : list A) i j x y :
  i ≠ j → l !! i = Some x → l !! j = Some y → <[j := x]> (<[i := y]> l) ≡ₚ l.
Proof.
  intros Hne Hi Hj. apply (Permutation_cons_inv (a := y)).
  rewrite insert_Permutation; [by apply insert_Permutation|].
  by rewrite list_lookup_insert_ne.
Qed.

Lemma lookup_swap (l : list A) i j k x y :
  i ≠ j → l !! i = Some x → l !! j = Some y →
  <[j := x]> (<[i := y]> l) !! k =
  if decide (k = j) then Some x else if decide (k = i) then Some y else l !! k.
Proof.
  intros Hne Hi Hj. apply lookup_lt_Some in Hi, Hj.
  repeat case_decide; subst.
  - rewrite list_lookup_insert_eq; [done|]. by rewrite length_insert.
  - rewrite list_lookup_insert_ne, list_lookup_insert_eq; done.
  - by rewrite !list_lookup_insert_ne by done.
Qed.

Lemma swap_vals_correct a l (i j : nat) x y :
  rep a l → l !! i = Some x → l !! j = Some y → i ≠ j →
  ∃ a', swap_vals a (Z.of_nat i) (Z.of_nat j) = Ret a' ∧
    rep a' (<[j := x]> (<[i := y]> l)) ∧ a'.(a_num) = a.(a_num).
Proof.
  intros Hr Hi Hj Hne. unfold swap_vals.
  pose proof (lookup_lt_Some _ _ _ Hi). pose proof (lookup_lt_Some _ _ _ Hj).
  rewrite (get_correct a l (Z.of_nat i) x), (get_correct a l (Z.of_nat j) y)
    by (rewrite ?Nat2Z.id; auto; lia).
  destruct (set_correct a l (Z.of_nat i) y) as (a1 & Ha1 & Hr1 & Hn1); [done|lia|].
  cbn. rewrite Ha1. cbn. rewrite Nat2Z.id in Hr1.
  destruct (set_correct a1 (<[i := y]> l) (Z.of_nat j) x) as (a2 & -> & Hr2 & Hn2);
    [done|rewrite length_insert; lia|].
  rewrite Nat2Z.id in Hr2. exists a2. split_and!; [done|done|congruence].
Qed.

(** One exchange of [bubble_up] moves its hole to the parent. *)
Lemma bubble_step l i x y :
  (0 < i)%nat → l !! i = Some x → l !! parent i = Some y → cmp x y = true →
  ordered_but (eq i) l → above_hole l i →
  let l' := <[parent i := x]> (<[i := y]> l) in
  ordered_but (eq (parent i)) l' ∧ above_hole l' (parent i).
Proof.
  intros Hi Hx Hy Hc Hord Habove l'. pose proof (parent_lt i Hi) as Hp.
  assert (∀ k, l' !! k = if decide (k = parent i) then Some x
    else if decide (k = i) then Some y else l !! k) as Hl'.
  { intros k. apply lookup_swap; [lia|done|done]. }
  apply cmp_le in Hc. split.
  - intros j u w Hj Hne Hu Hw. rewrite Hl' in Hu, Hw.
    pose proof (parent_lt j Hj). repeat case_decide; simplify_eq; try lia.
    + (* [j = i], below [x] *) done.
    + (* a sibling of [i] *)
      apply le_trans with y; [done|]. eapply Hord; [done|lia| |done]. congruence.
    + (* a child of [i] *) eapply Habove; [done| |done|done|done]. done.
    + eapply Hord; [done|lia|done|done].
  - intros j u w Hpos Hpj Hj Hu Hw. rewrite Hl' in Hu, Hw.
    pose proof (parent_lt (parent i) Hpos). pose proof (parent_lt j Hj).
    repeat case_decide; simplify_eq; try lia.
    + eapply Hord; [exact Hpos|lia|done|done].
    + apply le_trans with y; [eapply Hord; [exact Hpos|lia|done|done]|].
      eapply Hord; [exact Hj|lia| |done]. congruence.
Qed.

Lemma bubble_up_correct fuel a l (i : nat) :
  rep a l → (i < length l)%nat → (i < fuel)%nat →
  ordered_but (eq i) l → above_hole l i →
  ∃ a' l', bubble_up fuel a (Z.of_nat i) = Ret a' ∧ rep a' l' ∧ heap_ordered l' ∧ l' ≡ₚ l.
Proof.
  revert a l i. induction fuel as [|fuel IH]; intros a l i Hr Hi Hf Hord Habove; [lia|].
  cbn. case_cmp.
  2: { assert (i = 0)%nat as -> by lia. exists a, l. split_and!; try done.
       intros j x y Hj _. apply Hord; lia. }
  assert (0 < i)%nat as Hi0 by lia. pose proof (parent_lt i Hi0).
  rewrite PARENT_nat by done.
  destruct (lookup_lt_is_Some_2 l i) as [x Hx]; [lia|].
  destruct (lookup_lt_is_Some_2 l (parent i)) as [y Hy]; [lia|].
  rewrite (get_correct a l (Z.of_nat i) x), (get_correct a l (Z.of_nat (parent i)) y)
    by (rewrite ?Nat2Z.id; auto; lia).
  cbn. destruct (cmp x y) eqn:Hc.
  - destruct (swap_vals_correct a l i (parent i) x y) as (a1 & -> & Hr1 & _);
      [done|done|done|lia|]. cbn.
    destruct (bubble_step l i x y) as [Ho1 Ha1]; [done..|].
    destruct (IH a1 (<[parent i := x]> (<[i := y]> l)) (parent i))
      as (a' & l' & -> & ? & ? & Hperm); [done|rewrite !length_insert; lia|lia|done|done|].
    exists a', l'. split_and!; try done. rewrite Hperm. apply swap_Permutation; auto; lia.
  - exists a, l. split_and!; try done. intros j u w Hj _ Hu Hw.
    destruct (decide (i = j)) as [<-|]; [|eapply Hord; eauto]. naive_solver.
Qed.

(** Appending an element makes a hole at the end. *)
Lemma push_hole l x :
  heap_ordered l → ordered_but (eq (length l)) (l ++ [x]) ∧ above_hole (l ++ [x]) (length l).
Proof.
  intros Ho. split.
  - intros j u w Hj Hne Hu Hw.
    pose proof (lookup_lt_Some _ _ _ Hw) as Hlt. rewrite length_app in Hlt; cbn in Hlt.
    pose proof (parent_lt j Hj). rewrite lookup_app_l in Hu, Hw by lia.
    by eapply heap_ordered_le.
  - intros j u w _ Hpj Hj _ Hw.
    pose proof (lookup_lt_Some _ _ _ Hw) as Hlt. rewrite length_app in Hlt; cbn in Hlt.
    pose proof (parent_lt j Hj). lia.
Qed.

Lemma push_correct h l x o :
  is_heap h l → Z.of_nat (length l) < 2 ^ 29 →
  (∃ h' o', heap_push h x o = Ret (0, Some h', o') ∧ is_heap h' (x :: l)) ∨
  (fst (kmalloc o) = false ∧
   if decide (l = []) then ∃ o', heap_push h x o = Ret (ENOMEM, None, o')
   else heap_push h x o = Panic).
Proof.
  intros (l0 & Hr & Ho & Hp) Hlen. unfold heap_push.
  rewrite <- (Permutation_length Hp) in Hlen.
  destruct (array_add_correct h.(vals) l0 x o) as (err & a & o' & -> & Hcase); [done|done|]. cbn.
  destruct Hcase as [(-> & Hr')|(-> & Hr' & Hf)]; cbn.
  - left. pose proof Hr' as (_ & _ & Hn & _). rewrite length_app in Hn; cbn in Hn.
    rewrite Hn, u32_id by lia. rewrite (proj2 (Z.eqb_eq _ _)) by lia. cbn.
    destruct (push_hole l0 x Ho) as [Ho1 Ha1].
    destruct (bubble_up_correct (Z.to_nat (Z.of_nat (length l0 + 1))) a (l0 ++ [x]) (length l0))
      as (a' & l' & Hb & Hr2 & Ho2 & Hp2); [done|rewrite length_app; cbn; lia|lia|done|done|].
    replace (Z.of_nat (length l0 + 1) - 1) with (Z.of_nat (length l0)) by lia.
    rewrite Hb. cbn. eexists _, _. split; [done|]. exists l'. split_and!; try done.
    by rewrite Hp2, <- Permutation_cons_append, Hp.
  - right. split; [done|]. destruct Hr' as (_ & _ & Hn & _).
    unfold array_destroy, array_cleanup. rewrite Hn. case_decide as Hl.
    + subst l. apply Permutation_nil_r in Hp. subst l0. cbn. eauto.
    + destruct l0; [by apply Permutation_nil_l in Hp|done].
Qed.

(** ** [trickle_down] *)

(** [x] may stand above all the children of node [i]. *)
Definition above_children (l : list A) (i : nat) (x : A) : Prop :=
  ∀ j y, (0 < j)%nat → parent j = i → l !! j = Some y → le x y.

Lemma above_children_intro l i x :
  (∀ y, l !! (2 * i + 1)%nat = Some y → le x y) →
  (∀ y, l !! (2 * i + 2)%nat = Some y → le x y) → above_children l i x.
Proof.
  intros Hl Hr j y Hj Hpj Hy.
  apply parent_children in Hpj as [_ [->| ->]]; auto.
Qed.

(** The two nodes below [i], as [array_get] sees them. *)
Lemma get_child (a : array A) (l : list A) (c : nat) :
  rep a l → (if Z.of_nat c <? Z.of_nat (length l) then
    ∃ y, l !! c = Some y ∧ array_get a (Z.of_nat c) = Ret y ∧ i32 (Z.of_nat c) = Z.of_nat c
  else l !! c = None).
Proof.
  intros Hr. pose proof Hr as (Hc & Hm & Hn & Hle & _). pose proof (capacity_bound _ Hc).
  case_cmp; [|apply lookup_ge_None_2; lia].
  destruct (lookup_lt_is_Some_2 l c) as [y Hy]; [lia|]. exists y. split_and!; [done| |].
  - apply (get_correct a l); [done|lia|by rewrite Nat2Z.id].
  - unfold i32. rewrite Z.mod_small by lia. lia.
Qed.

(** What [trickle_child] chooses: nothing when the element at [i] may stay, or
    the child that may stand above the other one and above the element. *)
Lemma trickle_child_correct a l (i : nat) x :
  rep a l → l !! i = Some x →
  (trickle_child a (Z.of_nat i) = Ret (-1) ∧ above_children l i x) ∨
  (∃ c z, trickle_child a (Z.of_nat i) = Ret (Z.of_nat c) ∧ (0 < c)%nat ∧ parent c = i ∧
   l !! c = Some z ∧ le z x ∧ above_children l i z).
Proof.
  intros Hr Hx. pose proof Hr as (Hc & Hm & Hn & Hle & _).
  pose proof (capacity_bound _ Hc). pose proof (lookup_lt_Some _ _ _ Hx).
  unfold trickle_child, LEFT, RIGHT. rewrite !u32_id by lia. rewrite Hn.
  rewrite (get_correct a l (Z.of_nat i) x) by (rewrite ?Nat2Z.id; auto; lia).
  replace (2 * Z.of_nat i + 2) with (Z.of_nat (2 * i + 2)) by lia.
  replace (2 * Z.of_nat i + 1) with (Z.of_nat (2 * i + 1)) by lia.
  assert (parent (2 * i + 1) = i ∧ parent (2 * i + 2) = i) as [Hpl Hpr].
  { split; apply parent_children; lia. }
  pose proof (get_child a l (2 * i + 1) Hr) as Hl.
  pose proof (get_child a l (2 * i + 2) Hr) as Hr2.
  destruct (Z.ltb_spec (Z.of_nat (2 * i + 1)) (Z.of_nat (length l))).
  2: { left. rewrite (proj2 (Z.ltb_ge _ _)) in * by lia. cbn. split; [done|].
       apply above_children_intro; intros; simplify_eq. }
  destruct Hl as (yl & Hyl & Hgl & ->). rewrite Hgl. cbn.
  assert (∀ c z, (0 < c)%nat → parent c = i → l !! c = Some z → le z x → le z yl →
    (∀ y, l !! (2 * i + 2)%nat = Some y → le z y) →
    ∃ c' z', Ret (Z.of_nat c) = Ret (Z.of_nat c') ∧ (0 < c')%nat ∧ parent c' = i ∧
      l !! c' = Some z' ∧ le z' x ∧ above_children l i z') as Hpick.
  { intros c z. exists c, z. split_and!; try done.
    apply above_children_intro; [|done]. intros; by simplify_eq. }
  destruct (Z.of_nat (2 * i + 2) <? Z.of_nat (length l)); cbn.
  - destruct Hr2 as (yr & Hyr & Hgr & ->). rewrite Hgr. cbn.
    destruct (cmp yr x) eqn:Hcr; cbn; [right; destruct (cmp yl yr) eqn:Hlr|
      destruct (cmp yl x) eqn:Hcl; [right|left]].
    + apply (Hpick _ yl); auto using le_refl; [lia| |].
      * apply le_trans with yr; by apply cmp_le.
      * intros; simplify_eq. by apply cmp_le.
    + apply (Hpick _ yr); auto using cmp_le; [lia|]. intros; simplify_eq. apply le_refl.
    + apply (Hpick _ yl); auto using le_refl, cmp_le; [lia|]. intros; simplify_eq.
      apply le_trans with x; [by apply cmp_le|done].
    + split; [done|]. apply above_children_intro; intros; by simplify_eq.
  - destruct (cmp yl x) eqn:Hcl; [right|left; split; [done|]].
    + apply (Hpick _ yl); auto using le_refl, cmp_le; [lia|]. intros; simplify_eq.
    + apply above_children_intro; intros; by simplify_eq.
Qed.

(** One exchange of [trickle_down] moves its hole to the child. *)
Lemma trickle_step l i c x z :
  (0 < c)%nat → parent c = i → l !! i = Some x → l !! c = Some z → le z x →
  above_children l i z → ordered_but (λ j, parent j = i) l → above_hole l i →
  let l' := <[i := z]> (<[c := x]> l) in
  ordered_but (λ j, parent j = c) l' ∧ above_hole l' c.
Proof.
  intros Hc Hpc Hx Hz Hzx Habc Hord Habove l'. pose proof (parent_lt c Hc) as Hlt.
  assert (∀ k, l' !! k = if decide (k = i) then Some z
    else if decide (k = c) then Some x else l !! k) as Hl'.
  { intros k. apply lookup_swap; [lia|done|done]. }
  split.
  - intros j u w Hj Hne Hu Hw. rewrite Hl' in Hu, Hw.
    pose proof (parent_lt j Hj). repeat case_decide; simplify_eq; try lia.
    all: first [done | by apply (Habove c) | by eapply Habc | by eapply Hord].
  - intros j u w _ Hpj Hj Hu Hw. rewrite Hl' in Hu, Hw.
    pose proof (parent_lt j Hj). repeat case_decide; simplify_eq; try lia.
    eapply Hord; [exact Hj|lia| |done]. congruence.
Qed.

Lemma trickle_down_S fuel a index :
  trickle_down (S fuel) a index =
  if 0 <=? index then
    j ← trickle_child a index;
    if 0 <=? j then a' ← swap_vals a j index; trickle_down fuel a' j
    else trickle_down fuel a j
  else Ret a.
Proof. done. Qed.

Lemma trickle_down_correct fuel a l (i : nat) :
  rep a l → (length l - i < fuel)%nat →
  (i < length l ∨ (i = 0 ∧ l = []))%nat →
  ordered_but (λ j, parent j = i) l → above_hole l i →
  ∃ a' l', trickle_down (S fuel) a (Z.of_nat i) = Ret a' ∧ rep a' l' ∧ heap_ordered l' ∧ l' ≡ₚ l.
Proof.
  revert a l i. induction fuel as [|fuel IH]; intros a l i Hr Hf Hi Hord Habove; [lia|].
  rewrite trickle_down_S, (proj2 (Z.leb_le _ _)) by lia.
  destruct Hi as [Hi|[-> ->]].
  2: { assert (trickle_child a (Z.of_nat 0) = Ret (-1)) as ->.
       { destruct Hr as (_ & _ & Hn & _). unfold trickle_child. by rewrite Hn. }
       exists a, []. by split_and!. }
  destruct (lookup_lt_is_Some_2 l i Hi) as [x Hx].
  destruct (trickle_child_correct a l i x Hr Hx) as [[-> Hab]|(c & z & -> & Hc & Hpc & Hz & Hzx & Hab)].
  - exists a, l. split_and!; try done. intros j u w Hj _ Hu Hw.
    destruct (decide (parent j = i)) as [Hpj|]; [|by eapply Hord].
    rewrite Hpj in Hu. simplify_eq. by eapply Hab.
  - cbn -[trickle_down]. rewrite (proj2 (Z.leb_le _ _)) by lia.
    pose proof (parent_lt c Hc). pose proof (lookup_lt_Some _ _ _ Hz).
    destruct (swap_vals_correct a l c i z x) as (a1 & -> & Hr1 & _); [done|done|done|lia|].
    cbn -[trickle_down].
    destruct (trickle_step l i c x z) as [Ho1 Ha1]; [done..|].
    destruct (IH a1 (<[i := z]> (<[c := x]> l)) c) as (a' & l' & -> & ? & ? & Hperm);
      [done|rewrite !length_insert; lia|rewrite !length_insert; lia|done|done|].
    exists a', l'. split_and!; try done. rewrite Hperm. apply swap_Permutation; auto; lia.
Qed.

(** The root of an ordered heap may stand above every element. *)
Lemma root_min l x j y : heap_ordered l → l !! 0%nat = Some x → l !! j = Some y → le x y.
Proof.
  intros Ho Hx. revert y. induction (lt_wf j) as [j _ IH]; intros y Hy.
  destruct (decide (j = 0)%nat) as [->|]; [simplify_eq; apply le_refl|].
  pose proof (parent_lt j ltac:(lia)). pose proof (lookup_lt_Some _ _ _ Hy).
  destruct (lookup_lt_is_Some_2 l (parent j)) as [u Hu]; [lia|].
  apply le_trans with u; [by apply (IH (parent j))|]. eapply heap_ordered_le; [done| |done|done]. lia.
Qed.

(** Moving the last element to the root leaves a hole at the root. *)
Lemma pop_hole (l : list A) (last : A) :
  heap_ordered l →
  let l' := take (length l - 1) (<[0%nat := last]> l) in
  ordered_but (λ j, parent j = 0%nat) l' ∧ above_hole l' 0.
Proof.
  intros Ho l'. split; [|intros j x y; lia].
  intros j u w Hj Hne Hu Hw. apply lookup_take_Some in Hu as [Hu _], Hw as [Hw _].
  pose proof (parent_lt j Hj). rewrite list_lookup_insert_ne in Hu, Hw by lia.
  by eapply heap_ordered_le.
Qed.

Lemma pop_Permutation (x last : A) l :
  (x :: l) !! length l = Some last → take (length l) (last :: l) ≡ₚ l.
Proof.
  destruct l as [|y l _] using rev_ind; intros Hl; [done|].
  rewrite app_comm_cons, lookup_app_r in Hl by (rewrite length_app; cbn; lia).
  rewrite length_app in *; cbn in *. replace (length l + 1)%nat with (S (length l)) in * by lia.
  rewrite Nat.sub_diag in Hl; cbn in Hl. simplify_eq. cbn. rewrite take_app_length.
  apply Permutation_cons_append.
Qed.

Lemma pop_correct h l :
  is_heap h l →
  if decide (l = []) then heap_pop h = Ret (None, h)
  else ∃ x l' h', heap_pop h = Ret (Some x, h') ∧ l ≡ₚ x :: l' ∧ is_heap h' l' ∧
         ∀ y, y ∈ l → le x y.
Proof.
  intros (l0 & Hr & Ho & Hp). pose proof Hr as (Hc & _ & Hn & _).
  pose proof (Permutation_length Hp) as Hlen. unfold heap_pop. rewrite Hn. case_decide as Hl.
  { subst l. by rewrite Hlen. }
  destruct l0 as [|x l0]; [by apply Permutation_nil_l in Hp|].
  rewrite (proj2 (Z.eqb_neq _ _)) by (cbn; lia).
  rewrite (get_correct _ (x :: l0) 0 x) by done.
  destruct (lookup_lt_is_Some_2 (x :: l0) (length l0)) as [last Hlast]; [cbn; lia|].
  assert (array_get h.(vals) (Z.of_nat (length (x :: l0)) - 1) = Ret last) as Hgl.
  { apply (get_correct _ (x :: l0)); [done|cbn; lia|]. rewrite <- Hlast. f_equal. cbn. lia. }
  rewrite Hgl.
  destruct (set_correct _ (x :: l0) 0 last Hr) as (a1 & Ha1 & Hr1 & Hn1); [cbn; lia|].
  cbn -[trickle_down]. rewrite Ha1. cbn -[trickle_down].
  apply rep_drop_last in Hr1; [|rewrite length_insert; cbn; lia]. rewrite length_insert in Hr1.
  destruct (pop_hole (x :: l0) last Ho) as [Ho1 Ha].
  set (l1 := take _ _) in *.
  assert (length l1 = length l0) as Hl1 by (subst l1; rewrite length_take, length_insert; cbn; lia).
  destruct (trickle_down_correct (S (Z.to_nat (a1.(a_num) - 1))) _ l1 0 Hr1)
    as (a' & l' & Hd & Hr' & Ho' & Hp'); [rewrite Hl1, Hn1, Hn; cbn; lia| |done|done|].
  { destruct l1; [by right|left; cbn; lia]. }
  change (Z.of_nat 0) with 0 in Hd. rewrite Hd. cbn.
  assert (l1 ≡ₚ l0) as Hp1.
  { subst l1. cbn. rewrite Nat.sub_0_r. by apply pop_Permutation with x. }
  eexists x, l', _. split; [done|]. split_and!.
  - by rewrite <- Hp, Hp', Hp1.
  - by exists l'.
  - intros y Hy. rewrite <- Hp in Hy. apply list_elem_of_lookup in Hy as [j Hj].
    by apply (root_min (x :: l0) x j).
Qed.

Lemma push_all_correct l h l0 :
  is_heap h l0 → Z.of_nat (length l + length l0) ≤ 2 ^ 29 →
  ∃ h', push_all l h = Ret h' ∧ is_heap h' (l ++ l0).
Proof.
  revert h l0. induction l as [|x l IH]; intros h l0 Hh Hlen; cbn in *; [eauto|].
  destruct (push_correct h l0 x [] Hh) as [(h1 & o & -> & Hh1)|[? _]]; [lia| |done]. cbn.
  destruct (IH h1 (x :: l0) Hh1) as (h' & -> & l' & ? & ? & Hp); [cbn; lia|].
  exists h'. split; [done|]. exists l'. split_and!; try done.
  by rewrite Hp, Permutation_middle.
Qed.

Lemma pop_all_correct fuel h l :
  is_heap h l → (length l < fuel)%nat →
  ∃ l', pop_all fuel h = Ret l' ∧ l' ≡ₚ l ∧ StronglySorted le l'.
Proof.
  revert h l. induction fuel as [|fuel IH]; intros h l Hh Hf; [lia|]. cbn -[heap_pop].
  pose proof (pop_correct h l Hh) as Hpop. case_decide as Hl.
  - rewrite Hpop. subst. exists []. split_and!; [done|done|constructor].
  - destruct Hpop as (x & l1 & h1 & -> & Hp & Hh1 & Hmin). cbn -[heap_pop].
    rewrite Hp in Hf. destruct (IH h1 l1 Hh1) as (l2 & -> & Hp2 & Hs); [cbn in Hf; lia|].
    exists (x :: l2). split_and!; [done|by rewrite Hp, Hp2|]. constructor; [done|].
    apply Forall_forall. intros y Hy. apply Hmin. rewrite Hp, <- Hp2. by right.
Qed.

Lemma is_heap_init : is_heap (Heap array_init) [].
Proof.
  exists []. split_and!; [apply rep_init|intros j x y; by rewrite lookup_nil|done].
Qed.

(** The consistency check reads the children of every node, leaves included. *)
Lemma assert_heap_property_panics fuel a l (i : nat) :
  rep a l → (i < length l)%nat → (length l - i ≤ fuel)%nat →
  assert_heap_property fuel a (Z.of_nat i) (Z.of_nat (length l)) = Panic.
Proof.
  revert i. induction fuel as [|fuel IH]; intros i Hr Hi Hf; [lia|]. cbn.
  rewrite (proj2 (Z.ltb_lt _ _)) by lia.
  destruct (lookup_lt_is_Some_2 l i Hi) as [x Hx].
  rewrite (get_correct a l (Z.of_nat i) x) by (rewrite ?Nat2Z.id; auto; lia). cbn.
  unfold LEFT, RIGHT.
  replace (2 * Z.of_nat i + 2) with (Z.of_nat (2 * i + 2)) by lia.
  replace (2 * Z.of_nat i + 1) with (Z.of_nat (2 * i + 1)) by lia.
  destruct (decide (2 * i + 1 < length l)%nat) as [Hl|Hl];
    [|by rewrite (get_out_of_range a l (Z.of_nat (2 * i + 1))) by (done || lia)].
  destruct (lookup_lt_is_Some_2 l (2 * i + 1) Hl) as [y Hy].
  rewrite (get_correct a l (Z.of_nat (2 * i + 1)) y) by (rewrite ?Nat2Z.id; auto; lia). cbn.
  destruct (cmp x y); cbn; [|done].
  destruct (decide (2 * i + 2 < length l)%nat) as [Hl2|Hl2];
    [|by rewrite (get_out_of_range a l (Z.of_nat (2 * i + 2))) by (done || lia)].
  destruct (lookup_lt_is_Some_2 l (2 * i + 2) Hl2) as [z Hz].
  rewrite (get_correct a l (Z.of_nat (2 * i + 2)) z) by (rewrite ?Nat2Z.id; auto; lia). cbn.
  destruct (cmp x z); cbn; [|done].
  rewrite (IH (2 * i + 1)%nat); [done|done|lia|lia].
Qed.

End Heap.

(** ** Properties *)

(** C30: Pushing any values into a new heap and popping until it is empty gives
    them back in the order of the comparator, every one exactly once: the heap
    is a priority queue. *)
Theorem heap_sorts {A} (cmp : A → A → bool) `{!StrictWeakOrder cmp} l :
  Z.of_nat (length l) ≤ 2 ^ 29 →
  ∃ l', (h ← push_all cmp l (Heap array_init); pop_all cmp (S (length l)) h) = Ret l' ∧
    l' ≡ₚ l ∧ StronglySorted (le cmp) l'.
Proof.
  intros Hl. destruct (push_all_correct cmp l (Heap array_init) []) as (h & -> & Hh);
    [apply is_heap_init|cbn; lia|]. cbn [mbind res_bind]. rewrite app_nil_r in Hh.
  apply pop_all_correct; [done|exact Hh|lia].
Qed.

#[local] Instance Z_ltb_order : StrictWeakOrder Z.ltb.
Proof. split; intros *; rewrite ?Z.ltb_lt, ?Z.ltb_ge; lia. Qed.

Lemma heap_sorts_witness :
  ∃ l', (h ← push_all Z.ltb [5; 1; 4; 1] (Heap array_init); pop_all Z.ltb 5 h) = Ret l' ∧
    l' ≡ₚ [5; 1; 4; 1] ∧ StronglySorted (le Z.ltb) l'.
Proof. apply (heap_sorts Z.ltb [5; 1; 4; 1]). cbn. lia. Defined.

(** [heap_pop] answers [NULL] on an empty heap and otherwise removes a
    least element and leaves a heap of the others. *)
Theorem heap_pop_least {A} (cmp : A → A → bool) `{!StrictWeakOrder cmp} h l :
  is_heap cmp h l →
  if decide (l = []) then heap_pop cmp h = Ret (None, h)
  else ∃ x l' h', heap_pop cmp h = Ret (Some x, h') ∧ l ≡ₚ x :: l' ∧ is_heap cmp h' l' ∧
         ∀ y, y ∈ l → le cmp x y.
Proof. apply pop_correct. done. Qed.

Lemma heap_pop_least_witness : heap_pop Z.ltb (Heap array_init) = Ret (None, Heap array_init).
Proof. apply (heap_pop_least Z.ltb (Heap array_init) []). apply is_heap_init. Defined.

(** [heap_assertvalid] panics on every heap that is not empty, however well
    formed: it reads the children of the leaves, outside of the array. *)
Theorem heap_assertvalid_panics {A} (cmp : A → A → bool) h l :
  is_heap cmp h l → l ≠ [] → heap_assertvalid cmp h = Panic.
Proof.
  intros (l' & Hr & _ & Hp) Hl. unfold heap_assertvalid.
  assert (l' ≠ []) as Hne by (intros ->; by apply Permutation_nil_l in Hp).
  pose proof Hr as (_ & _ & Hn & _). rewrite Hn, Nat2Z.id.
  apply (assert_heap_property_panics cmp _ _ _ 0); [done|destruct l'; cbn; [done|lia]|lia].
Qed.

Lemma heap_assertvalid_panics_witness :
  heap_assertvalid Z.ltb (Heap (Array [Some 3; None; None; None] 1 4)) = Panic.
Proof.
  apply (heap_assertvalid_panics Z.ltb _ [3]); [|done]. exists [3]. split_and!; [|..].
  - split_and!; cbn; [right; exists 0; split; [lia|done]|done..|lia|done].
  - intros [|[|j]] x y; [lia|done|done].
  - done.
Defined.
