(* ===== verification/LinkedList.v ===== *)
(** * Linked lists and queues (kern/lib/list.c, kern/lib/queue.c)

    A [list] owns a store of nodes, addressed by pointers; [NULL] is [None] and
    following a pointer that is not in the store is [Undef].  [rep s xs] says
    that the store holds exactly the nodes of a chain with the elements [xs];
    under it every operation is the operation on [xs].  The class [ListADT] is
    what the module promises to its clients (the hash table is proved against
    it), and [LinkedList_ADT] discharges it. *)

From S2P Require Import Prelude.

(** ** Data *)

Definition loc : Type := positive.

Record listnode (A : Type) := ListNode { val : A; next : option loc }.
Arguments ListNode {A} val next.
Arguments val {A} l.
Arguments next {A} l.

(** [struct list], together with the nodes it owns. *)
Record llist (A : Type) := LList {
  nodes : gmap loc (listnode A);
  head : option loc;
  tail : option loc;
  lsize : Z
}.
Arguments LList {A} nodes head tail lsize.
Arguments nodes {A} l.
Arguments head {A} l.
Arguments tail {A} l.
Arguments lsize {A} l.

(** ** Operations *)

Section Ops.
Context {A Q : Type}.
Implicit Types (s : llist A).

(** An address that no node uses. *)
Definition new_loc (m : gmap loc (listnode A)) : loc :=
  map_fold (λ k _ acc, Pos.max (Pos.succ k) acc) 1%positive m.

Definition listnode_create (m : gmap loc (listnode A)) (newval : A) (o : script)
    : option (loc * listnode A) * script :=
  let '(ok, o) := kmalloc o in
  if negb ok then (None, o) else (Some (new_loc m, ListNode newval None), o).

Definition list_create (o : script) : option (llist A) * script :=
  let '(ok, o) := kmalloc o in
  if negb ok then (None, o) else (Some (LList ∅ None None 0), o).

Definition list_push_back s (newval : A) (o : script) : res (Z * llist A * script) :=
  let '(n, o) := listnode_create s.(nodes) newval o in
  match n with
  | None => Ret (ENOMEM, s, o)
  | Some (p, newnode) =>
      let m := <[p := newnode]> s.(nodes) in
      '(hd, m) ← (if s.(lsize) =? 0 then Ret (Some p, m) else
          t ← deref s.(tail);
          tn ← deref (m !! t);
          Ret (s.(head), <[t := ListNode tn.(val) (Some p)]> m));
      Ret (0, LList m hd (Some p) (u32 (s.(lsize) + 1)), o)
  end.

Definition list_pop_front s : res (llist A) :=
  if s.(lsize) =? 0 then Ret s else
  old_head ← deref s.(head);
  n ← deref (s.(nodes) !! old_head);
  let sz := u32 (s.(lsize) - 1) in
  Ret (LList (delete old_head s.(nodes)) n.(next)
         (if sz =? 0 then None else s.(tail)) sz).

Definition list_front s : res (option A) :=
  if s.(lsize) =? 0 then Ret None else
  h ← (match s.(head) with Some h => Ret h | None => Panic end);
  n ← deref (s.(nodes) !! h);
  Ret (Some n.(val)).

(** The traversals visit a node at most once in a well-formed list, so the
    number of nodes bounds them. *)
Definition walk_fuel s : nat := S (size s.(nodes)).

Fixpoint find_from (fuel : nat) (m : gmap loc (listnode A)) (p : option loc)
    (query : Q) (comparator : A → Q → res Z) : res (option A) :=
  match fuel with
  | O => Diverge
  | S fuel' =>
      match p with
      | None => Ret None
      | Some l =>
          n ← deref (m !! l);
          r ← comparator n.(val) query;
          if r =? 0 then Ret (Some n.(val))
          else find_from fuel' m n.(next) query comparator
      end
  end.

Definition list_find s (query : Q) (comparator : A → Q → res Z) : res (option A) :=
  find_from (walk_fuel s) s.(nodes) s.(head) query comparator.

(** [p] is the node looked at, [q] the one before it. *)
Fixpoint remove_from (fuel : nat) s (q p : option loc) (query : Q)
    (comparator : A → Q → res Z) : res (option A * llist A) :=
  match fuel with
  | O => Diverge
  | S fuel' =>
      match p with
      | None => Ret (None, s)
      | Some l =>
          n ← deref (s.(nodes) !! l);
          r ← comparator n.(val) query;
          if r =? 0 then
            '(hd, m) ← (match q with
              | None => Ret (n.(next), s.(nodes))
              | Some ql =>
                  qn ← deref (s.(nodes) !! ql);
                  Ret (s.(head), <[ql := ListNode qn.(val) n.(next)]> s.(nodes))
              end);
            let tl := if decide (s.(tail) = Some l) then q else s.(tail) in
            Ret (Some n.(val), LList (delete l m) hd tl (u32 (s.(lsize) - 1)))
          else remove_from fuel' s p n.(next) query comparator
      end
  end.

Definition list_remove s (query : Q) (comparator : A → Q → res Z)
    : res (option A * llist A) :=
  '(r, s') ← remove_from (walk_fuel s) s None s.(head) query comparator;
  if s'.(lsize) =? 0
  then Ret (r, LList s'.(nodes) s'.(head) None s'.(lsize))
  else Ret (r, s').

Definition list_isempty s : bool := s.(lsize) =? 0.

Definition list_getsize s : Z := s.(lsize).

(** The nodes left in the store after the chain has been freed. *)
Fixpoint destroy_from (fuel : nat) (m : gmap loc (listnode A)) (p : option loc)
    : res (gmap loc (listnode A)) :=
  match fuel with
  | O => Diverge
  | S fuel' =>
      match p with
      | None => Ret m
      | Some l => n ← deref (m !! l); destroy_from fuel' (delete l m) n.(next)
      end
  end.

Definition list_destroy s : res (gmap loc (listnode A)) :=
  destroy_from (walk_fuel s) s.(nodes) s.(head).

(** Counts the nodes and finds the last one. *)
Fixpoint count_from (fuel : nat) (m : gmap loc (listnode A)) (prev p : option loc)
    (count : Z) : res (Z * option loc) :=
  match fuel with
  | O => Diverge
  | S fuel' =>
      match p with
      | None => Ret (count, prev)
      | Some l => n ← deref (m !! l); count_from fuel' m p n.(next) (u32 (count + 1))
      end
  end.

Definition list_assertvalid s : res unit :=
  '(count, prev) ← count_from (walk_fuel s) s.(nodes) None s.(head) 0;
  _ ← (if count =? 0 then kassert (bool_decide (s.(tail) = None))
       else kassert (bool_decide (prev = s.(tail))));
  kassert (count =? s.(lsize)).

(** ** Representation *)

(** The first node of a chain that goes on at [e]. *)
Definition first (ls : list (loc * A)) (e : option loc) : option loc :=
  match ls with [] => e | (l, _) :: _ => Some l end.

(** The store of a chain of nodes whose last [next] pointer is [e]. *)
Fixpoint links (ls : list (loc * A)) (e : option loc) : gmap loc (listnode A) :=
  match ls with
  | [] => ∅
  | (l, x) :: ls' => <[l := ListNode x (first ls' e)]> (links ls' e)
  end.

Definition rep_at s (ls : list (loc * A)) : Prop :=
  NoDup ls.*1 ∧ s.(nodes) = links ls None ∧ s.(head) = first ls None ∧
  s.(tail) = fst <$> last ls ∧ s.(lsize) = Z.of_nat (length ls) ∧
  Z.of_nat (length ls) < 2 ^ 32.

Definition rep s (xs : list A) : Prop := ∃ ls, rep_at s ls ∧ ls.*2 = xs.

(** The first element that compares equal, and the list without it; [f x] is
    the comparison of [x] with the query. *)
Definition first_match (f : A → Z) (xs : list A) : option A :=
  List.find (λ x, f x =? 0) xs.

Fixpoint remove_first (f : A → Z) (xs : list A) : list A :=
  match xs with
  | [] => []
  | x :: xs' => if f x =? 0 then xs' else x :: remove_first f xs'
  end.

(** The comparator answers [f] on the elements of the list. *)
Definition compares (q : Q) (c : A → Q → res Z) (f : A → Z) (xs : list A) : Prop :=
  ∀ x, x ∈ xs → c x q = Ret (f x).

(** ** Stores of chains *)

Lemma new_loc_above m k : is_Some (m !! k) → (k < new_loc m)%positive.
Proof.
  unfold new_loc. revert m. apply (map_fold_weak_ind
    (λ r m, is_Some (m !! k) → (k < r)%positive)).
  - intros [? H]. by rewrite lookup_empty in H.
  - intros i x m r Hi IH. destruct (decide (i = k)) as [->|Hne]; [lia|].
    rewrite lookup_insert_ne by done. intros H%IH. lia.
Qed.

Lemma new_loc_fresh m : m !! new_loc m = None.
Proof.
  destruct (m !! new_loc m) eqn:E; [|done].
  pose proof (new_loc_above m (new_loc m) ltac:(eauto)). lia.
Qed.

Lemma links_app ls1 ls2 e :
  links (ls1 ++ ls2) e = links ls1 (first ls2 e) ∪ links ls2 e.
Proof.
  induction ls1 as [|[l x] ls1 IH]; cbn; [by rewrite (left_id_L ∅ (∪))|].
  rewrite IH, insert_union_l. f_equal. destruct ls1 as [|[??]]; done.
Qed.

Lemma links_None ls e l : l ∉ ls.*1 → links ls e !! l = None.
Proof.
  induction ls as [|[k x] ls IH]; cbn; [by rewrite lookup_empty|].
  rewrite not_elem_of_cons. intros [? ?].
  rewrite lookup_insert_ne by done. auto.
Qed.

Lemma links_Some ls e l : l ∈ ls.*1 → is_Some (links ls e !! l).
Proof.
  induction ls as [|[k x] ls IH]; cbn; [by rewrite elem_of_nil|].
  rewrite elem_of_cons. destruct (decide (k = l)) as [->|Hne].
  - rewrite lookup_insert_eq. eauto.
  - rewrite lookup_insert_ne by done. naive_solver.
Qed.

Lemma links_size ls e : NoDup ls.*1 → size (links ls e) = length ls.
Proof.
  induction ls as [|[k x] ls IH]; cbn; [by rewrite map_size_empty|].
  intros [Hk Hnd]%NoDup_cons.
  rewrite map_size_insert_None by by apply links_None. auto.
Qed.

Lemma links_mid ls1 l x ls2 e : NoDup (ls1 ++ (l, x) :: ls2).*1 →
  links (ls1 ++ (l, x) :: ls2) e !! l = Some (ListNode x (first ls2 e)).
Proof.
  rewrite fmap_app, NoDup_app. cbn. intros (_ & Hd & _).
  rewrite links_app, lookup_union_r by (apply links_None; set_solver).
  cbn. by rewrite lookup_insert_eq.
Qed.

(** Redirecting the last pointer of a chain. *)
Lemma links_redirect ls q y e e' : NoDup (ls ++ [(q, y)]).*1 →
  <[q := ListNode y e']> (links (ls ++ [(q, y)]) e) = links (ls ++ [(q, y)]) e'.
Proof.
  rewrite fmap_app, NoDup_app. cbn. intros (_ & Hd & _).
  rewrite !links_app. cbn.
  rewrite insert_union_r by (apply links_None; set_solver).
  by rewrite insert_insert_eq.
Qed.

(** Unlinking a node after its predecessor has been redirected. *)
Lemma links_delete ls1 l x ls2 e : NoDup (ls1 ++ (l, x) :: ls2).*1 →
  delete l (links ls1 (first ls2 e) ∪ links ((l, x) :: ls2) e) = links (ls1 ++ ls2) e.
Proof.
  rewrite fmap_app, NoDup_app. cbn. intros (_ & Hd & [Hl _]%NoDup_cons).
  rewrite delete_union, links_app, delete_insert_id by by apply links_None.
  rewrite delete_id by (apply links_None; set_solver). done.
Qed.

(** ** The operations under the representation *)

Lemma last_app_fst (ls : list (loc * A)) l x : fst <$> last (ls ++ [(l, x)]) = Some l.
Proof. by rewrite last_snoc. Qed.

Lemma rep_empty : rep (LList ∅ None None 0) [].
Proof. exists []. split; [|done]. unfold rep_at; cbn. split_and!; [constructor|done..|lia]. Qed.

Lemma rep_size s xs : rep s xs → s.(lsize) = Z.of_nat (length xs).
Proof. intros (ls & (_ & _ & _ & _ & -> & _) & <-). by rewrite length_fmap. Qed.

Lemma rep_lsize_eqb s xs : rep s xs →
  (s.(lsize) =? 0) = match xs with [] => true | _ => false end.
Proof. intros ->%rep_size. by destruct xs. Qed.

Lemma create_correct o :
  list_create o =
    (if (kmalloc o).1 then Some (LList ∅ None None 0) else None, (kmalloc o).2).
Proof. unfold list_create. destruct (kmalloc o) as [[] ?]; done. Qed.

Lemma push_back_links ls t y p x : NoDup (ls ++ [(t, y)]).*1 → p ∉ (ls ++ [(t, y)]).*1 →
  <[t := ListNode y (Some p)]> (<[p := ListNode x None]> (links (ls ++ [(t, y)]) None))
  = links ((ls ++ [(t, y)]) ++ [(p, x)]) None.
Proof.
  intros Hnd Hp. rewrite (links_app (ls ++ _) [(p, x)]). cbn.
  rewrite <-(links_redirect ls t y None (Some p)) by done.
  rewrite <-insert_union_l. f_equal.
  rewrite <-insert_union_r by by apply links_None. by rewrite (right_id_L ∅ (∪)).
Qed.

Lemma push_back_correct s xs x o : rep s xs → Z.of_nat (length xs) + 1 < 2 ^ 32 →
  if (kmalloc o).1
  then ∃ s', list_push_back s x o = Ret (0, s', (kmalloc o).2) ∧ rep s' (xs ++ [x])
  else list_push_back s x o = Ret (ENOMEM, s, (kmalloc o).2).
Proof.
  intros (ls & (Hnd & Hn & Hh & Ht & Hs & Hlt) & <-) Hlen.
  unfold list_push_back, listnode_create.
  destruct (kmalloc o) as [[] o']; cbn; [|done].
  pose proof (new_loc_fresh s.(nodes)) as Hp. set (p := new_loc _) in *.
  assert (p ∉ ls.*1) as Hpl.
  { intros Hin. pose proof (links_Some ls None p Hin) as [? HS]. congruence. }
  rewrite length_fmap in Hlen.
  assert (∀ m h, m = links (ls ++ [(p, x)]) None → h = first (ls ++ [(p, x)]) None →
    rep (LList m h (Some p) (u32 (lsize s + 1))) (ls.*2 ++ [x])) as Hrep.
  { intros m h -> ->. exists (ls ++ [(p, x)]). split; [|by rewrite fmap_app].
    unfold rep_at; cbn. rewrite last_app_fst, length_app, fmap_app, u32_id by lia. cbn.
    split_and!; try done; [|lia..].
    apply NoDup_app. split_and!; [done|set_solver|apply NoDup_singleton]. }
  destruct ls as [|[t y] ls0 _] using rev_ind.
  - destruct (Z.eqb_spec (lsize s) 0); [|done]. cbn. eexists. split; [done|]. apply Hrep; [by rewrite Hn|done].
  - destruct (Z.eqb_spec (lsize s) 0); [rewrite length_app in *; cbn in *; lia|].
    rewrite Ht, last_app_fst. cbn.
    rewrite lookup_insert_ne by (intros ->; set_solver).
    rewrite Hn, links_mid by done. cbn. eexists. split; [done|].
    apply Hrep; [by apply push_back_links|]. rewrite Hh. by destruct ls0 as [|[??]].
Qed.

Lemma pop_front_correct s xs : rep s xs →
  ∃ s', list_pop_front s = Ret s' ∧ rep s' (List.tl xs).
Proof.
  intros Hrep. unfold list_pop_front. rewrite (rep_lsize_eqb s xs Hrep).
  destruct Hrep as (ls & (Hnd & Hn & Hh & Ht & Hs & Hlt) & <-).
  destruct ls as [|[l x] ls]; cbn in *.
  { exists s. split; [done|]. by exists []. }
  apply NoDup_cons in Hnd as [Hl Hnd].
  rewrite Hh, Hn; cbn. rewrite lookup_insert_eq; cbn.
  eexists; split; [done|]. exists ls. split; [|done].
  unfold rep_at; cbn. rewrite Hs, u32_id by lia.
  rewrite delete_insert_id by by apply links_None.
  split_and!; try done; try lia.
  rewrite Ht. destruct ls as [|? ls] using rev_ind; [done|].
  rewrite app_comm_cons, !last_snoc, length_app; cbn. case_cmp; [lia|done].
Qed.

Lemma front_correct s xs : rep s xs → list_front s = Ret (hd_error xs).
Proof.
  intros Hrep. unfold list_front. rewrite (rep_lsize_eqb s xs Hrep).
  destruct Hrep as (ls & (Hnd & Hn & Hh & _) & <-).
  destruct ls as [|[l x] ls]; cbn in *; [done|].
  rewrite Hh, Hn; cbn. by rewrite lookup_insert_eq.
Qed.

Lemma find_from_correct fuel ls1 ls2 q c f :
  compares q c f ls2.*2 → NoDup (ls1 ++ ls2).*1 → (length ls2 < fuel)%nat →
  find_from fuel (links (ls1 ++ ls2) None) (first ls2 None) q c
  = Ret (first_match f ls2.*2).
Proof.
  revert ls1 ls2. induction fuel as [|fuel IH]; intros ls1 ls2 Hc Hnd Hf; [lia|].
  destruct ls2 as [|[l x] ls2]; [done|]. cbn.
  rewrite links_mid by done. cbn. rewrite (Hc x) by (apply elem_of_cons; by left).
  cbn. unfold first_match; cbn. case_match; [done|].
  rewrite cons_middle, app_assoc in *. apply IH; [|done|cbn in *; lia].
  intros y ?. apply Hc. by apply elem_of_cons; right.
Qed.

Lemma find_correct s xs q c f : rep s xs → compares q c f xs →
  list_find s q c = Ret (first_match f xs).
Proof.
  intros (ls & (Hnd & Hn & Hh & _) & <-) Hc. unfold list_find, walk_fuel.
  rewrite Hn, Hh. apply (find_from_correct _ []); [done..|]. rewrite links_size by done. lia.
Qed.

Lemma remove_first_length f (xs : list A) :
  (length (remove_first f xs) ≤ length xs)%nat.
Proof. induction xs as [|x xs IH]; cbn; [lia|]. case_match; cbn; lia. Qed.

Lemma NoDup_fmap_remove (ls1 : list (loc * A)) p ls2 :
  NoDup (ls1 ++ p :: ls2).*1 → NoDup (ls1 ++ ls2).*1.
Proof.
  rewrite !fmap_app. cbn. rewrite !NoDup_app, NoDup_cons. intros (? & Hd & ? & ?).
  split_and!; try done. intros x ?%Hd. set_solver.
Qed.

(** Unlinking the node in the middle of a chain, with [q] the node before it. *)
Lemma unlink_rep s ls1 l x ls2 : rep_at s (ls1 ++ (l, x) :: ls2) →
  ∃ s', ('(hd, m) ← (match fst <$> last ls1 with
           | None => Ret (first ls2 None, s.(nodes))
           | Some ql =>
               qn ← deref (s.(nodes) !! ql);
               Ret (s.(head), <[ql := ListNode qn.(val) (first ls2 None)]> s.(nodes))
           end);
         let tl := if decide (s.(tail) = Some l) then fst <$> last ls1 else s.(tail) in
         Ret (Some x, LList (delete l m) hd tl (u32 (s.(lsize) - 1)))) = Ret (Some x, s')
  ∧ rep_at s' (ls1 ++ ls2).
Proof.
  intros (Hnd & Hn & Hh & Ht & Hs & Hlt).
  pose proof (NoDup_fmap_remove _ _ _ Hnd) as Hnd'.
  pose proof (links_delete ls1 l x ls2 None Hnd) as Hdel.
  rewrite length_app in Hs, Hlt. cbn in Hs, Hlt.
  assert ((if decide (s.(tail) = Some l) then fst <$> last ls1 else s.(tail))
          = fst <$> last (ls1 ++ ls2)) as Htail.
  { rewrite Ht. destruct ls2 as [|[k z] ls2 _] using rev_ind.
    - rewrite last_app_fst, decide_True, app_nil_r by done. done.
    - rewrite app_comm_cons, !app_assoc, !last_app_fst in *. rewrite decide_False; [done|].
      intros [= ->]. rewrite fmap_app in Hnd. apply NoDup_app in Hnd as (_ & Hd & _).
      apply (Hd l); [|set_solver]. rewrite fmap_app. set_solver. }
  rewrite Htail.
  assert (∀ m h, delete l m = links (ls1 ++ ls2) None → h = first (ls1 ++ ls2) None →
    rep_at (LList (delete l m) h (fst <$> last (ls1 ++ ls2)) (u32 (s.(lsize) - 1)))
      (ls1 ++ ls2)) as Hrep.
  { intros m h -> ->. unfold rep_at; cbn. rewrite Hs, u32_id, length_app by lia.
    split_and!; try done; lia. }
  destruct ls1 as [|[ql y] ls1 _] using rev_ind.
  - cbn. eexists; split; [done|]. apply Hrep; [|done].
    rewrite Hn, <-Hdel. cbn. by rewrite (left_id_L ∅ (∪)).
  - rewrite last_app_fst, Hn, <-!app_assoc. cbn [app].
    rewrite links_mid by (by rewrite <-app_assoc in Hnd). cbn.
    eexists; split; [done|]. rewrite <-app_assoc in Hrep. apply Hrep; cbn.
    + rewrite <-app_assoc in Hdel. cbn in Hdel. rewrite <-Hdel.
      rewrite (cons_middle (ql, y)), app_assoc, links_app. f_equal.
      rewrite insert_union_l. f_equal. apply links_redirect.
      rewrite fmap_app in Hnd. by apply NoDup_app in Hnd as [? _].
    + rewrite Hh. by destruct ls1 as [|[??]].
Qed.

Lemma remove_from_correct fuel s ls1 ls2 q c f : compares q c f ls2.*2 →
  rep_at s (ls1 ++ ls2) → (length ls2 < fuel)%nat →
  ∃ s' ls', remove_from fuel s (fst <$> last ls1) (first ls2 None) q c
            = Ret (first_match f ls2.*2, s') ∧
    rep_at s' (ls1 ++ ls') ∧ ls'.*2 = remove_first f ls2.*2.
Proof.
  revert ls1 ls2. induction fuel as [|fuel IH]; intros ls1 ls2 Hc Hrep Hf; [lia|].
  destruct ls2 as [|[l x] ls2]; [by exists s, []|]. cbn.
  destruct (Hrep) as (Hnd & Hn & _). rewrite Hn, links_mid by done. rewrite <-Hn. cbn.
  rewrite (Hc x) by (apply elem_of_cons; by left).
  unfold first_match; cbn. destruct (f x =? 0).
  - destruct (unlink_rep _ _ _ _ _ Hrep) as (s' & Heq & Hrep'). eauto.
  - destruct (IH (ls1 ++ [(l, x)]) ls2) as (s' & ls' & Heq & Hrep' & Hls).
    { intros y ?. apply Hc. by apply elem_of_cons; right. }
    { by rewrite <-app_assoc. }
    { cbn in Hf. lia. }
    rewrite last_app_fst in Heq. exists s', ((l, x) :: ls'). rewrite Heq.
    rewrite <-app_assoc in Hrep'. cbn. by rewrite Hls.
Qed.

Lemma remove_correct s xs q c f : rep s xs → compares q c f xs →
  ∃ s', list_remove s q c = Ret (first_match f xs, s') ∧ rep s' (remove_first f xs).
Proof.
  intros (ls & Hrep & <-) Hc. unfold list_remove, walk_fuel.
  destruct (remove_from_correct (S (size s.(nodes))) s [] ls q c f Hc Hrep)
    as (s' & ls' & Heq & Hrep' & Hls).
  { destruct Hrep as (? & -> & _). rewrite links_size by done. lia. }
  destruct (Hrep) as (_ & _ & Hh & _). rewrite Hh. cbn [last fmap option_fmap option_map] in Heq. rewrite Heq. cbn.
  case_cmp; eexists; split; try done; exists ls'; split; try done.
  destruct Hrep' as (? & ? & ? & Ht & Hs & ?). split_and!; try done.
  destruct ls'; [done|]. rewrite Hs in *. done.
Qed.

Lemma destroy_from_correct fuel ls : NoDup ls.*1 → (length ls < fuel)%nat →
  destroy_from fuel (links ls None) (first ls None) = Ret ∅.
Proof.
  revert ls. induction fuel as [|fuel IH]; intros ls Hnd Hf; [lia|].
  destruct ls as [|[l x] ls]; [done|]. cbn. rewrite lookup_insert_eq. cbn.
  cbn in Hnd, Hf. apply NoDup_cons in Hnd as [Hl Hnd].
  rewrite delete_insert_id by by apply links_None. apply IH; [done|lia].
Qed.

Lemma destroy_correct s xs : rep s xs → list_destroy s = Ret ∅.
Proof.
  intros (ls & (Hnd & Hn & Hh & _) & <-). unfold list_destroy, walk_fuel.
  rewrite Hn, Hh. apply destroy_from_correct; [done|]. rewrite links_size by done. lia.
Qed.

Lemma count_from_correct fuel ls1 ls2 : NoDup (ls1 ++ ls2).*1 → (length ls2 < fuel)%nat →
  Z.of_nat (length (ls1 ++ ls2)) < 2 ^ 32 →
  count_from fuel (links (ls1 ++ ls2) None) (fst <$> last ls1) (first ls2 None)
    (Z.of_nat (length ls1))
  = Ret (Z.of_nat (length (ls1 ++ ls2)), fst <$> last (ls1 ++ ls2)).
Proof.
  revert ls1 ls2. induction fuel as [|fuel IH]; intros ls1 ls2 Hnd Hf Hlt; [lia|].
  destruct ls2 as [|[l x] ls2]; cbn; [by rewrite app_nil_r|].
  rewrite links_mid by done. cbn. rewrite length_app in Hlt; cbn in Hlt, Hf.
  rewrite u32_id by lia.
  specialize (IH (ls1 ++ [(l, x)]) ls2). rewrite last_app_fst, <-app_assoc in IH.
  cbn [app] in IH. rewrite <-IH; [f_equal; rewrite length_app; cbn; lia|done|lia|].
  rewrite length_app. cbn. lia.
Qed.

Lemma assertvalid_correct s xs : rep s xs → list_assertvalid s = Ret tt.
Proof.
  intros (ls & (Hnd & Hn & Hh & Ht & Hs & Hlt) & <-). unfold list_assertvalid, walk_fuel.
  rewrite Hn, Hh, Ht, Hs.
  opose proof (count_from_correct (S (size (links ls None))) [] ls _ _ _) as Hc; try done.
  { rewrite links_size by done. lia. }
  cbn [last fmap option_fmap option_map app length] in Hc. change (Z.of_nat 0) with 0 in Hc.
  rewrite Hc. cbn. rewrite Z.eqb_refl.
  case_cmp; rewrite bool_decide_eq_true_2; try done.
  by destruct ls.
Qed.

End Ops.

(** ** What the module promises to its clients *)

Class ListOps (A Q L : Type) := {
  l_create : script → option L * script;
  l_push_back : L → A → script → res (Z * L * script);
  l_pop_front : L → res L;
  l_front : L → res (option A);
  l_find : L → Q → (A → Q → res Z) → res (option A);
  l_remove : L → Q → (A → Q → res Z) → res (option A * L);
  l_isempty : L → bool;
  l_getsize : L → Z;
  l_destroyed : L → res unit;
  l_assertvalid : L → res unit
}.

Class ListLaws (A Q L : Type) `{ListOps A Q L} := {
  lrep : L → list A → Prop;
  l_create_law o :
    if (kmalloc o).1 then ∃ s, l_create o = (Some s, (kmalloc o).2) ∧ lrep s []
    else l_create o = (None, (kmalloc o).2);
  l_push_back_law s xs x o : lrep s xs → Z.of_nat (length xs) + 1 < 2 ^ 32 →
    if (kmalloc o).1
    then ∃ s', l_push_back s x o = Ret (0, s', (kmalloc o).2) ∧ lrep s' (xs ++ [x])
    else l_push_back s x o = Ret (ENOMEM, s, (kmalloc o).2);
  l_pop_front_law s xs : lrep s xs →
    ∃ s', l_pop_front s = Ret s' ∧ lrep s' (List.tl xs);
  l_front_law s xs : lrep s xs → l_front s = Ret (hd_error xs);
  l_find_law s xs q c f : lrep s xs → compares q c f xs →
    l_find s q c = Ret (first_match f xs);
  l_remove_law s xs q c f : lrep s xs → compares q c f xs →
    ∃ s', l_remove s q c = Ret (first_match f xs, s') ∧ lrep s' (remove_first f xs);
  l_getsize_law s xs : lrep s xs → l_getsize s = Z.of_nat (length xs);
  l_isempty_law s xs : lrep s xs → l_isempty s = match xs with [] => true | _ => false end;
  l_destroyed_law s xs : lrep s xs → l_destroyed s = Ret tt;
  l_assertvalid_law s xs : lrep s xs → l_assertvalid s = Ret tt
}.

(** The implementation of this file. *)
Module LinkedLists.

#[export] Instance llist_ops A Q : ListOps A Q (llist A) := {
  l_create := list_create;
  l_push_back := list_push_back;
  l_pop_front := list_pop_front;
  l_front := list_front;
  l_find := list_find;
  l_remove := list_remove;
  l_isempty := list_isempty;
  l_getsize := list_getsize;
  l_destroyed s := _ ← list_destroy s; Ret tt;
  l_assertvalid := list_assertvalid
}.

#[export] Program Instance LinkedList_ADT A Q : ListLaws A Q (llist A) := { lrep := rep }.
Next Obligation.
  intros A Q o. cbn. rewrite create_correct. destruct (kmalloc o) as [[] ?]; cbn; [|done].
  eexists. split; [done|apply rep_empty].
Qed.
Next Obligation. intros A Q. exact push_back_correct. Qed.
Next Obligation. intros A Q. exact pop_front_correct. Qed.
Next Obligation. intros A Q. exact front_correct. Qed.
Next Obligation. intros A Q. exact find_correct. Qed.
Next Obligation. intros A Q. exact remove_correct. Qed.
Next Obligation. intros A Q. exact rep_size. Qed.
Next Obligation. intros A Q. exact rep_lsize_eqb. Qed.
Next Obligation.
  intros A Q s xs H. unfold l_destroyed, llist_ops. by rewrite (destroy_correct s xs H).
Qed.
Next Obligation. intros A Q. exact assertvalid_correct. Qed.

End LinkedLists.

(** ** Queues (kern/lib/queue.c) *)

Module Queue.
Section Queue.
Context {A Q L : Type} `{ListLaws A Q L}.

Record queue := Queue { vals : L }.

Definition queue_create (o : script) : option queue * script :=
  let '(ok, o) := kmalloc o in
  if negb ok then (None, o) else
  let '(l, o) := l_create o in
  match l with
  | None => (None, o)
  | Some l => (Some (Queue l), o)
  end.

Definition queue_push (q : queue) (newval : A) (o : script) : res (Z * queue * script) :=
  '(r, l, o) ← l_push_back q.(vals) newval o; Ret (r, Queue l, o).

Definition queue_pop (q : queue) : res queue :=
  l ← l_pop_front q.(vals); Ret (Queue l).

Definition queue_front (q : queue) : res (option A) := l_front q.(vals).

Definition queue_isempty (q : queue) : bool := l_isempty q.(vals).

Definition queue_getsize (q : queue) : Z := l_getsize q.(vals).

Definition queue_destroy (q : queue) : res unit := l_destroyed q.(vals).

Definition queue_assertvalid (q : queue) : res unit := l_assertvalid q.(vals).

(** Client histories: a queue driven by a sequence of requests, and the answers
    of [queue_front] before each pop. *)
Inductive request := Push (x : A) | Pop.

Fixpoint run (q : queue) (rs : list request) (o : script)
    : res (list (option A) * queue * script) :=
  match rs with
  | [] => Ret ([], q, o)
  | Push x :: rs' => '(_, q, o) ← queue_push q x o; run q rs' o
  | Pop :: rs' =>
      x ← queue_front q;
      q ← queue_pop q;
      '(out, q, o) ← run q rs' o;
      Ret (x :: out, q, o)
  end.

(** The first-in-first-out specification; a push takes effect when its allocation
    succeeds. *)
Fixpoint fifo (xs : list A) (rs : list request) (o : script) : list (option A) * list A :=
  match rs with
  | [] => ([], xs)
  | Push x :: rs' =>
      let '(ok, o) := kmalloc o in
      fifo (if ok then xs ++ [x] else xs) rs' o
  | Pop :: rs' =>
      let '(out, ys) := fifo (List.tl xs) rs' o in (hd_error xs :: out, ys)
  end.

Lemma run_correct rs q xs o : lrep q.(vals) xs →
  Z.of_nat (length xs + length rs) < 2 ^ 32 →
  ∃ q' o', run q rs o = Ret ((fifo xs rs o).1, q', o') ∧
    lrep q'.(vals) (fifo xs rs o).2.
Proof.
  revert q xs o. induction rs as [|[x|] rs IH]; intros q xs o Hrep Hlen; cbn in *.
  - eauto.
  - unfold queue_push. pose proof (l_push_back_law _ _ x o Hrep ltac:(lia)) as Hp.
    destruct (kmalloc o) as [[] o']; cbn in *.
    + destruct Hp as (s' & -> & Hrep'). cbn. apply IH; [done|]. rewrite length_app; cbn. lia.
    + rewrite Hp. cbn. apply IH; [by destruct q|]. lia.
  - unfold queue_front, queue_pop. rewrite (l_front_law _ _ Hrep). cbn.
    destruct (l_pop_front_law _ _ Hrep) as (s' & -> & Hrep'). cbn.
    destruct (IH (Queue s') (List.tl xs) o Hrep') as (q' & o' & -> & Hq').
    { destruct xs; cbn in *; lia. }
    destruct (fifo (List.tl xs) rs o). cbn. eauto.
Qed.

End Queue.
Arguments queue : clear implicits.
End Queue.

(** ** Properties *)

(** [list_remove] unlinks the first element that compares equal and no
    other, returns it, keeps the order of the rest, and leaves [head], [tail]
    and [size] right also when the first, the last or the only node goes. *)
Theorem list_remove_unlinks {A Q} (s : llist A) xs (q : Q) c f :
  rep s xs → compares q c f xs →
  ∃ s', list_remove s q c = Ret (first_match f xs, s') ∧ rep s' (remove_first f xs).
Proof. apply remove_correct. Qed.

Lemma list_remove_unlinks_witness :
  ∃ s', list_remove (LList (links [(1%positive, 5); (2%positive, 6)] None)
                       (Some 1%positive) (Some 2%positive) 2)
          6 (λ x q, Ret (x - q)) = Ret (Some 6, s') ∧ rep s' [5].
Proof.
  apply (list_remove_unlinks _ [5; 6] 6 (λ x q, Ret (x - q)) (λ x, x - 6)); [|by intros x _].
  exists [(1%positive, 5); (2%positive, 6)]. split; [|done]. split_and!; cbn; try done.
  apply (bool_decide_unpack _). by vm_compute.
Defined.

(** Destroying a list frees every node it owns: the store is empty
    afterwards. *)
Theorem list_destroy_frees_all {A} (s : llist A) xs : rep s xs → list_destroy s = Ret ∅.
Proof. apply destroy_correct. Qed.

Lemma list_destroy_frees_all_witness :
  list_destroy (LList (links [(1%positive, 5); (2%positive, 6)] None)
                  (Some 1%positive) (Some 2%positive) 2) = Ret ∅.
Proof.
  apply (list_destroy_frees_all _ [5; 6]).
  exists [(1%positive, 5); (2%positive, 6)]. split; [|done]. split_and!; cbn; try done.
  apply (bool_decide_unpack _). by vm_compute.
Defined.

(** A queue answers any sequence of pushes and pops as a first-in-first-out
    queue does, whatever allocations fail (a failed push is one that did not
    happen), and its linked list then holds the elements that are left. *)
Theorem queue_fifo {A} (rs : list (@Queue.request A)) (o : script) :
  Z.of_nat (length rs) < 2 ^ 32 →
  ∃ q o', Queue.run (H := LinkedLists.llist_ops A A) (Queue.Queue (LList ∅ None None 0)) rs o
      = Ret ((Queue.fifo [] rs o).1, q, o') ∧
    rep (Queue.vals q) (Queue.fifo [] rs o).2.
Proof.
  intros Hlen.
  apply (Queue.run_correct (H0 := LinkedLists.LinkedList_ADT A A)); [apply rep_empty|cbn; lia].
Qed.

Lemma queue_fifo_witness :
  ∃ q o', Queue.run (H := LinkedLists.llist_ops Z Z) (Queue.Queue (LList ∅ None None 0))
            [Queue.Push 1; Queue.Push 2; Queue.Pop; Queue.Push 3; Queue.Pop] [true; false]
      = Ret ([Some 1; Some 3], q, o') ∧ rep (Queue.vals q) [].
Proof.
  apply (queue_fifo [Queue.Push 1; Queue.Push 2; Queue.Pop; Queue.Push 3; Queue.Pop]
    [true; false]). cbn. lia.
Defined.
