(* ===== verification/CString.v ===== *)
(** * C strings and memory blocks (common/libc/string, common/libc/stdlib/atoi.c)

    A memory object is a list of bytes and a pointer into it an offset; the
    two objects of a call that must not overlap are two lists.  [cstr b p s]
    says that the bytes [s] and their terminator are at offset [p] of [b]. *)

From Stdlib Require Import Ascii String.
From S2P Require Import Prelude.

(** ** Characters *)

Definition chr (a : ascii) : Z := Z.of_N (N_of_ascii a).

Definition bytes_of (s : string) : list Z := chr <$> list_ascii_of_string s.

(** A string literal is an object of its own. *)
Definition lit (s : string) : list Z := bytes_of s ++ [0].

(** The value of a byte read as a (signed) [char]. *)
Definition schar (b : Z) : Z := if b <? 128 then b else b - 256.

(** ** Operations *)

(** Every string loop stays inside its object, so the object bounds it. *)
Definition str_fuel (b : list Z) : nat := S (length b).

Fixpoint strlen_loop (fuel : nat) (b : list Z) (str ret : Z) : res Z :=
  match fuel with
  | O => Diverge
  | S fuel' =>
      c ← b.[str + ret];
      if c =? 0 then Ret ret else strlen_loop fuel' b str (u32 (ret + 1))
  end.

Definition strlen (b : list Z) (str : Z) : res Z := strlen_loop (str_fuel b) b str 0.

(** The result is the index at which the scan stops. *)
Fixpoint strcmp_loop (fuel : nat) (a b : list Z) (i : Z) : res Z :=
  match fuel with
  | O => Diverge
  | S fuel' =>
      x ← a.[i];
      if x =? 0 then Ret i else
      y ← b.[i];
      if x =? y then strcmp_loop fuel' a b (u32 (i + 1)) else Ret i
  end.

Definition strcmp (a b : list Z) : res Z :=
  i ← strcmp_loop (str_fuel a) a b 0;
  x ← a.[i];
  y ← b.[i];
  Ret (if x >? y then 1 else if x =? y then 0 else -1).

Fixpoint strcpy_loop (fuel : nat) (db : list Z) (dest : Z) (sb : list Z) (src i : Z)
    : res (list Z) :=
  match fuel with
  | O => Diverge
  | S fuel' =>
      c ← sb.[src + i];
      if c =? 0 then db.[dest + i <- 0] else
      db ← db.[dest + i <- c];
      strcpy_loop fuel' db dest sb src (u32 (i + 1))
  end.

Definition strcpy (db : list Z) (dest : Z) (sb : list Z) (src : Z) : res (list Z) :=
  strcpy_loop (str_fuel sb) db dest sb src 0.

Definition strcat (db : list Z) (dest : Z) (sb : list Z) (src : Z) : res (list Z) :=
  offset ← strlen db dest;
  strcpy db (dest + offset) sb src.

(** [ch] is the searched byte: [const char ch = ch_arg]. *)
Fixpoint strchr_loop (fuel : nat) (b : list Z) (s ch : Z) : res (option Z) :=
  match fuel with
  | O => Diverge
  | S fuel' =>
      c ← b.[s];
      if c =? 0 then Ret (if c =? ch then Some s else None)
      else if c =? ch then Ret (Some s)
      else strchr_loop fuel' b (s + 1) ch
  end.

Definition strchr (b : list Z) (s ch_arg : Z) : res (option Z) :=
  strchr_loop (str_fuel b) b s (u8 ch_arg).

Fixpoint strrchr_loop (fuel : nat) (b : list Z) (s ch i : Z) : res (option Z) :=
  match fuel with
  | O => Diverge
  | S fuel' =>
      if i >? 0 then
        let i := u32 (i - 1) in
        c ← b.[s + i];
        if c =? ch then Ret (Some (s + i)) else strrchr_loop fuel' b s ch i
      else Ret None
  end.

Definition strrchr (b : list Z) (s ch_arg : Z) : res (option Z) :=
  n ← strlen b s;
  strrchr_loop (S (str_fuel b)) b s (u8 ch_arg) (u32 (n + 1)).

(** The first position at or after [p] that ends the run of characters that
    are ([b = true]) or are not separators. *)
Fixpoint skip_run (fuel : nat) (want : bool) (b : list Z) (p : Z) (seps : list Z) : res Z :=
  match fuel with
  | O => Diverge
  | S fuel' =>
      c ← b.[p];
      if c =? 0 then Ret p else
      r ← strchr seps 0 c;
      if Bool.eqb (bool_decide (is_Some r)) want
      then skip_run fuel' want b (p + 1) seps
      else Ret p
  end.

(** [context] is the saved pointer; the result is the token, the object and
    the new context. *)
Definition strtok_r (b : list Z) (string : option Z) (seps : list Z) (context : option Z)
    : res (option Z * list Z * option Z) :=
  let context := match string with Some s => Some s | None => context end in
  match context with
  | None => Ret (None, b, None)
  | Some head =>
      head ← skip_run (str_fuel b) true b head seps;
      c ← b.[head];
      if c =? 0 then Ret (None, b, None) else
      tail ← skip_run (str_fuel b) false b head seps;
      c ← b.[tail];
      if c =? 0 then Ret (Some head, b, None) else
      b ← b.[tail <- 0];
      Ret (Some head, b, Some (tail + 1))
  end.

(** The loop of a client that takes all tokens of a string. *)
Fixpoint tokens (fuel : nat) (b : list Z) (string : option Z) (seps : list Z)
    (context : option Z) : res (list Z * list Z) :=
  match fuel with
  | O => Diverge
  | S fuel' =>
      '(t, b, context) ← strtok_r b string seps context;
      match t with
      | None => Ret ([], b)
      | Some p =>
          '(ps, b) ← tokens fuel' b None seps context;
          Ret (p :: ps, b)
      end
  end.

(** ** Memory blocks *)

Definition sizeof_long : Z := 4.

Fixpoint set_loop (n : nat) (b : list Z) (p i ch : Z) : res (list Z) :=
  match n with
  | O => Ret b
  | S n' => b ← b.[p + i <- ch]; set_loop n' b p (u32 (i + 1)) ch
  end.

Definition memset (b : list Z) (ptr ch len : Z) : res (list Z) :=
  set_loop (Z.to_nat len) b ptr 0 (u8 ch).

(** One access of [w] bytes: a [char] or a [long]. *)
Fixpoint load (w : nat) (b : list Z) (p : Z) : res (list Z) :=
  match w with
  | O => Ret []
  | S w' => x ← b.[p]; xs ← load w' b (p + 1); Ret (x :: xs)
  end.

Fixpoint store (b : list Z) (p : Z) (xs : list Z) : res (list Z) :=
  match xs with
  | [] => Ret b
  | x :: xs' => b ← b.[p <- x]; store b (p + 1) xs'
  end.

Definition bzero_aligned (addr len : Z) : bool :=
  (addr mod sizeof_long =? 0) && (len mod sizeof_long =? 0).

Fixpoint bzero_words (n : nat) (b : list Z) (p i : Z) : res (list Z) :=
  match n with
  | O => Ret b
  | S n' =>
      b ← store b (p + sizeof_long * i) [0; 0; 0; 0];
      bzero_words n' b p (u32 (i + 1))
  end.

(** [base] is the address of the object, on which the choice of the loop depends. *)
Definition bzero (base : Z) (b : list Z) (vblock len : Z) : res (list Z) :=
  if bzero_aligned (base + vblock) len
  then bzero_words (Z.to_nat (len / sizeof_long)) b vblock 0
  else set_loop (Z.to_nat len) b vblock 0 0.

(** [d[i] = s[i]] on elements of [w] bytes. *)
Definition copy_elem (w : nat) (b : list Z) (dst src i : Z) : res (list Z) :=
  xs ← load w b (src + Z.of_nat w * i);
  store b (dst + Z.of_nat w * i) xs.

Fixpoint copy_up (n : nat) (w : nat) (b : list Z) (dst src i : Z) : res (list Z) :=
  match n with
  | O => Ret b
  | S n' => b ← copy_elem w b dst src i; copy_up n' w b dst src (u32 (i + 1))
  end.

Fixpoint copy_down (n : nat) (w : nat) (b : list Z) (dst src : Z) : res (list Z) :=
  match n with
  | O => Ret b
  | S n' => b ← copy_elem w b dst src (Z.of_nat n - 1); copy_down n' w b dst src
  end.

Definition copy_aligned (base dst src len : Z) : bool :=
  ((base + dst) mod sizeof_long =? 0) && ((base + src) mod sizeof_long =? 0) &&
  (len mod sizeof_long =? 0).

Definition memcpy (base : Z) (b : list Z) (dst src len : Z) : res (list Z) :=
  if copy_aligned base dst src len
  then copy_up (Z.to_nat (len / sizeof_long)) 4 b dst src 0
  else copy_up (Z.to_nat len) 1 b dst src 0.

Definition memmove (base : Z) (b : list Z) (dst src len : Z) : res (list Z) :=
  if dst <? src then memcpy base b dst src len
  else if copy_aligned base dst src len
  then copy_down (Z.to_nat (len / sizeof_long)) 4 b dst src
  else copy_down (Z.to_nat len) 1 b dst src.

(** ** atoi *)

Definition digits : list Z := lit "0123456789".

Fixpoint skip_blanks (fuel : nat) (b : list Z) (s : Z) : res Z :=
  match fuel with
  | O => Diverge
  | S fuel' =>
      c ← b.[s];
      if (c =? chr " ") || (c =? chr "009") then skip_blanks fuel' b (s + 1) else Ret s
  end.

Fixpoint atoi_loop (fuel : nat) (b : list Z) (s val : Z) : res Z :=
  match fuel with
  | O => Diverge
  | S fuel' =>
      c ← b.[s];
      if c =? 0 then Ret val else
      where_ ← strchr digits 0 c;
      match where_ with
      | None => Ret val
      | Some digit => atoi_loop fuel' b (s + 1) (u32 (u32 (val * 10) + digit))
      end
  end.

Definition atoi (b : list Z) (s : Z) : res Z :=
  s ← skip_blanks (str_fuel b) b s;
  c ← b.[s];
  let neg := c =? chr "-" in
  let s := if neg then s + 1 else if c =? chr "+" then s + 1 else s in
  val ← atoi_loop (str_fuel b) b s 0;
  Ret (if neg then i32 (u32 (- val)) else i32 val).

#[global] Arguments str_fuel : simpl never.
#[global] Arguments strlen : simpl never.
#[global] Arguments strcpy : simpl never.
#[global] Arguments strchr : simpl never.
#[global] Arguments strrchr : simpl never.
#[global] Arguments strtok_r : simpl never.
#[global] Arguments u32 : simpl never.

(** ** Specification *)

Definition cstr (b : list Z) (p : Z) (s : list Z) : Prop :=
  0 ≤ p ∧ Z.of_nat (length b) < 2 ^ 32 ∧ Forall (λ c, 0 < c < 256) s ∧
  ∃ rest, drop (Z.to_nat p) b = s ++ 0 :: rest.

(** Byte-wise order of two strings. *)
Fixpoint lex (s t : list Z) : Z :=
  match s, t with
  | [], [] => 0
  | [], _ :: _ => -1
  | _ :: _, [] => 1
  | x :: s', y :: t' => if x =? y then lex s' t' else if x >? y then 1 else -1
  end.

(** Offset of the first occurrence of a byte, the terminator included. *)
Fixpoint index_of (ch : Z) (s : list Z) : option Z :=
  match s with
  | [] => if ch =? 0 then Some 0 else None
  | c :: s' => if c =? ch then Some 0 else Z.succ <$> index_of ch s'
  end.

(** The maximal non-empty runs without separators; [w] is the current run. *)
Fixpoint words (sep : Z → bool) (w s : list Z) : list (list Z) :=
  let flush := if decide (w = []) then [] else [w] in
  match s with
  | [] => flush
  | c :: s' => if sep c then flush ++ words sep [] s' else words sep (w ++ [c]) s'
  end.

(** [b'] is [b] with [n] bytes of [b] at [src] moved to [dst]. *)
Definition copied (b b' : list Z) (dst src n : nat) : Prop :=
  length b' = length b ∧
  ∀ j, b' !! j = if decide (dst ≤ j < dst + n)%nat then b !! (src + (j - dst))%nat else b !! j.

(** The value of a run of decimal digits appended to [v]. *)
Fixpoint decimal (v : Z) (ds : list Z) : Z :=
  match ds with [] => v | d :: ds' => decimal (v * 10 + (d - chr "0")) ds' end.

Definition is_digit (c : Z) : Prop := chr "0" ≤ c ≤ chr "9".

(** ** Reading strings *)

Lemma cstr_cons b p c s : cstr b p (c :: s) →
  0 < c < 256 ∧ b.[p] = Ret c ∧ cstr b (p + 1) s.
Proof.
  intros (Hp & Hl & [Hc Hs]%Forall_cons & rest & Hd). cbn in Hd. split; [done|]. split.
  - apply rd_lookup; [done|].
    rewrite <-(Nat.add_0_r (Z.to_nat p)), <-lookup_drop, Hd. done.
  - split_and!; [lia|done..|]. exists rest.
    rewrite Z2Nat.inj_add, <-drop_drop, Hd by lia. done.
Qed.

Lemma cstr_nil b p : cstr b p [] → b.[p] = Ret 0.
Proof.
  intros (Hp & _ & _ & rest & Hd). apply rd_lookup; [done|].
  rewrite <-(Nat.add_0_r (Z.to_nat p)), <-lookup_drop, Hd. done.
Qed.

Lemma cstr_bound b p s : cstr b p s →
  0 ≤ p ∧ p + Z.of_nat (length s) < Z.of_nat (length b) < 2 ^ 32.
Proof.
  intros (Hp & Hl & _ & rest & Hd). apply (f_equal length) in Hd.
  rewrite length_drop, length_app in Hd. cbn in Hd. lia.
Qed.

Lemma cstr_skip b p s1 s2 : cstr b p (s1 ++ s2) → cstr b (p + Z.of_nat (length s1)) s2.
Proof.
  revert p. induction s1 as [|c s1 IH]; intros p H; cbn.
  - by rewrite Z.add_0_r.
  - apply cstr_cons in H as (_ & _ & H%IH). 
    by replace (p + Z.of_nat (S (length s1))) with (p + 1 + Z.of_nat (length s1)) by lia.
Qed.

Lemma cstr_read b p s1 c s2 : cstr b p (s1 ++ c :: s2) →
  b.[p + Z.of_nat (length s1)] = Ret c.
Proof. intros H%cstr_skip%cstr_cons. naive_solver. Qed.

Lemma cstr_end b p s : cstr b p s → b.[p + Z.of_nat (length s)] = Ret 0.
Proof. intros H. apply cstr_nil, cstr_skip. by rewrite app_nil_r. Qed.

Lemma cstr_fuel b p s : cstr b p s → (length s < str_fuel b)%nat.
Proof. intros H%cstr_bound. unfold str_fuel. lia. Qed.

Lemma strlen_loop_correct fuel b p s ret : cstr b (p + ret) s → 0 ≤ p → 0 ≤ ret →
  (length s < fuel)%nat → strlen_loop fuel b p ret = Ret (ret + Z.of_nat (length s)).
Proof.
  revert s ret. induction fuel as [|fuel IH]; intros s ret H Hp Hr Hf; [lia|]. cbn.
  destruct s as [|c s].
  - rewrite (cstr_nil _ _ H). cbn. f_equal. lia.
  - pose proof (cstr_bound _ _ _ H). apply cstr_cons in H as (Hc & -> & H). cbn in *.
    case_cmp; [lia|]. rewrite u32_id by lia.
    rewrite <-Z.add_assoc in H. rewrite (IH s) by (done || lia). f_equal. lia.
Qed.

Lemma strlen_correct b p s : cstr b p s → strlen b p = Ret (Z.of_nat (length s)).
Proof.
  intros H. unfold strlen. erewrite strlen_loop_correct; [by rewrite Z.add_0_l| | |lia|].
  - by rewrite Z.add_0_r.
  - by destruct H.
  - by eapply cstr_fuel.
Qed.

(** [strcmp] from a common offset. *)
Lemma strcmp_loop_correct fuel a b s t i : cstr a i s → cstr b i t → (length s < fuel)%nat →
  ∃ j x y, strcmp_loop fuel a b i = Ret j ∧ a.[j] = Ret x ∧ b.[j] = Ret y ∧
    (if x >? y then 1 else if x =? y then 0 else -1) = lex s t.
Proof.
  revert s t i. induction fuel as [|fuel IH]; intros s t i Ha Hb Hf; [lia|].
  destruct s as [|x s].
  { pose proof (cstr_nil _ _ Ha) as Hx. destruct t as [|y t].
    - pose proof (cstr_nil _ _ Hb) as Hy. exists i, 0, 0. cbn. by rewrite Hx.
    - apply cstr_cons in Hb as (? & Hy & _). exists i, 0, y. cbn. rewrite Hx. split_and!; try done.
      case_cmp; [lia|]. case_cmp; [lia|done]. }
  pose proof (cstr_bound _ _ _ Ha). apply cstr_cons in Ha as (? & Hx & Ha).
  destruct t as [|y t].
  { pose proof (cstr_nil _ _ Hb) as Hy. exists i, x, 0. cbn. rewrite Hx. cbn.
    case_cmp; [lia|]. rewrite Hy. cbn. case_cmp; [lia|]. split_and!; try done.
    case_cmp; [done|lia]. }
  apply cstr_cons in Hb as (? & Hy & Hb). cbn in *. rewrite Hx. cbn. case_cmp; [lia|].
  rewrite Hy. cbn. case_cmp.
  - rewrite u32_id by lia. apply IH; [done..|lia].
  - exists i, x, y. rewrite Hx, Hy. split_and!; try done. case_cmp; [done|].
    case_cmp; [lia|done].
Qed.

Lemma strcmp_correct a b s t : cstr a 0 s → cstr b 0 t → strcmp a b = Ret (lex s t).
Proof.
  intros Ha Hb. unfold strcmp.
  destruct (strcmp_loop_correct (str_fuel a) a b s t 0) as (j & x & y & -> & Hx & Hy & <-);
    [done..|by eapply cstr_fuel|]. cbn. by rewrite Hx; cbn; rewrite Hy.
Qed.

Lemma lex_eq s t : lex s t = 0 ↔ s = t.
Proof.
  revert t. induction s as [|x s IH]; intros [|y t]; cbn; try done.
  case_cmp; [|case_cmp; naive_solver lia]. rewrite IH. naive_solver.
Qed.

Lemma lex_antisym s t : lex t s = - lex s t.
Proof.
  revert t. induction s as [|x s IH]; intros [|y t]; cbn; try done.
  destruct (Z.eqb_spec x y) as [->|]; [by rewrite Z.eqb_refl|].
  repeat (case_cmp; try lia).
Qed.

(** ** Searching *)

Lemma strchr_loop_correct fuel b p s ch : cstr b p s → (length s < fuel)%nat →
  strchr_loop fuel b p ch = Ret (Z.add p <$> index_of ch s).
Proof.
  revert p s. induction fuel as [|fuel IH]; intros p s H Hf; [lia|].
  destruct s as [|c s]; cbn.
  - rewrite (cstr_nil _ _ H). cbn. rewrite (Z.eqb_sym ch).
    case_cmp; cbn; [|done]. by rewrite Z.add_0_r.
  - apply cstr_cons in H as (? & -> & H). cbn in *. case_cmp; [lia|].
    case_cmp; cbn; [by rewrite Z.add_0_r|].
    rewrite (IH _ s) by (done || lia). destruct (index_of ch s); cbn; [|done].
    do 2 f_equal. lia.
Qed.

Lemma strchr_correct b p s ch : cstr b p s →
  strchr b p ch = Ret (Z.add p <$> index_of (u8 ch) s).
Proof. intros H. apply strchr_loop_correct; [done|]. by eapply cstr_fuel. Qed.

Lemma index_of_None ch s : ch ≠ 0 → index_of ch s = None ↔ ch ∉ s.
Proof.
  intros Hch. induction s as [|c s IH]; cbn.
  - case_cmp; [done|]. split; [|done]. intros _ ?%elem_of_nil. done.
  - rewrite not_elem_of_cons. case_cmp; [naive_solver|].
    rewrite fmap_None, IH. naive_solver.
Qed.

Lemma index_of_Some ch s i : index_of ch s = Some i →
  0 ≤ i ≤ Z.of_nat (length s) ∧ (s ++ [0]) !! Z.to_nat i = Some ch ∧
  ch ∉ take (Z.to_nat i) s.
Proof.
  revert i. induction s as [|c s IH]; cbn; intros i.
  - case_cmp; [|done]. intros [= <-]. cbn. split_and!; [lia..|by subst|apply not_elem_of_nil].
  - case_cmp.
    + intros [= <-]. cbn. split_and!; [lia..|by subst|apply not_elem_of_nil].
    + intros (j & (? & ? & ?)%IH & ->)%fmap_Some.
      rewrite Z2Nat.inj_succ by lia. cbn. rewrite not_elem_of_cons.
      split_and!; [lia..|done|congruence|done].
Qed.

(** Scanning backwards finds the last occurrence in the prefix scanned. *)
Lemma strrchr_loop_correct fuel b p s ch n :
  drop (Z.to_nat p) b = s → 0 ≤ p → Z.of_nat (length b) < 2 ^ 32 →
  (n ≤ length s)%nat → (n < fuel)%nat →
  (∃ i, strrchr_loop fuel b p ch (Z.of_nat n) = Ret (Some (p + Z.of_nat i)) ∧
     s !! i = Some ch ∧ (i < n)%nat ∧ ch ∉ drop (S i) (take n s)) ∨
  (strrchr_loop fuel b p ch (Z.of_nat n) = Ret None ∧ ch ∉ take n s).
Proof.
  intros Hd Hp Hb. revert n. induction fuel as [|fuel IH]; intros n Hn Hf; [lia|].
  destruct n as [|n]; [right; split; [done|apply not_elem_of_nil]|].
  assert (length s ≤ length b)%nat by (rewrite <-Hd, length_drop; lia).
  cbn [strrchr_loop]. case_cmp; [|lia]. rewrite u32_id by lia.
  replace (Z.of_nat (S n) - 1) with (Z.of_nat n) by lia.
  destruct (lookup_lt_is_Some_2 s n ltac:(lia)) as [c Hc].
  rewrite (rd_lookup b (p + Z.of_nat n) c)
    by (lia || (rewrite Z2Nat.inj_add, Nat2Z.id, <-lookup_drop, Hd by lia; done)).
  rewrite (take_S_r _ _ _ Hc). cbn. case_cmp.
  - subst. left. exists n. split_and!; [done..|lia|].
    rewrite drop_ge by (rewrite length_app, length_take; cbn; lia). apply not_elem_of_nil.
  - destruct (IH n) as [(i & Hi & Hl & ? & Hni)|[Hi Hni]]; [lia..|left|right].
    + exists i. rewrite drop_app_le by (rewrite length_take; lia).
      split_and!; [done..|lia|set_solver].
    + split; [done|set_solver].
Qed.

Lemma strrchr_correct b p s ch : cstr b p s →
  (∃ i, strrchr b p ch = Ret (Some (p + Z.of_nat i)) ∧
     (s ++ [0]) !! i = Some (u8 ch) ∧ u8 ch ∉ drop (S i) (s ++ [0])) ∨
  (strrchr b p ch = Ret None ∧ u8 ch ∉ s ++ [0]).
Proof.
  intros H. unfold strrchr. rewrite (strlen_correct _ _ _ H). cbn [mbind res_bind].
  pose proof (cstr_bound _ _ _ H). rewrite u32_id by lia.
  destruct H as (Hp & Hb & _ & rest & Hd). rewrite cons_middle, app_assoc in Hd.
  set (s0 := s ++ [0]) in *. assert (length s0 = length s + 1)%nat as Hlen.
  { unfold s0. by rewrite length_app. }
  replace (Z.of_nat (length s) + 1) with (Z.of_nat (length s0)) by lia.
  destruct (strrchr_loop_correct (S (str_fuel b)) b p _ (u8 ch) (length s0) Hd)
    as [(i & -> & Hi & ? & Hni)|[-> Hni]];
    rewrite ?length_app; unfold str_fuel; try lia; [left|right].
  - exists i. rewrite take_app_length in Hni. rewrite lookup_app_l in Hi by lia. done.
  - by rewrite take_app_length in Hni.
Qed.

(** ** Copying strings *)

Lemma strcpy_loop_correct fuel db d sb p s i : cstr sb (p + i) s → 0 ≤ p → 0 ≤ i → 0 ≤ d →
  d + i + Z.of_nat (length s) < Z.of_nat (length db) → (length s < fuel)%nat →
  strcpy_loop fuel db d sb p i =
    Ret (take (Z.to_nat (d + i)) db ++ s ++ 0 ::
         drop (Z.to_nat (d + i) + length s + 1) db).
Proof.
  revert s i db. induction fuel as [|fuel IH]; intros s i db H Hp Hi Hd Hlen Hf; [lia|].
  destruct s as [|c s]; cbn.
  - rewrite (cstr_nil _ _ H). cbn. rewrite wr_in_range by (cbn in *; lia). f_equal.
    rewrite insert_take_drop by (cbn in *; lia). do 3 f_equal. lia.
  - pose proof (cstr_bound _ _ _ H). apply cstr_cons in H as (? & -> & H). cbn in *.
    case_cmp; [lia|]. rewrite wr_in_range by lia. cbn.
    rewrite u32_id by lia. rewrite <-Z.add_assoc in H.
    rewrite (IH s) by (done || (rewrite ?length_insert; lia)). f_equal.
    replace (Z.to_nat (d + (i + 1))) with (S (Z.to_nat (d + i))) by lia.
    rewrite (take_S_r _ _ c), take_insert_ge, drop_insert_lt
      by (lia || (apply list_lookup_insert_eq; lia)).
    rewrite <-app_assoc. cbn. do 5 f_equal. lia.
Qed.

(** The object after [s] and a terminator have been written at [p]. *)
Definition write_str (b : list Z) (p : Z) (s : list Z) : list Z :=
  take (Z.to_nat p) b ++ s ++ 0 :: drop (Z.to_nat p + length s + 1) b.

Lemma strcpy_correct db d sb p s : cstr sb p s → 0 ≤ d →
  d + Z.of_nat (length s) < Z.of_nat (length db) →
  strcpy db d sb p = Ret (write_str db d s).
Proof.
  intros H Hd Hl. pose proof (cstr_bound _ _ _ H). pose proof (cstr_fuel _ _ _ H).
  unfold strcpy. rewrite (strcpy_loop_correct _ _ _ _ _ s) by (rewrite ?Z.add_0_r; done || lia).
  by rewrite Z.add_0_r.
Qed.

Lemma write_str_cstr b p s : 0 ≤ p → p + Z.of_nat (length s) < Z.of_nat (length b) →
  Z.of_nat (length b) < 2 ^ 32 → Forall (λ c, 0 < c < 256) s →
  cstr (write_str b p s) p s ∧ length (write_str b p s) = length b.
Proof.
  intros Hp Hl Hb Hs. unfold write_str.
  assert (length (take (Z.to_nat p) b ++ s ++ 0 :: drop (Z.to_nat p + length s + 1) b)
          = length b) as Hlen.
  { rewrite !length_app, length_take. cbn. rewrite length_drop. lia. }
  split; [|done]. split_and!; [done|lia|done|].
  eexists. rewrite drop_app_length' by (rewrite length_take; lia). done.
Qed.

Lemma strcat_correct db d s1 sb p s2 : cstr db d s1 → cstr sb p s2 →
  d + Z.of_nat (length s1 + length s2) < Z.of_nat (length db) →
  ∃ db', strcat db d sb p = Ret db' ∧ cstr db' d (s1 ++ s2) ∧ length db' = length db ∧
    take (Z.to_nat d) db' = take (Z.to_nat d) db.
Proof.
  intros H1 H2 Hl. unfold strcat. rewrite (strlen_correct _ _ _ H1). cbn.
  pose proof (cstr_bound _ _ _ H1).
  rewrite (strcpy_correct _ _ _ _ s2) by (done || lia).
  destruct H1 as (? & ? & Hs1 & rest & Hd). destruct H2 as (_ & _ & Hs2 & _).
  destruct (write_str_cstr db d (s1 ++ s2)) as [Hc Hlen];
    [lia|rewrite length_app; lia|done|by apply Forall_app|].
  assert (write_str db (d + Z.of_nat (length s1)) s2 = write_str db d (s1 ++ s2)) as ->.
  { unfold write_str. rewrite Z2Nat.inj_add, Nat2Z.id by lia.
    rewrite <-take_take_drop, Hd, take_app_length, length_app, <-!app_assoc.
    do 4 f_equal; f_equal; lia. }
  eexists. split_and!; [done..|]. unfold write_str.
  rewrite take_app_length' by (rewrite length_take; lia). done.
Qed.

(** ** Tokenising *)

(** The separator test of the code. *)
Definition is_sep (seps : list Z) (c : Z) : bool := bool_decide (c ∈ seps).

Definition run_length (sep : Z → bool) (s : list Z) : nat :=
  match list_find (λ c, sep c = false) s with Some (i, _) => i | None => length s end.

Lemma run_length_split sep s : let n := run_length sep s in
  (n ≤ length s)%nat ∧ Forall (λ c, sep c = true) (take n s) ∧
  match drop n s with [] => True | c :: _ => sep c = false end.
Proof.
  unfold run_length. destruct (list_find _ s) as [[i c]|] eqn:E; cbn.
  - apply list_find_Some in E as (Hi & Hc & Hb).
    pose proof (lookup_lt_Some _ _ _ Hi). split_and!; [lia| |].
    + apply Forall_lookup. intros j x Hj. apply lookup_take_Some in Hj as [Hj ?].
      specialize (Hb _ _ Hj). destruct (sep x); [done|]. destruct Hb; [lia|done].
    + by rewrite (drop_S _ c) by done.
  - apply list_find_None in E. split_and!; [lia| |by rewrite drop_ge].
    rewrite take_ge by lia. eapply Forall_impl; [exact E|]. intros c Hc. cbn in Hc. by destruct (sep c).
Qed.

Lemma skip_run_correct fuel want b p s sb seps : cstr sb 0 seps → cstr b p s →
  (length s < fuel)%nat →
  skip_run fuel want b p sb =
    Ret (p + Z.of_nat (run_length (λ c, Bool.eqb (is_sep seps c) want) s)).
Proof.
  intros Hseps. revert p s. induction fuel as [|fuel IH]; intros p s H Hf; [lia|].
  destruct s as [|c s]; cbn.
  - rewrite (cstr_nil _ _ H). cbn. f_equal. lia.
  - apply cstr_cons in H as (Hc & -> & H). cbn. case_cmp; [lia|].
    rewrite (strchr_correct _ _ _ _ Hseps), u8_id by lia. cbn.
    assert (bool_decide (is_Some (Z.add 0 <$> index_of c seps)) = is_sep seps c) as ->.
    { apply bool_decide_ext. rewrite fmap_is_Some.
      pose proof (index_of_None c seps ltac:(lia)) as Hn.
      destruct (index_of c seps); [|naive_solver by eauto].
      split; [|naive_solver]. intros _. apply dec_stable. by intros ?%Hn. }
    unfold run_length; cbn. case_match; cbn.
    + rewrite decide_False by congruence. rewrite (IH _ s) by (done || cbn in *; lia).
      unfold run_length. destruct (list_find _ s) as [[??]|]; cbn; f_equal; lia.
    + rewrite decide_True by congruence. f_equal. lia.
Qed.

Lemma cstr_take b p s1 s2 k : cstr b p (s1 ++ s2) → k = (Z.to_nat p + length s1)%nat →
  cstr (<[k := 0]> b) p s1.
Proof.
  intros H ->. pose proof (cstr_bound _ _ _ H). rewrite length_app in *.
  destruct H as (? & ? & [Hs1 Hs2]%Forall_app & rest & Hd).
  split_and!; [done|by rewrite length_insert|done|].
  rewrite drop_insert_ge, Hd, Nat.add_comm, Nat.add_sub by lia.
  rewrite <-app_assoc, insert_app_r_alt, Nat.sub_diag by lia.
  destruct s2; cbn; eauto.
Qed.

(** A write behind the terminator leaves a string alone. *)
Lemma cstr_insert_after b p s k x : cstr b p s → p + Z.of_nat (length s) < Z.of_nat k →
  cstr (<[k := x]> b) p s.
Proof.
  intros (? & ? & ? & rest & Hd) Hk.
  split_and!; [done|by rewrite length_insert|done|].
  rewrite drop_insert_ge, Hd, cons_middle, app_assoc, insert_app_r_alt
    by (rewrite ?length_app; cbn; lia).
  eexists. by rewrite <-app_assoc.
Qed.

Lemma cstr_insert_before b p s k x : cstr b p s → Z.of_nat k < p → cstr (<[k := x]> b) p s.
Proof.
  intros (? & ? & ? & rest & Hd) Hk.
  split_and!; [done|by rewrite length_insert|done|].
  rewrite drop_insert_lt by lia. eauto.
Qed.

Lemma words_skip sep s1 s2 : Forall (λ c, sep c = true) s1 →
  words sep [] (s1 ++ s2) = words sep [] s2.
Proof. induction 1 as [|c s1 Hc _ IH]; cbn; [done|]. by rewrite Hc. Qed.

Lemma words_run sep w s1 s2 : Forall (λ c, sep c = false) s1 →
  words sep w (s1 ++ s2) = words sep (w ++ s1) s2.
Proof.
  intros H. revert w. induction H as [|c s1 Hc _ IH]; intros w; cbn; [by rewrite app_nil_r|].
  by rewrite Hc, IH, <-app_assoc.
Qed.

(** The separators before the next word, and the next word. *)
Lemma skip_seps sep s : ∃ s1 s2, s = s1 ++ s2 ∧
  run_length (λ c, Bool.eqb (sep c) true) s = length s1 ∧
  words sep [] s = words sep [] s2 ∧
  match s2 with [] => True | c :: _ => sep c = false end.
Proof.
  destruct (run_length_split (λ c, Bool.eqb (sep c) true) s) as (Hn & Htrue & Hhd).
  set (n := run_length _ s) in *. exists (take n s), (drop n s).
  rewrite take_drop, length_take, Nat.min_l by done. split_and!; try done.
  - rewrite <-(take_drop n s) at 1. apply words_skip.
    eapply Forall_impl; [exact Htrue|]. intros c. cbn. by destruct (sep c).
  - destruct (drop n s) as [|c ?]; [done|]. by destruct (sep c).
Qed.

Lemma next_word sep c s : sep c = false → ∃ w r, c :: s = w ++ r ∧ w ≠ [] ∧
  run_length (λ c, Bool.eqb (sep c) false) (c :: s) = length w ∧
  words sep [] (c :: s) = match r with [] => [w] | _ :: r' => w :: words sep [] r' end.
Proof.
  intros Hc.
  destruct (run_length_split (λ c, Bool.eqb (sep c) false) (c :: s)) as (Hn & Hf & Hhd).
  set (n := run_length _ _) in *. exists (take n (c :: s)), (drop n (c :: s)).
  assert (take n (c :: s) ≠ []) as Hne.
  { destruct n; [|done]. cbn in Hhd. by rewrite Hc in Hhd. }
  rewrite take_drop, length_take, Nat.min_l by done. split_and!; try done.
  rewrite <-(take_drop n (c :: s)) at 1. rewrite words_run.
  - destruct (drop n (c :: s)) as [|d r]; cbn [app words]; rewrite decide_False by done; [done|].
    by replace (sep d) with true by (by destruct (sep d)).
  - eapply Forall_impl; [exact Hf|]. intros x. cbn. by destruct (sep x).
Qed.

(** One call, in terms of the string at the context. *)
Lemma strtok_r_step b p s sb seps string context : cstr sb 0 seps → cstr b p s →
  match string with Some q => Some q | None => context end = Some p →
  (strtok_r b string sb context = Ret (None, b, None) ∧ words (is_sep seps) [] s = []) ∨
  (∃ q w, strtok_r b string sb context = Ret (Some q, b, None) ∧ cstr b q w ∧
     words (is_sep seps) [] s = [w]) ∨
  (∃ q w k s', strtok_r b string sb context
       = Ret (Some q, <[k := 0]> b, Some (Z.of_nat k + 1)) ∧ p ≤ Z.of_nat k ∧
     q + Z.of_nat (length w) = Z.of_nat k ∧
     cstr (<[k := 0]> b) q w ∧ cstr (<[k := 0]> b) (Z.of_nat k + 1) s' ∧
     (length s' < length s)%nat ∧
     words (is_sep seps) [] s = w :: words (is_sep seps) [] s').
Proof.
  intros Hseps H Hctx. unfold strtok_r. rewrite Hctx.
  rewrite (skip_run_correct _ _ _ _ _ _ _ Hseps H) by by eapply cstr_fuel. cbn.
  destruct (skip_seps (is_sep seps) s) as (s1 & s2 & -> & -> & -> & Hhd).
  apply cstr_skip in H. pose proof (cstr_bound _ _ _ H).
  set (h := p + Z.of_nat (length s1)) in *.
  destruct s2 as [|c s2]; [left; by rewrite (cstr_nil _ _ H)|right].
  destruct (next_word _ _ s2 Hhd) as (w & r & Heq & Hw & Hrun & ->).
  pose proof (cstr_cons _ _ _ _ H) as (Hc & -> & _). cbn -[length]. case_cmp; [lia|].
  rewrite (skip_run_correct _ _ _ _ _ _ _ Hseps H) by by eapply cstr_fuel.
  rewrite Hrun, Heq in *. cbn. destruct r as [|d r].
  - left. rewrite app_nil_r in H. rewrite (cstr_end _ _ _ H). cbn. eauto.
  - right. pose proof (cstr_skip _ _ _ _ H) as Hd.
    pose proof (cstr_cons _ _ _ _ Hd) as (? & -> & Hr). cbn. case_cmp; [lia|].
    rewrite !length_app in *. cbn in *. rewrite wr_in_range by lia. cbn.
    exists h, w, (Z.to_nat (h + Z.of_nat (length w))), r. rewrite Z2Nat.id by lia.
    split_and!; try done; try lia.
    + eapply cstr_take; [done|lia].
    + apply cstr_insert_before; [done|lia].
Qed.

Lemma tokens_correct fuel b p s sb seps string context : cstr sb 0 seps → cstr b p s →
  match string with Some q => Some q | None => context end = Some p →
  (length s < fuel)%nat →
  ∃ ps b', tokens (S fuel) b string sb context = Ret (ps, b') ∧
    Forall2 (cstr b') ps (words (is_sep seps) [] s) ∧
    (∀ q w, cstr b q w → q + Z.of_nat (length w) < p → cstr b' q w).
Proof.
  intros Hseps. revert b p s string context.
  induction fuel as [|fuel IH]; intros b p s string context H Hctx Hf; [lia|].
  destruct (strtok_r_step _ _ _ _ _ _ _ Hseps H Hctx)
    as [[Heq ->]|[(q & w & Heq & Hq & ->)|(q & w & k & s' & Heq & Hk & Hqk & Hq & Hs' & Hlt & ->)]];
    cbn; rewrite Heq; cbn.
  - exists [], b. by split_and!.
  - exists [q], b. split_and!; [done| |done]. constructor; [done|constructor].
  - destruct (IH (<[k := 0]> b) (Z.of_nat k + 1) s' None (Some (Z.of_nat k + 1)) Hs')
      as (ps & b' & Ht & Hps & Hkeep); [done|lia|].
    cbn in Ht. rewrite Ht. cbn. exists (q :: ps), b'. split_and!; [done| |].
    + constructor; [|done]. apply Hkeep; [done|lia].
    + intros q' w' Hc Hlt'. apply Hkeep; [|lia]. apply cstr_insert_after; [done|lia].
Qed.

(** ** Copying and filling blocks *)

Lemma load_correct w b p : (p + w ≤ length b)%nat →
  load w b (Z.of_nat p) = Ret (take w (drop p b)).
Proof.
  revert p. induction w as [|w IH]; intros p Hp; [done|]. cbn.
  destruct (lookup_lt_is_Some_2 b p ltac:(lia)) as [x Hx].
  rewrite (rd_lookup _ _ x) by (rewrite ?Nat2Z.id; done || lia). cbn.
  replace (Z.of_nat p + 1) with (Z.of_nat (S p)) by lia.
  rewrite IH by lia. cbn. by rewrite (drop_S _ _ _ Hx).
Qed.

(** [b] with the bytes [xs] at [p]. *)
Definition splice (b : list Z) (p : nat) (xs : list Z) : list Z :=
  take p b ++ xs ++ drop (p + length xs) b.

Lemma splice_length b p xs : (p + length xs ≤ length b)%nat →
  length (splice b p xs) = length b.
Proof. intros. unfold splice. rewrite !length_app, length_take, length_drop. lia. Qed.

Lemma splice_lookup b p xs j : (p + length xs ≤ length b)%nat →
  splice b p xs !! j = if decide (p ≤ j < p + length xs)%nat then xs !! (j - p)%nat else b !! j.
Proof.
  intros Hl. unfold splice. case_decide.
  - rewrite lookup_app_r, lookup_app_l by (rewrite ?length_take; lia).
    rewrite length_take. f_equal. lia.
  - destruct (decide (j < p)%nat).
    + rewrite lookup_app_l, lookup_take_lt by (rewrite ?length_take; lia). done.
    + rewrite !lookup_app_r, lookup_drop by (rewrite ?length_take; lia).
      rewrite length_take. f_equal. lia.
Qed.

Lemma store_correct b p xs : (p + length xs ≤ length b)%nat →
  store b (Z.of_nat p) xs = Ret (splice b p xs).
Proof.
  revert b p. induction xs as [|x xs IH]; intros b p Hp; cbn in *.
  - unfold splice. cbn. by rewrite Nat.add_0_r, take_drop.
  - rewrite wr_in_range by lia. cbn. replace (Z.of_nat p + 1) with (Z.of_nat (S p)) by lia.
    rewrite IH by (rewrite length_insert; lia). rewrite Nat2Z.id. f_equal. unfold splice.
    rewrite (take_S_r _ _ x) by (apply list_lookup_insert_eq; lia).
    rewrite take_insert_ge, drop_insert_lt, <-app_assoc by lia. cbn. do 4 f_equal. lia.
Qed.

Lemma copy_elem_correct w b d s i : (d + w * i + w ≤ length b)%nat →
  (s + w * i + w ≤ length b)%nat →
  ∃ b', copy_elem w b (Z.of_nat d) (Z.of_nat s) (Z.of_nat i) = Ret b' ∧
    copied b b' (d + w * i) (s + w * i) w.
Proof.
  intros Hd Hs. unfold copy_elem.
  replace (Z.of_nat s + Z.of_nat w * Z.of_nat i) with (Z.of_nat (s + w * i)) by lia.
  replace (Z.of_nat d + Z.of_nat w * Z.of_nat i) with (Z.of_nat (d + w * i)) by lia.
  rewrite load_correct by done. cbn.
  assert (length (take w (drop (s + w * i) b)) = w) as Hw
    by (rewrite length_take, length_drop; lia).
  rewrite store_correct by (rewrite Hw; done). eexists; split; [done|].
  split; [by apply splice_length; rewrite Hw|]. intros j.
  rewrite splice_lookup, Hw by (rewrite Hw; done). case_decide; [|done].
  rewrite lookup_take_lt, lookup_drop by lia. done.
Qed.

Lemma copied_refl b d s : copied b b d s 0.
Proof. split; [done|]. intros j. rewrite decide_False by lia. done. Qed.

Lemma copied_extend_up b b' b'' d s n w : (d ≤ s)%nat →
  copied b b' d s n → copied b' b'' (d + n) (s + n) w → copied b b'' d s (n + w).
Proof.
  intros Hds [Hl1 H1] [Hl2 H2]. split; [congruence|]. intros j. rewrite H2.
  repeat case_decide; try lia; rewrite H1; repeat case_decide; try lia; f_equal; lia.
Qed.

Lemma copied_extend_down b b' b'' d s n w : (s ≤ d)%nat →
  copied b b' (d + w) (s + w) n → copied b' b'' d s w → copied b b'' d s (w + n).
Proof.
  intros Hds [Hl1 H1] [Hl2 H2]. split; [congruence|]. intros j. rewrite H2.
  repeat case_decide; try lia; rewrite H1; repeat case_decide; try lia; f_equal; lia.
Qed.

Lemma copy_up_correct n w b0 b d s i : (d ≤ s)%nat → copied b0 b d s (w * i) →
  (s + w * (i + n) ≤ length b0)%nat → Z.of_nat (i + n) < 2 ^ 32 →
  ∃ b', copy_up n w b (Z.of_nat d) (Z.of_nat s) (Z.of_nat i) = Ret b' ∧
    copied b0 b' d s (w * (i + n)).
Proof.
  intros Hds. revert b i. induction n as [|n IH]; intros b i Hc Hs Hi; cbn.
  - rewrite Nat.add_0_r. eauto.
  - destruct (copy_elem_correct w b d s i) as (b' & -> & Hb'); [destruct Hc as [-> _]; lia..|].
    cbn. rewrite u32_id by lia. replace (Z.of_nat i + 1) with (Z.of_nat (S i)) by lia.
    replace (i + S n)%nat with (S i + n)%nat in * by lia. apply IH; try lia.
    replace (w * S i)%nat with (w * i + w)%nat by lia. by eapply copied_extend_up.
Qed.

Lemma copy_down_correct n w b0 b d s m : (s ≤ d)%nat →
  copied b0 b (d + w * n) (s + w * n) m → (d + w * n ≤ length b0)%nat →
  ∃ b', copy_down n w b (Z.of_nat d) (Z.of_nat s) = Ret b' ∧ copied b0 b' d s (w * n + m).
Proof.
  intros Hds. revert b m. induction n as [|n IH]; intros b m Hc Hd; cbn [copy_down].
  - rewrite Nat.mul_0_r, !Nat.add_0_r in Hc. rewrite Nat.mul_0_r. eauto.
  - replace (Z.of_nat (S n) - 1) with (Z.of_nat n) by lia.
    destruct (copy_elem_correct w b d s n) as (b' & -> & Hb'); [destruct Hc as [-> _]; lia..|].
    cbn [mbind res_bind]. replace (w * S n + m)%nat with (w * n + (w + m))%nat by lia.
    apply IH; [|lia]. eapply copied_extend_down; [lia| |done].
    by replace (d + w * n + w)%nat with (d + w * S n)%nat by lia;
      replace (s + w * n + w)%nat with (s + w * S n)%nat by lia.
Qed.

Lemma copy_up_all n w b d s : (d ≤ s)%nat → (s + w * n ≤ length b)%nat →
  Z.of_nat n < 2 ^ 32 →
  ∃ b', copy_up n w b (Z.of_nat d) (Z.of_nat s) 0 = Ret b' ∧ copied b b' d s (w * n).
Proof.
  intros. apply (copy_up_correct n w b b d s 0); try done.
  rewrite Nat.mul_0_r. apply copied_refl.
Qed.

Lemma copy_down_all n w b d s : (s ≤ d)%nat → (d + w * n ≤ length b)%nat →
  ∃ b', copy_down n w b (Z.of_nat d) (Z.of_nat s) = Ret b' ∧ copied b b' d s (w * n).
Proof.
  intros. rewrite <-(Nat.add_0_r (w * n)). apply copy_down_correct; try done.
  apply copied_refl.
Qed.

Lemma copy_aligned_len base dst src l : copy_aligned base dst src (Z.of_nat l) = true →
  (4 * Z.to_nat (Z.of_nat l / sizeof_long) = l)%nat.
Proof.
  unfold copy_aligned, sizeof_long. rewrite !andb_true_iff, !Z.eqb_eq. intros [_ ?].
  zdiv_lia.
Qed.

Lemma memmove_correct base b (d s l : nat) :
  (d + l ≤ length b)%nat → (s + l ≤ length b)%nat → Z.of_nat (length b) < 2 ^ 32 →
  ∃ b', memmove base b (Z.of_nat d) (Z.of_nat s) (Z.of_nat l) = Ret b' ∧ copied b b' d s l.
Proof.
  intros Hd Hs Hb. unfold memmove, memcpy.
  case_cmp; (destruct (copy_aligned _ _ _ _) eqn:Ha;
    [apply copy_aligned_len in Ha; set (n := Z.to_nat (_ / _)) in *
    |rewrite Nat2Z.id; set (n := l) in *]).
  - destruct (copy_up_all n 4 b d s) as (b' & -> & Hc); [lia..|]. rewrite Ha in Hc. eauto.
  - destruct (copy_up_all n 1 b d s) as (b' & -> & Hc); [lia..|]. rewrite Nat.mul_1_l in Hc. eauto.
  - destruct (copy_down_all n 4 b d s) as (b' & -> & Hc); [lia..|]. rewrite Ha in Hc. eauto.
  - destruct (copy_down_all n 1 b d s) as (b' & -> & Hc); [lia..|]. rewrite Nat.mul_1_l in Hc. eauto.
Qed.

(** Filling: [memset] byte by byte, [bzero] word by word when it can. *)
Lemma set_loop_correct n b p i ch : (p + i + n ≤ length b)%nat → Z.of_nat (length b) < 2 ^ 32 →
  set_loop n b (Z.of_nat p) (Z.of_nat i) ch = Ret (splice b (p + i) (replicate n ch)).
Proof.
  revert b i. induction n as [|n IH]; intros b i Hl Hb; cbn.
  - unfold splice. cbn. by rewrite Nat.add_0_r, take_drop.
  - rewrite wr_in_range by lia. cbn. rewrite u32_id by lia.
    replace (Z.of_nat i + 1) with (Z.of_nat (S i)) by lia.
    rewrite IH by (rewrite length_insert; lia).
    replace (Z.to_nat (Z.of_nat p + Z.of_nat i)) with (p + i)%nat by lia.
    f_equal. unfold splice. replace (p + S i)%nat with (S (p + i)) by lia.
    rewrite (take_S_r _ _ ch) by (apply list_lookup_insert_eq; lia).
    rewrite take_insert_ge, drop_insert_lt, <-app_assoc by (rewrite ?length_replicate; lia).
    cbn. do 4 f_equal. rewrite length_replicate. lia.
Qed.

Lemma bzero_words_correct n b p i : (p + 4 * (i + n) ≤ length b)%nat →
  Z.of_nat (length b) < 2 ^ 32 →
  bzero_words n b (Z.of_nat p) (Z.of_nat i) = Ret (splice b (p + 4 * i) (replicate (4 * n) 0)).
Proof.
  revert b i. induction n as [|n IH]; intros b i Hl Hb.
  - rewrite Nat.mul_0_r. unfold splice. cbn [replicate app length bzero_words].
    by rewrite Nat.add_0_r, take_drop.
  - cbn [bzero_words]. unfold sizeof_long.
    replace (Z.of_nat p + 4 * Z.of_nat i) with (Z.of_nat (p + 4 * i)) by lia.
    rewrite store_correct by (cbn; lia). cbn [mbind res_bind]. rewrite u32_id by lia.
    replace (Z.of_nat i + 1) with (Z.of_nat (S i)) by lia.
    rewrite IH by (rewrite splice_length; cbn [length]; lia). f_equal.
    apply list_eq. intros j.
    rewrite !splice_lookup; rewrite ?splice_length, ?length_replicate; cbn [length]; try lia.
    repeat case_decide; try lia; try done.
    + rewrite !lookup_replicate_2 by lia. done.
    + rewrite lookup_replicate_2 by lia.
      assert (j - (p + 4 * i) < 4)%nat as Hj by lia.
      destruct (j - (p + 4 * i))%nat as [|[|[|[|]]]]; try done. lia.
Qed.

Lemma bzero_correct base b p l : (p + l ≤ length b)%nat → Z.of_nat (length b) < 2 ^ 32 →
  bzero base b (Z.of_nat p) (Z.of_nat l) = Ret (splice b p (replicate l 0)).
Proof.
  intros Hl Hb. unfold bzero. case_cmp.
  - assert (4 * Z.to_nat (Z.of_nat l / sizeof_long) = l)%nat as Hal.
    { unfold bzero_aligned, sizeof_long in *. rewrite !andb_true_iff, !Z.eqb_eq in *. zdiv_lia. }
    set (n := Z.to_nat (_ / _)) in *.
    opose proof (bzero_words_correct n b p 0 _ _) as E; [lia..|].
    change (Z.of_nat 0) with 0 in E. rewrite E, Hal, Nat.mul_0_r, Nat.add_0_r. done.
  - rewrite Nat2Z.id. opose proof (set_loop_correct l b p 0 0 _ _) as E; [lia..|].
    change (Z.of_nat 0) with 0 in E. by rewrite E, Nat.add_0_r.
Qed.

(** ** atoi *)

Lemma digits_cstr : cstr digits 0 (bytes_of "0123456789").
Proof.
  split_and!; [lia|vm_compute; done| |by exists []].
  apply Forall_forall. intros x. vm_compute bytes_of. rewrite !elem_of_cons, elem_of_nil. lia.
Qed.

Lemma strchr_digits c : 0 < c < 256 →
  strchr digits 0 c = Ret (if (48 <=? c) && (c <=? 57) then Some (c - 48) else None).
Proof.
  intros Hc. rewrite (strchr_correct _ _ _ _ digits_cstr), u8_id by lia. f_equal.
  vm_compute bytes_of. cbn [index_of].
  repeat (case_cmp; [subst; done|]). case_cmp; [lia|]. cbn.
  case_cmp; [|done]. apply andb_true_iff in Heqb as [?%Z.leb_le ?%Z.leb_le]. lia.
Qed.

Lemma is_digit_iff c : is_digit c ↔ 48 ≤ c ≤ 57.
Proof. done. Qed.

Lemma is_digit_test c : (48 <=? c) && (c <=? 57) = true ↔ is_digit c.
Proof. by rewrite is_digit_iff, andb_true_iff, !Z.leb_le. Qed.

(** What may follow the digits. *)
Definition no_digit (s : list Z) : Prop :=
  match s with [] => True | c :: _ => ¬ is_digit c end.

Lemma atoi_loop_correct fuel b p ds rest v : cstr b p (ds ++ rest) →
  Forall is_digit ds → no_digit rest → (length (ds ++ rest) < fuel)%nat →
  atoi_loop fuel b p (u32 v) = Ret (u32 (decimal v ds)).
Proof.
  revert p ds v. induction fuel as [|fuel IH]; intros p ds v H Hds Hrest Hf; [lia|].
  destruct ds as [|d ds]; cbn in *.
  - destruct rest as [|c rest]; [by rewrite (cstr_nil _ _ H)|].
    apply cstr_cons in H as (Hc & -> & _). cbn. case_cmp; [lia|].
    rewrite strchr_digits by done. cbn. case_cmp; [|done].
    by destruct Hrest; apply is_digit_test.
  - apply Forall_cons in Hds as [Hd Hds].
    apply cstr_cons in H as (Hc & -> & H). cbn. case_cmp; [lia|].
    rewrite strchr_digits by done. cbn. rewrite (proj2 (is_digit_test d)) by done.
    rewrite <-(IH (p + 1) ds) by (done || lia). f_equal. unfold u32.
    rewrite (Z.mul_mod_idemp_l v 10), Z.add_mod_idemp_l by lia. done.
Qed.

Definition blank (c : Z) : Prop := c = chr " " ∨ c = chr "009".

Lemma skip_blanks_correct fuel b p s1 s2 : cstr b p (s1 ++ s2) → Forall blank s1 →
  match s2 with [] => True | c :: _ => ¬ blank c end → (length s1 < fuel)%nat →
  skip_blanks fuel b p = Ret (p + Z.of_nat (length s1)).
Proof.
  revert p s1. induction fuel as [|fuel IH]; intros p s1 H Hs1 Hs2 Hf; [lia|].
  destruct s1 as [|c s1]; cbn in *.
  - rewrite Z.add_0_r. destruct s2 as [|c s2]; [by rewrite (cstr_nil _ _ H)|].
    apply cstr_cons in H as (Hc & -> & _). cbn. case_cmp; [|done].
    apply orb_true_iff in Heqb0 as [?%Z.eqb_eq|?%Z.eqb_eq]; destruct Hs2; [by left|by right].
  - apply Forall_cons in Hs1 as [Hb Hs1]. apply cstr_cons in H as (Hc & -> & H). cbn.
    assert ((c =? chr " ") || (c =? chr "009") = true) as ->.
    { apply orb_true_iff. rewrite !Z.eqb_eq. done. }
    rewrite (IH _ s1) by (done || lia). f_equal. lia.
Qed.

(** The sign characters in front of the digits. *)
Inductive sign_of : list Z → bool → Prop :=
| sign_minus : sign_of [chr "-"] true
| sign_plus : sign_of [chr "+"] false
| sign_none : sign_of [] false.

Lemma atoi_correct b p bl sg neg ds rest : cstr b p (bl ++ sg ++ ds ++ rest) →
  Forall blank bl → sign_of sg neg → Forall is_digit ds → no_digit rest → ds ≠ [] →
  atoi b p = Ret (i32 (if neg then - decimal 0 ds else decimal 0 ds)).
Proof.
  intros H Hbl Hsg Hds Hrest Hne. unfold atoi.
  pose proof (cstr_fuel _ _ _ H) as Hfuel. rewrite !length_app in Hfuel.
  destruct ds as [|d ds]; [done|]. clear Hne.
  assert (¬ blank d ∧ d ≠ chr "-" ∧ d ≠ chr "+") as (Hd1 & Hd2 & Hd3).
  { apply Forall_cons in Hds as [Hd _]. rewrite is_digit_iff in Hd. unfold blank.
    change (chr " ") with 32. change (chr "009") with 9.
    change (chr "-") with 45. change (chr "+") with 43. lia. }
  rewrite (skip_blanks_correct _ b p bl (sg ++ (d :: ds) ++ rest)); try done; [|destruct Hsg; [by intros [?|?]..|done]|lia].
  cbn [mbind res_bind]. apply cstr_skip in H. set (q := p + _) in *.
  assert (∀ q', cstr b q' ((d :: ds) ++ rest) →
    atoi_loop (str_fuel b) b q' 0 = Ret (u32 (decimal 0 (d :: ds)))) as Hloop.
  { intros q' Hq'. eapply (atoi_loop_correct _ b q' (d :: ds) rest 0); try done.
    rewrite length_app. lia. }
  destruct Hsg; cbn [app] in H.
  - apply cstr_cons in H as (_ & -> & H). cbn -[decimal atoi_loop].
    rewrite Hloop by done. cbn -[decimal]. by rewrite i32_opp_u32.
  - apply cstr_cons in H as (_ & -> & H). cbn -[decimal atoi_loop].
    rewrite Hloop by done. change (chr "+" =? chr "-") with false. cbn -[decimal]. by rewrite i32_u32.
  - pose proof (cstr_cons _ _ _ _ H) as (_ & -> & _). cbn -[decimal atoi_loop chr].
    case_cmp; [done|]. case_cmp; [done|].
    rewrite Hloop by done. cbn -[decimal]. by rewrite i32_u32.
Qed.

(** ** Properties *)

(** Calling [strtok_r] until it answers [NULL] returns pointers to exactly
    the maximal separator-free runs of the string, in order, each terminated in
    place. *)
Theorem strtok_r_words b p s sb seps : cstr sb 0 seps → cstr b p s →
  ∃ ps b', tokens (S (S (length s))) b (Some p) sb None = Ret (ps, b') ∧
    Forall2 (cstr b') ps (words (is_sep seps) [] s).
Proof.
  intros Hseps Hs. destruct (tokens_correct (S (length s)) b p s sb seps (Some p) None)
    as (ps & b' & Heq & Hps & _); [done..|lia|]. eauto.
Qed.

Lemma strtok_r_words_witness :
  ∃ ps b', tokens 10 (lit " ab, cd ") (Some 0) (lit " ,") None = Ret (ps, b') ∧
    Forall2 (cstr b') ps [bytes_of "ab"; bytes_of "cd"].
Proof.
  apply (strtok_r_words (lit " ab, cd ") 0 (bytes_of " ab, cd ") (lit " ,") (bytes_of " ,")).
  - split_and!; [done|done|by repeat constructor|by exists []].
  - split_and!; [done|done|by repeat constructor|by exists []].
Defined.

(** [memmove] copies the [l] bytes at [s] to [d] and changes nothing else,
    for any overlap of the two regions, at any alignment and with the copy by
    words as well as by bytes. *)
Theorem memmove_copies base b (d s l : nat) :
  (d + l ≤ length b)%nat → (s + l ≤ length b)%nat → Z.of_nat (length b) < 2 ^ 32 →
  ∃ b', memmove base b (Z.of_nat d) (Z.of_nat s) (Z.of_nat l) = Ret b' ∧ copied b b' d s l.
Proof. apply memmove_correct. Qed.

Lemma memmove_copies_witness :
  ∃ b', memmove 4096 [1; 2; 3; 4; 5; 6; 7; 8; 9; 10; 11; 12] 4 0 8 = Ret b' ∧
    copied [1; 2; 3; 4; 5; 6; 7; 8; 9; 10; 11; 12] b' 4 0 8.
Proof.
  apply (memmove_copies 4096 [1; 2; 3; 4; 5; 6; 7; 8; 9; 10; 11; 12] 4 0 8); cbn; lia.
Defined.

(** [bzero], which writes words when the block is aligned, does what
    [memset] to zero does byte by byte. *)
Theorem bzero_is_memset base b (p l : nat) : (p + l ≤ length b)%nat →
  Z.of_nat (length b) < 2 ^ 32 →
  bzero base b (Z.of_nat p) (Z.of_nat l) = memset b (Z.of_nat p) 0 (Z.of_nat l).
Proof.
  intros. rewrite bzero_correct by done. unfold memset. rewrite Nat2Z.id.
  change (u8 0) with 0. pose proof (set_loop_correct l b p 0 0) as E.
  change (Z.of_nat 0) with 0 in E. by rewrite E, Nat.add_0_r by lia.
Qed.

Lemma bzero_is_memset_witness :
  bzero 4096 [1; 2; 3; 4; 5; 6; 7; 8; 9] 4 4 = memset [1; 2; 3; 4; 5; 6; 7; 8; 9] 4 0 4.
Proof. apply (bzero_is_memset 4096 [1; 2; 3; 4; 5; 6; 7; 8; 9] 4 4); cbn; lia. Defined.

(** [strcmp] orders strings by their bytes as unsigned numbers: it answers
    zero exactly for equal strings, and swapping the arguments negates it. *)
Theorem strcmp_orders a b s t : cstr a 0 s → cstr b 0 t →
  ∃ r, strcmp a b = Ret r ∧ r = lex s t ∧ (r = 0 ↔ s = t) ∧ strcmp b a = Ret (- r).
Proof.
  intros Ha Hb. exists (lex s t). split_and!; [by apply strcmp_correct|done|apply lex_eq|].
  rewrite (strcmp_correct b a t s) by done. by rewrite lex_antisym.
Qed.

Lemma strcmp_orders_witness :
  ∃ r, strcmp (lit "abc") (lit "abd") = Ret r ∧ r = lex (bytes_of "abc") (bytes_of "abd") ∧
    (r = 0 ↔ bytes_of "abc" = bytes_of "abd") ∧ strcmp (lit "abd") (lit "abc") = Ret (- r).
Proof.
  apply (strcmp_orders (lit "abc") (lit "abd") (bytes_of "abc") (bytes_of "abd"));
    split_and!; try done; try (by repeat constructor); by exists [].
Defined.
