(* ===== verification/Printf.v ===== *)
(** * Formatted output (common/libc/printf)

    [__vprintf] sends pieces of text to a callback; the model is generic in the
    callback and its client data [D].  Arguments are the words the caller
    pushed; fetching one at another type than it was pushed with is [Undef]. *)

From Stdlib Require Import Ascii String.
From S2P Require Import Prelude CString.

(** ** Data *)

(** A 32-bit word (int, long, size_t, pointer), a 64-bit word (long long), or a
    string pointer. *)
Inductive arg :=
| A32 (w : Z)
| A64 (w : Z)
| AStr (s : option (list Z)).

Inductive intsize := INTSZ | LONGSZ | LLONGSZ | SIZETSZ.

#[global] Instance intsize_eq_dec : EqDecision intsize.
Proof. solve_decision. Defined.

Record PF (D : Type) := MkPF {
  clientdata : D;
  ap : list arg;
  charcount : Z;
  in_pct : bool;
  size : intsize;
  num : Z;
  sign : Z;
  spacing : Z;
  rightspc : bool;
  fillchar : Z;
  base : Z;
  baseprefix : bool;
  altformat : bool
}.
Arguments MkPF {D}.
Arguments clientdata {D}.
Arguments ap {D}.
Arguments charcount {D}.
Arguments in_pct {D}.
Arguments size {D}.
Arguments num {D}.
Arguments sign {D}.
Arguments spacing {D}.
Arguments rightspc {D}.
Arguments fillchar {D}.
Arguments base {D}.
Arguments baseprefix {D}.
Arguments altformat {D}.

(** Conversions of the words [va_arg] fetches. *)
Definition i64 (z : Z) : Z := (z + 2 ^ 63) mod 2 ^ 64 - 2 ^ 63.

Definition NUMBER_BUF_SIZE : Z := (8 * 8) / 3 + 2.

(** ** The formatter *)

Section Printf.
Context {D : Type}.

(** [sendfunc], on the bytes it is handed. *)
Variable sendfunc : D → list Z → res D.

Implicit Types pf : PF D.

Definition __pf_print pf (txt : list Z) (p len : Z) : res (PF D) :=
  str ← load (Z.to_nat len) txt p;
  d ← sendfunc pf.(clientdata) str;
  Ret (MkPF d pf.(ap) (i32 (pf.(charcount) + len)) pf.(in_pct) pf.(size) pf.(num)
         pf.(sign) pf.(spacing) pf.(rightspc) pf.(fillchar) pf.(base)
         pf.(baseprefix) pf.(altformat)).

Definition __pf_endfield pf : PF D :=
  MkPF pf.(clientdata) pf.(ap) pf.(charcount)
    false INTSZ 0 0 0 false (chr " ") 0 false false.

Definition __pf_modifier pf (ch : Z) : res (PF D) :=
  let '(MkPF d a cc pct sz n sg sp rs fc b bp af) := pf in
  if ch =? chr "#" then Ret (MkPF d a cc pct sz n sg sp rs fc b bp true)
  else if ch =? chr "-" then Ret (MkPF d a cc pct sz n sg sp true fc b bp af)
  else if ch =? chr "l" then
    Ret (MkPF d a cc pct (if decide (sz = LONGSZ) then LLONGSZ else LONGSZ)
           n sg sp rs fc b bp af)
  else if ch =? chr "z" then Ret (MkPF d a cc pct SIZETSZ n sg sp rs fc b bp af)
  else if ch =? chr "0" then
    if sp >? 0 then Ret (MkPF d a cc pct sz n sg (i32 (sp * 10)) rs fc b bp af)
    else Ret (MkPF d a cc pct sz n sg sp rs (chr "0") b bp af)
  else
    _ ← kassert ((ch >? chr "0") && (ch <=? chr "9"));
    Ret (MkPF d a cc pct sz n sg (i32 (i32 (sp * 10) + (ch - chr "0"))) rs fc b bp af).

(** [va_arg] for a word of the given size. *)
Definition va_word (sz : intsize) (a : list arg) : res (Z * list arg) :=
  match a, sz with
  | A64 w :: a', LLONGSZ => Ret (w, a')
  | A32 w :: a', (INTSZ | LONGSZ | SIZETSZ) => Ret (w, a')
  | _, _ => Undef
  end.

(** Negating the most negative [long long] wraps around. *)
Definition __pf_getnum pf (ch : Z) : res (PF D) :=
  let '(MkPF d a cc pct sz _ sg sp rs fc b bp af) := pf in
  if ch =? chr "p" then
    '(w, a) ← va_word INTSZ a;
    Ret (MkPF d a cc pct sz (u32 w) sg sp rs fc b bp af)
  else if ch =? chr "d" then
    '(w, a) ← va_word sz a;
    let signednum := if decide (sz = LLONGSZ) then i64 w else i32 w in
    if signednum <? 0
    then Ret (MkPF d a cc pct sz (u64 (- signednum)) (-1) sp rs fc b bp af)
    else Ret (MkPF d a cc pct sz (u64 signednum) sg sp rs fc b bp af)
  else
    '(w, a) ← va_word sz a;
    Ret (MkPF d a cc pct sz (if decide (sz = LLONGSZ) then u64 w else u32 w)
           sg sp rs fc b bp af).

Definition __pf_setbase pf (ch : Z) : PF D :=
  let '(MkPF d a cc pct sz n sg sp rs fc b bp af) := pf in
  let b := if (ch =? chr "d") || (ch =? chr "u") then 10
           else if (ch =? chr "x") || (ch =? chr "p") then 16
           else if ch =? chr "o" then 8 else b in
  MkPF d a cc pct sz n sg sp rs fc b (if af || (ch =? chr "p") then true else bp) af.

Fixpoint fill_loop (n : nat) pf (f : Z) : res (PF D) :=
  match n with
  | O => Ret pf
  | S n' => pf ← __pf_print pf [f] 0 1; fill_loop n' pf f
  end.

Definition __pf_fill pf (spc : Z) : res (PF D) :=
  fill_loop (Z.to_nat spc) pf (u8 pf.(fillchar)).

(** Each text is an object and an offset in it. *)
Definition __pf_printstuff pf (prefix prefix2 stuff : list Z * Z) : res (PF D) :=
  l1 ← strlen prefix.1 prefix.2;
  l2 ← strlen prefix2.1 prefix2.2;
  l3 ← strlen stuff.1 stuff.2;
  let len := i32 (l1 + l2 + l3) in
  let spc := pf.(spacing) in
  let spc := if spc >? len then i32 (spc - len) else 0 in
  let left := (spc >? 0) && negb pf.(rightspc) in
  let zero := pf.(fillchar) =? chr "0" in
  pf ← (if left && negb zero then __pf_fill pf spc else Ret pf);
  pf ← __pf_print pf prefix.1 prefix.2 l1;
  pf ← __pf_print pf prefix2.1 prefix2.2 l2;
  pf ← (if left && zero then __pf_fill pf spc else Ret pf);
  pf ← __pf_print pf stuff.1 stuff.2 l3;
  if (spc >? 0) && pf.(rightspc) then __pf_fill pf spc else Ret pf.

Definition number_digits : list Z := lit "0123456789abcdef".

(** Works from right to left; the result is the buffer and the slot before the
    number. *)
Fixpoint printnum_loop (fuel : nat) (buf : list Z) (x xnum base : Z) : res (list Z * Z) :=
  match fuel with
  | O => Diverge
  | S fuel' =>
      if base =? 0 then Undef else
      c ← number_digits.[xnum mod base];
      buf ← buf.[x <- c];
      let x := x - 1 in
      let xnum := xnum / base in
      if xnum >? 0 then printnum_loop fuel' buf x xnum base else Ret (buf, x)
  end.

Definition printnum_fuel : nat := 64.

Definition __pf_printnum pf : res (PF D) :=
  let buf := replicate (Z.to_nat NUMBER_BUF_SIZE) 0 in
  let x := NUMBER_BUF_SIZE - 1 in
  buf ← buf.[x <- 0];
  '(buf, x) ← printnum_loop printnum_fuel buf (x - 1) pf.(num) pf.(base);
  let x := x + 1 in
  let bprefix := if pf.(baseprefix) && (pf.(base) =? 16) then lit "0x"
                 else if pf.(baseprefix) && (pf.(base) =? 8) then lit "0"
                 else lit "" in
  let sprefix := if pf.(sign) =? 0 then lit "" else lit "-" in
  __pf_printstuff pf (sprefix, 0) (bprefix, 0) (buf, x).

Definition __pf_send pf (ch : Z) : res (PF D) :=
  _ ← kassert (negb (ch =? 0));
  if negb pf.(in_pct) && negb (ch =? chr "%") then __pf_print pf [u8 ch] 0 1
  else if negb pf.(in_pct) then
    let '(MkPF d a cc _ sz n sg sp rs fc b bp af) := pf in
    Ret (MkPF d a cc true sz n sg sp rs fc b bp af)
  else
  m ← strchr (lit "#-lz0123456789") 0 ch;
  if bool_decide (is_Some m) then __pf_modifier pf ch else
  t ← strchr (lit "doupx") 0 ch;
  if bool_decide (is_Some t) then
    pf ← __pf_getnum pf ch;
    let pf := __pf_setbase pf ch in
    pf ← __pf_printnum pf;
    Ret (__pf_endfield pf)
  else if ch =? chr "s" then
    match pf.(ap) with
    | AStr s :: a =>
        let str := match s with Some b => b | None => lit "(null)" end in
        let '(MkPF d _ cc pct sz n sg sp rs fc b bp af) := pf in
        pf ← __pf_printstuff (MkPF d a cc pct sz n sg sp rs fc b bp af)
               (lit "", 0) (lit "", 0) (str, 0);
        Ret (__pf_endfield pf)
    | _ => Undef
    end
  else
    '(x0, a) ← (if ch =? chr "c" then va_word INTSZ pf.(ap) else Ret (ch, pf.(ap)));
    let '(MkPF d _ cc pct sz n sg sp rs fc b bp af) := pf in
    pf ← __pf_printstuff (MkPF d a cc pct sz n sg sp rs fc b bp af)
           (lit "", 0) (lit "", 0) ([u8 x0; 0], 0);
    Ret (__pf_endfield pf).

(** The format is a string object. *)
Fixpoint vprintf_loop (fuel : nat) pf (format : list Z) (i : Z) : res (PF D) :=
  match fuel with
  | O => Diverge
  | S fuel' =>
      ch ← format.[i];
      if ch =? 0 then Ret pf else
      pf ← __pf_send pf (schar ch);
      vprintf_loop fuel' pf format (i32 (i + 1))
  end.

Definition __vprintf (d : D) (format : list Z) (a : list arg) : res (Z * D) :=
  let pf := __pf_endfield (MkPF d a 0 false INTSZ 0 0 0 false 0 0 false false) in
  pf ← vprintf_loop (str_fuel format) pf format 0;
  Ret (pf.(charcount), pf.(clientdata)).

End Printf.

(** ** snprintf *)

Record SNP := MkSNP { buf : list Z; buflen : Z; bufpos : Z }.

Fixpoint __snprintf_send (snp : SNP) (data : list Z) : res SNP :=
  match data with
  | [] => Ret snp
  | c :: data' =>
      if snp.(bufpos) <? snp.(buflen) then
        b ← snp.(buf).[snp.(bufpos) <- c];
        __snprintf_send (MkSNP b snp.(buflen) (u32 (snp.(bufpos) + 1))) data'
      else __snprintf_send snp data'
  end.

Definition vsnprintf (b : list Z) (len : Z) (fmt : list Z) (a : list arg)
    : res (Z * list Z) :=
  let snp := MkSNP b (if len =? 0 then 0 else u32 (len - 1)) 0 in
  '(chars, snp) ← __vprintf __snprintf_send snp fmt a;
  if len >? 0 then
    b ← snp.(buf).[snp.(bufpos) <- 0]; Ret (chars, b)
  else Ret (chars, snp.(buf)).

Definition snprintf (b : list Z) (len : Z) (fmt : list Z) (a : list arg)
    : res (Z * list Z) := vsnprintf b len fmt a.

(** A sink that keeps everything. *)
Definition collect (d : list Z) (s : list Z) : res (list Z) := Ret (d ++ s).

(** ** Specification *)

Definition digit_val (c : Z) : Z := if c <=? chr "9" then c - chr "0" else c - chr "a" + 10.

(** The number a string of digits denotes, continuing from [v]. *)
Fixpoint radix (b v : Z) (ds : list Z) : Z :=
  match ds with [] => v | d :: ds' => radix b (v * b + digit_val d) ds' end.

(** [ds] is the numeral of [n] in base [b], without superfluous zeros. *)
Definition numeral (b n : Z) (ds : list Z) : Prop :=
  ds ≠ [] ∧ radix b 0 ds = n ∧
  Forall (λ c, c ∈ bytes_of "0123456789abcdef" ∧ digit_val c < b) ds ∧
  (hd_error ds = Some (chr "0") → ds = [chr "0"]).

(** A text in a field of [sp] characters. *)
Definition field (sp : Z) (rs : bool) (fc : Z) (prefix prefix2 stuff : list Z) : list Z :=
  let n := (length prefix + length prefix2 + length stuff)%nat in
  let pad := replicate (Z.to_nat sp - n) (u8 fc) in
  if rs then prefix ++ prefix2 ++ stuff ++ pad
  else if fc =? chr "0" then prefix ++ prefix2 ++ pad ++ stuff
  else pad ++ prefix ++ prefix2 ++ stuff.

(** ** Numerals *)

Lemma radix_app b v l1 l2 : radix b v (l1 ++ l2) = radix b (radix b v l1) l2.
Proof. revert v. induction l1 as [|d l1 IH]; intros v; cbn; [done|apply IH]. Qed.

(** The sixteen digit characters. *)
Lemma digit_char k : 0 ≤ k < 16 → ∃ c, number_digits.[k] = Ret c ∧ digit_val c = k ∧
  0 < c < 256 ∧ c ∈ bytes_of "0123456789abcdef" ∧ (c = chr "0" ↔ k = 0).
Proof.
  intros Hk.
  assert (k ∈ seqZ 0 16) as Hin by (apply elem_of_seqZ; lia).
  revert Hin. clear Hk. change (seqZ 0 16) with [0;1;2;3;4;5;6;7;8;9;10;11;12;13;14;15].
  rewrite !elem_of_cons, elem_of_nil. intros Hin.
  repeat destruct Hin as [->|Hin]; [eexists; split_and!;
    [vm_compute; reflexivity|vm_compute; reflexivity|lia|lia|
     apply (bool_decide_unpack _); by vm_compute|vm_compute; by split]..|done].
Qed.

Lemma numeral_digit b c : c ∈ bytes_of "0123456789abcdef" → digit_val c < b →
  numeral b (digit_val c) [c].
Proof.
  intros. split_and!; [done|done| |by intros [= ->]].
  constructor; [done|constructor].
Qed.

Lemma numeral_snoc b q ds c : numeral b q ds → 0 < q →
  c ∈ bytes_of "0123456789abcdef" → digit_val c < b →
  numeral b (q * b + digit_val c) (ds ++ [c]).
Proof.
  intros (Hne & Hv & Hds & Hz) Hq ? ?. split_and!.
  - by destruct ds.
  - by rewrite radix_app, Hv.
  - apply Forall_app. split; [done|]. constructor; [done|constructor].
  - destruct ds as [|d ds]; [done|]. cbn. intros [= ->].
    injection (Hz eq_refl) as ->. cbn [radix] in Hv. change (digit_val _) with 0 in Hv. lia.
Qed.

Lemma printnum_loop_correct k fuel b x xnum bs : 2 ≤ bs ≤ 16 → (1 ≤ k ≤ fuel)%nat →
  0 ≤ xnum < bs ^ Z.of_nat k → Z.of_nat k ≤ x + 1 → x < Z.of_nat (length b) →
  ∃ ds b', printnum_loop fuel b x xnum bs = Ret (b', x - Z.of_nat (length ds)) ∧
    (length ds ≤ k)%nat ∧ numeral bs xnum ds ∧ length b' = length b ∧
    drop (Z.to_nat (x + 1 - Z.of_nat (length ds))) b' = ds ++ drop (Z.to_nat (x + 1)) b.
Proof.
  intros Hbs. revert k b x xnum. induction fuel as [|fuel IH]; intros k b x xnum Hk Hn Hx Hb; [lia|].
  cbn [printnum_loop]. case_cmp; [lia|].
  pose proof (Z.mod_pos_bound xnum bs ltac:(lia)) as Hmod.
  pose proof (Z.div_mod xnum bs ltac:(lia)) as Hdm.
  destruct (digit_char (xnum mod bs)) as (c & -> & Hc & _ & Hin & _); [lia|]. cbn [mbind res_bind].
  rewrite wr_in_range by lia. cbn [mbind res_bind].
  assert (drop (Z.to_nat x) (<[Z.to_nat x := c]> b) = c :: drop (Z.to_nat (x + 1)) b) as Hdrop.
  { rewrite (drop_S _ c) by (apply list_lookup_insert_eq; lia).
    rewrite drop_insert_lt by lia. do 2 f_equal. lia. }
  case_cmp.
  - destruct k as [|[|k]]; [lia| |].
    { rewrite Z.pow_1_r in Hn. rewrite Z.div_small in * by lia. lia. }
    destruct (IH (S k) (<[Z.to_nat x := c]> b) (x - 1) (xnum / bs))
      as (ds & b' & -> & Hlen & Hnum & Hb' & Hd); try lia.
    { split; [lia|]. apply Z.div_lt_upper_bound; [lia|].
      rewrite <-Z.pow_succ_r, <-Nat2Z.inj_succ by lia. apply Hn. }
    { rewrite length_insert. lia. }
    rewrite length_insert in Hb'. exists (ds ++ [c]), b'. rewrite length_app. cbn [length].
    split_and!; [do 2 f_equal; lia|lia| |done|].
    + replace xnum with (xnum / bs * bs + digit_val c) by lia.
      apply numeral_snoc; [done|lia|done|lia].
    + replace (x + 1 - Z.of_nat (length ds + 1)) with (x - 1 + 1 - Z.of_nat (length ds)) by lia.
      rewrite Hd. replace (x - 1 + 1) with x by lia. by rewrite Hdrop, <-app_assoc.
  - assert (xnum / bs = 0) by (pose proof (Z.div_pos xnum bs); lia).
    exists [c], (<[Z.to_nat x := c]> b). cbn [length]. split_and!; [done|lia| |by rewrite length_insert|].
    + replace xnum with (digit_val c) by lia. apply numeral_digit; [done|lia].
    + replace (x + 1 - Z.of_nat 1) with x by lia. by rewrite Hdrop.
Qed.

(** ** What the formatter emits *)

(** The state after the text [s] has been sent. *)
Definition emit (pf : PF (list Z)) (s : list Z) : PF (list Z) :=
  MkPF (pf.(clientdata) ++ s) pf.(ap) (i32 (pf.(charcount) + Z.of_nat (length s)))
    pf.(in_pct) pf.(size) pf.(num) pf.(sign) pf.(spacing) pf.(rightspc) pf.(fillchar)
    pf.(base) pf.(baseprefix) pf.(altformat).

Lemma emit_emit pf s t : emit (emit pf s) t = emit pf (s ++ t).
Proof.
  unfold emit; cbn. rewrite i32_add_l, <-app_assoc, length_app. do 2 f_equal. lia.
Qed.

Lemma print_collect pf txt p s : cstr txt p s →
  __pf_print collect pf txt p (Z.of_nat (length s)) = Ret (emit pf s).
Proof.
  intros (Hp & Hb & _ & rest & Hd). unfold __pf_print.
  pose proof (f_equal length Hd) as Hl. rewrite length_drop, length_app in Hl. cbn in Hl.
  rewrite Nat2Z.id, <-(Z2Nat.id p) by done. rewrite load_correct by lia.
  rewrite Hd, take_app_length. done.
Qed.

Lemma emit_charcount pf s : i32 (emit pf s).(charcount) = (emit pf s).(charcount).
Proof. apply i32_id, i32_range. Qed.

Lemma emit_rightspc pf s : (emit pf s).(rightspc) = pf.(rightspc).
Proof. done. Qed.

Lemma emit_fillchar pf s : (emit pf s).(fillchar) = pf.(fillchar).
Proof. done. Qed.

Lemma fill_collect n pf f : i32 pf.(charcount) = pf.(charcount) →
  fill_loop collect n pf f = Ret (emit pf (replicate n f)).
Proof.
  revert pf. induction n as [|n IH]; intros pf Hcc.
  - cbn. unfold emit; cbn. rewrite Z.add_0_r, app_nil_r, Hcc. by destruct pf.
  - cbn [fill_loop]. change (__pf_print collect pf [f] 0 1) with (Ret (emit pf [f])).
    cbn [mbind res_bind]. by rewrite IH, emit_emit by apply emit_charcount.
Qed.

Lemma emit_nil pf : i32 pf.(charcount) = pf.(charcount) → emit pf [] = pf.
Proof. intros H. unfold emit; cbn. rewrite Z.add_0_r, app_nil_r, H. by destruct pf. Qed.

Lemma printstuff_collect pf b1 p1 s1 b2 p2 s2 b3 p3 s3 :
  cstr b1 p1 s1 → cstr b2 p2 s2 → cstr b3 p3 s3 →
  Z.of_nat (length s1 + length s2 + length s3) < 2 ^ 31 → 0 ≤ pf.(spacing) < 2 ^ 31 →
  i32 pf.(charcount) = pf.(charcount) →
  __pf_printstuff collect pf (b1, p1) (b2, p2) (b3, p3)
  = Ret (emit pf (field pf.(spacing) pf.(rightspc) pf.(fillchar) s1 s2 s3)).
Proof.
  intros H1 H2 H3 Hlen Hsp Hcc. unfold __pf_printstuff. cbn [fst snd].
  rewrite (strlen_correct _ _ _ H1), (strlen_correct _ _ _ H2), (strlen_correct _ _ _ H3).
  cbn [mbind res_bind]. rewrite i32_id by lia.
  set (n := (length s1 + length s2 + length s3)%nat) in *.
  replace (Z.of_nat (length s1) + Z.of_nat (length s2) + Z.of_nat (length s3))
    with (Z.of_nat n) by lia.
  set (spc := if pf.(spacing) >? Z.of_nat n then _ else 0).
  assert (Z.to_nat spc = Z.to_nat pf.(spacing) - n)%nat as Hspc.
  { subst spc. case_cmp; [|lia]. rewrite i32_id by lia. lia. }
  assert (0 ≤ spc) by (subst spc; case_cmp; [rewrite i32_id by lia|]; lia).
  clearbody spc. unfold field. fold n. rewrite <-Hspc.
  unfold __pf_fill.
  destruct pf.(rightspc) eqn:Er, (pf.(fillchar) =? chr "0") eqn:Ef; cbn [negb andb];
    rewrite ?andb_true_r, ?andb_false_r;
    destruct (Z.gtb_spec spc 0); cbn [mbind res_bind andb];
    try (replace spc with 0 by lia);
    repeat first [rewrite print_collect by done
                 |rewrite fill_collect by first [done|apply emit_charcount]
                 |progress cbn [mbind res_bind]];
    rewrite ?emit_emit, ?emit_rightspc, ?emit_fillchar, ?Er;
    by rewrite <-?app_assoc, ?app_nil_r.
Qed.

Lemma numeral_bytes b n ds : numeral b n ds → Forall (λ c, 0 < c < 256) ds.
Proof.
  intros (_ & _ & H & _). eapply Forall_impl; [exact H|]. cbn. intros c [Hc _].
  cbn in Hc. rewrite !elem_of_cons, elem_of_nil in Hc.
  repeat destruct Hc as [->|Hc]; try done; split; by vm_compute.
Qed.

Definition sign_prefix (pf : PF (list Z)) : list Z :=
  if pf.(sign) =? 0 then [] else [chr "-"].

Definition base_prefix (pf : PF (list Z)) : list Z :=
  if pf.(baseprefix) && (pf.(base) =? 16) then [chr "0"; chr "x"]
  else if pf.(baseprefix) && (pf.(base) =? 8) then [chr "0"] else [].

Lemma cstr_concrete l s : Forall (λ c, 0 < c < 256) s → Z.of_nat (length s) + 1 < 2 ^ 32 →
  l = s ++ [0] → cstr l 0 s.
Proof.
  intros ? ? ->. split_and!; [done| |done|by exists []]. rewrite length_app. cbn. lia.
Qed.

Lemma printnum_collect pf : pf.(base) ∈ [8; 10; 16] → 0 ≤ pf.(num) < 2 ^ 64 →
  0 ≤ pf.(spacing) < 2 ^ 31 → i32 pf.(charcount) = pf.(charcount) →
  ∃ ds, numeral pf.(base) pf.(num) ds ∧ (length ds ≤ 22)%nat ∧
    __pf_printnum collect pf = Ret (emit pf
      (field pf.(spacing) pf.(rightspc) pf.(fillchar) (sign_prefix pf) (base_prefix pf) ds)).
Proof.
  intros Hbase Hnum Hsp Hcc.
  assert (2 ≤ pf.(base) ≤ 16 ∧ 2 ^ 64 ≤ pf.(base) ^ Z.of_nat 22) as [Hb Hpow].
  { rewrite !elem_of_cons, elem_of_nil in Hbase.
    destruct Hbase as [->|[->|[->|[]]]]; split; vm_compute; split || done; done. }
  unfold __pf_printnum. change NUMBER_BUF_SIZE with 23.
  change ((replicate (Z.to_nat 23) 0).[23 - 1 <- 0]) with (Ret (replicate 23 0)).
  cbn [mbind res_bind].
  destruct (printnum_loop_correct 22 printnum_fuel (replicate 23 0) (23 - 1 - 1)
    pf.(num) pf.(base)) as (ds & b' & -> & Hlen & Hds & Hb' & Hd);
    [done|unfold printnum_fuel; lia|lia|lia|cbn; lia|].
  cbn [mbind res_bind]. exists ds. split; [done|]. split; [done|].
  apply printstuff_collect; try done.
  - unfold sign_prefix. case_cmp; apply cstr_concrete; try done; by repeat constructor.
  - unfold base_prefix. case_cmp; [|case_cmp]; apply cstr_concrete; try done; by repeat constructor.
  - split_and!; [lia|rewrite Hb'; done|by eapply numeral_bytes|]. exists [].
    replace (23 - 1 - 1 - Z.of_nat (length ds) + 1)
      with (23 - 1 - 1 + 1 - Z.of_nat (length ds)) by lia. by rewrite Hd.
  - unfold sign_prefix, base_prefix. repeat case_cmp; cbn [length]; lia.
Qed.

(** ** [%d] *)

Lemma numeral_decimal n ds : numeral 10 n ds → Forall is_digit ds ∧ decimal 0 ds = n.
Proof.
  intros (_ & <- & H & _). generalize 0.
  induction H as [|c ds [Hin Hc] _ IH]; intros v; [done|].
  assert (is_digit c) as Hd.
  { cbn in Hin. rewrite !elem_of_cons, elem_of_nil in Hin.
    repeat destruct Hin as [->|Hin]; try done; by vm_compute in Hc. }
  assert (digit_val c = c - chr "0") as Hv.
  { unfold digit_val. destruct Hd. case_cmp; [done|lia]. }
  cbn [decimal radix]. rewrite Hv. destruct (IH (v * 10 + (c - chr "0"))) as [? ->].
  split; [by constructor|done].
Qed.

Definition pf_start (a : list arg) (pct : bool) : PF (list Z) :=
  MkPF [] a 0 pct INTSZ 0 0 0 false (chr " ") 0 false false.

Definition signed_text (n : Z) (ds : list Z) : list Z :=
  (if n <? 0 then [chr "-"] else []) ++ ds.

(** The state in which the number is printed. *)
Definition pf_number (n : Z) : PF (list Z) :=
  MkPF [] [] 0 true INTSZ (Z.abs n) (if n <? 0 then -1 else 0) 0 false
    (chr " ") 10 false false.

Lemma getnum_d n : - 2 ^ 31 ≤ n < 2 ^ 31 →
  (pf ← __pf_getnum (pf_start [A32 n] true) (chr "d"); Ret (__pf_setbase pf (chr "d")))
  = Ret (pf_number n).
Proof.
  intros Hn. unfold pf_start, pf_number, __pf_getnum.
  change (chr "d" =? chr "p") with false. change (chr "d" =? chr "d") with true.
  cbn -[i32 u64 chr Z.abs]. rewrite decide_False, i32_id by done. unfold u64.
  destruct (Z.ltb_spec n 0); cbn -[Z.pow Z.modulo Z.abs Z.opp chr];
    rewrite Z.mod_small by lia; do 2 f_equal; lia.
Qed.

Lemma vprintf_percent_d n : - 2 ^ 31 ≤ n < 2 ^ 31 →
  ∃ ds, numeral 10 (Z.abs n) ds ∧ (length ds ≤ 22)%nat ∧
    __vprintf collect [] (lit "%d") [A32 n]
    = Ret (Z.of_nat (length (signed_text n ds)), signed_text n ds).
Proof.
  intros Hn.
  destruct (printnum_collect (pf_number n)) as (ds & Hds & Hlen & Hpr);
    [apply (bool_decide_unpack _); done|change (num (pf_number n)) with (Z.abs n); lia|done..|].
  exists ds. split; [done|]. split; [done|].
  replace (field _ _ _ _ _ ds) with (signed_text n ds) in Hpr
    by (unfold field, sign_prefix, base_prefix, signed_text; cbn; by destruct (n <? 0)).
  assert (__pf_send collect (pf_start [A32 n] true) (chr "d")
          = Ret (__pf_endfield (emit (pf_number n) (signed_text n ds)))) as Hsend.
  { pose proof (getnum_d n Hn) as Hget. unfold __pf_send.
    change (strchr (lit "#-lz0123456789") 0 (chr "d")) with (Ret (@None Z)).
    change (strchr (lit "doupx") 0 (chr "d")) with (Ret (Some 0)).
    change (kassert (negb (chr "d" =? 0))) with (Ret tt).
    cbn -[__pf_printnum __pf_getnum __pf_setbase chr].
    destruct (__pf_getnum _ _) as [pf| | |]; cbn -[__pf_printnum __pf_setbase chr] in *; try done.
    injection Hget as ->. by rewrite Hpr. }
  unfold __vprintf. change (str_fuel (lit "%d")) with 4%nat.
  change (__pf_endfield _) with (pf_start [A32 n] false).
  change (vprintf_loop collect 4 (pf_start [A32 n] false) (lit "%d") 0) with
    (pf ← __pf_send collect (pf_start [A32 n] true) (chr "d");
     vprintf_loop collect 2 pf (lit "%d") 2).
  rewrite Hsend. set (pf' := __pf_endfield _). cbn [mbind res_bind].
  change (vprintf_loop collect 2 pf' (lit "%d") 2) with (Ret pf').
  subst pf'. cbn -[i32 signed_text Z.of_nat]. rewrite i32_id; [done|]. unfold signed_text. rewrite length_app. case_cmp; cbn [length]; lia.
Qed.

Lemma percent_d_atoi n : - 2 ^ 31 ≤ n < 2 ^ 31 →
  ∃ s, __vprintf collect [] (lit "%d") [A32 n] = Ret (Z.of_nat (length s), s) ∧
    atoi (s ++ [0]) 0 = Ret n.
Proof.
  intros Hn. destruct (vprintf_percent_d n Hn) as (ds & Hds & Hlen & ->).
  exists (signed_text n ds). split; [done|].
  pose proof (numeral_bytes _ _ _ Hds). pose proof (numeral_decimal _ _ Hds) as [? Hdec].
  destruct Hds as [Hne _]. unfold signed_text.
  set (sg := if n <? 0 then [chr "-"] else []).
  rewrite (atoi_correct _ 0 [] sg (n <? 0) ds []).
  - f_equal. rewrite Hdec. destruct (Z.ltb_spec n 0); rewrite i32_id; lia.
  - rewrite app_nil_r. cbn [app].
    apply cstr_concrete; [|subst sg; rewrite length_app; case_cmp; cbn [length]; lia|done].
    apply Forall_app. split; [|done]. subst sg. case_cmp; by repeat constructor.
  - constructor.
  - subst sg. destruct (n <? 0); constructor.
  - done.
  - done.
  - done.
Qed.

(** ** Two runs with related sinks *)

(** Equal outcomes, up to a relation on the values returned. *)
Definition rrel {A B} (R : A → B → Prop) (m1 : res A) (m2 : res B) : Prop :=
  match m1, m2 with
  | Ret a, Ret b => R a b
  | Panic, Panic | Undef, Undef | Diverge, Diverge => True
  | _, _ => False
  end.

Lemma rrel_bind {A B A' B'} (R : A → B → Prop) (R' : A' → B' → Prop) m1 m2 f1 f2 :
  rrel R m1 m2 → (∀ a b, R a b → rrel R' (f1 a) (f2 b)) → rrel R' (m1 ≫= f1) (m2 ≫= f2).
Proof. destruct m1, m2; cbn; naive_solver. Qed.

Lemma rrel_bind_same {A A' B'} (R' : A' → B' → Prop) (m : res A) f1 f2 :
  (∀ a, rrel R' (f1 a) (f2 a)) → rrel R' (m ≫= f1) (m ≫= f2).
Proof. destruct m; cbn; naive_solver. Qed.

Section Sinks.
Context {D1 D2 : Type} (send1 : D1 → list Z → res D1) (send2 : D2 → list Z → res D2).
Context (RD : D1 → D2 → Prop).
Hypothesis send_rel : ∀ d1 d2 s, RD d1 d2 → rrel RD (send1 d1 s) (send2 d2 s).

Inductive pfrel : PF D1 → PF D2 → Prop :=
| pfrel_intro d1 d2 a cc pct sz n sg sp rs fc b bp af : RD d1 d2 →
    pfrel (MkPF d1 a cc pct sz n sg sp rs fc b bp af) (MkPF d2 a cc pct sz n sg sp rs fc b bp af).

Lemma print_rel pf1 pf2 t p l : pfrel pf1 pf2 →
  rrel pfrel (__pf_print send1 pf1 t p l) (__pf_print send2 pf2 t p l).
Proof.
  intros []. apply rrel_bind_same. intros str.
  eapply rrel_bind; [by apply send_rel|]. intros. by constructor.
Qed.

Lemma fill_rel pf1 pf2 spc : pfrel pf1 pf2 →
  rrel pfrel (__pf_fill send1 pf1 spc) (__pf_fill send2 pf2 spc).
Proof.
  intros H. unfold __pf_fill. replace (fillchar pf2) with (fillchar pf1) by by destruct H.
  generalize (u8 (fillchar pf1)) as f. revert pf1 pf2 H.
  induction (Z.to_nat spc) as [|n IH]; intros pf1 pf2 H f; cbn [fill_loop]; [done|].
  eapply rrel_bind; [by apply print_rel|]. intros. by apply IH.
Qed.

Lemma printstuff_rel pf1 pf2 t1 t2 t3 : pfrel pf1 pf2 →
  rrel pfrel (__pf_printstuff send1 pf1 t1 t2 t3) (__pf_printstuff send2 pf2 t1 t2 t3).
Proof.
  intros H. unfold __pf_printstuff. do 3 (apply rrel_bind_same; intros ?).
  destruct H as [d1 d2 ? ? ? ? ? ? sp rs fc ? ? ? Hd]. cbn [spacing rightspc fillchar].
  set (spc := if sp >? _ then _ else _).
  assert (∀ c pf1 pf2, pfrel pf1 pf2 → rrel pfrel (if c : bool then __pf_fill send1 pf1 spc else Ret pf1)
    (if c then __pf_fill send2 pf2 spc else Ret pf2)) as Hfill.
  { intros [] ? ? ?; [by apply fill_rel|done]. }
  eapply rrel_bind; [apply Hfill; by constructor|intros].
  eapply rrel_bind; [by apply print_rel|intros].
  eapply rrel_bind; [by apply print_rel|intros].
  eapply rrel_bind; [by apply Hfill|intros].
  eapply rrel_bind; [by apply print_rel|]. intros p1 p2 Hp.
  replace (rightspc p2) with (rightspc p1) by by destruct Hp. by apply Hfill.
Qed.

Lemma printnum_rel pf1 pf2 : pfrel pf1 pf2 →
  rrel pfrel (__pf_printnum send1 pf1) (__pf_printnum send2 pf2).
Proof.
  intros H. unfold __pf_printnum. apply rrel_bind_same. intros b0.
  destruct (H). cbn -[printnum_loop __pf_printstuff]. apply rrel_bind_same. intros [b1 x].
  by apply printstuff_rel.
Qed.

Lemma endfield_rel pf1 pf2 : pfrel pf1 pf2 → pfrel (__pf_endfield pf1) (__pf_endfield pf2).
Proof. intros []. by constructor. Qed.

Lemma modifier_rel pf1 pf2 ch : pfrel pf1 pf2 →
  rrel pfrel (__pf_modifier pf1 ch) (__pf_modifier pf2 ch).
Proof.
  intros []. unfold __pf_modifier. repeat (case_match; [by constructor|]).
  case_match; [case_match; by constructor|]. apply rrel_bind_same. intros. by constructor.
Qed.

Lemma getnum_rel pf1 pf2 ch : pfrel pf1 pf2 →
  rrel pfrel (__pf_getnum pf1 ch) (__pf_getnum pf2 ch).
Proof.
  intros []. unfold __pf_getnum.
  repeat case_match; apply rrel_bind_same; intros [w a']; repeat case_match; by constructor.
Qed.

Lemma setbase_rel pf1 pf2 ch : pfrel pf1 pf2 → pfrel (__pf_setbase pf1 ch) (__pf_setbase pf2 ch).
Proof. intros []. by constructor. Qed.

Lemma send_char_rel pf1 pf2 ch : pfrel pf1 pf2 →
  rrel pfrel (__pf_send send1 pf1 ch) (__pf_send send2 pf2 ch).
Proof.
  intros H. unfold __pf_send. apply rrel_bind_same. intros _.
  replace (in_pct pf2) with (in_pct pf1) by by destruct H.
  replace (ap pf2) with (ap pf1) by by destruct H.
  case_match; [by apply print_rel|]. case_match; [destruct H; by constructor|].
  apply rrel_bind_same. intros m. case_match; [by apply modifier_rel|].
  apply rrel_bind_same. intros t. case_match.
  { eapply rrel_bind; [by apply getnum_rel|intros].
    eapply rrel_bind; [by apply printnum_rel, setbase_rel|]. intros. by apply endfield_rel. }
  case_match.
  - do 2 (case_match; try done). destruct H.
    eapply rrel_bind; [apply printstuff_rel; by constructor|]. intros. by apply endfield_rel.
  - apply rrel_bind_same. intros [x0 a']. destruct H.
    eapply rrel_bind; [apply printstuff_rel; by constructor|]. intros. by apply endfield_rel.
Qed.

Lemma vprintf_loop_rel fuel pf1 pf2 fmt i : pfrel pf1 pf2 →
  rrel pfrel (vprintf_loop send1 fuel pf1 fmt i) (vprintf_loop send2 fuel pf2 fmt i).
Proof.
  revert pf1 pf2 i. induction fuel as [|fuel IH]; intros pf1 pf2 i Hpf; cbn [vprintf_loop]; [done|].
  apply rrel_bind_same. intros ch. case_match; [done|].
  eapply rrel_bind; [by apply send_char_rel|]. intros. by apply IH.
Qed.

Lemma vprintf_rel d1 d2 fmt a : RD d1 d2 →
  rrel (λ r1 r2, r1.1 = r2.1 ∧ RD r1.2 r2.2) (__vprintf send1 d1 fmt a) (__vprintf send2 d2 fmt a).
Proof.
  intros Hd. unfold __vprintf. eapply (rrel_bind pfrel); [|by intros ? ? []].
  apply vprintf_loop_rel, endfield_rel. by constructor.
Qed.

End Sinks.

(** ** snprintf against the unbounded output *)

(** The buffer after [d] has been sent to it. *)
Definition snp_of (b0 : list Z) (limit : Z) (d : list Z) (snp : SNP) : Prop :=
  snp.(buflen) = limit ∧ snp.(bufpos) = Z.min limit (Z.of_nat (length d)) ∧
  snp.(buf) = splice b0 0 (take (Z.to_nat limit) d).

Lemma splice_snoc b p s c : (p + length s < length b)%nat →
  <[(p + length s)%nat := c]> (splice b p s) = splice b p (s ++ [c]).
Proof.
  intros H. apply list_eq. intros j.
  assert (length (splice b p s) = length b) by (apply splice_length; lia).
  rewrite splice_lookup by (rewrite length_app; cbn; lia). rewrite length_app. cbn [length].
  destruct (decide (j = p + length s)%nat) as [->|Hne].
  - rewrite list_lookup_insert_eq, decide_True by lia.
    rewrite lookup_app_r by lia. replace (p + length s - p - length s)%nat with 0%nat by lia. done.
  - rewrite list_lookup_insert_ne, splice_lookup by lia.
    repeat case_decide; try lia; [|done]. by rewrite lookup_app_l by lia.
Qed.

Lemma snprintf_send_rel b0 limit d snp s :
  0 ≤ limit < 2 ^ 32 → limit ≤ Z.of_nat (length b0) → snp_of b0 limit d snp →
  ∃ snp', __snprintf_send snp s = Ret snp' ∧ snp_of b0 limit (d ++ s) snp'.
Proof.
  intros Hlim Hb. revert d snp. induction s as [|c s IH]; intros d snp (Hl & Hp & Hbuf).
  - exists snp. rewrite app_nil_r. done.
  - cbn [__snprintf_send]. rewrite Hl, Hp. rewrite cons_middle, app_assoc. case_cmp.
    + assert (length (take (Z.to_nat limit) d) = length d) as Ht by (rewrite length_take; lia).
      rewrite take_ge in Hbuf by lia.
      rewrite Hbuf, wr_in_range by (rewrite splice_length; cbn; lia). cbn [mbind res_bind].
      apply IH. split_and!; [done| |]; cbn [bufpos buf].
      * rewrite length_app, u32_id by lia. cbn. lia.
      * rewrite take_ge by (rewrite length_app; cbn; lia).
        rewrite <-splice_snoc by (cbn; lia). f_equal. lia.
    + apply IH. split_and!; [done| |].
      * rewrite length_app. cbn. lia.
      * rewrite take_app_le by lia. done.
Qed.

Lemma vsnprintf_correct b len fmt a chars out :
  0 ≤ len < 2 ^ 32 → len ≤ Z.of_nat (length b) →
  __vprintf collect [] fmt a = Ret (chars, out) →
  vsnprintf b len fmt a = Ret (chars,
    if len =? 0 then b else splice b 0 (take (Z.to_nat (len - 1)) out ++ [0])).
Proof.
  intros Hlen Hb Hout. unfold vsnprintf.
  set (limit := if len =? 0 then 0 else u32 (len - 1)).
  assert (limit = Z.max 0 (len - 1)) as Hlimit.
  { subst limit. case_cmp; [lia|]. rewrite u32_id by lia. lia. }
  clearbody limit.
  opose proof (vprintf_rel collect __snprintf_send (snp_of b limit) _ []
    (MkSNP b limit 0) fmt a _) as Hrel.
  { intros d1 d2 s Hd. destruct (snprintf_send_rel b limit d1 d2 s) as (snp' & -> & ?);
      [lia..|done|]. done. }
  { split_and!; cbn; [done|lia|]. rewrite take_nil. unfold splice. cbn. by rewrite drop_0. }
  rewrite Hout in Hrel. destruct (__vprintf __snprintf_send _ fmt a) as [[c snp]| | |]; try done.
  cbn in Hrel. destruct Hrel as (<- & Hl & Hp & Hbuf). cbn [mbind res_bind]. rewrite Hbuf, Hp.
  case_cmp; case_cmp; try lia.
  - rewrite wr_in_range by (rewrite splice_length; rewrite ?length_take; cbn; lia).
    cbn [mbind res_bind]. rewrite <-splice_snoc by (rewrite length_take; cbn; lia).
    do 3 f_equal; [rewrite length_take; lia|]. do 2 f_equal. lia.
  - rewrite Hlimit. replace (Z.max 0 (len - 1)) with 0 by lia. do 2 f_equal.
Qed.

(** ** The assertions of the formatter never fire *)

Definition no_panic {A} (m : res A) : Prop := m ≠ Panic.

Lemma no_panic_bind {A B} (m : res A) (f : A → res B) :
  no_panic m → (∀ a, m = Ret a → no_panic (f a)) → no_panic (m ≫= f).
Proof. destruct m; cbn; unfold no_panic; naive_solver. Qed.

Lemma no_panic_Ret {A} (a : A) : no_panic (Ret a).
Proof. done. Qed.

Lemma no_panic_Undef {A} : no_panic (@Undef A).
Proof. done. Qed.

Lemma no_panic_Diverge {A} : no_panic (@Diverge A).
Proof. done. Qed.

Lemma no_panic_rd {A} (l : list A) i : no_panic l.[i].
Proof. unfold rd. case_match; [destruct (l !! _)|]; done. Qed.

Lemma no_panic_wr {A} (l : list A) i x : no_panic l.[i <- x].
Proof. unfold wr. by case_match. Qed.

#[local] Hint Resolve no_panic_Ret no_panic_Undef no_panic_Diverge no_panic_rd no_panic_wr : os.

(** Walks down binds and case distinctions. *)
Ltac no_panic :=
  repeat first
    [ solve [auto with os]
    | apply no_panic_bind; [|let a := fresh "a" in intros a _; try destruct a]
    | match goal with |- no_panic (match ?x with _ => _ end) => destruct x end ].

Lemma no_panic_strlen b p : no_panic (strlen b p).
Proof.
  unfold strlen. generalize 0. induction (str_fuel b); intros r; cbn; no_panic.
Qed.

Lemma no_panic_strchr b p ch : no_panic (strchr b p ch).
Proof.
  unfold strchr. revert p. induction (str_fuel b); intros p; cbn; no_panic.
Qed.

Lemma no_panic_load w b p : no_panic (load w b p).
Proof. revert p. induction w; intros p; cbn; no_panic. Qed.

Lemma no_panic_print pf t p l : no_panic (__pf_print collect pf t p l).
Proof. unfold __pf_print, collect. pose proof no_panic_load. no_panic. Qed.

#[local] Hint Resolve no_panic_strlen no_panic_strchr no_panic_load no_panic_print : os.

Lemma no_panic_fill pf spc : no_panic (__pf_fill collect pf spc).
Proof.
  unfold __pf_fill. generalize (u8 (fillchar pf)). revert pf.
  induction (Z.to_nat spc); intros pf f; cbn [fill_loop]; no_panic.
Qed.

#[local] Hint Resolve no_panic_fill : os.

Lemma no_panic_printstuff pf t1 t2 t3 : no_panic (__pf_printstuff collect pf t1 t2 t3).
Proof. unfold __pf_printstuff. no_panic. Qed.

#[local] Hint Resolve no_panic_printstuff : os.

Lemma no_panic_printnum_loop fuel b x n bs : no_panic (printnum_loop fuel b x n bs).
Proof. revert b x n. induction fuel; intros b x n; cbn [printnum_loop]; no_panic. Qed.

#[local] Hint Resolve no_panic_printnum_loop : os.

Lemma no_panic_printnum pf : no_panic (__pf_printnum collect pf).
Proof. unfold __pf_printnum. no_panic. Qed.

Lemma no_panic_va_word sz a : no_panic (va_word sz a).
Proof. unfold va_word. no_panic. Qed.

#[local] Hint Resolve no_panic_printnum no_panic_va_word : os.

Lemma no_panic_getnum (pf : PF (list Z)) ch : no_panic (__pf_getnum pf ch).
Proof. destruct pf. unfold __pf_getnum. no_panic. Qed.

#[local] Hint Resolve no_panic_getnum : os.

(** A character found among the modifiers is one [__pf_modifier] expects. *)
Lemma no_panic_modifier (pf : PF (list Z)) ch m : - 128 ≤ ch < 128 →
  ch ≠ 0 → strchr (lit "#-lz0123456789") 0 ch = Ret (Some m) → no_panic (__pf_modifier pf ch).
Proof.
  intros Hch Hnz Hm.
  rewrite (strchr_correct _ _ (bytes_of "#-lz0123456789")) in Hm
    by (apply cstr_concrete; [by repeat constructor|done|done]).
  assert (u8 ch ∈ bytes_of "#-lz0123456789") as Hin.
  { apply dec_stable. intros Hn. apply index_of_None in Hn; [by rewrite Hn in Hm|].
    unfold u8. zdiv_lia. }
  assert (ch = chr "#" ∨ ch = chr "-" ∨ ch = chr "l" ∨ ch = chr "z" ∨ 48 ≤ ch ≤ 57) as Hcase.
  { cbn in Hin. rewrite !elem_of_cons, elem_of_nil in Hin. unfold u8 in Hin.
    change (chr "#") with 35 in *. change (chr "-") with 45 in *. change (chr "l") with 108 in *.
    change (chr "z") with 122 in *. revert Hin. vm_compute chr. zdiv_lia. }
  destruct pf. unfold __pf_modifier.
  repeat (case_cmp; [by no_panic|]).
  change (chr "0") with 48 in *. change (chr "9") with 57.
  rewrite (proj2 (andb_true_iff _ _)); [done|].
  rewrite Z.leb_le, Z.gtb_gt. lia.
Qed.

Lemma no_panic_send pf ch : 0 < ch < 256 → no_panic (__pf_send collect pf (schar ch)).
Proof.
  intros Hch. assert (- 128 ≤ schar ch < 128 ∧ schar ch ≠ 0) as [Hs Hnz]
    by (unfold schar; case_cmp; lia).
  unfold __pf_send. apply no_panic_bind; [by destruct (Z.eqb_spec (schar ch) 0)|intros _ _].
  case_match; [auto with os|]. case_match; [by destruct pf|].
  apply no_panic_bind; [auto with os|intros [m|] Hm].
  - rewrite bool_decide_eq_true_2 by eauto. by eapply no_panic_modifier.
  - rewrite bool_decide_eq_false_2 by (by intros [? ?]). no_panic.
Qed.

Lemma no_panic_vprintf fmt d a : Forall (λ c, 0 ≤ c < 256) fmt →
  no_panic (__vprintf collect d fmt a).
Proof.
  intros H. unfold __vprintf. apply no_panic_bind; [|auto with os].
  generalize (__pf_endfield (MkPF d a 0 false INTSZ 0 0 0 false 0 0 false false)) as pf.
  generalize 0 as i.
  induction (str_fuel fmt) as [|fuel IH]; intros i pf; cbn [vprintf_loop]; [done|].
  apply no_panic_bind; [auto with os|]. intros ch [_ Hch]%rd_Ret. case_cmp; [done|].
  apply no_panic_bind; [|intros pf' _; apply IH]. apply no_panic_send.
  pose proof (Forall_lookup_1 _ _ _ _ H Hch). cbn in *. lia.
Qed.

(** ** Properties *)

(** What [printf] writes for [%d], [atoi] reads back, for every [int]. *)
Theorem printf_atoi_roundtrip n : - 2 ^ 31 ≤ n < 2 ^ 31 →
  ∃ s, __vprintf collect [] (lit "%d") [A32 n] = Ret (Z.of_nat (length s), s) ∧
    atoi (s ++ [0]) 0 = Ret n.
Proof. apply percent_d_atoi. Qed.

Lemma printf_atoi_roundtrip_witness :
  ∃ s, __vprintf collect [] (lit "%d") [A32 (- 2 ^ 31)] = Ret (Z.of_nat (length s), s) ∧
    atoi (s ++ [0]) 0 = Ret (- 2 ^ 31).
Proof. apply (printf_atoi_roundtrip (- 2 ^ 31)). lia. Defined.

(** [snprintf] writes the first [len - 1] characters of what the format
    produces without a limit, terminates them, leaves every other byte of the
    buffer alone (so it never writes past [len] bytes), and returns the length of
    the unlimited output. *)
Theorem snprintf_truncates b len fmt a chars out :
  0 ≤ len < 2 ^ 32 → len ≤ Z.of_nat (length b) →
  __vprintf collect [] fmt a = Ret (chars, out) →
  snprintf b len fmt a = Ret (chars,
    if len =? 0 then b else splice b 0 (take (Z.to_nat (len - 1)) out ++ [0])).
Proof. apply vsnprintf_correct. Qed.

Lemma snprintf_truncates_witness :
  snprintf (replicate 8 9) 4 (lit "x%dy") [A32 (-52)]
  = Ret (5, splice (replicate 8 9) 0 (bytes_of "x-5" ++ [0])).
Proof.
  apply (snprintf_truncates (replicate 8 9) 4 (lit "x%dy") [A32 (-52)] 5 (bytes_of "x-52y"));
    [lia|cbn; lia|by vm_compute].
Defined.

(** A number is printed as its numeral in the base asked for, without
    superfluous zeros, after its sign and base prefix and inside its field; the
    22 digits of a 64-bit number in octal just fit into the buffer. *)
Theorem printf_number_field pf : pf.(base) ∈ [8; 10; 16] → 0 ≤ pf.(num) < 2 ^ 64 →
  0 ≤ pf.(spacing) < 2 ^ 31 → i32 pf.(charcount) = pf.(charcount) →
  ∃ ds, numeral pf.(base) pf.(num) ds ∧ (length ds ≤ 22)%nat ∧
    __pf_printnum collect pf = Ret (emit pf
      (field pf.(spacing) pf.(rightspc) pf.(fillchar) (sign_prefix pf) (base_prefix pf) ds)).
Proof. apply printnum_collect. Qed.

Lemma printf_number_field_witness :
  ∃ ds, numeral 8 (2 ^ 64 - 1) ds ∧ (length ds ≤ 22)%nat ∧
    __pf_printnum collect (MkPF [] [] 0 true LLONGSZ (2 ^ 64 - 1) 0 30 false 48 8 true true)
    = Ret (emit (MkPF [] [] 0 true LLONGSZ (2 ^ 64 - 1) 0 30 false 48 8 true true)
        (field 30 false 48 [] [48] ds)).
Proof.
  apply (printf_number_field
    (MkPF [] [] 0 true LLONGSZ (2 ^ 64 - 1) 0 30 false 48 8 true true));
    [apply (bool_decide_unpack _); by vm_compute|cbn; lia|cbn; lia|done].
Defined.

(** No format string and no arguments make an assertion of the formatter
    fail. *)
Theorem printf_never_asserts fmt d a : Forall (λ c, 0 ≤ c < 256) fmt →
  __vprintf collect d fmt a ≠ Panic.
Proof. apply no_panic_vprintf. Qed.

Lemma printf_never_asserts_witness : __vprintf collect [] (lit "%-l0#9k") [] ≠ Panic.
Proof. apply (printf_never_asserts (lit "%-l0#9k") [] []). by repeat constructor. Defined.
