(* ===== verification/Hashtable.v ===== *)
(** * Hash tables (kern/lib/hashtable.c)

    A chained hash table over any implementation of lists that satisfies
    [ListLaws].  [wf h m] says that the table holds exactly the bindings of the
    finite map [m], each in the chain its key hashes to. *)

From S2P Require Import Prelude CString LinkedList.

(** ** Data *)

(** [key] is the object that holds the C string, terminator included. *)
Record hkey := HKey { key : list Z; keylen : Z }.

#[global] Instance hkey_eq_dec : EqDecision hkey.
Proof. solve_decision. Defined.

#[global] Instance hkey_countable : Countable hkey.
Proof.
  refine (inj_countable' (λ k, (key k, keylen k)) (λ p, HKey p.1 p.2) _).
  by intros [].
Defined.

Definition LF_MULTIPLE : Z := 2.
Definition MIN_SIZE : Z := 8.
Definition sizeof_list_ptr : Z := 4.

(** ** Hashing *)

Fixpoint hash_loop (n : nat) (k : list Z) (i hashval : Z) : res Z :=
  match n with
  | O => Ret hashval
  | S n' =>
      c ← k.[i];
      hash_loop n' k (u32 (i + 1)) (u32 (u32 (u32 (hashval * 2 ^ 5) + hashval) + schar c))
  end.

Definition hash (k : list Z) (klen : Z) : res Z := hash_loop (Z.to_nat klen) k 0 5381.

Definition key_comparator (l r : hkey) : res Z :=
  if l.(keylen) =? r.(keylen) then strcmp l.(key) r.(key)
  else Ret (i32 (u32 (l.(keylen) - r.(keylen)))).

(** [kfree] of the key that a pair was added with: what it does to the memory [K] that
    has the keys.  The instances say where the values keep the address of the key. *)
Class KeyMem (V K : Type) := kfree_key : V → K → res K.

Section Hashtable.
Context {V L : Type}.

(** [struct kv_pair]; a query item has no value. *)
#[local] Notation kv_pair := (hkey * V)%type.

Context {LO : ListOps kv_pair hkey L} {LL : ListLaws kv_pair hkey L}.

(** [struct hashtable]; a slot of the array is [None] while it is [NULL]. *)
Record hashtable := Hashtable {
  h_size : Z;
  h_arraysize : Z;
  h_vals : list (option L)
}.

Implicit Types h : hashtable.

Definition kv_create (k : hkey) (v : V) (o : script) : option kv_pair * script :=
  let '(ok, o) := kmalloc o in
  if negb ok then (None, o) else (Some (k, v), o).

Definition kv_comparator (l : kv_pair) (r : hkey) : res Z := key_comparator l.1 r.

(** The chain in a slot, [KASSERT(chain != NULL)]. *)
Definition chain_at (vals : list (option L)) (i : Z) : res L :=
  c ← vals.[i];
  match c with Some c => Ret c | None => Panic end.

(** [kfree] of the lists in the slots below [j]. *)
Fixpoint destroy_lists (n : nat) (vals : list (option L)) (i : Z) : res unit :=
  match n with
  | O => Ret tt
  | S n' =>
      c ← vals.[i];
      c ← deref c;
      _ ← l_destroyed c;
      destroy_lists n' vals (u32 (i + 1))
  end.

(** [n] slots are left to fill, the next one is [i]. *)
Fixpoint init_array_with_lists (n : nat) (vals : list (option L)) (i : Z) (o : script)
    : res (Z * list (option L) * script) :=
  match n with
  | O => Ret (0, vals, o)
  | S n' =>
      let '(l, o) := l_create o in
      vals ← vals.[i <- l];
      match l with
      | None => _ ← destroy_lists (Z.to_nat i) vals 0; Ret (ENOMEM, vals, o)
      | Some _ => init_array_with_lists n' vals (u32 (i + 1)) o
      end
  end.

Fixpoint cleanup_array_with_lists (n : nat) (vals : list (option L)) (i : Z) : res unit :=
  match n with
  | O => Ret tt
  | S n' =>
      c ← vals.[i];
      c ← deref c;
      _ ← kassert (l_isempty c);
      _ ← l_destroyed c;
      cleanup_array_with_lists n' vals (u32 (i + 1))
  end.

(** An array of [n] slots, as [kmalloc(n * sizeof(struct list * ))] returns it. *)
Definition new_slots (n : Z) : list (option L) :=
  replicate (Z.to_nat (u32 (n * sizeof_list_ptr) / sizeof_list_ptr)) None.

Definition hashtable_create (o : script) : res (option hashtable * script) :=
  let '(ok, o) := kmalloc o in
  if negb ok then Ret (None, o) else
  let '(ok, o) := kmalloc o in
  if negb ok then Ret (None, o) else
  '(err, vals, o) ← init_array_with_lists (Z.to_nat MIN_SIZE) (new_slots MIN_SIZE) 0 o;
  if err =? ENOMEM then Ret (None, o)
  else Ret (Some (Hashtable 0 MIN_SIZE vals), o).

(** [hashtable_add] as [rehash] calls it. *)
Definition adder : Type := hashtable → hkey → V → script → res (Z * hashtable * script).

(** The loop that empties one chain; every turn removes an item. *)
Fixpoint drain (fuel : nat) (add : adder) h (chain : L) (o : script)
    : res (hashtable * L * script) :=
  match fuel with
  | O => Diverge
  | S fuel' =>
      item ← l_front chain;
      match item with
      | None => Ret (h, chain, o)
      | Some (k, v) =>
          '(_, h, o) ← add h k v o;
          chain ← l_pop_front chain;
          drain fuel' add h chain o
      end
  end.

Fixpoint rehash (n : nat) (add : adder) h (source : list (option L)) (i : Z) (o : script)
    : res (hashtable * list (option L) * script) :=
  match n with
  | O => Ret (h, source, o)
  | S n' =>
      chain ← chain_at source i;
      if l_getsize chain >? 0 then
        '(h, chain, o) ← drain (S (Z.to_nat (l_getsize chain))) add h chain o;
        _ ← kassert (l_getsize chain =? 0);
        source ← source.[i <- Some chain];
        rehash n' add h source (u32 (i + 1)) o
      else rehash n' add h source (u32 (i + 1)) o
  end.

(** Moves the table to an array of [newsize] slots: the common body of [grow]
    and [shrink]. *)
Definition resize (add : adder) (newsize : Z) h (o : script) : res (Z * hashtable * script) :=
  let old_array := h.(h_vals) in
  let old_arraysize := h.(h_arraysize) in
  let '(ok, o) := kmalloc o in
  if negb ok then Ret (ENOMEM, h, o) else
  '(err, new_array, o) ← init_array_with_lists (Z.to_nat newsize) (new_slots newsize) 0 o;
  if err =? ENOMEM then Ret (ENOMEM, h, o) else
  let h := Hashtable 0 newsize new_array in
  '(h, old_array, o) ← rehash (Z.to_nat old_arraysize) add h old_array 0 o;
  _ ← cleanup_array_with_lists (Z.to_nat old_arraysize) old_array 0;
  Ret (0, h, o).

Definition grow (add : adder) h (o : script) : res (Z * hashtable * script) :=
  resize add (u32 (h.(h_arraysize) * 2)) h o.

Definition shrink (add : adder) h (o : script) : res (Z * hashtable * script) :=
  resize add (h.(h_arraysize) / 2) h o.

(** [int index = hash(key, keylen) % h->arraysize] *)
Definition index_for (arraysize : Z) (k : hkey) : res Z :=
  hv ← hash k.(key) k.(keylen);
  if arraysize =? 0 then Undef else Ret (i32 (hv mod arraysize)).

(** [hashtable_add] after the load factor has been dealt with. *)
Definition add_here h (k : hkey) (v : V) (o : script) : res (Z * hashtable * script) :=
  index ← index_for h.(h_arraysize) k;
  chain ← chain_at h.(h_vals) index;
  '(removed, chain) ← l_remove chain k kv_comparator;
  vals ← h.(h_vals).[index <- Some chain];
  let h := Hashtable h.(h_size) h.(h_arraysize) vals in
  let '(new_item, o) := kv_create k v o in
  match new_item with
  | None => Ret (ENOMEM, h, o)
  | Some new_item =>
      '(err, chain, o) ← l_push_back chain new_item o;
      vals ← h.(h_vals).[index <- Some chain];
      let h := Hashtable h.(h_size) h.(h_arraysize) vals in
      if err =? ENOMEM then Ret (ENOMEM, h, o) else
      let size := match removed with None => u32 (h.(h_size) + 1) | Some _ => h.(h_size) end in
      Ret (0, Hashtable size h.(h_arraysize) vals, o)
  end.

(** [hashtable_add], [grow] and [rehash] call each other; [depth] bounds the
    nesting of [grow]. *)
Fixpoint add_depth (depth : nat) h (k : hkey) (v : V) (o : script)
    : res (Z * hashtable * script) :=
  '(h, o) ← (if u32 (u32 (h.(h_size) + 1) * LF_MULTIPLE) >? h.(h_arraysize) then
       match depth with
       | O => Diverge
       | S depth' => '(_, h, o) ← grow (add_depth depth') h o; Ret (h, o)
       end
     else Ret (h, o));
  add_here h k v o.

Definition add_fuel : nat := 32.

Definition hashtable_add h (k : hkey) (v : V) (o : script) : res (Z * hashtable * script) :=
  add_depth add_fuel h k v o.

Definition hashtable_find h (k : hkey) : res (option V) :=
  index ← index_for h.(h_arraysize) k;
  chain ← chain_at h.(h_vals) index;
  found ← l_find chain k kv_comparator;
  Ret (match found with Some (_, v) => Some v | None => None end).

Definition hashtable_remove {K} {KM : KeyMem V K} h (k : hkey) (mem : K) (o : script)
    : res (option V * hashtable * K * script) :=
  index ← index_for h.(h_arraysize) k;
  chain ← chain_at h.(h_vals) index;
  '(removed, chain) ← l_remove chain k kv_comparator;
  vals ← h.(h_vals).[index <- Some chain];
  let h := Hashtable h.(h_size) h.(h_arraysize) vals in
  match removed with
  | None => Ret (None, h, mem, o)
  | Some (_, v) =>
      let h := Hashtable (u32 (h.(h_size) - 1)) h.(h_arraysize) vals in
      '(h, o) ← (if (h.(h_arraysize) >? MIN_SIZE) &&
                    (u32 (u32 (h.(h_size) - 1) * LF_MULTIPLE) <? h.(h_arraysize))
                 then '(_, h, o) ← shrink hashtable_add h o; Ret (h, o)
                 else Ret (h, o));
      mem ← kfree_key v mem;
      Ret (Some v, h, mem, o)
  end.

Definition hashtable_isempty h : bool := h.(h_size) =? 0.

Definition hashtable_getsize h : Z := h.(h_size).

Definition hashtable_destroy h : res unit :=
  cleanup_array_with_lists (Z.to_nat h.(h_arraysize)) h.(h_vals) 0.

(** The inner loop of [hashtable_assertvalid] turns the chain once around. *)
Fixpoint rotate_chain (n : nat) (arraysize i : Z) (chain : L) (o : script)
    : res (L * script) :=
  match n with
  | O => Ret (chain, o)
  | S n' =>
      kv ← l_front chain;
      '(k, v) ← deref kv;
      hv ← hash k.(key) k.(keylen);
      _ ← kassert (hv mod arraysize =? i);
      chain ← l_pop_front chain;
      '(_, chain, o) ← l_push_back chain (k, v) o;
      rotate_chain n' arraysize i chain o
  end.

Fixpoint assertvalid_loop (n : nat) h (i count : Z) (o : script)
    : res (hashtable * Z * script) :=
  match n with
  | O => Ret (h, count, o)
  | S n' =>
      chain ← chain_at h.(h_vals) i;
      _ ← l_assertvalid chain;
      let size := l_getsize chain in
      '(chain, o) ← rotate_chain (Z.to_nat size) h.(h_arraysize) i chain o;
      vals ← h.(h_vals).[i <- Some chain];
      assertvalid_loop n' (Hashtable h.(h_size) h.(h_arraysize) vals) (u32 (i + 1))
        (u32 (count + size)) o
  end.

Definition hashtable_assertvalid h (o : script) : res (hashtable * script) :=
  '(h, count, o) ← assertvalid_loop (Z.to_nat h.(h_arraysize)) h 0 0 o;
  _ ← kassert (count =? h.(h_size));
  Ret (h, o).

(** ** Specification *)

(** A key that can be hashed and compared: a string and a length inside of it. *)
Definition valid (k : hkey) : Prop :=
  (∃ s, k.(key) = s ++ [0] ∧ Forall (λ c, 0 < c < 256) s) ∧
  Z.of_nat (length k.(key)) < 2 ^ 32 ∧ 0 ≤ k.(keylen) ≤ Z.of_nat (length k.(key)).

Definition hash_of (k : hkey) : Z :=
  match hash k.(key) k.(keylen) with Ret z => z | _ => 0 end.

Definition slot (n : Z) (k : hkey) : nat := Z.to_nat (hash_of k mod n).

(** The comparison of [l] with the query [r]. *)
Definition cmp_of (r : hkey) (l : kv_pair) : Z :=
  match key_comparator l.1 r with Ret z => z | _ => 1 end.

(** The array holds the lists [bs]. *)
Definition slots (vals : list (option L)) (bs : list (list kv_pair)) : Prop :=
  Forall2 (λ c xs, ∃ l, c = Some l ∧ lrep l xs) vals bs.

Definition arraysize_ok (n : Z) : Prop := n ≤ 2 ^ 29 ∧ ∃ k : nat, n = 8 * 2 ^ Z.of_nat k.

(** The table holds exactly the bindings [es]. *)
Definition holds h (es : list kv_pair) : Prop :=
  NoDup es.*1 ∧ arraysize_ok h.(h_arraysize) ∧ ∃ bs,
    slots h.(h_vals) bs ∧ Z.of_nat (length bs) = h.(h_arraysize) ∧
    (∀ i xs, bs !! i = Some xs →
       Forall (λ e, valid e.1 ∧ slot h.(h_arraysize) e.1 = i) xs) ∧
    concat bs ≡ₚ es.

(** The bindings of other keys. *)
Definition others (k : hkey) (es : list kv_pair) : list kv_pair :=
  filter (λ e, e.1 ≠ k) es.

(** ** Keys *)

Lemma hash_loop_correct n k i hv : 0 ≤ i → i + Z.of_nat n ≤ Z.of_nat (length k) < 2 ^ 32 →
  0 ≤ hv < 2 ^ 32 → ∃ hv', hash_loop n k i hv = Ret hv' ∧ 0 ≤ hv' < 2 ^ 32.
Proof.
  revert i hv. induction n as [|n IH]; intros i hv Hi Hk Hhv; cbn [hash_loop]; [eauto|].
  destruct (rd_in_range k i) as (c & -> & _); [lia|]. cbn [mbind res_bind].
  rewrite (u32_id (i + 1)) by lia. apply IH; [lia|lia|apply u32_range].
Qed.

Lemma hash_correct k : valid k →
  hash k.(key) k.(keylen) = Ret (hash_of k) ∧ 0 ≤ hash_of k < 2 ^ 32.
Proof.
  intros (_ & Hl & Hk). unfold hash_of, hash.
  destruct (hash_loop_correct (Z.to_nat k.(keylen)) k.(key) 0 5381) as (hv & -> & ?);
    [lia..|done].
Qed.

Lemma comparator_correct l r : valid l → valid r →
  ∃ z, key_comparator l r = Ret z ∧ (z = 0 ↔ l = r).
Proof.
  destruct l as [kl nl], r as [kr nr].
  intros ((s & Hs & Fs) & Hl1 & Hl2) ((t & Ht & Ft) & Hr1 & Hr2). cbn in *. subst.
  unfold key_comparator; cbn. case_cmp.
  - rewrite (strcmp_correct _ _ s t). 
    + eexists; split; [done|]. rewrite lex_eq. split; [by intros ->; subst|].
      intros [= Heq _]. by apply app_inj_tail in Heq as [? _].
    + split_and!; [done|done|done|by exists []].
    + split_and!; [done|done|done|by exists []].
  - eexists; split; [done|]. split; [|by intros [= _ ?]].
    intros H0. exfalso. revert H0. unfold i32, u32. intros.
    assert (nl - nr = 0); [|lia]. revert H0. zdiv_lia.
Qed.

Lemma cmp_of_correct k xs : valid k → Forall (λ e : kv_pair, valid e.1) xs →
  compares k kv_comparator (cmp_of k) xs ∧ ∀ e, e ∈ xs → (cmp_of k e = 0 ↔ e.1 = k).
Proof.
  intros Hk Hxs. rewrite Forall_forall in Hxs. unfold compares, kv_comparator, cmp_of.
  split; intros e He; destruct (comparator_correct e.1 k) as (z & -> & ?); auto.
Qed.

(** ** Bindings of a key *)

#[local] Arguments others : simpl never.

Lemma others_cons k e es :
  others k (e :: es) = if decide (e.1 = k) then others k es else e :: others k es.
Proof.
  unfold others. case_decide; [by rewrite filter_cons_False by naive_solver|].
  by rewrite filter_cons_True.
Qed.

Lemma others_id k es : k ∉ es.*1 → others k es = es.
Proof.
  induction es as [|e es IH]; [done|]. cbn. rewrite not_elem_of_cons. intros [? ?].
  rewrite others_cons, decide_False, IH by done. done.
Qed.

Lemma others_app k es1 es2 : others k (es1 ++ es2) = others k es1 ++ others k es2.
Proof. apply filter_app. Qed.

#[local] Instance others_perm k : Proper ((≡ₚ) ==> (≡ₚ)) (others k).
Proof. intros es1 es2 H. unfold others. by rewrite H. Qed.

Lemma others_not_in k es : k ∉ (others k es).*1.
Proof.
  rewrite list_elem_of_fmap. intros (e & -> & He). unfold others in He.
  apply list_elem_of_filter in He as [? _]. done.
Qed.

Lemma others_submseteq k es : others k es ⊆+ es.
Proof. apply sublist_submseteq, sublist_filter. Qed.

Lemma NoDup_submseteq_fst (es1 es2 : list kv_pair) :
  es1 ⊆+ es2 → NoDup es2.*1 → NoDup es1.*1.
Proof.
  intros [k Hp]%submseteq_Permutation Hnd. rewrite Hp, fmap_app in Hnd.
  by apply NoDup_app in Hnd as [? _].
Qed.

Lemma others_NoDup k v es : NoDup es.*1 → NoDup ((k, v) :: others k es).*1.
Proof.
  intros H. cbn. apply NoDup_cons. split; [apply others_not_in|].
  eapply NoDup_submseteq_fst; [apply others_submseteq|done].
Qed.

(** With one binding per key, removing the first match removes the key. *)
Lemma remove_first_others k xs : valid k → Forall (λ e : kv_pair, valid e.1) xs →
  NoDup xs.*1 → remove_first (cmp_of k) xs = others k xs.
Proof.
  intros Hk Hxs Hnd. destruct (cmp_of_correct k xs Hk Hxs) as [_ Hc].
  clear Hxs. induction xs as [|e xs IH]; [done|].
  cbn in Hnd. apply NoDup_cons in Hnd as [He Hnd].
  pose proof (Hc e ltac:(by apply elem_of_cons; left)) as Hce.
  rewrite others_cons. cbn. case_cmp; case_decide as Hek; try tauto.
  - rewrite others_id; [done|]. by rewrite <-Hek.
  - f_equal. apply IH; [done|].
    intros e' ?. apply Hc. by apply elem_of_cons; right.
Qed.

Lemma first_match_binding k xs : valid k → Forall (λ e : kv_pair, valid e.1) xs →
  match first_match (cmp_of k) xs with
  | Some e => e.1 = k ∧ e ∈ xs
  | None => k ∉ xs.*1
  end.
Proof.
  intros Hk Hxs. destruct (cmp_of_correct k xs Hk Hxs) as [_ Hc]. unfold first_match.
  destruct (List.find _ xs) as [e|] eqn:E.
  - apply List.find_some in E as [Hin%list_elem_of_In Hz%Z.eqb_eq].
    split; [|done]. by apply Hc.
  - rewrite list_elem_of_fmap. intros (e & -> & He). pose proof He as Hin.
    apply list_elem_of_In, (List.find_none _ _ E), Z.eqb_neq in He. by apply He, Hc.
Qed.

(** ** Slots *)

Lemma index_for_correct n k : arraysize_ok n → valid k →
  index_for n k = Ret (Z.of_nat (slot n k)) ∧ Z.of_nat (slot n k) < n.
Proof.
  intros [Hn (j & Hj)] Hk. destruct (hash_correct k Hk) as [Hh Hr].
  assert (0 < n) by lia.
  pose proof (Z.mod_pos_bound (hash_of k) n ltac:(lia)).
  unfold index_for, slot. rewrite Hh. cbn [mbind res_bind]. case_cmp; [lia|].
  rewrite Z2Nat.id by lia. split; [|lia]. f_equal. unfold i32.
  rewrite Z.mod_small by lia. lia.
Qed.

Lemma slots_lookup vals bs i : slots vals bs → 0 ≤ i < Z.of_nat (length bs) →
  ∃ l xs, bs !! Z.to_nat i = Some xs ∧ vals.[i] = Ret (Some l) ∧ lrep l xs.
Proof.
  intros Hs Hi. destruct (lookup_lt_is_Some_2 bs (Z.to_nat i)) as [xs Hxs]; [lia|].
  destruct (Forall2_lookup_r _ _ _ _ _ Hs Hxs) as (c & Hc & l & -> & Hl).
  exists l, xs. split_and!; [done| |done]. apply rd_lookup; [lia|done].
Qed.

Lemma slots_insert vals bs i l xs : slots vals bs → lrep l xs →
  slots (<[i := Some l]> vals) (<[i := xs]> bs).
Proof. intros. apply Forall2_insert; eauto. Qed.

Lemma slots_length vals bs : slots vals bs → length vals = length bs.
Proof. apply Forall2_length. Qed.

(** The chain of a key: it holds all bindings of the key, and a new content for
    it gives a new content of the table. *)
Lemma holds_chain h es k : holds h es → valid k →
  ∃ l xs rest, let i := Z.of_nat (slot h.(h_arraysize) k) in
    index_for h.(h_arraysize) k = Ret i ∧ chain_at h.(h_vals) i = Ret l ∧ lrep l xs ∧
    Forall (λ e, valid e.1 ∧ slot h.(h_arraysize) e.1 = slot h.(h_arraysize) k) xs ∧
    es ≡ₚ xs ++ rest ∧ k ∉ rest.*1 ∧
    ∀ l' xs' sz, lrep l' xs' →
      Forall (λ e, valid e.1 ∧ slot h.(h_arraysize) e.1 = slot h.(h_arraysize) k) xs' →
      NoDup (xs' ++ rest).*1 →
      ∃ vals', h.(h_vals).[i <- Some l'] = Ret vals' ∧
        (∀ l'', vals'.[i <- Some l''] = h.(h_vals).[i <- Some l'']) ∧
        holds (Hashtable sz h.(h_arraysize) vals') (xs' ++ rest).
Proof.
  intros (Hnd & Hok & bs & Hs & Hlen & Hb & Hp) Hk.
  destruct (index_for_correct _ _ Hok Hk) as [Hi Hlt].
  pose proof (slots_length _ _ Hs) as Hvl.
  destruct (slots_lookup _ _ (Z.of_nat (slot h.(h_arraysize) k)) Hs) as (l & xs & Hxs & Hr & Hl);
    [lia|]. rewrite Nat2Z.id in Hxs.
  set (i := slot h.(h_arraysize) k) in *.
  exists l, xs, (concat (delete i bs)). split_and!; try done.
  - unfold chain_at. by rewrite Hr.
  - eapply Forall_impl; [apply (Hb i xs Hxs)|]. done.
  - by rewrite <-Hp, (concat_split bs i xs Hxs).
  - rewrite list_elem_of_fmap. intros (e & -> & He). apply list_elem_of_In, List.in_concat in He.
    destruct He as (ys & (j & Hj)%list_elem_of_In%list_elem_of_lookup & He%list_elem_of_In).
    rewrite list_lookup_delete in Hj.
    case_decide; pose proof (Hb _ _ Hj) as HF; rewrite Forall_forall in HF;
      destruct (HF e He) as [_ Hsl]; subst i; lia.
  - intros l' xs' sz Hl' Hxs' Hnd'. exists (<[i := Some l']> h.(h_vals)).
    rewrite wr_in_range, Nat2Z.id by lia. split; [done|]. split.
    { intros l''. by rewrite !wr_in_range, Nat2Z.id, list_insert_insert_eq by (rewrite ?length_insert; lia). }
    split; [done|]. split; [done|]. exists (<[i := xs']> bs). cbn [h_vals h_arraysize].
    split_and!; [by apply slots_insert|by rewrite length_insert| |by apply concat_insert with xs].
    intros j ys Hj. destruct (decide (i = j)) as [<-|Hne].
    + rewrite list_lookup_insert_eq in Hj by (by eapply lookup_lt_Some).
      injection Hj as <-. done.
    + rewrite list_lookup_insert_ne in Hj by done. by apply Hb.
Qed.

#[local] Instance holds_perm h : Proper ((≡ₚ) ==> iff) (holds h).
Proof.
  assert (∀ es1 es2, es1 ≡ₚ es2 → holds h es1 → holds h es2) as H.
  { intros es1 es2 Hp (Hnd & Hok & bs & ? & ? & ? & Hc). rewrite Hp in Hnd, Hc.
    split; [done|]. split; [done|]. by exists bs. }
  intros es1 es2 Hp. split; by apply H.
Qed.

Lemma holds_NoDup h es : holds h es → NoDup es.*1.
Proof. by intros [? _]. Qed.

Lemma chain_NoDup (k : hkey) xs rest : k ∉ rest.*1 → NoDup (xs ++ rest).*1 →
  NoDup xs.*1 ∧ others k (xs ++ rest) = others k xs ++ rest ∧
  NoDup (others k xs ++ rest).*1 ∧ ∀ v, NoDup ((others k xs ++ [(k, v)]) ++ rest).*1.
Proof.
  intros Hr Hnd. assert (others k (xs ++ rest) = others k xs ++ rest) as Ho.
  { by rewrite others_app, (others_id k rest). }
  split_and!; [|done| |].
  - rewrite fmap_app in Hnd. by apply NoDup_app in Hnd as [? _].
  - rewrite <-Ho. eapply NoDup_submseteq_fst; [apply others_submseteq|done].
  - intros v. rewrite <-app_assoc. cbn [app].
    rewrite <-Permutation_middle, <-Ho. by apply others_NoDup.
Qed.

(** Taking a key out of its chain, and putting a binding of it back. *)
Lemma holds_remove h es k : holds h es → valid k →
  ∃ l l' ys removed vals', let i := Z.of_nat (slot h.(h_arraysize) k) in
    index_for h.(h_arraysize) k = Ret i ∧ chain_at h.(h_vals) i = Ret l ∧
    l_remove l k kv_comparator = Ret (removed, l') ∧ lrep l' ys ∧
    h.(h_vals).[i <- Some l'] = Ret vals' ∧ vals'.[i <- Some l'] = Ret vals' ∧
    (length ys ≤ length es)%nat ∧
    (∀ sz, holds (Hashtable sz h.(h_arraysize) vals') (others k es)) ∧
    match removed with Some e => e.1 = k ∧ e ∈ es | None => k ∉ es.*1 end ∧
    (∀ l'' v sz, lrep l'' (ys ++ [(k, v)]) →
       ∃ vals'', vals'.[i <- Some l''] = Ret vals'' ∧
         holds (Hashtable sz h.(h_arraysize) vals'') ((k, v) :: others k es)).
Proof.
  intros Hh Hk. pose proof (holds_NoDup _ _ Hh) as Hnd.
  destruct (holds_chain _ _ _ Hh Hk) as (l & xs & rest & Hi & Hc & Hl & Hxs & Hp & Hr & Hput).
  assert (Forall (λ e : kv_pair, valid e.1) xs) as Hv.
  { eapply Forall_impl; [exact Hxs|]. naive_solver. }
  rewrite Hp in Hnd. destruct (chain_NoDup k xs rest Hr Hnd) as (Hndx & Ho & Hnd1 & Hnd2).
  destruct (cmp_of_correct k xs Hk Hv) as [Hcmp _].
  destruct (l_remove_law _ _ _ _ _ Hl Hcmp) as (l' & Hrem & Hl').
  rewrite (remove_first_others k xs) in Hl' by done.
  assert (Forall (λ e, valid e.1 ∧ slot h.(h_arraysize) e.1 = slot h.(h_arraysize) k)
    (others k xs)) as Hxs'.
  { rewrite Forall_forall in Hxs |- *. intros e [_ He]%list_elem_of_filter. by apply Hxs. }
  destruct (Hput l' (others k xs) 0 Hl' Hxs' Hnd1) as (vals' & Hvals & Hagain & _).
  exists l, l', (others k xs), (first_match (cmp_of k) xs), vals'. split_and!; try done.
  - by rewrite Hagain.
  - rewrite (Permutation_length Hp), length_app. unfold others.
    pose proof (length_filter (λ e : kv_pair, e.1 ≠ k) xs). lia.
  - intros sz. destruct (Hput l' (others k xs) sz Hl' Hxs' Hnd1) as (vals'' & Hvals' & _ & Hh').
    rewrite Hvals in Hvals'. injection Hvals' as <-. by rewrite Hp, Ho.
  - pose proof (first_match_binding k xs Hk Hv) as Hfm.
    destruct (first_match _ xs) as [e|].
    + destruct Hfm as [? ?]. split; [done|]. rewrite Hp. set_solver.
    + rewrite Hp, fmap_app. set_solver.
  - intros l'' v sz Hl''. rewrite Hagain.
    destruct (Hput l'' (others k xs ++ [(k, v)]) sz Hl'') as (vals'' & -> & _ & Hh');
      [apply Forall_app; split; [done|by constructor]|done|].
    exists vals''. split; [done|]. rewrite Hp, Ho.
    rewrite <-app_assoc in Hh'. cbn [app] in Hh'. by rewrite <-Permutation_middle in Hh'.
Qed.

(** ** Lookup and insertion in place *)

Lemma find_holds h es k : holds h es → valid k →
  ∃ r, hashtable_find h k = Ret r ∧
    match r with Some v => (k, v) ∈ es | None => k ∉ es.*1 end.
Proof.
  intros Hh Hk. unfold hashtable_find.
  destruct (holds_chain _ _ _ Hh Hk) as (l & xs & rest & -> & Hc & Hl & Hxs & Hp & Hr & _).
  cbn [mbind res_bind]. rewrite Hc. cbn [mbind res_bind].
  assert (Forall (λ e : kv_pair, valid e.1) xs) as Hv.
  { eapply Forall_impl; [exact Hxs|]. naive_solver. }
  destruct (cmp_of_correct k xs Hk Hv) as [Hcmp _].
  rewrite (l_find_law _ _ _ _ _ Hl Hcmp). cbn [mbind res_bind].
  pose proof (first_match_binding k xs Hk Hv) as Hfm.
  destruct (first_match _ xs) as [[k' v]|]; eexists; split; try done.
  - destruct Hfm as [<- ?]. rewrite Hp. set_solver.
  - cbn. rewrite Hp, fmap_app. set_solver.
Qed.

Lemma add_here_correct h es k v o : holds h es → valid k →
  Z.of_nat (length es) + 1 < 2 ^ 32 →
  ∃ r h' o', add_here h k v o = Ret (r, h', o') ∧ h'.(h_arraysize) = h.(h_arraysize) ∧
    (r = 0 ∧ holds h' ((k, v) :: others k es) ∧
       h'.(h_size) = (if decide (k ∈ es.*1) then h.(h_size) else u32 (h.(h_size) + 1)) ∨
     r = ENOMEM ∧ holds h' (others k es) ∧ h'.(h_size) = h.(h_size) ∧ o ≠ []) ∧
    (o = [] → o' = []).
Proof.
  intros Hh Hk Hlen. unfold add_here.
  destruct (holds_remove _ _ _ Hh Hk) as
    (l & l' & ys & removed & vals' & -> & Hc & Hrem & Hl' & Hvals & Hsame & Hys & Hout & Hfm & Hput).
  cbn [mbind res_bind]. rewrite Hc. cbn [mbind res_bind]. rewrite Hrem. cbn [mbind res_bind].
  rewrite Hvals. cbn [mbind res_bind h_vals h_size h_arraysize]. unfold kv_create.
  destruct (kmalloc o) as [ok o1] eqn:Eo. destruct ok; cbn [negb].
  2: { do 3 eexists. split; [done|]. split; [done|]. split; [right; by destruct o|by destruct o]. }
  pose proof (l_push_back_law _ _ (k, v) o1 Hl' ltac:(lia)) as Hpush.
  destruct (kmalloc o1) as [ok o2] eqn:Eo1. cbn [fst snd] in Hpush. destruct ok.
  - destruct Hpush as (l'' & -> & Hl''). cbn [mbind res_bind].
    destruct (Hput l'' v (match removed with None => u32 (h.(h_size) + 1) | Some _ => h.(h_size) end)
      Hl'') as (vals'' & -> & Hh'').
    cbn [mbind res_bind]. change (0 =? ENOMEM) with false. cbn [h_size].
    do 3 eexists. split; [done|]. split; [done|]. split; [left|].
    + split_and!; [done|done|]. cbn [h_size]. destruct removed as [e|].
      * destruct Hfm as [<- ?]. rewrite decide_True; [done|]. by apply list_elem_of_fmap_2.
      * by rewrite decide_False.
    + intros ->. by cbn in Eo; simplify_eq; cbn in Eo1; simplify_eq.
  - rewrite Hpush. cbn [mbind res_bind]. rewrite Hsame. cbn [mbind res_bind].
    change (ENOMEM =? ENOMEM) with true. cbn [h_size].
    do 3 eexists. split; [done|]. split; [done|].
    split; [right; split_and!; [done..|]|]; intros ->; cbn in Eo; simplify_eq; done.
Qed.

(** ** Arrays of lists *)

Lemma slots_prefix_lookup vals n bs j : slots (take n vals) bs → (j < n ≤ length vals)%nat →
  ∃ l xs, bs !! j = Some xs ∧ vals.[Z.of_nat j] = Ret (Some l) ∧ lrep l xs.
Proof.
  intros Hs Hj. pose proof (slots_length _ _ Hs) as Hl. rewrite length_take in Hl.
  destruct (slots_lookup _ _ (Z.of_nat j) Hs) as (l & xs & Hxs & Hr & Hrep); [lia|].
  exists l, xs. rewrite Nat2Z.id in Hxs. split_and!; [done| |done].
  apply rd_Ret in Hr as [? Hr]. apply lookup_take_Some in Hr as [Hr _]. by apply rd_lookup.
Qed.

Lemma destroy_lists_correct m vals j bs : slots (take (j + m) vals) bs →
  (j + m ≤ length vals)%nat → Z.of_nat (length vals) < 2 ^ 32 →
  destroy_lists m vals (Z.of_nat j) = Ret tt.
Proof.
  revert j. induction m as [|m IH]; intros j Hs Hm Hl; cbn [destroy_lists]; [done|].
  destruct (slots_prefix_lookup _ _ _ j Hs) as (l & xs & _ & -> & Hrep); [lia|].
  cbn [mbind res_bind deref]. rewrite (l_destroyed_law _ _ Hrep). cbn [mbind res_bind].
  rewrite u32_id by lia. replace (Z.of_nat j + 1) with (Z.of_nat (S j)) by lia.
  apply IH; [|lia|done]. by replace (S j + m)%nat with (j + S m)%nat by lia.
Qed.

Lemma cleanup_correct m vals j n : slots vals (replicate n []) →
  (j + m ≤ n)%nat → Z.of_nat n < 2 ^ 32 →
  cleanup_array_with_lists m vals (Z.of_nat j) = Ret tt.
Proof.
  revert j. induction m as [|m IH]; intros j Hs Hm Hl; cbn [cleanup_array_with_lists]; [done|].
  destruct (slots_lookup _ _ (Z.of_nat j) Hs) as (l & xs & Hxs & -> & Hrep);
    [rewrite length_replicate; lia|].
  apply lookup_replicate in Hxs as [-> _].
  cbn [mbind res_bind deref]. rewrite (l_isempty_law _ _ Hrep). cbn [mbind res_bind kassert].
  rewrite (l_destroyed_law _ _ Hrep). cbn [mbind res_bind].
  rewrite u32_id by lia. replace (Z.of_nat j + 1) with (Z.of_nat (S j)) by lia.
  apply IH; [done|lia|done].
Qed.

Lemma init_array_correct n vals i o : slots (take i vals) (replicate i []) →
  length vals = (i + n)%nat → Z.of_nat (length vals) < 2 ^ 32 →
  ∃ r vals' o', init_array_with_lists n vals (Z.of_nat i) o = Ret (r, vals', o') ∧
    (r = 0 ∧ slots vals' (replicate (i + n) []) ∨ r = ENOMEM) ∧
    (o = [] → r = 0 ∧ o' = []).
Proof.
  revert vals i o. induction n as [|n IH]; intros vals i o Hs Hlen Hlt;
    cbn [init_array_with_lists].
  { exists 0, vals, o. rewrite Nat.add_0_r in *. rewrite take_ge in Hs by lia. auto. }
  pose proof (l_create_law (A:=kv_pair) (Q:=hkey) (L:=L) o) as Hcr.
  destruct (kmalloc o) as [ok o1] eqn:Eo. cbn [fst snd] in Hcr. destruct ok.
  - destruct Hcr as (l & -> & Hl). rewrite wr_in_range by lia. cbn [mbind res_bind].
    rewrite Nat2Z.id, u32_id by lia. replace (Z.of_nat i + 1) with (Z.of_nat (S i)) by lia.
    destruct (IH (<[i := Some l]> vals) (S i) o1) as (r & vals' & o' & -> & Hr & Ho);
      [|rewrite length_insert; lia..|].
    + rewrite (take_S_r _ _ (Some l)) by (apply list_lookup_insert_eq; lia).
      rewrite take_insert_ge, replicate_S_end by lia. apply Forall2_app; [done|].
      constructor; [eauto|constructor].
    + exists r, vals', o'. rewrite <-Nat.add_succ_comm. split_and!; [done|done|].
      intros ->. cbn in Eo. simplify_eq. by apply Ho.
  - rewrite Hcr, wr_in_range by lia. cbn [mbind res_bind]. rewrite !Nat2Z.id.
    rewrite (destroy_lists_correct i _ 0 (replicate i [])).
    + do 3 eexists. split; [done|]. split; [by right|]. intros ->. by cbn in Eo.
    + by rewrite take_insert_ge by lia.
    + rewrite length_insert. lia.
    + rewrite length_insert. lia.
Qed.

Lemma new_slots_length n : 0 ≤ n < 2 ^ 30 → length (new_slots n) = Z.to_nat n.
Proof.
  intros. unfold new_slots, sizeof_list_ptr. rewrite length_replicate, u32_id by lia.
  by rewrite Z.div_mul by lia.
Qed.

(** A fresh array holds nothing. *)
Lemma init_holds newsize o : arraysize_ok newsize →
  ∃ r vals' o', init_array_with_lists (Z.to_nat newsize) (new_slots newsize) 0 o
      = Ret (r, vals', o') ∧
    (r = 0 ∧ holds (Hashtable 0 newsize vals') [] ∨ r = ENOMEM) ∧
    (o = [] → r = 0 ∧ o' = []).
Proof.
  intros Hok. pose proof Hok as [Hle (k & Hk)].
  assert (8 ≤ newsize) by (pose proof (Z.pow_pos_nonneg 2 (Z.of_nat k)); lia).
  destruct (init_array_correct (Z.to_nat newsize) (new_slots newsize) 0 o)
    as (r & vals' & o' & Heq & Hr & Ho);
    [by constructor|rewrite new_slots_length; lia..|].
  exists r, vals', o'. split; [done|]. split; [|done].
  destruct Hr as [[-> Hs]| -> ]; [left|by right]. split; [done|].
  split; [constructor|]. split; [done|]. exists (replicate (0 + Z.to_nat newsize) []).
  cbn [h_vals h_arraysize]. split_and!; [done|rewrite length_replicate; lia| |].
  - intros i xs [-> _]%lookup_replicate. constructor.
  - clear. by induction (0 + Z.to_nat newsize)%nat as [|m IHm].
Qed.

(** ** Moving bindings between arrays *)

(** The size field counts at least the bindings that are there. *)
Definition inv h (es : list kv_pair) : Prop :=
  holds h es ∧ Z.of_nat (length es) ≤ h.(h_size).

(** From [h] with the bindings [es], the bindings [ys] have been added one by
    one; failing allocations lose bindings, but nothing else happens. *)
Definition moved h (es ys : list kv_pair) (o : script) h' (es' : list kv_pair) (o' : script)
    : Prop :=
  inv h' es' ∧ h.(h_arraysize) ≤ h'.(h_arraysize) ∧ es' ⊆+ ys ++ es ∧
  h'.(h_size) ≤ h.(h_size) + Z.of_nat (length ys) ∧
  (o = [] → o' = [] ∧ es' ≡ₚ ys ++ es ∧
     (h.(h_size) = Z.of_nat (length es) → h'.(h_size) = Z.of_nat (length es'))).

Definition add_post h es k v o (r : Z) h' es' o' : Prop :=
  moved h (others k es) [(k, v)] o h' es' o' ∧
  (r = 0 ∧ (k, v) ∈ es' ∨ r = ENOMEM ∧ k ∉ es'.*1 ∧ o ≠ []) ∧
  (o = [] → h.(h_size) = Z.of_nat (length es) → h'.(h_size) = Z.of_nat (length es')).

(** What is asked of the [hashtable_add] that [rehash] calls: [B] bounds the
    size field, [a] the length of the array from below. *)
Definition add_spec (B a : Z) (add : adder) : Prop :=
  ∀ h es k v o, inv h es → valid k → h.(h_size) < B → a ≤ h.(h_arraysize) →
    ∃ r h' es' o', add h k v o = Ret (r, h', o') ∧ add_post h es k v o r h' es' o'.

Lemma moved_nil h es o : inv h es → moved h es [] o h es o.
Proof. intros. unfold moved. cbn. split_and!; try done; lia. Qed.

Lemma moved_trans h es ys o h1 es1 o1 zs h2 es2 o2 :
  moved h es ys o h1 es1 o1 → moved h1 es1 zs o1 h2 es2 o2 →
  moved h es (ys ++ zs) o h2 es2 o2.
Proof.
  intros (_ & Ha1 & Hs1 & Hz1 & Ho1) (Hi2 & Ha2 & Hs2 & Hz2 & Ho2).
  unfold moved. rewrite length_app. split_and!; [done|lia| |lia|].
  - rewrite (Permutation_app_comm ys zs), <-app_assoc. etrans; [exact Hs2|].
    by apply submseteq_skips_l.
  - intros ->. destruct (Ho1 eq_refl) as (-> & Hp1 & He1).
    destruct (Ho2 eq_refl) as (-> & Hp2 & He2). split_and!; [done| |auto].
    by rewrite Hp2, Hp1, (Permutation_app_comm ys zs), <-app_assoc.
Qed.

Lemma moved_NoDup h es ys o h1 es1 o1 zs : moved h es ys o h1 es1 o1 →
  NoDup ((ys ++ zs) ++ es).*1 → NoDup (zs ++ es1).*1.
Proof.
  intros (_ & _ & Hs & _). apply NoDup_submseteq_fst.
  rewrite (Permutation_app_comm ys zs), <-app_assoc. by apply submseteq_skips_l.
Qed.

Lemma add_spec_moved B a add h es k v o : add_spec B a add → inv h es → valid k →
  k ∉ es.*1 → h.(h_size) < B → a ≤ h.(h_arraysize) →
  ∃ r h' es' o', add h k v o = Ret (r, h', o') ∧ moved h es [(k, v)] o h' es' o'.
Proof.
  intros Hadd Hi Hk Hni Hb Ha. destruct (Hadd h es k v o) as (r & h' & es' & o' & ? & Hm & _);
    [done..|]. rewrite others_id in Hm by done. eauto 10.
Qed.

Lemma drain_correct B a add fuel h es l ys o : add_spec B a add → inv h es → lrep l ys →
  Forall (λ e : kv_pair, valid e.1) ys → NoDup (ys ++ es).*1 →
  h.(h_size) + Z.of_nat (length ys) ≤ B → a ≤ h.(h_arraysize) → (length ys < fuel)%nat →
  ∃ h' l' es' o', drain fuel add h l o = Ret (h', l', o') ∧ lrep l' [] ∧
    moved h es ys o h' es' o'.
Proof.
  intros Hadd. revert h es l ys o.
  induction fuel as [|fuel IH]; intros h es l ys o Hi Hl Hv Hnd Hb Ha Hf; [lia|].
  cbn [drain]. rewrite (l_front_law _ _ Hl). cbn [mbind res_bind].
  destruct ys as [|[k v] ys]; cbn [hd_error].
  { exists h, l, es, o. split_and!; [done|done|by apply moved_nil]. }
  apply Forall_cons in Hv as [Hk Hv]. cbn [length] in *.
  destruct (add_spec_moved B a add h es k v o) as (r & h1 & es1 & o1 & -> & Hm1);
    try done; [|lia|].
  { cbn in Hnd. apply NoDup_cons in Hnd as [Hnd _]. rewrite fmap_app in Hnd. set_solver. }
  cbn [mbind res_bind].
  destruct (l_pop_front_law _ _ Hl) as (l1 & -> & Hl1). cbn [mbind res_bind List.tl] in *.
  destruct (IH h1 es1 l1 ys o1) as (h' & l' & es' & o' & -> & Hl' & Hm2); try done.
  - by destruct Hm1.
  - by apply (moved_NoDup _ _ _ _ _ _ _ ys Hm1).
  - destruct Hm1 as (_ & _ & _ & Hz & _). cbn in Hz. lia.
  - destruct Hm1 as (_ & ? & _). lia.
  - lia.
  - exists h', l', es', o'. split_and!; [done|done|].
    by apply (moved_trans _ _ [(k, v)] _ _ _ _ ys _ _ _ Hm1).
Qed.

Lemma rehash_slot B a add n h es source i l xs o : add_spec B a add → inv h es →
  source.[Z.of_nat i] = Ret (Some l) → lrep l xs → Forall (λ e : kv_pair, valid e.1) xs →
  NoDup (xs ++ es).*1 → h.(h_size) + Z.of_nat (length xs) ≤ B → a ≤ h.(h_arraysize) →
  Z.of_nat i + 1 < 2 ^ 32 →
  ∃ h1 l1 es1 o1, rehash (S n) add h source (Z.of_nat i) o
    = (source ← source.[Z.of_nat i <- Some l1]; rehash n add h1 source (Z.of_nat (S i)) o1) ∧
    lrep l1 [] ∧ moved h es xs o h1 es1 o1.
Proof.
  intros Hadd Hi Hr Hl Hv Hnd Hb Ha Hlt. cbn [rehash]. unfold chain_at.
  rewrite Hr. cbn [mbind res_bind]. rewrite (l_getsize_law _ _ Hl), u32_id by lia.
  replace (Z.of_nat i + 1) with (Z.of_nat (S i)) by lia. case_cmp.
  - destruct (drain_correct B a add (S (Z.to_nat (Z.of_nat (length xs)))) h es l xs o)
      as (h1 & l1 & es1 & o1 & -> & Hl1 & Hm); [done..|lia|].
    exists h1, l1, es1, o1. cbn [mbind res_bind]. by rewrite (l_getsize_law _ _ Hl1).
  - destruct xs as [|x xs]; [|cbn in *; lia]. exists h, l, es, o.
    split_and!; [|done|by apply moved_nil].
    pose proof Hr as [? Hlk]%rd_Ret. pose proof (lookup_lt_Some _ _ _ Hlk).
    rewrite wr_in_range by lia. cbn [mbind res_bind]. by rewrite list_insert_id.
Qed.

(** The slots from [i] on are emptied into the table. *)
Lemma rehash_correct B a add n h es source bs i o : add_spec B a add → inv h es →
  slots source bs → (i + n)%nat = length bs → Z.of_nat (length bs) < 2 ^ 32 →
  take i bs = replicate i [] →
  Forall (λ e : kv_pair, valid e.1) (concat (drop i bs)) →
  NoDup (concat (drop i bs) ++ es).*1 →
  h.(h_size) + Z.of_nat (length (concat (drop i bs))) ≤ B → a ≤ h.(h_arraysize) →
  ∃ h' source' es' o', rehash n add h source (Z.of_nat i) o = Ret (h', source', o') ∧
    slots source' (replicate (length bs) []) ∧
    moved h es (concat (drop i bs)) o h' es' o'.
Proof.
  intros Hadd. revert h es source bs i o.
  induction n as [|n IH]; intros h es source bs i o Hi Hs Hn Hlt Htake Hv Hnd Hb Ha.
  { rewrite Nat.add_0_r in Hn. rewrite drop_ge by lia. rewrite take_ge in Htake by lia.
    rewrite <-Hn, <-Htake. exists h, source, es, o. split_and!; [done|done|by apply moved_nil]. }
  pose proof (slots_length _ _ Hs) as Hsl.
  destruct (slots_lookup _ _ (Z.of_nat i) Hs) as (l & xs & Hxs & Hr & Hl); [lia|].
  rewrite Nat2Z.id in Hxs. rewrite (drop_S _ _ _ Hxs) in *. cbn [concat] in *.
  apply Forall_app in Hv as [Hvx Hv]. rewrite length_app in Hb.
  destruct (rehash_slot B a add n h es source i l xs o)
    as (h1 & l1 & es1 & o1 & -> & Hl1 & Hm1); try done; [|lia|lia|].
  { rewrite <-app_assoc in Hnd. eapply NoDup_submseteq_fst; [|exact Hnd].
    apply submseteq_skips_l, submseteq_inserts_l. done. }
  rewrite wr_in_range, Nat2Z.id by lia. cbn [mbind res_bind].
  destruct (IH h1 es1 (<[i := Some l1]> source) (<[i := []]> bs) (S i) o1)
    as (h' & source' & es' & o' & -> & Hs' & Hm2);
    rewrite ?length_insert, ?drop_insert_lt in * by lia; try done; try lia.
  - by destruct Hm1.
  - by apply slots_insert.
  - rewrite (take_S_r _ _ []) by (apply list_lookup_insert_eq; lia).
    by rewrite take_insert_ge, Htake, replicate_S_end by lia.
  - by apply (moved_NoDup _ _ _ _ _ _ _ _ Hm1).
  - destruct Hm1 as (_ & _ & _ & Hz & _). lia.
  - destruct Hm1 as (_ & ? & _). lia.
  - exists h', source', es', o'. split_and!; [done|done|].
    by apply (moved_trans _ _ _ _ _ _ _ _ _ _ _ Hm1).
Qed.

(** [grow] and [shrink] keep the bindings. *)
Definition resized (newsize : Z) h es (o : script) h' es' (o' : script) : Prop :=
  inv h' es' ∧ es' ⊆+ es ∧ Z.min newsize h.(h_arraysize) ≤ h'.(h_arraysize) ∧
  h'.(h_size) ≤ h.(h_size) ∧
  (o = [] → o' = [] ∧ es' ≡ₚ es ∧
     (h.(h_size) = Z.of_nat (length es) → h'.(h_size) = Z.of_nat (length es'))).

Lemma resize_correct B add newsize h es o : add_spec B newsize add → inv h es →
  h.(h_size) < B → arraysize_ok newsize →
  ∃ r h' es' o', resize add newsize h o = Ret (r, h', o') ∧ resized newsize h es o h' es' o'.
Proof.
  intros Hadd [Hh Hsz] Hb Hok. unfold resize.
  assert (∀ o', o ≠ [] → resized newsize h es o h es o') as Hfail.
  { intros o' Ho. split_and!; try done; lia. }
  destruct (kmalloc o) as [ok o1] eqn:Eo. destruct ok; cbn [negb];
    [|do 4 eexists; split; [done|]; apply Hfail; intros ->; by cbn in Eo].
  destruct (init_holds newsize o1 Hok) as (r1 & vals & o2 & -> & Hr & Ho2). cbn [mbind res_bind].
  destruct Hr as [[-> Hnew]| ->]; cbn -[rehash];
    [|do 4 eexists; split; [done|]; apply Hfail; intros ->;
      cbn in Eo; simplify_eq; by destruct (Ho2 eq_refl)].
  destruct Hh as (Hnd & [Hlea (j & Hj)] & bs & Hs & Hlen & Hbk & Hp).
  assert (0 ≤ h.(h_arraysize)) by (pose proof (Z.pow_pos_nonneg 2 (Z.of_nat j)); lia).
  destruct (rehash_correct B newsize add (Z.to_nat h.(h_arraysize)) (Hashtable 0 newsize vals) []
    h.(h_vals) bs 0 o2) as (h' & source' & es' & o3 & Heq & Hs' & Hm);
    rewrite ?drop_0, ?app_nil_r, ?(Permutation_length Hp); try done; try lia.
  - rewrite Forall_forall. intros e He%list_elem_of_In.
    apply List.in_concat in He as (xs & (i & Hi)%list_elem_of_In%list_elem_of_lookup & He%list_elem_of_In).
    pose proof (Hbk _ _ Hi) as HF. rewrite Forall_forall in HF. by apply HF.
  - by rewrite Hp.
  - cbn. lia.
  - change (Z.of_nat 0) with 0 in Heq. rewrite Heq. cbn [mbind res_bind].
    rewrite (cleanup_correct _ _ 0 (length bs)) by (done || lia). cbn [mbind res_bind].
    destruct Hm as (Hi & Ha & Hsub & Hz & Ho). rewrite drop_0, app_nil_r in *.
    rewrite (Permutation_length Hp) in Hz. cbn in Ha, Hz.
    exists 0, h', es', o3. split; [done|]. split_and!; try done; try lia; [by rewrite <-Hp|].
    intros ->. cbn in Eo. simplify_eq. destruct (Ho2 eq_refl) as [_ ->].
    destruct (Ho eq_refl) as (-> & Hpe & He). split_and!; [done|by rewrite Hpe|].
    intros _. by apply He.
Qed.

(** ** hashtable_add *)

Lemma others_length k es : NoDup es.*1 →
  length es = (length (others k es) + if decide (k ∈ es.*1) then 1 else 0)%nat.
Proof.
  intros Hnd. induction es as [|e es IH]; [done|].
  cbn in Hnd. apply NoDup_cons in Hnd as [He Hnd]. rewrite others_cons.
  destruct (decide (e.1 = k)) as [<-|Hne].
  - rewrite others_id, decide_True by (done || set_solver). cbn. lia.
  - cbn. rewrite (IH Hnd). repeat case_decide; try lia; set_solver.
Qed.

Lemma others_mono k es1 es : es1 ⊆+ es → others k es1 ⊆+ others k es.
Proof.
  intros [x Hp]%submseteq_Permutation. rewrite Hp, others_app. apply submseteq_inserts_r. done.
Qed.

(** Adding after a possible [grow] that kept [es1]. *)
Lemma add_here_post h es h1 es1 k v o o1 : inv h es → inv h1 es1 → valid k → es1 ⊆+ es →
  h.(h_arraysize) ≤ h1.(h_arraysize) → h1.(h_size) ≤ h.(h_size) < 2 ^ 27 →
  (o = [] → o1 = [] ∧ es1 ≡ₚ es ∧
     (h.(h_size) = Z.of_nat (length es) → h1.(h_size) = Z.of_nat (length es1))) →
  ∃ r h' es' o', add_here h1 k v o1 = Ret (r, h', o') ∧ add_post h es k v o r h' es' o'.
Proof.
  intros [Hh Hsz] [Hh1 Hsz1] Hk Hsub Ha Hlt Ho.
  destruct (add_here_correct h1 es1 k v o1 Hh1 Hk ltac:(lia))
    as (r & h' & o' & Heq & Ha' & Hr & Ho').
  pose proof (others_length k es1 (holds_NoDup _ _ Hh1)) as Hlen1.
  pose proof (others_length k es (holds_NoDup _ _ Hh)) as Hlen.
  destruct Hr as [(-> & Hh' & Hsz')|(-> & Hh' & Hsz' & Hne)].
  - assert (h'.(h_size) = h1.(h_size) + Z.of_nat (S (length (others k es1))) - Z.of_nat (length es1))
      as Hsize.
    { rewrite Hsz'. destruct (decide (k ∈ es1.*1)); rewrite ?u32_id; lia. }
    assert (o = [] → h.(h_size) = Z.of_nat (length es) →
      h'.(h_size) = Z.of_nat (length ((k, v) :: others k es1))) as Hexact.
    { intros E1 E2. destruct (Ho E1) as (_ & _ & Hex). specialize (Hex E2). cbn [length]. lia. }
    assert (length (others k es1) ≤ length es1 ∧ length (others k es) ≤ length es)%nat as [].
    { repeat case_decide; lia. }
    exists 0, h', ((k, v) :: others k es1), o'. split; [done|]. split_and!; [|left; set_solver|done].
    split_and!; [split; [done|cbn [length]; lia]|lia| |cbn [length]; lia|].
    + cbn. by apply submseteq_skip, others_mono.
    + intros E. destruct (Ho E) as (-> & Hp & Hex). split_and!; [auto|by cbn; rewrite Hp|].
      intros E2. apply Hexact; [done|]. lia.
  - exists ENOMEM, h', (others k es1), o'. split; [done|].
    assert (o ≠ []) as Hone by (intros E; by destruct (Ho E) as [? _]).
    split_and!; [|right; split_and!; [done|apply others_not_in|done]|done].
    split_and!; [split; [done|lia]|lia| |cbn [length]; lia|done].
    cbn. by apply submseteq_cons, others_mono.
Qed.

Lemma arraysize_double n : arraysize_ok n → n ≤ 2 ^ 28 → arraysize_ok (n * 2).
Proof.
  intros [_ (k & ->)] Hn. split; [lia|]. exists (S k).
  rewrite Nat2Z.inj_succ, Z.pow_succ_r by lia. lia.
Qed.

Lemma arraysize_half n : arraysize_ok n → MIN_SIZE < n → arraysize_ok (n / 2).
Proof.
  intros [Hle ([|k] & ->)] Hn; [unfold MIN_SIZE in Hn; cbn in Hn; lia|].
  rewrite Nat2Z.inj_succ, Z.pow_succ_r by lia.
  replace (8 * (2 * 2 ^ Z.of_nat k)) with (8 * 2 ^ Z.of_nat k * 2) by lia.
  rewrite Z.div_mul by lia. split; [|by exists k].
  rewrite Nat2Z.inj_succ, Z.pow_succ_r in Hle by lia. lia.
Qed.

Lemma arraysize_min n : arraysize_ok n → 8 ≤ n.
Proof. intros [_ (k & ->)]. pose proof (Z.pow_pos_nonneg 2 (Z.of_nat k)). lia. Qed.

Lemma add_depth_spec depth B a : B ≤ 2 ^ 27 → 0 < a → 2 * B ≤ a * 2 ^ Z.of_nat depth →
  add_spec B a (add_depth depth).
Proof.
  intros HB. revert a. induction depth as [|depth IH]; intros a Ha Hd h es k v o Hi Hk Hb Hah;
    pose proof Hi as [Hh Hsz]; pose proof Hh as (_ & Hok & _);
    pose proof (arraysize_min _ Hok); cbn [add_depth]; unfold LF_MULTIPLE;
    rewrite !u32_id by (rewrite ?u32_id; lia).
  - case_cmp; [lia|]. cbn [mbind res_bind].
    apply add_here_post with es; try done; lia.
  - case_cmp; cbn [mbind res_bind]; [|apply add_here_post with es; try done; lia].
    unfold grow. rewrite u32_id by lia.
    destruct (resize_correct B (add_depth depth) (h.(h_arraysize) * 2) h es o)
      as (r & h1 & es1 & o1 & -> & Hi1 & Hs1 & Ha1 & Hz1 & Ho1); try done.
    + apply IH; [lia|]. rewrite Nat2Z.inj_succ, Z.pow_succ_r in Hd by lia. nia.
    + apply arraysize_double; [done|lia].
    + cbn [mbind res_bind]. apply add_here_post with es1; try done; lia.
Qed.

Lemma hashtable_add_spec B : B ≤ 2 ^ 27 → add_spec B MIN_SIZE hashtable_add.
Proof.
  intros. apply add_depth_spec; [done|done|]. unfold add_fuel, MIN_SIZE.
  change (Z.of_nat 32) with 32. lia.
Qed.

(** ** hashtable_remove and hashtable_create *)

(** The last step of [hashtable_remove]. *)
Definition freeing {K} {KM : KeyMem V K} (r : option V) h (mem : K) (o : script)
    : res (option V * hashtable * K * script) :=
  match r with
  | None => Ret (None, h, mem, o)
  | Some v => mem ← kfree_key v mem; Ret (Some v, h, mem, o)
  end.

Lemma remove_inv {K} {KM : KeyMem V K} h es k (mem : K) o : inv h es → valid k → h.(h_size) < 2 ^ 27 →
  ∃ r h' es' o', hashtable_remove h k mem o = freeing r h' mem o' ∧ inv h' es' ∧
    es' ⊆+ others k es ∧ h'.(h_size) ≤ h.(h_size) ∧
    match r with Some v => (k, v) ∈ es | None => k ∉ es.*1 end ∧
    (o = [] → o' = [] ∧ es' ≡ₚ others k es ∧
       (h.(h_size) = Z.of_nat (length es) → h'.(h_size) = Z.of_nat (length es'))).
Proof.
  intros [Hh Hsz] Hk Hlt. unfold hashtable_remove.
  destruct (holds_remove _ _ _ Hh Hk) as
    (l & l' & ys & removed & vals' & -> & Hc & Hrem & Hl' & Hvals & Hsame & Hys & Hout & Hfm & _).
  cbn [mbind res_bind]. rewrite Hc. cbn [mbind res_bind]. rewrite Hrem. cbn [mbind res_bind].
  rewrite Hvals. cbn [mbind res_bind h_vals h_size h_arraysize].
  pose proof (others_length k es (holds_NoDup _ _ Hh)) as Hlen.
  destruct removed as [[k' v]|].
  - destruct Hfm as [Hkk Hin]. cbn in Hkk. subst k'.
    assert (k ∈ es.*1) as Hke by (by apply (list_elem_of_fmap_2 fst _ _ Hin)).
    rewrite decide_True in Hlen by done. rewrite (u32_id (h.(h_size) - 1)) by lia.
    pose proof (Hout (h.(h_size) - 1)) as Hh1. set (h1 := Hashtable _ _ _) in *.
    assert (inv h1 (others k es)) as Hi1 by (split; [done|cbn; lia]).
    case_match eqn:Eif.
    + apply andb_true_iff in Eif as [Hmin%Z.gtb_lt _]. unfold shrink.
      change (h1.(h_arraysize)) with h.(h_arraysize) in *.
      pose proof (arraysize_half h.(h_arraysize) ltac:(by destruct Hh as (_ & ? & _)) Hmin) as Hok.
      destruct (resize_correct (2 ^ 27) hashtable_add (h.(h_arraysize) / 2) h1 (others k es) o)
        as (r & h' & es' & o' & -> & Hi' & Hs' & _ & Hz' & Ho'); try done.
      * intros h0 es0 k0 v0 o0 ? ? ? ?. apply (hashtable_add_spec (2 ^ 27)); try done.
        pose proof (arraysize_min _ Hok). unfold MIN_SIZE. lia.
      * cbn. lia.
      * cbn [mbind res_bind]. exists (Some v), h', es', o'. cbn in Hz', Ho'.
        split_and!; try done; [lia|]. intros E. destruct (Ho' E) as (? & ? & Hex).
        split_and!; try done. intros E2. apply Hex. lia.
    + exists (Some v), h1, (others k es), o. split_and!; try done; [cbn; lia|].
      intros ->. split_and!; try done. cbn. lia.
  - rewrite decide_False in Hlen by done.
    exists None, (Hashtable h.(h_size) h.(h_arraysize) vals'), (others k es), o.
    split_and!; try done; [split; [done|cbn; lia]|]. intros ->. split_and!; try done. cbn. lia.
Qed.

Lemma create_inv o :
  ∃ r o', hashtable_create o = Ret (r, o') ∧
    match r with Some h => inv h [] ∧ h.(h_size) = 0 | None => o ≠ [] end ∧
    (o = [] → o' = []).
Proof.
  unfold hashtable_create. destruct (kmalloc o) as [ok o1] eqn:E1. destruct ok; cbn [negb].
  2: { do 2 eexists. split; [done|]. by destruct o. }
  destruct (kmalloc o1) as [ok o2] eqn:E2. destruct ok; cbn [negb].
  2: { do 2 eexists. split; [done|]. by destruct o as [|[] o]; cbn in E1; simplify_eq; cbn in E2. }
  assert (arraysize_ok MIN_SIZE) as Hok by (split; [done|by exists 0%nat]).
  destruct (init_holds MIN_SIZE o2 Hok) as (r & vals & o3 & -> & Hr & Ho). cbn [mbind res_bind].
  assert (o = [] → o2 = []) as Ho2 by (intros ->; cbn in E1; simplify_eq; cbn in E2; by simplify_eq).
  destruct Hr as [[-> Hh]| ->]; cbn; do 2 eexists; (split; [done|]).
  - split; [|naive_solver]. split; [|done]. by split.
  - split; [|naive_solver]. intros E. by destruct (Ho (Ho2 E)).
Qed.

(** ** Finite maps *)

(** The table stands for a finite map. *)
Definition represents h (m : gmap hkey V) : Prop :=
  ∃ es, inv h es ∧ m = list_to_map es ∧ h.(h_size) = Z.of_nat (size m).

Lemma size_list_to_map (es : list kv_pair) : NoDup es.*1 →
  size (list_to_map es : gmap hkey V) = length es.
Proof.
  intros Hnd. induction es as [|[k v] es IH]; cbn; [done|].
  cbn in Hnd. apply NoDup_cons in Hnd as [Hk Hnd].
  rewrite map_size_insert_None by by apply not_elem_of_list_to_map. by rewrite IH.
Qed.

Lemma lookup_list_to_map (es : list kv_pair) k v : NoDup es.*1 →
  (list_to_map es : gmap hkey V) !! k = Some v ↔ (k, v) ∈ es.
Proof. intros. symmetry. by apply elem_of_list_to_map. Qed.

Lemma list_to_map_others k es : NoDup es.*1 →
  (list_to_map (others k es) : gmap hkey V) = delete k (list_to_map es).
Proof.
  intros Hnd. induction es as [|[k' v] es IH]; cbn; [by rewrite delete_empty|].
  cbn in Hnd. apply NoDup_cons in Hnd as [Hk Hnd]. rewrite others_cons. cbn.
  case_decide; subst.
  - rewrite delete_insert_eq. by apply IH.
  - cbn. rewrite delete_insert_ne by done. by rewrite IH.
Qed.

Lemma list_to_map_submseteq (es1 es : list kv_pair) : es1 ⊆+ es → NoDup es.*1 →
  (list_to_map es1 : gmap hkey V) ⊆ list_to_map es.
Proof.
  intros Hs Hnd. apply map_subseteq_spec. intros k v.
  pose proof (NoDup_submseteq_fst _ _ Hs Hnd).
  rewrite !lookup_list_to_map by done. intros. by eapply elem_of_submseteq.
Qed.

Lemma table_find_correct h m k : represents h m → valid k → hashtable_find h k = Ret (m !! k).
Proof.
  intros (es & [Hh _] & -> & _) Hk. pose proof (holds_NoDup _ _ Hh).
  destruct (find_holds h es k Hh Hk) as (r & -> & Hr). f_equal. symmetry. destruct r as [v|].
  - by apply lookup_list_to_map.
  - by apply not_elem_of_list_to_map.
Qed.

Lemma represents_exact h m es : inv h es → m = list_to_map es →
  h.(h_size) = Z.of_nat (length es) → represents h m.
Proof.
  intros Hi -> Hsz. exists es. split_and!; [done..|].
  by rewrite size_list_to_map by apply (holds_NoDup _ _ (proj1 Hi)).
Qed.

Lemma table_add_correct h m k v : represents h m → valid k → Z.of_nat (size m) < 2 ^ 27 →
  ∃ h', hashtable_add h k v [] = Ret (0, h', []) ∧ represents h' (<[k := v]> m).
Proof.
  intros (es & Hi & -> & Hsz) Hk Hlt. pose proof (holds_NoDup _ _ (proj1 Hi)) as Hnd.
  pose proof (arraysize_min _ (proj1 (proj2 (proj1 Hi)))).
  destruct (hashtable_add_spec (2 ^ 27) ltac:(done) h es k v [])
    as (r & h' & es' & o' & -> & (Hi' & _ & _ & _ & Hex) & Hr & Hsize); [done..|lia|done|].
  destruct (Hex eq_refl) as (-> & Hp & _).
  destruct Hr as [[-> _]|(_ & _ & ?)]; [|done].
  exists h'. split; [done|]. apply (represents_exact _ _ es'); [done| |].
  - rewrite (list_to_map_proper _ _ (holds_NoDup _ _ (proj1 Hi')) Hp). cbn.
    by rewrite list_to_map_others, insert_delete_eq by done.
  - apply Hsize; [done|]. by rewrite Hsz, size_list_to_map.
Qed.

Lemma table_remove_correct {K} {KM : KeyMem V K} h m k (mem : K) : represents h m → valid k → Z.of_nat (size m) < 2 ^ 27 →
  ∃ h', hashtable_remove h k mem [] = freeing (m !! k) h' mem [] ∧ represents h' (delete k m).
Proof.
  intros (es & Hi & -> & Hsz) Hk Hlt. pose proof (holds_NoDup _ _ (proj1 Hi)) as Hnd.
  rewrite size_list_to_map in Hsz, Hlt by done.
  destruct (remove_inv h es k mem [] Hi Hk ltac:(lia))
    as (r & h' & es' & o' & -> & Hi' & _ & _ & Hr & Hex).
  destruct (Hex eq_refl) as (-> & Hp & Hsize).
  exists h'. split.
  - f_equal. symmetry. destruct r as [v|]; [by apply lookup_list_to_map|].
    by apply not_elem_of_list_to_map.
  - apply (represents_exact _ _ es'); [done| |auto].
    rewrite (list_to_map_proper _ _ (holds_NoDup _ _ (proj1 Hi')) Hp).
    by rewrite list_to_map_others.
Qed.

(** The same with any allocation outcomes, as far as it goes. *)
Lemma add_oom h m k v o es : inv h es → m = list_to_map es → valid k → h.(h_size) < 2 ^ 27 →
  ∃ r h' o' es', hashtable_add h k v o = Ret (r, h', o') ∧ inv h' es' ∧
    (list_to_map es' : gmap hkey V) ⊆ <[k := v]> m ∧
    (r = 0 ∧ (list_to_map es' : gmap hkey V) !! k = Some v ∨
     r = ENOMEM ∧ (list_to_map es' : gmap hkey V) !! k = None).
Proof.
  intros Hi -> Hk Hlt. pose proof (holds_NoDup _ _ (proj1 Hi)) as Hnd.
  pose proof (arraysize_min _ (proj1 (proj2 (proj1 Hi)))).
  destruct (hashtable_add_spec (2 ^ 27) ltac:(done) h es k v o)
    as (r & h' & es' & o' & -> & (Hi' & _ & Hs & _ & _) & Hr & _); [done..|].
  exists r, h', o', es'. pose proof (holds_NoDup _ _ (proj1 Hi')).
  split_and!; [done|done| |].
  - rewrite <-insert_delete_eq, <-list_to_map_others by done.
    apply (list_to_map_submseteq es' ((k, v) :: others k es)); [done|by apply others_NoDup].
  - destruct Hr as [[-> ?]|(-> & ? & _)]; [left|right]; split; try done.
    + by apply lookup_list_to_map.
    + by apply not_elem_of_list_to_map.
Qed.

End Hashtable.
Arguments hashtable : clear implicits.

(** ** Keys made from integers (int_to_byte_string) *)

Definition sizeof_int : Z := 4.

Fixpoint byte_string_loop (fuel : nat) (cond : bool) (input : Z) (digits : list Z)
    (digitcount : Z) : res (list Z * Z) :=
  match fuel with
  | O => Diverge
  | S fuel' =>
      if cond && (digitcount <? sizeof_int + 2) then
        digits ← digits.[digitcount <-
          u8 (Z.lor (i32 (Z.shiftl (Z.rem input 128) 1)) 1)];
        let input := Z.quot input 128 in
        byte_string_loop fuel' (negb (input =? 0)) input digits (u32 (digitcount + 1))
      else Ret (digits, digitcount)
  end.

(** The loop runs at most [sizeof(int) + 2] times. *)
Definition byte_string_fuel : nat := 7.

Definition int_to_byte_string_nomalloc (input : Z) (digits : option (list Z))
    : res (option (list Z)) :=
  match digits with
  | None => Ret None
  | Some digits =>
      '(digits, digitcount) ← byte_string_loop byte_string_fuel true input digits 0;
      digits ← digits.[digitcount <- 0];
      Ret (Some digits)
  end.

Definition int_to_byte_string (input : Z) (o : script) : res (option (list Z) * script) :=
  let '(ok, o) := kmalloc o in
  r ← int_to_byte_string_nomalloc input
        (if ok then Some (replicate (Z.to_nat (sizeof_int + 2)) 0) else None);
  Ret (r, o).

(** The integer a byte string stands for. *)
Fixpoint byte_string_value (s : list Z) : Z :=
  match s with [] => 0 | c :: s' => c / 2 + 128 * byte_string_value s' end.

Lemma byte_digit x : 0 ≤ x < 128 → u8 (Z.lor (i32 (Z.shiftl x 1)) 1) = 2 * x + 1.
Proof.
  intros Hx. rewrite Z.shiftl_mul_pow2, i32_id by lia.
  replace (Z.lor (x * 2 ^ 1) 1) with (2 * x + 1); [by rewrite u8_id by lia|].
  change (2 ^ 1) with 2. rewrite (Z.mul_comm x 2). destruct x; [done|done|lia].
Qed.

Lemma byte_string_loop_correct k fuel input b n : (1 ≤ k < fuel)%nat →
  0 ≤ input < 128 ^ Z.of_nat k → (n + k < 6)%nat → length b = 6%nat →
  ∃ s b', byte_string_loop fuel true input b (Z.of_nat n) = Ret (b', Z.of_nat (n + length s)) ∧
    s ≠ [] ∧ (length s ≤ k)%nat ∧ length b' = length b ∧ take n b' = take n b ∧
    take (length s) (drop n b') = s ∧ Forall (λ c, 0 < c < 256) s ∧ byte_string_value s = input.
Proof.
  revert k input b n. induction fuel as [|fuel IH]; intros k input b n Hk Hin Hn Hb; [lia|].
  cbn [byte_string_loop andb]. unfold sizeof_int. destruct (Z.ltb_spec (Z.of_nat n) (4 + 2)); [|lia].
  rewrite wr_in_range, Nat2Z.id by lia. cbn [mbind res_bind].
  rewrite Z.quot_div_nonneg, Z.rem_mod_nonneg, u32_id by lia.
  pose proof (Z.mod_pos_bound input 128 ltac:(lia)). pose proof (Z.div_mod input 128 ltac:(lia)).
  rewrite byte_digit by lia. set (c := 2 * (input mod 128) + 1).
  assert (c / 2 = input mod 128) as Hc by (subst c; zdiv_lia).
  assert (take 1 (drop n (<[n := c]> b)) = [c]) as Hone.
  { rewrite (drop_S _ c) by (apply list_lookup_insert_eq; lia). done. }
  replace (Z.of_nat n + 1) with (Z.of_nat (S n)) by lia.
  destruct (Z.eqb_spec (input / 128) 0) as [Hz|Hnz]; cbn [negb].
  - destruct fuel; [lia|]. cbn [byte_string_loop andb].
    exists [c], (<[n := c]> b). cbn [length].
    split_and!; [do 3 f_equal; lia|done|lia|apply length_insert|by rewrite take_insert_ge
      |done|constructor; [lia|constructor]|cbn; lia].
  - destruct k as [|[|k]]; [lia| |].
    { change (128 ^ Z.of_nat 1) with 128 in Hin. rewrite Z.div_small in Hnz by lia. done. }
    destruct (IH (S k) (input / 128) (<[n := c]> b) (S n))
      as (s & b' & -> & Hs & Hlen & Hb' & Ht & Hd & HF & Hv); rewrite ?length_insert in *; try lia.
    { split; [apply Z.div_pos; lia|]. apply Z.div_lt_upper_bound; [lia|].
      rewrite <-Z.pow_succ_r, <-Nat2Z.inj_succ by lia. lia. }
    exists (c :: s), b'. cbn [length]. split_and!; [do 3 f_equal; lia|done|lia|lia| | | |].
      apply (f_equal (take n)) in Ht. rewrite !take_take, Nat.min_l in Ht by lia.
      by rewrite take_insert_ge in Ht by lia.
    + assert (b' !! n = Some c) as Hbn.
      { rewrite <-(lookup_take_lt b' (S n) n), Ht, lookup_take_lt by lia.
        apply list_lookup_insert_eq. lia. }
      rewrite (drop_S _ _ _ Hbn). cbn. by rewrite Hd.
    + constructor; [lia|done].
    + cbn. lia.
Qed.

Lemma int_to_byte_string_correct input : 0 ≤ input < 2 ^ 31 →
  ∃ s rest, int_to_byte_string input [] = Ret (Some (s ++ 0 :: rest), []) ∧
    s ≠ [] ∧ (length s ≤ 5)%nat ∧ Forall (λ c, 0 < c < 256) s ∧ byte_string_value s = input.
Proof.
  intros Hin. unfold int_to_byte_string, int_to_byte_string_nomalloc. cbn [kmalloc].
  destruct (byte_string_loop_correct 5 byte_string_fuel input
    (replicate (Z.to_nat (sizeof_int + 2)) 0) 0) as (s & b' & Heq & Hs & Hlen & Hb' & _ & Hd & HF & Hv);
    [unfold byte_string_fuel; lia|change (128 ^ Z.of_nat 5) with 34359738368; lia|lia|done|].
  change (Z.of_nat 0) with 0 in Heq. rewrite Heq. cbn [mbind res_bind].
  change (length (replicate (Z.to_nat (sizeof_int + 2)) 0)) with 6%nat in Hb'.
  rewrite wr_in_range by lia. cbn [mbind res_bind Nat.add].
  rewrite Nat2Z.id. rewrite drop_0 in Hd.
  exists s, (drop (S (length s)) b'). split_and!; try done.
  rewrite insert_take_drop, Hd by lia. done.
Qed.


(** ** Clients that own their keys

    A key is a block of the kernel's heap; the table keeps its address with the value.
    The memory is the set of blocks that are allocated; to free anything else ends in
    an assertion of [kfree], or spoils its lists. *)

#[global] Instance key_blocks {W} : KeyMem (Z * W) (gset Z) := λ v mem,
  if v.1 =? 0 then Ret mem else if decide (v.1 ∈ mem) then Ret (mem ∖ {[v.1]}) else Undef.

Section Clients.
Context {W L : Type} `{LL : ListLaws (hkey * (Z * W)) hkey L}.
#[local] Notation table := (@hashtable L).

(** The value without the address. *)
Definition value (r : option (Z * W)) : option W := snd <$> r.

(** Client histories; [p] is the address of the key that is added. *)
Inductive request := Add (k : hkey) (p : Z) (w : W) | Remove (k : hkey) | Find (k : hkey).

Fixpoint run (h : table) (mem : gset Z) (rs : list request) : res (list (option W) * table * gset Z) :=
  match rs with
  | [] => Ret ([], h, mem)
  | Add k p w :: rs' => '(_, h, _) ← hashtable_add h k (p, w) []; run h mem rs'
  | Remove k :: rs' =>
      '(r, h, mem, _) ← hashtable_remove h k mem [];
      '(out, h, mem) ← run h mem rs';
      Ret (value r :: out, h, mem)
  | Find k :: rs' =>
      r ← hashtable_find h k;
      '(out, h, mem) ← run h mem rs';
      Ret (value r :: out, h, mem)
  end.

(** A finite map of keys with their addresses and values, and the blocks. *)
Fixpoint map_run (m : gmap hkey (Z * W)) (mem : gset Z) (rs : list request) : list (option W) * gmap hkey (Z * W) * gset Z :=
  match rs with
  | [] => ([], m, mem)
  | Add k p w :: rs' => map_run (<[k := (p, w)]> m) mem rs'
  | Remove k :: rs' =>
      let '(out, m', mem') := map_run (delete k m) (match m !! k with Some (p, _) => mem ∖ {[p]} | None => mem end) rs' in
      (value (m !! k) :: out, m', mem')
  | Find k :: rs' => let '(out, m', mem') := map_run m mem rs' in (value (m !! k) :: out, m', mem')
  end.

(** The keys that the table holds are blocks, each held once. *)
Definition owns_keys (m : gmap hkey (Z * W)) (mem : gset Z) : Prop :=
  (∀ k p w, m !! k = Some (p, w) → p ∈ mem) ∧
  ∀ k k' p w w', m !! k = Some (p, w) → m !! k' = Some (p, w') → k = k'.

(** What the table asks of its clients: keys are strings, and one that is added is a
    block that the table does not hold under another key. *)
Fixpoint well_behaved (m : gmap hkey (Z * W)) (mem : gset Z) (rs : list request) : Prop :=
  match rs with
  | [] => True
  | Add k p w :: rs' =>
      valid k ∧ p ∈ mem ∧ (∀ k' w', m !! k' = Some (p, w') → k' = k) ∧ well_behaved (<[k := (p, w)]> m) mem rs'
  | Remove k :: rs' =>
      valid k ∧ well_behaved (delete k m) (match m !! k with Some (p, _) => mem ∖ {[p]} | None => mem end) rs'
  | Find k :: rs' => valid k ∧ well_behaved m mem rs'
  end.

Lemma owns_add m mem k p w : owns_keys m mem → p ∈ mem → (∀ k' w', m !! k' = Some (p, w') → k' = k) → owns_keys (<[k := (p, w)]> m) mem.
Proof.
  intros [O1 O2] Hp Hk. split.
  - intros k' p' w' [[<- [= <- <-]]|[_ ?]]%lookup_insert_Some; [done|eauto].
  - intros k1 k2 q w1 w2 H1 H2. rewrite lookup_insert_Some in H1, H2. naive_solver.
Qed.

Lemma owns_remove m mem k : owns_keys m mem → owns_keys (delete k m) (match m !! k with Some (p, _) => mem ∖ {[p]} | None => mem end).
Proof.
  intros [O1 O2]. split.
  - intros k' p w [Hne Hk']%lookup_delete_Some. destruct (m !! k) as [[q x]|] eqn:E; [|eauto].
    apply elem_of_difference. split; [eauto|]. intros ->%elem_of_singleton. naive_solver.
  - intros k1 k2 p w w' [_ H1]%lookup_delete_Some [_ H2]%lookup_delete_Some. eauto.
Qed.

Lemma freeing_owned m mem k (h : table) : owns_keys m mem → 0 ∉ mem →
  freeing (m !! k) h mem [] = Ret (m !! k, h, match m !! k with Some (p, _) => mem ∖ {[p]} | None => mem end, []).
Proof.
  intros [O1 _] H0. destruct (m !! k) as [[p w]|] eqn:E; [|done]. cbn. unfold kfree_key, key_blocks. cbn. pose proof (O1 _ _ _ E) as Hp.
  rewrite (proj2 (Z.eqb_neq p 0)) by (intros ->; done). by rewrite decide_True by done.
Qed.

Lemma table_run_correct rs h m mem : represents h m → owns_keys m mem → 0 ∉ mem → well_behaved m mem rs →
  Z.of_nat (size m + length rs) < 2 ^ 27 →
  let '(out, m', mem') := map_run m mem rs in ∃ h', run h mem rs = Ret (out, h', mem') ∧ represents h' m' ∧ owns_keys m' mem'.
Proof.
  revert h m mem. induction rs as [|r rs IH]; intros h m mem Hr Ho H0 Hw Hlt; cbn [run map_run]; [eauto|].
  cbn [length] in Hlt. destruct r as [k p w|k|k]; cbn [well_behaved] in Hw; destruct Hw as [Hk Hw].
  - destruct Hw as (Hp & Hpk & Hw). destruct (table_add_correct h m k (p, w) Hr Hk ltac:(lia)) as (h1 & -> & Hr1). cbn [mbind res_bind].
    apply IH; [done|by apply owns_add|done..|]. rewrite map_size_insert. destruct (m !! k); cbn; lia.
  - destruct (table_remove_correct h m k mem Hr Hk ltac:(lia)) as (h1 & -> & Hr1). rewrite (freeing_owned _ _ _ _ Ho H0). cbn [mbind res_bind].
    pose proof (owns_remove m mem k Ho) as Ho1. set (mem1 := match m !! k with Some _ => _ | None => _ end) in *.
    assert (0 ∉ mem1) as H1 by (unfold mem1; destruct (m !! k) as [[]|]; set_solver).
    specialize (IH h1 (delete k m) mem1 Hr1 Ho1 H1 Hw). destruct (map_run (delete k m) mem1 rs) as [[out m'] mem'].
    destruct IH as (h' & -> & Hr'); [rewrite map_size_delete; destruct (m !! k); cbn; lia|]. cbn. eauto.
  - rewrite (table_find_correct h m k Hr Hk). cbn [mbind res_bind].
    specialize (IH h m mem Hr Ho H0 Hw). destruct (map_run m mem rs) as [[out m'] mem'].
    destruct IH as (h' & -> & Hr'); [lia|]. cbn. eauto.
Qed.

End Clients.

(** ** Properties, over the linked lists of the kernel *)

Import LinkedLists.

Notation table V := (hashtable (llist (hkey * V))).

Lemma create_represents V :
  ∃ h, hashtable_create [] = Ret (Some h : option (table V), []) ∧ represents h (∅ : gmap hkey V).
Proof.
  destruct (create_inv (V := V) (L := llist (hkey * V)) []) as ([h|] & o' & -> & Hh & Ho); [|done].
  rewrite (Ho eq_refl). exists h. split; [done|]. destruct Hh as [Hi Hs].
  by apply (represents_exact _ _ []).
Qed.

(** C1: As long as memory lasts and every key that is added is a block of the kernel's heap that
    the table does not hold already, a new table answers every sequence of fewer than 2^27
    additions, removals and look-ups as a finite map does, through all the growing, shrinking and
    rehashing in between; the keys of the bindings that it has are allocated, and of the
    others exactly those of removed bindings have been freed. *)
Theorem hashtable_refines_map {W} (mem : gset Z) (rs : list (@request W)) :
  0 ∉ mem → well_behaved ∅ mem rs → Z.of_nat (length rs) < 2 ^ 27 →
  let '(out, m', mem') := map_run ∅ mem rs in
  ∃ h h', hashtable_create [] = Ret (Some h : option (table (Z * W)), []) ∧
    run h mem rs = Ret (out, h', mem') ∧ represents h' m' ∧ owns_keys m' mem'.
Proof.
  intros H0 Hw Hl. destruct (create_represents (Z * W)) as (h & Hc & Hh).
  assert (owns_keys (∅ : gmap hkey (Z * W)) mem) as Ho by (split; intros *; by rewrite lookup_empty).
  pose proof (table_run_correct rs h ∅ mem Hh Ho H0 Hw) as Hrun. destruct (map_run ∅ mem rs) as [[out m'] mem'].
  destruct Hrun as (h' & Hr & Hh' & Ho'); [by rewrite map_size_empty|]. eauto 10.
Qed.

Lemma hashtable_refines_map_witness :
  ∃ h h', hashtable_create [] = Ret (Some h : option (table (Z * Z)), []) ∧
    run h {[100; 200]} [Add (HKey [97; 0] 1) 100 7; Find (HKey [98; 0] 1); Add (HKey [97; 0] 1) 200 8;
           Remove (HKey [97; 0] 1)] = Ret ([None; Some 8], h', {[100]}) ∧ represents h' ∅ ∧ owns_keys (W:=Z) ∅ {[100]}.
Proof.
  assert (∀ c, 0 < c < 256 → valid (HKey [c; 0] 1)) as Hv.
  { intros c Hc. split_and!; cbn; [|lia..]. exists [c]. split; [done|]. constructor; [done|constructor]. }
  set (rs := [Add _ _ _; _; _; _]).
  assert (map_run ∅ {[100; 200]} rs = ([None; Some 8], ∅, {[100]})) as E by (vm_compute; reflexivity).
  pose proof (hashtable_refines_map {[100; 200]} rs) as H. rewrite E in H. apply H; [set_solver| |done].
  cbn [well_behaved rs]. split_and!; try (apply Hv; lia); [set_solver|by intros ? ?; rewrite lookup_empty|set_solver| |done].
  intros k' w'. rewrite insert_empty. by intros [<- _]%lookup_singleton_Some.
Defined.

(** A key that is not a block of the heap, such as an array on the stack, cannot be
    removed: the table frees it. *)
Theorem hashtable_remove_frees_key :
  let k := HKey [97; 0] 1 in
  ('(_, h, _) ← hashtable_add (Hashtable 0 8 (replicate 8 (Some (LList ∅ None None 0))) : table (Z * Z)) k (100, 5) [];
   hashtable_remove h k (∅ : gset Z) []) = Undef.
Proof. by vm_compute. Qed.

(** Whatever allocations fail, [hashtable_add] returns, leaves a
    consistent table, never invents a binding, and binds the key when it reports
    success; when it reports [ENOMEM] the key is unbound, so a binding it had
    before the call is lost. *)
Theorem hashtable_add_any_memory {V} (h : table V) es k v o :
  inv h es → valid k → h.(h_size) < 2 ^ 27 →
  ∃ r h' o' es', hashtable_add h k v o = Ret (r, h', o') ∧ inv h' es' ∧
    (list_to_map es' : gmap hkey V) ⊆ <[k := v]> (list_to_map es) ∧
    (r = 0 ∧ (list_to_map es' : gmap hkey V) !! k = Some v ∨
     r = ENOMEM ∧ (list_to_map es' : gmap hkey V) !! k = None).
Proof. intros. by apply (add_oom h (list_to_map es) k v o es). Qed.

(** An empty table, as [hashtable_create] makes it. *)
Definition empty_table V : table V := Hashtable 0 8 (replicate 8 (Some (LList ∅ None None 0))).

Lemma empty_table_inv V : inv (empty_table V) [].
Proof.
  destruct (create_inv (V := V) (L := llist (hkey * V)) []) as (r & o' & Hc & Hh & _).
  assert (hashtable_create [] = Ret (Some (empty_table V), [])) as E by by vm_compute.
  rewrite E in Hc. injection Hc as <- _. by destruct Hh.
Qed.

Lemma hashtable_add_any_memory_witness :
  ∃ r h' o' es', hashtable_add (empty_table Z) (HKey [97; 0] 1) 5 [false] = Ret (r, h', o') ∧
    inv h' es' ∧ (list_to_map es' : gmap hkey Z) ⊆ <[HKey [97; 0] 1 := 5]> ∅ ∧
    (r = 0 ∧ (list_to_map es' : gmap hkey Z) !! HKey [97; 0] 1 = Some 5 ∨
     r = ENOMEM ∧ (list_to_map es' : gmap hkey Z) !! HKey [97; 0] 1 = None).
Proof.
  apply (hashtable_add_any_memory (empty_table Z) [] (HKey [97; 0] 1) 5 [false]);
    [apply empty_table_inv| |done].
  split_and!; cbn; [|lia..]. exists [97]. split; [done|]. by repeat constructor.
Defined.

(** Replacing a value while memory is short loses the old binding and
    leaves the size field counting it: a table of size 1 that finds nothing. *)
Theorem hashtable_add_loses_binding :
  let k := HKey [97; 0] 1 in
  ('(_, h, _) ← hashtable_add (empty_table Z) k 5 [];
   '(r, h', _) ← hashtable_add h k 6 [false];
   before ← hashtable_find h k;
   after ← hashtable_find h' k;
   Ret (r, before, after, hashtable_getsize h')) = Ret (ENOMEM, Some 5, None, 1).
Proof. by vm_compute. Qed.

(** [int_to_byte_string] turns every non-negative integer into a C string
    inside its six-byte buffer from which the integer can be read back, so
    different integers get different keys. *)
Theorem int_to_byte_string_roundtrip input : 0 ≤ input < 2 ^ 31 →
  ∃ s rest, int_to_byte_string input [] = Ret (Some (s ++ 0 :: rest), []) ∧
    s ≠ [] ∧ (length s ≤ 5)%nat ∧ Forall (λ c, 0 < c < 256) s ∧ byte_string_value s = input.
Proof. apply int_to_byte_string_correct. Qed.

Lemma int_to_byte_string_roundtrip_witness :
  ∃ s rest, int_to_byte_string 1000 [] = Ret (Some (s ++ 0 :: rest), []) ∧
    s ≠ [] ∧ (length s ≤ 5)%nat ∧ Forall (λ c, 0 < c < 256) s ∧ byte_string_value s = 1000.
Proof. apply (int_to_byte_string_roundtrip 1000). lia. Defined.

(** Negative integers share keys with others: the file descriptor -1 gets
    the key of the descriptor 127. *)
Theorem int_to_byte_string_negative :
  int_to_byte_string (-1) [] = int_to_byte_string 127 [].
Proof. by vm_compute. Qed.
