(* ===== verification/ThreadList.v ===== *)
(** * Thread lists (kern/thread/threadlist.c)

    Doubly linked lists with two sentinel nodes.  A thread carries its node, so
    it is on at most one list; all lists share one store, addressed by the node
    a pointer designates.  [rep w tl ts] says that the list [tl] holds the
    threads [ts], in order and in both directions. *)

From S2P Require Import Prelude.

(** ** Data *)

(** Where a [struct threadlistnode] lives: inside a thread, or as one of the two
    ends of a list. *)
Inductive nloc := Head (tl : positive) | Tail (tl : positive) | Node (t : positive).

#[global] Instance nloc_eq_dec : EqDecision nloc.
Proof. solve_decision. Defined.

#[global] Instance nloc_countable : Countable nloc.
Proof.
  refine (inj_countable' (λ a, match a with
      | Head l => inl l | Tail l => inr (inl l) | Node t => inr (inr t) end)
    (λ x, match x with
      | inl l => Head l | inr (inl l) => Tail l | inr (inr t) => Node t end) _).
  by intros [].
Defined.

Record threadlistnode := TLN {
  tln_prev : option nloc;
  tln_next : option nloc;
  tln_self : option positive
}.

(** The nodes of all threads and lists, and the [tl_count] of every list. *)
Record world := World {
  tnodes : gmap nloc threadlistnode;
  tl_count : gmap positive Z
}.

(** ** Operations *)

Definition set_prev (p : option nloc) (n : threadlistnode) : threadlistnode :=
  TLN p n.(tln_next) n.(tln_self).

Definition set_next (p : option nloc) (n : threadlistnode) : threadlistnode :=
  TLN n.(tln_prev) p n.(tln_self).

(** Writing a field through a pointer. *)
Definition write (m : gmap nloc threadlistnode) (p : option nloc)
    (f : threadlistnode → threadlistnode) : res (gmap nloc threadlistnode) :=
  a ← deref p;
  n ← deref (m !! a);
  Ret (<[a := f n]> m).

Definition read (m : gmap nloc threadlistnode) (p : option nloc) : res threadlistnode :=
  a ← deref p; deref (m !! a).

(** [tl->tl_count += d] *)
Definition add_count (w : world) (tl : positive) (d : Z) : res world :=
  c ← deref (w.(tl_count) !! tl);
  Ret (World w.(tnodes) (<[tl := u32 (c + d)]> w.(tl_count))).

Definition threadlistnode_init (w : world) (t : positive) : world :=
  World (<[Node t := TLN None None (Some t)]> w.(tnodes)) w.(tl_count).

Definition threadlistnode_cleanup (w : world) (t : positive) : res unit :=
  n ← read w.(tnodes) (Some (Node t));
  _ ← kassert (bool_decide (n.(tln_next) = None));
  _ ← kassert (bool_decide (n.(tln_prev) = None));
  kassert (bool_decide (n.(tln_self) ≠ None)).

Definition threadlist_init (w : world) (tl : positive) : world :=
  World (<[Tail tl := TLN (Some (Head tl)) None None]>
           (<[Head tl := TLN None (Some (Tail tl)) None]> w.(tnodes)))
    (<[tl := 0]> w.(tl_count)).

Definition threadlist_isempty (w : world) (tl : positive) : res bool :=
  c ← deref (w.(tl_count) !! tl); Ret (c =? 0).

Definition threadlist_cleanup (w : world) (tl : positive) : res unit :=
  e ← threadlist_isempty w tl;
  _ ← kassert e;
  c ← deref (w.(tl_count) !! tl);
  kassert (c =? 0).

Definition threadlist_insertafternode (w : world) (onlist : nloc) (t : positive) : res world :=
  let addee := Some (Node t) in
  m ← write w.(tnodes) addee (set_prev (Some onlist));
  n ← read m (Some onlist);
  m ← write m addee (set_next n.(tln_next));
  n ← read m addee;
  m ← write m n.(tln_prev) (set_next addee);
  n ← read m addee;
  m ← write m n.(tln_next) (set_prev addee);
  Ret (World m w.(tl_count)).

Definition threadlist_insertbeforenode (w : world) (t : positive) (onlist : nloc) : res world :=
  let addee := Some (Node t) in
  n ← read w.(tnodes) (Some onlist);
  m ← write w.(tnodes) addee (set_prev n.(tln_prev));
  m ← write m addee (set_next (Some onlist));
  n ← read m addee;
  m ← write m n.(tln_prev) (set_next addee);
  n ← read m addee;
  m ← write m n.(tln_next) (set_prev addee);
  Ret (World m w.(tl_count)).

Definition threadlist_removenode (w : world) (tln : option nloc) : res world :=
  n ← read w.(tnodes) tln;
  m ← write w.(tnodes) n.(tln_prev) (set_next n.(tln_next));
  n ← read m tln;
  m ← write m n.(tln_next) (set_prev n.(tln_prev));
  m ← write m tln (set_prev None);
  m ← write m tln (set_next None);
  Ret (World m w.(tl_count)).

Definition threadlist_addhead (w : world) (tl t : positive) : res world :=
  w ← threadlist_insertafternode w (Head tl) t; add_count w tl 1.

Definition threadlist_addtail (w : world) (tl t : positive) : res world :=
  w ← threadlist_insertbeforenode w t (Tail tl); add_count w tl 1.

Definition threadlist_remhead (w : world) (tl : positive) : res (option positive * world) :=
  h ← read w.(tnodes) (Some (Head tl));
  let tln := h.(tln_next) in
  n ← read w.(tnodes) tln;
  match n.(tln_next) with
  | None => Ret (None, w)
  | Some _ =>
      w ← threadlist_removenode w tln;
      w ← add_count w tl (-1);
      n ← read w.(tnodes) tln;
      Ret (n.(tln_self), w)
  end.

Definition threadlist_remtail (w : world) (tl : positive) : res (option positive * world) :=
  h ← read w.(tnodes) (Some (Tail tl));
  let tln := h.(tln_prev) in
  n ← read w.(tnodes) tln;
  match n.(tln_prev) with
  | None => Ret (None, w)
  | Some _ =>
      w ← threadlist_removenode w tln;
      w ← add_count w tl (-1);
      n ← read w.(tnodes) tln;
      Ret (n.(tln_self), w)
  end.

Definition threadlist_insertafter (w : world) (tl onlist addee : positive) : res world :=
  w ← threadlist_insertafternode w (Node onlist) addee; add_count w tl 1.

Definition threadlist_insertbefore (w : world) (tl addee onlist : positive) : res world :=
  w ← threadlist_insertbeforenode w addee (Node onlist); add_count w tl 1.

Definition threadlist_remove (w : world) (tl t : positive) : res world :=
  w ← threadlist_removenode w (Some (Node t)); add_count w tl (-1).

(** [THREADLIST_FORALL]: the threads met when walking from the head. *)
Fixpoint forall_from (fuel : nat) (w : world) (p : option nloc) : res (list positive) :=
  match fuel with
  | O => Diverge
  | S fuel' =>
      n ← read w.(tnodes) p;
      match n.(tln_self) with
      | None => Ret []
      | Some t =>
          n ← read w.(tnodes) (Some (Node t));
          ts ← forall_from fuel' w n.(tln_next);
          Ret (t :: ts)
      end
  end.

Definition threadlist_forall (w : world) (tl : positive) : res (list positive) :=
  c ← deref (w.(tl_count) !! tl);
  h ← read w.(tnodes) (Some (Head tl));
  forall_from (S (Z.to_nat c)) w h.(tln_next).

(** ** Representation *)

Definition next_of (m : gmap nloc threadlistnode) (a : nloc) : option nloc := m !! a ≫= tln_next.
Definition prev_of (m : gmap nloc threadlistnode) (a : nloc) : option nloc := m !! a ≫= tln_prev.
Definition self_of (a : nloc) : option positive :=
  match a with Node t => Some t | _ => None end.

(** Following [f] from the first node of [L] visits [L]. *)
Fixpoint chain (f : nloc → option nloc) (L : list nloc) : Prop :=
  match L with
  | a :: (b :: _) as L' => f a = Some b ∧ chain f L'
  | [a] => f a = None
  | [] => True
  end.

(** The nodes of a list with its ends. *)
Definition spine (tl : positive) (ts : list positive) : list nloc :=
  Head tl :: (Node <$> ts) ++ [Tail tl].

Definition rep (w : world) (tl : positive) (ts : list positive) : Prop :=
  NoDup ts ∧ Z.of_nat (length ts) < 2 ^ 32 - 1 ∧
  w.(tl_count) !! tl = Some (Z.of_nat (length ts)) ∧
  chain (next_of w.(tnodes)) (spine tl ts) ∧
  chain (prev_of w.(tnodes)) (reverse (spine tl ts)) ∧
  ∀ a, a ∈ spine tl ts → ∃ n, w.(tnodes) !! a = Some n ∧ n.(tln_self) = self_of a.

(** A thread that is on no list. *)
Definition detached (w : world) (t : positive) : Prop :=
  w.(tnodes) !! Node t = Some (TLN None None (Some t)).

(** ** Chains *)

(** A chain only depends on the pointers out of its nodes. *)
Lemma chain_ext f g L : (∀ a, a ∈ L → f a = g a) → chain f L → chain g L.
Proof.
  induction L as [|a [|b L] IH]; intros H; [done| |].
  - cbn. by rewrite H by set_solver.
  - intros [Hab HL]. split; [by rewrite <-H by set_solver|].
    apply IH; [set_solver|done].
Qed.

Lemma chain_insert f g l1 a b l2 x : NoDup (l1 ++ a :: b :: l2) → x ∉ l1 ++ a :: b :: l2 →
  (∀ c, g c = if decide (c = x) then Some b else if decide (c = a) then Some x else f c) →
  chain f (l1 ++ a :: b :: l2) → chain g (l1 ++ a :: x :: b :: l2).
Proof.
  intros Hnd Hx Hg. induction l1 as [|y l1 IH]; cbn [app] in *.
  - intros [_ Hl]. split; [rewrite Hg, decide_False, decide_True by set_solver; done|].
    split; [by rewrite Hg, decide_True|].
    eapply chain_ext; [|exact Hl]. intros c Hc. apply NoDup_cons in Hnd as [Ha _].
    rewrite Hg, !decide_False by set_solver. done.
  - apply NoDup_cons in Hnd as [Hy Hnd]. intros H.
    assert (f y = g y) as Hyy.
    { rewrite Hg, !decide_False by set_solver. done. }
    destruct l1 as [|z l1]; cbn [app] in *; destruct H as [Hyz Hl];
      (split; [by rewrite <-Hyy|]); apply IH; set_solver.
Qed.

Lemma chain_remove f g l1 a b l2 x : NoDup (l1 ++ a :: x :: b :: l2) →
  (∀ c, c ≠ x → g c = if decide (c = a) then Some b else f c) →
  chain f (l1 ++ a :: x :: b :: l2) → chain g (l1 ++ a :: b :: l2).
Proof.
  intros Hnd Hg. induction l1 as [|y l1 IH]; cbn [app] in *.
  - rewrite !NoDup_cons in Hnd. destruct Hnd as (Ha & Hx & Hb & Hnd).
    intros (_ & _ & Hl). split; [rewrite Hg, decide_True by set_solver; done|].
    eapply chain_ext; [|exact Hl]. intros c Hc.
    rewrite Hg, decide_False by set_solver. done.
  - apply NoDup_cons in Hnd as [Hy Hnd]. intros H.
    assert (f y = g y) as Hyy.
    { rewrite Hg, decide_False by set_solver. done. }
    destruct l1 as [|z l1]; cbn [app] in *; destruct H as [Hyz Hl];
      (split; [by rewrite <-Hyy|]); apply IH; set_solver.
Qed.

Lemma chain_adjacent f l1 a b l2 : chain f (l1 ++ a :: b :: l2) → f a = Some b.
Proof.
  induction l1 as [|y l1 IH]; cbn [app]; [by intros [? _]|].
  destruct l1 as [|z l1]; cbn [app]; intros [_ H]; by apply IH.
Qed.

Lemma spine_NoDup tl ts : NoDup ts → NoDup (spine tl ts).
Proof.
  intros H. unfold spine. apply NoDup_cons. split; [set_solver|].
  apply NoDup_app. split_and!; [by apply NoDup_fmap; [intros ?? [= ->]|]|set_solver|apply NoDup_singleton].
Qed.

Lemma NoDup_adjacent (l1 : list nloc) a b l2 : NoDup (l1 ++ a :: b :: l2) → a ≠ b.
Proof. intros (_ & _ & [H _]%NoDup_cons)%NoDup_app ->. set_solver. Qed.

Lemma elem_of_spine_Node tl ts t : Node t ∈ spine tl ts ↔ t ∈ ts.
Proof. unfold spine. set_solver. Qed.

(** ** Linking and unlinking a node *)

(** [x] has been put between [a] and [b]. *)
Definition linked (m : gmap nloc threadlistnode) (a b : nloc) (t : positive)
    (na nb : threadlistnode) : gmap nloc threadlistnode :=
  <[b := set_prev (Some (Node t)) nb]> (<[a := set_next (Some (Node t)) na]>
    (<[Node t := TLN (Some a) (Some b) (Some t)]> m)).

(** Runs a straight-line sequence of reads and writes. *)
Ltac run_ptr :=
  repeat (cbn [mbind res_bind deref set_prev set_next tln_next tln_prev tln_self];
          simplify_map_eq).

Lemma insertafternode_linked w a b t na nb : detached w t →
  w.(tnodes) !! a = Some na → w.(tnodes) !! b = Some nb → na.(tln_next) = Some b →
  a ≠ b → a ≠ Node t → b ≠ Node t →
  threadlist_insertafternode w a t = Ret (World (linked w.(tnodes) a b t na nb) w.(tl_count)).
Proof.
  intros Ht Ha Hb Hab ???. unfold threadlist_insertafternode, write, read, linked, detached in *.
  run_ptr. rewrite Hab. run_ptr. by rewrite insert_insert_eq.
Qed.

Lemma insertbeforenode_linked w a b t na nb : detached w t →
  w.(tnodes) !! a = Some na → w.(tnodes) !! b = Some nb → nb.(tln_prev) = Some a →
  a ≠ b → a ≠ Node t → b ≠ Node t →
  threadlist_insertbeforenode w t b = Ret (World (linked w.(tnodes) a b t na nb) w.(tl_count)).
Proof.
  intros Ht Ha Hb Hab ???. unfold threadlist_insertbeforenode, write, read, linked, detached in *.
  run_ptr. rewrite Hab. run_ptr. by rewrite insert_insert_eq.
Qed.

(** [t] has been taken out from between [a] and [b]. *)
Definition unlinked (m : gmap nloc threadlistnode) (a b : nloc) (t : positive)
    (na nb : threadlistnode) : gmap nloc threadlistnode :=
  <[Node t := TLN None None (Some t)]>
    (<[b := set_prev (Some a) nb]> (<[a := set_next (Some b) na]> m)).

Lemma removenode_unlinked w a b t na nb :
  w.(tnodes) !! a = Some na → w.(tnodes) !! b = Some nb →
  w.(tnodes) !! Node t = Some (TLN (Some a) (Some b) (Some t)) →
  a ≠ b → a ≠ Node t → b ≠ Node t →
  threadlist_removenode w (Some (Node t))
  = Ret (World (unlinked w.(tnodes) a b t na nb) w.(tl_count)).
Proof.
  intros Ha Hb Ht ???. unfold threadlist_removenode, write, read, unlinked in *.
  run_ptr. by rewrite insert_insert_eq.
Qed.

Lemma reverse_mid (l1 : list nloc) x y l2 :
  reverse (l1 ++ x :: y :: l2) = reverse l2 ++ y :: x :: reverse l1.
Proof. by rewrite !reverse_app, !reverse_cons, <-!app_assoc. Qed.

Lemma reverse_mid3 (l1 : list nloc) x y z l2 :
  reverse (l1 ++ x :: y :: z :: l2) = reverse l2 ++ z :: y :: x :: reverse l1.
Proof. by rewrite !reverse_app, !reverse_cons, <-!app_assoc. Qed.

(** Two neighbours on a list and the pointers between them. *)
Lemma rep_neighbours w tl ts l1 a b l2 : rep w tl ts → spine tl ts = l1 ++ a :: b :: l2 →
  ∃ na nb, w.(tnodes) !! a = Some na ∧ w.(tnodes) !! b = Some nb ∧
    na.(tln_next) = Some b ∧ nb.(tln_prev) = Some a ∧ a ≠ b.
Proof.
  intros (Hnd & _ & _ & Hn & Hp & Hs) E. rewrite E in *.
  destruct (Hs a) as (na & Ha & _); [set_solver|].
  destruct (Hs b) as (nb & Hb & _); [set_solver|].
  exists na, nb. apply chain_adjacent in Hn. rewrite reverse_mid in Hp.
  apply chain_adjacent in Hp. unfold next_of, prev_of in *. rewrite Ha in Hn. rewrite Hb in Hp.
  split_and!; [done..|]. pose proof (spine_NoDup tl ts Hnd) as HN.
  rewrite E in HN. by eapply NoDup_adjacent.
Qed.

Lemma rep_linked w tl ts ts' l1 a b l2 t na nb :
  rep w tl ts → spine tl ts = l1 ++ a :: b :: l2 → spine tl ts' = l1 ++ a :: Node t :: b :: l2 →
  NoDup ts' → length ts' = S (length ts) → Z.of_nat (length ts') < 2 ^ 32 - 1 →
  t ∉ ts → w.(tnodes) !! a = Some na → w.(tnodes) !! b = Some nb → a ≠ b →
  ∃ w', add_count (World (linked w.(tnodes) a b t na nb) w.(tl_count)) tl 1 = Ret w' ∧
    w'.(tnodes) = linked w.(tnodes) a b t na nb ∧ rep w' tl ts' ∧
    ∀ tl2, tl2 ≠ tl → w'.(tl_count) !! tl2 = w.(tl_count) !! tl2.
Proof.
  intros (Hnd & Hl & Hc & Hn & Hp & Hs) E E' Hnd' Hlen Hl' Ht Ha Hb Hab.
  unfold add_count. cbn [tl_count]. rewrite Hc. cbn [mbind res_bind deref].
  eexists. split; [done|]. cbn [tnodes tl_count]. split; [done|].
  pose proof (spine_NoDup tl ts Hnd) as HN.
  assert (Node t ∉ spine tl ts) as Hni by by rewrite elem_of_spine_Node.
  rewrite E in HN, Hni, Hn, Hp, Hs. rewrite reverse_mid in Hp.
  assert (a ≠ Node t ∧ b ≠ Node t) as [??] by set_solver.
  split; [|intros tl2 ?; by rewrite lookup_insert_ne].
  split_and!; [done|done|cbn; rewrite lookup_insert_eq, u32_id by lia; do 2 f_equal; lia|..];
    rewrite E'; cbn [tnodes].
  - eapply (chain_insert (next_of w.(tnodes))); try done. intros c. unfold next_of, linked.
    repeat case_decide; subst; run_ptr; try done.
    destruct (decide (c = b)) as [->|]; run_ptr; done.
  - rewrite reverse_mid3. eapply (chain_insert (prev_of w.(tnodes))); try done.
    + by rewrite <-reverse_mid, reverse_Permutation.
    + rewrite <-reverse_mid, elem_of_reverse. done.
    + intros c. unfold prev_of, linked. repeat case_decide; subst; run_ptr; try done.
      destruct (decide (c = a)) as [->|]; run_ptr; done.
  - intros c Hcin. unfold linked.
    destruct (decide (c = Node t)) as [->|Hct]; [run_ptr; by eexists|].
    destruct (Hs c) as (n & Hcn & Hsn); [set_solver|].
    destruct (decide (c = b)) as [->|]; [run_ptr; by eexists|].
    destruct (decide (c = a)) as [->|]; run_ptr; by eexists.
Qed.

Lemma rep_unlinked w tl ts ts' l1 a b l2 t na nb :
  rep w tl ts → spine tl ts = l1 ++ a :: Node t :: b :: l2 → spine tl ts' = l1 ++ a :: b :: l2 →
  length ts = S (length ts') → NoDup ts' →
  w.(tnodes) !! a = Some na → w.(tnodes) !! b = Some nb →
  ∃ w', add_count (World (unlinked w.(tnodes) a b t na nb) w.(tl_count)) tl (-1) = Ret w' ∧
    w'.(tnodes) = unlinked w.(tnodes) a b t na nb ∧ rep w' tl ts' ∧ detached w' t ∧
    ∀ tl2, tl2 ≠ tl → w'.(tl_count) !! tl2 = w.(tl_count) !! tl2.
Proof.
  intros (Hnd & Hl & Hc & Hn & Hp & Hs) E E' Hlen Hnd' Ha Hb.
  unfold add_count. cbn [tl_count]. rewrite Hc. cbn [mbind res_bind deref].
  eexists. split; [done|]. cbn [tnodes tl_count]. split; [done|].
  pose proof (spine_NoDup tl ts Hnd) as HN. pose proof (spine_NoDup tl ts' Hnd') as HN'.
  rewrite E in HN, Hn, Hp, Hs. rewrite reverse_mid3 in Hp. rewrite E' in HN'.
  assert (Node t ∉ l1 ++ a :: b :: l2) as Hni.
  { clear -HN. rewrite (cons_middle a), app_assoc in HN. rewrite cons_middle, app_assoc.
    apply NoDup_app in HN as (_ & Hd & [Ht _]%NoDup_cons).
    rewrite elem_of_app. intros [Hin|Hin]; [|done]. apply (Hd _ Hin). set_solver. }
  assert (a ≠ Node t ∧ b ≠ Node t) as [??] by set_solver.
  pose proof (NoDup_adjacent _ _ _ _ HN') as Hab.
  split; [|split; [unfold detached, unlinked; cbn; by run_ptr|intros tl2 ?; by rewrite lookup_insert_ne]].
  split_and!; [done|lia|cbn; rewrite lookup_insert_eq, u32_id by lia; do 2 f_equal; lia|..];
    rewrite E'; cbn [tnodes].
  - eapply (chain_remove (next_of w.(tnodes))); [exact HN| |done]. intros c ?.
    unfold next_of, unlinked. repeat case_decide; subst; run_ptr; try done.
    destruct (decide (c = b)) as [->|]; run_ptr; done.
  - rewrite reverse_mid. eapply (chain_remove (prev_of w.(tnodes))); [| |exact Hp].
    + by rewrite <-reverse_mid3, reverse_Permutation.
    + intros c ?. unfold prev_of, unlinked. repeat case_decide; subst; run_ptr; try done.
      destruct (decide (c = a)) as [->|]; run_ptr; done.
  - intros c Hcin. unfold unlinked.
    destruct (Hs c) as (n & Hcn & Hsn); [set_solver|].
    destruct (decide (c = Node t)) as [->|]; [run_ptr; by eexists|].
    destruct (decide (c = b)) as [->|]; [run_ptr; by eexists|].
    destruct (decide (c = a)) as [->|]; run_ptr; by eexists.
Qed.

(** ** The public operations *)

Lemma spine_middle tl ts1 t ts2 : ∃ l1 a b l2,
  spine tl (ts1 ++ t :: ts2) = l1 ++ a :: Node t :: b :: l2 ∧
  spine tl (ts1 ++ ts2) = l1 ++ a :: b :: l2 ∧
  last (Head tl :: (Node <$> ts1)) = Some a ∧ hd_error ((Node <$> ts2) ++ [Tail tl]) = Some b.
Proof.
  unfold spine. rewrite !fmap_app. cbn [fmap list_fmap].
  destruct (exists_last (l := Head tl :: (Node <$> ts1))) as (l1 & a & E1); [done|].
  assert (∃ b l2, (Node <$> ts2) ++ [Tail tl] = b :: l2) as (b & l2 & E2).
  { destruct ts2; cbn; eauto. }
  exists l1, a, b, l2. rewrite E1, E2, last_snoc, <-!app_assoc. cbn [app].
  rewrite E2, !app_comm_cons, E1, <-!app_assoc. done.
Qed.

Lemma remove_rep w tl ts1 t ts2 : rep w tl (ts1 ++ t :: ts2) →
  ∃ w' m, threadlist_removenode w (Some (Node t)) = Ret (World m w.(tl_count)) ∧
    add_count (World m w.(tl_count)) tl (-1) = Ret w' ∧ w'.(tnodes) = m ∧
    rep w' tl (ts1 ++ ts2) ∧ detached w' t ∧
    (∀ c, c ∉ spine tl (ts1 ++ t :: ts2) → w'.(tnodes) !! c = w.(tnodes) !! c) ∧
    ∀ tl2, tl2 ≠ tl → w'.(tl_count) !! tl2 = w.(tl_count) !! tl2.
Proof.
  intros Hr. destruct (spine_middle tl ts1 t ts2) as (l1 & a & b & l2 & E & E' & _ & _).
  pose proof Hr as (Hnd & _). pose proof (spine_NoDup tl _ Hnd) as HN. rewrite E in HN.
  destruct (rep_neighbours w tl _ l1 a (Node t) (b :: l2) Hr E) as (na & nt & Ha & Ht & _ & Hpt & ?).
  destruct (rep_neighbours w tl _ (l1 ++ [a]) (Node t) b l2 Hr) as (nt' & nb & Ht' & Hb & Hnt & _ & ?);
    [by rewrite <-app_assoc|].
  assert (nt = TLN (Some a) (Some b) (Some t)) as ->.
  { destruct Hr as (_ & _ & _ & _ & _ & Hs). destruct (Hs (Node t)) as (n & Hn & Hself);
      [rewrite E; set_solver|]. simplify_eq. by destruct nt as [p q s]; cbn in *; subst. }
  assert (NoDup (ts1 ++ ts2)) as Hnd'.
  { rewrite <-Permutation_middle in Hnd. by apply NoDup_cons in Hnd as [_ ?]. }
  pose proof (spine_NoDup tl _ Hnd') as HN'. rewrite E' in HN'.
  pose proof (NoDup_adjacent _ _ _ _ HN').
  destruct (rep_unlinked w tl _ (ts1 ++ ts2) l1 a b l2 t na nb Hr E E')
    as (w' & Hw' & Hm & Hr' & Hd & Ho); [rewrite !length_app; cbn; lia|done..|].
  exists w', (unlinked w.(tnodes) a b t na nb). split_and!; try done.
  - by apply removenode_unlinked.
  - intros c. rewrite E, Hm. unfold unlinked. intros Hc. run_ptr.
    rewrite !lookup_insert_ne by set_solver. done.
Qed.

Lemma insert_rep w tl ts1 t ts2 a b : rep w tl (ts1 ++ ts2) → detached w t → t ∉ ts1 ++ ts2 →
  Z.of_nat (length (ts1 ++ ts2)) + 1 < 2 ^ 32 - 1 →
  last (Head tl :: (Node <$> ts1)) = Some a → hd_error ((Node <$> ts2) ++ [Tail tl]) = Some b →
  ∃ m w', threadlist_insertafternode w a t = Ret (World m w.(tl_count)) ∧
    threadlist_insertbeforenode w t b = Ret (World m w.(tl_count)) ∧
    add_count (World m w.(tl_count)) tl 1 = Ret w' ∧
    rep w' tl (ts1 ++ t :: ts2) ∧
    (∀ c, c ∉ spine tl (ts1 ++ t :: ts2) → w'.(tnodes) !! c = w.(tnodes) !! c) ∧
    ∀ tl2, tl2 ≠ tl → w'.(tl_count) !! tl2 = w.(tl_count) !! tl2.
Proof.
  intros Hr Hd Ht Hl Hla Hhb.
  destruct (spine_middle tl ts1 t ts2) as (l1 & a' & b' & l2 & E' & E & Hla' & Hhb').
  rewrite Hla in Hla'. rewrite Hhb in Hhb'. simplify_eq.
  pose proof Hr as (Hnd & _).
  destruct (rep_neighbours w tl _ l1 a' b' l2 Hr E) as (na & nb & Ha & Hb & Hna & Hpb & Hab).
  assert (Node t ∉ spine tl (ts1 ++ ts2)) as Hni by by rewrite elem_of_spine_Node.
  rewrite E in Hni. assert (a' ≠ Node t ∧ b' ≠ Node t) as [??] by set_solver.
  destruct (rep_linked w tl _ (ts1 ++ t :: ts2) l1 a' b' l2 t na nb Hr E E')
    as (w' & Hw' & Hm & Hr' & Ho); try done.
  { rewrite <-Permutation_middle. by apply NoDup_cons. }
  { rewrite !length_app. cbn. lia. }
  { rewrite !length_app in *. cbn. lia. }
  exists (linked w.(tnodes) a' b' t na nb), w'. split_and!; try done.
  - by apply insertafternode_linked.
  - by apply insertbeforenode_linked.
  - intros c. rewrite E', Hm. unfold linked. intros Hc.
    rewrite !lookup_insert_ne by set_solver. done.
Qed.

Lemma addhead_correct w tl ts t : rep w tl ts → detached w t → t ∉ ts →
  Z.of_nat (length ts) + 1 < 2 ^ 32 - 1 →
  ∃ w', threadlist_addhead w tl t = Ret w' ∧ rep w' tl (t :: ts) ∧
    (∀ c, c ∉ spine tl (t :: ts) → w'.(tnodes) !! c = w.(tnodes) !! c) ∧
    ∀ tl2, tl2 ≠ tl → w'.(tl_count) !! tl2 = w.(tl_count) !! tl2.
Proof.
  intros Hr Hd Ht Hl.
  assert (∃ b, hd_error ((Node <$> ts) ++ [Tail tl]) = Some b) as [b Hb] by (destruct ts; eauto).
  destruct (insert_rep w tl [] t ts (Head tl) b Hr Hd Ht Hl eq_refl Hb)
    as (m & w' & Hi & _ & Hc & ?). unfold threadlist_addhead. rewrite Hi. cbn [mbind res_bind].
  rewrite Hc. eauto.
Qed.

Lemma addtail_correct w tl ts t : rep w tl ts → detached w t → t ∉ ts →
  Z.of_nat (length ts) + 1 < 2 ^ 32 - 1 →
  ∃ w', threadlist_addtail w tl t = Ret w' ∧ rep w' tl (ts ++ [t]) ∧
    (∀ c, c ∉ spine tl (ts ++ [t]) → w'.(tnodes) !! c = w.(tnodes) !! c) ∧
    ∀ tl2, tl2 ≠ tl → w'.(tl_count) !! tl2 = w.(tl_count) !! tl2.
Proof.
  intros Hr Hd Ht Hl.
  destruct (last (Head tl :: (Node <$> ts))) as [a|] eqn:Ha; [|by apply last_None in Ha].
  rewrite <-(app_nil_r ts) in Hr, Ht, Hl.
  destruct (insert_rep w tl ts t [] a (Tail tl) Hr Hd Ht Hl Ha eq_refl)
    as (m & w' & _ & Hi & Hc & ?). unfold threadlist_addtail. rewrite Hi. cbn [mbind res_bind].
  rewrite Hc. eauto.
Qed.

Lemma read_Some m a n : m !! a = Some n → read m (Some a) = Ret n.
Proof. intros H. unfold read. cbn. by rewrite H. Qed.

Lemma remhead_correct w tl ts : rep w tl ts →
  match ts with
  | [] => threadlist_remhead w tl = Ret (None, w)
  | t :: ts' => ∃ w', threadlist_remhead w tl = Ret (Some t, w') ∧ rep w' tl ts' ∧
      detached w' t ∧ (∀ c, c ∉ spine tl ts → w'.(tnodes) !! c = w.(tnodes) !! c) ∧
      ∀ tl2, tl2 ≠ tl → w'.(tl_count) !! tl2 = w.(tl_count) !! tl2
  end.
Proof.
  intros Hr. unfold threadlist_remhead. destruct ts as [|t ts].
  - destruct (rep_neighbours w tl [] [] (Head tl) (Tail tl) [] Hr eq_refl)
      as (na & nb & Ha & Hb & Hna & _).
    rewrite (read_Some _ _ _ Ha). cbn [mbind res_bind]. rewrite Hna.
    rewrite (read_Some _ _ _ Hb). cbn [mbind res_bind].
    destruct Hr as (_ & _ & _ & (_ & Hn) & _). change (next_of w.(tnodes) (Tail tl) = None) in Hn.
    unfold next_of in Hn. rewrite Hb in Hn.
    cbn in Hn. by rewrite Hn.
  - assert (∃ b l2, spine tl (t :: ts) = Head tl :: Node t :: b :: l2) as (b & l2 & E).
    { unfold spine. destruct ts; cbn; eauto. }
    destruct (rep_neighbours w tl _ [] (Head tl) (Node t) (b :: l2) Hr E)
      as (na & _ & Ha & _ & Hna & _).
    destruct (rep_neighbours w tl _ [Head tl] (Node t) b l2 Hr E) as (nt & _ & Ht & _ & Hnt & _).
    rewrite (read_Some _ _ _ Ha). cbn [mbind res_bind]. rewrite Hna.
    rewrite (read_Some _ _ _ Ht). cbn [mbind res_bind]. rewrite Hnt.
    destruct (remove_rep w tl [] t ts Hr) as (w' & m & -> & Hc & Hm & Hr' & Hd & ?).
    cbn [mbind res_bind]. rewrite Hc. cbn [mbind res_bind].
    rewrite (read_Some _ _ _ Hd). cbn. eauto 10.
Qed.

Lemma remtail_correct w tl ts : rep w tl ts →
  match last ts with
  | None => threadlist_remtail w tl = Ret (None, w)
  | Some t => ∃ w' ts', ts = ts' ++ [t] ∧ threadlist_remtail w tl = Ret (Some t, w') ∧
      rep w' tl ts' ∧ detached w' t ∧
      (∀ c, c ∉ spine tl ts → w'.(tnodes) !! c = w.(tnodes) !! c) ∧
      ∀ tl2, tl2 ≠ tl → w'.(tl_count) !! tl2 = w.(tl_count) !! tl2
  end.
Proof.
  intros Hr. unfold threadlist_remtail. destruct ts as [|t ts _] using rev_ind.
  - destruct (rep_neighbours w tl [] [] (Head tl) (Tail tl) [] Hr eq_refl)
      as (na & nb & Ha & Hb & _ & Hpb & _).
    rewrite (read_Some _ _ _ Hb). cbn [mbind res_bind last]. rewrite Hpb.
    rewrite (read_Some _ _ _ Ha). cbn [mbind res_bind].
    destruct Hr as (_ & _ & _ & _ & (_ & Hp) & _). change (prev_of w.(tnodes) (Head tl) = None) in Hp.
    unfold prev_of in Hp. rewrite Ha in Hp.
    cbn in Hp. by rewrite Hp.
  - rewrite last_snoc.
    assert (∃ l1 a, spine tl (ts ++ [t]) = l1 ++ [a; Node t; Tail tl]) as (l1 & a & E).
    { destruct (exists_last (l := Head tl :: (Node <$> ts))) as (l1 & a & E1); [done|].
      exists l1, a. unfold spine. rewrite fmap_app, <-app_assoc. cbn.
      by rewrite app_comm_cons, E1, <-app_assoc. }
    destruct (rep_neighbours w tl _ (l1 ++ [a]) (Node t) (Tail tl) [] Hr)
      as (_ & nb & _ & Hb & _ & Hpb & _); [by rewrite E, <-app_assoc|].
    destruct (rep_neighbours w tl _ l1 a (Node t) [Tail tl] Hr E) as (_ & nt & _ & Ht & _ & Hpt & _).
    rewrite (read_Some _ _ _ Hb). cbn [mbind res_bind]. rewrite Hpb.
    rewrite (read_Some _ _ _ Ht). cbn [mbind res_bind]. rewrite Hpt.
    destruct (remove_rep w tl ts t [] Hr) as (w' & m & -> & Hc & Hm & Hr' & Hd & ?).
    cbn [mbind res_bind]. rewrite Hc. cbn [mbind res_bind].
    rewrite (read_Some _ _ _ Hd). cbn. rewrite app_nil_r in Hr'. eauto 10.
Qed.

(** The sentinels of a list that has just been made. *)
Lemma init_rep w tl : rep (threadlist_init w tl) tl [].
Proof.
  unfold rep, threadlist_init, spine. cbn [tnodes tl_count fmap list_fmap app].
  split_and!; [constructor|done|by rewrite lookup_insert_eq| | |].
  - cbn. unfold next_of. run_ptr. done.
  - rewrite reverse_cons. cbn. unfold prev_of. run_ptr. done.
  - intros a. rewrite !elem_of_cons, elem_of_nil. intros [->|[->|[]]]; run_ptr; by eexists.
Qed.

(** A list is untouched by changes outside of it. *)
Lemma rep_frame w w' tl ts : rep w tl ts →
  (∀ c, c ∈ spine tl ts → w'.(tnodes) !! c = w.(tnodes) !! c) →
  w'.(tl_count) !! tl = w.(tl_count) !! tl → rep w' tl ts.
Proof.
  intros (? & ? & ? & Hn & Hp & Hs) Hc Hcnt. split_and!; try done; [by rewrite Hcnt| | |].
  - eapply chain_ext; [|exact Hn]. intros a Ha. unfold next_of. by rewrite Hc.
  - eapply chain_ext; [|exact Hp]. intros a Ha. rewrite elem_of_reverse in Ha. unfold prev_of. by rewrite Hc.
  - intros a Ha. rewrite Hc by done. by apply Hs.
Qed.

(** Walking the list from its head meets its threads in order. *)
Lemma forall_from_correct fuel w tl ts ts1 : rep w tl (ts1 ++ ts) → (length ts < fuel)%nat →
  forall_from fuel w (hd_error ((Node <$> ts) ++ [Tail tl])) = Ret ts.
Proof.
  revert ts ts1. induction fuel as [|fuel IH]; intros ts ts1 Hr Hf; [lia|].
  pose proof Hr as (_ & _ & _ & _ & _ & Hs).
  destruct ts as [|t ts]; cbn [fmap list_fmap app hd_error forall_from].
  - destruct (Hs (Tail tl)) as (n & Hn & Hself); [unfold spine; set_solver|].
    rewrite (read_Some _ _ _ Hn). cbn [mbind res_bind]. by rewrite Hself.
  - destruct (Hs (Node t)) as (n & Hn & Hself); [rewrite elem_of_spine_Node; set_solver|].
    rewrite (read_Some _ _ _ Hn). cbn [mbind res_bind]. rewrite Hself. cbn [self_of].
    rewrite (read_Some _ _ _ Hn). cbn [mbind res_bind].
    destruct (spine_middle tl ts1 t ts) as (l1 & a & b & l2 & E & _ & _ & Hb).
    destruct (rep_neighbours w tl _ (l1 ++ [a]) (Node t) b l2 Hr) as (nt & _ & Hnt & _ & Hnx & _);
      [by rewrite E, <-app_assoc|].
    rewrite Hn in Hnt. injection Hnt as <-. rewrite Hnx, <-Hb.
    rewrite (IH ts (ts1 ++ [t])); [done|by rewrite <-app_assoc|cbn in Hf; lia].
Qed.

Lemma forall_correct w tl ts : rep w tl ts → threadlist_forall w tl = Ret ts.
Proof.
  intros Hr. pose proof Hr as (_ & _ & Hc & _). unfold threadlist_forall. rewrite Hc.
  cbn [deref mbind res_bind]. rewrite Nat2Z.id.
  assert (∃ b l2, (Node <$> ts) ++ [Tail tl] = b :: l2) as (b & l2 & E) by (destruct ts; cbn; eauto).
  destruct (rep_neighbours w tl ts [] (Head tl) b l2 Hr) as (na & _ & Ha & _ & Hna & _);
    [unfold spine; by rewrite E|].
  rewrite (read_Some _ _ _ Ha). cbn [mbind res_bind]. rewrite Hna.
  replace (Some b) with (hd_error ((Node <$> ts) ++ [Tail tl])) by by rewrite E.
  apply (forall_from_correct _ w tl ts []); [done|lia].
Qed.

(** ** Histories *)

Inductive request := AddHead (t : positive) | AddTail (t : positive) | RemHead | RemTail.

(** The answers of the removals of a sequence of requests. *)
Fixpoint run (w : world) (tl : positive) (rs : list request)
    : res (list (option positive) * world) :=
  match rs with
  | [] => Ret ([], w)
  | AddHead t :: rs' => w ← threadlist_addhead w tl t; run w tl rs'
  | AddTail t :: rs' => w ← threadlist_addtail w tl t; run w tl rs'
  | RemHead :: rs' =>
      '(x, w) ← threadlist_remhead w tl; '(out, w) ← run w tl rs'; Ret (x :: out, w)
  | RemTail :: rs' =>
      '(x, w) ← threadlist_remtail w tl; '(out, w) ← run w tl rs'; Ret (x :: out, w)
  end.

(** A double-ended queue; a thread is added only while it is not on it. *)
Fixpoint deque (ts : list positive) (rs : list request)
    : option (list (option positive) * list positive) :=
  match rs with
  | [] => Some ([], ts)
  | AddHead t :: rs' => if decide (t ∈ ts) then None else deque (t :: ts) rs'
  | AddTail t :: rs' => if decide (t ∈ ts) then None else deque (ts ++ [t]) rs'
  | RemHead :: rs' => prod_map (cons (hd_error ts)) id <$> deque (List.tl ts) rs'
  | RemTail :: rs' => prod_map (cons (last ts)) id <$> deque (take (pred (length ts)) ts) rs'
  end.

Definition threads_of (rs : list request) : list positive :=
  rs ≫= λ r, match r with AddHead t | AddTail t => [t] | _ => [] end.

(** Every thread of [us] is on the list or detached. *)
Definition ready (w : world) (ts us : list positive) : Prop :=
  ∀ t, t ∈ us → t ∈ ts ∨ detached w t.

Lemma ready_frame w w' tl ts ts' us : ready w ts us →
  (∀ c, c ∉ spine tl ts' → w'.(tnodes) !! c = w.(tnodes) !! c) →
  (∀ t, t ∈ ts → t ∈ ts' ∨ detached w' t) → ready w' ts' us.
Proof.
  intros Hr Hc Hts t Ht. destruct (Hr t Ht) as [Hin|Hd]; [by apply Hts|].
  destruct (decide (t ∈ ts')); [by left|right]. unfold detached.
  rewrite Hc; [done|]. by rewrite elem_of_spine_Node.
Qed.

Lemma ready_add w w' tl ts ts' t us : ready w ts us →
  (∀ c, c ∉ spine tl ts' → w'.(tnodes) !! c = w.(tnodes) !! c) →
  ts' ≡ₚ t :: ts → ready w' ts' us.
Proof.
  intros Hr Hc Hp. eapply ready_frame; [done|done|]. intros x Hx. left. rewrite Hp. set_solver.
Qed.

Lemma ready_rem w w' tl ts ts' t us : ready w ts us → rep w tl ts → rep w' tl ts' →
  (∀ c, c ∉ spine tl ts → w'.(tnodes) !! c = w.(tnodes) !! c) →
  ts ≡ₚ t :: ts' → detached w' t → ready w' ts' us.
Proof.
  intros Hr _ _ Hc Hp Hd x Hx. destruct (decide (x = t)) as [->|Hne]; [by right|].
  destruct (Hr x Hx) as [Hin|Hdx]; [left; rewrite Hp in Hin; set_solver|].
  destruct (decide (x ∈ ts)) as [Hin|Hin]; [left; rewrite Hp in Hin; set_solver|right].
  unfold detached. rewrite Hc; [done|]. by rewrite elem_of_spine_Node.
Qed.

Lemma run_deque rs w tl ts out ts' : rep w tl ts → ready w ts (threads_of rs) →
  Z.of_nat (length ts + length rs) < 2 ^ 32 - 1 → deque ts rs = Some (out, ts') →
  ∃ w', run w tl rs = Ret (out, w') ∧ rep w' tl ts'.
Proof.
  revert w ts out. induction rs as [|r rs IH]; intros w ts out Hr Hready Hl Hd; cbn [run].
  { cbn in Hd. simplify_eq. eauto. }
  cbn [length] in Hl. destruct r as [t|t| |]; cbn in Hd.
  - case_decide; [done|]. destruct (Hready t) as [?|Hdt]; [cbn; set_solver|done|].
    destruct (addhead_correct w tl ts t) as (w1 & -> & Hr1 & Hf & _); [done..|lia|].
    cbn [mbind res_bind]. apply (IH w1 (t :: ts)); try done; [|cbn; lia].
    eapply ready_add; [|done|done]. intros x Hx. apply Hready. cbn. set_solver.
  - case_decide; [done|]. destruct (Hready t) as [?|Hdt]; [cbn; set_solver|done|].
    destruct (addtail_correct w tl ts t) as (w1 & -> & Hr1 & Hf & _); [done..|lia|].
    cbn [mbind res_bind]. apply (IH w1 (ts ++ [t])); try done; [|rewrite length_app; cbn; lia].
    apply (ready_add w w1 tl ts (ts ++ [t]) t); [|done|by rewrite Permutation_app_comm].
    intros x Hx. apply Hready. cbn. set_solver.
  - apply fmap_Some in Hd as ([out1 ts1] & Hd & E). cbn in E. simplify_eq.
    pose proof (remhead_correct w tl ts Hr) as Hrem. destruct ts as [|t ts].
    + rewrite Hrem. cbn [mbind res_bind].
      destruct (IH w [] out1) as (w' & -> & ?); try done; [cbn in *; lia|]. cbn. eauto.
    + destruct Hrem as (w1 & -> & Hr1 & Hdt & Hf & _). cbn [mbind res_bind].
      destruct (IH w1 ts out1) as (w' & -> & ?); try done; [|cbn in *; lia|cbn; eauto].
      by eapply ready_rem.
  - apply fmap_Some in Hd as ([out1 ts1] & Hd & E). cbn in E. simplify_eq.
    pose proof (remtail_correct w tl ts Hr) as Hrem. destruct (last ts) as [t|] eqn:El.
    + destruct Hrem as (w1 & ts0 & -> & -> & Hr1 & Hdt & Hf & _). cbn [mbind res_bind].
      rewrite length_app in Hl, Hd. cbn [length] in Hl, Hd.
      rewrite Nat.add_1_r in Hd. cbn [pred] in Hd. rewrite take_app_length in Hd.
      destruct (IH w1 ts0 out1) as (w' & -> & ?); try done; [|lia|cbn; eauto].
      apply (ready_rem w w1 tl (ts0 ++ [t]) ts0 t); try done. by rewrite Permutation_app_comm.
    + apply last_None in El as ->. rewrite Hrem. cbn [mbind res_bind].
      destruct (IH w [] out1) as (w' & -> & ?); try done; [cbn in *; lia|]. cbn. eauto.
Qed.

(** ** Properties *)

(** C29: A thread list serves any sequence of additions and removals at its two
    ends as a double-ended queue of threads does, and afterwards walking it
    meets exactly the threads on it, in order. *)
Theorem threadlist_is_deque w tl rs out ts :
  (∀ t, t ∈ threads_of rs → detached w t) → Z.of_nat (length rs) < 2 ^ 32 - 1 →
  deque [] rs = Some (out, ts) →
  ∃ w', run (threadlist_init w tl) tl rs = Ret (out, w') ∧ rep w' tl ts ∧
    threadlist_forall w' tl = Ret ts.
Proof.
  intros Ht Hl Hd.
  destruct (run_deque rs (threadlist_init w tl) tl [] out ts) as (w' & Hrun & Hr);
    [apply init_rep| |done|done|].
  - intros t Hin. right. specialize (Ht t Hin). unfold detached, threadlist_init in *. cbn.
    by simplify_map_eq.
  - exists w'. split_and!; [done|done|]. by apply forall_correct.
Qed.

Lemma threadlist_is_deque_witness :
  let w := threadlistnode_init (threadlistnode_init (World ∅ ∅) 7) 8 in
  ∃ w', run (threadlist_init w 1) 1 [AddTail 7; AddHead 8; RemTail; AddTail 7; RemHead]
      = Ret ([Some 7%positive; Some 8%positive], w') ∧
    rep w' 1 [7%positive] ∧ threadlist_forall w' 1 = Ret [7%positive].
Proof.
  apply (threadlist_is_deque (threadlistnode_init (threadlistnode_init (World ∅ ∅) 7) 8) 1
    [AddTail 7; AddHead 8; RemTail; AddTail 7; RemHead]); [|done|done].
  intros t. cbn. rewrite !elem_of_cons, elem_of_nil. intros [->|[->|[->|[]]]]; by vm_compute.
Defined.

(** Moving the first thread of one list to the end of another (waking a
    sleeper onto the run queue) does exactly that, and leaves every third list
    as it was, although all lists share their nodes' store. *)
Theorem threadlist_transfer w tl1 tl2 tl3 t ts1 ts2 ts3 :
  rep w tl1 (t :: ts1) → rep w tl2 ts2 → rep w tl3 ts3 →
  tl1 ≠ tl2 → tl1 ≠ tl3 → tl2 ≠ tl3 →
  (∀ x, x ∈ t :: ts1 → x ∉ ts2 ∧ x ∉ ts3) → (∀ x, x ∈ ts2 → x ∉ ts3) →
  Z.of_nat (length ts2) + 1 < 2 ^ 32 - 1 →
  ∃ w1 w2, threadlist_remhead w tl1 = Ret (Some t, w1) ∧ threadlist_addtail w1 tl2 t = Ret w2 ∧
    rep w2 tl1 ts1 ∧ rep w2 tl2 (ts2 ++ [t]) ∧ rep w2 tl3 ts3.
Proof.
  intros H1 H2 H3 N12 N13 N23 D1 D2 Hl.
  destruct (remhead_correct w tl1 (t :: ts1) H1) as (w1 & Hrem & H1' & Hdt & Hf1 & Hc1).
  assert (rep w1 tl2 ts2) as H2'.
  { apply (rep_frame w); [done| |by apply Hc1]. intros c Hc. apply Hf1. unfold spine in *. set_solver. }
  assert (rep w1 tl3 ts3) as H3'.
  { apply (rep_frame w); [done| |by apply Hc1]. intros c Hc. apply Hf1. unfold spine in *. set_solver. }
  assert (t ∉ ts1) as Hni by (destruct H1 as ([? _]%NoDup_cons & _); done).
  destruct (addtail_correct w1 tl2 ts2 t H2' Hdt) as (w2 & Hadd & H2'' & Hf2 & Hc2);
    [set_solver|done|].
  exists w1, w2. split_and!; [done..| |done|].
  - apply (rep_frame w1); [done| |by apply Hc2]. intros c Hc. apply Hf2. unfold spine in *. set_solver.
  - apply (rep_frame w1); [done| |by apply Hc2]. intros c Hc. apply Hf2. unfold spine in *. set_solver.
Qed.

(** Three lists, one of them with a thread on it. *)
Definition three_lists : world :=
  World (list_to_map [
      (Head 1, TLN None (Some (Node 7)) None);
      (Node 7, TLN (Some (Head 1)) (Some (Tail 1)) (Some 7%positive));
      (Tail 1, TLN (Some (Node 7)) None None);
      (Head 2, TLN None (Some (Tail 2)) None); (Tail 2, TLN (Some (Head 2)) None None);
      (Head 3, TLN None (Some (Tail 3)) None); (Tail 3, TLN (Some (Head 3)) None None)])
    (list_to_map [(1%positive, 1); (2%positive, 0); (3%positive, 0)]).

Lemma threadlist_transfer_witness :
  ∃ w1 w2, threadlist_remhead three_lists 1 = Ret (Some 7%positive, w1) ∧
    threadlist_addtail w1 2 7 = Ret w2 ∧
    rep w2 1 [] ∧ rep w2 2 [7%positive] ∧ rep w2 3 [].
Proof.
  apply (threadlist_transfer three_lists 1 2 3 7 [] [] []); try done; try set_solver.
  - split_and!; [apply NoDup_singleton|done|done|by vm_compute|by vm_compute|].
    intros a. unfold spine. cbn. rewrite !elem_of_cons, elem_of_nil.
    intros [->|[->|[->|[]]]]; by eexists.
  - split_and!; [constructor|done|done|by vm_compute|by vm_compute|].
    intros a. unfold spine. cbn. rewrite !elem_of_cons, elem_of_nil.
    intros [->|[->|[]]]; by eexists.
  - split_and!; [constructor|done|done|by vm_compute|by vm_compute|].
    intros a. unfold spine. cbn. rewrite !elem_of_cons, elem_of_nil.
    intros [->|[->|[]]]; by eexists.
Defined.
