(* ===== verification/PidTree.v ===== *)
(** * The process directory (kern/proc/pid.c)

    A tree of blocks of eight pids.  A subtree is a value of its own and the
    [parent] pointers are the path from the root: what the code does to the
    ancestors of a block is done when the recursion returns through them.
    [wf] is the search-tree invariant; [bindings] the pids in use. *)

From S2P Require Import Prelude.

Definition PID_DIR_SIZE : Z := 8.
Definition PID_MIN : Z := 2.
Definition PID_MAX : Z := 32767.

(** A [struct proc *] that is not [NULL]. *)
Definition proc : Type := positive.

Inductive pid_tree := PidTree
  (local_pids : list Z)
  (local_procs : list (option proc))
  (subtree_sizes : list Z)
  (subtrees : list (option pid_tree)).

Definition local_pids (t : pid_tree) := let '(PidTree x _ _ _) := t in x.
Definition local_procs (t : pid_tree) := let '(PidTree _ x _ _) := t in x.
Definition subtree_sizes (t : pid_tree) := let '(PidTree _ _ x _) := t in x.
Definition subtrees (t : pid_tree) := let '(PidTree _ _ _ x) := t in x.

(** ** Operations *)

(** A block without processes. *)
Definition empty_block : pid_tree :=
  PidTree (replicate 8 (-1)) (replicate 8 None) (replicate 8 0) (replicate 8 None).

(** The block is one allocation; whether [lock_create] succeeds is another answer
    of the script. *)
Definition pid_create_tree (kproc : option proc) (o : script) : option pid_tree * script :=
  let '(ok, o) := kmalloc o in
  if negb ok then (None, o) else
  let '(ok, o) := kmalloc o in
  if negb ok then (None, o) else
  let '(PidTree pids procs sizes subs) := empty_block in
  match kproc with
  | None => (Some (PidTree pids procs sizes subs), o)
  | Some k => (Some (PidTree (<[0%nat := 0]> pids) (<[0%nat := Some k]> procs) sizes subs), o)
  end.

(** The first free slot from [i] on. *)
Fixpoint free_slot (n : nat) (procs : list (option proc)) (i : Z) : res (option Z) :=
  match n with
  | O => Ret None
  | S n' =>
      p ← procs.[i];
      match p with
      | None => Ret (Some i)
      | Some _ => free_slot n' procs (i + 1)
      end
  end.

(** The least-full subtree. *)
Fixpoint least_full (n : nat) (sizes : list Z) (i max idx : Z) : res Z :=
  match n with
  | O => Ret idx
  | S n' =>
      s ← sizes.[i];
      if s <? max then least_full n' sizes (i + 1) s i
      else least_full n' sizes (i + 1) max idx
  end.

Fixpoint pid_allocate_helper (fuel : nat) (tree : pid_tree) (p : proc)
    (pid_min pid_max : Z) (o : script) : res (Z * pid_tree * script) :=
  match fuel with
  | O => Diverge
  | S fuel' =>
      let '(PidTree pids procs sizes subs) := tree in
      f ← free_slot 8 procs 0;
      match f with
      | Some i =>
          old ← pids.[i];
          let pid := if old =? -1
                     then pid_min + Z.quot (i * (pid_max - pid_min)) PID_DIR_SIZE else old in
          pids ← pids.[i <- pid];
          procs ← procs.[i <- Some p];
          Ret (pid, PidTree pids procs sizes subs, o)
      | None =>
          s0 ← sizes.[0];
          idx ← least_full 7 sizes 1 s0 0;
          sub ← subs.[idx];
          let '(sub, o) := match sub with
            | Some s => (Some s, o)
            | None => pid_create_tree None o
            end in
          match sub with
          | None => Ret (-1, PidTree pids procs sizes subs, o)
          | Some s =>
              sz ← sizes.[idx];
              sizes ← sizes.[idx <- sz + 1];
              at_idx ← pids.[idx];
              let pid_min := if pid_min <? at_idx + 1 then at_idx + 1 else pid_min in
              pid_max ← (if idx <? PID_DIR_SIZE - 1
                         then nx ← pids.[idx + 1]; Ret (nx - 1) else Ret pid_max);
              '(pid, s, o) ← pid_allocate_helper fuel' s p pid_min pid_max o;
              subs ← subs.[idx <- Some s];
              Ret (pid, PidTree pids procs sizes subs, o)
          end
      end
  end.

(** Blocks with ranges of fewer than eight pids are at the fifth level. *)
Definition tree_fuel : nat := 20.

Definition pid_allocate (tree : option pid_tree) (p : proc) (o : script)
    : res (Z * option pid_tree * script) :=
  match tree with
  | None => Ret (-1, None, o)
  | Some t =>
      '(pid, t, o) ← pid_allocate_helper tree_fuel t p PID_MIN PID_MAX o;
      Ret (pid, Some t, o)
  end.

(** Where the scan of a block for a pid ends. *)
Inductive place := Here (i : Z) | Below (i : Z) | Nowhere.

Fixpoint locate (n : nat) (pids : list Z) (i pid : Z) : res place :=
  match n with
  | O => Ret (Below (PID_DIR_SIZE - 1))
  | S n' =>
      q ← pids.[i];
      if pid =? q then Ret (Here i)
      else if pid <? q then Ret (if i =? 0 then Nowhere else Below (i - 1))
      else locate n' pids (i + 1) pid
  end.

Fixpoint pid_get_proc (fuel : nat) (tree : option pid_tree) (pid : Z) : res (option proc) :=
  match fuel with
  | O => Diverge
  | S fuel' =>
      match tree with
      | None => Ret None
      | Some t =>
          pl ← locate 8 (local_pids t) 0 pid;
          match pl with
          | Here i => (local_procs t).[i]
          | Nowhere => Ret None
          | Below i => s ← (subtrees t).[i]; pid_get_proc fuel' s pid
          end
      end
  end.

(** [pid_destroy_tree]: 1 when the tree was empty, 0 when it met a process. *)
Fixpoint destroy_children (n : nat) (destroy : pid_tree → res Z) (t : pid_tree) (i : Z) : res Z :=
  match n with
  | O => Ret 1
  | S n' =>
      s ← (subtrees t).[i];
      det ← (match s with Some s => destroy s | None => Ret 1 end);
      if det =? 0 then Ret 0 else
      p ← (local_procs t).[i];
      match p with
      | Some _ => Ret 0
      | None => destroy_children n' destroy t (i + 1)
      end
  end.

Fixpoint pid_destroy_tree (fuel : nat) (tree : option pid_tree) : res Z :=
  match fuel with
  | O => Diverge
  | S fuel' =>
      match tree with
      | None => Ret 0
      | Some t => destroy_children 8 (λ s, pid_destroy_tree fuel' (Some s)) t 0
      end
  end.

(** What the removal of [pid] does to an ancestor: the last slot [j] with a
    smaller pid is taken for the one above the removed process. *)
Fixpoint shrink_ancestor (n : nat) (t : pid_tree) (pid : Z) : res pid_tree :=
  match n with
  | O => Ret t
  | S n' =>
      let j := Z.of_nat n' in
      let '(PidTree pids procs sizes subs) := t in
      q ← pids.[j];
      if q <? pid then
        sz ← sizes.[j];
        sizes ← sizes.[j <- sz - 1];
        if sz - 1 =? 0 then
          s ← subs.[j];
          _ ← pid_destroy_tree tree_fuel s;
          subs ← subs.[j <- None];
          Ret (PidTree pids procs sizes subs)
        else Ret (PidTree pids procs sizes subs)
      else shrink_ancestor n' t pid
  end.

(** The process removed, whether the pid was found, and the tree. *)
Fixpoint pid_remove_proc (fuel : nat) (tree : option pid_tree) (pid : Z)
    : res (option proc * bool * option pid_tree) :=
  match fuel with
  | O => Diverge
  | S fuel' =>
      match tree with
      | None => Ret (None, false, None)
      | Some (PidTree pids procs sizes subs) =>
          pl ← locate 8 pids 0 pid;
          match pl with
          | Here i =>
              p ← procs.[i];
              procs ← procs.[i <- None];
              sz ← sizes.[i];
              lone ← (if sz =? 0 then
                        if i =? 0 then Ret true
                        else sl ← sizes.[i - 1]; Ret (sl =? 0)
                      else Ret false);
              pids ← (if (lone : bool) then pids.[i <- -1] else Ret pids);
              Ret (p, true, Some (PidTree pids procs sizes subs))
          | Nowhere => Ret (None, false, tree)
          | Below i =>
              s ← subs.[i];
              '(p, found, s) ← pid_remove_proc fuel' s pid;
              subs ← subs.[i <- s];
              let t := PidTree pids procs sizes subs in
              if (found : bool) then t ← shrink_ancestor 8 t pid; Ret (p, true, Some t)
              else Ret (p, false, Some t)
          end
      end
  end.

(** ** Specification *)

(** The pid that belongs to slot [i] of a block for the range [lo..hi]; the
    first slot of the root is the kernel's. *)
Definition slot_pid (lo hi i : Z) : Z := lo + i * (hi - lo) / 8.
Definition pid_at (root : bool) (lo hi i : Z) : Z :=
  if root && (i =? 0) then 0 else slot_pid lo hi i.

(** The range of the subtree after slot [i]. *)
Definition sub_lo (root : bool) (lo hi i : Z) : Z := Z.max lo (pid_at root lo hi i + 1).
Definition sub_hi (root : bool) (lo hi i : Z) : Z :=
  if i <? 7 then pid_at root lo hi (i + 1) - 1 else hi.

(** A range wide enough for [d] levels, and how many pids they hold. *)
Fixpoint min_width (d : nat) : Z :=
  match d with O => 0 | S d' => 8 * (Z.max 1 (min_width d' + 2)) end.
Fixpoint capacity (d : nat) : Z :=
  match d with O => 0 | S d' => 8 + 8 * capacity d' end.

(** The pids in use, with their processes. *)
Definition here (pids : list Z) (procs : list (option proc)) : list (Z * proc) :=
  omap (λ x, (x.1,.) <$> x.2) (zip pids procs).

Fixpoint bindings (d : nat) (t : pid_tree) : list (Z * proc) :=
  match d with
  | O => []
  | S d' =>
      here (local_pids t) (local_procs t) ++
      concat ((λ s, match s with Some s => bindings d' s | None => [] end) <$> subtrees t)
  end.

Definition sub_bindings (d : nat) (s : option pid_tree) : list (Z * proc) :=
  match s with Some s => bindings d s | None => [] end.

(** Where ranges start. *)
Definition lo_ok (root : bool) (lo : Z) : Prop := if root then lo = 2 else 0 < lo.

(** The search-tree invariant of a block for the range [lo..hi], over at most
    [d] levels. *)
Fixpoint wf (d : nat) (root : bool) (lo hi : Z) (t : pid_tree) {struct d} : Prop :=
  match d with
  | O => False
  | S d' =>
      let '(PidTree pids procs sizes subs) := t in
      length pids = 8%nat ∧ length procs = 8%nat ∧ length sizes = 8%nat ∧ length subs = 8%nat ∧
      min_width d ≤ hi - lo ∧ lo_ok root lo ∧
      (∀ i p, pids !! i = Some p → p = -1 ∨ p = pid_at root lo hi (Z.of_nat i)) ∧
      (∀ i q, procs !! i = Some (Some q) → pids !! i = Some (pid_at root lo hi (Z.of_nat i))) ∧
      (root = true → ∃ q, procs !! 0%nat = Some (Some q)) ∧
      (∀ i s, subs !! i = Some s → sizes !! i = Some (Z.of_nat (length (sub_bindings d' s)))) ∧
      (∀ i s, subs !! i = Some (Some s) →
         pids !! i = Some (pid_at root lo hi (Z.of_nat i)) ∧
         (i < 7 → pids !! S i = Some (pid_at root lo hi (Z.of_nat (S i))))%nat ∧
         wf d' false (sub_lo root lo hi (Z.of_nat i)) (sub_hi root lo hi (Z.of_nat i)) s)
  end.

(** ** Ranges *)

Lemma pid_at_lt root lo hi i j : 8 ≤ hi - lo → lo_ok root lo →
  0 ≤ i < j → j ≤ 7 → pid_at root lo hi i < pid_at root lo hi j.
Proof.
  intros Hw Hr Hij Hj. unfold pid_at, slot_pid, lo_ok in *.
  assert (i * (hi - lo) / 8 + 1 ≤ j * (hi - lo) / 8).
  { apply Z.div_le_lower_bound; [lia|].
    pose proof (Z.mul_div_le (i * (hi - lo)) 8). nia. }
  assert (0 ≤ i * (hi - lo) / 8) by (apply Z.div_pos; nia).
  destruct root; cbn [andb]; [|lia].
  destruct (Z.eqb_spec i 0), (Z.eqb_spec j 0); lia.
Qed.

Lemma pid_at_range root lo hi i : 8 ≤ hi - lo → lo_ok root lo →
  0 ≤ i ≤ 7 → 0 ≤ pid_at root lo hi i ≤ hi ∧ (root && (i =? 0) = false → lo ≤ pid_at root lo hi i).
Proof.
  intros Hw Hr Hi. unfold pid_at, slot_pid, lo_ok in *.
  assert (0 ≤ i * (hi - lo) / 8) by (apply Z.div_pos; nia).
  assert (i * (hi - lo) / 8 ≤ hi - lo) by (apply Z.div_le_upper_bound; nia).
  destruct root; cbn [andb]; [destruct (Z.eqb_spec i 0)|]; split; try lia; done.
Qed.

Lemma min_width_8 d : 8 ≤ min_width (S d).
Proof. cbn. lia. Qed.

(** A subtree's range is wide enough for one level less. *)
Lemma sub_width d root lo hi i : min_width (S (S d)) ≤ hi - lo →
  lo_ok root lo → 0 ≤ i ≤ 7 →
  min_width (S d) ≤ sub_hi root lo hi i - sub_lo root lo hi i ∧ 0 < sub_lo root lo hi i ∧
  lo ≤ sub_lo root lo hi i ∧ sub_hi root lo hi i ≤ hi.
Proof.
  intros Hw Hr Hi. assert (8 * (min_width (S d) + 2) ≤ hi - lo) as Hw' by (cbn in *; lia).
  assert (8 ≤ hi - lo) as H8 by (pose proof (min_width_8 d); lia).
  set (m := min_width (S d)) in *. clearbody m. clear Hw.
  assert (m + 2 ≤ (hi - lo) / 8) as Hq by (apply Z.div_le_lower_bound; lia).
  assert (0 ≤ i * (hi - lo) / 8) by (apply Z.div_pos; nia).
  pose proof (Z.mul_div_le (i * (hi - lo)) 8).
  assert (i < 7 → i * (hi - lo) / 8 + (m + 2) ≤ (i + 1) * (hi - lo) / 8) as Hstep.
  { intros. apply Z.div_le_lower_bound; [lia|]. nia. }
  assert (i < 7 → (i + 1) * (hi - lo) / 8 ≤ hi - lo) as Hle.
  { intros. apply Z.div_le_upper_bound; nia. }
  unfold sub_lo, sub_hi, pid_at, slot_pid, lo_ok in *.
  destruct root; cbn [andb].
  - destruct (Z.eqb_spec i 0) as [->|]; [cbn [Z.ltb Z.compare]; replace (0 + 1 =? 0) with false by done|];
      [specialize (Hstep ltac:(lia)); specialize (Hle ltac:(lia)); lia|].
    destruct (Z.ltb_spec i 7).
    + destruct (Z.eqb_spec (i + 1) 0); [lia|]. specialize (Hstep ltac:(lia)); specialize (Hle ltac:(lia)). lia.
    + replace i with 7 in * by lia. lia.
  - destruct (Z.ltb_spec i 7).
    + specialize (Hstep ltac:(lia)); specialize (Hle ltac:(lia)). lia.
    + replace i with 7 in * by lia. lia.
Qed.

(** ** Bindings *)

Lemma elem_of_here pids procs p q :
  (p, q) ∈ here pids procs ↔ ∃ i, pids !! i = Some p ∧ procs !! i = Some (Some q).
Proof.
  unfold here. rewrite list_elem_of_omap. split.
  - intros ([p' o] & Hin & Heq). apply list_elem_of_lookup in Hin as [i Hi].
    apply lookup_zip_with_Some in Hi as (? & o' & ? & ? & ?). simplify_eq/=.
    destruct o'; simplify_eq/=. eauto.
  - intros (i & Hp & Hq). exists (p, Some q). split; [|done].
    apply list_elem_of_lookup. exists i. apply lookup_zip_with_Some. eauto.
Qed.

Lemma elem_of_bindings d t x :
  x ∈ bindings (S d) t ↔ x ∈ here (local_pids t) (local_procs t) ∨
    ∃ i s, subtrees t !! i = Some (Some s) ∧ x ∈ bindings d s.
Proof.
  cbn [bindings]. rewrite elem_of_app. f_equiv.
  rewrite list_elem_of_In, List.in_concat. split.
  - intros (l & Hl & Hx). apply list_elem_of_In, list_elem_of_fmap in Hl as ([s|] & -> & Hs).
    + apply list_elem_of_lookup in Hs as [i Hi]. exists i, s. by rewrite list_elem_of_In.
    + done.
  - intros (i & s & Hi & Hx). exists (bindings d s). rewrite <-!list_elem_of_In. split; [|done].
    apply list_elem_of_fmap. exists (Some s). split; [done|]. by eapply list_elem_of_lookup_2.
Qed.

Lemma wf_index d root lo hi t i s : wf (S d) root lo hi t → subtrees t !! i = Some s → (i < 8)%nat.
Proof.
  destruct t as [pids procs sizes subs]. intros (_ & _ & _ & <- & _) Hi.
  by eapply lookup_lt_Some.
Qed.

(** All pids of a block are in its range. *)
Lemma bindings_range d root lo hi t p q : wf d root lo hi t → (p, q) ∈ bindings d t →
  0 ≤ p ≤ hi ∧ (root = false → lo ≤ p).
Proof.
  revert root lo hi t. induction d as [|d IH]; intros root lo hi t Hwf Hin; [done|].
  apply elem_of_bindings in Hin as [Hin|(i & s & Hi & Hin)].
  - destruct t as [pids procs sizes subs]. cbn in Hin.
    destruct Hwf as (Hl & _ & _ & _ & Hw & Hlo & _ & Hpr & _).
    apply elem_of_here in Hin as (i & Hp & Hq). pose proof (Hpr i q Hq) as Hp'.
    pose proof (lookup_lt_Some _ _ _ Hp). pose proof (min_width_8 d).
    destruct (pid_at_range root lo hi (Z.of_nat i)) as [? Hlo']; [lia|done|lia|].
    rewrite Hp in Hp'. injection Hp' as ->. split; [done|]. intros ->. by apply Hlo'.
  - pose proof (wf_index _ _ _ _ _ _ _ Hwf Hi) as Hi8.
    destruct t as [pids procs sizes subs]. cbn in Hi.
    destruct Hwf as (_ & _ & _ & _ & Hw & Hlo & _ & _ & _ & _ & Hs).
    destruct (Hs i s Hi) as (_ & _ & Hws). destruct d as [|d]; [done|].
    destruct (sub_width d root lo hi (Z.of_nat i) Hw Hlo) as (_ & ? & ? & ?); [lia|].
    destruct (IH _ _ _ _ Hws Hin) as [? Hp]. specialize (Hp eq_refl). lia.
Qed.

(** ** Look-up *)

Lemma locate_correct n pids i pid : length pids = 8%nat → (i + n)%nat = 8%nat →
  (∀ j x, (j < i)%nat → pids !! j = Some x → x < pid) →
  ∃ pl, locate n pids (Z.of_nat i) pid = Ret pl ∧
    match pl with
    | Here k => ∃ k' : nat, k = Z.of_nat k' ∧ pids !! k' = Some pid
    | Nowhere => ∃ x, pids !! 0%nat = Some x ∧ pid < x
    | Below k => ∃ k' : nat, k = Z.of_nat k' ∧ (k' < 8)%nat ∧
        (∀ j x, (j ≤ k')%nat → pids !! j = Some x → x < pid) ∧
        ((k' < 7)%nat → ∃ x, pids !! S k' = Some x ∧ pid < x)
    end.
Proof.
  intros Hl. revert i. induction n as [|n IH]; intros i Hi Hlt; cbn [locate].
  { exists (Below 7). split; [done|]. exists 7%nat. split_and!; [done|lia| |lia].
    intros j x Hj Hx. apply (Hlt j x); [lia|done]. }
  destruct (lookup_lt_is_Some_2 pids i) as [q Hq]; [lia|].
  rewrite (rd_lookup _ _ q) by (rewrite ?Nat2Z.id; done || lia). cbn [mbind res_bind].
  destruct (Z.eqb_spec pid q) as [->|Hne]; [by eexists; split; [done|]; exists i|].
  destruct (Z.ltb_spec pid q).
  - destruct i as [|i]; cbn [Z.of_nat Z.eqb]; [by eexists; split; [done|]; exists q|].
    eexists. split; [done|].
    replace (Z.pos (Pos.of_succ_nat i) =? 0) with false by done.
    exists i. split_and!; [lia|lia| |by exists q]. intros j x Hj Hx. apply (Hlt j x); [lia|done].
  - replace (Z.of_nat i + 1) with (Z.of_nat (S i)) by lia. apply IH; [lia|].
    intros j x Hj Hx. destruct (decide (j = i)) as [->|]; [simplify_eq; lia|].
    apply (Hlt j x); [lia|done].
Qed.

(** A slot's pid is not below another slot. *)
Lemma here_not_below d root lo hi t i k s p q : wf (S d) root lo hi t →
  local_pids t !! i = Some p → p ≠ -1 → subtrees t !! k = Some (Some s) → (p, q) ∉ bindings d s.
Proof.
  intros Hwf Hi Hp Hk Hin. pose proof (wf_index _ _ _ _ _ _ _ Hwf Hk) as Hk8.
  destruct t as [pids procs sizes subs]. cbn in Hi, Hk.
  destruct Hwf as (Hl & _ & _ & _ & Hw & Hlo & Hpids & _ & _ & _ & Hs).
  destruct (Hs k s Hk) as (_ & _ & Hws). pose proof (lookup_lt_Some _ _ _ Hi).
  pose proof (min_width_8 d).
  destruct (bindings_range _ _ _ _ _ _ _ Hws Hin) as [Hr1 Hr2]. specialize (Hr2 eq_refl).
  destruct (Hpids i p Hi) as [?|Hpi]; [done|].
  unfold sub_lo, sub_hi in *. destruct (decide (i ≤ k)%nat).
  - assert (p ≤ pid_at root lo hi (Z.of_nat k)); [|lia].
    destruct (decide (i = k)) as [->|]; [lia|].
    pose proof (pid_at_lt root lo hi (Z.of_nat i) (Z.of_nat k) ltac:(lia) Hlo ltac:(lia) ltac:(lia)). lia.
  - destruct (Z.ltb_spec (Z.of_nat k) 7); [|lia].
    assert (pid_at root lo hi (Z.of_nat k + 1) ≤ p); [|lia].
    destruct (decide (i = S k)) as [->|]; [rewrite Hpi; apply Z.eq_le_incl; f_equal; lia|].
    pose proof (pid_at_lt root lo hi (Z.of_nat k + 1) (Z.of_nat i) ltac:(lia) Hlo ltac:(lia) ltac:(lia)). lia.
Qed.

(** Different slots have different pids. *)
Lemma here_inj d root lo hi t i j p : wf (S d) root lo hi t →
  local_pids t !! i = Some p → local_pids t !! j = Some p → p ≠ -1 → i = j.
Proof.
  destruct t as [pids procs sizes subs]. intros Hwf Hi Hj Hp. cbn in Hi, Hj.
  destruct Hwf as (Hl & _ & _ & _ & Hw & Hlo & Hpids & _).
  pose proof (lookup_lt_Some _ _ _ Hi). pose proof (lookup_lt_Some _ _ _ Hj).
  pose proof (min_width_8 d).
  destruct (Hpids i p Hi) as [?|Hpi]; [done|]. destruct (Hpids j p Hj) as [?|Hpj]; [done|].
  destruct (lt_eq_lt_dec i j) as [[Hlt|Heq]|Hlt]; [|done|].
  - pose proof (pid_at_lt root lo hi (Z.of_nat i) (Z.of_nat j) ltac:(lia) Hlo ltac:(lia) ltac:(lia)). lia.
  - pose proof (pid_at_lt root lo hi (Z.of_nat j) (Z.of_nat i) ltac:(lia) Hlo ltac:(lia) ltac:(lia)). lia.
Qed.

Lemma pid_at_le d root lo hi i j : min_width (S d) ≤ hi - lo → lo_ok root lo →
  (i ≤ j < 8)%nat → pid_at root lo hi (Z.of_nat i) ≤ pid_at root lo hi (Z.of_nat j).
Proof.
  intros Hw Hlo Hij. pose proof (min_width_8 d).
  destruct (decide (i = j)) as [->|]; [lia|].
  pose proof (pid_at_lt root lo hi (Z.of_nat i) (Z.of_nat j) ltac:(lia) Hlo ltac:(lia) ltac:(lia)). lia.
Qed.

(** Nothing from slot [k] on is smaller than the pid of slot [k]. *)
Lemma none_from d root lo hi t k x pid q : wf (S d) root lo hi t → 0 ≤ pid →
  local_pids t !! k = Some x → pid < x →
  (∀ i, (k ≤ i)%nat → local_pids t !! i = Some pid → local_procs t !! i ≠ Some (Some q)) ∧
  (∀ i s, (k ≤ i)%nat → subtrees t !! i = Some (Some s) → (pid, q) ∉ bindings d s).
Proof.
  intros Hwf Hpid Hk Hx. destruct t as [pids procs sizes subs]. cbn in *.
  destruct Hwf as (Hl & Hlp & _ & Hls & Hw & Hlo & Hpids & Hpr & _ & _ & Hs).
  assert (x = pid_at root lo hi (Z.of_nat k)) as -> by (destruct (Hpids k x Hk); [lia|done]).
  split.
  - intros i Hi Hp Hq. pose proof (lookup_lt_Some _ _ _ Hp). rewrite (Hpr i q Hq) in Hp.
    injection Hp as <-. pose proof (pid_at_le d root lo hi k i Hw Hlo ltac:(lia)). lia.
  - intros i s Hi Hsub Hin. pose proof (lookup_lt_Some _ _ _ Hsub).
    destruct (Hs i s Hsub) as (_ & _ & Hws).
    destruct (bindings_range _ _ _ _ _ _ _ Hws Hin) as [_ Hr]. specialize (Hr eq_refl).
    unfold sub_lo in Hr. pose proof (pid_at_le d root lo hi k i Hw Hlo ltac:(lia)). lia.
Qed.

(** Nothing before the subtree of slot [k] is larger than the slots up to [k]. *)
Lemma none_before d root lo hi t k pid q : wf (S d) root lo hi t →
  (∀ j x, (j ≤ k)%nat → local_pids t !! j = Some x → x < pid) → (k < 8)%nat →
  ∀ i s, (i < k)%nat → subtrees t !! i = Some (Some s) → (pid, q) ∉ bindings d s.
Proof.
  intros Hwf Hlt Hk i s Hi Hsub Hin. destruct t as [pids procs sizes subs]. cbn in *.
  destruct Hwf as (Hl & _ & _ & _ & Hw & Hlo & Hpids & _ & _ & _ & Hs).
  destruct (Hs i s Hsub) as (_ & Hnext & Hws). specialize (Hnext ltac:(lia)).
  pose proof (Hlt (S i) _ ltac:(lia) Hnext).
  destruct (bindings_range _ _ _ _ _ _ _ Hws Hin) as [Hr _].
  unfold sub_hi in Hr. destruct (Z.ltb_spec (Z.of_nat i) 7); [|lia].
  replace (Z.of_nat i + 1) with (Z.of_nat (S i)) in Hr by lia. lia.
Qed.

(** Between two slots, only the subtree there matters. *)
Lemma below_bindings d root lo hi t k r pid q : wf (S d) root lo hi t → 0 ≤ pid → (k < 8)%nat →
  (∀ j x, (j ≤ k)%nat → local_pids t !! j = Some x → x < pid) →
  ((k < 7)%nat → ∃ x, local_pids t !! S k = Some x ∧ pid < x) →
  subtrees t !! k = Some r → (pid, q) ∈ bindings (S d) t ↔ (pid, q) ∈ sub_bindings d r.
Proof.
  intros Hwf Hpid Hk Hlt Hgt Hr. rewrite elem_of_bindings, elem_of_here. split.
  - assert (length (local_pids t) = 8%nat) by (destruct t; cbn in Hwf; naive_solver).
    intros [(i & Hi & Hq)|(i & s & Hi & Hin)].
    + exfalso. pose proof (lookup_lt_Some _ _ _ Hi).
      destruct (decide (i ≤ k)%nat); [pose proof (Hlt i pid ltac:(lia) Hi); lia|].
      destruct (Hgt ltac:(lia)) as (x & Hx & Hpx).
      destruct (none_from d root lo hi t (S k) x pid q Hwf Hpid Hx Hpx) as [Hn _].
      by apply (Hn i); [lia|..].
    + pose proof (wf_index _ _ _ _ _ _ _ Hwf Hi).
      destruct (lt_eq_lt_dec i k) as [[Hlti|Heq]|Hlti].
      * by destruct (none_before d root lo hi t k pid q Hwf Hlt Hk i s Hlti Hi).
      * subst i. rewrite Hr in Hi. by injection Hi as ->.
      * destruct (Hgt ltac:(lia)) as (x & Hx & Hpx).
        destruct (none_from d root lo hi t (S k) x pid q Hwf Hpid Hx Hpx) as [_ Hn].
        by destruct (Hn i s ltac:(lia) Hi).
  - destruct r as [s|]; [intros; right; eauto|set_solver].
Qed.

(** The look-up finds the processes of the tree and no others. *)
Lemma pid_get_correct fuel d root lo hi t pid : wf d root lo hi t → 0 ≤ pid → (d < fuel)%nat →
  ∃ r, pid_get_proc fuel (Some t) pid = Ret r ∧ ∀ q, r = Some q ↔ (pid, q) ∈ bindings d t.
Proof.
  revert d root lo hi t. induction fuel as [|fuel IH]; intros d root lo hi t Hwf Hpid Hf; [lia|].
  destruct d as [|d]; [done|]. cbn [pid_get_proc].
  assert (length (local_pids t) = 8%nat ∧ length (local_procs t) = 8%nat ∧ length (subtrees t) = 8%nat)
    as (Hl & Hlp & Hls) by (destruct t; cbn in Hwf; naive_solver).
  destruct (locate_correct 8 (local_pids t) 0 pid) as (pl & Hpl & Hcase); [done|done|lia|].
  change (Z.of_nat 0) with 0 in Hpl. rewrite Hpl. cbn [mbind res_bind].
  destruct pl as [k|k|].
  - destruct Hcase as (k' & -> & Hk). pose proof (lookup_lt_Some _ _ _ Hk).
    destruct (lookup_lt_is_Some_2 (local_procs t) k') as [r Hr]; [lia|].
    rewrite (rd_lookup _ _ r) by (rewrite ?Nat2Z.id; done || lia). exists r. split; [done|].
    intros q. rewrite elem_of_bindings, elem_of_here. split; [intros ->; eauto|].
    intros [(i & Hi & Hq)|(i & s & Hi & Hin)].
    + assert (i = k') as -> by (eapply here_inj; [done..|lia]). congruence.
    + by destruct (here_not_below d root lo hi t k' i s pid q Hwf Hk ltac:(lia) Hi).
  - destruct Hcase as (k' & -> & Hk & Hlt & Hgt).
    destruct (lookup_lt_is_Some_2 (subtrees t) k') as [r Hr]; [lia|].
    rewrite (rd_lookup _ _ r) by (rewrite ?Nat2Z.id; done || lia). cbn [mbind res_bind].
    setoid_rewrite (below_bindings d root lo hi t k' r pid _ Hwf Hpid Hk Hlt Hgt Hr).
    destruct r as [s|]; [|destruct fuel; [lia|]; exists None; split; [done|]; set_solver].
    destruct t as [pids procs sizes subs]. destruct Hwf as (_ & _ & _ & _ & _ & _ & _ & _ & _ & _ & Hs).
    destruct (Hs k' s Hr) as (_ & _ & Hws). apply (IH d _ _ _ _ Hws); lia.
  - destruct Hcase as (x & Hx & Hpx). exists None. split; [done|]. intros q.
    destruct (none_from d root lo hi t 0 x pid q Hwf Hpid Hx Hpx) as [Hn Hn'].
    rewrite elem_of_bindings, elem_of_here. split; [done|].
    intros [(i & Hi & Hq)|(i & s & Hi & Hin)].
    + by destruct (Hn i ltac:(lia) Hi).
    + by destruct (Hn' i s ltac:(lia) Hi).
Qed.

(** ** No pid twice *)

Lemma NoDup_fst_concat {A B} (ls : list (list (A * B))) :
  (∀ i l, ls !! i = Some l → NoDup l.*1) →
  (∀ i j l l' x y z, (i < j)%nat → ls !! i = Some l → ls !! j = Some l' → (x, y) ∈ l → (x, z) ∉ l') →
  NoDup (concat ls).*1.
Proof.
  induction ls as [|l ls IH]; intros Hn Hd; [constructor|].
  cbn [concat]. rewrite fmap_app. apply NoDup_app. split_and!.
  - by apply (Hn 0%nat).
  - intros x Hx Hx'. apply list_elem_of_fmap in Hx as ([x0 y] & -> & Hx).
    apply list_elem_of_fmap in Hx' as ([x1 z] & Heq & Hx'). cbn in Heq. subst x1.
    rewrite list_elem_of_In, List.in_concat in Hx'. destruct Hx' as (l' & Hl' & Hx').
    apply list_elem_of_In, list_elem_of_lookup in Hl' as [j Hj].
    apply (Hd 0%nat (S j) l l' x0 y z); [lia|done..|by rewrite list_elem_of_In].
  - apply IH; [intros i; apply (Hn (S i))|].
    intros i j l1 l2 x y z Hij. apply (Hd (S i) (S j)). lia.
Qed.

Lemma here_concat pids procs : here pids procs =
  concat (zip_with (λ p o, match o with Some q => [(p, q)] | None => [] end) pids procs).
Proof.
  unfold here. revert procs. induction pids as [|p pids IH]; intros [|[q|] procs]; cbn; try done.
  by rewrite IH.
Qed.

Lemma here_NoDup d root lo hi t : wf (S d) root lo hi t →
  NoDup (here (local_pids t) (local_procs t)).*1.
Proof.
  intros Hwf. rewrite here_concat. apply NoDup_fst_concat.
  - intros i l Hi. apply lookup_zip_with_Some in Hi as (p & [q|] & -> & _); repeat constructor; set_solver.
  - intros i j l l' x y z Hij Hi Hj Hx Hx'.
    apply lookup_zip_with_Some in Hi as (p & [q|] & -> & Hp & Hq); [|set_solver].
    apply lookup_zip_with_Some in Hj as (p' & [q'|] & -> & Hp' & Hq'); [|set_solver].
    apply list_elem_of_singleton in Hx, Hx'. injection Hx as -> ->. injection Hx' as <- ->.
    assert (0 ≤ p).
    { destruct (bindings_range (S d) root lo hi t p q' Hwf); [|lia].
      apply elem_of_bindings. left. apply elem_of_here. eauto. }
    assert (i = j); [|lia]. eapply here_inj; [done..|lia].
Qed.

Lemma subs_disjoint d root lo hi t i j s s' x y z : wf (S d) root lo hi t → (i < j)%nat →
  subtrees t !! i = Some (Some s) → subtrees t !! j = Some (Some s') →
  (x, y) ∈ bindings d s → (x, z) ∉ bindings d s'.
Proof.
  intros Hwf Hij Hs Hs' Hx Hx'. pose proof (wf_index _ _ _ _ _ _ _ Hwf Hs').
  destruct t as [pids procs sizes subs].
  destruct Hwf as (_ & _ & _ & _ & Hw & Hlo & _ & _ & _ & _ & Hsubs).
  destruct (Hsubs i s Hs) as (_ & _ & Hws). destruct (Hsubs j s' Hs') as (_ & _ & Hws').
  destruct (bindings_range _ _ _ _ _ _ _ Hws Hx) as [Hr _].
  destruct (bindings_range _ _ _ _ _ _ _ Hws' Hx') as [_ Hr']. specialize (Hr' eq_refl).
  unfold sub_hi, sub_lo in *. destruct (Z.ltb_spec (Z.of_nat i) 7); [|lia].
  pose proof (pid_at_le d root lo hi (S i) j Hw Hlo ltac:(lia)) as Hle.
  replace (Z.of_nat (S i)) with (Z.of_nat i + 1) in Hle by lia. lia.
Qed.

Lemma bindings_NoDup d root lo hi t : wf d root lo hi t → NoDup (bindings d t).*1.
Proof.
  revert root lo hi t. induction d as [|d IH]; intros root lo hi t Hwf; [done|].
  cbn [bindings]. rewrite fmap_app. apply NoDup_app. split_and!.
  - by eapply here_NoDup.
  - intros p Hp Hp'. apply list_elem_of_fmap in Hp as ([p0 q] & -> & Hp).
    apply list_elem_of_fmap in Hp' as ([p1 z] & Heq & Hp'). cbn in Heq. subst p1.
    rewrite list_elem_of_In, List.in_concat in Hp'. destruct Hp' as (l & Hl & Hp').
    apply list_elem_of_In, list_elem_of_fmap in Hl as ([s|] & -> & Hs); [|done].
    apply list_elem_of_lookup in Hs as [k Hk]. apply list_elem_of_In in Hp'.
    assert (0 ≤ p0).
    { destruct (bindings_range (S d) root lo hi t p0 q Hwf); [|lia]. apply elem_of_bindings. by left. }
    apply elem_of_here in Hp as (i & Hi & _).
    by eapply here_not_below; [done|exact Hi|lia|exact Hk|].
  - apply NoDup_fst_concat.
    + intros i l Hi. apply list_lookup_fmap_Some in Hi as ([s|] & -> & Hs); [|constructor].
      destruct t as [pids procs sizes subs].
      destruct Hwf as (_ & _ & _ & _ & _ & _ & _ & _ & _ & _ & Hsubs).
      by eapply IH, Hsubs.
    + intros i j l l' x y z Hij Hi Hj.
      apply list_lookup_fmap_Some in Hi as ([s|] & -> & Hs); [|set_solver].
      apply list_lookup_fmap_Some in Hj as ([s'|] & -> & Hs'); [|set_solver].
      by eapply subs_disjoint.
Qed.

(** ** Allocation *)

Lemma free_slot_correct n procs i : length procs = 8%nat → (i + n)%nat = 8%nat →
  (∀ j, (j < i)%nat → ∃ q, procs !! j = Some (Some q)) →
  (free_slot n procs (Z.of_nat i) = Ret None ∧ ∀ j, (j < 8)%nat → ∃ q, procs !! j = Some (Some q)) ∨
  ∃ k : nat, free_slot n procs (Z.of_nat i) = Ret (Some (Z.of_nat k)) ∧ procs !! k = Some None.
Proof.
  intros Hl. revert i. induction n as [|n IH]; intros i Hi Hall; cbn [free_slot].
  { left. split; [done|]. intros j Hj. apply Hall. lia. }
  destruct (lookup_lt_is_Some_2 procs i) as [q Hq]; [lia|].
  rewrite (rd_lookup _ _ q) by (rewrite ?Nat2Z.id; done || lia). cbn [mbind res_bind].
  destruct q as [q|]; [|by right; eexists].
  replace (Z.of_nat i + 1) with (Z.of_nat (S i)) by lia. apply IH; [lia|].
  intros j Hj. destruct (decide (j = i)) as [->|]; [by eexists|]. apply Hall. lia.
Qed.

Lemma least_full_correct n sizes i idx m : length sizes = 8%nat → (i + n)%nat = 8%nat →
  sizes !! idx = Some m → (∀ j x, (j < i)%nat → sizes !! j = Some x → m ≤ x) →
  ∃ (k : nat) m', least_full n sizes (Z.of_nat i) m (Z.of_nat idx) = Ret (Z.of_nat k) ∧
    sizes !! k = Some m' ∧ ∀ j x, sizes !! j = Some x → m' ≤ x.
Proof.
  intros Hl. revert i idx m. induction n as [|n IH]; intros i idx m Hi Hm Hall; cbn [least_full].
  { exists idx, m. split_and!; [done..|]. intros j x Hx. apply (Hall j x); [|done].
    pose proof (lookup_lt_Some _ _ _ Hx). lia. }
  destruct (lookup_lt_is_Some_2 sizes i) as [q Hq]; [lia|].
  rewrite (rd_lookup _ _ q) by (rewrite ?Nat2Z.id; done || lia). cbn [mbind res_bind].
  replace (Z.of_nat i + 1) with (Z.of_nat (S i)) by lia.
  destruct (Z.ltb_spec q m); (apply IH; [lia|done|]); intros j x Hj Hx;
    (destruct (decide (j = i)) as [->|]; [simplify_eq; lia|]);
    pose proof (Hall j x ltac:(lia) Hx); lia.
Qed.

Lemma length_concat_ge {A} (ls : list (list A)) m :
  (∀ i l, ls !! i = Some l → m ≤ Z.of_nat (length l)) →
  m * Z.of_nat (length ls) ≤ Z.of_nat (length (concat ls)).
Proof.
  induction ls as [|l ls IH]; intros Hm; cbn [concat length]; [lia|].
  rewrite length_app. pose proof (Hm 0%nat l eq_refl). pose proof (IH (λ i, Hm (S i))). lia.
Qed.

Lemma length_here_full pids procs : length pids = length procs →
  (∀ j, (j < length procs)%nat → ∃ q, procs !! j = Some (Some q)) →
  length (here pids procs) = length procs.
Proof.
  revert procs. induction pids as [|p pids IH]; intros [|o procs] Hl Hall; try done.
  destruct (Hall 0%nat ltac:(cbn; lia)) as [q [= ->]]. unfold here. cbn. f_equal.
  apply IH; [by injection Hl|]. intros j Hj. apply (Hall (S j)). cbn. lia.
Qed.

Lemma here_insert pids procs i pid p : length pids = length procs → procs !! i = Some None →
  here (<[i:=pid]> pids) (<[i:=Some p]> procs) ≡ₚ (pid, p) :: here pids procs.
Proof.
  revert procs i. induction pids as [|p' pids IH]; intros [|o procs] i Hl Hi; try done.
  destruct i as [|i]; cbn in Hi; [by simplify_eq|].
  cbn [insert list_insert]. unfold here. cbn.
  pose proof (IH procs i ltac:(by injection Hl) Hi) as Hp. unfold here in Hp.
  destruct o; cbn; rewrite Hp; [apply perm_swap|done].
Qed.

Lemma wf_empty d lo hi : min_width (S d) ≤ hi - lo → 0 < lo → wf (S d) false lo hi empty_block.
Proof.
  intros Hw Hlo. unfold empty_block. cbn [wf].
  split_and!; try done.
  - intros i p Hi. apply lookup_replicate in Hi as [-> _]. by left.
  - intros i q Hi. by apply lookup_replicate in Hi as [? _].
  - intros i s Hi. apply lookup_replicate in Hi as [-> Hi].
    rewrite lookup_replicate_2 by done. done.
  - intros i s Hi. by apply lookup_replicate in Hi as [? _].
Qed.

Lemma bindings_empty d : bindings (S d) empty_block = [].
Proof. done. Qed.

Lemma put_here d root lo hi pids procs sizes subs i p :
  wf (S d) root lo hi (PidTree pids procs sizes subs) → procs !! i = Some None →
  let pid := pid_at root lo hi (Z.of_nat i) in
  let t' := PidTree (<[i := pid]> pids) (<[i := Some p]> procs) sizes subs in
  wf (S d) root lo hi t' ∧
  bindings (S d) t' ≡ₚ (pid, p) :: bindings (S d) (PidTree pids procs sizes subs).
Proof.
  intros (Hl & Hlp & Hlz & Hls & Hw & Hlo & Hpids & Hpr & Hroot & Hsz & Hs) Hi pid t'.
  pose proof (lookup_lt_Some _ _ _ Hi).
  assert (∀ j, pids !! j = Some (pid_at root lo hi (Z.of_nat j)) →
            <[i := pid]> pids !! j = Some (pid_at root lo hi (Z.of_nat j))) as Hkeep.
  { intros j Hj. destruct (decide (j = i)) as [->|];
      [by rewrite list_lookup_insert_eq by lia|by rewrite list_lookup_insert_ne]. }
  split; [|unfold t', bindings; cbn [local_pids local_procs subtrees]; rewrite here_insert by (done || lia); done].
  cbn [wf t']. split_and!; rewrite ?length_insert; try done.
  - intros j q Hj. apply list_lookup_insert_Some in Hj as [(<- & <- & _)|(? & Hj)]; [by right|].
    by apply Hpids.
  - intros j q Hj. apply list_lookup_insert_Some in Hj as [(<- & _ & _)|(? & Hj)].
    + by rewrite list_lookup_insert_eq by lia.
    + apply Hkeep. by eapply Hpr.
  - intros Hr. destruct (Hroot Hr) as [q Hq]. exists q.
    rewrite list_lookup_insert_ne; [done|]. intros ->. simplify_eq.
  - intros j s Hj. destruct (Hs j s Hj) as (Ha & Hb & Hc). split_and!; auto.
Qed.

Lemma put_below d root lo hi pids procs sizes subs k r s' x :
  wf (S d) root lo hi (PidTree pids procs sizes subs) →
  (∀ j, (j < 8)%nat → ∃ q, procs !! j = Some (Some q)) → subs !! k = Some r →
  wf d false (sub_lo root lo hi (Z.of_nat k)) (sub_hi root lo hi (Z.of_nat k)) s' →
  bindings d s' ≡ₚ x :: sub_bindings d r →
  let n := Z.of_nat (length (sub_bindings d r)) in
  let t' := PidTree pids procs (<[k := n + 1]> sizes) (<[k := Some s']> subs) in
  wf (S d) root lo hi t' ∧
  bindings (S d) t' ≡ₚ x :: bindings (S d) (PidTree pids procs sizes subs).
Proof.
  intros (Hl & Hlp & Hlz & Hls & Hw & Hlo & Hpids & Hpr & Hroot & Hsz & Hs) Hfull Hk Hws Hb n t'.
  pose proof (lookup_lt_Some _ _ _ Hk) as Hk8. split.
  - cbn [wf t']. split_and!; rewrite ?length_insert; try done.
    + intros j s Hj. apply list_lookup_insert_Some in Hj as [(<- & <- & _)|(? & Hj)].
      * rewrite list_lookup_insert_eq by lia. cbn [sub_bindings]. rewrite Hb. cbn [length].
        f_equal. unfold n. lia.
      * rewrite list_lookup_insert_ne by done. by apply Hsz.
    + intros j s Hj. apply list_lookup_insert_Some in Hj as [(<- & [= <-] & _)|(? & Hj)].
      * destruct (Hfull k ltac:(lia)) as [q Hq]. split_and!; [by eapply Hpr| |done].
        intros. destruct (Hfull (S k) ltac:(lia)) as [q' Hq']. by eapply Hpr.
      * by apply Hs.
  - unfold t'. cbn [bindings local_pids local_procs subtrees]. rewrite Permutation_middle. f_equiv.
    change (λ s, match s with Some s => bindings d s | None => [] end) with (sub_bindings d).
    rewrite list_fmap_insert.
    rewrite (concat_insert _ k (sub_bindings d r)) by by rewrite list_lookup_fmap, Hk.
    rewrite (concat_split (sub_bindings d <$> subs) k (sub_bindings d r)) by by rewrite list_lookup_fmap, Hk.
    cbn [sub_bindings]. by rewrite Hb.
Qed.

(** A full block passes the request on to a subtree with room. *)
Lemma pass_on d root lo hi pids procs sizes subs :
  wf (S d) root lo hi (PidTree pids procs sizes subs) →
  (∀ j, (j < 8)%nat → ∃ q, procs !! j = Some (Some q)) →
  Z.of_nat (length (bindings (S d) (PidTree pids procs sizes subs))) < capacity (S d) →
  ∃ (k : nat) s0 r, sizes !! 0%nat = Some s0 ∧
    least_full 7 sizes 1 s0 0 = Ret (Z.of_nat k) ∧ subs !! k = Some r ∧
    Z.of_nat (length (sub_bindings d r)) < capacity d.
Proof.
  intros (Hl & Hlp & Hlz & Hls & Hw & Hlo & Hpids & Hpr & Hroot & Hsz & Hs) Hfull Hcap.
  destruct (lookup_lt_is_Some_2 sizes 0) as [s0 Hs0]; [lia|].
  destruct (least_full_correct 7 sizes 1 0 s0) as (k & m & Hlf & Hm & Hmin); [done|done|done| |].
  { intros j x Hj Hx. replace j with 0%nat in Hx by lia. simplify_eq. lia. }
  pose proof (lookup_lt_Some _ _ _ Hm).
  destruct (lookup_lt_is_Some_2 subs k) as [r Hr]; [lia|].
  exists k, s0, r. split_and!; [done..|].
  rewrite (Hsz k r Hr) in Hm. injection Hm as <-.
  pose proof (length_concat_ge (sub_bindings d <$> subs) (Z.of_nat (length (sub_bindings d r)))) as Hge.
  rewrite length_fmap, Hls in Hge. cbn [bindings local_pids local_procs subtrees capacity] in Hcap.
  change (λ s, match s with Some s => bindings d s | None => [] end) with (sub_bindings d) in Hcap.
  rewrite length_app, length_here_full in Hcap by (rewrite ?Hlp; done || lia).
  enough (Z.of_nat (length (sub_bindings d r)) * 8 ≤
          Z.of_nat (length (concat (sub_bindings d <$> subs)))) by lia.
  apply Hge. intros i l Hi. apply list_lookup_fmap_Some in Hi as (s & -> & Hsi).
  by eapply Hmin, Hsz.
Qed.

(** One of the answers used up between [o] and [o'] was a failure. *)
Definition failed (o o' : script) : Prop := ∃ l, o = l ++ o' ∧ false ∈ l.

Lemma failed_later o o' o'' : failed o' o'' → o' `suffix_of` o → failed o o''.
Proof. intros (l & -> & Hl) [k ->]. exists (k ++ l). rewrite app_assoc. split; [done|]. apply elem_of_app. by right. Qed.

Lemma failed_nil o' : ¬ failed [] o'.
Proof. intros (l & El & Hl). destruct l; [by apply elem_of_nil in Hl|done]. Qed.

Lemma create_cases o : ∃ o', (pid_create_tree None o = (Some empty_block, o') ∧ o' `suffix_of` o) ∨
  (pid_create_tree None o = (None, o') ∧ failed o o').
Proof.
  destruct o as [|[] [|[] o]]; eexists.
  - left. split; [reflexivity|]. by exists [].
  - left. split; [reflexivity|]. by exists [true].
  - left. split; [reflexivity|]. by exists [true; true].
  - right. split; [reflexivity|]. exists [true; false]. split; [done|]. right. left.
  - right. split; [reflexivity|]. exists [false]. split; [done|]. left.
  - right. split; [reflexivity|]. exists [false]. split; [done|]. left.
  - right. split; [reflexivity|]. exists [false]. split; [done|]. left.
Qed.

(** What an allocation does: a pid that was not in use, or -1 when memory ran out. *)
Definition allocated (d : nat) (root : bool) (lo hi : Z) (t : pid_tree) (p : proc)
    (o : script) (pid : Z) (t' : pid_tree) (o' : script) : Prop :=
  (pid = -1 ∧ failed o o' ∧ bindings d t' = bindings d t) ∨
  (0 ≤ pid ≤ hi ∧ wf d root lo hi t' ∧ bindings d t' ≡ₚ (pid, p) :: bindings d t).

Lemma slot_pid_quot root lo hi i : 0 ≤ hi - lo → 0 ≤ i → root && (i =? 0) = false →
  lo + Z.quot (i * (hi - lo)) PID_DIR_SIZE = pid_at root lo hi i.
Proof.
  intros Hw Hi Hr. unfold pid_at, slot_pid. rewrite Hr. f_equal.
  apply Z.quot_div_nonneg; unfold PID_DIR_SIZE; nia.
Qed.

(** The subtree the request goes to, made if it is not there. *)
Lemma sub_block d root lo hi pids procs sizes subs k r o :
  wf (S (S d)) root lo hi (PidTree pids procs sizes subs) → subs !! k = Some r →
  ∃ r' o', (match r with Some s => (Some s, o) | None => pid_create_tree None o end) = (r', o') ∧
    match r' with
    | None => failed o o'
    | Some s => o' `suffix_of` o ∧ bindings (S d) s = sub_bindings (S d) r ∧
                wf (S d) false (sub_lo root lo hi (Z.of_nat k)) (sub_hi root lo hi (Z.of_nat k)) s
    end.
Proof.
  intros Hwf Hk. pose proof (wf_index _ _ _ _ _ _ _ Hwf Hk) as Hk8.
  destruct Hwf as (_ & _ & _ & _ & Hw & Hlo & _ & _ & _ & _ & Hs).
  destruct r as [s|]; [exists (Some s), o; split_and!; [done..|by apply Hs]|].
  destruct (create_cases o) as (o' & [[-> ?]|[-> ?]]); eexists _, o'; (split; [done|]); [|done].
  split_and!; [done..|].
  destruct (sub_width d root lo hi (Z.of_nat k) Hw Hlo) as (? & ? & _); [lia|]. by apply wf_empty.
Qed.

Lemma bindings_same_sub d pids procs sizes sizes' subs k r s :
  subs !! k = Some r → bindings d s = sub_bindings d r →
  bindings (S d) (PidTree pids procs sizes' (<[k := Some s]> subs)) =
  bindings (S d) (PidTree pids procs sizes subs).
Proof.
  intros Hk Hb. cbn [bindings local_pids local_procs subtrees]. f_equal.
  change (λ s, match s with Some s => bindings d s | None => [] end) with (sub_bindings d).
  rewrite list_fmap_insert. cbn [sub_bindings]. rewrite Hb. f_equal.
  apply list_insert_id. by rewrite list_lookup_fmap, Hk.
Qed.

Lemma sub_hi_read root lo hi pids k :
  (∀ j, (j < 8)%nat → pids !! j = Some (pid_at root lo hi (Z.of_nat j))) → (k < 8)%nat →
  (if Z.of_nat k <? PID_DIR_SIZE - 1 then nx ← pids.[Z.of_nat k + 1]; Ret (nx - 1) else Ret hi) =
  Ret (sub_hi root lo hi (Z.of_nat k)).
Proof.
  intros Hat Hk. unfold sub_hi, PID_DIR_SIZE. change (8 - 1) with 7.
  destruct (Z.ltb_spec (Z.of_nat k) 7); [|done].
  replace (Z.of_nat k + 1) with (Z.of_nat (S k)) by lia.
  by rewrite (rd_nat pids (S k) _ (Hat (S k) ltac:(lia))).
Qed.

Lemma sub_lo_read root lo hi k :
  (if lo <? pid_at root lo hi k + 1 then pid_at root lo hi k + 1 else lo) = sub_lo root lo hi k.
Proof. unfold sub_lo. destruct (Z.ltb_spec lo (pid_at root lo hi k + 1)); lia. Qed.

Lemma slot_choice d root lo hi pids procs sizes subs i old :
  wf (S d) root lo hi (PidTree pids procs sizes subs) → procs !! i = Some None → pids !! i = Some old →
  (if old =? -1 then lo + Z.quot (Z.of_nat i * (hi - lo)) PID_DIR_SIZE else old)
  = pid_at root lo hi (Z.of_nat i).
Proof.
  intros (_ & _ & _ & _ & Hw & _ & Hpids & _ & Hroot & _) Hi Hold. pose proof (min_width_8 d).
  destruct (Z.eqb_spec old (-1)); [|by destruct (Hpids i old Hold)].
  apply slot_pid_quot; [lia|lia|]. destruct root, (Z.eqb_spec (Z.of_nat i) 0); try done.
  destruct (Hroot eq_refl) as [q Hq]. replace i with 0%nat in Hi by lia. simplify_eq.
Qed.

Lemma allocate_correct fuel d root lo hi t p o : wf d root lo hi t →
  Z.of_nat (length (bindings d t)) < capacity d → (d ≤ fuel)%nat →
  ∃ pid t' o', pid_allocate_helper fuel t p lo hi o = Ret (pid, t', o') ∧
    o' `suffix_of` o ∧ allocated d root lo hi t p o pid t' o'.
Proof.
  revert d root lo hi t o. induction fuel as [|fuel IH]; intros d root lo hi t o Hwf Hcap Hf;
    (destruct d as [|d]; [done|]); [lia|].
  destruct t as [pids procs sizes subs]. cbn [pid_allocate_helper].
  pose proof Hwf as (Hl & Hlp & Hlz & Hls & Hw & Hlo & Hpids & Hpr & Hroot & Hsz & Hs).
  pose proof (min_width_8 d) as H8.
  pose proof (free_slot_correct 8 procs 0 Hlp eq_refl ltac:(lia)) as Hfree.
  change (Z.of_nat 0) with 0 in Hfree.
  destruct Hfree as [[-> Hfull]|(i & -> & Hi)];
    cbn [mbind res_bind].
  - destruct (pass_on _ _ _ _ _ _ _ _ Hwf Hfull Hcap) as (k & s0 & r & Hs0 & Hlf & Hr & Hroom).
    pose proof (lookup_lt_Some _ _ _ Hr) as Hk8. rewrite Hls in Hk8.
    assert (∀ j, (j < 8)%nat → pids !! j = Some (pid_at root lo hi (Z.of_nat j))) as Hat.
    { intros j Hj. destruct (Hfull j Hj) as [q Hq]. by eapply Hpr. }
    destruct d as [|d]; [cbn in Hroom; lia|].
    rewrite (rd_lookup sizes 0 s0) by done. cbn [mbind res_bind]. rewrite Hlf. cbn [mbind res_bind].
    rewrite (rd_nat subs _ r Hr). cbn [mbind res_bind].
    destruct (sub_block _ _ _ _ _ _ _ _ _ _ o Hwf Hr) as (r' & o' & -> & Hr').
    destruct r' as [s|].
    2: { eexists _, _, _. split; [done|]. split; [|by left]. destruct Hr' as (l & -> & _). by exists l. }
    destruct Hr' as (Ho' & Hbs & Hws).
    rewrite (rd_nat sizes k _ (Hsz k r Hr)). cbn [mbind res_bind].
    rewrite wr_nat by lia. cbn [mbind res_bind].
    rewrite (rd_nat pids k _ (Hat k Hk8)). cbn [mbind res_bind].
    rewrite (sub_hi_read root lo), sub_lo_read by done. cbn [mbind res_bind].
    destruct (IH (S d) _ _ _ s o' Hws) as (pid & s' & o'' & -> & Ho'' & Halloc); [by rewrite Hbs|lia|].
    cbn [mbind res_bind]. rewrite wr_nat by lia. cbn [mbind res_bind].
    eexists _, _, _. split; [done|]. split; [by etrans|].
    destruct Halloc as [(-> & Ho & Hb)|(Hpid & Hws' & Hb)].
    + left. split_and!; [done|by eapply failed_later|]. apply (bindings_same_sub _ _ _ _ _ _ _ r); [done|congruence].
    + right. rewrite Hbs in Hb.
      destruct (sub_width d root lo hi (Z.of_nat k) Hw Hlo) as (_ & _ & _ & ?); [lia|].
      destruct (put_below _ _ _ _ _ _ _ _ _ _ _ _ Hwf Hfull Hr Hws' Hb) as [? ?].
      split_and!; [lia|lia|done|done].
  - pose proof (lookup_lt_Some _ _ _ Hi). destruct (lookup_lt_is_Some_2 pids i) as [old Hold]; [lia|].
    rewrite (rd_nat pids i _ Hold). cbn [mbind res_bind].
    rewrite (slot_choice d root _ _ pids procs sizes subs) by done.
    rewrite wr_nat by lia. cbn [mbind res_bind]. rewrite wr_nat by lia. cbn [mbind res_bind].
    eexists _, _, _. split; [done|]. split; [done|]. right.
    destruct (put_here _ _ _ _ _ _ _ _ _ p Hwf Hi) as [? ?].
    destruct (pid_at_range root lo hi (Z.of_nat i)) as [? _]; [lia|done|lia|].
    split_and!; [lia|lia|done|done].
Qed.

Lemma root_wf k : ∃ t, pid_create_tree (Some k) [] = (Some t, []) ∧
  wf 4 true PID_MIN PID_MAX t ∧ bindings 4 t = [(0, k)].
Proof.
  eexists. split; [reflexivity|]. split; [|reflexivity].
  cbn [wf]. split_and!; [done|done|done|done|vm_compute; congruence|done|..].
  - intros i p Hi. apply (list_lookup_insert_Some (replicate 8 (-1)) 0) in Hi as [(<- & <- & _)|(_ & Hi)]; [by right|].
    apply lookup_replicate in Hi as [-> _]. by left.
  - intros i q Hi. apply (list_lookup_insert_Some (replicate 8 None) 0) in Hi as [(<- & _ & _)|(_ & Hi)]; [done|].
    by apply lookup_replicate in Hi as [? _].
  - intros _. by exists k.
  - intros i s Hi. apply (lookup_replicate 8 None) in Hi as [-> Hi].
    by rewrite (lookup_replicate_2 8 0) by done.
  - intros i s Hi. by apply (lookup_replicate 8 None) in Hi as [? _].
Qed.

(** Processes that start one after the other. *)
Fixpoint allocate_all (t : option pid_tree) (ps : list proc) (o : script)
    : res (list Z * option pid_tree) :=
  match ps with
  | [] => Ret ([], t)
  | p :: ps =>
      '(pid, t, o) ← pid_allocate t p o;
      '(pids, t) ← allocate_all t ps o;
      Ret (pid :: pids, t)
  end.

Lemma allocate_one t p o : wf 4 true PID_MIN PID_MAX t → Z.of_nat (length (bindings 4 t)) < 4680 →
  ∃ pid t' o', pid_allocate (Some t) p o = Ret (pid, Some t', o') ∧
    o' `suffix_of` o ∧ allocated 4 true PID_MIN PID_MAX t p o pid t' o' ∧ (pid ≠ -1 → pid ∉ (bindings 4 t).*1).
Proof.
  intros Hwf Hcap. destruct (allocate_correct tree_fuel 4 _ _ _ t p o Hwf Hcap) as (pid & t' & o' & Heq & Ho & Ha).
  { unfold tree_fuel. lia. }
  exists pid, t', o'. unfold pid_allocate. rewrite Heq. split_and!; [done..|].
  intros Hne. destruct Ha as [[? _]|(_ & Hwf' & Hb)]; [done|].
  pose proof (bindings_NoDup _ _ _ _ _ Hwf') as Hnd. rewrite Hb in Hnd. by apply NoDup_cons in Hnd as [? _].
Qed.

Lemma allocate_all_correct t ps : wf 4 true PID_MIN PID_MAX t →
  Z.of_nat (length (bindings 4 t) + length ps) ≤ 4680 →
  ∃ pids t', allocate_all (Some t) ps [] = Ret (pids, Some t') ∧ length pids = length ps ∧
    wf 4 true PID_MIN PID_MAX t' ∧ bindings 4 t' ≡ₚ zip pids ps ++ bindings 4 t.
Proof.
  revert t. induction ps as [|p ps IH]; intros t Hwf Hcap; cbn [allocate_all].
  { by exists [], t. }
  cbn [length] in Hcap.
  destruct (allocate_one t p [] Hwf) as (pid & t1 & o' & -> & Ho & Ha & _); [lia|].
  apply suffix_nil_inv in Ho as ->. cbn [mbind res_bind].
  destruct Ha as [(_ & []%failed_nil & _)|(_ & Hwf1 & Hb)].
  destruct (IH t1 Hwf1) as (pids & t2 & -> & Hl & Hwf2 & Hb2).
  { rewrite Hb. cbn [length]. lia. }
  exists (pid :: pids), t2. split_and!; [done|cbn; lia|done|]. cbn [zip_with].
  rewrite Hb2, Hb. solve_Permutation.
Qed.

(** ** Properties *)

(** C22: In a directory whose blocks are search trees, as [pid_create_tree] makes it and each success of
    [pid_allocate] keeps it ([pid_remove_proc] may break it), with fewer than 4680 processes, [pid_allocate] returns a pid of the legal
    range that no process has, binds it to the new process and keeps the search-tree invariant and every other
    binding.  It returns -1 only when one of the allocations it asked for failed, and then no binding changes. *)
Theorem pid_allocate_fresh t p o : wf 4 true PID_MIN PID_MAX t →
  Z.of_nat (length (bindings 4 t)) < 4680 →
  ∃ pid t' o', pid_allocate (Some t) p o = Ret (pid, Some t', o') ∧
    ((pid = -1 ∧ failed o o' ∧ bindings 4 t' = bindings 4 t) ∨
     (0 ≤ pid ≤ PID_MAX ∧ pid ∉ (bindings 4 t).*1 ∧ wf 4 true PID_MIN PID_MAX t' ∧
      bindings 4 t' ≡ₚ (pid, p) :: bindings 4 t)).
Proof.
  intros Hwf Hcap. destruct (allocate_one t p o Hwf Hcap) as (pid & t' & o' & -> & _ & Ha & Hf).
  exists pid, t', o'. split; [done|].
  destruct Ha as [?|(? & ? & ?)]; [by left|right]. split_and!; try (done || lia). apply Hf. lia.
Qed.

Lemma pid_allocate_fresh_witness :
  (∃ t, pid_create_tree (Some 1%positive) [] = (Some t, []) ∧
    ∃ pid t' o', pid_allocate (Some t) 2%positive [] = Ret (pid, Some t', o') ∧
    ((pid = -1 ∧ failed [] o' ∧ bindings 4 t' = bindings 4 t) ∨
     (0 ≤ pid ≤ PID_MAX ∧ pid ∉ (bindings 4 t).*1 ∧ wf 4 true PID_MIN PID_MAX t' ∧
      bindings 4 t' ≡ₚ (pid, 2%positive) :: bindings 4 t))).
Proof.
  destruct (root_wf 1%positive) as (t & Heq & Hwf & Hb). exists t. split; [done|].
  apply pid_allocate_fresh; [done|]. rewrite Hb. cbn. lia.
Defined.

(** Processes that start one after the other on a fresh directory (fewer
    than 4680 of them, with memory for the blocks) get different pids, and
    [pid_get_proc] of each pid returns the process it was given to; the kernel
    keeps pid 0, and every other pid answers [NULL]. *)
Theorem pid_directory_lookup k ps : Z.of_nat (length ps) < 4680 →
  ∃ t0 pids t, pid_create_tree (Some k) [] = (Some t0, []) ∧
    allocate_all (Some t0) ps [] = Ret (pids, Some t) ∧ length pids = length ps ∧ NoDup (0 :: pids) ∧
    ∀ pid, 0 ≤ pid → ∃ r, pid_get_proc tree_fuel (Some t) pid = Ret r ∧
      ∀ q, r = Some q ↔ (pid, q) ∈ (0, k) :: zip pids ps.
Proof.
  intros Hn. destruct (root_wf k) as (t0 & Hc & Hwf & Hb0).
  destruct (allocate_all_correct t0 ps Hwf) as (pids & t & Ha & Hl & Hwf' & Hb).
  { rewrite Hb0. cbn [length]. lia. }
  assert (bindings 4 t ≡ₚ (0, k) :: zip pids ps) as Hb' by (rewrite Hb, Hb0; solve_Permutation).
  exists t0, pids, t. split_and!; [done..| |].
  - pose proof (bindings_NoDup _ _ _ _ _ Hwf') as Hnd. rewrite Hb' in Hnd.
    cbn [fmap list_fmap fst] in Hnd. by rewrite fst_zip in Hnd by lia.
  - intros pid Hpid. destruct (pid_get_correct tree_fuel 4 _ _ _ t pid Hwf' Hpid) as (r & Hr & Hq);
      [unfold tree_fuel; lia|].
    exists r. split; [done|]. intros q. by rewrite Hq, Hb'.
Qed.

Lemma pid_directory_lookup_witness :
  ∃ t0 pids t, pid_create_tree (Some 1%positive) [] = (Some t0, []) ∧
    allocate_all (Some t0) [2; 3]%positive [] = Ret (pids, Some t) ∧ length pids = 2%nat ∧
    NoDup (0 :: pids) ∧
    ∀ pid, 0 ≤ pid → ∃ r, pid_get_proc tree_fuel (Some t) pid = Ret r ∧
      ∀ q, r = Some q ↔ (pid, q) ∈ (0, 1%positive) :: zip pids [2; 3]%positive.
Proof. apply (pid_directory_lookup 1%positive [2; 3]%positive). cbn. lia. Defined.

(** Eighteen processes start and three end; the processes are numbered in the
    order they start. *)
Definition starts_and_ends : res (list Z * option pid_tree) :=
  let '(t, _) := pid_create_tree (Some 1%positive) [] in
  '(_, t) ← allocate_all t [2; 3; 4; 5; 6; 7; 8; 9]%positive [];
  '(_, _, t) ← pid_remove_proc tree_fuel t 28671;
  '(_, _, t) ← pid_remove_proc tree_fuel t 2;
  '(pids, t) ← allocate_all t [10; 11; 12; 13; 14; 15; 16; 17; 18]%positive [];
  '(_, _, t) ← pid_remove_proc tree_fuel t 29183;
  Ret (pids, t).

(** [pid_remove_proc] can lose a process that is still running.  The scan of
    an ancestor takes a vacated slot (-1) for the one above the removed pid, so
    the count of the wrong subtree goes down; a later removal then drops a
    subtree with a process in it.  Here process 11 holds pid 28672 and never
    ended, [pid_get_proc] of 28672 returns [NULL], and the next process gets
    pid 28672 as well. *)
Theorem pid_remove_loses_process :
  ('(pids, t) ← starts_and_ends;
   r ← pid_get_proc tree_fuel t 28672;
   '(pid, _, _) ← pid_allocate t 19%positive [];
   Ret (zip pids [10; 11]%positive !! 1%nat, r, pid))
  = Ret (Some (28672, 11%positive), None, 28672).
Proof. vm_compute. reflexivity. Qed.
