(* ===== verification/UserCopy.v ===== *)
(** * Copies between the kernel and a user process (kern/vm/copyinout.c)

    The memory of the machine is a finite map from addresses to bytes; an
    address without a byte faults.  A kernel buffer is a list of its own.  The
    recovery through [setjmp] and [tm_badfaultfunc] is the case where a copy
    stops at the first address that faults: the bytes before it are copied and
    the routine returns [EFAULT]. *)

From S2P Require Import Prelude CString.

Notation memory := (gmap Z Z).

(** ** Operations *)

Definition USERSPACETOP : Z := 2 ^ 31.

(** The result and [*stoplen]. *)
Definition copycheck (userptr len : Z) : Z * Z :=
  let stoplen := len in
  let bot := userptr in
  let top := u32 (bot + len - 1) in
  if top <? bot then (EFAULT, stoplen) else
  if USERSPACETOP <=? bot then (EFAULT, stoplen) else
  if USERSPACETOP <=? top then (0, USERSPACETOP - bot) else (0, stoplen).

(** Reads and writes of consecutive bytes, up to the first address that faults. *)
Fixpoint load_bytes (n : nat) (m : memory) (a : Z) : list Z * bool :=
  match n with
  | O => ([], true)
  | S n' =>
      match m !! a with
      | None => ([], false)
      | Some x => let '(xs, ok) := load_bytes n' m (a + 1) in (x :: xs, ok)
      end
  end.

Fixpoint store_bytes (m : memory) (a : Z) (xs : list Z) : memory * bool :=
  match xs with
  | [] => (m, true)
  | x :: xs' =>
      match m !! a with
      | None => (m, false)
      | Some _ => store_bytes (<[a := x]> m) (a + 1) xs'
      end
  end.

(** [copyin(usersrc, dest, len)], [dest] being position [p] of [buf]. *)
Definition copyin (m : memory) (usersrc : Z) (buf : list Z) (p len : Z) : res (Z * list Z) :=
  let '(result, stoplen) := copycheck usersrc len in
  if negb (result =? 0) then Ret (result, buf) else
  if negb (stoplen =? len) then Ret (EFAULT, buf) else
  let '(xs, ok) := load_bytes (Z.to_nat len) m usersrc in
  buf ← store buf p xs;
  Ret (if ok then 0 else EFAULT, buf).

(** [copyout(src, userdest, len)], [src] being position [p] of [buf]. *)
Definition copyout (buf : list Z) (p : Z) (m : memory) (userdest len : Z) : res (Z * memory) :=
  let '(result, stoplen) := copycheck userdest len in
  if negb (result =? 0) then Ret (result, m) else
  if negb (stoplen =? len) then Ret (EFAULT, m) else
  xs ← load (Z.to_nat len) buf p;
  let '(m, ok) := store_bytes m userdest xs in
  Ret (if ok then 0 else EFAULT, m).

(** The end of [copystr], when the loop has run out. *)
Definition copystr_end (maxlen stoplen : Z) : Z :=
  if stoplen <? maxlen then EFAULT else ENAMETOOLONG.

(** The loop of [copystr] from user space, [n] being the turns left: the result,
    [*gotlen] and the buffer. *)
Fixpoint copystr_in (n : nat) (m : memory) (src : Z) (buf : list Z) (p i maxlen stoplen : Z)
    : res (Z * option Z * list Z) :=
  match n with
  | O => Ret (copystr_end maxlen stoplen, None, buf)
  | S n' =>
      match m !! (src + i) with
      | None => Ret (EFAULT, None, buf)
      | Some c =>
          buf ← buf.[p + i <- c];
          if c =? 0 then Ret (0, Some (i + 1), buf)
          else copystr_in n' m src buf p (i + 1) maxlen stoplen
      end
  end.

(** The same loop to user space. *)
Fixpoint copystr_out (n : nat) (buf : list Z) (p : Z) (m : memory) (dest i maxlen stoplen : Z)
    : res (Z * option Z * memory) :=
  match n with
  | O => Ret (copystr_end maxlen stoplen, None, m)
  | S n' =>
      c ← buf.[p + i];
      match m !! (dest + i) with
      | None => Ret (EFAULT, None, m)
      | Some _ =>
          let m := <[dest + i := c]> m in
          if c =? 0 then Ret (0, Some (i + 1), m)
          else copystr_out n' buf p m dest (i + 1) maxlen stoplen
      end
  end.

Definition copyinstr (m : memory) (usersrc : Z) (buf : list Z) (p len : Z)
    : res (Z * option Z * list Z) :=
  let '(result, stoplen) := copycheck usersrc len in
  if negb (result =? 0) then Ret (result, None, buf) else
  copystr_in (Z.to_nat (Z.min len stoplen)) m usersrc buf p 0 len stoplen.

Definition copyoutstr (buf : list Z) (p : Z) (m : memory) (userdest len : Z)
    : res (Z * option Z * memory) :=
  let '(result, stoplen) := copycheck userdest len in
  if negb (result =? 0) then Ret (result, None, m) else
  copystr_out (Z.to_nat (Z.min len stoplen)) buf p m userdest 0 len stoplen.

(** ** Specification *)

(** The memory holds [xs] at [a]. *)
Definition holds_bytes (m : memory) (a : Z) (xs : list Z) : Prop :=
  ∀ i x, xs !! i = Some x → m !! (a + Z.of_nat i) = Some x.

(** None of the addresses [a .. a + n - 1] faults. *)
Definition mapped (m : memory) (a n : Z) : Prop := ∀ k, a ≤ k < a + n → is_Some (m !! k).

(** The memory with [xs] at [a]. *)
Fixpoint with_bytes (m : memory) (a : Z) (xs : list Z) : memory :=
  match xs with [] => m | x :: xs' => with_bytes (<[a := x]> m) (a + 1) xs' end.

(** A range that a user process may name. *)
Definition user_range (a len : Z) : Prop := 0 < len ∧ a + len ≤ USERSPACETOP.

(** ** Lemmas *)

Lemma copycheck_user a len : 0 ≤ a < 2 ^ 32 → 0 ≤ len < 2 ^ 32 → user_range a len →
  copycheck a len = (0, len).
Proof.
  unfold user_range, copycheck, USERSPACETOP. intros Ha Hl [? ?].
  rewrite u32_id by lia. repeat case_cmp; (lia || done).
Qed.

Lemma copycheck_refuses a len : 0 ≤ a < 2 ^ 32 → 0 ≤ len < 2 ^ 32 → ¬ user_range a len →
  ∃ e s, copycheck a len = (e, s) ∧ (e = EFAULT ∨ e = 0 ∧ s ≠ len).
Proof.
  unfold user_range, copycheck, USERSPACETOP. intros Ha Hl Hn.
  destruct (Z.ltb_spec (u32 (a + len - 1)) a); [by eexists _, _; split; [done|left]|].
  destruct (Z.leb_spec (2 ^ 31) a); [by eexists _, _; split; [done|left]|].
  unfold u32 in *. destruct (decide (len = 0)) as [->|].
  - assert (a = 0) as -> by (destruct (decide (a = 0)); [done|]; rewrite Z.mod_small in *; lia).
    eexists _, _. split; [done|]. by right.
  - destruct (decide (a + len - 1 < 2 ^ 32)).
    + rewrite Z.mod_small in * by lia. destruct (Z.leb_spec (2 ^ 31) (a + len - 1)); [|lia].
      eexists _, _. split; [done|]. right. lia.
    + rewrite (Z.mod_eq (a + len - 1)) in * by lia.
      replace ((a + len - 1) / 2 ^ 32) with 1 in * by (apply (Z.div_unique _ _ _ (a + len - 1 - 2 ^ 32)); lia).
      lia.
Qed.

Lemma load_bytes_correct n m a : ∃ xs ok, load_bytes n m a = (xs, ok) ∧ (length xs ≤ n)%nat ∧
  holds_bytes m a xs ∧ (ok = true → length xs = n) ∧ (ok = true ↔ mapped m a (Z.of_nat n)).
Proof.
  revert a. induction n as [|n IH]; intros a; cbn [load_bytes].
  { exists [], true. split_and!; [done..|by intros ?|done|]. split; [|done]. intros _ k ?. lia. }
  destruct (m !! a) as [x|] eqn:Hx.
  - destruct (IH (a + 1)) as (xs & ok & -> & Hl & Hh & Hok & Hm). exists (x :: xs), ok.
    split_and!; [done|cbn; lia| |cbn; intros; f_equal; auto|].
    + intros [|i] y Hy; cbn in Hy; [injection Hy as <-; by rewrite Z.add_0_r|].
      rewrite <-(Hh i y Hy). f_equal. lia.
    + rewrite Hm. unfold mapped. split; intros H k Hk; [|apply H; lia].
      destruct (decide (k = a)) as [->|]; [by rewrite Hx|]. apply H. lia.
  - exists [], false. split_and!; [done|cbn; lia|by intros ?|done|]. split; [done|].
    intros H. destruct (H a) as [? ?]; [lia|]. congruence.
Qed.

Lemma with_bytes_lookup m a xs k : with_bytes m a xs !! k =
  if decide (a ≤ k < a + Z.of_nat (length xs)) then xs !! Z.to_nat (k - a) else m !! k.
Proof.
  revert m a. induction xs as [|x xs IH]; intros m a; cbn [with_bytes length].
  { by rewrite decide_False by lia. }
  rewrite IH. destruct (decide (k = a)) as [->|].
  - rewrite decide_False, lookup_insert_eq, decide_True by lia. by rewrite Z.sub_diag.
  - rewrite lookup_insert_ne by done.
    destruct (decide (a + 1 ≤ k < a + 1 + Z.of_nat (length xs))).
    + rewrite decide_True by lia. by replace (Z.to_nat (k - a)) with (S (Z.to_nat (k - (a + 1)))) by lia.
    + by rewrite decide_False by lia.
Qed.

Lemma store_bytes_correct m a xs : ∃ m' ok, store_bytes m a xs = (m', ok) ∧
  (∀ k, ¬ (a ≤ k < a + Z.of_nat (length xs)) → m' !! k = m !! k) ∧
  (ok = true → m' = with_bytes m a xs) ∧ (ok = true ↔ mapped m a (Z.of_nat (length xs))).
Proof.
  revert m a. induction xs as [|x xs IH]; intros m a; cbn [store_bytes length with_bytes].
  { exists m, true. split_and!; try done. split; [|done]. intros _ k ?. lia. }
  destruct (m !! a) as [y|] eqn:Hy.
  - destruct (IH (<[a:=x]> m) (a + 1)) as (m' & ok & -> & Hout & Hok & Hm). exists m', ok.
    split_and!; [done| |done|].
    + intros k Hk. rewrite Hout, lookup_insert_ne by lia. done.
    + rewrite Hm. unfold mapped. split; intros H k Hk.
      * destruct (decide (k = a)) as [->|]; [by rewrite Hy|].
        rewrite <-(lookup_insert_ne m a k x) by done. apply H. lia.
      * rewrite lookup_insert_ne by lia. apply H. lia.
  - exists m, false. split_and!; try done. split; [done|]. intros H. destruct (H a) as [? ?]; [lia|]. congruence.
Qed.

Lemma load_list_correct (b : list Z) n p : 0 ≤ p → p + Z.of_nat n ≤ Z.of_nat (length b) →
  load n b p = Ret (take n (drop (Z.to_nat p) b)).
Proof.
  revert p. induction n as [|n IH]; intros p Hp Hl; cbn [load]; [done|].
  destruct (rd_in_range b p) as (x & -> & Hx); [lia|]. cbn [mbind res_bind].
  rewrite IH by lia. cbn [mbind res_bind]. f_equal.
  rewrite (drop_S b x (Z.to_nat p)) by done. cbn [take]. by replace (Z.to_nat (p + 1)) with (S (Z.to_nat p)) by lia.
Qed.

Lemma load_length n (b : list Z) p xs : load n b p = Ret xs → length xs = n.
Proof.
  revert p xs. induction n as [|n IH]; intros p xs Heq; cbn [load] in Heq; [by injection Heq as <-|].
  res_inv. cbn. f_equal. by eapply IH.
Qed.

Lemma store_at (b : list Z) p xs : 0 ≤ p → p + Z.of_nat (length xs) ≤ Z.of_nat (length b) →
  store b p xs = Ret (splice b (Z.to_nat p) xs).
Proof. intros. rewrite <-store_correct by lia. f_equal. lia. Qed.

Lemma copyout_refused buf p m a len : 0 ≤ a < 2 ^ 32 → 0 ≤ len < 2 ^ 32 → ¬ user_range a len →
  copyout buf p m a len = Ret (EFAULT, m).
Proof.
  intros Ha Hl Hn. destruct (copycheck_refuses a len Ha Hl Hn) as (e & s & Heq & He).
  unfold copyout. rewrite Heq. destruct He as [->|[-> Hs]]; [done|]. cbn.
  by destruct (Z.eqb_spec s len).
Qed.

Lemma copyin_refused buf p m a len : 0 ≤ a < 2 ^ 32 → 0 ≤ len < 2 ^ 32 → ¬ user_range a len →
  copyin m a buf p len = Ret (EFAULT, buf).
Proof.
  intros Ha Hl Hn. destruct (copycheck_refuses a len Ha Hl Hn) as (e & s & Heq & He).
  unfold copyin. rewrite Heq. destruct He as [->|[-> Hs]]; [done|]. cbn.
  by destruct (Z.eqb_spec s len).
Qed.

Lemma copyout_correct buf p m a len : 0 ≤ a < 2 ^ 32 → 0 ≤ len < 2 ^ 32 → user_range a len →
  0 ≤ p → p + len ≤ Z.of_nat (length buf) →
  ∃ e m', copyout buf p m a len = Ret (e, m') ∧
    (∀ k, ¬ (a ≤ k < a + len) → m' !! k = m !! k) ∧
    (e = 0 ∧ mapped m a len ∧ m' = with_bytes m a (take (Z.to_nat len) (drop (Z.to_nat p) buf)) ∨
     e = EFAULT ∧ ¬ mapped m a len).
Proof.
  intros Ha Hl Hu Hp Hb. unfold copyout. rewrite copycheck_user by done. cbn [negb Z.eqb].
  rewrite Z.eqb_refl. cbn [negb]. rewrite load_list_correct by lia. cbn [mbind res_bind].
  set (xs := take _ _). assert (Z.of_nat (length xs) = len) as Hxs.
  { unfold xs. rewrite length_take, length_drop. lia. }
  destruct (store_bytes_correct m a xs) as (m' & ok & -> & Hout & Hok & Hm). rewrite Hxs in *.
  exists (if ok then 0 else EFAULT), m'. split_and!; [done..|]. destruct ok.
  - left. split_and!; [done|by apply Hm|by apply Hok].
  - right. split; [done|]. intros H. by apply Hm in H.
Qed.

Lemma copyin_correct buf p m a len : 0 ≤ a < 2 ^ 32 → 0 ≤ len < 2 ^ 32 → user_range a len →
  0 ≤ p → p + len ≤ Z.of_nat (length buf) →
  ∃ e xs, copyin m a buf p len = Ret (e, splice buf (Z.to_nat p) xs) ∧ holds_bytes m a xs ∧
    Z.of_nat (length xs) ≤ len ∧
    (e = 0 ∧ mapped m a len ∧ Z.of_nat (length xs) = len ∨ e = EFAULT ∧ ¬ mapped m a len).
Proof.
  intros Ha Hl Hu Hp Hb. unfold copyin. rewrite copycheck_user by done. cbn [negb Z.eqb].
  rewrite Z.eqb_refl. cbn [negb].
  destruct (load_bytes_correct (Z.to_nat len) m a) as (xs & ok & -> & Hxs & Hh & Hok & Hm).
  rewrite Z2Nat.id in Hm by lia.
  rewrite store_at by lia.
  cbn [mbind res_bind]. eexists _, xs. split_and!; [done|done|lia|]. destruct ok.
  - left. split_and!; [done|by apply Hm|]. rewrite Hok by done. lia.
  - right. split; [done|]. intros H. by apply Hm in H.
Qed.

Lemma splice_nil b p : splice b p [] = b.
Proof. unfold splice. cbn. by rewrite Nat.add_0_r, take_drop. Qed.

Lemma splice_cons b p x xs : (p < length b)%nat →
  splice (<[p := x]> b) (S p) xs = splice b p (x :: xs).
Proof.
  intros Hp. unfold splice. rewrite (take_S_r _ _ x) by (apply list_lookup_insert_eq; lia).
  rewrite take_insert_ge, drop_insert_lt, <-app_assoc by lia. cbn [app length].
  by replace (S p + length xs)%nat with (p + S (length xs))%nat by lia.
Qed.

Lemma holds_bytes_nil m a : holds_bytes m a [].
Proof. by intros ?. Qed.

Lemma holds_bytes_cons m a x xs : m !! a = Some x → holds_bytes m (a + 1) xs → holds_bytes m a (x :: xs).
Proof.
  intros Ha Hx [|i] y Hy; cbn in Hy; [injection Hy as <-; by rewrite Z.add_0_r|].
  rewrite <-(Hx i y Hy). f_equal. lia.
Qed.

(** How a string copy of at most [n] bytes ends; [s] are the bytes before. *)
Definition str_copied (m : memory) (a : Z) (n : nat) (s : list Z) (e : Z) (got : option Z)
    (i fail : Z) : Prop :=
  0 ∉ s ∧ holds_bytes m a s ∧
  ((e = 0 ∧ (length s < n)%nat ∧ m !! (a + Z.of_nat (length s)) = Some 0 ∧
    got = Some (i + Z.of_nat (length s) + 1)) ∨
   (e = EFAULT ∧ (length s < n)%nat ∧ m !! (a + Z.of_nat (length s)) = None ∧ got = None) ∨
   (e = fail ∧ length s = n ∧ got = None)).

Lemma copystr_in_correct n m src buf p i maxlen stoplen :
  0 ≤ p → 0 ≤ i → p + i + Z.of_nat n ≤ Z.of_nat (length buf) →
  ∃ s e got buf', copystr_in n m src buf p i maxlen stoplen = Ret (e, got, buf') ∧
    str_copied m (src + i) n s e got i (copystr_end maxlen stoplen) ∧
    buf' = splice buf (Z.to_nat (p + i)) (if e =? 0 then s ++ [0] else s).
Proof.
  revert buf i. induction n as [|n IH]; intros buf i Hp Hi Hl; cbn [copystr_in].
  { exists [], (copystr_end maxlen stoplen), None, buf. unfold str_copied.
    assert (copystr_end maxlen stoplen ≠ 0) by (unfold copystr_end; by case_cmp).
    split_and!; [done|set_solver|apply holds_bytes_nil|by right; right|].
    destruct (Z.eqb_spec (copystr_end maxlen stoplen) 0); [done|]. by rewrite splice_nil. }
  destruct (m !! (src + i)) as [c|] eqn:Hc.
  2: { exists [], EFAULT, None, buf. unfold str_copied.
       split_and!; [done|set_solver|apply holds_bytes_nil| |by rewrite splice_nil].
       right; left. split_and!; [done|cbn; lia|by rewrite Z.add_0_r|done]. }
  rewrite wr_in_range by lia. cbn [mbind res_bind].
  destruct (Z.eqb_spec c 0) as [->|Hc0].
  - exists [], 0, (Some (i + 1)). eexists. split; [done|].
    split; [|cbn [Z.eqb app]; rewrite <-splice_cons, splice_nil by lia; done].
    unfold str_copied. split_and!; [set_solver|apply holds_bytes_nil|]. left.
    split_and!; [done|cbn; lia|by rewrite Z.add_0_r|f_equal; cbn; lia].
  - destruct (IH (<[Z.to_nat (p + i) := c]> buf) (i + 1)) as (s & e & got & buf' & -> & (H0 & Hh & Hcase) & Hb);
      [lia|lia|rewrite length_insert; lia|].
    exists (c :: s), e, got, buf'. split; [done|]. split.
    + unfold str_copied. split_and!; [set_solver|apply holds_bytes_cons; [done|]; by rewrite <-Z.add_assoc|].
      cbn [length].
      destruct Hcase as [(? & ? & ? & ?)|[(? & ? & ? & ?)|(? & ? & ?)]];
        [left|right; left|right; right]; (split_and!; [done|lia|..]);
        try (replace (src + i + Z.of_nat (S (length s))) with (src + (i + 1) + Z.of_nat (length s)) by lia);
        try done. subst. f_equal. lia.
    + subst buf'. replace (Z.to_nat (p + (i + 1))) with (S (Z.to_nat (p + i))) by lia.
      rewrite splice_cons by lia. by destruct (e =? 0).
Qed.

Lemma copystr_out_outside n buf p m dest i maxlen stoplen e got m' k :
  copystr_out n buf p m dest i maxlen stoplen = Ret (e, got, m') →
  ¬ (dest + i ≤ k < dest + i + Z.of_nat n) → m' !! k = m !! k.
Proof.
  revert m i. induction n as [|n IH]; intros m i Heq Hk; cbn [copystr_out] in Heq; [congruence|].
  res_inv. destruct (m !! (dest + i)); [|congruence].
  assert (<[dest + i := r]> m !! k = m !! k) as Hins by (apply lookup_insert_ne; lia).
  destruct (r =? 0); [congruence|]. rewrite <-Hins. eapply IH; [done|]. lia.
Qed.

Lemma copycheck_zero a len s : 0 ≤ a < 2 ^ 32 → 0 ≤ len < 2 ^ 32 → copycheck a len = (0, s) →
  a < USERSPACETOP ∧ Z.min len s ≤ USERSPACETOP - a ∧ 0 ≤ s.
Proof.
  unfold copycheck, USERSPACETOP. intros Ha Hl Heq.
  destruct (Z.ltb_spec (u32 (a + len - 1)) a); [done|].
  destruct (Z.leb_spec (2 ^ 31) a); [done|].
  destruct (Z.leb_spec (2 ^ 31) (u32 (a + len - 1))); simplify_eq; [lia|].
  split_and!; [lia| |lia]. destruct (decide (s = 0)); [lia|].
  unfold u32 in *. destruct (decide (a + s - 1 < 2 ^ 32)); [rewrite Z.mod_small in * by lia; lia|].
  exfalso. assert ((a + s - 1) mod 2 ^ 32 = a + s - 1 - 2 ^ 32); [|lia].
  symmetry. apply (Z.mod_unique _ _ 1); lia.
Qed.

(** ** Properties *)

(** C34: whatever pointer and length a process passes, [copyout] and [copyoutstr]
    change no byte at or above [USERSPACETOP], and no byte outside of the range
    that was named. *)
Theorem user_copies_confined buf p m a len k : 0 ≤ a < 2 ^ 32 → 0 ≤ len < 2 ^ 32 →
  USERSPACETOP ≤ k ∨ ¬ (a ≤ k < a + len) →
  (∀ e m', copyout buf p m a len = Ret (e, m') → m' !! k = m !! k) ∧
  (∀ e got m', copyoutstr buf p m a len = Ret (e, got, m') → m' !! k = m !! k).
Proof.
  intros Ha Hl Hk. split.
  - intros e m' Heq. unfold copyout in Heq. destruct (copycheck a len) as [r s] eqn:Hc.
    destruct (Z.eqb_spec r 0) as [->|]; cbn [negb] in Heq; [|congruence].
    destruct (copycheck_zero a len s Ha Hl Hc) as (? & ? & ?).
    destruct (Z.eqb_spec s len) as [->|]; cbn [negb] in Heq; [|congruence].
    apply bind_Ret in Heq as (xs & Hxs & Heq). apply load_length in Hxs.
    destruct (store_bytes_correct m a xs) as (m'' & ok & Hs & Hout & _). rewrite Hs in Heq.
    injection Heq as <- <-. apply Hout. lia.
  - intros e got m' Heq. unfold copyoutstr in Heq. destruct (copycheck a len) as [r s] eqn:Hc.
    destruct (Z.eqb_spec r 0) as [->|]; cbn [negb] in Heq; [|congruence].
    destruct (copycheck_zero a len s Ha Hl Hc) as (? & ? & ?).
    eapply copystr_out_outside; [done|]. lia.
Qed.

Lemma user_copies_confined_witness :
  let m : memory := {[2147483646 := 6; 2147483647 := 7; 2147483648 := 9]} in
  ∃ m', copyout [1; 2] 0 m 2147483646 2 = Ret (0, m') ∧ m' !! 2147483648 = m !! 2147483648.
Proof.
  intros m. eexists. split; [vm_compute; reflexivity|].
  refine (proj1 (user_copies_confined [1; 2] 0 m 2147483646 2 2147483648 _ _ _) 0 _ _); [lia..| |vm_compute; reflexivity].
  left. by vm_compute.
Defined.

(** [copyinstr] of a string that lies below [USERSPACETOP] and fits returns 0,
    the length with the terminator and the string; it returns [ENAMETOOLONG]
    exactly when the first [len] bytes are all in user space and hold no
    terminator, and [EFAULT] when the bytes run into an address that faults or
    into the kernel first. *)
Theorem copyinstr_outcomes m a buf p len : 0 ≤ a < USERSPACETOP → 0 < len < 2 ^ 31 →
  0 ≤ p → p + len ≤ Z.of_nat (length buf) →
  let n := Z.to_nat (Z.min len (USERSPACETOP - a)) in
  ∃ s e got buf', copyinstr m a buf p len = Ret (e, got, buf') ∧
    str_copied m a n s e got 0 (if USERSPACETOP - a <? len then EFAULT else ENAMETOOLONG) ∧
    buf' = splice buf (Z.to_nat p) (if e =? 0 then s ++ [0] else s).
Proof.
  intros Ha Hl Hp Hb n. unfold copyinstr.
  assert (copycheck a len = (0, Z.min len (USERSPACETOP - a))) as ->.
  { unfold copycheck, USERSPACETOP in *. rewrite u32_id by lia.
    repeat case_cmp; try lia; do 2 f_equal; lia. }
  cbn [negb Z.eqb]. fold n.
  destruct (copystr_in_correct (Z.to_nat (Z.min len (Z.min len (USERSPACETOP - a)))) m a buf p 0 len
    (Z.min len (USERSPACETOP - a))) as (s & e & got & buf' & Heq & Hs & Hbuf); [lia..|].
  exists s, e, got, buf'. rewrite Z.add_0_r in *.
  assert (Z.to_nat (Z.min len (Z.min len (USERSPACETOP - a))) = n) as Hn by lia. rewrite Hn in *.
  split_and!; [done| |done].
  replace (copystr_end _ _) with (if USERSPACETOP - a <? len then EFAULT else ENAMETOOLONG) in Hs; [done|].
  unfold copystr_end. repeat case_cmp; (done || lia).
Qed.

Lemma copyinstr_outcomes_witness :
  let m : memory := {[100 := 104; 101 := 105; 102 := 0]} in
  ∃ s e got buf', copyinstr m 100 (replicate 8 0) 0 8 = Ret (e, got, buf') ∧
    str_copied m 100 8 s e got 0 ENAMETOOLONG ∧
    buf' = splice (replicate 8 0) 0 (if e =? 0 then s ++ [0] else s).
Proof. intros m. apply (copyinstr_outcomes m 100 (replicate 8 0) 0 8); try (split; [lia|]); vm_compute; congruence. Defined.
