(* ===== verification/Uio.v ===== *)
(** * Moving data through a uio (kern/lib/uio.c, kern/include/uio.h)

    A uio is a list of memory ranges with a count of the bytes that are still to
    be moved.  [uio_iov] holds the [uio_iovcnt] ranges that are left.  The ranges
    are in the memory [m]; the kernel buffer of [uiomove] is a list of its own,
    [p] being the position of the pointer in it. *)

From S2P Require Import Prelude CString UserCopy.

(** ** Data and operations *)

Inductive uio_rw := UIO_READ | UIO_WRITE.
Inductive uio_seg := UIO_USERISPACE | UIO_USERSPACE | UIO_SYSSPACE.

#[global] Instance uio_rw_eq_dec : EqDecision uio_rw.
Proof. solve_decision. Defined.
#[global] Instance uio_seg_eq_dec : EqDecision uio_seg.
Proof. solve_decision. Defined.

Record iovec := Iovec { iov_base : Z; iov_len : Z }.

Record uio := Uio {
  uio_iov : list iovec;
  uio_offset : Z;
  uio_resid : Z;
  uio_segflg : uio_seg;
  uio_dir : uio_rw;
  uio_space : option positive
}.

Definition set_iov (u : uio) (vs : list iovec) : uio :=
  Uio vs u.(uio_offset) u.(uio_resid) u.(uio_segflg) u.(uio_dir) u.(uio_space).

Definition uio_kinit (kbuf len pos : Z) (rw : uio_rw) : uio :=
  Uio [Iovec kbuf len] pos len UIO_SYSSPACE rw None.

(** The transfer of [size] bytes in one turn of the loop: the result of the
    copy, the memory and the buffer. *)
Definition move_bytes (seg : uio_seg) (rw : uio_rw) (m : memory) (buf : list Z) (p base size : Z)
    : res (Z * memory * list Z) :=
  match seg, rw with
  | UIO_SYSSPACE, UIO_READ =>
      xs ← load (Z.to_nat size) buf p;
      let '(m, ok) := store_bytes m base xs in
      if (ok : bool) then Ret (0, m, buf) else Undef
  | UIO_SYSSPACE, UIO_WRITE =>
      let '(xs, ok) := load_bytes (Z.to_nat size) m base in
      if (ok : bool) then buf ← store buf p xs; Ret (0, m, buf) else Undef
  | _, UIO_READ => '(e, m) ← copyout buf p m base size; Ret (e, m, buf)
  | _, UIO_WRITE => '(e, buf) ← copyin m base buf p size; Ret (e, m, buf)
  end.

Fixpoint uiomove_loop (fuel : nat) (m : memory) (buf : list Z) (p n : Z) (u : uio)
    : res (Z * memory * list Z * uio) :=
  match fuel with
  | O => Diverge
  | S fuel' =>
      if (0 <? n) && (0 <? u.(uio_resid)) then
        match u.(uio_iov) with
        | [] => Undef
        | v :: rest =>
            let size := if v.(iov_len) >? n then n else v.(iov_len) in
            if size =? 0 then
              match rest with
              | [] => Panic
              | _ => uiomove_loop fuel' m buf p n (set_iov u rest)
              end
            else
              '(result, m, buf) ← move_bytes u.(uio_segflg) u.(uio_dir) m buf p v.(iov_base) size;
              if negb (result =? 0) then Ret (result, m, buf, u) else
              let u := Uio (Iovec (v.(iov_base) + size) (v.(iov_len) - size) :: rest)
                           (u.(uio_offset) + size) (u32 (u.(uio_resid) - size))
                           u.(uio_segflg) u.(uio_dir) u.(uio_space) in
              uiomove_loop fuel' m buf (p + size) (n - size) u
        end
      else Ret (0, m, buf, u)
  end.

(** Each turn moves a byte or leaves a range. *)
Definition uiomove_fuel (n : Z) (u : uio) : nat := S (Z.to_nat n + length u.(uio_iov)).

(** [curas] is the address space of the current process. *)
Definition uiomove (curas : option positive) (m : memory) (buf : list Z) (p n : Z) (u : uio)
    : res (Z * memory * list Z * uio) :=
  _ ← (if decide (u.(uio_segflg) = UIO_SYSSPACE)
       then kassert (bool_decide (u.(uio_space) = None))
       else kassert (bool_decide (u.(uio_space) = curas)));
  uiomove_loop (uiomove_fuel n u) m buf p n u.

(** [uiomovezeros] sends its block of sixteen zeros as often as needed. *)
Fixpoint movezeros_loop (fuel : nat) (curas : option positive) (m : memory) (n : Z) (u : uio)
    : res (Z * memory * uio) :=
  match fuel with
  | O => Diverge
  | S fuel' =>
      if 0 <? n then
        let amt := if 16 >? n then n else 16 in
        '(result, m, _, u) ← uiomove curas m (replicate 16 0) 0 amt u;
        if negb (result =? 0) then Ret (result, m, u) else
        movezeros_loop fuel' curas m (n - amt) u
      else Ret (0, m, u)
  end.

Definition uiomovezeros (curas : option positive) (m : memory) (n : Z) (u : uio)
    : res (Z * memory * uio) :=
  _ ← kassert (bool_decide (u.(uio_dir) = UIO_READ));
  movezeros_loop (S (Z.to_nat n)) curas m n u.

(** ** Specification *)

(** The addresses of the ranges, in order. *)
Definition iov_addrs (vs : list iovec) : list Z :=
  concat ((λ v, seqZ v.(iov_base) v.(iov_len)) <$> vs).

(** The memory with the bytes [xs] at the addresses [ks]. *)
Fixpoint pour (m : memory) (ks xs : list Z) : memory :=
  match ks, xs with
  | k :: ks, x :: xs => pour (<[k := x]> m) ks xs
  | _, _ => m
  end.

(** The bytes at the addresses [ks]. *)
Definition gather (m : memory) (ks : list Z) : list Z := (λ k, default 0 (m !! k)) <$> ks.

(** A range that can be read and written. *)
Definition iov_ok (seg : uio_seg) (m : memory) (v : iovec) : Prop :=
  0 ≤ v.(iov_base) ∧ 0 ≤ v.(iov_len) ∧ mapped m v.(iov_base) v.(iov_len) ∧
  (seg ≠ UIO_SYSSPACE → v.(iov_base) + v.(iov_len) ≤ USERSPACETOP).

(** The ranges can be accessed, hold at least [uio_resid] bytes, and the uio
    belongs to the current address space. *)
Definition uio_ok (curas : option positive) (m : memory) (u : uio) : Prop :=
  Forall (iov_ok u.(uio_segflg) m) u.(uio_iov) ∧
  0 ≤ u.(uio_resid) ≤ Z.of_nat (length (iov_addrs u.(uio_iov))) ∧
  Z.of_nat (length (iov_addrs u.(uio_iov))) < 2 ^ 32 ∧
  u.(uio_space) = (if decide (u.(uio_segflg) = UIO_SYSSPACE) then None else curas).

(** [u'] is [u] after [k] bytes have been moved. *)
Definition advanced (u : uio) (k : nat) (u' : uio) : Prop :=
  iov_addrs u'.(uio_iov) = drop k (iov_addrs u.(uio_iov)) ∧
  u'.(uio_offset) = u.(uio_offset) + Z.of_nat k ∧
  u'.(uio_resid) = u.(uio_resid) - Z.of_nat k ∧
  u'.(uio_segflg) = u.(uio_segflg) ∧ u'.(uio_dir) = u.(uio_dir) ∧ u'.(uio_space) = u.(uio_space).

(** What moving [k] bytes does to the memory and the buffer. *)
Definition moved (m : memory) (buf : list Z) (p : nat) (u : uio) (k : nat)
    (m' : memory) (buf' : list Z) : Prop :=
  let ks := take k (iov_addrs u.(uio_iov)) in
  match u.(uio_dir) with
  | UIO_READ => m' = pour m ks (take k (drop p buf)) ∧ buf' = buf
  | UIO_WRITE => m' = m ∧ buf' = splice buf p (gather m ks)
  end.

(** ** Lemmas *)

Lemma iov_addrs_cons v vs : iov_addrs (v :: vs) = seqZ v.(iov_base) v.(iov_len) ++ iov_addrs vs.
Proof. done. Qed.

Lemma pour_app m ks1 ks2 xs1 xs2 : length ks1 = length xs1 →
  pour m (ks1 ++ ks2) (xs1 ++ xs2) = pour (pour m ks1 xs1) ks2 xs2.
Proof.
  revert m xs1. induction ks1 as [|k ks1 IH]; intros m [|x xs1] Hl; try done.
  cbn. apply IH. by injection Hl.
Qed.

Lemma pour_nil_r m ks : pour m ks [] = m.
Proof. by destruct ks. Qed.

Lemma pour_seqZ m a xs : pour m (seqZ a (Z.of_nat (length xs))) xs = with_bytes m a xs.
Proof.
  revert m a. induction xs as [|x xs IH]; intros m a; [done|].
  rewrite seqZ_cons by (cbn; lia). cbn [pour with_bytes].
  rewrite <-IH. f_equal; [f_equal; cbn; lia].
Qed.

Lemma pour_mapped m ks xs k : is_Some (m !! k) → is_Some (pour m ks xs !! k).
Proof.
  revert m xs. induction ks as [|k' ks IH]; intros m [|x xs] Hk; try done.
  cbn. apply IH. destruct (decide (k' = k)) as [->|];
    [rewrite lookup_insert_eq; eauto|by rewrite lookup_insert_ne].
Qed.

Lemma gather_app m ks1 ks2 : gather m (ks1 ++ ks2) = gather m ks1 ++ gather m ks2.
Proof. apply fmap_app. Qed.

Lemma gather_holds m a xs : holds_bytes m a xs → gather m (seqZ a (Z.of_nat (length xs))) = xs.
Proof.
  intros H. unfold gather. apply list_eq. intros i. rewrite list_lookup_fmap.
  destruct (xs !! i) as [x|] eqn:Hx.
  - pose proof (lookup_lt_Some _ _ _ Hx). rewrite lookup_seqZ_lt by lia. cbn. by rewrite (H i x Hx).
  - apply lookup_ge_None in Hx. by rewrite lookup_seqZ_ge by lia.
Qed.

(** One turn of the loop that moves bytes. *)
Lemma move_bytes_correct u m buf p v size : iov_ok u.(uio_segflg) m v → 0 < size ≤ v.(iov_len) →
  Z.of_nat p + size ≤ Z.of_nat (length buf) → size < 2 ^ 32 →
  let ks := seqZ v.(iov_base) size in
  ∃ m' buf', move_bytes u.(uio_segflg) u.(uio_dir) m buf (Z.of_nat p) v.(iov_base) size = Ret (0, m', buf') ∧
    match u.(uio_dir) with
    | UIO_READ => m' = pour m ks (take (Z.to_nat size) (drop p buf)) ∧ buf' = buf
    | UIO_WRITE => m' = m ∧ buf' = splice buf p (gather m ks)
    end.
Proof.
  intros (Hb & Hl & Hm & Hu) Hsize Hp H32 ks.
  assert (mapped m v.(iov_base) size) as Hms by (intros k Hk; apply Hm; lia).
  set (xs := take (Z.to_nat size) (drop p buf)).
  assert (Z.of_nat (length xs) = size) as Hxs by (unfold xs; rewrite length_take, length_drop; lia).
  assert (pour m ks xs = with_bytes m v.(iov_base) xs) as Hpour by (unfold ks; rewrite <-Hxs; apply pour_seqZ).
  destruct (decide (u.(uio_segflg) = UIO_SYSSPACE)) as [Hseg|Hseg].
  - rewrite Hseg. destruct (u.(uio_dir)); cbn [move_bytes].
    + rewrite load_list_correct by lia. cbn [mbind res_bind]. rewrite Nat2Z.id. fold xs.
      destruct (store_bytes_correct m v.(iov_base) xs) as (m' & ok & -> & _ & Hok & Hiff).
      rewrite Hxs in Hiff. destruct ok; [|by apply Hiff in Hms].
      rewrite Hok by done. rewrite Hpour. eauto.
    + destruct (load_bytes_correct (Z.to_nat size) m v.(iov_base)) as (ys & ok & -> & Hle & Hh & Hok & Hiff).
      rewrite Z2Nat.id in Hiff by lia. destruct ok; [|by apply Hiff in Hms].
      specialize (Hok eq_refl). rewrite store_at by lia. cbn [mbind res_bind]. rewrite Nat2Z.id.
      eexists _, _. split; [done|]. split; [done|]. f_equal.
      unfold ks. replace size with (Z.of_nat (length ys)) by lia. by rewrite gather_holds.
  - specialize (Hu Hseg). assert (USERSPACETOP = 2 ^ 31) as Htop by done.
    destruct (u.(uio_dir)).
    + assert (move_bytes u.(uio_segflg) UIO_READ m buf (Z.of_nat p) v.(iov_base) size =
        '(e, m') ← copyout buf (Z.of_nat p) m v.(iov_base) size; Ret (e, m', buf)) as ->
        by by destruct (u.(uio_segflg)).
      destruct (copyout_correct buf (Z.of_nat p) m v.(iov_base) size) as (e & m' & -> & _ & Hcase);
        [lia|lia|split; lia|lia|lia|].
      destruct Hcase as [(-> & _ & ->)|[_ ?]]; [|done]. cbn [mbind res_bind].
      rewrite Nat2Z.id. fold xs. rewrite Hpour. eauto.
    + assert (move_bytes u.(uio_segflg) UIO_WRITE m buf (Z.of_nat p) v.(iov_base) size =
        '(e, buf') ← copyin m v.(iov_base) buf (Z.of_nat p) size; Ret (e, m, buf')) as ->
        by by destruct (u.(uio_segflg)).
      destruct (copyin_correct buf (Z.of_nat p) m v.(iov_base) size) as (e & ys & -> & Hh & _ & Hcase);
        [lia|lia|split; lia|lia|lia|].
      destruct Hcase as [(-> & _ & Hlen)|[_ ?]]; [|done]. cbn [mbind res_bind].
      eexists _, _. split; [done|]. split; [done|]. rewrite Nat2Z.id. f_equal.
      unfold ks. rewrite <-Hlen. by rewrite gather_holds.
Qed.

Lemma splice_splice b p xs ys : (p + length xs + length ys ≤ length b)%nat →
  splice (splice b p xs) (p + length xs) ys = splice b p (xs ++ ys).
Proof.
  intros Hl. apply list_eq. intros j.
  rewrite !splice_lookup; rewrite ?splice_length, ?length_app; try lia.
  repeat case_decide; try lia.
  - rewrite lookup_app_r by lia. f_equal. lia.
  - by rewrite lookup_app_l by lia.
  - done.
Qed.

Lemma take_add {A} (l : list A) n k : take (n + k) l = take n l ++ take k (drop n l).
Proof. by rewrite take_take_drop. Qed.

(** Moving [k1] bytes and then [k2]. *)
Lemma moved_add m buf p u k1 k2 u1 m1 buf1 m2 buf2 :
  (p + (k1 + k2) ≤ length buf)%nat → (k1 + k2 ≤ length (iov_addrs u.(uio_iov)))%nat →
  advanced u k1 u1 → moved m buf p u k1 m1 buf1 → moved m1 buf1 (p + k1) u1 k2 m2 buf2 →
  moved m buf p u (k1 + k2) m2 buf2.
Proof.
  intros Hp Hk (Ha & _ & _ & _ & Hd & _). unfold moved. rewrite Hd, Ha, take_add.
  assert (length (take k1 (iov_addrs u.(uio_iov))) = k1) as Hl1 by (rewrite length_take; lia).
  destruct (u.(uio_dir)).
  - intros [-> ->] [-> ->]. split; [|done].
    rewrite (take_add (drop p buf) k1 k2), drop_drop.
    by rewrite pour_app by (rewrite Hl1, length_take, length_drop; lia).
  - intros [-> ->] [-> ->]. split; [done|]. rewrite gather_app.
    rewrite <-splice_splice by (unfold gather; rewrite !length_fmap, !length_take, length_drop; lia).
    unfold gather. by rewrite length_fmap, Hl1.
Qed.

Lemma advanced_add u k1 k2 u1 u2 : advanced u k1 u1 → advanced u1 k2 u2 → advanced u (k1 + k2) u2.
Proof.
  intros (Ha & ? & ? & ? & ? & ?) (Hb & ? & ? & ? & ? & ?). unfold advanced.
  split_and!; [by rewrite Hb, Ha, drop_drop|lia|lia|congruence..].
Qed.

Lemma iov_ok_pour seg m v ks xs : iov_ok seg m v → iov_ok seg (pour m ks xs) v.
Proof.
  intros (? & ? & Hm & ?). split_and!; [done..| |done].
  intros k Hk. by apply pour_mapped, Hm.
Qed.

Lemma moved_ok u m buf p k m' buf' : moved m buf p u k m' buf' →
  Forall (iov_ok u.(uio_segflg) m) u.(uio_iov) → Forall (iov_ok u.(uio_segflg) m') u.(uio_iov).
Proof.
  unfold moved. destruct (u.(uio_dir)).
  - intros [-> _] H. eapply Forall_impl; [done|]. intros v. apply iov_ok_pour.
  - by intros [-> _].
Qed.

Lemma moved_length u m buf p k m' buf' : moved m buf p u k m' buf' → (p + k ≤ length buf)%nat →
  length buf' = length buf.
Proof.
  unfold moved. destruct (u.(uio_dir)); [by intros [_ ->]|]. intros [_ ->] Hp. apply splice_length.
  unfold gather. rewrite length_fmap, length_take. lia.
Qed.

(** The uio after a turn that moved [size] bytes of the first range. *)
Definition after_turn (u : uio) (v : iovec) (rest : list iovec) (size : Z) : uio :=
  Uio (Iovec (v.(iov_base) + size) (v.(iov_len) - size) :: rest)
      (u.(uio_offset) + size) (u32 (u.(uio_resid) - size))
      u.(uio_segflg) u.(uio_dir) u.(uio_space).

Lemma after_turn_addrs u v rest size : 0 ≤ size ≤ v.(iov_len) → u.(uio_iov) = v :: rest →
  iov_addrs u.(uio_iov) = seqZ v.(iov_base) size ++ iov_addrs (after_turn u v rest size).(uio_iov).
Proof.
  intros Hs ->. cbn [uio_iov after_turn]. rewrite !iov_addrs_cons. cbn [iov_base iov_len].
  rewrite app_assoc. f_equal. rewrite <-seqZ_app by lia. f_equal. lia.
Qed.

Lemma after_turn_advanced u v rest size : 0 ≤ size ≤ v.(iov_len) → u.(uio_iov) = v :: rest →
  size ≤ u.(uio_resid) < 2 ^ 32 → advanced u (Z.to_nat size) (after_turn u v rest size).
Proof.
  intros Hs Hv Hr. unfold advanced. rewrite (after_turn_addrs u v rest size) by done.
  assert (length (seqZ (iov_base v) size) = Z.to_nat size) as Hl by apply length_seqZ.
  rewrite drop_app_length' by done. unfold after_turn. cbn.
  rewrite u32_id by lia. split_and!; (done || lia).
Qed.

Lemma turn_moved u m buf p v rest size : uio_iov u = v :: rest → iov_ok u.(uio_segflg) m v →
  0 < size ≤ v.(iov_len) → Z.of_nat p + size ≤ Z.of_nat (length buf) → size < 2 ^ 32 →
  ∃ m' buf', move_bytes u.(uio_segflg) u.(uio_dir) m buf (Z.of_nat p) v.(iov_base) size = Ret (0, m', buf') ∧
    moved m buf p u (Z.to_nat size) m' buf'.
Proof.
  intros Hv Hok Hs Hp H32.
  destruct (move_bytes_correct u m buf p v size) as (m' & buf' & Heq & Hm); [done..|].
  exists m', buf'. split; [done|]. unfold moved.
  rewrite (after_turn_addrs u v rest size) by (done || lia).
  assert (length (seqZ (iov_base v) size) = Z.to_nat size) as Hl by apply length_seqZ.
  by rewrite take_app_length' by done.
Qed.

Lemma after_turn_ok curas u m m' v rest size : uio_ok curas m u → uio_iov u = v :: rest →
  0 < size ≤ v.(iov_len) → size ≤ u.(uio_resid) → Forall (iov_ok u.(uio_segflg) m') u.(uio_iov) →
  uio_ok curas m' (after_turn u v rest size).
Proof.
  intros (_ & Hr & H32 & Hsp) Hv Hs Hsr Hf.
  pose proof (after_turn_addrs u v rest size ltac:(lia) Hv) as Ha. rewrite Ha, length_app, length_seqZ in *.
  unfold uio_ok, after_turn in *. cbn in *. rewrite u32_id by lia. split_and!; try lia; try done.
  rewrite Hv in Hf. apply Forall_cons in Hf as [(? & ? & Hm & Hu) Hf].
  apply Forall_cons. split; [|done]. unfold iov_ok; cbn. split_and!; try lia.
  - intros k Hk. apply Hm. lia.
  - intros Hne. specialize (Hu Hne). lia.
Qed.

Lemma moved_none m buf p u : moved m buf p u 0 m buf ∧ advanced u 0 u.
Proof.
  unfold moved, advanced. rewrite drop_0. split; [|split_and!; (done || lia)].
  destruct (u.(uio_dir)); cbn; [done|by rewrite splice_nil].
Qed.

Lemma uiomove_loop_correct fuel curas m buf p n u : uio_ok curas m u → 0 ≤ n →
  Z.of_nat p + n ≤ Z.of_nat (length buf) → n < 2 ^ 32 →
  n ≤ u.(uio_resid) ∨ u.(uio_resid) = Z.of_nat (length (iov_addrs u.(uio_iov))) →
  (Z.to_nat n + length u.(uio_iov) < fuel)%nat →
  let k := Z.to_nat (Z.min n u.(uio_resid)) in
  ∃ m' buf' u', uiomove_loop fuel m buf (Z.of_nat p) n u = Ret (0, m', buf', u') ∧
    moved m buf p u k m' buf' ∧ advanced u k u' ∧ uio_ok curas m' u'.
Proof.
  revert m buf p n u. induction fuel as [|fuel IH]; intros m buf p n u Hok Hn Hp H32 Hres Hf k; [lia|].
  cbn [uiomove_loop]. pose proof Hok as (Hv & Hr & HT & Hsp).
  destruct (decide (n = 0 ∨ u.(uio_resid) = 0)) as [Hz|Hz].
  { replace ((0 <? n) && (0 <? u.(uio_resid))) with false
      by (symmetry; apply andb_false_iff; destruct Hz; [left|right]; apply Z.ltb_ge; lia).
    exists m, buf, u. replace k with 0%nat by lia.
    destruct (moved_none m buf p u). by split_and!. }
  replace ((0 <? n) && (0 <? u.(uio_resid))) with true
    by (symmetry; apply andb_true_iff; split; apply Z.ltb_lt; lia).
  destruct (u.(uio_iov)) as [|v rest] eqn:Hiov; [cbn in Hr; lia|].
  apply Forall_cons in Hv as Hv'. destruct Hv' as [Hv0 Hrest]. pose proof Hv0 as (_ & Hlen & _ & _).
  set (size := if v.(iov_len) >? n then n else v.(iov_len)).
  assert (0 ≤ size ≤ v.(iov_len) ∧ size ≤ n) as Hsize by (unfold size; case_cmp; lia).
  destruct (Z.eqb_spec size 0) as [Hs0|Hs0].
  - assert (v.(iov_len) = 0) as Hl0 by (revert Hs0; unfold size; case_cmp; lia).
    assert (iov_addrs (v :: rest) = iov_addrs rest) as Ha by (rewrite iov_addrs_cons, Hl0; done).
    rewrite Ha in Hr, HT, Hres. destruct rest as [|v' rest']; [cbn in Hr; lia|].
    destruct (IH m buf p n (set_iov u (v' :: rest'))) as (m' & buf' & u' & Heq & Hm & Hadv & Hok');
      [|done..|cbn in *; lia|].
    { unfold uio_ok, set_iov. cbn [uio_iov uio_resid uio_segflg uio_space]. by split_and!; try lia. }
    exists m', buf', u'. rewrite Heq. rewrite <-Hiov in Ha.
    unfold moved, advanced in *. cbn [set_iov uio_iov uio_dir] in Hm, Hadv. by rewrite !Ha.
  - assert (size ≤ u.(uio_resid)) as Hsr.
    { destruct Hres as [|Hres]; [lia|]. rewrite iov_addrs_cons, length_app, length_seqZ in Hres. lia. }
    destruct (turn_moved u m buf p v rest size) as (m1 & buf1 & -> & Hm1); [done|done|lia..|].
    cbn [mbind res_bind Z.eqb negb]. fold (after_turn u v rest size).
    assert (Hok1 : uio_ok curas m1 (after_turn u v rest size)).
    { eapply after_turn_ok; [done|done|lia|lia|]. rewrite <-Hiov in Hv. by eapply moved_ok. }
    assert (Hadv1 : advanced u (Z.to_nat size) (after_turn u v rest size)).
    { apply after_turn_advanced; [lia|done|lia]. }
    assert (length buf1 = length buf) as Hb1.
    { eapply moved_length; [done|]. cbn. lia. }
    assert ((after_turn u v rest size).(uio_resid) = u.(uio_resid) - size) as Hr1
      by (unfold after_turn; cbn; apply u32_id; lia).
    destruct (IH m1 buf1 (p + Z.to_nat size)%nat (n - size) (after_turn u v rest size))
      as (m' & buf' & u' & Heq & Hm & Hadv & Hok'); [done|lia|lia|lia| |cbn in *; lia|].
    { rewrite Hr1. destruct Hres as [|Hres]; [left; lia|right].
      rewrite <-Hiov, (after_turn_addrs u v rest size), length_app, length_seqZ in Hres by (done || lia). lia. }
    replace (Z.of_nat (p + Z.to_nat size)) with (Z.of_nat p + size) in Heq by lia.
    exists m', buf', u'. rewrite Heq. rewrite Hr1 in *.
    assert (k = Z.to_nat size + Z.to_nat (Z.min (n - size) (u.(uio_resid) - size)))%nat as -> by lia.
    split_and!; [done| |by eapply advanced_add|done].
    eapply moved_add; [| |done..]; rewrite ?Hiov; lia.
Qed.

Lemma uiomove_correct curas m buf p n u : uio_ok curas m u → 0 ≤ n < 2 ^ 32 →
  Z.of_nat p + n ≤ Z.of_nat (length buf) →
  n ≤ u.(uio_resid) ∨ u.(uio_resid) = Z.of_nat (length (iov_addrs u.(uio_iov))) →
  let k := Z.to_nat (Z.min n u.(uio_resid)) in
  ∃ m' buf' u', uiomove curas m buf (Z.of_nat p) n u = Ret (0, m', buf', u') ∧
    moved m buf p u k m' buf' ∧ advanced u k u' ∧ uio_ok curas m' u'.
Proof.
  intros Hok Hn Hp Hres k. unfold uiomove.
  pose proof Hok as (_ & _ & _ & Hsp).
  destruct (decide (u.(uio_segflg) = UIO_SYSSPACE)).
  all: rewrite bool_decide_eq_true_2 by done; cbn [kassert mbind res_bind].
  all: apply uiomove_loop_correct; [done|lia|done|lia|done|unfold uiomove_fuel; lia].
Qed.

Lemma moved_zeros m buf p u k m' buf' : u.(uio_dir) = UIO_READ → moved m buf p u k m' buf' →
  (p + k ≤ length buf)%nat → Forall (λ x, x = 0) buf →
  m' = pour m (take k (iov_addrs u.(uio_iov))) (replicate k 0).
Proof.
  unfold moved. intros -> [-> _] Hk Hz. f_equal.
  apply list_eq_same_length with (n := k); [rewrite length_replicate; done|
    rewrite length_take, length_drop; lia|].
  intros i x y Hi Hx Hy. apply lookup_replicate in Hy as [-> _].
  rewrite lookup_take_lt, lookup_drop in Hx by done. by apply (Forall_lookup_1 _ _ _ _ Hz Hx).
Qed.

Lemma movezeros_correct fuel curas m n u : uio_ok curas m u → u.(uio_dir) = UIO_READ →
  0 ≤ n ≤ u.(uio_resid) → (Z.to_nat n < fuel)%nat →
  ∃ m' u', movezeros_loop fuel curas m n u = Ret (0, m', u') ∧
    m' = pour m (take (Z.to_nat n) (iov_addrs u.(uio_iov))) (replicate (Z.to_nat n) 0) ∧
    advanced u (Z.to_nat n) u' ∧ uio_ok curas m' u'.
Proof.
  revert m n u. induction fuel as [|fuel IH]; intros m n u Hok Hd Hn Hf; [lia|].
  cbn [movezeros_loop]. pose proof Hok as (_ & Hr & HT & _).
  destruct (Z.ltb_spec 0 n).
  2: { assert (n = 0) as -> by lia. exists m, u. destruct (moved_none m [] 0 u) as [_ ?]. by split_and!. }
  set (amt := if 16 >? n then n else 16).
  assert (0 < amt ≤ n ∧ amt ≤ 16) as Hamt by (unfold amt; case_cmp; lia).
  destruct (uiomove_correct curas m (replicate 16 0) 0 amt u) as (m1 & buf1 & u1 & Heq & Hm & Ha & Hok1);
    [done|lia|rewrite length_replicate; lia|left; lia|].
  change (Z.of_nat 0) with 0 in Heq. rewrite Heq. cbn [mbind res_bind Z.eqb negb].
  rewrite Z.min_l in Hm, Ha by lia.
  pose proof Ha as (Hia & _ & Hr1 & _ & Hd1 & _).
  destruct (IH m1 (n - amt) u1) as (m' & u' & -> & -> & Ha' & Hok'); [done|congruence|lia|lia|].
  eexists _, _. split; [done|].
  assert (Z.to_nat n = Z.to_nat amt + Z.to_nat (n - amt))%nat as Hsum by lia.
  rewrite Hsum. split_and!; [|by eapply advanced_add|done].
  rewrite (moved_zeros m (replicate 16 0) 0 u (Z.to_nat amt) m1 buf1), Hia, take_add, replicate_add;
    [|done|done|rewrite length_replicate; lia|by apply Forall_replicate].
  by rewrite pour_app by (rewrite length_take, length_replicate; lia).
Qed.

(** ** Properties *)

(** C32: [uiomove] moves exactly the smaller of [n] and [uio_resid] bytes between
    the kernel buffer and the ranges of the uio, in order and across range
    boundaries, in the direction of [uio_rw], for kernel and for user ranges; it
    advances [uio_offset] and lowers [uio_resid] by that count and leaves a uio
    that can be used again for the bytes that are left. *)
Theorem uiomove_transfers curas m buf p n u : uio_ok curas m u → 0 ≤ n < 2 ^ 32 →
  Z.of_nat p + n ≤ Z.of_nat (length buf) →
  n ≤ u.(uio_resid) ∨ u.(uio_resid) = Z.of_nat (length (iov_addrs u.(uio_iov))) →
  let k := Z.to_nat (Z.min n u.(uio_resid)) in
  ∃ m' buf' u', uiomove curas m buf (Z.of_nat p) n u = Ret (0, m', buf', u') ∧
    moved m buf p u k m' buf' ∧ advanced u k u' ∧ uio_ok curas m' u'.
Proof. apply uiomove_correct. Qed.

Lemma uiomove_transfers_witness :
  let m : memory := {[10 := 1; 11 := 2; 20 := 3]} in
  let u := Uio [Iovec 10 2; Iovec 20 1] 0 3 UIO_USERSPACE UIO_WRITE (Some 1%positive) in
  ∃ m' buf' u', uiomove (Some 1%positive) m [0; 0; 0; 0] 1 3 u = Ret (0, m', buf', u') ∧
    moved m [0; 0; 0; 0] 1 u 3 m' buf' ∧ advanced u 3 u' ∧ uio_ok (Some 1%positive) m' u'.
Proof.
  intros m u. apply (uiomove_transfers (Some 1%positive) m [0; 0; 0; 0] 1 3 u); [|lia|cbn; lia|by left].
  split_and!; [|by vm_compute..].
  repeat constructor; cbn; try lia; try (by vm_compute).
  - intros k Hk. assert (k = 10 ∨ k = 11) as [-> | ->] by lia; by eexists.
  - intros k Hk. assert (k = 20) as -> by lia. by eexists.
Defined.
