(* ===== verification/Sfs.v ===== *)
(** * Blocks of the simple file system (kern/fs/sfs)

    Block I/O with its retries (sfs_io.c), block allocation (sfs_balloc.c), the
    map from the blocks of a file to disk blocks and truncation (sfs_bmap.c).

    The disk of lhd.c is a list of sectors of 512 bytes.  It completes each
    operation with an error number; a run is given the numbers for the reads
    ([sfs_rd]) and for the writes ([sfs_wr]), an exhausted list meaning success.
    An operation that fails changes nothing on the disk.  The callers hold the
    file-system lock. *)

From S2P Require Import Prelude CString UserCopy Uio Bitmap.

(** ** Data *)

Definition SFS_BLOCKSIZE : Z := 512.
Definition SFS_NDIRECT : Z := 15.
Definition SFS_NINDIRECT : Z := 1.
Definition SFS_DBPERIDB : Z := 128.
Definition SFS_NOINO : Z := 0.
Definition SFS_TYPE_DIR : Z := 2.

Record sfs_dinode := Dinode {
  sfi_size : Z;
  sfi_type : Z;
  sfi_linkcount : Z;
  sfi_direct : list Z;
  sfi_indirect : Z
}.

Record sfs_vnode := Vnode { sv_ino : Z; sv_i : sfs_dinode; sv_dirty : bool }.

Record sfs_fs := Fs {
  sb_nblocks : Z;
  sfs_freemap : bitmap;
  sfs_freemapdirty : bool;
  sfs_disk : list (list Z);
  sfs_rd : list Z;
  sfs_wr : list Z
}.

Definition set_freemap (s : sfs_fs) (b : bitmap) : sfs_fs :=
  Fs s.(sb_nblocks) b true s.(sfs_disk) s.(sfs_rd) s.(sfs_wr).
Definition set_disk (s : sfs_fs) (d : list (list Z)) : sfs_fs :=
  Fs s.(sb_nblocks) s.(sfs_freemap) s.(sfs_freemapdirty) d s.(sfs_rd) s.(sfs_wr).
Definition set_io (s : sfs_fs) (rd wr : list Z) : sfs_fs :=
  Fs s.(sb_nblocks) s.(sfs_freemap) s.(sfs_freemapdirty) s.(sfs_disk) rd wr.

(** The inode of the vnode changed and marked dirty. *)
Definition set_direct (sv : sfs_vnode) (l : list Z) : sfs_vnode :=
  let i := sv.(sv_i) in
  Vnode sv.(sv_ino) (Dinode i.(sfi_size) i.(sfi_type) i.(sfi_linkcount) l i.(sfi_indirect)) true.
Definition set_indirect (sv : sfs_vnode) (b : Z) : sfs_vnode :=
  let i := sv.(sv_i) in
  Vnode sv.(sv_ino) (Dinode i.(sfi_size) i.(sfi_type) i.(sfi_linkcount) i.(sfi_direct) b) true.
Definition set_size (sv : sfs_vnode) (n : Z) : sfs_vnode :=
  let i := sv.(sv_i) in
  Vnode sv.(sv_ino) (Dinode n i.(sfi_type) i.(sfi_linkcount) i.(sfi_direct) i.(sfi_indirect)) true.

(** A block as an array of 32-bit words (the machine is big-endian), and back. *)
Fixpoint words (b : list Z) : list Z :=
  match b with
  | b0 :: b1 :: b2 :: b3 :: r => (b0 * 2 ^ 24 + b1 * 2 ^ 16 + b2 * 2 ^ 8 + b3) :: words r
  | _ => []
  end.

Definition word_bytes (w : Z) : list Z :=
  [w / 2 ^ 24; w / 2 ^ 16 mod 2 ^ 8; w / 2 ^ 8 mod 2 ^ 8; w mod 2 ^ 8].

Definition unwords (ws : list Z) : list Z := concat (word_bytes <$> ws).

Definition zero_block : list Z := replicate 512 0.

(** ** Block I/O *)

(** The next completion of a read or write. *)
Definition completion (rw : uio_rw) (s : sfs_fs) : Z * sfs_fs :=
  match rw with
  | UIO_READ =>
      match s.(sfs_rd) with [] => (0, s) | e :: o => (e, set_io s o s.(sfs_wr)) end
  | UIO_WRITE =>
      match s.(sfs_wr) with [] => (0, s) | e :: o => (e, set_io s s.(sfs_rd) o) end
  end.

(** The loop of [lhd_io] over the sectors, [n] being the number left.  The buffer
    of the card is filled before each use. *)
Fixpoint lhd_loop (n : nat) (cur : option positive) (m : memory) (u : uio) (sector : Z) (s : sfs_fs)
    : res (Z * memory * uio * sfs_fs) :=
  match n with
  | O => Ret (0, m, u, s)
  | S n' =>
      match u.(uio_dir) with
      | UIO_WRITE =>
          '(result, m, lh_buf, u) ← uiomove cur m zero_block 0 512 u;
          if negb (result =? 0) then Ret (result, m, u, s) else
          let '(result, s) := completion UIO_WRITE s in
          if negb (result =? 0) then Ret (result, m, u, s) else
          d ← s.(sfs_disk).[sector <- lh_buf];
          lhd_loop n' cur m u (sector + 1) (set_disk s d)
      | UIO_READ =>
          let '(result, s) := completion UIO_READ s in
          if negb (result =? 0) then Ret (result, m, u, s) else
          lh_buf ← s.(sfs_disk).[sector];
          '(result, m, _, u) ← uiomove cur m lh_buf 0 512 u;
          if negb (result =? 0) then Ret (result, m, u, s) else
          lhd_loop n' cur m u (sector + 1) s
      end
  end.

(** [cur] is the current address space, [m] the memory the uio points to. *)
Definition lhd_io (cur : option positive) (m : memory) (u : uio) (s : sfs_fs)
    : res (Z * memory * uio * sfs_fs) :=
  let sector := u32 (u.(uio_offset) / 512) in
  let len := u.(uio_resid) / 512 in
  if negb (u.(uio_offset) mod 512 =? 0) || negb (u.(uio_resid) mod 512 =? 0) then Ret (EINVAL, m, u, s) else
  if Z.of_nat (length s.(sfs_disk)) <? u32 (sector + len) then Ret (EINVAL, m, u, s) else
  lhd_loop (Z.to_nat len) cur m u sector s.

(** [n] is the number of retries left.  The uio is not reset for a retry. *)
Fixpoint sfs_rwblock (n : nat) (cur : option positive) (m : memory) (u : uio) (s : sfs_fs)
    : res (Z * memory * uio * sfs_fs) :=
  '(result, m, u, s) ← lhd_io cur m u s;
  if result =? EINVAL then Panic else
  if result =? EIO then
    match n with
    | S n' => sfs_rwblock n' cur m u s
    | O => Ret (result, m, u, s)
    end
  else Ret (result, m, u, s).

Definition sfs_retries : nat := 10.

(** The kernel buffer of a block is a memory of its own, at address 0. *)
Definition block_mem (d : list Z) : memory := with_bytes ∅ 0 d.

Definition sfs_readblock (s : sfs_fs) (block : Z) : res (Z * list Z * sfs_fs) :=
  let ku := uio_kinit 0 512 (block * 512) UIO_READ in
  '(result, m, _, s) ← sfs_rwblock sfs_retries None (block_mem zero_block) ku s;
  Ret (result, gather m (seqZ 0 512), s).

Definition sfs_writeblock (s : sfs_fs) (block : Z) (data : list Z) : res (Z * sfs_fs) :=
  let ku := uio_kinit 0 512 (block * 512) UIO_WRITE in
  '(result, _, _, s) ← sfs_rwblock sfs_retries None (block_mem data) ku s;
  Ret (result, s).

(** ** Block allocation *)

Definition sfs_clearblock (s : sfs_fs) (block : Z) : res (Z * sfs_fs) :=
  sfs_writeblock s block zero_block.

(** The result, [*diskblock] and the file system. *)
Definition sfs_balloc (s : sfs_fs) : res (Z * Z * sfs_fs) :=
  r ← bitmap_alloc s.(sfs_freemap);
  match r with
  | inl e => Ret (e, 0, s)
  | inr (diskblock, b) =>
      let s := set_freemap s b in
      if s.(sb_nblocks) <=? diskblock then Panic else
      '(result, s) ← sfs_clearblock s diskblock;
      if negb (result =? 0) then
        b ← bitmap_unmark s.(sfs_freemap) diskblock;
        Ret (result, diskblock, Fs s.(sb_nblocks) b s.(sfs_freemapdirty) s.(sfs_disk) s.(sfs_rd) s.(sfs_wr))
      else Ret (0, diskblock, s)
  end.

Definition sfs_bfree (s : sfs_fs) (diskblock : Z) : res sfs_fs :=
  b ← bitmap_unmark s.(sfs_freemap) diskblock;
  Ret (set_freemap s b).

Definition sfs_bused (s : sfs_fs) (diskblock : Z) : res bool :=
  if s.(sb_nblocks) <=? diskblock then Panic else bitmap_isset s.(sfs_freemap) diskblock.

(** ** The block map *)

(** The check before a block is handed back. *)
Definition hand_back (s : sfs_fs) (block : Z) : res unit :=
  if block =? 0 then Ret tt else
  used ← sfs_bused s block;
  if (used : bool) then Ret tt else Panic.

(** The part of [sfs_bmap] that allocates or loads the indirect block: the
    result, [idblock] and [idbuf]. *)
Definition load_indirect (s : sfs_fs) (sv : sfs_vnode) : res (Z * Z * list Z * sfs_fs * sfs_vnode) :=
  let idblock := sv.(sv_i).(sfi_indirect) in
  if idblock =? 0 then
    '(result, idblock, s) ← sfs_balloc s;
    if negb (result =? 0) then Ret (result, 0, [], s, sv) else
    Ret (0, idblock, replicate 128 0, s, set_indirect sv idblock)
  else
    '(result, d, s) ← sfs_readblock s idblock;
    Ret (result, idblock, words d, s, sv).

(** The result, [*diskblock], the file system and the vnode. *)
Definition sfs_bmap (s : sfs_fs) (sv : sfs_vnode) (fileblock : Z) (doalloc : bool)
    : res (Z * Z * sfs_fs * sfs_vnode) :=
  if fileblock <? SFS_NDIRECT then
    block ← sv.(sv_i).(sfi_direct).[fileblock];
    if (block =? 0) && doalloc then
      '(result, block, s) ← sfs_balloc s;
      if negb (result =? 0) then Ret (result, 0, s, sv) else
      l ← sv.(sv_i).(sfi_direct).[fileblock <- block];
      _ ← hand_back s block;
      Ret (0, block, s, set_direct sv l)
    else
      _ ← hand_back s block;
      Ret (0, block, s, sv)
  else
    let fileblock := fileblock - SFS_NDIRECT in
    let idnum := fileblock / SFS_DBPERIDB in
    let idoff := fileblock mod SFS_DBPERIDB in
    if SFS_NINDIRECT <=? idnum then Ret (EFBIG, 0, s, sv) else
    let idblock := sv.(sv_i).(sfi_indirect) in
    if (idblock =? 0) && negb doalloc then Ret (0, 0, s, sv) else
    '(result, idblock, idbuf, s, sv) ← load_indirect s sv;
    if negb (result =? 0) then Ret (result, 0, s, sv) else
    block ← idbuf.[idoff];
    if (block =? 0) && doalloc then
      '(result, block, s) ← sfs_balloc s;
      if negb (result =? 0) then Ret (result, 0, s, sv) else
      idbuf ← idbuf.[idoff <- block];
      '(result, s) ← sfs_writeblock s idblock (unwords idbuf);
      if negb (result =? 0) then Ret (result, 0, s, sv) else
      _ ← hand_back s block;
      Ret (0, block, s, sv)
    else
      _ ← hand_back s block;
      Ret (0, block, s, sv).

(** ** Truncation *)

(** The loop over the direct blocks from [i] on. *)
Fixpoint trunc_direct (n : nat) (s : sfs_fs) (sv : sfs_vnode) (i blocklen : Z) : res (sfs_fs * sfs_vnode) :=
  match n with
  | O => Ret (s, sv)
  | S n' =>
      block ← sv.(sv_i).(sfi_direct).[i];
      if (blocklen <=? i) && negb (block =? 0) then
        s ← sfs_bfree s block;
        l ← sv.(sv_i).(sfi_direct).[i <- 0];
        trunc_direct n' s (set_direct sv l) (i + 1) blocklen
      else trunc_direct n' s sv (i + 1) blocklen
  end.

(** The loop over the indirect block from [j] on: the file system, the buffer,
    [hasnonzero] and [iddirty]. *)
Fixpoint trunc_indirect (n : nat) (s : sfs_fs) (idbuf : list Z) (j blocklen : Z) (hasnonzero iddirty : bool)
    : res (sfs_fs * list Z * bool * bool) :=
  match n with
  | O => Ret (s, idbuf, hasnonzero, iddirty)
  | S n' =>
      b ← idbuf.[j];
      '(s, idbuf, iddirty) ←
        (if (blocklen <? SFS_NDIRECT + j) && negb (b =? 0) then
           s ← sfs_bfree s b;
           idbuf ← idbuf.[j <- 0];
           Ret (s, idbuf, true)
         else Ret (s, idbuf, iddirty));
      b ← idbuf.[j];
      trunc_indirect n' s idbuf (j + 1) blocklen (hasnonzero || negb (b =? 0)) iddirty
  end.

(** The second half of [sfs_itrunc]: the indirect block. *)
Definition trunc_indirect_block (s : sfs_fs) (sv : sfs_vnode) (blocklen : Z) : res (Z * sfs_fs * sfs_vnode) :=
  let idblock := sv.(sv_i).(sfi_indirect) in
  let highblock := SFS_NDIRECT + SFS_DBPERIDB - 1 in
  if (blocklen <? highblock) && negb (idblock =? 0) then
    '(result, d, s) ← sfs_readblock s idblock;
    if negb (result =? 0) then Ret (result, s, sv) else
    '(s, idbuf, hasnonzero, iddirty) ← trunc_indirect 128 s (words d) 0 blocklen false false;
    if negb hasnonzero then
      s ← sfs_bfree s idblock;
      Ret (0, s, set_indirect sv 0)
    else if (iddirty : bool) then
      '(result, s) ← sfs_writeblock s idblock (unwords idbuf);
      Ret (result, s, sv)
    else Ret (0, s, sv)
  else Ret (0, s, sv).

Definition sfs_itrunc (s : sfs_fs) (sv : sfs_vnode) (len : Z) : res (Z * sfs_fs * sfs_vnode) :=
  let blocklen := u32 (Z.quot (len + SFS_BLOCKSIZE - 1) SFS_BLOCKSIZE) in
  '(s, sv) ← trunc_direct 15 s sv 0 blocklen;
  '(result, s, sv) ← trunc_indirect_block s sv blocklen;
  if negb (result =? 0) then Ret (result, s, sv) else
  Ret (0, s, set_size sv (u32 len)).

(** ** Specification *)

(** The disk blocks of the 143 blocks a file can have, 0 for a hole. *)
Definition entries (s : sfs_fs) (sv : sfs_vnode) : list Z :=
  sv.(sv_i).(sfi_direct) ++
  (if sv.(sv_i).(sfi_indirect) =? 0 then replicate 128 0
   else words (s.(sfs_disk) !!! Z.to_nat sv.(sv_i).(sfi_indirect))).

(** All disk blocks the inode refers to; the first one is the indirect block. *)
Definition slots (s : sfs_fs) (sv : sfs_vnode) : list Z := sv.(sv_i).(sfi_indirect) :: entries s sv.

(** What block [fb] of the file reads as. *)
Definition content (s : sfs_fs) (sv : sfs_vnode) (fb : nat) : list Z :=
  match entries s sv !! fb with
  | Some b => if b =? 0 then zero_block else s.(sfs_disk) !!! Z.to_nat b
  | None => zero_block
  end.

Definition used (s : sfs_fs) (b : Z) : bool := bit s.(sfs_freemap) b.

Definition is_block (b : list Z) : Prop := length b = 512%nat ∧ Forall (λ x, 0 ≤ x < 256) b.

(** The disk reports [EINVAL] only for sectors it does not have, and no write
    fails with [EIO]. *)
Definition io_ok (s : sfs_fs) : Prop :=
  Forall (λ e, e ≠ EINVAL) s.(sfs_rd) ∧ Forall (λ e, e ≠ EINVAL ∧ e ≠ EIO) s.(sfs_wr).

(** The volume: block 0 (the superblock) and the blocks past the end are never
    free. *)
Record fs_ok (s : sfs_fs) : Prop := FsOk {
  fo_map : wf s.(sfs_freemap);
  fo_bits : s.(sb_nblocks) ≤ s.(sfs_freemap).(b_nbits);
  fo_end : ∀ b, s.(sb_nblocks) ≤ b < s.(sfs_freemap).(b_nbits) → used s b = true;
  fo_super : used s 0 = true;
  fo_len : Z.of_nat (length s.(sfs_disk)) = s.(sb_nblocks);
  fo_pos : 0 < s.(sb_nblocks) < 2 ^ 32;
  fo_blocks : Forall is_block s.(sfs_disk);
  fo_io : io_ok s
}.

(** A block the inode refers to is on the disk and in use, and the inode refers
    to it once. *)
Record file_ok (s : sfs_fs) (sv : sfs_vnode) : Prop := FileOk {
  fi_direct : length sv.(sv_i).(sfi_direct) = 15%nat;
  fi_used : ∀ i b, slots s sv !! i = Some b → b ≠ 0 → 0 < b < s.(sb_nblocks) ∧ used s b = true;
  fi_inj : ∀ i j b, slots s sv !! i = Some b → slots s sv !! j = Some b → b ≠ 0 → i = j
}.

(** ** Words *)

Lemma words_length b n : length b = (4 * n)%nat → length (words b) = n.
Proof.
  revert b. induction n as [|n IH]; intros b Hb; [by destruct b|].
  destruct b as [|b0 [|b1 [|b2 [|b3 b]]]]; cbn in Hb; try lia.
  cbn [words length]. f_equal. apply IH. lia.
Qed.

Lemma word_bytes_word w r : 0 ≤ w < 2 ^ 32 → words (word_bytes w ++ r) = w :: words r.
Proof.
  intros Hw. cbn [word_bytes app words]. f_equal. Z.div_mod_to_equations. lia.
Qed.

Lemma words_unwords ws : Forall (λ w, 0 ≤ w < 2 ^ 32) ws → words (unwords ws) = ws.
Proof.
  induction 1 as [|w ws Hw _ IH]; [done|]. unfold unwords in *. cbn [fmap list_fmap concat].
  rewrite word_bytes_word by done. by f_equal.
Qed.

Lemma unwords_block ws : length ws = 128%nat → Forall (λ w, 0 ≤ w < 2 ^ 32) ws → is_block (unwords ws).
Proof.
  intros Hl Hw. split.
  - rewrite <-(Nat.mul_1_r 512). replace 512%nat with (4 * 128)%nat by lia. rewrite <-Hl. clear.
    rewrite Nat.mul_1_r. unfold unwords. induction ws as [|w ws IH]; [done|]. cbn in *. lia.
  - clear Hl. unfold unwords. induction Hw as [|w ws Hw _ IH]; cbn [fmap list_fmap concat]; [done|].
    apply Forall_app. split; [|done]. unfold word_bytes. repeat constructor; zdiv_lia.
Qed.

Lemma words_range b : Forall (λ x, 0 ≤ x < 256) b → Forall (λ w, 0 ≤ w < 2 ^ 32) (words b).
Proof.
  assert (∀ n (b : list Z), (length b ≤ n)%nat → Forall (λ x, 0 ≤ x < 256) b →
    Forall (λ w, 0 ≤ w < 2 ^ 32) (words b)) as H; [|by eapply H].
  induction n as [|n IH]; intros b' Hn Hb; [by destruct b'; [|cbn in Hn; lia]|].
  destruct b' as [|b0 [|b1 [|b2 [|b3 b']]]]; try by constructor.
  rewrite !Forall_cons in Hb. cbn [words]. apply Forall_cons. split; [lia|].
  apply IH; [cbn in Hn; lia|]. naive_solver.
Qed.

Lemma words_zero : words zero_block = replicate 128 0.
Proof. by vm_compute. Qed.

Lemma zero_is_block : is_block zero_block.
Proof. split; [done|]. apply Forall_replicate. lia. Qed.

(** ** Block I/O *)

(** The disk has no more errors to report. *)
Definition quiet (s : sfs_fs) : Prop := s.(sfs_rd) = [] ∧ s.(sfs_wr) = [].

(** [s'] is [s] after some requests. *)
Definition same_but_io (s s' : sfs_fs) : Prop :=
  s' = set_io s s'.(sfs_rd) s'.(sfs_wr) ∧ io_ok s' ∧ (quiet s → quiet s').

Lemma same_fields s s' : same_but_io s s' →
  s'.(sb_nblocks) = s.(sb_nblocks) ∧ s'.(sfs_freemap) = s.(sfs_freemap) ∧ s'.(sfs_disk) = s.(sfs_disk).
Proof. intros [-> _]. done. Qed.

Lemma same_but_io_trans s s1 s2 : same_but_io s s1 → same_but_io s1 s2 → same_but_io s s2.
Proof. intros (H1 & _ & H1q) (H2 & ? & H2q). split_and!; [by rewrite H2, H1|done|auto]. Qed.

Lemma same_ok s s' : same_but_io s s' → fs_ok s → fs_ok s'.
Proof. intros (-> & H & _) []. by constructor. Qed.

Lemma completion_ok rw s : io_ok s → ∃ e s', completion rw s = (e, s') ∧ same_but_io s s' ∧ e ≠ EINVAL ∧
  (rw = UIO_WRITE → e ≠ EIO) ∧ (quiet s → e = 0).
Proof.
  intros [Hr Hw]. destruct rw, s as [nb fm fd dk rd wr]; cbn [completion sfs_rd sfs_wr] in *.
  - destruct rd as [|e rd]; [by eexists _, _|]. apply Forall_cons in Hr as [He Hr].
    eexists _, _. split; [done|]. split; [by split_and!; try (intros [? _])|]. by split_and!; try (intros [? _]).
  - destruct wr as [|e wr]; [by eexists _, _|]. apply Forall_cons in Hw as [[He He'] Hw].
    eexists _, _. split; [done|]. split; [by split_and!; try (intros [_ ?])|]. by split_and!; try (intros [_ ?]).
Qed.

(** A uio for one block [b] of the disk. *)
Definition block_uio (cur : option positive) (m : memory) (u : uio) (rw : uio_rw) (b : Z) : Prop :=
  uio_ok cur m u ∧ u.(uio_dir) = rw ∧ u.(uio_offset) = b * 512 ∧ u.(uio_resid) = 512.

(** For such a uio the checks of [lhd_io] pass and the loop has one turn. *)
Lemma lhd_io_block cur m u s rw b : block_uio cur m u rw b →
  0 ≤ b < Z.of_nat (length s.(sfs_disk)) → Z.of_nat (length s.(sfs_disk)) < 2 ^ 32 →
  lhd_io cur m u s = lhd_loop 1 cur m u b s.
Proof.
  intros (_ & _ & Ho & Hr) Hb H32. unfold lhd_io. rewrite Ho, Hr, Z.div_mul, Z_mod_mult by lia.
  rewrite (u32_id b) by lia. change (512 / 512) with 1.
  change (512 mod 512 =? 0) with true. cbn [Z.eqb negb orb].
  rewrite u32_id by lia. by destruct (Z.ltb_spec (Z.of_nat (length s.(sfs_disk))) (b + 1)); [lia|].
Qed.

Lemma disk_range s b : fs_ok s → 0 ≤ b < s.(sb_nblocks) →
  0 ≤ b < Z.of_nat (length s.(sfs_disk)) ∧ Z.of_nat (length s.(sfs_disk)) < 2 ^ 32.
Proof. intros Hok Hb. pose proof (fo_pos _ Hok). rewrite (fo_len _ Hok). lia. Qed.

Lemma moved_block_read m d u m' buf' : u.(uio_dir) = UIO_READ → length d = 512%nat →
  moved m d 0 u 512 m' buf' → m' = pour m (take 512 (iov_addrs u.(uio_iov))) d.
Proof.
  unfold moved. intros -> Hl [-> _]. rewrite drop_0. by rewrite (take_ge d) by lia.
Qed.

Lemma moved_block_write m u m' buf' : u.(uio_dir) = UIO_WRITE →
  (512 ≤ length (iov_addrs u.(uio_iov)))%nat → moved m zero_block 0 u 512 m' buf' →
  m' = m ∧ buf' = gather m (take 512 (iov_addrs u.(uio_iov))).
Proof.
  unfold moved. intros -> Hl [-> ->]. split; [done|]. unfold splice. rewrite take_0.
  assert (length (gather m (take 512 (iov_addrs (uio_iov u)))) = 512%nat) as ->
    by (unfold gather; rewrite length_fmap, length_take; lia).
  rewrite drop_ge by done. by rewrite app_nil_r.
Qed.

(** What reading block [b] through the uio does. *)
Definition block_read (cur : option positive) (m : memory) (u : uio) (s : sfs_fs) (b : Z)
    (e : Z) (m' : memory) (u' : uio) (s' : sfs_fs) : Prop :=
  same_but_io s s' ∧ e ≠ EINVAL ∧ (quiet s → e = 0) ∧
  (e ≠ 0 ∧ m' = m ∧ u' = u ∨
   e = 0 ∧ m' = pour m (take 512 (iov_addrs u.(uio_iov))) (s.(sfs_disk) !!! Z.to_nat b) ∧
   advanced u 512 u' ∧ uio_ok cur m' u').

Lemma uio_len cur m u rw b : block_uio cur m u rw b → (512 ≤ length (iov_addrs u.(uio_iov)))%nat.
Proof. intros ((_ & ? & _) & _ & _ & ?). lia. Qed.

Lemma lhd_read cur m u s b : fs_ok s → block_uio cur m u UIO_READ b → 0 ≤ b < s.(sb_nblocks) →
  ∃ e m' u' s', lhd_io cur m u s = Ret (e, m', u', s') ∧ block_read cur m u s b e m' u' s'.
Proof.
  intros Hok Hu Hb. destruct (disk_range s b Hok Hb). rewrite (lhd_io_block _ _ _ _ _ _ Hu) by done. cbn [lhd_loop].
  pose proof Hu as (Huo & -> & _ & Hr).
  destruct (completion_ok UIO_READ s (fo_io _ Hok)) as (e & s1 & -> & Hs1 & He & _ & Hq).
  destruct (Z.eqb_spec e 0) as [->|]; cbn [negb].
  2: { eexists _, _, _, _. split; [done|]. split_and!; [done..|]. by left. }
  destruct (same_fields s s1 Hs1) as (_ & _ & ->).
  destruct (rd_in_range s.(sfs_disk) b) as (d & -> & Hd); [by rewrite (fo_len _ Hok)|]. cbn [mbind res_bind].
  destruct (Forall_lookup_1 _ _ _ _ (fo_blocks _ Hok) Hd) as [Hdl _].
  destruct (uiomove_correct cur m d 0 512 u) as (m' & buf' & u' & Heq & Hm & Ha & Hok');
    [done|lia|lia|left; lia|].
  change (Z.of_nat 0) with 0 in Heq. rewrite Heq. cbn [mbind res_bind Z.eqb negb].
  rewrite Hr in Hm, Ha. change (Z.to_nat (512 `min` 512)) with 512%nat in *.
  eexists _, _, _, _. split; [done|]. split_and!; [done..|]. right. split_and!; [done| |done..].
  rewrite (list_lookup_total_correct _ _ _ Hd). destruct Hu as (_ & ? & _). by eapply moved_block_read.
Qed.

Lemma rwblock_read n cur m u s b : fs_ok s → block_uio cur m u UIO_READ b → 0 ≤ b < s.(sb_nblocks) →
  ∃ e m' u' s', sfs_rwblock n cur m u s = Ret (e, m', u', s') ∧ block_read cur m u s b e m' u' s'.
Proof.
  revert s. induction n as [|n IH]; intros s Hok Hu Hb; cbn [sfs_rwblock].
  all: destruct (lhd_read cur m u s b Hok Hu Hb) as (e & m' & u' & s1 & -> & (Hs1 & He & Hq & Hcase)).
  all: cbn [mbind res_bind]; destruct (Z.eqb_spec e EINVAL); [done|].
  all: destruct (Z.eqb_spec e EIO) as [->|]; [|by eexists _, _, _, _].
  - by eexists _, _, _, _.
  - destruct Hcase as [(_ & -> & ->)|[? _]]; [|done].
    destruct (same_fields s s1 Hs1) as (Hn & _ & Hd).
    destruct (IH s1) as (e & m' & u' & s2 & -> & (Hs2 & He2 & Hq2 & Hcase)); [by eapply same_ok|done|by rewrite Hn|].
    eexists _, _, _, _. split; [done|]. split_and!; [by eapply same_but_io_trans|done| |by rewrite <-Hd].
    intros Hqs. by pose proof (Hq Hqs).
Qed.

(** What writing block [b] through the uio does when the disk does not fail. *)
Definition block_written (cur : option positive) (m : memory) (u : uio) (s : sfs_fs) (b : Z)
    (e : Z) (m' : memory) (u' : uio) (s' : sfs_fs) : Prop :=
  e ≠ EINVAL ∧ e ≠ EIO ∧ m' = m ∧ advanced u 512 u' ∧ uio_ok cur m u' ∧ (quiet s → e = 0) ∧
  (e ≠ 0 ∧ same_but_io s s' ∨
   e = 0 ∧ same_but_io (set_disk s (<[Z.to_nat b := gather m (take 512 (iov_addrs u.(uio_iov)))]> s.(sfs_disk))) s').

Lemma rwblock_write n cur m u s b : fs_ok s → block_uio cur m u UIO_WRITE b → 0 ≤ b < s.(sb_nblocks) →
  ∃ e m' u' s', sfs_rwblock n cur m u s = Ret (e, m', u', s') ∧ block_written cur m u s b e m' u' s'.
Proof.
  intros Hok Hu Hb.
  assert (∃ e m' u' s', lhd_io cur m u s = Ret (e, m', u', s') ∧ block_written cur m u s b e m' u' s')
    as (e & m' & u' & s' & Heq & Hbw).
  { destruct (disk_range s b Hok Hb). rewrite (lhd_io_block _ _ _ _ _ _ Hu) by done. cbn [lhd_loop].
    pose proof (uio_len _ _ _ _ _ Hu). pose proof Hu as (Huo & -> & _ & Hr).
    destruct (uiomove_correct cur m zero_block 0 512 u) as (m' & buf' & u' & Heq & Hm & Ha & Hok');
      [done|lia|done|left; lia|].
    change (Z.of_nat 0) with 0 in Heq. rewrite Heq. cbn [mbind res_bind Z.eqb negb].
    rewrite Hr in Hm, Ha. change (Z.to_nat (512 `min` 512)) with 512%nat in *.
    destruct Hu as (_ & Hdir & _). destruct (moved_block_write m u m' buf' Hdir ltac:(lia) Hm) as [-> ->].
    destruct (completion_ok UIO_WRITE s (fo_io _ Hok)) as (e & s1 & -> & Hs1 & He & He' & Hq).
    specialize (He' eq_refl). destruct (same_fields s s1 Hs1) as (_ & _ & Hd).
    destruct (Z.eqb_spec e 0) as [->|]; cbn [negb].
    - rewrite Hd, wr_in_range by (by rewrite (fo_len _ Hok)). cbn [mbind res_bind].
      eexists _, _, _, _. split; [done|]. split_and!; [done..|]. right. split; [done|].
      destruct Hs1 as (-> & ? & ?). by split_and!.
    - eexists _, _, _, _. split; [done|]. split_and!; [done..|]. by left. }
  exists e, m', u', s'. split; [|done]. destruct Hbw as (He & He' & _).
  destruct n; cbn [sfs_rwblock]; rewrite Heq; cbn [mbind res_bind];
    by destruct (Z.eqb_spec e EINVAL), (Z.eqb_spec e EIO).
Qed.

Lemma disk_block s b : fs_ok s → 0 ≤ b < s.(sb_nblocks) → is_block (s.(sfs_disk) !!! Z.to_nat b).
Proof.
  intros Hok Hb. destruct (rd_in_range s.(sfs_disk) b) as (d & _ & Hd); [by rewrite (fo_len _ Hok)|].
  rewrite (list_lookup_total_correct _ _ _ Hd). by apply (Forall_lookup_1 _ _ _ _ (fo_blocks _ Hok) Hd).
Qed.

Lemma holds_with_bytes m a xs : holds_bytes (with_bytes m a xs) a xs.
Proof.
  intros i x Hx. pose proof (lookup_lt_Some _ _ _ Hx). rewrite with_bytes_lookup, decide_True by lia.
  by replace (Z.to_nat (a + Z.of_nat i - a)) with i by lia.
Qed.

Lemma block_mem_gather m d : length d = 512%nat → gather (with_bytes m 0 d) (seqZ 0 512) = d.
Proof.
  intros Hl. replace 512 with (Z.of_nat (length d)) by lia. apply gather_holds, holds_with_bytes.
Qed.

Lemma pour_block m d : length d = 512%nat → pour m (seqZ 0 512) d = with_bytes m 0 d.
Proof. intros Hl. rewrite <-pour_seqZ, Hl. done. Qed.

Lemma kinit_ok d b rw : length d = 512%nat →
  block_uio None (block_mem d) (uio_kinit 0 512 (b * 512) rw) rw b ∧
  take 512 (iov_addrs (uio_kinit 0 512 (b * 512) rw).(uio_iov)) = seqZ 0 512.
Proof.
  intros Hl. assert (iov_addrs [Iovec 0 512] = seqZ 0 512) as Ha by (rewrite iov_addrs_cons; apply app_nil_r).
  split; [|cbn [uio_kinit uio_iov]; rewrite Ha; apply take_ge; rewrite length_seqZ; lia].
  unfold block_uio, uio_ok. cbn [uio_kinit uio_iov uio_resid uio_segflg uio_dir uio_offset uio_space].
  rewrite Ha, length_seqZ. split_and!; try done; try lia.
  apply Forall_singleton. unfold iov_ok. cbn [iov_base iov_len]. split_and!; try done; try lia.
  intros k Hk. unfold block_mem. rewrite with_bytes_lookup, decide_True by lia.
  apply lookup_lt_is_Some_2. lia.
Qed.

Lemma readblock_correct s b : fs_ok s → 0 ≤ b < s.(sb_nblocks) →
  ∃ e d s', sfs_readblock s b = Ret (e, d, s') ∧ same_but_io s s' ∧
    (e = 0 → d = s.(sfs_disk) !!! Z.to_nat b ∧ is_block d) ∧ (quiet s → e = 0).
Proof.
  intros Hok Hb. unfold sfs_readblock. destruct (kinit_ok zero_block b UIO_READ eq_refl) as [Hu Ha].
  destruct (rwblock_read sfs_retries None _ _ s b Hok Hu Hb) as (e & m' & u' & s' & -> & Hs' & _ & Hq & Hcase).
  cbn [mbind res_bind]. eexists _, _, _. split_and!; [done..| |done]. intros ->.
  destruct Hcase as [[? _]|(_ & -> & _)]; [done|]. rewrite Ha.
  pose proof (disk_block s b Hok Hb) as Hd. pose proof Hd as [Hl _].
  rewrite (pour_block _ _ Hl), block_mem_gather by done. done.
Qed.

Lemma set_disk_ok s b d : fs_ok s → is_block d → fs_ok (set_disk s (<[b := d]> s.(sfs_disk))).
Proof.
  intros [] Hd. constructor; try done; cbn; [by rewrite length_insert|]. by apply Forall_insert.
Qed.

Lemma writeblock_correct s b d : fs_ok s → 0 ≤ b < s.(sb_nblocks) → is_block d →
  ∃ e s', sfs_writeblock s b d = Ret (e, s') ∧ (quiet s → e = 0) ∧
    (e ≠ 0 ∧ same_but_io s s' ∨
     e = 0 ∧ same_but_io (set_disk s (<[Z.to_nat b := d]> s.(sfs_disk))) s').
Proof.
  intros Hok Hb [Hl _]. unfold sfs_writeblock. destruct (kinit_ok d b UIO_WRITE Hl) as [Hu Ha].
  destruct (rwblock_write sfs_retries None _ _ s b Hok Hu Hb) as (e & m' & u' & s' & -> & _ & _ & _ & _ & _ & Hq & Hcase).
  cbn [mbind res_bind]. rewrite Ha in Hcase. unfold block_mem in Hcase.
  rewrite block_mem_gather in Hcase by done. by eexists _, _.
Qed.

(** ** Block allocation *)

(** The error for want of space is reported when every block is in use. *)
Definition no_space (e : Z) (s : sfs_fs) : Prop := e = ENOSPC ∧ ∀ b, 0 ≤ b < s.(sb_nblocks) → used s b = true.

(** [s'] is [s] with block [b] taken and cleared. *)
Definition taken (s : sfs_fs) (b : Z) (s' : sfs_fs) : Prop :=
  0 < b < s.(sb_nblocks) ∧ used s b = false ∧ s'.(sb_nblocks) = s.(sb_nblocks) ∧
  s'.(sfs_disk) = <[Z.to_nat b := zero_block]> s.(sfs_disk) ∧
  ∀ k, 0 ≤ k → used s' k = if k =? b then true else used s k.

(** [s'] has the blocks of [s], in use or free as in [s]. *)
Definition same_blocks (s s' : sfs_fs) : Prop :=
  s'.(sb_nblocks) = s.(sb_nblocks) ∧ s'.(sfs_disk) = s.(sfs_disk) ∧
  ∀ k, 0 ≤ k → used s' k = used s k.

Lemma same_but_io_blocks s s' : same_but_io s s' → same_blocks s s'.
Proof. intros [-> _]. by split_and!. Qed.

(** Changing one bit of the free map. *)
Lemma freemap_ok s b x fm : fs_ok s → updated s.(sfs_freemap) b x fm →
  (b ≠ 0 ∨ x = true) → (b < s.(sb_nblocks) ∨ x = true) → fs_ok (set_freemap s fm).
Proof.
  intros [] (Hwf & Hn & Hbit) H0 Hnb. constructor; unfold used in *; cbn in *; try done.
  - by rewrite Hn.
  - intros k Hk. rewrite Hn in Hk. rewrite Hbit by lia. destruct (Z.eqb_spec k b); [|auto].
    destruct Hnb; [lia|done].
  - rewrite Hbit by done. destruct (Z.eqb_spec 0 b); [|done]. destruct H0; [lia|done].
Qed.

Lemma balloc_correct s : fs_ok s → ∃ e b s', sfs_balloc s = Ret (e, b, s') ∧ fs_ok s' ∧
  (quiet s → quiet s' ∧ (e ≠ 0 → no_space e s')) ∧
  (e ≠ 0 ∧ same_blocks s s' ∨ e = 0 ∧ taken s b s').
Proof.
  intros Hok. unfold sfs_balloc, bitmap_alloc.
  pose proof (alloc_after_correct s.(sfs_freemap) 0 (fo_map _ Hok) ltac:(lia)) as Hpost.
  destruct (bitmap_alloc_after _ _) as [[e|[b fm]]| | |]; try done; cbn [mbind res_bind].
  { destruct Hpost as [-> Hall]. eexists _, _, s. split_and!; [done..| |left; by split]. intros Hq. split; [done|]. intros _. split; [done|].
    intros b Hb. apply Hall. pose proof (fo_bits _ Hok). lia. }
  destruct Hpost as (Hb & Hfree & _ & Hupd). pose proof Hupd as (Hwf & Hn & Hbit).
  assert (b < s.(sb_nblocks)) as Hbn.
  { destruct (Z.le_gt_cases s.(sb_nblocks) b); [|lia].
    pose proof (fo_end _ Hok b ltac:(lia)) as Hu. unfold used in Hu. congruence. }
  assert (0 < b) as Hb0.
  { destruct (decide (b = 0)) as [->|]; [|lia]. pose proof (fo_super _ Hok) as Hu. unfold used in Hu. congruence. }
  assert (fs_ok (set_freemap s fm)) as Hok1 by (eapply freemap_ok; [done..|by right|by right]).
  cbn [sb_nblocks set_freemap]. destruct (Z.leb_spec s.(sb_nblocks) b); [lia|].
  unfold sfs_clearblock.
  destruct (writeblock_correct (set_freemap s fm) b zero_block Hok1) as (e & s' & -> & Hq & Hw);
    [cbn; lia|apply zero_is_block|].
  cbn [mbind res_bind]. destruct Hw as [[He Hs']|[-> Hs']].
  - destruct (Z.eqb_spec e 0); [done|]. cbn [negb].
    destruct (same_fields _ _ Hs') as (Hnb & Hfm & Hdk). cbn in Hnb, Hfm, Hdk.
    destruct (unmark_correct fm b Hwf) as (fm' & Heq & Hupd'); [lia|]. rewrite Hfm, Heq. cbn [mbind res_bind].
    eexists _, _, _. split; [done|]. split_and!.
    + pose proof (same_ok _ _ Hs' Hok1) as Hok2.
      assert (updated (sfs_freemap s') b false fm') as Hu by (by rewrite Hfm).
      pose proof (freemap_ok s' b false fm' Hok2 Hu ltac:(lia) ltac:(lia)) as []. by constructor.
    + intros Hqs. by pose proof (Hq Hqs).
    + left. split; [done|]. unfold same_blocks, used; cbn. split_and!; [done..|]. intros k Hk.
      destruct Hupd' as (_ & _ & Hb'). rewrite Hb', Hbit by done.
      by destruct (Z.eqb_spec k b) as [->|].
  - cbn [Z.eqb negb]. eexists _, _, s'. split; [done|].
    destruct (same_fields _ _ Hs') as (Hnb & Hfm & Hdk). cbn in Hnb, Hfm, Hdk. split_and!.
    + eapply same_ok; [done|]. by apply set_disk_ok, zero_is_block.
    + intros Hqs. split; [|done]. by apply Hs'.
    + right. split; [done|]. unfold taken, used. rewrite Hfm. by split_and!; try lia.
Qed.

(** ** The block map *)

(** What every step of [sfs_bmap] keeps: what the file reads as, the blocks that
    are mapped, the rest of the inode, and every block in use that is not the
    indirect block of the file. *)
Record keeps (s : sfs_fs) (sv : sfs_vnode) (s' : sfs_fs) (sv' : sfs_vnode) : Prop := Keeps {
  ke_nblocks : s'.(sb_nblocks) = s.(sb_nblocks);
  ke_used : ∀ k, 0 ≤ k → used s k = true → used s' k = true;
  ke_disk : ∀ k, 0 ≤ k → used s k = true → k ≠ sv.(sv_i).(sfi_indirect) →
    s'.(sfs_disk) !!! Z.to_nat k = s.(sfs_disk) !!! Z.to_nat k;
  ke_content : ∀ fb, content s' sv' fb = content s sv fb;
  ke_mapped : ∀ fb b, entries s sv !! fb = Some b → b ≠ 0 → entries s' sv' !! fb = Some b;
  ke_ind : sv'.(sv_i).(sfi_indirect) = sv.(sv_i).(sfi_indirect) ∨
           0 ≤ sv'.(sv_i).(sfi_indirect) ∧ used s sv'.(sv_i).(sfi_indirect) = false;
  ke_inode : sv'.(sv_ino) = sv.(sv_ino) ∧ sv'.(sv_i).(sfi_size) = sv.(sv_i).(sfi_size) ∧
    sv'.(sv_i).(sfi_type) = sv.(sv_i).(sfi_type) ∧ sv'.(sv_i).(sfi_linkcount) = sv.(sv_i).(sfi_linkcount)
}.

Lemma keeps_trans s sv s1 sv1 s2 sv2 : keeps s sv s1 sv1 → keeps s1 sv1 s2 sv2 → keeps s sv s2 sv2.
Proof.
  intros [Hn1 Hu1 Hd1 Hc1 Hm1 Hi1 Hino1] [Hn2 Hu2 Hd2 Hc2 Hm2 Hi2 Hino2]. constructor.
  - congruence.
  - auto.
  - intros k Hk Hu Hne. rewrite <-Hd1 by done. apply Hd2; [done|auto|].
    destruct Hi1 as [->|[_ Hf]]; [done|]. intros ->. congruence.
  - intros fb. by rewrite Hc2.
  - auto.
  - destruct Hi2 as [->|[? Hf]]; [done|]. right. split; [done|].
    destruct (used s (sfi_indirect (sv_i sv2))) eqn:Hu; [|done]. apply Hu1 in Hu; [congruence|done].
  - destruct Hino1 as (? & ? & ? & ?), Hino2 as (? & ? & ? & ?). split_and!; congruence.
Qed.

Lemma entries_slots s sv fb b : entries s sv !! fb = Some b ↔ slots s sv !! S fb = Some b.
Proof. done. Qed.

Lemma indirect_slot s sv : slots s sv !! 0%nat = Some sv.(sv_i).(sfi_indirect).
Proof. done. Qed.

Lemma entries_disk s sv s' : (sv.(sv_i).(sfi_indirect) ≠ 0 →
    s'.(sfs_disk) !!! Z.to_nat sv.(sv_i).(sfi_indirect) = s.(sfs_disk) !!! Z.to_nat sv.(sv_i).(sfi_indirect)) →
  entries s' sv = entries s sv.
Proof.
  intros Hd. unfold entries. destruct (Z.eqb_spec sv.(sv_i).(sfi_indirect) 0); [done|]. by rewrite Hd.
Qed.

(** A state in which the blocks of the file are as before. *)
Lemma keeps_used s sv s' : file_ok s sv → s'.(sb_nblocks) = s.(sb_nblocks) →
  (∀ k, 0 ≤ k → used s k = true → used s' k = true) →
  (∀ k, 0 ≤ k → used s k = true → s'.(sfs_disk) !!! Z.to_nat k = s.(sfs_disk) !!! Z.to_nat k) →
  file_ok s' sv ∧ keeps s sv s' sv ∧ entries s' sv = entries s sv.
Proof.
  intros [Hl Hu Hi] Hn Huse Hd.
  assert (∀ i b, slots s sv !! i = Some b → b ≠ 0 → s'.(sfs_disk) !!! Z.to_nat b = s.(sfs_disk) !!! Z.to_nat b) as Hsame.
  { intros i b Hb Hne. destruct (Hu i b Hb Hne). apply Hd; [lia|done]. }
  assert (entries s' sv = entries s sv) as He.
  { apply entries_disk. intros. by apply (Hsame 0%nat). }
  assert (slots s' sv = slots s sv) as Hs by (unfold slots; by rewrite He).
  split_and!; [|constructor; try done|done].
  - constructor; [done| |by rewrite Hs]. intros i b Hb Hne. rewrite Hs in Hb. rewrite Hn.
    destruct (Hu i b Hb Hne). split; [done|]. apply Huse; [lia|done].
  - auto.
  - intros fb. unfold content. rewrite He. destruct (entries s sv !! fb) as [b|] eqn:Hb; [|done].
    destruct (Z.eqb_spec b 0); [done|]. by eapply (Hsame (S fb)).
  - intros fb b. by rewrite He.
  - by left.
Qed.

Lemma same_blocks_keeps s sv s' : file_ok s sv → same_blocks s s' →
  file_ok s' sv ∧ keeps s sv s' sv ∧ entries s' sv = entries s sv.
Proof.
  intros Hf (Hn & Hd & Hu). apply keeps_used; [done|done| |].
  - intros k Hk. by rewrite Hu.
  - intros. by rewrite Hd.
Qed.

(** A block that is in use and that the file does not refer to. *)
Definition fresh (s : sfs_fs) (sv : sfs_vnode) (b : Z) : Prop :=
  0 < b < s.(sb_nblocks) ∧ used s b = true ∧ b ∉ slots s sv ∧ s.(sfs_disk) !!! Z.to_nat b = zero_block.

Lemma taken_disk s b s' k : taken s b s' → 0 ≤ k → used s k = true →
  s'.(sfs_disk) !!! Z.to_nat k = s.(sfs_disk) !!! Z.to_nat k.
Proof.
  intros (Hb & Hfree & _ & -> & _) Hk Hu. apply list_lookup_total_insert_ne.
  intros Heq. assert (b = k) as -> by lia. congruence.
Qed.

Lemma taken_keeps s sv b s' : fs_ok s → file_ok s sv → taken s b s' →
  file_ok s' sv ∧ keeps s sv s' sv ∧ entries s' sv = entries s sv ∧ fresh s' sv b.
Proof.
  intros Hok Hf Ht. pose proof Ht as (Hb & Hfree & Hn & Hd & Hu).
  destruct (keeps_used s sv s') as (Hf' & Hk & He); [done|done| |..].
  - intros k Hk Huk. rewrite Hu by done. by destruct (k =? b).
  - intros k Hk Huk. by eapply taken_disk.
  - split_and!; [done..|]. unfold fresh. rewrite Hn, Hu, Z.eqb_refl by lia. split_and!; [lia|lia|done| |].
    + unfold slots. rewrite He. intros Hin. apply list_elem_of_lookup in Hin as [i Hi].
      destruct (fi_used _ _ Hf i b Hi ltac:(lia)). congruence.
    + rewrite Hd. apply list_lookup_total_insert_eq. pose proof (fo_len _ Hok). lia.
Qed.

(** The file has taken over no block that was in use by others. *)
Definition foreign (s : sfs_fs) (sv : sfs_vnode) (s' : sfs_fs) (sv' : sfs_vnode) : Prop :=
  ∀ b, 0 ≤ b → used s b = true → b ∉ slots s sv → b ∉ slots s' sv'.

Lemma foreign_same s sv s' sv' : slots s' sv' = slots s sv → foreign s sv s' sv'.
Proof. intros Hs b. by rewrite Hs. Qed.

Lemma foreign_insert s sv s' sv' i b : slots s' sv' = <[i := b]> (slots s sv) → used s b = false →
  foreign s sv s' sv'.
Proof.
  intros Hs Hu k Hk Huk Hnot Hin. rewrite Hs in Hin. apply list_elem_of_lookup in Hin as [j Hj].
  apply list_lookup_insert_Some in Hj as [(_ & <- & _)|(_ & Hj)]; [congruence|].
  destruct Hnot. by eapply list_elem_of_lookup_2.
Qed.

Lemma foreign_trans s sv s1 sv1 s2 sv2 : keeps s sv s1 sv1 → foreign s sv s1 sv1 →
  foreign s1 sv1 s2 sv2 → foreign s sv s2 sv2.
Proof. intros Hk H1 H2 b Hb Hu Hnot. apply H2; [done|by apply (ke_used _ _ _ _ Hk)|by apply H1]. Qed.

(** A fresh block entered for block [fb] of the file. *)
Lemma link_entry s sv s' sv' fb b : file_ok s sv → fresh s sv b →
  entries s sv !! fb = Some 0 → entries s' sv' = <[fb := b]> (entries s sv) →
  sv'.(sv_i).(sfi_indirect) = sv.(sv_i).(sfi_indirect) → length sv'.(sv_i).(sfi_direct) = 15%nat →
  s'.(sb_nblocks) = s.(sb_nblocks) → (∀ k, used s' k = used s k) →
  (∀ k, 0 ≤ k → used s k = true → k ≠ sv.(sv_i).(sfi_indirect) →
    s'.(sfs_disk) !!! Z.to_nat k = s.(sfs_disk) !!! Z.to_nat k) →
  (sv'.(sv_ino) = sv.(sv_ino) ∧ sv'.(sv_i).(sfi_size) = sv.(sv_i).(sfi_size) ∧
    sv'.(sv_i).(sfi_type) = sv.(sv_i).(sfi_type) ∧ sv'.(sv_i).(sfi_linkcount) = sv.(sv_i).(sfi_linkcount)) →
  file_ok s' sv' ∧ keeps s sv s' sv' ∧ entries s' sv' !! fb = Some b ∧
  slots s' sv' = <[S fb := b]> (slots s sv).
Proof.
  intros [Hl Hu Hi] (Hb & Hub & Hnot & Hz) Hfb He Hind Hl' Hn Huse Hd Hino.
  pose proof (lookup_lt_Some _ _ _ Hfb) as Hlt.
  assert (slots s' sv' = <[S fb := b]> (slots s sv)) as Hs by (unfold slots; by rewrite He, Hind).
  assert (∀ i j, (slots s sv) !! i = Some b → i = j) as Hnone.
  { intros i j Hib. destruct Hnot. by eapply list_elem_of_lookup_2. }
  split_and!.
  - constructor; [done| |].
    + intros i x Hx Hne. rewrite Hs in Hx. rewrite Hn, Huse.
      apply list_lookup_insert_Some in Hx as [(_ & <- & _)|(_ & Hx)]; [done|]. by apply (Hu i).
    + intros i j x Hx Hy Hne. rewrite Hs in Hx, Hy.
      apply list_lookup_insert_Some in Hx as [(<- & <- & _)|(_ & Hx)];
        apply list_lookup_insert_Some in Hy as [(<- & Heq & _)|(_ & Hy)]; try done.
      * symmetry. by apply Hnone.
      * subst x. by apply Hnone.
      * by apply (Hi i j x).
  - constructor; try done.
    + intros k Hk. by rewrite Huse.
    + intros k. unfold content. rewrite He.
      destruct (decide (k = fb)) as [->|Hne].
      * rewrite list_lookup_insert_eq, Hfb by done. destruct (Z.eqb_spec b 0); [lia|]. cbn.
        rewrite Hd; [done|lia|done|]. intros ->. destruct Hnot. by eapply (list_elem_of_lookup_2 _ 0%nat).
      * rewrite list_lookup_insert_ne by done. destruct (entries s sv !! k) as [x|] eqn:Hx; [|done].
        destruct (Z.eqb_spec x 0); [done|]. destruct (Hu (S k) x Hx) as [? ?]; [done|].
        apply Hd; [lia|done|]. intros ->. by pose proof (Hi (S k) 0%nat _ Hx eq_refl ltac:(done)).
    + intros k x Hx Hne. rewrite He. rewrite list_lookup_insert_ne; [done|]. intros ->. congruence.
    + by left.
  - rewrite He. by rewrite list_lookup_insert_eq.
  - done.
Qed.

(** A cleared block that becomes the indirect block. *)
Lemma link_indirect s sv s' b : fs_ok s → file_ok s sv → sv.(sv_i).(sfi_indirect) = 0 → taken s b s' →
  let sv' := set_indirect sv b in
  file_ok s' sv' ∧ keeps s sv s' sv' ∧ entries s' sv' = entries s sv ∧
  s'.(sfs_disk) !!! Z.to_nat b = zero_block.
Proof.
  intros Hok Hf H0 Ht sv'. destruct (taken_keeps s sv b s' Hok Hf Ht) as ([Hl Hu Hi] & Hk & He & Hb & Hub & Hnot & Hz).
  destruct Ht as (_ & Hfree & _).
  assert (entries s' sv' = entries s' sv) as He'.
  { unfold entries, sv'. cbn. destruct (Z.eqb_spec b 0); [lia|]. by rewrite Hz, words_zero, H0. }
  assert (∀ i, slots s' sv !! i ≠ Some b) as Hnone.
  { intros i Hib. destruct Hnot. by eapply list_elem_of_lookup_2. }
  split_and!; [| |by rewrite He', He|done].
  - constructor; [done| |]; unfold slots; rewrite He'.
    + intros [|i] x Hx Hne; cbn in Hx; [by injection Hx as <-|]. by apply (Hu (S i)).
    + intros [|i] [|j] x Hx Hy Hne; cbn in Hx, Hy; try done.
      * injection Hx as <-. by destruct (Hnone (S j)).
      * injection Hy as <-. by destruct (Hnone (S i)).
      * by apply (Hi (S i) (S j) x).
  - destruct Hk as [Hn Huse Hd Hc Hm _ Hino]. constructor; try done.
    + intros fb. rewrite <-Hc. unfold content. by rewrite He'.
    + intros fb x Hx Hne. rewrite He'. by apply Hm.
    + right. cbn. split; [lia|done].
Qed.

Lemma hand_back_correct s b : fs_ok s → (b ≠ 0 → 0 < b < s.(sb_nblocks) ∧ used s b = true) →
  hand_back s b = Ret tt.
Proof.
  intros Hok Hb. unfold hand_back. destruct (Z.eqb_spec b 0); [done|].
  destruct (Hb ltac:(done)) as [Hr Hu]. unfold sfs_bused.
  destruct (Z.leb_spec s.(sb_nblocks) b); [lia|].
  pose proof (wf_length _ (fo_map _ Hok)) as [_ ?]. pose proof (fo_bits _ Hok).
  rewrite (isset_correct _ b (fo_map _ Hok)) by lia. cbn [mbind res_bind]. unfold used in Hu. by rewrite Hu.
Qed.

(** What [sfs_bmap] promises. *)
Definition bmapped (s : sfs_fs) (sv : sfs_vnode) (fb : nat) (doalloc : bool)
    (e b : Z) (s' : sfs_fs) (sv' : sfs_vnode) : Prop :=
  fs_ok s' ∧ file_ok s' sv' ∧ keeps s sv s' sv' ∧
  foreign s sv s' sv' ∧
  (doalloc = false → same_but_io s s' ∧ sv' = sv) ∧
  (e = 0 → entries s' sv' !! fb = Some b ∧ (doalloc = true → b ≠ 0)) ∧
  (quiet s → quiet s' ∧ (e ≠ 0 → no_space e s' ∧ doalloc = true ∨ e = EFBIG ∧ (143 ≤ fb)%nat)).

Lemma slots_entries s sv s' : entries s' sv = entries s sv → slots s' sv = slots s sv.
Proof. unfold slots. by intros ->. Qed.

Lemma same_but_io_keeps s sv s' : fs_ok s → file_ok s sv → same_but_io s s' →
  fs_ok s' ∧ file_ok s' sv ∧ keeps s sv s' sv ∧ entries s' sv = entries s sv.
Proof.
  intros Hok Hf Hs. split; [by eapply same_ok|]. by apply same_blocks_keeps, same_but_io_blocks.
Qed.

Lemma same_but_io_refl s : fs_ok s → same_but_io s s.
Proof. intros Hok. split_and!; [by destruct s|apply (fo_io _ Hok)|done]. Qed.

Lemma bmapped_same s sv fb doalloc e b s' : fs_ok s → file_ok s sv → same_but_io s s' →
  (e = 0 → entries s sv !! fb = Some b ∧ (doalloc = true → b ≠ 0)) →
  (e ≠ 0 → e = EFBIG ∧ (143 ≤ fb)%nat) →
  bmapped s sv fb doalloc e b s' sv.
Proof.
  intros Hok Hf Hs He Hne. destruct (same_but_io_keeps s sv s' Hok Hf Hs) as (? & ? & ? & Hent).
  unfold bmapped. split_and!; try done; [by apply foreign_same, slots_entries|by rewrite Hent|].
  intros Hq. split; [by apply Hs|]. intros He0. right. by apply Hne.
Qed.

Lemma entry_used s sv fb b : file_ok s sv → entries s sv !! fb = Some b →
  b ≠ 0 → 0 < b < s.(sb_nblocks) ∧ used s b = true.
Proof. intros Hf Hb. by apply (fi_used _ _ Hf (S fb)). Qed.

Lemma entries_direct s sv fb b : file_ok s sv → (fb < 15)%nat →
  sv.(sv_i).(sfi_direct) !! fb = Some b ↔ entries s sv !! fb = Some b.
Proof.
  intros Hf Hfb. unfold entries. by rewrite lookup_app_l by (rewrite (fi_direct _ _ Hf); lia).
Qed.

Lemma bmap_direct s sv fb doalloc : fs_ok s → file_ok s sv → (fb < 15)%nat →
  ∃ e b s' sv', sfs_bmap s sv (Z.of_nat fb) doalloc = Ret (e, b, s', sv') ∧
    bmapped s sv fb doalloc e b s' sv'.
Proof.
  intros Hok Hf Hfb. unfold sfs_bmap, SFS_NDIRECT.
  destruct (Z.ltb_spec (Z.of_nat fb) 15); [|lia].
  destruct (lookup_lt_is_Some_2 sv.(sv_i).(sfi_direct) fb) as [b Hb]; [rewrite (fi_direct _ _ Hf); lia|].
  rewrite (rd_nat _ _ _ Hb). cbn [mbind res_bind].
  pose proof (proj1 (entries_direct s sv fb b Hf Hfb) Hb) as Hbe.
  destruct ((b =? 0) && doalloc) eqn:Hc.
  - apply andb_true_iff in Hc as [->%Z.eqb_eq ->].
    destruct (balloc_correct s Hok) as (e & b & s1 & -> & Hok1 & Hq & Hcase). cbn [mbind res_bind].
    destruct Hcase as [[He Hs1]|[-> Ht]].
    + destruct (Z.eqb_spec e 0); [done|]. cbn [negb].
      destruct (same_blocks_keeps s sv s1 Hf Hs1) as (Hf1 & Hk1 & He1).
      eexists _, _, _, _. split; [done|]. unfold bmapped.
      split_and!; try done; [by apply foreign_same, slots_entries|].
      intros Hqs. destruct (Hq Hqs) as [? Henospc]. split; [done|]. left. auto.
    + cbn [Z.eqb negb]. destruct (taken_keeps s sv b s1 Hok Hf Ht) as (Hf1 & Hk1 & He & Hfr).
      rewrite wr_nat by (rewrite (fi_direct _ _ Hf); lia). cbn [mbind res_bind].
      rewrite hand_back_correct by (first [done|intros _; destruct Hfr as (? & ? & _); done]).
      cbn [mbind res_bind]. eexists _, _, _, _. split; [done|].
      destruct (link_entry s1 sv s1 (set_direct sv (<[fb := b]> sv.(sv_i).(sfi_direct))) fb b)
        as (Hf2 & Hk2 & Hb2 & Hsl); try done.
      { by rewrite He. }
      { unfold entries; cbn. rewrite insert_app_l by (rewrite (fi_direct _ _ Hf); lia). done. }
      { cbn. rewrite length_insert. apply (fi_direct _ _ Hf). }
      unfold bmapped. split_and!; [done|done|by eapply keeps_trans| |done| |by intros [? _]%Hq].
      { rewrite (slots_entries s sv s1 He) in Hsl. eapply foreign_insert; [done|apply Ht]. }
      intros _. split; [done|]. intros _. destruct Hfr as (? & _). lia.
  - rewrite hand_back_correct by (first [done|by eapply entry_used]). cbn [mbind res_bind].
    eexists _, _, _, _. split; [done|]. apply bmapped_same; [done|done|by apply same_but_io_refl| |done].
    intros _. split; [done|]. intros ->. rewrite andb_true_r in Hc. by apply Z.eqb_neq in Hc.
Qed.

Lemma load_indirect_correct s sv doalloc : fs_ok s → file_ok s sv →
  (sv.(sv_i).(sfi_indirect) = 0 → doalloc = true) →
  ∃ e ib idbuf s' sv', load_indirect s sv = Ret (e, ib, idbuf, s', sv') ∧
    fs_ok s' ∧ file_ok s' sv' ∧ keeps s sv s' sv' ∧ entries s' sv' = entries s sv ∧
    foreign s sv s' sv' ∧ (doalloc = false → same_but_io s s' ∧ sv' = sv) ∧
    (e = 0 → ib = sv'.(sv_i).(sfi_indirect) ∧ ib ≠ 0 ∧ idbuf = words (s'.(sfs_disk) !!! Z.to_nat ib)) ∧
    (quiet s → quiet s' ∧ (e ≠ 0 → no_space e s' ∧ doalloc = true)).
Proof.
  intros Hok Hf Hal. unfold load_indirect. destruct (Z.eqb_spec sv.(sv_i).(sfi_indirect) 0) as [H0|H0].
  - rewrite Hal by done. destruct (balloc_correct s Hok) as (e & b & s1 & -> & Hok1 & Hq & Hcase).
    cbn [mbind res_bind]. destruct Hcase as [[He Hs1]|[-> Ht]].
    + destruct (Z.eqb_spec e 0); [done|]. cbn [negb].
      destruct (same_blocks_keeps s sv s1 Hf Hs1) as (Hf1 & Hk1 & He1).
      eexists _, _, _, _, _. split_and!; try done; [by apply foreign_same, slots_entries|].
      intros Hqs. destruct (Hq Hqs) as [? Henospc]. auto.
    + cbn [Z.eqb negb]. destruct (link_indirect s sv s1 b Hok Hf H0 Ht) as (Hf1 & Hk1 & He & Hz).
      eexists _, _, _, _, _. split_and!; try done.
      { eapply (foreign_insert _ _ _ _ 0 b); [|apply Ht]. unfold slots. by rewrite He. }
      2: by intros [? _]%Hq. intros _. split_and!; [done| |].
      * destruct Ht as (? & _). lia.
      * by rewrite Hz, words_zero.
  - destruct (fi_used _ _ Hf 0%nat _ eq_refl H0) as [Hr _].
    destruct (readblock_correct s sv.(sv_i).(sfi_indirect) Hok ltac:(lia)) as (e & d & s1 & -> & Hs1 & Hd & Hq).
    cbn [mbind res_bind]. destruct (same_but_io_keeps s sv s1 Hok Hf Hs1) as (Hok1 & Hf1 & Hk1 & He1).
    eexists _, _, _, _, _. split_and!; try done; [by apply foreign_same, slots_entries| |].
    2: { intros Hqs. split; [by apply Hs1|]. by rewrite (Hq Hqs). }
    intros He. destruct (Hd He) as [-> _].
    split_and!; [done..|]. by destruct (same_fields _ _ Hs1) as (_ & _ & ->).
Qed.

Lemma entries_indirect s sv off : file_ok s sv → sv.(sv_i).(sfi_indirect) ≠ 0 →
  entries s sv !! (15 + off)%nat = words (s.(sfs_disk) !!! Z.to_nat sv.(sv_i).(sfi_indirect)) !! off.
Proof.
  intros Hf Hne. unfold entries. destruct (Z.eqb_spec sv.(sv_i).(sfi_indirect) 0); [done|].
  rewrite lookup_app_r by (rewrite (fi_direct _ _ Hf); lia). rewrite (fi_direct _ _ Hf). f_equal. lia.
Qed.

(** Writing the indirect block back with a fresh block in it. *)
Lemma link_write s sv ib off b s1 : fs_ok s → file_ok s sv → fresh s sv b →
  ib = sv.(sv_i).(sfi_indirect) → ib ≠ 0 → entries s sv !! (15 + off)%nat = Some 0 →
  let ws := <[off := b]> (words (s.(sfs_disk) !!! Z.to_nat ib)) in
  same_but_io (set_disk s (<[Z.to_nat ib := unwords ws]> s.(sfs_disk))) s1 →
  fs_ok s1 ∧ file_ok s1 sv ∧ keeps s sv s1 sv ∧ entries s1 sv !! (15 + off)%nat = Some b ∧
  slots s1 sv = <[S (15 + off) := b]> (slots s sv).
Proof.
  intros Hok Hf Hfr Hib Hne H0 ws Hs1. pose proof Hf as [Hl Hu Hi].
  destruct (Hu 0%nat ib) as [Hibr _]; [by rewrite Hib|done|].
  pose proof (disk_block s ib Hok ltac:(lia)) as [Hbl Hbr].
  assert (Forall (λ w, 0 ≤ w < 2 ^ 32) ws) as Hws.
  { apply Forall_insert; [by apply words_range|]. destruct Hfr as (? & _). pose proof (fo_pos _ Hok). lia. }
  assert (length ws = 128%nat) as Hwl by (unfold ws; rewrite length_insert; by apply words_length).
  destruct (same_fields _ _ Hs1) as (Hn & Hfm & Hd). cbn in Hn, Hfm, Hd.
  split; [eapply same_ok; [done|]; apply set_disk_ok; [done|by apply unwords_block]|].
  assert (s1.(sfs_disk) !!! Z.to_nat ib = unwords ws) as Hdi.
  { rewrite Hd. apply list_lookup_total_insert_eq. pose proof (fo_len _ Hok). lia. }
  apply (link_entry s sv s1 sv (15 + off) b); try done.
  - unfold entries. rewrite <-Hib. destruct (Z.eqb_spec ib 0); [done|].
    rewrite Hdi, words_unwords by done. rewrite insert_app_r_alt by (rewrite Hl; lia). rewrite Hl.
    do 2 f_equal. unfold ws. f_equal. lia.
  - intros k. unfold used. by rewrite Hfm.
  - intros k Hk Huk Hkne. rewrite Hd. apply list_lookup_total_insert_ne. lia.
Qed.

(** The end of [sfs_bmap] for a block of the indirect range. *)
Lemma bmap_indirect_entry s sv off doalloc : fs_ok s → file_ok s sv →
  sv.(sv_i).(sfi_indirect) ≠ 0 → (off < 128)%nat →
  let ib := sv.(sv_i).(sfi_indirect) in
  let idbuf := words (s.(sfs_disk) !!! Z.to_nat ib) in
  ∃ e b s' sv',
    (block ← idbuf.[Z.of_nat off];
     if (block =? 0) && doalloc then
       '(result, block, s) ← sfs_balloc s;
       if negb (result =? 0) then Ret (result, 0, s, sv) else
       idbuf ← idbuf.[Z.of_nat off <- block];
       '(result, s) ← sfs_writeblock s ib (unwords idbuf);
       if negb (result =? 0) then Ret (result, 0, s, sv) else
       _ ← hand_back s block;
       Ret (0, block, s, sv)
     else
       _ ← hand_back s block;
       Ret (0, block, s, sv)) = Ret (e, b, s', sv') ∧
    bmapped s sv (15 + off) doalloc e b s' sv'.
Proof.
  intros Hok Hf Hne Hoff ib idbuf.
  destruct (fi_used _ _ Hf 0%nat ib eq_refl Hne) as [Hr Hib].
  pose proof (disk_block s ib Hok ltac:(lia)) as [Hbl Hbr].
  assert (length idbuf = 128%nat) as Hidl by (by apply words_length).
  destruct (lookup_lt_is_Some_2 idbuf off) as [b Hb]; [lia|].
  pose proof Hb as Hbe. unfold idbuf, ib in Hbe. rewrite <-entries_indirect in Hbe by done.
  rewrite (rd_nat _ _ _ Hb). cbn [mbind res_bind]. destruct ((b =? 0) && doalloc) eqn:Hc.
  - apply andb_true_iff in Hc as [->%Z.eqb_eq ->].
    destruct (balloc_correct s Hok) as (e & b & s1 & -> & Hok1 & Hq & Hcase). cbn [mbind res_bind].
    destruct Hcase as [[He Hs1]|[-> Ht]].
    + destruct (Z.eqb_spec e 0); [done|]. cbn [negb].
      destruct (same_blocks_keeps s sv s1 Hf Hs1) as (Hf1 & Hk1 & He1).
      eexists _, _, _, _. split; [done|]. unfold bmapped.
      split_and!; try done; [by apply foreign_same, slots_entries|].
      intros Hqs. destruct (Hq Hqs) as [? Henospc]. split; [done|]. left. auto.
    + cbn [Z.eqb negb]. destruct (taken_keeps s sv b s1 Hok Hf Ht) as (Hf1 & Hk1 & He1 & Hfr).
      rewrite wr_nat by lia. cbn [mbind res_bind].
      destruct (writeblock_correct s1 ib (unwords (<[off := b]> idbuf)) Hok1) as (e & s2 & -> & Hqw & Hw).
      { rewrite (ke_nblocks _ _ _ _ Hk1). lia. }
      { apply unwords_block; [by rewrite length_insert|]. apply Forall_insert; [by apply words_range|].
        destruct Ht as (? & _). pose proof (fo_pos _ Hok). lia. }
      cbn [mbind res_bind]. destruct Hw as [[He Hs2]|[-> Hs2]].
      * destruct (Z.eqb_spec e 0); [done|]. cbn [negb].
        destruct (same_but_io_keeps s1 sv s2 Hok1 Hf1 Hs2) as (Hok2 & Hf2 & Hk2 & He2).
        eexists _, _, _, _. split; [done|]. unfold bmapped. split_and!; try done; [by eapply keeps_trans| |].
        { by apply foreign_same, slots_entries; rewrite He2. }
        intros [Hqs _]%Hq. by pose proof (Hqw Hqs).
      * cbn [Z.eqb negb].
        assert (idbuf = words (s1.(sfs_disk) !!! Z.to_nat ib)) as Hid.
        { unfold idbuf. by rewrite (taken_disk s b s1 ib Ht ltac:(lia) Hib). }
        rewrite Hid in Hs2.
        destruct (link_write s1 sv ib off b s2) as (Hok2 & Hf2 & Hk2 & He2 & Hsl); try done; [by rewrite He1|].
        rewrite hand_back_correct by (first [done|by eapply entry_used]). cbn [mbind res_bind].
        eexists _, _, _, _. split; [done|]. unfold bmapped. split_and!; try done; [by eapply keeps_trans| | |].
        3: { intros [Hqs _]%Hq. split; [by apply Hs2|done]. }
        { rewrite (slots_entries s sv s1 He1) in Hsl. eapply foreign_insert; [done|apply Ht]. }
        intros _. split; [done|]. intros _. destruct Ht as (? & _). lia.
  - rewrite hand_back_correct by (first [done|by eapply entry_used]). cbn [mbind res_bind].
    eexists _, _, _, _. split; [done|]. apply bmapped_same; [done|done|by apply same_but_io_refl| |done].
    intros _. split; [done|]. intros ->. rewrite andb_true_r in Hc. by apply Z.eqb_neq in Hc.
Qed.

Lemma bmap_correct s sv fb doalloc : fs_ok s → file_ok s sv →
  ∃ e b s' sv', sfs_bmap s sv (Z.of_nat fb) doalloc = Ret (e, b, s', sv') ∧
    bmapped s sv fb doalloc e b s' sv' ∧ ((143 ≤ fb)%nat → e = EFBIG).
Proof.
  intros Hok Hf. destruct (decide (fb < 15)%nat) as [Hd|Hd].
  { destruct (bmap_direct s sv fb doalloc Hok Hf Hd) as (e & b & s' & sv' & ? & ?).
    exists e, b, s', sv'. split_and!; [done..|lia]. }
  unfold sfs_bmap, SFS_NDIRECT, SFS_DBPERIDB, SFS_NINDIRECT.
  destruct (Z.ltb_spec (Z.of_nat fb) 15); [lia|].
  destruct (Z.leb_spec 1 ((Z.of_nat fb - 15) / 128)) as [Hbig|Hbig].
  { eexists _, _, _, _. split; [done|]. split; [|done].
    apply bmapped_same; [done|done|by apply same_but_io_refl|done|]. intros _. split; [done|]. revert Hbig. zdiv_lia. }
  assert (∃ off, (off < 128)%nat ∧ fb = (15 + off)%nat) as (off & Hoff & ->).
  { exists (fb - 15)%nat. split; [|lia]. revert Hbig. zdiv_lia. }
  replace (Z.of_nat (15 + off) - 15) with (Z.of_nat off) by lia.
  rewrite Z.mod_small by lia. set (ib := sv.(sv_i).(sfi_indirect)).
  destruct ((ib =? 0) && negb doalloc) eqn:Hc.
  { apply andb_true_iff in Hc as [Hib%Z.eqb_eq Hda]. apply negb_true_iff in Hda as ->.
    eexists _, _, _, _. split; [done|]. split; [|lia].
    apply bmapped_same; [done|done|by apply same_but_io_refl| |done]. intros _. split; [|done].
    unfold entries. fold ib. rewrite Hib. cbn [Z.eqb].
    rewrite lookup_app_r by (rewrite (fi_direct _ _ Hf); lia). rewrite (fi_direct _ _ Hf).
    by rewrite lookup_replicate_2 by lia. }
  destruct (load_indirect_correct s sv doalloc Hok Hf) as (e & ib' & idbuf & s1 & sv1 & -> & Hok1 & Hf1 & Hk1 & He1 & Hfo1 & Hsame & He & Hq).
  { fold ib. intros ->. by destruct doalloc. }
  cbn [mbind res_bind]. destruct (Z.eqb_spec e 0) as [->|Hne]; cbn [negb].
  - destruct (He eq_refl) as (-> & Hib0 & ->).
    destruct (bmap_indirect_entry s1 sv1 off doalloc Hok1 Hf1 Hib0 Hoff) as (e & b & s2 & sv2 & -> & Hb).
    eexists _, _, _, _. split; [done|]. split; [|lia].
    destruct Hb as (? & ? & ? & Hfo2 & Hs2 & ? & Hq2). unfold bmapped.
    split_and!; try done; [by eapply keeps_trans|by eapply foreign_trans| |].
    + intros Hda. destruct (Hsame Hda) as [Hs1 ->], (Hs2 Hda) as [Hs2' ->].
      split; [by eapply same_but_io_trans|done].
    + intros [Hqs _]%Hq. by apply Hq2.
  - eexists _, _, _, _. split; [done|]. split; [|lia]. unfold bmapped. split_and!; try done.
    intros Hqs. destruct (Hq Hqs) as [? Hen]. split; [done|]. intros _. left. auto.
Qed.

(** ** Truncation *)

(** [s'] is [s] with the blocks [ks] free. *)
Definition freed (s : sfs_fs) (ks : list Z) (s' : sfs_fs) : Prop :=
  fs_ok s' ∧ s'.(sb_nblocks) = s.(sb_nblocks) ∧ s'.(sfs_disk) = s.(sfs_disk) ∧
  ∀ k, 0 ≤ k → used s' k = used s k && negb (bool_decide (k ∈ ks)).

Lemma freed_nil s : fs_ok s → freed s [] s.
Proof.
  intros Hok. split_and!; [done..|]. intros k Hk. rewrite bool_decide_eq_false_2 by set_solver.
  by rewrite andb_true_r.
Qed.

Lemma bool_decide_app (k : Z) ks1 ks2 :
  bool_decide (k ∈ ks1 ++ ks2) = bool_decide (k ∈ ks1) || bool_decide (k ∈ ks2).
Proof. apply eq_bool_prop_intro. by rewrite orb_True, !bool_decide_spec, elem_of_app. Qed.

Lemma freed_app s ks1 s1 ks2 s2 : freed s ks1 s1 → freed s1 ks2 s2 → freed s (ks1 ++ ks2) s2.
Proof.
  intros (_ & Hn1 & Hd1 & Hu1) (Hok2 & Hn2 & Hd2 & Hu2). split_and!; [done|congruence..|].
  intros k Hk. by rewrite Hu2, Hu1, bool_decide_app, negb_orb, andb_assoc by done.
Qed.

Lemma bfree_correct s b : fs_ok s → 0 < b < s.(sb_nblocks) → ∃ s', sfs_bfree s b = Ret s' ∧ freed s [b] s'.
Proof.
  intros Hok Hb. unfold sfs_bfree. pose proof (fo_bits _ Hok).
  destruct (unmark_correct s.(sfs_freemap) b (fo_map _ Hok)) as (fm & -> & Hu); [lia|].
  cbn [mbind res_bind]. eexists. split; [done|]. unfold freed. split_and!; [|done|done|].
  - eapply freemap_ok; [done..|lia|lia].
  - intros k Hk. unfold used. cbn. destruct Hu as (_ & _ & ->); [|done].
    destruct (Z.eqb_spec k b) as [->|]; [rewrite bool_decide_eq_true_2 by set_solver; by rewrite andb_false_r|].
    rewrite bool_decide_eq_false_2 by set_solver. by rewrite andb_true_r.
Qed.

(** The two loops go through a list of blocks [l] and clear the entries from [i]
    on that satisfy [drop]; [ks] are the blocks of these entries. *)
Record cleared (drop : nat → bool) (i : nat) (l l' : list Z) (ks : list Z) : Prop := Cleared {
  cl_length : length l' = length l;
  cl_entry : ∀ j b, l !! j = Some b → l' !! j = Some (if (i <=? j)%nat && drop j then 0 else b);
  cl_blocks : ∀ k, k ∈ ks ↔ k ≠ 0 ∧ ∃ j, (i ≤ j)%nat ∧ drop j = true ∧ l !! j = Some k
}.

Lemma cleared_end drop l : cleared drop (length l) l l [].
Proof.
  constructor; [done| |].
  - intros j b Hj. pose proof (lookup_lt_Some _ _ _ Hj).
    destruct (Nat.leb_spec (length l) j); [lia|done].
  - intros k. split; [set_solver|]. intros (_ & j & Hj & _ & Hk). apply lookup_lt_Some in Hk. lia.
Qed.

Lemma cleared_keep drop i l l' ks b : cleared drop (S i) l l' ks → l !! i = Some b →
  drop i = false ∨ b = 0 → cleared drop i l l' ks.
Proof.
  intros [Hl He Hb] Hi Hc. constructor; [done| |].
  - intros j x Hj. rewrite (He j x Hj). f_equal.
    destruct (Nat.leb_spec i j), (Nat.leb_spec (S i) j); try done; try lia.
    assert (j = i) as -> by lia. simplify_eq. cbn [andb]. destruct Hc as [-> | ->]; [done|]. by destruct (drop i).
  - intros k. rewrite Hb. split; intros (Hk & j & Hj & Hd & Hjk); (split; [done|]); exists j;
      (split_and!; [|done..]); [lia|].
    destruct (decide (j = i)) as [->|]; [|lia]. simplify_eq. destruct Hc; congruence.
Qed.

Lemma cleared_drop drop i l l' ks b : cleared drop (S i) (<[i := 0]> l) l' ks → l !! i = Some b →
  drop i = true → b ≠ 0 → cleared drop i l l' (b :: ks).
Proof.
  intros [Hl He Hb] Hi Hc Hne. pose proof (lookup_lt_Some _ _ _ Hi). rewrite length_insert in Hl.
  constructor; [done| |].
  - intros j x Hj. destruct (decide (j = i)) as [->|].
    + rewrite (He i 0) by (by apply list_lookup_insert_eq). rewrite Nat.leb_refl, Hc. by destruct (S i <=? i)%nat.
    + rewrite (He j x) by (by rewrite list_lookup_insert_ne). f_equal.
      destruct (Nat.leb_spec i j), (Nat.leb_spec (S i) j); try done; lia.
  - intros k. rewrite elem_of_cons, Hb. split.
    + intros [->|(Hk & j & Hj & Hd & Hjk)]; [split; [done|]; by exists i|]. split; [done|].
      rewrite list_lookup_insert_ne in Hjk by lia. exists j. split_and!; [lia|done..].
    + intros (Hk & j & Hj & Hd & Hjk). destruct (decide (j = i)) as [->|]; [left; congruence|right].
      split; [done|]. exists j. rewrite list_lookup_insert_ne by done. split_and!; [lia|done..].
Qed.

Lemma trunc_direct_correct n s sv i blocklen : fs_ok s →
  length sv.(sv_i).(sfi_direct) = (i + n)%nat →
  (∀ b, b ∈ sv.(sv_i).(sfi_direct) → b ≠ 0 → 0 < b < s.(sb_nblocks)) →
  ∃ s' sv' ks, trunc_direct n s sv (Z.of_nat i) blocklen = Ret (s', sv') ∧ freed s ks s' ∧
    cleared (λ j, blocklen <=? Z.of_nat j) i sv.(sv_i).(sfi_direct) sv'.(sv_i).(sfi_direct) ks ∧
    sv'.(sv_i).(sfi_indirect) = sv.(sv_i).(sfi_indirect).
Proof.
  revert s sv i. induction n as [|n IH]; intros s sv i Hok Hl Hb; cbn [trunc_direct].
  { exists s, sv, []. split_and!; [done|by apply freed_nil| |done].
    rewrite Nat.add_0_r in Hl. rewrite <-Hl. apply cleared_end. }
  destruct (lookup_lt_is_Some_2 sv.(sv_i).(sfi_direct) i) as [b Hi]; [lia|].
  rewrite (rd_nat _ _ _ Hi). cbn [mbind res_bind].
  replace (Z.of_nat i + 1) with (Z.of_nat (S i)) by lia.
  destruct ((blocklen <=? Z.of_nat i) && negb (b =? 0)) eqn:Hc.
  - apply andb_true_iff in Hc as [Hc Hne%negb_true_iff]. apply Z.eqb_neq in Hne.
    destruct (bfree_correct s b Hok) as (s1 & -> & Hs1); [by apply Hb; [eapply list_elem_of_lookup_2|]|].
    cbn [mbind res_bind]. rewrite wr_nat by lia. cbn [mbind res_bind].
    destruct (IH s1 (set_direct sv (<[i := 0]> sv.(sv_i).(sfi_direct))) (S i)) as (s' & sv' & ks & -> & Hs' & Hcl & Hind).
    { apply Hs1. }
    { cbn. rewrite length_insert. lia. }
    { destruct Hs1 as (_ & -> & _). cbn. intros x Hx Hx0. apply list_elem_of_lookup in Hx as [j Hj].
      apply list_lookup_insert_Some in Hj as [(_ & <- & _)|(_ & Hj)]; [done|].
      apply Hb; [by eapply list_elem_of_lookup_2|done]. }
    exists s', sv', (b :: ks). split_and!; [done|by apply (freed_app s [b] s1 ks s')| |done].
    by eapply cleared_drop.
  - destruct (IH s sv (S i)) as (s' & sv' & ks & -> & Hs' & Hcl & Hind); [done|lia|done|].
    exists s', sv', ks. split_and!; [done|done| |done]. eapply cleared_keep; [done..|].
    apply andb_false_iff in Hc as [Hc|Hc]; [by left|right]. by apply negb_false_iff, Z.eqb_eq in Hc.
Qed.

Lemma nonzero_step' (l : list Z) i x : l !! i = Some x →
  (x = 0 ∧ ∀ j b, (S i ≤ j)%nat → l !! j = Some b → b = 0) ↔ ∀ j b, (i ≤ j)%nat → l !! j = Some b → b = 0.
Proof.
  intros Hx. split.
  - intros [-> H] j b Hj Hb. destruct (decide (j = i)) as [->|]; [congruence|]. apply (H j b); [lia|done].
  - intros H. split; [by apply (H i)|]. intros j b Hj. apply (H j b). lia.
Qed.

Lemma nonzero_step (l : list Z) i (nz : bool) x : l !! i = Some x → x = 0 →
  (nz = false ∧ ∀ j b, (S i ≤ j)%nat → l !! j = Some b → b = 0) ↔
  nz = false ∧ ∀ j b, (i ≤ j)%nat → l !! j = Some b → b = 0.
Proof. intros Hx Hx0. f_equiv. rewrite <-(nonzero_step' l i x Hx). naive_solver. Qed.

Lemma trunc_indirect_correct n s l i blocklen nz dirty : fs_ok s → length l = (i + n)%nat →
  (∀ b, b ∈ l → b ≠ 0 → 0 < b < s.(sb_nblocks)) →
  ∃ s' l' ks nz' dirty', trunc_indirect n s l (Z.of_nat i) blocklen nz dirty = Ret (s', l', nz', dirty') ∧
    freed s ks s' ∧ cleared (λ j, blocklen <? 15 + Z.of_nat j) i l l' ks ∧
    (nz' = false ↔ nz = false ∧ ∀ j b, (i ≤ j)%nat → l' !! j = Some b → b = 0) ∧
    (dirty' = false → dirty = false ∧ l' = l ∧ ks = []).
Proof.
  revert s l i nz dirty. induction n as [|n IH]; intros s l i nz dirty Hok Hl Hb; cbn [trunc_indirect].
  { exists s, l, [], nz, dirty. rewrite Nat.add_0_r in Hl. split_and!; [done|by apply freed_nil| |..|done].
    - rewrite <-Hl. apply cleared_end.
    - split; [|by intros [? _]]. intros ->. split; [done|]. intros j b Hj Hlj. apply lookup_lt_Some in Hlj. lia. }
  destruct (lookup_lt_is_Some_2 l i) as [b Hi]; [lia|].
  rewrite (rd_nat _ _ _ Hi). cbn [mbind res_bind].
  replace (Z.of_nat i + 1) with (Z.of_nat (S i)) by lia.
  destruct ((blocklen <? SFS_NDIRECT + Z.of_nat i) && negb (b =? 0)) eqn:Hc.
  - apply andb_true_iff in Hc as [Hc Hne%negb_true_iff]. apply Z.eqb_neq in Hne.
    destruct (bfree_correct s b Hok) as (s1 & -> & Hs1); [by apply Hb; [eapply list_elem_of_lookup_2|]|].
    cbn [mbind res_bind]. rewrite wr_nat by lia. cbn [mbind res_bind].
    rewrite (rd_nat (<[i:=0]> l) i 0) by (apply list_lookup_insert_eq; lia). cbn [mbind res_bind Z.eqb negb].
    destruct (IH s1 (<[i := 0]> l) (S i) (nz || false) true) as (s' & l' & ks & nz' & d' & -> & Hs' & Hcl & Hnz & Hd).
    { apply Hs1. }
    { rewrite length_insert. lia. }
    { destruct Hs1 as (_ & -> & _). intros x Hx Hx0. apply list_elem_of_lookup in Hx as [j Hj].
      apply list_lookup_insert_Some in Hj as [(_ & <- & _)|(_ & Hj)]; [done|].
      apply Hb; [by eapply list_elem_of_lookup_2|done]. }
    exists s', l', (b :: ks), nz', d'.
    split_and!; [done|by apply (freed_app s [b] s1 ks s')|by eapply cleared_drop| |].
    + rewrite Hnz, orb_false_r. apply nonzero_step with (x := 0); [|done].
      rewrite (cl_entry _ _ _ _ _ Hcl i 0) by (apply list_lookup_insert_eq; lia).
      by destruct (S i <=? i)%nat, (blocklen <? 15 + Z.of_nat i).
    + intros Hd'. by destruct (Hd Hd') as [? _].
  - cbn [mbind res_bind]. rewrite (rd_nat _ _ _ Hi). cbn [mbind res_bind].
    destruct (IH s l (S i) (nz || negb (b =? 0)) dirty) as (s' & l' & ks & nz' & d' & -> & Hs' & Hcl & Hnz & Hd);
      [done|lia|done|].
    exists s', l', ks, nz', d'. split_and!; [done|done| | |done].
    + eapply cleared_keep; [done..|].
      apply andb_false_iff in Hc as [Hc|Hc]; [by left|right]. by apply negb_false_iff, Z.eqb_eq in Hc.
    + rewrite Hnz. rewrite orb_false_iff, negb_false_iff, Z.eqb_eq.
      rewrite <-(nonzero_step' l' i b); [tauto|].
      rewrite (cl_entry _ _ _ _ _ Hcl i b Hi). destruct (Nat.leb_spec (S i) i); [lia|done].
Qed.

(** Which blocks of the file a truncation to [blocklen] blocks drops. *)
Definition dropped (blocklen : Z) (fb : nat) : bool :=
  if (fb <? 15)%nat then blocklen <=? Z.of_nat fb else blocklen <? Z.of_nat fb.

(** What a truncation that returns 0 has done. *)
Record truncated (s : sfs_fs) (sv : sfs_vnode) (blocklen : Z) (s' : sfs_fs) (sv' : sfs_vnode) : Prop := Truncated {
  tr_entry : ∀ fb b, entries s sv !! fb = Some b →
    entries s' sv' !! fb = Some (if dropped blocklen fb then 0 else b);
  tr_freed : ∀ fb b, entries s sv !! fb = Some b → b ≠ 0 →
    used s' b = negb (dropped blocklen fb);
  tr_others : ∀ k, 0 ≤ k → k ∉ slots s sv → used s' k = used s k;
  tr_disk : ∀ k, 0 ≤ k → k ≠ sv.(sv_i).(sfi_indirect) →
    s'.(sfs_disk) !!! Z.to_nat k = s.(sfs_disk) !!! Z.to_nat k;
  tr_ok : fs_ok s' ∧ file_ok s' sv'
}.

(** The entries of the indirect block. *)
Definition ind_entries (s : sfs_fs) (sv : sfs_vnode) : list Z :=
  if sv.(sv_i).(sfi_indirect) =? 0 then replicate 128 0
  else words (s.(sfs_disk) !!! Z.to_nat sv.(sv_i).(sfi_indirect)).

Lemma cleared_entries blocklen l l' w w' ks1 ks2 : length l = 15%nat →
  cleared (λ j, blocklen <=? Z.of_nat j) 0 l l' ks1 →
  cleared (λ j, blocklen <? 15 + Z.of_nat j) 0 w w' ks2 →
  (∀ fb b, (l ++ w) !! fb = Some b →
     (l' ++ w') !! fb = Some (if dropped blocklen fb then 0 else b)) ∧
  length (l' ++ w') = length (l ++ w) ∧
  ∀ k, k ∈ ks1 ++ ks2 ↔ k ≠ 0 ∧ ∃ fb, dropped blocklen fb = true ∧ (l ++ w) !! fb = Some k.
Proof.
  intros Hl [Hl1 He1 Hk1] [Hl2 He2 Hk2]. unfold dropped. split_and!.
  - intros fb b Hb. destruct (Nat.ltb_spec fb 15).
    + rewrite lookup_app_l in * by lia. by apply He1.
    + rewrite lookup_app_r in * by lia. rewrite Hl1, Hl in *. rewrite (He2 _ _ Hb). cbn [Nat.leb andb].
      by replace (15 + Z.of_nat (fb - 15)) with (Z.of_nat fb) by lia.
  - rewrite !length_app. lia.
  - intros k. rewrite elem_of_app, Hk1, Hk2. split.
    + intros [(Hk & j & _ & Hd & Hj)|(Hk & j & _ & Hd & Hj)]; (split; [done|]).
      * pose proof (lookup_lt_Some _ _ _ Hj). exists j. rewrite lookup_app_l by lia.
        by destruct (Nat.ltb_spec j 15); [|lia].
      * exists (15 + j)%nat. rewrite lookup_app_r, Hl by lia. replace (15 + j - 15)%nat with j by lia.
        destruct (Nat.ltb_spec (15 + j) 15); [lia|]. split; [|done]. rewrite <-Hd. f_equal. lia.
    + intros (Hk & fb & Hd & Hb). destruct (Nat.ltb_spec fb 15).
      * left. split; [done|]. exists fb. rewrite lookup_app_l in Hb by lia. split_and!; [lia|done|done].
      * right. split; [done|]. exists (fb - 15)%nat. rewrite lookup_app_r, Hl in Hb by lia.
        split_and!; [lia| |done]. rewrite <-Hd. f_equal. lia.
Qed.

Lemma truncate_ok s sv s' sv' blocklen w' ks1 ks2 ksi : fs_ok s' → file_ok s sv →
  s'.(sb_nblocks) = s.(sb_nblocks) →
  cleared (λ j, blocklen <=? Z.of_nat j) 0 sv.(sv_i).(sfi_direct) sv'.(sv_i).(sfi_direct) ks1 →
  cleared (λ j, blocklen <? 15 + Z.of_nat j) 0 (ind_entries s sv) w' ks2 →
  entries s' sv' = sv'.(sv_i).(sfi_direct) ++ w' →
  (sv'.(sv_i).(sfi_indirect) = sv.(sv_i).(sfi_indirect) ∧ ksi = [] ∨
   sv'.(sv_i).(sfi_indirect) = 0 ∧ ksi = [sv.(sv_i).(sfi_indirect)] ∧ sv.(sv_i).(sfi_indirect) ≠ 0) →
  (∀ k, 0 ≤ k → used s' k = used s k && negb (bool_decide (k ∈ ks1 ++ ks2 ++ ksi))) →
  (∀ k, 0 ≤ k → k ≠ sv.(sv_i).(sfi_indirect) →
    s'.(sfs_disk) !!! Z.to_nat k = s.(sfs_disk) !!! Z.to_nat k) →
  truncated s sv blocklen s' sv'.
Proof.
  intros Hok [Hl Hu Hi] Hn Hc1 Hc2 He' Hind Huse Hd.
  destruct (cleared_entries _ _ _ _ _ _ _ Hl Hc1 Hc2) as (Hent & Hlen & Hks).
  change (sv.(sv_i).(sfi_direct) ++ ind_entries s sv) with (entries s sv) in *. rewrite <-He' in *.
  assert (∀ fb b, entries s sv !! fb = Some b → b ≠ 0 → b ∉ ksi) as Hksi.
  { intros fb b Hb Hne. destruct Hind as [[_ ->]|(_ & -> & _)]; [set_solver|].
    intros ->%list_elem_of_singleton. by pose proof (Hi (S fb) 0%nat _ Hb eq_refl Hne). }
  assert (∀ fb b, entries s sv !! fb = Some b → b ≠ 0 → used s' b = negb (dropped blocklen fb)) as Hfreed.
  { intros fb b Hb Hne. destruct (Hu (S fb) b Hb Hne) as [Hr Hub]. rewrite Huse, Hub by lia. cbn [andb]. f_equal.
    destruct (dropped blocklen fb) eqn:Hdr; [apply bool_decide_eq_true_2|apply bool_decide_eq_false_2];
      rewrite app_assoc, elem_of_app, Hks.
    - left. split; [done|]. by exists fb.
    - intros [(_ & fb' & Hdr' & Hb')|Hk]; [|by eapply Hksi].
      pose proof (Hi (S fb) (S fb') b Hb Hb' Hne) as [= <-]. congruence. }
  assert (∀ fb b, entries s' sv' !! fb = Some b → b ≠ 0 →
    entries s sv !! fb = Some b ∧ dropped blocklen fb = false) as Hback.
  { intros fb b Hb Hne. pose proof (lookup_lt_Some _ _ _ Hb) as Hlt. rewrite Hlen in Hlt.
    destruct (lookup_lt_is_Some_2 (entries s sv) fb Hlt) as [b0 Hb0]. rewrite (Hent fb b0 Hb0) in Hb.
    destruct (dropped blocklen fb); [congruence|]. by simplify_eq. }
  constructor; try done.
  - intros k Hk Hnot. rewrite Huse by done. rewrite bool_decide_eq_false_2; [by rewrite andb_true_r|].
    rewrite app_assoc, elem_of_app, Hks. intros [(_ & fb & _ & Hfb)|Hin].
    + destruct Hnot. by eapply (list_elem_of_lookup_2 _ (S fb)).
    + destruct Hind as [[_ ->]|(_ & -> & _)]; [set_solver|]. apply list_elem_of_singleton in Hin as ->.
      destruct Hnot. by eapply (list_elem_of_lookup_2 _ 0%nat).
  - split; [done|]. constructor.
    + by rewrite (cl_length _ _ _ _ _ Hc1).
    + intros [|fb] b Hb Hne; rewrite Hn.
      * cbn in Hb. injection Hb as <-. destruct Hind as [[Heq ->]|[? _]]; [|done]. rewrite Heq in *.
        destruct (Hu 0%nat _ eq_refl Hne) as [Hr Hub]. split; [done|]. rewrite Huse, Hub by lia.
        rewrite bool_decide_eq_false_2; [done|]. rewrite app_nil_r, Hks. intros (_ & fb & _ & Hfb).
        by pose proof (Hi (S fb) 0%nat _ Hfb eq_refl Hne).
      * destruct (Hback fb b Hb Hne) as [Hb0 Hdr]. split; [by apply (Hu (S fb))|].
        by rewrite (Hfreed fb b Hb0 Hne), Hdr.
    + assert (∀ i b, slots s' sv' !! i = Some b → b ≠ 0 → slots s sv !! i = Some b) as Hsl.
      { intros [|fb] b Hb Hne; [|by apply Hback]. cbn in *. destruct Hind as [[<- _]|[Hz _]]; [done|].
        rewrite Hz in Hb. simplify_eq. }
      intros i j b Hbi Hbj Hne. eapply Hi; [by apply Hsl|by apply Hsl|done].
Qed.

Lemma ind_entries_length s sv : fs_ok s → file_ok s sv → length (ind_entries s sv) = 128%nat.
Proof.
  intros Hok Hf. unfold ind_entries. destruct (Z.eqb_spec sv.(sv_i).(sfi_indirect) 0) as [H0|H0].
  - by rewrite length_replicate.
  - destruct (fi_used _ _ Hf 0%nat _ eq_refl H0). apply words_length.
    by destruct (disk_block s sv.(sv_i).(sfi_indirect) Hok ltac:(lia)).
Qed.

(** When the blocks of the indirect range are out of reach, nothing is dropped there. *)
Lemma cleared_high blocklen w : length w = 128%nat → 142 ≤ blocklen ∨ w = replicate 128 0 →
  cleared (λ j, blocklen <? 15 + Z.of_nat j) 0 w w [].
Proof.
  intros Hl Hc. constructor; [done| |].
  - intros j b Hj. pose proof (lookup_lt_Some _ _ _ Hj). rewrite Hj. f_equal. cbn [Nat.leb andb].
    destruct (Z.ltb_spec blocklen (15 + Z.of_nat j)); [|done]. destruct Hc as [|Hc]; [lia|].
    rewrite Hc in Hj. by apply lookup_replicate in Hj as [-> _].
  - intros k. split; [set_solver|]. intros (Hk & j & _ & Hd%Z.ltb_lt & Hj).
    pose proof (lookup_lt_Some _ _ _ Hj). destruct Hc as [|Hc]; [lia|].
    rewrite Hc in Hj. by apply lookup_replicate in Hj as [-> _].
Qed.


(** What the second half of a truncation has done when it returns 0. *)
Definition ind_truncated (s : sfs_fs) (sv : sfs_vnode) (blocklen : Z) (s' : sfs_fs) (sv' : sfs_vnode) : Prop :=
  ∃ ks ksi, cleared (λ j, blocklen <? 15 + Z.of_nat j) 0 (ind_entries s sv) (ind_entries s' sv') ks ∧
    sv'.(sv_i).(sfi_direct) = sv.(sv_i).(sfi_direct) ∧ s'.(sb_nblocks) = s.(sb_nblocks) ∧
    (sv'.(sv_i).(sfi_indirect) = sv.(sv_i).(sfi_indirect) ∧ ksi = [] ∨
     sv'.(sv_i).(sfi_indirect) = 0 ∧ ksi = [sv.(sv_i).(sfi_indirect)] ∧ sv.(sv_i).(sfi_indirect) ≠ 0) ∧
    (∀ k, 0 ≤ k → used s' k = used s k && negb (bool_decide (k ∈ ks ++ ksi))) ∧
    ∀ k, 0 ≤ k → k ≠ sv.(sv_i).(sfi_indirect) → s'.(sfs_disk) !!! Z.to_nat k = s.(sfs_disk) !!! Z.to_nat k.

Lemma ind_truncated_none s sv blocklen s' : fs_ok s → length (ind_entries s sv) = 128%nat →
  142 ≤ blocklen ∨ sv.(sv_i).(sfi_indirect) = 0 → same_but_io s s' → ind_truncated s sv blocklen s' sv.
Proof.
  intros Hok Hl Hc Hs. destruct (same_fields _ _ Hs) as (Hn & Hfm & Hd).
  exists [], []. split_and!; [|done|done|by left| |by rewrite Hd].
  - replace (ind_entries s' sv) with (ind_entries s sv) by (unfold ind_entries; by rewrite Hd).
    apply cleared_high; [done|]. destruct Hc as [|H0]; [by left|right]. unfold ind_entries. by rewrite H0.
  - intros k Hk. unfold used. rewrite Hfm. rewrite bool_decide_eq_false_2 by set_solver. by rewrite andb_true_r.
Qed.

Lemma cleared_Forall drop i l l' ks P : cleared drop i l l' ks → Forall P l → P 0 → Forall P l'.
Proof.
  intros [Hl He _] HP H0. apply Forall_lookup. intros j x Hj. pose proof (lookup_lt_Some _ _ _ Hj).
  destruct (lookup_lt_is_Some_2 l j) as [b Hb]; [lia|]. rewrite (He j b Hb) in Hj. injection Hj as <-.
  destruct (_ && _); [done|]. by eapply Forall_lookup in HP.
Qed.

Lemma all_zero l : length l = 128%nat → (∀ j b, (0 ≤ j)%nat → l !! j = Some b → b = 0) → l = replicate 128 0.
Proof.
  intros Hl Hz. apply list_eq_same_length with (n := 128%nat); [by rewrite length_replicate|done|].
  intros j x y _ Hx Hy. apply lookup_replicate in Hy as [-> _]. apply (Hz j x); [lia|done].
Qed.

(** [s2] is [s] after the loop over the indirect block. *)
Section after_loop.
Context (s : sfs_fs) (sv : sfs_vnode) (blocklen : Z) (s2 : sfs_fs) (l' ks : list Z).
Context (Hne : sv.(sv_i).(sfi_indirect) ≠ 0) (Hir : 0 < sv.(sv_i).(sfi_indirect) < s.(sb_nblocks)).
Context (Hl : length l' = 128%nat) (Hw : Forall (λ w, 0 ≤ w < 2 ^ 32) l').
Context (Hok : fs_ok s2) (Hn : s2.(sb_nblocks) = s.(sb_nblocks)) (Hd : s2.(sfs_disk) = s.(sfs_disk)).
Context (Hu : ∀ k, 0 ≤ k → used s2 k = used s k && negb (bool_decide (k ∈ ks))).
Context (Hcl : cleared (λ j, blocklen <? 15 + Z.of_nat j) 0 (ind_entries s sv) l' ks).

Lemma ind_truncated_written s3 :
  same_but_io (set_disk s2 (<[Z.to_nat sv.(sv_i).(sfi_indirect) := unwords l']> s2.(sfs_disk))) s3 →
  fs_ok s3 ∧ ind_truncated s sv blocklen s3 sv.
Proof.
  intros Hs3. destruct (same_fields _ _ Hs3) as (Hn3 & Hfm3 & Hdk3). cbn in Hn3, Hfm3, Hdk3.
  split; [eapply same_ok; [done|]; apply set_disk_ok; [done|by apply unwords_block]|].
  exists ks, []. rewrite app_nil_r. split_and!; [|done|congruence|by left| |].
  - replace (ind_entries s3 sv) with l'; [done|]. unfold ind_entries.
    destruct (Z.eqb_spec sv.(sv_i).(sfi_indirect) 0); [done|].
    rewrite Hdk3, list_lookup_total_insert_eq by (pose proof (fo_len _ Hok); lia). by rewrite words_unwords.
  - intros k Hk. rewrite <-Hu by done. unfold used. by rewrite Hfm3.
  - intros k Hk Hkne. rewrite Hdk3, list_lookup_total_insert_ne by lia. by rewrite Hd.
Qed.

Lemma ind_truncated_freed s3 : (∀ j b, (0 ≤ j)%nat → l' !! j = Some b → b = 0) →
  freed s2 [sv.(sv_i).(sfi_indirect)] s3 → ind_truncated s sv blocklen s3 (set_indirect sv 0).
Proof.
  intros Hz (Hok3 & Hn3 & Hdk3 & Hu3).
  exists ks, [sv.(sv_i).(sfi_indirect)]. split_and!; [|done|congruence|by right| |].
  - replace (ind_entries s3 (set_indirect sv 0)) with l'; [done|]. by apply all_zero.
  - intros k Hk. by rewrite Hu3, Hu, bool_decide_app, negb_orb, andb_assoc by done.
  - intros k Hk Hkne. by rewrite Hdk3, Hd.
Qed.
End after_loop.

Lemma trunc_indirect_block_correct s sv blocklen : fs_ok s → length (ind_entries s sv) = 128%nat →
  (sv.(sv_i).(sfi_indirect) ≠ 0 → 0 < sv.(sv_i).(sfi_indirect) < s.(sb_nblocks)) →
  (∀ b, b ∈ ind_entries s sv → b ≠ 0 → 0 < b < s.(sb_nblocks)) →
  ∃ e s' sv', trunc_indirect_block s sv blocklen = Ret (e, s', sv') ∧ fs_ok s' ∧
    (e = 0 → ind_truncated s sv blocklen s' sv').
Proof.
  intros Hok Hl Hir Hbr. unfold trunc_indirect_block, SFS_NDIRECT, SFS_DBPERIDB. change (15 + 128 - 1) with 142.
  destruct ((blocklen <? 142) && negb (sv.(sv_i).(sfi_indirect) =? 0)) eqn:Hc.
  2: { exists 0, s, sv. split_and!; [done..|]. intros _. apply ind_truncated_none; [done|done| |by apply same_but_io_refl].
       apply andb_false_iff in Hc as [Hc%Z.ltb_ge|Hc%negb_false_iff]; [left; lia|right; by apply Z.eqb_eq]. }
  apply andb_true_iff in Hc as [_ Hi0%negb_true_iff]. apply Z.eqb_neq in Hi0. specialize (Hir Hi0).
  assert (ind_entries s sv = words (s.(sfs_disk) !!! Z.to_nat sv.(sv_i).(sfi_indirect))) as Hw
    by (unfold ind_entries; by destruct (Z.eqb_spec sv.(sv_i).(sfi_indirect) 0)).
  destruct (readblock_correct s sv.(sv_i).(sfi_indirect) Hok ltac:(lia)) as (e & d & s1 & -> & Hs1 & Hd & _).
  cbn [mbind res_bind]. pose proof (same_ok _ _ Hs1 Hok) as Hok1.
  destruct (same_fields _ _ Hs1) as (Hn1 & Hfm1 & Hdk1).
  destruct (Z.eqb_spec e 0) as [->|]; cbn [negb]; [|by eexists _, _, _].
  destruct (Hd eq_refl) as [-> [Hbl Hby]]. rewrite <-Hw.
  destruct (trunc_indirect_correct 128 s1 (ind_entries s sv) 0 blocklen false false)
    as (s2 & l' & ks & nz & dirty & Heq & Hs2 & Hcl & Hnz & Hdirty); [done|lia|by rewrite Hn1|].
  change (Z.of_nat 0) with 0 in Heq. rewrite Heq. cbn [mbind res_bind].
  destruct Hs2 as (Hok2 & Hn2 & Hdk2 & Hu2).
  assert (∀ k, 0 ≤ k → used s2 k = used s k && negb (bool_decide (k ∈ ks))) as Hu.
  { intros k Hk. rewrite Hu2 by done. unfold used. by rewrite Hfm1. }
  assert (length l' = 128%nat) as Hl' by (rewrite (cl_length _ _ _ _ _ Hcl); lia).
  assert (Forall (λ w, 0 ≤ w < 2 ^ 32) l') as Hwr.
  { eapply cleared_Forall; [done| |lia]. rewrite Hw. by apply words_range. }
  rewrite Hn1 in Hn2. rewrite Hdk1 in Hdk2.
  destruct nz; cbn [negb]; [destruct dirty|].
  - destruct (writeblock_correct s2 sv.(sv_i).(sfi_indirect) (unwords l') Hok2) as (e & s3 & -> & _ & Hcase);
      [lia|by apply unwords_block|].
    cbn [mbind res_bind]. eexists _, _, _. split; [done|].
    destruct Hcase as [[He Hs3]|[-> Hs3]]; [by split; [eapply same_ok|]|].
    by destruct (ind_truncated_written s sv blocklen s2 l' ks Hi0 Hir Hl' Hwr Hok2 Hn2 Hdk2 Hu Hcl s3 Hs3).
  - destruct (Hdirty eq_refl) as (_ & -> & ->). eexists _, _, _. split_and!; [done..|].
    intros _. exists [], []. split_and!; [|done|congruence|by left|done|intros; by rewrite Hdk2].
    replace (ind_entries s2 sv) with (ind_entries s sv); [done|]. unfold ind_entries. by rewrite Hdk2.
  - destruct (bfree_correct s2 sv.(sv_i).(sfi_indirect) Hok2) as (s3 & -> & Hs3); [lia|].
    cbn [mbind res_bind]. eexists _, _, _. split_and!; [done|apply Hs3|]. intros _.
    eapply ind_truncated_freed; try done. by apply Hnz.
Qed.

Lemma itrunc_correct s sv len : fs_ok s → file_ok s sv → 0 ≤ len < 2 ^ 32 →
  ∃ e s' sv', sfs_itrunc s sv len = Ret (e, s', sv') ∧ fs_ok s' ∧
    (e = 0 → sv'.(sv_i).(sfi_size) = len ∧ truncated s sv ((len + 511) / 512) s' sv').
Proof.
  intros Hok Hf Hlen. unfold sfs_itrunc, SFS_BLOCKSIZE.
  replace (u32 (Z.quot (len + 512 - 1) 512)) with ((len + 511) / 512)
    by (rewrite Z.quot_div_nonneg, u32_id by (lia || zdiv_lia); f_equal; lia).
  set (bl := (len + 511) / 512).
  destruct (trunc_direct_correct 15 s sv 0 bl Hok) as (s1 & sv1 & ks1 & Heq & (Hok1 & Hn1 & Hd1 & Hu1) & Hcl1 & Hind1).
  { by rewrite (fi_direct _ _ Hf). }
  { intros b Hb Hne. apply list_elem_of_lookup in Hb as [j Hj].
    apply (fi_used _ _ Hf (S j)); [|done]. cbn. unfold entries. by apply lookup_app_l_Some. }
  change (Z.of_nat 0) with 0 in Heq. rewrite Heq. cbn [mbind res_bind].
  assert (ind_entries s1 sv1 = ind_entries s sv) as Hie by (unfold ind_entries; by rewrite Hind1, Hd1).
  destruct (trunc_indirect_block_correct s1 sv1 bl Hok1) as (e & s2 & sv2 & -> & Hok2 & Ht).
  { rewrite Hie. by apply ind_entries_length. }
  { rewrite Hind1, Hn1. intros Hne. by apply (fi_used _ _ Hf 0%nat _ eq_refl). }
  { rewrite Hie, Hn1. intros b Hb Hne. apply list_elem_of_lookup in Hb as [j Hj].
    apply (fi_used _ _ Hf (S (15 + j)) b); [|done].
    change (entries s sv !! (15 + j)%nat = Some b). unfold entries.
    rewrite lookup_app_r, (fi_direct _ _ Hf) by (rewrite (fi_direct _ _ Hf); lia).
    replace (15 + j - 15)%nat with j by lia. exact Hj. }
  cbn [mbind res_bind]. destruct (Z.eqb_spec e 0) as [->|]; cbn [negb]; [|by eexists _, _, _].
  eexists _, _, _. split_and!; [done..|]. intros _. split; [cbn; apply u32_id; lia|].
  destruct (Ht eq_refl) as (ks2 & ksi & Hcl2 & Hdir & Hn2 & Hind2 & Hu2 & Hd2).
  apply (truncate_ok s sv s2 (set_size sv2 (u32 len)) bl (ind_entries s2 sv2) ks1 ks2 ksi); try done.
  - congruence.
  - cbn. by rewrite Hdir.
  - by rewrite <-Hie.
  - cbn. by rewrite <-Hind1.
  - intros k Hk. by rewrite Hu2, Hu1, !bool_decide_app, !negb_orb, <-andb_assoc by done.
  - intros k Hk Hne. by rewrite Hd2, Hd1 by congruence.
Qed.

(** ** Properties *)

(** C23: [sfs_bmap] on a consistent file, under any errors of reads and when writes
    do not fail with [EIO], keeps the volume and the file consistent (each block of the
    file on the disk, marked in use and referred to once), does not change what
    any block of the file reads as nor any block of the disk in use by others,
    and keeps the blocks that are mapped; when it returns 0 it hands back the
    block that is now mapped, and never block 0 when it was asked to allocate. *)
Theorem sfs_bmap_consistent s sv fb doalloc : fs_ok s → file_ok s sv →
  ∃ e b s' sv', sfs_bmap s sv (Z.of_nat fb) doalloc = Ret (e, b, s', sv') ∧
    bmapped s sv fb doalloc e b s' sv' ∧ ((143 ≤ fb)%nat → e = EFBIG).
Proof. apply bmap_correct. Qed.

(** A volume of 48 blocks whose last ones are past the end of a disk of 40. *)
Definition small_fs : sfs_fs :=
  Fs 40 (Bitmap 48 [7; 0; 0; 0; 0; 255]) false (replicate 40 zero_block) [] [].

Definition small_file : sfs_vnode := Vnode 1 (Dinode 0 1 1 (replicate 15 0) 0) false.

Lemma small_fs_ok : fs_ok small_fs.
Proof.
  constructor; try (cbn; lia); try done.
  - split_and!; cbn; [lia|lia|done|by repeat constructor|]. intros i Hi. lia.
  - intros b Hb. cbn in Hb. assert (b = 40 ∨ b = 41 ∨ b = 42 ∨ b = 43 ∨ b = 44 ∨ b = 45 ∨ b = 46 ∨ b = 47) as Hc by lia.
    by repeat destruct Hc as [-> |Hc]; [..|rewrite Hc].
  - apply Forall_replicate, zero_is_block.
Qed.

Lemma small_file_ok : file_ok small_fs small_file.
Proof.
  assert (∀ i b, slots small_fs small_file !! i = Some b → b = 0) as Hz.
  { intros i b Hb. assert (slots small_fs small_file = replicate 144 0) as Hs by done.
    rewrite Hs in Hb. by apply lookup_replicate in Hb as [-> _]. }
  constructor; [done| |].
  - intros i b Hb Hne. by apply Hz in Hb.
  - intros i j b Hb _ Hne. by apply Hz in Hb.
Qed.

Lemma sfs_bmap_consistent_witness :
  ∃ e b s' sv', sfs_bmap small_fs small_file 20 true = Ret (e, b, s', sv') ∧
    bmapped small_fs small_file 20 true e b s' sv' ∧ ((143 ≤ 20)%nat → e = EFBIG).
Proof. apply (sfs_bmap_consistent small_fs small_file 20 true small_fs_ok small_file_ok). Defined.

(** [sfs_itrunc] that returns 0 on a consistent file sets the size, drops
    exactly the blocks [dropped] says, frees exactly these (and the indirect
    block when nothing is left in it), and leaves the file consistent and every
    other block in use and unchanged. *)
Theorem sfs_itrunc_frees s sv len : fs_ok s → file_ok s sv → 0 ≤ len < 2 ^ 32 →
  ∃ e s' sv', sfs_itrunc s sv len = Ret (e, s', sv') ∧ fs_ok s' ∧
    (e = 0 → sv'.(sv_i).(sfi_size) = len ∧ truncated s sv ((len + 511) / 512) s' sv').
Proof. apply itrunc_correct. Qed.

Lemma sfs_itrunc_frees_witness :
  ∃ e s' sv', sfs_itrunc small_fs small_file 1000 = Ret (e, s', sv') ∧ fs_ok s' ∧
    (e = 0 → sv'.(sv_i).(sfi_size) = 1000 ∧ truncated small_fs small_file ((1000 + 511) / 512) s' sv').
Proof. apply (sfs_itrunc_frees small_fs small_file 1000 small_fs_ok small_file_ok). lia. Defined.

(** [sfs_itrunc] to a length that ends at a block boundary inside the indirect
    range keeps the first block past the end: the loop over the indirect block
    compares with [<] where the one over the direct blocks compares with [<=].
    Here a file gets block 15, is truncated to 15 blocks (7680 bytes), and block
    15 is still mapped to the same disk block. *)
Theorem sfs_itrunc_keeps_block :
  ('(_, b, s, sv) ← sfs_bmap small_fs small_file 15 true;
   '(e, s, sv) ← sfs_itrunc s sv 7680;
   '(_, b', _, _) ← sfs_bmap s sv 15 false;
   Ret (e, sv.(sv_i).(sfi_size), b, b'))
  = Ret (0, 7680, 4, 4).
Proof. vm_compute. reflexivity. Qed.

(** C39: a write error is lost.  When the disk reports [EIO] for a write,
    [sfs_rwblock] tries again with a uio from which [lhd_io] has already taken the
    data: the second request has length 0, so [sfs_writeblock] returns 0 and the
    block on the disk is not written. *)
Theorem sfs_writeblock_lost s b d o : s.(sfs_wr) = EIO :: o → is_block d →
  0 ≤ b < Z.of_nat (length s.(sfs_disk)) → Z.of_nat (length s.(sfs_disk)) < 2 ^ 32 →
  sfs_writeblock s b d = Ret (0, set_io s s.(sfs_rd) o).
Proof.
  intros Hwr [Hl _] Hb H32. unfold sfs_writeblock.
  destruct (kinit_ok d b UIO_WRITE Hl) as [Hu Ha]. set (u := uio_kinit 0 512 (b * 512) UIO_WRITE) in *.
  change sfs_retries with (S 9). cbn [sfs_rwblock]. rewrite (lhd_io_block _ _ _ _ _ _ Hu Hb H32).
  pose proof Hu as (Huo & Hdir & Hoff & Hr). cbn [lhd_loop]. rewrite Hdir.
  destruct (uiomove_correct None (block_mem d) zero_block 0 512 u) as (m' & buf' & u' & Heq & _ & Hadv & _);
    [done|lia|done|left; lia|].
  change (Z.of_nat 0) with 0 in Heq. rewrite Heq. cbn [mbind res_bind Z.eqb negb].
  unfold completion. rewrite Hwr. change (EIO =? 0) with false. cbn [negb mbind res_bind].
  change (EIO =? EINVAL) with false. change (EIO =? EIO) with true. cbn [sfs_rwblock].
  rewrite Hr in Hadv. destruct Hadv as (_ & Ho' & Hr' & _).
  change (Z.of_nat (Z.to_nat (512 `min` 512))) with 512 in *. rewrite Hr in Hr'. rewrite Hoff in Ho'.
  unfold lhd_io. rewrite Hr', Ho'. replace (b * 512 + 512) with ((b + 1) * 512) by lia.
  rewrite Z.div_mul, Z_mod_mult, (u32_id (b + 1)) by lia. change ((512 - 512) / 512) with 0.
  change ((512 - 512) mod 512 =? 0) with true. cbn [Z.eqb negb orb]. rewrite Z.add_0_r, u32_id by lia.
  cbn [set_io sfs_disk]. by destruct (Z.ltb_spec (Z.of_nat (length s.(sfs_disk))) (b + 1)); [lia|].
Qed.

Lemma sfs_writeblock_lost_witness :
  let s := Fs 40 (Bitmap 48 [7; 0; 0; 0; 0; 255]) false (replicate 40 zero_block) [] [EIO] in
  sfs_writeblock s 5 (replicate 512 1) = Ret (0, set_io s [] []).
Proof.
  intros s. apply (sfs_writeblock_lost s 5 (replicate 512 1) []); [done| |by vm_compute..].
  split; [done|]. apply Forall_replicate. lia.
Defined.
