(* ===== verification/SfsIo.v ===== *)
(** * Reading and writing files (kern/fs/sfs/sfs_io.c)

    File I/O through a uio: partial blocks go through a buffer, whole blocks
    directly between the disk and the uio.  [file_byte] is what the file reads as
    at a position; the theorems say what [sfs_io] does to it. *)

From S2P Require Import Prelude CString UserCopy Uio Bitmap Sfs.

(** ** Operations *)

Definition is_write (rw : uio_rw) : bool := bool_decide (rw = UIO_WRITE).

(** The uio with another offset and residue. *)
Definition set_range (u : uio) (offset resid : Z) : uio :=
  Uio u.(uio_iov) offset resid u.(uio_segflg) u.(uio_dir) u.(uio_space).

(** I/O on a part of one block: the result, the memory, the uio, the file system
    and the vnode. *)
Definition sfs_partialio (cur : option positive) (m : memory) (u : uio) (s : sfs_fs) (sv : sfs_vnode)
    (skipstart len : Z) : res (Z * memory * uio * sfs_fs * sfs_vnode) :=
  let doalloc := is_write u.(uio_dir) in
  _ ← kassert (skipstart + len <=? SFS_BLOCKSIZE);
  let fileblock := u32 (u.(uio_offset) / SFS_BLOCKSIZE) in
  '(result, diskblock, s, sv) ← sfs_bmap s sv fileblock doalloc;
  if negb (result =? 0) then Ret (result, m, u, s, sv) else
  '(result, iobuf, s) ←
    (if diskblock =? 0 then
       _ ← kassert (negb (is_write u.(uio_dir)));
       Ret (0, zero_block, s)
     else sfs_readblock s diskblock);
  if negb (result =? 0) then Ret (result, m, u, s, sv) else
  '(result, m, iobuf, u) ← uiomove cur m iobuf skipstart len u;
  if negb (result =? 0) then Ret (result, m, u, s, sv) else
  if is_write u.(uio_dir) then
    '(result, s) ← sfs_writeblock s diskblock iobuf;
    Ret (result, m, u, s, sv)
  else Ret (0, m, u, s, sv).

(** I/O on a whole block.  The product [diskblock * SFS_BLOCKSIZE] has 32 bits. *)
Definition sfs_blockio (cur : option positive) (m : memory) (u : uio) (s : sfs_fs) (sv : sfs_vnode)
    : res (Z * memory * uio * sfs_fs * sfs_vnode) :=
  let doalloc := is_write u.(uio_dir) in
  let fileblock := u32 (u.(uio_offset) / SFS_BLOCKSIZE) in
  '(result, diskblock, s, sv) ← sfs_bmap s sv fileblock doalloc;
  if negb (result =? 0) then Ret (result, m, u, s, sv) else
  if diskblock =? 0 then
    _ ← kassert (negb (is_write u.(uio_dir)));
    '(result, m, u) ← uiomovezeros cur m SFS_BLOCKSIZE u;
    Ret (result, m, u, s, sv)
  else
    let saveoff := u.(uio_offset) in
    let diskoff := u32 (diskblock * SFS_BLOCKSIZE) in
    _ ← kassert (SFS_BLOCKSIZE <=? u.(uio_resid));
    let saveres := u.(uio_resid) in
    let diskres := SFS_BLOCKSIZE in
    '(result, m, u, s) ← sfs_rwblock sfs_retries cur m (set_range u diskoff diskres) s;
    let u := set_range u ((u.(uio_offset) - diskoff) + saveoff) ((u.(uio_resid) - diskres) + saveres) in
    Ret (result, m, u, s, sv).

(** The loop over the whole blocks. *)
Fixpoint blocks_loop (n : nat) (cur : option positive) (m : memory) (u : uio) (s : sfs_fs) (sv : sfs_vnode)
    : res (Z * memory * uio * sfs_fs * sfs_vnode) :=
  match n with
  | O => Ret (0, m, u, s, sv)
  | S n' =>
      '(result, m, u, s, sv) ← sfs_blockio cur m u s sv;
      if negb (result =? 0) then Ret (result, m, u, s, sv) else
      blocks_loop n' cur m u s sv
  end.

(** The whole blocks and the partial block at the end. *)
Definition io_tail (cur : option positive) (m : memory) (u : uio) (s : sfs_fs) (sv : sfs_vnode)
    : res (Z * memory * uio * sfs_fs * sfs_vnode) :=
  let nblocks := u.(uio_resid) / SFS_BLOCKSIZE in
  '(result, m, u, s, sv) ← blocks_loop (Z.to_nat nblocks) cur m u s sv;
  if negb (result =? 0) then Ret (result, m, u, s, sv) else
  _ ← kassert (u.(uio_resid) <? SFS_BLOCKSIZE);
  if 0 <? u.(uio_resid) then sfs_partialio cur m u s sv 0 u.(uio_resid)
  else Ret (0, m, u, s, sv).

(** The part of [sfs_io] between the check for the end of the file and [out]. *)
Definition io_body (cur : option positive) (m : memory) (u : uio) (s : sfs_fs) (sv : sfs_vnode)
    : res (Z * memory * uio * sfs_fs * sfs_vnode) :=
  let blkoff := u.(uio_offset) mod SFS_BLOCKSIZE in
  '(result, m, u, s, sv) ←
    (if negb (blkoff =? 0) then
       let skip := blkoff in
       let len := SFS_BLOCKSIZE - blkoff in
       let len := if len >? u.(uio_resid) then u.(uio_resid) else len in
       sfs_partialio cur m u s sv skip len
     else Ret (0, m, u, s, sv));
  if negb (result =? 0) then Ret (result, m, u, s, sv) else
  if u.(uio_resid) =? 0 then Ret (0, m, u, s, sv) else
  _ ← kassert (u.(uio_offset) mod SFS_BLOCKSIZE =? 0);
  io_tail cur m u s sv.

Definition sfs_io (cur : option positive) (m : memory) (u : uio) (s : sfs_fs) (sv : sfs_vnode)
    : res (Z * memory * uio * sfs_fs * sfs_vnode) :=
  let rw := u.(uio_dir) in
  let origresid := u.(uio_resid) in
  let size := sv.(sv_i).(sfi_size) in
  let endpos := u.(uio_offset) + u.(uio_resid) in
  if negb (is_write rw) && (size <=? u.(uio_offset)) then Ret (0, m, u, s, sv) else
  let extraresid := if negb (is_write rw) && (endpos >? size) then endpos - size else 0 in
  _ ← kassert ((extraresid =? 0) || (u.(uio_resid) >? extraresid));
  let u := set_range u u.(uio_offset) (u.(uio_resid) - extraresid) in
  '(result, m, u, s, sv) ← io_body cur m u s sv;
  let sv := if negb (u.(uio_resid) =? origresid) && is_write rw
               && (u.(uio_offset) >? sv.(sv_i).(sfi_size))
            then set_size sv (u32 u.(uio_offset)) else sv in
  Ret (result, m, set_range u u.(uio_offset) (u.(uio_resid) + extraresid), s, sv).

(** Metadata I/O: [data] is a kernel buffer of [len] bytes. *)
Definition sfs_metaio (s : sfs_fs) (sv : sfs_vnode) (actualpos : Z) (data : list Z) (rw : uio_rw)
    : res (Z * list Z * sfs_fs * sfs_vnode) :=
  let vnblock := u32 (actualpos / SFS_BLOCKSIZE) in
  let blockoffset := actualpos mod SFS_BLOCKSIZE in
  let doalloc := is_write rw in
  '(result, diskblock, s, sv) ← sfs_bmap s sv vnblock doalloc;
  if negb (result =? 0) then Ret (result, data, s, sv) else
  if diskblock =? 0 then
    _ ← kassert (negb (is_write rw));
    Ret (0, replicate (length data) 0, s, sv)
  else
    '(result, metaiobuf, s) ← sfs_readblock s diskblock;
    if negb (result =? 0) then Ret (result, data, s, sv) else
    match rw with
    | UIO_READ =>
        data ← load (length data) metaiobuf blockoffset;
        Ret (0, data, s, sv)
    | UIO_WRITE =>
        metaiobuf ← store metaiobuf blockoffset data;
        '(result, s) ← sfs_writeblock s diskblock metaiobuf;
        if negb (result =? 0) then Ret (result, data, s, sv) else
        let endpos := actualpos + Z.of_nat (length data) in
        let sv := if endpos >? sv.(sv_i).(sfi_size) then set_size sv (u32 endpos) else sv in
        Ret (0, data, s, sv)
    end.

(** ** Specification *)

(** What the file reads as at position [pos], and from there on. *)
Definition file_byte (s : sfs_fs) (sv : sfs_vnode) (pos : Z) : Z :=
  content s sv (Z.to_nat (pos / 512)) !!! Z.to_nat (pos mod 512).

Definition file_bytes (s : sfs_fs) (sv : sfs_vnode) (pos : Z) (n : nat) : list Z :=
  (λ i, file_byte s sv (pos + Z.of_nat i)) <$> seq 0 n.

(** The memory holds bytes. *)
Definition mem_ok (m : memory) : Prop := map_Forall (λ _ x, 0 ≤ x < 256) m.

(** [k] bytes have been read from the file into the ranges of the uio. *)
Definition read_step (cur : option positive) (m : memory) (u : uio) (s : sfs_fs) (sv : sfs_vnode) (k : nat)
    (m' : memory) (u' : uio) (s' : sfs_fs) (sv' : sfs_vnode) : Prop :=
  same_but_io s s' ∧ sv' = sv ∧
  m' = pour m (take k (iov_addrs u.(uio_iov))) (file_bytes s sv u.(uio_offset) k) ∧
  advanced u k u' ∧ uio_ok cur m' u'.

(** What writing to a file leaves as it is. *)
Record leaves (s : sfs_fs) (sv : sfs_vnode) (s' : sfs_fs) (sv' : sfs_vnode) : Prop := Leaves {
  le_nblocks : s'.(sb_nblocks) = s.(sb_nblocks);
  le_used : ∀ b, 0 ≤ b → used s b = true → used s' b = true;
  le_foreign : foreign s sv s' sv';
  le_disk : ∀ b, 0 ≤ b → used s b = true → b ∉ slots s sv →
    s'.(sfs_disk) !!! Z.to_nat b = s.(sfs_disk) !!! Z.to_nat b;
  le_inode : sv'.(sv_ino) = sv.(sv_ino) ∧ sv'.(sv_i).(sfi_size) = sv.(sv_i).(sfi_size) ∧
    sv'.(sv_i).(sfi_type) = sv.(sv_i).(sfi_type) ∧ sv'.(sv_i).(sfi_linkcount) = sv.(sv_i).(sfi_linkcount)
}.

(** [k] bytes have been written to the file from the ranges of the uio. *)
Definition write_step (cur : option positive) (m : memory) (u : uio) (s : sfs_fs) (sv : sfs_vnode) (k : nat)
    (m' : memory) (u' : uio) (s' : sfs_fs) (sv' : sfs_vnode) : Prop :=
  fs_ok s' ∧ file_ok s' sv' ∧ leaves s sv s' sv' ∧ m' = m ∧ advanced u k u' ∧ uio_ok cur m u' ∧
  ∀ pos, 0 ≤ pos → file_byte s' sv' pos =
    if decide (u.(uio_offset) ≤ pos < u.(uio_offset) + Z.of_nat k)
    then gather m (take k (iov_addrs u.(uio_iov))) !!! Z.to_nat (pos - u.(uio_offset))
    else file_byte s sv pos.

(** The errors when the disk reports none: no space for a new block, or a position
    past the largest file. *)
Definition io_fails (rw : uio_rw) (s s' : sfs_fs) (endpos e : Z) : Prop :=
  quiet s → quiet s' ∧ (e ≠ 0 → no_space e s' ∧ rw = UIO_WRITE ∨ e = EFBIG ∧ 73216 < endpos).

(** ** Contents *)

Lemma content_block s sv fb : fs_ok s → file_ok s sv → is_block (content s sv fb).
Proof.
  intros Hok Hf. unfold content. destruct (entries s sv !! fb) as [b|] eqn:Hb; [|apply zero_is_block].
  destruct (Z.eqb_spec b 0); [apply zero_is_block|].
  destruct (entry_used s sv fb b Hf Hb) as [? _]; [done|]. apply disk_block; [done|lia].
Qed.

Lemma file_bytes_length s sv pos n : length (file_bytes s sv pos n) = n.
Proof. unfold file_bytes. by rewrite length_fmap, length_seq. Qed.

Lemma file_bytes_lookup s sv pos n i : (i < n)%nat →
  file_bytes s sv pos n !! i = Some (file_byte s sv (pos + Z.of_nat i)).
Proof. intros Hi. unfold file_bytes. rewrite list_lookup_fmap, lookup_seq_lt by done. done. Qed.

Lemma file_bytes_add s sv pos n k :
  file_bytes s sv pos (n + k) = file_bytes s sv pos n ++ file_bytes s sv (pos + Z.of_nat n) k.
Proof.
  apply list_eq. intros i. destruct (decide (i < n)%nat); [|destruct (decide (i < n + k)%nat)].
  - rewrite lookup_app_l by (by rewrite file_bytes_length). by rewrite !file_bytes_lookup by lia.
  - rewrite lookup_app_r by (rewrite file_bytes_length; lia). rewrite file_bytes_length.
    rewrite !file_bytes_lookup by lia. do 2 f_equal. lia.
  - by rewrite !lookup_ge_None_2 by (rewrite ?length_app, !file_bytes_length; lia).
Qed.

(** Positions within a block. *)
Lemma file_byte_block s sv fb i : (i < 512)%nat →
  file_byte s sv (Z.of_nat fb * 512 + Z.of_nat i) = content s sv fb !!! i.
Proof.
  intros Hi. unfold file_byte.
  replace (Z.to_nat ((Z.of_nat fb * 512 + Z.of_nat i) / 512)) with fb by zdiv_lia.
  by replace (Z.to_nat ((Z.of_nat fb * 512 + Z.of_nat i) mod 512)) with i by zdiv_lia.
Qed.

Lemma file_bytes_block s sv fb skip len : fs_ok s → file_ok s sv → (skip + len ≤ 512)%nat →
  file_bytes s sv (Z.of_nat fb * 512 + Z.of_nat skip) len = take len (drop skip (content s sv fb)).
Proof.
  intros Hok Hf Hle. destruct (content_block s sv fb Hok Hf) as [Hl _].
  apply list_eq_same_length with (n := len).
  - rewrite length_take, length_drop. lia.
  - by rewrite file_bytes_length.
  - intros i x y Hi Hx Hy. rewrite file_bytes_lookup in Hx by done. injection Hx as <-.
    rewrite lookup_take_lt, lookup_drop in Hy by done.
    rewrite <-Z.add_assoc, <-Nat2Z.inj_add, file_byte_block by lia. by apply list_lookup_total_correct.
Qed.

Lemma file_byte_same s sv s' sv' pos : (∀ fb, content s' sv' fb = content s sv fb) →
  file_byte s' sv' pos = file_byte s sv pos.
Proof. intros Hc. unfold file_byte. by rewrite Hc. Qed.

Lemma file_bytes_same s sv s' sv' pos n : (∀ fb, content s' sv' fb = content s sv fb) →
  file_bytes s' sv' pos n = file_bytes s sv pos n.
Proof. intros Hc. unfold file_bytes. apply list_fmap_ext. intros. by apply file_byte_same. Qed.

(** Reading and then reading on. *)
Lemma read_step_add cur m u s sv k1 k2 m1 u1 s1 sv1 m2 u2 s2 sv2 : fs_ok s → file_ok s sv →
  (k1 + k2 ≤ length (iov_addrs u.(uio_iov)))%nat →
  read_step cur m u s sv k1 m1 u1 s1 sv1 → read_step cur m1 u1 s1 sv1 k2 m2 u2 s2 sv2 →
  read_step cur m u s sv (k1 + k2) m2 u2 s2 sv2.
Proof.
  intros Hok Hf Hk (Hs1 & -> & -> & Ha1 & Hu1) (Hs2 & -> & -> & Ha2 & Hu2).
  destruct (same_but_io_keeps s sv s1 Hok Hf Hs1) as (_ & _ & Hk1 & _).
  assert (length (take k1 (iov_addrs (uio_iov u))) = k1) as Hl1 by (rewrite length_take; lia).
  assert (pour m (take (k1 + k2) (iov_addrs (uio_iov u))) (file_bytes s sv (uio_offset u) (k1 + k2)) =
    pour (pour m (take k1 (iov_addrs (uio_iov u))) (file_bytes s sv (uio_offset u) k1))
      (take k2 (iov_addrs (uio_iov u1))) (file_bytes s1 sv (uio_offset u1) k2)) as Hpour.
  { destruct Ha1 as (-> & -> & _). rewrite take_add, file_bytes_add.
    rewrite (file_bytes_same s sv s1 sv _ k2 (ke_content _ _ _ _ Hk1)).
    by rewrite pour_app by (rewrite file_bytes_length; lia). }
  split_and!; [by eapply same_but_io_trans|done|done|by eapply advanced_add|done].
Qed.

Lemma leaves_trans s sv s1 sv1 s2 sv2 : leaves s sv s1 sv1 → leaves s1 sv1 s2 sv2 → leaves s sv s2 sv2.
Proof.
  intros [Hn1 Hu1 Hf1 Hd1 (? & ? & ? & ?)] [Hn2 Hu2 Hf2 Hd2 (? & ? & ? & ?)].
  constructor; [congruence|by auto| | |split_and!; congruence].
  - intros b Hb Hu Hnot. apply Hf2; auto.
  - intros b Hb Hu Hnot. rewrite Hd2; auto.
Qed.

Lemma keeps_leaves s sv s' sv' : keeps s sv s' sv' → foreign s sv s' sv' → leaves s sv s' sv'.
Proof.
  intros [Hn Hu Hd _ _ _ Hino] Hf. constructor; try done. intros b Hb Hub Hnot. apply Hd; [done..|].
  intros ->. destruct Hnot. by eapply (list_elem_of_lookup_2 _ 0%nat).
Qed.

Lemma gather_length m ks : length (gather m ks) = length ks.
Proof. apply length_fmap. Qed.

(** Writing and then writing on. *)
Lemma write_step_add cur m u s sv k1 k2 m1 u1 s1 sv1 m2 u2 s2 sv2 :
  (k1 + k2 ≤ length (iov_addrs u.(uio_iov)))%nat →
  write_step cur m u s sv k1 m1 u1 s1 sv1 → write_step cur m1 u1 s1 sv1 k2 m2 u2 s2 sv2 →
  write_step cur m u s sv (k1 + k2) m2 u2 s2 sv2.
Proof.
  intros Hk (Hok1 & Hf1 & Hl1 & -> & Ha1 & Hu1 & Hb1) (Hok2 & Hf2 & Hl2 & -> & Ha2 & Hu2 & Hb2).
  split_and!; [done..|by eapply leaves_trans|done|by eapply advanced_add|done|].
  intros pos Hpos. rewrite Hb2, Hb1 by done. destruct Ha1 as (Hia & Hoff & _).
  rewrite Hoff, Hia, take_add, gather_app.
  assert (length (gather m (take k1 (iov_addrs (uio_iov u)))) = k1) as Hg
    by (rewrite gather_length, length_take; lia).
  repeat case_decide; try lia; try done.
  - rewrite lookup_total_app_r by lia. f_equal. lia.
  - rewrite lookup_total_app_l by lia. done.
Qed.

(** Writing the data block of block [fb] of the file. *)
Lemma data_write s sv fb b d s' : fs_ok s → file_ok s sv → entries s sv !! fb = Some b → b ≠ 0 → is_block d →
  same_but_io (set_disk s (<[Z.to_nat b := d]> s.(sfs_disk))) s' →
  fs_ok s' ∧ file_ok s' sv ∧ leaves s sv s' sv ∧
  ∀ fb', content s' sv fb' = if decide (fb' = fb) then d else content s sv fb'.
Proof.
  intros Hok Hf Hfb Hne Hd Hs'. pose proof Hf as [Hl Hu Hi].
  destruct (same_fields _ _ Hs') as (Hn & Hfm & Hdk). cbn in Hn, Hfm, Hdk.
  destruct (Hu (S fb) b Hfb Hne) as [Hr Hub].
  assert (∀ i x, slots s sv !! i = Some x → x ≠ 0 → i ≠ S fb →
    s'.(sfs_disk) !!! Z.to_nat x = s.(sfs_disk) !!! Z.to_nat x) as Hsame.
  { intros i x Hx Hx0 Hine. rewrite Hdk. apply list_lookup_total_insert_ne.
    destruct (Hu i x Hx Hx0). intros Heq. assert (x = b) as -> by lia. destruct Hine. by eapply Hi. }
  assert (entries s' sv = entries s sv) as He.
  { apply entries_disk. intros H0. by apply (Hsame 0%nat). }
  assert (∀ k, used s' k = used s k) as Huse by (intros k; unfold used; by rewrite Hfm).
  split_and!.
  - eapply same_ok; [done|]. by apply set_disk_ok.
  - constructor; [done| |]; rewrite (slots_entries _ _ _ He).
    + intros i x. rewrite Hn, Huse. apply Hu.
    + apply Hi.
  - constructor; [done|by intros k; rewrite Huse|by apply foreign_same, slots_entries| |done].
    intros k Hk Huk Hnot. rewrite Hdk. apply list_lookup_total_insert_ne. intros Heq.
    assert (k = b) as -> by lia. destruct Hnot. by eapply (list_elem_of_lookup_2 _ (S fb)).
  - intros fb'. unfold content. rewrite He. case_decide as Hfb'.
    + subst fb'. rewrite Hfb. destruct (Z.eqb_spec b 0); [done|]. rewrite Hdk.
      apply list_lookup_total_insert_eq. pose proof (fo_len _ Hok). lia.
    + destruct (entries s sv !! fb') as [x|] eqn:Hx; [|done]. destruct (Z.eqb_spec x 0); [done|].
      apply (Hsame (S fb')); [done|done|]. congruence.
Qed.

(** The bytes of the file after a part of block [fb] has been overwritten. *)
Lemma content_splice s sv s' sv' fb skip xs : fs_ok s → file_ok s sv → (skip + length xs ≤ 512)%nat →
  (∀ fb', content s' sv' fb' = if decide (fb' = fb) then splice (content s sv fb) skip xs else content s sv fb') →
  let off := Z.of_nat fb * 512 + Z.of_nat skip in
  ∀ pos, 0 ≤ pos → file_byte s' sv' pos =
    if decide (off ≤ pos < off + Z.of_nat (length xs)) then xs !!! Z.to_nat (pos - off) else file_byte s sv pos.
Proof.
  intros Hok Hf Hl Hc off pos Hpos. unfold file_byte. rewrite Hc.
  destruct (content_block s sv fb Hok Hf) as [Hcl _].
  case_decide as Hfb; [|rewrite decide_False by (intros ?; apply Hfb; unfold off in *; zdiv_lia); done].
  rewrite !list_lookup_total_alt, splice_lookup by lia.
  assert (Z.to_nat (pos / 512) = fb) as Hq by done. assert (0 ≤ pos mod 512 < 512) by (apply Z.mod_pos_bound; lia).
  assert (pos = Z.of_nat fb * 512 + pos mod 512) as Hpos' by zdiv_lia. unfold off.
  repeat case_decide; try lia.
  - do 2 f_equal. lia.
  - by rewrite Hq.
Qed.

(** The block map and the contents: what the I/O routines use of [sfs_bmap]. *)
Lemma bmap_content s sv fb doalloc : fs_ok s → file_ok s sv →
  ∃ e b s' sv', sfs_bmap s sv (Z.of_nat fb) doalloc = Ret (e, b, s', sv') ∧ fs_ok s' ∧ file_ok s' sv' ∧
    leaves s sv s' sv' ∧ (∀ fb', content s' sv' fb' = content s sv fb') ∧
    (doalloc = false → same_but_io s s' ∧ sv' = sv) ∧
    (e = 0 → entries s' sv' !! fb = Some b ∧ (doalloc = true → b ≠ 0) ∧
      (b = 0 → content s sv fb = zero_block) ∧
      (b ≠ 0 → 0 < b < s'.(sb_nblocks) ∧ s'.(sfs_disk) !!! Z.to_nat b = content s sv fb)) ∧
    (quiet s → quiet s' ∧ (e ≠ 0 → no_space e s' ∧ doalloc = true ∨ e = EFBIG ∧ (143 ≤ fb)%nat)).
Proof.
  intros Hok Hf. destruct (bmap_correct s sv fb doalloc Hok Hf) as (e & b & s' & sv' & Heq & Hb & _).
  destruct Hb as (Hok' & Hf' & Hk & Hfo & Hsame & He & Hq). exists e, b, s', sv'.
  split_and!; [done..|by apply keeps_leaves|by apply ke_content|done| |done].
  intros He0. destruct (He He0) as [Hent Hal]. split_and!; [done..| |].
  - intros ->. rewrite <-(ke_content _ _ _ _ Hk). unfold content. by rewrite Hent.
  - intros Hne. destruct (entry_used s' sv' fb b Hf' Hent Hne) as [? _]. split; [done|].
    rewrite <-(ke_content _ _ _ _ Hk). unfold content. rewrite Hent. by destruct (Z.eqb_spec b 0).
Qed.

(** The volume and the file are consistent and the file reads as before. *)
Record unchanged (s : sfs_fs) (sv : sfs_vnode) (s' : sfs_fs) (sv' : sfs_vnode) : Prop := Unchanged {
  un_fs : fs_ok s';
  un_file : file_ok s' sv';
  un_leaves : leaves s sv s' sv';
  un_content : ∀ fb, content s' sv' fb = content s sv fb
}.

Lemma unchanged_io s sv s1 sv1 s2 : unchanged s sv s1 sv1 → same_but_io s1 s2 → unchanged s sv s2 sv1.
Proof.
  intros [Hok1 Hf1 Hle Hc] Hs2. destruct (same_but_io_keeps s1 sv1 s2 Hok1 Hf1 Hs2) as (Hok2 & Hf2 & Hk2 & He2).
  constructor; [done|done| |].
  - eapply leaves_trans; [done|]. apply keeps_leaves; [done|]. by apply foreign_same, slots_entries.
  - intros fb. by rewrite (ke_content _ _ _ _ Hk2).
Qed.

(** Fetching block [fb] of the file in order to change it: mapping it, reading it and
    writing it back. *)
Lemma fetch_for_write s sv fb : fs_ok s → file_ok s sv →
  ∃ e b s1 sv1, sfs_bmap s sv (Z.of_nat fb) true = Ret (e, b, s1, sv1) ∧ unchanged s sv s1 sv1 ∧
    (quiet s → quiet s1 ∧ (e ≠ 0 → no_space e s1 ∨ e = EFBIG ∧ (143 ≤ fb)%nat)) ∧
    (e = 0 → b ≠ 0 ∧
      ∃ e2 d s2, sfs_readblock s1 b = Ret (e2, d, s2) ∧ unchanged s sv s2 sv1 ∧
        (quiet s → quiet s2 ∧ e2 = 0) ∧
        (e2 = 0 → d = content s sv fb ∧ ∀ d', is_block d' →
          ∃ e3 s3, sfs_writeblock s2 b d' = Ret (e3, s3) ∧ (quiet s → quiet s3 ∧ e3 = 0) ∧
            (e3 ≠ 0 → unchanged s sv s3 sv1) ∧
            (e3 = 0 → fs_ok s3 ∧ file_ok s3 sv1 ∧ leaves s sv s3 sv1 ∧
               ∀ fb', content s3 sv1 fb' = if decide (fb' = fb) then d' else content s sv fb'))).
Proof.
  intros Hok Hf.
  destruct (bmap_content s sv fb true Hok Hf) as (e & b & s1 & sv1 & Hrun & Hok1 & Hf1 & Hle1 & Hc & _ & He & Hq).
  assert (unchanged s sv s1 sv1) as Hun1 by done. exists e, b, s1, sv1. split_and!; [done..| |].
  { intros [? Hee]%Hq. split; [done|]. intros n. destruct (Hee n) as [[? _]|?]; [by left|by right]. }
  intros He0. destruct (He He0) as (Hent & Hal & _ & Hblk). specialize (Hal eq_refl). destruct (Hblk Hal) as [Hr Hcb].
  split; [done|]. destruct (readblock_correct s1 b Hok1 ltac:(lia)) as (e2 & d & s2 & Hread & Hs2 & Hd & Hq2).
  assert (quiet s → quiet s2 ∧ e2 = 0) as Hqs2 by (intros [Hqs _]%Hq; split; [by apply Hs2|auto]).
  pose proof (unchanged_io _ _ _ _ _ Hun1 Hs2) as Hun2. pose proof Hun2 as [Hok2 Hf2 Hle2 Hc2].
  exists e2, d, s2. split_and!; [done..|]. intros ->. destruct (Hd eq_refl) as [-> _]. split; [done|].
  intros d' Hd'. destruct (writeblock_correct s2 b d' Hok2) as (e3 & s3 & Hwrite & Hqw & Hcase);
    [rewrite (le_nblocks _ _ _ _ Hle2), <-(le_nblocks _ _ _ _ Hle1); lia|done|].
  exists e3, s3. split; [done|]. destruct Hcase as [[Hne Hs3]|[-> Hs3]].
  - split_and!; [intros [Hqs _]%Hqs2; by pose proof (Hqw Hqs)|intros _; by eapply unchanged_io|done].
  - split_and!; [intros [Hqs _]%Hqs2; split; [by apply Hs3|done]|done|]. intros _.
    destruct (same_but_io_keeps s1 sv1 s2 Hok1 Hf1 Hs2) as (_ & _ & _ & He2). rewrite <-He2 in Hent.
    destruct (data_write s2 sv1 fb b d' s3 Hok2 Hf2 Hent Hal Hd' Hs3) as (? & ? & Hle3 & Hc3).
    split_and!; [done..|by eapply leaves_trans|]. intros fb'. by rewrite Hc3, Hc2.
Qed.

Lemma fileblock_u32 fb skip offset : offset = Z.of_nat fb * 512 + Z.of_nat skip → (skip < 512)%nat →
  offset < 2 ^ 32 → u32 (offset / SFS_BLOCKSIZE) = Z.of_nat fb.
Proof.
  intros -> Hs H32. unfold SFS_BLOCKSIZE.
  replace ((Z.of_nat fb * 512 + Z.of_nat skip) / 512) with (Z.of_nat fb) by zdiv_lia.
  apply u32_id. lia.
Qed.

(** [uiomove] of [len] bytes of a buffer that the residue covers. *)
Lemma uiomove_part cur m buf skip len u : uio_ok cur m u → Z.of_nat len ≤ u.(uio_resid) →
  (skip + len ≤ length buf)%nat → Z.of_nat len < 2 ^ 32 →
  ∃ m' buf' u', uiomove cur m buf (Z.of_nat skip) (Z.of_nat len) u = Ret (0, m', buf', u') ∧
    moved m buf skip u len m' buf' ∧ advanced u len u' ∧ uio_ok cur m' u'.
Proof.
  intros Hu Hr Hl H32.
  destruct (uiomove_correct cur m buf skip (Z.of_nat len) u) as (m' & buf' & u' & Heq & Hm & Ha & Hok);
    [done|lia|lia|left; lia|].
  rewrite Z.min_l, Nat2Z.id in * by lia. by exists m', buf', u'.
Qed.

Lemma splice_bytes b p xs : Forall (λ x, 0 ≤ x < 256) b → Forall (λ x, 0 ≤ x < 256) xs →
  Forall (λ x, 0 ≤ x < 256) (splice b p xs).
Proof.
  intros Hb Hx. unfold splice. rewrite !Forall_app. split_and!; [by apply Forall_take|done|by apply Forall_drop].
Qed.

Lemma gather_bytes m ks : mem_ok m → Forall (λ x, 0 ≤ x < 256) (gather m ks).
Proof.
  intros Hm. unfold gather. apply Forall_fmap, Forall_forall. intros k _. cbn.
  destruct (m !! k) as [x|] eqn:Hx; cbn; [by apply (map_Forall_lookup_1 _ _ _ _ Hm Hx)|lia].
Qed.

Section partial.
Context (cur : option positive) (m : memory) (u : uio) (s : sfs_fs) (sv : sfs_vnode) (fb skip len : nat).
Context (Hok : fs_ok s) (Hf : file_ok s sv) (Hu : uio_ok cur m u).
Context (Hoff : u.(uio_offset) = Z.of_nat fb * 512 + Z.of_nat skip) (H32 : u.(uio_offset) < 2 ^ 32).
Context (Hlen : (0 < skip + len ≤ 512)%nat) (Hskip : (skip < 512)%nat) (Hres : Z.of_nat len ≤ u.(uio_resid)).

Lemma part_fits : (Z.of_nat skip + Z.of_nat len <=? SFS_BLOCKSIZE) = true.
Proof. apply Z.leb_le. unfold SFS_BLOCKSIZE. lia. Qed.

Lemma part_fails rw s' e doalloc : doalloc = is_write rw →
  (quiet s → quiet s' ∧ (e ≠ 0 → no_space e s' ∧ doalloc = true ∨ e = EFBIG ∧ (143 ≤ fb)%nat)) →
  io_fails rw s s' (u.(uio_offset) + u.(uio_resid)) e.
Proof.
  intros -> Hq Hqs. destruct (Hq Hqs) as [? He]. split; [done|]. intros Hne.
  destruct (He Hne) as [[? Hw]|[-> ?]]; [left|right]; (split; [done|]); [|lia].
  unfold is_write in Hw. by apply bool_decide_eq_true in Hw.
Qed.

Lemma partialio_read : u.(uio_dir) = UIO_READ →
  ∃ e m' u' s' sv', sfs_partialio cur m u s sv (Z.of_nat skip) (Z.of_nat len) = Ret (e, m', u', s', sv') ∧
    same_but_io s s' ∧ sv' = sv ∧ io_fails UIO_READ s s' (u.(uio_offset) + u.(uio_resid)) e ∧
    (e = 0 → read_step cur m u s sv len m' u' s' sv').
Proof.
  intros Hdir. unfold sfs_partialio. rewrite Hdir.
  change (is_write UIO_READ) with false. rewrite part_fits. cbn [kassert mbind res_bind].
  rewrite (fileblock_u32 fb skip) by done.
  destruct (bmap_content s sv fb false Hok Hf) as (e & b & s1 & sv1 & -> & Hok1 & Hf1 & _ & Hc & Hsame & He & Hq).
  destruct (Hsame eq_refl) as [Hs1 ->]. cbn [mbind res_bind].
  pose proof (part_fails UIO_READ s1 e false eq_refl Hq) as Hfail.
  destruct (Z.eqb_spec e 0) as [->|]; cbn [negb]; [|by eexists _, _, _, _, _].
  destruct (He eq_refl) as (_ & _ & Hhole & Hblk).
  match goal with |- context [if b =? 0 then ?x else ?y] =>
    assert (∃ e d s2, (if b =? 0 then x else y) = Ret (e, d, s2) ∧ same_but_io s s2 ∧
      io_fails UIO_READ s s2 (u.(uio_offset) + u.(uio_resid)) e ∧
      (e = 0 → d = content s sv fb)) as (e & d & s2 & -> & Hs2 & Hfail2 & Hd) end.
  { destruct (Z.eqb_spec b 0) as [->|Hne].
    - cbn [negb kassert mbind res_bind]. eexists _, _, _. split_and!; [done..|]. intros _. by rewrite Hhole.
    - destruct (Hblk Hne) as [Hr Hcb].
      destruct (readblock_correct s1 b Hok1 ltac:(lia)) as (e & d & s2 & -> & Hs2 & Hd & Hq2).
      eexists _, _, _. split_and!; [done|by eapply same_but_io_trans| |].
      { intros [Hqs _]%Hq. split; [by apply Hs2|]. by rewrite (Hq2 Hqs). }
      intros ->. destruct (Hd eq_refl) as [-> _]. done. }
  cbn [mbind res_bind]. destruct (Z.eqb_spec e 0) as [->|]; cbn [negb]; [|by eexists _, _, _, _, _].
  rewrite (Hd eq_refl). destruct (content_block s sv fb Hok Hf) as [Hcl _].
  destruct (uiomove_part cur m (content s sv fb) skip len u) as (m' & buf' & u' & -> & Hm & Ha & Hu');
    [done|done|lia|lia|].
  cbn [mbind res_bind Z.eqb negb]. pose proof Ha as (_ & _ & _ & _ & Hd' & _). rewrite Hd', Hdir.
  change (is_write UIO_READ) with false. eexists _, _, _, _, _. split_and!; [done..|]. intros _.
  split_and!; [done..| |done|done]. unfold moved in Hm. rewrite Hdir in Hm. destruct Hm as [-> _].
  rewrite Hoff, file_bytes_block by (done || lia). done.
Qed.

Lemma write_bytes_block s' sv' : (∀ fb', content s' sv' fb' =
    if decide (fb' = fb) then splice (content s sv fb) skip (gather m (take len (iov_addrs u.(uio_iov))))
    else content s sv fb') →
  ∀ pos, 0 ≤ pos → file_byte s' sv' pos =
    if decide (u.(uio_offset) ≤ pos < u.(uio_offset) + Z.of_nat len)
    then gather m (take len (iov_addrs u.(uio_iov))) !!! Z.to_nat (pos - u.(uio_offset))
    else file_byte s sv pos.
Proof.
  intros Hc pos Hpos. destruct Hu as (_ & Hr & _).
  assert (length (gather m (take len (iov_addrs u.(uio_iov)))) = len) as Hg
    by (rewrite gather_length, length_take; lia).
  rewrite (content_splice s sv s' sv' fb skip (gather m (take len (iov_addrs u.(uio_iov)))) Hok Hf ltac:(lia) Hc pos Hpos).
  by rewrite Hg, Hoff.
Qed.

Lemma partialio_write : u.(uio_dir) = UIO_WRITE → mem_ok m →
  ∃ e m' u' s' sv', sfs_partialio cur m u s sv (Z.of_nat skip) (Z.of_nat len) = Ret (e, m', u', s', sv') ∧
    fs_ok s' ∧ file_ok s' sv' ∧ leaves s sv s' sv' ∧ m' = m ∧
    io_fails UIO_WRITE s s' (u.(uio_offset) + u.(uio_resid)) e ∧
    (e = 0 → write_step cur m u s sv len m' u' s' sv').
Proof.
  intros Hdir Hmem. unfold sfs_partialio. rewrite Hdir.
  change (is_write UIO_WRITE) with true. rewrite part_fits. cbn [kassert mbind res_bind].
  rewrite (fileblock_u32 fb skip) by done.
  destruct (fetch_for_write s sv fb Hok Hf) as (e & b & s1 & sv1 & -> & [Hok1 Hf1 Hle1 _] & Hq & He).
  cbn [mbind res_bind]. destruct (Z.eqb_spec e 0) as [->|]; cbn [negb].
  2: { eexists _, _, _, _, _. split_and!; try done. apply (part_fails UIO_WRITE s1 e true eq_refl).
       intros [? Hee]%Hq. split; [done|]. intros n0. destruct (Hee n0); [by left|by right]. }
  destruct (He eq_refl) as (Hal & e2 & d & s2 & Hread & [Hok2 Hf2 Hle2 _] & Hq2 & He2).
  destruct (Z.eqb_spec b 0); [done|]. rewrite Hread. cbn [mbind res_bind].
  destruct (Z.eqb_spec e2 0) as [->|He0]; cbn [negb].
  2: { eexists _, _, _, _, _. split_and!; try done. by intros [_ ?]%Hq2. }
  destruct (He2 eq_refl) as [-> Hwr]. destruct (content_block s sv fb Hok Hf) as [Hcl Hcb].
  destruct (uiomove_part cur m (content s sv fb) skip len u) as (m' & buf' & u' & -> & Hm & Ha & Hu');
    [done|done|lia|lia|].
  cbn [mbind res_bind Z.eqb negb]. pose proof Ha as (_ & _ & _ & _ & Hd' & _). rewrite Hd', Hdir.
  change (is_write UIO_WRITE) with true. unfold moved in Hm. rewrite Hdir in Hm. destruct Hm as [-> ->].
  set (d := splice _ _ _). destruct Hu as (_ & Hr & _).
  assert (is_block d) as Hdblk.
  { split; [unfold d; rewrite splice_length; [done|]; rewrite gather_length, length_take; lia|].
    by apply splice_bytes; [|apply gather_bytes]. }
  destruct (Hwr d Hdblk) as (e3 & s3 & -> & Hq3 & Hfail3 & Hok3). cbn [mbind res_bind].
  eexists _, _, _, _, _. split; [done|].
  assert (io_fails UIO_WRITE s s3 (u.(uio_offset) + u.(uio_resid)) e3) as Hio by (by intros [? ->]%Hq3).
  destruct (decide (e3 = 0)) as [He3|He3].
  - destruct (Hok3 He3) as (? & ? & ? & Hc3). split_and!; try done. intros _. split_and!; try done.
    by apply write_bytes_block.
  - by destruct (Hfail3 He3); split_and!.
Qed.
End partial.

(** ** Whole blocks *)

(** The uio handed to the device, and the uio after it has been set back. *)
Lemma set_range_block cur m u b rw : uio_ok cur m u → u.(uio_dir) = rw → 512 ≤ u.(uio_resid) →
  block_uio cur m (set_range u (b * 512) 512) rw b.
Proof.
  intros (Hf & Hr & HT & Hsp) Hd Hres. unfold block_uio, uio_ok, set_range.
  cbn [uio_iov uio_resid uio_segflg uio_dir uio_offset uio_space]. split_and!; try done; lia.
Qed.

Lemma set_back cur m' u b u1 k : uio_ok cur m' u1 → uio_resid u < 2 ^ 32 →
  (∃ m, uio_ok cur m u) → 512 ≤ u.(uio_resid) → (k ≤ 512)%nat →
  advanced (set_range u (b * 512) 512) k u1 →
  let u' := set_range u1 (u1.(uio_offset) - b * 512 + u.(uio_offset)) (u1.(uio_resid) - 512 + u.(uio_resid)) in
  advanced u k u' ∧ uio_ok cur m' u'.
Proof.
  intros (Hf & Hr & HT & Hsp) H32 (m & Hu) Hres Hk (Ha & Ho & Hr1 & Hs & Hd & Hsp1) u'.
  unfold set_range in *. cbn [uio_iov uio_resid uio_segflg uio_dir uio_offset uio_space] in *. split.
  - unfold advanced, u'. cbn [uio_iov uio_resid uio_segflg uio_dir uio_offset uio_space].
    split_and!; try done; lia.
  - destruct Hu as (_ & Hru & HTu & _). unfold uio_ok, u'.
    cbn [uio_iov uio_resid uio_segflg uio_dir uio_offset uio_space].
    rewrite Ha, length_drop in *. split_and!; try done; lia.
Qed.

Section whole.
Context (cur : option positive) (m : memory) (u : uio) (s : sfs_fs) (sv : sfs_vnode) (fb : nat).
Context (Hok : fs_ok s) (Hf : file_ok s sv) (Hu : uio_ok cur m u) (Hbig : s.(sb_nblocks) ≤ 2 ^ 23).
Context (Hoff : u.(uio_offset) = Z.of_nat fb * 512) (H32 : u.(uio_offset) < 2 ^ 32).
Context (Hres : 512 ≤ u.(uio_resid)).

Lemma resid_32 : u.(uio_resid) < 2 ^ 32.
Proof. destruct Hu as (_ & ? & ? & _). lia. Qed.

Lemma whole_fileblock : u32 (u.(uio_offset) / SFS_BLOCKSIZE) = Z.of_nat fb.
Proof. apply (fileblock_u32 fb 0); [lia|lia|done]. Qed.

Lemma whole_fails rw s' e doalloc : doalloc = is_write rw →
  (quiet s → quiet s' ∧ (e ≠ 0 → no_space e s' ∧ doalloc = true ∨ e = EFBIG ∧ (143 ≤ fb)%nat)) →
  io_fails rw s s' (u.(uio_offset) + u.(uio_resid)) e.
Proof. intros Hd Hq. eapply (part_fails u s fb 0 512); (done || lia). Qed.

Lemma whole_bytes : file_bytes s sv u.(uio_offset) 512 = content s sv fb.
Proof.
  destruct (content_block s sv fb Hok Hf) as [Hl _].
  rewrite Hoff. rewrite <-(Z.add_0_r (Z.of_nat fb * 512)). change 0 with (Z.of_nat 0).
  rewrite file_bytes_block by (done || lia). rewrite drop_0. apply take_ge. lia.
Qed.

Lemma blockio_read : u.(uio_dir) = UIO_READ →
  ∃ e m' u' s' sv', sfs_blockio cur m u s sv = Ret (e, m', u', s', sv') ∧
    same_but_io s s' ∧ sv' = sv ∧ io_fails UIO_READ s s' (u.(uio_offset) + u.(uio_resid)) e ∧
    (e = 0 → read_step cur m u s sv 512 m' u' s' sv').
Proof.
  intros Hdir. unfold sfs_blockio. rewrite Hdir, whole_fileblock. change (is_write UIO_READ) with false.
  destruct (bmap_content s sv fb false Hok Hf) as (e & b & s1 & sv1 & -> & Hok1 & Hf1 & _ & Hc & Hsame & He & Hq).
  destruct (Hsame eq_refl) as [Hs1 ->]. cbn [mbind res_bind].
  pose proof (whole_fails UIO_READ s1 e false eq_refl Hq) as Hfail.
  destruct (Z.eqb_spec e 0) as [->|]; cbn [negb]; [|by eexists _, _, _, _, _].
  assert (∀ s' e, same_but_io s1 s' → (quiet s1 → e = 0) → io_fails UIO_READ s s' (uio_offset u + uio_resid u) e) as Hfail'.
  { intros s' e Hs' He' [Hqs _]%Hq. split; [by apply Hs'|]. by rewrite (He' Hqs). }
  destruct (He eq_refl) as (_ & _ & Hhole & Hblk). destruct (Z.eqb_spec b 0) as [->|Hne].
  - unfold uiomovezeros. rewrite Hdir. cbn [kassert mbind res_bind].
    destruct (movezeros_correct (S (Z.to_nat SFS_BLOCKSIZE)) cur m 512 u) as (m' & u' & Heq & Hm & Ha & Hu');
      [done|done|lia|unfold SFS_BLOCKSIZE; lia|].
    unfold SFS_BLOCKSIZE in *. rewrite bool_decide_eq_true_2 by done. cbn [kassert mbind res_bind].
    rewrite Heq. cbn [mbind res_bind]. eexists _, _, _, _, _. split_and!; [done..|]. intros _.
    split_and!; [done..| |done|done]. rewrite whole_bytes, Hhole by done. done.
  - destruct (Hblk Hne) as [Hr Hcb]. destruct (same_fields _ _ Hs1) as (Hn & _ & Hd).
    unfold SFS_BLOCKSIZE. rewrite u32_id by lia. rewrite (proj2 (Z.leb_le 512 (uio_resid u)) Hres).
    cbn [kassert mbind res_bind].
    destruct (rwblock_read sfs_retries cur m _ s1 b Hok1 (set_range_block cur m u b UIO_READ Hu Hdir Hres) ltac:(lia))
      as (e & m' & u1 & s2 & -> & Hs2 & _ & Hq2 & Hcase).
    cbn [mbind res_bind]. eexists _, _, _, _, _. split; [done|].
    split; [by eapply same_but_io_trans|]. split; [done|]. split; [by apply Hfail'|]. intros ->.
    destruct Hcase as [[? _]|(_ & -> & Ha & Hu1)]; [done|].
    destruct (set_back cur _ u b u1 512 Hu1 resid_32 (ex_intro _ m Hu) Hres ltac:(lia) Ha) as [? ?].
    split_and!; [by eapply same_but_io_trans|done| |done|done]. by rewrite whole_bytes, Hcb.
Qed.

Lemma blockio_write : u.(uio_dir) = UIO_WRITE → mem_ok m →
  ∃ e m' u' s' sv', sfs_blockio cur m u s sv = Ret (e, m', u', s', sv') ∧
    fs_ok s' ∧ file_ok s' sv' ∧ leaves s sv s' sv' ∧ m' = m ∧
    io_fails UIO_WRITE s s' (u.(uio_offset) + u.(uio_resid)) e ∧
    (e = 0 → write_step cur m u s sv 512 m' u' s' sv').
Proof.
  intros Hdir Hmem. unfold sfs_blockio. rewrite Hdir, whole_fileblock. change (is_write UIO_WRITE) with true.
  destruct (bmap_content s sv fb true Hok Hf) as (e & b & s1 & sv1 & -> & Hok1 & Hf1 & Hle1 & Hc & _ & He & Hq).
  pose proof (whole_fails UIO_WRITE s1 e true eq_refl Hq) as Hfail.
  cbn [mbind res_bind]. destruct (Z.eqb_spec e 0) as [->|]; cbn [negb]; [|by eexists _, _, _, _, _].
  destruct (He eq_refl) as (Hent & Hal & _ & Hblk). specialize (Hal eq_refl). destruct (Hblk Hal) as [Hr Hcb].
  destruct (Z.eqb_spec b 0); [done|]. pose proof (le_nblocks _ _ _ _ Hle1).
  unfold SFS_BLOCKSIZE. rewrite u32_id by lia. rewrite (proj2 (Z.leb_le 512 (uio_resid u)) Hres).
  cbn [kassert mbind res_bind].
  destruct (rwblock_write sfs_retries cur m _ s1 b Hok1 (set_range_block cur m u b UIO_WRITE Hu Hdir Hres) ltac:(lia))
    as (e & m' & u1 & s2 & -> & _ & _ & -> & Ha & Hu1 & Hqw & Hcase).
  cbn [mbind res_bind]. eexists _, _, _, _, _. split; [done|].
  destruct (set_back cur _ u b u1 512 Hu1 resid_32 (ex_intro _ m Hu) Hres ltac:(lia) Ha) as [Ha' Hu'].
  cbn [set_range uio_iov] in Hcase. set (d := gather _ _) in Hcase.
  destruct Hcase as [[Hne Hs2]|[-> Hs2]].
  - destruct (same_but_io_keeps s1 sv1 s2 Hok1 Hf1 Hs2) as (? & ? & Hk2 & He2). split_and!; try done.
    + eapply leaves_trans; [done|]. apply keeps_leaves; [done|]. by apply foreign_same, slots_entries.
    + intros [Hqs _]%Hq. by pose proof (Hqw Hqs).
  - assert (length d = 512%nat) as Hdl.
    { unfold d. rewrite gather_length, length_take. destruct Hu as (_ & ? & _). lia. }
    destruct (data_write s1 sv1 fb b d s2 Hok1 Hf1 Hent Hal) as (? & ? & Hle2 & Hc2); [|done|].
    { split; [done|]. by apply gather_bytes. }
    assert (leaves s sv s2 sv1) by (by eapply leaves_trans). split_and!; try done.
    { intros [Hqs _]%Hq. split; [by apply Hs2|done]. }
    intros _. split_and!; try done.
    apply (write_bytes_block cur m u s sv fb 0 512); try done; try lia.
    intros fb'. rewrite Hc2. case_decide; [|apply Hc]. fold d. unfold splice. rewrite take_0, Hdl.
    destruct (content_block s sv fb Hok Hf) as [Hcl _]. rewrite drop_ge by (rewrite Hcl; lia). by rewrite app_nil_r.
Qed.
End whole.

(** ** Both directions *)

(** What holds before each step of [sfs_io]. *)
Record ready (cur : option positive) (m : memory) (u : uio) (s : sfs_fs) (sv : sfs_vnode) : Prop := Ready {
  re_fs : fs_ok s;
  re_file : file_ok s sv;
  re_uio : uio_ok cur m u;
  re_disk : s.(sb_nblocks) ≤ 2 ^ 23;
  re_pos : 0 ≤ u.(uio_offset) ∧ u.(uio_offset) + u.(uio_resid) < 2 ^ 32;
  re_mem : u.(uio_dir) = UIO_WRITE → mem_ok m
}.

Definition io_step (cur : option positive) (m : memory) (u : uio) (s : sfs_fs) (sv : sfs_vnode) (k : nat)
    (m' : memory) (u' : uio) (s' : sfs_fs) (sv' : sfs_vnode) : Prop :=
  match u.(uio_dir) with
  | UIO_READ => read_step cur m u s sv k m' u' s' sv'
  | UIO_WRITE => write_step cur m u s sv k m' u' s' sv'
  end.

(** What holds also when a step has failed. *)
Definition io_safe (rw : uio_rw) (m : memory) (s : sfs_fs) (sv : sfs_vnode)
    (m' : memory) (s' : sfs_fs) (sv' : sfs_vnode) : Prop :=
  match rw with
  | UIO_READ => same_but_io s s' ∧ sv' = sv
  | UIO_WRITE => fs_ok s' ∧ file_ok s' sv' ∧ leaves s sv s' sv' ∧ m' = m
  end.

Lemma io_step_advanced cur m u s sv k m' u' s' sv' : io_step cur m u s sv k m' u' s' sv' →
  advanced u k u' ∧ uio_ok cur m' u'.
Proof.
  unfold io_step. destruct (u.(uio_dir)); [by intros (_ & _ & _ & ? & ?)|].
  by intros (_ & _ & _ & -> & ? & ? & _).
Qed.

Lemma io_step_safe cur m u s sv k m' u' s' sv' : io_step cur m u s sv k m' u' s' sv' →
  io_safe u.(uio_dir) m s sv m' s' sv'.
Proof.
  unfold io_step, io_safe. destruct (u.(uio_dir)); [by intros (? & ? & _)|]. by intros (? & ? & ? & ? & _).
Qed.

Lemma io_safe_trans rw m s sv m1 s1 sv1 m2 s2 sv2 : io_safe rw m s sv m1 s1 sv1 →
  io_safe rw m1 s1 sv1 m2 s2 sv2 → io_safe rw m s sv m2 s2 sv2.
Proof.
  unfold io_safe. destruct rw.
  - intros [? ->] [? ->]. split; [by eapply same_but_io_trans|done].
  - intros (_ & _ & ? & ->) (? & ? & ? & ->). split_and!; try done. by eapply leaves_trans.
Qed.

Lemma leaves_refl s sv : leaves s sv s sv.
Proof. constructor; try done. by intros b. Qed.

Lemma io_step_refl cur m u s sv : ready cur m u s sv → io_step cur m u s sv 0 m u s sv.
Proof.
  intros []. destruct (moved_none m [] 0 u) as [_ Ha]. unfold io_step. destruct (u.(uio_dir)).
  - split_and!; try done. by apply same_but_io_refl.
  - split_and!; try done; [apply leaves_refl|]. intros pos Hpos. rewrite decide_False by lia. done.
Qed.

Lemma io_step_ready cur m u s sv k m' u' s' sv' : ready cur m u s sv → io_step cur m u s sv k m' u' s' sv' →
  Z.of_nat k ≤ u.(uio_resid) → ready cur m' u' s' sv' ∧ u'.(uio_dir) = u.(uio_dir) ∧
  u'.(uio_offset) = u.(uio_offset) + Z.of_nat k ∧ u'.(uio_resid) = u.(uio_resid) - Z.of_nat k.
Proof.
  intros [Hok Hf Hu Hd Hp Hm] Hst Hk. destruct (io_step_advanced _ _ _ _ _ _ _ _ _ _ Hst) as [Ha Hu'].
  destruct Ha as (_ & Ho & Hr & _ & Hdir & _). split; [|done].
  assert (fs_ok s' ∧ file_ok s' sv' ∧ s'.(sb_nblocks) = s.(sb_nblocks) ∧ (u'.(uio_dir) = UIO_WRITE → mem_ok m'))
    as (Hok' & Hf' & Hn & Hm').
  { rewrite Hdir. unfold io_step in Hst. destruct (u.(uio_dir)) eqn:Hd0.
    - destruct Hst as (Hs & -> & _). destruct (same_but_io_keeps s sv s' Hok Hf Hs) as (? & ? & Hk' & _).
      split_and!; try done. by apply ke_nblocks in Hk'.
    - destruct Hst as (? & ? & Hl & -> & _). split_and!; try done. by apply le_nblocks in Hl. }
  constructor; try done; [by rewrite Hn|]. lia.
Qed.

Lemma io_step_add cur m u s sv k1 k2 m1 u1 s1 sv1 m2 u2 s2 sv2 : ready cur m u s sv →
  Z.of_nat (k1 + k2) ≤ u.(uio_resid) →
  io_step cur m u s sv k1 m1 u1 s1 sv1 → io_step cur m1 u1 s1 sv1 k2 m2 u2 s2 sv2 →
  io_step cur m u s sv (k1 + k2) m2 u2 s2 sv2.
Proof.
  intros Hr Hk H1 H2. destruct (io_step_advanced _ _ _ _ _ _ _ _ _ _ H1) as [(_ & _ & _ & _ & Hd & _) _].
  unfold io_step in *. rewrite Hd in H2. pose proof (re_uio _ _ _ _ _ Hr) as (_ & ? & _).
  destruct (u.(uio_dir)).
  - eapply read_step_add; [apply Hr|apply Hr|lia|done..].
  - eapply write_step_add; [lia|done..].
Qed.

Lemma partialio_step cur m u s sv fb skip len : ready cur m u s sv →
  u.(uio_offset) = Z.of_nat fb * 512 + Z.of_nat skip → (0 < skip + len ≤ 512)%nat → (skip < 512)%nat →
  Z.of_nat len ≤ u.(uio_resid) →
  ∃ e m' u' s' sv', sfs_partialio cur m u s sv (Z.of_nat skip) (Z.of_nat len) = Ret (e, m', u', s', sv') ∧
    io_safe u.(uio_dir) m s sv m' s' sv' ∧
    io_fails u.(uio_dir) s s' (u.(uio_offset) + u.(uio_resid)) e ∧
    (e = 0 → io_step cur m u s sv len m' u' s' sv').
Proof.
  intros [Hok Hf Hu Hbig Hpos Hm] Hoff Hl Hs Hr. pose proof Hu as (_ & ? & _).
  unfold io_safe, io_step. destruct (u.(uio_dir)) eqn:Hd.
  - destruct (partialio_read cur m u s sv fb skip len Hok Hf Hu Hoff ltac:(lia) Hl Hs Hr Hd)
      as (e & m' & u' & s' & sv' & ? & ? & ? & ? & ?). by exists e, m', u', s', sv'.
  - destruct (partialio_write cur m u s sv fb skip len Hok Hf Hu Hoff ltac:(lia) Hl Hs Hr Hd (Hm eq_refl))
      as (e & m' & u' & s' & sv' & ? & ? & ? & ? & ? & ? & ?). exists e, m', u', s', sv'. by split_and!.
Qed.

Lemma blockio_step cur m u s sv fb : ready cur m u s sv →
  u.(uio_offset) = Z.of_nat fb * 512 → 512 ≤ u.(uio_resid) →
  ∃ e m' u' s' sv', sfs_blockio cur m u s sv = Ret (e, m', u', s', sv') ∧
    io_safe u.(uio_dir) m s sv m' s' sv' ∧
    io_fails u.(uio_dir) s s' (u.(uio_offset) + u.(uio_resid)) e ∧
    (e = 0 → io_step cur m u s sv 512 m' u' s' sv').
Proof.
  intros [Hok Hf Hu Hbig Hpos Hm] Hoff Hr. pose proof Hu as (_ & ? & _).
  unfold io_safe, io_step. destruct (u.(uio_dir)) eqn:Hd.
  - destruct (blockio_read cur m u s sv fb Hok Hf Hu Hbig Hoff ltac:(lia) Hr Hd)
      as (e & m' & u' & s' & sv' & ? & ? & ? & ? & ?). by exists e, m', u', s', sv'.
  - destruct (blockio_write cur m u s sv fb Hok Hf Hu Hbig Hoff ltac:(lia) Hr Hd (Hm eq_refl))
      as (e & m' & u' & s' & sv' & ? & ? & ? & ? & ? & ? & ?). exists e, m', u', s', sv'. by split_and!.
Qed.

Lemma io_fails_refl rw s pos : io_fails rw s s pos 0.
Proof. by intros Hq. Qed.

Lemma io_fails_trans rw s s1 s2 pos pos' e : pos' = pos → io_fails rw s s1 pos 0 → io_fails rw s1 s2 pos' e →
  io_fails rw s s2 pos e.
Proof. intros -> H1 H2 Hq. apply H2. by apply H1. Qed.

Lemma blocks_loop_step n cur m u s sv fb : ready cur m u s sv →
  u.(uio_offset) = Z.of_nat fb * 512 → Z.of_nat (512 * n) ≤ u.(uio_resid) →
  ∃ e m' u' s' sv', blocks_loop n cur m u s sv = Ret (e, m', u', s', sv') ∧
    io_safe u.(uio_dir) m s sv m' s' sv' ∧
    io_fails u.(uio_dir) s s' (u.(uio_offset) + u.(uio_resid)) e ∧
    (e = 0 → io_step cur m u s sv (512 * n) m' u' s' sv').
Proof.
  revert m u s sv fb. induction n as [|n IH]; intros m u s sv fb Hre Hoff Hn; cbn [blocks_loop].
  { rewrite Nat.mul_0_r. pose proof (io_step_refl _ _ _ _ _ Hre) as Hst. eexists _, _, _, _, _.
    split; [done|]. split_and!; [by eapply io_step_safe|apply io_fails_refl|done]. }
  destruct (blockio_step cur m u s sv fb Hre Hoff ltac:(lia)) as (e & m1 & u1 & s1 & sv1 & -> & Hsafe & Hfail & Hst).
  cbn [mbind res_bind]. destruct (Z.eqb_spec e 0) as [->|]; cbn [negb]; [|by eexists _, _, _, _, _].
  specialize (Hst eq_refl). destruct (io_step_ready _ _ _ _ _ _ _ _ _ _ Hre Hst) as (Hre1 & Hd1 & Ho1 & Hr1); [lia|].
  destruct (IH m1 u1 s1 sv1 (S fb) Hre1) as (e & m2 & u2 & s2 & sv2 & -> & Hsafe2 & Hfail2 & Hst2); [lia|lia|].
  eexists _, _, _, _, _. split; [done|]. rewrite Hd1 in Hsafe2, Hfail2.
    split_and!; [by eapply io_safe_trans|eapply io_fails_trans; [|done..]; lia|].
  intros He. replace (512 * S n)%nat with (512 + 512 * n)%nat by lia.
  eapply io_step_add; [done|lia|done|by apply Hst2].
Qed.

(** A partial block at the end, after the whole blocks. *)
Lemma tail_step cur m u s sv fb : ready cur m u s sv → u.(uio_offset) = Z.of_nat fb * 512 →
  ∃ e m' u' s' sv',
    io_tail cur m u s sv = Ret (e, m', u', s', sv') ∧
    io_safe u.(uio_dir) m s sv m' s' sv' ∧
    io_fails u.(uio_dir) s s' (u.(uio_offset) + u.(uio_resid)) e ∧
    (e = 0 → io_step cur m u s sv (Z.to_nat u.(uio_resid)) m' u' s' sv').
Proof.
  intros Hre Hoff. pose proof (re_uio _ _ _ _ _ Hre) as (_ & Hr & _). unfold io_tail, SFS_BLOCKSIZE. cbv zeta.
  set (n := Z.to_nat (u.(uio_resid) / 512)).
  assert (Z.of_nat (512 * n) ≤ u.(uio_resid) ∧ u.(uio_resid) < Z.of_nat (512 * n) + 512) as [Hn1 Hn2]
    by (unfold n; zdiv_lia).
  destruct (blocks_loop_step n cur m u s sv fb Hre Hoff Hn1) as (e & m1 & u1 & s1 & sv1 & -> & Hsafe & Hfail & Hst).
  cbn [mbind res_bind]. destruct (Z.eqb_spec e 0) as [->|]; cbn [negb]; [|by eexists _, _, _, _, _].
  specialize (Hst eq_refl). destruct (io_step_ready _ _ _ _ _ _ _ _ _ _ Hre Hst Hn1) as (Hre1 & Hd1 & Ho1 & Hr1).
  rewrite (proj2 (Z.ltb_lt u1.(uio_resid) 512)) by lia. cbn [kassert mbind res_bind].
  destruct (Z.ltb_spec 0 u1.(uio_resid)).
  - destruct (partialio_step cur m1 u1 s1 sv1 (fb + n) 0 (Z.to_nat u1.(uio_resid)) Hre1)
      as (e & m2 & u2 & s2 & sv2 & Heq & Hsafe2 & Hfail2 & Hst2); [lia..|].
    rewrite Z2Nat.id in Heq by lia. change (Z.of_nat 0) with 0 in Heq. rewrite Heq.
    eexists _, _, _, _, _. split; [done|]. rewrite Hd1 in Hsafe2, Hfail2.
    split_and!; [by eapply io_safe_trans|eapply io_fails_trans; [|done..]; lia|].
    intros He. replace (Z.to_nat u.(uio_resid)) with (512 * n + Z.to_nat u1.(uio_resid))%nat by lia.
    eapply io_step_add; [done|lia|done|by apply Hst2].
  - eexists _, _, _, _, _. split_and!; [done..|]. intros _.
    by replace (Z.to_nat u.(uio_resid)) with (512 * n)%nat by lia.
Qed.

Lemma io_body_step cur m u s sv : ready cur m u s sv →
  ∃ e m' u' s' sv', io_body cur m u s sv = Ret (e, m', u', s', sv') ∧
    io_safe u.(uio_dir) m s sv m' s' sv' ∧
    io_fails u.(uio_dir) s s' (u.(uio_offset) + u.(uio_resid)) e ∧
    (e = 0 → io_step cur m u s sv (Z.to_nat u.(uio_resid)) m' u' s' sv').
Proof.
  intros Hre. pose proof (re_uio _ _ _ _ _ Hre) as (_ & Hr & _). pose proof (re_pos _ _ _ _ _ Hre) as [Hp _].
  unfold io_body. set (fb := Z.to_nat (u.(uio_offset) / 512)). set (skip := Z.to_nat (u.(uio_offset) mod 512)).
  assert (u.(uio_offset) = Z.of_nat fb * 512 + Z.of_nat skip ∧ (skip < 512)%nat) as [Hoff Hskip]
    by (unfold fb, skip; zdiv_lia).
  assert (u.(uio_offset) mod SFS_BLOCKSIZE = Z.of_nat skip) as -> by (unfold skip, SFS_BLOCKSIZE; zdiv_lia).
  destruct (Z.eqb_spec (Z.of_nat skip) 0) as [H0|H0]; cbn [negb].
  - cbn [mbind res_bind Z.eqb negb]. destruct (Z.eqb_spec u.(uio_resid) 0) as [Hr0|Hr0].
    { rewrite Hr0. pose proof (io_step_refl _ _ _ _ _ Hre) as Hst. eexists _, _, _, _, _.
      split; [done|]. split_and!; [by eapply io_step_safe|apply io_fails_refl|done]. }
    replace (u.(uio_offset) mod SFS_BLOCKSIZE =? 0) with true
      by (symmetry; apply Z.eqb_eq; unfold SFS_BLOCKSIZE; zdiv_lia).
    cbn [kassert mbind res_bind]. apply (tail_step cur m u s sv fb Hre). lia.
  - set (len := Z.to_nat (if 512 - Z.of_nat skip >? u.(uio_resid) then u.(uio_resid) else 512 - Z.of_nat skip)).
    assert ((if SFS_BLOCKSIZE - Z.of_nat skip >? u.(uio_resid) then u.(uio_resid)
             else SFS_BLOCKSIZE - Z.of_nat skip) = Z.of_nat len) as ->
      by (unfold len, SFS_BLOCKSIZE; case_cmp; lia).
    assert ((0 < skip + len ≤ 512)%nat ∧ Z.of_nat len ≤ u.(uio_resid) ∧
            (Z.of_nat len < u.(uio_resid) → (skip + len)%nat = 512%nat)) as (Hl1 & Hl2 & Hl3)
      by (unfold len; case_cmp; lia).
    destruct (partialio_step cur m u s sv fb skip len Hre Hoff Hl1 Hskip Hl2)
      as (e & m1 & u1 & s1 & sv1 & -> & Hsafe & Hfail & Hst).
    cbn [mbind res_bind]. destruct (Z.eqb_spec e 0) as [->|]; cbn [negb]; [|by eexists _, _, _, _, _].
    specialize (Hst eq_refl). destruct (io_step_ready _ _ _ _ _ _ _ _ _ _ Hre Hst Hl2) as (Hre1 & Hd1 & Ho1 & Hr1).
    destruct (Z.eqb_spec u1.(uio_resid) 0).
    { eexists _, _, _, _, _. split_and!; [done..|]. intros _.
      by replace (Z.to_nat u.(uio_resid)) with len by lia. }
    specialize (Hl3 ltac:(lia)).
    replace (u1.(uio_offset) mod SFS_BLOCKSIZE =? 0) with true
      by (symmetry; apply Z.eqb_eq; unfold SFS_BLOCKSIZE; zdiv_lia).
    cbn [kassert mbind res_bind].
    destruct (tail_step cur m1 u1 s1 sv1 (S fb) Hre1 ltac:(lia)) as (e & m2 & u2 & s2 & sv2 & -> & Hsafe2 & Hfail2 & Hst2).
    eexists _, _, _, _, _. split; [done|]. rewrite Hd1 in Hsafe2, Hfail2.
    split_and!; [by eapply io_safe_trans|eapply io_fails_trans; [|done..]; lia|].
    intros He. replace (Z.to_nat u.(uio_resid)) with (len + Z.to_nat u1.(uio_resid))%nat by lia.
    eapply io_step_add; [done|lia|done|by apply Hst2].
Qed.

(** ** [sfs_io] *)

Lemma file_ok_size s sv n : file_ok s sv → file_ok s (set_size sv n).
Proof. intros []. by constructor. Qed.

Lemma ready_range cur m u s sv resid : ready cur m u s sv → 0 ≤ resid ≤ u.(uio_resid) →
  ready cur m (set_range u u.(uio_offset) resid) s sv.
Proof.
  intros [? ? (? & ? & ? & ?) ? ? ?] Hr. constructor; try done.
  - unfold uio_ok, set_range. cbn [uio_iov uio_resid uio_segflg uio_space]. split_and!; (done || lia).
  - unfold set_range. cbn [uio_offset uio_resid]. lia.
Qed.

Lemma io_read_correct cur m u s sv : ready cur m u s sv → u.(uio_dir) = UIO_READ → 0 ≤ sv.(sv_i).(sfi_size) →
  let n := Z.to_nat (Z.min u.(uio_resid) (sv.(sv_i).(sfi_size) - u.(uio_offset))) in
  ∃ e m' u' s', sfs_io cur m u s sv = Ret (e, m', u', s', sv) ∧ same_but_io s s' ∧
    (quiet s → sv.(sv_i).(sfi_size) ≤ 73216 → e = 0) ∧
    (e = 0 → m' = pour m (take n (iov_addrs u.(uio_iov))) (file_bytes s sv u.(uio_offset) n) ∧ advanced u n u').
Proof.
  intros Hre Hdir Hsz n. pose proof Hre as [Hok _ (_ & Hr & _) _ _ _]. unfold sfs_io. rewrite Hdir.
  change (negb (is_write UIO_READ)) with true. change (is_write UIO_READ) with false. cbn [andb].
  set (size := sv.(sv_i).(sfi_size)) in *.
  destruct (Z.leb_spec size u.(uio_offset)).
  { eexists _, _, _, _. split_and!; [done|by apply same_but_io_refl|done|]. intros _.
    replace n with 0%nat by lia. split; [done|]. by destruct (moved_none m [] 0 u). }
  set (extra := if u.(uio_offset) + u.(uio_resid) >? size then u.(uio_offset) + u.(uio_resid) - size else 0).
  assert (0 ≤ extra ≤ u.(uio_resid) ∧ n = Z.to_nat (u.(uio_resid) - extra) ∧ (extra = 0 ∨ extra < u.(uio_resid)) ∧
    u.(uio_offset) + (u.(uio_resid) - extra) ≤ size) as (Hx & Hn & Hx2 & Hend) by (unfold extra, n; case_cmp; lia).
  replace ((extra =? 0) || (u.(uio_resid) >? extra)) with true.
  2: { symmetry. apply orb_true_iff. destruct Hx2; [left; by apply Z.eqb_eq|right].
       apply Z.gtb_lt. lia. }
  cbn [kassert mbind res_bind].
  destruct (io_body_step cur m _ s sv (ready_range _ _ _ _ _ (u.(uio_resid) - extra) Hre ltac:(lia)))
    as (e & m' & u' & s' & sv' & -> & Hsafe & Hfail & Hst).
  unfold io_safe, io_step in *. cbn [set_range uio_iov uio_offset uio_resid uio_dir] in *. rewrite Hdir in *.
  destruct Hsafe as [Hs ->]. cbn [mbind res_bind].
  rewrite andb_false_r. cbn [andb].
  eexists _, _, _, _. split_and!; [done|done| |].
  - intros Hq Hmax. destruct (Hfail Hq) as [_ He]. destruct (decide (e = 0)); [done|].
    destruct (He n0) as [[_ ?]|[_ ?]]; [done|lia].
  - intros He. destruct (Hst He) as (_ & _ & -> & (? & ? & ? & ? & ? & ?) & _).
    cbn [set_range uio_iov uio_offset uio_resid uio_segflg uio_dir uio_space] in *. rewrite <- Hn in *.
    split; [done|]. unfold advanced. cbn [set_range uio_iov uio_offset uio_resid uio_segflg uio_dir uio_space].
    split_and!; (done || lia || congruence).
Qed.

(** What a write leaves of the blocks of other files: they stay allocated and as they were. *)
Definition others_kept (s : sfs_fs) (sv : sfs_vnode) (s' : sfs_fs) : Prop :=
  ∀ b, 0 ≤ b → used s b = true → b ∉ slots s sv →
    used s' b = true ∧ s'.(sfs_disk) !!! Z.to_nat b = s.(sfs_disk) !!! Z.to_nat b.

Lemma io_write_correct cur m u s sv : ready cur m u s sv → u.(uio_dir) = UIO_WRITE →
  let n := Z.to_nat u.(uio_resid) in
  let endpos := u.(uio_offset) + u.(uio_resid) in
  ∃ e u' s' sv', sfs_io cur m u s sv = Ret (e, m, u', s', sv') ∧
    fs_ok s' ∧ file_ok s' sv' ∧ others_kept s sv s' ∧ s'.(sb_nblocks) = s.(sb_nblocks) ∧
    (quiet s → quiet s') ∧
    (quiet s → e ≠ 0 → no_space e s' ∨ e = EFBIG ∧ 73216 < endpos) ∧
    (e = 0 → advanced u n u' ∧
       sv'.(sv_i).(sfi_size) =
         (if u.(uio_resid) =? 0 then sv.(sv_i).(sfi_size) else Z.max sv.(sv_i).(sfi_size) endpos) ∧
       ∀ pos, 0 ≤ pos → file_byte s' sv' pos =
         if decide (u.(uio_offset) ≤ pos < endpos)
         then gather m (take n (iov_addrs u.(uio_iov))) !!! Z.to_nat (pos - u.(uio_offset))
         else file_byte s sv pos).
Proof.
  intros Hre Hdir n endpos. pose proof Hre as [Hok _ (_ & Hr & _) _ Hpos _]. unfold sfs_io. rewrite Hdir.
  change (negb (is_write UIO_WRITE)) with false. change (is_write UIO_WRITE) with true.
  cbn [andb orb kassert mbind res_bind Z.eqb].
  destruct (io_body_step cur m _ s sv (ready_range _ _ _ _ _ (u.(uio_resid) - 0) Hre ltac:(lia)))
    as (e & m' & u' & s' & sv' & -> & Hsafe & Hfail & Hst).
  unfold io_safe, io_step in *. cbn [set_range uio_iov uio_offset uio_resid uio_dir] in *. rewrite Hdir in *.
  destruct Hsafe as (Hok' & Hf' & Hle & ->). cbn [mbind res_bind]. rewrite Z.sub_0_r in *. fold endpos in Hfail.
  eexists _, _, _, _. split; [done|]. split_and!; [done| | |by eapply le_nblocks|by intros []%Hfail| |].
  - case_match; [by apply file_ok_size|done].
  - intros b ? ? ?. split; [by eapply le_used|by eapply le_disk].
  - intros Hq He. destruct (Hfail Hq) as [_ Hx]. destruct (Hx He) as [[? _]|?]; [by left|by right].
  - intros He. destruct (Hst He) as (_ & _ & _ & _ & (? & Ho & Hr' & ? & ? & ?) & _ & Hb).
    cbn [set_range uio_iov uio_offset uio_resid uio_segflg uio_dir uio_space] in *.
    destruct (le_inode _ _ _ _ Hle) as (_ & Hsz & _). rewrite Z2Nat.id in * by lia.
    split_and!.
    + unfold advanced. cbn [set_range uio_iov uio_offset uio_resid uio_segflg uio_dir uio_space].
      fold n in Ho, Hr'. split_and!; (done || lia || congruence).
    + rewrite Hr', Ho, Hsz. rewrite andb_true_r. fold endpos. destruct (Z.eqb_spec u.(uio_resid) 0) as [->|].
      { rewrite Z.sub_0_r. rewrite (proj2 (Z.eqb_eq _ _)) by lia. done. }
      rewrite (proj2 (Z.eqb_neq _ _)) by lia. cbn [negb andb]. destruct (Z.gtb_spec endpos sv.(sv_i).(sfi_size)).
      * change (u32 endpos = Z.max sv.(sv_i).(sfi_size) endpos). rewrite u32_id by lia. lia.
      * rewrite Hsz. lia.
    + intros pos Hp. rewrite <- Hb by done. case_match; done.
Qed.

Lemma file_bytes_eq s sv pos n xs : length xs = n →
  (∀ i, 0 ≤ i < Z.of_nat n → file_byte s sv (pos + i) = xs !!! Z.to_nat i) → file_bytes s sv pos n = xs.
Proof.
  intros <- H. apply list_eq_same_length with (length xs); [done|apply file_bytes_length|].
  intros i x y Hi Hx Hy. rewrite file_bytes_lookup in Hx by done. injection Hx as <-.
  rewrite H by lia. rewrite Nat2Z.id. by apply list_lookup_total_correct.
Qed.

(** ** Properties *)

(** Three bytes at address 10, and room for three at address 20. *)
Definition small_mem : memory := {[10 := 1; 11 := 2; 12 := 3; 20 := 0; 21 := 0; 22 := 0]}.

Definition small_uio (base offset : Z) (rw : uio_rw) : uio :=
  Uio [Iovec base 3] offset 3 UIO_USERSPACE rw (Some 1%positive).

Lemma small_uio_ok base offset rw : base = 10 ∨ base = 20 → uio_ok (Some 1%positive) small_mem (small_uio base offset rw).
Proof.
  intros Hb. assert (length (iov_addrs (small_uio base offset rw).(uio_iov)) = 3%nat) as Hl.
  { cbn [small_uio uio_iov]. by rewrite iov_addrs_cons, app_nil_r, length_seqZ. }
  unfold uio_ok. rewrite Hl. split_and!; [|done..].
  repeat constructor; cbn; try lia; [|intros _; unfold USERSPACETOP; lia].
  intros k Hk. assert (k = 10 ∨ k = 11 ∨ k = 12 ∨ k = 20 ∨ k = 21 ∨ k = 22) as Hc by lia.
  by repeat destruct Hc as [-> |Hc]; [..|rewrite Hc]; eexists.
Qed.

Lemma small_ready base offset rw : base = 10 ∨ base = 20 → 0 ≤ offset < 73000 →
  ready (Some 1%positive) small_mem (small_uio base offset rw) small_fs small_file.
Proof.
  intros Hb Ho. constructor; [apply small_fs_ok|apply small_file_ok|by apply small_uio_ok|cbn; lia|cbn; lia|].
  intros _. unfold mem_ok, small_mem. repeat apply map_Forall_insert_2; try lia. apply map_Forall_empty.
Qed.
(** Reading [n] bytes (as many as were asked for and there are before the
    end of the file) puts the bytes of the file into the ranges of the uio and
    advances the uio by [n]; the volume is left as it is, whatever errors the
    disk reports; and when the disk reports none the read succeeds. *)
Theorem sfs_io_read cur m u s sv : ready cur m u s sv → u.(uio_dir) = UIO_READ → 0 ≤ sv.(sv_i).(sfi_size) →
  let n := Z.to_nat (Z.min u.(uio_resid) (sv.(sv_i).(sfi_size) - u.(uio_offset))) in
  ∃ e m' u' s', sfs_io cur m u s sv = Ret (e, m', u', s', sv) ∧ same_but_io s s' ∧
    (quiet s → sv.(sv_i).(sfi_size) ≤ 73216 → e = 0) ∧
    (e = 0 → m' = pour m (take n (iov_addrs u.(uio_iov))) (file_bytes s sv u.(uio_offset) n) ∧ advanced u n u').
Proof. apply io_read_correct. Qed.

Lemma sfs_io_read_witness :
  let sv := set_size small_file 512 in
  let u := small_uio 20 510 UIO_READ in
  ∃ e m' u' s', sfs_io (Some 1%positive) small_mem u small_fs sv = Ret (e, m', u', s', sv) ∧ same_but_io small_fs s' ∧
    (quiet small_fs → 512 ≤ 73216 → e = 0) ∧
    (e = 0 → m' = pour small_mem (take 2 (iov_addrs u.(uio_iov))) (file_bytes small_fs sv 510 2) ∧ advanced u 2 u').
Proof.
  apply (sfs_io_read (Some 1%positive) small_mem (small_uio 20 510 UIO_READ) small_fs (set_size small_file 512));
    [|done|by vm_compute].
  destruct (small_ready 20 510 UIO_READ ltac:(lia) ltac:(lia)). constructor; try done. by apply file_ok_size.
Defined.

(** C19: on a volume of at most 2^23 blocks whose disk completes no write with [EIO], a write
    below 4 GB keeps the volume and the file consistent and the blocks in use by
    other files as they were, whatever errors the reads of the disk report; when it
    returns 0 the file has the bytes of the uio at the positions written, the bytes
    it had everywhere else, and a size that covers both; and when the disk reports
    no errors at all it fails only with [ENOSPC], every block of the volume then being in
    use, or past the largest file. *)
Theorem sfs_io_write cur m u s sv : ready cur m u s sv → u.(uio_dir) = UIO_WRITE →
  let n := Z.to_nat u.(uio_resid) in
  let endpos := u.(uio_offset) + u.(uio_resid) in
  ∃ e u' s' sv', sfs_io cur m u s sv = Ret (e, m, u', s', sv') ∧
    fs_ok s' ∧ file_ok s' sv' ∧ others_kept s sv s' ∧ s'.(sb_nblocks) = s.(sb_nblocks) ∧
    (quiet s → quiet s') ∧
    (quiet s → e ≠ 0 → no_space e s' ∨ e = EFBIG ∧ 73216 < endpos) ∧
    (e = 0 → advanced u n u' ∧
       sv'.(sv_i).(sfi_size) =
         (if u.(uio_resid) =? 0 then sv.(sv_i).(sfi_size) else Z.max sv.(sv_i).(sfi_size) endpos) ∧
       ∀ pos, 0 ≤ pos → file_byte s' sv' pos =
         if decide (u.(uio_offset) ≤ pos < endpos)
         then gather m (take n (iov_addrs u.(uio_iov))) !!! Z.to_nat (pos - u.(uio_offset))
         else file_byte s sv pos).
Proof. apply io_write_correct. Qed.

Lemma sfs_io_write_witness :
  let u := small_uio 10 510 UIO_WRITE in
  ∃ e u' s' sv', sfs_io (Some 1%positive) small_mem u small_fs small_file = Ret (e, small_mem, u', s', sv') ∧
    fs_ok s' ∧ file_ok s' sv' ∧ others_kept small_fs small_file s' ∧ s'.(sb_nblocks) = 40 ∧
    (quiet small_fs → quiet s') ∧
    (quiet small_fs → e ≠ 0 → no_space e s' ∨ e = EFBIG ∧ 73216 < 513) ∧
    (e = 0 → advanced u 3 u' ∧ sv'.(sv_i).(sfi_size) = 513 ∧
       ∀ pos, 0 ≤ pos → file_byte s' sv' pos =
         if decide (510 ≤ pos < 513)
         then gather small_mem (take 3 (iov_addrs u.(uio_iov))) !!! Z.to_nat (pos - 510)
         else file_byte small_fs small_file pos).
Proof.
  apply (sfs_io_write (Some 1%positive) small_mem (small_uio 10 510 UIO_WRITE) small_fs small_file); [|done].
  apply small_ready; lia.
Defined.

(** C20: what is written is read back.  After a write that returned 0, reading as
    many bytes at the same offset, into any other ranges of any address space,
    succeeds when the disk reports no errors and delivers the bytes written. *)
Theorem sfs_write_read cur m u s sv cur2 m2 u2 u' s' sv' :
  ready cur m u s sv → u.(uio_dir) = UIO_WRITE → quiet s → 0 ≤ sv.(sv_i).(sfi_size) ≤ 73216 →
  sfs_io cur m u s sv = Ret (0, m, u', s', sv') →
  uio_ok cur2 m2 u2 → u2.(uio_dir) = UIO_READ →
  u2.(uio_offset) = u.(uio_offset) → u2.(uio_resid) = u.(uio_resid) →
  u.(uio_offset) + u.(uio_resid) ≤ 73216 →
  let n := Z.to_nat u.(uio_resid) in
  ∃ u2' s'', sfs_io cur2 m2 u2 s' sv' =
    Ret (0, pour m2 (take n (iov_addrs u2.(uio_iov))) (gather m (take n (iov_addrs u.(uio_iov)))),
         u2', s'', sv') ∧ advanced u2 n u2' ∧ same_but_io s' s''.
Proof.
  intros Hre Hd Hq Hsz Hrun Hu2 Hd2 Ho Hr Hend n.
  destruct (io_write_correct _ _ _ _ _ Hre Hd) as (e & u1 & s1 & sv1 & Hrun' & Hok & Hf & _ & Hnb & Hq' & _ & Hw).
  rewrite Hrun in Hrun'. injection Hrun' as <- <- <- <-. destruct (Hw eq_refl) as (_ & Hs & Hb).
  pose proof Hre as [_ _ (_ & Hl & _) Hdisk Hpos _].
  assert (ready cur2 m2 u2 s' sv') as Hre2.
  { constructor; try done; [by rewrite Hnb|by rewrite Ho, Hr|congruence]. }
  assert (0 ≤ sv'.(sv_i).(sfi_size) ≤ 73216 ∧
    Z.to_nat (Z.min u2.(uio_resid) (sv'.(sv_i).(sfi_size) - u2.(uio_offset))) = n) as [Hsz' Hn].
  { rewrite Hs, Ho, Hr. unfold n. destruct (Z.eqb_spec u.(uio_resid) 0); lia. }
  destruct (io_read_correct _ _ _ _ _ Hre2 Hd2 ltac:(lia)) as (e & m' & u2' & s'' & -> & Hsame & He & Hrd).
  rewrite Hn in Hrd. specialize (He (Hq' Hq) ltac:(lia)) as ->. destruct (Hrd eq_refl) as [-> Hadv].
  exists u2', s''. split_and!; [|done|done]. repeat f_equal. apply file_bytes_eq.
  - rewrite gather_length, length_take. lia.
  - intros i Hi. rewrite Ho, Hb by lia. rewrite decide_True by lia. f_equal. lia.
Qed.

Lemma small_write : ∃ u' s' sv',
  sfs_io (Some 1%positive) small_mem (small_uio 10 510 UIO_WRITE) small_fs small_file =
    Ret (0, small_mem, u', s', sv').
Proof.
  assert (('(e, _, _, _, _) ← sfs_io (Some 1%positive) small_mem (small_uio 10 510 UIO_WRITE) small_fs small_file;
    Ret e) = Ret 0) as H by (vm_compute; reflexivity).
  destruct (io_write_correct _ _ _ _ _ (small_ready 10 510 UIO_WRITE ltac:(lia) ltac:(lia)) eq_refl)
    as (e & u' & s' & sv' & Hrun & _). rewrite Hrun in *. injection H as ->. by exists u', s', sv'.
Qed.

Lemma sfs_write_read_witness :
  let u2 := small_uio 20 510 UIO_READ in
  ∃ u' s' sv' u2' s'',
    sfs_io (Some 1%positive) small_mem (small_uio 10 510 UIO_WRITE) small_fs small_file = Ret (0, small_mem, u', s', sv') ∧
    sfs_io (Some 1%positive) small_mem u2 s' sv' = Ret (0, pour small_mem [20; 21; 22] [1; 2; 3], u2', s'', sv') ∧
    advanced u2 3 u2' ∧ same_but_io s' s''.
Proof.
  destruct small_write as (u' & s' & sv' & Hrun). exists u', s', sv'.
  destruct (sfs_write_read (Some 1%positive) small_mem (small_uio 10 510 UIO_WRITE) small_fs small_file
    (Some 1%positive) small_mem (small_uio 20 510 UIO_READ) u' s' sv') as (u2' & s'' & H & Ha & Hs);
    [apply small_ready; lia|done|by split|cbn; lia|done|apply small_uio_ok; lia|done|done|done|cbn; lia|].
  assert (gather small_mem (take 3 (iov_addrs (small_uio 10 510 UIO_WRITE).(uio_iov))) = [1; 2; 3]) as Hg by (by vm_compute).
  assert (take 3 (iov_addrs (small_uio 20 510 UIO_READ).(uio_iov)) = [20; 21; 22]) as Ht by (by vm_compute).
  change (Z.to_nat (uio_resid (small_uio 10 510 UIO_WRITE))) with 3%nat in *.
  rewrite Hg, Ht in H. exists u2', s''. exact (conj Hrun (conj H (conj Ha Hs))).
Defined.
