(* ===== verification/SfsDir.v ===== *)
(** * Directories (kern/fs/sfs/sfs_dir.c)

    A directory is a file of 64-byte entries, a block number and a name each; an
    entry whose number is 0 is free.  The operations work on the file through
    [sfs_metaio]; the theorems say that they implement a finite map from names to
    inode numbers. *)

From S2P Require Import Prelude CString UserCopy Uio Bitmap Sfs SfsIo.

(** ** Entries *)

Definition SFS_NAMELEN : Z := 60.
Definition sizeof_direntry : Z := 64.

Record sfs_direntry := Direntry { sfd_ino : Z; sfd_name : list Z }.

(** The entry as the bytes on the disk (the machine is big-endian). *)
Definition direntry_bytes (sd : sfs_direntry) : list Z := word_bytes sd.(sfd_ino) ++ sd.(sfd_name).

Definition direntry_of (b : list Z) : sfs_direntry :=
  Direntry (match words (take 4 b) with w :: _ => w | [] => 0 end) (drop 4 b).

(** ** Operations *)

Definition sfs_readdir (s : sfs_fs) (sv : sfs_vnode) (slot : Z) : res (Z * sfs_direntry * sfs_fs * sfs_vnode) :=
  let actualpos := u32 (slot * sizeof_direntry) in
  '(result, sd, s, sv) ← sfs_metaio s sv actualpos (replicate 64 0) UIO_READ;
  Ret (result, direntry_of sd, s, sv).

Definition sfs_writedir (s : sfs_fs) (sv : sfs_vnode) (slot : Z) (sd : sfs_direntry) : res (Z * sfs_fs * sfs_vnode) :=
  _ ← kassert (0 <=? slot);
  let actualpos := u32 (slot * sizeof_direntry) in
  '(result, _, s, sv) ← sfs_metaio s sv actualpos (direntry_bytes sd) UIO_WRITE;
  Ret (result, s, sv).

Definition sfs_dir_nentries (sv : sfs_vnode) : res Z :=
  _ ← kassert (sv.(sv_i).(sfi_type) =? SFS_TYPE_DIR);
  let size := sv.(sv_i).(sfi_size) in
  if negb (size mod sizeof_direntry =? 0) then Panic else
  Ret (size / sizeof_direntry).

(** What a search has found so far: the inode number and the slot of the name, and
    the last empty slot. *)
Record search := Search { s_ino : Z; s_slot : option Z; s_empty : option Z }.

(** The loop over [n] slots from [i] on; the name is the C string in [name]. *)
Fixpoint findname_loop (n : nat) (s : sfs_fs) (sv : sfs_vnode) (name : list Z) (i : Z) (r : search)
    : res (Z * search * sfs_fs * sfs_vnode) :=
  match n with
  | O => Ret (match r.(s_slot) with Some _ => 0 | None => ENOENT end, r, s, sv)
  | S n' =>
      '(result, tsd, s, sv) ← sfs_readdir s sv i;
      if negb (result =? 0) then Ret (result, r, s, sv) else
      if tsd.(sfd_ino) =? SFS_NOINO then
        findname_loop n' s sv name (i + 1) (Search r.(s_ino) r.(s_slot) (Some i))
      else
        sfd_name ← tsd.(sfd_name).[SFS_NAMELEN - 1 <- 0];
        c ← strcmp sfd_name name;
        if c =? 0 then
          _ ← kassert (bool_decide (r.(s_slot) = None));
          findname_loop n' s sv name (i + 1) (Search tsd.(sfd_ino) (Some i) r.(s_empty))
        else findname_loop n' s sv name (i + 1) r
  end.

Definition sfs_dir_findname (s : sfs_fs) (sv : sfs_vnode) (name : list Z) : res (Z * search * sfs_fs * sfs_vnode) :=
  nentries ← sfs_dir_nentries sv;
  findname_loop (Z.to_nat nentries) s sv name 0 (Search 0 None None).

(** The result, the slot, the file system and the vnode. *)
Definition sfs_dir_link (s : sfs_fs) (sv : sfs_vnode) (name : list Z) (ino : Z)
    : res (Z * option Z * sfs_fs * sfs_vnode) :=
  '(result, r, s, sv) ← sfs_dir_findname s sv name;
  if negb (result =? 0) && negb (result =? ENOENT) then Ret (result, None, s, sv) else
  if result =? 0 then Ret (EEXIST, None, s, sv) else
  len ← strlen name 0;
  if len + 1 >? SFS_NAMELEN then Ret (ENAMETOOLONG, None, s, sv) else
  emptyslot ← (match r.(s_empty) with Some i => Ret i | None => sfs_dir_nentries sv end);
  sfd_name ← strcpy (replicate 60 0) 0 name 0;
  '(result, s, sv) ← sfs_writedir s sv emptyslot (Direntry ino sfd_name);
  Ret (result, Some emptyslot, s, sv).

Definition sfs_dir_unlink (s : sfs_fs) (sv : sfs_vnode) (slot : Z) : res (Z * sfs_fs * sfs_vnode) :=
  sfs_writedir s sv slot (Direntry SFS_NOINO (replicate 60 0)).

(** ** Specification *)

(** The bytes before the first zero. *)
Fixpoint upto_nul (b : list Z) : list Z :=
  match b with
  | [] => []
  | c :: b' => if c =? 0 then [] else c :: upto_nul b'
  end.

(** The name of an entry, cut off to fit. *)
Definition entry_name (sd : sfs_direntry) : list Z := upto_nul (take 59 sd.(sfd_name)).

Definition nentries (sv : sfs_vnode) : Z := sv.(sv_i).(sfi_size) / 64.

Definition dir_entry (s : sfs_fs) (sv : sfs_vnode) (i : Z) : sfs_direntry :=
  direntry_of (file_bytes s sv (64 * i) 64).

(** Slot [i] of the directory binds [name] to [ino]. *)
Definition binds_at (s : sfs_fs) (sv : sfs_vnode) (i : Z) (name : list Z) (ino : Z) : Prop :=
  0 ≤ i < nentries sv ∧ ino ≠ 0 ∧ (dir_entry s sv i).(sfd_ino) = ino ∧ entry_name (dir_entry s sv i) = name.

Definition binds (s : sfs_fs) (sv : sfs_vnode) (name : list Z) (ino : Z) : Prop := ∃ i, binds_at s sv i name ino.

(** A consistent directory: each name appears once. *)
Record dir_ok (s : sfs_fs) (sv : sfs_vnode) : Prop := DirOk {
  do_fs : fs_ok s;
  do_file : file_ok s sv;
  do_type : sv.(sv_i).(sfi_type) = SFS_TYPE_DIR;
  do_size : 0 ≤ sv.(sv_i).(sfi_size) ≤ 73216 ∧ sv.(sv_i).(sfi_size) mod 64 = 0;
  do_names : ∀ i j name x y, binds_at s sv i name x → binds_at s sv j name y → i = j
}.

(** ** Metadata I/O *)

Lemma metaio_read s sv fb skip data : fs_ok s → file_ok s sv → (skip + length data ≤ 512)%nat → (skip < 512)%nat → Z.of_nat fb < 2 ^ 23 →
  let pos := Z.of_nat fb * 512 + Z.of_nat skip in
  ∃ e d' s', sfs_metaio s sv pos data UIO_READ = Ret (e, d', s', sv) ∧ same_but_io s s' ∧
    (quiet s → (fb < 143)%nat → e = 0) ∧ (e = 0 → d' = file_bytes s sv pos (length data)).
Proof.
  intros Hok Hf Hl Hsk Hfb pos. unfold sfs_metaio. change (is_write UIO_READ) with false.
  rewrite (fileblock_u32 fb skip) by (done || unfold pos; lia).
  replace (pos mod SFS_BLOCKSIZE) with (Z.of_nat skip) by (unfold pos, SFS_BLOCKSIZE; zdiv_lia).
  destruct (bmap_content s sv fb false Hok Hf) as (e & b & s1 & sv1 & -> & Hok1 & Hf1 & _ & Hc & Hsame & He & Hq).
  destruct (Hsame eq_refl) as [Hs1 ->]. cbn [mbind res_bind].
  assert (quiet s → (fb < 143)%nat → e = 0) as Hqe.
  { intros Hqs Hlt. destruct (Hq Hqs) as [_ Hne]. destruct (decide (e = 0)) as [|n]; [done|].
    destruct (Hne n) as [[_ ?]|[_ ?]]; [done|lia]. }
  destruct (Z.eqb_spec e 0) as [->|]; cbn [negb]; [|by eexists _, _, _].
  destruct (He eq_refl) as (_ & _ & Hhole & Hblk). destruct (Z.eqb_spec b 0) as [->|Hne].
  - cbn [negb kassert mbind res_bind]. eexists _, _, _. split_and!; [done..|]. intros _.
    unfold pos. rewrite file_bytes_block by done. rewrite Hhole by done. unfold zero_block.
    rewrite drop_replicate, take_replicate. f_equal. lia.
  - destruct (Hblk Hne) as [Hr Hcb].
    destruct (readblock_correct s1 b Hok1 ltac:(lia)) as (e & d & s2 & -> & Hs2 & Hd & Hq2). cbn [mbind res_bind].
    assert (same_but_io s s2) as Hss by (by eapply same_but_io_trans).
    destruct (Z.eqb_spec e 0) as [->|]; cbn [negb].
    2: { eexists _, _, _. split_and!; [done..| |done]. intros [Hqs _]%Hq _. by rewrite (Hq2 Hqs). }
    destruct (Hd eq_refl) as [-> [Hdl _]]. rewrite Hcb in Hdl |- *. rewrite load_correct by lia. cbn [mbind res_bind].
    eexists _, _, _. split_and!; [done..|]. intros _. unfold pos. by rewrite file_bytes_block.
Qed.

Lemma unchanged_dir s sv s' sv' : unchanged s sv s' sv' →
  fs_ok s' ∧ file_ok s' sv' ∧ others_kept s sv s' ∧ s'.(sb_nblocks) = s.(sb_nblocks) ∧
  sv'.(sv_i).(sfi_type) = sv.(sv_i).(sfi_type) ∧ sv'.(sv_i).(sfi_size) = sv.(sv_i).(sfi_size) ∧
  ∀ p, file_byte s' sv' p = file_byte s sv p.
Proof.
  intros [? ? [Hn Hu _ Hd (_ & ? & ? & _)] Hc]. split_and!; try done.
  - intros k ? ? ?. split; auto.
  - intros p. by apply file_byte_same.
Qed.

(** A write that fails changes nothing the file reads as. *)
Lemma metaio_write s sv fb skip data : fs_ok s → file_ok s sv → (skip + length data ≤ 512)%nat → (skip < 512)%nat →
  Z.of_nat fb < 2 ^ 22 → Forall (λ x, 0 ≤ x < 256) data →
  let pos := Z.of_nat fb * 512 + Z.of_nat skip in
  ∃ e s' sv', sfs_metaio s sv pos data UIO_WRITE = Ret (e, data, s', sv') ∧ fs_ok s' ∧ file_ok s' sv' ∧
    others_kept s sv s' ∧ s'.(sb_nblocks) = s.(sb_nblocks) ∧ sv'.(sv_i).(sfi_type) = sv.(sv_i).(sfi_type) ∧
    (quiet s → quiet s' ∧ (e ≠ 0 → no_space e s' ∨ e = EFBIG ∧ (143 ≤ fb)%nat)) ∧ ((143 ≤ fb)%nat → e = EFBIG) ∧
    (e ≠ 0 → sv'.(sv_i).(sfi_size) = sv.(sv_i).(sfi_size) ∧ ∀ p, file_byte s' sv' p = file_byte s sv p) ∧
    (e = 0 → sv'.(sv_i).(sfi_size) = Z.max sv.(sv_i).(sfi_size) (pos + Z.of_nat (length data)) ∧
       ∀ p, 0 ≤ p → file_byte s' sv' p =
         if decide (pos ≤ p < pos + Z.of_nat (length data)) then data !!! Z.to_nat (p - pos) else file_byte s sv p).
Proof.
  intros Hok Hf Hl Hsk Hfb Hbytes pos. unfold sfs_metaio. change (is_write UIO_WRITE) with true.
  rewrite (fileblock_u32 fb skip) by (done || unfold pos; lia).
  replace (pos mod SFS_BLOCKSIZE) with (Z.of_nat skip) by (unfold pos, SFS_BLOCKSIZE; zdiv_lia).
  destruct (fetch_for_write s sv fb Hok Hf) as (e & b & s1 & sv1 & Hrun & Hun1 & Hq & He).
  assert ((143 ≤ fb)%nat → e = EFBIG) as Hbig.
  { destruct (bmap_correct s sv fb true Hok Hf) as (? & ? & ? & ? & Hrun' & _ & ?). rewrite Hrun in Hrun'. by simplify_eq. }
  rewrite Hrun. cbn [mbind res_bind].
  destruct (Z.eqb_spec e 0) as [->|Hne]; cbn [negb].
  2: { destruct (unchanged_dir _ _ _ _ Hun1) as (? & ? & ? & ? & ? & ? & ?). by eexists _, _, _; split_and!. }
  destruct (He eq_refl) as (Hal & e2 & d & s2 & Hread & Hun2 & Hq2 & He2).
  destruct (Z.eqb_spec b 0); [done|]. rewrite Hread. cbn [mbind res_bind].
  destruct (Z.eqb_spec e2 0) as [->|Hne]; cbn [negb].
  2: { destruct (unchanged_dir _ _ _ _ Hun2) as (? & ? & ? & ? & ? & ? & ?). eexists _, _, _. split_and!; try done.
       - by intros [? ->]%Hq2.
       - by intros ?%Hbig. }
  destruct (He2 eq_refl) as [-> Hwr]. destruct (content_block s sv fb Hok Hf) as [Hcl Hcb].
  rewrite store_correct by lia. cbn [mbind res_bind].
  destruct (Hwr (splice (content s sv fb) skip data)) as (e3 & s3 & -> & Hq3 & Hfail3 & Hok3).
  { split; [by rewrite splice_length by lia|by apply splice_bytes]. }
  cbn [mbind res_bind]. destruct (Z.eqb_spec e3 0) as [He3|He3]; cbn [negb].
  2: { destruct (unchanged_dir _ _ _ _ (Hfail3 He3)) as (? & ? & ? & ? & ? & ? & ?). eexists _, _, _. split_and!; try done.
       - by intros [? ->]%Hq3.
       - by intros ?%Hbig. }
  destruct (Hok3 He3) as (Hokk & Hff & [Hn Hu _ Hd (_ & Hz & Hty & _)] & Hc3).
  set (sv2 := if _ >? _ then _ else _). exists 0, s3, sv2.
  assert (∀ p, file_byte s3 sv2 p = file_byte s3 sv1 p) as Hsv2 by (intros; unfold sv2; by destruct (_ >? _)).
  split_and!; try done; [unfold sv2; destruct (_ >? _); [by apply file_ok_size|done]|intros k ? ? ?; split; auto
    |unfold sv2; by destruct (_ >? _)|by intros [? _]%Hq3|]. intros _. split.
  - unfold sv2. destruct (Z.gtb_spec (pos + Z.of_nat (length data)) (sfi_size (sv_i sv1))); cbn; rewrite ?Hz in *; [|lia].
    rewrite u32_id; unfold pos in *; lia.
  - intros p Hp. rewrite Hsv2. by apply (content_splice s sv s3 sv1 fb skip data).
Qed.

(** ** Names and entries *)

Lemma upto_nul_cstr b : Forall (λ x, 0 ≤ x < 256) b → Z.of_nat (length b) < 2 ^ 31 → cstr (b ++ [0]) 0 (upto_nul b).
Proof.
  intros Hb Hl. split_and!; [done|rewrite length_app; cbn; lia| |].
  - clear Hl. induction Hb as [|c b Hc _ IH]; cbn; [done|]. destruct (Z.eqb_spec c 0); [done|]. constructor; [lia|done].
  - clear Hb Hl. rewrite drop_0. induction b as [|c b [rest IH]]; cbn; [by exists []|].
    destruct (Z.eqb_spec c 0) as [->|]; [by eexists|]. exists rest. cbn. by rewrite IH.
Qed.

Lemma upto_nul_id s : Forall (λ c, 0 < c < 256) s → upto_nul s = s.
Proof. induction 1 as [|c s Hc _ IH]; cbn; [done|]. destruct (Z.eqb_spec c 0); [lia|]. by rewrite IH. Qed.

Lemma upto_nul_app s rest : Forall (λ c, 0 < c < 256) s → upto_nul (s ++ 0 :: rest) = s.
Proof.
  induction 1 as [|c s Hc _ IH]; cbn; [done|]. destruct (Z.eqb_spec c 0); [lia|]. by rewrite IH.
Qed.

Lemma direntry_roundtrip sd : 0 ≤ sd.(sfd_ino) < 2 ^ 32 → direntry_of (direntry_bytes sd) = sd.
Proof.
  intros Hi. destruct sd as [ino name]. unfold direntry_of, direntry_bytes. cbn [sfd_ino sfd_name].
  rewrite take_app_length' by done. rewrite drop_app_length' by done. f_equal.
  rewrite <-(app_nil_r (word_bytes ino)). by rewrite word_bytes_word.
Qed.

Lemma word_bytes_bytes w : 0 ≤ w < 2 ^ 32 → Forall (λ x, 0 ≤ x < 256) (word_bytes w).
Proof. intros. unfold word_bytes. repeat constructor; zdiv_lia. Qed.

(** The name of an entry that [sfs_dir_link] has made. *)
Lemma linked_name nb name ino : cstr nb 0 name → (length name < 60)%nat →
  ∃ nm, strcpy (replicate 60 0) 0 nb 0 = Ret nm ∧ length nm = 60%nat ∧ Forall (λ x, 0 ≤ x < 256) nm ∧
    entry_name (Direntry ino nm) = name.
Proof.
  intros Hc Hl. rewrite (strcpy_correct _ _ _ _ name) by (rewrite ?length_replicate; done || lia).
  pose proof Hc as (_ & _ & Hn & _). eexists. split; [done|]. unfold write_str.
  change (Z.to_nat 0) with 0%nat. rewrite take_0, app_nil_l, drop_replicate. split_and!.
  - rewrite length_app. cbn [length]. rewrite length_replicate. lia.
  - apply Forall_app. split; [eapply Forall_impl; [done|]; cbn; lia|].
    constructor; [lia|]. apply Forall_replicate. lia.
  - unfold entry_name. cbn [sfd_name]. rewrite take_app. rewrite (take_ge name) by lia.
    destruct (59 - length name)%nat; cbn [take]; [rewrite app_nil_r; by apply upto_nul_id|by apply upto_nul_app].
Qed.

Lemma dir_entry_wf s sv i : fs_ok s → file_ok s sv → 0 ≤ i →
  length (dir_entry s sv i).(sfd_name) = 60%nat ∧ Forall (λ x, 0 ≤ x < 256) (dir_entry s sv i).(sfd_name).
Proof.
  intros Hok Hf Hi. unfold dir_entry, direntry_of. cbn [sfd_name].
  split; [by rewrite length_drop, file_bytes_length|]. apply Forall_drop.
  unfold file_bytes. apply Forall_fmap, Forall_forall. intros j _. unfold compose, file_byte.
  destruct (content_block s sv (Z.to_nat ((64 * i + Z.of_nat j) / 512)) Hok Hf) as [Hl Hb].
  apply (Forall_lookup_1 _ _ (Z.to_nat ((64 * i + Z.of_nat j) mod 512)) _ Hb), list_lookup_lookup_total_lt.
  rewrite Hl. zdiv_lia.
Qed.

(** The comparison of [sfs_dir_findname]. *)
Lemma compare_name sd nb name : length sd.(sfd_name) = 60%nat → Forall (λ x, 0 ≤ x < 256) sd.(sfd_name) → cstr nb 0 name →
  ∃ b c, sd.(sfd_name).[SFS_NAMELEN - 1 <- 0] = Ret b ∧ strcmp b nb = Ret c ∧ (c = 0 ↔ entry_name sd = name).
Proof.
  intros Hl Hb Hn. exists (take 59 sd.(sfd_name) ++ [0]), (lex (entry_name sd) name). split_and!.
  - rewrite wr_in_range by (rewrite Hl; unfold SFS_NAMELEN; lia). f_equal.
    change (Z.to_nat (SFS_NAMELEN - 1)) with 59%nat.
    rewrite insert_take_drop by lia. f_equal. by rewrite drop_ge by lia.
  - apply strcmp_correct; [|done]. apply upto_nul_cstr; [by apply Forall_take|]. rewrite length_take. lia.
  - apply lex_eq.
Qed.

(** ** Slots *)

(** Entry [i] lies in one block of the file. *)
Lemma slot_pos i : 0 ≤ i ≤ 1144 →
  u32 (i * sizeof_direntry) = Z.of_nat (Z.to_nat (i / 8)) * 512 + Z.of_nat (Z.to_nat (64 * (i mod 8))) ∧
  (Z.to_nat (64 * (i mod 8)) + 64 ≤ 512)%nat ∧ (Z.to_nat (64 * (i mod 8)) < 512)%nat ∧ i * sizeof_direntry = 64 * i.
Proof. intros Hi. unfold sizeof_direntry. rewrite u32_id by lia. split_and!; zdiv_lia. Qed.

Lemma readdir_correct s sv i : fs_ok s → file_ok s sv → 0 ≤ i < 1144 →
  ∃ e sd s', sfs_readdir s sv i = Ret (e, sd, s', sv) ∧ same_but_io s s' ∧ (quiet s → e = 0) ∧
    (e = 0 → sd = dir_entry s sv i).
Proof.
  intros Hok Hf Hi. unfold sfs_readdir. destruct (slot_pos i ltac:(lia)) as (Hp & Hs & Hs' & Hm).
  destruct (metaio_read s sv (Z.to_nat (i / 8)) (Z.to_nat (64 * (i mod 8))) (replicate 64 0))
    as (e & d & s' & Heq & Hsame & Hq & He); [done..| |].
  { zdiv_lia. }
  rewrite Hp, Heq. cbn [mbind res_bind]. eexists _, _, _. split_and!; [done..| |].
  - intros Hqs. apply Hq; [done|]. zdiv_lia.
  - intros He0. rewrite (He He0), <-Hp. unfold dir_entry. f_equal. rewrite u32_id by (unfold sizeof_direntry; lia).
    by rewrite Hm.
Qed.

(** Entry [k] written: the other entries stay. *)
Lemma writedir_correct s sv k sd : fs_ok s → file_ok s sv → 0 ≤ k ≤ 1144 → 0 ≤ sd.(sfd_ino) < 2 ^ 32 →
  length sd.(sfd_name) = 60%nat → Forall (λ x, 0 ≤ x < 256) sd.(sfd_name) →
  ∃ e s' sv', sfs_writedir s sv k sd = Ret (e, s', sv') ∧ fs_ok s' ∧ file_ok s' sv' ∧
    others_kept s sv s' ∧ s'.(sb_nblocks) = s.(sb_nblocks) ∧ sv'.(sv_i).(sfi_type) = sv.(sv_i).(sfi_type) ∧
    (quiet s → quiet s' ∧ (e ≠ 0 → no_space e s' ∨ e = EFBIG ∧ k = 1144)) ∧ (k = 1144 → e = EFBIG) ∧
    (e ≠ 0 → sv'.(sv_i).(sfi_size) = sv.(sv_i).(sfi_size) ∧ ∀ i, dir_entry s' sv' i = dir_entry s sv i) ∧
    (e = 0 → sv'.(sv_i).(sfi_size) = Z.max sv.(sv_i).(sfi_size) (64 * k + 64) ∧
       ∀ i, 0 ≤ i → dir_entry s' sv' i = if decide (i = k) then sd else dir_entry s sv i).
Proof.
  intros Hok Hf Hk Hino Hnl Hnb. unfold sfs_writedir. rewrite (proj2 (Z.leb_le 0 k)) by lia.
  cbn [kassert mbind res_bind]. destruct (slot_pos k Hk) as (Hp & Hs & Hs' & Hm).
  assert (length (direntry_bytes sd) = 64%nat) as Hlen.
  { unfold direntry_bytes. rewrite length_app, Hnl. done. }
  destruct (metaio_write s sv (Z.to_nat (k / 8)) (Z.to_nat (64 * (k mod 8))) (direntry_bytes sd))
    as (e & s' & sv' & Heq & ? & ? & ? & ? & ? & Hq & Hbig & Hfail & Hdone); [done|done|lia|done|zdiv_lia| |].
  { apply Forall_app. split; [by apply word_bytes_bytes|done]. }
  rewrite Hp, Heq. cbn [mbind res_bind]. exists e, s', sv'.
  rewrite <-Hp, u32_id, Hm, Hlen in Hdone by (unfold sizeof_direntry; lia). split_and!; try done.
  - intros [? He]%Hq. split; [done|]. intros [?|[? ?]]%He; [by left|]. right. split; [done|]. zdiv_lia.
  - intros ->. by apply Hbig.
  - intros [? Hb]%Hfail. split; [done|]. intros i. unfold dir_entry, file_bytes. f_equal.
    apply list_fmap_ext. intros. apply Hb.
  - intros [? Hb]%Hdone. split; [done|]. intros i Hi. unfold dir_entry. case_decide as Hik.
    + subst i. rewrite (file_bytes_eq _ _ _ _ (direntry_bytes sd)); [by apply direntry_roundtrip|done|].
      intros j Hj. rewrite Hb by lia. rewrite decide_True by lia. f_equal. lia.
    + f_equal. unfold file_bytes. apply list_fmap_ext. intros j x Hj. apply lookup_seq in Hj as [-> Hj].
      rewrite Hb by lia. by rewrite decide_False by lia.
Qed.

Lemma dir_entry_same s sv s' i : fs_ok s → file_ok s sv → same_but_io s s' → dir_entry s' sv i = dir_entry s sv i.
Proof.
  intros Hok Hf Hs. unfold dir_entry. f_equal. apply file_bytes_same. intros fb.
  destruct (same_but_io_keeps s sv s' Hok Hf Hs) as (_ & _ & Hk & _). by rewrite (ke_content _ _ _ _ Hk).
Qed.

(** The bindings of a directory depend on its size and its entries. *)
Lemma binds_at_ext s sv s' sv' i name x : sv'.(sv_i).(sfi_size) = sv.(sv_i).(sfi_size) →
  dir_entry s' sv' i = dir_entry s sv i → binds_at s' sv' i name x ↔ binds_at s sv i name x.
Proof. intros Hz Hd. unfold binds_at, nentries. by rewrite Hz, Hd. Qed.

Lemma dir_ok_ext s sv s' sv' : dir_ok s sv → fs_ok s' → file_ok s' sv' → sv'.(sv_i).(sfi_type) = sv.(sv_i).(sfi_type) →
  sv'.(sv_i).(sfi_size) = sv.(sv_i).(sfi_size) → (∀ i, dir_entry s' sv' i = dir_entry s sv i) →
  dir_ok s' sv' ∧ ∀ n x, binds s' sv' n x ↔ binds s sv n x.
Proof.
  intros [_ _ Hty Hsz Hnm] Hok Hf Hty' Hz Hd. split.
  - constructor; [done|done|congruence|by rewrite Hz|]. intros i j name x y Hi Hj.
    rewrite (binds_at_ext s sv) in Hi, Hj by done. by eapply Hnm.
  - intros n x. split; intros [i Hi]; exists i; by apply (binds_at_ext s sv s' sv' i n x Hz).
Qed.

(** ** Searching *)

Section Search.
Context (s0 : sfs_fs) (sv : sfs_vnode) (nb name : list Z).
Context (Hd : dir_ok s0 sv) (Hnb : cstr nb 0 name).

(** What the search knows after the first [i] slots. *)
Record found_upto (i : Z) (r : search) : Prop := FoundUpto {
  fu_slot j : r.(s_slot) = Some j → j < i ∧ binds_at s0 sv j name r.(s_ino);
  fu_all j x : j < i → binds_at s0 sv j name x → r.(s_slot) = Some j;
  fu_empty j : r.(s_empty) = Some j → 0 ≤ j < i ∧ (dir_entry s0 sv j).(sfd_ino) = 0;
  fu_full : r.(s_empty) = None → ∀ j, 0 ≤ j < i → (dir_entry s0 sv j).(sfd_ino) ≠ 0
}.

Lemma found_start : found_upto 0 (Search 0 None None).
Proof.
  constructor; cbn; try done.
  - intros j x Hj [? _]. lia.
  - intros _ j Hj. lia.
Qed.

Lemma found_free i r : found_upto i r → 0 ≤ i → (dir_entry s0 sv i).(sfd_ino) = 0 →
  found_upto (i + 1) (Search r.(s_ino) r.(s_slot) (Some i)).
Proof.
  intros [Hs Ha He Hf] Hi Hino. constructor; cbn; try done.
  - intros j [? ?]%Hs. split; [lia|done].
  - intros j x Hj Hb. destruct (decide (j = i)) as [->|]; [|apply (Ha _ x); [lia|done]].
    destruct Hb as (_ & Hx & Hx' & _). congruence.
  - intros j [= <-]. split; [lia|done].
Qed.

Lemma found_used i r r' : found_upto i r → (dir_entry s0 sv i).(sfd_ino) ≠ 0 → r'.(s_empty) = r.(s_empty) →
  (∀ j, r'.(s_slot) = Some j → j < i + 1 ∧ binds_at s0 sv j name r'.(s_ino)) →
  (∀ j x, j < i + 1 → binds_at s0 sv j name x → r'.(s_slot) = Some j) → found_upto (i + 1) r'.
Proof.
  intros [_ _ He Hf] Hino Hr Hs Ha. constructor; [done|done| |]; rewrite Hr.
  - intros j [? ?]%He. split; [lia|done].
  - intros Hn j Hj. destruct (decide (j = i)) as [->|]; [done|]. apply Hf; [done|lia].
Qed.

Lemma findname_loop_correct n : ∀ s i r, same_but_io s0 s → found_upto i r → 0 ≤ i → i + Z.of_nat n = nentries sv →
  ∃ e r' s', findname_loop n s sv nb i r = Ret (e, r', s', sv) ∧ same_but_io s0 s' ∧
    (quiet s0 → found_upto (nentries sv) r' ∧ e = match r'.(s_slot) with Some _ => 0 | None => ENOENT end).
Proof.
  pose proof Hd as [Hok Hf _ [Hsz Hmod] Hnm].
  induction n as [|n IH]; intros s i r Hs Hr Hi Hn; cbn [findname_loop].
  { eexists _, _, _. split_and!; [done..|]. intros _. split; [|done]. replace (nentries sv) with i by lia. done. }
  destruct (same_but_io_keeps s0 sv s Hok Hf Hs) as (Hok1 & Hf1 & _).
  destruct (readdir_correct s sv i Hok1 Hf1) as (e & sd & s1 & -> & Hs1 & Hq & He).
  { unfold nentries in Hn. zdiv_lia. }
  cbn [mbind res_bind]. assert (same_but_io s0 s1) as Hs01 by (by eapply same_but_io_trans).
  destruct (Z.eqb_spec e 0) as [->|Hne]; cbn [negb].
  2: { eexists _, _, _. split_and!; [done..|]. intros Hqs. destruct Hne. apply Hq. by apply Hs. }
  rewrite (He eq_refl), (dir_entry_same s0 sv s i Hok Hf Hs). clear He Hq sd.
  destruct (dir_entry_wf s0 sv i Hok Hf Hi) as [Hl Hb]. destruct (Z.eqb_spec (dir_entry s0 sv i).(sfd_ino) SFS_NOINO) as [H0|H0].
  { apply IH; [done|by apply found_free|lia|lia]. }
  destruct (compare_name _ nb name Hl Hb Hnb) as (b & c & -> & Hc & Hceq). cbn [mbind res_bind]. rewrite Hc. cbn [mbind res_bind].
  destruct (Z.eqb_spec c 0) as [Hc0|Hc0].
  - assert (binds_at s0 sv i name (dir_entry s0 sv i).(sfd_ino)) as Hbi by (split_and!; [lia|lia|done..|by apply Hceq]).
    destruct (r.(s_slot)) as [j|] eqn:Hslot.
    { destruct (fu_slot _ _ Hr j Hslot) as [? Hbj]. pose proof (Hnm _ _ _ _ _ Hbi Hbj). lia. }
    cbn. apply IH; [done| |lia|lia]. apply (found_used i r); [done..| |]; cbn.
    + intros j [= <-]. split; [lia|done].
    + intros j x Hj Hbj. by rewrite (Hnm _ _ _ _ _ Hbi Hbj).
  - apply IH; [done| |lia|lia]. apply (found_used i r); [done..| |].
    + intros j [? ?]%(fu_slot _ _ Hr). split; [lia|done].
    + intros j x Hj Hbj. destruct (decide (j = i)) as [->|]; [|apply (fu_all _ _ Hr _ x); [lia|done]].
      destruct Hbj as (_ & _ & _ & Hnj). by apply Hceq in Hnj.
Qed.

Lemma nentries_correct : sfs_dir_nentries sv = Ret (nentries sv).
Proof.
  destruct Hd as [_ _ Hty [_ Hmod] _]. unfold sfs_dir_nentries, nentries. rewrite Hty, Z.eqb_refl. cbn [kassert mbind res_bind].
  unfold sizeof_direntry. by rewrite Hmod.
Qed.

Lemma nentries_bound : 0 ≤ nentries sv ≤ 1144 ∧ sv.(sv_i).(sfi_size) = 64 * nentries sv.
Proof. destruct Hd as [_ _ _ Hsz _]. unfold nentries. zdiv_lia. Qed.

Lemma findname_correct :
  ∃ e r s', sfs_dir_findname s0 sv nb = Ret (e, r, s', sv) ∧ same_but_io s0 s' ∧
    (quiet s0 → found_upto (nentries sv) r ∧ e = match r.(s_slot) with Some _ => 0 | None => ENOENT end).
Proof.
  unfold sfs_dir_findname. rewrite nentries_correct. cbn [mbind res_bind]. pose proof nentries_bound.
  apply findname_loop_correct; [apply same_but_io_refl, Hd|apply found_start|lia|lia].
Qed.
End Search.

(** ** Changing an entry *)

(** What a directory is after entry [k] has become [sd]. *)
Lemma entry_written s sv s' sv' k sd : dir_ok s sv → fs_ok s' → file_ok s' sv' → 0 ≤ k ≤ nentries sv → k < 1144 →
  sv'.(sv_i).(sfi_type) = sv.(sv_i).(sfi_type) → sv'.(sv_i).(sfi_size) = Z.max sv.(sv_i).(sfi_size) (64 * k + 64) →
  (∀ i, 0 ≤ i → dir_entry s' sv' i = if decide (i = k) then sd else dir_entry s sv i) →
  (sd.(sfd_ino) ≠ 0 → ∀ x, ¬ binds s sv (entry_name sd) x) →
  dir_ok s' sv' ∧
  ∀ i n x, binds_at s' sv' i n x ↔
    (i = k ∧ x ≠ 0 ∧ x = sd.(sfd_ino) ∧ n = entry_name sd) ∨ (i ≠ k ∧ binds_at s sv i n x).
Proof.
  intros Hd Hok Hf Hk Hk' Hty Hsz Hent Hfresh. destruct (nentries_bound s sv Hd) as [Hn1 Hn2].
  assert (nentries sv' = Z.max (nentries sv) (k + 1)) as Hn by (unfold nentries at 1; rewrite Hsz, Hn2; zdiv_lia).
  assert (∀ i n x, binds_at s' sv' i n x ↔
    (i = k ∧ x ≠ 0 ∧ x = sd.(sfd_ino) ∧ n = entry_name sd) ∨ (i ≠ k ∧ binds_at s sv i n x)) as Hb.
  { intros i n x. unfold binds_at. rewrite Hn. split.
    - intros (Hi & Hx & Hino & Hname). rewrite Hent in Hino, Hname by lia. case_decide; [left|right]; split_and!; (done || lia).
    - intros [(-> & ? & -> & ->)|(Hne & Hi & Hx & Hino & Hname)]; rewrite Hent by lia;
        [rewrite decide_True by done|rewrite decide_False by done]; split_and!; (done || lia). }
  split; [|done]. destruct Hd as [_ _ Hty0 Hsz0 Hnm]. constructor; [done|done|congruence|rewrite Hsz, Hn2; zdiv_lia|].
  intros i j n x y [(-> & ? & -> & ->)|[Hi Hbi]]%Hb [(-> & ? & Hy & Hnm')|[Hj Hbj]]%Hb; [done| | |by eapply Hnm].
  - destruct (Hfresh ltac:(done) y). by exists j.
  - subst n y. destruct (Hfresh ltac:(done) x). by exists i.
Qed.

(** [sfs_dir_link] once the name is known to be absent. *)
Lemma link_absent s sv nb name ino k nm : dir_ok s sv → quiet s → cstr nb 0 name → 0 < ino < 2 ^ 32 →
  (∀ x, ¬ binds s sv name x) → 0 ≤ k ≤ nentries sv → (k < nentries sv → (dir_entry s sv k).(sfd_ino) = 0) →
  length nm = 60%nat → Forall (λ x, 0 ≤ x < 256) nm → entry_name (Direntry ino nm) = name →
  ∃ e s' sv', sfs_writedir s sv k (Direntry ino nm) = Ret (e, s', sv') ∧ dir_ok s' sv' ∧ others_kept s sv s' ∧ quiet s' ∧
    (e ≠ 0 → no_space e s' ∨ e = EFBIG ∧ k = 1144) ∧
    ∀ n x, binds s' sv' n x ↔ e = 0 ∧ n = name ∧ x = ino ∨ binds s sv n x.
Proof.
  intros Hd Hqs Hnb Hino Habs Hk Hfree Hl Hb Hname. pose proof Hd as [Hok Hf _ _ _]. pose proof (nentries_bound s sv Hd).
  destruct (writedir_correct s sv k (Direntry ino nm) Hok Hf ltac:(lia) ltac:(cbn; lia) Hl Hb)
    as (e & s' & sv' & Hrun & Hok' & Hf' & Hoth & _ & Hty & Hq & Hbig & Hfail & Hdone).
  exists e, s', sv'. split; [done|]. destruct (Hq Hqs) as [Hqs' He].
  destruct (decide (e = 0)) as [He0|He0].
  - destruct (Hdone He0) as [Hsz Hent].
    destruct (entry_written s sv s' sv' k (Direntry ino nm)) as [Hd' Hba]; try done.
    { destruct (decide (k = 1144)) as [Hk'|]; [|lia]. rewrite (Hbig Hk') in He0. done. }
    { intros _. by rewrite Hname. }
    split_and!; [done..|]. intros n x. unfold binds. setoid_rewrite Hba. rewrite Hname. split.
    + intros (i & [(_ & _ & -> & ->)|[_ Hi]]); [by left|right; by exists i].
    + intros [(_ & -> & ->)|[i Hi]]; [exists k; left; split_and!; (done || lia)|].
      exists i. right. split; [|done]. intros ->. destruct Hi as ([_ Hlt] & Hx & Hxi & _). by rewrite Hfree in Hxi.
  - destruct (Hfail He0) as [Hsz Hent]. destruct (dir_ok_ext s sv s' sv' Hd Hok' Hf' Hty Hsz Hent) as [Hd' Hbi].
    split_and!; [done..|]. intros n x. rewrite Hbi. naive_solver.
Qed.

Lemma same_dir s sv s' : dir_ok s sv → same_but_io s s' →
  dir_ok s' sv ∧ (∀ n x, binds s' sv n x ↔ binds s sv n x) ∧ others_kept s sv s' ∧
  ∀ s'', others_kept s' sv s'' → others_kept s sv s''.
Proof.
  intros Hd Hs. pose proof Hd as [Hok Hf _ _ _]. destruct (same_but_io_keeps s sv s' Hok Hf Hs) as (Hok' & Hf' & _).
  destruct (dir_ok_ext s sv s' sv Hd Hok' Hf') as [? ?]; [done..|intros; by apply dir_entry_same|].
  assert (others_kept s sv s') as Hoth.
  { intros b _ Hu _. destruct (same_fields _ _ Hs) as (_ & Hm & ->). split; [|done]. unfold used in *. by rewrite Hm. }
  split_and!; [done..|]. intros s'' H' b Hb0 Hu Hb. destruct (Hoth b Hb0 Hu Hb) as [Hu' <-].
  apply H'; [done..|]. unfold slots, entries in *. by destruct (same_fields _ _ Hs) as (_ & _ & ->).
Qed.

Lemma link_correct s sv nb name ino : dir_ok s sv → quiet s → cstr nb 0 name → 0 < ino < 2 ^ 32 →
  ∃ e slot s' sv', sfs_dir_link s sv nb ino = Ret (e, slot, s', sv') ∧ dir_ok s' sv' ∧ others_kept s sv s' ∧ quiet s' ∧
    (∀ n x, binds s' sv' n x ↔ e = 0 ∧ n = name ∧ x = ino ∨ binds s sv n x) ∧
    (e = EEXIST ∧ (∃ x, binds s sv name x) ∨
     (∀ x, ¬ binds s sv name x) ∧
       (e = ENAMETOOLONG ∧ (60 ≤ length name)%nat ∨
        (length name < 60)%nat ∧ (e = 0 ∨ no_space e s' ∨
          e = EFBIG ∧ ∀ i, 0 ≤ i < 1144 → (dir_entry s sv i).(sfd_ino) ≠ 0))).
Proof.
  intros Hd Hqs Hnb Hino. unfold sfs_dir_link.
  destruct (findname_correct s sv nb name Hd Hnb) as (e & r & s1 & -> & Hs1 & Hfound). cbn [mbind res_bind].
  destruct (Hfound Hqs) as [Hr ->]. assert (quiet s1) as Hqs1 by (by apply Hs1).
  destruct (same_dir s sv s1 Hd Hs1) as (Hd1 & Hb1 & Hoth1 & Hoth). destruct (r.(s_slot)) as [j|] eqn:Hslot.
  { cbn. eexists _, _, _, _. split_and!; [done..| |].
    - intros n x. rewrite Hb1. naive_solver.
    - left. split; [done|]. eexists _, j. by apply (fu_slot _ _ _ _ _ Hr). }
  assert (∀ x, ¬ binds s sv name x) as Habs.
  { intros x [i Hi]. pose proof Hi as [? _]. by rewrite (fu_all _ _ _ _ _ Hr i x ltac:(lia) Hi) in Hslot. }
  cbn [negb andb Z.eqb]. change (negb (ENOENT =? 0) && negb (ENOENT =? ENOENT)) with false. change (ENOENT =? 0) with false.
  cbv iota. rewrite (strlen_correct nb 0 name Hnb). cbn [mbind res_bind]. unfold SFS_NAMELEN.
  destruct (Z.gtb_spec (Z.of_nat (length name) + 1) 60).
  { eexists _, _, _, _. split_and!; [done..| |].
    - intros n x. rewrite Hb1. naive_solver.
    - right. split; [done|]. left. split; [done|lia]. }
  set (k := match r.(s_empty) with Some i => i | None => nentries sv end).
  assert ((match r.(s_empty) with Some i => Ret i | None => sfs_dir_nentries sv end) = Ret k) as ->.
  { unfold k. destruct (r.(s_empty)); [done|by eapply nentries_correct]. }
  pose proof (nentries_bound s sv Hd) as [Hne _].
  assert (0 ≤ k ≤ nentries sv ∧ (k < nentries sv → (dir_entry s sv k).(sfd_ino) = 0)) as [Hk Hfree].
  { unfold k. destruct (r.(s_empty)) as [i|] eqn:Hem; [|lia]. destruct (fu_empty _ _ _ _ _ Hr i Hem). split; [lia|done]. }
  destruct (linked_name nb name ino Hnb ltac:(lia)) as (nm & -> & Hl & Hbytes & Hname). cbn [mbind res_bind].
  destruct (link_absent s1 sv nb name ino k nm) as (e & s' & sv' & -> & Hd' & Hoth' & Hq' & He & Hb');
    [done|done|done|done| |done| |done|done|done|].
  { intros x. by rewrite Hb1. }
  { pose proof Hd as [Hok Hf _ _ _]. by rewrite (dir_entry_same s sv s1). }
  cbn [mbind res_bind]. eexists _, _, _, _. split_and!; [done|done|auto|done| |].
  - intros n x. by rewrite Hb', Hb1.
  - right. split; [done|]. right. split; [lia|]. destruct (decide (e = 0)) as [|Hne0]; [by left|right].
    destruct (He Hne0) as [|[-> Hk']]; [by left|right]. split; [done|]. intros i Hi.
    unfold k in Hk', Hk. destruct (r.(s_empty)) as [i'|] eqn:Hem.
    + destruct (fu_empty _ _ _ _ _ Hr i' Hem). lia.
    + apply (fu_full _ _ _ _ _ Hr Hem). lia.
Qed.

Lemma unlink_correct s sv slot : dir_ok s sv → quiet s → 0 ≤ slot < nentries sv →
  ∃ e s' sv', sfs_dir_unlink s sv slot = Ret (e, s', sv') ∧ dir_ok s' sv' ∧ others_kept s sv s' ∧ quiet s' ∧
    (e = 0 ∨ no_space e s') ∧
    (∀ n x, binds s' sv' n x ↔ binds s sv n x ∧ (e = 0 → ¬ binds_at s sv slot n x)).
Proof.
  intros Hd Hqs Hs. pose proof Hd as [Hok Hf _ _ Hnm]. pose proof (nentries_bound s sv Hd). unfold sfs_dir_unlink.
  destruct (writedir_correct s sv slot (Direntry SFS_NOINO (replicate 60 0)) Hok Hf ltac:(lia))
    as (e & s' & sv' & Hrun & Hok' & Hf' & Hoth & _ & Hty & Hq & Hbig & Hfail & Hdone);
    [done|done|by apply Forall_replicate|]. exists e, s', sv'. destruct (Hq Hqs) as [Hqs' He].
  assert (e = 0 ∨ no_space e s') as Hcase.
  { destruct (decide (e = 0)) as [|n]; [by left|right]. destruct (He n) as [|[_ ?]]; [done|lia]. }
  destruct (decide (e = 0)) as [->|Hne].
  - destruct (Hdone eq_refl) as [Hsz Hent].
    destruct (entry_written s sv s' sv' slot (Direntry SFS_NOINO (replicate 60 0))) as [Hd' Hba]; try (done || lia).
    split_and!; [done..|]. intros n x. unfold binds. setoid_rewrite Hba. split.
    + intros (i & [(_ & Hx & -> & _)|[Hi Hb]]); [done|]. split; [by exists i|]. intros _ Hb'.
      destruct Hi. by eapply Hnm.
    + intros [[i Hi] Hnot]. exists i. right. split; [|done]. intros ->. by apply Hnot.
  - destruct (Hfail Hne) as [Hsz Hent]. destruct (dir_ok_ext s sv s' sv' Hd Hok' Hf' Hty Hsz Hent) as [Hd' Hbi].
    split_and!; [done..|]. intros n x. rewrite Hbi. naive_solver.
Qed.

(** ** Properties *)

(** An empty directory of the small volume. *)
Definition small_dir : sfs_vnode := Vnode 1 (Dinode 0 2 1 (replicate 15 0) 0) false.

Lemma small_dir_ok : dir_ok small_fs small_dir.
Proof.
  constructor; [apply small_fs_ok| |done|done|].
  - destruct small_file_ok as [? Hu Hi]. by constructor.
  - intros i j n x y [[? ?] _] _. change (nentries small_dir) with 0 in *. lia.
Qed.

(** The name "a". *)
Lemma name_a : cstr [97; 0] 0 [97].
Proof. split_and!; [done|done|by repeat constructor|by exists []]. Qed.

Lemma small_linked : ∃ slot s' sv', sfs_dir_link small_fs small_dir [97; 0] 7 = Ret (0, slot, s', sv') ∧
  dir_ok s' sv' ∧ quiet s' ∧ binds_at s' sv' 0 [97] 7.
Proof.
  destruct (link_correct small_fs small_dir [97; 0] [97] 7 small_dir_ok (conj eq_refl eq_refl) name_a ltac:(lia))
    as (e & slot & s' & sv' & Hrun & Hd & _ & Hq & Hb & _).
  assert (match sfs_dir_link small_fs small_dir [97; 0] 7 with
          | Ret (e, _, _, sv) => (e, nentries sv) | _ => (1, 0) end = (0, 1)) as He by (vm_compute; reflexivity).
  rewrite Hrun in He. injection He as -> Hn. exists slot, s', sv'. split_and!; [done..|].
  destruct (proj2 (Hb [97] 7) (or_introl (conj eq_refl (conj eq_refl eq_refl)))) as [i Hi].
  pose proof Hi as [Hr _]. by replace 0 with i by lia.
Qed.

(** [sfs_dir_findname] on a consistent directory never panics and changes nothing
    but the disk's pending requests; on a disk without errors it returns 0 with the
    inode number and the slot of the name if the directory binds the name, and
    [ENOENT] exactly if it does not. *)
Theorem sfs_dir_findname_finds s sv nb name : dir_ok s sv → cstr nb 0 name →
  ∃ e r s', sfs_dir_findname s sv nb = Ret (e, r, s', sv) ∧ same_but_io s s' ∧
    (quiet s →
      (e = 0 ∧ ∃ i, r.(s_slot) = Some i ∧ binds_at s sv i name r.(s_ino)) ∨
      (e = ENOENT ∧ ∀ x, ¬ binds s sv name x)).
Proof.
  intros Hd Hnb. destruct (findname_correct s sv nb name Hd Hnb) as (e & r & s' & Hrun & Hs & Hfound).
  exists e, r, s'. split_and!; [done..|]. intros [Hr ->]%Hfound. destruct (r.(s_slot)) as [i|] eqn:Hslot.
  - left. split; [done|]. exists i. split; [done|]. by apply (fu_slot _ _ _ _ _ Hr).
  - right. split; [done|]. intros x [i Hi]. pose proof Hi as [? _].
    by rewrite (fu_all _ _ _ _ _ Hr i x ltac:(lia) Hi) in Hslot.
Qed.

Lemma sfs_dir_findname_finds_witness :
  ∃ s sv e r s', dir_ok s sv ∧ binds_at s sv 0 [97] 7 ∧ sfs_dir_findname s sv [97; 0] = Ret (e, r, s', sv) ∧
    e = 0 ∧ r.(s_slot) = Some 0 ∧ r.(s_ino) = 7.
Proof.
  destruct small_linked as (slot & s & sv & _ & Hd & Hq & Hb).
  destruct (sfs_dir_findname_finds s sv [97; 0] [97] Hd name_a) as (e & r & s' & Hrun & _ & Hf).
  exists s, sv, e, r, s'. split_and!; [done..| | |]; destruct (Hf Hq) as [(-> & i & Hs & Hi)|[_ Hn]];
    [done|by destruct (Hn 7 (ex_intro _ 0 Hb))| |by destruct (Hn 7 (ex_intro _ 0 Hb))| |by destruct (Hn 7 (ex_intro _ 0 Hb))].
  - by rewrite Hs, (do_names s sv Hd i 0 [97] _ _ Hi Hb).
  - pose proof (do_names s sv Hd i 0 [97] _ _ Hi Hb). subst i. destruct Hi as (_ & _ & <- & _). by destruct Hb as (_ & _ & ? & _).
Defined.

(** C5: as long as no read or write of the disk fails, [sfs_dir_link] of an inode number other
    than 0 on a consistent directory adds exactly the binding of the name
    to the inode number when it returns 0 and changes no binding otherwise; the
    directory stays consistent and blocks of other files stay as they are.  It
    returns [EEXIST] exactly if the name is bound, [ENAMETOOLONG] for a new name of
    60 bytes or more, [EFBIG] only if all 1144 slots a directory can have are
    taken, and [ENOSPC] only if every block of the volume is in use. *)
Theorem sfs_dir_link_binds s sv nb name ino : dir_ok s sv → quiet s → cstr nb 0 name → 0 < ino < 2 ^ 32 →
  ∃ e slot s' sv', sfs_dir_link s sv nb ino = Ret (e, slot, s', sv') ∧ dir_ok s' sv' ∧ others_kept s sv s' ∧ quiet s' ∧
    (∀ n x, binds s' sv' n x ↔ e = 0 ∧ n = name ∧ x = ino ∨ binds s sv n x) ∧
    (e = EEXIST ∧ (∃ x, binds s sv name x) ∨
     (∀ x, ¬ binds s sv name x) ∧
       (e = ENAMETOOLONG ∧ (60 ≤ length name)%nat ∨
        (length name < 60)%nat ∧ (e = 0 ∨ no_space e s' ∨
          e = EFBIG ∧ ∀ i, 0 ≤ i < 1144 → (dir_entry s sv i).(sfd_ino) ≠ 0))).
Proof. apply link_correct. Qed.

(** The name is bound already the second time. *)
Lemma sfs_dir_link_binds_witness :
  ∃ s sv e slot s' sv', binds s sv [97] 7 ∧ sfs_dir_link s sv [97; 0] 8 = Ret (e, slot, s', sv') ∧ e = EEXIST ∧
    binds s' sv' [97] 7.
Proof.
  destruct small_linked as (slot & s & sv & _ & Hd & Hq & Hb).
  destruct (sfs_dir_link_binds s sv [97; 0] [97] 8 Hd Hq name_a ltac:(lia)) as (e & slot' & s' & sv' & Hrun & _ & _ & _ & Hb' & Hcase).
  exists s, sv, e, slot', s', sv'. split_and!; [by exists 0|done| |apply Hb'; right; by exists 0].
  destruct Hcase as [[-> _]|[Hn _]]; [done|]. destruct (Hn 7 (ex_intro _ 0 Hb)).
Defined.

(** [sfs_dir_unlink] of a slot removes exactly the binding of that slot; every
    other name keeps its inode number, the directory stays consistent and the only
    error is a full disk (the slot lies in a hole), which changes nothing. *)
Theorem sfs_dir_unlink_unbinds s sv slot : dir_ok s sv → quiet s → 0 ≤ slot < nentries sv →
  ∃ e s' sv', sfs_dir_unlink s sv slot = Ret (e, s', sv') ∧ dir_ok s' sv' ∧ others_kept s sv s' ∧ quiet s' ∧
    (e = 0 ∨ no_space e s') ∧
    (∀ n x, binds s' sv' n x ↔ binds s sv n x ∧ (e = 0 → ¬ binds_at s sv slot n x)).
Proof. apply unlink_correct. Qed.

Lemma sfs_dir_unlink_unbinds_witness :
  ∃ s sv e s' sv', binds s sv [97] 7 ∧ sfs_dir_unlink s sv 0 = Ret (e, s', sv') ∧ (e = 0 → ¬ binds s' sv' [97] 7).
Proof.
  destruct small_linked as (slot & s & sv & _ & Hd & Hq & Hb).
  destruct (sfs_dir_unlink_unbinds s sv 0 Hd Hq (proj1 Hb)) as (e & s' & sv' & Hrun & _ & _ & _ & _ & Hb').
  exists s, sv, e, s', sv'. split_and!; [by exists 0|done|]. intros He [_ Hn]%Hb'. by apply Hn.
Defined.
