(* ===== verification/Synch.v ===== *)
(** * Semaphores, locks and condition variables (kern/thread/synch.c)

    The primitives with their spinlocks and wait channels (kern/thread/spinlock.c
    and the end of thread.c), run by any number of threads in any interleaving.
    A call of a primitive is the list of the atomic steps of its body; every turn
    of the machine starts a call of some thread or runs the next step of one.

    A step is a spinlock operation, a test made without a lock, or what happens
    between two spinlock operations: no other thread looks at the object then.  A
    spinlock is held by the thread that runs on the processor the code records.
    The threads are not interrupt handlers, so the assertions on
    [curthread->t_in_interrupt] hold and are left out. *)

From S2P Require Import Prelude.

Notation tid := positive (only parsing).

(** ** State *)

(** What is particular to each kind of object. *)
Inductive body :=
  | Semaphore (sem_count : Z)
  | Lock (is_locked : bool) (lock_holder : option tid)
  | Cv (cv_lock : option positive).

(** Each object has a spinlock and a wait channel that the spinlock protects. *)
Record object := Object { splk_holder : option tid; wc_threads : list tid; obj_body : body }.

(** ** Creation and destruction *)

(** [kmalloc] of the structure, of the name and of the wait channel. *)
Definition create (b : body) (o : script) : option object * script :=
  let '(ok, o) := kmalloc o in
  if negb ok then (None, o) else
  let '(ok, o) := kmalloc o in
  if negb ok then (None, o) else
  let '(ok, o) := kmalloc o in
  if negb ok then (None, o) else (Some (Object None [] b), o).

Definition sem_create (initial_count : Z) (o : script) : option object * script :=
  create (Semaphore initial_count) o.
Definition lock_create (o : script) : option object * script := create (Lock false None) o.
Definition cv_create (o : script) : option object * script := create (Cv None) o.

(** [spinlock_cleanup] and [wchan_destroy]. *)
Definition cleanup (x : object) : res unit :=
  _ ← kassert (bool_decide (x.(splk_holder) = None));
  kassert (bool_decide (x.(wc_threads) = [])).

Definition sem_destroy (x : object) : res unit := cleanup x.
Definition lock_destroy (x : object) : res unit :=
  match x.(obj_body) with
  | Lock is_locked _ => _ ← kassert (negb is_locked); cleanup x
  | _ => Undef
  end.
Definition cv_destroy (x : object) : res unit := cleanup x.

(** ** The steps *)

Inductive instr :=
  | SpinAcquire (x : positive)
  | SpinRelease (x : positive)
  | PLoop (x : positive)
  | VBody (x : positive)
  | AcqLoop (x : positive)
  | AssertHold (x : positive)
  | RelBody (x : positive)
  | CvBind (c l : positive)
  | CvCheck (c l : positive)
  | Sleep (x : positive)
  | WakeOne (x : positive)
  | WakeAll (x : positive).

Definition P (x : positive) : list instr := [SpinAcquire x; PLoop x; SpinRelease x].
Definition V (x : positive) : list instr := [SpinAcquire x; VBody x; SpinRelease x].

Definition lock_acquire (x : positive) : list instr := [SpinAcquire x; AcqLoop x; SpinRelease x].
Definition lock_release (x : positive) : list instr :=
  [AssertHold x; SpinAcquire x; RelBody x; SpinRelease x].

(** [thread_switch] puts the thread on the channel and frees the spinlock. *)
Definition wchan_sleep (x : positive) : list instr := [Sleep x; SpinAcquire x].

Definition cv_wait (c l : positive) : list instr :=
  [CvBind c l; SpinAcquire c] ++ lock_release l ++ wchan_sleep c ++ [SpinRelease c] ++ lock_acquire l.
Definition cv_signal (c l : positive) : list instr :=
  [CvCheck c l; SpinAcquire c; WakeOne c; SpinRelease c].
Definition cv_broadcast (c l : positive) : list instr :=
  [CvCheck c l; SpinAcquire c; WakeAll c; SpinRelease c].

Inductive op :=
  | OpP (x : positive) | OpV (x : positive)
  | OpAcquire (l : positive) | OpRelease (l : positive)
  | OpWait (c l : positive) | OpSignal (c l : positive) | OpBroadcast (c l : positive).

Definition code_of (o : op) : list instr :=
  match o with
  | OpP x => P x
  | OpV x => V x
  | OpAcquire l => lock_acquire l
  | OpRelease l => lock_release l
  | OpWait c l => cv_wait c l
  | OpSignal c l => cv_signal c l
  | OpBroadcast c l => cv_broadcast c l
  end.

(** A thread runs client code ([t_op] is [None]) or a call of which the steps
    [t_code] are left.  [t_locks] are the locks of which a call of [lock_acquire]
    or [cv_wait] has returned and that it has not called [lock_release] or
    [cv_wait] with since; nothing below depends on it. *)
Record thread := Thread {
  t_asleep : bool;
  t_op : option op;
  t_code : list instr;
  t_locks : gset positive
}.

Record kernel := Kernel { objs : gmap positive object; threads : gmap positive thread }.

Definition set_code (th : thread) (code : list instr) : thread :=
  Thread th.(t_asleep) th.(t_op) code th.(t_locks).
Definition set_asleep (b : bool) (th : thread) : thread :=
  Thread b th.(t_op) th.(t_code) th.(t_locks).

(** [curcpu->c_spinlocks]: the spinlocks held where thread [t] runs. *)
Definition c_spinlocks (s : kernel) (t : tid) : nat :=
  size (filter (λ '(_, x), x.(splk_holder) = Some t) s.(objs)).

(** [thread_make_runnable] *)
Definition make_runnable (t : tid) (ths : gmap positive thread) : gmap positive thread :=
  alter (set_asleep false) t ths.

(** [wchan_wakeone] and [wchan_wakeall]: the channel and the threads. *)
Definition wakeone (ws : list tid) (ths : gmap positive thread) : list tid * gmap positive thread :=
  match ws with
  | [] => ([], ths)
  | target :: ws => (ws, make_runnable target ths)
  end.

Definition wakeall (ws : list tid) (ths : gmap positive thread) : gmap positive thread :=
  foldl (λ ths target, make_runnable target ths) ths ws.

(** [lock_do_i_hold] *)
Definition lock_do_i_hold (s : kernel) (t : tid) (l : positive) : res bool :=
  x ← deref (s.(objs) !! l);
  match x.(obj_body) with
  | Lock is_locked holder => Ret (bool_decide (holder = Some t) && is_locked)
  | _ => Undef
  end.

(** Thread [t] goes on with [code] and object [x] becomes [o]. *)
Definition proceed (s : kernel) (t : tid) (th : thread) (code : list instr) (x : positive) (o : object) : kernel :=
  Kernel (<[x := o]> s.(objs)) (<[t := set_code th code]> s.(threads)).

(** The test of [wchan_sleep] and what [thread_switch] does: [t] goes to sleep on [x]
    and goes on with [code] when it is woken. *)
Definition go_to_sleep (s : kernel) (t : tid) (th : thread) (code : list instr) (x : positive) (o : object)
    : res kernel :=
  _ ← kassert (bool_decide (o.(splk_holder) = Some t));
  _ ← kassert (bool_decide (c_spinlocks s t = 1%nat));
  Ret (Kernel (<[x := Object None (o.(wc_threads) ++ [t]) o.(obj_body)]> s.(objs))
              (<[t := set_asleep true (set_code th code)]> s.(threads))).

(** [spinlock_acquire]: [None] while another thread has the spinlock. *)
Definition spin_acquire (s : kernel) (t : tid) (th : thread) (code : list instr) (x : positive) (o : object)
    : option (res kernel) :=
  match o.(splk_holder) with
  | None => Some (Ret (proceed s t th code x (Object (Some t) o.(wc_threads) o.(obj_body))))
  | Some t' => if decide (t' = t) then Some Panic else None
  end.

Definition with_body (o : object) (b : body) : object := Object o.(splk_holder) o.(wc_threads) b.

(** [spinlock_do_i_hold] *)
Definition i_hold_spinlock (o : object) (t : tid) : bool := bool_decide (o.(splk_holder) = Some t).

(** The bodies: each takes thread [t], what is left of its call, and object [o] at [x]. *)
Section Bodies.
Context (s : kernel) (t : tid) (th : thread) (code : list instr) (x : positive) (o : object).

Definition spinlock_release : res kernel :=
  _ ← kassert (i_hold_spinlock o t);
  Ret (proceed s t th code x (Object None o.(wc_threads) o.(obj_body))).

(** The rest of [P] after [spinlock_acquire]: one turn of the loop, or what follows it. *)
Definition p_loop (n : Z) : res kernel :=
  if n =? 0 then go_to_sleep s t th (SpinAcquire x :: PLoop x :: code) x o else
  _ ← kassert (0 <? n);
  Ret (proceed s t th code x (with_body o (Semaphore (n - 1)))).

Definition wchan_wakeone (b : body) : res kernel :=
  _ ← kassert (i_hold_spinlock o t);
  let '(ws, ths) := wakeone o.(wc_threads) (<[t := set_code th code]> s.(threads)) in
  Ret (Kernel (<[x := Object o.(splk_holder) ws b]> s.(objs)) ths).

Definition wchan_wakeall : res kernel :=
  _ ← kassert (i_hold_spinlock o t);
  Ret (Kernel (<[x := Object o.(splk_holder) [] o.(obj_body)]> s.(objs))
              (wakeall o.(wc_threads) (<[t := set_code th code]> s.(threads)))).

Definition v_body (n : Z) : res kernel :=
  let n := u32 (n + 1) in
  _ ← kassert (0 <? n);
  wchan_wakeone (Semaphore n).

(** One turn of the loop of [lock_acquire], or what follows it. *)
Definition acq_loop (is_locked : bool) : res kernel :=
  if is_locked then go_to_sleep s t th (SpinAcquire x :: AcqLoop x :: code) x o else
  Ret (proceed s t th code x (with_body o (Lock true (Some t)))).

Definition assert_hold (l : positive) : res kernel :=
  b ← lock_do_i_hold s t l;
  _ ← kassert b;
  Ret (proceed s t th code x o).

Definition rel_body : res kernel := wchan_wakeone (Lock false None).

(** [cv_wait] up to [spinlock_acquire]. *)
Definition cv_bind (l : positive) (cl : option positive) : res kernel :=
  let cl := match cl with None => Some l | Some _ => cl end in
  b ← lock_do_i_hold s t l;
  _ ← kassert b;
  _ ← kassert (bool_decide (cl = Some l));
  Ret (proceed s t th code x (with_body o (Cv cl))).

(** [cv_signal] and [cv_broadcast] up to [spinlock_acquire]. *)
Definition cv_check (l : positive) (cl : option positive) : res kernel :=
  b ← lock_do_i_hold s t l;
  _ ← kassert b;
  _ ← kassert (bool_decide (cl = None ∨ cl = Some l));
  Ret (proceed s t th code x o).

(** The step [i]: a body on an object of its kind. *)
Definition exec (i : instr) : res kernel :=
  match i, o.(obj_body) with
  | SpinRelease _, _ => spinlock_release
  | PLoop _, Semaphore n => p_loop n
  | VBody _, Semaphore n => v_body n
  | AcqLoop _, Lock is_locked _ => acq_loop is_locked
  | AssertHold l, _ => assert_hold l
  | RelBody _, Lock _ _ => rel_body
  | CvBind _ l, Cv cl => cv_bind l cl
  | CvCheck _ l, Cv cl => cv_check l cl
  | Sleep _, _ => go_to_sleep s t th code x o
  | WakeOne _, _ => wchan_wakeone o.(obj_body)
  | WakeAll _, _ => wchan_wakeall
  | _, _ => Undef
  end.
End Bodies.

Ltac open_exec := unfold exec, spinlock_release, p_loop, v_body, acq_loop, assert_hold, rel_body, cv_bind, cv_check,
  wchan_wakeone, wchan_wakeall, i_hold_spinlock, with_body.

(** The object a step works on. *)
Definition target (i : instr) : positive :=
  match i with
  | SpinAcquire x | SpinRelease x | PLoop x | VBody x | AcqLoop x | AssertHold x | RelBody x
  | CvBind x _ | CvCheck x _ | Sleep x | WakeOne x | WakeAll x => x
  end.

Definition run_instr (s : kernel) (t : tid) (th : thread) (i : instr) (code : list instr) : option (res kernel) :=
  match s.(objs) !! target i with
  | None => Some Undef
  | Some o =>
      match i with
      | SpinAcquire x => spin_acquire s t th code x o
      | _ => Some (exec s t th code (target i) o i)
      end
  end.

(** ** Turns of the machine *)

(** The lock that a call gives up, and the one it ends with. *)
Definition gives_up (o : op) : option positive :=
  match o with OpRelease l | OpWait _ l => Some l | _ => None end.
Definition ends_with (o : op) : option positive :=
  match o with OpAcquire l | OpWait _ l => Some l | _ => None end.

Inductive event := Call (t : tid) (o : op) | Run (t : tid).

(** [None]: not possible now. *)
Definition step (s : kernel) (e : event) : option (res kernel) :=
  match e with
  | Call t o =>
      th ← s.(threads) !! t;
      match th.(t_op) with
      | Some _ => None
      | None =>
          let locks := match gives_up o with Some l => th.(t_locks) ∖ {[l]} | None => th.(t_locks) end in
          Some (Ret (Kernel s.(objs) (<[t := Thread false (Some o) (code_of o) locks]> s.(threads))))
      end
  | Run t =>
      th ← s.(threads) !! t;
      if th.(t_asleep) then None else
      match th.(t_op) with
      | None => None
      | Some o =>
          match th.(t_code) with
          | [] =>
              let locks := match ends_with o with Some l => th.(t_locks) ∪ {[l]} | None => th.(t_locks) end in
              Some (Ret (Kernel s.(objs) (<[t := Thread false None [] locks]> s.(threads))))
          | i :: code => run_instr s t th i code
          end
      end
  end.

(** ** What the clients keep to *)

Section Clients.

(** Each condition variable is used with one lock. *)
Context (guard : positive → positive).

Inductive kind := KSem | KLock | KCv.

Definition kind_of (x : object) : kind :=
  match x.(obj_body) with Semaphore _ => KSem | Lock _ _ => KLock | Cv _ => KCv end.

Definition kind_at (s : kernel) (x : positive) : option kind := kind_of <$> s.(objs) !! x.

(** The call is given objects of the right kind. *)
Definition op_ok (s : kernel) (o : op) : Prop :=
  match o with
  | OpP x | OpV x => kind_at s x = Some KSem
  | OpAcquire l | OpRelease l => kind_at s l = Some KLock
  | OpWait c l | OpSignal c l | OpBroadcast c l => 
      kind_at s c = Some KCv ∧ kind_at s l = Some KLock ∧ guard c = l
  end.

(** Only a thread that has the lock releases it or uses the condition variable. *)
Definition entitled (th : thread) (o : op) : Prop :=
  match o with
  | OpRelease l | OpWait _ l | OpSignal _ l | OpBroadcast _ l => l ∈ th.(t_locks)
  | _ => True
  end.

Definition legal (s : kernel) (e : event) : Prop :=
  match e with
  | Call t o => op_ok s o ∧ ∀ th, s.(threads) !! t = Some th → entitled th o
  | Run _ => True
  end.

(** New objects, and threads that have not called anything yet. *)
Definition booted (s : kernel) : Prop :=
  map_Forall (λ _ x, x.(splk_holder) = None ∧ x.(wc_threads) = [] ∧
    match x.(obj_body) with
    | Semaphore n => 0 ≤ n < 2 ^ 32
    | Lock b h => b = false ∧ h = None
    | Cv cl => cl = None
    end) s.(objs) ∧
  map_Forall (λ _ th, th = Thread false None [] ∅) s.(threads).

Inductive reachable : kernel → Prop :=
  | reach_boot s : booted s → reachable s
  | reach_step s e s' : reachable s → legal s e → step s e = Some (Ret s') → reachable s'.

(** ** Specification *)

#[export] Instance instr_eq_dec : EqDecision instr.
Proof. solve_decision. Defined.

(** A thread with [code] left to run has the spinlock of [x]. *)
Fixpoint holds (x : positive) (code : list instr) : bool :=
  match code with
  | [] => false
  | SpinAcquire y :: code => if decide (y = x) then false else holds x code
  | (AssertHold _ | CvBind _ _ | CvCheck _ _) :: code => holds x code
  | i :: code => if decide (target i = x) then true else holds x code
  end.

(** The thread sleeps on the channel of [x]. *)
Definition asleep_on (x : positive) (th : thread) : bool :=
  th.(t_asleep) && match th.(t_code) with SpinAcquire y :: _ => bool_decide (y = x) | _ => false end.

(** The thread is awake and about to look whether it can have [x]. *)
Definition trying (x : positive) (th : thread) : bool :=
  negb th.(t_asleep) &&
  match th.(t_code) with
  | PLoop y :: _ | AcqLoop y :: _ | SpinAcquire _ :: PLoop y :: _ | SpinAcquire _ :: AcqLoop y :: _ =>
      bool_decide (y = x)
  | _ => false
  end.

(** The thread has lock [x]: between calls, in a call that has not given it up yet
    or in one that already has it. *)
Definition owns (x : positive) (th : thread) : bool :=
  bool_decide (x ∈ th.(t_locks)) || bool_decide (RelBody x ∈ th.(t_code)) ||
  (bool_decide ((th.(t_op) ≫= ends_with) = Some x) && bool_decide (AcqLoop x ∉ th.(t_code))).

(** Thread [t] is one with property [f]. *)
Definition has (ths : gmap positive thread) (f : thread → bool) (t : tid) : Prop :=
  ∃ th, ths !! t = Some th ∧ f th = true.

Definition thread_ok (s : kernel) (th : thread) : Prop :=
  match th.(t_op) with
  | None => th.(t_asleep) = false ∧ th.(t_code) = []
  | Some o =>
      op_ok s o ∧ th.(t_code) `suffix_of` code_of o ∧
      (th.(t_asleep) = true → ∃ x i code, th.(t_code) = SpinAcquire x :: i :: code ∧
         (i = PLoop x ∨ i = AcqLoop x ∨ i = SpinRelease x)) ∧
      match o with
      | OpSignal _ l | OpBroadcast _ l => l ∈ th.(t_locks)
      | OpRelease l | OpWait _ l => l ∉ th.(t_locks)
      | _ => True
      end
  end.

Definition spin_ok (ths : gmap positive thread) (x : positive) (holder : option tid) : Prop :=
  ∀ t, holder = Some t ↔ has ths (λ th, holds x th.(t_code)) t.

Definition wchan_ok (ths : gmap positive thread) (x : positive) (ws : list tid) : Prop :=
  NoDup ws ∧ ∀ t, t ∈ ws ↔ has ths (asleep_on x) t.

(** No wake-up is lost: while threads sleep on a semaphore there are as many awake
    threads about to try as the count says, and while threads sleep on a lock it is
    taken or some awake thread is about to try. *)
Definition body_ok (ths : gmap positive thread) (x : positive) (ws : list tid) (b : body) : Prop :=
  match b with
  | Semaphore n =>
      0 ≤ n < 2 ^ 32 ∧
      (ws ≠ [] → ∃ X : gset positive, n ≤ Z.of_nat (size X) ∧ ∀ t, t ∈ X → has ths (trying x) t)
  | Lock b h =>
      (b = true ↔ is_Some h) ∧ (∀ t, h = Some t ↔ has ths (owns x) t) ∧
      (ws ≠ [] → b = true ∨ ∃ t, has ths (trying x) t)
  | Cv cl => cl = None ∨ cl = Some (guard x)
  end.

Record obj_ok (ths : gmap positive thread) (x : positive) (o : object) : Prop := ObjOk {
  ok_spin : spin_ok ths x o.(splk_holder);
  ok_wchan : wchan_ok ths x o.(wc_threads);
  ok_body : body_ok ths x o.(wc_threads) o.(obj_body)
}.

Definition threads_ok (s : kernel) (ths : gmap positive thread) : Prop :=
  map_Forall (λ _ th, thread_ok s th) ths.

Definition inv (s : kernel) : Prop :=
  threads_ok s s.(threads) ∧ map_Forall (obj_ok s.(threads)) s.(objs).

(** ** Changing one thread *)

Lemma has_insert ths f t th t0 :
  has (<[t := th]> ths) f t0 ↔ (t0 = t ∧ f th = true) ∨ (t0 ≠ t ∧ has ths f t0).
Proof.
  unfold has. destruct (decide (t0 = t)) as [->|Hne].
  - setoid_rewrite lookup_insert_eq. naive_solver.
  - rewrite lookup_insert_ne by done. naive_solver.
Qed.

Lemma has_same ths f t th th' t0 : ths !! t = Some th → f th' = f th →
  has (<[t := th']> ths) f t0 ↔ has ths f t0.
Proof.
  intros Ht Hf. rewrite has_insert. unfold has. destruct (decide (t0 = t)) as [->|]; [|naive_solver].
  rewrite Ht. naive_solver.
Qed.

Lemma has_mono ths f t th th' t0 : ths !! t = Some th → (f th = true → f th' = true) →
  has ths f t0 → has (<[t := th']> ths) f t0.
Proof.
  intros Ht Hf (u & Hu & Hfu). apply has_insert. destruct (decide (t0 = t)) as [->|]; [left|right].
  - split; [done|]. apply Hf. congruence.
  - split; [done|]. by exists u.
Qed.

(** The change of a thread does not matter to [x]. *)
Record same_for (x : positive) (th th' : thread) : Prop := SameFor {
  sf_holds : holds x th'.(t_code) = holds x th.(t_code);
  sf_asleep : asleep_on x th' = asleep_on x th;
  sf_owns : owns x th' = owns x th;
  sf_trying : trying x th = true → trying x th' = true
}.

Lemma spin_same ths t th th' x h : ths !! t = Some th → holds x th'.(t_code) = holds x th.(t_code) →
  spin_ok ths x h → spin_ok (<[t := th']> ths) x h.
Proof. intros Ht Hh H t0. rewrite (has_same ths _ t th th') by done. apply H. Qed.

Lemma wchan_same ths t th th' x ws : ths !! t = Some th → asleep_on x th' = asleep_on x th →
  wchan_ok ths x ws → wchan_ok (<[t := th']> ths) x ws.
Proof. intros Ht Ha [? H]. split; [done|]. intros t0. rewrite (has_same ths _ t th th') by done. apply H. Qed.

Lemma body_same ths t th th' x ws b : ths !! t = Some th → owns x th' = owns x th →
  (trying x th = true → trying x th' = true) → body_ok ths x ws b → body_ok (<[t := th']> ths) x ws b.
Proof.
  intros Ht Ho Htr. destruct b as [n|b h|cl]; cbn; [| |done].
  - intros [? HX]. split; [done|]. intros Hws. destruct (HX Hws) as (X & ? & HX'). exists X. split; [done|].
    intros t0 Ht0. eapply has_mono; eauto.
  - intros (? & Hown & Hw). split_and!; [done| |].
    + intros t0. by rewrite (has_same ths _ t th th').
    + intros Hws. destruct (Hw Hws) as [?|(t0 & ?)]; [by left|right]. exists t0. eapply has_mono; eauto.
Qed.

Lemma obj_same ths t th th' x o : ths !! t = Some th → same_for x th th' →
  obj_ok ths x o → obj_ok (<[t := th']> ths) x o.
Proof.
  intros Ht [] []. constructor; [by eapply spin_same|by eapply wchan_same|by eapply body_same].
Qed.

(** ** Waking threads *)

Lemma make_runnable_insert ths w thw : ths !! w = Some thw →
  make_runnable w ths = <[w := set_asleep false thw]> ths.
Proof.
  intros Hw. unfold make_runnable. apply map_eq. intros k. destruct (decide (k = w)) as [->|].
  - by rewrite lookup_alter_eq, lookup_insert_eq, Hw.
  - by rewrite lookup_alter_ne, lookup_insert_ne.
Qed.

Lemma asleep_on_unique x y th : asleep_on x th = true → y ≠ x → asleep_on y th = false.
Proof.
  unfold asleep_on. destruct (t_asleep th); [|done]. cbn. destruct (t_code th) as [|[] ?]; try done.
  intros ?%bool_decide_eq_true ?. apply bool_decide_eq_false. congruence.
Qed.

Lemma same_for_woken x y thw : asleep_on x thw = true → y ≠ x → same_for y thw (set_asleep false thw).
Proof.
  intros Ha Hne. constructor; [done| |done|].
  - by rewrite (asleep_on_unique x y thw).
  - unfold trying. unfold asleep_on in Ha. apply andb_true_iff in Ha as [-> _]. done.
Qed.

(** One thread less on the channel of [x]. *)
Lemma woken_wchan ths x w ws : wchan_ok ths x (w :: ws) → wchan_ok (make_runnable w ths) x ws.
Proof.
  intros [Hnd Hw]. apply NoDup_cons in Hnd as [Hnw Hnd]. split; [done|]. intros t0.
  destruct (proj1 (Hw w)) as (thw & Hthw & _); [left|]. rewrite (make_runnable_insert _ _ thw) by done.
  rewrite has_insert, <-Hw, elem_of_cons. split; [|by intros [[_ [=]]|[? [->|?]]]].
  intros Ht0. right. split; [by intros ->|by right].
Qed.

Lemma woken_has ths w f t0 : (∀ th, f th = true → f (set_asleep false th) = true) →
  has ths f t0 → has (make_runnable w ths) f t0.
Proof.
  intros Hf (th & Ht & Hfth). unfold make_runnable. destruct (decide (t0 = w)) as [->|].
  - exists (set_asleep false th). rewrite lookup_alter_eq, Ht. naive_solver.
  - exists th. by rewrite lookup_alter_ne.
Qed.

Lemma woken_has_iff ths w f t0 : (∀ th, f (set_asleep false th) = f th) →
  has (make_runnable w ths) f t0 ↔ has ths f t0.
Proof.
  intros Hf. split; [|by apply woken_has; intros; rewrite Hf].
  unfold make_runnable. intros (th & Ht & Hfth). destruct (decide (t0 = w)) as [->|].
  - rewrite lookup_alter_eq in Ht. destruct (ths !! w) as [u|] eqn:Hu; [|done]. injection Ht as <-.
    exists u. by rewrite <-Hf.
  - rewrite lookup_alter_ne in Ht by done. by exists th.
Qed.

Lemma trying_awake x th : trying x th = true → trying x (set_asleep false th) = true.
Proof. unfold trying. cbn. by intros [_ ?]%andb_true_iff. Qed.

Lemma woken_spin ths w x h : spin_ok ths x h → spin_ok (make_runnable w ths) x h.
Proof. intros H t0. rewrite woken_has_iff by done. apply H. Qed.

Lemma woken_other ths x w y o : has ths (asleep_on x) w → y ≠ x →
  obj_ok ths y o → obj_ok (make_runnable w ths) y o.
Proof.
  intros (thw & Hw & Ha) Hne Hok. rewrite (make_runnable_insert _ _ thw) by done.
  eapply obj_same; [done| |done]. by eapply same_for_woken.
Qed.

Lemma thread_ok_awake s th : thread_ok s th → thread_ok s (set_asleep false th).
Proof. unfold thread_ok. cbn. destruct (t_op th); [|naive_solver]. intros (? & ? & _ & ?). by split_and!. Qed.

Lemma threads_ok_woken s ths (w : tid) : threads_ok s ths →
  threads_ok s (make_runnable w ths).
Proof.
  intros H t th. unfold make_runnable. destruct (decide (t = w)) as [->|].
  - rewrite lookup_alter_eq. destruct (ths !! w) as [u|] eqn:Hu; [|done]. intros [= <-].
    by apply thread_ok_awake, (H w).
  - rewrite lookup_alter_ne by done. apply H.
Qed.

Lemma wakeall_ok s x ws : ∀ ths, wchan_ok ths x ws →
  wchan_ok (wakeall ws ths) x [] ∧ (threads_ok s ths → threads_ok s (wakeall ws ths)) ∧
  (∀ h, spin_ok ths x h → spin_ok (wakeall ws ths) x h) ∧
  (∀ y o, y ≠ x → obj_ok ths y o → obj_ok (wakeall ws ths) y o).
Proof.
  induction ws as [|w ws IH]; intros ths Hw; [done|]. cbn.
  destruct (IH _ (woken_wchan _ _ _ _ Hw)) as (Hw' & Hths & Hs & Hy). split_and!; [done| | |].
  - intros H. by apply Hths, threads_ok_woken.
  - intros h H. by apply Hs, woken_spin.
  - intros y o Hne H. apply Hy; [done|]. apply woken_other with x; [|done..]. apply Hw. left.
Qed.

(** ** The forms of the code that is left *)

Ltac forms H :=
  unfold code_of, cv_wait, cv_signal, cv_broadcast, P, V, lock_acquire, lock_release, wchan_sleep in H;
  cbn [app] in H;
  repeat match type of H with
  | _ `suffix_of` _ :: _ => apply suffix_cons_inv in H as [H|H]
  | _ `suffix_of` [] => apply suffix_nil_inv in H
  end; simplify_eq.

(** A thread that sleeps on a semaphore or a lock will try for it when it is woken. *)
Lemma woken_trying s x th : thread_ok s th → asleep_on x th = true → kind_at s x ≠ Some KCv →
  trying x (set_asleep false th) = true.
Proof.
  unfold thread_ok, asleep_on, trying. intros Hok [Ha Hx]%andb_true_iff Hk.
  destruct (t_op th) as [o|]; [|destruct Hok; congruence].
  destruct Hok as (Hop & Hs & Hsh & _). destruct (Hsh Ha) as (y & i & code & Hc & Hi).
  cbn. rewrite Hc in *. apply bool_decide_eq_true in Hx as ->.
  destruct Hi as [-> |[-> | ->]]; [by rewrite bool_decide_true..|].
  destruct o; forms Hs. by destruct Hop.
Qed.

Lemma trying_target s x th i code : thread_ok s th → th.(t_code) = i :: code → trying x th = true → target i = x.
Proof.
  unfold thread_ok, trying. intros Hok Hc [_ Ht]%andb_true_iff. rewrite Hc in *.
  destruct (t_op th) as [o|]; [|by destruct Hok].
  destruct Hok as (_ & Hs & _). destruct i; try done; try (by apply bool_decide_eq_true in Ht).
  destruct code as [|[] code]; try done; apply bool_decide_eq_true in Ht as <-; by destruct o; forms Hs.
Qed.

Lemma thread_ok_tail s th i code : thread_ok s th → th.(t_asleep) = false → th.(t_code) = i :: code →
  thread_ok s (set_code th code).
Proof.
  unfold thread_ok. intros Hok Ha Hc. cbn. destruct (t_op th) as [o|]; [|destruct Hok; congruence].
  destruct Hok as (? & Hs & _ & ?). rewrite Hc in Hs. split_and!; [done|by eapply suffix_cons_l|congruence|done].
Qed.

(** A step at one object does not matter to the others. *)
Lemma same_for_step s y th i code : thread_ok s th → th.(t_asleep) = false → th.(t_code) = i :: code →
  y ≠ target i → same_for y th (set_code th code).
Proof.
  intros Hok Ha Hc Hne. assert (RelBody y ≠ i ∧ AcqLoop y ≠ i) as [H1 H2] by (split; intros <-; done).
  constructor.
  - rewrite Hc. cbn. destruct i; cbn in *; try done; by rewrite decide_False.
  - unfold asleep_on. cbn. by rewrite Ha.
  - unfold owns. cbn. rewrite Hc. f_equal; [f_equal|f_equal]; apply bool_decide_ext; set_solver.
  - intros Ht. by rewrite (trying_target s y th i code) in Hne.
Qed.

Lemma form_ploop x code o : PLoop x :: code `suffix_of` code_of o → code = [SpinRelease x].
Proof. intros H. by destruct o; forms H. Qed.

Lemma form_again i x code o : i = PLoop x ∨ i = AcqLoop x → i :: code `suffix_of` code_of o →
  SpinAcquire x :: i :: code `suffix_of` code_of o.
Proof.
  intros [-> | ->] H; destruct o; forms H; [by exists []..|by eexists [_; _; _; _; _; _; _; _; _]].
Qed.

Lemma skip_acquire j x code : (∀ y, j ≠ SpinAcquire y) → j ∈ code ↔ j ∈ SpinAcquire x :: code.
Proof. intros Hj. rewrite elem_of_cons. naive_solver. Qed.

Lemma form_vbody x code o : VBody x :: code `suffix_of` code_of o → code = [SpinRelease x].
Proof. intros H. by destruct o; forms H. Qed.

Lemma form_acq x code o : AcqLoop x :: code `suffix_of` code_of o →
  code = [SpinRelease x] ∧ ends_with o = Some x.
Proof. intros H. by destruct o; forms H. Qed.

Lemma form_rel s x code o : op_ok s o → RelBody x :: code `suffix_of` code_of o →
  holds x code = true ∧ RelBody x ∉ code ∧ (ends_with o = Some x → AcqLoop x ∈ code) ∧
  (∀ y, holds y code = true → y = x ∨ kind_at s y = Some KCv).
Proof.
  intros Hop H. destruct o; forms H; cbn in *; rewrite ?decide_True by done.
  - split_and!; [done|set_solver|done|]. intros y Hy. case_decide; naive_solver.
  - split_and!; [done|set_solver|set_solver|]. intros y Hy. repeat case_decide; naive_solver.
Qed.

Lemma form_gives x code o : RelBody x :: code `suffix_of` code_of o → o = OpRelease x ∨ ∃ c, o = OpWait c x.
Proof. intros H. destruct o; forms H; eauto. Qed.

Lemma form_sleep x code o : Sleep x :: code `suffix_of` code_of o →
  ∃ l, o = OpWait x l ∧ code = SpinAcquire x :: SpinRelease x :: lock_acquire l.
Proof. intros H. destruct o; forms H. by eexists. Qed.

Lemma form_bind c l code o : CvBind c l :: code `suffix_of` code_of o →
  o = OpWait c l ∧ RelBody l ∈ code.
Proof. intros H. destruct o; forms H. split; [done|set_solver]. Qed.

Lemma form_check c l code o : CvCheck c l :: code `suffix_of` code_of o → o = OpSignal c l ∨ o = OpBroadcast c l.
Proof. intros H. destruct o; forms H; naive_solver. Qed.

Lemma form_wake i x code o : i = WakeOne x ∨ i = WakeAll x → i :: code `suffix_of` code_of o →
  code = [SpinRelease x] ∧ ∃ l, o = OpSignal x l ∨ o = OpBroadcast x l.
Proof. intros [-> | ->] H; destruct o; forms H; naive_solver. Qed.

Lemma form_assert s x code o : op_ok s o → AssertHold x :: code `suffix_of` code_of o →
  RelBody x ∈ code ∧ kind_at s x = Some KLock.
Proof. intros Hop H. destruct o; forms H; cbn in Hop; (split; [set_solver|naive_solver]). Qed.

Lemma form_acquire s x code o : op_ok s o → SpinAcquire x :: code `suffix_of` code_of o → holds x code = true.
Proof.
  intros Hop H. destruct o; forms H; cbn in *; rewrite ?decide_True by done; try done.
  destruct Hop as (H1 & H2 & _). repeat rewrite decide_False by congruence. by rewrite decide_True.
Qed.

Lemma form_release s x code o : op_ok s o → SpinRelease x :: code `suffix_of` code_of o → holds x code = false.
Proof.
  intros Hop H. destruct o; forms H; cbn in *; try done.
  all: destruct Hop as (H1 & H2 & _); repeat rewrite decide_False by congruence; by rewrite ?decide_True.
Qed.

(** ** Each step keeps the invariant *)

Lemma op_ok_kinds s s' o : (∀ x, kind_at s' x = kind_at s x) → op_ok s o → op_ok s' o.
Proof. intros Hk. destruct o; cbn; by rewrite !Hk. Qed.

Lemma thread_ok_kinds s s' th : (∀ x, kind_at s' x = kind_at s x) → thread_ok s th → thread_ok s' th.
Proof.
  intros Hk. unfold thread_ok. destruct (t_op th); [|done]. intros (? & ? & ? & ?).
  split_and!; [by eapply op_ok_kinds|done..].
Qed.

Lemma kind_insert s ths x ob ob' : s.(objs) !! x = Some ob → kind_of ob' = kind_of ob →
  ∀ y, kind_at (Kernel (<[x := ob']> s.(objs)) ths) y = kind_at s y.
Proof.
  intros Hx Hk y. unfold kind_at. cbn. destruct (decide (y = x)) as [->|].
  - rewrite lookup_insert_eq, Hx. cbn. by rewrite Hk.
  - by rewrite lookup_insert_ne.
Qed.

Lemma inv_update s ths x ob ob' : s.(objs) !! x = Some ob → kind_of ob' = kind_of ob →
  threads_ok s ths →
  (∀ y o, y ≠ x → s.(objs) !! y = Some o → obj_ok ths y o) → obj_ok ths x ob' →
  inv (Kernel (<[x := ob']> s.(objs)) ths).
Proof.
  intros Hx Hk Hths Hothers Hself. split.
  - intros t th Ht. eapply thread_ok_kinds; [|by apply (Hths t)]. by eapply kind_insert.
  - intros y o. cbn. destruct (decide (y = x)) as [->|].
    + rewrite lookup_insert_eq. by intros [= <-].
    + rewrite lookup_insert_ne by done. by apply Hothers.
Qed.

Lemma threads_ok_insert s ths (t : tid) th : threads_ok s ths → thread_ok s th →
  threads_ok s (<[t := th]> ths).
Proof. intros. by apply map_Forall_insert_2. Qed.

Lemma form_of s t th o : inv s → s.(threads) !! t = Some th → th.(t_op) = Some o →
  op_ok s o ∧ th.(t_code) `suffix_of` code_of o.
Proof.
  intros Hinv Ht Ho. pose proof (proj1 Hinv t th Ht) as H. cbn in H. unfold thread_ok in H. rewrite Ho in H. naive_solver.
Qed.

Section step.

Context (s : kernel) (Hinv : inv s) (t : tid) (th : thread) (o : op) (i : instr) (code : list instr).
Context (Ht : s.(threads) !! t = Some th) (Ha : th.(t_asleep) = false) (Ho : th.(t_op) = Some o).
Context (Hc : th.(t_code) = i :: code).
Context (x : positive) (Hx : target i = x) (ob : object) (Hob : s.(objs) !! x = Some ob).

Let ths1 := <[t := set_code th code]> s.(threads).

Lemma my_thread_ok : thread_ok s th.
Proof. by apply (proj1 Hinv t). Qed.

Lemma my_object_ok : obj_ok s.(threads) x ob.
Proof. by apply (proj2 Hinv x). Qed.

Lemma my_form : op_ok s o ∧ (i :: code) `suffix_of` code_of o.
Proof. rewrite <-Hc. by apply (form_of s t). Qed.

Lemma threads1_ok : threads_ok s ths1.
Proof. apply threads_ok_insert; [apply Hinv|]. by apply thread_ok_tail with i; [apply my_thread_ok|..]. Qed.

Lemma others1_ok y o' : y ≠ x → s.(objs) !! y = Some o' → obj_ok ths1 y o'.
Proof.
  intros Hne Hy. apply obj_same with th; [done| |by apply (proj2 Hinv y)].
  eapply same_for_step; [apply my_thread_ok|done..|congruence].
Qed.

Lemma wchan1_ok : wchan_ok ths1 x ob.(wc_threads).
Proof.
  apply wchan_same with th; [done| |apply my_object_ok]. unfold asleep_on. cbn. by rewrite Ha.
Qed.

Lemma spin_is_mine : holds x (i :: code) = true → ob.(splk_holder) = Some t.
Proof. intros Hh. apply (ok_spin _ _ _ my_object_ok). exists th. by rewrite Hc. Qed.

(** The thread goes on, and the spinlock is in the same hands. *)
Lemma proceed_ok h b : kind_of (Object h ob.(wc_threads) b) = kind_of ob → spin_ok ths1 x h →
  body_ok ths1 x ob.(wc_threads) b → inv (proceed s t th code x (Object h ob.(wc_threads) b)).
Proof.
  intros Hk Hs Hb. eapply inv_update; [done|done|apply threads1_ok|apply others1_ok|].
  constructor; [done|apply wchan1_ok|done].
Qed.

Lemma spin1_ok : holds x code = holds x (i :: code) → spin_ok ths1 x ob.(splk_holder).
Proof. intros Hh. apply spin_same with th; [done|by rewrite Hc|apply my_object_ok]. Qed.

Lemma body1_ok : owns x (set_code th code) = owns x th → (trying x th = true → trying x (set_code th code) = true) →
  body_ok ths1 x ob.(wc_threads) ob.(obj_body).
Proof. intros. apply body_same with th; [done..|apply my_object_ok]. Qed.

(** Membership of [owns] when the step is not the body of a lock operation. *)
Lemma owns_plain : RelBody x ≠ i → AcqLoop x ≠ i → owns x (set_code th code) = owns x th.
Proof.
  intros H1 H2. unfold owns. cbn. rewrite Hc. f_equal; [f_equal|f_equal]; apply bool_decide_ext; set_solver.
Qed.

Lemma not_trying : (∀ y, i ≠ PLoop y) → (∀ y, i ≠ AcqLoop y) → (∀ y, i ≠ SpinAcquire y) → trying x th = false.
Proof. intros H1 H2 H3. unfold trying. rewrite Hc, Ha. destruct i; try done; naive_solver. Qed.

Lemma spin_freed : ob.(splk_holder) = Some t → holds x code = false → spin_ok ths1 x None.
Proof.
  intros Hh Hf t0. split; [done|]. unfold ths1. rewrite has_insert. cbn. intros [[_ ?]|[Hne H]]; [congruence|].
  apply (ok_spin _ _ _ my_object_ok) in H. congruence.
Qed.

Lemma one_spinlock : (∀ y, holds y (i :: code) = true ↔ y = x) → c_spinlocks s t = 1%nat.
Proof.
  intros Hh. unfold c_spinlocks. rewrite <-(map_size_singleton x ob). f_equal. apply map_eq. intros y.
  assert (∀ o', s.(objs) !! y = Some o' → splk_holder o' = Some t ↔ y = x) as Hy.
  { intros o' Hy. pose proof (ok_spin _ _ _ (proj2 Hinv y o' Hy) t) as Hs. rewrite <-Hh, Hs. unfold has. rewrite Ht.
    split; [|intros Hu; exists th; by rewrite Hc]. intros (u & [= <-] & Hu). by rewrite <-Hc. }
  destruct (decide (y = x)) as [->|Hne].
  - rewrite lookup_singleton_eq. apply map_lookup_filter_Some. split; [done|by apply Hy].
  - rewrite lookup_singleton_ne by done. apply map_lookup_filter_None. right.
    intros o' Ho' Hh'. by apply Hne, (Hy o').
Qed.

(** Going to sleep on [x], to go on with [SpinAcquire x :: j :: code']. *)
Lemma sleep_ok j code' : (∀ y, holds y (i :: code) = true ↔ y = x) →
  (SpinAcquire x :: j :: code') `suffix_of` code_of o → (j = PLoop x ∨ j = AcqLoop x ∨ j = SpinRelease x) →
  (∀ y, y ≠ x → holds y (SpinAcquire x :: j :: code') = false) →
  (∀ y, RelBody y ∈ i :: code ↔ RelBody y ∈ SpinAcquire x :: j :: code') →
  (∀ y, AcqLoop y ∈ i :: code ↔ AcqLoop y ∈ SpinAcquire x :: j :: code') →
  match ob.(obj_body) with Semaphore n => n = 0 | Lock b _ => b = true | Cv _ => True end →
  ∃ s', go_to_sleep s t th (SpinAcquire x :: j :: code') x ob = Ret s' ∧ inv s'.
Proof.
  intros Hh Hsuf Hj Hf Hrel Hacq Hb. unfold go_to_sleep.
  rewrite (bool_decide_true (c_spinlocks s t = 1%nat)) by (by apply one_spinlock).
  rewrite bool_decide_true by (by apply spin_is_mine, Hh). cbn [kassert mbind res_bind].
  eexists. split; [done|]. set (th' := set_asleep true _).
  assert (∀ y, owns y th' = owns y th) as Hown.
  { intros y. unfold owns. cbn. rewrite Hc. f_equal; [f_equal|f_equal]; apply bool_decide_ext; by rewrite ?Hrel, ?Hacq. }
  assert (∀ y, asleep_on y th = false) as Haw by (intros y; unfold asleep_on; by rewrite Ha).
  assert (∀ y, holds y (i :: code) = bool_decide (y = x)) as Hh'.
  { intros y. case_bool_decide as Hy; [by apply Hh|]. destruct (holds y (i :: code)) eqn:E; [|done]. by apply Hh in E. }
  apply inv_update with ob; [done..| | |].
  - apply threads_ok_insert; [apply Hinv|]. pose proof my_thread_ok as Hok. unfold thread_ok in *. cbn. rewrite Ho in *.
    destruct Hok as (? & _ & _ & ?). split_and!; [done|done| |done]. intros _. by exists x, j, code'.
  - intros y o' Hne Hy. apply obj_same with th; [done| |by apply (proj2 Hinv y)]. constructor; [| |done|].
    + cbn [th' set_asleep set_code t_code]. by rewrite Hf, Hc, Hh', bool_decide_false.
    + rewrite Haw. unfold asleep_on. cbn. by rewrite bool_decide_false.
    + intros Htr. exfalso. apply Hne. rewrite <-Hx. symmetry. by eapply trying_target; [apply my_thread_ok|..].
  - destruct my_object_ok as [Hs [Hnd Hw] Hbo]. constructor; cbn [splk_holder wc_threads obj_body].
    + intros t0. split; [done|]. rewrite has_insert. cbn. rewrite decide_True by done. intros [[_ [=]]|[Hne H]].
      apply Hs in H. rewrite spin_is_mine in H by (by apply Hh). congruence.
    + split.
      * apply NoDup_app. split_and!; [done| |apply NoDup_singleton]. intros t0 H ->%list_elem_of_singleton.
        apply Hw in H as (u & Hu & Hau). rewrite Ht in Hu. injection Hu as <-. by rewrite Haw in Hau.
      * intros t0. rewrite elem_of_app, list_elem_of_singleton, Hw, has_insert. unfold asleep_on at 2. cbn.
        rewrite bool_decide_true by done. split; [|by intros [[-> _]|[_ ?]]; [right|left]].
        intros [(u & Hu & Hau)| ->]; [right|by left]. split; [|by exists u]. intros ->. rewrite Ht in Hu.
        injection Hu as <-. by rewrite Haw in Hau.
    + destruct (obj_body ob) as [n|b h|cl]; cbn in *.
      * destruct Hbo as [? _]. subst n. split; [done|]. intros _. exists ∅. split; [done|]. by intros ? ?%elem_of_empty.
      * destruct Hbo as (? & Hown' & _). split_and!; [done| |by left].
        intros t0. by rewrite (has_same s.(threads) _ t th).
      * done.
Qed.

Definition good (r : res kernel) : Prop := ∃ s', r = Ret s' ∧ inv s'.

Lemma object_eta : ob = Object ob.(splk_holder) ob.(wc_threads) ob.(obj_body).
Proof. by destruct ob. Qed.

Lemma acquire_step : i = SpinAcquire x →
  match spin_acquire s t th code x ob with Some r => good r | None => True end.
Proof.
  intros Hi. destruct my_form as [Hop Hs]. rewrite Hi in Hs. unfold spin_acquire.
  destruct (splk_holder ob) as [t'|] eqn:Hh.
  - case_decide; [|done]. subst t'. apply (ok_spin _ _ _ my_object_ok) in Hh as (u & Hu & Hhu).
    rewrite Ht in Hu. injection Hu as <-. rewrite Hc, Hi in Hhu. cbn in Hhu. by rewrite decide_True in Hhu.
  - eexists. split; [done|]. apply proceed_ok; [done| |].
    + intros t0. unfold ths1. rewrite has_insert. cbn. rewrite (form_acquire s x code o) by done. split; [naive_solver|].
      intros [[-> _]|[_ H]]; [done|]. apply (ok_spin _ _ _ my_object_ok) in H. congruence.
    + apply body1_ok; [apply owns_plain; congruence|]. unfold trying. cbn. rewrite Ha, Hc, Hi. cbn.
      by destruct code as [|[] ?].
Qed.

Lemma release_step : i = SpinRelease x → good (exec s t th code x ob i).
Proof.
  intros Hi. destruct my_form as [Hop Hs]. rewrite Hi in Hs.
  assert (splk_holder ob = Some t) as Hh by (apply spin_is_mine; rewrite Hi; cbn; by rewrite decide_True).
  open_exec. rewrite Hi. rewrite Hh, bool_decide_true by done. cbn [kassert mbind res_bind]. eexists. split; [done|].
  apply proceed_ok; [done| |].
  - apply spin_freed; [done|]. by eapply form_release.
  - apply body1_ok; [apply owns_plain; by rewrite Hi|]. intros Htr. rewrite not_trying in Htr by (by rewrite Hi). done.
Qed.

Lemma plain_step h b : (∀ y, holds y code = holds y (i :: code)) → RelBody x ≠ i → AcqLoop x ≠ i →
  (∀ y, i ≠ PLoop y) → (∀ y, i ≠ AcqLoop y) → (∀ y, i ≠ SpinAcquire y) →
  h = ob.(splk_holder) → kind_of (Object h ob.(wc_threads) b) = kind_of ob →
  (body_ok ths1 x ob.(wc_threads) ob.(obj_body) → body_ok ths1 x ob.(wc_threads) b) →
  inv (proceed s t th code x (Object h ob.(wc_threads) b)).
Proof.
  intros Hh H1 H2 H3 H4 H5 -> Hk Hb. apply proceed_ok; [done|by apply spin1_ok|].
  apply Hb, body1_ok; [by apply owns_plain|]. intros Htr. by rewrite not_trying in Htr.
Qed.

Lemma i_hold l : owns l th = true → kind_at s l = Some KLock → lock_do_i_hold s t l = Ret true.
Proof.
  intros Hown Hk. unfold lock_do_i_hold, kind_at in *. destruct (s.(objs) !! l) as [ol|] eqn:Hl; [|done].
  pose proof (ok_body _ _ _ (proj2 Hinv l ol Hl)) as Hb. cbn in Hk. unfold kind_of in Hk. cbn.
  destruct (obj_body ol) as [|b h|]; try done. destruct Hb as (Hbh & Hh & _).
  assert (h = Some t) as -> by (apply Hh; by exists th). rewrite bool_decide_true by done.
  by rewrite (proj2 Hbh) by done.
Qed.

Lemma assert_step : i = AssertHold x → good (exec s t th code x ob i).
Proof.
  intros Hi. destruct my_form as [Hop Hs]. rewrite Hi in Hs. open_exec. rewrite Hi.
  destruct (form_assert s x code o) as [Hr Hk]; [done..|].
  rewrite i_hold; [| |done].
  2: { unfold owns. rewrite (bool_decide_true (RelBody x ∈ _)) by (rewrite Hc; by right). by rewrite orb_true_r. }
  cbn [kassert mbind res_bind]. eexists. split; [done|]. rewrite object_eta at 1.
  by apply plain_step; rewrite ?Hi.
Qed.

Lemma wakeone_inv b : holds x code = holds x (i :: code) →
  kind_of (Object ob.(splk_holder) ob.(wc_threads) b) = kind_of ob →
  (∀ ws ths, wakeone ob.(wc_threads) ths1 = (ws, ths) → body_ok ths x ws b) →
  good (let '(ws, ths) := wakeone ob.(wc_threads) ths1 in
        Ret (Kernel (<[x := Object ob.(splk_holder) ws b]> s.(objs)) ths)).
Proof.
  intros Hh Hk Hb. pose proof wchan1_ok as Hw. pose proof (spin1_ok Hh) as Hs.
  destruct ob.(wc_threads) as [|w ws] eqn:Hws; cbn; (eexists; split; [done|]).
  - apply inv_update with ob; [done|done|apply threads1_ok|apply others1_ok|]. constructor; [done|done|by apply Hb].
  - assert (has ths1 (asleep_on x) w) as Hhw by (apply Hw; left).
    apply inv_update with ob; [done|done|apply threads_ok_woken, threads1_ok| |].
    + intros y o' Hne Hy. apply woken_other with x; [done..|by apply others1_ok].
    + constructor; [by apply woken_spin|by apply woken_wchan|by apply Hb].
Qed.

(** A thread that is woken from [x] tries for it. *)
Lemma woken_tries w ws : ob.(wc_threads) = w :: ws → kind_at s x ≠ Some KCv →
  has (make_runnable w ths1) (trying x) w ∧ ¬ has ths1 (trying x) w.
Proof.
  intros Hws Hk. destruct (proj1 (proj2 wchan1_ok w)) as (thw & Hthw & Hasl); [rewrite Hws; left|]. split.
  - rewrite (make_runnable_insert _ _ thw) by done. apply has_insert. left. split; [done|].
    eapply woken_trying; [by apply (threads1_ok w)|done..].
  - intros (u & Hu & Htr). rewrite Hthw in Hu. injection Hu as <-.
    apply andb_true_iff in Hasl as [Hasl _]. apply andb_true_iff in Htr as [Htr _]. by rewrite Hasl in Htr.
Qed.

Lemma mine_step r : holds x (i :: code) = true → good r →
  good (_ ← kassert (bool_decide (ob.(splk_holder) = Some t)); r).
Proof. intros Hh Hr. by rewrite bool_decide_true by (by apply spin_is_mine). Qed.

Lemma v_step n : i = VBody x → ob.(obj_body) = Semaphore n → n < 2 ^ 32 - 1 → good (exec s t th code x ob i).
Proof.
  intros Hi Hb Hn. destruct my_form as [Hop Hs]. rewrite Hi in Hs. pose proof (form_vbody _ _ _ Hs) as Hcode.
  pose proof (ok_body _ _ _ my_object_ok) as Hbo. rewrite Hb in Hbo. destruct Hbo as [Hr HX].
  open_exec. rewrite Hi, Hb. rewrite u32_id by lia. rewrite (proj2 (Z.ltb_lt 0 (n + 1))) by lia.
  cbn [kassert mbind res_bind]. apply mine_step; [by rewrite Hi; cbn; rewrite decide_True|].
  apply wakeone_inv; [rewrite Hi, Hcode; cbn; by rewrite !decide_True|unfold kind_of; by rewrite Hb|].
  intros ws ths Hw. split; [lia|]. intros Hne. destruct (wc_threads ob) as [|w ws'] eqn:Hws; cbn in Hw; injection Hw as <- <-; [done|].
  destruct HX as (X & HX & HXt); [done|]. destruct (woken_tries w ws') as [Htr Hntr]; [done|unfold kind_at, kind_of; rewrite Hob; cbn; by rewrite Hb|].
  assert (∀ t0, t0 ∈ X → has ths1 (trying x) t0) as HX1.
  { intros t0 Ht0. apply has_mono with th; [done| |by apply HXt]. intros Hf. by rewrite not_trying in Hf by (by rewrite Hi). }
  exists (X ∪ {[w]}). split.
  - rewrite size_union by (intros a Ha1 ->%elem_of_singleton; by apply Hntr, HX1). rewrite size_singleton. lia.
  - intros t0 [Ht0| ->%elem_of_singleton]%elem_of_union; [|done]. apply woken_has; [apply trying_awake|by apply HX1].
Qed.

Lemma holds_two : i = PLoop x ∨ i = AcqLoop x → code = [SpinRelease x] → ∀ y, holds y (i :: code) = true ↔ y = x.
Proof.
  intros Hi -> y. destruct Hi as [-> | ->]; cbn; (destruct (decide (x = y)); split; congruence).
Qed.

Lemma p_step n : i = PLoop x → ob.(obj_body) = Semaphore n → good (exec s t th code x ob i).
Proof.
  intros Hi Hb. destruct my_form as [Hop Hs]. rewrite Hi in Hs. pose proof (form_ploop _ _ _ Hs) as Hcode.
  pose proof (ok_body _ _ _ my_object_ok) as Hbo. rewrite Hb in Hbo. destruct Hbo as [Hr HX].
  pose proof (holds_two (or_introl Hi) Hcode) as Hh.
  open_exec. rewrite Hi, Hb. destruct (Z.eqb_spec n 0) as [Hn|Hn].
  - rewrite Hcode. apply sleep_ok; try done; [|by left|intros y Hne|intros y|intros y|by rewrite Hb].
    + rewrite <-Hcode. apply form_again; [by left|done].
    + cbn. by rewrite !decide_False.
    + rewrite Hi, Hcode. by apply skip_acquire.
    + rewrite Hi, Hcode. by apply skip_acquire.
  - rewrite (proj2 (Z.ltb_lt 0 n)) by lia. cbn [kassert mbind res_bind]. eexists. split; [done|].
    apply proceed_ok; [unfold kind_of; by rewrite Hb|apply spin1_ok|].
    + rewrite (proj2 (Hh x) eq_refl), Hcode. cbn. by rewrite decide_True.
    + split; [lia|]. intros Hws. destruct (HX Hws) as (X & HXn & HXt). exists (X ∖ {[t]}). split.
      * rewrite size_difference_alt. assert (size (X ∩ {[t]}) ≤ 1)%nat; [|lia].
        rewrite <-(size_singleton (C := gset positive) t). apply subseteq_size, intersection_subseteq_r.
      * intros t0 [Ht0 Hne%not_elem_of_singleton]%elem_of_difference. apply has_insert. right. split; [done|by apply HXt].
Qed.

Lemma acq_step b h : i = AcqLoop x → ob.(obj_body) = Lock b h → good (exec s t th code x ob i).
Proof.
  intros Hi Hb. destruct my_form as [Hop Hs]. rewrite Hi in Hs. destruct (form_acq _ _ _ Hs) as [Hcode Hend].
  pose proof (ok_body _ _ _ my_object_ok) as Hbo. rewrite Hb in Hbo. destruct Hbo as (Hbh & Hown & _).
  pose proof (holds_two (or_intror Hi) Hcode) as Hh.
  open_exec. rewrite Hi, Hb. destruct b.
  - rewrite Hcode. apply sleep_ok; try done; [|by right; left|intros y Hne|intros y|intros y|by rewrite Hb].
    + rewrite <-Hcode. apply form_again; [by right|done].
    + cbn. by rewrite !decide_False.
    + rewrite Hi, Hcode. by apply skip_acquire.
    + rewrite Hi, Hcode. by apply skip_acquire.
  - eexists. split; [done|]. apply proceed_ok; [unfold kind_of; by rewrite Hb|apply spin1_ok|].
    + rewrite (proj2 (Hh x) eq_refl), Hcode. cbn. by rewrite decide_True.
    + split_and!; [done| |by left]. intros t0. unfold ths1. rewrite has_insert. split.
      * intros [= <-]. left. split; [done|]. unfold owns. cbn. rewrite Ho, Hcode. cbn. rewrite Hend.
        rewrite (bool_decide_true (Some x = Some x)) by done. rewrite (bool_decide_true (AcqLoop x ∉ [SpinRelease x])) by (by intros ?%list_elem_of_singleton).
        by rewrite orb_true_r.
      * intros [[-> _]|[_ H]]; [done|]. apply Hown in H. discriminate (proj2 Hbh ltac:(by rewrite H)).
Qed.

Lemma rel_step b h : i = RelBody x → ob.(obj_body) = Lock b h → good (exec s t th code x ob i).
Proof.
  intros Hi Hb. destruct my_form as [Hop Hs]. rewrite Hi in Hs. destruct (form_rel s _ _ _ Hop Hs) as (Hh & Hnr & Hacq & Hk).
  pose proof (ok_body _ _ _ my_object_ok) as Hbo. rewrite Hb in Hbo. destruct Hbo as (Hbh & Hown & _).
  assert (holds x (i :: code) = true) as Hh1 by (rewrite Hi; cbn; by rewrite decide_True).
  open_exec. rewrite Hi, Hb. apply mine_step; [done|].
  apply wakeone_inv; [congruence|unfold kind_of; by rewrite Hb|].
  assert (owns x th = true) as Hmine.
  { unfold owns. rewrite (bool_decide_true (RelBody x ∈ _)) by (rewrite Hc, Hi; left). by rewrite orb_true_r. }
  assert (owns x (set_code th code) = false) as Hgone.
  { unfold owns. cbn. rewrite (bool_decide_false (RelBody x ∈ code)) by done. rewrite Ho. cbn.
    rewrite (bool_decide_false (x ∈ t_locks th)).
    - case_bool_decide; [|done]. by rewrite bool_decide_false by auto.
    - pose proof my_thread_ok as Hok. unfold thread_ok in Hok. rewrite Ho in Hok. destruct Hok as (_ & _ & _ & Hl).
      by destruct (form_gives _ _ _ Hs) as [Hg|(c & Hg)]; rewrite Hg in Hl. }
  assert (∀ t0, ¬ has ths1 (owns x) t0) as Hnone.
  { intros t0. unfold ths1. rewrite has_insert. intros [[_ ?]|[Hne H]]; [congruence|].
    assert (h = Some t) as -> by (apply Hown; by exists th). apply Hown in H. congruence. }
  intros ws ths Hw. destruct (wc_threads ob) as [|w ws'] eqn:Hws; cbn in Hw; injection Hw as <- <-.
  - split_and!; [split; [done|by intros [? ?]]| |done]. intros t0. split; [done|]. intros H. by destruct (Hnone t0).
  - split_and!; [split; [done|by intros [? ?]]| |].
    + intros t0. split; [done|]. rewrite woken_has_iff by done. intros H. by destruct (Hnone t0).
    + intros _. right. exists w. apply (woken_tries w ws'); [done|]. unfold kind_at, kind_of. rewrite Hob. cbn. by rewrite Hb.
Qed.

Lemma bind_step l cl : i = CvBind x l → ob.(obj_body) = Cv cl → good (exec s t th code x ob i).
Proof.
  intros Hi Hb. destruct my_form as [Hop Hs]. rewrite Hi in Hs. destruct (form_bind _ _ _ _ Hs) as [Hwait Hr].
  pose proof (ok_body _ _ _ my_object_ok) as Hbo. rewrite Hb in Hbo. cbn in Hbo.
  rewrite Hwait in Hop. destruct Hop as (_ & Hl & Hg). rewrite Hg in Hbo.
  open_exec. rewrite Hi, Hb, i_hold; [| |done].
  2: { unfold owns. rewrite (bool_decide_true (RelBody l ∈ _)) by (rewrite Hc; by right). by rewrite orb_true_r. }
  cbn [kassert mbind res_bind]. set (cl' := match cl with None => _ | _ => _ end).
  assert (cl' = Some l) as -> by (unfold cl'; by destruct Hbo as [-> | ->]).
  rewrite bool_decide_true by done. cbn [kassert mbind res_bind]. eexists. split; [done|].
  apply plain_step; rewrite ?Hi; try done; [unfold kind_of; by rewrite Hb|]. intros _. right. by rewrite Hg.
Qed.

Lemma check_step l cl : i = CvCheck x l → ob.(obj_body) = Cv cl → good (exec s t th code x ob i).
Proof.
  intros Hi Hb. destruct my_form as [Hop Hs]. rewrite Hi in Hs. pose proof (form_check _ _ _ _ Hs) as Hsig.
  pose proof (ok_body _ _ _ my_object_ok) as Hbo. rewrite Hb in Hbo. cbn in Hbo.
  assert (kind_at s l = Some KLock ∧ guard x = l ∧ l ∈ th.(t_locks)) as (Hl & Hg & Hin).
  { pose proof my_thread_ok as Hok. unfold thread_ok in Hok. rewrite Ho in Hok. destruct Hok as (_ & _ & _ & Hlk).
    destruct Hsig as [Hsig|Hsig]; rewrite Hsig in Hop, Hlk; by destruct Hop as (_ & ? & ?). }
  rewrite Hg in Hbo. open_exec. rewrite Hi, Hb, i_hold; [| |done].
  2: { unfold owns. by rewrite (bool_decide_true (l ∈ _)). }
  cbn [kassert mbind res_bind]. rewrite bool_decide_true by done. cbn [kassert mbind res_bind].
  eexists. split; [done|]. rewrite object_eta at 1. by apply plain_step; rewrite ?Hi.
Qed.

Lemma sleep_step : i = Sleep x → good (exec s t th code x ob i).
Proof.
  intros Hi. destruct my_form as [Hop Hs]. pose proof Hs as Hs0. rewrite Hi in Hs. destruct (form_sleep _ _ _ Hs) as (l & Hwait & Hcode).
  rewrite Hwait in Hop. destruct Hop as (Hx' & Hl & _).
  assert (x ≠ l) as Hxl by congruence.
  open_exec. rewrite Hi. rewrite Hcode. apply sleep_ok; [intros y| |by right; right|intros y Hne|intros y|intros y|].
  - rewrite Hi, Hcode. cbn. destruct (decide (x = y)); [split; congruence|]. split; [|congruence].
    by destruct (decide (l = y)).
  - rewrite <-Hcode. by eapply suffix_cons_l.
  - cbn. rewrite !decide_False by congruence. by destruct (decide (l = y)).
  - rewrite Hi, Hcode. rewrite elem_of_cons. naive_solver.
  - rewrite Hi, Hcode. rewrite elem_of_cons. naive_solver.
  - unfold kind_at, kind_of in Hx'. rewrite Hob in Hx'. cbn in Hx'. by destruct (obj_body ob).
Qed.

Lemma cv_body l : kind_at s x = Some KCv → guard x = l → ∀ ths ws, body_ok ths x ws ob.(obj_body).
Proof.
  intros Hk _ ths ws. pose proof (ok_body _ _ _ my_object_ok) as Hbo. unfold kind_at, kind_of in Hk. rewrite Hob in Hk.
  cbn in Hk. by destruct (obj_body ob).
Qed.

Lemma wake_step : i = WakeOne x ∨ i = WakeAll x → good (exec s t th code x ob i).
Proof.
  intros Hi. destruct my_form as [Hop Hs]. destruct (form_wake _ _ _ _ Hi Hs) as (Hcode & l & Hsig).
  assert (∀ ths ws, body_ok ths x ws ob.(obj_body)) as Hbo.
  { apply cv_body with l; destruct Hsig as [Hsig|Hsig]; rewrite Hsig in Hop; by destruct Hop as (? & _ & ?). }
  assert (holds x (i :: code) = true) as Hh by (destruct Hi as [Hi|Hi]; rewrite Hi; cbn; by rewrite decide_True).
  assert (holds x code = holds x (i :: code)) as Hh1 by (rewrite Hh, Hcode; cbn; by rewrite decide_True).
  open_exec. destruct Hi as [Hi|Hi]; rewrite Hi; (apply mine_step; [done|]).
  - apply wakeone_inv; [done|by rewrite <-object_eta|done].
  - eexists. split; [done|]. destruct (wakeall_ok s x _ _ wchan1_ok) as (Hw & Hths & Hsp & Hy).
    apply inv_update with ob; [done|by unfold kind_of|by apply Hths, threads1_ok| |].
    + intros y o' Hne Hy'. apply Hy; [done|]. by apply others1_ok.
    + constructor; [apply Hsp; by apply spin1_ok|done|done].
Qed.

End step.

(** The count of a semaphore is at its largest. *)
Definition overflow (s : kernel) (i : instr) : Prop :=
  ∃ x o, i = VBody x ∧ s.(objs) !! x = Some o ∧ o.(obj_body) = Semaphore (2 ^ 32 - 1).

Lemma instr_kind s o i code : op_ok s o → i :: code `suffix_of` code_of o →
  match i with
  | PLoop x | VBody x => kind_at s x = Some KSem
  | AcqLoop x | AssertHold x | RelBody x => kind_at s x = Some KLock
  | CvBind x _ | CvCheck x _ | Sleep x | WakeOne x | WakeAll x => kind_at s x = Some KCv
  | SpinAcquire x | SpinRelease x => is_Some (kind_at s x)
  end.
Proof.
  intros Hop H. destruct o; cbn in Hop; forms H; try done; try (by destruct Hop as (? & ? & ?));
    try (by eexists); by destruct Hop as (? & ? & ?); eexists.
Qed.

Lemma run_instr_ok s t th o i code : inv s → s.(threads) !! t = Some th → th.(t_asleep) = false →
  th.(t_op) = Some o → th.(t_code) = i :: code →
  match run_instr s t th i code with
  | None => True
  | Some r => good r ∨ r = Panic ∧ overflow s i
  end.
Proof.
  intros Hinv Ht Ha Ho Hc. destruct (form_of s t th o Hinv Ht Ho) as [Hop Hs]. rewrite Hc in Hs.
  pose proof (instr_kind s o i code Hop Hs) as Hk. unfold run_instr.
  destruct (s.(objs) !! target i) as [ob|] eqn:Hob.
  2: { unfold kind_at in Hk. destruct i; cbn in *; rewrite Hob in Hk; try done. all: by destruct Hk. }
  unfold kind_at in Hk. destruct i; cbn [target] in *; rewrite Hob in Hk; cbn in Hk; unfold kind_of in Hk.
  - pose proof (acquire_step s Hinv t th o _ code Ht Ha Ho Hc x eq_refl ob Hob eq_refl) as H.
    destruct (spin_acquire _ _ _ _ _ _); [by left|done].
  - left. by eapply release_step.
  - destruct (obj_body ob) as [n| |] eqn:Hb; try done. left. by eapply p_step.
  - destruct (obj_body ob) as [n| |] eqn:Hb; try done.
    destruct (decide (n = 2 ^ 32 - 1)) as [->|Hn]; [right|left].
    { open_exec. rewrite Hb. split; [done|]. by eexists _, _. }
    eapply v_step; try done. pose proof (ok_body _ _ _ (proj2 Hinv _ _ Hob)) as Hbo. rewrite Hb in Hbo. destruct Hbo. lia.
  - destruct (obj_body ob) as [|b h|] eqn:Hb; try done. left. by eapply acq_step.
  - left. by eapply assert_step.
  - destruct (obj_body ob) as [|b h|] eqn:Hb; try done. left. by eapply rel_step.
  - destruct (obj_body ob) as [| |cl] eqn:Hb; try done. left. by eapply bind_step.
  - destruct (obj_body ob) as [| |cl] eqn:Hb; try done. left. by eapply check_step.
  - left. by eapply sleep_step.
  - left. eapply wake_step; try done. by left.
  - left. eapply wake_step; try done. by right.
Qed.

Lemma inv_thread s t th th' : inv s → s.(threads) !! t = Some th → thread_ok s th' → (∀ y, same_for y th th') →
  inv (Kernel s.(objs) (<[t := th']> s.(threads))).
Proof.
  intros [Hths Hobjs] Ht Hok Hsame. split; cbn.
  - intros u thu Hu. eapply thread_ok_kinds; [done|]. by apply (threads_ok_insert s s.(threads) t th' Hths Hok u).
  - intros x o Hx. apply obj_same with th; [done|apply Hsame|by apply (Hobjs x)].
Qed.

Lemma holds_start o y : holds y (code_of o) = false.
Proof. destruct o; cbn; repeat case_decide; congruence. Qed.

(** The locks a thread has do not change when it starts a call. *)
Lemma owns_start th o y : entitled th o → th.(t_op) = None → th.(t_code) = [] →
  owns y (Thread false (Some o) (code_of o)
    match gives_up o with Some l => th.(t_locks) ∖ {[l]} | None => th.(t_locks) end) = owns y th.
Proof.
  intros He Ho Hc. unfold owns. rewrite Ho, Hc. cbn [t_locks t_code t_op mbind option_bind].
  rewrite (bool_decide_false (RelBody y ∈ [])) by (by intros ?%elem_of_nil). cbn [andb].
  rewrite (bool_decide_false (None = Some y)) by done. cbn [andb]. rewrite !orb_false_r.
  destruct (decide (gives_up o = Some y)) as [Hg|Hg].
  - rewrite (bool_decide_true (RelBody y ∈ _)) by (destruct o; cbn in Hg; simplify_eq; cbn; set_solver).
    rewrite orb_true_r. cbn. symmetry. apply bool_decide_eq_true. by destruct o; cbn in Hg; simplify_eq.
  - rewrite (bool_decide_false (RelBody y ∈ _)) by (destruct o; cbn in *; set_solver).
    rewrite orb_false_r. replace (bool_decide (ends_with o = Some y) && _) with false.
    2: { symmetry. apply andb_false_iff. destruct (decide (ends_with o = Some y)) as [He'|]; [right|left; by apply bool_decide_false].
         apply bool_decide_false. destruct o; cbn in He'; simplify_eq; cbn; set_solver. }
    rewrite orb_false_r. apply bool_decide_ext. destruct (gives_up o); set_solver.
Qed.

Lemma call_ok s t o s' : inv s → legal s (Call t o) → step s (Call t o) = Some (Ret s') → inv s'.
Proof.
  intros Hinv [Hop Hent] Hstep. cbn in Hstep. destruct (s.(threads) !! t) as [th|] eqn:Ht; [|done]. cbn in Hstep.
  destruct (t_op th) as [|] eqn:Ho; [done|]. injection Hstep as <-. specialize (Hent th eq_refl).
  pose proof (proj1 Hinv t th Ht) as Hok. cbn in Hok. unfold thread_ok in Hok. rewrite Ho in Hok. destruct Hok as [Ha Hc].
  apply inv_thread with th; [done|done| |].
  - unfold thread_ok. cbn [t_op t_code t_asleep]. split_and!; [done|done|done|].
    destruct o; cbn in *; try done; set_solver.
  - intros y. constructor; [|by unfold asleep_on; rewrite Ha|by apply owns_start|by unfold trying; rewrite Hc, andb_false_r].
    rewrite Hc. apply holds_start.
Qed.

Lemma return_ok s t th o s' : inv s → s.(threads) !! t = Some th → th.(t_op) = Some o → th.(t_code) = [] →
  th.(t_asleep) = false → step s (Run t) = Some (Ret s') → inv s'.
Proof.
  intros Hinv Ht Ho Hc Ha Hstep. cbn in Hstep. rewrite Ht in Hstep. cbn in Hstep. rewrite Ha, Ho, Hc in Hstep.
  injection Hstep as <-. apply inv_thread with th; [done|done|done|].
  intros y. constructor; [by rewrite Hc|by unfold asleep_on; rewrite Ha| |by unfold trying; rewrite Hc, andb_false_r].
  unfold owns. rewrite Hc, Ho. cbn. rewrite (bool_decide_false (RelBody y ∈ [])) by (by intros ?%elem_of_nil).
  rewrite (bool_decide_true (AcqLoop y ∉ [])) by (by intros ?%elem_of_nil). rewrite !orb_false_r, andb_true_r.
  destruct (ends_with o) as [l|]; cbn.
  - rewrite <-bool_decide_or. apply bool_decide_ext. set_solver.
  - by rewrite orb_false_r.
Qed.

Lemma step_ok s e : inv s → legal s e →
  match step s e with
  | None => True
  | Some r => good r ∨ r = Panic ∧
      ∃ t th i code, e = Run t ∧ s.(threads) !! t = Some th ∧ th.(t_code) = i :: code ∧ overflow s i
  end.
Proof.
  intros Hinv Hleg. destruct e as [t o|t].
  - destruct (step s (Call t o)) as [r|] eqn:Hs; [|done]. left. cbn in Hs.
    destruct (s.(threads) !! t) as [th|] eqn:Ht; [|done]. cbn in Hs. destruct (t_op th) eqn:Ho; [done|].
    injection Hs as <-. eexists. split; [done|]. apply (call_ok s t o); [done..|]. cbn. rewrite Ht. cbn. by rewrite Ho.
  - destruct (step s (Run t)) as [r|] eqn:Hs; [|done]. pose proof Hs as Hs'. cbn in Hs.
    destruct (s.(threads) !! t) as [th|] eqn:Ht; [|done]. cbn in Hs. destruct (t_asleep th) eqn:Ha; [done|].
    destruct (t_op th) as [o|] eqn:Ho; [|done]. destruct (t_code th) as [|i code] eqn:Hc.
    + injection Hs as <-. left. eexists. split; [done|]. by apply (return_ok s t th o).
    + pose proof (run_instr_ok s t th o i code Hinv Ht Ha Ho Hc) as H. rewrite Hs in H.
      destruct H as [H|[? H]]; [by left|right]. split; [done|]. by exists t, th, i, code.
Qed.

Lemma booted_inv s : booted s → inv s.
Proof.
  intros [Hobjs Hths]. split.
  - intros t th Ht. by rewrite (Hths t th Ht).
  - assert (∀ f, (f (Thread false None [] ∅) = false) → ∀ t, ¬ has s.(threads) f t) as Hno.
    { intros f Hf t (th & Ht & Hth). rewrite (Hths t th Ht) in Hth. congruence. }
    intros x o Hx. destruct (Hobjs x o Hx) as (Hs & Hw & Hb). constructor.
    + intros t. rewrite Hs. split; [done|]. intros H. by eapply Hno in H.
    + rewrite Hw. split; [constructor|]. intros t. split; [by intros ?%elem_of_nil|]. intros H. by eapply Hno in H.
    + rewrite Hw. destruct (obj_body o) as [n|b h|cl]; cbn.
      * by split.
      * destruct Hb as [-> ->]. split_and!; [split; [done|by intros [? ?]]| |done].
        intros t. split; [done|]. intros H. by eapply Hno in H.
      * by left.
Qed.

Lemma reachable_inv s : reachable s → inv s.
Proof.
  induction 1 as [s Hb|s e s' _ IH Hleg Hstep]; [by apply booted_inv|].
  pose proof (step_ok s e IH Hleg) as H. rewrite Hstep in H.
  by destruct H as [(s'' & [= <-] & ?)|[? _]].
Qed.

(** ** When nothing can run *)

Lemma asleep_holds_none s th x : thread_ok s th → th.(t_asleep) = true → holds x th.(t_code) = false.
Proof.
  unfold thread_ok. intros Hok Ha. destruct (t_op th) as [o|]; [|destruct Hok; congruence].
  destruct Hok as (_ & Hs & Hsh & _). destruct (Hsh Ha) as (y & i & code & Hc & Hi). rewrite Hc in *.
  destruct Hi as [-> |[-> | ->]]; destruct o; forms Hs; cbn; repeat case_decide; congruence.
Qed.

(** A thread that waits for a spinlock has at most the one of a condition variable,
    and then it waits for the one of a lock. *)
Lemma spinning_holds s th x y code : thread_ok s th → th.(t_code) = SpinAcquire y :: code →
  holds x th.(t_code) = true → kind_at s x = Some KCv ∧ kind_at s y = Some KLock.
Proof.
  unfold thread_ok. intros Hok Hc Hh. rewrite Hc in *. destruct (t_op th) as [o|]; [|by destruct Hok].
  destruct Hok as (Hop & Hs & _). destruct o; forms Hs; cbn in *; repeat case_decide; try congruence.
  by destruct Hop as (? & ? & ?); subst.
Qed.

Definition stuck (s : kernel) : Prop := ∀ t, step s (Run t) = None.

Lemma awake_blocked s t th o : inv s → stuck s → s.(threads) !! t = Some th → th.(t_op) = Some o →
  th.(t_asleep) = false → ∃ x code ob t', th.(t_code) = SpinAcquire x :: code ∧ s.(objs) !! x = Some ob ∧
    ob.(splk_holder) = Some t'.
Proof.
  intros Hinv Hst Ht Ho Ha. specialize (Hst t). cbn in Hst. rewrite Ht in Hst. cbn in Hst. rewrite Ha, Ho in Hst.
  destruct (t_code th) as [|i code] eqn:Hc; [done|]. unfold run_instr in Hst.
  destruct (s.(objs) !! target i) as [ob|] eqn:Hob; [|done]. destruct i; try done. cbn in Hob. unfold spin_acquire in Hst.
  destruct (splk_holder ob) as [t'|] eqn:Hh; [|done]. by exists x, code, ob, t'.
Qed.

Lemma holder_blocked s x ob t' : inv s → stuck s → s.(objs) !! x = Some ob → ob.(splk_holder) = Some t' →
  kind_at s x = Some KCv ∧ ∃ y ob' t'', kind_at s y = Some KLock ∧ s.(objs) !! y = Some ob' ∧ ob'.(splk_holder) = Some t''.
Proof.
  intros Hinv Hst Hob Hh. apply (ok_spin _ _ _ (proj2 Hinv x ob Hob)) in Hh as (th & Ht & Hhold).
  pose proof (proj1 Hinv t' th Ht) as Hok. cbn in Hok.
  assert (th.(t_asleep) = false) as Ha.
  { destruct (t_asleep th) eqn:Ha; [|done]. by rewrite (asleep_holds_none s) in Hhold. }
  assert (∃ o, th.(t_op) = Some o) as [o Ho].
  { unfold thread_ok in Hok. destruct (t_op th) as [o|]; [by eexists|]. destruct Hok as [_ Hc]. by rewrite Hc in Hhold. }
  destruct (awake_blocked s t' th o) as (y & code & ob' & t'' & Hc & Hy & Hh'); [done..|].
  destruct (spinning_holds s th x y code) as [Hkx Hky]; [done..|]. split; [done|]. by exists y, ob', t''.
Qed.

Lemma stuck_asleep s t th o : inv s → stuck s → s.(threads) !! t = Some th → th.(t_op) = Some o →
  th.(t_asleep) = true.
Proof.
  intros Hinv Hst Ht Ho. destruct (t_asleep th) eqn:Ha; [done|]. exfalso.
  destruct (awake_blocked s t th o) as (x & code & ob & t' & _ & Hx & Hh); [done..|].
  destruct (holder_blocked s x ob t') as (_ & y & ob' & t'' & Hk & Hy & Hh'); [done..|].
  destruct (holder_blocked s y ob' t'') as (Hk' & _); [done..|]. congruence.
Qed.

Lemma not_trying_stuck s x t : inv s → stuck s → ¬ has s.(threads) (trying x) t.
Proof.
  intros Hinv Hst (th & Ht & Htr). pose proof (proj1 Hinv t th Ht) as Hok. cbn in Hok. unfold thread_ok in Hok.
  destruct (t_op th) as [o|] eqn:Ho.
  - unfold trying in Htr. by rewrite (stuck_asleep s t th o) in Htr.
  - destruct Hok as [_ Hc]. unfold trying in Htr. by rewrite Hc, andb_false_r in Htr.
Qed.

Lemma sleeping_place s t th o : inv s → s.(threads) !! t = Some th → th.(t_op) = Some o → th.(t_asleep) = true →
  ∃ x ob, s.(objs) !! x = Some ob ∧ t ∈ ob.(wc_threads) ∧
    (kind_of ob = KCv → ∃ l, o = OpWait x l).
Proof.
  intros Hinv Ht Ho Ha. pose proof (proj1 Hinv t th Ht) as Hok. cbn in Hok. unfold thread_ok in Hok. rewrite Ho in Hok.
  destruct Hok as (Hop & Hs & Hsh & _). destruct (Hsh Ha) as (x & i & code & Hc & Hi). rewrite Hc in Hs.
  pose proof (instr_kind s o _ _ Hop Hs) as Hk. cbn in Hk. unfold kind_at in Hk.
  destruct (s.(objs) !! x) as [ob|] eqn:Hob; [|by destruct Hk]. exists x, ob. split_and!; [done| |].
  - apply (ok_wchan _ _ _ (proj2 Hinv x ob Hob)). exists th. split; [done|]. unfold asleep_on. rewrite Ha, Hc. cbn.
    by apply bool_decide_true.
  - intros Hcv. apply suffix_cons_l in Hs as Hs'. pose proof (instr_kind s o _ _ Hop Hs') as Hk'. unfold kind_at in Hk'.
    destruct Hi as [-> |[-> | ->]]; [rewrite Hob in Hk'; cbn in Hk'; congruence..|].
    destruct o; forms Hs. by eexists.
Qed.

(** ** Broadcasts *)

Lemma wakeall_code ws : ∀ ths (t : tid) th, ths !! t = Some th →
  ∃ th', wakeall ws ths !! t = Some th' ∧ th'.(t_code) = th.(t_code).
Proof.
  induction ws as [|w ws IH]; intros ths t th Ht; cbn; [by exists th|].
  destruct (decide (t = w)) as [->|].
  - destruct (IH (make_runnable w ths) w (set_asleep false th)) as (th' & ? & ?); [|by exists th'].
    unfold make_runnable. by rewrite lookup_alter_eq, Ht.
  - apply IH. unfold make_runnable. by rewrite lookup_alter_ne.
Qed.

(** Between giving up the lock and going to sleep a thread has the spinlock of the
    condition variable. *)
Lemma waiting_holds s th c l : thread_ok s th → th.(t_op) = Some (OpWait c l) → RelBody l ∉ th.(t_code) →
  Sleep c ∈ th.(t_code) → holds c th.(t_code) = true.
Proof.
  unfold thread_ok. intros Hok Ho Hr Hsl. rewrite Ho in Hok. destruct Hok as ((H1 & H2 & _) & Hs & _).
  assert (c ≠ l) as Hne by congruence. remember (t_code th) as code eqn:Hc. clear -Hs Hr Hsl Hne.
  destruct code as [|i code]; [by apply elem_of_nil in Hsl|]. forms Hs; cbn; try (exfalso; set_solver); rewrite ?(decide_False (P := l = c)) by congruence; by rewrite decide_True.
Qed.

Lemma broadcast_correct s u thu c code s' : inv s → s.(threads) !! u = Some thu → thu.(t_code) = WakeAll c :: code →
  step s (Run u) = Some (Ret s') →
  ∀ t th l, s.(threads) !! t = Some th → th.(t_op) = Some (OpWait c l) → RelBody l ∉ th.(t_code) →
    ∃ th', s'.(threads) !! t = Some th' ∧ asleep_on c th' = false ∧ Sleep c ∉ th'.(t_code).
Proof.
  intros Hinv Hu Hcu Hstep t th l Ht Ho Hr.
  assert (inv s') as Hinv'.
  { pose proof (step_ok s (Run u) Hinv I) as H. rewrite Hstep in H.
    by destruct H as [(? & [= <-] & ?)|[? _]]. }
  pose proof (proj1 Hinv t th Ht) as Hok. cbn in Hok.
  cbn in Hstep. rewrite Hu in Hstep. cbn in Hstep. destruct (t_asleep thu); [done|]. destruct (t_op thu) as [o|] eqn:Hou; [|done].
  rewrite Hcu in Hstep. unfold run_instr in Hstep. cbn in Hstep. destruct (s.(objs) !! c) as [ob|] eqn:Hob; [|done].
  destruct (form_of s u thu o Hinv Hu Hou) as [_ Hfu]. rewrite Hcu in Hfu. apply form_wake with (x := c) in Hfu as [_ [l' Hl']]; [|by right].
  assert (Sleep c ∉ th.(t_code)) as Hsl.
  { intros Hsl. pose proof (waiting_holds s th c l Hok Ho Hr Hsl) as Hh.
    pose proof (ok_spin _ _ _ (proj2 Hinv c ob Hob)) as Hspin.
    assert (splk_holder ob = Some t) as H1 by (apply Hspin; by exists th).
    assert (splk_holder ob = Some u) as H2 by (apply Hspin; exists thu; rewrite Hcu; cbn; by rewrite decide_True).
    assert (t = u) as -> by congruence. rewrite Ht in Hu. injection Hu as <-. rewrite Hou in Ho. destruct Hl'; congruence. }
  assert (t ≠ u) as Hne.
  { intros ->. rewrite Ht in Hu. injection Hu as <-. rewrite Hou in Ho. destruct Hl'; congruence. }
  unfold wchan_wakeall, i_hold_spinlock in Hstep. destruct (bool_decide (splk_holder ob = Some u)); [|done]. cbn in Hstep. injection Hstep as <-. cbn in *.
  destruct (wakeall_code (wc_threads ob) (<[u := set_code thu code]> s.(threads)) t th) as (th' & Ht' & Hc').
  { by rewrite lookup_insert_ne. }
  exists th'. split_and!; [done| |by rewrite Hc'].
  destruct (asleep_on c th') eqn:Has; [|done]. exfalso.
  destruct (proj2 Hinv' c (Object (splk_holder ob) [] (obj_body ob))) as [_ [_ Hw] _]; [cbn; by rewrite lookup_insert_eq|].
  assert (t ∈ @nil positive) as []%elem_of_nil. apply Hw. by exists th'.
Qed.

(** A run: its events in order, legal one by one. *)
Fixpoint legal_run (s : kernel) (es : list event) : Prop :=
  match es with
  | [] => True
  | e :: es => legal s e ∧ match step s e with Some (Ret s') => legal_run s' es | _ => False end
  end.

Fixpoint run_events (s : kernel) (es : list event) : option kernel :=
  match es with
  | [] => Some s
  | e :: es => match step s e with Some (Ret s') => run_events s' es | _ => None end
  end.

Lemma reachable_run es : ∀ s s', reachable s → legal_run s es → run_events s es = Some s' → reachable s'.
Proof.
  induction es as [|e es IH]; intros s s' Hr Hl Hs; cbn in *; [by injection Hs as <-|].
  destruct Hl as [He Hl]. destruct (step s e) as [[s1| | |]|] eqn:Hstep; try done.
  apply (IH s1); [|done..]. by eapply reach_step.
Qed.

End Clients.

(** ** Properties *)

(** C2: mutual exclusion.  In every run of threads that release only locks they have,
    at most one thread is between a return of [lock_acquire] (or [cv_wait]) and its
    next call of [lock_release] (or [cv_wait]) on the same lock, and for that thread
    [lock_do_i_hold] answers true. *)
Theorem lock_mutual_exclusion guard s l t1 t2 th1 th2 : reachable guard s → kind_at s l = Some KLock →
  s.(threads) !! t1 = Some th1 → s.(threads) !! t2 = Some th2 →
  l ∈ th1.(t_locks) → l ∈ th2.(t_locks) → t1 = t2 ∧ lock_do_i_hold s t1 l = Ret true.
Proof.
  intros Hr Hk H1 H2 Hl1 Hl2. pose proof (reachable_inv _ _ Hr) as Hinv.
  assert (∀ t th, s.(threads) !! t = Some th → l ∈ th.(t_locks) → owns l th = true) as Hown.
  { intros t th _ Hl. unfold owns. by rewrite (bool_decide_true (l ∈ _)). }
  split; [|by eapply (i_hold guard s Hinv t1 th1); [done|apply (Hown t1)|]].
  unfold kind_at in Hk. destruct (s.(objs) !! l) as [o|] eqn:Ho; [|done]. cbn in Hk. unfold kind_of in Hk.
  pose proof (ok_body _ _ _ _ (proj2 Hinv l o Ho)) as Hb. destruct (obj_body o) as [|b h|]; try done.
  destruct Hb as (_ & Hh & _). assert (h = Some t1) by (apply Hh; exists th1; eauto).
  assert (h = Some t2) by (apply Hh; exists th2; eauto). congruence.
Qed.

(** A lock, a condition variable and a semaphore, and two threads. *)
Definition small_kernel : kernel :=
  Kernel {[1%positive := Object None [] (Lock false None); 2%positive := Object None [] (Cv None);
           3%positive := Object None [] (Semaphore 0)]}
         {[1%positive := Thread false None [] ∅; 2%positive := Thread false None [] ∅]}.

Definition small_guard : positive → positive := λ _, 1%positive.

Lemma small_reachable es s : legal_run small_guard small_kernel es → run_events small_kernel es = Some s →
  reachable small_guard s.
Proof.
  apply reachable_run. apply reach_boot. split.
  - repeat (apply map_Forall_insert_2; [done|]). apply map_Forall_empty.
  - repeat (apply map_Forall_insert_2; [done|]). apply map_Forall_empty.
Qed.

(** Thread 1 takes the lock; thread 2 comes to wait for it. *)
Definition contention : list event :=
  [Call 1 (OpAcquire 1); Run 1; Run 1; Call 2 (OpAcquire 1); Run 1; Run 1; Run 2; Run 2].

Lemma contention_legal : legal_run small_guard small_kernel contention.
Proof. vm_compute. by repeat split. Qed.

Lemma lock_mutual_exclusion_witness : ∃ s, run_events small_kernel contention = Some s ∧
  lock_do_i_hold s 1 1 = Ret true ∧ lock_do_i_hold s 2 1 = Ret false.
Proof.
  eexists. split_and!; [vm_compute; reflexivity| |vm_compute; reflexivity].
  eapply (lock_mutual_exclusion small_guard _ 1 1 1); [|vm_compute; reflexivity..].
  eapply small_reachable; [apply contention_legal|vm_compute; reflexivity].
Defined.

(** C33: threads that keep to the rules never fail an assertion of the primitives
    (no spinlock is taken twice or released by another, [wchan_sleep] always finds
    exactly one spinlock held, no lock is released by a thread that does not have it)
    and never reach a wrong object; only a [V] on a semaphore whose count is at its
    largest panics. *)
Theorem synch_never_panics guard s e : reachable guard s → legal guard s e →
  step s e ≠ Some Undef ∧ step s e ≠ Some Diverge ∧
  (step s e = Some Panic → ∃ t th x code o, e = Run t ∧ s.(threads) !! t = Some th ∧ th.(t_code) = VBody x :: code ∧
     s.(objs) !! x = Some o ∧ o.(obj_body) = Semaphore (2 ^ 32 - 1)).
Proof.
  intros Hr Hl. pose proof (step_ok guard s e (reachable_inv _ _ Hr) Hl) as H.
  destruct (step s e) as [r|]; [|done].
  destruct H as [(s' & -> & _)|[-> (t & th & i & code & -> & Ht & Hc & (x & o & -> & Hx & Hb))]]; [done|].
  split_and!; [done|done|]. intros _. by exists t, th, x, code, o.
Qed.

Lemma synch_never_panics_witness :
  step small_kernel (Call 1 (OpP 3)) ≠ Some Undef ∧ step small_kernel (Call 1 (OpP 3)) ≠ Some Diverge ∧
  (step small_kernel (Call 1 (OpP 3)) = Some Panic →
     ∃ t th x code o, Call 1 (OpP 3) = Run t ∧ small_kernel.(threads) !! t = Some th ∧ th.(t_code) = VBody x :: code ∧
       small_kernel.(objs) !! x = Some o ∧ o.(obj_body) = Semaphore (2 ^ 32 - 1)).
Proof.
  apply (synch_never_panics small_guard small_kernel (Call 1 (OpP 3))); [by apply (small_reachable [])|by vm_compute].
Defined.

(** C21: no wake-up is lost and the spinlocks do not deadlock.  When no thread can run,
    every thread inside a primitive sleeps, and for a reason: on a semaphore whose
    count is 0, on a lock that some thread has, or on the condition variable it waits
    for. *)
Theorem synch_stuck_reasons guard s t th o : reachable guard s → stuck s →
  s.(threads) !! t = Some th → th.(t_op) = Some o →
  th.(t_asleep) = true ∧ ∃ x ob, s.(objs) !! x = Some ob ∧ t ∈ ob.(wc_threads) ∧
    match ob.(obj_body) with
    | Semaphore n => n = 0
    | Lock b h => b = true ∧ is_Some h
    | Cv _ => ∃ l, o = OpWait x l
    end.
Proof.
  intros Hr Hst Ht Ho. pose proof (reachable_inv _ _ Hr) as Hinv.
  pose proof (stuck_asleep guard s t th o Hinv Hst Ht Ho) as Ha. split; [done|].
  destruct (sleeping_place guard s t th o Hinv Ht Ho Ha) as (x & ob & Hob & Hin & Hcv).
  exists x, ob. split_and!; [done|done|]. pose proof (ok_body _ _ _ _ (proj2 Hinv x ob Hob)) as Hb.
  assert (ob.(wc_threads) ≠ []) as Hne by (intros Hnil; rewrite Hnil in Hin; by apply elem_of_nil in Hin).
  unfold kind_of in Hcv. destruct (obj_body ob) as [n|b h|cl]; cbn in Hb; [| |by apply Hcv].
  - destruct Hb as [Hn HX]. destruct (HX Hne) as (X & HXn & HXt). destruct (decide (X = ∅)) as [->|HX0].
    + rewrite size_empty in HXn. lia.
    + apply set_choose_L in HX0 as [t0 Ht0]. by destruct (not_trying_stuck guard s x t0 Hinv Hst (HXt t0 Ht0)).
  - destruct Hb as (Hbh & _ & Hw). assert (b = true) as Hbt; [|by split; [|apply Hbh]].
    destruct (Hw Hne) as [?|(t0 & Ht0)]; [done|]. by destruct (not_trying_stuck guard s x t0 Hinv Hst Ht0).
Qed.

Lemma stuck_check s : bool_decide (map_Forall (λ t _, step s (Run t) = None) s.(threads)) = true → stuck s.
Proof.
  intros H%bool_decide_eq_true t. destruct (s.(threads) !! t) as [th|] eqn:Ht; [by apply (H t th)|].
  cbn. by rewrite Ht.
Qed.

Lemma synch_stuck_reasons_witness : ∃ s th, run_events small_kernel contention = Some s ∧
  s.(threads) !! 2%positive = Some th ∧ th.(t_asleep) = true ∧ ∃ x ob, s.(objs) !! x = Some ob ∧ 2%positive ∈ ob.(wc_threads) ∧
    match ob.(obj_body) with
    | Semaphore n => n = 0
    | Lock b h => b = true ∧ is_Some h
    | Cv _ => ∃ l, OpAcquire 1 = OpWait x l
    end.
Proof.
  eexists _, _. split; [vm_compute; reflexivity|]. split; [vm_compute; reflexivity|].
  eapply (synch_stuck_reasons small_guard _ 2 _ (OpAcquire 1)); [| |vm_compute; reflexivity..].
  - eapply small_reachable; [apply contention_legal|vm_compute; reflexivity].
  - apply stuck_check. vm_compute. reflexivity.
Defined.

(** [cv_wait] is atomic with respect to broadcasts.  When a thread runs the
    [wchan_wakeall] of [cv_broadcast], every thread whose [cv_wait] on that condition
    variable has already given up the lock is woken by it or was woken before: none
    is still on its way to sleep. *)
Theorem cv_broadcast_wakes_all guard s u thu c code s' : reachable guard s →
  s.(threads) !! u = Some thu → thu.(t_code) = WakeAll c :: code → step s (Run u) = Some (Ret s') →
  ∀ t th l, s.(threads) !! t = Some th → th.(t_op) = Some (OpWait c l) → RelBody l ∉ th.(t_code) →
    ∃ th', s'.(threads) !! t = Some th' ∧ asleep_on c th' = false ∧ Sleep c ∉ th'.(t_code).
Proof. intros Hr. by apply (broadcast_correct guard), reachable_inv. Qed.

(** Thread 1 waits on the condition variable, and thread 2 is about to wake it. *)
Definition before_broadcast : list event :=
  [Call 1 (OpAcquire 1)] ++ replicate 4 (Run 1) ++ [Call 1 (OpWait 2 1)] ++ replicate 7 (Run 1) ++
  [Call 2 (OpAcquire 1)] ++ replicate 4 (Run 2) ++ [Call 2 (OpBroadcast 2 1)] ++ replicate 2 (Run 2).

Lemma before_broadcast_legal : legal_run small_guard small_kernel before_broadcast.
Proof.
  vm_compute. repeat split; intros th [= <-]; vm_compute; reflexivity.
Qed.

Lemma cv_broadcast_wakes_all_witness : ∃ s s' th', run_events small_kernel before_broadcast = Some s ∧
  step s (Run 2) = Some (Ret s') ∧
  s'.(threads) !! 1%positive = Some th' ∧ asleep_on 2 th' = false ∧ Sleep 2 ∉ th'.(t_code).
Proof.
  destruct (run_events small_kernel before_broadcast) as [s|] eqn:Hs; [|vm_compute in Hs; discriminate].
  pose proof (small_reachable _ _ before_broadcast_legal Hs) as Hr. vm_compute in Hs. injection Hs as <-.
  destruct (cv_broadcast_wakes_all small_guard _ 2 _ 2 _ _ Hr eq_refl eq_refl eq_refl 1 _ 1 eq_refl eq_refl)
    as (th' & H1 & H2 & H3); [cbn [t_code]; set_solver|].
  eexists _, _, th'. exact (conj eq_refl (conj eq_refl (conj H1 (conj H2 H3)))).
Defined.
