(* ===== verification/Swap.v ===== *)
(** * Swap space (kern/vm/swap.c)

    Pages are kept on a raw disk, reached through the device layer of the VFS
    (kern/vfs/device.c) and [lhd_io].  The disk is the one of [Sfs]: only its
    sectors and the outcomes of its coming requests are used here. *)

From S2P Require Import Prelude CString UserCopy Uio Bitmap Sfs SfsIo.

(** ** Operations *)

Record swap := Swap { swap_freelist : bitmap; swap_space : sfs_fs; page_size : Z }.

Definition set_freelist (w : swap) (b : bitmap) : swap := Swap b w.(swap_space) w.(page_size).
Definition set_space (w : swap) (d : sfs_fs) : swap := Swap w.(swap_freelist) d w.(page_size).

Definition d_blocks (d : sfs_fs) : Z := Z.of_nat (length d.(sfs_disk)).
Definition d_blocksize : Z := 512.

Definition dev_tryseek (d : sfs_fs) (pos : Z) : Z :=
  if 0 <? d_blocks d then
    if negb (pos mod d_blocksize =? 0) then EINVAL else
    if d_blocks d <=? pos / d_blocksize then EINVAL else 0
  else 0.

Definition dev_read (m : memory) (u : uio) (d : sfs_fs) : res (Z * memory * uio * sfs_fs) :=
  let result := dev_tryseek d u.(uio_offset) in
  if negb (result =? 0) then Ret (result, m, u, d) else
  _ ← kassert (bool_decide (u.(uio_dir) = UIO_READ));
  lhd_io None m u d.

Definition dev_write (m : memory) (u : uio) (d : sfs_fs) : res (Z * memory * uio * sfs_fs) :=
  let result := dev_tryseek d u.(uio_offset) in
  if negb (result =? 0) then Ret (result, m, u, d) else
  _ ← kassert (bool_decide (u.(uio_dir) = UIO_WRITE));
  lhd_io None m u d.

(** [st_size] of [dev_stat]. *)
Definition dev_size (d : sfs_fs) : Z :=
  if 0 <? d_blocks d then u32 (d_blocks d * d_blocksize) else 0.

(** On the disk that [vfs_swapon] has found. *)
Definition swap_bootstrap (d : sfs_fs) (page_size_param : Z) (o : script) : res (option swap * script) :=
  let num_pgs := u32 (dev_size d / page_size_param) in
  '(b, o) ← bitmap_create num_pgs o;
  Ret (option_map (λ b, Swap b d page_size_param) b, o).

Definition swap_allocate (w : swap) : res (Z * Z * swap) :=
  r ← bitmap_alloc w.(swap_freelist);
  match r with
  | inl _ => Ret (ENOSPC, 0, w)
  | inr (block, b) => Ret (0, block, set_freelist w b)
  end.

Definition swap_free (w : swap) (block : Z) : res swap :=
  b ← bitmap_unmark w.(swap_freelist) block;
  Ret (set_freelist w b).

(** The result of the transfer is not looked at. *)
Definition swap_page_in (m : memory) (w : swap) (kvaddr block : Z) : res (memory * swap) :=
  let u := uio_kinit kvaddr w.(page_size) (u32 (block * w.(page_size))) UIO_READ in
  '(_, m, _, d) ← dev_read m u w.(swap_space);
  Ret (m, set_space w d).

Definition swap_page_out (m : memory) (w : swap) (kvaddr block : Z) : res (memory * swap) :=
  let u := uio_kinit kvaddr w.(page_size) (u32 (block * w.(page_size))) UIO_WRITE in
  '(_, m, _, d) ← dev_write m u w.(swap_space);
  Ret (m, set_space w d).

(** ** Specification *)

(** The number of sectors of a page, and the page [b] of the disk. *)
Definition per_page (w : swap) : nat := Z.to_nat (w.(page_size) / 512).
Definition swapped (w : swap) (b : Z) : list Z :=
  concat (take (per_page w) (drop (Z.to_nat b * per_page w) w.(swap_space).(sfs_disk))).

(** One bit for each page, and a disk of less than 4 GB without errors. *)
Record swap_ok (w : swap) : Prop := SwapOk {
  so_page : 0 < w.(page_size) ∧ w.(page_size) mod 512 = 0;
  so_map : wf w.(swap_freelist);
  so_size : w.(swap_freelist).(b_nbits) * w.(page_size) ≤ 512 * d_blocks w.(swap_space) < 2 ^ 32;
  so_disk : Forall is_block w.(swap_space).(sfs_disk);
  so_quiet : quiet w.(swap_space)
}.

(** ** Transfers of several sectors *)

(** The sectors from [sec] on overwritten by the bytes [xs]. *)
Fixpoint write_sectors (n : nat) (disk : list (list Z)) (sec : nat) (xs : list Z) : list (list Z) :=
  match n with
  | O => disk
  | S n' => write_sectors n' (<[sec := take 512 xs]> disk) (S sec) (drop 512 xs)
  end.

Lemma write_sectors_lookup n disk sec xs i : (sec + n ≤ length disk)%nat →
  write_sectors n disk sec xs !! i =
    if decide (sec ≤ i < sec + n)%nat then Some (take 512 (drop (512 * (i - sec)) xs)) else disk !! i.
Proof.
  revert disk sec xs. induction n as [|n IH]; intros disk sec xs Hl; cbn [write_sectors].
  { by rewrite decide_False by lia. }
  rewrite IH by (rewrite length_insert; lia). repeat case_decide; try lia.
  - do 2 f_equal. rewrite drop_drop. f_equal. lia.
  - assert (i = sec) as -> by lia. rewrite list_lookup_insert_eq by lia. do 2 f_equal.
    by replace (512 * (sec - sec))%nat with 0%nat by lia.
  - rewrite list_lookup_insert_ne by lia. done.
Qed.

Lemma write_sectors_length n disk sec xs : length (write_sectors n disk sec xs) = length disk.
Proof. revert disk sec xs. induction n; intros; cbn; [done|]. rewrite IHn. apply length_insert. Qed.

Lemma concat_chunks n (l : list (list Z)) xs : (∀ i, (i < n)%nat → l !! i = Some (take 512 (drop (512 * i) xs))) →
  concat (take n l) = take (512 * n) xs.
Proof.
  revert l xs. induction n as [|n IH]; intros l xs Hl; [by rewrite Nat.mul_0_r|].
  destruct l as [|y l]; [by specialize (Hl 0%nat ltac:(lia))|]. cbn [take concat].
  pose proof (Hl 0%nat ltac:(lia)) as H0. cbn in H0. injection H0 as ->.
  rewrite (IH l (drop 512 xs)).
  - rewrite <-take_add. f_equal. lia.
  - intros i Hi. specialize (Hl (S i) ltac:(lia)).
    change (l !! i = Some (take 512 (drop (512 * S i) xs))) in Hl. rewrite Hl, drop_drop. do 3 f_equal. lia.
Qed.

Lemma resid_moves cur m u n : uio_ok cur m u → u.(uio_resid) = 512 * Z.of_nat (S n) →
  (512 ≤ length (iov_addrs u.(uio_iov)))%nat ∧ Z.to_nat (512 `min` u.(uio_resid)) = 512%nat.
Proof. intros (_ & ? & _) Hr. rewrite Hr in *. lia. Qed.

Lemma lhd_loop_read n : ∀ cur m u sec s, uio_ok cur m u → u.(uio_dir) = UIO_READ →
  u.(uio_resid) = 512 * Z.of_nat n → (sec + n ≤ length s.(sfs_disk))%nat → Forall is_block s.(sfs_disk) → quiet s →
  ∃ m' u', lhd_loop n cur m u (Z.of_nat sec) s = Ret (0, m', u', s) ∧
    m' = pour m (take (512 * n) (iov_addrs u.(uio_iov))) (concat (take n (drop sec s.(sfs_disk)))).
Proof.
  induction n as [|n IH]; intros cur m u sec s Hu Hdir Hr Hl Hb Hq; cbn [lhd_loop].
  { eexists _, _. split; [done|]. by rewrite Nat.mul_0_r. }
  rewrite Hdir. unfold completion. destruct Hq as [Hrd Hwr]. rewrite Hrd. cbn [Z.eqb negb].
  destruct (lookup_lt_is_Some_2 s.(sfs_disk) sec ltac:(lia)) as [d Hd]. rewrite (rd_nat _ _ _ Hd). cbn [mbind res_bind].
  destruct (Forall_lookup_1 _ _ _ _ Hb Hd) as [Hdl _]. destruct (resid_moves _ _ _ _ Hu Hr) as [Hlen H512].
  destruct (uiomove_correct cur m d 0 512 u) as (m1 & buf1 & u1 & Heq & Hm & Ha & Hok1); [done|lia|lia|left; lia|].
  change (Z.of_nat 0) with 0 in Heq. rewrite Heq. cbn [mbind res_bind Z.eqb negb]. rewrite H512 in *.
  destruct Ha as (Haddr & _ & Hr1 & _ & Hdir1 & _).
  replace (Z.of_nat sec + 1) with (Z.of_nat (S sec)) by lia.
  destruct (IH cur m1 u1 (S sec) s) as (m' & u' & -> & ->); [done|congruence|lia|lia|done|done|].
  eexists _, _. split; [done|]. rewrite (moved_block_read m d u m1 buf1 Hdir Hdl Hm), Haddr.
  rewrite (drop_S _ d sec Hd). cbn [take concat]. replace (512 * S n)%nat with (512 + 512 * n)%nat by lia.
  rewrite take_add, pour_app; [done|]. rewrite length_take. lia.
Qed.

Lemma lhd_loop_write n : ∀ cur m u sec s, uio_ok cur m u → u.(uio_dir) = UIO_WRITE →
  u.(uio_resid) = 512 * Z.of_nat n → (sec + n ≤ length s.(sfs_disk))%nat → quiet s →
  ∃ u', lhd_loop n cur m u (Z.of_nat sec) s =
    Ret (0, m, u', set_disk s (write_sectors n s.(sfs_disk) sec (gather m (take (512 * n) (iov_addrs u.(uio_iov)))))).
Proof.
  induction n as [|n IH]; intros cur m u sec s Hu Hdir Hr Hl Hq; cbn [lhd_loop write_sectors].
  { eexists. by destruct s. }
  rewrite Hdir. destruct (resid_moves _ _ _ _ Hu Hr) as [Hlen H512].
  destruct (uiomove_correct cur m zero_block 0 512 u) as (m1 & buf1 & u1 & Heq & Hm & Ha & Hok1);
    [done|lia|done|left; lia|].
  change (Z.of_nat 0) with 0 in Heq. rewrite Heq. cbn [mbind res_bind Z.eqb negb]. rewrite H512 in *.
  unfold completion. pose proof Hq as [Hrd Hwr]. rewrite Hwr. cbn [Z.eqb negb].
  destruct (moved_block_write m u m1 buf1 Hdir Hlen Hm) as [-> ->]. rewrite wr_nat by lia. cbn [mbind res_bind].
  destruct Ha as (Haddr & _ & Hr1 & _ & Hdir1 & _).
  replace (Z.of_nat sec + 1) with (Z.of_nat (S sec)) by lia.
  destruct (IH cur m u1 (S sec) (set_disk s (<[sec := gather m (take 512 (iov_addrs u.(uio_iov)))]> s.(sfs_disk))))
    as (u' & ->); [done|congruence|lia|cbn; rewrite length_insert; lia|done|].
  eexists. unfold set_disk. cbn [sb_nblocks sfs_freemap sfs_freemapdirty sfs_disk sfs_rd sfs_wr]. rewrite Haddr. replace (512 * S n)%nat with (512 + 512 * n)%nat by lia.
  rewrite (take_add (iov_addrs _) 512 (512 * n)), gather_app. rewrite take_app_length', drop_app_length'; [done| |];
    unfold gather; rewrite length_fmap, length_take; lia.
Qed.

(** ** Pages *)

Lemma page_sectors w b : swap_ok w → 0 ≤ b < w.(swap_freelist).(b_nbits) →
  w.(page_size) = 512 * Z.of_nat (per_page w) ∧ (0 < per_page w)%nat ∧
  b * w.(page_size) = 512 * Z.of_nat (Z.to_nat b * per_page w) ∧
  (Z.to_nat b * per_page w + per_page w ≤ length w.(swap_space).(sfs_disk))%nat ∧
  Z.of_nat (length w.(swap_space).(sfs_disk)) < 2 ^ 23.
Proof.
  intros [[Hp Hp'] _ [Hs Hs'] _ _] Hb. unfold d_blocks in *.
  assert (w.(page_size) = 512 * Z.of_nat (per_page w)) as He by (unfold per_page; zdiv_lia).
  rewrite He in *. split_and!; nia.
Qed.

Section Page.
Context (m : memory) (w : swap) (kv b : Z).
Context (Hw : swap_ok w) (Hb : 0 ≤ b < w.(swap_freelist).(b_nbits)).
Context (Hkv : 0 ≤ kv) (Hm : mapped m kv w.(page_size)).

Lemma page_uio_ok rw : uio_ok None m (uio_kinit kv w.(page_size) (u32 (b * w.(page_size))) rw).
Proof.
  destruct (page_sectors w b Hw Hb) as (? & ? & _ & ? & ?). unfold uio_ok. cbn. rewrite app_nil_r, length_seqZ. split_and!; try lia; [|done].
  constructor; [|done]. split_and!; cbn; (done || lia).
Qed.

Lemma page_offset : u32 (b * w.(page_size)) = 512 * Z.of_nat (Z.to_nat b * per_page w).
Proof. destruct (page_sectors w b Hw Hb) as (? & ? & -> & ? & ?). apply u32_id. lia. Qed.

Lemma page_io rw : let u := uio_kinit kv w.(page_size) (u32 (b * w.(page_size))) rw in
  dev_tryseek w.(swap_space) u.(uio_offset) = 0 ∧
  lhd_io None m u w.(swap_space) = lhd_loop (per_page w) None m u (Z.of_nat (Z.to_nat b * per_page w)) w.(swap_space).
Proof.
  destruct (page_sectors w b Hw Hb) as (Hps & ? & _ & ? & ?). cbn. rewrite page_offset. unfold dev_tryseek, lhd_io, d_blocks, d_blocksize.
  cbn [uio_kinit uio_offset uio_resid]. rewrite Hps, !(Z.mul_comm 512), !Z.div_mul, !Z_mod_mult by lia. split.
  - destruct (0 <? _); [|done]. cbn [Z.eqb negb]. by rewrite (proj2 (Z.leb_gt _ _)) by lia.
  - rewrite (u32_id (Z.of_nat (_ * _))) by lia. cbn [Z.eqb negb orb]. rewrite u32_id by lia.
    rewrite (proj2 (Z.ltb_ge _ _)) by lia. by rewrite Nat2Z.id.
Qed.

Lemma page_in_correct : swap_page_in m w kv b = Ret (pour m (seqZ kv w.(page_size)) (swapped w b), w).
Proof.
  destruct (page_sectors w b Hw Hb) as (Hps & ? & _ & ? & ?). pose proof (page_uio_ok UIO_READ) as Hu. destruct (page_io UIO_READ) as [Hseek Hio].
  unfold swap_page_in, dev_read. rewrite Hseek. cbn [Z.eqb negb]. rewrite bool_decide_true by done.
  cbn [kassert mbind res_bind]. rewrite Hio. pose proof Hw as [_ _ _ Hd Hq].
  destruct (lhd_loop_read (per_page w) None m _ (Z.to_nat b * per_page w) w.(swap_space) Hu) as (m' & u' & -> & ->);
    [done|cbn; lia|lia|done|done|].
  cbn [mbind res_bind]. destruct w as [fl sp ps]. unfold set_space, swapped. cbn in *. rewrite app_nil_r.
  rewrite (take_ge (seqZ _ _)); [done|]. rewrite length_seqZ. lia.
Qed.

Lemma page_out_correct : mem_ok m → ∃ w', swap_page_out m w kv b = Ret (m, w') ∧ swap_ok w' ∧
  w'.(swap_freelist) = w.(swap_freelist) ∧ w'.(page_size) = w.(page_size) ∧
  swapped w' b = gather m (seqZ kv w.(page_size)) ∧ ∀ b', 0 ≤ b' → b' ≠ b → swapped w' b' = swapped w b'.
Proof.
  intros Hmem. destruct (page_sectors w b Hw Hb) as (Hps & ? & _ & Hlen & ?).
  pose proof (page_uio_ok UIO_WRITE) as Hu. destruct (page_io UIO_WRITE) as [Hseek Hio].
  unfold swap_page_out, dev_write. rewrite Hseek. cbn [Z.eqb negb]. rewrite bool_decide_true by done.
  cbn [kassert mbind res_bind]. rewrite Hio. pose proof Hw as [Hpg Hmap Hsz Hd Hq].
  destruct (lhd_loop_write (per_page w) None m _ (Z.to_nat b * per_page w) w.(swap_space) Hu) as (u' & ->);
    [done|cbn; lia|lia|done|].
  set (xs := gather m _). cbn [mbind res_bind]. eexists. split; [done|].
  assert (xs = gather m (seqZ kv w.(page_size))) as Hxs.
  { unfold xs. f_equal. cbn. rewrite app_nil_r. rewrite take_ge; [done|]. rewrite length_seqZ. lia. }
  assert (length xs = (512 * per_page w)%nat) as Hxl by (rewrite Hxs; unfold gather; rewrite length_fmap, length_seqZ; lia).
  set (d' := write_sectors _ _ _ _). assert (length d' = length w.(swap_space).(sfs_disk)) as Hl' by apply write_sectors_length.
  assert (∀ i, d' !! i = _) as Hlook by (intros i; by apply write_sectors_lookup). split_and!; [|done|done| |].
  - constructor; [done|done| |apply Forall_lookup_2; cbn|done].
    { unfold d_blocks in *. cbn. by rewrite Hl'. }
    intros i x. rewrite Hlook. case_decide; [|by apply Forall_lookup_1]. intros [= <-]. split.
    + rewrite length_take, length_drop. nia.
    + apply Forall_take, Forall_drop. by apply gather_bytes.
  - unfold swapped, per_page. cbn. fold (per_page w). rewrite (concat_chunks _ _ xs).
    + rewrite take_ge; [done|lia].
    + intros i Hi. rewrite lookup_drop, Hlook. rewrite decide_True by lia. do 3 f_equal. lia.
  - intros b' Hb' Hne. unfold swapped, per_page. cbn. fold (per_page w). f_equal.
    apply list_eq. intros i. destruct (decide (i < per_page w)%nat); [|by rewrite !lookup_take_ge by lia].
    rewrite !lookup_take_lt, !lookup_drop, Hlook by done. rewrite decide_False; [done|].
    assert (Z.to_nat b' ≠ Z.to_nat b) by lia. nia.
Qed.
End Page.

(** ** Slots *)

Lemma swap_allocate_correct w : swap_ok w →
  match swap_allocate w with
  | Ret (e, b, w') =>
      swap_ok w' ∧ w'.(swap_space) = w.(swap_space) ∧ w'.(page_size) = w.(page_size) ∧
      (e = 0 ∧ 0 ≤ b < w.(swap_freelist).(b_nbits) ∧ bit w.(swap_freelist) b = false ∧
         updated w.(swap_freelist) b true w'.(swap_freelist) ∨
       e = ENOSPC ∧ w' = w ∧ ∀ i, 0 ≤ i < w.(swap_freelist).(b_nbits) → bit w.(swap_freelist) i = true)
  | _ => False
  end.
Proof.
  intros Hw. pose proof Hw as [Hp Hm Hs Hd Hq]. unfold swap_allocate, bitmap_alloc.
  pose proof (alloc_after_correct w.(swap_freelist) 0 Hm ltac:(lia)) as Ha.
  destruct (bitmap_alloc_after w.(swap_freelist) 0) as [[e|[i b']]| | |]; cbn in *; try done.
  - destruct Ha as [-> Ha]. split_and!; [done..|]. by right.
  - destruct Ha as (Hi & Hbit & _ & Hu). pose proof Hu as (Hwf & Hn & _). split_and!; [|done|done|by left].
    constructor; cbn; (done || by rewrite Hn).
Qed.

Lemma swap_free_correct w b : swap_ok w → 0 ≤ b < w.(swap_freelist).(b_nbits) →
  ∃ w', swap_free w b = Ret w' ∧ swap_ok w' ∧ w'.(swap_space) = w.(swap_space) ∧ w'.(page_size) = w.(page_size) ∧
    updated w.(swap_freelist) b false w'.(swap_freelist).
Proof.
  intros Hw Hb. pose proof Hw as [Hp Hm Hs Hd Hq]. unfold swap_free.
  destruct (unmark_correct _ _ Hm Hb) as (b' & -> & Hu). cbn. pose proof Hu as (Hwf & Hn & _). eexists. split_and!; try done.
  constructor; cbn; (done || by rewrite Hn).
Qed.

(** ** Properties *)

(** A page that [swap_page_out] has written is what [swap_page_in] of the same
    slot reads back, into any other frame, and neither changes any other slot nor
    any other byte of memory. *)
Theorem swap_roundtrip m w kv b m2 kv2 : swap_ok w → 0 ≤ b < w.(swap_freelist).(b_nbits) → mem_ok m →
  0 ≤ kv → mapped m kv w.(page_size) → 0 ≤ kv2 → mapped m2 kv2 w.(page_size) →
  ∃ w', swap_page_out m w kv b = Ret (m, w') ∧ swap_ok w' ∧
    (∀ b', 0 ≤ b' → b' ≠ b → swapped w' b' = swapped w b') ∧
    swap_page_in m2 w' kv2 b =
      Ret (pour m2 (seqZ kv2 w.(page_size)) (gather m (seqZ kv w.(page_size))), w').
Proof.
  intros Hw Hb Hmem Hkv Hm Hkv2 Hm2.
  destruct (page_out_correct m w kv b Hw Hb Hkv Hm Hmem) as (w' & Hout & Hw' & Hfl & Hps & Hsw & Hoth).
  exists w'. split_and!; [done..|]. rewrite (page_in_correct m2 w' kv2 b) by (rewrite ?Hfl, ?Hps; done). by rewrite Hsw, Hps.
Qed.

(** A swap space of four one-sector pages. *)
Definition small_swap : swap :=
  Swap (Bitmap 4 [240]) (Fs 0 (Bitmap 0 []) false (replicate 4 zero_block) [] []) 512.

Definition small_ram : memory := with_bytes ∅ 4096 (replicate 512 7 ++ replicate 512 9).

Lemma small_swap_ok : swap_ok small_swap.
Proof.
  constructor; [done| |done| |done].
  - split_and!; cbn; [lia|lia|done|by repeat constructor|]. intros i Hi.
    assert (i = 4 ∨ i = 5 ∨ i = 6 ∨ i = 7) as Hc by lia. by repeat destruct Hc as [-> |Hc]; [..|rewrite Hc].
  - unfold small_swap, swap_space, sfs_disk. apply Forall_replicate, zero_is_block.
Qed.

Lemma small_ram_mapped a : 4096 ≤ a → a + 512 ≤ 5120 → mapped small_ram a 512.
Proof.
  intros ? ? k Hk. unfold small_ram. rewrite with_bytes_lookup, length_app, !length_replicate.
  rewrite decide_True by lia. apply lookup_lt_is_Some_2. rewrite length_app, !length_replicate. lia.
Qed.

Lemma small_ram_ok : mem_ok small_ram.
Proof.
  intros k x. unfold small_ram. rewrite with_bytes_lookup. case_decide; [|done].
  intros [Hx|[_ Hx]]%lookup_app_Some; apply lookup_replicate in Hx as [-> _]; lia.
Qed.

Lemma swap_roundtrip_witness :
  ∃ w', swap_page_out small_ram small_swap 4096 2 = Ret (small_ram, w') ∧ swap_ok w' ∧
    (∀ b', 0 ≤ b' → b' ≠ 2 → swapped w' b' = swapped small_swap b') ∧
    swap_page_in small_ram w' 4608 2 =
      Ret (pour small_ram (seqZ 4608 small_swap.(page_size)) (gather small_ram (seqZ 4096 small_swap.(page_size))), w').
Proof.
  apply (swap_roundtrip small_ram small_swap 4096 2 small_ram 4608 small_swap_ok);
    [done|apply small_ram_ok|done|apply small_ram_mapped; done|done|apply small_ram_mapped; done].
Defined.
