(* ===== verification/PageTable.v ===== *)
(** * Page tables (kern/vm/pagetable.c)

    A table of 1024 subtables of 1024 entries, with a bitmap at each level that
    says which slots are in use.  A slot is [None] as long as nothing has been
    stored in it.  [pt_locked] is the lock of the table; the caller is the only
    thread that uses it, so taking it twice never ends.  The spinlocks of the
    entries are left out. *)

From S2P Require Import Prelude Synch CString UserCopy Uio Bitmap Sfs SfsIo Swap.

(** ** Data *)

Definition PAGETABLE_VALID : Z := 1.
Definition PAGETABLE_INMEM : Z := 2.
Definition PAGETABLE_DIRTY : Z := 4.
Definition PAGETABLE_REQUEST_FREE : Z := 8.
Definition PAGETABLE_READABLE : Z := 16.
Definition PAGETABLE_WRITEABLE : Z := 32.
Definition PAGETABLE_EXECUTABLE : Z := 64.
Definition PAGETABLE_REQUEST_DESTROY : Z := 128.

Record pagetable_entry := Entry { pe_addr : Z; pe_swap : Z; pe_flags : Z }.
Record pagetable_subtable := Subtable { st_valids : bitmap; st_ptr : list (option pagetable_entry) }.
Record pagetable := Pagetable { pt_valids : bitmap; pt_ptr : list (option pagetable_subtable); pt_locked : bool }.

Definition set_locked (t : pagetable) (b : bool) : pagetable := Pagetable t.(pt_valids) t.(pt_ptr) b.
Definition set_flags (e : pagetable_entry) (flags : Z) : pagetable_entry := Entry e.(pe_addr) e.(pe_swap) (u8 flags).

(** ** Operations *)

Definition pagetable_create (o : script) : res (option pagetable * script) :=
  let '(ok, o) := kmalloc o in
  if negb ok then Ret (None, o) else
  let '(lock, o) := lock_create o in
  if negb (bool_decide (is_Some lock)) then Ret (None, o) else
  '(valids, o) ← bitmap_create 1024 o;
  match valids with
  | None => Ret (None, o)
  | Some valids =>
      let '(ok, o) := kmalloc o in
      if negb ok then Ret (None, o) else
      Ret (Some (Pagetable valids (replicate 1024 None) false), o)
  end.

Definition pagetable_create_subtable (o : script) : res (option pagetable_subtable * script) :=
  let '(ok, o) := kmalloc o in
  if negb ok then Ret (None, o) else
  '(valids, o) ← bitmap_create 1024 o;
  match valids with
  | None => Ret (None, o)
  | Some valids =>
      let '(ok, o) := kmalloc o in
      if negb ok then Ret (None, o) else
      Ret (Some (Subtable valids (replicate 1024 None)), o)
  end.

Definition mainindex (addr : Z) : Z := Z.shiftr (Z.shiftr addr 12) 10.
Definition subindex (addr : Z) : Z := Z.land (Z.shiftr addr 12) 1023.

(** A pointer to an entry: the two indices. *)
Definition entry_ref : Type := Z * Z.

Definition get_subtable (t : pagetable) (i : Z) : res pagetable_subtable :=
  p ← t.(pt_ptr).[i];
  deref p.

Definition set_subtable (t : pagetable) (i : Z) (st : pagetable_subtable) : res pagetable :=
  ptr ← t.(pt_ptr).[i <- Some st];
  Ret (Pagetable t.(pt_valids) ptr t.(pt_locked)).

Definition get_entry (t : pagetable) (r : entry_ref) : res pagetable_entry :=
  st ← get_subtable t r.1;
  p ← st.(st_ptr).[r.2];
  deref p.

Definition set_entry (t : pagetable) (r : entry_ref) (e : pagetable_entry) : res pagetable :=
  st ← get_subtable t r.1;
  ptr ← st.(st_ptr).[r.2 <- Some e];
  set_subtable t r.1 (Subtable st.(st_valids) ptr).

Definition pagetable_lookup (t : pagetable) (addr : Z) : res (option entry_ref * pagetable) :=
  let i := mainindex addr in
  let j := subindex addr in
  b ← bitmap_isset t.(pt_valids) i;
  if negb b then Ret (None, t) else
  st ← get_subtable t i;
  b ← bitmap_isset st.(st_valids) j;
  if negb b then Ret (None, t) else
  entry ← st.(st_ptr).[j];
  match entry with
  | None => Ret (None, t)
  | Some entry =>
      if negb (Z.land (if entry.(pe_flags) =? 0 then 1 else 0) PAGETABLE_VALID =? 0) then
        valids ← bitmap_unmark st.(st_valids) j;
        ptr ← st.(st_ptr).[j <- None];
        t ← set_subtable t i (Subtable valids ptr);
        Ret (None, t)
      else Ret (Some (i, j), t)
  end.

(** [lock_acquire] and [lock_release] of the lock of the table. *)
Definition lock_table (t : pagetable) : res pagetable :=
  if t.(pt_locked) then Diverge else Ret (set_locked t true).
Definition unlock_table (t : pagetable) : res pagetable :=
  _ ← kassert t.(pt_locked);
  Ret (set_locked t false).

(** The subtable of slot [i], made if need be: [false] when there is no memory.
    Nobody else adds it while the lock is released to call [kmalloc]; if somebody
    did, the code would go on with the subtable it has freed. *)
Definition need_subtable (t : pagetable) (i : Z) (o : script) : res (bool * pagetable * script) :=
  b ← bitmap_isset t.(pt_valids) i;
  if negb b then
    t ← unlock_table t;
    '(subtable, o) ← pagetable_create_subtable o;
    t ← lock_table t;
    match subtable with
    | None => Ret (false, t, o)
    | Some subtable =>
        b ← bitmap_isset t.(pt_valids) i;
        if negb b then
          valids ← bitmap_mark t.(pt_valids) i;
          t ← set_subtable (Pagetable valids t.(pt_ptr) t.(pt_locked)) i subtable;
          Ret (true, t, o)
        else Undef
    end
  else Ret (true, t, o).

Definition entry_flags (flags : Z) : Z := u8 (Z.lor (Z.lor flags PAGETABLE_VALID) PAGETABLE_INMEM).

(** The page has no entry yet. *)
Definition new_entry (t : pagetable) (i j paddr flags : Z) (w : swap) (o : script)
    : res (bool * pagetable * swap * script) :=
  t ← unlock_table t;
  let '(ok, o) := kmalloc o in
  if negb ok then Undef else
  '(err, block, w) ← swap_allocate w;
  if negb (err =? 0) then Ret (false, t, w, o) else
  let entry := Entry (Z.shiftr paddr 12) block (entry_flags flags) in
  t ← lock_table t;
  st ← get_subtable t i;
  valids ← bitmap_mark st.(st_valids) j;
  t ← set_subtable t i (Subtable valids st.(st_ptr));
  t ← set_entry t (i, j) entry;
  t ← unlock_table t;
  Ret (true, t, w, o).

(** The entry of the page is used again. *)
Definition reuse_entry (t : pagetable) (i j paddr flags : Z) (w : swap) (o : script)
    : res (bool * pagetable * swap * script) :=
  entry ← get_entry t (i, j);
  t ← set_entry t (i, j) (Entry (Z.shiftr paddr 12) entry.(pe_swap) entry.(pe_flags));
  '(err, block, w) ← swap_allocate w;
  if negb (err =? 0) then Ret (false, t, w, o) else
  t ← set_entry t (i, j) (Entry (Z.shiftr paddr 12) block (entry_flags flags));
  t ← unlock_table t;
  Ret (true, t, w, o).

Definition pagetable_add (t : pagetable) (vaddr paddr flags : Z) (w : swap) (o : script)
    : res (bool * pagetable * swap * script) :=
  let i := mainindex vaddr in
  let j := subindex vaddr in
  t ← lock_table t;
  '(ok, t, o) ← need_subtable t i o;
  if negb ok then Ret (false, t, w, o) else
  st ← get_subtable t i;
  b ← bitmap_isset st.(st_valids) j;
  if negb b then new_entry t i j paddr flags w o else reuse_entry t i j paddr flags w o.

(** ** Specification *)

(** The entry of page number [p]. *)
Definition sub_view (st : pagetable_subtable) (j : Z) : option pagetable_entry :=
  if bit st.(st_valids) j then mjoin (st.(st_ptr) !! Z.to_nat j) else None.

Definition view (t : pagetable) (p : Z) : option pagetable_entry :=
  if bit t.(pt_valids) (p / 1024) then
    st ← mjoin (t.(pt_ptr) !! Z.to_nat (p / 1024));
    sub_view st (p mod 1024)
  else None.

Definition page_no (addr : Z) : Z := addr / 4096.

(** The bitmap of 1024 slots: those in use hold something good. *)
Record slots_ok {A} (good : A → Prop) (valids : bitmap) (ptr : list (option A)) : Prop := SlotsOk {
  sl_map : wf valids;
  sl_bits : valids.(b_nbits) = 1024;
  sl_length : length ptr = 1024%nat;
  sl_used i : 0 ≤ i < 1024 → bit valids i = true → ∃ x, ptr !! Z.to_nat i = Some (Some x) ∧ good x
}.

Definition sub_ok (st : pagetable_subtable) : Prop := slots_ok (λ _, True) st.(st_valids) st.(st_ptr).
Definition pt_ok (t : pagetable) : Prop := slots_ok sub_ok t.(pt_valids) t.(pt_ptr).

(** ** Slots *)

(** Bit [i] of [b'] is [x], the others are those of [b]. *)
Definition bit_is (b : bitmap) (i : Z) (x : bool) (b' : bitmap) : Prop :=
  wf b' ∧ b'.(b_nbits) = b.(b_nbits) ∧ ∀ k, 0 ≤ k → bit b' k = if k =? i then x else bit b k.

Lemma bit_is_same b i : wf b → bit_is b i (bit b i) b.
Proof. intros Hb. split_and!; [done..|]. intros k Hk. by case_cmp; subst. Qed.

Section Slots.
Context {A : Type} (good : A → Prop).
Implicit Types (v : bitmap) (l : list (option A)).

Lemma slots_isset v l i : slots_ok good v l → 0 ≤ i < 1024 → bitmap_isset v i = Ret (bit v i).
Proof. intros [Hm Hn _ _] Hi. apply isset_correct; [done|]. destruct (wf_length v Hm). lia. Qed.

Lemma slots_put v l i v' x : slots_ok good v l → 0 ≤ i < 1024 → bit_is v i true v' → good x →
  slots_ok good v' (<[Z.to_nat i := Some x]> l).
Proof.
  intros [Hm Hn Hl Hu] Hi (Hm' & Hn' & Hb) Hx. constructor; [done|congruence|by rewrite length_insert|].
  intros k Hk. rewrite Hb by lia. destruct (Z.eqb_spec k i) as [->|Hne].
  - intros _. exists x. by rewrite list_lookup_insert_eq by lia.
  - intros (y & Hy & ?)%Hu; [|done]. exists y. by rewrite list_lookup_insert_ne by lia.
Qed.

Lemma slots_clear v l i v' : slots_ok good v l → 0 ≤ i < 1024 → bit_is v i false v' →
  slots_ok good v' (<[Z.to_nat i := None]> l).
Proof.
  intros [Hm Hn Hl Hu] Hi (Hm' & Hn' & Hb). constructor; [done|congruence|by rewrite length_insert|].
  intros k Hk. rewrite Hb by lia. destruct (Z.eqb_spec k i) as [->|Hne]; [done|].
  intros (y & Hy & ?)%Hu; [|done]. exists y. by rewrite list_lookup_insert_ne by lia.
Qed.

(** Reading slot [k] through its bit, after slot [i] has become [x]. *)
Lemma slots_read v l i v' (x : option A) k : slots_ok good v l → 0 ≤ i < 1024 → bit_is v i (bool_decide (is_Some x)) v' →
  0 ≤ k → (if bit v' k then mjoin (<[Z.to_nat i := x]> l !! Z.to_nat k) else None) =
    if k =? i then x else if bit v k then mjoin (l !! Z.to_nat k) else None.
Proof.
  intros [Hm Hn Hl Hu] Hi (Hm' & Hn' & Hb) Hk. rewrite Hb by done. destruct (Z.eqb_spec k i) as [->|Hne].
  - rewrite list_lookup_insert_eq by lia. by destruct x.
  - by rewrite list_lookup_insert_ne by lia.
Qed.
End Slots.

Lemma sub_put st j v' e : sub_ok st → 0 ≤ j < 1024 → bit_is st.(st_valids) j true v' →
  let st' := Subtable v' (<[Z.to_nat j := Some e]> st.(st_ptr)) in
  sub_ok st' ∧ ∀ k, 0 ≤ k → sub_view st' k = if k =? j then Some e else sub_view st k.
Proof.
  intros Hst Hj Hv st'. split; [by eapply slots_put|]. intros k Hk. unfold sub_view, st'. cbn [st_valids st_ptr].
  by eapply (slots_read _ _ _ j _ (Some e)).
Qed.

Lemma sub_clear st j v' : sub_ok st → 0 ≤ j < 1024 → bit_is st.(st_valids) j false v' →
  let st' := Subtable v' (<[Z.to_nat j := None]> st.(st_ptr)) in
  sub_ok st' ∧ ∀ k, 0 ≤ k → sub_view st' k = if k =? j then None else sub_view st k.
Proof.
  intros Hst Hj Hv st'. split; [by eapply slots_clear|]. intros k Hk. unfold sub_view, st'. cbn [st_valids st_ptr].
  by eapply (slots_read _ _ _ j _ None).
Qed.

(** Subtable [i] becomes [st]. *)
Lemma table_put t i v' st l : pt_ok t → 0 ≤ i < 1024 → bit_is t.(pt_valids) i true v' → sub_ok st →
  let t' := Pagetable v' (<[Z.to_nat i := Some st]> t.(pt_ptr)) l in
  pt_ok t' ∧ ∀ p, 0 ≤ p → view t' p = if p / 1024 =? i then sub_view st (p mod 1024) else view t p.
Proof.
  intros Ht Hi Hv Hst t'. split; [by eapply slots_put|]. intros p Hp. unfold view, t'. cbn [pt_valids pt_ptr].
  destruct Hv as (_ & _ & Hb). rewrite Hb by zdiv_lia. destruct Ht as [_ _ Hl _].
  destruct (Z.eqb_spec (p / 1024) i) as [->|Hne].
  - by rewrite list_lookup_insert_eq by lia.
  - rewrite list_lookup_insert_ne; [done|]. zdiv_lia.
Qed.

Lemma set_subtable_correct t i st : pt_ok t → 0 ≤ i < 1024 →
  set_subtable t i st = Ret (Pagetable t.(pt_valids) (<[Z.to_nat i := Some st]> t.(pt_ptr)) t.(pt_locked)).
Proof. intros [_ _ Hl _] Hi. unfold set_subtable. by rewrite wr_in_range by lia. Qed.

Lemma get_subtable_correct t i : pt_ok t → 0 ≤ i < 1024 → bit t.(pt_valids) i = true →
  ∃ st, get_subtable t i = Ret st ∧ sub_ok st ∧ t.(pt_ptr) !! Z.to_nat i = Some (Some st) ∧
    ∀ p, p / 1024 = i → view t p = sub_view st (p mod 1024).
Proof.
  intros Ht Hi Hb. destruct (sl_used _ _ _ Ht i Hi Hb) as (st & Hst & Hok). exists st. unfold get_subtable.
  rewrite (rd_lookup _ i _ ltac:(lia) Hst). split_and!; [done..|]. intros p <-. unfold view. by rewrite Hb, Hst.
Qed.

(** ** Addresses and entries *)

Lemma indices addr : 0 ≤ addr < 2 ^ 32 →
  mainindex addr = page_no addr / 1024 ∧ subindex addr = page_no addr mod 1024 ∧ 0 ≤ page_no addr < 2 ^ 20.
Proof.
  intros Ha. unfold mainindex, subindex, page_no. rewrite !Z.shiftr_div_pow2 by lia.
  change 1023 with (Z.ones 10). rewrite Z.land_ones by lia. split_and!; [done|done|zdiv_lia..].
Qed.

Lemma page_index p : 0 ≤ p < 2 ^ 20 → 0 ≤ p / 1024 < 1024 ∧ 0 ≤ p mod 1024 < 1024.
Proof. intros. zdiv_lia. Qed.

Definition ref_of (p : Z) : entry_ref := (p / 1024, p mod 1024).

Lemma same_page p q : 0 ≤ p → 0 ≤ q → (q / 1024 =? p / 1024) && (q mod 1024 =? p mod 1024) = (q =? p).
Proof.
  intros. destruct (Z.eqb_spec q p) as [->|]; [by rewrite !Z.eqb_refl|].
  destruct (Z.eqb_spec (q / 1024) (p / 1024)), (Z.eqb_spec (q mod 1024) (p mod 1024)); try done. zdiv_lia.
Qed.

(** Page [p] in the subtable at hand. *)
Lemma view_put t p st st' v' l (x : option pagetable_entry) : pt_ok t → 0 ≤ p < 2 ^ 20 →
  bit_is t.(pt_valids) (p / 1024) true v' → sub_ok st' →
  (∀ q, 0 ≤ q → q / 1024 = p / 1024 → view t q = sub_view st (q mod 1024)) →
  (∀ k, 0 ≤ k → sub_view st' k = if k =? p mod 1024 then x else sub_view st k) →
  let t' := Pagetable v' (<[Z.to_nat (p / 1024) := Some st']> t.(pt_ptr)) l in
  pt_ok t' ∧ ∀ q, 0 ≤ q → view t' q = if q =? p then x else view t q.
Proof.
  intros Ht Hp Hv Hst Hold Hnew t'. destruct (page_index p Hp) as [Hi Hj].
  destruct (table_put t (p / 1024) v' st' l Ht Hi Hv Hst) as [Hok Hview]. split; [done|]. intros q Hq.
  rewrite Hview by done. rewrite <-(same_page p q) by lia. destruct (Z.eqb_spec (q / 1024) (p / 1024)) as [He|]; [|done].
  cbn [andb]. rewrite Hnew by zdiv_lia. by destruct (q mod 1024 =? p mod 1024); [|rewrite Hold].
Qed.

Lemma view_Some t p e : pt_ok t → 0 ≤ p < 2 ^ 20 → view t p = Some e →
  bit t.(pt_valids) (p / 1024) = true ∧
  ∃ st, get_subtable t (p / 1024) = Ret st ∧ sub_ok st ∧ bit st.(st_valids) (p mod 1024) = true ∧
    st.(st_ptr) !! Z.to_nat (p mod 1024) = Some (Some e) ∧
    ∀ q, q / 1024 = p / 1024 → view t q = sub_view st (q mod 1024).
Proof.
  intros Ht Hp He. destruct (page_index p Hp) as [Hi Hj]. destruct (bit t.(pt_valids) (p / 1024)) eqn:Hb.
  2: { unfold view in He. by rewrite Hb in He. }
  split; [done|]. destruct (get_subtable_correct t _ Ht Hi Hb) as (st & Hg & Hok & _ & Hview). exists st.
  rewrite (Hview p eq_refl) in He. unfold sub_view in He. destruct (bit st.(st_valids) _) eqn:Hb2; [|done].
  split_and!; try done. destruct (sl_used _ _ _ Hok _ Hj Hb2) as (e' & Hl & _). rewrite Hl in He |- *. cbn in He. congruence.
Qed.

Lemma get_entry_correct t p e : pt_ok t → 0 ≤ p < 2 ^ 20 → view t p = Some e → get_entry t (ref_of p) = Ret e.
Proof.
  intros Ht Hp He. destruct (view_Some t p e Ht Hp He) as (_ & st & Hg & _ & _ & Hl & _). unfold get_entry, ref_of. cbn [fst snd].
  rewrite Hg. cbn [mbind res_bind]. rewrite (rd_lookup _ (p mod 1024) _ ltac:(zdiv_lia) Hl). done.
Qed.

Lemma set_entry_correct t p e e' : pt_ok t → 0 ≤ p < 2 ^ 20 → view t p = Some e →
  ∃ t', set_entry t (ref_of p) e' = Ret t' ∧ pt_ok t' ∧ t'.(pt_locked) = t.(pt_locked) ∧
    ∀ q, 0 ≤ q → view t' q = if q =? p then Some e' else view t q.
Proof.
  intros Ht Hp He. destruct (view_Some t p e Ht Hp He) as (Hb & st & Hg & Hst & Hb2 & _ & Hold). destruct (page_index p Hp) as [Hi Hj].
  unfold set_entry, ref_of. cbn [fst snd]. rewrite Hg. cbn [mbind res_bind]. pose proof Hst as [Hsm _ Hsl _].
  rewrite wr_in_range by lia. cbn [mbind res_bind]. rewrite set_subtable_correct by done. eexists. split; [done|].
  destruct (sub_put st (p mod 1024) st.(st_valids) e' Hst Hj) as [Hst' Hview'].
  { rewrite <-Hb2. by apply bit_is_same. }
  assert (bit_is t.(pt_valids) (p / 1024) true t.(pt_valids)) as Hbi by (rewrite <-Hb; apply bit_is_same, Ht).
  destruct (view_put t p st _ _ t.(pt_locked) (Some e') Ht Hp Hbi Hst' (λ q _, Hold q) Hview') as [Hok Hview].
  by split_and!.
Qed.

Lemma lookup_correct t addr : pt_ok t → 0 ≤ addr < 2 ^ 32 →
  let p := page_no addr in
  match view t p with
  | None => pagetable_lookup t addr = Ret (None, t)
  | Some e =>
      if e.(pe_flags) =? 0 then
        ∃ t', pagetable_lookup t addr = Ret (None, t') ∧ pt_ok t' ∧ t'.(pt_locked) = t.(pt_locked) ∧
          ∀ q, 0 ≤ q → view t' q = if q =? p then None else view t q
      else pagetable_lookup t addr = Ret (Some (ref_of p), t)
  end.
Proof.
  intros Ht Ha p. destruct (indices addr Ha) as (Hmi & Hsi & Hp). fold p in Hmi, Hsi, Hp. destruct (page_index p Hp) as [Hi Hj].
  unfold pagetable_lookup. rewrite Hmi, Hsi. rewrite (slots_isset _ _ _ _ Ht Hi). cbn [mbind res_bind].
  destruct (view t p) as [e|] eqn:He.
  - destruct (view_Some t p e Ht Hp He) as (Hb & st & Hg & Hst & Hb2 & Hl & Hold). rewrite Hb. cbn [negb]. rewrite Hg.
    cbn [mbind res_bind]. rewrite (slots_isset _ _ _ _ Hst Hj), Hb2. cbn [mbind res_bind negb].
    rewrite (rd_lookup _ (p mod 1024) _ ltac:(lia) Hl). cbn [mbind res_bind].
    destruct (Z.eqb_spec e.(pe_flags) 0); cbn [Z.land PAGETABLE_VALID Z.eqb negb]; [|done]. pose proof Hst as [Hsm Hsn Hsl _].
    destruct (unmark_correct st.(st_valids) (p mod 1024) Hsm ltac:(lia)) as (v' & Hun & Hu). 
    change (negb (Z.land 1 PAGETABLE_VALID =? 0)) with true. cbv iota. rewrite Hun. cbn [mbind res_bind].
    rewrite wr_in_range by lia. cbn [mbind res_bind]. rewrite set_subtable_correct by done. cbn [mbind res_bind].
    eexists. split; [done|]. destruct (sub_clear st (p mod 1024) v' Hst Hj Hu) as [Hst' Hview'].
    assert (bit_is t.(pt_valids) (p / 1024) true t.(pt_valids)) as Hbi by (rewrite <-Hb; apply bit_is_same, Ht).
    destruct (view_put t p st _ _ t.(pt_locked) None Ht Hp Hbi Hst' (λ q _, Hold q) Hview') as [Hok Hview].
    by split_and!.
  - destruct (bit t.(pt_valids) (p / 1024)) eqn:Hb; cbn [negb]; [|done].
    destruct (get_subtable_correct t _ Ht Hi Hb) as (st & -> & Hst & _ & Hview). cbn [mbind res_bind].
    rewrite (slots_isset _ _ _ _ Hst Hj). cbn [mbind res_bind]. rewrite (Hview p eq_refl) in He. unfold sub_view in He.
    destruct (bit st.(st_valids) (p mod 1024)) eqn:Hb2; [|done]. exfalso.
    destruct (sl_used _ _ _ Hst _ Hj Hb2) as (e & Hl & _). by rewrite Hl in He.
Qed.

(** ** Adding an entry *)

(** The outcome of [kmalloc], and that a failure is in the script. *)
Lemma kmalloc_cases o : ∃ o', kmalloc o = (true, o') ∧ (false ∈ o' → false ∈ o) ∨ kmalloc o = (false, o') ∧ false ∈ o.
Proof.
  destruct o as [|[] o]; cbn.
  - exists []. by left.
  - exists o. left. split; [done|]. by right.
  - exists o. right. split; [done|by left].
Qed.

Ltac do_kmalloc := let o' := fresh "o" in let Hk := fresh "Hk" in let Hin := fresh "Hin" in
  match goal with |- context [kmalloc ?o] => destruct (kmalloc_cases o) as (o' & [[Hk Hin]|[Hk Hin]]); rewrite Hk; cbn [negb] end.

Lemma bitmap_create_correct nb o : 0 ≤ nb < 2 ^ 32 - 8 →
  ∃ r o', bitmap_create nb o = Ret (r, o') ∧ (false ∈ o' → false ∈ o) ∧
    match r with
    | None => false ∈ o
    | Some b => wf b ∧ b.(b_nbits) = nb ∧ ∀ i, 0 ≤ i < nb → bit b i = false
    end.
Proof.
  intros Hnb. unfold bitmap_create. do_kmalloc; [do_kmalloc|].
  - destruct (bitmap_init_correct nb Hnb) as (b & -> & ? & ? & ?). cbn. eexists _, _. split_and!; [done|auto|done..].
  - eexists _, _. split_and!; [done|auto|cbn; auto 10].
  - by eexists _, _.
Qed.

Lemma create_subtable_correct o :
  ∃ r o', pagetable_create_subtable o = Ret (r, o') ∧
    match r with
    | None => false ∈ o
    | Some st => (false ∈ o' → false ∈ o) ∧ sub_ok st ∧ ∀ j, 0 ≤ j < 1024 → sub_view st j = None
    end.
Proof.
  unfold pagetable_create_subtable. do_kmalloc; [|by eexists _, _].
  destruct (bitmap_create_correct 1024 o0 ltac:(lia)) as (r & o1 & -> & Hin1 & Hr). cbn [mbind res_bind].
  destruct r as [b|]; [|eexists _, _; split; [done|cbn; auto 10]]. destruct Hr as (Hw & Hn & Hb).
  do_kmalloc; [|eexists _, _; split; [done|cbn; auto 10]]. eexists _, _. split; [done|]. split_and!; [auto| |].
  - constructor; cbn; [done|done|done|]. intros i Hi. by rewrite Hb.
  - intros j Hj. unfold sub_view. cbn [st_valids]. by rewrite Hb.
Qed.

Lemma locked_ok t b : pt_ok t → pt_ok (set_locked t b).
Proof. done. Qed.

Lemma need_subtable_correct t i o : pt_ok t → t.(pt_locked) = true → 0 ≤ i < 1024 →
  ∃ ok t' o', need_subtable t i o = Ret (ok, t', o') ∧ pt_ok t' ∧ t'.(pt_locked) = true ∧
    (∀ q, 0 ≤ q → view t' q = view t q) ∧
    if (ok : bool) then (false ∈ o' → false ∈ o) ∧ bit t'.(pt_valids) i = true
    else false ∈ o ∧ bit t.(pt_valids) i = false.
Proof.
  intros Ht Hlk Hi. unfold need_subtable. rewrite (slots_isset _ _ _ _ Ht Hi). cbn [mbind res_bind].
  destruct (bit t.(pt_valids) i) eqn:Hb; cbn [negb]; [by eexists _, _, _|].
  unfold unlock_table. rewrite Hlk. cbn [kassert mbind res_bind].
  destruct (create_subtable_correct o) as (r & o' & -> & Hr). cbn [mbind res_bind]. unfold lock_table. cbn [set_locked pt_locked mbind res_bind].
  destruct r as [st|].
  2: { eexists _, _, _. split_and!; try done. }
  destruct Hr as (Hin & Hst & Hempty). cbn [set_locked pt_valids pt_ptr pt_locked].
  rewrite (slots_isset _ _ _ _ Ht Hi), Hb. cbn [mbind res_bind negb].
  pose proof (mark_correct t.(pt_valids) i (sl_map _ _ _ Ht)) as Hm. rewrite (sl_bits _ _ _ Ht), Hb in Hm.
  destruct (Hm Hi) as (v' & -> & Hu). cbn [mbind res_bind]. unfold set_subtable. cbn [pt_ptr].
  rewrite wr_in_range by (rewrite (sl_length _ _ _ Ht); lia). cbn [mbind res_bind].
  destruct (table_put t i v' st true Ht Hi Hu Hst) as [Hok Hview]. eexists _, _, _. split_and!; [done|done|done| |split; [done|]].
  - intros q Hq. cbn [pt_valids pt_locked]. rewrite Hview by done. destruct (Z.eqb_spec (q / 1024) i) as [He|]; [|done].
    rewrite Hempty by zdiv_lia. unfold view. by rewrite He, Hb.
  - cbn [pt_valids]. destruct Hu as (_ & _ & ->); [|lia]. by rewrite Z.eqb_refl.
Qed.

Lemma new_entry_correct t p paddr flags w o : pt_ok t → t.(pt_locked) = true → 0 ≤ p < 2 ^ 20 → swap_ok w →
  bit t.(pt_valids) (p / 1024) = true → view t p = None →
  match new_entry t (p / 1024) (p mod 1024) paddr flags w o with
  | Ret (true, t', w', o') => pt_ok t' ∧ t'.(pt_locked) = false ∧ swap_ok w' ∧ (false ∈ o' → false ∈ o) ∧
      ∃ b, swap_allocate w = Ret (0, b, w') ∧
        ∀ q, 0 ≤ q → view t' q = if q =? p then Some (Entry (Z.shiftr paddr 12) b (entry_flags flags)) else view t q
  | Ret (false, t', w', _) => t' = set_locked t false ∧ swap_allocate w = Ret (ENOSPC, 0, w) ∧ w' = w
  | Undef => false ∈ o
  | _ => False
  end.
Proof.
  intros Ht Hlk Hp Hw Hb Hnone. destruct (page_index p Hp) as [Hi Hj]. unfold new_entry, unlock_table. rewrite Hlk.
  cbn [kassert mbind res_bind]. do_kmalloc; [|done].
  pose proof (swap_allocate_correct w Hw) as Ha. destruct (swap_allocate w) as [[[e b] w']| | |] eqn:Hal; try done.
  cbn [mbind res_bind]. destruct Ha as (Hw' & _ & _ & [[-> _]|(-> & -> & _)]); cbn [Z.eqb negb ENOSPC].
  2: { split_and!; try done. revert Hal. unfold swap_allocate. destruct (bitmap_alloc _) as [[?|[? ?]]| | |]; cbn; intros Hx; by simplify_eq. }
  unfold lock_table, set_locked. cbn [pt_valids pt_ptr pt_locked mbind res_bind].
  destruct (get_subtable_correct t _ Ht Hi Hb) as (st & Hg & Hst & Hl & Hview).
  assert (∀ l, get_subtable (Pagetable t.(pt_valids) t.(pt_ptr) l) (p / 1024) = Ret st) as Hg' by (intros; exact Hg).
  rewrite Hg'. cbn [mbind res_bind].
  assert (bit st.(st_valids) (p mod 1024) = false) as Hb2.
  { destruct (bit st.(st_valids) (p mod 1024)) eqn:Hb2; [|done]. destruct (sl_used _ _ _ Hst _ Hj Hb2) as (e & He & _).
    rewrite (Hview p eq_refl) in Hnone. unfold sub_view in Hnone. by rewrite Hb2, He in Hnone. }
  pose proof (mark_correct st.(st_valids) (p mod 1024) (sl_map _ _ _ Hst)) as Hm. rewrite (sl_bits _ _ _ Hst), Hb2 in Hm.
  destruct (Hm Hj) as (v' & -> & Hu). cbn [mbind res_bind]. unfold set_subtable at 1. cbn [pt_ptr].
  rewrite wr_in_range by (rewrite (sl_length _ _ _ Ht); lia). cbn [mbind res_bind].
  unfold set_entry, get_subtable. cbn [fst snd pt_ptr]. rewrite (rd_lookup _ (p / 1024) (Some (Subtable v' st.(st_ptr))));
    [|lia|by rewrite list_lookup_insert_eq by (rewrite (sl_length _ _ _ Ht); lia)].
  cbn [mbind res_bind deref st_ptr st_valids]. rewrite wr_in_range by (rewrite (sl_length _ _ _ Hst); lia). cbn [mbind res_bind].
  unfold set_subtable. cbn [pt_ptr pt_valids pt_locked].
  rewrite wr_in_range by (rewrite length_insert, (sl_length _ _ _ Ht); lia). cbn [mbind res_bind pt_locked pt_valids pt_ptr kassert].
  unfold set_locked. cbn [pt_valids pt_ptr]. rewrite list_insert_insert_eq.
  destruct (sub_put st (p mod 1024) v' (Entry (Z.shiftr paddr 12) b (entry_flags flags)) Hst Hj Hu) as [Hst' Hview'].
  assert (bit_is t.(pt_valids) (p / 1024) true t.(pt_valids)) as Hbi by (rewrite <-Hb; apply bit_is_same, Ht).
  destruct (view_put t p st _ _ false (Some (Entry (Z.shiftr paddr 12) b (entry_flags flags))) Ht Hp Hbi Hst' (λ q _, Hview q) Hview')
    as [Hok Hview2]. split_and!; [done..|]. by exists b.
Qed.

Lemma reuse_entry_correct t p e paddr flags w o : pt_ok t → t.(pt_locked) = true → 0 ≤ p < 2 ^ 20 → swap_ok w →
  view t p = Some e →
  match reuse_entry t (p / 1024) (p mod 1024) paddr flags w o with
  | Ret (true, t', w', o') => pt_ok t' ∧ t'.(pt_locked) = false ∧ swap_ok w' ∧ (false ∈ o' → false ∈ o) ∧
      ∃ b, swap_allocate w = Ret (0, b, w') ∧
        ∀ q, 0 ≤ q → view t' q = if q =? p then Some (Entry (Z.shiftr paddr 12) b (entry_flags flags)) else view t q
  | Ret (false, t', w', _) => pt_ok t' ∧ t'.(pt_locked) = true ∧ swap_allocate w = Ret (ENOSPC, 0, w) ∧ w' = w ∧
      ∀ q, 0 ≤ q → view t' q = if q =? p then Some (Entry (Z.shiftr paddr 12) e.(pe_swap) e.(pe_flags)) else view t q
  | _ => False
  end.
Proof.
  intros Ht Hlk Hp Hw He. unfold reuse_entry. change (p / 1024, p mod 1024) with (ref_of p).
  rewrite (get_entry_correct t p e Ht Hp He). cbn [mbind res_bind].
  destruct (set_entry_correct t p e (Entry (Z.shiftr paddr 12) e.(pe_swap) e.(pe_flags)) Ht Hp He) as (t1 & -> & Ht1 & Hl1 & Hv1).
  cbn [mbind res_bind]. pose proof (swap_allocate_correct w Hw) as Ha.
  destruct (swap_allocate w) as [[[err b] w']| | |] eqn:Hal; try done. cbn [mbind res_bind].
  destruct Ha as (Hw' & _ & _ & [[-> _]|(-> & -> & _)]); cbn [Z.eqb negb ENOSPC].
  2: { split_and!; try done; [congruence|]. revert Hal. unfold swap_allocate.
       destruct (bitmap_alloc _) as [[?|[? ?]]| | |]; cbn; intros Hx; by simplify_eq. }
  assert (view t1 p = Some (Entry (Z.shiftr paddr 12) e.(pe_swap) e.(pe_flags))) as He1 by (rewrite Hv1 by lia; by rewrite Z.eqb_refl).
  destruct (set_entry_correct t1 p _ (Entry (Z.shiftr paddr 12) b (entry_flags flags)) Ht1 Hp He1) as (t2 & -> & Ht2 & Hl2 & Hv2).
  cbn [mbind res_bind]. unfold unlock_table. rewrite Hl2, Hl1, Hlk. cbn [kassert mbind res_bind].
  split_and!; [done..|]. exists b. split; [done|]. intros q Hq. change (view (set_locked t2 false) q) with (view t2 q).
  rewrite Hv2, Hv1 by done. by destruct (q =? p).
Qed.

(** What [pagetable_add] of page [p] does: the entry is there with a new slot of the
    swap space; or there was no memory for a subtable; or the swap space is full;
    or the entry could not be allocated. *)
Definition added (t : pagetable) (p paddr flags : Z) (w : swap) (o : script)
    (r : res (bool * pagetable * swap * script)) : Prop :=
  match r with
  | Ret (true, t', w', o') => pt_ok t' ∧ t'.(pt_locked) = false ∧ swap_ok w' ∧ (false ∈ o' → false ∈ o) ∧
      ∃ b, swap_allocate w = Ret (0, b, w') ∧
        ∀ q, 0 ≤ q → view t' q = if q =? p then Some (Entry (Z.shiftr paddr 12) b (entry_flags flags)) else view t q
  | Ret (false, t', w', _) => pt_ok t' ∧ w' = w ∧ (∀ q, 0 ≤ q → q ≠ p → view t' q = view t q) ∧
      (false ∈ o ∧ t'.(pt_locked) = true ∧ view t' p = view t p ∨
       swap_allocate w = Ret (ENOSPC, 0, w) ∧
         match view t p with
         | None => t'.(pt_locked) = false ∧ view t' p = None
         | Some e => t'.(pt_locked) = true ∧ view t' p = Some (Entry (Z.shiftr paddr 12) e.(pe_swap) e.(pe_flags))
         end)
  | Undef => false ∈ o
  | _ => False
  end.

Lemma add_correct t addr paddr flags w o : pt_ok t → t.(pt_locked) = false → 0 ≤ addr < 2 ^ 32 → swap_ok w →
  added t (page_no addr) paddr flags w o (pagetable_add t addr paddr flags w o).
Proof.
  intros Ht Hlk Ha Hw. set (p := page_no addr). destruct (indices addr Ha) as (Hmi & Hsi & Hp). fold p in Hmi, Hsi, Hp.
  destruct (page_index p Hp) as [Hi Hj]. unfold pagetable_add. rewrite Hmi, Hsi. unfold lock_table. rewrite Hlk. cbn [mbind res_bind].
  destruct (need_subtable_correct (set_locked t true) (p / 1024) o Ht eq_refl Hi) as (ok & t1 & o1 & -> & Ht1 & Hl1 & Hv1 & Hok).
  change (view (set_locked t true)) with (view t) in Hv1. cbn [mbind res_bind]. destruct ok; cbn [negb].
  2: { cbn. split_and!; [done|done|by intros; apply Hv1|]. left. split_and!; [by destruct Hok|done|apply Hv1; lia]. }
  destruct Hok as [Hin Hb]. destruct (get_subtable_correct t1 _ Ht1 Hi Hb) as (st & -> & Hst & _ & Hview). cbn [mbind res_bind].
  rewrite (slots_isset _ _ _ _ Hst Hj). cbn [mbind res_bind].
  assert (view t p = sub_view st (p mod 1024)) as Hvp by (rewrite <-Hv1 by lia; by apply Hview).
  destruct (bit st.(st_valids) (p mod 1024)) eqn:Hb2; cbn [negb].
  - destruct (sl_used _ _ _ Hst _ Hj Hb2) as (e & Hl & _). unfold sub_view in Hvp. rewrite Hb2, Hl in Hvp. cbn in Hvp.
    pose proof (reuse_entry_correct t1 p e paddr flags w o1 Ht1 Hl1 Hp Hw) as Hr. rewrite Hv1 in Hr by lia. specialize (Hr Hvp).
    destruct (reuse_entry _ _ _ _ _ _ _) as [[[[[] t'] w'] o']| | |]; cbn; try done.
    + destruct Hr as (? & ? & ? & ? & b & ? & Hv'). split_and!; [done..|by auto|]. exists b. split; [done|]. intros q Hq. by rewrite Hv', Hv1.
    + destruct Hr as (? & ? & ? & ? & Hv'). split_and!; [done..| |].
      * intros q Hq Hne. rewrite Hv', Hv1 by done. by destruct (Z.eqb_spec q p).
      * right. split; [done|]. rewrite Hvp. split; [done|]. rewrite Hv' by lia. by rewrite Z.eqb_refl.
  - unfold sub_view in Hvp. rewrite Hb2 in Hvp.
    pose proof (new_entry_correct t1 p paddr flags w o1 Ht1 Hl1 Hp Hw Hb) as Hr. rewrite Hv1 in Hr by lia. specialize (Hr Hvp).
    destruct (new_entry _ _ _ _ _ _ _) as [[[[[] t'] w'] o']| | |]; cbn; try done; [| |auto].
    + destruct Hr as (? & ? & ? & ? & b & ? & Hv'). split_and!; [done..|by auto|]. exists b. split; [done|]. intros q Hq. by rewrite Hv', Hv1.
    + destruct Hr as (-> & ? & ->). split_and!; [done|done|by intros; apply Hv1|]. right. split; [done|]. rewrite Hvp.
      split; [done|]. change (view (set_locked t1 false) p) with (view t1 p). rewrite Hv1 by lia. done.
Qed.

Lemma pagetable_create_fresh o :
  ∃ r o', pagetable_create o = Ret (r, o') ∧
    match r with
    | None => false ∈ o
    | Some t => (false ∈ o' → false ∈ o) ∧ pt_ok t ∧ t.(pt_locked) = false ∧ ∀ i, 0 ≤ i < 1024 → bit t.(pt_valids) i = false
    end.
Proof.
  unfold pagetable_create, lock_create, create. do_kmalloc; [|by eexists _, _].
  do_kmalloc; [|rewrite bool_decide_false by (by intros []); eexists _, _; split; [done|cbn; auto 10]].
  do_kmalloc; [|rewrite bool_decide_false by (by intros []); eexists _, _; split; [done|cbn; auto 10]].
  do_kmalloc; [|rewrite bool_decide_false by (by intros []); eexists _, _; split; [done|cbn; auto 10]].
  rewrite bool_decide_true by done. cbn [negb].
  destruct (bitmap_create_correct 1024 o3 ltac:(lia)) as (r & o4 & -> & Hin4 & Hr). cbn [mbind res_bind].
  destruct r as [b|]; [|eexists _, _; split; [done|cbn; auto 10]]. destruct Hr as (Hw & Hn & Hb).
  do_kmalloc; [|eexists _, _; split; [done|cbn; auto 10]]. eexists _, _. split; [done|]. split_and!; [by auto 10| |done|done].
  constructor; cbn; [done|done|done|]. intros i Hi. by rewrite Hb.
Qed.

Lemma pagetable_create_correct o :
  ∃ r o', pagetable_create o = Ret (r, o') ∧
    match r with
    | None => false ∈ o
    | Some t => pt_ok t ∧ t.(pt_locked) = false ∧ ∀ p, 0 ≤ p < 2 ^ 20 → view t p = None
    end.
Proof.
  destruct (pagetable_create_fresh o) as ([t|] & o' & Hc & Ht); eexists _, _; (split; [exact Hc|]); [|done].
  destruct Ht as (_ & Ht & Hl & Hb). split_and!; [done|done|]. intros p Hp. unfold view. by rewrite Hb by zdiv_lia.
Qed.

(** ** Properties *)

(** C24: [pagetable_add], when memory and a slot of swap space are to be had, makes or
    replaces the entry of the page: a lookup of any address of the page then finds
    it, with the frame, a slot that was free, and the flags; every other page has the
    entry it had; and the lock of the table is free again. *)
Theorem pagetable_add_lookup t addr paddr flags w o i : pt_ok t → t.(pt_locked) = false → 0 ≤ addr < 2 ^ 32 → swap_ok w →
  0 ≤ i < w.(swap_freelist).(b_nbits) → bit w.(swap_freelist) i = false → false ∉ o →
  ∃ t' w' o' b, pagetable_add t addr paddr flags w o = Ret (true, t', w', o') ∧ pt_ok t' ∧ t'.(pt_locked) = false ∧
    bit w.(swap_freelist) b = false ∧ updated w.(swap_freelist) b true w'.(swap_freelist) ∧
    (∀ addr', 0 ≤ addr' < 2 ^ 32 → page_no addr' = page_no addr → pagetable_lookup t' addr' = Ret (Some (ref_of (page_no addr)), t')) ∧
    get_entry t' (ref_of (page_no addr)) = Ret (Entry (Z.shiftr paddr 12) b (entry_flags flags)) ∧
    ∀ q, 0 ≤ q → q ≠ page_no addr → view t' q = view t q.
Proof.
  intros Ht Hl Ha Hw Hi Hbit Ho. pose proof (add_correct t addr paddr flags w o Ht Hl Ha Hw) as Hadd. destruct (indices addr Ha) as (_ & _ & Hp).
  pose proof (swap_allocate_correct w Hw) as Hal.
  destruct (pagetable_add t addr paddr flags w o) as [[[[[] t'] w'] o']| | |]; cbn [added] in Hadd; try done.
  - destruct Hadd as (Ht' & Hl' & _ & _ & b & Hb & Hview). rewrite Hb in Hal.
    destruct Hal as (_ & _ & _ & [(_ & _ & Hfree & Hup)|[? _]]); [|done].
    assert (view t' (page_no addr) = Some (Entry (Z.shiftr paddr 12) b (entry_flags flags))) as Hv
      by (rewrite Hview by lia; by rewrite Z.eqb_refl).
    exists t', w', o', b. split_and!; [done..| |by apply get_entry_correct|].
    + intros addr' Ha' Hpage. pose proof (lookup_correct t' addr' Ht' Ha') as Hlk. cbv zeta in Hlk. rewrite Hpage, Hv in Hlk.
      destruct (Z.eqb_spec (pe_flags (Entry (Z.shiftr paddr 12) b (entry_flags flags))) 0) as [He|]; [|done].
      apply (f_equal (λ z, Z.testbit z 0)) in He. cbn [pe_flags] in He. revert He. unfold entry_flags, u8.
      change 256 with (2 ^ 8). by rewrite Z.mod_pow2_bits_low, !Z.lor_spec, orb_true_r by lia.
    + intros q Hq Hne. rewrite Hview by done. by rewrite (proj2 (Z.eqb_neq _ _)).
  - exfalso. destruct Hadd as (_ & _ & _ & [[? _]|[Hno _]]); [done|]. rewrite Hno in Hal.
    destruct Hal as (_ & _ & _ & [[? _]|(_ & _ & Hfull)]); [done|]. by rewrite Hfull in Hbit.
Qed.

Lemma pagetable_add_lookup_witness : ∃ t t' w' o' b, pagetable_add t 4194304 8192 32 small_swap [] = Ret (true, t', w', o') ∧
  pagetable_lookup t' 4194400 = Ret (Some (1, 0), t') ∧ get_entry t' (1, 0) = Ret (Entry 2 b 35).
Proof.
  destruct (pagetable_create_correct []) as ([t|] & o & _ & Ht); [|by apply not_elem_of_nil in Ht]. destruct Ht as (Hok & Hl & _). exists t.
  destruct (pagetable_add_lookup t 4194304 8192 32 small_swap [] 0 Hok Hl ltac:(lia) small_swap_ok ltac:(cbn; lia) eq_refl (not_elem_of_nil _))
    as (t' & w' & o' & b & Hadd & _ & _ & _ & _ & Hlk & Hget & _).
  exists t', w', o', b. split; [exact Hadd|]. split; [exact (Hlk 4194400 ltac:(lia) eq_refl)|exact Hget].
Defined.

(** When there is no memory for the subtable of the page, [pagetable_add] fails with
    the lock of the table still held: the next call on the table, for any page, never
    returns. *)
Theorem pagetable_add_keeps_lock t addr paddr flags w o : pt_ok t → t.(pt_locked) = false → 0 ≤ addr < 2 ^ 32 →
  bit t.(pt_valids) (mainindex addr) = false →
  ∃ t', pagetable_add t addr paddr flags w (false :: o) = Ret (false, t', w, o) ∧
    ∀ addr' paddr' flags' w' o', pagetable_add t' addr' paddr' flags' w' o' = Diverge.
Proof.
  intros Ht Hl Ha Hb. destruct (indices addr Ha) as (Hmi & _ & Hp). destruct (page_index _ Hp) as [Hi _]. rewrite Hmi in Hb.
  exists (set_locked (set_locked (set_locked t true) false) true). split; [|done].
  unfold pagetable_add, lock_table, need_subtable. rewrite Hl, Hmi. cbn [mbind res_bind].
  rewrite (slots_isset sub_ok _ t.(pt_ptr)) by done. change (pt_valids (set_locked t true)) with t.(pt_valids). by rewrite Hb.
Qed.

Lemma pagetable_add_keeps_lock_witness : ∃ t t', pagetable_add t 4194304 8192 32 small_swap [false] = Ret (false, t', small_swap, []) ∧
  pagetable_add t' 0 4096 0 small_swap [] = Diverge.
Proof.
  destruct (pagetable_create_correct []) as ([t|] & o & Hc & Ht); [|by apply not_elem_of_nil in Ht]. destruct Ht as (Hok & Hl & _).
  destruct (pagetable_add_keeps_lock t 4194304 8192 32 small_swap [] Hok Hl ltac:(lia)) as (t' & Hadd & Hd).
  - vm_compute in Hc. injection Hc as <- _. reflexivity.
  - exists t, t'. split; [exact Hadd|]. exact (Hd 0 4096 0 small_swap []).
Defined.
