(* ===== verification/Coremap.v ===== *)
(** * Physical memory (kern/vm/coremap.c, kern/arch/mips/vm/mipsvm.c)

    The core map has an entry for each page frame, and two bitmaps: the frames in
    use ([coremap_free]) and those that may not be evicted now
    ([coremap_swappable]).  Each operation runs alone: [coremap_spinlock] protects
    the bitmaps, and no other thread is in the core map at the same time.  No code
    takes [coremap_lock], so [coremap_held] is [false] in a running system.

    The state [vm] also has what evicting a page reaches: the address spaces of the
    processes, the swap space and the TLB of the one processor. *)

From S2P Require Import Prelude Synch CString UserCopy Uio Bitmap Sfs SfsIo Swap PageTable.

(** ** Data *)

Definition COREMAP_INUSE : Z := 8.
Definition COREMAP_SWAPPABLE : Z := 4.
Definition COREMAP_MULTI : Z := 2.
Definition COREMAP_DIRTY : Z := 1.

Record coremap_entry := Centry { ce_flags : Z; ce_pid : Z; ce_vaddr : Z }.

Record addrspace := Addrspace {
  as_pages : pagetable;
  as_pid : Z;
  as_destroying : bool;
  as_destroy_count : Z;
  as_loading : bool;
  as_heap_end : Z;
  as_heap_start : Z;
  as_stack_base : Z
}.

Record vm := Vm {
  base : Z;
  coremap : list coremap_entry;
  coremap_free : bitmap;
  coremap_swappable : bitmap;
  coremap_held : bool;
  ram : memory;
  vm_swap : swap;
  procs : gmap Z (option addrspace);
  tlb : list (Z * Z)
}.

Definition coremap_length (s : vm) : Z := Z.of_nat (length s.(coremap)).

Definition set_maps (s : vm) (f w : bitmap) : vm :=
  Vm s.(base) s.(coremap) f w s.(coremap_held) s.(ram) s.(vm_swap) s.(procs) s.(tlb).
Definition set_coremap (s : vm) (c : list coremap_entry) : vm :=
  Vm s.(base) c s.(coremap_free) s.(coremap_swappable) s.(coremap_held) s.(ram) s.(vm_swap) s.(procs) s.(tlb).
Definition set_ram (s : vm) (m : memory) : vm :=
  Vm s.(base) s.(coremap) s.(coremap_free) s.(coremap_swappable) s.(coremap_held) m s.(vm_swap) s.(procs) s.(tlb).
Definition set_swap (s : vm) (w : swap) : vm :=
  Vm s.(base) s.(coremap) s.(coremap_free) s.(coremap_swappable) s.(coremap_held) s.(ram) w s.(procs) s.(tlb).
Definition set_procs (s : vm) (p : gmap Z (option addrspace)) : vm :=
  Vm s.(base) s.(coremap) s.(coremap_free) s.(coremap_swappable) s.(coremap_held) s.(ram) s.(vm_swap) p s.(tlb).
Definition set_tlb (s : vm) (l : list (Z * Z)) : vm :=
  Vm s.(base) s.(coremap) s.(coremap_free) s.(coremap_swappable) s.(coremap_held) s.(ram) s.(vm_swap) s.(procs) l.

Definition set_pages (a : addrspace) (t : pagetable) : addrspace :=
  Addrspace t a.(as_pid) a.(as_destroying) a.(as_destroy_count) a.(as_loading) a.(as_heap_end) a.(as_heap_start)
    a.(as_stack_base).
Definition set_destroy_count (a : addrspace) (n : Z) : addrspace :=
  Addrspace a.(as_pages) a.(as_pid) a.(as_destroying) n a.(as_loading) a.(as_heap_end) a.(as_heap_start) a.(as_stack_base).

(** ** Addresses *)

Definition PAGE_SIZE : Z := 4096.
Definition MIPS_KSEG0 : Z := 2 ^ 31.
Definition MIPS_KSEG2 : Z := 3 * 2 ^ 30.
Definition PADDR_TO_KVADDR (paddr : Z) : Z := u32 (paddr + MIPS_KSEG0).

Definition coremap_untranslate (s : vm) (idx : Z) : Z := u32 (Z.shiftl idx 12 + s.(base)).
Definition coremap_translate (s : vm) (paddr : Z) : Z :=
  Z.shiftr (Z.land (u32 (paddr - s.(base))) (Z.shiftl (Z.ones 20) 12)) 12.

Definition zero_frame : list Z := replicate 4096 0.

(** [memset(kvaddr, 0, PAGE_SIZE)] *)
Definition zero_page (s : vm) (kvaddr : Z) : res vm :=
  let '(m, ok) := store_bytes s.(ram) kvaddr zero_frame in
  if (ok : bool) then Ret (set_ram s m) else Undef.

(** ** The TLB *)

Definition TLBHI_VPAGE : Z := Z.shiftl (Z.ones 20) 12.
Definition TLBHI_PID : Z := Z.shiftl (Z.ones 6) 6.
Definition TLBLO_DIRTY : Z := 1024.
Definition TLBLO_VALID : Z := 512.
Definition TLBLO_GLOBAL : Z := 256.

(** The entries that the processor takes for those of [entryhi]: the page is the same, and the address space id
    too unless the entry is global. *)
Definition tlb_match (entryhi : Z) (e : Z * Z) : bool :=
  (Z.land e.1 TLBHI_VPAGE =? Z.land entryhi TLBHI_VPAGE) &&
  (negb (Z.land e.2 TLBLO_GLOBAL =? 0) || (Z.land e.1 TLBHI_PID =? Z.land entryhi TLBHI_PID)).

(** The index of the entry that matches [entryhi], if there is one. *)
Definition tlb_probe (l : list (Z * Z)) (entryhi : Z) : option nat :=
  fst <$> list_find (λ e, tlb_match entryhi e = true) l.

Definition tlb_write (l : list (Z * Z)) (hi lo : Z) (i : nat) : list (Z * Z) := <[i := (hi, lo)]> l.

Definition vm_tlbshootdown (s : vm) (badaddr : Z) : vm :=
  match tlb_probe s.(tlb) badaddr with
  | Some i => set_tlb s (tlb_write s.(tlb) (Z.lor MIPS_KSEG2 (Z.shiftl (Z.of_nat i) 12)) 0 i)
  | None => s
  end.

(** ** Finding frames *)

(** [bitmap_unmark] of [idx + n - 1] down to [idx]. *)
Fixpoint unmark_down (n : nat) (b : bitmap) (idx : Z) : res bitmap :=
  match n with
  | O => Ret b
  | S n' =>
      b ← bitmap_unmark b (idx + Z.of_nat n');
      unmark_down n' b idx
  end.

(** The loop that claims [idx + i ..], [n] frames more: whether it did, where it
    stopped, and the map. *)
Fixpoint claim_loop (n : nat) (b : bitmap) (idx i : Z) : res (bool * Z * bitmap) :=
  match n with
  | O => Ret (true, 0, b)
  | S n' =>
      x ← bitmap_isset b (idx + i);
      if (x : bool) then
        b ← unmark_down (Z.to_nat i) b idx;
        Ret (false, idx + i, b)
      else
        b ← bitmap_mark b (idx + i);
        claim_loop n' b idx (i + 1)
  end.

(** Frames [idx ..], [n] of them, marked where they are not. *)
Fixpoint mark_range (n : nat) (b : bitmap) (idx : Z) : res bitmap :=
  match n with
  | O => Ret b
  | S n' =>
      x ← bitmap_isset b idx;
      b ← (if negb x then bitmap_mark b idx else Ret b);
      mark_range n' b (idx + 1)
  end.

(** The search in the map [b]: the error, the index and the map. *)
Fixpoint range_loop (fuel : nat) (len : Z) (b : bitmap) (npages min : Z) : res (Z * Z * bitmap) :=
  match fuel with
  | O => Diverge
  | S fuel' =>
      if min <? len then
        r ← bitmap_alloc_after b min;
        match r with
        | inl err => Ret (err, 0, b)
        | inr (idx, b) =>
            if len <? u32 (idx + npages) then
              b ← bitmap_unmark b idx;
              Ret (ENOSPC, 0, b)
            else
              '(success, min, b) ← claim_loop (Z.to_nat (npages - 1)) b idx 1;
              if (success : bool) then Ret (0, idx, b) else range_loop fuel' len b npages min
        end
      else Ret (ENOSPC, 0, b)
  end.

Inductive which_map := FreeMap | SwappableMap.

Definition locate_range (s : vm) (map : which_map) (npages : Z) : res (Z * Z * vm) :=
  let b := match map with FreeMap => s.(coremap_free) | SwappableMap => s.(coremap_swappable) end in
  '(err, idx, b) ← range_loop (S (Z.to_nat (coremap_length s))) (coremap_length s) b npages 0;
  let s := match map with FreeMap => set_maps s b s.(coremap_swappable) | SwappableMap => set_maps s s.(coremap_free) b end in
  if negb (err =? 0) then Ret (err, 0, s) else
  f ← mark_range (Z.to_nat npages) s.(coremap_free) idx;
  w ← mark_range (Z.to_nat npages) s.(coremap_swappable) idx;
  Ret (0, idx, set_maps s f w).

(** The two loops over sixteen random numbers; [rands] are the coming results of
    [random], 0 when the list is used up. *)
Fixpoint try_exact (n : nat) (len : Z) (map : bitmap) (rands : list Z) : res (option Z * list Z) :=
  match n with
  | O => Ret (None, rands)
  | S n' =>
      let rand := default 0 (head rands) mod len in
      x ← bitmap_isset map rand;
      if negb x then Ret (Some rand, tail rands) else try_exact n' len map (tail rands)
  end.

Fixpoint try_after (n : nat) (len : Z) (map : bitmap) (rands : list Z) : res (option (Z * bitmap) * list Z) :=
  match n with
  | O => Ret (None, rands)
  | S n' =>
      let rand := default 0 (head rands) mod len in
      r ← bitmap_alloc_after map rand;
      match r with
      | inr (idx, map) => Ret (Some (idx, map), tail rands)
      | inl _ => try_after n' len map (tail rands)
      end
  end.

Definition num_rand : nat := 16.

Definition locate_random (s : vm) (rands : list Z) : res (Z * Z * vm * list Z) :=
  r ← bitmap_alloc s.(coremap_free);
  match r with
  | inr (idx, f) => Ret (0, idx, set_maps s f s.(coremap_swappable), rands)
  | inl _ =>
      r ← bitmap_alloc s.(coremap_swappable);
      match r with
      | inl err => Ret (err, 0, s, rands)
      | inr (idx, map) =>
          map ← bitmap_unmark map idx;
          '(found, rands) ← try_exact num_rand (coremap_length s) map rands;
          match found with
          | Some idx => Ret (0, idx, set_maps s s.(coremap_free) map, rands)
          | None =>
              '(found, rands) ← try_after num_rand (coremap_length s) map rands;
              match found with
              | Some (idx, map) => Ret (0, idx, set_maps s s.(coremap_free) map, rands)
              | None =>
                  r ← bitmap_alloc map;
                  match r with
                  | inl err => Ret (err, 0, set_maps s s.(coremap_free) map, rands)
                  | inr (idx, map) => Ret (0, idx, set_maps s s.(coremap_free) map, rands)
                  end
              end
          end
      end
  end.

Definition locate_swap (s : vm) (rands : list Z) : res (Z * Z * vm * list Z) := locate_random s rands.

(** ** Evicting a page *)

(** [flags & ~mask] *)
Definition clear_flag (flags mask : Z) : Z := Z.land flags (Z.lnot mask).
Definition has_flag (flags mask : Z) : bool := negb (Z.land flags mask =? 0).

Definition update_entry (s : vm) (pid : Z) (a : addrspace) (r : entry_ref) (f : pagetable_entry → pagetable_entry)
    : res (addrspace * vm) :=
  e ← get_entry a.(as_pages) r;
  t ← set_entry a.(as_pages) r (f e);
  let a := set_pages a t in
  Ret (a, set_procs s (<[pid := Some a]> s.(procs))).

(** The page is written to its slot if it has changed. *)
Definition clean_page (s : vm) (core_idx : Z) (a : addrspace) (r : entry_ref) : res (addrspace * vm) :=
  ce ← s.(coremap).[core_idx];
  if has_flag ce.(ce_flags) COREMAP_DIRTY then
    entry ← get_entry a.(as_pages) r;
    let disk_idx := entry.(pe_swap) in
    '(a, s) ← update_entry s ce.(ce_pid) a r (λ e, set_flags e (clear_flag e.(pe_flags) PAGETABLE_DIRTY));
    c ← s.(coremap).[core_idx <- Centry (clear_flag ce.(ce_flags) COREMAP_DIRTY) ce.(ce_pid) ce.(ce_vaddr)];
    let s := vm_tlbshootdown (set_coremap s c) ce.(ce_vaddr) in
    '(m, w) ← swap_page_out s.(ram) s.(vm_swap) (PADDR_TO_KVADDR (coremap_untranslate s core_idx)) disk_idx;
    Ret (a, set_swap (set_ram s m) w)
  else Ret (a, s).

(** The page is not in memory any more. *)
Definition forget_page (s : vm) (pid vaddr : Z) (a : addrspace) (r : entry_ref) : res vm :=
  entry ← get_entry a.(as_pages) r;
  let a := if a.(as_destroying) && has_flag entry.(pe_flags) PAGETABLE_REQUEST_DESTROY
           then set_destroy_count a (a.(as_destroy_count) - 1) else a in
  '(a, s) ← update_entry s pid a r
     (λ e, set_flags e (clear_flag (clear_flag e.(pe_flags) PAGETABLE_DIRTY) PAGETABLE_INMEM));
  s ← (if has_flag entry.(pe_flags) PAGETABLE_REQUEST_FREE then
         w ← swap_free s.(vm_swap) entry.(pe_swap);
         '(_, s) ← update_entry (set_swap s w) pid a r
            (λ e, set_flags e (clear_flag e.(pe_flags) PAGETABLE_VALID));
         Ret s
       else Ret s);
  Ret (vm_tlbshootdown s vaddr).

Definition coremap_swap_page_out (s : vm) (core_idx : Z) : res vm :=
  ce ← s.(coremap).[core_idx];
  proc ← deref (s.(procs) !! ce.(ce_pid));
  a ← deref proc;
  '(r, t) ← pagetable_lookup a.(as_pages) ce.(ce_vaddr);
  let a := set_pages a t in
  let s := set_procs s (<[ce.(ce_pid) := Some a]> s.(procs)) in
  match r with
  | None => Ret s
  | Some r =>
      '(a, s) ← clean_page s core_idx a r;
      forget_page s ce.(ce_pid) ce.(ce_vaddr) a r
  end.

(** ** Allocating and freeing frames *)

(** [cv_wait(coremap_cv, coremap_lock)] asserts that the lock is held; then the
    thread waits for somebody else. *)
Definition wait_for_memory {A} (s : vm) : res A :=
  _ ← kassert s.(coremap_held);
  Diverge.

(** The new entry of the [i]-th frame of an allocation. *)
Definition fresh_entry (iskern : bool) (pid vaddr i : Z) : coremap_entry :=
  let flags := Z.lor COREMAP_INUSE (if 0 <? i then COREMAP_MULTI else 0) in
  if iskern then Centry flags (u16 pid) 0 else Centry (Z.lor flags COREMAP_SWAPPABLE) (u16 pid) vaddr.

Fixpoint take_free (n : nat) (s : vm) (iskern : bool) (pid vaddr idx i : Z) : res vm :=
  match n with
  | O => Ret s
  | S n' =>
      c ← s.(coremap).[idx + i <- fresh_entry iskern pid vaddr i];
      s ← zero_page (set_coremap s c) (PADDR_TO_KVADDR (coremap_untranslate s idx));
      take_free n' s iskern pid vaddr idx (i + 1)
  end.

Fixpoint take_swapped (n : nat) (s : vm) (iskern : bool) (pid vaddr idx i : Z) : res vm :=
  match n with
  | O => Ret s
  | S n' =>
      ce ← s.(coremap).[idx + i];
      s ← (if negb (Z.lor ce.(ce_flags) COREMAP_INUSE =? 0) then coremap_swap_page_out s (idx + i) else Ret s);
      s ← zero_page s (PADDR_TO_KVADDR (coremap_untranslate s idx));
      c ← s.(coremap).[idx + i <- fresh_entry iskern pid vaddr i];
      take_swapped n' (set_coremap s c) iskern pid vaddr idx (i + 1)
  end.

Definition coremap_allocate_page (s : vm) (iskern : bool) (pid npages vaddr : Z) : res (Z * vm) :=
  '(err, idx, s) ← locate_range s FreeMap npages;
  if err =? 0 then
    s ← take_free (Z.to_nat npages) s iskern pid vaddr idx 0;
    Ret (coremap_untranslate s idx, s)
  else
    '(err, idx, s) ← locate_range s SwappableMap npages;
    if negb (err =? 0) then wait_for_memory s else
    s ← take_swapped (Z.to_nat npages) s iskern pid vaddr idx 0;
    Ret (coremap_untranslate s idx, s).

Definition coremap_swap_page (s : vm) (rands : list Z) (diskblock vaddr pid : Z) : res (Z * vm * list Z) :=
  '(err, idx, s, rands) ← locate_swap s rands;
  if negb (err =? 0) then wait_for_memory s else
  s ← coremap_swap_page_out s idx;
  let paddr := coremap_untranslate s idx in
  '(m, w) ← swap_page_in s.(ram) s.(vm_swap) (PADDR_TO_KVADDR paddr) diskblock;
  let s := set_swap (set_ram s m) w in
  c ← s.(coremap).[idx <- Centry (Z.lor COREMAP_INUSE COREMAP_SWAPPABLE) (u16 pid) vaddr];
  Ret (paddr, set_coremap s c, rands).

(** The number of frames of the allocation that starts at [idx]. *)
Fixpoint count_multi (fuel : nat) (c : list coremap_entry) (idx num : Z) : res Z :=
  match fuel with
  | O => Diverge
  | S fuel' =>
      ce ← c.[idx + num];
      if has_flag ce.(ce_flags) COREMAP_MULTI then count_multi fuel' c idx (num + 1) else Ret num
  end.

Fixpoint reset_entries (n : nat) (c : list coremap_entry) (idx : Z) : res (list coremap_entry) :=
  match n with
  | O => Ret c
  | S n' => c ← c.[idx <- Centry 0 0 0]; reset_entries n' c (idx + 1)
  end.

Fixpoint unmark_both (n : nat) (f w : bitmap) (idx : Z) : res (bitmap * bitmap) :=
  match n with
  | O => Ret (f, w)
  | S n' =>
      w ← bitmap_unmark w idx;
      f ← bitmap_unmark f idx;
      unmark_both n' f w (idx + 1)
  end.

(** The threads that wait on [coremap_cv] are woken at the end. *)
Definition coremap_free_page (s : vm) (paddr : Z) : res vm :=
  let idx := coremap_translate s paddr in
  num ← count_multi (S (length s.(coremap))) s.(coremap) idx 1;
  c ← reset_entries (Z.to_nat num) s.(coremap) idx;
  '(f, w) ← unmark_both (Z.to_nat num) s.(coremap_free) s.(coremap_swappable) idx;
  Ret (set_maps (set_coremap s c) f w).

Definition coremap_lock_acquire (s : vm) (paddr : Z) : res (bool * vm) :=
  x ← bitmap_isset s.(coremap_swappable) (coremap_translate s paddr);
  if (x : bool) then Ret (false, s) else
  w ← bitmap_mark s.(coremap_swappable) (coremap_translate s paddr);
  Ret (true, set_maps s s.(coremap_free) w).

Definition coremap_lock_release (s : vm) (paddr : Z) : res vm :=
  w ← bitmap_unmark s.(coremap_swappable) (coremap_translate s paddr);
  Ret (set_maps s s.(coremap_free) w).

Definition change_flags (s : vm) (paddr : Z) (f : Z → Z) : res vm :=
  let idx := coremap_translate s paddr in
  ce ← s.(coremap).[idx];
  c ← s.(coremap).[idx <- Centry (u8 (f ce.(ce_flags))) ce.(ce_pid) ce.(ce_vaddr)];
  Ret (set_coremap s c).

Definition coremap_mark_page_dirty (s : vm) (paddr : Z) : res vm :=
  change_flags s paddr (λ flags, Z.lor flags COREMAP_DIRTY).
Definition coremap_mark_page_clean (s : vm) (paddr : Z) : res vm :=
  change_flags s paddr (λ flags, clear_flag flags COREMAP_DIRTY).

(** ** The kernel's pages (kern/vm/vm.c) *)

Definition alloc_kpages (s : vm) (npages : Z) : res (Z * vm) :=
  '(paddr, s) ← coremap_allocate_page s true 0 npages 0;
  Ret (PADDR_TO_KVADDR paddr, s).

Definition free_kpages (s : vm) (addr : Z) : res vm := coremap_free_page s (u32 (addr - MIPS_KSEG0)).

(** ** Bootstrap *)

(** The frame after the first one that is not in use, as the code tests it. *)
Fixpoint early_loop (fuel : nat) (c : list coremap_entry) (i : Z) : res Z :=
  match fuel with
  | O => Diverge
  | S fuel' =>
      ce ← c.[i];
      if Z.lor ce.(ce_flags) COREMAP_INUSE =? 0 then Ret i else early_loop fuel' c (i + 1)
  end.

Fixpoint early_take (n : nat) (c : list coremap_entry) (i : Z) : res (list coremap_entry) :=
  match n with
  | O => Ret c
  | S n' =>
      ce ← c.[i];
      c ← c.[i <- Centry (Z.lor COREMAP_INUSE COREMAP_DIRTY) 0 ce.(ce_vaddr)];
      early_take n' c (i + 1)
  end.

(** [coremap_allocate_early] once there is a core map. *)
Definition coremap_allocate_early (s : vm) (npages : Z) : res (Z * vm) :=
  i ← early_loop (S (length s.(coremap))) s.(coremap) 0;
  c ← early_take (Z.to_nat npages) s.(coremap) i;
  Ret (coremap_untranslate s i, set_coremap s c).

(** ** Specification *)

(** [b'] is [b] with the [n] bits from [idx] on set to [x]. *)
Definition filled (b : bitmap) (idx n : Z) (x : bool) (b' : bitmap) : Prop :=
  wf b' ∧ b'.(b_nbits) = b.(b_nbits) ∧
  ∀ k, 0 ≤ k → bit b' k = if decide (idx ≤ k < idx + n) then x else bit b k.

(** The [n] frames from [idx] on are clear. *)
Definition clear_run (b : bitmap) (idx n : Z) : Prop := ∀ k, idx ≤ k < idx + n → bit b k = false.

(** The first run of [n] clear frames below [len] is at [idx]. *)
Definition first_run (b : bitmap) (len idx n : Z) : Prop :=
  0 ≤ idx ∧ idx + n ≤ len ∧ clear_run b idx n ∧ ∀ j, 0 ≤ j < idx → ¬ clear_run b j n.

Definition no_run (b : bitmap) (len n : Z) : Prop := ∀ j, 0 ≤ j → j + n ≤ len → ¬ clear_run b j n.

(** A consistent core map: a frame that is not in use has no flags and may be
    taken, and a continuation frame follows a frame in use. *)
Record cm_ok (s : vm) : Prop := CmOk {
  cm_base : 0 ≤ s.(base) ∧ s.(base) + 4096 * coremap_length s ≤ 2 ^ 29;
  cm_free : wf s.(coremap_free) ∧ s.(coremap_free).(b_nbits) = coremap_length s;
  cm_swappable : wf s.(coremap_swappable) ∧ s.(coremap_swappable).(b_nbits) = coremap_length s;
  cm_ram : mapped s.(ram) (MIPS_KSEG0 + s.(base)) (4096 * coremap_length s);
  cm_unused i ce : s.(coremap) !! i = Some ce → bit s.(coremap_free) (Z.of_nat i) = false →
    ce.(ce_flags) = 0 ∧ bit s.(coremap_swappable) (Z.of_nat i) = false;
  cm_multi i ce : s.(coremap) !! i = Some ce → has_flag ce.(ce_flags) COREMAP_MULTI = true →
    bit s.(coremap_free) (Z.of_nat i - 1) = true ∧ (0 < i)%nat
}.

(** ** Runs of bits *)

Lemma filled_updated b i x b' : updated b i x b' → filled b i 1 x b'.
Proof.
  intros (? & ? & Hb). split_and!; [done..|]. intros k Hk. rewrite Hb by done.
  destruct (Z.eqb_spec k i); case_decide; (done || lia).
Qed.

Lemma filled_trans b i n b1 j m b2 x y : filled b i n x b1 → filled b1 j m y b2 →
  wf b2 ∧ b2.(b_nbits) = b.(b_nbits) ∧ ∀ k, 0 ≤ k →
    bit b2 k = if decide (j ≤ k < j + m) then y else if decide (i ≤ k < i + n) then x else bit b k.
Proof. intros (? & ? & H1) (? & ? & H2). split_and!; [done|congruence|]. intros k Hk. by rewrite H2, H1. Qed.

(** A run set again to what it was. *)
Lemma filled_back b i n x y b1 b2 : wf b → filled b i n x b1 → filled b1 i n y b2 → 
  (∀ k, 0 ≤ k → i ≤ k < i + n → bit b k = y) → b2 = b.
Proof.
  intros Hw H1 H2 Hy. destruct (filled_trans _ _ _ _ _ _ _ _ _ H1 H2) as (? & ? & Hb).
  apply bitmap_ext; [done..|]. intros k Hk. rewrite Hb by lia. repeat case_decide; try done. symmetry. apply Hy; lia.
Qed.

Lemma unmark_down_correct n b idx : wf b → 0 ≤ idx → idx + Z.of_nat n ≤ b.(b_nbits) →
  ∃ b', unmark_down n b idx = Ret b' ∧ filled b idx (Z.of_nat n) false b'.
Proof.
  revert b. induction n as [|n IH]; intros b Hw Hi Hn; cbn [unmark_down].
  { exists b. split; [done|]. split_and!; [done..|]. intros k Hk. by rewrite decide_False by lia. }
  destruct (unmark_correct b (idx + Z.of_nat n) Hw ltac:(lia)) as (b1 & -> & Hu). cbn [mbind res_bind].
  pose proof (filled_updated _ _ _ _ Hu) as Hf1. pose proof Hf1 as (Hw1 & Hn1 & _).
  destruct (IH b1 Hw1 Hi ltac:(lia)) as (b' & -> & Hf). exists b'. split; [done|].
  destruct (filled_trans _ _ _ _ _ _ _ _ _ Hf1 Hf) as (? & ? & Hb). split_and!; [done..|].
  intros k Hk. rewrite Hb by done. repeat case_decide; (done || lia).
Qed.

Lemma mark_range_correct n b idx : wf b → 0 ≤ idx → idx + Z.of_nat n ≤ b.(b_nbits) →
  ∃ b', mark_range n b idx = Ret b' ∧ filled b idx (Z.of_nat n) true b'.
Proof.
  revert b idx. induction n as [|n IH]; intros b idx Hw Hi Hn; cbn [mark_range].
  { exists b. split; [done|]. split_and!; [done..|]. intros k Hk. by rewrite decide_False by lia. }
  destruct (wf_length b Hw). rewrite isset_correct by (done || lia). cbn [mbind res_bind].
  assert (∃ b1, (if negb (bit b idx) then bitmap_mark b idx else Ret b) = Ret b1 ∧ filled b idx 1 true b1) as (b1 & -> & Hf1).
  { pose proof (mark_correct b idx Hw ltac:(lia)) as Hm. destruct (bit b idx) eqn:Hb; cbn [negb].
    - exists b. split; [done|]. split_and!; [done..|]. intros k Hk. case_decide; [|done]. by replace k with idx by lia.
    - destruct Hm as (b1 & -> & Hu). exists b1. split; [done|]. by apply filled_updated. }
  cbn [mbind res_bind]. pose proof Hf1 as (Hw1 & Hn1 & _).
  destruct (IH b1 (idx + 1) Hw1 ltac:(lia) ltac:(lia)) as (b' & -> & Hf). exists b'. split; [done|].
  destruct (filled_trans _ _ _ _ _ _ _ _ _ Hf1 Hf) as (? & ? & Hb). split_and!; [done..|].
  intros k Hk. rewrite Hb by done. repeat case_decide; (done || lia).
Qed.

Lemma unmark_both_correct n f w idx : wf f → wf w → 0 ≤ idx → idx + Z.of_nat n ≤ f.(b_nbits) → w.(b_nbits) = f.(b_nbits) →
  ∃ f' w', unmark_both n f w idx = Ret (f', w') ∧ filled f idx (Z.of_nat n) false f' ∧ filled w idx (Z.of_nat n) false w'.
Proof.
  revert f w idx. induction n as [|n IH]; intros f w idx Hf Hw Hi Hn Hfw; cbn [unmark_both].
  { exists f, w. split; [done|]. split; (split_and!; [done..|]); intros k Hk; by rewrite decide_False by lia. }
  destruct (unmark_correct w idx Hw ltac:(lia)) as (w1 & -> & Hu1). destruct (unmark_correct f idx Hf ltac:(lia)) as (f1 & Hr & Hu2).
  cbn [mbind res_bind]. rewrite Hr. cbn [mbind res_bind].
  apply filled_updated in Hu1, Hu2. pose proof Hu1 as (Hw1 & Hn1 & _). pose proof Hu2 as (Hf1 & Hn2 & _).
  destruct (IH f1 w1 (idx + 1) Hf1 Hw1 ltac:(lia) ltac:(lia) ltac:(lia)) as (f' & w' & -> & Hf' & Hw').
  exists f', w'. split; [done|].
  destruct (filled_trans _ _ _ _ _ _ _ _ _ Hu1 Hw') as (? & ? & Hbw). destruct (filled_trans _ _ _ _ _ _ _ _ _ Hu2 Hf') as (? & ? & Hbf).
  split; (split_and!; [done..|]); intros k Hk; rewrite ?Hbw, ?Hbf by done; repeat case_decide; (done || lia).
Qed.

(** ** The search for a run *)

(** [b] is [b0] with the first [i] frames of the run claimed. *)
Lemma claim_loop_correct n b0 b idx i : wf b0 → 0 ≤ idx → 0 ≤ i → idx + i + Z.of_nat n ≤ b0.(b_nbits) →
  clear_run b0 idx i → filled b0 idx i true b →
  match claim_loop n b idx i with
  | Ret (true, _, b') => clear_run b0 idx (i + Z.of_nat n) ∧ filled b0 idx (i + Z.of_nat n) true b'
  | Ret (false, min, b') => b' = b0 ∧ idx + i ≤ min < idx + i + Z.of_nat n ∧ bit b0 min = true
  | _ => False
  end.
Proof.
  intros Hw0 Hidx. revert b i. induction n as [|n IH]; intros b i Hi Hn Hclear Hf; cbn [claim_loop].
  { by rewrite Z.add_0_r. }
  pose proof Hf as (Hw & Hnb & Hb). destruct (wf_length b Hw). rewrite isset_correct by (done || lia). cbn [mbind res_bind].
  assert (bit b (idx + i) = bit b0 (idx + i)) as Heq by (rewrite Hb by lia; by rewrite decide_False by lia).
  destruct (bit b (idx + i)) eqn:Hbit.
  - destruct (unmark_down_correct (Z.to_nat i) b idx Hw Hidx ltac:(lia)) as (b' & -> & Hf'). cbn [mbind res_bind].
    rewrite Z2Nat.id in Hf' by done. split_and!; [|lia|lia|done].
    eapply filled_back; [done|exact Hf|exact Hf'|]. intros k _. apply Hclear.
  - pose proof (mark_correct b (idx + i) Hw ltac:(lia)) as Hm. rewrite Hbit in Hm. destruct Hm as (b1 & -> & Hu). cbn [mbind res_bind].
    apply filled_updated in Hu. specialize (IH b1 (i + 1) ltac:(lia) ltac:(lia)).
    replace (i + Z.of_nat (S n)) with (i + 1 + Z.of_nat n) by lia. replace (idx + i + Z.of_nat (S n)) with (idx + (i + 1) + Z.of_nat n) by lia.
    assert (clear_run b0 idx (i + 1)) as Hc1.
    { intros k Hk. destruct (decide (k = idx + i)) as [->|]; [done|]. apply Hclear. lia. }
    assert (filled b0 idx (i + 1) true b1) as Hf1.
    { destruct (filled_trans _ _ _ _ _ _ _ _ _ Hf Hu) as (? & ? & Hb1). split_and!; [done..|]. intros k Hk.
      rewrite Hb1 by done. repeat case_decide; (done || lia). }
    specialize (IH Hc1 Hf1). destruct (claim_loop n b1 idx (i + 1)) as [[[[] min] b']| | |]; [done| |done..].
    destruct IH as (? & ? & ?). split_and!; (done || lia).
Qed.

Lemma range_loop_correct fuel len b n min : wf b → b.(b_nbits) = len → 1 ≤ n < 2 ^ 31 → len < 2 ^ 31 → 0 ≤ min ≤ len →
  (∀ j, 0 ≤ j < min → ¬ clear_run b j n) → len - min < Z.of_nat fuel →
  match range_loop fuel len b n min with
  | Ret (e, idx, b') => e = 0 ∧ first_run b len idx n ∧ filled b idx n true b' ∨
                        e = ENOSPC ∧ no_run b len n ∧ b' = b
  | _ => False
  end.
Proof.
  intros Hw Hlen Hn Hl. revert min. induction fuel as [|fuel IH]; intros min Hmin Hno Hfuel; cbn [range_loop]; [lia|].
  destruct (Z.ltb_spec min len).
  2: { right. split_and!; [done| |done]. intros j Hj Hjn. apply Hno. lia. }
  pose proof (alloc_after_correct b min Hw ltac:(lia)) as Ha.
  destruct (bitmap_alloc_after b min) as [[err|[idx b1]]| | |]; try done; cbn [mbind res_bind].
  { destruct Ha as [-> Hset]. right. split_and!; [done| |done]. intros j Hj Hjn Hc.
    destruct (decide (j < min)); [apply (Hno j); (lia || done)|]. specialize (Hc j ltac:(lia)). rewrite Hset in Hc by lia. done. }
  destruct Ha as (Hidx & Hclr & Hset & Hu). apply filled_updated in Hu. pose proof Hu as (Hw1 & Hn1 & _).
  assert (∀ j, 0 ≤ j < idx → ¬ clear_run b j n) as Hno'.
  { intros j Hj Hc. destruct (decide (j < min)); [apply (Hno j); (lia || done)|]. specialize (Hc j ltac:(lia)). rewrite Hset in Hc by lia. done. }
  rewrite u32_id by lia. destruct (Z.ltb_spec len (idx + n)).
  { destruct (unmark_correct b1 idx Hw1 ltac:(lia)) as (b2 & -> & Hu2). cbn [mbind res_bind]. right. apply filled_updated in Hu2.
    split_and!; [done| |]. 
    - intros j Hj Hjn. apply Hno'. lia.
    - eapply filled_back; [done|exact Hu|exact Hu2|]. intros k ? ?. by replace k with idx by lia. }
  assert (clear_run b idx 1) as Hc1 by (intros k Hk; by replace k with idx by lia).
  pose proof (claim_loop_correct (Z.to_nat (n - 1)) b b1 idx 1 Hw ltac:(lia) ltac:(lia) ltac:(lia) Hc1 Hu) as Hcl.
  replace (1 + Z.of_nat (Z.to_nat (n - 1))) with n in Hcl by lia.
  destruct (claim_loop _ b1 idx 1) as [[[[] m] b']| | |]; try done; cbn [mbind res_bind].
  - left. destruct Hcl. split_and!; [done| |done]. split_and!; (done || lia).
  - destruct Hcl as (-> & Hm & Hbm). apply IH; [lia| |lia]. intros j Hj Hc.
    destruct (decide (j < idx)); [apply (Hno' j); (lia || done)|]. specialize (Hc m ltac:(lia)). congruence.
Qed.

Definition map_of (s : vm) (map : which_map) : bitmap :=
  match map with FreeMap => s.(coremap_free) | SwappableMap => s.(coremap_swappable) end.

Lemma filled_again b i n x b1 b2 : filled b i n x b1 → filled b1 i n x b2 → filled b i n x b2.
Proof.
  intros H1 H2. destruct (filled_trans _ _ _ _ _ _ _ _ _ H1 H2) as (? & ? & Hb). split_and!; [done..|].
  intros k Hk. rewrite Hb by done. by repeat case_decide.
Qed.

Lemma locate_range_correct s map n : cm_ok s → 1 ≤ n < 2 ^ 31 →
  match locate_range s map n with
  | Ret (e, idx, s') =>
      e = 0 ∧ first_run (map_of s map) (coremap_length s) idx n ∧
        (∃ f w, filled s.(coremap_free) idx n true f ∧ filled s.(coremap_swappable) idx n true w ∧ s' = set_maps s f w) ∨
      e = ENOSPC ∧ no_run (map_of s map) (coremap_length s) n ∧ s' = s
  | _ => False
  end.
Proof.
  intros Hok Hn. pose proof Hok as [Hbase [Hf Hfn] [Hw Hwn] _ _ _].
  assert (wf (map_of s map) ∧ (map_of s map).(b_nbits) = coremap_length s) as [Hm Hmn] by (by destruct map).
  unfold locate_range. fold (map_of s map). assert (0 ≤ coremap_length s) by (unfold coremap_length; lia).
  pose proof (range_loop_correct (S (Z.to_nat (coremap_length s))) (coremap_length s) (map_of s map) n 0 Hm Hmn Hn ltac:(lia)
    ltac:(lia) ltac:(lia) ltac:(lia)) as Hr.
  destruct (range_loop _ _ _ n 0) as [[[e idx] b]| | |]; try done. cbn [mbind res_bind].
  destruct Hr as [(-> & Hrun & Hfill)|(-> & Hno & ->)]; cbn [Z.eqb negb ENOSPC].
  2: { right. split_and!; [done..|]. by destruct map, s. }
  pose proof Hrun as (? & ? & _). assert (Z.of_nat (Z.to_nat n) = n) as Hnn by lia.
  destruct map; cbn [map_of] in *; unfold set_maps; cbn [coremap_free coremap_swappable].
  - pose proof Hfill as (Hwb & Hnb & _). destruct (mark_range_correct (Z.to_nat n) b idx Hwb ltac:(lia) ltac:(lia)) as (f & -> & Hff).
    destruct (mark_range_correct (Z.to_nat n) s.(coremap_swappable) idx Hw ltac:(lia) ltac:(lia)) as (w & Hwr & Hww).
    cbn [mbind res_bind]. rewrite Hwr. cbn [mbind res_bind]. rewrite Hnn in *.
    left. split_and!; [done..|]. exists f, w. split_and!; [by eapply filled_again|done|done].
  - pose proof Hfill as (Hwb & Hnb & _). destruct (mark_range_correct (Z.to_nat n) b idx Hwb ltac:(lia) ltac:(lia)) as (w & Hwr & Hww).
    destruct (mark_range_correct (Z.to_nat n) s.(coremap_free) idx Hf ltac:(lia) ltac:(lia)) as (f & -> & Hff).
    cbn [mbind res_bind]. rewrite Hwr. cbn [mbind res_bind]. rewrite Hnn in *.
    left. split_and!; [done..|]. exists f, w. split_and!; [done|by eapply filled_again|done].
Qed.

(** ** Frames *)

Lemma zero_frame_length : length zero_frame = 4096%nat.
Proof. apply length_replicate. Qed.


(** The kernel address of frame [idx]. *)
Definition frame_addr (s : vm) (idx : Z) : Z := MIPS_KSEG0 + s.(base) + 4096 * idx.

Lemma untranslate_eq s idx : cm_ok s → 0 ≤ idx ≤ coremap_length s → coremap_untranslate s idx = s.(base) + 4096 * idx.
Proof.
  intros [Hb _ _ _ _ _] Hi. unfold coremap_untranslate. rewrite Z.shiftl_mul_pow2, u32_id by lia. lia.
Qed.

Lemma translate_eq s idx : cm_ok s → 0 ≤ idx ≤ coremap_length s → coremap_translate s (s.(base) + 4096 * idx) = idx.
Proof.
  intros [Hb _ _ _ _ _] Hi. unfold coremap_translate. replace (s.(base) + 4096 * idx - s.(base)) with (idx * 2 ^ 12) by lia.
  rewrite u32_id by lia. rewrite <-Z.shiftl_mul_pow2 by lia. rewrite <-Z.shiftl_land, Z.land_ones, Z.mod_small by lia.
  rewrite Z.shiftr_shiftl_l, Z.sub_diag by lia. apply Z.shiftl_0_r.
Qed.

Lemma kvaddr_eq s idx : cm_ok s → 0 ≤ idx ≤ coremap_length s →
  PADDR_TO_KVADDR (coremap_untranslate s idx) = frame_addr s idx.
Proof.
  intros Hok Hi. rewrite untranslate_eq by done. destruct Hok as [Hb _ _ _ _ _]. unfold PADDR_TO_KVADDR, frame_addr, MIPS_KSEG0 in *.
  rewrite u32_id; lia.
Qed.

(** [m] is the memory with frame [idx] zeroed. *)
Definition zeroed (s : vm) (idx : Z) (m : memory) : Prop :=
  ∀ k, m !! k = if decide (frame_addr s idx ≤ k < frame_addr s idx + 4096) then Some 0 else s.(ram) !! k.

Lemma zeroed_mapped s idx m a n : zeroed s idx m → mapped s.(ram) a n → mapped m a n.
Proof. intros Hz Hm k Hk. rewrite Hz. case_decide; [done|by apply Hm]. Qed.

Lemma zeroed_with s idx : zeroed s idx (with_bytes s.(ram) (frame_addr s idx) zero_frame).
Proof.
  intros k. rewrite with_bytes_lookup, zero_frame_length. case_decide; [|by rewrite decide_False by lia].
  rewrite decide_True by lia. apply lookup_replicate_2. lia.
Qed.

#[local] Opaque zero_frame.

Lemma frame_mapped s idx : cm_ok s → 0 ≤ idx < coremap_length s → mapped s.(ram) (frame_addr s idx) 4096.
Proof. intros Hok Hi k Hk. apply (cm_ram s Hok). unfold frame_addr in *. lia. Qed.

Lemma zero_page_correct s kv : mapped s.(ram) kv 4096 →
  ∃ m, zero_page s kv = Ret (set_ram s m) ∧ m = with_bytes s.(ram) kv zero_frame.
Proof.
  intros Hm. unfold zero_page. destruct (store_bytes_correct s.(ram) kv zero_frame) as (m & ok & -> & _ & Hok & Hiff).
  rewrite zero_frame_length in Hiff. assert (ok = true) as -> by (by apply Hiff). exists m. split; [done|]. by apply Hok.
Qed.

Lemma with_bytes_again m a xs : with_bytes (with_bytes m a xs) a xs = with_bytes m a xs.
Proof. apply map_eq. intros k. rewrite !with_bytes_lookup. by case_decide. Qed.

Lemma with_bytes_mapped m a xs b n : mapped m b n → mapped (with_bytes m a xs) b n.
Proof. intros Hm k Hk. rewrite with_bytes_lookup. case_decide; [apply lookup_lt_is_Some_2; lia|by apply Hm]. Qed.

Lemma ret_bind {A B} (a : A) (f : A → res B) : (Ret a ≫= f) = f a.
Proof. done. Qed.

Lemma set_frames_again s c m c' m' : set_ram (set_coremap (set_ram (set_coremap s c) m) c') m' = set_ram (set_coremap s c') m'.
Proof. done. Qed.

Lemma take_free_correct n iskern pid vaddr idx kv : ∀ s i, PADDR_TO_KVADDR (coremap_untranslate s idx) = kv →
  mapped s.(ram) kv 4096 → 0 ≤ idx → 0 ≤ i → idx + i + Z.of_nat n ≤ coremap_length s →
  ∃ c m, take_free n s iskern pid vaddr idx i = Ret (set_ram (set_coremap s c) m) ∧ length c = length s.(coremap) ∧
    (∀ j, c !! j = if decide (idx + i ≤ Z.of_nat j < idx + i + Z.of_nat n)
                   then Some (fresh_entry iskern pid vaddr (Z.of_nat j - idx)) else s.(coremap) !! j) ∧
    m = if decide (n = 0%nat) then s.(ram) else with_bytes s.(ram) kv zero_frame.
Proof.
  induction n as [|n IH]; intros s i Hkv Hm Hidx Hi Hn; cbn [take_free].
  { exists s.(coremap), s.(ram). split_and!; [by destruct s|done| |done]. intros j. by rewrite decide_False by lia. }
  unfold coremap_length in Hn. rewrite wr_in_range by lia. rewrite ret_bind.
  set (c1 := <[_ := _]> _). rewrite Hkv. destruct (zero_page_correct (set_coremap s c1) kv Hm) as (m1 & -> & Hm1).
  rewrite ret_bind. destruct (IH (set_ram (set_coremap s c1) m1) (i + 1)) as (c & m & Heq & Hl & Hc & Hmm); [done| |done|lia| |].
  { unfold set_ram. cbn [ram]. rewrite Hm1. by apply with_bytes_mapped. }
  { unfold coremap_length, set_ram, set_coremap. cbn [coremap]. unfold c1. rewrite length_insert. lia. }
  rewrite Heq, set_frames_again. exists c, m. split_and!; [done| | |].
  - rewrite Hl. unfold set_ram, set_coremap, c1. cbn [coremap]. apply length_insert.
  - intros j. rewrite Hc. unfold set_ram, set_coremap, c1. cbn [coremap]. destruct (decide (idx + (i + 1) ≤ Z.of_nat j < idx + (i + 1) + Z.of_nat n)); [by rewrite decide_True by lia|].
    destruct (decide (Z.of_nat j = idx + i)) as [He|].
    + rewrite decide_True by lia. replace j with (Z.to_nat (idx + i)) by lia. rewrite list_lookup_insert_eq by lia. do 2 f_equal. lia.
    + rewrite decide_False by lia. by rewrite list_lookup_insert_ne by lia.
  - rewrite Hmm. unfold set_ram, set_coremap. cbn [ram]. case_decide; rewrite Hm1; [done|]. apply with_bytes_again.
Qed.

(** [s'] is [s] after [n] free frames from [idx] on have been given out. *)
Record allocated (s : vm) (iskern : bool) (pid n vaddr idx : Z) (s' : vm) : Prop := Allocated {
  al_run : first_run s.(coremap_free) (coremap_length s) idx n;
  al_free : filled s.(coremap_free) idx n true s'.(coremap_free);
  al_swappable : filled s.(coremap_swappable) idx n true s'.(coremap_swappable);
  al_length : length s'.(coremap) = length s.(coremap);
  al_entry j : s'.(coremap) !! j = if decide (idx ≤ Z.of_nat j < idx + n)
    then Some (fresh_entry iskern pid vaddr (Z.of_nat j - idx)) else s.(coremap) !! j;
  al_ram : zeroed s idx s'.(ram);
  al_rest : s'.(base) = s.(base) ∧ s'.(coremap_held) = s.(coremap_held) ∧ s'.(vm_swap) = s.(vm_swap) ∧
    s'.(procs) = s.(procs) ∧ s'.(tlb) = s.(tlb)
}.

Lemma allocate_free s iskern pid n vaddr : cm_ok s → 1 ≤ n < 2 ^ 31 → ¬ no_run s.(coremap_free) (coremap_length s) n →
  ∃ idx s', coremap_allocate_page s iskern pid n vaddr = Ret (s.(base) + 4096 * idx, s') ∧ allocated s iskern pid n vaddr idx s'.
Proof.
  intros Hok Hn Hrun. unfold coremap_allocate_page. pose proof (locate_range_correct s FreeMap n Hok Hn) as Hl.
  destruct (locate_range s FreeMap n) as [[[e idx] s1]| | |]; try done. cbn [mbind res_bind].
  destruct Hl as [(-> & Hfirst & f & w & Hf & Hw & ->)|(-> & Hno & ->)]; [|done]. cbn [Z.eqb].
  pose proof Hfirst as (? & ? & _).
  destruct (take_free_correct (Z.to_nat n) iskern pid vaddr idx (frame_addr s idx) (set_maps s f w) 0) as (c & m & -> & Hlen & Hc & Hm);
    [exact (kvaddr_eq s idx Hok ltac:(lia))|exact (frame_mapped s idx Hok ltac:(lia))|lia|lia|
     change (coremap_length (set_maps s f w)) with (coremap_length s); lia|].
  cbn [mbind res_bind]. exists idx. eexists. split.
  - do 2 f_equal. apply (untranslate_eq s idx Hok). lia.
  - constructor; try done.
    + intros j. cbn. rewrite Hc. rewrite Z.add_0_r, Z2Nat.id by lia. done.
    + unfold set_ram. cbn [ram]. change (ram (set_maps s f w)) with s.(ram) in Hm.
      rewrite Hm, decide_False by lia. apply zeroed_with.
Qed.

Lemma fresh_multi iskern pid vaddr i : has_flag (fresh_entry iskern pid vaddr i).(ce_flags) COREMAP_MULTI = (0 <? i).
Proof. unfold fresh_entry. by destruct (0 <? i), iskern. Qed.

Lemma allocated_length s iskern pid n vaddr idx s' : allocated s iskern pid n vaddr idx s' → coremap_length s' = coremap_length s.
Proof. intros Ha. unfold coremap_length. by rewrite (al_length _ _ _ _ _ _ _ Ha). Qed.

Lemma allocated_ok s iskern pid n vaddr idx s' : cm_ok s → allocated s iskern pid n vaddr idx s' → cm_ok s'.
Proof.
  intros Hok Ha. pose proof (allocated_length _ _ _ _ _ _ _ Ha) as Hlen.
  destruct Ha as [(Hi & Hin & Hclear & _) (Hwf & Hnf & Hf) (Hww & Hnw & Hw) _ Hent Hram (Hbase & _)].
  pose proof Hok as [Hb [_ Hfn] [_ Hwn] Hm Hun Hmu].
  assert (mapped s'.(ram) (MIPS_KSEG0 + s.(base)) (4096 * coremap_length s)) as Hm' by (by eapply zeroed_mapped).
  clear Hram. constructor; [by rewrite Hlen, Hbase|by rewrite Hlen, Hnf|by rewrite Hlen, Hnw|by rewrite Hlen, Hbase| |].
  - intros j ce. rewrite Hent, Hf, Hw by lia. case_decide; [done|]. apply Hun.
  - intros j ce. rewrite Hent. case_decide as Hd.
    + intros [= <-]. rewrite fresh_multi. intros Hpos%Z.ltb_lt. rewrite Hf by lia. rewrite decide_True by lia. split; [done|lia].
    + intros Hj Hmulti. destruct (Hmu j ce Hj Hmulti) as [Hbit ?]. split; [|done]. rewrite Hf by lia. by case_decide.
Qed.

(** ** Giving frames back *)

(** The allocation that starts at [idx] has [n] frames. *)
Definition run_at (s : vm) (idx n : Z) : Prop :=
  0 ≤ idx ∧ 1 ≤ n ∧
  (∀ k, 1 ≤ k < n → ∃ ce, s.(coremap) !! Z.to_nat (idx + k) = Some ce ∧ has_flag ce.(ce_flags) COREMAP_MULTI = true) ∧
  (∀ ce, s.(coremap) !! Z.to_nat (idx + n) = Some ce → has_flag ce.(ce_flags) COREMAP_MULTI = false).

Lemma count_multi_correct fuel s idx n num : run_at s idx n → idx + n ≤ coremap_length s → 1 ≤ num ≤ n → n - num < Z.of_nat fuel →
  count_multi fuel s.(coremap) idx num = if decide (idx + n = coremap_length s) then Undef else Ret n.
Proof.
  intros (Hi & Hn & Hm & Hlast) Hlen. revert num. induction fuel as [|fuel IH]; intros num Hnum Hfuel; cbn [count_multi]; [lia|].
  unfold coremap_length in *. destruct (decide (num = n)) as [->|Hne].
  - case_decide; [by rewrite rd_out_of_range by lia|].
    destruct (rd_in_range s.(coremap) (idx + n)) as (ce & -> & Hce); [lia|]. cbn [mbind res_bind]. by rewrite Hlast.
  - destruct (Hm num ltac:(lia)) as (ce & Hce & Hf). rewrite (rd_lookup _ (idx + num) _ ltac:(lia) Hce). cbn [mbind res_bind]. rewrite Hf.
    apply IH; lia.
Qed.

Lemma reset_entries_correct n : ∀ c idx, 0 ≤ idx → idx + Z.of_nat n ≤ Z.of_nat (length c) →
  ∃ c', reset_entries n c idx = Ret c' ∧ length c' = length c ∧
    ∀ j, c' !! j = if decide (idx ≤ Z.of_nat j < idx + Z.of_nat n) then Some (Centry 0 0 0) else c !! j.
Proof.
  induction n as [|n IH]; intros c idx Hi Hn; cbn [reset_entries].
  { exists c. split_and!; [done..|]. intros j. by rewrite decide_False by lia. }
  rewrite wr_in_range by lia. cbn [mbind res_bind].
  destruct (IH (<[Z.to_nat idx := Centry 0 0 0]> c) (idx + 1)) as (c' & -> & Hl & Hc); [lia|rewrite length_insert; lia|].
  exists c'. split_and!; [done|by rewrite Hl, length_insert|]. intros j. rewrite Hc.
  destruct (decide (Z.of_nat j = idx)) as [He|].
  - rewrite decide_False, decide_True by lia. replace (Z.to_nat idx) with j by lia. by rewrite list_lookup_insert_eq by lia.
  - rewrite list_lookup_insert_ne by lia. repeat case_decide; (done || lia).
Qed.

(** [s'] is [s] after the [n] frames from [idx] on have been given back. *)
Record freed (s : vm) (idx n : Z) (s' : vm) : Prop := Freed {
  fr_free : filled s.(coremap_free) idx n false s'.(coremap_free);
  fr_swappable : filled s.(coremap_swappable) idx n false s'.(coremap_swappable);
  fr_length : length s'.(coremap) = length s.(coremap);
  fr_entry j : s'.(coremap) !! j = if decide (idx ≤ Z.of_nat j < idx + n) then Some (Centry 0 0 0) else s.(coremap) !! j;
  fr_rest : s'.(base) = s.(base) ∧ s'.(coremap_held) = s.(coremap_held) ∧ s'.(ram) = s.(ram) ∧ s'.(vm_swap) = s.(vm_swap) ∧
    s'.(procs) = s.(procs) ∧ s'.(tlb) = s.(tlb)
}.

Lemma free_correct s idx n : cm_ok s → run_at s idx n → idx + n ≤ coremap_length s →
  if decide (idx + n = coremap_length s) then coremap_free_page s (s.(base) + 4096 * idx) = Undef
  else ∃ s', coremap_free_page s (s.(base) + 4096 * idx) = Ret s' ∧ freed s idx n s'.
Proof.
  intros Hok Hrun Hn. pose proof Hrun as (Hi & Hn1 & _). pose proof Hok as [_ [Hf Hfn] [Hw Hwn] _ _ _].
  unfold coremap_free_page. rewrite translate_eq by (done || lia).
  rewrite (count_multi_correct _ s idx n 1 Hrun Hn) by (unfold coremap_length in *; lia). case_decide; [done|]. cbn [mbind res_bind].
  destruct (reset_entries_correct (Z.to_nat n) s.(coremap) idx) as (c & -> & Hl & Hc); [lia|unfold coremap_length in *; lia|].
  cbn [mbind res_bind].
  destruct (unmark_both_correct (Z.to_nat n) s.(coremap_free) s.(coremap_swappable) idx) as (f & w & -> & Hff & Hfw);
    [done|done|lia|lia|congruence|].
  cbn [mbind res_bind]. eexists. split; [done|]. rewrite Z2Nat.id in * by lia. by constructor.
Qed.

(** An allocation is a run of its length. *)
Lemma allocated_run s iskern pid n vaddr idx s' : cm_ok s → 1 ≤ n → allocated s iskern pid n vaddr idx s' → run_at s' idx n.
Proof.
  intros Hok Hn Ha. pose proof (allocated_length _ _ _ _ _ _ _ Ha) as Hlen. destruct Ha as [(Hi & Hin & Hclear & _) _ _ _ Hent _ _].
  split_and!; [done|done| |].
  - intros k Hk. rewrite Hent. rewrite decide_True by lia. eexists. split; [done|]. rewrite fresh_multi. apply Z.ltb_lt. lia.
  - intros ce. rewrite Hent, decide_False by lia. intros Hce. destruct (has_flag ce.(ce_flags) COREMAP_MULTI) eqn:Hmu; [|done].
    destruct (cm_multi s Hok _ _ Hce Hmu) as [Hbit _]. rewrite Z2Nat.id in Hbit by lia. rewrite Hclear in Hbit by lia. done.
Qed.

(** ** Eviction *)

(** At most one entry of the TLB for each page, none of them global or with an address space id. *)
Definition tlb_ok (l : list (Z * Z)) : Prop :=
  (∀ i j e f, l !! i = Some e → l !! j = Some f → Z.land e.1 TLBHI_VPAGE = Z.land f.1 TLBHI_VPAGE → i = j) ∧
  ∀ i e, l !! i = Some e → Z.land e.1 TLBHI_PID = 0 ∧ Z.land e.2 TLBLO_GLOBAL = 0.

(** No entry of the TLB is for the page of [va]. *)
Definition untranslated (l : list (Z * Z)) (va : Z) : Prop :=
  ∀ i e, l !! i = Some e → Z.land e.1 TLBHI_VPAGE ≠ Z.land va TLBHI_VPAGE.

Lemma tlb_probe_None l hi : tlb_probe l hi = None ↔ ∀ i e, l !! i = Some e → tlb_match hi e = false.
Proof.
  unfold tlb_probe. rewrite fmap_None, list_find_None, Forall_lookup.
  split; intros Hl i e Hi; specialize (Hl i e Hi); [by apply not_true_is_false|by rewrite Hl].
Qed.

Lemma tlb_probe_Some l hi i : tlb_probe l hi = Some i → ∃ e, l !! i = Some e ∧ tlb_match hi e = true.
Proof. unfold tlb_probe. rewrite fmap_Some. intros ([j e] & (? & ? & _)%list_find_Some & ->). by exists e. Qed.

Lemma untranslated_probe l va : untranslated l va → tlb_probe l va = None.
Proof. intros Hl. apply tlb_probe_None. intros i e Hi. unfold tlb_match. by rewrite (proj2 (Z.eqb_neq _ _) (Hl i e Hi)). Qed.

(** The whole page is looked for when the address has no address space id in it. *)
Lemma probe_untranslated l va : tlb_ok l → Z.land va TLBHI_PID = 0 → tlb_probe l va = None → untranslated l va.
Proof.
  intros [_ Hpid] Hva Hl i e Hi Heq. rewrite tlb_probe_None in Hl. specialize (Hl i e Hi). unfold tlb_match in Hl.
  by rewrite Heq, Z.eqb_refl, (proj1 (Hpid i e Hi)), Hva, orb_true_r in Hl.
Qed.

(** The high word [vm_tlbshootdown] writes is not one of a user page. *)
Lemma kseg2_page i hi : 0 ≤ i < 64 → 0 ≤ hi < 2 ^ 31 →
  Z.land (Z.lor MIPS_KSEG2 (Z.shiftl i 12)) TLBHI_VPAGE ≠ Z.land hi TLBHI_VPAGE.
Proof.
  intros Hi Hhi Heq. apply (f_equal (λ z, Z.testbit z 31)) in Heq. rewrite !Z.land_spec, Z.lor_spec in Heq.
  change (Z.testbit MIPS_KSEG2 31) with true in Heq. change (Z.testbit TLBHI_VPAGE 31) with true in Heq.
  assert (Z.testbit hi 31 = false) as Hb by (apply Z.testbit_false; [lia|]; by rewrite Z.div_small by lia).
  by rewrite Hb in Heq.
Qed.

(** With bits in the place of the address space id nothing is found. *)
Lemma probe_misses l va : tlb_ok l → Z.land va TLBHI_PID ≠ 0 → tlb_probe l va = None.
Proof.
  intros [_ Hpid] Hva. apply tlb_probe_None. intros i e Hi. destruct (Hpid i e Hi) as [Hp Hg]. unfold tlb_match.
  rewrite Hp, Hg, (proj2 (Z.eqb_neq 0 _) (not_eq_sym Hva)). apply andb_false_r.
Qed.

(** After a shootdown no entry for the page is left, if the address has no bits in the place of the address space id;
    if it has, nothing happens. *)
Lemma shootdown_correct s va : tlb_ok s.(tlb) → (length s.(tlb) ≤ 64)%nat → 0 ≤ va < 2 ^ 31 →
  ∃ l, vm_tlbshootdown s va = set_tlb s l ∧ tlb_probe l va = None ∧ length l = length s.(tlb) ∧
    if Z.land va TLBHI_PID =? 0 then untranslated l va else l = s.(tlb).
Proof.
  intros Hok Hl Hva. unfold vm_tlbshootdown. destruct (Z.eqb_spec (Z.land va TLBHI_PID) 0) as [H0|H0].
  2: { rewrite (probe_misses _ _ Hok H0). exists s.(tlb). split_and!; [by destruct s|by apply probe_misses|done..]. }
  destruct (tlb_probe s.(tlb) va) as [i|] eqn:Hp.
  2: { exists s.(tlb). split_and!; [by destruct s|done..|by apply probe_untranslated]. }
  destruct (tlb_probe_Some _ _ _ Hp) as (e & He & [Heq%Z.eqb_eq _]%andb_prop). pose proof (lookup_lt_Some _ _ _ He).
  assert (untranslated (tlb_write s.(tlb) (Z.lor MIPS_KSEG2 (Z.shiftl (Z.of_nat i) 12)) 0 i) va) as Hgone.
  { intros j f Hf. unfold tlb_write in Hf. destruct (decide (j = i)) as [->|Hne].
    - rewrite list_lookup_insert_eq in Hf by done. injection Hf as <-. apply kseg2_page; lia.
    - rewrite list_lookup_insert_ne in Hf by done. intros Hfe. apply Hne. eapply (proj1 Hok); [done|done|congruence]. }
  eexists. split; [done|]. split_and!; [by apply untranslated_probe|apply length_insert|done].
Qed.

Lemma update_entry_correct s pid a p e f : pt_ok a.(as_pages) → 0 ≤ p < 2 ^ 20 → view a.(as_pages) p = Some e →
  ∃ t, update_entry s pid a (ref_of p) f = Ret (set_pages a t, set_procs s (<[pid := Some (set_pages a t)]> s.(procs))) ∧
    pt_ok t ∧ t.(pt_locked) = a.(as_pages).(pt_locked) ∧ ∀ q, 0 ≤ q → view t q = if q =? p then Some (f e) else view a.(as_pages) q.
Proof.
  intros Ht Hp He. unfold update_entry. rewrite (get_entry_correct _ _ _ Ht Hp He). cbn [mbind res_bind].
  destruct (set_entry_correct _ p e (f e) Ht Hp He) as (t & -> & ? & ? & ?). by exists t.
Qed.

(** The frame [idx] holds page [p] of address space [a] of process [pid]. *)
Record resident (s : vm) (idx : Z) (ce : coremap_entry) (a : addrspace) (p : Z) (e : pagetable_entry) : Prop := Resident {
  re_frame : 0 ≤ idx < coremap_length s ∧ s.(coremap) !! Z.to_nat idx = Some ce;
  re_proc : s.(procs) !! ce.(ce_pid) = Some (Some a);
  re_table : pt_ok a.(as_pages);
  re_vaddr : 0 ≤ ce.(ce_vaddr) < 2 ^ 31 ∧ p = page_no ce.(ce_vaddr);
  re_entry : view a.(as_pages) p = Some e;
  re_flags : 0 < e.(pe_flags) < 256;
  re_slot : 0 ≤ e.(pe_swap) < s.(vm_swap).(swap_freelist).(b_nbits)
}.

(** What the eviction needs of the machine. *)
Record vm_ok (s : vm) : Prop := VmOk {
  vo_core : cm_ok s;
  vo_swap : swap_ok s.(vm_swap) ∧ s.(vm_swap).(page_size) = 4096;
  vo_ram : mem_ok s.(ram);
  vo_tlb : tlb_ok s.(tlb) ∧ (length s.(tlb) ≤ 64)%nat
}.

(** The bytes of frame [idx]. *)
Definition frame (s : vm) (idx : Z) : list Z := gather s.(ram) (seqZ (frame_addr s idx) 4096).

Lemma set_pages_same a : set_pages a a.(as_pages) = a.
Proof. by destruct a. Qed.

Lemma set_procs_same s pid a : s.(procs) !! pid = Some (Some a) → set_procs s (<[pid := Some a]> s.(procs)) = s.
Proof. intros H. rewrite insert_id by done. by destruct s. Qed.

Lemma clear_dirty_twice fl : 0 ≤ fl < 256 →
  u8 (clear_flag (clear_flag (u8 (clear_flag fl PAGETABLE_DIRTY)) PAGETABLE_DIRTY) PAGETABLE_INMEM) =
  u8 (clear_flag (clear_flag fl PAGETABLE_DIRTY) PAGETABLE_INMEM).
Proof.
  intros Hfl. unfold clear_flag. apply byte_ext; [apply u8_range..|]. intros k Hk.
  rewrite !u8_testbit, !Z.land_spec, !u8_testbit, !Z.land_spec by lia. by destruct (Z.testbit fl k), (Z.testbit (Z.lnot PAGETABLE_DIRTY) k).
Qed.

Lemma has_flag_bit fl k : 0 ≤ k → has_flag fl (2 ^ k) = Z.testbit fl k.
Proof. intros Hk. unfold has_flag. rewrite land_pow2_eqb by done. apply negb_involutive. Qed.

(** Clearing the dirty bit leaves the other requests. *)
Lemma dirty_cleared fl k : 0 ≤ k < 8 → k ≠ 2 → has_flag (u8 (clear_flag fl PAGETABLE_DIRTY)) (2 ^ k) = has_flag fl (2 ^ k).
Proof.
  intros Hk Hne. rewrite !has_flag_bit, u8_testbit by lia. unfold clear_flag. change PAGETABLE_DIRTY with (2 ^ 2).
  rewrite Z.land_spec, Z.lnot_spec, Z.pow2_bits_false by lia. apply andb_true_r.
Qed.

(** The page written to its slot. *)
Lemma clean_page_correct s idx ce a p e : vm_ok s → resident s idx ce a p e →
  ∃ a' s', clean_page s idx a (ref_of p) = Ret (a', s') ∧
    if has_flag ce.(ce_flags) COREMAP_DIRTY then
      ∃ t w l, a' = set_pages a t ∧ pt_ok t ∧ t.(pt_locked) = a.(as_pages).(pt_locked) ∧
        (∀ q, 0 ≤ q → view t q = if q =? p then Some (set_flags e (clear_flag e.(pe_flags) PAGETABLE_DIRTY)) else view a.(as_pages) q) ∧
        swap_ok w ∧ w.(swap_freelist) = s.(vm_swap).(swap_freelist) ∧ w.(page_size) = s.(vm_swap).(page_size) ∧
        swapped w e.(pe_swap) = frame s idx ∧ (∀ b, 0 ≤ b → b ≠ e.(pe_swap) → swapped w b = swapped s.(vm_swap) b) ∧
        tlb_probe l ce.(ce_vaddr) = None ∧ length l = length s.(tlb) ∧
        (if Z.land ce.(ce_vaddr) TLBHI_PID =? 0 then untranslated l ce.(ce_vaddr) else l = s.(tlb)) ∧
        s' = Vm s.(base) (<[Z.to_nat idx := Centry (clear_flag ce.(ce_flags) COREMAP_DIRTY) ce.(ce_pid) ce.(ce_vaddr)]> s.(coremap))
               s.(coremap_free) s.(coremap_swappable) s.(coremap_held) s.(ram) w (<[ce.(ce_pid) := Some a']> s.(procs)) l
    else a' = a ∧ s' = s.
Proof.
  intros [Hcm [Hsw Hps] Hmem [Htlb Htl]] [[Hidx Hce] Hproc Ht [Hva ->] He Hfl Hslot]. unfold clean_page.
  rewrite (rd_lookup _ idx _ ltac:(lia) Hce). cbn [mbind res_bind].
  destruct (has_flag ce.(ce_flags) COREMAP_DIRTY) eqn:Hdirty; [|by exists a, s].
  destruct (indices ce.(ce_vaddr) ltac:(lia)) as (_ & _ & Hp).
  rewrite (get_entry_correct _ _ _ Ht Hp He). cbn [mbind res_bind].
  destruct (update_entry_correct s ce.(ce_pid) a _ e (λ e, set_flags e (clear_flag e.(pe_flags) PAGETABLE_DIRTY)) Ht Hp He)
    as (t & -> & Ht' & Hlk & Hview). cbn [mbind res_bind].
  unfold coremap_length in Hidx. change (coremap (set_procs s ?p)) with s.(coremap). rewrite wr_in_range by lia. cbn [mbind res_bind].
  set (s1 := set_coremap _ _). destruct (shootdown_correct s1 ce.(ce_vaddr) Htlb Htl Hva) as (l & -> & Hprobe & Hlen & Hgone).
  change (ram (set_tlb s1 l)) with s.(ram). change (vm_swap (set_tlb s1 l)) with s.(vm_swap).
  change (coremap_untranslate (set_tlb s1 l) idx) with (coremap_untranslate s idx).
  rewrite (kvaddr_eq s idx Hcm) by (unfold coremap_length; lia).
  destruct (page_out_correct s.(ram) s.(vm_swap) (frame_addr s idx) e.(pe_swap) Hsw Hslot)
    as (w & -> & Hw & Hfl' & Hps' & Hsd & Hoth); [|rewrite Hps; apply frame_mapped; [done|unfold coremap_length; lia]|done|].
  { unfold frame_addr, MIPS_KSEG0. destruct (cm_base s Hcm). lia. }
  cbn [mbind res_bind]. eexists _, _. split; [done|]. exists t, w, l. split_and!; try done. rewrite Hsd, Hps. done.
Qed.

(** [s'] is [s] after page [p] in frame [idx] has been evicted. *)
Record evicted (s : vm) (idx : Z) (ce : coremap_entry) (a : addrspace) (p : Z) (e : pagetable_entry) (s' : vm) : Prop := Evicted {
  ev_table : ∃ t, s'.(procs) = <[ce.(ce_pid) := Some (set_pages a t)]> s.(procs) ∧ pt_ok t ∧
    t.(pt_locked) = a.(as_pages).(pt_locked) ∧
    ∀ q, 0 ≤ q → view t q = if q =? p
      then Some (set_flags e (clear_flag (clear_flag e.(pe_flags) PAGETABLE_DIRTY) PAGETABLE_INMEM)) else view a.(as_pages) q;
  ev_swap : swap_ok s'.(vm_swap) ∧ s'.(vm_swap).(swap_freelist) = s.(vm_swap).(swap_freelist) ∧
    s'.(vm_swap).(page_size) = 4096;
  ev_slot : swapped s'.(vm_swap) e.(pe_swap) =
    if has_flag ce.(ce_flags) COREMAP_DIRTY then frame s idx else swapped s.(vm_swap) e.(pe_swap);
  ev_slots b : 0 ≤ b → b ≠ e.(pe_swap) → swapped s'.(vm_swap) b = swapped s.(vm_swap) b;
  ev_tlb : length s'.(tlb) = length s.(tlb) ∧
    if Z.land ce.(ce_vaddr) TLBHI_PID =? 0 then untranslated s'.(tlb) ce.(ce_vaddr) else s'.(tlb) = s.(tlb);
  ev_core : s'.(coremap) = if has_flag ce.(ce_flags) COREMAP_DIRTY
    then <[Z.to_nat idx := Centry (clear_flag ce.(ce_flags) COREMAP_DIRTY) ce.(ce_pid) ce.(ce_vaddr)]> s.(coremap)
    else s.(coremap);
  ev_rest : s'.(base) = s.(base) ∧ s'.(coremap_free) = s.(coremap_free) ∧ s'.(coremap_swappable) = s.(coremap_swappable) ∧
    s'.(coremap_held) = s.(coremap_held) ∧ s'.(ram) = s.(ram)
}.

(** The second half of the eviction, the entry of the page being [e1] by now. *)
Lemma forget_page_correct s pid a p e1 va : pt_ok a.(as_pages) → 0 ≤ p < 2 ^ 20 → view a.(as_pages) p = Some e1 →
  a.(as_destroying) = false → has_flag e1.(pe_flags) PAGETABLE_REQUEST_FREE = false →
  ∃ t, forget_page s pid va a (ref_of p) =
       Ret (vm_tlbshootdown (set_procs s (<[pid := Some (set_pages a t)]> s.(procs))) va) ∧
    pt_ok t ∧ t.(pt_locked) = a.(as_pages).(pt_locked) ∧
    ∀ q, 0 ≤ q → view t q = if q =? p
      then Some (set_flags e1 (clear_flag (clear_flag e1.(pe_flags) PAGETABLE_DIRTY) PAGETABLE_INMEM)) else view a.(as_pages) q.
Proof.
  intros Ht Hp He Hd Hrf. unfold forget_page. rewrite (get_entry_correct _ _ _ Ht Hp He). cbn [mbind res_bind]. rewrite Hd. cbn [andb].
  destruct (update_entry_correct s pid a p e1 (λ e, set_flags e (clear_flag (clear_flag e.(pe_flags) PAGETABLE_DIRTY) PAGETABLE_INMEM))
    Ht Hp He) as (t & -> & ? & ? & ?). cbn [mbind res_bind]. rewrite Hrf. by exists t.
Qed.

Lemma evict_correct s idx ce a p e : vm_ok s → resident s idx ce a p e → a.(as_destroying) = false →
  has_flag e.(pe_flags) PAGETABLE_REQUEST_FREE = false →
  ∃ s', coremap_swap_page_out s idx = Ret s' ∧ evicted s idx ce a p e s'.
Proof.
  intros Hvm Hre Hd Hrf. pose proof Hre as [[Hidx Hce] Hproc Ht [Hva Hpe] He Hfl Hslot]. pose proof Hvm as [_ [Hsw Hps] _ [Htlb Htl]].
  assert (0 ≤ p < 2 ^ 20) as Hp by (rewrite Hpe; apply (indices ce.(ce_vaddr)); lia).
  unfold coremap_swap_page_out. rewrite (rd_lookup _ idx _ ltac:(lia) Hce), ret_bind. rewrite Hproc.
  change (deref (Some (Some a))) with (Ret (Some a)). rewrite ret_bind. change (deref (Some a)) with (Ret a). rewrite ret_bind.
  pose proof (lookup_correct a.(as_pages) ce.(ce_vaddr) Ht ltac:(lia)) as Hlk. cbv zeta in Hlk. rewrite <-Hpe, He in Hlk.
  destruct (Z.eqb_spec e.(pe_flags) 0); [lia|]. rewrite Hlk, ret_bind, set_pages_same, (set_procs_same s _ a Hproc).
  destruct (clean_page_correct s idx ce a p e Hvm Hre) as (a1 & s1 & -> & Hclean). rewrite ret_bind.
  destruct (has_flag ce.(ce_flags) COREMAP_DIRTY) eqn:Hdirty.
  - destruct Hclean as (t1 & w & l & -> & Ht1 & Hl1 & Hv1 & Hw & Hwf & Hwp & Hws & Hwo & Hprobe & Hlen & Hgone & ->).
    set (e1 := set_flags e (clear_flag e.(pe_flags) PAGETABLE_DIRTY)) in Hv1.
    assert (view t1 p = Some e1) as He1 by (rewrite Hv1 by lia; by rewrite Z.eqb_refl).
    set (s1 := Vm _ _ _ _ _ _ _ _ _).
    destruct (forget_page_correct s1 ce.(ce_pid) (set_pages a t1) p e1 ce.(ce_vaddr)) as (t & -> & Ht2 & Hl2 & Hv2); [done..| |].
    { unfold e1. cbn [set_flags pe_flags]. change PAGETABLE_REQUEST_FREE with (2 ^ 3) in *. by rewrite dirty_cleared. }
    eexists. split; [done|]. unfold vm_tlbshootdown. change (tlb (set_procs s1 ?x)) with l. rewrite Hprobe.
    constructor; cbn [set_procs s1 procs vm_swap tlb coremap base coremap_free coremap_swappable coremap_held ram];
      rewrite ?Hdirty; try done; [|by rewrite Hwp].
    exists t. split_and!; [|done| |].
    + unfold s1. cbn [procs]. rewrite insert_insert_eq. done.
    + rewrite Hl2. done.
    + intros q Hq. rewrite Hv2 by done. cbn [set_pages as_pages]. rewrite Hv1 by done. destruct (q =? p); [|done].
      unfold e1, set_flags. cbn [pe_addr pe_swap pe_flags]. do 2 f_equal. apply clear_dirty_twice. lia.
  - destruct Hclean as [-> ->]. destruct (forget_page_correct s ce.(ce_pid) a p e ce.(ce_vaddr) Ht Hp He Hd Hrf) as (t & -> & Ht2 & Hl2 & Hv2).
    destruct (shootdown_correct (set_procs s (<[ce.(ce_pid) := Some (set_pages a t)]> s.(procs))) ce.(ce_vaddr) Htlb Htl Hva)
      as (l & -> & Hprobe & Hlen & Hgone). eexists. split; [done|]. constructor; cbn [set_procs set_tlb procs vm_swap tlb coremap base coremap_free coremap_swappable coremap_held ram]; rewrite ?Hdirty; try done. by exists t.
Qed.

(** ** Bringing a page back *)

Lemma locate_random_found s r rs : cm_ok s → 0 < coremap_length s →
  (∀ i, 0 ≤ i < coremap_length s → bit s.(coremap_free) i = true) → 0 ≤ r →
  bit s.(coremap_swappable) (r mod coremap_length s) = false →
  locate_random s (r :: rs) = Ret (0, r mod coremap_length s, s, rs).
Proof.
  intros Hok Hlen Hfull Hr Hbit. pose proof Hok as [_ [Hf Hfn] [Hw Hwn] _ _ _]. unfold locate_random, bitmap_alloc.
  pose proof (Z.mod_pos_bound r (coremap_length s) Hlen) as Hmod.
  pose proof (alloc_after_correct _ 0 Hf ltac:(lia)) as Ha. pose proof (alloc_after_correct _ 0 Hw ltac:(lia)) as Hb.
  destruct (bitmap_alloc_after s.(coremap_free) 0) as [[e|[i b]]| | |]; cbn [alloc_post] in Ha; try done; rewrite ret_bind.
  2: { destruct Ha as (Hi & Hbi & _). rewrite Hfull in Hbi by lia. done. }
  destruct (bitmap_alloc_after s.(coremap_swappable) 0) as [[e'|[i b]]| | |]; cbn [alloc_post] in Hb; try done; rewrite ret_bind.
  { destruct Hb as [_ Hset]. rewrite Hset in Hbit by lia. done. }
  destruct Hb as (Hi & Hbi & _ & Hu). pose proof Hu as (Hwb & Hnb & _).
  destruct (unmark_correct b i Hwb ltac:(lia)) as (b' & -> & Hu'). rewrite ret_bind.
  assert (b' = s.(coremap_swappable)) as ->.
  { apply filled_updated in Hu, Hu'. eapply filled_back; [done|exact Hu|exact Hu'|]. intros k _ Hk. by replace k with i by lia. }
  unfold num_rand. cbn [try_exact]. destruct (wf_length _ Hw).
  change (default 0 (head (r :: rs))) with r.
  rewrite (isset_correct s.(coremap_swappable) (r mod coremap_length s) Hw) by lia. rewrite Hbit. cbn [negb]. rewrite !ret_bind. cbn [negb].
  rewrite ret_bind. by destruct s.
Qed.

Lemma swapped_length w b : swap_ok w → 0 ≤ b < w.(swap_freelist).(b_nbits) → Z.of_nat (length (swapped w b)) = w.(page_size).
Proof.
  intros Hw Hb. destruct (page_sectors w b Hw Hb) as (Hps & _ & _ & Hin & _). pose proof (so_disk w Hw) as Hd.
  unfold swapped. rewrite Hps. assert (∀ n k (l : list (list Z)), Forall is_block l → (k + n ≤ length l)%nat →
    length (concat (take n (drop k l))) = (512 * n)%nat) as Hlen.
  { induction n as [|n IH]; intros k l Hl Hn; [by rewrite Nat.mul_0_r|].
    destruct (lookup_lt_is_Some_2 l k ltac:(lia)) as [x Hx]. rewrite (drop_S _ x k Hx). cbn [take concat]. rewrite length_app.
    rewrite IH by (done || lia). destruct (Forall_lookup_1 _ _ _ _ Hl Hx) as [-> _]. lia. }
  rewrite Hlen by (done || lia). lia.
Qed.

(** Frame [idx] after [xs] has been read into it. *)
Lemma frame_read s idx xs : length xs = 4096%nat →
  gather (pour s.(ram) (seqZ (frame_addr s idx) 4096) xs) (seqZ (frame_addr s idx) 4096) = xs ∧
  ∀ k, ¬ (frame_addr s idx ≤ k < frame_addr s idx + 4096) → pour s.(ram) (seqZ (frame_addr s idx) 4096) xs !! k = s.(ram) !! k.
Proof.
  intros Hl. assert (4096 = Z.of_nat (length xs)) as -> by lia. rewrite pour_seqZ. split.
  - apply gather_holds. intros i x Hi. rewrite with_bytes_lookup. pose proof (lookup_lt_Some _ _ _ Hi). rewrite decide_True by lia.
    rewrite <-Hi. f_equal. lia.
  - intros k Hk. rewrite with_bytes_lookup. by rewrite decide_False.
Qed.

Lemma swap_page_correct s r rs b vaddr pid ce a p e : vm_ok s →
  (∀ i, 0 ≤ i < coremap_length s → bit s.(coremap_free) i = true) → 0 ≤ r →
  let idx := r mod coremap_length s in
  bit s.(coremap_swappable) idx = false → resident s idx ce a p e → a.(as_destroying) = false →
  has_flag e.(pe_flags) PAGETABLE_REQUEST_FREE = false → 0 ≤ b < s.(vm_swap).(swap_freelist).(b_nbits) → b ≠ e.(pe_swap) →
  ∃ s1 s', coremap_swap_page s (r :: rs) b vaddr pid = Ret (s.(base) + 4096 * idx, s', rs) ∧ evicted s idx ce a p e s1 ∧
    frame s' idx = swapped s.(vm_swap) b ∧
    (∀ k, ¬ (frame_addr s idx ≤ k < frame_addr s idx + 4096) → s'.(ram) !! k = s.(ram) !! k) ∧
    s' = Vm s.(base) (<[Z.to_nat idx := Centry 12 (u16 pid) vaddr]> s.(coremap)) s.(coremap_free) s.(coremap_swappable)
           s.(coremap_held) s'.(ram) s1.(vm_swap) s1.(procs) s1.(tlb).
Proof.
  intros Hvm Hfull Hr idx Hbit Hre Hd Hrf Hb Hne. pose proof Hre as [[Hidx Hce] _ _ _ _ _ _]. pose proof Hvm as [Hcm [Hsw Hps] _ _].
  unfold coremap_swap_page, locate_swap. rewrite (locate_random_found s r rs Hcm ltac:(lia) Hfull Hr Hbit), ret_bind. fold idx.
  change (negb (0 =? 0)) with false. cbv iota. destruct (evict_correct s idx ce a p e Hvm Hre Hd Hrf) as (s1 & -> & Hev). rewrite ret_bind.
  pose proof Hev as [_ (Hw1 & Hfl1 & Hps1) _ Hoth _ Hcore (Eb & Ef & Es & Eh & Er)].
  assert (coremap_untranslate s1 idx = coremap_untranslate s idx) as -> by (unfold coremap_untranslate; by rewrite Eb).
  rewrite (kvaddr_eq s idx Hcm), Er by lia. rewrite (page_in_correct s.(ram) s1.(vm_swap) (frame_addr s idx) b).
  2: done. 2: by rewrite Hfl1. 2: { unfold frame_addr, MIPS_KSEG0. destruct (cm_base s Hcm). lia. } 2: { rewrite Hps1. by apply frame_mapped. }
  rewrite ret_bind, Hps1, Hoth by (lia || done). pose proof (swapped_length _ _ Hsw Hb) as Hsl. rewrite Hps in Hsl.
  destruct (frame_read s idx (swapped s.(vm_swap) b) ltac:(lia)) as [Hfr Hrest].
  set (m := pour _ _ _) in *. change (coremap (set_swap (set_ram s1 m) ?w)) with s1.(coremap).
  assert (length s1.(coremap) = length s.(coremap)) as Hl1 by (rewrite Hcore; by destruct (has_flag ce.(ce_flags) COREMAP_DIRTY); rewrite ?length_insert).
  unfold coremap_length in Hidx. rewrite wr_in_range by (rewrite Hl1; lia). rewrite ret_bind.
  rewrite untranslate_eq by (done || unfold coremap_length; lia). eexists s1, _. split; [done|]. split_and!; [done| |exact Hrest|].
  { unfold frame, frame_addr, set_coremap, set_swap, set_ram. cbn [ram base]. rewrite Eb. exact Hfr. }
  unfold set_coremap, set_swap, set_ram. cbn [base coremap coremap_free coremap_swappable coremap_held ram vm_swap procs tlb].
  rewrite Eb, Ef, Es, Eh, Hcore. f_equal. destruct (has_flag ce.(ce_flags) COREMAP_DIRTY); [by rewrite list_insert_insert_eq|done].
Qed.

(** ** Properties *)

(** Four frames, all free, and four slots of swap space. *)
Definition small_slots : swap :=
  Swap (Bitmap 4 [240]) (Fs 0 (Bitmap 0 []) false (replicate 32 zero_block) [] []) 4096.

Definition small_vm : vm :=
  Vm 4096 (replicate 4 (Centry 0 0 0)) (Bitmap 4 [240]) (Bitmap 4 [240]) false
    (with_bytes ∅ (MIPS_KSEG0 + 4096) (replicate 16384 5)) small_slots ∅ [].

Lemma four_bits : wf (Bitmap 4 [240]).
Proof.
  split_and!; cbn; [lia|lia|done|by repeat constructor|]. intros i Hi.
  assert (i = 4 ∨ i = 5 ∨ i = 6 ∨ i = 7) as Hc by lia. by repeat destruct Hc as [-> |Hc]; [..|rewrite Hc].
Qed.

Lemma small_slots_ok : swap_ok small_slots.
Proof. constructor; [done|apply four_bits|done| |done]. unfold small_slots, swap_space, sfs_disk. apply Forall_replicate, zero_is_block. Qed.

Lemma filled_bytes_mapped a n x : mapped (with_bytes ∅ a (replicate n x)) a (Z.of_nat n).
Proof.
  intros k Hk. rewrite with_bytes_lookup, length_replicate. rewrite decide_True by lia.
  apply lookup_lt_is_Some_2. rewrite length_replicate. lia.
Qed.

Lemma small_vm_ok : cm_ok small_vm.
Proof.
  constructor; [done|split; [apply four_bits|done]|split; [apply four_bits|done]|apply (filled_bytes_mapped _ 16384)| |].
  - intros i ce [-> Hi]%lookup_replicate Hb. split; [done|exact Hb].
  - by intros i ce [-> Hi]%lookup_replicate.
Qed.

(** C18: [coremap_allocate_page], as long as there are [n] free frames in a row,
    returns the first such run: its frames were free, they are marked in both
    bitmaps and get the entry of the caller, the continuation frames flagged; no
    other frame, bit or byte changes but those of the first frame, which is zeroed,
    and the core map stays consistent. *)
Theorem coremap_allocate_first_fit s iskern pid n vaddr : cm_ok s → 1 ≤ n < 2 ^ 31 →
  ¬ no_run s.(coremap_free) (coremap_length s) n →
  ∃ idx s', coremap_allocate_page s iskern pid n vaddr = Ret (s.(base) + 4096 * idx, s') ∧
    allocated s iskern pid n vaddr idx s' ∧ cm_ok s'.
Proof.
  intros Hok Hn Hrun. destruct (allocate_free s iskern pid n vaddr Hok Hn Hrun) as (idx & s' & Hr & Ha).
  exists idx, s'. split_and!; [done..|]. by eapply allocated_ok.
Qed.

Lemma small_run n : 1 ≤ n ≤ 4 → ¬ no_run small_vm.(coremap_free) (coremap_length small_vm) n.
Proof.
  intros Hn Hno. apply (Hno 0); [done|change (coremap_length small_vm) with 4; lia|]. intros k Hk.
  assert (k = 0 ∨ k = 1 ∨ k = 2 ∨ k = 3) as Hc by lia. by repeat destruct Hc as [-> |Hc]; [..|rewrite Hc].
Qed.

Lemma coremap_allocate_first_fit_witness :
  ∃ idx s', coremap_allocate_page small_vm true 0 2 0 = Ret (small_vm.(base) + 4096 * idx, s') ∧
    allocated small_vm true 0 2 0 idx s' ∧ cm_ok s'.
Proof. apply (coremap_allocate_first_fit small_vm true 0 2 0 small_vm_ok); [done|apply small_run; lia]. Defined.

(** Freeing what has just been allocated gives both bitmaps and the flags of
    every frame back as they were, unless the allocation ends at the last frame:
    then [coremap_free_page] looks for one more continuation frame past the end of
    the core map. *)
Theorem coremap_allocate_free s iskern pid n vaddr paddr s' : cm_ok s → 1 ≤ n < 2 ^ 31 →
  ¬ no_run s.(coremap_free) (coremap_length s) n → coremap_allocate_page s iskern pid n vaddr = Ret (paddr, s') →
  if decide (paddr + 4096 * n = s.(base) + 4096 * coremap_length s) then coremap_free_page s' paddr = Undef
  else ∃ s'', coremap_free_page s' paddr = Ret s'' ∧ s''.(coremap_free) = s.(coremap_free) ∧
    s''.(coremap_swappable) = s.(coremap_swappable) ∧
    ∀ j, ce_flags <$> s''.(coremap) !! j = ce_flags <$> s.(coremap) !! j.
Proof.
  intros Hok Hn Hrun Hal. destruct (allocate_free s iskern pid n vaddr Hok Hn Hrun) as (idx & s1 & Hr & Ha).
  rewrite Hal in Hr. injection Hr as -> <-. pose proof (allocated_ok _ _ _ _ _ _ _ Hok Ha) as Hok'.
  pose proof (allocated_length _ _ _ _ _ _ _ Ha) as Hlen. pose proof (allocated_run s iskern pid n vaddr idx s' Hok ltac:(lia) Ha) as Hra.
  destruct Ha as [(Hi & Hin & Hclear & _) Hf Hw _ Hent _ (Hbase & _)].
  pose proof (free_correct s' idx n Hok' Hra ltac:(lia)) as Hfree. rewrite Hbase, Hlen in Hfree.
  destruct (decide (idx + n = coremap_length s)); [by rewrite decide_True by lia|]. rewrite decide_False by lia.
  destruct Hfree as (s'' & -> & [Hf2 Hw2 _ Hent2 _]). exists s''.
  assert (∀ j ce, idx ≤ Z.of_nat j < idx + n → s.(coremap) !! j = Some ce → ce.(ce_flags) = 0 ∧ bit s.(coremap_swappable) (Z.of_nat j) = false) as Hun.
  { intros j ce Hj Hce. apply (cm_unused s Hok j ce Hce). by apply Hclear. }
  split_and!; [done| | |].
  - eapply filled_back; [apply Hok|exact Hf|exact Hf2|]. intros k _ Hk. by apply Hclear.
  - eapply filled_back; [apply Hok|exact Hw|exact Hw2|]. intros k Hk0 Hk.
    destruct (lookup_lt_is_Some_2 s.(coremap) (Z.to_nat k)) as [ce Hce]; [unfold coremap_length in *; lia|].
    destruct (Hun (Z.to_nat k) ce ltac:(lia) Hce) as [_ Hb]. by rewrite Z2Nat.id in Hb by lia.
  - intros j. rewrite Hent2, Hent. case_decide as Hj; [|done].
    destruct (lookup_lt_is_Some_2 s.(coremap) j) as [ce Hce]; [unfold coremap_length in *; lia|]. rewrite Hce. cbn.
    by destruct (Hun j ce Hj Hce) as [-> _].
Qed.

Lemma coremap_allocate_free_witness : ∃ paddr s',
  coremap_allocate_page small_vm true 0 4 0 = Ret (paddr, s') ∧
  (paddr + 4096 * 4 = small_vm.(base) + 4096 * coremap_length small_vm → coremap_free_page s' paddr = Undef).
Proof.
  assert (1 ≤ 4 < 2 ^ 31) as Hn by lia.
  destruct (allocate_free small_vm true 0 4 0 small_vm_ok Hn (small_run 4 ltac:(lia))) as (idx & s' & Hr & _).
  exists (small_vm.(base) + 4096 * idx), s'. split; [exact Hr|]. intros Heq.
  pose proof (coremap_allocate_free small_vm true 0 4 0 (small_vm.(base) + 4096 * idx) s' small_vm_ok Hn (small_run 4 ltac:(lia)) Hr) as H.
  rewrite decide_True in H by exact Heq. exact H.
Defined.

(** The slot of the page in frame [idx] holds what the frame holds, if the frame is not marked dirty. *)
Definition up_to_date (s : vm) (idx : Z) (ce : coremap_entry) (e : pagetable_entry) : Prop :=
  has_flag ce.(ce_flags) COREMAP_DIRTY = false → swapped s.(vm_swap) e.(pe_swap) = frame s idx.

(** C17: Evicting a page that is not about to be freed, of a process that is not going away, when no transfer to the swap disk fails: a frame that is
    marked dirty is written to the slot of the page, no other slot changes, the entry of the page says that it is
    not in memory and clean, and no other entry changes.  So the slot holds the page afterwards, provided that
    it did before in case the frame is not marked dirty.  The TLB has no entry for the page afterwards if the
    address that the core map has for it has zeros in bits 6 to 11, where the processor looks for an address
    space id; otherwise the TLB stays as it is. *)
Theorem coremap_evict_saves s idx ce a p e : vm_ok s → resident s idx ce a p e → a.(as_destroying) = false →
  has_flag e.(pe_flags) PAGETABLE_REQUEST_FREE = false →
  ∃ s', coremap_swap_page_out s idx = Ret s' ∧ evicted s idx ce a p e s' ∧
    (up_to_date s idx ce e → swapped s'.(vm_swap) e.(pe_swap) = frame s idx).
Proof.
  intros Hvm Hre Hd Hrf. destruct (evict_correct s idx ce a p e Hvm Hre Hd Hrf) as (s' & Hr & Hev). exists s'. split_and!; [done..|].
  intros Hup. rewrite (ev_slot _ _ _ _ _ _ _ Hev). unfold up_to_date in Hup. destruct (has_flag ce.(ce_flags) COREMAP_DIRTY); auto.
Qed.

(** A page table with one page, at 4 MB, in frame 0. *)
Lemma small_table flags :
  ∃ t b, (pt_ok t ∧ t.(pt_locked) = false) ∧ view t 1024 = Some (Entry 1 b (entry_flags flags)) ∧ 0 ≤ b < 4 ∧
    ∀ q, 0 ≤ q < 2 ^ 20 → q ≠ 1024 → view t q = None.
Proof.
  destruct (pagetable_create_correct []) as ([t|] & o & _ & Ht); [|by apply not_elem_of_nil in Ht].
  destruct Ht as (Hok & Hl & Hnone). pose proof small_slots_ok as Hw.
  pose proof (add_correct t 4194304 4096 flags small_slots [] Hok Hl ltac:(lia) Hw) as Ha.
  change (page_no 4194304) with 1024 in Ha. pose proof (swap_allocate_correct small_slots Hw) as Hs.
  destruct (pagetable_add t 4194304 4096 flags small_slots []) as [[[[[] t'] w'] o']| | |]; cbn in Ha; try done;
    [|destruct Ha as (_ & _ & _ & [[Hin _]|[Hno _]])|]; [|by apply not_elem_of_nil in Hin|by vm_compute in Hno|by apply not_elem_of_nil in Ha].
  destruct Ha as (Hok' & Hl' & _ & _ & b & Hb & Hv). rewrite Hb in Hs. destruct Hs as (_ & _ & _ & [(_ & Hr & _)|[? _]]); [|done].
  exists t', b. split_and!; [done|done| |exact (proj1 Hr)|exact (proj2 Hr)|]; [by rewrite Hv by lia|].
  intros q Hq Hne. rewrite Hv by lia. rewrite (proj2 (Z.eqb_neq _ _)) by done. by apply Hnone.
Qed.

Definition small_resident (t : pagetable) : vm :=
  Vm 4096 [Centry 13 5 4194304] (Bitmap 1 [255]) (Bitmap 1 [254]) false
    (with_bytes ∅ (MIPS_KSEG0 + 4096) (replicate 4096 5)) small_slots
    {[5 := Some (Addrspace t 5 false 0 false 0 0 0)]} [].

Lemma small_resident_ok t : vm_ok (small_resident t).
Proof.
  constructor.
  - constructor; [done| | |apply (filled_bytes_mapped _ 4096)| |].
    + split; [|done]. split_and!; cbn; [lia|lia|done|by repeat constructor|]. intros i Hi.
      assert (i = 1 ∨ i = 2 ∨ i = 3 ∨ i = 4 ∨ i = 5 ∨ i = 6 ∨ i = 7) as Hc by lia. by repeat destruct Hc as [-> |Hc]; [..|rewrite Hc].
    + split; [|done]. split_and!; cbn; [lia|lia|done|by repeat constructor|]. intros i Hi.
      assert (i = 1 ∨ i = 2 ∨ i = 3 ∨ i = 4 ∨ i = 5 ∨ i = 6 ∨ i = 7) as Hc by lia. by repeat destruct Hc as [-> |Hc]; [..|rewrite Hc].
    + intros [|i] ce Hi Hb; [done|by destruct i].
    + intros [|i] ce Hi; [injection Hi as <-; done|by destruct i].
  - split; [apply small_slots_ok|done].
  - intros k x. unfold small_resident. cbn [ram]. rewrite with_bytes_lookup. case_decide; [|done].
    intros [-> _]%lookup_replicate. lia.
  - split; [by split; intros [|i]|cbn; lia].
Qed.

Lemma coremap_evict_saves_witness : ∃ t b s', view t 1024 = Some (Entry 1 b 3) ∧
  coremap_swap_page_out (small_resident t) 0 = Ret s' ∧ swapped s'.(vm_swap) b = frame (small_resident t) 0.
Proof.
  destruct (small_table 0) as (t & b & [Ht _] & Hv & Hb & _). exists t, b.
  destruct (coremap_evict_saves (small_resident t) 0 (Centry 13 5 4194304) (Addrspace t 5 false 0 false 0 0 0) 1024 (Entry 1 b 3)
    (small_resident_ok t)) as (s' & Hr & _ & Hs); [|done|done|].
  - constructor; [done|by apply lookup_singleton_eq|done|done|done|done|done].
  - exists s'. split_and!; [done..|]. by apply Hs.
Defined.

(** The core map keeps the address of the fault that brought a page in, offset and all.  If the offset has bits 6 to 11
    in it, the shootdowns look for an address space id that no entry has: the translation stays in the TLB, and the
    process can go on using the frame when it has been given to another page. *)
Theorem evicted_page_stays_mapped s idx ce a p e i lo : vm_ok s → resident s idx ce a p e → a.(as_destroying) = false →
  has_flag e.(pe_flags) PAGETABLE_REQUEST_FREE = false → Z.land ce.(ce_vaddr) TLBHI_PID ≠ 0 →
  s.(tlb) !! i = Some (Z.land ce.(ce_vaddr) TLBHI_VPAGE, lo) →
  ∃ s', coremap_swap_page_out s idx = Ret s' ∧ s'.(tlb) !! i = Some (Z.land ce.(ce_vaddr) TLBHI_VPAGE, lo).
Proof.
  intros Hvm Hre Hd Hrf Hva Hi. destruct (evict_correct s idx ce a p e Hvm Hre Hd Hrf) as (s' & Hr & Hev). exists s'. split; [done|].
  destruct (ev_tlb _ _ _ _ _ _ _ Hev) as [_ Ht]. rewrite (proj2 (Z.eqb_neq _ _) Hva) in Ht. by rewrite Ht.
Qed.

(** [coremap_swap_page], when no frame is free and the random number names an
    evictable one, evicts the page there as [coremap_swap_page_out] does, fills the
    frame with what the slot of the wanted page holds, and changes no other byte of
    memory: a page comes back as it was written. *)
Theorem coremap_swap_page_restores s r rs b vaddr pid ce a p e : vm_ok s →
  (∀ i, 0 ≤ i < coremap_length s → bit s.(coremap_free) i = true) → 0 ≤ r →
  let idx := r mod coremap_length s in
  bit s.(coremap_swappable) idx = false → resident s idx ce a p e → a.(as_destroying) = false →
  has_flag e.(pe_flags) PAGETABLE_REQUEST_FREE = false → 0 ≤ b < s.(vm_swap).(swap_freelist).(b_nbits) → b ≠ e.(pe_swap) →
  ∃ s1 s', coremap_swap_page s (r :: rs) b vaddr pid = Ret (s.(base) + 4096 * idx, s', rs) ∧ evicted s idx ce a p e s1 ∧
    frame s' idx = swapped s.(vm_swap) b ∧
    (∀ k, ¬ (frame_addr s idx ≤ k < frame_addr s idx + 4096) → s'.(ram) !! k = s.(ram) !! k) ∧
    s' = Vm s.(base) (<[Z.to_nat idx := Centry 12 (u16 pid) vaddr]> s.(coremap)) s.(coremap_free) s.(coremap_swappable)
           s.(coremap_held) s'.(ram) s1.(vm_swap) s1.(procs) s1.(tlb).
Proof. apply swap_page_correct. Qed.

Lemma coremap_swap_page_restores_witness : ∃ t b b' s', b' ≠ b ∧ view t 1024 = Some (Entry 1 b 3) ∧
  coremap_swap_page (small_resident t) [0] b' 8192 5 = Ret (4096, s', []) ∧ frame s' 0 = swapped small_slots b'.
Proof.
  destruct (small_table 0) as (t & b & [Ht _] & Hv & Hb & _). set (b' := if b =? 0 then 1 else 0).
  assert (b' ≠ b ∧ 0 ≤ b' < 4) as [Hne Hb'] by (unfold b'; destruct (Z.eqb_spec b 0); lia).
  destruct (coremap_swap_page_restores (small_resident t) 0 [] b' 8192 5 (Centry 13 5 4194304) (Addrspace t 5 false 0 false 0 0 0) 1024
    (Entry 1 b 3) (small_resident_ok t)) as (s1 & s' & Hr & _ & Hf & _).
  - intros i Hi. change (coremap_length (small_resident t)) with 1 in Hi. by replace i with 0 by lia.
  - lia.
  - reflexivity.
  - constructor; [done|by apply lookup_singleton_eq|done|done|done|done|done].
  - reflexivity.
  - reflexivity.
  - exact Hb'.
  - exact Hne.
  - exists t, b, b', s'. split; [exact Hne|]. split; [exact Hv|]. split; [exact Hr|exact Hf].
Defined.

(** All four frames in use. *)
Lemma all_bits k : 0 ≤ k < 4 → bit (Bitmap 4 [255]) k = true.
Proof. intros Hk. assert (k = 0 ∨ k = 1 ∨ k = 2 ∨ k = 3) as Hc by lia. by repeat destruct Hc as [-> |Hc]; [..|rewrite Hc]. Qed.

Lemma all_bits_wf : wf (Bitmap 4 [255]).
Proof.
  split_and!; cbn; [lia|lia|done|by repeat constructor|]. intros i Hi.
  assert (i = 4 ∨ i = 5 ∨ i = 6 ∨ i = 7) as Hc by lia. by repeat destruct Hc as [-> |Hc]; [..|rewrite Hc].
Qed.

Lemma small_full_ok v : wf (Bitmap 4 v) → cm_ok (set_maps small_vm (Bitmap 4 [255]) (Bitmap 4 v)).
Proof.
  intros Hv. constructor; [done|split; [apply all_bits_wf|done]|split; [exact Hv|done]|apply (filled_bytes_mapped _ 16384)| |].
  - intros i ce [-> Hi]%lookup_replicate Hb. unfold set_maps in Hb. cbn [coremap_free] in Hb. by rewrite all_bits in Hb by lia.
  - by intros i ce [-> Hi]%lookup_replicate.
Qed.

Definition small_full : vm := set_maps small_vm (Bitmap 4 [255]) (Bitmap 4 [255]).

(** When memory runs out the kernel panics: if neither the free nor the
    evictable frames contain a run of [n], [coremap_allocate_page] calls [cv_wait]
    without the lock that [cv_wait] asserts to be held. *)
Theorem coremap_full_panics s iskern pid n vaddr : cm_ok s → 1 ≤ n < 2 ^ 31 → s.(coremap_held) = false →
  no_run s.(coremap_free) (coremap_length s) n → no_run s.(coremap_swappable) (coremap_length s) n →
  coremap_allocate_page s iskern pid n vaddr = Panic.
Proof.
  intros Hok Hn Hheld Hno1 Hno2. unfold coremap_allocate_page. pose proof (locate_range_correct s FreeMap n Hok Hn) as Hl1.
  pose proof (locate_range_correct s SwappableMap n Hok Hn) as Hl2.
  destruct (locate_range s FreeMap n) as [[[e idx] s1]| | |]; try done. rewrite ret_bind.
  destruct Hl1 as [(_ & (? & ? & Hc & _) & _)|(-> & _ & ->)]; [by destruct (Hno1 idx)|]. change (ENOSPC =? 0) with false. cbv iota.
  destruct (locate_range s SwappableMap n) as [[[e idx2] s2]| | |]; try done. rewrite ret_bind.
  destruct Hl2 as [(_ & (? & ? & Hc & _) & _)|(-> & _ & ->)]; [by destruct (Hno2 idx2)|]. change (negb (ENOSPC =? 0)) with true. cbv iota.
  unfold wait_for_memory. by rewrite Hheld.
Qed.

Lemma coremap_full_panics_witness : coremap_allocate_page small_full true 0 1 0 = Panic.
Proof.
  apply (coremap_full_panics small_full true 0 1 0); [apply small_full_ok, all_bits_wf|done|done| |];
    intros j Hj Hjn Hc; specialize (Hc j ltac:(lia)); change (coremap_length small_full) with 4 in Hjn; by rewrite all_bits in Hc by lia.
Defined.

(** Only the first frame of an allocation of several frames is zeroed: the
    others are handed out with what their last owner left in them. *)
Theorem coremap_allocate_stale s iskern pid n vaddr paddr s' k x : cm_ok s → 1 ≤ n < 2 ^ 31 →
  ¬ no_run s.(coremap_free) (coremap_length s) n → coremap_allocate_page s iskern pid n vaddr = Ret (paddr, s') →
  1 ≤ k < n → 0 ≤ x < 4096 → s'.(ram) !! (MIPS_KSEG0 + paddr + 4096 * k + x) = s.(ram) !! (MIPS_KSEG0 + paddr + 4096 * k + x).
Proof.
  intros Hok Hn Hrun Hal Hk Hx. destruct (allocate_free s iskern pid n vaddr Hok Hn Hrun) as (idx & s1 & Hr & Ha).
  rewrite Hal in Hr. injection Hr as -> <-. rewrite (al_ram _ _ _ _ _ _ _ Ha), decide_False; [done|unfold frame_addr; lia].
Qed.

Lemma coremap_allocate_stale_witness : ∃ paddr s',
  coremap_allocate_page small_vm true 0 2 0 = Ret (paddr, s') ∧
  s'.(ram) !! (MIPS_KSEG0 + paddr + 4096 * 1 + 7) = small_vm.(ram) !! (MIPS_KSEG0 + paddr + 4096 * 1 + 7).
Proof.
  assert (1 ≤ 2 < 2 ^ 31) as Hn by lia. pose proof (small_run 2 ltac:(lia)) as Hrun.
  destruct (allocate_free small_vm true 0 2 0 small_vm_ok Hn Hrun) as (idx & s' & Hr & _).
  exists (small_vm.(base) + 4096 * idx), s'. split; [exact Hr|].
  apply (coremap_allocate_stale small_vm true 0 2 0 (small_vm.(base) + 4096 * idx) s' 1 7 small_vm_ok Hn Hrun Hr); lia.
Defined.

(** [locate_random] does not claim the frame it finds: when no frame is free and
    the first random number names an evictable frame, that frame is returned and
    nothing is marked, so a second search can return it again. *)
Theorem locate_random_unclaimed s r rs : cm_ok s → 0 < coremap_length s →
  (∀ i, 0 ≤ i < coremap_length s → bit s.(coremap_free) i = true) → 0 ≤ r →
  bit s.(coremap_swappable) (r mod coremap_length s) = false →
  locate_random s (r :: rs) = Ret (0, r mod coremap_length s, s, rs).
Proof. apply locate_random_found. Qed.

Lemma locate_random_unclaimed_witness :
  let s := set_maps small_vm (Bitmap 4 [255]) (Bitmap 4 [240]) in
  locate_random s [6; 6] = Ret (0, 6 mod coremap_length s, s, [6]).
Proof.
  intros s. apply (locate_random_unclaimed s 6 [6]); [apply small_full_ok, four_bits|done|apply all_bits|done|done].
Defined.

(** [coremap_allocate_early] never returns: it looks for a frame with
    [flags | COREMAP_INUSE] zero and runs off the end of the core map. *)
Theorem coremap_early_never s npages : coremap_allocate_early s npages = Undef.
Proof.
  unfold coremap_allocate_early. assert (∀ fuel i, 0 ≤ i → Z.of_nat (length s.(coremap)) - i < Z.of_nat fuel →
    i ≤ Z.of_nat (length s.(coremap)) → early_loop fuel s.(coremap) i = Undef) as H.
  { induction fuel as [|fuel IH]; intros i Hi Hf Hle; cbn [early_loop]; [lia|].
    destruct (decide (i = Z.of_nat (length s.(coremap)))); [by rewrite rd_out_of_range by lia|].
    destruct (rd_in_range s.(coremap) i) as (ce & -> & _); [lia|]. cbn [mbind res_bind].
    destruct (Z.eqb_spec (Z.lor ce.(ce_flags) COREMAP_INUSE) 0) as [[_ ?]%Z.lor_eq_0_iff|]; [done|]. apply IH; lia. }
  by rewrite H by lia.
Qed.
