(* ===== verification/Vm.v ===== *)
(** * Address spaces and page faults (kern/arch/mips/vm/mipsvm.c, kern/vm/addrspace.c,
      the rest of kern/vm/pagetable.c, kern/syscall/sbrk.c)

    The operations of the process [cur] on its address space, over the state of
    [Coremap].  [rands] are the coming results of [random], [slot] is the entry of
    the TLB the processor would choose. *)

From S2P Require Import Prelude Synch CString UserCopy Uio Bitmap Sfs SfsIo Swap PageTable Coremap.

(** ** Operations *)

(** The address space of process [pid]. *)
Definition get_as (s : vm) (pid : Z) : res addrspace :=
  p ← deref (s.(procs) !! pid);
  deref p.

Definition put_as (s : vm) (pid : Z) (a : addrspace) : vm := set_procs s (<[pid := Some a]> s.(procs)).

(** [pagetable_lookup(as->pages, addr)] *)
Definition lookup_page (s : vm) (pid addr : Z) : res (option entry_ref * vm) :=
  a ← get_as s pid;
  '(r, t) ← pagetable_lookup a.(as_pages) addr;
  Ret (r, put_as s pid (set_pages a t)).

Definition entry_of (s : vm) (pid : Z) (r : entry_ref) : res pagetable_entry :=
  a ← get_as s pid;
  get_entry a.(as_pages) r.

Definition change_entry (s : vm) (pid : Z) (r : entry_ref) (f : pagetable_entry → pagetable_entry) : res vm :=
  a ← get_as s pid;
  '(_, s) ← update_entry s pid a r f;
  Ret s.

(** The result of [pagetable_add] is not looked at. *)
Definition pagetable_pull (s : vm) (cur addr flags : Z) (o : script) : res (Z * vm * script) :=
  '(newpage, s) ← coremap_allocate_page s false cur 1 addr;
  a ← get_as s cur;
  '(_, t, w, o) ← pagetable_add a.(as_pages) addr newpage flags s.(vm_swap) o;
  let s := put_as (set_swap s w) cur (set_pages a t) in
  s ← coremap_lock_release s newpage;
  Ret (newpage, s, o).

Definition pagetable_swap_in (s : vm) (cur : Z) (r : entry_ref) (vaddr pid : Z) (rands : list Z) : res (vm * list Z) :=
  e ← entry_of s cur r;
  '(paddr, s, rands) ← coremap_swap_page s rands e.(pe_swap) vaddr pid;
  s ← change_entry s cur r (λ e, Entry (Z.shiftr paddr 12) e.(pe_swap)
         (u8 (clear_flag (Z.lor e.(pe_flags) PAGETABLE_INMEM) PAGETABLE_DIRTY)));
  s ← coremap_lock_release s paddr;
  Ret (s, rands).

(** A translation put into the TLB, in place of one for the same page. *)
Definition load_tlb (s : vm) (slot : nat) (hi lo : Z) : vm :=
  match tlb_probe s.(tlb) hi with
  | Some i => set_tlb s (tlb_write s.(tlb) hi lo i)
  | None => set_tlb s (tlb_write s.(tlb) hi lo slot)
  end.

Definition paddr_of (e : pagetable_entry) : Z := u32 (Z.shiftl e.(pe_addr) 12).

Definition USERSTACK : Z := USERSPACETOP.
Definition VM_FAULT_READ : Z := 0.
Definition VM_FAULT_WRITE : Z := 1.
Definition VM_FAULT_READONLY : Z := 2.

Definition set_stack_base (a : addrspace) (x : Z) : addrspace :=
  Addrspace a.(as_pages) a.(as_pid) a.(as_destroying) a.(as_destroy_count) a.(as_loading) a.(as_heap_end) a.(as_heap_start) x.
Definition set_heap (a : addrspace) (heap_start heap_end : Z) : addrspace :=
  Addrspace a.(as_pages) a.(as_pid) a.(as_destroying) a.(as_destroy_count) a.(as_loading) heap_end heap_start a.(as_stack_base).
Definition set_loading (a : addrspace) (b : bool) : addrspace :=
  Addrspace a.(as_pages) a.(as_pid) a.(as_destroying) a.(as_destroy_count) b a.(as_heap_end) a.(as_heap_start) a.(as_stack_base).

(** The loop that brings the page in: it ends when the entry says so. *)
Fixpoint swap_in_loop (fuel : nat) (s : vm) (cur : Z) (r : entry_ref) (addr pid : Z) (rands : list Z) : res (vm * list Z) :=
  match fuel with
  | O => Diverge
  | S fuel' =>
      e ← entry_of s cur r;
      if has_flag e.(pe_flags) PAGETABLE_INMEM then Ret (s, rands) else
      '(s, rands) ← pagetable_swap_in s cur r addr pid rands;
      swap_in_loop fuel' s cur r addr pid rands
  end.

(** No entry for the page: a new page. *)
Definition fault_new (s : vm) (cur : Z) (a : addrspace) (addr : Z) (slot : nat) (o : script) : res (Z * vm * script) :=
  if negb a.(as_loading) && (addr <? a.(as_heap_start)) then Ret (1, s, o) else
  let a := if negb a.(as_loading) && (addr <? a.(as_stack_base)) && (a.(as_heap_end) <? addr)
           then set_stack_base a (Z.land addr PAGE_SIZE) else a in
  let s := put_as s cur a in
  '(_, s, o) ← pagetable_pull s cur addr 0 o;
  '(r, s) ← lookup_page s cur addr;
  r ← deref r;
  e ← entry_of s cur r;
  Ret (0, load_tlb s slot (Z.land addr TLBHI_VPAGE) (Z.lor (paddr_of e) TLBLO_VALID), o).

(** The page has an entry. *)
Definition fault_resident (s : vm) (cur : Z) (a : addrspace) (r : entry_ref) (addr : Z) (slot : nat) (rands : list Z)
    : res (Z * vm * list Z) :=
  '(s, rands) ← swap_in_loop 2 s cur r addr a.(as_pid) rands;
  e ← entry_of s cur r;
  Ret (0, load_tlb s slot (Z.land addr TLBHI_VPAGE) (Z.lor (paddr_of e) TLBLO_VALID), rands).

(** A write through an entry of the TLB that does not allow it. *)
Definition fault_readonly (s : vm) (cur : Z) (a : addrspace) (r : option entry_ref) (addr : Z) (slot : nat) : res (Z * vm) :=
  if negb a.(as_loading) && (addr <? a.(as_stack_base)) && (a.(as_heap_end) <? addr) then Ret (1, s) else
  r ← deref r;
  e ← entry_of s cur r;
  '(map, s) ← coremap_lock_acquire s (paddr_of e);
  if negb map then Ret (0, s) else
  if negb (has_flag e.(pe_flags) PAGETABLE_WRITEABLE) && negb a.(as_loading) then
    s ← coremap_lock_release s (paddr_of e);
    Ret (1, s)
  else
    s ← change_entry s cur r (λ e, set_flags e (Z.lor e.(pe_flags) PAGETABLE_DIRTY));
    s ← coremap_mark_page_dirty s (paddr_of e);
    let s := load_tlb s slot (Z.land addr TLBHI_VPAGE) (Z.lor (paddr_of e) (Z.lor TLBLO_VALID TLBLO_DIRTY)) in
    s ← coremap_lock_release s (paddr_of e);
    Ret (0, s).

Definition vm_fault (s : vm) (cur faulttype addr : Z) (slot : nat) (rands : list Z) (o : script)
    : res (Z * vm * list Z * script) :=
  if USERSTACK <=? addr then Ret (1, s, rands, o) else
  p ← deref (s.(procs) !! cur);
  match p with
  | None => Ret (1, s, rands, o)
  | Some _ =>
      '(r, s) ← lookup_page s cur addr;
      a ← get_as s cur;
      if faulttype <? 2 then
        match r with
        | None => '(e, s, o) ← fault_new s cur a addr slot o; Ret (e, s, rands, o)
        | Some r => '(e, s, rands) ← fault_resident s cur a r addr slot rands; Ret (e, s, rands, o)
        end
      else '(e, s) ← fault_readonly s cur a r addr slot; Ret (e, s, rands, o)
  end.

(** ** Regions *)

Definition sbrk (a : addrspace) (amount : Z) : Z * Z * addrspace :=
  let prev := i32 a.(as_heap_end) in
  if amount =? 0 then (0, prev, a) else
  let heap_end := u32 (a.(as_heap_end) + amount) in
  if amount <? 0 then
    if a.(as_heap_start) <=? heap_end then (0, prev, set_heap a a.(as_heap_start) heap_end)
    else (EINVAL, -1, a)
  else
    if heap_end <? a.(as_stack_base) then (0, prev, set_heap a a.(as_heap_start) heap_end)
    else (ENOMEM, -1, a).

(** The error, the result and the state. *)
Definition sys_sbrk (s : vm) (cur amount : Z) : res (Z * Z * vm) :=
  a ← get_as s cur;
  let '(error, result, a) := sbrk a amount in
  Ret (error, result, put_as s cur a).

Definition region_flags (readable writeable executable : bool) : Z :=
  (if executable then 64 else 0) + (if writeable then 32 else 0) + (if readable then 16 else 0).

(** [while (resident == NULL)] pull a page.  As many turns as there are frames and
    three more are enough: a turn that does not add the entry takes a free frame, and
    when there is none left the turns take the same frame again and again. *)
Fixpoint reside (fuel : nat) (s : vm) (cur addr flags : Z) (o : script) : res (Z * entry_ref * vm * script) :=
  match fuel with
  | O => Diverge
  | S fuel' =>
      '(r, s) ← lookup_page s cur addr;
      match r with
      | Some r => Ret (0, r, s, o)
      | None =>
          '(newaddr, s, o) ← pagetable_pull s cur addr flags o;
          if newaddr =? 0 then Ret (ENOMEM, (0, 0), s, o) else reside fuel' s cur addr flags o
      end
  end.

(** [for (v = page; v < page + memsize; v += 4096)], the end being [stop]. *)
Fixpoint region_loop (fuel : nat) (s : vm) (cur v stop flags : Z) (o : script) : res (Z * vm * script) :=
  match fuel with
  | O => Diverge
  | S fuel' =>
      if v <? stop then
        '(err, r, s, o) ← reside (3 + length s.(coremap)) s cur v flags o;
        if negb (err =? 0) then Ret (err, s, o) else
        s ← change_entry s cur r (λ e, set_flags e (e.(pe_flags) mod 16 + flags));
        region_loop fuel' s cur (u32 (v + PAGE_SIZE)) stop flags o
      else Ret (0, s, o)
  end.

(** One turn for each page, and the last test. *)
Definition region_fuel (page stop : Z) : nat := S (Z.to_nat ((stop - page + PAGE_SIZE - 1) / PAGE_SIZE)).

Definition heap_above (x : Z) : Z :=
  if negb (Z.land x (PAGE_SIZE - 1) =? 0) then Z.land (u32 (x + PAGE_SIZE)) (Z.lnot (PAGE_SIZE - 1)) else x.

Definition as_define_region (s : vm) (cur vaddr memsize : Z) (readable writeable executable : bool) (o : script)
    : res (Z * vm * script) :=
  let flags := region_flags readable writeable executable in
  let page := Z.shiftl (Z.shiftr vaddr 12) 12 in
  let stop := u32 (page + memsize) in
  '(err, s, o) ← region_loop (region_fuel page stop) s cur page stop flags o;
  if negb (err =? 0) then Ret (err, s, o) else
  a ← get_as s cur;
  let heap_start := heap_above stop in
  Ret (0, put_as s cur (set_heap a heap_start heap_start), o).

Definition as_prepare_load (s : vm) (cur : Z) : res vm :=
  a ← get_as s cur;
  Ret (put_as s cur (set_loading a true)).

(** The TLB filled with translations that match no user page. *)
Definition flush_all (s : vm) : vm :=
  set_tlb s ((λ i, (Z.lor MIPS_KSEG2 (Z.shiftl i 12), 0)) <$> seqZ 0 64).

(** [c_tlb_pid] is the process whose translations the TLB holds. *)
Definition vm_flush_tlb (s : vm) (c_tlb_pid pid : Z) : vm * Z :=
  if (pid =? 0) || negb (pid =? c_tlb_pid) then (flush_all s, if negb (pid =? 0) then pid else c_tlb_pid)
  else (s, c_tlb_pid).

Definition as_complete_load (s : vm) (cur c_tlb_pid : Z) : res (vm * Z) :=
  a ← get_as s cur;
  Ret (vm_flush_tlb (put_as s cur (set_loading a false)) c_tlb_pid 0).

Definition as_activate (s : vm) (cur c_tlb_pid : Z) : res (vm * Z) :=
  p ← deref (s.(procs) !! cur);
  match p with
  | None => Ret (s, c_tlb_pid)
  | Some a => Ret (vm_flush_tlb s c_tlb_pid a.(as_pid))
  end.

Definition as_define_stack (s : vm) (cur : Z) (o : script) : res (Z * Z * vm * script) :=
  a ← get_as s cur;
  let s := put_as s cur (set_stack_base a (USERSTACK - PAGE_SIZE * 3)) in
  let heap_end := a.(as_heap_end) in
  let heap_start := a.(as_heap_start) in
  '(err, s, o) ← as_define_region s cur (USERSTACK - PAGE_SIZE * 3) (PAGE_SIZE * 3) true true false o;
  a ← get_as s cur;
  Ret (err, USERSTACK - 1, put_as s cur (set_heap a heap_start heap_end), o).

(** ** Lemmas *)

(** A consistent core map stays consistent when only other parts of the state change
    and frames become evictable. *)
Lemma cm_ok_ext s s' : cm_ok s → s'.(base) = s.(base) → s'.(coremap) = s.(coremap) → s'.(coremap_free) = s.(coremap_free) →
  s'.(ram) = s.(ram) → wf s'.(coremap_swappable) → s'.(coremap_swappable).(b_nbits) = s.(coremap_swappable).(b_nbits) →
  (∀ k, 0 ≤ k → bit s.(coremap_swappable) k = false → bit s'.(coremap_swappable) k = false) → cm_ok s'.
Proof.
  intros [Hb Hf [Hw Hwn] Hm Hun Hmu] Eb Ec Ef Er Hw' Hn' Hbits.
  assert (coremap_length s' = coremap_length s) as Hlen by (unfold coremap_length; by rewrite Ec).
  constructor; rewrite ?Hlen, ?Eb, ?Ec, ?Ef, ?Er; [done|done|split; [done|congruence]|done| |done].
  intros i ce Hi Hbit. destruct (Hun i ce Hi Hbit) as [? ?]. split; [done|]. apply Hbits; [lia|done].
Qed.

Lemma get_as_correct s pid a : s.(procs) !! pid = Some (Some a) → get_as s pid = Ret a.
Proof. intros H. unfold get_as. by rewrite H. Qed.

(** The lock on frame [idx] of [s], released in a later state [s1]. *)
Lemma lock_release_later s s1 idx : cm_ok s → 0 ≤ idx < coremap_length s → s1.(base) = s.(base) →
  wf s1.(coremap_swappable) → s1.(coremap_swappable).(b_nbits) = coremap_length s →
  ∃ w, coremap_lock_release s1 (s.(base) + 4096 * idx) = Ret (set_maps s1 s1.(coremap_free) w) ∧
    filled s1.(coremap_swappable) idx 1 false w.
Proof.
  intros Hok Hi Eb Hw Hn. unfold coremap_lock_release.
  replace (coremap_translate s1 (s.(base) + 4096 * idx)) with (coremap_translate s (s.(base) + 4096 * idx))
    by (unfold coremap_translate; by rewrite Eb).
  rewrite translate_eq by (done || lia). destruct (unmark_correct _ idx Hw ltac:(lia)) as (w & -> & Hu).
  exists w. split; [done|]. by apply filled_updated.
Qed.

(** The machine as process [cur] with address space [a] finds it. *)
Record running (s : vm) (cur : Z) (a : addrspace) : Prop := Running {
  ru_core : cm_ok s;
  ru_base : s.(base) mod 4096 = 0;
  ru_swap : swap_ok s.(vm_swap);
  ru_proc : s.(procs) !! cur = Some (Some a);
  ru_table : pt_ok a.(as_pages) ∧ a.(as_pages).(pt_locked) = false;
  ru_tlb : length s.(tlb) = 64%nat
}.

(** There is a frame and a slot of swap space to be had. *)
Definition has_room (s : vm) : Prop :=
  ¬ no_run s.(coremap_free) (coremap_length s) 1 ∧
  ∃ i, 0 ≤ i < s.(vm_swap).(swap_freelist).(b_nbits) ∧ bit s.(vm_swap).(swap_freelist) i = false.

(** [s'] is [s] after page [p] of [a] has been given frame [idx] and slot [b]. *)
Record pulled (s : vm) (cur : Z) (a : addrspace) (p addr flags idx b : Z) (t : pagetable) (s' : vm) : Prop := Pulled {
  pl_frame : first_run s.(coremap_free) (coremap_length s) idx 1;
  pl_slot : swap_allocate s.(vm_swap) = Ret (0, b, s'.(vm_swap)) ∧ swap_ok s'.(vm_swap);
  pl_table : pt_ok t ∧ t.(pt_locked) = false ∧
    ∀ q, 0 ≤ q → view t q = if q =? p then Some (Entry ((s.(base) + 4096 * idx) / 4096) b (entry_flags flags)) else view a.(as_pages) q;
  pl_procs : s'.(procs) = <[cur := Some (set_pages a t)]> s.(procs);
  pl_core : cm_ok s' ∧ filled s.(coremap_free) idx 1 true s'.(coremap_free) ∧ s'.(coremap_swappable) = s.(coremap_swappable) ∧
    s'.(coremap) = <[Z.to_nat idx := fresh_entry false cur addr 0]> s.(coremap);
  pl_ram : zeroed s idx s'.(ram);
  pl_rest : s'.(base) = s.(base) ∧ s'.(tlb) = s.(tlb)
}.

Lemma pull_correct s cur a addr flags o : running s cur a → has_room s → 0 ≤ addr < 2 ^ 32 → false ∉ o →
  ∃ idx b t s' o', pagetable_pull s cur addr flags o = Ret (s.(base) + 4096 * idx, s', o') ∧ false ∉ o' ∧
    pulled s cur a (page_no addr) addr flags idx b t s'.
Proof.
  intros [Hcm Hbase Hsw Hproc [Ht Hul] _] [Hrun (i & Hi & Hbit)] Haddr Ho. unfold pagetable_pull.
  destruct (allocate_free s false cur 1 addr Hcm ltac:(lia) Hrun) as (idx & s1 & -> & Ha). rewrite ret_bind.
  pose proof (allocated_ok _ _ _ _ _ _ _ Hcm Ha) as Hcm1. pose proof (allocated_length _ _ _ _ _ _ _ Ha) as Hlen.
  destruct Ha as [Hfirst Hf Hw Hcl Hent Hram (Eb & Eh & Es & Ep & El)].
  pose proof Hfirst as (Hidx & Hidx' & Hclear & _).
  rewrite (get_as_correct s1 cur a) by (by rewrite Ep). rewrite ret_bind, Es.
  pose proof (add_correct a.(as_pages) addr (s.(base) + 4096 * idx) flags s.(vm_swap) o Ht Hul Haddr Hsw) as Hadd.
  pose proof (swap_allocate_correct _ Hsw) as Hal.
  destruct (pagetable_add _ _ _ _ _ _) as [[[[[] t] w] o']| | |]; cbn [added] in Hadd;
    [| |by destruct Hadd|by destruct (Ho Hadd)|by destruct Hadd].
  2: { exfalso. destruct Hadd as (_ & _ & _ & [[? _]|[Hno _]]); [done|]. rewrite Hno in Hal.
       destruct Hal as (_ & _ & _ & [[? _]|(_ & _ & Hfull)]); [done|]. rewrite Hfull in Hbit by done. done. }
  rewrite ret_bind. destruct Hadd as (Ht' & Hul' & Hw' & Hin & b & Hb & Hview). set (s2 := put_as _ _ _).
  assert (cm_ok s2) as Hcm2 by (by apply (cm_ok_ext s1 s2); try apply Hcm1).
  destruct (lock_release_later s2 s2 idx Hcm2) as (w' & Hrel & Hfill);
    [change (coremap_length s2) with (coremap_length s1); lia|done|apply Hcm2|apply Hcm2|].
  change (base s2) with s1.(base) in Hrel. rewrite Eb in Hrel. rewrite Hrel, ret_bind. change (coremap_free s2) with s1.(coremap_free) in *.
  assert (w' = s.(coremap_swappable)) as ->.
  { eapply filled_back; [apply Hcm|exact Hw|exact Hfill|]. intros k Hk0 Hk.
    destruct (lookup_lt_is_Some_2 s.(coremap) (Z.to_nat k)) as [ce Hce]; [unfold coremap_length in *; lia|].
    destruct (cm_unused s Hcm _ _ Hce) as [_ H]; rewrite Z2Nat.id in * by lia; [by apply Hclear|done]. }
  exists idx, b, t. eexists _, o'. split; [done|]. split; [by auto|]. constructor; try done.
  - split_and!; [done..|]. intros q Hq. rewrite Hview by done. by rewrite Z.shiftr_div_pow2 by lia.
  - cbn. by rewrite Ep.
  - split_and!; [|done|done|].
    + apply (cm_ok_ext s2); try done; [apply Hcm| |].
      * destruct Hw as (_ & Hn & _). exact (eq_sym Hn).
      * intros k Hk. destruct Hw as (_ & _ & Hwb). change (coremap_swappable s2) with s1.(coremap_swappable). rewrite Hwb by done.
        case_decide; [done|]. done.
    + apply list_eq. intros j. cbn. rewrite Hent. unfold coremap_length in *. case_decide as Hj.
      * replace j with (Z.to_nat idx) by lia. rewrite list_lookup_insert_eq by lia. by replace (Z.of_nat (Z.to_nat idx) - idx) with 0 by lia.
      * rewrite list_lookup_insert_ne; [done|lia].
Qed.

Lemma tlb_match_self hi lo : tlb_match hi (hi, lo) = true.
Proof. unfold tlb_match. by rewrite !Z.eqb_refl, orb_true_r. Qed.

Lemma load_tlb_correct s slot hi lo : (slot < length s.(tlb))%nat →
  ∃ i l, load_tlb s slot hi lo = set_tlb s l ∧ length l = length s.(tlb) ∧ tlb_probe l hi = Some i ∧ l !! i = Some (hi, lo) ∧
    ∀ j, j ≠ i → l !! j = s.(tlb) !! j.
Proof.
  intros Hslot. unfold load_tlb.
  assert (∀ i, (i < length s.(tlb))%nat → (∀ j e, s.(tlb) !! j = Some e → (j < i)%nat → tlb_match hi e = false) →
    tlb_probe (<[i := (hi, lo)]> s.(tlb)) hi = Some i) as Hfind.
  { intros i Hi Hno. unfold tlb_probe. apply fmap_Some. exists (i, (hi, lo)). split; [|done]. apply list_find_Some.
    split_and!; [by apply list_lookup_insert_eq|apply tlb_match_self|]. intros j y Hj Hlt. rewrite list_lookup_insert_ne in Hj by lia.
    by rewrite (Hno j y Hj Hlt). }
  destruct (tlb_probe s.(tlb) hi) as [i|] eqn:Hp; eexists _, _; (split; [done|]); unfold tlb_write.
  - unfold tlb_probe in Hp. apply fmap_Some in Hp as ([i' e] & (Hi & He & Hno)%list_find_Some & ->). cbn [fst].
    pose proof (lookup_lt_Some _ _ _ Hi). split_and!; [apply length_insert| |by apply list_lookup_insert_eq|].
    + apply Hfind; [done|]. intros j f Hj Hlt. by apply not_true_is_false, (Hno j f).
    + intros j Hj. by apply list_lookup_insert_ne.
  - rewrite tlb_probe_None in Hp. split_and!; [apply length_insert| |by apply list_lookup_insert_eq|].
    + apply Hfind; [done|]. intros j f Hj _. by apply (Hp j f).
    + intros j Hj. by apply list_lookup_insert_ne.
Qed.

Lemma put_as_same s cur a : s.(procs) !! cur = Some (Some a) → put_as s cur a = s.
Proof. apply set_procs_same. Qed.

(** A lookup that finds a usable entry, or none, changes nothing. *)
Lemma lookup_page_correct s cur a addr : s.(procs) !! cur = Some (Some a) → pt_ok a.(as_pages) → 0 ≤ addr < 2 ^ 32 →
  (∀ e, view a.(as_pages) (page_no addr) = Some e → e.(pe_flags) ≠ 0) →
  lookup_page s cur addr = Ret (match view a.(as_pages) (page_no addr) with Some _ => Some (ref_of (page_no addr)) | None => None end, s).
Proof.
  intros Hproc Ht Ha Hfl. unfold lookup_page. rewrite (get_as_correct s cur a Hproc), ret_bind.
  pose proof (lookup_correct a.(as_pages) addr Ht Ha) as Hl. cbv zeta in Hl. destruct (view a.(as_pages) (page_no addr)) as [e|].
  - destruct (Z.eqb_spec e.(pe_flags) 0) as [H0|]; [by destruct (Hfl e eq_refl)|]. rewrite Hl, ret_bind, set_pages_same. by rewrite put_as_same.
  - rewrite Hl, ret_bind, set_pages_same. by rewrite put_as_same.
Qed.

(** The address space as [fault_new] leaves it before it pulls the page. *)
Definition stack_grown (a : addrspace) (addr : Z) : addrspace :=
  if negb a.(as_loading) && (addr <? a.(as_stack_base)) && (a.(as_heap_end) <? addr)
  then set_stack_base a (Z.land addr PAGE_SIZE) else a.

Lemma stack_grown_pages a addr : (stack_grown a addr).(as_pages) = a.(as_pages).
Proof. unfold stack_grown. by destruct (_ && _). Qed.

Lemma running_put s cur a a' : running s cur a → a'.(as_pages) = a.(as_pages) → running (put_as s cur a') cur a'.
Proof.
  intros [Hcm Hb Hw Hp Ht Hl] Ha. constructor; try done.
  - apply (cm_ok_ext s); try done; apply Hcm.
  - cbn. apply lookup_insert_eq.
  - by rewrite Ha.
Qed.

(** The physical address in a new entry. *)
Lemma paddr_of_frame s idx b fl : cm_ok s → s.(base) mod 4096 = 0 → 0 ≤ idx < coremap_length s →
  paddr_of (Entry ((s.(base) + 4096 * idx) / 4096) b fl) = s.(base) + 4096 * idx.
Proof.
  intros [Hb _ _ _ _ _] Hmod Hi. unfold paddr_of. cbn [pe_addr]. rewrite Z.shiftl_mul_pow2 by lia. rewrite u32_id; zdiv_lia.
Qed.

Lemma fault_new_correct s cur a addr slot o : running s cur a → has_room s → 0 ≤ addr < 2 ^ 31 →
  a.(as_loading) = true ∨ a.(as_heap_start) ≤ addr → (slot < 64)%nat → false ∉ o →
  let a' := stack_grown a addr in
  ∃ idx b t s1 o' i l, fault_new s cur a addr slot o = Ret (0, set_tlb s1 l, o') ∧
    pulled (put_as s cur a') cur a' (page_no addr) addr 0 idx b t s1 ∧
    length l = 64%nat ∧ tlb_probe l (Z.land addr TLBHI_VPAGE) = Some i ∧
    l !! i = Some (Z.land addr TLBHI_VPAGE, Z.lor (s.(base) + 4096 * idx) TLBLO_VALID) ∧ ∀ j, j ≠ i → l !! j = s.(tlb) !! j.
Proof.
  intros Hrun Hroom Haddr Hheap Hslot Ho a'. unfold fault_new.
  assert (negb a.(as_loading) && (addr <? a.(as_heap_start)) = false) as ->.
  { destruct Hheap as [->|?]; [done|]. rewrite (proj2 (Z.ltb_ge _ _)) by done. apply andb_false_r. }
  fold (stack_grown a addr). change (stack_grown a addr) with a'.
  assert (running (put_as s cur a') cur a') as Hrun' by (apply (running_put s cur a); [done|apply stack_grown_pages]).
  destruct (pull_correct (put_as s cur a') cur a' addr 0 o Hrun' Hroom ltac:(lia) Ho) as (idx & b & t & s1 & o' & -> & _ & Hpl).
  rewrite ret_bind. pose proof Hpl as [(Hi0 & Hi1 & _) _ (Ht & _ & Hview) Hprocs _ _ (Eb & El)].
  assert (s1.(procs) !! cur = Some (Some (set_pages a' t))) as Hp1 by (rewrite Hprocs; apply lookup_insert_eq).
  destruct (indices addr ltac:(lia)) as (_ & _ & Hpage).
  assert (view t (page_no addr) = Some (Entry ((s.(base) + 4096 * idx) / 4096) b (entry_flags 0))) as Hv
    by (rewrite Hview by lia; by rewrite Z.eqb_refl).
  rewrite (lookup_page_correct s1 cur (set_pages a' t) addr Hp1 Ht ltac:(lia)).
  2: { cbn [set_pages as_pages]. rewrite Hv. by intros e [= <-]. }
  change (as_pages (set_pages a' t)) with t. rewrite Hv, ret_bind. cbn [deref]. rewrite ret_bind. unfold entry_of.
  rewrite (get_as_correct s1 cur (set_pages a' t) Hp1), ret_bind. change (as_pages (set_pages a' t)) with t.
  rewrite (get_entry_correct t _ _ Ht Hpage Hv), ret_bind. change (coremap_length (put_as s cur a')) with (coremap_length s) in Hi1.
  rewrite (paddr_of_frame s idx b _ (ru_core _ _ _ Hrun) (ru_base _ _ _ Hrun)) by lia.
  pose proof Hrun as [_ _ _ _ _ Hl64]. change (tlb (put_as s cur a')) with s.(tlb) in El.
  destruct (load_tlb_correct s1 slot (Z.land addr TLBHI_VPAGE) (Z.lor (s.(base) + 4096 * idx) TLBLO_VALID)) as (i & l & -> & Hl & Hpr & Hli & Hoth);
    [by rewrite El, Hl64|].
  exists idx, b, t, s1, o', i, l. rewrite El in *. split_and!; [done|done|congruence|done..].
Qed.


(** The state after a page has been pulled is as sound as before. *)
Lemma pulled_running s cur a p addr flags idx b t s' l : running s cur a → pulled s cur a p addr flags idx b t s' → length l = 64%nat →
  running (set_tlb s' l) cur (set_pages a t).
Proof.
  intros Hrun [_ [_ Hsw] (Ht & Hul & _) Hprocs (Hcm & _) _ (Eb & _)] Hl. constructor; try done.
  - apply (cm_ok_ext s'); try done; apply Hcm.
  - change (base (set_tlb s' l)) with s'.(base). rewrite Eb. apply Hrun.
  - change (procs (set_tlb s' l)) with s'.(procs). rewrite Hprocs. apply lookup_insert_eq.
Qed.

(** A fault on a page with no entry. *)
Lemma vm_fault_unmapped s cur a ft addr slot rands o : running s cur a → has_room s → 0 ≤ addr < 2 ^ 31 → ft < 2 →
  a.(as_loading) = true ∨ a.(as_heap_start) ≤ addr → view a.(as_pages) (page_no addr) = None → (slot < 64)%nat → false ∉ o →
  let a' := stack_grown a addr in
  ∃ idx b t s1 o' i l, vm_fault s cur ft addr slot rands o = Ret (0, set_tlb s1 l, rands, o') ∧
    pulled (put_as s cur a') cur a' (page_no addr) addr 0 idx b t s1 ∧
    running (set_tlb s1 l) cur (set_pages a' t) ∧
    tlb_probe l (Z.land addr TLBHI_VPAGE) = Some i ∧
    l !! i = Some (Z.land addr TLBHI_VPAGE, Z.lor (s.(base) + 4096 * idx) TLBLO_VALID) ∧ ∀ j, j ≠ i → l !! j = s.(tlb) !! j.
Proof.
  intros Hrun Hroom Haddr Hft Hheap Hnone Hslot Ho a'. unfold vm_fault.
  rewrite (proj2 (Z.leb_gt USERSTACK addr)) by (unfold USERSTACK, USERSPACETOP; lia).
  pose proof (ru_proc _ _ _ Hrun) as Hp. rewrite Hp. cbn [deref]. rewrite ret_bind.
  rewrite (lookup_page_correct s cur a addr Hp (proj1 (ru_table _ _ _ Hrun)) ltac:(lia)) by (by rewrite Hnone).
  rewrite Hnone, ret_bind, (get_as_correct s cur a Hp), ret_bind, (proj2 (Z.ltb_lt _ _)) by done.
  destruct (fault_new_correct s cur a addr slot o Hrun Hroom Haddr Hheap Hslot Ho)
    as (idx & b & t & s1 & o' & i & l & -> & Hpl & Hl & Hrest).
  rewrite ret_bind. exists idx, b, t, s1, o', i, l. split; [done|]. split; [exact Hpl|]. split; [|exact Hrest].
  apply (pulled_running (put_as s cur a') cur a' (page_no addr) addr 0 idx b); [|exact Hpl|exact Hl].
  apply (running_put s cur a); [done|apply stack_grown_pages].
Qed.

Lemma lock_acquire_correct s idx : cm_ok s → 0 ≤ idx < coremap_length s → bit s.(coremap_swappable) idx = false →
  ∃ w, coremap_lock_acquire s (s.(base) + 4096 * idx) = Ret (true, set_maps s s.(coremap_free) w) ∧
    filled s.(coremap_swappable) idx 1 true w.
Proof.
  intros Hok Hi Hbit. unfold coremap_lock_acquire. rewrite translate_eq by (done || lia).
  destruct (cm_swappable s Hok) as [Hw Hn]. pose proof (wf_length _ Hw) as [? ?].
  rewrite isset_correct, Hbit, ret_bind by (done || lia).
  pose proof (mark_correct _ idx Hw ltac:(lia)) as Hm. rewrite Hbit in Hm. destruct Hm as (w & -> & Hu).
  exists w. split; [done|]. by apply filled_updated.
Qed.

(** The map of evictable frames after a frame has been locked and unlocked. *)
Lemma relock_same b idx b1 b2 : wf b → bit b idx = false → filled b idx 1 true b1 → filled b1 idx 1 false b2 → b2 = b.
Proof.
  intros Hw Hbit H1 H2. eapply filled_back; [exact Hw|exact H1|exact H2|]. intros k _ Hk. by replace k with idx by lia.
Qed.

(** The page at [addr] has entry [e] and is in frame [idx], which is not locked. *)
Record mapped_at (s : vm) (a : addrspace) (addr : Z) (e : pagetable_entry) (idx : Z) : Prop := MappedAt {
  ma_view : view a.(as_pages) (page_no addr) = Some e;
  ma_usable : e.(pe_flags) ≠ 0;
  ma_frame : 0 ≤ idx < coremap_length s ∧ paddr_of e = s.(base) + 4096 * idx;
  ma_unlocked : bit s.(coremap_swappable) idx = false
}.

(** Up to the lock on the frame, a write to a page that is mapped read-only goes this way. *)
Lemma fault_readonly_start s cur a addr slot rands o e idx : running s cur a → 0 ≤ addr < 2 ^ 31 → mapped_at s a addr e idx →
  vm_fault s cur VM_FAULT_READONLY addr slot rands o =
    ('(e, s) ← fault_readonly s cur a (Some (ref_of (page_no addr))) addr slot; Ret (e, s, rands, o)).
Proof.
  intros Hrun Haddr [Hv Hu _ _]. unfold vm_fault. rewrite (proj2 (Z.leb_gt USERSTACK addr)) by (unfold USERSTACK, USERSPACETOP; lia).
  pose proof (ru_proc _ _ _ Hrun) as Hp. rewrite Hp. cbn [deref]. rewrite ret_bind.
  rewrite (lookup_page_correct s cur a addr Hp (proj1 (ru_table _ _ _ Hrun)) ltac:(lia)) by (rewrite Hv; by intros ? [= <-]).
  by rewrite Hv, ret_bind, (get_as_correct s cur a Hp), ret_bind.
Qed.

Lemma entry_of_correct s cur a addr e : running s cur a → 0 ≤ addr < 2 ^ 32 → view a.(as_pages) (page_no addr) = Some e →
  entry_of s cur (ref_of (page_no addr)) = Ret e.
Proof.
  intros Hrun Haddr Hv. unfold entry_of. destruct (indices addr Haddr) as (_ & _ & Hpage).
  rewrite (get_as_correct s cur a (ru_proc _ _ _ Hrun)), ret_bind. by apply get_entry_correct; [apply Hrun|..].
Qed.

(** A write to a page without permission is refused and changes nothing. *)
Lemma readonly_refused s cur a addr slot rands o e idx : running s cur a → 0 ≤ addr < 2 ^ 31 → mapped_at s a addr e idx →
  a.(as_loading) = false → has_flag e.(pe_flags) PAGETABLE_WRITEABLE = false →
  vm_fault s cur VM_FAULT_READONLY addr slot rands o = Ret (1, s, rands, o).
Proof.
  intros Hrun Haddr Hma Hload Hfl. rewrite (fault_readonly_start s cur a addr slot rands o e idx) by done.
  pose proof Hma as [Hv _ [Hi Hpa] Hbit]. unfold fault_readonly.
  destruct (negb _ && _ && _); [by rewrite ret_bind|]. cbn [deref]. rewrite ret_bind.
  rewrite (entry_of_correct s cur a addr e) by (done || lia). rewrite ret_bind, Hpa.
  pose proof (ru_core _ _ _ Hrun) as Hcm.
  destruct (lock_acquire_correct s idx Hcm Hi Hbit) as (w & -> & Hf). rewrite ret_bind. cbn [negb]. rewrite Hfl, Hload. cbn [negb andb].
  destruct (cm_swappable s Hcm) as [Hw Hn].
  destruct (lock_release_later s (set_maps s (coremap_free s) w) idx Hcm Hi eq_refl (proj1 Hf)) as (w' & -> & Hf');
    [cbn; destruct Hf as (_ & -> & _); exact Hn|].
  rewrite ret_bind. cbn [set_maps coremap_free coremap_swappable] in *.
  rewrite (relock_same _ idx w w' Hw Hbit Hf Hf'). by destruct s.
Qed.

(** [s'] is [s] after the page of [a] at [addr], which is in frame [idx], has been
    marked dirty. *)
Record dirtied (s : vm) (cur : Z) (a : addrspace) (addr : Z) (e : pagetable_entry) (idx : Z) (t : pagetable) (s' : vm) : Prop := Dirtied {
  di_table : pt_ok t ∧ t.(pt_locked) = false ∧ ∀ q, 0 ≤ q → view t q =
    if q =? page_no addr then Some (set_flags e (Z.lor e.(pe_flags) PAGETABLE_DIRTY)) else view a.(as_pages) q;
  di_procs : s'.(procs) = <[cur := Some (set_pages a t)]> s.(procs);
  di_core : ∃ ce, s.(coremap) !! Z.to_nat idx = Some ce ∧ s'.(coremap) =
    <[Z.to_nat idx := Centry (u8 (Z.lor ce.(ce_flags) COREMAP_DIRTY)) ce.(ce_pid) ce.(ce_vaddr)]> s.(coremap);
  di_tlb : ∃ i, tlb_probe s'.(tlb) (Z.land addr TLBHI_VPAGE) = Some i ∧
    s'.(tlb) !! i = Some (Z.land addr TLBHI_VPAGE, Z.lor (s.(base) + 4096 * idx) (Z.lor TLBLO_VALID TLBLO_DIRTY)) ∧
    ∀ j, j ≠ i → s'.(tlb) !! j = s.(tlb) !! j;
  di_rest : s'.(base) = s.(base) ∧ s'.(coremap_free) = s.(coremap_free) ∧ s'.(coremap_swappable) = s.(coremap_swappable) ∧
    s'.(ram) = s.(ram) ∧ s'.(vm_swap) = s.(vm_swap)
}.

Lemma change_entry_correct s cur a p e f : s.(procs) !! cur = Some (Some a) → pt_ok a.(as_pages) → 0 ≤ p < 2 ^ 20 →
  view a.(as_pages) p = Some e →
  ∃ t, change_entry s cur (ref_of p) f = Ret (put_as s cur (set_pages a t)) ∧
    pt_ok t ∧ t.(pt_locked) = a.(as_pages).(pt_locked) ∧ ∀ q, 0 ≤ q → view t q = if q =? p then Some (f e) else view a.(as_pages) q.
Proof.
  intros Hp Ht Hpage Hv. unfold change_entry. rewrite (get_as_correct s cur a Hp), ret_bind.
  destruct (update_entry_correct s cur a p e f Ht Hpage Hv) as (t & -> & ?). by exists t.
Qed.

Lemma mark_dirty_later s s1 idx : cm_ok s → 0 ≤ idx < coremap_length s → s1.(base) = s.(base) → s1.(coremap) = s.(coremap) →
  ∃ ce, s.(coremap) !! Z.to_nat idx = Some ce ∧ coremap_mark_page_dirty s1 (s.(base) + 4096 * idx) = Ret (set_coremap s1
    (<[Z.to_nat idx := Centry (u8 (Z.lor ce.(ce_flags) COREMAP_DIRTY)) ce.(ce_pid) ce.(ce_vaddr)]> s.(coremap))).
Proof.
  intros Hok Hi Eb Ec. unfold coremap_mark_page_dirty, change_flags.
  replace (coremap_translate s1 (s.(base) + 4096 * idx)) with (coremap_translate s (s.(base) + 4096 * idx))
    by (unfold coremap_translate; by rewrite Eb).
  rewrite translate_eq by (done || lia). unfold coremap_length in Hi.
  destruct (lookup_lt_is_Some_2 s.(coremap) (Z.to_nat idx)) as [ce Hce]; [lia|]. exists ce. split; [done|].
  rewrite Ec, (rd_lookup _ idx ce) by (done || lia). rewrite ret_bind, wr_in_range by lia. done.
Qed.

(** A write to a page with permission marks it dirty, in the page table, in the core
    map and in the TLB. *)
Lemma readonly_dirties s cur a addr slot rands o e idx : running s cur a → 0 ≤ addr < 2 ^ 31 → mapped_at s a addr e idx →
  a.(as_loading) = true ∨ a.(as_stack_base) ≤ addr ∨ addr ≤ a.(as_heap_end) →
  a.(as_loading) = true ∨ has_flag e.(pe_flags) PAGETABLE_WRITEABLE = true → (slot < 64)%nat →
  ∃ t s', vm_fault s cur VM_FAULT_READONLY addr slot rands o = Ret (0, s', rands, o) ∧ dirtied s cur a addr e idx t s'.
Proof.
  intros Hrun Haddr Hma Hin Hfl Hslot. rewrite (fault_readonly_start s cur a addr slot rands o e idx) by done.
  pose proof Hma as [Hv _ [Hi Hpa] Hbit]. unfold fault_readonly.
  assert (negb a.(as_loading) && (addr <? a.(as_stack_base)) && (a.(as_heap_end) <? addr) = false) as ->.
  { destruct (as_loading a), (Z.ltb_spec addr (as_stack_base a)), (Z.ltb_spec (as_heap_end a) addr); try done. destruct Hin as [?|[?|?]]; done || lia. }
  cbn [deref]. rewrite ret_bind.
  rewrite (entry_of_correct s cur a addr e) by (done || lia). rewrite ret_bind, Hpa.
  pose proof (ru_core _ _ _ Hrun) as Hcm. destruct (cm_swappable s Hcm) as [Hw Hn].
  destruct (lock_acquire_correct s idx Hcm Hi Hbit) as (w & -> & Hf). rewrite ret_bind. cbn [negb].
  replace (negb (has_flag e.(pe_flags) PAGETABLE_WRITEABLE) && negb a.(as_loading)) with false
    by (destruct Hfl as [->| ->]; [by rewrite andb_false_r|done]).
  set (s1 := set_maps s (coremap_free s) w). destruct (indices addr ltac:(lia)) as (_ & _ & Hpage).
  destruct (change_entry_correct s1 cur a (page_no addr) e (λ e, set_flags e (Z.lor e.(pe_flags) PAGETABLE_DIRTY)) (ru_proc _ _ _ Hrun)
    (proj1 (ru_table _ _ _ Hrun)) Hpage Hv) as (t & -> & Ht & Hul & Hview). rewrite ret_bind.
  destruct (mark_dirty_later s (put_as s1 cur (set_pages a t)) idx Hcm Hi eq_refl eq_refl) as (ce & Hce & ->). rewrite ret_bind.
  set (s2 := set_coremap _ _). set (lo := Z.lor (s.(base) + 4096 * idx) (Z.lor TLBLO_VALID TLBLO_DIRTY)).
  destruct (load_tlb_correct s2 slot (Z.land addr TLBHI_VPAGE) lo) as (i & l & -> & _ & Hpr & Hli & Hoth);
    [change (tlb s2) with s.(tlb); by rewrite (ru_tlb _ _ _ Hrun)|].
  destruct (lock_release_later s (set_tlb s2 l) idx Hcm Hi eq_refl (proj1 Hf)) as (w' & -> & Hf');
    [cbn; destruct Hf as (_ & -> & _); exact Hn|].
  rewrite !ret_bind. exists t. eexists. split; [done|]. constructor; try done.
  - split_and!; [done| |done]. rewrite Hul. apply Hrun.
  - by exists ce.
  - by exists i.
  - split_and!; try done. cbn. by rewrite (relock_same _ idx w w' Hw Hbit Hf Hf').
Qed.

(** ** Defining a region *)

(** How many of the first [len] bits are clear. *)
Definition n_clear (b : bitmap) (len : Z) : nat := length (filter (λ i, bit b i = false) (seqZ 0 len)).

Lemma n_clear_some b len : (0 < n_clear b len)%nat → ∃ i, 0 ≤ i < len ∧ bit b i = false.
Proof.
  unfold n_clear. destruct (filter _ _) as [|i l] eqn:Hf; cbn; [lia|]. intros _. exists i.
  assert (i ∈ filter (λ i, bit b i = false) (seqZ 0 len)) as Hin by (rewrite Hf; left).
  apply list_elem_of_filter in Hin as [? Hin]. apply elem_of_seqZ in Hin. split; [lia|done].
Qed.

Lemma n_clear_fill b len i b' : filled b i 1 true b' → 0 ≤ i < len → bit b i = false → n_clear b len = S (n_clear b' len).
Proof.
  intros (_ & _ & Hb) Hi Hbit. unfold n_clear.
  replace (seqZ 0 len) with (seqZ 0 i ++ i :: seqZ (i + 1) (len - i - 1)).
  2: { replace len with (i + (1 + (len - i - 1))) at 2 by lia. rewrite seqZ_app, (seqZ_cons (0 + i)) by lia.
       by replace (Z.succ (0 + i)) with (i + 1) by lia; replace (Z.pred (1 + (len - i - 1))) with (len - i - 1) by lia. }
  rewrite !filter_app, !filter_cons, !length_app. rewrite decide_True by done. rewrite decide_False.
  2: { rewrite Hb by lia. rewrite decide_True by lia. done. }
  assert (∀ l : list Z, (∀ k, k ∈ l → 0 ≤ k ∧ k ≠ i) → filter (λ i, bit b i = false) l = filter (λ i, bit b' i = false) l) as He.
  { intros l Hl. induction l as [|k l IH]; [done|]. rewrite !filter_cons, IH by (intros x Hx; apply Hl; by right).
    destruct (Hl k) as [? ?]; [by left|]. by rewrite Hb, (decide_False (P := i ≤ k < i + 1)) by lia. }
  rewrite <-!He; [cbn; lia|intros k Hk%elem_of_seqZ; lia..].
Qed.

(** At least [n] frames and [n] slots of swap space are to be had. *)
Definition room (s : vm) (n : Z) : Prop :=
  n ≤ Z.of_nat (n_clear s.(coremap_free) (coremap_length s)) ∧
  n ≤ Z.of_nat (n_clear s.(vm_swap).(swap_freelist) s.(vm_swap).(swap_freelist).(b_nbits)).

Lemma room_has_room s n : room s n → 0 < n → has_room s.
Proof.
  intros [Hf Hs] Hn. split; [|apply n_clear_some; lia]. destruct (n_clear_some s.(coremap_free) (coremap_length s)) as (i & Hi & Hb); [lia|].
  intros Hno. apply (Hno i); [lia..|]. intros k Hk. by replace k with i by lia.
Qed.

(** [s'] is [s] after page [p] of [a] has been made with the permissions [flags]. *)
Record page_made (s : vm) (cur : Z) (a : addrspace) (p flags idx b : Z) (t : pagetable) (s' : vm) : Prop := PageMade {
  pm_running : running s' cur (set_pages a t);
  pm_frame : 0 ≤ idx < coremap_length s ∧ bit s.(coremap_free) idx = false ∧ filled s.(coremap_free) idx 1 true s'.(coremap_free);
  pm_slot : updated s.(vm_swap).(swap_freelist) b true s'.(vm_swap).(swap_freelist) ∧ bit s.(vm_swap).(swap_freelist) b = false ∧
    0 ≤ b < s.(vm_swap).(swap_freelist).(b_nbits);
  pm_view q : 0 ≤ q → view t q = if q =? p then Some (Entry ((s.(base) + 4096 * idx) / 4096) b (flags + 3)) else view a.(as_pages) q;
  pm_ram : zeroed s idx s'.(ram);
  pm_rest : s'.(base) = s.(base) ∧ coremap_length s' = coremap_length s ∧ s'.(tlb) = s.(tlb)
}.

(** The flags of a region leave the low half of the byte alone. *)
Lemma region_flags_ok flags : 0 ≤ flags < 256 → flags mod 16 = 0 → entry_flags flags = flags + 3 ∧ u8 ((flags + 3) mod 16 + flags) = flags + 3.
Proof.
  intros Hr Hm. split.
  - unfold entry_flags, PAGETABLE_VALID, PAGETABLE_INMEM.
    assert (∀ n, (n < 16)%nat → u8 (Z.lor (Z.lor (16 * Z.of_nat n) 1) 2) = 16 * Z.of_nat n + 3) as H.
    { intros n Hn. do 16 (destruct n as [|n]; [done|]). lia. }
    specialize (H (Z.to_nat (flags / 16)) ltac:(zdiv_lia)). replace (16 * Z.of_nat (Z.to_nat (flags / 16))) with flags in H by zdiv_lia. done.
  - replace ((flags + 3) mod 16) with 3 by zdiv_lia. rewrite u8_id; zdiv_lia.
Qed.

(** One turn of the loop makes one page. *)
Lemma region_turn s cur a p flags o fuel : running s cur a → has_room s → 0 < s.(base) → 0 ≤ p < 2 ^ 19 →
  view a.(as_pages) p = None → 0 ≤ flags < 256 → flags mod 16 = 0 → false ∉ o → (2 ≤ fuel)%nat →
  ∃ idx b t s1 s' o', reside fuel s cur (4096 * p) flags o = Ret (0, ref_of p, s1, o') ∧ false ∉ o' ∧
    change_entry s1 cur (ref_of p) (λ e, set_flags e (e.(pe_flags) mod 16 + flags)) = Ret s' ∧ page_made s cur a p flags idx b t s'.
Proof.
  intros Hrun Hroom Hbase Hp Hnone Hfl Hfl16 Ho Hfuel. destruct fuel as [|[|fuel]]; [lia..|]. cbn [reside].
  assert (page_no (4096 * p) = p) as Hpn by (unfold page_no; zdiv_lia).
  rewrite (lookup_page_correct s cur a (4096 * p) (ru_proc _ _ _ Hrun) (proj1 (ru_table _ _ _ Hrun)) ltac:(lia)), Hpn, Hnone, ret_bind
    by (by rewrite Hpn, Hnone).
  destruct (pull_correct s cur a (4096 * p) flags o Hrun Hroom ltac:(lia) Ho) as (idx & b & t & s1 & o' & -> & Ho' & Hpl).
  rewrite ret_bind, Hpn in *. pose proof (pulled_running s cur a p _ flags idx b t s1 s1.(tlb) Hrun Hpl) as Hrun1.
  destruct Hpl as [(Hi0 & Hi1 & Hcl & _) [Hsl Hsw] (Ht & Hul & Hview) Hprocs (Hcm & Hfr & Hwp & Hce) Hram (Eb & El)].
  rewrite El in Hrun1. specialize (Hrun1 (ru_tlb _ _ _ Hrun)). rewrite <-El in Hrun1.
  rewrite (proj2 (Z.eqb_neq _ 0)) by lia. destruct (region_flags_ok flags Hfl Hfl16) as [He He'].
  pose proof (Hview p ltac:(lia)) as Hvp. rewrite Z.eqb_refl, He in Hvp.
  assert (s1.(procs) !! cur = Some (Some (set_pages a t))) as Hp1 by (rewrite Hprocs; apply lookup_insert_eq).
  rewrite (lookup_page_correct s1 cur (set_pages a t) (4096 * p) Hp1 Ht ltac:(lia)), Hpn.
  2: { rewrite Hpn. change (as_pages (set_pages a t)) with t. rewrite Hvp. intros e [= <-]. cbn. lia. }
  change (as_pages (set_pages a t)) with t. rewrite Hvp, ret_bind.
  destruct (change_entry_correct s1 cur (set_pages a t) p _ (λ e, set_flags e (e.(pe_flags) mod 16 + flags)) Hp1 Ht ltac:(lia) Hvp)
    as (t' & Hch & Ht' & Hul' & Hview').
  exists idx, b, t', s1. eexists _, o'. split_and!; [done|done|exact Hch|].
  pose proof (swap_allocate_correct _ (ru_swap _ _ _ Hrun)) as Hal. rewrite Hsl in Hal. destruct Hal as (_ & _ & _ & [(_ & Hbr & Hbit & Hup)|[? _]]); [|done].
  constructor; try done.
  - destruct Hrun1 as [H1 H2 H3 _ _ H6]. constructor; try done.
    + apply (cm_ok_ext s1); try done; apply Hcm.
    + apply lookup_insert_eq.
    + split; [done|]. exact (eq_trans Hul' Hul).
  - split_and!; [lia..|by apply Hcl; lia|done].
  - intros q Hq. change (as_pages (set_pages (set_pages a t) t')) with t'. rewrite Hview' by done.
    destruct (Z.eqb_spec q p) as [->|Hne].
    + unfold set_flags. cbn [pe_flags pe_addr pe_swap]. by rewrite He'.
    + change (as_pages (set_pages a t)) with t. rewrite Hview by done. by rewrite (proj2 (Z.eqb_neq _ _)).
  - split_and!; [done| |done]. unfold coremap_length. change (coremap (put_as s1 cur (set_pages (set_pages a t) t'))) with s1.(coremap).
    by rewrite Hce, length_insert.
Qed.

(** [s'] is [s] after the [n] pages of [a] from [p] on have been made: page [q] is in
    frame [f q]. *)
Record backed (s : vm) (cur : Z) (a : addrspace) (p n flags : Z) (t : pagetable) (f : Z → Z) (s' : vm) : Prop := Backed {
  bk_running : running s' cur (set_pages a t);
  bk_frames q : p ≤ q < p + n →
    0 ≤ f q < coremap_length s ∧ bit s.(coremap_free) (f q) = false ∧ bit s'.(coremap_free) (f q) = true;
  bk_distinct q q' : p ≤ q < p + n → p ≤ q' < p + n → f q = f q' → q = q';
  bk_pages q : p ≤ q < p + n → ∃ b, view t q = Some (Entry ((s.(base) + 4096 * f q) / 4096) b (flags + 3));
  bk_others q : 0 ≤ q → ¬ (p ≤ q < p + n) → view t q = view a.(as_pages) q;
  bk_zero q k : p ≤ q < p + n → frame_addr s (f q) ≤ k < frame_addr s (f q) + 4096 → s'.(ram) !! k = Some 0;
  bk_kept k : (∀ q, p ≤ q < p + n → ¬ (frame_addr s (f q) ≤ k < frame_addr s (f q) + 4096)) → s'.(ram) !! k = s.(ram) !! k;
  bk_used i : 0 ≤ i → bit s.(coremap_free) i = true → bit s'.(coremap_free) i = true
}.

Lemma page_made_room s cur a p flags idx b t s' n : page_made s cur a p flags idx b t s' → room s n → room s' (n - 1).
Proof.
  intros [_ (Hi & Hbit & Hf) (Hu & Hbit' & Hb) _ _ (_ & Hlen & _)] [Hr1 Hr2]. apply filled_updated in Hu as Hu'. destruct Hu as (_ & Hn & _).
  unfold room. rewrite Hlen, Hn. pose proof (n_clear_fill _ _ _ _ Hf Hi Hbit). pose proof (n_clear_fill _ _ _ _ Hu' Hb Hbit'). lia.
Qed.

Lemma backed_none s cur a p flags : running s cur a → backed s cur a p 0 flags a.(as_pages) (λ q, q) s.
Proof. intros Hrun. constructor; try (intros; lia); try done. by rewrite set_pages_same. Qed.

Lemma backed_cons s cur a p n flags idx b t s1 t' f s' : 0 ≤ n → 0 ≤ p → page_made s cur a p flags idx b t s1 →
  backed s1 cur (set_pages a t) (p + 1) n flags t' f s' →
  backed s cur a p (n + 1) flags t' (λ q, if q =? p then idx else f q) s'.
Proof.
  intros Hn Hp [_ (Hi & Hbit & Hfill) _ Hview Hram (Eb & Elen & _)] [Hrun Hfr Hdist Hpages Hoth Hzero Hkept Hused].
  destruct Hfill as (_ & _ & Hfill). unfold frame_addr in Hzero, Hkept. rewrite Elen in Hfr. rewrite Eb in Hpages, Hzero, Hkept.
  assert (∀ q, p + 1 ≤ q < p + 1 + n → f q ≠ idx ∧ bit s.(coremap_free) (f q) = false) as Hne.
  { intros q Hq. destruct (Hfr q Hq) as (Hr & Hb1 & _). rewrite Hfill in Hb1 by lia. case_decide; [done|]. split; [lia|done]. }
  assert (bit s'.(coremap_free) idx = true) as Hidx by (apply Hused; [lia|]; rewrite Hfill, decide_True by lia; done).
  constructor.
  - done.
  - intros q Hq. case_cmp; [done|]. destruct (Hfr q ltac:(lia)) as (? & _ & ?). by destruct (Hne q ltac:(lia)).
  - intros q q' Hq Hq'. repeat case_cmp; intros He; try lia.
    + by destruct (Hne q' ltac:(lia)).
    + by destruct (Hne q ltac:(lia)).
    + apply Hdist; [lia..|done].
  - intros q Hq. case_cmp; [subst q|apply Hpages; lia]. exists b. rewrite Hoth by lia. cbn. rewrite Hview by lia. by rewrite Z.eqb_refl.
  - intros q Hq Hout. rewrite Hoth by lia. cbn. rewrite Hview by lia. by rewrite (proj2 (Z.eqb_neq _ _)) by lia.
  - intros q k Hq. case_cmp; [|apply Hzero; lia]. intros Hk. rewrite Hkept.
    + rewrite Hram. by rewrite decide_True.
    + intros q' Hq'. destruct (Hne q' Hq'). unfold frame_addr in Hk. lia.
  - intros k Hk. rewrite Hkept.
    + rewrite Hram. rewrite decide_False; [done|]. specialize (Hk p ltac:(lia)). by rewrite Z.eqb_refl in Hk.
    + intros q Hq. specialize (Hk q ltac:(lia)). by rewrite (proj2 (Z.eqb_neq _ _)) in Hk by lia.
  - intros i H0 Hbi. apply Hused; [done|]. rewrite Hfill by done. by case_decide.
Qed.

Lemma region_loop_correct n : ∀ fuel s cur a p stop flags o, running s cur a → room s (Z.of_nat n) → 0 < s.(base) →
  0 ≤ p → p + Z.of_nat n ≤ 2 ^ 19 → 4096 * (p + Z.of_nat n) - 4096 < stop ≤ 4096 * (p + Z.of_nat n) → (n < fuel)%nat →
  (∀ q, p ≤ q < p + Z.of_nat n → view a.(as_pages) q = None) → 0 ≤ flags < 256 → flags mod 16 = 0 → false ∉ o →
  ∃ t f s' o', region_loop fuel s cur (4096 * p) stop flags o = Ret (0, s', o') ∧ backed s cur a p (Z.of_nat n) flags t f s'.
Proof.
  induction n as [|n IH]; intros [|fuel] s cur a p stop flags o Hrun Hroom Hbase Hp Hp' Hstop Hfuel Hnone Hfl Hfl16 Ho; try lia; cbn [region_loop].
  - rewrite (proj2 (Z.ltb_ge _ _)) by lia. eexists _, _, _, _. split; [done|]. by apply backed_none.
  - rewrite (proj2 (Z.ltb_lt _ _)) by lia. assert (has_room s) as Hhas by (by apply (room_has_room s (Z.of_nat (S n))); [|lia]).
    destruct (region_turn s cur a p flags o (3 + length s.(coremap)) Hrun Hhas Hbase ltac:(lia) (Hnone p ltac:(lia)) Hfl Hfl16 Ho ltac:(lia))
      as (idx & b & t & s1 & s2 & o1 & -> & Ho1 & Hch & Hpm).
    rewrite ret_bind. cbn [Z.eqb negb]. rewrite Hch, ret_bind.
    assert (u32 (4096 * p + PAGE_SIZE) = 4096 * (p + 1)) as -> by (unfold PAGE_SIZE; rewrite u32_id; lia).
    pose proof (page_made_room _ _ _ _ _ _ _ _ _ _ Hpm Hroom) as Hroom'. replace (Z.of_nat (S n) - 1) with (Z.of_nat n) in Hroom' by lia.
    destruct (IH fuel s2 cur (set_pages a t) (p + 1) stop flags o1) as (t' & f & s' & o' & -> & Hbk); try done || lia.
    + apply Hpm.
    + destruct (pm_rest _ _ _ _ _ _ _ _ _ Hpm) as (-> & _). done.
    + intros q Hq. cbn. rewrite (pm_view _ _ _ _ _ _ _ _ _ Hpm) by lia. rewrite (proj2 (Z.eqb_neq _ _)) by lia. apply Hnone. lia.
    + eexists _, _, _, _. split; [done|]. replace (Z.of_nat (S n)) with (Z.of_nat n + 1) by lia. eapply backed_cons; [lia|done|done|done].
Qed.

Lemma heap_above_correct x : 0 ≤ x < 2 ^ 32 - 4096 → heap_above x = 4096 * ((x + 4095) / 4096).
Proof.
  intros Hx. unfold heap_above, PAGE_SIZE. change (4096 - 1) with (Z.ones 12). rewrite Z.land_ones by lia.
  destruct (Z.eqb_spec (x mod 2 ^ 12) 0); cbn [negb]; [zdiv_lia|]. rewrite u32_id by lia.
  rewrite <-Z.ldiff_land, Z.ldiff_ones_r, Z.shiftl_mul_pow2, Z.shiftr_div_pow2 by lia. zdiv_lia.
Qed.

Lemma region_flags_range r w x : 0 ≤ region_flags r w x < 256 ∧ region_flags r w x mod 16 = 0.
Proof. by destruct r, w, x. Qed.

Lemma define_region_correct s cur a vaddr memsize r w x o : running s cur a → 0 < s.(base) → 0 ≤ vaddr → 0 ≤ memsize →
  let p := page_no vaddr in
  let n := (memsize + 4095) / 4096 in
  p + n ≤ 2 ^ 19 → room s n → (∀ q, p ≤ q < p + n → view a.(as_pages) q = None) → false ∉ o →
  ∃ t f s' o', as_define_region s cur vaddr memsize r w x o =
      Ret (0, put_as s' cur (set_heap (set_pages a t) (4096 * (p + n)) (4096 * (p + n))), o') ∧
    backed s cur a p n (region_flags r w x) t f s'.
Proof.
  intros Hrun Hbase Hv Hm p n Hpn Hroom Hnone Ho. unfold as_define_region.
  assert (0 ≤ n ∧ 4096 * n - 4096 < memsize ≤ 4096 * n) as [Hn0 Hmn] by (unfold n; zdiv_lia). assert (0 ≤ p) as Hp0 by (unfold p, page_no; zdiv_lia).
  assert (Z.shiftl (Z.shiftr vaddr 12) 12 = 4096 * p) as -> by (rewrite Z.shiftl_mul_pow2, Z.shiftr_div_pow2 by lia; unfold p, page_no; change (2 ^ 12) with 4096; lia).
  rewrite u32_id by lia. destruct (region_flags_range r w x) as [Hfl Hfl16].
  assert (region_fuel (4096 * p) (4096 * p + memsize) = S (Z.to_nat n)) as ->.
  { unfold region_fuel, PAGE_SIZE. do 2 f_equal. replace (4096 * p + memsize - 4096 * p + 4096 - 1) with (memsize + 4095) by lia. done. }
  destruct (region_loop_correct (Z.to_nat n) (S (Z.to_nat n)) s cur a p (4096 * p + memsize) (region_flags r w x) o)
    as (t & f & s' & o' & -> & Hbk); rewrite ?Z2Nat.id by lia; try done || lia.
  rewrite Z2Nat.id in Hbk by lia. rewrite ret_bind. cbn [Z.eqb negb].
  rewrite (get_as_correct s' cur (set_pages a t)) by apply Hbk. rewrite ret_bind, heap_above_correct by lia.
  replace ((4096 * p + memsize + 4095) / 4096) with (p + n) by (unfold n; zdiv_lia). by eexists _, _, _, _.
Qed.

(** ** Paging in *)

(** The entry of a page that has been brought in to the frame at [paddr]. *)
Definition brought_in (paddr : Z) (e : pagetable_entry) : pagetable_entry :=
  Entry (Z.shiftr paddr 12) e.(pe_swap) (u8 (clear_flag (Z.lor e.(pe_flags) PAGETABLE_INMEM) PAGETABLE_DIRTY)).

Lemma brought_in_inmem paddr e : has_flag (brought_in paddr e).(pe_flags) PAGETABLE_INMEM = true.
Proof.
  cbn [brought_in pe_flags]. change PAGETABLE_INMEM with (2 ^ 1). rewrite (dirty_cleared _ 1), has_flag_bit by lia.
  by rewrite Z.lor_spec, orb_true_r.
Qed.

(** The entry of a page that has been evicted. *)
Definition put_out (e : pagetable_entry) : pagetable_entry :=
  set_flags e (clear_flag (clear_flag e.(pe_flags) PAGETABLE_DIRTY) PAGETABLE_INMEM).

(** The pages of process [pid] after an eviction. *)
Lemma evicted_view s idx ce av pv ev s1 pid a : evicted s idx ce av pv ev s1 → s.(procs) !! ce.(ce_pid) = Some (Some av) →
  s.(procs) !! pid = Some (Some a) → ∃ t, s1.(procs) !! pid = Some (Some (set_pages a t)) ∧ (pt_ok a.(as_pages) → pt_ok t) ∧
    ∀ q, 0 ≤ q → view t q = if decide ((pid, q) = (ce.(ce_pid), pv)) then Some (put_out ev) else view a.(as_pages) q.
Proof.
  intros [(tv & Hprocs & Htv & _ & Hview) _ _ _ _ _ _] Hpv Hpa. rewrite Hprocs.
  destruct (decide (ce.(ce_pid) = pid)) as [Heq|Hneq].
  - rewrite Heq in *. rewrite lookup_insert_eq. assert (av = a) as -> by congruence. exists tv. split_and!; [done|done|].
    intros q Hq. rewrite Hview by done. by destruct (Z.eqb_spec q pv), (decide _); try congruence.
  - rewrite lookup_insert_ne by done. exists a.(as_pages). rewrite set_pages_same. split_and!; [done|done|].
    intros q _. rewrite decide_False by congruence. done.
Qed.

(** The victim: the page in the frame that [random] chooses. *)
Record victim (s : vm) (r : Z) (ce : coremap_entry) (a : addrspace) (p : Z) (e : pagetable_entry) : Prop := Victim {
  vi_full i : 0 ≤ i < coremap_length s → bit s.(coremap_free) i = true;
  vi_random : 0 ≤ r;
  vi_unlocked : bit s.(coremap_swappable) (r mod coremap_length s) = false;
  vi_resident : resident s (r mod coremap_length s) ce a p e;
  vi_alive : a.(as_destroying) = false ∧ has_flag e.(pe_flags) PAGETABLE_REQUEST_FREE = false
}.

(** [s'] is [s] after page [pv] with entry [ev] has been evicted from frame [idx] and page [p] of process [cur]
    with entry [e] has been brought into it, for a fault at [addr]. *)
Record paged_in (s : vm) (cur : Z) (a : addrspace) (p : Z) (e : pagetable_entry) (addr idx : Z)
    (ce : coremap_entry) (pv : Z) (ev : pagetable_entry) (s' : vm) : Prop := PagedIn {
  pi_bytes : frame s' idx = swapped s.(vm_swap) e.(pe_swap);
  pi_kept k : ¬ (frame_addr s idx ≤ k < frame_addr s idx + 4096) → s'.(ram) !! k = s.(ram) !! k;
  pi_pages pid x : s.(procs) !! pid = Some (Some x) → ∃ t, s'.(procs) !! pid = Some (Some (set_pages x t)) ∧
    (pt_ok x.(as_pages) → pt_ok t) ∧ ∀ q, 0 ≤ q → view t q =
      if decide ((pid, q) = (cur, p)) then Some (brought_in (s.(base) + 4096 * idx) e)
      else if decide ((pid, q) = (ce.(ce_pid), pv)) then Some (put_out ev) else view x.(as_pages) q;
  pi_victim : swapped s'.(vm_swap) ev.(pe_swap) =
    if has_flag ce.(ce_flags) COREMAP_DIRTY then frame s idx else swapped s.(vm_swap) ev.(pe_swap);
  pi_slots b : 0 ≤ b → b ≠ ev.(pe_swap) → swapped s'.(vm_swap) b = swapped s.(vm_swap) b;
  pi_tlb : length s'.(tlb) = length s.(tlb) ∧
    if Z.land ce.(ce_vaddr) TLBHI_PID =? 0 then untranslated s'.(tlb) ce.(ce_vaddr) else s'.(tlb) = s.(tlb);
  pi_core : s'.(coremap) = <[Z.to_nat idx := Centry 12 (u16 a.(as_pid)) addr]> s.(coremap);
  pi_rest : s'.(base) = s.(base)
}.

Lemma swap_in_correct s cur a p e addr r rs ce av pv ev : vm_ok s → running s cur a → 0 ≤ p < 2 ^ 20 →
  view a.(as_pages) p = Some e → 0 ≤ e.(pe_swap) < s.(vm_swap).(swap_freelist).(b_nbits) →
  victim s r ce av pv ev → ce.(ce_pid) ≠ cur ∨ pv ≠ p → e.(pe_swap) ≠ ev.(pe_swap) →
  ∃ s', pagetable_swap_in s cur (ref_of p) addr a.(as_pid) (r :: rs) = Ret (s', rs) ∧
    paged_in s cur a p e addr (r mod coremap_length s) ce pv ev s'.
Proof.
  intros Hvm Hrun Hp Hv Hslot [Hfull Hr Hbit Hre [Hd Hrf]] Hne Hslots. set (idx := r mod coremap_length s) in *.
  pose proof Hrun as [Hcm Hmod _ Hproc [Ht _] _]. unfold pagetable_swap_in, entry_of.
  rewrite (get_as_correct s cur a Hproc), ret_bind, (get_entry_correct _ _ _ Ht Hp Hv), ret_bind.
  destruct (swap_page_correct s r rs e.(pe_swap) addr a.(as_pid) ce av pv ev Hvm Hfull Hr Hbit Hre Hd Hrf Hslot Hslots)
    as (s1 & s2 & -> & Hev & Hbytes & Hkept & Hs2). rewrite ret_bind. fold idx in Hbytes, Hkept, Hs2, Hev |- *.
  pose proof (λ pid x, evicted_view s idx ce av pv ev s1 pid x Hev (re_proc _ _ _ _ _ _ Hre)) as Hview.
  destruct (Hview cur a Hproc) as (t1 & Hp1 & Ht1 & Hv1). specialize (Ht1 Ht).
  destruct Hev as [_ _ Hsv Hso Htl _ _].
  assert (s2.(procs) = s1.(procs) ∧ s2.(tlb) = s1.(tlb) ∧ s2.(base) = s.(base) ∧ s2.(coremap_swappable) = s.(coremap_swappable) ∧
    s2.(vm_swap) = s1.(vm_swap) ∧ s2.(coremap) = <[Z.to_nat idx := Centry 12 (u16 a.(as_pid)) addr]> s.(coremap)) as (Ep & El & Eb & Es & Ew & Ec).
  { by rewrite Hs2. }
  destruct (change_entry_correct s2 cur (set_pages a t1) p e (brought_in (s.(base) + 4096 * idx))) as (t & Hch & Ht' & _ & Hv');
    [by rewrite Ep|done..|rewrite Hv1, decide_False by (lia || (destruct Hne; congruence)); done|].
  unfold brought_in at 1 in Hch. rewrite Hch, ret_bind. destruct (cm_swappable s Hcm) as [Hw Hn].
  destruct (lock_release_later s (put_as s2 cur (set_pages (set_pages a t1) t)) idx Hcm) as (w & -> & _);
    [apply Hre|exact Eb|change (wf s2.(coremap_swappable)); by rewrite Es|change (b_nbits s2.(coremap_swappable) = coremap_length s); by rewrite Es|].
  rewrite ret_bind. eexists. split; [done|].
  constructor; cbn [set_maps put_as set_procs procs vm_swap tlb coremap base ram]; rewrite ?Ep, ?El, ?Ew; try done.
  intros pid x Hx. destruct (decide (pid = cur)) as [->|Hpid].
  - assert (x = a) as -> by congruence. exists t. split; [by rewrite lookup_insert_eq|]. split; [done|]. intros q Hq. rewrite Hv' by done.
    cbn [set_pages as_pages]. destruct (Z.eqb_spec q p) as [->|]; [by rewrite decide_True|]. rewrite (decide_False (P := _ = (cur, p))) by congruence. by apply Hv1.
  - destruct (Hview pid x Hx) as (tx & Htx & Hok & Hvx). exists tx. split; [by rewrite lookup_insert_ne|]. split; [done|].
    intros q Hq. rewrite (decide_False (P := _ = (cur, p))) by congruence. by apply Hvx.
Qed.

(** A fault on a page that is not in memory. *)
Lemma vm_fault_absent s cur a e ft addr slot r rs o ce av pv ev : vm_ok s → running s cur a → 0 ≤ addr < 2 ^ 31 → ft < 2 →
  view a.(as_pages) (page_no addr) = Some e → e.(pe_flags) ≠ 0 → has_flag e.(pe_flags) PAGETABLE_INMEM = false →
  0 ≤ e.(pe_swap) < s.(vm_swap).(swap_freelist).(b_nbits) → victim s r ce av pv ev →
  ce.(ce_pid) ≠ cur ∨ pv ≠ page_no addr → e.(pe_swap) ≠ ev.(pe_swap) → (slot < 64)%nat →
  let idx := r mod coremap_length s in
  ∃ s1 i l, vm_fault s cur ft addr slot (r :: rs) o = Ret (0, set_tlb s1 l, rs, o) ∧ paged_in s cur a (page_no addr) e addr idx ce pv ev s1 ∧
    tlb_probe l (Z.land addr TLBHI_VPAGE) = Some i ∧
    l !! i = Some (Z.land addr TLBHI_VPAGE, Z.lor (s.(base) + 4096 * idx) TLBLO_VALID) ∧ ∀ j, j ≠ i → l !! j = s1.(tlb) !! j.
Proof.
  intros Hvm Hrun Haddr Hft Hv Hfl Hin Hslot Hvi Hne Hslots Hsl idx. unfold vm_fault.
  rewrite (proj2 (Z.leb_gt USERSTACK addr)) by (unfold USERSTACK, USERSPACETOP; lia).
  pose proof Hrun as [Hcm Hmod _ Hp [Ht _] Htlb]. rewrite Hp. cbn [deref]. rewrite ret_bind.
  rewrite (lookup_page_correct s cur a addr Hp Ht ltac:(lia)) by (rewrite Hv; by intros ? [= <-]).
  rewrite Hv, ret_bind, (get_as_correct s cur a Hp), ret_bind, (proj2 (Z.ltb_lt _ _)) by done.
  destruct (indices addr ltac:(lia)) as (_ & _ & Hpage). unfold fault_resident. cbn [swap_in_loop].
  rewrite (entry_of_correct s cur a addr e) by (done || lia). rewrite ret_bind, Hin.
  destruct (swap_in_correct s cur a (page_no addr) e addr r rs ce av pv ev Hvm Hrun Hpage Hv Hslot Hvi Hne Hslots)
    as (s1 & -> & Hpi). rewrite ret_bind. pose proof Hpi as [_ _ Hpg _ _ [El _] _ Eb].
  destruct (Hpg cur a Hp) as (t & Hp1 & Ht1 & Hv1). specialize (Hv1 (page_no addr) ltac:(lia)). rewrite decide_True in Hv1 by done.
  assert (entry_of s1 cur (ref_of (page_no addr)) = Ret (brought_in (s.(base) + 4096 * idx) e)) as He.
  { unfold entry_of. rewrite (get_as_correct s1 cur _ Hp1), ret_bind. apply get_entry_correct; [by apply Ht1|done..]. }
  rewrite He, ret_bind, brought_in_inmem, ret_bind, He, ret_bind.
  assert (paddr_of (brought_in (s.(base) + 4096 * idx) e) = s.(base) + 4096 * idx) as ->.
  { unfold brought_in. rewrite Z.shiftr_div_pow2 by lia. apply paddr_of_frame; [done..|apply Hvi]. }
  destruct (load_tlb_correct s1 slot (Z.land addr TLBHI_VPAGE) (Z.lor (s.(base) + 4096 * idx) TLBLO_VALID)) as (i & l & -> & _ & Hpr & Hli & Hoth);
    [by rewrite El, Htlb|].
  rewrite !ret_bind. by exists s1, i, l.
Qed.

(** ** The TLB *)

Lemma tlb_ok_nodup l : NoDup ((λ e : Z * Z, Z.land e.1 TLBHI_VPAGE) <$> l) →
  Forall (λ e : Z * Z, Z.land e.1 TLBHI_PID = 0 ∧ Z.land e.2 TLBLO_GLOBAL = 0) l → tlb_ok l.
Proof.
  intros Hl Hf. split; [|intros i e Hi; exact (Forall_lookup_1 _ _ _ _ Hf Hi)].
  intros i j e f Hi Hj He. eapply NoDup_lookup; [exact Hl|by rewrite list_lookup_fmap, Hi|]. by rewrite list_lookup_fmap, Hj, He.
Qed.

(** A flushed TLB translates no user page. *)
Lemma flush_all_correct s : ∃ l, flush_all s = set_tlb s l ∧ length l = 64%nat ∧ tlb_ok l ∧
  ∀ va, 0 ≤ va < 2 ^ 31 → untranslated l va.
Proof.
  eexists. split; [done|]. split_and!; [done| |].
  - apply tlb_ok_nodup; apply (bool_decide_unpack _); vm_compute; exact I.
  - intros va Hva i e. rewrite list_lookup_fmap. intros (x & Hx & ->)%fmap_Some.
    apply lookup_seqZ in Hx as [-> Hx]. apply kseg2_page; lia.
Qed.

(** ** Properties *)

(** C13: A read or write fault on a page with no entry, at or above the start of the
    heap or while the program is loaded, succeeds as long as there is a free frame,
    a free slot of swap space and memory for the page table: the page gets the first
    free frame, filled with zeros, and the first free slot; its entry is in the page
    table, whose other entries are as before; the TLB translates the page to the
    frame; and the state is sound again. *)
Theorem vm_fault_maps s cur a ft addr slot rands o : running s cur a → has_room s → 0 ≤ addr < 2 ^ 31 → ft < VM_FAULT_READONLY →
  a.(as_loading) = true ∨ a.(as_heap_start) ≤ addr → view a.(as_pages) (page_no addr) = None → (slot < 64)%nat → false ∉ o →
  let a' := stack_grown a addr in
  ∃ idx b t s1 o' i l, vm_fault s cur ft addr slot rands o = Ret (0, set_tlb s1 l, rands, o') ∧
    pulled (put_as s cur a') cur a' (page_no addr) addr 0 idx b t s1 ∧
    running (set_tlb s1 l) cur (set_pages a' t) ∧
    tlb_probe l (Z.land addr TLBHI_VPAGE) = Some i ∧
    l !! i = Some (Z.land addr TLBHI_VPAGE, Z.lor (s.(base) + 4096 * idx) TLBLO_VALID) ∧ ∀ j, j ≠ i → l !! j = s.(tlb) !! j.
Proof. apply vm_fault_unmapped. Qed.

(** Process 5 with no pages, four free frames and four free slots. *)
Definition small_proc (t : pagetable) : vm :=
  set_tlb (set_procs small_vm {[5 := Some (Addrspace t 5 false 0 false 8192 4096 USERSTACK)]}) (replicate 64 (0, 0)).

Lemma small_empty : ∃ t, pt_ok t ∧ t.(pt_locked) = false ∧ ∀ p, 0 ≤ p < 2 ^ 20 → view t p = None.
Proof.
  destruct (pagetable_create_correct []) as ([t|] & o & _ & Ht); [by exists t|by apply not_elem_of_nil in Ht].
Qed.

Lemma small_proc_running t : pt_ok t → t.(pt_locked) = false →
  running (small_proc t) 5 (Addrspace t 5 false 0 false 8192 4096 USERSTACK).
Proof.
  intros Ht Hl. constructor; [|done|apply small_slots_ok|apply lookup_singleton_eq|done|done].
  apply (cm_ok_ext small_vm); try done; apply small_vm_ok.
Qed.

Lemma small_proc_room t : room (small_proc t) 4.
Proof. split; vm_compute; discriminate. Qed.

Lemma vm_fault_maps_witness : ∃ t s' o' idx b t', vm_fault (small_proc t) 5 VM_FAULT_READ 5000 3 [] [] = Ret (0, s', [], o') ∧
  s'.(procs) !! 5 = Some (Some (Addrspace t' 5 false 0 false 8192 4096 USERSTACK)) ∧
  view t' 1 = Some (Entry ((4096 + 4096 * idx) / 4096) b 3).
Proof.
  destruct small_empty as (t & Ht & Hl & Hnone). exists t.
  destruct (vm_fault_maps (small_proc t) 5 _ VM_FAULT_READ 5000 3 [] [] (small_proc_running t Ht Hl)
    (room_has_room _ _ (small_proc_room t) eq_refl) ltac:(lia) eq_refl ltac:(right; cbn; lia) (Hnone 1 ltac:(lia)) ltac:(lia)
    (not_elem_of_nil _)) as (idx & b & t' & s1 & o' & i & l & Hr & [_ _ (_ & _ & Hv) Hp _ _ _] & _).
  exists (set_tlb s1 l), o', idx, b, t'. split; [exact Hr|]. split.
  - change (procs (set_tlb s1 l)) with s1.(procs). rewrite Hp. apply lookup_insert_eq.
  - exact (Hv 1 ltac:(lia)).
Defined.

(** C14: A read or write fault on a page that has been evicted, when no frame is free, no transfer to or from the
    swap disk fails, and the frame that [random] chooses holds an unlocked page, not about to be freed, of a process
    that is not going away, the two pages having different slots: the wanted page comes back into that
    frame, which then holds what its slot of swap space held; its entry says that it is in memory and clean, and
    the TLB translates it to the frame.  The page that was in the frame is evicted first: what it held is in its
    slot if the frame was marked dirty, its entry says that it is not in memory, and the TLB had no entry for it
    left, unless the address that the core map had for it has bits in the place of the address space id.  No other
    entry, no other slot and no byte outside the frame changes. *)
Theorem vm_fault_swaps_in s cur a e ft addr slot r rs o ce av pv ev : vm_ok s → running s cur a → 0 ≤ addr < 2 ^ 31 →
  ft < VM_FAULT_READONLY → view a.(as_pages) (page_no addr) = Some e → e.(pe_flags) ≠ 0 →
  has_flag e.(pe_flags) PAGETABLE_INMEM = false → 0 ≤ e.(pe_swap) < s.(vm_swap).(swap_freelist).(b_nbits) →
  victim s r ce av pv ev → ce.(ce_pid) ≠ cur ∨ pv ≠ page_no addr → e.(pe_swap) ≠ ev.(pe_swap) → (slot < 64)%nat →
  let idx := r mod coremap_length s in
  ∃ s1 i l, vm_fault s cur ft addr slot (r :: rs) o = Ret (0, set_tlb s1 l, rs, o) ∧ paged_in s cur a (page_no addr) e addr idx ce pv ev s1 ∧
    tlb_probe l (Z.land addr TLBHI_VPAGE) = Some i ∧
    l !! i = Some (Z.land addr TLBHI_VPAGE, Z.lor (s.(base) + 4096 * idx) TLBLO_VALID) ∧ ∀ j, j ≠ i → l !! j = s1.(tlb) !! j.
Proof. apply vm_fault_absent. Qed.

(** One frame, which holds page 1024 of process 5; page 1024 of process 6 is in the
    swap space. *)
Definition small_pair (t t' : pagetable) : vm :=
  let s := small_resident t in
  flush_all (set_procs s (<[6 := Some (Addrspace t' 6 false 0 false 0 0 0)]> s.(procs))).

Lemma small_pair_ok t t' : vm_ok (small_pair t t').
Proof.
  destruct (small_resident_ok t) as [Hcm Hsw Hmem _]. unfold small_pair. destruct (flush_all_correct
    (set_procs (small_resident t) (<[6 := Some (Addrspace t' 6 false 0 false 0 0 0)]> (procs (small_resident t))))) as (l & -> & Hl & Hok & _).
  constructor; [|done|done|split; [done|cbn; lia]]. apply (cm_ok_ext (small_resident t)); try done; apply Hcm.
Qed.

Lemma vm_fault_swaps_in_witness : ∃ t t' b s', view t' 1024 = Some (Entry 0 b 1) ∧
  vm_fault (small_pair t t') 6 VM_FAULT_READ 4194304 0 [0] [] = Ret (0, s', [], []) ∧ frame s' 0 = swapped small_slots b.
Proof.
  destruct (small_table 0) as (t & b & [Ht Hl] & Hv & Hb & _). set (b' := if b =? 0 then 1 else 0).
  assert (b' ≠ b ∧ 0 ≤ b' < 4) as [Hne Hb'] by (unfold b'; destruct (Z.eqb_spec b 0); lia).
  destruct (set_entry_correct t 1024 _ (Entry 0 b' 1) Ht ltac:(lia) Hv) as (t' & _ & Ht' & Hl' & Hv').
  specialize (Hv' 1024 ltac:(lia)). change (1024 =? 1024) with true in Hv'. exists t, t', b'.
  destruct (vm_fault_swaps_in (small_pair t t') 6 (Addrspace t' 6 false 0 false 0 0 0) (Entry 0 b' 1) VM_FAULT_READ 4194304 0 0 [] []
    (Centry 13 5 4194304) (Addrspace t 5 false 0 false 0 0 0) 1024 (Entry 1 b 3) (small_pair_ok t t')) as (s1 & i & l & Hr & [Hf _ _ _ _ _ _ _] & _).
  - constructor; [apply small_pair_ok|reflexivity|apply small_slots_ok|apply lookup_insert_eq|split; [exact Ht'|exact (eq_trans Hl' Hl)]|reflexivity].
  - lia.
  - reflexivity.
  - exact Hv'.
  - discriminate.
  - reflexivity.
  - exact Hb'.
  - constructor; [|lia|reflexivity| |split; reflexivity].
    + intros k Hk. change (coremap_length (small_pair t t')) with 1 in Hk. by replace k with 0 by lia.
    + constructor; [done| |exact Ht|done|exact Hv|done|exact Hb].
      change (<[6 := Some (Addrspace t' 6 false 0 false 0 0 0)]> (procs (small_resident t)) !! 5 = Some (Some (Addrspace t 5 false 0 false 0 0 0))).
      rewrite lookup_insert_ne by discriminate. apply lookup_singleton_eq.
  - left. discriminate.
  - exact Hne.
  - lia.
  - exists (set_tlb s1 l). split; [exact Hv'|]. split; [exact Hr|exact Hf].
Defined.

(** A write to a page that is in memory and was mapped for reading, by a process
    that may write it (or while its program is loaded), succeeds: the entry of the
    page and the frame are marked dirty, so that the eviction will save the page, the
    TLB lets the write through, and the contents of memory are as before. *)
Theorem vm_fault_dirties s cur a addr slot rands o e idx : running s cur a → 0 ≤ addr < 2 ^ 31 → mapped_at s a addr e idx →
  a.(as_loading) = true ∨ a.(as_stack_base) ≤ addr ∨ addr ≤ a.(as_heap_end) →
  a.(as_loading) = true ∨ has_flag e.(pe_flags) PAGETABLE_WRITEABLE = true → (slot < 64)%nat →
  ∃ t s', vm_fault s cur VM_FAULT_READONLY addr slot rands o = Ret (0, s', rands, o) ∧ dirtied s cur a addr e idx t s'.
Proof. apply readonly_dirties. Qed.

(** Process 5 with page 1024 in its only frame. *)
Definition small_mapped (t : pagetable) : vm := flush_all (small_resident t).

Lemma small_mapped_running t : pt_ok t → t.(pt_locked) = false → running (small_mapped t) 5 (Addrspace t 5 false 0 false 0 0 0).
Proof.
  intros Ht Hl. constructor; [|done|apply small_slots_ok|apply lookup_singleton_eq|done|done].
  apply (cm_ok_ext (small_resident t)); try done; apply (small_resident_ok t).
Qed.

Lemma vm_fault_dirties_witness : ∃ t b s', view t 1024 = Some (Entry 1 b 35) ∧
  vm_fault (small_mapped t) 5 VM_FAULT_READONLY 4194304 0 [] [] = Ret (0, s', [], []) ∧
  s'.(coremap) = [Centry 13 5 4194304].
Proof.
  destruct (small_table 32) as (t & b & [Ht Hl] & Hv & Hb & _). exists t, b.
  destruct (vm_fault_dirties (small_mapped t) 5 _ 4194304 0 [] [] (Entry 1 b 35) 0 (small_mapped_running t Ht Hl) ltac:(lia)) as (t' & s' & Hr & [_ _ (ce & Hce & Hc) _ _]).
  - constructor; [exact Hv|discriminate|split; [change (coremap_length (small_mapped t)) with 1; lia|reflexivity]|reflexivity].
  - right. left. cbn. lia.
  - right. reflexivity.
  - lia.
  - exists s'. split; [exact Hv|]. split; [exact Hr|]. rewrite Hc. change (coremap (small_mapped t)) with [Centry 13 5 4194304] in Hce |- *.
    injection Hce as <-. reflexivity.
Defined.

(** A page that a fault has just created can be read but not written: the write
    that follows is refused with the error 1 and changes nothing, so a process cannot
    write to a page of the heap it has grown with [sbrk]. *)
Theorem vm_fault_new_page_readonly s cur a ft addr slot slot' rands o : running s cur a → has_room s → 0 ≤ addr < 2 ^ 31 →
  ft < VM_FAULT_READONLY → a.(as_loading) = false → a.(as_heap_start) ≤ addr → view a.(as_pages) (page_no addr) = None →
  (slot < 64)%nat → false ∉ o →
  ∃ s' o', vm_fault s cur ft addr slot rands o = Ret (0, s', rands, o') ∧
    vm_fault s' cur VM_FAULT_READONLY addr slot' rands o' = Ret (1, s', rands, o').
Proof.
  intros Hrun Hroom Haddr Hft Hload Hheap Hnone Hslot Ho.
  destruct (vm_fault_unmapped s cur a ft addr slot rands o Hrun Hroom Haddr Hft (or_intror Hheap) Hnone Hslot Ho)
    as (idx & b & t & s1 & o' & i & l & Hr & Hpl & Hrun' & _).
  exists (set_tlb s1 l), o'. split; [exact Hr|]. destruct Hpl as [(Hi0 & Hi1 & Hcl & _) _ (_ & _ & Hview) _ (Hcm & _ & Hsw & Hco) _ (Eb & _)].
  assert (0 ≤ page_no addr) as Hpage by (unfold page_no; zdiv_lia). change (coremap_length (put_as _ _ _)) with (coremap_length s) in Hi1.
  apply (readonly_refused (set_tlb s1 l) cur (set_pages (stack_grown a addr) t) addr slot' rands o'
    (Entry ((s.(base) + 4096 * idx) / 4096) b (entry_flags 0)) idx Hrun' Haddr); [|by unfold stack_grown; destruct (_ && _)|done].
  constructor; [cbn; rewrite Hview by done; by rewrite Z.eqb_refl|done| |].
  - unfold coremap_length. change (coremap (set_tlb s1 l)) with s1.(coremap). change (base (set_tlb s1 l)) with s1.(base).
    rewrite Hco, Eb, length_insert. split; [unfold coremap_length in Hi1; cbn; lia|]. exact (paddr_of_frame s idx b _ (ru_core _ _ _ Hrun) (ru_base _ _ _ Hrun) ltac:(lia)).
  - change (bit s1.(coremap_swappable) idx = false). rewrite Hsw. change (bit s.(coremap_swappable) idx = false).
    destruct (lookup_lt_is_Some_2 s.(coremap) (Z.to_nat idx)) as [ce Hce]; [unfold coremap_length in Hi1; lia|].
    destruct (cm_unused s (ru_core _ _ _ Hrun) _ _ Hce) as [_ H]; rewrite Z2Nat.id in * by lia; [apply Hcl; lia|done].
Qed.

Lemma vm_fault_new_page_readonly_witness : ∃ t s' o', vm_fault (small_proc t) 5 VM_FAULT_WRITE 5000 3 [] [] = Ret (0, s', [], o') ∧
  vm_fault s' 5 VM_FAULT_READONLY 5000 3 [] o' = Ret (1, s', [], o').
Proof.
  destruct small_empty as (t & Ht & Hl & Hnone). exists t.
  exact (vm_fault_new_page_readonly (small_proc t) 5 _ VM_FAULT_WRITE 5000 3 3 [] [] (small_proc_running t Ht Hl)
    (room_has_room _ _ (small_proc_room t) eq_refl) ltac:(lia) eq_refl eq_refl ltac:(cbn; lia) (Hnone 1 ltac:(lia)) ltac:(lia)
    (not_elem_of_nil _)).
Defined.

(** C25: [as_define_region], given enough free frames and slots and none of the pages
    in the page table yet, maps every page from the one of [vaddr] on, as many as
    [memsize] bytes take: each in a frame of its own that was free and is now zero,
    with the permissions asked for; the other pages are as before, no other byte of
    memory changes, and the heap starts, empty, on the page after. *)
Theorem as_define_region_maps s cur a vaddr memsize r w x o : running s cur a → 0 < s.(base) → 0 ≤ vaddr → 0 ≤ memsize →
  let p := page_no vaddr in
  let n := (memsize + 4095) / 4096 in
  p + n ≤ 2 ^ 19 → room s n → (∀ q, p ≤ q < p + n → view a.(as_pages) q = None) → false ∉ o →
  ∃ t f s' o', as_define_region s cur vaddr memsize r w x o =
      Ret (0, put_as s' cur (set_heap (set_pages a t) (4096 * (p + n)) (4096 * (p + n))), o') ∧
    backed s cur a p n (region_flags r w x) t f s'.
Proof. apply define_region_correct. Qed.

Lemma as_define_region_maps_witness : ∃ t t' f s' o', as_define_region (small_proc t) 5 4194304 10000 true true false [] =
    Ret (0, put_as s' 5 (set_heap (Addrspace t' 5 false 0 false 8192 4096 USERSTACK) 4206592 4206592), o') ∧
  (∃ b, view t' 1026 = Some (Entry ((4096 + 4096 * f 1026) / 4096) b 51)) ∧ f 1024 ≠ f 1026.
Proof.
  destruct small_empty as (t & Ht & Hl & Hnone). exists t.
  destruct (as_define_region_maps (small_proc t) 5 _ 4194304 10000 true true false [] (small_proc_running t Ht Hl)) as (t' & f & s' & o' & Hr & Hbk).
  - reflexivity.
  - lia.
  - lia.
  - vm_compute. discriminate.
  - destruct (small_proc_room t). change ((10000 + 4095) / 4096) with 3. split; lia.
  - change ((10000 + 4095) / 4096) with 3. change (page_no 4194304) with 1024. intros q Hq. apply Hnone. lia.
  - apply not_elem_of_nil.
  - exists t', f, s', o'. split; [exact Hr|]. destruct Hbk as [_ _ Hd Hp _ _ _ _].
    change ((10000 + 4095) / 4096) with 3 in *. change (page_no 4194304) with 1024 in *. split; [exact (Hp 1026 ltac:(lia))|].
    intros He. specialize (Hd 1024 1026 ltac:(lia) ltac:(lia) He). lia.
Defined.

(** [as_define_region] counts the bytes from the start of the page of [vaddr], not
    from [vaddr]: a region that does not start on a page boundary and whose end falls
    beyond the pages so counted is left without its last page. *)
Theorem as_define_region_short s cur a vaddr memsize r w x o : running s cur a → 0 < s.(base) → 0 ≤ vaddr → 0 < memsize →
  let p := page_no vaddr in
  let n := (memsize + 4095) / 4096 in
  let last := page_no (vaddr + memsize - 1) in
  p + n ≤ 2 ^ 19 → room s n → (∀ q, p ≤ q ≤ last → view a.(as_pages) q = None) → false ∉ o → p + n ≤ last →
  ∃ t s' o', as_define_region s cur vaddr memsize r w x o = Ret (0, s', o') ∧
    s'.(procs) !! cur = Some (Some (set_heap (set_pages a t) (4096 * (p + n)) (4096 * (p + n)))) ∧ view t last = None.
Proof.
  intros Hrun Hb Hv Hm p n last Hpn Hroom Hnone Ho Hlast.
  destruct (define_region_correct s cur a vaddr memsize r w x o Hrun Hb Hv ltac:(lia) Hpn Hroom) as (t & f & s' & o' & Hr & Hbk); [|done|].
  { fold p n. intros q Hq. apply Hnone. lia. }
  assert (0 ≤ p ∧ 0 ≤ n) as [Hp0 Hn0] by (unfold n, p, page_no; zdiv_lia).
  eexists t, _, o'. split; [exact Hr|]. split; [apply lookup_insert_eq|].
  rewrite (bk_others _ _ _ _ _ _ _ _ _ Hbk) by (fold p n; lia). apply Hnone. lia.
Qed.

Lemma as_define_region_short_witness : ∃ t t' s' o', as_define_region (small_proc t) 5 4198399 2 true true false [] = Ret (0, s', o') ∧
  s'.(procs) !! 5 = Some (Some (set_heap (Addrspace t' 5 false 0 false 8192 4096 USERSTACK) 4198400 4198400)) ∧ view t' 1025 = None.
Proof.
  destruct small_empty as (t & Ht & Hl & Hnone). exists t.
  destruct (as_define_region_short (small_proc t) 5 _ 4198399 2 true true false [] (small_proc_running t Ht Hl)) as (t' & s' & o' & Hr & Hp & Hv).
  - reflexivity.
  - lia.
  - lia.
  - vm_compute. discriminate.
  - destruct (small_proc_room t). change ((2 + 4095) / 4096) with 1. split; lia.
  - change (page_no 4198399) with 1024. change (page_no (4198399 + 2 - 1)) with 1025. intros q Hq. apply Hnone. lia.
  - apply not_elem_of_nil.
  - vm_compute. discriminate.
  - exists t', s', o'. split; [exact Hr|]. split; [exact Hp|exact Hv].
Defined.

(** C35: [sbrk] that does not move the end of the heap below address 0 does what it
    should: it returns the old end and moves the end by [amount], unless the new end
    would be below the start of the heap ([EINVAL]) or, growing, would reach the stack
    ([ENOMEM]); then nothing changes. *)
Theorem sys_sbrk_moves s cur a amount : s.(procs) !! cur = Some (Some a) →
  0 ≤ a.(as_heap_start) ≤ a.(as_heap_end) → a.(as_heap_end) < 2 ^ 31 → - a.(as_heap_end) ≤ amount < 2 ^ 31 →
  sys_sbrk s cur amount =
    if (a.(as_heap_start) <=? a.(as_heap_end) + amount) && ((amount <=? 0) || (a.(as_heap_end) + amount <? a.(as_stack_base)))
    then Ret (0, a.(as_heap_end), put_as s cur (set_heap a a.(as_heap_start) (a.(as_heap_end) + amount)))
    else Ret (if amount <? 0 then EINVAL else ENOMEM, -1, s).
Proof.
  intros Hp Hh He Ha. unfold sys_sbrk. rewrite (get_as_correct s cur a Hp). cbn [mbind res_bind]. unfold sbrk.
  rewrite u32_id, i32_id by lia. destruct (Z.eqb_spec amount 0) as [->|].
  - rewrite Z.add_0_r, (proj2 (Z.leb_le _ _)) by lia. cbn [Z.leb andb orb]. by destruct a.
  - destruct (Z.ltb_spec amount 0).
    + rewrite (proj2 (Z.leb_le amount 0)) by lia. rewrite andb_true_r. destruct (_ <=? _); [done|]. by rewrite put_as_same.
    + rewrite (proj2 (Z.leb_gt amount 0)), (proj2 (Z.leb_le (as_heap_start a) _)) by lia. cbn [andb orb].
      destruct (_ <? _); [done|]. by rewrite put_as_same.
Qed.

Lemma sys_sbrk_moves_witness : ∃ t, sys_sbrk (small_proc t) 5 8192 =
  Ret (0, 8192, put_as (small_proc t) 5 (Addrspace t 5 false 0 false 16384 4096 USERSTACK)).
Proof.
  destruct small_empty as (t & _). exists t.
  exact (sys_sbrk_moves (small_proc t) 5 (Addrspace t 5 false 0 false 8192 4096 USERSTACK) 8192 (lookup_singleton_eq _ _)
    ltac:(cbn; lia) ltac:(cbn; lia) ltac:(cbn; lia)).
Defined.

(** [sbrk] by an amount below minus the end of the heap wraps around and succeeds:
    the heap then ends above the user's half of the address space. *)
Theorem sys_sbrk_wraps s cur a amount : s.(procs) !! cur = Some (Some a) →
  0 ≤ a.(as_heap_start) ≤ a.(as_heap_end) → a.(as_heap_end) < 2 ^ 31 → - 2 ^ 31 ≤ amount < - a.(as_heap_end) →
  sys_sbrk s cur amount = Ret (0, a.(as_heap_end), put_as s cur (set_heap a a.(as_heap_start) (a.(as_heap_end) + amount + 2 ^ 32))) ∧
  USERSPACETOP ≤ a.(as_heap_end) + amount + 2 ^ 32.
Proof.
  intros Hp Hh He Ha. split; [|unfold USERSPACETOP; lia]. unfold sys_sbrk. rewrite (get_as_correct s cur a Hp). cbn [mbind res_bind].
  unfold sbrk. rewrite i32_id by lia. rewrite (proj2 (Z.eqb_neq amount 0)), (proj2 (Z.ltb_lt amount 0)) by lia.
  assert (u32 (a.(as_heap_end) + amount) = a.(as_heap_end) + amount + 2 ^ 32) as ->.
  { unfold u32. symmetry. apply (Z.mod_unique _ _ (-1)); lia. }
  by rewrite (proj2 (Z.leb_le _ _)) by lia.
Qed.

Lemma sys_sbrk_wraps_witness : ∃ t, sys_sbrk (small_proc t) 5 (-12288) =
  Ret (0, 8192, put_as (small_proc t) 5 (Addrspace t 5 false 0 false 4294963200 4096 USERSTACK)).
Proof.
  destruct small_empty as (t & _). exists t.
  exact (proj1 (sys_sbrk_wraps (small_proc t) 5 (Addrspace t 5 false 0 false 8192 4096 USERSTACK) (-12288) (lookup_singleton_eq _ _)
    ltac:(cbn; lia) ltac:(cbn; lia) ltac:(cbn; lia))).
Defined.

(** When a process other than the one whose translations the TLB holds is
    activated, the TLB translates no user page any more and is the new process's;
    otherwise, or without an address space, it stays as it is. *)
Theorem as_activate_flushes s cur c_tlb_pid p : s.(procs) !! cur = Some p →
  ∃ s' pid', as_activate s cur c_tlb_pid = Ret (s', pid') ∧
    match p with
    | None => s' = s ∧ pid' = c_tlb_pid
    | Some a => if (a.(as_pid) =? 0) || negb (a.(as_pid) =? c_tlb_pid)
        then (∃ l, s' = set_tlb s l ∧ tlb_ok l ∧ ∀ va, 0 ≤ va < 2 ^ 31 → untranslated l va) ∧
          (a.(as_pid) ≠ 0 → pid' = a.(as_pid))
        else s' = s ∧ pid' = c_tlb_pid
    end.
Proof.
  intros Hp. unfold as_activate. rewrite Hp. cbn [deref mbind res_bind]. destruct p as [a|]; [|by eexists _, _].
  unfold vm_flush_tlb. destruct (_ || _); [|by eexists _, _]. eexists _, _. split; [done|].
  destruct (flush_all_correct s) as (l & -> & _ & Hok & Hnone). split; [by exists l|].
  intros H0. by rewrite (proj2 (Z.eqb_neq _ _)).
Qed.

Lemma as_activate_flushes_witness : ∃ t s', as_activate (small_proc t) 5 7 = Ret (s', 5) ∧ tlb_probe s'.(tlb) 5000 = None.
Proof.
  destruct small_empty as (t & _). exists t.
  destruct (as_activate_flushes (small_proc t) 5 7 _ (lookup_singleton_eq _ _)) as (s' & pid' & Hr & (l & -> & _ & Hn) & Hpid).
  rewrite Hpid in Hr by discriminate. exists (set_tlb (small_proc t) l). split; [exact Hr|]. exact (untranslated_probe _ _ (Hn 5000 ltac:(lia))).
Defined.

(** A page that a fault has created and nobody has written to is lost when it is
    evicted: the frame is zero, but it is not dirty, so nothing is written to the slot,
    which still holds what the page that had it before left there. *)
Theorem fresh_page_not_saved s cur a addr o : vm_ok s → running s cur a → has_room s → 0 ≤ addr < 2 ^ 31 → 0 ≤ cur < 2 ^ 16 →
  a.(as_destroying) = false → false ∉ o →
  ∃ idx b s1 o' s2, pagetable_pull s cur addr 0 o = Ret (s.(base) + 4096 * idx, s1, o') ∧ zeroed s idx s1.(ram) ∧
    swap_allocate s.(vm_swap) = Ret (0, b, s1.(vm_swap)) ∧ coremap_swap_page_out s1 idx = Ret s2 ∧
    swapped s2.(vm_swap) b = swapped s.(vm_swap) b.
Proof.
  intros Hvm Hrun Hroom Haddr Hcur Hd Ho. pose proof Hvm as [_ [Hsw Hps] Hmem [Htlb Hlen]].
  destruct (pull_correct s cur a addr 0 o Hrun Hroom ltac:(lia) Ho) as (idx & b & t & s1 & o' & Hp & _ & Hpl).
  destruct (indices addr ltac:(lia)) as (_ & _ & Hpage).
  destruct Hpl as [(Hi0 & Hi1 & _) [Hsl Hsw1] (Ht & Hul & Hview) Hprocs (Hcm1 & _ & _ & Hco) Hram (Eb & El)].
  pose proof (swap_allocate_correct _ Hsw) as Hal. rewrite Hsl in Hal. destruct Hal as (_ & Hsp & Hps1 & [(_ & Hb & _ & (_ & Hnb & _))|[? _]]); [|done].
  assert (vm_ok s1) as Hvm1.
  { constructor; [exact Hcm1|split; [exact Hsw1|congruence]| |by rewrite El]. intros k x. rewrite Hram. case_decide; [intros [= <-]; lia|apply Hmem]. }
  assert (resident s1 idx (Centry 12 cur addr) (set_pages a t) (page_no addr) (Entry ((s.(base) + 4096 * idx) / 4096) b 3)) as Hre.
  { constructor; [|by rewrite Hprocs; apply lookup_insert_eq|exact Ht|split; [exact Haddr|done]| |done|by rewrite Hnb].
    - unfold coremap_length in *. rewrite Hco, length_insert. split; [lia|]. rewrite list_lookup_insert_eq by lia.
      unfold fresh_entry, u16. by rewrite Z.mod_small by lia.
    - cbn. rewrite Hview by lia. by rewrite Z.eqb_refl. }
  destruct (evict_correct s1 idx _ _ _ _ Hvm1 Hre Hd eq_refl) as (s2 & Hev & [_ _ Hslot _ _ _ _]).
  exists idx, b, s1, o', s2. split; [exact Hp|]. split; [exact Hram|]. split; [exact Hsl|]. split; [exact Hev|].
  cbn [ce_flags pe_swap] in Hslot. change (has_flag 12 COREMAP_DIRTY) with false in Hslot. cbv iota in Hslot. rewrite Hslot.
  unfold swapped, per_page. by rewrite Hsp, Hps1.
Qed.

(** Four slots full of sevens, all free. *)
Definition small_stale (t : pagetable) : vm :=
  set_swap (flush_all (small_proc t)) (Swap (Bitmap 4 [240]) (Fs 0 (Bitmap 0 []) false (replicate 32 (replicate 512 7)) [] []) 4096).

Lemma small_stale_swap t : swap_ok (small_stale t).(vm_swap).
Proof.
  destruct small_slots_ok as [H1 H2 H3 _ H5]. constructor; [exact H1|exact H2|exact H3| |exact H5].
  unfold small_stale, set_swap, vm_swap, swap_space, sfs_disk. apply Forall_replicate. split; [done|]. apply Forall_replicate. lia.
Qed.

Lemma fresh_page_not_saved_witness : ∃ t idx b s1 o' s2, pagetable_pull (small_stale t) 5 5000 0 [] = Ret (4096 + 4096 * idx, s1, o') ∧
  coremap_swap_page_out s1 idx = Ret s2 ∧ swapped s2.(vm_swap) b = swapped (small_stale t).(vm_swap) b.
Proof.
  destruct small_empty as (t & Ht & Hl & _). destruct small_vm_ok as [H1 H2 H3 H4 H5 H6]. pose proof (small_stale_swap t) as Hsw.
  assert (cm_ok (small_stale t)) as Hcm by (constructor; [exact H1|exact H2|exact H3|exact H4|exact H5|exact H6]).
  destruct (fresh_page_not_saved (small_stale t) 5 (Addrspace t 5 false 0 false 8192 4096 USERSTACK) 5000 []) as (idx & b & s1 & o' & s2 & Hp & _ & _ & Hev & Hs).
  - constructor; [exact Hcm|split; [exact Hsw|reflexivity]| |].
    + intros k x. change (ram (small_stale t)) with small_vm.(ram). unfold small_vm. cbn [ram]. rewrite with_bytes_lookup. case_decide; [|discriminate].
      intros [-> _]%lookup_replicate. lia.
    + destruct (flush_all_correct (small_proc t)) as (l & Hfl & Hll & Hok & _). unfold small_stale. rewrite Hfl. cbn [set_swap tlb set_tlb]. split; [exact Hok|lia].
  - constructor; [exact Hcm|reflexivity|exact Hsw|apply lookup_singleton_eq|split; [exact Ht|exact Hl]|reflexivity].
  - apply (room_has_room _ 4); [|reflexivity]. split; vm_compute; discriminate.
  - lia.
  - lia.
  - reflexivity.
  - apply not_elem_of_nil.
  - exists t, idx, b, s1, o', s2. split; [exact Hp|]. split; [exact Hev|exact Hs].
Defined.
