(* ===== verification/AddrSpace.v ===== *)
(** * Removing, copying and destroying pages (the rest of kern/vm/pagetable.c and of
      kern/vm/addrspace.c)

    The state is that of [Coremap]; a process whose address space has been destroyed
    has no entry in [procs] any more, so that what would use the freed memory is
    [Undef].  The spinlocks of the entries and the locks of the tables are held for
    parts of one operation only, and nothing else runs meanwhile; the lock of a table
    is checked where the operation starts. *)

From S2P Require Import Prelude Synch CString UserCopy Uio Bitmap Sfs SfsIo Swap PageTable Coremap Vm.

(** ** Operations *)

Definition lock_pages (s : vm) (pid : Z) : res vm :=
  a ← get_as s pid;
  t ← lock_table a.(as_pages);
  Ret (put_as s pid (set_pages a t)).

Definition unlock_pages (s : vm) (pid : Z) : res vm :=
  a ← get_as s pid;
  t ← unlock_table a.(as_pages);
  Ret (put_as s pid (set_pages a t)).

Definition subtable_of (s : vm) (pid i : Z) : res pagetable_subtable :=
  a ← get_as s pid;
  get_subtable a.(as_pages) i.

(** [bitmap_unmark(subtable->valids, j); kfree(entry)] *)
Definition drop_entry (s : vm) (pid i j : Z) : res vm :=
  a ← get_as s pid;
  st ← get_subtable a.(as_pages) i;
  valids ← bitmap_unmark st.(st_valids) j;
  ptr ← st.(st_ptr).[j <- None];
  t ← set_subtable a.(as_pages) i (Subtable valids ptr);
  Ret (put_as s pid (set_pages a t)).

Definition free_slot (s : vm) (block : Z) : res vm :=
  w ← swap_free s.(vm_swap) block;
  Ret (set_swap s w).

(** The page of entry [(i, j)] removed from memory and from the disk. *)
Definition remove_page (s : vm) (pid i j : Z) : res vm :=
  entry ← entry_of s pid (i, j);
  if negb (Z.lor entry.(pe_flags) PAGETABLE_INMEM =? 0) then
    '(inmem, s) ← coremap_lock_acquire s (paddr_of entry);
    if (inmem : bool) then
      s ← coremap_free_page s (paddr_of entry);
      s ← free_slot s entry.(pe_swap);
      drop_entry s pid i j
    else change_entry s pid (i, j) (λ e, set_flags e (Z.lor e.(pe_flags) PAGETABLE_REQUEST_FREE))
  else
    s ← free_slot s entry.(pe_swap);
    drop_entry s pid i j.

(** [pagetable_remove] of the table of process [pid]. *)
Definition pagetable_remove (s : vm) (pid vaddr : Z) : res (bool * vm) :=
  let i := mainindex vaddr in
  let j := subindex vaddr in
  s ← lock_pages s pid;
  a ← get_as s pid;
  b ← bitmap_isset a.(as_pages).(pt_valids) i;
  if negb b then s ← unlock_pages s pid; Ret (false, s) else
  st ← subtable_of s pid i;
  b ← bitmap_isset st.(st_valids) j;
  if negb b then s ← unlock_pages s pid; Ret (false, s) else
  s ← unlock_pages s pid;
  s ← remove_page s pid i j;
  Ret (true, s).

(** ** Copying a table *)

(** [copy_entry->flags |= flag] under [if (entry->flags | flag)]. *)
Definition copy_flag (old flag flags : Z) : Z :=
  if negb (Z.lor old flag =? 0) then Z.lor flags flag else flags.

Definition copy_flags (old : Z) : Z :=
  copy_flag old PAGETABLE_EXECUTABLE (copy_flag old PAGETABLE_WRITEABLE
    (copy_flag old PAGETABLE_READABLE (Z.lor PAGETABLE_VALID PAGETABLE_INMEM))).

(** [swap_page_out] and [swap_page_in] between the frame at [paddr] and a slot. *)
Definition page_out (s : vm) (paddr block : Z) : res vm :=
  '(m, w) ← swap_page_out s.(ram) s.(vm_swap) (PADDR_TO_KVADDR paddr) block;
  Ret (set_swap (set_ram s m) w).
Definition page_in (s : vm) (paddr block : Z) : res vm :=
  '(m, w) ← swap_page_in s.(ram) s.(vm_swap) (PADDR_TO_KVADDR paddr) block;
  Ret (set_swap (set_ram s m) w).

(** [bitmap_mark(copy_subtable->valids, j); copy_subtable->ptr->entries[j] = entry] *)
Definition put_entry (s : vm) (pid i j : Z) (e : pagetable_entry) : res vm :=
  a ← get_as s pid;
  st ← get_subtable a.(as_pages) i;
  valids ← bitmap_mark st.(st_valids) j;
  ptr ← st.(st_ptr).[j <- Some e];
  t ← set_subtable a.(as_pages) i (Subtable valids ptr);
  Ret (put_as s pid (set_pages a t)).

(** The page of entry [(i, j)]: its slot brought up to date, its contents read into a
    new frame of the copy and from there written to a new slot.  The slot of the copy
    is not known when there is none to be had. *)
Definition copy_page (s : vm) (pid copypid i j : Z) (o : script) : res (vm * script) :=
  entry ← entry_of s pid (i, j);
  let '(ok, o) := kmalloc o in
  if negb ok then Undef else
  let vaddr := u32 (Z.lor (Z.shiftl i 22) (Z.shiftl j 12)) in
  s ← (if has_flag entry.(pe_flags) PAGETABLE_DIRTY then page_out s (paddr_of entry) entry.(pe_swap) else Ret s);
  '(paddr, s) ← coremap_allocate_page s false copypid 1 vaddr;
  let addr := Z.shiftr paddr 12 in
  entry ← entry_of s pid (i, j);
  s ← page_in s (u32 (Z.shiftl addr 12)) entry.(pe_swap);
  '(err, block, w) ← swap_allocate s.(vm_swap);
  if negb (err =? 0) then Undef else
  s ← page_out (set_swap s w) (u32 (Z.shiftl addr 12)) block;
  s ← put_entry s copypid i j (Entry addr block (copy_flags entry.(pe_flags)));
  s ← coremap_lock_release s (u32 (Z.shiftl addr 12));
  Ret (s, o).

(** The entries of subtable [i] from [j] on. *)
Fixpoint copy_entries (n : nat) (s : vm) (pid copypid i j : Z) (o : script) : res (vm * script) :=
  match n with
  | O => Ret (s, o)
  | S n' =>
      st ← subtable_of s pid i;
      b ← bitmap_isset st.(st_valids) j;
      if negb b then copy_entries n' s pid copypid i (j + 1) o else
      entry ← entry_of s pid (i, j);
      if negb (has_flag entry.(pe_flags) PAGETABLE_VALID) then copy_entries n' s pid copypid i (j + 1) o else
      '(s, o) ← copy_page s pid copypid i j o;
      copy_entries n' s pid copypid i (j + 1) o
  end.

(** The subtables from [i] on; [false] when there is no memory for one, and then the
    locks are not held. *)
Fixpoint copy_subtables (n : nat) (s : vm) (pid copypid i : Z) (o : script) : res (bool * vm * script) :=
  match n with
  | O => Ret (true, s, o)
  | S n' =>
      a ← get_as s pid;
      b ← bitmap_isset a.(as_pages).(pt_valids) i;
      if negb b then copy_subtables n' s pid copypid (i + 1) o else
      '(subtable, o) ← pagetable_create_subtable o;
      match subtable with
      | None =>
          s ← unlock_pages s copypid;
          s ← unlock_pages s pid;
          Ret (false, s, o)
      | Some subtable =>
          c ← get_as s copypid;
          valids ← bitmap_mark c.(as_pages).(pt_valids) i;
          t ← set_subtable (Pagetable valids c.(as_pages).(pt_ptr) c.(as_pages).(pt_locked)) i subtable;
          '(s, o) ← copy_entries 1024 (put_as s copypid (set_pages c t)) pid copypid i 0 o;
          copy_subtables n' s pid copypid (i + 1) o
      end
  end.

Definition pagetable_copy (s : vm) (pid copypid : Z) (o : script) : res (bool * vm * script) :=
  s ← lock_pages s copypid;
  s ← lock_pages s pid;
  '(ok, s, o) ← copy_subtables 1024 s pid copypid 0 o;
  if negb ok then Ret (false, s, o) else
  s ← unlock_pages s pid;
  s ← unlock_pages s copypid;
  Ret (true, s, o).

(** ** Destroying a table *)

(** The page of entry [(i, j)] given back; 1 when somebody is evicting it and will do
    the rest. *)
Definition free_page (s : vm) (pid i j : Z) : res (Z * vm) :=
  entry ← entry_of s pid (i, j);
  if negb (Z.land (if entry.(pe_flags) =? 0 then 1 else 0) PAGETABLE_VALID =? 0) then Ret (0, s) else
  let invalid e := set_flags e (clear_flag e.(pe_flags) PAGETABLE_VALID) in
  if has_flag entry.(pe_flags) PAGETABLE_INMEM then
    '(locked, s) ← coremap_lock_acquire s (paddr_of entry);
    if (locked : bool) then
      s ← coremap_free_page s (paddr_of entry);
      s ← free_slot s entry.(pe_swap);
      s ← change_entry s pid (i, j) invalid;
      Ret (0, s)
    else
      s ← change_entry s pid (i, j) (λ e, set_flags e (Z.lor e.(pe_flags) (Z.lor PAGETABLE_REQUEST_FREE PAGETABLE_REQUEST_DESTROY)));
      Ret (1, s)
  else
    s ← free_slot s entry.(pe_swap);
    s ← change_entry s pid (i, j) invalid;
    Ret (0, s).

Fixpoint free_entries (n : nat) (s : vm) (pid i j ref : Z) : res (Z * vm) :=
  match n with
  | O => Ret (ref, s)
  | S n' =>
      st ← subtable_of s pid i;
      b ← bitmap_isset st.(st_valids) j;
      if negb b then free_entries n' s pid i (j + 1) ref else
      '(r, s) ← free_page s pid i j;
      free_entries n' s pid i (j + 1) (ref + r)
  end.

Fixpoint free_subtables (n : nat) (s : vm) (pid i ref : Z) : res (Z * vm) :=
  match n with
  | O => Ret (ref, s)
  | S n' =>
      a ← get_as s pid;
      b ← bitmap_isset a.(as_pages).(pt_valids) i;
      if negb b then free_subtables n' s pid (i + 1) ref else
      '(ref, s) ← free_entries 1024 s pid i 0 ref;
      free_subtables n' s pid (i + 1) ref
  end.

Definition pagetable_free_all (s : vm) (pid : Z) : res (Z * vm) :=
  s ← lock_pages s pid;
  '(ref, s) ← free_subtables 1024 s pid 0 0;
  s ← unlock_pages s pid;
  Ret (ref, s).

(** ** Address spaces *)

(** [loading] is not set: [junk] is what the memory held.  An address space without a
    page table cannot be used, and nobody looks. *)
Definition as_create (pid : Z) (junk : bool) (o : script) : res (option addrspace * script) :=
  let '(ok, o) := kmalloc o in
  if negb ok then Ret (None, o) else
  '(pages, o) ← pagetable_create o;
  let '(_, o) := lock_create o in
  let '(_, o) := cv_create o in
  pages ← deref pages;
  Ret (Some (Addrspace pages pid false 0 junk 0 0 (2 ^ 32 - 1)), o).

(** The count is waited for: somebody else has to lower it.  The address space itself
    and its lock are not freed. *)
Definition as_destroy (s : vm) (pid : Z) : res vm :=
  a ← get_as s pid;
  let s := put_as s pid (Addrspace a.(as_pages) a.(as_pid) true 0 a.(as_loading) a.(as_heap_end) a.(as_heap_start) a.(as_stack_base)) in
  '(count, s) ← pagetable_free_all s pid;
  a ← get_as s pid;
  if 0 <? a.(as_destroy_count) + count then Diverge else
  s ← lock_pages s pid;
  Ret (set_procs s (delete pid s.(procs))).

(** [proc->p_addrspace], when there is one, is destroyed but not cleared, and the loop
    goes round with it. *)
Definition as_copy (s : vm) (oldpid newpid : Z) (junk : bool) (o : script) : res (Z * vm * script) :=
  '(newas, o) ← as_create newpid junk o;
  match newas with
  | None => Ret (ENOMEM, s, o)
  | Some newas =>
      old ← get_as s oldpid;
      _ ← kassert (negb old.(as_destroying));
      p ← deref (s.(procs) !! newpid);
      if bool_decide (is_Some p) then
        _ ← as_destroy s newpid;
        Undef
      else
      '(success, s, o) ← pagetable_copy (put_as s newpid newas) oldpid newpid o;
      if negb success then
        s ← as_destroy s newpid;
        Ret (ENOMEM, s, o)
      else
      old ← get_as s oldpid;
      newas ← get_as s newpid;
      Ret (0, put_as s newpid (set_stack_base (set_heap newas old.(as_heap_start) old.(as_heap_end)) old.(as_stack_base)), o)
  end.

(** ** Moving pages *)

(** What moving a page needs of the machine. *)
Record machine (s : vm) : Prop := Machine {
  mc_core : cm_ok s;
  mc_base : s.(base) mod 4096 = 0;
  mc_swap : swap_ok s.(vm_swap) ∧ s.(vm_swap).(page_size) = 4096;
  mc_ram : mem_ok s.(ram)
}.

Lemma swapped_bytes w b : swap_ok w → Forall (λ x, 0 ≤ x < 256) (swapped w b).
Proof.
  intros [_ _ _ Hd _]. unfold swapped. apply Forall_concat, Forall_take, Forall_drop. eapply Forall_impl; [exact Hd|]. by intros x [_ ?].
Qed.

Lemma mem_ok_with m a xs : mem_ok m → Forall (λ x, 0 ≤ x < 256) xs → mem_ok (with_bytes m a xs).
Proof.
  intros Hm Hxs k x. rewrite with_bytes_lookup. case_decide; [|apply Hm]. intros Hx. by eapply Forall_lookup_1 in Hxs.
Qed.

(** The addresses of a frame, as [paddr_t] arithmetic computes them. *)
Lemma frame_paddr s idx : cm_ok s → s.(base) mod 4096 = 0 → 0 ≤ idx < coremap_length s →
  u32 (Z.shiftl (Z.shiftr (s.(base) + 4096 * idx) 12) 12) = s.(base) + 4096 * idx.
Proof.
  intros [Hb _ _ _ _ _] Hmod Hi. rewrite Z.shiftr_div_pow2, Z.shiftl_mul_pow2 by lia. rewrite u32_id; zdiv_lia.
Qed.

Lemma frame_kvaddr s idx : cm_ok s → 0 ≤ idx < coremap_length s → PADDR_TO_KVADDR (s.(base) + 4096 * idx) = frame_addr s idx.
Proof. intros Hcm Hi. rewrite <-(untranslate_eq s idx Hcm) by lia. apply kvaddr_eq; [done|lia]. Qed.

Lemma page_out_step s idx b : machine s → 0 ≤ idx < coremap_length s → 0 ≤ b < s.(vm_swap).(swap_freelist).(b_nbits) →
  ∃ w, page_out s (s.(base) + 4096 * idx) b = Ret (set_swap s w) ∧ machine (set_swap s w) ∧
    w.(swap_freelist) = s.(vm_swap).(swap_freelist) ∧ swapped w b = frame s idx ∧
    ∀ b', 0 ≤ b' → b' ≠ b → swapped w b' = swapped s.(vm_swap) b'.
Proof.
  intros [Hcm Hmod [Hsw Hps] Hmem] Hi Hb. unfold page_out. rewrite frame_kvaddr by done.
  destruct (page_out_correct s.(ram) s.(vm_swap) (frame_addr s idx) b Hsw Hb) as (w & -> & Hw & Hfl & Hpw & Hsd & Hoth);
    [|rewrite Hps; by apply frame_mapped|done|].
  { unfold frame_addr, MIPS_KSEG0. destruct (cm_base s Hcm). lia. }
  rewrite ret_bind. exists w. split; [by destruct s|]. split_and!; [|done|by rewrite Hsd, Hps|done].
  constructor; [|done|split; [done|exact (eq_trans Hpw Hps)]|done]. apply (cm_ok_ext s); try done; apply Hcm.
Qed.

(** A frame none of whose bytes has changed. *)
Lemma frame_ext s s' idx : s'.(base) = s.(base) →
  (∀ k, frame_addr s idx ≤ k < frame_addr s idx + 4096 → s'.(ram) !! k = s.(ram) !! k) → frame s' idx = frame s idx.
Proof.
  intros Eb H. unfold frame, gather. replace (frame_addr s' idx) with (frame_addr s idx) by (unfold frame_addr; by rewrite Eb).
  apply list_fmap_ext. intros i k Hk. apply lookup_seqZ in Hk as [-> Hk]. by rewrite H by lia.
Qed.

Lemma frame_disjoint s idx idx' k : idx ≠ idx' → frame_addr s idx ≤ k < frame_addr s idx + 4096 →
  ¬ (frame_addr s idx' ≤ k < frame_addr s idx' + 4096).
Proof. unfold frame_addr. lia. Qed.

Lemma set_swap_same s : set_swap s s.(vm_swap) = s.
Proof. by destruct s. Qed.

Lemma page_in_step s idx b : machine s → 0 ≤ idx < coremap_length s → 0 ≤ b < s.(vm_swap).(swap_freelist).(b_nbits) →
  ∃ m, page_in s (s.(base) + 4096 * idx) b = Ret (set_ram s m) ∧ machine (set_ram s m) ∧
    frame (set_ram s m) idx = swapped s.(vm_swap) b ∧ ∀ i, i ≠ idx → frame (set_ram s m) i = frame s i.
Proof.
  intros [Hcm Hmod [Hsw Hps] Hmem] Hi Hb. unfold page_in. rewrite frame_kvaddr by done.
  rewrite (page_in_correct s.(ram) s.(vm_swap) (frame_addr s idx) b);
    [|done|done|unfold frame_addr, MIPS_KSEG0; destruct (cm_base s Hcm); lia|rewrite Hps; by apply frame_mapped].
  rewrite ret_bind, Hps. pose proof (swapped_length _ _ Hsw Hb) as Hsl. rewrite Hps in Hsl.
  destruct (frame_read s idx (swapped s.(vm_swap) b) ltac:(lia)) as [Hfr Hrest].
  pose proof (mem_ok_with s.(ram) (frame_addr s idx) _ Hmem (swapped_bytes s.(vm_swap) b Hsw)) as Hmem'.
  rewrite <-pour_seqZ, Hsl in Hmem'. pose proof (λ k, pour_mapped s.(ram) (seqZ (frame_addr s idx) 4096) (swapped s.(vm_swap) b) k) as Hpm.
  revert Hfr Hrest Hmem' Hpm. generalize (pour s.(ram) (seqZ (frame_addr s idx) 4096) (swapped s.(vm_swap) b)). intros m Hfr Hrest Hmem' Hpm.
  exists m. split; [exact (f_equal Ret (set_swap_same (set_ram s m)))|]. split_and!.
  - constructor; [|exact Hmod|exact (conj Hsw Hps)|exact Hmem']. destruct Hcm as [H1 H2 H3 H4 H5 H6].
    constructor; [exact H1|exact H2|exact H3| |exact H5|exact H6]. intros k Hk. apply Hpm. by apply H4.
  - exact Hfr.
  - intros i Hne. apply frame_ext; [done|]. intros k Hk. apply Hrest. by apply (frame_disjoint s i).
Qed.

(** A frame taken from the free ones. *)
Lemma allocate_step s pid vaddr : machine s → has_room s →
  ∃ idx s', coremap_allocate_page s false pid 1 vaddr = Ret (s.(base) + 4096 * idx, s') ∧ machine s' ∧
    allocated s false pid 1 vaddr idx s' ∧ ∀ i, i ≠ idx → frame s' i = frame s i.
Proof.
  intros [Hcm Hmod Hsw Hmem] [Hrun _]. destruct (allocate_free s false pid 1 vaddr Hcm ltac:(lia) Hrun) as (idx & s' & Hal & Ha).
  exists idx, s'. split; [done|]. pose proof (allocated_ok _ _ _ _ _ _ _ Hcm Ha) as Hcm'.
  pose proof Ha as [_ _ _ _ _ Hram (Eb & _ & Es & _)]. split_and!; [|done|].
  - constructor; [done|congruence|by rewrite Es|]. intros k x. rewrite Hram. case_decide; [intros [= <-]; lia|apply Hmem].
  - intros i Hne. apply frame_ext; [done|]. intros k Hk. rewrite Hram. rewrite decide_False; [done|]. by apply (frame_disjoint s i).
Qed.

Lemma put_entry_correct s pid a p e : s.(procs) !! pid = Some (Some a) → pt_ok a.(as_pages) → 0 ≤ p < 2 ^ 20 →
  bit a.(as_pages).(pt_valids) (p / 1024) = true → view a.(as_pages) p = None →
  ∃ t, put_entry s pid (p / 1024) (p mod 1024) e = Ret (put_as s pid (set_pages a t)) ∧ pt_ok t ∧
    t.(pt_locked) = a.(as_pages).(pt_locked) ∧ t.(pt_valids) = a.(as_pages).(pt_valids) ∧
    ∀ q, 0 ≤ q → view t q = if q =? p then Some e else view a.(as_pages) q.
Proof.
  intros Hproc Ht Hp Hb Hnone. unfold put_entry. rewrite (get_as_correct s pid a Hproc). cbn [mbind res_bind].
  destruct (page_index p Hp) as [Hi Hj]. destruct (get_subtable_correct _ _ Ht Hi Hb) as (st & -> & Hst & Hl & Hview). cbn [mbind res_bind].
  assert (bit st.(st_valids) (p mod 1024) = false) as Hb2.
  { destruct (bit st.(st_valids) (p mod 1024)) eqn:Hb2; [|done]. destruct (sl_used _ _ _ Hst _ Hj Hb2) as (x & Hx & _).
    rewrite (Hview p eq_refl) in Hnone. unfold sub_view in Hnone. by rewrite Hb2, Hx in Hnone. }
  pose proof (mark_correct st.(st_valids) (p mod 1024) (sl_map _ _ _ Hst)) as Hm. rewrite (sl_bits _ _ _ Hst), Hb2 in Hm.
  destruct (Hm Hj) as (v' & -> & Hu). cbn [mbind res_bind]. rewrite wr_in_range by (rewrite (sl_length _ _ _ Hst); lia). cbn [mbind res_bind].
  rewrite set_subtable_correct by done. cbn [mbind res_bind].
  destruct (sub_put st (p mod 1024) v' e Hst Hj Hu) as [Hst' Hview'].
  assert (bit_is a.(as_pages).(pt_valids) (p / 1024) true a.(as_pages).(pt_valids)) as Hbi by (rewrite <-Hb; apply bit_is_same, Ht).
  destruct (view_put _ p st _ _ a.(as_pages).(pt_locked) (Some e) Ht Hp Hbi Hst' (λ q _, Hview q) Hview') as [Hok Hview2].
  eexists. split; [done|]. by split_and!.
Qed.

(** Every permission is given to the copy, whatever the original has. *)
Lemma copy_flags_all old : 0 ≤ old → copy_flags old = 115.
Proof.
  intros Ho. unfold copy_flags, copy_flag. assert (∀ f, 0 < f → (Z.lor old f =? 0) = false) as H.
  { intros f Hf. apply Z.eqb_neq. intros [_ H0]%Z.lor_eq_0_iff. lia. }
  by rewrite !H by done.
Qed.

(** What the slot of the page with entry [e] holds once it has been brought up to date as [pagetable_copy] does it. *)
Definition flushed (s : vm) (e : pagetable_entry) : list Z :=
  if has_flag e.(pe_flags) PAGETABLE_DIRTY then frame s ((paddr_of e - s.(base)) / 4096) else swapped s.(vm_swap) e.(pe_swap).

(** What the page with entry [e] holds: it is in its frame while it is in memory, else in its slot. *)
Definition contents (s : vm) (e : pagetable_entry) : list Z :=
  if has_flag e.(pe_flags) PAGETABLE_INMEM then frame s ((paddr_of e - s.(base)) / 4096) else swapped s.(vm_swap) e.(pe_swap).

(** A page in memory is either dirty or in its slot too. *)
Definition saved (s : vm) (e : pagetable_entry) : Prop :=
  if has_flag e.(pe_flags) PAGETABLE_DIRTY then has_flag e.(pe_flags) PAGETABLE_INMEM = true
  else has_flag e.(pe_flags) PAGETABLE_INMEM = true → swapped s.(vm_swap) e.(pe_swap) = frame s ((paddr_of e - s.(base)) / 4096).

Lemma saved_flushed s e : saved s e → flushed s e = contents s e.
Proof.
  unfold saved, flushed, contents. destruct (has_flag e.(pe_flags) PAGETABLE_DIRTY); [by intros ->|].
  destruct (has_flag e.(pe_flags) PAGETABLE_INMEM); auto.
Qed.

(** The page of [e] is where the entry says. *)
Record stored (s : vm) (e : pagetable_entry) : Prop := Stored {
  sd_slot : 0 ≤ e.(pe_swap) < s.(vm_swap).(swap_freelist).(b_nbits) ∧ bit s.(vm_swap).(swap_freelist) e.(pe_swap) = true;
  sd_flags : 0 ≤ e.(pe_flags) < 256;
  sd_frame : has_flag e.(pe_flags) PAGETABLE_DIRTY = true → ∃ idx, 0 ≤ idx < coremap_length s ∧
    paddr_of e = s.(base) + 4096 * idx ∧ bit s.(coremap_free) idx = true
}.

(** [s'] is [s] after page [p] with entry [e] has been copied to frame [idx] and slot
    [b] for process [cpid] with address space [c]. *)
Record page_copied (s : vm) (cpid : Z) (c : addrspace) (p : Z) (e : pagetable_entry) (idx b : Z) (t : pagetable) (s' : vm) : Prop := PageCopied {
  pc_machine : machine s';
  pc_frame : 0 ≤ idx < coremap_length s ∧ bit s.(coremap_free) idx = false ∧ filled s.(coremap_free) idx 1 true s'.(coremap_free);
  pc_slot : 0 ≤ b < s.(vm_swap).(swap_freelist).(b_nbits) ∧ bit s.(vm_swap).(swap_freelist) b = false ∧
    updated s.(vm_swap).(swap_freelist) b true s'.(vm_swap).(swap_freelist);
  pc_table : pt_ok t ∧ t.(pt_locked) = c.(as_pages).(pt_locked) ∧ t.(pt_valids) = c.(as_pages).(pt_valids);
  pc_view q : 0 ≤ q → view t q = if q =? p then Some (Entry ((s.(base) + 4096 * idx) / 4096) b 115) else view c.(as_pages) q;
  pc_procs : s'.(procs) = <[cpid := Some (set_pages c t)]> s.(procs);
  pc_bytes : frame s' idx = flushed s e ∧ swapped s'.(vm_swap) b = flushed s e;
  pc_frames i : i ≠ idx → frame s' i = frame s i;
  pc_slots b' : 0 ≤ b' → b' ≠ b → b' ≠ e.(pe_swap) → swapped s'.(vm_swap) b' = swapped s.(vm_swap) b';
  pc_rest : s'.(base) = s.(base) ∧ coremap_length s' = coremap_length s
}.

Definition has_slot (s : vm) : Prop :=
  ∃ i, 0 ≤ i < s.(vm_swap).(swap_freelist).(b_nbits) ∧ bit s.(vm_swap).(swap_freelist) i = false.

(** The slot of the page brought up to date. *)
Lemma flush_step s e : machine s → stored s e →
  ∃ s1, (if has_flag e.(pe_flags) PAGETABLE_DIRTY then page_out s (paddr_of e) e.(pe_swap) else Ret s) = Ret s1 ∧ machine s1 ∧
    s1.(vm_swap).(swap_freelist) = s.(vm_swap).(swap_freelist) ∧ swapped s1.(vm_swap) e.(pe_swap) = flushed s e ∧
    (∀ b', 0 ≤ b' → b' ≠ e.(pe_swap) → swapped s1.(vm_swap) b' = swapped s.(vm_swap) b') ∧ s1 = set_swap s s1.(vm_swap).
Proof.
  intros Hm [[Hb _] Hfl Hfr]. unfold flushed. destruct (has_flag e.(pe_flags) PAGETABLE_DIRTY); [|exists s; by destruct s].
  destruct Hfr as (idx & Hi & Hpa & _); [done|]. rewrite Hpa.
  destruct (page_out_step s idx e.(pe_swap) Hm Hi Hb) as (w & -> & Hm' & Hf & Hs & Ho). exists (set_swap s w). split_and!; try done.
  cbn [set_swap vm_swap]. rewrite Hs. f_equal. zdiv_lia.
Qed.

(** The second half: the page in frame [idx] saved to a new slot and entered in the
    table. *)
Lemma save_step {A} s idx cpid c p fl (k : vm → res A) : machine s → 0 ≤ idx < coremap_length s → has_slot s → s.(procs) !! cpid = Some (Some c) →
  pt_ok c.(as_pages) → 0 ≤ p < 2 ^ 20 → bit c.(as_pages).(pt_valids) (p / 1024) = true → view c.(as_pages) p = None →
  ∃ b w t f, let s' := put_as (set_swap s w) cpid (set_pages c t) in
    ('(err, block, w) ← swap_allocate s.(vm_swap);
     if negb (err =? 0) then Undef else
     s1 ← page_out (set_swap s w) (s.(base) + 4096 * idx) block;
     s2 ← put_entry s1 cpid (p / 1024) (p mod 1024) (Entry (Z.shiftr (s.(base) + 4096 * idx) 12) block fl);
     s3 ← coremap_lock_release s2 (s.(base) + 4096 * idx);
     k s3) = k (set_maps s' s.(coremap_free) f) ∧
    filled s.(coremap_swappable) idx 1 false f ∧
    (swap_ok w ∧ w.(page_size) = 4096) ∧ 0 ≤ b < s.(vm_swap).(swap_freelist).(b_nbits) ∧ bit s.(vm_swap).(swap_freelist) b = false ∧
    updated s.(vm_swap).(swap_freelist) b true w.(swap_freelist) ∧ swapped w b = frame s idx ∧
    (∀ b', 0 ≤ b' → b' ≠ b → swapped w b' = swapped s.(vm_swap) b') ∧
    (pt_ok t ∧ t.(pt_locked) = c.(as_pages).(pt_locked) ∧ t.(pt_valids) = c.(as_pages).(pt_valids)) ∧
    ∀ q, 0 ≤ q → view t q = if q =? p then Some (Entry ((s.(base) + 4096 * idx) / 4096) b fl) else view c.(as_pages) q.
Proof.
  intros Hm Hi (i & Hir & Hib) Hpc Htc Hp Hbc Hnone. pose proof Hm as [Hcm Hmod [Hsw Hps] Hmem].
  pose proof (swap_allocate_correct _ Hsw) as Hal. destruct (swap_allocate s.(vm_swap)) as [[[err b] w1]| | |]; try done. rewrite ret_bind.
  destruct Hal as (Hw1 & Hsp & Hps1 & [(-> & Hb & Hbit & Hup)|(_ & _ & Hfull)]); [|by rewrite Hfull in Hib].
  change (negb (0 =? 0)) with false. cbv iota. assert (machine (set_swap s w1)) as Hm1.
  { constructor; [|done|split; [done|exact (eq_trans Hps1 Hps)]|done]. apply (cm_ok_ext s); try done; apply Hcm. }
  destruct (page_out_step (set_swap s w1) idx b Hm1 Hi) as (w & Hout & [_ _ Hw _] & Hfl & Hsd & Hoth).
  { change (0 ≤ b < w1.(swap_freelist).(b_nbits)). by destruct Hup as (_ & -> & _). }
  change (base (set_swap s w1)) with s.(base) in Hout. rewrite Hout, ret_bind.
  change (set_swap (set_swap s w1) w) with (set_swap s w) in *.
  destruct (put_entry_correct (set_swap s w) cpid c p (Entry (Z.shiftr (s.(base) + 4096 * idx) 12) b fl) Hpc Htc Hp Hbc Hnone)
    as (t & -> & Ht & Hl & Hv & Hview). rewrite ret_bind.
  destruct (lock_release_later s (put_as (set_swap s w) cpid (set_pages c t)) idx Hcm Hi eq_refl) as (f & Hrel & Hf); [apply Hcm..|].
  rewrite Hrel, ret_bind.
  change (vm_swap (set_swap s w1)) with w1 in Hfl, Hoth. change (vm_swap (set_swap s w)) with w in Hw.
  assert (∀ b', swapped w1 b' = swapped s.(vm_swap) b') as Hsame by (intros b'; unfold swapped, per_page; by rewrite Hsp, Hps1).
  exists b, w, t, f. cbv zeta. split; [done|]. split; [exact Hf|]. split; [exact Hw|]. split; [exact Hb|]. split; [exact Hbit|].
  split; [by rewrite Hfl|]. split; [exact Hsd|]. split; [intros b' H0 Hne; by rewrite Hoth, Hsame|]. split; [done|].
  intros q Hq. rewrite Hview by done. by rewrite Z.shiftr_div_pow2 by lia.
Qed.

Lemma kmalloc_all o : false ∉ o → ∃ o', kmalloc o = (true, o') ∧ false ∉ o'.
Proof.
  intros Ho. destruct o as [|x o]; [by eexists|]. apply not_elem_of_cons in Ho as [? ?]. exists o. by destruct x.
Qed.

(** A page copied. *)
Lemma copy_page_correct s pid cpid a c p e o : machine s → has_room s → pid ≠ cpid → s.(procs) !! pid = Some (Some a) → pt_ok a.(as_pages) →
  s.(procs) !! cpid = Some (Some c) → pt_ok c.(as_pages) → 0 ≤ p < 2 ^ 20 → view a.(as_pages) p = Some e → stored s e →
  bit c.(as_pages).(pt_valids) (p / 1024) = true → view c.(as_pages) p = None → false ∉ o →
  ∃ idx b t s' o', copy_page s pid cpid (p / 1024) (p mod 1024) o = Ret (s', o') ∧ false ∉ o' ∧ page_copied s cpid c p e idx b t s'.
Proof.
  intros Hm Hroom Hne Hpa Hta Hpc Htc Hp He Hst Hbc Hnone Ho. unfold copy_page.
  assert (∀ s', s'.(procs) = s.(procs) → entry_of s' pid (p / 1024, p mod 1024) = Ret e) as Hent.
  { intros s' E. unfold entry_of. rewrite (get_as_correct s' pid a) by (by rewrite E). rewrite ret_bind. by apply get_entry_correct. }
  rewrite Hent, ret_bind by done. destruct (kmalloc_all o Ho) as (o' & -> & Ho').
  cbn [negb]. destruct (flush_step s e Hm Hst) as (s1 & -> & Hm1 & Hfl1 & Hsl1 & Hoth1 & Hs1). rewrite ret_bind.
  assert (s1.(base) = s.(base) ∧ s1.(procs) = s.(procs) ∧ s1.(coremap_free) = s.(coremap_free) ∧ coremap_length s1 = coremap_length s ∧
    s1.(coremap_swappable) = s.(coremap_swappable) ∧ s1.(ram) = s.(ram) ∧ s1.(coremap) = s.(coremap)) as (Eb1 & Ep1 & Ef1 & El1 & Ew1 & Er1 & Ec1) by (by rewrite Hs1).
  destruct (allocate_step s1 cpid (u32 (Z.lor (Z.shiftl (p / 1024) 22) (Z.shiftl (p mod 1024) 12))) Hm1) as (idx & s2 & -> & Hm2 & Hal & Hfr2).
  { unfold has_room. rewrite Ef1, El1, Hfl1. exact Hroom. }
  rewrite ret_bind. pose proof (allocated_length _ _ _ _ _ _ _ Hal) as El2. destruct Hal as [(Hi0 & Hi1 & Hcl & _) Hf2 Hw2 _ _ _ (Eb2 & _ & Es2 & Ep2 & _)].
  rewrite El1 in Hi1, El2. rewrite (Hent s2) by congruence. rewrite ret_bind.
  rewrite (frame_paddr s1 idx (mc_core _ Hm1) (mc_base _ Hm1)) by lia. rewrite <-Eb2.
  destruct Hst as [[Hslot Hmk] Hflags _].
  destruct (page_in_step s2 idx e.(pe_swap) Hm2) as (m & -> & Hm3 & Hfr3 & Hoth3); [lia|by rewrite Es2, Hfl1|]. rewrite ret_bind.
  rewrite Es2, Hsl1 in Hfr3. set (s3 := set_ram s2 m) in *. change (base s2) with s3.(base).
  assert (s3.(vm_swap) = s1.(vm_swap) ∧ s3.(procs) = s.(procs) ∧ s3.(base) = s.(base)) as (Es3 & Ep3 & Eb3)
    by (split_and!; [exact Es2|exact (eq_trans Ep2 Ep1)|exact (eq_trans Eb2 Eb1)]).
  assert (0 ≤ idx < coremap_length s3) as Hi3 by (change (coremap_length s3) with (coremap_length s2); lia).
  destruct (save_step s3 idx cpid c p (copy_flags e.(pe_flags)) (λ s, Ret (s, o')) Hm3 Hi3)
    as (b & w & t & f & Hsave & Hf & Hw & Hb & Hbit & Hup & Hsd & Hoth & Ht & Hview); [|by rewrite Ep3|done|done|done|done|].
  { unfold has_slot. rewrite Es3, Hfl1. apply Hroom. }
  rewrite Es3, Hfl1 in Hb, Hbit, Hup. rewrite copy_flags_all, Eb3 in Hview by lia. rewrite Es3 in Hoth. cbv zeta in Hsave.
  exists idx, b, t. eexists _, o'. split; [exact Hsave|]. split; [exact Ho'|]. clear Hsave.
  assert (f = s.(coremap_swappable)) as ->.
  { rewrite Ew1 in Hw2. rewrite Ef1 in Hcl. apply (filled_back s.(coremap_swappable) idx 1 true false s2.(coremap_swappable) f); [apply Hm|exact Hw2|exact Hf|].
    intros k Hk0 Hki. destruct (lookup_lt_is_Some_2 s.(coremap) (Z.to_nat k)) as [ce Hce]; [unfold coremap_length in Hi1; lia|].
    destruct (cm_unused s (mc_core _ Hm) _ _ Hce) as [_ H]; rewrite Z2Nat.id in * by lia; [by apply Hcl|exact H]. }
  rewrite Ef1 in Hcl, Hf2. constructor.
  - destruct Hm3 as [Hcm3 Hmod3 _ Hmem3]. constructor; [|exact Hmod3|exact Hw|exact Hmem3].
    apply (cm_ok_ext s3); [exact Hcm3|reflexivity|reflexivity|reflexivity|reflexivity|apply Hm| |].
    + destruct Hw2 as (_ & Hn & _). rewrite Ew1 in Hn. exact (eq_sym Hn).
    + intros k Hk0. destruct Hw2 as (_ & _ & Hwb). change (coremap_swappable s3) with s2.(coremap_swappable). rewrite Hwb, Ew1 by done.
      case_decide; [discriminate|]. intros Hx; exact Hx.
  - split; [lia|]. split; [apply Hcl; lia|exact Hf2].
  - split; [exact Hb|]. split; [exact Hbit|exact Hup].
  - exact Ht.
  - exact Hview.
  - cbn [set_maps put_as set_procs procs set_swap]. by rewrite Ep3.
  - split; [exact Hfr3|]. rewrite <-Hfr3. exact Hsd.
  - intros i Hii. refine (eq_trans (Hoth3 i Hii) (eq_trans (Hfr2 i Hii) _)). by rewrite Hs1.
  - intros b' H0 Hb1 Hb2. exact (eq_trans (Hoth b' H0 Hb1) (Hoth1 b' H0 Hb2)).
  - split; [exact Eb3|exact El2].
Qed.

(** A bit that is set stays set, and is not the one taken. *)
Lemma page_copied_keeps s cpid c p e idx b t s' : page_copied s cpid c p e idx b t s' →
  (∀ i, 0 ≤ i → bit s.(coremap_free) i = true → bit s'.(coremap_free) i = true ∧ i ≠ idx) ∧
  (∀ i, 0 ≤ i → bit s.(vm_swap).(swap_freelist) i = true → bit s'.(vm_swap).(swap_freelist) i = true ∧ i ≠ b).
Proof.
  intros [_ (_ & Hif & _ & _ & Hfb) (_ & Hbf & _ & _ & Hsb) _ _ _ _ _ _ _]. split; intros i H0 Hbi.
  - rewrite Hfb by done. split; [by case_decide|congruence].
  - rewrite Hsb by done. split; [by case_cmp|congruence].
Qed.

Lemma page_copied_room s cpid c p e idx b t s' n : page_copied s cpid c p e idx b t s' → room s n → room s' (n - 1).
Proof.
  intros [_ (Hi & Hbit & Hf) (Hb & Hbit' & Hu) _ _ _ _ _ _ (_ & Hlen)] [Hr1 Hr2]. apply filled_updated in Hu as Hu'. destruct Hu as (_ & Hn & _).
  unfold room. rewrite Hlen, Hn. pose proof (n_clear_fill _ _ _ _ Hf Hi Hbit). pose proof (n_clear_fill _ _ _ _ Hu' Hb Hbit'). lia.
Qed.

(** ** Copying every page *)

Definition is_valid (e : pagetable_entry) : bool := has_flag e.(pe_flags) PAGETABLE_VALID.

Definition page_valid (t : pagetable) (q : Z) : bool :=
  match view t q with Some e => is_valid e | None => false end.

(** How many valid pages there are from [q] on. *)
Definition pages_from (t : pagetable) (q : Z) : Z :=
  Z.of_nat (length (filter (λ x, page_valid t x = true) (seqZ q (2 ^ 20 - q)))).

Lemma pages_from_step t q : q < 2 ^ 20 → pages_from t q = (if page_valid t q then 1 else 0) + pages_from t (q + 1).
Proof.
  intros Hq. unfold pages_from. rewrite (seqZ_cons q) by lia. rewrite filter_cons.
  replace (Z.succ q) with (q + 1) by lia. replace (Z.pred (2 ^ 20 - q)) with (2 ^ 20 - (q + 1)) by lia.
  destruct (page_valid t q); [rewrite decide_True by done|rewrite decide_False by done]; cbn [length]; lia.
Qed.

Lemma pages_from_locked t b q : pages_from (set_locked t b) q = pages_from t q.
Proof.
  unfold pages_from. do 2 f_equal.
Qed.

Section Copy.
Context (s0 : vm) (pid cpid : Z) (a c : addrspace).
Hypothesis Hpids : pid ≠ cpid.
Hypothesis Hta : pt_ok a.(as_pages).
Hypothesis Hstored : ∀ q e, 0 ≤ q < 2 ^ 20 → view a.(as_pages) q = Some e → is_valid e = true → stored s0 e.
Hypothesis Hslots : ∀ q q' e e', 0 ≤ q < 2 ^ 20 → 0 ≤ q' < 2 ^ 20 → view a.(as_pages) q = Some e → view a.(as_pages) q' = Some e' →
  is_valid e = true → is_valid e' = true → e.(pe_swap) = e'.(pe_swap) → q = q'.

(** Page [q] has been copied to frame [i] and slot [b]. *)
Record copy_of (q i b : Z) (s : vm) (t : pagetable) : Prop := CopyOf {
  co_frame : 0 ≤ i < coremap_length s0 ∧ bit s0.(coremap_free) i = false ∧ bit s.(coremap_free) i = true;
  co_slot : 0 ≤ b < s0.(vm_swap).(swap_freelist).(b_nbits) ∧ bit s0.(vm_swap).(swap_freelist) b = false ∧
    bit s.(vm_swap).(swap_freelist) b = true;
  co_view : view t q = Some (Entry ((s0.(base) + 4096 * i) / 4096) b 115);
  co_bytes : ∃ e, view a.(as_pages) q = Some e ∧ frame s i = flushed s0 e ∧ swapped s.(vm_swap) b = flushed s0 e
}.

(** The copy has got to page [p]: page [q] is in frame [f q] and slot [g q]. *)
Record copying (p : Z) (s : vm) (t : pagetable) (f g : Z → Z) : Prop := Copying {
  cy_machine : machine s;
  cy_procs : s.(procs) !! pid = Some (Some a) ∧ s.(procs) !! cpid = Some (Some (set_pages c t));
  cy_table : pt_ok t ∧ t.(pt_locked) = true;
  cy_done q : 0 ≤ q < p → if page_valid a.(as_pages) q then copy_of q (f q) (g q) s t else view t q = None;
  cy_todo q : p ≤ q < 2 ^ 20 → view t q = None;
  cy_distinct q q' : 0 ≤ q < p → 0 ≤ q' < p → page_valid a.(as_pages) q = true → page_valid a.(as_pages) q' = true →
    f q = f q' ∨ g q = g q' → q = q';
  cy_frames i : 0 ≤ i < coremap_length s0 → bit s0.(coremap_free) i = true → bit s.(coremap_free) i = true ∧ frame s i = frame s0 i;
  cy_marked b : 0 ≤ b → bit s0.(vm_swap).(swap_freelist) b = true → bit s.(vm_swap).(swap_freelist) b = true;
  cy_pending q e : p ≤ q < 2 ^ 20 → view a.(as_pages) q = Some e → is_valid e = true →
    swapped s.(vm_swap) e.(pe_swap) = swapped s0.(vm_swap) e.(pe_swap);
  cy_room : room s (pages_from a.(as_pages) p);
  cy_rest : s.(base) = s0.(base) ∧ coremap_length s = coremap_length s0 ∧
    s.(vm_swap).(swap_freelist).(b_nbits) = s0.(vm_swap).(swap_freelist).(b_nbits)
}.

(** A page that is not valid is passed over. *)
Lemma copying_skip p s t f g : 0 ≤ p < 2 ^ 20 → copying p s t f g → page_valid a.(as_pages) p = false → copying (p + 1) s t f g.
Proof.
  intros Hp [Hm Hpr Ht Hdone Htodo Hdist Hfr Hmk Hpend Hroom Hrest] Hinv. constructor; try assumption.
  - intros q Hq. destruct (decide (q = p)) as [->|]; [rewrite Hinv; apply Htodo; lia|apply Hdone; lia].
  - intros q Hq. apply Htodo. lia.
  - intros q q' Hq Hq' Hv Hv'. apply Hdist; try assumption; (destruct (decide (q = p)), (decide (q' = p)); subst; [congruence..|lia]).
  - intros q e Hq. apply Hpend. lia.
  - rewrite (pages_from_step _ p), Hinv in Hroom by lia. exact Hroom.
Qed.

(** The page to be copied is still where the entry says, with what it held. *)
Lemma copying_source p s t f g e : 0 ≤ p < 2 ^ 20 → copying p s t f g → view a.(as_pages) p = Some e → is_valid e = true →
  stored s e ∧ flushed s e = flushed s0 e.
Proof.
  intros Hp [_ _ _ _ _ _ Hfr Hmk Hpend _ (Eb & El & En)] He Hv. destruct (Hstored p e Hp He Hv) as [[Hsl Hmark] Hfl Hdirty]. split.
  - constructor; [rewrite En; split; [exact Hsl|apply Hmk; [lia|exact Hmark]]|exact Hfl|]. intros Hd.
    destruct (Hdirty Hd) as (i & Hi & Hpa & Hbit). exists i. rewrite El, Eb. split; [exact Hi|]. split; [exact Hpa|]. by apply Hfr.
  - unfold flushed. rewrite Eb. destruct (has_flag e.(pe_flags) PAGETABLE_DIRTY) eqn:Hd.
    + destruct (Hdirty eq_refl) as (i & Hi & Hpa & Hbit). replace ((paddr_of e - base s0) / 4096) with i by zdiv_lia. by apply Hfr.
    + apply (Hpend p e); [lia|exact He|exact Hv].
Qed.

Lemma copy_of_later q i b s t s' t' : copy_of q i b s t → view t' q = view t q → frame s' i = frame s i →
  swapped s'.(vm_swap) b = swapped s.(vm_swap) b → bit s'.(coremap_free) i = true → bit s'.(vm_swap).(swap_freelist) b = true →
  copy_of q i b s' t'.
Proof.
  intros [(Hi & Hi0 & _) (Hb & Hb0 & _) Hv (e & He & Hfr & Hsw)] Ev Ef Es Hbf Hbs.
  constructor; [exact (conj Hi (conj Hi0 Hbf))|exact (conj Hb (conj Hb0 Hbs))|rewrite Ev; exact Hv|].
  exists e. split; [exact He|]. rewrite Ef, Es. split; [exact Hfr|exact Hsw].
Qed.

Lemma copying_page p s t f g e idx b t' s' : 0 ≤ p < 2 ^ 20 → copying p s t f g → view a.(as_pages) p = Some e → is_valid e = true →
  page_copied s cpid (set_pages c t) p e idx b t' s' →
  copying (p + 1) s' t' (λ q, if q =? p then idx else f q) (λ q, if q =? p then b else g q).
Proof.
  intros Hp Hcy He Hv Hpc'. destruct (page_copied_keeps _ _ _ _ _ _ _ _ _ Hpc') as [Hkf Hks]. pose proof (page_copied_room _ _ _ _ _ _ _ _ _ _ Hpc' (cy_room _ _ _ _ _ Hcy)) as Hroom'.
  destruct Hpc' as [Hm' (Hi & Hif & _ & _ & Hfb) (Hb & Hbf & _ & Hnb & Hsb) (Ht' & Hl' & _) Hview Hprocs [Hby Hsy] Hfo Hso (Eb' & El')].
  destruct (copying_source p s t f g e Hp Hcy He Hv) as [[[Hsl Hslm] _ _] Hcon].
  destruct Hcy as [Hm [Hpa Hpc] [Ht Hl] Hdone Htodo Hdist Hfr Hmk Hpend Hroom (Eb & El & En)].
  change (as_pages (set_pages c t)) with t in *.
  assert (page_valid a.(as_pages) p = true) as Hvp by (unfold page_valid; by rewrite He).
  assert (∀ q, 0 ≤ q < p → page_valid a.(as_pages) q = true → f q ≠ idx ∧ g q ≠ b) as Hnew.
  { intros q Hq Hvq. pose proof (Hdone q Hq) as Hd. rewrite Hvq in Hd. destruct Hd as [(? & _ & Hx) (? & _ & Hy) _ _].
    split; [apply Hkf|apply Hks]; (lia || done). }
  constructor.
  - exact Hm'.
  - rewrite Hprocs. rewrite lookup_insert_ne, lookup_insert_eq by done. split; [exact Hpa|done].
  - split; [exact Ht'|congruence].
  - intros q Hq. destruct (Z.eqb_spec q p) as [->|Hne].
    + rewrite Hvp. constructor.
      * rewrite <-El. split; [exact Hi|]. split; [|rewrite Hfb, decide_True by lia; done].
        destruct (bit s0.(coremap_free) idx) eqn:Hx; [|done]. destruct (Hfr idx ltac:(lia) Hx). congruence.
      * rewrite <-En. split; [exact Hb|]. split; [|rewrite Hsb by lia; by rewrite Z.eqb_refl].
        destruct (bit s0.(vm_swap).(swap_freelist) b) eqn:Hx; [|done]. pose proof (Hmk b ltac:(lia) Hx). congruence.
      * rewrite Hview by lia. by rewrite Z.eqb_refl, Eb.
      * exists e. rewrite <-Hcon. split; [exact He|]. split; [exact Hby|exact Hsy].
    + specialize (Hdone q ltac:(lia)). assert (view t' q = view t q) as Hvq by (rewrite Hview by lia; by rewrite (proj2 (Z.eqb_neq _ _))).
      destruct (page_valid a.(as_pages) q) eqn:Hvq'; [|by rewrite Hvq]. destruct (Hnew q ltac:(lia) Hvq') as [Hfi Hgb].
      pose proof Hdone as [(? & _ & Hbi) (? & Hg0 & Hbs) _ _].
      apply (copy_of_later q (f q) (g q) s t s' t' Hdone Hvq); [by apply Hfo| |apply Hkf; [lia|exact Hbi]|apply Hks; [lia|exact Hbs]].
      apply Hso; [lia|exact Hgb|]. destruct (Hstored p e Hp He Hv) as [[_ Hms] _ _]. congruence.
  - intros q Hq. rewrite Hview by lia. rewrite (proj2 (Z.eqb_neq _ _)) by lia. apply Htodo. lia.
  - intros q q' Hq Hq' Hvq Hvq'. destruct (Z.eqb_spec q p), (Z.eqb_spec q' p); subst; [done|..].
    + intros [H|H]; destruct (Hnew q' ltac:(lia) Hvq'); congruence.
    + intros [H|H]; destruct (Hnew q ltac:(lia) Hvq); congruence.
    + apply Hdist; (lia || done).
  - intros i Hii Hbi. destruct (Hfr i Hii Hbi) as [Hx Hy]. destruct (Hkf i ltac:(lia) Hx). split; [done|]. rewrite <-Hy. by apply Hfo.
  - intros i H0 Hbi. apply Hks; [done|]. by apply Hmk.
  - intros q e' Hq He' Hv'. rewrite <-(Hpend q e' ltac:(lia) He' Hv'). destruct (Hstored q e' ltac:(lia) He' Hv') as [[? Hms] _ _].
    apply Hso; [lia|apply Hks; [lia|by apply Hmk; [lia|]]|]. intros Heq. assert (q = p) by (eapply (Hslots q p); [lia|lia|done..]). lia.
  - rewrite (pages_from_step _ p), Hvp in Hroom' by lia. replace (1 + pages_from (as_pages a) (p + 1) - 1) with (pages_from (as_pages a) (p + 1)) in Hroom' by lia.
    exact Hroom'.
  - split; [congruence|]. split; congruence.
Qed.

Lemma copying_entries n : ∀ s t f g i j o, 0 ≤ i < 1024 → 0 ≤ j → j + Z.of_nat n = 1024 → copying (1024 * i + j) s t f g →
  bit a.(as_pages).(pt_valids) i = true → bit t.(pt_valids) i = true → false ∉ o →
  ∃ s' t' f' g' o', copy_entries n s pid cpid i j o = Ret (s', o') ∧ false ∉ o' ∧ copying (1024 * (i + 1)) s' t' f' g' ∧
    t'.(pt_valids) = t.(pt_valids).
Proof.
  induction n as [|n IH]; intros s t f g i j o Hi Hj Hn Hcy Hba Hbt Ho; cbn [copy_entries].
  { exists s, t, f, g, o. replace (1024 * (i + 1)) with (1024 * i + j) by lia. done. }
  set (p := 1024 * i + j) in *. assert (p / 1024 = i ∧ p mod 1024 = j ∧ 0 ≤ p < 2 ^ 20) as (Hpi & Hpj & Hp) by (unfold p; zdiv_lia).
  pose proof Hcy as [Hm [Hpa Hpc] [Ht _] _ Htodo _ _ _ _ Hroom _]. unfold subtable_of. rewrite (get_as_correct s pid a Hpa), ret_bind.
  destruct (get_subtable_correct _ _ Hta Hi Hba) as (st & -> & Hst & Hl & Hview). rewrite ret_bind.
  rewrite (slots_isset _ _ _ j Hst) by lia. rewrite ret_bind. specialize (Hview p Hpi). rewrite Hpj in Hview. unfold sub_view in Hview.
  assert (page_valid a.(as_pages) p = false → ∃ s' t' f' g' o', copy_entries n s pid cpid i (j + 1) o = Ret (s', o') ∧ false ∉ o' ∧
    copying (1024 * (i + 1)) s' t' f' g' ∧ t'.(pt_valids) = t.(pt_valids)) as Hskip.
  { intros Hinv. apply (IH s t f g i (j + 1) o); try done || lia.
    replace (1024 * i + (j + 1)) with (p + 1) by (unfold p; lia). by apply copying_skip. }
  destruct (bit st.(st_valids) j) eqn:Hbj; cbn [negb]; [|apply Hskip; unfold page_valid; by rewrite Hview].
  destruct (sl_used _ _ _ Hst j ltac:(lia) Hbj) as (e & He & _). rewrite He in Hview. cbn in Hview.
  assert (entry_of s pid (i, j) = Ret e) as ->.
  { unfold entry_of. rewrite (get_as_correct s pid a Hpa), ret_bind. replace (i, j) with (ref_of p) by (unfold ref_of; congruence).
    by apply get_entry_correct. }
  rewrite ret_bind. fold (is_valid e). destruct (is_valid e) eqn:Hv; cbn [negb]; [|apply Hskip; unfold page_valid; by rewrite Hview].
  assert (page_valid a.(as_pages) p = true) as Hvp by (unfold page_valid; by rewrite Hview).
  destruct (copying_source p s t f g e Hp Hcy Hview Hv) as [Hsd _].
  assert (has_room s) as Hhas.
  { apply (room_has_room s _ Hroom). rewrite (pages_from_step _ p), Hvp by lia. unfold pages_from. lia. }
  destruct (copy_page_correct s pid cpid a (set_pages c t) p e o Hm Hhas Hpids Hpa Hta Hpc Ht Hp Hview Hsd)
    as (idx & b & t' & s' & o' & Hcp & Ho' & Hpcd); [by rewrite Hpi|apply Htodo; lia|done|].
  rewrite Hpi, Hpj in Hcp. rewrite Hcp, ret_bind. pose proof (pc_table _ _ _ _ _ _ _ _ _ Hpcd) as (_ & _ & Hval). cbn in Hval.
  pose proof (copying_page p s t f g e idx b t' s' Hp Hcy Hview Hv Hpcd) as Hcy'. replace (p + 1) with (1024 * i + (j + 1)) in Hcy' by (unfold p; lia).
  destruct (IH s' t' _ _ i (j + 1) o' Hi ltac:(lia) ltac:(lia) Hcy') as (s2 & t2 & f2 & g2 & o2 & -> & Ho2 & Hcy2 & Hval2); [done| |done|].
  - by rewrite Hval.
  - exists s2, t2, f2, g2, o2. split_and!; [done|done|done|congruence].
Qed.

Lemma copying_absent n p s t f g : 0 ≤ p → p + Z.of_nat n ≤ 2 ^ 20 → copying p s t f g →
  (∀ q, p ≤ q < p + Z.of_nat n → view a.(as_pages) q = None) → copying (p + Z.of_nat n) s t f g.
Proof.
  revert p. induction n as [|n IH]; intros p Hp Hn Hcy Hnone; [by replace (p + Z.of_nat 0) with p by lia|].
  replace (p + Z.of_nat (S n)) with (p + 1 + Z.of_nat n) by lia. apply IH; [lia|lia| |intros q Hq; apply Hnone; lia].
  apply copying_skip; [lia|done|]. unfold page_valid. by rewrite Hnone by lia.
Qed.

(** A new, empty subtable for the copy. *)
Lemma copying_subtable s t f g i st v' : 0 ≤ i < 1024 → copying (1024 * i) s t f g → sub_ok st →
  (∀ j, 0 ≤ j < 1024 → sub_view st j = None) → updated t.(pt_valids) i true v' →
  let t' := Pagetable v' (<[Z.to_nat i := Some st]> t.(pt_ptr)) t.(pt_locked) in
  copying (1024 * i) (put_as s cpid (set_pages c t')) t' f g.
Proof.
  intros Hi [Hm [Hpa Hpc] [Ht Hl] Hdone Htodo Hdist Hfr Hmk Hpend Hroom Hrest] Hst Hempty Hu t'.
  destruct (table_put t i v' st t.(pt_locked) Ht Hi Hu Hst) as [Ht' Hview]. fold t' in Ht', Hview.
  assert (∀ q, 0 ≤ q → view t' q = view t q) as Hsame.
  { intros q Hq. rewrite Hview by done. destruct (Z.eqb_spec (q / 1024) i) as [He|]; [|done].
    rewrite Hempty by zdiv_lia. symmetry. apply Htodo. zdiv_lia. }
  constructor; [|split|split; [exact Ht'|exact Hl]| | |exact Hdist|exact Hfr|exact Hmk|exact Hpend|exact Hroom|exact Hrest].
  - destruct Hm as [Hcm Hmod Hsw Hmem]. constructor; [|exact Hmod|exact Hsw|exact Hmem]. apply (cm_ok_ext s); try done; apply Hcm.
  - cbn. by rewrite lookup_insert_ne.
  - cbn. by rewrite lookup_insert_eq.
  - intros q Hq. specialize (Hdone q Hq). destruct (page_valid a.(as_pages) q); [|by rewrite Hsame by lia].
    destruct Hdone as [H1 H2 H3 H4]. constructor; [exact H1|exact H2|by rewrite Hsame by lia|exact H4].
  - intros q Hq. rewrite Hsame by lia. by apply Htodo.
Qed.

Lemma copying_subtables n : ∀ s t f g i o, 0 ≤ i → i + Z.of_nat n = 1024 → copying (1024 * i) s t f g →
  (∀ k, i ≤ k < 1024 → bit t.(pt_valids) k = false) → false ∉ o →
  ∃ s' t' f' g' o', copy_subtables n s pid cpid i o = Ret (true, s', o') ∧ false ∉ o' ∧ copying (2 ^ 20) s' t' f' g'.
Proof.
  induction n as [|n IH]; intros s t f g i o Hi Hn Hcy Hfresh Ho; cbn [copy_subtables].
  { exists s, t, f, g, o. replace (2 ^ 20) with (1024 * i) by lia. done. }
  pose proof Hcy as [_ [Hpa Hpc] [Ht _] _ _ _ _ _ _ _ _]. rewrite (get_as_correct s pid a Hpa), ret_bind.
  rewrite (slots_isset _ _ _ i Hta) by lia. rewrite ret_bind. destruct (bit a.(as_pages).(pt_valids) i) eqn:Hba; cbn [negb].
  - destruct (create_subtable_correct o) as (r & o1 & -> & Hr). rewrite ret_bind. destruct r as [st|]; [|done].
    destruct Hr as (Hin & Hst & Hempty). rewrite (get_as_correct s cpid _ Hpc), ret_bind. change (as_pages (set_pages c t)) with t.
    pose proof (mark_correct t.(pt_valids) i (sl_map _ _ _ Ht)) as Hm. rewrite (sl_bits _ _ _ Ht), Hfresh in Hm by lia.
    destruct (Hm ltac:(lia)) as (v' & -> & Hu). rewrite ret_bind. unfold set_subtable. cbn [pt_ptr pt_valids pt_locked].
    rewrite wr_in_range by (rewrite (sl_length _ _ _ Ht); lia). rewrite !ret_bind.
    change (set_pages (set_pages c t) ?x) with (set_pages c x).
    pose proof (copying_subtable s t f g i st v' ltac:(lia) Hcy Hst Hempty Hu) as Hcy1. cbv zeta in Hcy1. set (t1 := Pagetable _ _ _) in *.
    destruct Hu as (_ & _ & Hbits).
    destruct (copying_entries 1024 (put_as s cpid (set_pages c t1)) t1 f g i 0 o1 ltac:(lia) ltac:(lia) ltac:(lia)) as (s2 & t2 & f2 & g2 & o2 & -> & Ho2 & Hcy2 & Hval);
      [by rewrite Z.add_0_r|done|unfold t1; cbn; rewrite Hbits by lia; by rewrite Z.eqb_refl|by auto|].
    rewrite ret_bind. apply (IH s2 t2 f2 g2 (i + 1) o2); [lia|lia|done| |done].
    intros k Hk. rewrite Hval. unfold t1. cbn [pt_valids]. rewrite Hbits by lia. rewrite (proj2 (Z.eqb_neq _ _)) by lia. apply Hfresh. lia.
  - apply (IH s t f g (i + 1) o); [lia|lia| |intros k Hk; apply Hfresh; lia|done].
    replace (1024 * (i + 1)) with (1024 * i + Z.of_nat 1024) by lia. apply copying_absent; [lia|lia|done|].
    intros q Hq. unfold view. replace (q / 1024) with i by zdiv_lia. by rewrite Hba.
Qed.
End Copy.

(** [s'] is [s] after the valid pages of [a] have been copied to [t], the table of [c]:
    page [q] to frame [f q] and slot [g q]. *)
Record copied (s : vm) (pid cpid : Z) (a c : addrspace) (t : pagetable) (f g : Z → Z) (s' : vm) : Prop := Copied {
  cd_procs : s'.(procs) !! pid = Some (Some a) ∧ s'.(procs) !! cpid = Some (Some (set_pages c t));
  cd_table : pt_ok t ∧ t.(pt_locked) = false;
  cd_pages q : 0 ≤ q < 2 ^ 20 → if page_valid a.(as_pages) q then copy_of s a q (f q) (g q) s' t else view t q = None;
  cd_distinct q q' : 0 ≤ q < 2 ^ 20 → 0 ≤ q' < 2 ^ 20 → page_valid a.(as_pages) q = true → page_valid a.(as_pages) q' = true →
    f q = f q' ∨ g q = g q' → q = q';
  cd_frames i : 0 ≤ i < coremap_length s → bit s.(coremap_free) i = true → bit s'.(coremap_free) i = true ∧ frame s' i = frame s i
}.

Lemma copied_bytes s pid cpid a c t f g s' q e : copied s pid cpid a c t f g s' → 0 ≤ q < 2 ^ 20 → view a.(as_pages) q = Some e →
  is_valid e = true → frame s' (f q) = flushed s e ∧ swapped s'.(vm_swap) (g q) = flushed s e.
Proof.
  intros Hcd Hq He Hv. pose proof (cd_pages _ _ _ _ _ _ _ _ _ Hcd q Hq) as Hpg. unfold page_valid in Hpg. rewrite He, Hv in Hpg.
  destruct (co_bytes _ _ _ _ _ _ _ Hpg) as (e' & He' & Hf & Hs). rewrite He in He'. injection He' as <-. done.
Qed.

(** The table of [a] can be copied: its pages are where the entries say, no two share a
    slot, and there is room for another copy of each. *)
Record copyable (s : vm) (a : addrspace) : Prop := Copyable {
  cp_machine : machine s;
  cp_table : pt_ok a.(as_pages) ∧ a.(as_pages).(pt_locked) = false;
  cp_stored q e : 0 ≤ q < 2 ^ 20 → view a.(as_pages) q = Some e → is_valid e = true → stored s e;
  cp_slots q q' e e' : 0 ≤ q < 2 ^ 20 → 0 ≤ q' < 2 ^ 20 → view a.(as_pages) q = Some e → view a.(as_pages) q' = Some e' →
    is_valid e = true → is_valid e' = true → e.(pe_swap) = e'.(pe_swap) → q = q';
  cp_room : room s (pages_from a.(as_pages) 0)
}.

Lemma lock_pages_correct s pid a : s.(procs) !! pid = Some (Some a) → a.(as_pages).(pt_locked) = false →
  lock_pages s pid = Ret (put_as s pid (set_pages a (set_locked a.(as_pages) true))).
Proof. intros Hp Hl. unfold lock_pages, lock_table. by rewrite (get_as_correct s pid a Hp), ret_bind, Hl. Qed.

Lemma unlock_pages_correct s pid a : s.(procs) !! pid = Some (Some a) → a.(as_pages).(pt_locked) = true →
  unlock_pages s pid = Ret (put_as s pid (set_pages a (set_locked a.(as_pages) false))).
Proof. intros Hp Hl. unfold unlock_pages, unlock_table. by rewrite (get_as_correct s pid a Hp), ret_bind, Hl. Qed.

(** With no page in the way, the copy starts. *)
Lemma copying_start s pid cpid a c tc : machine s → room s (pages_from a.(as_pages) 0) → pt_ok tc → tc.(pt_locked) = true →
  (∀ i, 0 ≤ i < 1024 → bit tc.(pt_valids) i = false) → s.(procs) !! pid = Some (Some a) → s.(procs) !! cpid = Some (Some (set_pages c tc)) →
  copying s pid cpid a c 0 s tc (λ q, q) (λ q, q).
Proof.
  intros Hm Hroom Htc Hl Hfresh Hpa Hpc. constructor; try done.
  - intros q Hq. lia.
  - intros q Hq. unfold view. by rewrite Hfresh by zdiv_lia.
  - intros q q' Hq. lia.
Qed.

(** Two states that differ in the locks of the tables only. *)
Definition same_store (s s' : vm) : Prop :=
  s'.(ram) = s.(ram) ∧ s'.(vm_swap) = s.(vm_swap) ∧ s'.(base) = s.(base) ∧ s'.(coremap) = s.(coremap) ∧ s'.(coremap_free) = s.(coremap_free).

Lemma same_store_frame s s' i : same_store s s' → frame s' i = frame s i.
Proof. intros (Er & _ & Eb & _). apply frame_ext; [exact Eb|]. intros k _. by rewrite Er. Qed.

Lemma same_store_flushed s s' e : same_store s s' → flushed s' e = flushed s e.
Proof.
  intros Hs. pose proof Hs as (_ & Es & Eb & _). unfold flushed. rewrite Es, Eb. by rewrite (same_store_frame s s' _ Hs).
Qed.

Lemma copy_of_same s0 s0' a a' q i b s s' t t' : same_store s0 s0' → same_store s s' →
  view a'.(as_pages) q = view a.(as_pages) q → view t' q = view t q → copy_of s0' a q i b s t → copy_of s0 a' q i b s' t'.
Proof.
  intros H0 Hs Ev Et [H1 H2 H3 (e & He & Hf & Hw)]. pose proof H0 as (_ & Es0 & Eb0 & Ec0 & Ef0). pose proof Hs as (_ & Es & Eb & Ec & Ef).
  unfold coremap_length in H1. rewrite Ec0, Ef0 in H1. rewrite Es0 in H2. rewrite Eb0 in H3. constructor.
  - rewrite Ef. exact H1.
  - rewrite Es. exact H2.
  - rewrite Et. exact H3.
  - exists e. rewrite Ev, Es, (same_store_frame s s' i Hs), <-(same_store_flushed s0 s0' e H0). done.
Qed.

(** Nothing but the locks of the tables changes at the end. *)
Lemma copied_unlock s s1 pid cpid a c t f g s' : pid ≠ cpid → a.(as_pages).(pt_locked) = false → same_store s s1 →
  copying s1 pid cpid (set_pages a (set_locked a.(as_pages) true)) c (2 ^ 20) s' t f g →
  ∃ s2 s3, unlock_pages s' pid = Ret s2 ∧ unlock_pages s2 cpid = Ret s3 ∧ copied s pid cpid a c (set_locked t false) f g s3.
Proof.
  intros Hne Hla Hs [_ [Hpa Hpc] [Ht Hl] Hdone _ Hdist Hfr _ _ _ _]. pose proof Hs as (_ & _ & _ & Ec & Ef).
  eexists _, _. split; [exact (unlock_pages_correct s' pid _ Hpa eq_refl)|]. split.
  { apply (unlock_pages_correct _ cpid (set_pages c t)); [cbn; by rewrite lookup_insert_ne|exact Hl]. }
  constructor; [|split; [exact Ht|done]| |exact Hdist|].
  - cbn. rewrite lookup_insert_ne, !lookup_insert_eq by done. split; [|done]. by destruct a as [[] ]; cbn in *; subst.
  - intros q Hq. specialize (Hdone q Hq). change (page_valid (as_pages (set_pages a (set_locked (as_pages a) true))) q) with (page_valid a.(as_pages) q) in Hdone.
    destruct (page_valid a.(as_pages) q); [|exact Hdone]. by eapply copy_of_same; [exact Hs| | | |exact Hdone].
  - intros i Hi Hb. destruct (Hfr i) as [H1 H2]; [unfold coremap_length in *; by rewrite Ec|by rewrite Ef|]. split; [exact H1|].
    rewrite <-(same_store_frame s s1 i Hs), <-H2. clear -s. apply same_store_frame. by repeat split.
Qed.

Lemma pagetable_copy_correct s pid cpid a c o : pid ≠ cpid → s.(procs) !! pid = Some (Some a) → copyable s a →
  s.(procs) !! cpid = Some (Some c) → pt_ok c.(as_pages) → c.(as_pages).(pt_locked) = false →
  (∀ i, 0 ≤ i < 1024 → bit c.(as_pages).(pt_valids) i = false) → false ∉ o →
  ∃ t f g s' o', pagetable_copy s pid cpid o = Ret (true, s', o') ∧ copied s pid cpid a c t f g s'.
Proof.
  intros Hne Hpa Hcp Hpc Htc Hlc Hfresh Ho. pose proof Hcp as [Hm [Hta Hla] Hst Hsl Hroom]. unfold pagetable_copy.
  rewrite (lock_pages_correct s cpid c Hpc Hlc), ret_bind. rewrite (lock_pages_correct _ pid a) by (cbn; by rewrite ?lookup_insert_ne).
  rewrite ret_bind. set (a1 := set_pages a (set_locked a.(as_pages) true)). set (t1 := set_locked c.(as_pages) true).
  set (s1 := put_as _ _ _). assert (same_store s s1) as Hsame by done.
  assert (machine s1) as Hm1.
  { destruct Hm as [Hcm Hmod Hsw Hmem]. constructor; [|exact Hmod|exact Hsw|exact Hmem]. apply (cm_ok_ext s); try done; apply Hcm. }
  assert (copying s1 pid cpid a1 c 0 s1 t1 (λ q, q) (λ q, q)) as Hcy.
  { apply copying_start; [exact Hm1|unfold a1; cbn [set_pages as_pages]; rewrite pages_from_locked; exact Hroom|exact Htc|done|exact Hfresh| |].
    - apply lookup_insert_eq.
    - unfold s1. cbn. rewrite lookup_insert_ne by done. apply lookup_insert_eq. }
  assert (∀ q e, 0 ≤ q < 2 ^ 20 → view a1.(as_pages) q = Some e → is_valid e = true → stored s1 e) as Hst1.
  { intros q e Hq He Hv. destruct (Hst q e Hq He Hv) as [H1 H2 H3]. constructor; [exact H1|exact H2|exact H3]. }
  destruct (copying_subtables s1 pid cpid a1 c Hne Hta Hst1 Hsl 1024 s1 t1 _ _ 0 o ltac:(lia) ltac:(lia) Hcy Hfresh Ho)
    as (s' & t & f & g & o' & -> & _ & Hcy'). rewrite ret_bind. cbn [negb].
  destruct (copied_unlock s s1 pid cpid a c t f g s' Hne Hla Hsame Hcy') as (s2 & s3 & -> & Hu & Hcd). rewrite ret_bind, Hu, ret_bind.
  by eexists _, f, g, s3, o'.
Qed.

Lemma copied_same s s1 pid cpid a c t f g s' : same_store s s1 → copied s1 pid cpid a c t f g s' → copied s pid cpid a c t f g s'.
Proof.
  intros Hs [Hp Ht Hpg Hd Hf]. pose proof Hs as (_ & _ & _ & Ec & Ef). constructor; [exact Hp|exact Ht| |exact Hd|].
  - intros q Hq. specialize (Hpg q Hq). destruct (page_valid a.(as_pages) q); [|exact Hpg].
    eapply (copy_of_same s s1 a a); [exact Hs| |reflexivity|reflexivity|exact Hpg]. by repeat split.
  - intros i Hi Hb. destruct (Hf i) as [H1 H2]; [unfold coremap_length in *; by rewrite Ec|by rewrite Ef|]. split; [exact H1|].
    by rewrite H2, (same_store_frame s s1 i Hs).
Qed.

Lemma copyable_put s a pid x : copyable s a → copyable (put_as s pid x) a.
Proof.
  intros [[Hcm Hmod Hsw Hmem] Ht Hst Hsl Hroom]. constructor; [|exact Ht| |exact Hsl|exact Hroom].
  - constructor; [|exact Hmod|exact Hsw|exact Hmem]. apply (cm_ok_ext s); try done; apply Hcm.
  - intros q e Hq He Hv. destruct (Hst q e Hq He Hv) as [H1 H2 H3]. constructor; [exact H1|exact H2|exact H3].
Qed.

Lemma create_all x o : false ∉ o → ∃ o', create x o = (Some (Object None [] x), o') ∧ false ∉ o'.
Proof.
  intros Ho. unfold create. destruct (kmalloc_all o Ho) as (o1 & -> & Ho1). destruct (kmalloc_all o1 Ho1) as (o2 & -> & Ho2).
  destruct (kmalloc_all o2 Ho2) as (o3 & -> & Ho3). by exists o3.
Qed.

Lemma as_create_correct pid junk o : false ∉ o → ∃ t o', as_create pid junk o = Ret (Some (Addrspace t pid false 0 junk 0 0 (2 ^ 32 - 1)), o') ∧
  false ∉ o' ∧ pt_ok t ∧ t.(pt_locked) = false ∧ ∀ i, 0 ≤ i < 1024 → bit t.(pt_valids) i = false.
Proof.
  intros Ho. unfold as_create. destruct (kmalloc_all o Ho) as (o1 & -> & Ho1). cbn [negb].
  destruct (pagetable_create_fresh o1) as ([t|] & o2 & -> & Ht); [|done]. destruct Ht as (Hin & Ht & Hl & Hb). rewrite ret_bind.
  unfold lock_create, cv_create. destruct (create_all (Lock false None) o2 ltac:(by auto)) as (o3 & -> & Ho3).
  destruct (create_all (Cv None) o3 Ho3) as (o4 & -> & Ho4). cbn [deref]. rewrite ret_bind. by exists t, o4.
Qed.

(** The address space of the copy. *)
Definition forked (a : addrspace) (pid : Z) (junk : bool) (t : pagetable) : addrspace :=
  Addrspace t pid false 0 junk a.(as_heap_end) a.(as_heap_start) a.(as_stack_base).

Lemma as_copy_correct s oldpid newpid a junk o : oldpid ≠ newpid → s.(procs) !! oldpid = Some (Some a) → copyable s a →
  a.(as_destroying) = false → s.(procs) !! newpid = Some None → false ∉ o →
  ∃ t f g s' o' c, as_copy s oldpid newpid junk o = Ret (0, put_as s' newpid (forked a newpid junk t), o') ∧
    copied s oldpid newpid a c t f g s'.
Proof.
  intros Hne Hpa Hcp Hd Hpn Ho. unfold as_copy. destruct (as_create_correct newpid junk o Ho) as (tc & o1 & -> & Ho1 & Htc & Hlc & Hfresh).
  rewrite ret_bind, (get_as_correct s oldpid a Hpa), ret_bind, Hd. cbn [negb kassert]. rewrite ret_bind, Hpn. cbn [deref].
  rewrite ret_bind, bool_decide_false by (by intros []). set (c := Addrspace tc newpid false 0 junk 0 0 (2 ^ 32 - 1)).
  destruct (pagetable_copy_correct (put_as s newpid c) oldpid newpid a c o1 Hne) as (t & f & g & s' & o' & -> & Hcd); try done.
  - cbn. by rewrite lookup_insert_ne.
  - by apply copyable_put.
  - apply lookup_insert_eq.
  - rewrite ret_bind. cbn [negb]. pose proof Hcd as [[Hpa' Hpc'] _ _ _ _].
    rewrite (get_as_correct s' oldpid a Hpa'), ret_bind, (get_as_correct s' newpid _ Hpc'), ret_bind.
    exists t, f, g, s', o', c. split; [done|]. apply (copied_same s (put_as s newpid c)); [by repeat split|exact Hcd].
Qed.

(** ** Removing a page *)

Lemma drop_entry_correct s pid a p e : s.(procs) !! pid = Some (Some a) → pt_ok a.(as_pages) → 0 ≤ p < 2 ^ 20 → view a.(as_pages) p = Some e →
  ∃ t, drop_entry s pid (p / 1024) (p mod 1024) = Ret (put_as s pid (set_pages a t)) ∧ pt_ok t ∧ t.(pt_locked) = a.(as_pages).(pt_locked) ∧
    ∀ q, 0 ≤ q → view t q = if q =? p then None else view a.(as_pages) q.
Proof.
  intros Hproc Ht Hp He. unfold drop_entry. rewrite (get_as_correct s pid a Hproc), ret_bind. destruct (page_index p Hp) as [Hi Hj].
  destruct (view_Some _ p e Ht Hp He) as (Hb & st & -> & Hst & Hb2 & Hl & Hold). rewrite ret_bind. pose proof Hst as [Hsm Hsn Hsl _].
  destruct (unmark_correct st.(st_valids) (p mod 1024) Hsm ltac:(lia)) as (v' & -> & Hu). rewrite ret_bind, wr_in_range by lia.
  rewrite ret_bind, set_subtable_correct by done. rewrite ret_bind. destruct (sub_clear st (p mod 1024) v' Hst Hj Hu) as [Hst' Hview'].
  assert (bit_is a.(as_pages).(pt_valids) (p / 1024) true a.(as_pages).(pt_valids)) as Hbi by (rewrite <-Hb; apply bit_is_same, Ht).
  destruct (view_put _ p st _ _ a.(as_pages).(pt_locked) None Ht Hp Hbi Hst' (λ q _, Hold q) Hview') as [Hok Hview].
  eexists. split; [done|]. by split_and!.
Qed.

(** [s'] is [s] after page [p] of [a] with entry [e], in frame [idx], has been removed. *)
Record removed (s : vm) (pid : Z) (a : addrspace) (p : Z) (e : pagetable_entry) (idx : Z) (t : pagetable) (s' : vm) : Prop := Removed {
  rm_table : pt_ok t ∧ t.(pt_locked) = false ∧ ∀ q, 0 ≤ q → view t q = if q =? p then None else view a.(as_pages) q;
  rm_procs : s'.(procs) = <[pid := Some (set_pages a t)]> s.(procs);
  rm_frame : filled s.(coremap_free) idx 1 false s'.(coremap_free) ∧ filled s.(coremap_swappable) idx 1 false s'.(coremap_swappable);
  rm_entry j : s'.(coremap) !! j = if decide (Z.of_nat j = idx) then Some (Centry 0 0 0) else s.(coremap) !! j;
  rm_slot : updated s.(vm_swap).(swap_freelist) e.(pe_swap) false s'.(vm_swap).(swap_freelist);
  rm_rest : s'.(base) = s.(base) ∧ s'.(ram) = s.(ram) ∧ s'.(tlb) = s.(tlb) ∧ s'.(vm_swap).(swap_space) = s.(vm_swap).(swap_space)
}.

Lemma cm_ok_locked s idx w : cm_ok s → bit s.(coremap_free) idx = true → filled s.(coremap_swappable) idx 1 true w →
  cm_ok (set_maps s s.(coremap_free) w).
Proof.
  intros [Hb Hf [Hw Hwn] Hm Hun Hmu] Hbit (Hw' & Hn' & Hbits). constructor; [exact Hb|exact Hf|split; [exact Hw'|exact (eq_trans Hn' Hwn)]|exact Hm| |exact Hmu].
  intros i ce Hi Hfree. destruct (Hun i ce Hi Hfree) as [H1 H2]. split; [exact H1|]. cbn [set_maps coremap_swappable coremap_free] in *.
  rewrite Hbits by lia. case_decide; [|exact H2]. replace (Z.of_nat i) with idx in Hfree by lia. congruence.
Qed.

Lemma remove_page_correct s pid a p e idx : cm_ok s → swap_ok s.(vm_swap) → s.(procs) !! pid = Some (Some a) →
  pt_ok a.(as_pages) ∧ a.(as_pages).(pt_locked) = false → 0 ≤ p < 2 ^ 20 → view a.(as_pages) p = Some e →
  0 ≤ e.(pe_swap) < s.(vm_swap).(swap_freelist).(b_nbits) →
  0 ≤ idx → idx + 1 < coremap_length s → paddr_of e = s.(base) + 4096 * idx → bit s.(coremap_free) idx = true →
  bit s.(coremap_swappable) idx = false → run_at s idx 1 →
  ∃ t s', remove_page s pid (p / 1024) (p mod 1024) = Ret s' ∧ removed s pid a p e idx t s'.
Proof.
  intros Hcm Hsw Hproc [Ht Hl] Hp He Hslot Hi Hi1 Hpa Hfree Hbit Hrun. unfold remove_page, entry_of.
  rewrite (get_as_correct s pid a Hproc), ret_bind. change (p / 1024, p mod 1024) with (ref_of p).
  rewrite (get_entry_correct _ p e Ht Hp He), ret_bind.
  assert ((Z.lor e.(pe_flags) PAGETABLE_INMEM =? 0) = false) as -> by (apply Z.eqb_neq; intros [_ H]%Z.lor_eq_0_iff; done). cbn [negb]. rewrite Hpa.
  destruct (lock_acquire_correct s idx Hcm ltac:(lia) Hbit) as (w & -> & Hw). rewrite ret_bind.
  pose proof (cm_ok_locked s idx w Hcm Hfree Hw) as Hcm1. set (s1 := set_maps s s.(coremap_free) w) in *.
  pose proof (free_correct s1 idx 1 Hcm1 Hrun) as Hfr. change (coremap_length s1) with (coremap_length s) in Hfr.
  rewrite decide_False in Hfr by lia. destruct (Hfr ltac:(lia)) as (s2 & Hf2 & [Hff Hfw _ Hent (Eb & _ & Er & Es & Ep & El)]).
  change (base s1) with s.(base) in Hf2. rewrite Hf2, ret_bind. unfold free_slot. rewrite Es. change (vm_swap s1) with s.(vm_swap).
  destruct (swap_free_correct s.(vm_swap) e.(pe_swap) Hsw Hslot) as (w' & -> & Hw' & Hsp & Hps & Hup). rewrite !ret_bind.
  destruct (drop_entry_correct (set_swap s2 w') pid a p e) as (t & -> & Ht' & Hl' & Hview); [|done..|].
  { change (procs (set_swap s2 w')) with s2.(procs). by rewrite Ep. }
  exists t. eexists. split; [reflexivity|]. constructor.
  - split; [exact Ht'|]. split; [congruence|exact Hview].
  - cbn. by rewrite Ep.
  - split; [exact Hff|]. destruct Hw as (_ & Hn & Hbits), Hfw as (Hwf & Hn' & Hbits'). cbn in *. split; [exact Hwf|]. split; [congruence|].
    intros k Hk. rewrite Hbits' by done. case_decide; [done|]. rewrite Hbits by done. by rewrite decide_False.
  - intros j. cbn. rewrite Hent. repeat case_decide; (done || lia).
  - exact Hup.
  - split; [exact Eb|]. split; [exact Er|]. split; [exact El|exact Hsp].
Qed.

(** [pagetable_remove] of a page that is in the table. *)
Lemma pagetable_remove_page s pid a vaddr e : s.(procs) !! pid = Some (Some a) → pt_ok a.(as_pages) → a.(as_pages).(pt_locked) = false →
  0 ≤ vaddr < 2 ^ 32 → view a.(as_pages) (page_no vaddr) = Some e →
  pagetable_remove s pid vaddr = (s' ← remove_page s pid (page_no vaddr / 1024) (page_no vaddr mod 1024); Ret (true, s')).
Proof.
  intros Hproc Ht Hl Hv He. unfold pagetable_remove. destruct (indices vaddr Hv) as (Hmi & Hsi & Hp). rewrite Hmi, Hsi.
  destruct (page_index _ Hp) as [Hi Hj]. rewrite (lock_pages_correct s pid a Hproc Hl), ret_bind. set (a1 := set_pages a (set_locked a.(as_pages) true)).
  assert (procs (put_as s pid a1) !! pid = Some (Some a1)) as Hp1 by apply lookup_insert_eq.
  rewrite (get_as_correct _ pid a1 Hp1), ret_bind, (slots_isset sub_ok _ a.(as_pages).(pt_ptr)) by done.
  destruct (view_Some _ _ e Ht Hp He) as (Hb & st & Hg & Hst & Hb2 & _ & _).
  change (pt_valids (as_pages a1)) with a.(as_pages).(pt_valids). rewrite Hb, ret_bind. cbn [negb].
  unfold subtable_of. rewrite (get_as_correct _ pid a1 Hp1), ret_bind.
  change (get_subtable (as_pages a1) (page_no vaddr / 1024)) with (get_subtable a.(as_pages) (page_no vaddr / 1024)).
  rewrite Hg, ret_bind, (slots_isset _ _ _ _ Hst Hj), Hb2, ret_bind. cbn [negb].
  rewrite (unlock_pages_correct _ pid a1 Hp1 eq_refl), ret_bind.
  assert (put_as (put_as s pid a1) pid (set_pages a1 (set_locked a1.(as_pages) false)) = s) as ->; [|done].
  unfold put_as, set_procs. cbn [procs base coremap coremap_free coremap_swappable coremap_held ram vm_swap tlb]. rewrite insert_insert_eq.
  replace (set_pages a1 _) with a by (unfold a1; destruct a as [[] ]; cbn in *; by subst). rewrite insert_id by done. by destruct s.
Qed.

(** ** Properties *)

(** C12: [as_copy] of an address space that is not being destroyed, whose pages are where its entries say, no two in
    one slot, with room for another copy of each, when no allocation and no transfer to or from the swap disk fails: the new process gets every valid page in a
    frame and a slot of its own, both free before; the other pages have no entry; the original is as it was, and so
    is every frame in use; the heap and the stack have the same bounds; the copies have all permissions.  The frame
    and the slot of a copy hold what the page held, in its frame while it is in memory and in its slot otherwise,
    provided that each page in memory that is not dirty is in its slot too. *)
Theorem as_copy_copies s oldpid newpid a junk o : oldpid ≠ newpid → s.(procs) !! oldpid = Some (Some a) → copyable s a →
  (∀ q e, 0 ≤ q < 2 ^ 20 → view a.(as_pages) q = Some e → is_valid e = true → saved s e) →
  a.(as_destroying) = false → s.(procs) !! newpid = Some None → false ∉ o →
  ∃ t f g s' o' c, as_copy s oldpid newpid junk o = Ret (0, put_as s' newpid (forked a newpid junk t), o') ∧
    copied s oldpid newpid a c t f g s' ∧
    ∀ q e, 0 ≤ q < 2 ^ 20 → view a.(as_pages) q = Some e → is_valid e = true →
      frame s' (f q) = contents s e ∧ swapped s'.(vm_swap) (g q) = contents s e.
Proof.
  intros Hne Hpa Hcp Hsv Hd Hpn Ho. destruct (as_copy_correct s oldpid newpid a junk o Hne Hpa Hcp Hd Hpn Ho) as (t & f & g & s' & o' & c & Hr & Hcd).
  exists t, f, g, s', o', c. split; [done|]. split; [done|]. intros q e Hq He Hv. rewrite <-(saved_flushed s e) by (by eapply Hsv).
  by apply (copied_bytes s oldpid newpid a c t f g s').
Qed.

(** A page that is in memory and clean is copied from its slot, whatever its frame holds: the child of a process gets
    what somebody else left on the disk for each page that the process has touched but not written to. *)
Theorem as_copy_stale s oldpid newpid a junk o q e : oldpid ≠ newpid → s.(procs) !! oldpid = Some (Some a) → copyable s a →
  a.(as_destroying) = false → s.(procs) !! newpid = Some None → false ∉ o →
  0 ≤ q < 2 ^ 20 → view a.(as_pages) q = Some e → is_valid e = true → has_flag e.(pe_flags) PAGETABLE_DIRTY = false →
  ∃ t i s' o', as_copy s oldpid newpid junk o = Ret (0, put_as s' newpid (forked a newpid junk t), o') ∧
    (∃ b, view t q = Some (Entry ((s.(base) + 4096 * i) / 4096) b 115)) ∧ frame s' i = swapped s.(vm_swap) e.(pe_swap).
Proof.
  intros Hne Hpa Hcp Hd Hpn Ho Hq He Hv Hdirty. destruct (as_copy_correct s oldpid newpid a junk o Hne Hpa Hcp Hd Hpn Ho) as (t & f & g & s' & o' & c & Hr & Hcd).
  exists t, (f q), s', o'. split; [done|]. destruct (copied_bytes _ _ _ _ _ _ _ _ _ _ _ Hcd Hq He Hv) as [Hf _].
  pose proof (cd_pages _ _ _ _ _ _ _ _ _ Hcd q Hq) as Hpg. unfold page_valid in Hpg. rewrite He, Hv in Hpg. split; [exists (g q); apply Hpg|].
  rewrite Hf. unfold flushed. by rewrite Hdirty.
Qed.

Lemma pages_from_one t p : (∀ q, 0 ≤ q < 2 ^ 20 → q ≠ p → page_valid t q = false) → pages_from t 0 ≤ 1.
Proof.
  intros H. unfold pages_from. assert (∀ q, q ∈ filter (λ x, page_valid t x = true) (seqZ 0 (2 ^ 20 - 0)) → q = p) as Hall.
  { intros q [Hq Hin]%list_elem_of_filter. apply elem_of_seqZ in Hin. destruct (decide (q = p)); [done|]. rewrite H in Hq by lia. done. }
  pose proof (NoDup_filter (λ x, page_valid t x = true) _ (NoDup_seqZ 0 (2 ^ 20 - 0))) as Hnd.
  destruct (filter _ _) as [|x [|y l]]; cbn [length]; [lia|lia|].
  apply NoDup_cons in Hnd as [Hx _]. destruct Hx. rewrite (Hall x), (Hall y) by (repeat constructor). left.
Qed.

(** Process 5 with a dirty page 1024 in the first of four frames and slot 0; process 6
    has no address space. *)
Definition small_parent (t : pagetable) : vm :=
  Vm 4096 (Centry 13 5 4194304 :: replicate 3 (Centry 0 0 0)) (Bitmap 4 [241]) (Bitmap 4 [240]) false
    (with_bytes ∅ (MIPS_KSEG0 + 4096) (replicate 16384 5)) (Swap (Bitmap 4 [241]) small_slots.(swap_space) 4096)
    (<[5 := Some (Addrspace t 5 false 0 false 0 0 0)]> {[6 := None]}) [].

Lemma first_bit : wf (Bitmap 4 [241]).
Proof.
  split_and!; cbn; [lia|lia|done|by repeat constructor|]. intros i Hi.
  assert (i = 4 ∨ i = 5 ∨ i = 6 ∨ i = 7) as Hc by lia. by repeat destruct Hc as [-> |Hc]; [..|rewrite Hc].
Qed.

Lemma small_parent_machine t : machine (small_parent t).
Proof.
  constructor; [|done| |].
  - constructor; [done|split; [apply first_bit|done]|split; [apply four_bits|done]|apply (filled_bytes_mapped _ 16384)| |].
    + intros [|i] ce Hi Hb; [discriminate Hb|]. change (replicate 3 (Centry 0 0 0) !! i = Some ce) in Hi. apply lookup_replicate in Hi as [-> Hi].
      split; [reflexivity|]. do 3 (destruct i as [|i]; [reflexivity|]). lia.
    + intros [|i] ce Hi; [injection Hi as <-; discriminate|]. change (replicate 3 (Centry 0 0 0) !! i = Some ce) in Hi.
      by apply lookup_replicate in Hi as [-> _].
  - split; [|done]. destruct small_slots_ok as [H1 H2 H3 H4 H5]. constructor; [exact H1|apply first_bit|exact H3|exact H4|exact H5].
  - intros k x. unfold small_parent. cbn [ram]. rewrite with_bytes_lookup. case_decide; [|done]. intros [-> _]%lookup_replicate. lia.
Qed.

Lemma small_parent_table : ∃ t, (pt_ok t ∧ t.(pt_locked) = false) ∧ view t 1024 = Some (Entry 1 0 39) ∧
  ∀ q, 0 ≤ q < 2 ^ 20 → q ≠ 1024 → view t q = None.
Proof.
  destruct (small_table 32) as (t & b & [Ht Hl] & Hv & _ & Hnone).
  destruct (set_entry_correct t 1024 _ (Entry 1 0 39) Ht ltac:(lia) Hv) as (t' & _ & Ht' & Hl' & Hv'). exists t'. split_and!; [done|congruence| |].
  - by rewrite Hv' by lia.
  - intros q Hq Hne. rewrite Hv' by lia. rewrite (proj2 (Z.eqb_neq _ _)) by done. by apply Hnone.
Qed.

Lemma small_parent_copyable t : pt_ok t ∧ t.(pt_locked) = false → view t 1024 = Some (Entry 1 0 39) →
  (∀ q, 0 ≤ q < 2 ^ 20 → q ≠ 1024 → view t q = None) → copyable (small_parent t) (Addrspace t 5 false 0 false 0 0 0).
Proof.
  intros Ht Hv Hnone. constructor; [apply small_parent_machine|exact Ht| | |].
  - intros q e Hq He _. cbn [as_pages] in He. destruct (decide (q = 1024)) as [->|]; [|by rewrite Hnone in He]. rewrite Hv in He. injection He as <-.
    constructor; [split; [cbn; lia|reflexivity]|cbn; lia|]. intros _. exists 0. split; [|split; reflexivity].
    change (coremap_length (small_parent t)) with 4. lia.
  - intros q q' e e' Hq Hq' He He' _ _ _. cbn [as_pages] in *. destruct (decide (q = 1024)) as [->|]; [|by rewrite Hnone in He].
    destruct (decide (q' = 1024)) as [->|]; [done|by rewrite Hnone in He'].
  - cbn [as_pages]. pose proof (pages_from_one t 1024) as H1. assert (pages_from t 0 ≤ 1) as H.
    { apply H1. intros q Hq Hne. unfold page_valid. by rewrite Hnone. }
    split; (refine (Z.le_trans _ _ _ H _); vm_compute; discriminate).
Qed.

Lemma small_parent_saved t : view t 1024 = Some (Entry 1 0 39) → (∀ q, 0 ≤ q < 2 ^ 20 → q ≠ 1024 → view t q = None) →
  ∀ q e, 0 ≤ q < 2 ^ 20 → view t q = Some e → is_valid e = true → saved (small_parent t) e.
Proof.
  intros Hv Hnone q e Hq He _. destruct (decide (q = 1024)) as [->|]; [|by rewrite Hnone in He]. rewrite Hv in He. injection He as <-. reflexivity.
Qed.

Lemma as_copy_copies_witness : ∃ t s' o' t' i b, view t 1024 = Some (Entry 1 0 39) ∧
  as_copy (small_parent t) 5 6 false [] = Ret (0, s', o') ∧ s'.(procs) !! 6 = Some (Some (Addrspace t' 6 false 0 false 0 0 0)) ∧
  view t' 1024 = Some (Entry ((4096 + 4096 * i) / 4096) b 115).
Proof.
  destruct small_parent_table as (t & Ht & Hv & Hnone).
  destruct (as_copy_copies (small_parent t) 5 6 (Addrspace t 5 false 0 false 0 0 0) false [] ltac:(discriminate) (lookup_insert_eq _ _ _)
    (small_parent_copyable t Ht Hv Hnone) (small_parent_saved t Hv Hnone) eq_refl eq_refl (not_elem_of_nil _))
    as (t' & f & g & s' & o' & c & Hr & [_ _ Hpg _ _] & _).
  specialize (Hpg 1024 ltac:(lia)). unfold page_valid in Hpg. cbn [as_pages] in Hpg. rewrite Hv in Hpg. destruct Hpg as [_ _ Hpg _].
  exists t, (put_as s' 6 (Addrspace t' 6 false 0 false 0 0 0)), o', t', (f 1024), (g 1024). split; [exact Hv|]. split; [exact Hr|].
  split; [apply lookup_insert_eq|exact Hpg].
Defined.

(** [pagetable_remove] of a page that is in memory, in a frame nobody has locked and
    that is not the last, takes the entry out of the table and gives back the frame and
    the slot of swap space; every other page, frame and slot is as before. *)
Theorem pagetable_remove_frees s pid a vaddr e idx : cm_ok s → swap_ok s.(vm_swap) → s.(procs) !! pid = Some (Some a) →
  pt_ok a.(as_pages) ∧ a.(as_pages).(pt_locked) = false → 0 ≤ vaddr < 2 ^ 32 → view a.(as_pages) (page_no vaddr) = Some e →
  0 ≤ e.(pe_swap) < s.(vm_swap).(swap_freelist).(b_nbits) →
  0 ≤ idx → idx + 1 < coremap_length s → paddr_of e = s.(base) + 4096 * idx → bit s.(coremap_free) idx = true →
  bit s.(coremap_swappable) idx = false → run_at s idx 1 →
  ∃ t s', pagetable_remove s pid vaddr = Ret (true, s') ∧ removed s pid a (page_no vaddr) e idx t s'.
Proof.
  intros Hcm Hsw Hproc Ht Hv He Hslot Hi Hi1 Hpa Hfree Hbit Hrun. destruct (indices vaddr Hv) as (_ & _ & Hp).
  destruct (remove_page_correct s pid a (page_no vaddr) e idx Hcm Hsw Hproc Ht Hp He Hslot Hi Hi1 Hpa Hfree Hbit Hrun) as (t & s' & Hr & Hrm).
  exists t, s'. split; [|exact Hrm]. by rewrite (pagetable_remove_page s pid a vaddr e Hproc (proj1 Ht) (proj2 Ht) Hv He), Hr.
Qed.

Lemma pagetable_remove_frees_witness : ∃ t t' s', pagetable_remove (small_parent t) 5 4194304 = Ret (true, s') ∧
  s'.(procs) !! 5 = Some (Some (Addrspace t' 5 false 0 false 0 0 0)) ∧ view t' 1024 = None ∧ bit s'.(coremap_free) 0 = false.
Proof.
  destruct small_parent_table as (t & Ht & Hv & _). destruct (small_parent_machine t) as [Hcm _ [Hsw _] _].
  destruct (pagetable_remove_frees (small_parent t) 5 (Addrspace t 5 false 0 false 0 0 0) 4194304 (Entry 1 0 39) 0 Hcm Hsw
    (lookup_insert_eq _ _ _) Ht ltac:(lia) Hv ltac:(cbn; lia) ltac:(lia)) as (t' & s' & Hr & [(_ & _ & Hview) Hp [(_ & _ & Hf) _] _ _ _]).
  - reflexivity.
  - reflexivity.
  - reflexivity.
  - reflexivity.
  - split; [lia|]. split; [lia|]. split; [intros k Hk; lia|]. intros ce. change (Z.to_nat (0 + 1)) with 1%nat. intros [= <-]. reflexivity.
  - exists t, t', s'. split; [exact Hr|]. split; [rewrite Hp; apply lookup_insert_eq|]. split; [exact (Hview 1024 ltac:(lia))|exact (Hf 0 ltac:(lia))].
Defined.
