(* ===== verification/LongLong.v ===== *)
(** * Arithmetic on 64-bit integers (common/gcc-millicode)

    The functions gcc calls for [long long] on a machine with 32-bit integers.  The
    union of longlong.h is a pair of words; the arithmetic is two's complement, as
    longlong.h says.  A shift of a word by 32 or more is undefined. *)

From S2P Require Import Prelude.

(** ** Words *)

Definition i64 (z : Z) : Z := (z + 2 ^ 63) mod 2 ^ 64 - 2 ^ 63.

(** [union uu]: the high and the low word. *)
Record uu := UU { ui_H : Z; ui_L : Z }.

Definition uu_ll (z : Z) : uu := UU (Z.shiftr (u64 z) 32) (u32 z).
Definition ull (x : uu) : Z := Z.lor (Z.shiftl x.(ui_H) 32) x.(ui_L).
Definition ll (x : uu) : Z := i64 (ull x).
Definition si_H (x : uu) : Z := i32 x.(ui_H).

Definition INT_BITS : Z := 32.
Definition HALF_BITS : Z := 16.
Definition HHALF (x : Z) : Z := Z.shiftr (u32 x) HALF_BITS.
Definition LHALF (x : Z) : Z := Z.land (u32 x) (Z.shiftl 1 HALF_BITS - 1).
Definition LHUP (x : Z) : Z := u32 (Z.shiftl x HALF_BITS).

(** [x << s] and [x >> s] on an [unsigned int], [x >> s] on an [int]. *)
Definition shl32 (x s : Z) : res Z := if s <? INT_BITS then Ret (u32 (Z.shiftl x s)) else Undef.
Definition shr32 (x s : Z) : res Z := if s <? INT_BITS then Ret (Z.shiftr x s) else Undef.

Definition b2z (b : bool) : Z := if b then 1 else 0.

(** ** Sums, comparisons, bits and shifts *)

Definition __adddi3 (a b : Z) : Z :=
  let aa := uu_ll a in
  let bb := uu_ll b in
  let sum_L := u32 (aa.(ui_L) + bb.(ui_L)) in
  ll (UU (u32 (aa.(ui_H) + bb.(ui_H) + b2z (sum_L <? bb.(ui_L)))) sum_L).

Definition __subdi3 (a b : Z) : Z :=
  let aa := uu_ll a in
  let bb := uu_ll b in
  let diff_L := u32 (aa.(ui_L) - bb.(ui_L)) in
  ll (UU (u32 (aa.(ui_H) - bb.(ui_H) - b2z (aa.(ui_L) <? diff_L))) diff_L).

Definition __negdi2 (a : Z) : Z :=
  let aa := uu_ll a in
  let res_L := u32 (- aa.(ui_L)) in
  ll (UU (u32 (- aa.(ui_H) - b2z (0 <? res_L))) res_L).

Definition __cmpdi2 (a b : Z) : Z :=
  let aa := uu_ll a in
  let bb := uu_ll b in
  if si_H aa <? si_H bb then 0 else if si_H bb <? si_H aa then 2 else
  if aa.(ui_L) <? bb.(ui_L) then 0 else if bb.(ui_L) <? aa.(ui_L) then 2 else 1.

Definition __ucmpdi2 (a b : Z) : Z :=
  let aa := uu_ll a in
  let bb := uu_ll b in
  if aa.(ui_H) <? bb.(ui_H) then 0 else if bb.(ui_H) <? aa.(ui_H) then 2 else
  if aa.(ui_L) <? bb.(ui_L) then 0 else if bb.(ui_L) <? aa.(ui_L) then 2 else 1.

Definition __anddi3 (a b : Z) : Z :=
  let aa := uu_ll a in
  let bb := uu_ll b in
  ll (UU (Z.land aa.(ui_H) bb.(ui_H)) (Z.land aa.(ui_L) bb.(ui_L))).

Definition __iordi3 (a b : Z) : Z :=
  let aa := uu_ll a in
  let bb := uu_ll b in
  ll (UU (Z.lor aa.(ui_H) bb.(ui_H)) (Z.lor aa.(ui_L) bb.(ui_L))).

Definition __xordi3 (a b : Z) : Z :=
  let aa := uu_ll a in
  let bb := uu_ll b in
  ll (UU (Z.lxor aa.(ui_H) bb.(ui_H)) (Z.lxor aa.(ui_L) bb.(ui_L))).

Definition __one_cmpldi2 (a : Z) : Z :=
  let aa := uu_ll a in
  ll (UU (u32 (Z.lnot aa.(ui_H))) (u32 (Z.lnot aa.(ui_L)))).

Definition __ashldi3 (a shift : Z) : res Z :=
  if shift =? 0 then Ret a else
  let aa := uu_ll a in
  if INT_BITS <=? shift then
    h ← shl32 aa.(ui_L) (shift - INT_BITS);
    Ret (ll (UU h 0))
  else
    h ← shl32 aa.(ui_H) shift;
    c ← shr32 aa.(ui_L) (INT_BITS - shift);
    l ← shl32 aa.(ui_L) shift;
    Ret (ll (UU (Z.lor h c) l)).

Definition __lshldi3 (a shift : Z) : res Z :=
  if shift =? 0 then Ret a else
  let aa := uu_ll a in
  if INT_BITS <=? shift then
    h ← shl32 aa.(ui_L) (shift - INT_BITS);
    Ret (ll (UU h 0))
  else
    h ← shl32 aa.(ui_H) shift;
    c ← shr32 aa.(ui_L) (INT_BITS - shift);
    l ← shl32 aa.(ui_L) shift;
    Ret (ll (UU (Z.lor h c) l)).

Definition __lshrdi3 (a shift : Z) : res Z :=
  if shift =? 0 then Ret a else
  let aa := uu_ll a in
  if INT_BITS <=? shift then
    l ← shr32 aa.(ui_H) (shift - INT_BITS);
    Ret (ll (UU 0 l))
  else
    l ← shr32 aa.(ui_L) shift;
    c ← shl32 aa.(ui_H) (INT_BITS - shift);
    h ← shr32 aa.(ui_H) shift;
    Ret (ll (UU h (Z.lor l c))).

Definition __ashrdi3 (a shift : Z) : res Z :=
  if shift =? 0 then Ret a else
  let aa := uu_ll a in
  if INT_BITS <=? shift then
    s ← shr32 (si_H aa) (INT_BITS - 1);
    s ← shr32 s 1;
    l ← shr32 (si_H aa) (shift - INT_BITS);
    Ret (ll (UU (u32 s) (u32 l)))
  else
    l ← shr32 aa.(ui_L) shift;
    c ← shl32 aa.(ui_H) (INT_BITS - shift);
    h ← shr32 (si_H aa) shift;
    Ret (ll (UU (u32 h) (Z.lor l c))).

(** ** Multiplication *)

(** [x1 - x0] without its sign, and whether it is negative. *)
Definition absdiff (x1 x0 : Z) : Z * bool :=
  if x0 <=? x1 then (u32 (x1 - x0), false) else (u32 (x0 - x1), true).

(** [(prodh, prodl)] plus [x << N], the carry being seen in the low word. *)
Definition add_half (prodh prodl x : Z) : Z * Z :=
  let l := u32 (prodl + LHUP x) in
  (u32 (prodh + u32 (HHALF x + b2z (l <? prodl))), l).
Definition sub_half (prodh prodl x : Z) : Z * Z :=
  let l := u32 (prodl - LHUP x) in
  (u32 (prodh - u32 (HHALF x + b2z (prodl <? l))), l).

Definition __lmulq (u v : Z) : uu :=
  let u1 := HHALF u in
  let u0 := LHALF u in
  let v1 := HHALF v in
  let v0 := LHALF v in
  let low := u32 (u0 * v0) in
  if (u1 =? 0) && (v1 =? 0) then UU 0 low else
  let '(udiff, uneg) := absdiff u1 u0 in
  let '(vdiff, vneg) := absdiff v0 v1 in
  let neg := xorb uneg vneg in
  let mid := u32 (udiff * vdiff) in
  let high := u32 (u1 * v1) in
  let prodh := u32 (high + HHALF high) in
  let prodl := LHUP high in
  let '(prodh, prodl) := if neg then sub_half prodh prodl mid else add_half prodh prodl mid in
  let '(prodh, prodl) := add_half prodh prodl low in
  let prodl := u32 (prodl + low) in
  let prodh := if prodl <? low then u32 (prodh + 1) else prodh in
  UU prodh prodl.

Definition __muldi3 (a b : Z) : Z :=
  let '(u, nega) := if 0 <=? a then (uu_ll a, false) else (uu_ll (- a), true) in
  let '(v, negb') := if 0 <=? b then (uu_ll b, false) else (uu_ll (- b), true) in
  let negall := xorb nega negb' in
  let u1 := u.(ui_H) in
  let u0 := u.(ui_L) in
  let v1 := v.(ui_H) in
  let v0 := v.(ui_L) in
  let prod :=
    if (u1 =? 0) && (v1 =? 0) then __lmulq u0 v0 else
    let low := __lmulq u0 v0 in
    let '(udiff, uneg) := absdiff u1 u0 in
    let '(vdiff, vneg) := absdiff v0 v1 in
    let negmid := xorb uneg vneg in
    let mid := u32 (udiff * vdiff) in
    let high := u32 (u1 * v1) in
    UU (u32 (high + (if negmid then u32 (- mid) else mid) + low.(ui_L) + low.(ui_H))) low.(ui_L) in
  if negall then i64 (- ll prod) else ll prod.

(** ** Words and their bits *)

Lemma lor_add a b k : 0 ≤ k → 0 ≤ b < 2 ^ k → Z.lor (a * 2 ^ k) b = a * 2 ^ k + b.
Proof.
  intros Hk Hb. symmetry. rewrite Z.add_nocarry_lxor; [apply Z.lxor_lor|];
    apply Z.bits_inj_0; intros i; rewrite Z.land_spec, <-Z.shiftl_mul_pow2 by done;
    (destruct (decide (i < k)); [by rewrite Z.shiftl_spec_low|]);
    rewrite <-(Z.mod_small b (2 ^ k)), Z.mod_pow2_bits_high by lia; apply andb_false_r.
Qed.

Lemma ull_eq h l : 0 ≤ l < 2 ^ 32 → ull (UU h l) = h * 2 ^ 32 + l.
Proof. intros. unfold ull. cbn [ui_H ui_L]. rewrite Z.shiftl_mul_pow2 by lia. by apply lor_add. Qed.

Lemma i64_id z : - 2 ^ 63 ≤ z < 2 ^ 63 → i64 z = z.
Proof. intros. unfold i64. rewrite Z.mod_small by lia. lia. Qed.

Lemma i64_range z : - 2 ^ 63 ≤ i64 z < 2 ^ 63.
Proof. unfold i64. pose proof (Z.mod_pos_bound (z + 2 ^ 63) (2 ^ 64)). lia. Qed.

(** [i64] depends on the remainder modulo 2^64 only. *)
Lemma i64_eqm k a b : a = b + k * 2 ^ 64 → i64 a = i64 b.
Proof. intros ->. unfold i64. rewrite <-(Z_mod_plus_full (b + 2 ^ 63) k). do 2 f_equal. lia. Qed.

Lemma i64_u64 z : i64 (u64 z) = i64 z.
Proof. apply (i64_eqm (- (z / 2 ^ 64))). unfold u64. zdiv_lia. Qed.

(** The two words of a number. *)
Lemma uu_ll_split a : ∃ h l k, uu_ll a = UU h l ∧ 0 ≤ h < 2 ^ 32 ∧ 0 ≤ l < 2 ^ 32 ∧
  u64 a = h * 2 ^ 32 + l ∧ a = h * 2 ^ 32 + l + k * 2 ^ 64.
Proof.
  exists (u64 a / 2 ^ 32), (u32 a), (a / 2 ^ 64). unfold uu_ll. rewrite Z.shiftr_div_pow2 by lia.
  split; [done|]. unfold u64, u32. zdiv_lia.
Qed.

(** The sign of a number is that of its high word. *)
Lemma si_H_split a h l k : - 2 ^ 63 ≤ a < 2 ^ 63 → 0 ≤ h < 2 ^ 32 → 0 ≤ l < 2 ^ 32 →
  a = h * 2 ^ 32 + l + k * 2 ^ 64 → a = i32 h * 2 ^ 32 + l.
Proof. intros. unfold i32. zdiv_lia. Qed.

Ltac words a h l k :=
  let Hu := fresh "Hu" in let Ha := fresh "Ha" in
  destruct (uu_ll_split a) as (h & l & k & -> & ? & ? & Hu & Ha); cbn [ui_H ui_L].

(** ** Bits *)

Lemma testbit_div a i : 0 ≤ i → Z.testbit a i = ((a / 2 ^ i) mod 2 =? 1).
Proof. intros Hi. apply eq_iff_eq_true. by rewrite Z.testbit_true, Z.eqb_eq. Qed.

Lemma testbit_sign n x i : 0 ≤ n ≤ i → - 2 ^ n ≤ x < 2 ^ n → Z.testbit x i = (x <? 0).
Proof.
  intros Hi Hx. rewrite testbit_div by lia. pose proof (Z.pow_le_mono_r 2 n i).
  destruct (Z.ltb_spec x 0).
  - by rewrite <-(Z.div_unique x (2 ^ i) (-1) (x + 2 ^ i)) by lia.
  - by rewrite Z.div_small by lia.
Qed.

Lemma i64_testbit z i : 0 ≤ i → Z.testbit (i64 z) i = Z.testbit z (Z.min i 63).
Proof.
  intros Hi.
  assert (∀ j, 0 ≤ j < 64 → Z.testbit (i64 z) j = Z.testbit z j) as Hlow.
  { intros j Hj. rewrite <-(Z.mod_pow2_bits_low (i64 z) 64), <-(Z.mod_pow2_bits_low z 64) by lia.
    f_equal. change (u64 (i64 z) = u64 z). unfold u64, i64. zdiv_lia. }
  destruct (decide (i < 63)); [rewrite Z.min_l by lia; apply Hlow; lia|].
  rewrite Z.min_r by lia. rewrite <-(Hlow 63) by lia.
  pose proof (i64_range z). by rewrite !(testbit_sign 63) by lia.
Qed.

Lemma ll_testbit h l i : 0 ≤ i → 0 ≤ l < 2 ^ 32 → Z.testbit (ll (UU h l)) i =
  let j := Z.min i 63 in if j <? 32 then Z.testbit l j else Z.testbit h (j - 32).
Proof.
  intros Hi Hl. cbv zeta. unfold ll, ull. cbn [ui_H ui_L]. rewrite i64_testbit, Z.lor_spec by done.
  destruct (Z.ltb_spec (Z.min i 63) 32).
  - by rewrite Z.shiftl_spec_low.
  - rewrite Z.shiftl_spec, (testbit_sign 32 l), (proj2 (Z.ltb_ge _ _)) by lia. apply orb_false_r.
Qed.

(** A word of a number has its bits. *)
Lemma uu_ll_testbit a j : 0 ≤ j < 64 → Z.testbit a j =
  if j <? 32 then Z.testbit (uu_ll a).(ui_L) j else Z.testbit (uu_ll a).(ui_H) (j - 32).
Proof.
  intros Hj. unfold uu_ll, u64, u32. cbn [ui_H ui_L]. case_cmp.
  - by rewrite Z.mod_pow2_bits_low by lia.
  - rewrite Z.shiftr_spec, Z.mod_pow2_bits_low by lia. f_equal. lia.
Qed.

Lemma land_word x y : 0 ≤ x < 2 ^ 32 → 0 ≤ Z.land x y < 2 ^ 32.
Proof.
  intros. rewrite <-(Z.mod_small x (2 ^ 32)), <-Z.land_ones, Z.land_comm, Z.land_assoc,
    Z.land_ones by lia. apply Z.mod_pos_bound. lia.
Qed.

Lemma word_bound x : (∀ i, 32 ≤ i → Z.testbit x i = false) → 0 ≤ x < 2 ^ 32.
Proof.
  intros Hx. assert (x = x mod 2 ^ 32) as ->; [|apply Z.mod_pos_bound; lia].
  apply Z.bits_inj'. intros i Hi. destruct (decide (i < 32)).
  - by rewrite Z.mod_pow2_bits_low.
  - by rewrite Hx, Z.mod_pow2_bits_high by lia.
Qed.

Lemma word_high x i : 0 ≤ x < 2 ^ 32 → 32 ≤ i → Z.testbit x i = false.
Proof. intros. rewrite (testbit_sign 32) by lia. apply Z.ltb_ge. lia. Qed.

Lemma uu_ll_low a : 0 ≤ (uu_ll a).(ui_L) < 2 ^ 32.
Proof. apply u32_range. Qed.

(** An operation on bits can be done on the words. *)
Lemma bitwise_words (op : Z → Z → Z) (f : bool → bool → bool) a b :
  (∀ x y i, 0 ≤ i → Z.testbit (op x y) i = f (Z.testbit x i) (Z.testbit y i)) →
  f false false = false → - 2 ^ 63 ≤ a < 2 ^ 63 → - 2 ^ 63 ≤ b < 2 ^ 63 →
  ll (UU (op (uu_ll a).(ui_H) (uu_ll b).(ui_H)) (op (uu_ll a).(ui_L) (uu_ll b).(ui_L))) = op a b.
Proof.
  intros Hop Hf Ha Hb. apply Z.bits_inj'. intros i Hi.
  rewrite ll_testbit; [|done|].
  - rewrite Hop, <-(i64_id a), <-(i64_id b), !i64_testbit by done. rewrite (i64_id a), (i64_id b) by done.
    cbv zeta. rewrite (uu_ll_testbit a (Z.min i 63)), (uu_ll_testbit b (Z.min i 63)) by lia.
    case_cmp; by rewrite Hop by lia.
  - apply word_bound. intros j Hj. rewrite Hop by lia. by rewrite !word_high by (apply uu_ll_low || lia).
Qed.

Lemma one_cmpldi2_correct a : - 2 ^ 63 ≤ a < 2 ^ 63 → __one_cmpldi2 a = Z.lnot a.
Proof.
  intros Ha. unfold __one_cmpldi2. words a h l k. unfold ll.
  rewrite ull_eq by apply u32_range. rewrite <-(i64_id (Z.lnot a)) by (unfold Z.lnot; lia).
  unfold u32, Z.lnot. rewrite <-!Z.sub_1_r. apply (i64_eqm (k + 1)). zdiv_lia.
Qed.

(** ** Sums and comparisons *)

Lemma adddi3_correct a b : __adddi3 a b = i64 (a + b).
Proof.
  unfold __adddi3. words a h l k. words b h' l' k'. unfold ll. rewrite ull_eq by apply u32_range.
  apply (i64_eqm (- (k + k' + (h + h' + b2z (u32 (l + l') <? l')) / 2 ^ 32))).
  unfold u32, b2z. case_cmp; zdiv_lia.
Qed.

Lemma subdi3_correct a b : __subdi3 a b = i64 (a - b).
Proof.
  unfold __subdi3. words a h l k. words b h' l' k'. unfold ll. rewrite ull_eq by apply u32_range.
  apply (i64_eqm (- (k - k' + (h - h' - b2z (l <? u32 (l - l'))) / 2 ^ 32))).
  unfold u32, b2z. case_cmp; zdiv_lia.
Qed.

Lemma negdi2_correct a : __negdi2 a = i64 (- a).
Proof.
  unfold __negdi2. words a h l k. unfold ll. rewrite ull_eq by apply u32_range.
  apply (i64_eqm (k - (- h - b2z (0 <? u32 (- l))) / 2 ^ 32)).
  unfold u32, b2z. case_cmp; zdiv_lia.
Qed.

(** "0, 1, or 2 as a <, =, > b". *)
Definition order (a b : Z) : Z := match a ?= b with Lt => 0 | Eq => 1 | Gt => 2 end.

Lemma cmpdi2_correct a b : - 2 ^ 63 ≤ a < 2 ^ 63 → - 2 ^ 63 ≤ b < 2 ^ 63 → __cmpdi2 a b = order a b.
Proof.
  intros ? ?. unfold __cmpdi2, si_H. words a h l k. words b h' l' k'.
  pose proof (si_H_split a h l k). pose proof (si_H_split b h' l' k').
  unfold order. repeat case_cmp; destruct (Z.compare_spec a b); lia.
Qed.

Lemma ucmpdi2_correct a b : 0 ≤ a < 2 ^ 64 → 0 ≤ b < 2 ^ 64 → __ucmpdi2 a b = order a b.
Proof.
  intros ? ?. unfold __ucmpdi2. words a h l k. words b h' l' k'.
  unfold order. repeat case_cmp; destruct (Z.compare_spec a b); lia.
Qed.

(** ** Shifts *)

Lemma shl32_eq x s : 0 ≤ s < 32 → shl32 x s = Ret (u32 (x * 2 ^ s)).
Proof.
  intros. unfold shl32, INT_BITS. rewrite (proj2 (Z.ltb_lt _ _)), Z.shiftl_mul_pow2 by lia. done.
Qed.

Lemma shr32_eq x s : 0 ≤ s < 32 → shr32 x s = Ret (x / 2 ^ s).
Proof.
  intros. unfold shr32, INT_BITS. rewrite (proj2 (Z.ltb_lt _ _)), Z.shiftr_div_pow2 by lia. done.
Qed.

(** The two parts of a word that a shift by [s] separates. *)
Lemma split_word s : 0 < s < 32 →
  2 ^ 32 = 2 ^ (32 - s) * 2 ^ s ∧ 0 < 2 ^ s ∧ 0 < 2 ^ (32 - s).
Proof.
  intros. rewrite <-Z.pow_add_r by lia. replace (32 - s + s) with 32 by lia.
  split; [done|]. split; apply Z.pow_pos_nonneg; lia.
Qed.

Lemma u32_shl x s : 0 < s < 32 → u32 (x * 2 ^ s) = x mod 2 ^ (32 - s) * 2 ^ s.
Proof.
  intros. destruct (split_word s) as (Hp & ? & ?); [done|]. unfold u32.
  rewrite Hp, Z.mul_mod_distr_r by lia. done.
Qed.

(** The upper word of [a << s]. *)
Lemma shl_words h l s : 0 < s < 32 → 0 ≤ l < 2 ^ 32 →
  Z.lor (u32 (h * 2 ^ s)) (l / 2 ^ (32 - s)) = u32 (h * 2 ^ s) + l / 2 ^ (32 - s).
Proof.
  intros Hs Hl. destruct (split_word s) as (Hp & ? & ?); [done|]. rewrite u32_shl by done. apply lor_add; [lia|].
  split; [apply Z.div_pos; lia|]. apply Z.div_lt_upper_bound; lia.
Qed.

(** The lower word of [a >> s]. *)
Lemma shr_words h l s : 0 < s < 32 → 0 ≤ l < 2 ^ 32 →
  Z.lor (l / 2 ^ s) (u32 (h * 2 ^ (32 - s))) = l / 2 ^ s + u32 (h * 2 ^ (32 - s)) ∧
  0 ≤ l / 2 ^ s + u32 (h * 2 ^ (32 - s)) < 2 ^ 32.
Proof.
  intros Hs Hl. rewrite Z.lor_comm, Z.add_comm, u32_shl by lia. replace (32 - (32 - s)) with s by lia.
  destruct (split_word s) as (Hp & ? & ?); [done|].
  assert (0 ≤ l / 2 ^ s < 2 ^ (32 - s)) as Hb.
  { split; [apply Z.div_pos; lia|]. apply Z.div_lt_upper_bound; lia. }
  pose proof (Z.mod_pos_bound h (2 ^ s)).
  split; [apply lor_add; lia|]. rewrite Hp. nia.
Qed.

Lemma shl_total h l s : 0 < s < 32 → 0 ≤ l < 2 ^ 32 →
  (u32 (h * 2 ^ s) + l / 2 ^ (32 - s)) * 2 ^ 32 + u32 (l * 2 ^ s) =
  (h * 2 ^ 32 + l) * 2 ^ s + - (h / 2 ^ (32 - s)) * 2 ^ 64.
Proof.
  intros Hs Hl. destruct (split_word s) as (Hp & ? & ?); [done|]. rewrite !u32_shl by done.
  rewrite (Z.div_mod h (2 ^ (32 - s))) at 2 by lia. rewrite (Z.div_mod l (2 ^ (32 - s))) at 3 by lia.
  change (2 ^ 64) with (2 ^ 32 * 2 ^ 32). rewrite Hp.
  generalize (h / 2 ^ (32 - s)), (h mod 2 ^ (32 - s)), (l / 2 ^ (32 - s)), (l mod 2 ^ (32 - s)).
  generalize (2 ^ (32 - s)), (2 ^ s). intros. ring.
Qed.

Lemma shr_total h l s : 0 < s < 32 → 0 ≤ l < 2 ^ 32 →
  (h * 2 ^ 32 + l) / 2 ^ s = (h / 2 ^ s) * 2 ^ 32 + (l / 2 ^ s + u32 (h * 2 ^ (32 - s))).
Proof.
  intros Hs Hl. destruct (split_word s) as (Hp & ? & ?); [done|]. rewrite u32_shl by lia.
  replace (32 - (32 - s)) with s by lia.
  pose proof (Z.mod_pos_bound l (2 ^ s)).
  symmetry. apply (Z.div_unique _ _ _ (l mod 2 ^ s)); [lia|].
  rewrite (Z.div_mod h (2 ^ s)) at 1 by lia. rewrite (Z.div_mod l (2 ^ s)) at 1 by lia.
  rewrite Hp. generalize (h / 2 ^ s), (h mod 2 ^ s), (l / 2 ^ s), (l mod 2 ^ s).
  generalize (2 ^ (32 - s)), (2 ^ s). intros. ring.
Qed.

Lemma i32_mul_u32 h x : u32 (i32 h * x) = u32 (h * x).
Proof.
  unfold u32, i32. rewrite <-(Z_mod_plus_full (h * x) (- ((h + 2 ^ 31) / 2 ^ 32) * x)).
  f_equal. rewrite Z.mod_eq by lia. ring.
Qed.

Lemma ashldi3_correct a s : - 2 ^ 63 ≤ a < 2 ^ 63 → 0 ≤ s < 64 →
  __ashldi3 a s = Ret (i64 (Z.shiftl a s)).
Proof.
  intros Ha Hs. rewrite Z.shiftl_mul_pow2 by lia. unfold __ashldi3, INT_BITS.
  destruct (Z.eqb_spec s 0) as [->|].
  { rewrite i64_id by lia. f_equal. lia. }
  words a h l k. case_cmp.
  - rewrite shl32_eq by lia. cbn -[i64 u32 ll Z.pow Z.mul]. unfold ll. rewrite ull_eq by lia. f_equal.
    assert (2 ^ s = 2 ^ (s - 32) * 2 ^ 32) as -> by (rewrite <-Z.pow_add_r by lia; f_equal; lia).
    apply (i64_eqm (- ((h + k * 2 ^ 32) * 2 ^ (s - 32) + l * 2 ^ (s - 32) / 2 ^ 32))).
    unfold u32. pose proof (Z.div_mod (l * 2 ^ (s - 32)) (2 ^ 32)).
    change (2 ^ 64) with (2 ^ 32 * 2 ^ 32) in *. nia.
  - rewrite !shl32_eq, shr32_eq by lia. cbn -[i64 u32 ll Z.pow Z.mul Z.sub Z.lor].
    rewrite shl_words by lia. unfold ll. rewrite ull_eq by apply u32_range.
    rewrite shl_total by lia. f_equal.
    apply (i64_eqm (- (h / 2 ^ (32 - s)) - k * 2 ^ s)). nia.
Qed.

Lemma lshldi3_correct a s : - 2 ^ 63 ≤ a < 2 ^ 63 → 0 ≤ s < 64 →
  __lshldi3 a s = Ret (i64 (Z.shiftl a s)).
Proof. apply ashldi3_correct. Qed.

Lemma lshrdi3_correct a s : - 2 ^ 63 ≤ a < 2 ^ 63 → 0 ≤ s < 64 →
  __lshrdi3 a s = Ret (i64 (Z.shiftr (u64 a) s)).
Proof.
  intros Ha Hs. rewrite Z.shiftr_div_pow2 by lia. unfold __lshrdi3, INT_BITS.
  destruct (Z.eqb_spec s 0) as [->|].
  { rewrite Z.div_1_r, i64_u64, i64_id by lia. done. }
  words a h l k. rewrite Hu. case_cmp.
  - rewrite shr32_eq by lia. cbn -[i64 u32 ll Z.pow Z.mul Z.div]. unfold ll.
    assert (0 < 2 ^ (s - 32)) by (apply Z.pow_pos_nonneg; lia).
    assert (0 ≤ h / 2 ^ (s - 32) < 2 ^ 32).
    { split; [apply Z.div_pos; lia|]. apply Z.div_lt_upper_bound; nia. }
    rewrite ull_eq by lia. do 2 f_equal. replace s with (32 + (s - 32)) at 2 by lia.
    rewrite Z.pow_add_r, <-Z.div_div, Z.div_add_l, (Z.div_small l) by lia.
    rewrite Z.add_0_r. lia.
  - rewrite !shr32_eq, shl32_eq by lia. cbn -[i64 u32 ll Z.pow Z.mul Z.sub Z.lor Z.div].
    destruct (shr_words h l s) as [-> Hw]; [lia..|]. unfold ll. by rewrite ull_eq, shr_total by lia.
Qed.

Lemma ashrdi3_correct a s : - 2 ^ 63 ≤ a < 2 ^ 63 → 0 ≤ s < 64 →
  __ashrdi3 a s = Ret (Z.shiftr a s).
Proof.
  intros Ha Hs. rewrite Z.shiftr_div_pow2 by lia. unfold __ashrdi3, INT_BITS.
  destruct (Z.eqb_spec s 0) as [->|]; [by rewrite Z.div_1_r|].
  assert (0 < 2 ^ s) by (apply Z.pow_pos_nonneg; lia).
  assert (- 2 ^ 63 ≤ a / 2 ^ s < 2 ^ 63).
  { split; [apply Z.div_le_lower_bound|apply Z.div_lt_upper_bound]; nia. }
  words a h l k. pose proof (si_H_split a h l k) as Hsi. unfold si_H. cbn [ui_H].
  pose proof (i32_range h) as Hi. set (i := i32 h) in *. specialize (Hsi ltac:(done) ltac:(done) ltac:(done) ltac:(done)).
  case_cmp.
  - rewrite !shr32_eq by lia. cbn -[i64 u32 ll Z.pow Z.mul Z.div Z.sub]. unfold ll.
    rewrite ull_eq by apply u32_range. rewrite <-(i64_id (a / 2 ^ s)) by done. f_equal.
    assert (a / 2 ^ s = i / 2 ^ (s - 32)) as ->.
    { replace s with (32 + (s - 32)) at 1 by lia.
      rewrite Z.pow_add_r, <-Z.div_div, Hsi, Z.div_add_l, (Z.div_small l), Z.add_0_r by lia. done. }
    assert (0 < 2 ^ (s - 32)) by (apply Z.pow_pos_nonneg; lia).
    assert (- 2 ^ 31 ≤ i / 2 ^ (s - 32) < 2 ^ 31 ∧ (i / 2 ^ (s - 32) < 0 ↔ i < 0)) as [? ?].
    { split; [split; [apply Z.div_le_lower_bound|apply Z.div_lt_upper_bound]; nia|].
      pose proof (Z.div_mod i (2 ^ (s - 32))). pose proof (Z.mod_pos_bound i (2 ^ (s - 32))). nia. }
    apply (i64_eqm (if decide (i < 0) then 1 else 0)). change (2 ^ (32 - 1)) with (2 ^ 31).
    rewrite Z.shiftr_div_pow2 by lia. change (2 ^ 1) with 2.
    clear Ha Hs H H0 Hu Ha0 Hsi. clearbody i. revert H5 H6. generalize (i / 2 ^ (s - 32)). intros y Hy Hyi.
    clear H4. unfold u32. case_decide; zdiv_lia.
  - rewrite !shr32_eq, shl32_eq by lia. cbn -[i64 u32 ll Z.pow Z.mul Z.sub Z.lor Z.div].
    destruct (shr_words h l s) as [-> Hw]; [lia..|]. unfold ll. rewrite ull_eq by lia.
    rewrite <-(i64_id (a / 2 ^ s)) by done. f_equal. rewrite Hsi, shr_total by lia.
    unfold i. rewrite i32_mul_u32. fold i.
    generalize (l / 2 ^ s + u32 (h * 2 ^ (32 - s))), (i / 2 ^ s). intros x y.
    apply (i64_eqm (- (y / 2 ^ 32))). unfold u32. zdiv_lia.
Qed.

Lemma shift_too_far a s : 64 ≤ s →
  __ashldi3 a s = Undef ∧ __lshldi3 a s = Undef ∧ __lshrdi3 a s = Undef ∧ __ashrdi3 a s = Undef.
Proof.
  intros Hs. unfold __ashldi3, __lshldi3, __lshrdi3, __ashrdi3, INT_BITS.
  rewrite (proj2 (Z.eqb_neq _ _)), (proj2 (Z.leb_le _ _)) by lia.
  assert (∀ x, shl32 x (s - 32) = Undef ∧ shr32 x (s - 32) = Undef) as Hsh.
  { intros x. unfold shl32, shr32, INT_BITS. by rewrite (proj2 (Z.ltb_ge _ _)) by lia. }
  rewrite !(proj1 (Hsh _)), !(proj2 (Hsh _)). done.
Qed.

(** ** Products *)

Lemma HHALF_eq x : 0 ≤ x < 2 ^ 32 → HHALF x = x / 2 ^ 16.
Proof. intros. unfold HHALF, HALF_BITS. by rewrite u32_id, Z.shiftr_div_pow2 by lia. Qed.

Lemma LHALF_eq x : 0 ≤ x < 2 ^ 32 → LHALF x = x mod 2 ^ 16.
Proof.
  intros. unfold LHALF, HALF_BITS. rewrite u32_id by lia.
  change (Z.shiftl 1 16 - 1) with (Z.ones 16). by rewrite Z.land_ones by lia.
Qed.

Lemma LHUP_eq x : LHUP x = u32 (x * 2 ^ 16).
Proof. unfold LHUP, HALF_BITS. by rewrite Z.shiftl_mul_pow2 by lia. Qed.

Lemma absdiff_correct x1 x0 n : 0 ≤ x1 < n → 0 ≤ x0 < n → n ≤ 2 ^ 32 → ∃ d neg,
  absdiff x1 x0 = (d, neg) ∧ 0 ≤ d < n ∧ x1 - x0 = if (neg : bool) then - d else d.
Proof.
  intros. unfold absdiff. case_cmp; rewrite u32_id by lia; eexists _, _; (split; [done|]); lia.
Qed.

Lemma add_half_correct h l x : 0 ≤ l < 2 ^ 32 → 0 ≤ x < 2 ^ 32 → ∃ h' l' k,
  add_half h l x = (h', l') ∧ 0 ≤ h' < 2 ^ 32 ∧ 0 ≤ l' < 2 ^ 32 ∧
  h' * 2 ^ 32 + l' = h * 2 ^ 32 + l + x * 2 ^ 16 + k * 2 ^ 64.
Proof.
  intros Hl Hx. unfold add_half. rewrite LHUP_eq, HHALF_eq by done.
  set (c := b2z _). assert (c = (l + u32 (x * 2 ^ 16)) / 2 ^ 32) as Hc.
  { unfold c, b2z. unfold u32 at 1. pose proof (u32_range (x * 2 ^ 16)). case_cmp; zdiv_lia. }
  eexists _, _, _. split; [done|]. split; [apply u32_range|]. split; [apply u32_range|].
  instantiate (1 := - ((h + u32 (x / 2 ^ 16 + c)) / 2 ^ 32)). clearbody c. subst c. unfold u32. zdiv_lia.
Qed.

Lemma sub_half_correct h l x : 0 ≤ l < 2 ^ 32 → 0 ≤ x < 2 ^ 32 → ∃ h' l' k,
  sub_half h l x = (h', l') ∧ 0 ≤ h' < 2 ^ 32 ∧ 0 ≤ l' < 2 ^ 32 ∧
  h' * 2 ^ 32 + l' = h * 2 ^ 32 + l - x * 2 ^ 16 + k * 2 ^ 64.
Proof.
  intros Hl Hx. unfold sub_half. rewrite LHUP_eq, HHALF_eq by done.
  set (c := b2z _). assert (c = - ((l - u32 (x * 2 ^ 16)) / 2 ^ 32)) as Hc.
  { unfold c, b2z. unfold u32 at 1. pose proof (u32_range (x * 2 ^ 16)). case_cmp; zdiv_lia. }
  eexists _, _, _. split; [done|]. split; [apply u32_range|]. split; [apply u32_range|].
  instantiate (1 := - ((h - u32 (x / 2 ^ 16 + c)) / 2 ^ 32)). clearbody c. subst c. unfold u32. zdiv_lia.
Qed.

Lemma half_word x : 0 ≤ x < 2 ^ 32 → ∃ x1 x0, HHALF x = x1 ∧ LHALF x = x0 ∧
  0 ≤ x1 < 2 ^ 16 ∧ 0 ≤ x0 < 2 ^ 16 ∧ x = x1 * 2 ^ 16 + x0.
Proof.
  intros. exists (x / 2 ^ 16), (x mod 2 ^ 16). rewrite HHALF_eq, LHALF_eq by done.
  do 2 (split; [done|]). zdiv_lia.
Qed.

Lemma half_mul x y : 0 ≤ x < 2 ^ 16 → 0 ≤ y < 2 ^ 16 → u32 (x * y) = x * y ∧ 0 ≤ x * y < 2 ^ 32.
Proof. intros. assert (0 ≤ x * y < 2 ^ 32) by nia. by rewrite u32_id. Qed.

(** The sum of the two upper terms of the product, by the sign of the middle one. *)
Lemma lmulq_upper u1 u0 v1 v0 ud un vd vn :
  0 ≤ u1 * v1 < 2 ^ 32 → 0 ≤ ud * vd < 2 ^ 32 →
  u1 - u0 = (if (un : bool) then - ud else ud) → v0 - v1 = (if (vn : bool) then - vd else vd) →
  let prodh := u32 (u1 * v1 + HHALF (u1 * v1)) in
  let prodl := LHUP (u1 * v1) in
  ∃ h l k, (if xorb un vn then sub_half prodh prodl (ud * vd) else add_half prodh prodl (ud * vd)) = (h, l) ∧
    0 ≤ h < 2 ^ 32 ∧ 0 ≤ l < 2 ^ 32 ∧
    h * 2 ^ 32 + l = u1 * v1 * 2 ^ 32 + u1 * v1 * 2 ^ 16 + (u1 - u0) * (v0 - v1) * 2 ^ 16 + k * 2 ^ 64.
Proof.
  intros Hhigh Hmid Eu Ev prodh prodl.
  assert (prodh * 2 ^ 32 + prodl = u1 * v1 * 2 ^ 32 + u1 * v1 * 2 ^ 16 +
    - ((u1 * v1 + u1 * v1 / 2 ^ 16) / 2 ^ 32) * 2 ^ 64) as Hk.
  { unfold prodh, prodl. rewrite HHALF_eq, LHUP_eq by done. unfold u32. zdiv_lia. }
  assert (0 ≤ prodl < 2 ^ 32) as Hl by (unfold prodl; rewrite LHUP_eq; apply u32_range).
  revert Hk. generalize (- ((u1 * v1 + u1 * v1 / 2 ^ 16) / 2 ^ 32)). intros k Hk.
  rewrite Eu, Ev. destruct (xorb un vn) eqn:Hx.
  - destruct (sub_half_correct prodh prodl (ud * vd)) as (h & l & k' & -> & ? & ? & E); [done..|].
    exists h, l, (k + k'). do 3 (split; [done|]). rewrite E, Hk. destruct un, vn; done || ring.
  - destruct (add_half_correct prodh prodl (ud * vd)) as (h & l & k' & -> & ? & ? & E); [done..|].
    exists h, l, (k + k'). do 3 (split; [done|]). rewrite E, Hk. destruct un, vn; done || ring.
Qed.

(** The product of two words is exact. *)
Lemma lmulq_correct u v : 0 ≤ u < 2 ^ 32 → 0 ≤ v < 2 ^ 32 → ∃ h l,
  __lmulq u v = UU h l ∧ 0 ≤ h < 2 ^ 32 ∧ 0 ≤ l < 2 ^ 32 ∧ h * 2 ^ 32 + l = u * v.
Proof.
  intros Hu Hv. unfold __lmulq.
  destruct (half_word u) as (u1 & u0 & -> & -> & Hu1 & Hu0 & Eu); [done|].
  destruct (half_word v) as (v1 & v0 & -> & -> & Hv1 & Hv0 & Ev); [done|].
  destruct (half_mul u0 v0) as [-> Hlow]; [done..|].
  destruct ((u1 =? 0) && (v1 =? 0)) eqn:Hz.
  { apply andb_true_iff in Hz as [->%Z.eqb_eq ->%Z.eqb_eq].
    eexists _, _. split; [done|]. subst. lia. }
  clear Hz. destruct (absdiff_correct u1 u0 (2 ^ 16)) as (ud & un & -> & Hud & Eud); [lia..|].
  destruct (absdiff_correct v0 v1 (2 ^ 16)) as (vd & vn & -> & Hvd & Evd); [lia..|].
  destruct (half_mul ud vd) as [-> Hmid]; [done..|].
  destruct (half_mul u1 v1) as [-> Hhigh]; [done..|].
  destruct (lmulq_upper u1 u0 v1 v0 ud un vd vn) as (h & l & k & -> & Hh & Hl & E); [done..|].
  destruct (add_half_correct h l (u0 * v0)) as (h' & l' & k' & -> & Hh' & Hl' & E'); [done..|].
  set (p := u0 * v0) in *.
  assert (u * v = u1 * v1 * 2 ^ 32 + u1 * v1 * 2 ^ 16 + (u1 - u0) * (v0 - v1) * 2 ^ 16 + p * 2 ^ 16 + p)
    as Euv by (unfold p; subst u v; ring).
  assert (0 ≤ u * v < 2 ^ 64) as Huv by nia.
  assert (h' * 2 ^ 32 + l' + p = u * v + (k + k') * 2 ^ 64) as Et by lia.
  clear - Hh' Hl' Hlow Et Huv. clearbody p. eexists _, _. split; [done|].
  revert Huv Et. generalize (u * v) (k + k'). intros x kk ? ?.
  split; [case_cmp; [apply u32_range|done]|]. split; [apply u32_range|].
  unfold u32. case_cmp; zdiv_lia.
Qed.

(** The operand without its sign. *)
Lemma abs_words a : - 2 ^ 63 ≤ a < 2 ^ 63 → ∃ h l neg,
  (if 0 <=? a then (uu_ll a, false) else (uu_ll (- a), true)) = (UU h l, neg) ∧
  0 ≤ h < 2 ^ 32 ∧ 0 ≤ l < 2 ^ 32 ∧ a = if (neg : bool) then - (h * 2 ^ 32 + l) else h * 2 ^ 32 + l.
Proof.
  intros Ha. case_cmp.
  - words a h l k. exists h, l, false. do 3 (split; [done|]). lia.
  - words (- a) h l k. exists h, l, true. do 3 (split; [done|]). lia.
Qed.

(** The upper word of the product of two numbers. *)
Lemma muldi3_upper u1 u0 v1 v0 h l ud un vd vn :
  h * 2 ^ 32 + l = u0 * v0 → 0 ≤ l < 2 ^ 32 →
  u1 - u0 = (if (un : bool) then - ud else ud) → v0 - v1 = (if (vn : bool) then - vd else vd) →
  ∃ k, ull (UU (u32 (u32 (u1 * v1) + (if xorb un vn then u32 (- u32 (ud * vd)) else u32 (ud * vd)) + l + h)) l) =
    (u1 * 2 ^ 32 + u0) * (v1 * 2 ^ 32 + v0) + k * 2 ^ 64.
Proof.
  intros E Hl Eu Ev. rewrite ull_eq by done. set (m := if xorb un vn then _ else _).
  assert (∃ k, m = (u1 - u0) * (v0 - v1) + k * 2 ^ 32) as [k ->].
  { rewrite Eu, Ev. unfold m. destruct (xorb un vn) eqn:Hx.
    - exists ((- ((- u32 (ud * vd)) / 2 ^ 32) + (ud * vd) / 2 ^ 32)).
      assert (- (ud * vd) = (if un then - ud else ud) * (if vn then - vd else vd)) as <-
        by (destruct un, vn; done || ring). unfold u32. zdiv_lia.
    - exists (- (ud * vd / 2 ^ 32)).
      assert (ud * vd = (if un then - ud else ud) * (if vn then - vd else vd)) as <-
        by (destruct un, vn; done || ring). unfold u32. zdiv_lia. }
  set (x := u32 (u1 * v1) + _ + l + h). exists (k - u1 * v1 / 2 ^ 32 - x / 2 ^ 32 - u1 * v1 - h).
  assert (u32 x = x - x / 2 ^ 32 * 2 ^ 32) as -> by (unfold u32; zdiv_lia).
  assert (x = u1 * v1 - u1 * v1 / 2 ^ 32 * 2 ^ 32 + ((u1 - u0) * (v0 - v1) + k * 2 ^ 32) + l + h) as Hx
    by (unfold x, u32; zdiv_lia).
  generalize (x / 2 ^ 32). intros y. rewrite Hx. lia.
Qed.

(** The product is the wrapped one whatever the branch taken. *)
Lemma muldi3_correct a b : - 2 ^ 63 ≤ a < 2 ^ 63 → - 2 ^ 63 ≤ b < 2 ^ 63 → __muldi3 a b = i64 (a * b).
Proof.
  intros Ha Hb. unfold __muldi3.
  destruct (abs_words a) as (u1 & u0 & na & -> & Hu1 & Hu0 & Ea); [done|].
  destruct (abs_words b) as (v1 & v0 & nb & -> & Hv1 & Hv0 & Eb); [done|]. cbn [ui_H ui_L].
  destruct (lmulq_correct u0 v0) as (h & l & -> & Hh & Hl & E); [done..|]. cbn [ui_H ui_L].
  destruct (absdiff_correct u1 u0 (2 ^ 32)) as (ud & un & -> & Hud & Eud); [lia..|].
  destruct (absdiff_correct v0 v1 (2 ^ 32)) as (vd & vn & -> & Hvd & Evd); [lia..|].
  set (prod := if _ && _ then _ else _).
  assert (∃ k, ull prod = (u1 * 2 ^ 32 + u0) * (v1 * 2 ^ 32 + v0) + k * 2 ^ 64) as [k Hk].
  { unfold prod. destruct ((u1 =? 0) && (v1 =? 0)) eqn:Hz.
    - apply andb_true_iff in Hz as [->%Z.eqb_eq ->%Z.eqb_eq]. exists 0. rewrite ull_eq by done. lia.
    - by apply muldi3_upper. }
  clearbody prod. rewrite Ea, Eb. unfold ll. destruct na, nb; cbn [xorb].
  - apply (i64_eqm k). rewrite Hk. ring.
  - apply (i64_eqm (- (k - (ull prod + 2 ^ 63) / 2 ^ 64))). unfold i64. rewrite Z.mod_eq, Hk by lia. ring.
  - apply (i64_eqm (- (k - (ull prod + 2 ^ 63) / 2 ^ 64))). unfold i64. rewrite Z.mod_eq, Hk by lia. ring.
  - apply (i64_eqm k). rewrite Hk. ring.
Qed.

(** ** Properties *)

(** [__muldi3], which has 32-bit products only and drops the terms that do not matter,
    is multiplication modulo 2^64. *)
Theorem muldi3_wraps a b : - 2 ^ 63 ≤ a < 2 ^ 63 → - 2 ^ 63 ≤ b < 2 ^ 63 → __muldi3 a b = i64 (a * b).
Proof. apply muldi3_correct. Qed.

Lemma muldi3_wraps_witness : __muldi3 (- 2 ^ 63) 0x123456789abcdef = - 2 ^ 63.
Proof. apply (muldi3_wraps (- 2 ^ 63) 0x123456789abcdef); lia. Defined.

(** Sums, comparisons and bit operations done on the two words are those of 64-bit
    integers: sums wrap, and the comparisons return 0, 1 or 2. *)
Theorem longlong_words a b : - 2 ^ 63 ≤ a < 2 ^ 63 → - 2 ^ 63 ≤ b < 2 ^ 63 →
  __adddi3 a b = i64 (a + b) ∧ __subdi3 a b = i64 (a - b) ∧ __negdi2 a = i64 (- a) ∧
  __cmpdi2 a b = order a b ∧ __ucmpdi2 (u64 a) (u64 b) = order (u64 a) (u64 b) ∧
  __anddi3 a b = Z.land a b ∧ __iordi3 a b = Z.lor a b ∧ __xordi3 a b = Z.lxor a b ∧
  __one_cmpldi2 a = Z.lnot a.
Proof.
  intros Ha Hb. split; [apply adddi3_correct|]. split; [apply subdi3_correct|]. split; [apply negdi2_correct|].
  split; [by apply cmpdi2_correct|]. split; [apply ucmpdi2_correct; apply Z.mod_pos_bound; lia|].
  split; [by apply (bitwise_words Z.land andb); [intros; apply Z.land_spec|..]|].
  split; [by apply (bitwise_words Z.lor orb); [intros; apply Z.lor_spec|..]|].
  split; [by apply (bitwise_words Z.lxor xorb); [intros; apply Z.lxor_spec|..]|].
  by apply one_cmpldi2_correct.
Qed.

Lemma longlong_words_witness : __adddi3 (2 ^ 63 - 1) 1 = - 2 ^ 63 ∧ __cmpdi2 (2 ^ 63 - 1) 1 = 2.
Proof. destruct (longlong_words (2 ^ 63 - 1) 1) as (E & _ & _ & E' & _); [lia..|]. by rewrite E, E'. Defined.

(** The shifts by 0 to 63 are those of 64-bit integers, the arithmetic one with the
    sign; a shift by 64 or more shifts a word by 32 or more. *)
Theorem longlong_shifts a s : - 2 ^ 63 ≤ a < 2 ^ 63 → 0 ≤ s →
  if s <? 64 then
    __ashldi3 a s = Ret (i64 (Z.shiftl a s)) ∧ __lshldi3 a s = Ret (i64 (Z.shiftl a s)) ∧
    __lshrdi3 a s = Ret (i64 (Z.shiftr (u64 a) s)) ∧ __ashrdi3 a s = Ret (Z.shiftr a s)
  else
    __ashldi3 a s = Undef ∧ __lshldi3 a s = Undef ∧ __lshrdi3 a s = Undef ∧ __ashrdi3 a s = Undef.
Proof.
  intros Ha Hs. case_cmp; [|by apply shift_too_far].
  by rewrite ashldi3_correct, lshldi3_correct, lshrdi3_correct, ashrdi3_correct by lia.
Qed.

Lemma longlong_shifts_witness : __ashrdi3 (- 2 ^ 40) 36 = Ret (-16).
Proof. apply (longlong_shifts (- 2 ^ 40) 36); lia. Defined.
