(* ===== verification/Qdivrem.v ===== *)
(** * Division of 64-bit integers (common/gcc-millicode/qdivrem.c and its callers)

    Program D of Knuth in base 2^16.  The digits are in arrays of five; [u], [v] and
    [q] are pointers into them, here offsets [uo], [vo] and [qo].  What the arrays on
    the stack hold at the start comes from [junk]. *)

From S2P Require Import Prelude LongLong.

(** ** Operations *)

(** The digit base. *)
Definition B : Z := Z.shiftl 1 HALF_BITS.
Definition COMBINE (a b : Z) : Z := Z.lor (u32 (Z.shiftl a HALF_BITS)) b.

(** [shl(p, len, sh)] from its index [i] on, [k] digits being left after [p[i]]. *)
Fixpoint shl (k : nat) (p : list Z) (i sh : Z) : res (list Z) :=
  x ← p.[i];
  h ← shl32 x sh;
  match k with
  | O => p.[i <- u16 (LHALF h)]
  | S k' =>
      y ← p.[i + 1];
      l ← shr32 y (HALF_BITS - sh);
      p ← p.[i <- u16 (Z.lor (LHALF h) l)];
      shl k' p (i + 1) sh
  end.

(** [for (n = 4; v[1] == 0; v++) if (--n == 1) ...]: the offset of [v] and [n], which is
    1 where the loop was left for the other algorithm. *)
Fixpoint skip_v (fuel : nat) (vspace : list Z) (vo n : Z) : res (Z * Z) :=
  match fuel with
  | O => Diverge
  | S fuel' =>
      x ← vspace.[vo + 1];
      if x =? 0 then
        let n := n - 1 in
        if n =? 1 then Ret (vo, n) else skip_v fuel' vspace (vo + 1) n
      else Ret (vo, n)
  end.

(** Division by one digit (exercise 16). *)
Definition div_one (uspace : list Z) (t : Z) : res (Z * Z) :=
  u1 ← uspace.[1];
  u2 ← uspace.[2];
  u3 ← uspace.[3];
  u4 ← uspace.[4];
  let q1 := u16 (u1 / t) in
  let rbj := COMBINE (u1 mod t) u2 in
  let q2 := u16 (rbj / t) in
  let rbj := COMBINE (rbj mod t) u3 in
  let q3 := u16 (rbj / t) in
  let rbj := COMBINE (rbj mod t) u4 in
  let q4 := u16 (rbj / t) in
  Ret (ull (UU (COMBINE q1 q2) (COMBINE q3 q4)), rbj mod t).

(** [for (m = 4 - n; u[1] == 0; u++) m--] *)
Fixpoint skip_u (fuel : nat) (uspace : list Z) (uo m : Z) : res (Z * Z) :=
  match fuel with
  | O => Diverge
  | S fuel' =>
      x ← uspace.[uo + 1];
      if x =? 0 then skip_u fuel' uspace (uo + 1) (m - 1) else Ret (uo, m)
  end.

(** [for (i = k; --i >= 0;) q[i] = 0] *)
Fixpoint clear_q (k : nat) (q : list Z) : res (list Z) :=
  match k with
  | O => Ret q
  | S i => q ← q.[Z.of_nat i <- 0]; clear_q i q
  end.

(** D1: [for (t = v[1]; t < B / 2; t <<= 1) d++] *)
Fixpoint norm_shift (fuel : nat) (t d : Z) : res Z :=
  match fuel with
  | O => Diverge
  | S fuel' =>
      if t <? B / 2 then t ← shl32 t 1; norm_shift fuel' t (d + 1) else Ret d
  end.

(** D3: the loop that decrements [qhat]; [too_big] where it is entered at the label
    [qhat_too_big]. *)
Fixpoint qhat_loop (fuel : nat) (v1 v2 uj2 qhat rhat : Z) (too_big : bool) : res Z :=
  match fuel with
  | O => Diverge
  | S fuel' =>
      if too_big || (COMBINE rhat uj2 <? u32 (v2 * qhat)) then
        let qhat := u32 (qhat - 1) in
        let rhat := u32 (rhat + v1) in
        if B <=? rhat then Ret qhat else qhat_loop fuel' v1 v2 uj2 qhat rhat false
      else Ret qhat
  end.

Definition qhat_guess (v1 v2 uj0 uj1 uj2 : Z) : res Z :=
  if uj0 =? v1 then qhat_loop 3 v1 v2 uj2 B uj1 true else
  let nn := COMBINE uj0 uj1 in
  qhat_loop 3 v1 v2 uj2 (nn / v1) (nn mod v1) false.

(** D4: [u[j..j+n] -= qhat * v[1..n]], from digit [i] leftward, with borrow [t];
    [uj] is the offset of [u[j]]. *)
Fixpoint mul_sub (i : nat) (u v : list Z) (uj vo qhat t : Z) : res (list Z * Z) :=
  match i with
  | O => Ret (u, t)
  | S i' =>
      x ← u.[uj + Z.of_nat i];
      y ← v.[vo + Z.of_nat i];
      let t := u32 (x - u32 (y * qhat) - t) in
      u ← u.[uj + Z.of_nat i <- u16 (LHALF t)];
      mul_sub i' u v uj vo qhat (Z.land (u32 (B - HHALF t)) (B - 1))
  end.

(** D6: [u[j..j+n] += v[1..n]], with carry [t]. *)
Fixpoint add_back (i : nat) (u v : list Z) (uj vo t : Z) : res (list Z * Z) :=
  match i with
  | O => Ret (u, t)
  | S i' =>
      x ← u.[uj + Z.of_nat i];
      y ← v.[vo + Z.of_nat i];
      let t := u32 (t + (x + y)) in
      u ← u.[uj + Z.of_nat i <- u16 (LHALF t)];
      add_back i' u v uj vo (HHALF t)
  end.

(** D3 to D6: one digit of the quotient. *)
Definition div_digit (n : nat) (u v : list Z) (uj vo v1 v2 : Z) : res (list Z * Z) :=
  uj0 ← u.[uj];
  uj1 ← u.[uj + 1];
  uj2 ← u.[uj + 2];
  qhat ← qhat_guess v1 v2 uj0 uj1 uj2;
  '(u, t) ← mul_sub n u v uj vo qhat 0;
  x ← u.[uj];
  let t := u32 (x - t) in
  u ← u.[uj <- u16 (LHALF t)];
  if HHALF t =? 0 then Ret (u, qhat) else
  let qhat := u32 (qhat - 1) in
  '(u, t) ← add_back n u v uj vo 0;
  x ← u.[uj];
  u ← u.[uj <- u16 (LHALF (u32 (x + t)))];
  Ret (u, qhat).

(** D7: the digits from [j] on, [k] of them being left after it. *)
Fixpoint div_loop (k : nat) (n : nat) (u v q : list Z) (uj vo qj v1 v2 : Z) : res (list Z * list Z) :=
  '(u, qhat) ← div_digit n u v uj vo v1 v2;
  q ← q.[qj <- u16 qhat];
  match k with
  | O => Ret (u, q)
  | S k' => div_loop k' n u v q (uj + 1) vo (qj + 1) v1 v2
  end.

(** [u[m+1..m+n] = u[m..m+n] >> d], from digit [i] leftward; [um] is the offset of
    [u[m]]. *)
Fixpoint shr (i : nat) (u : list Z) (um d : Z) : res (list Z) :=
  match i with
  | O => u.[um <- 0]
  | S i' =>
      x ← u.[um + Z.of_nat i];
      y ← u.[um + Z.of_nat i - 1];
      l ← shr32 x d;
      h ← shl32 y (HALF_BITS - d);
      u ← u.[um + Z.of_nat i <- u16 (Z.lor l (LHALF h))];
      shr i' u um d
  end.

(** The four digits from index 1 on as an [unsigned long long]. *)
Definition digits_ull (l : list Z) : res Z :=
  a ← l.[1];
  b ← l.[2];
  c ← l.[3];
  d ← l.[4];
  Ret (ull (UU (COMBINE a b) (COMBINE c d))).

(** D2 to the end, for normalized operands. *)
Definition div_finish (uspace vspace qspace : list Z) (uo vo m n d : Z) (arq : bool) : res (Z * option Z) :=
  let qo := 4 - m in
  v1 ← vspace.[vo + 1];
  v2 ← vspace.[vo + 2];
  '(uspace, qspace) ←
    div_loop (Z.to_nat m) (Z.to_nat n) uspace vspace qspace uo vo qo v1 v2;
  rem ← (if arq then
      uspace ← (if negb (d =? 0) then shr (Z.to_nat n) uspace (uo + m) d else Ret uspace);
      r ← digits_ull uspace;
      Ret (Some r)
    else Ret None);
  quot ← digits_ull qspace;
  Ret (quot, rem).

Section Junk.
Context (junk : Z → Z).

(** Program D, for a divisor of [n > 1] digits. *)
Definition div_D (uspace vspace : list Z) (vo n : Z) (arq : bool) : res (Z * option Z) :=
  let qspace := junk <$> [5; 6; 7; 8; 9] in
  '(uo, m) ← skip_u 5 uspace 0 (4 - n);
  qspace ← clear_q (Z.to_nat (4 - m)) qspace;
  t ← vspace.[vo + 1];
  d ← norm_shift 17 t 0;
  '(uspace, vspace) ← (if 0 <? d then
      uspace ← shl (Z.to_nat (m + n)) uspace uo d;
      vspace ← shl (Z.to_nat (n - 1)) vspace (vo + 1) d;
      Ret (uspace, vspace)
    else Ret (uspace, vspace));
  div_finish uspace vspace qspace uo vo m n d arq.

(** The quotient and, where [arq] is not [NULL], the remainder stored there. *)
Definition __qdivrem (ull vll : Z) (arq : bool) : res (Z * option Z) :=
  if vll =? 0 then Undef (* 1 / zero *) else
  if ull <? vll then Ret (0, if arq then Some ull else None) else
  let tmp := uu_ll ull in
  let uspace := [0; u16 (HHALF tmp.(ui_H)); u16 (LHALF tmp.(ui_H));
                 u16 (HHALF tmp.(ui_L)); u16 (LHALF tmp.(ui_L))] in
  let tmp := uu_ll vll in
  let vspace := [junk 0; u16 (HHALF tmp.(ui_H)); u16 (LHALF tmp.(ui_H));
                 u16 (HHALF tmp.(ui_L)); u16 (LHALF tmp.(ui_L))] in
  '(vo, n) ← skip_v 5 vspace 0 4;
  if n =? 1 then
    t ← vspace.[vo + 2];
    '(quot, rem) ← div_one uspace t;
    Ret (quot, if arq then Some rem else None)
  else div_D uspace vspace vo n arq.

Definition __udivdi3 (a b : Z) : res Z := '(q, _) ← __qdivrem a b false; Ret q.

Definition __umoddi3 (a b : Z) : res Z := '(_, r) ← __qdivrem a b true; deref r.

Definition __divdi3 (a b : Z) : res Z :=
  let '(ua, neg) := if a <? 0 then (u64 (- u64 a), true) else (u64 a, false) in
  let '(ub, neg) := if b <? 0 then (u64 (- u64 b), negb neg) else (u64 b, neg) in
  '(uq, _) ← __qdivrem ua ub false;
  Ret (i64 (if neg then u64 (- uq) else uq)).

Definition __moddi3 (a b : Z) : res Z :=
  let '(ua, neg) := if a <? 0 then (u64 (- u64 a), true) else (u64 a, false) in
  let ub := if b <? 0 then u64 (- u64 b) else u64 b in
  '(_, r) ← __qdivrem ua ub true;
  ur ← deref r;
  Ret (i64 (if neg then u64 (- ur) else ur)).

End Junk.

(** ** Numbers in base 2^16 *)

(** The digits of [l], most significant first. *)
Definition dval (l : list Z) : Z := fold_left (λ a d, a * B + d) l 0.

Definition digit (x : Z) : Prop := 0 ≤ x < B.

#[local] Opaque B.
Lemma B_eq : B = 2 ^ 16. Proof. done. Qed.

Lemma B_pos : 0 < B. Proof. by rewrite B_eq. Qed.
Lemma digit_0 : digit 0. Proof. unfold digit. by rewrite B_eq. Qed.
#[local] Hint Resolve digit_0 : core.
Lemma B_pow n : 0 < B ^ Z.of_nat n. Proof. apply Z.pow_pos_nonneg; [apply B_pos|lia]. Qed.
Lemma B_pow_S n : B ^ Z.of_nat (S n) = B * B ^ Z.of_nat n.
Proof. rewrite Nat2Z.inj_succ, Z.pow_succ_r by lia. done. Qed.

Lemma dval_snoc l x : dval (l ++ [x]) = dval l * B + x.
Proof. unfold dval. by rewrite fold_left_app. Qed.

Lemma dval_app l l' : dval (l ++ l') = dval l * B ^ Z.of_nat (length l') + dval l'.
Proof.
  induction l' as [|x l' IH] using rev_ind.
  - rewrite app_nil_r. cbn. lia.
  - rewrite app_assoc, !dval_snoc, IH, length_app, Nat.add_comm. cbn [length Nat.add].
    rewrite B_pow_S. ring.
Qed.

Lemma dval_cons x l : dval (x :: l) = x * B ^ Z.of_nat (length l) + dval l.
Proof. exact (dval_app [x] l). Qed.

Lemma dval_range l : Forall digit l → 0 ≤ dval l < B ^ Z.of_nat (length l).
Proof.
  induction 1 as [|x l Hx Hl IH]; [done|]. rewrite dval_cons. cbn [length]. rewrite B_pow_S.
  unfold digit in Hx. nia.
Qed.

Lemma dval_zeros k l : dval (replicate k 0 ++ l) = dval l.
Proof. induction k as [|k IH]; [done|]. cbn [replicate app]. rewrite dval_cons, IH. lia. Qed.

(** ** Digits of words *)

Lemma COMBINE_eq a b : digit a → digit b → COMBINE a b = a * B + b.
Proof.
  unfold digit, COMBINE, HALF_BITS. rewrite B_eq. intros. rewrite Z.shiftl_mul_pow2, u32_id by lia.
  apply lor_add; lia.
Qed.

Lemma u16_id x : digit x → u16 x = x.
Proof. unfold digit, u16. rewrite B_eq. intros. by rewrite Z.mod_small. Qed.

Lemma LHALF_digit x : digit (LHALF x).
Proof.
  unfold digit, LHALF, HALF_BITS. rewrite B_eq.
  change (Z.shiftl 1 16 - 1) with (Z.ones 16). rewrite Z.land_ones by lia. apply Z.mod_pos_bound. lia.
Qed.

Lemma LHALF_u32 x : LHALF (u32 x) = x mod B.
Proof. rewrite LHALF_eq by apply u32_range. unfold u32. rewrite B_eq. zdiv_lia. Qed.

(** ** D3: the digit of the quotient is guessed, or one too many *)

(** [q] is the digit looked for; the guess never drops below it, and the loop stops
    because [rhat] grows by [v1], at least half the base. *)
Lemma qhat_loop_correct fuel v1 v2 u0 u1 u2 q qhat rhat too_big :
  digit v1 → digit v2 → digit u2 → digit q → q * (v1 * B + v2) ≤ u0 * B * B + u1 * B + u2 →
  qhat * v1 + rhat = u0 * B + u1 → (if (too_big : bool) then q < qhat ≤ B else q ≤ qhat < B) →
  0 ≤ rhat < B → B ≤ rhat + Z.of_nat fuel * v1 →
  ∃ qhat', qhat_loop fuel v1 v2 u2 qhat rhat too_big = Ret qhat' ∧ q ≤ qhat' < B ∧
    qhat' * (v1 * B + v2) ≤ u0 * B * B + u1 * B + u2.
Proof.
  unfold digit. intros Hv1 Hv2 Hu2 Hq HqT. pose proof B_eq as HB.
  revert qhat rhat too_big. induction fuel as [|fuel IH]; intros qhat rhat too_big E Hqh Hr Hf; [lia|].
  cbn [qhat_loop]. rewrite COMBINE_eq by (unfold digit; lia).
  assert (too_big = false → u32 (v2 * qhat) = v2 * qhat) as Hw.
  { intros ->. apply u32_id. nia. }
  destruct (too_big || _) eqn:Hc.
  - assert (q < qhat ≤ B) as Hqh'.
    { destruct too_big; [done|]. cbn [orb] in Hc. rewrite Hw in Hc by done.
      apply Z.ltb_lt in Hc. split; [|lia]. destruct (decide (q = qhat)) as [->|]; [|lia].
      exfalso. assert (qhat * (v1 * B + v2) = (u0 * B + u1 - rhat) * B + v2 * qhat) by (rewrite <-E; ring).
      lia. }
    rewrite !u32_id by lia. destruct (Z.leb_spec B (rhat + v1)).
    + exists (qhat - 1). split; [done|]. split; [lia|].
      assert ((qhat - 1) * (v1 * B + v2) = (u0 * B + u1 - rhat - v1) * B + v2 * (qhat - 1)) as ->
        by (rewrite <-E; ring). nia.
    + apply IH; lia.
  - apply orb_false_iff in Hc as [-> Hc]. rewrite Hw in Hc by done. apply Z.ltb_ge in Hc.
    exists qhat. split; [done|]. split; [lia|].
    assert (qhat * (v1 * B + v2) = (u0 * B + u1 - rhat) * B + v2 * qhat) as -> by (rewrite <-E; ring). lia.
Qed.

Lemma qhat_guess_correct v1 v2 u0 u1 u2 q :
  digit v1 → digit v2 → digit u0 → digit u1 → digit u2 → digit q → B / 2 ≤ v1 → u0 ≤ v1 →
  q * (v1 * B + v2) ≤ u0 * B * B + u1 * B + u2 →
  ∃ qhat, qhat_guess v1 v2 u0 u1 u2 = Ret qhat ∧ q ≤ qhat < B ∧
    qhat * (v1 * B + v2) ≤ u0 * B * B + u1 * B + u2.
Proof.
  unfold digit. intros Hv1 Hv2 Hu0 Hu1 Hu2 Hq Hn Hle HqT. pose proof B_eq as HB.
  assert (B < 3 * v1) by (rewrite HB in *; change (2 ^ 16 / 2) with (2 ^ 15) in Hn; lia).
  unfold qhat_guess. case_cmp.
  - subst u0. apply (qhat_loop_correct _ _ _ v1 u1 _ q); unfold digit; lia.
  - rewrite COMBINE_eq by (unfold digit; lia).
    pose proof (Z.div_mod (u0 * B + u1) v1). pose proof (Z.mod_pos_bound (u0 * B + u1) v1).
    apply (qhat_loop_correct _ _ _ u0 u1 _ q); unfold digit; try lia. split.
    + apply Z.div_le_lower_bound; [lia|].
      assert (q * v1 * B < (u0 * B + u1 + 1) * B) by nia. nia.
    + apply Z.div_lt_upper_bound; nia.
Qed.

(** The guess is at most one too large. *)
Lemma qhat_at_most_one v1 v2 V3 u0 u1 u2 U3 P qhat :
  digit v1 → digit v2 → B / 2 ≤ v1 → 0 < P → 0 ≤ V3 < P → 0 ≤ U3 < P → 0 ≤ qhat < B →
  qhat * (v1 * B + v2) ≤ u0 * B * B + u1 * B + u2 →
  let U := (u0 * B * B + u1 * B + u2) * P + U3 in
  let V := (v1 * B + v2) * P + V3 in
  qhat ≤ U / V + 1.
Proof.
  intros Hv1 Hv2 Hn HP HV HU Hq Hle U V. unfold digit in Hv1, Hv2. pose proof B_eq as HB.
  assert (B ≤ 2 * v1) as Hn' by (rewrite HB in *; change (2 ^ 16 / 2) with (2 ^ 15) in Hn; lia).
  assert (B * P ≤ V) as HBV by (unfold V; nia).
  assert (qhat * V < U + B * P) by (unfold U, V; nia).
  assert (qhat - 1 ≤ U / V); [|lia]. apply Z.div_le_lower_bound; [nia|]. nia.
Qed.

(** ** Accesses in the middle of an array *)

Lemma rd_mid {A} (pre post : list A) x i : i = Z.of_nat (length pre) → (pre ++ x :: post).[i] = Ret x.
Proof. intros ->. apply rd_nat. by apply list_lookup_middle. Qed.

Lemma wr_mid {A} (pre post : list A) x y i : i = Z.of_nat (length pre) →
  (pre ++ x :: post).[i <- y] = Ret (pre ++ y :: post).
Proof.
  intros ->. rewrite wr_nat by (rewrite length_app; cbn; lia). f_equal.
  rewrite insert_app_r_alt, Nat.sub_diag by lia. done.
Qed.

Lemma rd_window {A} (pre l post : list A) x i (k : nat) :
  l !! k = Some x → i = Z.of_nat (length pre) + Z.of_nat k → (pre ++ l ++ post).[i] = Ret x.
Proof.
  intros Hk ->. rewrite <-Nat2Z.inj_add. apply rd_nat. rewrite lookup_app_r, Nat.add_comm, Nat.add_sub by lia.
  by apply lookup_app_l_Some.
Qed.

Lemma snoc_inv {A} (l : list A) n : length l = S n → ∃ l' x, l = l' ++ [x] ∧ length l' = n.
Proof.
  intros Hl. destruct l as [|x l _] using rev_ind; [done|].
  exists l, x. split; [done|]. rewrite length_app in Hl. cbn in Hl. lia.
Qed.

(** ** D4 and D6: the digits below the first *)

(** The borrow of one digit. *)
Lemma borrow_digit x y qhat t : digit x → digit y → digit qhat → digit t →
  let s := u32 (x - u32 (y * qhat) - t) in
  let t' := Z.land (u32 (B - HHALF s)) (B - 1) in
  digit t' ∧ u16 (LHALF s) - t' * B = x - y * qhat - t.
Proof.
  intros Hx Hy Hq Ht s t'. unfold digit in *. pose proof B_eq as HB.
  assert (0 ≤ y * qhat ≤ (B - 1) * (B - 1)) as Hyq by nia.
  assert (s = u32 (x - y * qhat - t)) as Hs.
  { unfold s. rewrite (u32_id (y * qhat)) by lia. done. }
  assert (LHALF s = (x - y * qhat - t) mod B) as Hl by (rewrite Hs; apply LHALF_u32).
  assert (t' = - ((x - y * qhat - t) / B)) as Ht'.
  { unfold t'. rewrite HB. change (2 ^ 16 - 1) with (Z.ones 16). rewrite Z.land_ones by lia.
    rewrite HHALF_eq by (rewrite Hs; apply u32_range). rewrite Hs, HB in *.
    revert Hyq. generalize (y * qhat). intros p Hp. clear - Hx Ht Hp. unfold u32. zdiv_lia. }
  rewrite u16_id by apply LHALF_digit. rewrite Ht', Hl, HB in *.
  revert Hyq. generalize (y * qhat). intros p Hp. clear - Hx Ht Hp. zdiv_lia.
Qed.

Lemma mul_sub_correct i pre ws post vpre vs vpost uj vo qhat t :
  length ws = i → length vs = i → Z.of_nat (length pre) = uj + 1 → Z.of_nat (length vpre) = vo + 1 →
  Forall digit ws → Forall digit vs → digit qhat → digit t →
  ∃ ws' t', mul_sub i (pre ++ ws ++ post) (vpre ++ vs ++ vpost) uj vo qhat t = Ret (pre ++ ws' ++ post, t') ∧
    length ws' = i ∧ Forall digit ws' ∧ digit t' ∧
    dval ws' - t' * B ^ Z.of_nat i = dval ws - dval vs * qhat - t.
Proof.
  revert ws post vs vpost t. induction i as [|i IH]; intros ws post vs vpost t Hw Hv Hp Hvp Fw Fv Hq Ht.
  { exists [], t. destruct ws, vs; try done. cbn. split_and!; [done..|]. lia. }
  destruct (snoc_inv ws i Hw) as (ws0 & x & -> & Hw0). destruct (snoc_inv vs i Hv) as (vs0 & y & -> & Hv0).
  apply Forall_app in Fw as [Fw [Hx _]%Forall_cons]. apply Forall_app in Fv as [Fv [Hy _]%Forall_cons].
  cbn [mul_sub]. rewrite <-!app_assoc, !(app_assoc _ ws0), !(app_assoc _ vs0). cbn [app].
  rewrite rd_mid by (rewrite length_app; lia). cbn [mbind res_bind].
  rewrite rd_mid by (rewrite length_app; lia). cbn [mbind res_bind].
  rewrite wr_mid by (rewrite length_app; lia). cbn [mbind res_bind].
  destruct (borrow_digit x y qhat t) as [Ht' E]; [done..|].
  set (s := u32 (x - u32 (y * qhat) - t)) in *. set (t' := Z.land _ _) in *.
  rewrite <-!(app_assoc _ ws0), <-!(app_assoc _ vs0).
  destruct (IH ws0 (u16 (LHALF s) :: post) vs0 (y :: vpost) t') as (ws' & t'' & -> & Hw' & Fw' & Ht'' & E');
    [done..|].
  exists (ws' ++ [u16 (LHALF s)]), t''. rewrite <-app_assoc, length_app, Hw'. split; [done|].
  split; [cbn; lia|]. split.
  { apply Forall_app. split; [done|]. apply Forall_singleton. rewrite u16_id; apply LHALF_digit. }
  split; [done|]. rewrite !dval_snoc, B_pow_S. nia.
Qed.

Lemma add_back_correct i pre ws post vpre vs vpost uj vo t :
  length ws = i → length vs = i → Z.of_nat (length pre) = uj + 1 → Z.of_nat (length vpre) = vo + 1 →
  Forall digit ws → Forall digit vs → 0 ≤ t ≤ 1 →
  ∃ ws' t', add_back i (pre ++ ws ++ post) (vpre ++ vs ++ vpost) uj vo t = Ret (pre ++ ws' ++ post, t') ∧
    length ws' = i ∧ Forall digit ws' ∧ 0 ≤ t' ≤ 1 ∧
    dval ws' + t' * B ^ Z.of_nat i = dval ws + dval vs + t.
Proof.
  revert ws post vs vpost t. induction i as [|i IH]; intros ws post vs vpost t Hw Hv Hp Hvp Fw Fv Ht.
  { exists [], t. destruct ws, vs; try done. cbn. split_and!; done || lia. }
  destruct (snoc_inv ws i Hw) as (ws0 & x & -> & Hw0). destruct (snoc_inv vs i Hv) as (vs0 & y & -> & Hv0).
  apply Forall_app in Fw as [Fw [Hx _]%Forall_cons]. apply Forall_app in Fv as [Fv [Hy _]%Forall_cons].
  cbn [add_back]. rewrite <-!app_assoc, !(app_assoc _ ws0), !(app_assoc _ vs0). cbn [app].
  rewrite rd_mid by (rewrite length_app; lia). cbn [mbind res_bind].
  rewrite rd_mid by (rewrite length_app; lia). cbn [mbind res_bind].
  rewrite wr_mid by (rewrite length_app; lia). cbn [mbind res_bind].
  assert (0 ≤ HHALF (u32 (t + (x + y))) ≤ 1 ∧
    u16 (LHALF (u32 (t + (x + y)))) + HHALF (u32 (t + (x + y))) * B = x + y + t) as [Ht' E].
  { unfold digit in Hx, Hy. pose proof B_eq as HB. rewrite u16_id by apply LHALF_digit.
    rewrite LHALF_u32, HHALF_eq by apply u32_range. rewrite u32_id, HB in * by lia.
    clear - Hx Hy Ht. zdiv_lia. }
  set (t' := HHALF _) in *. set (s := u16 _) in *.
  rewrite <-!(app_assoc _ ws0), <-!(app_assoc _ vs0).
  destruct (IH ws0 (s :: post) vs0 (y :: vpost) t') as (ws' & t'' & -> & Hw' & Fw' & Ht'' & E'); [done..|].
  exists (ws' ++ [s]), t''. rewrite <-app_assoc, length_app, Hw'. split; [done|].
  split; [cbn; lia|]. split.
  { apply Forall_app. split; [done|]. apply Forall_singleton. unfold s. rewrite u16_id; apply LHALF_digit. }
  split; [done|]. rewrite !dval_snoc, B_pow_S. nia.
Qed.

(** ** One digit of the quotient *)

Lemma div_pos_divisor v1 vs : Forall digit (v1 :: vs) → B / 2 ≤ v1 → 0 < dval (v1 :: vs).
Proof.
  intros [_ Fv]%Forall_cons Hn. rewrite dval_cons. pose proof (dval_range _ Fv). pose proof (B_pow (length vs)).
  rewrite B_eq in Hn at 1. change (2 ^ 16 / 2) with (2 ^ 15) in Hn. nia.
Qed.

(** The guess for a window [u0 u1 u2 us] of the dividend and a divisor [v1 v2 vs]. *)
Lemma qhat_window v1 v2 vs u0 u1 u2 us :
  Forall digit (v1 :: v2 :: vs) → Forall digit (u0 :: u1 :: u2 :: us) → length us = length vs → B / 2 ≤ v1 →
  let U := dval (u0 :: u1 :: u2 :: us) in
  let V := dval (v1 :: v2 :: vs) in
  U < V * B →
  ∃ qhat, qhat_guess v1 v2 u0 u1 u2 = Ret qhat ∧ digit qhat ∧ digit (U / V) ∧ U / V ≤ qhat ≤ U / V + 1.
Proof.
  intros (Hv1 & (Hv2 & Fv)%Forall_cons)%Forall_cons (Hu0 & (Hu1 & (Hu2 & Fu)%Forall_cons)%Forall_cons)%Forall_cons
    Hlen Hn U V HUV.
  pose proof (dval_range _ Fu) as HU3. pose proof (dval_range _ Fv) as HV3. rewrite Hlen in HU3.
  pose proof (B_pow (length vs)) as HP. pose proof B_eq as HB.
  assert (U = (u0 * B * B + u1 * B + u2) * B ^ Z.of_nat (length vs) + dval us) as EU.
  { unfold U. rewrite !dval_cons. cbn [length]. rewrite Hlen, !B_pow_S. ring. }
  assert (V = (v1 * B + v2) * B ^ Z.of_nat (length vs) + dval vs) as EV.
  { unfold V. rewrite !dval_cons. cbn [length]. rewrite !B_pow_S. ring. }
  clearbody U V. revert HU3 HV3 HP EU EV. generalize (B ^ Z.of_nat (length vs)), (dval us), (dval vs).
  intros P U3 V3 HU3 HV3 HP EU EV. unfold digit in *.
  assert (B ≤ 2 * v1) as Hn' by (rewrite HB in *; change (2 ^ 16 / 2) with (2 ^ 15) in Hn; lia).
  assert (0 < V) as HV by nia. assert (0 ≤ U) as HU by nia.
  assert (0 ≤ U / V < B) as Hq.
  { split; [by apply Z.div_pos|]. apply Z.div_lt_upper_bound; lia. }
  assert (u0 ≤ v1) as Hle.
  { assert (u0 * (B * B * P) < (v1 + 1) * (B * B * P)) by nia. nia. }
  assert (U / V * (v1 * B + v2) ≤ u0 * B * B + u1 * B + u2) as HqT.
  { pose proof (Z.mul_div_le U V HV).
    assert (U / V * (v1 * B + v2) * P < (u0 * B * B + u1 * B + u2 + 1) * P) by nia. nia. }
  destruct (qhat_guess_correct v1 v2 u0 u1 u2 (U / V)) as (qhat & -> & Hqh & Hqh'); [done..|].
  exists qhat. split; [done|]. split; [lia|]. split; [done|]. split; [lia|].
  subst U V. apply qhat_at_most_one; done || lia.
Qed.

(** The last two digits of the subtraction: what is left of the first digit and whether
    there is a borrow. *)
Lemma first_digit x t : digit x → digit t →
  digit (u16 (LHALF (u32 (x - t)))) ∧
  (if HHALF (u32 (x - t)) =? 0 then t ≤ x ∧ u16 (LHALF (u32 (x - t))) = x - t
   else x < t ∧ u16 (LHALF (u32 (x - t))) = x - t + B).
Proof.
  intros Hx Ht. rewrite u16_id by apply LHALF_digit. split; [apply LHALF_digit|].
  rewrite LHALF_u32, HHALF_eq by apply u32_range. unfold digit in *. rewrite B_eq in *.
  unfold u32. case_cmp; zdiv_lia.
Qed.

Lemma top_zero a b r P : a * P + b = r → 0 ≤ b < P → 0 ≤ r < P → a = 0 ∧ b = r.
Proof. intros. assert (a = 0) by nia. subst. lia. Qed.

(** The quotient and the remainder from a guess that is at most one too large. *)
Lemma guess_exact U V qhat : 0 < V → U / V ≤ qhat ≤ U / V + 1 → 0 ≤ U - V * qhat →
  qhat = U / V ∧ U - V * qhat = U mod V.
Proof.
  intros HV Hq H. pose proof (Z.div_mod U V). pose proof (Z.mod_pos_bound U V).
  assert (qhat = U / V) as Hqe by (assert (qhat ≤ U / V) by (apply Z.div_le_lower_bound; lia); lia).
  rewrite Hqe. lia.
Qed.

Lemma guess_over U V qhat : 0 < V → U / V ≤ qhat ≤ U / V + 1 → U - V * qhat < 0 →
  qhat - 1 = U / V ∧ U - V * qhat + V = U mod V.
Proof.
  intros HV Hq H. pose proof (Z.div_mod U V). pose proof (Z.mod_pos_bound U V).
  assert (qhat = U / V + 1) as Hqe; [|rewrite Hqe; lia].
  destruct (decide (qhat = U / V)) as [Hqe|]; [rewrite Hqe in H; lia|lia].
Qed.

Lemma div_digit_correct n pre w0 ws post vpre v1 v2 vs vpost uj vo :
  length ws = n → length (v1 :: v2 :: vs) = n →
  Z.of_nat (length pre) = uj → Z.of_nat (length vpre) = vo + 1 →
  Forall digit (w0 :: ws) → Forall digit (v1 :: v2 :: vs) → B / 2 ≤ v1 →
  dval (w0 :: ws) < dval (v1 :: v2 :: vs) * B →
  let U := dval (w0 :: ws) in
  let V := dval (v1 :: v2 :: vs) in
  digit (U / V) ∧
  ∃ R, div_digit n (pre ++ (w0 :: ws) ++ post) (vpre ++ (v1 :: v2 :: vs) ++ vpost) uj vo v1 v2 =
      Ret (pre ++ (0 :: R) ++ post, U / V) ∧
    length R = n ∧ Forall digit R ∧ dval R = U mod V.
Proof.
  intros Hn Hvn Hp Hvp Fw Fv Hnorm HUV U V.
  destruct ws as [|u1 [|u2 us]]; [cbn in *; lia..|].
  destruct (qhat_window v1 v2 vs w0 u1 u2 us) as (qhat & Hg & Hqh & Hq & Hle); [done|done|cbn in *; lia|done|done|].
  split; [done|]. unfold div_digit.
  rewrite (rd_window _ _ _ w0 uj 0), (rd_window _ _ _ u1 (uj + 1) 1), (rd_window _ _ _ u2 (uj + 2) 2)
    by (done || lia). cbn [mbind res_bind]. rewrite Hg. cbn [mbind res_bind].
  set (ws := u1 :: u2 :: us) in *. set (v := v1 :: v2 :: vs) in *.
  apply Forall_cons in Fw as [Hw0 Fw].
  change ((w0 :: ws) ++ post) with ([w0] ++ ws ++ post). rewrite (app_assoc pre).
  destruct (mul_sub_correct n (pre ++ [w0]) ws post vpre v vpost uj vo qhat 0) as (ws' & t & -> & Hn' & Fw' & Ht & E);
    [done|done|rewrite length_app; cbn; lia|done..|].
  cbn [mbind res_bind]. rewrite <-app_assoc. cbn [app].
  rewrite rd_mid by done. cbn [mbind res_bind].
  rewrite wr_mid by done. cbn [mbind res_bind].
  destruct (first_digit w0 t) as [Hx Hfd]; [done..|]. set (x := u16 _) in *.
  assert (0 < V < B ^ Z.of_nat n) as HV.
  { pose proof (dval_range _ Fv) as HVr. rewrite Hvn in HVr. split; [by apply div_pos_divisor|unfold V; lia]. }
  assert (0 ≤ U mod V < B ^ Z.of_nat n) as HR by (pose proof (Z.mod_pos_bound U V); lia).
  pose proof (dval_range _ Fw') as Hw'. rewrite Hn' in Hw'.
  assert ((w0 - t) * B ^ Z.of_nat n + dval ws' = U - V * qhat) as EU.
  { unfold U. rewrite dval_cons, Hn. unfold V. lia. }
  destruct (HHALF _ =? 0); destruct Hfd as [Hxt Ex].
  - destruct (guess_exact U V qhat) as [Eq Er]; [lia|done|nia|].
    destruct (top_zero (w0 - t) (dval ws') (U mod V) (B ^ Z.of_nat n)) as [Ez Ed]; [lia..|].
    exists ws'. rewrite Eq, Ex, Ez. done.
  - destruct (guess_over U V qhat) as [Eq Er]; [lia|done|nia|].
    rewrite (cons_middle x pre), (app_assoc pre).
    destruct (add_back_correct n (pre ++ [x]) ws' post vpre v vpost uj vo 0) as (ws'' & c & -> & Hn'' & Fw'' & Hc & E2);
      [done|done|rewrite length_app; cbn; lia|done..|].
    pose proof (dval_range _ Fw'') as Hw''. rewrite Hn'' in Hw''.
    destruct (top_zero (w0 - t + c) (dval ws'') (U mod V) (B ^ Z.of_nat n)) as [Ez Ed]; [unfold V in *; lia..|].
    cbn [mbind res_bind]. rewrite <-app_assoc. cbn [app].
    rewrite rd_mid by done. cbn [mbind res_bind]. rewrite wr_mid by done. cbn [mbind res_bind].
    exists ws''. split; [|done]. rewrite LHALF_u32. replace (x + c) with B by lia.
    assert (0 ≤ qhat - 1 < B) by (rewrite Eq; exact Hq). pose proof B_eq.
    by rewrite Z.mod_same, u32_id, Eq by lia.
Qed.

(** ** D7: all digits of the quotient *)

Lemma div_loop_S k n u v q uj vo qj v1 v2 :
  div_loop k n u v q uj vo qj v1 v2 =
  ('(u, qhat) ← div_digit n u v uj vo v1 v2;
   q ← q.[qj <- u16 qhat];
   match k with O => Ret (u, q) | S k' => div_loop k' n u v q (uj + 1) vo (qj + 1) v1 v2 end).
Proof. by destruct k. Qed.

Lemma div_loop_correct k n pre w0 ws rest qpre old vpre v1 v2 vs vpost uj vo qj :
  length ws = n → length rest = k → length (v1 :: v2 :: vs) = n → length old = S k →
  Z.of_nat (length pre) = uj → Z.of_nat (length vpre) = vo + 1 → Z.of_nat (length qpre) = qj →
  Forall digit (w0 :: ws) → Forall digit rest → Forall digit (v1 :: v2 :: vs) → B / 2 ≤ v1 →
  dval (w0 :: ws) < dval (v1 :: v2 :: vs) * B →
  ∃ qs R, div_loop k n (pre ++ (w0 :: ws) ++ rest) (vpre ++ (v1 :: v2 :: vs) ++ vpost) (qpre ++ old)
      uj vo qj v1 v2 = Ret (pre ++ replicate (S k) 0 ++ R, qpre ++ qs) ∧
    length qs = S k ∧ Forall digit qs ∧ length R = n ∧ Forall digit R ∧
    dval ((w0 :: ws) ++ rest) = dval qs * dval (v1 :: v2 :: vs) + dval R ∧
    0 ≤ dval R < dval (v1 :: v2 :: vs).
Proof.
  intros Hn Hk Hvn. revert pre w0 ws rest qpre old uj qj Hn Hk.
  induction k as [|k IH]; intros pre w0 ws rest qpre old uj qj Hn Hk Ho Hp Hvp Hqp Fw Fr Fv Hnorm HUV;
    rewrite div_loop_S;
    destruct (div_digit_correct n pre w0 ws rest vpre v1 v2 vs vpost uj vo) as (Hq & R & -> & HnR & FR & ER);
    try done; cbn [mbind res_bind]; (destruct old as [|o old]; [done|]);
    rewrite wr_mid by done; cbn [mbind res_bind]; rewrite u16_id by done;
    pose proof (div_pos_divisor _ _ Fv Hnorm) as HV;
    set (V := dval (v1 :: v2 :: vs)) in *; set (U := dval (w0 :: ws)) in *;
    pose proof (Z.mod_pos_bound U V HV); pose proof (Z.div_mod U V).
  - destruct rest; [|done]. destruct old; [|done]. rewrite !app_nil_r.
    exists [U / V], R. rewrite ER. split; [done|]. split; [done|]. split; [by apply Forall_singleton|].
    do 2 (split; [done|]). split; [|done]. change (dval [U / V]) with (0 * B + U / V). fold U. lia.
  - destruct rest as [|d rest]; [done|]. apply Forall_cons in Fr as [Hd Fr].
    destruct R as [|r0 rs]; [cbn in *; lia|].
    assert (dval (r0 :: rs ++ [d]) = U mod V * B + d) as EW.
    { change (r0 :: rs ++ [d]) with ((r0 :: rs) ++ [d]). by rewrite dval_snoc, ER. }
    destruct (IH (pre ++ [0]) r0 (rs ++ [d]) rest (qpre ++ [U / V]) old (uj + 1) (qj + 1))
      as (qs & R & E & Hqs & Fqs & HnR' & FR' & EV & HR).
    { rewrite length_app. cbn in *. lia. }
    { by injection Hk. }
    { cbn in *; lia. }
    { rewrite length_app. cbn. lia. }
    { done. }
    { rewrite length_app. cbn. lia. }
    { change (r0 :: rs ++ [d]) with ((r0 :: rs) ++ [d]). apply Forall_app. by split; [|apply Forall_singleton]. }
    { done. } { done. } { done. }
    { rewrite EW. unfold digit in Hd. nia. }
    exists ((U / V) :: qs), R. cbn [replicate]. rewrite <-!app_assoc in E. cbn [app] in E |- *.
    rewrite <-!app_assoc in E. cbn [app] in E. rewrite E. split; [done|].
    split; [cbn; lia|]. split; [by constructor|]. do 2 (split; [done|]). split; [|done].
    change (w0 :: ws ++ d :: rest) with ((w0 :: ws) ++ d :: rest).
    change (r0 :: rs ++ [d]) with ((r0 :: rs) ++ [d]) in EV. rewrite <-app_assoc in EV. cbn [app] in EV.
    change (r0 :: rs ++ d :: rest) with ((r0 :: rs) ++ d :: rest) in EV.
    rewrite dval_app in EV |- *. rewrite ER in EV. rewrite (dval_cons (U / V)), Hqs, Hk in *. fold U. nia.
Qed.

(** ** D1 and the remainder: shifts of digits *)

Lemma split_base d : 0 < d < 16 → B = 2 ^ (16 - d) * 2 ^ d ∧ 0 < 2 ^ d ∧ 0 < 2 ^ (16 - d).
Proof.
  intros. rewrite B_eq, <-Z.pow_add_r by lia. replace (16 - d + d) with 16 by lia.
  split; [done|]. split; apply Z.pow_pos_nonneg; lia.
Qed.

(** The bits of a digit [x] that stay and those that come from its neighbour [y]. *)
Lemma shl_digit x y d : 0 < d < 16 → digit x → 0 ≤ y < 2 ^ d →
  u16 (Z.lor (LHALF (u32 (x * 2 ^ d))) y) = (x * 2 ^ d + y) mod B ∧
  (x * 2 ^ d + y) mod B = (x * 2 ^ d) mod B + y.
Proof.
  intros Hd Hx Hy. destruct (split_base d Hd) as (HB & ? & ?).
  assert ((x * 2 ^ d + y) mod B = (x * 2 ^ d) mod B + y) as E.
  { rewrite HB, Z.mul_mod_distr_r by lia. pose proof (Z.mod_pos_bound x (2 ^ (16 - d))).
    symmetry. apply Z.mod_unique with (x / 2 ^ (16 - d)); [nia|]. rewrite (Z.div_mod x (2 ^ (16 - d))) at 1 by lia. ring. }
  split; [|done]. rewrite LHALF_u32, E. rewrite HB at 1. rewrite Z.mul_mod_distr_r, lor_add by lia.
  rewrite <-Z.mul_mod_distr_r, <-HB, <-E by lia. apply u16_id, Z.mod_pos_bound, B_pos.
Qed.

(** What a shift moves out of the digits [y :: xs]. *)
Lemma shl_carry y xs d : 0 < d < 16 → Forall digit (y :: xs) →
  dval (y :: xs) * 2 ^ d / B ^ Z.of_nat (length (y :: xs)) = y / 2 ^ (16 - d).
Proof.
  intros Hd [_ Fx]%Forall_cons. destruct (split_base d Hd) as (HB & ? & ?).
  pose proof (dval_range _ Fx). pose proof (B_pow (length xs)). cbn [length]. rewrite B_pow_S, dval_cons.
  rewrite HB at 2. replace (2 ^ (16 - d) * 2 ^ d * B ^ Z.of_nat (length xs))
    with (B ^ Z.of_nat (length xs) * 2 ^ (16 - d) * 2 ^ d) by ring.
  rewrite Z.div_mul_cancel_r, <-Z.div_div, Z.div_add_l, (Z.div_small (dval xs)) by nia. f_equal. lia.
Qed.

Lemma shl_value x A N d : 0 < N → ((x * N + A) * 2 ^ d) mod (B * N) =
  (x * 2 ^ d + A * 2 ^ d / N) mod B * N + (A * 2 ^ d) mod N.
Proof.
  intros. rewrite (Z.mul_comm B), Z.rem_mul_r by (pose proof B_pos; lia).
  replace ((x * N + A) * 2 ^ d) with (x * 2 ^ d * N + A * 2 ^ d) by ring.
  rewrite Z.div_add_l, (Z.add_comm (_ * N) (A * _)), Z_mod_plus_full by lia. ring.
Qed.

Lemma shl_correct k pre x xs d : 0 < d < 16 → length xs = k → Forall digit (x :: xs) →
  ∃ ys, shl k (pre ++ x :: xs) (Z.of_nat (length pre)) d = Ret (pre ++ ys) ∧ length ys = S k ∧
    Forall digit ys ∧ dval ys = (dval (x :: xs) * 2 ^ d) mod B ^ Z.of_nat (S k).
Proof.
  intros Hd. destruct (split_base d Hd) as (HB & ? & ?).
  revert pre x xs. induction k as [|k IH]; intros pre x xs Hk [Hx Fx]%Forall_cons.
  - destruct xs; [|done]. exists [(x * 2 ^ d) mod B]. cbn [shl]. rewrite rd_mid by done. cbn [mbind res_bind].
    rewrite shl32_eq by lia. cbn [mbind res_bind]. rewrite wr_mid by done. rewrite u16_id by apply LHALF_digit.
    rewrite LHALF_u32. split; [done|]. split; [done|]. split.
    { apply Forall_singleton. apply Z.mod_pos_bound. apply B_pos. }
    change (dval [x]) with (0 * B + x). change (dval [_]) with (0 * B + (x * 2 ^ d) mod B).
    change (Z.of_nat 1) with 1. by rewrite Z.pow_1_r.
  - destruct xs as [|y xs]; [done|]. cbn [shl]. rewrite (rd_mid _ _ x (Z.of_nat (length pre))) by done. cbn [mbind res_bind].
    rewrite shl32_eq by lia. cbn [mbind res_bind]. unfold HALF_BITS.
    rewrite (cons_middle x), app_assoc, (rd_mid (pre ++ [x])) by (rewrite length_app; cbn; lia). cbn [mbind res_bind].
    rewrite shr32_eq by lia. cbn [mbind res_bind]. rewrite <-app_assoc. cbn [app].
    rewrite wr_mid by done. cbn [mbind res_bind].
    pose proof (Forall_cons_1 _ _ _ Fx) as [Hy Fxs]. unfold digit in Hy.
    assert (0 ≤ y / 2 ^ (16 - d) < 2 ^ d) as Hyd.
    { split; [apply Z.div_pos; lia|]. apply Z.div_lt_upper_bound; lia. }
    destruct (shl_digit x (y / 2 ^ (16 - d)) d) as [-> E]; [done..|].
    set (z := (x * 2 ^ d + _) mod B) in *.
    destruct (IH (pre ++ [z]) y xs) as (ys & E' & Hys & Fys & Ev); [by injection Hk|done|].
    rewrite <-app_assoc, length_app in E'. cbn [app length] in E'. rewrite Nat2Z.inj_add in E'. change (Z.of_nat 1) with 1 in E'.
    exists (z :: ys). rewrite E'. rewrite <-app_assoc. split; [done|]. split; [cbn; lia|]. split.
    { constructor; [|done]. apply Z.mod_pos_bound. apply B_pos. }
    rewrite dval_cons, Hys, Ev, (dval_cons x), (B_pow_S (S k)), Hk, shl_value by apply B_pow.
    rewrite <-Hk, shl_carry by done. done.
Qed.

(** The bits of a digit [x] that stay and those that come from its neighbour [y]. *)
Lemma shr_digit A x y d : 0 < d < 16 → digit x → y = A mod B →
  u16 (Z.lor (x / 2 ^ d) (LHALF (u32 (y * 2 ^ (16 - d))))) = (A * B + x) / 2 ^ d mod B.
Proof.
  intros Hd Hx ->. destruct (split_base d Hd) as (HB & ? & ?). unfold digit in Hx.
  assert (0 ≤ x / 2 ^ d < 2 ^ (16 - d)).
  { split; [apply Z.div_pos; lia|]. apply Z.div_lt_upper_bound; lia. }
  rewrite Z.lor_comm. destruct (shl_digit (A mod B) (x / 2 ^ d) (16 - d)) as [-> _]; [lia| |done|].
  { apply Z.mod_pos_bound, B_pos. }
  rewrite <-Zplus_mod_idemp_l, Zmult_mod_idemp_l, Zplus_mod_idemp_l. f_equal.
  rewrite HB. replace (A * (2 ^ (16 - d) * 2 ^ d)) with (A * 2 ^ (16 - d) * 2 ^ d) by ring.
  by rewrite Z.div_add_l by lia.
Qed.

Lemma last_digit y ws : Forall digit (y :: ws) → ∃ l, (y :: ws) !! length ws = Some l ∧ l = dval (y :: ws) mod B.
Proof.
  intros F. destruct (snoc_inv (y :: ws) (length ws) eq_refl) as (l & x & E & Hl). rewrite E in F |- *.
  exists x. rewrite <-Hl, list_lookup_middle by done. split; [done|]. rewrite dval_snoc, Z.add_comm, Z_mod_plus_full.
  apply Forall_app in F as [_ [Hx _]%Forall_cons]. by rewrite Z.mod_small.
Qed.

Lemma shr_correct n pre y ws post um d : 0 < d < 16 → length ws = n → Z.of_nat (length pre) = um →
  Forall digit (y :: ws) →
  ∃ ws', shr n (pre ++ (y :: ws) ++ post) um d = Ret (pre ++ (0 :: ws') ++ post) ∧ length ws' = n ∧
    Forall digit ws' ∧ dval ws' = (dval (y :: ws) / 2 ^ d) mod B ^ Z.of_nat n.
Proof.
  intros Hd. revert ws post. induction n as [|n IH]; intros ws post Hn Hp F.
  { destruct ws; [|done]. exists []. cbn [shr app]. rewrite wr_mid by done. do 3 (split; [done|]).
    change (Z.of_nat 0) with 0. by rewrite Z.pow_0_r, Z.mod_1_r. }
  destruct (snoc_inv ws n Hn) as (ws0 & x & -> & Hn0). rewrite app_comm_cons in F.
  apply Forall_app in F as [F [Hx _]%Forall_cons].
  destruct (last_digit y ws0 F) as (l & Hl & El). cbn [shr]. rewrite app_comm_cons.
  rewrite (rd_window pre ((y :: ws0) ++ [x]) post x (um + Z.of_nat (S n)) (S n)).
  2: { rewrite lookup_app_r by (cbn; lia). cbn [length]. by rewrite Hn0, Nat.sub_diag. }
  2: lia.
  cbn [mbind res_bind].
  rewrite (rd_window pre ((y :: ws0) ++ [x]) post l (um + Z.of_nat (S n) - 1) n).
  2: { rewrite <-Hn0. by apply lookup_app_l_Some. }
  2: lia.
  cbn [mbind res_bind]. unfold HALF_BITS. rewrite shr32_eq, shl32_eq by lia. cbn [mbind res_bind].
  rewrite <-!app_assoc, (app_assoc pre). cbn [app]. rewrite wr_mid by (rewrite length_app; cbn; lia). cbn [mbind res_bind].
  rewrite (shr_digit _ x l d Hd Hx El), <-(app_assoc pre).
  set (z := _ mod B).
  destruct (IH ws0 (z :: post)) as (ws' & -> & Hn' & F' & E); [done..|].
  exists (ws' ++ [z]). split; [by rewrite <-!app_assoc|]. split; [rewrite length_app; cbn; lia|].
  split; [apply Forall_app; split; [done|]; apply Forall_singleton, Z.mod_pos_bound, B_pos|].
  rewrite app_comm_cons, !dval_snoc, E, B_pow_S, Z.rem_mul_r by (pose proof B_pos; pose proof (B_pow n); lia).
  fold z. assert ((dval (y :: ws0) * B + x) / 2 ^ d / B = dval (y :: ws0) / 2 ^ d) as ->; [|lia].
  unfold digit in Hx. assert (0 < 2 ^ d) by (apply Z.pow_pos_nonneg; lia).
  rewrite Z.div_div, (Z.mul_comm (2 ^ d)), <-Z.div_div, Z.div_add_l, (Z.div_small x) by lia. f_equal. lia.
Qed.

(** ** D1: the number of bits to shift by *)

Lemma norm_shift_correct fuel t d : 0 < t < B → B ≤ t * 2 ^ Z.of_nat fuel →
  ∃ s, norm_shift fuel t d = Ret (d + s) ∧ 0 ≤ s ∧ B / 2 ≤ t * 2 ^ s < B.
Proof.
  pose proof B_eq as HB. revert t d. induction fuel as [|fuel IH]; intros t d Ht Hf.
  { change (2 ^ Z.of_nat 0) with 1 in Hf. lia. }
  cbn [norm_shift]. case_cmp.
  - rewrite shl32_eq by lia. cbn [mbind res_bind]. change (2 ^ 1) with 2.
    assert (B / 2 * 2 = B) as H2 by (by rewrite HB). rewrite u32_id by lia.
    destruct (IH (t * 2) (d + 1)) as (s & -> & Hs & Hr); [lia| |].
    { rewrite Nat2Z.inj_succ, Z.pow_succ_r in Hf by lia. lia. }
    exists (s + 1). split; [f_equal; lia|]. split; [lia|].
    rewrite Z.pow_add_r by lia. change (2 ^ 1) with 2. lia.
  - exists 0. rewrite Z.add_0_r, Z.pow_0_r. split; [done|]. lia.
Qed.

Lemma norm_shift_bound v1 d : 0 ≤ d → B / 2 ≤ v1 * 2 ^ d < B → 2 ^ d ≤ B / 2.
Proof.
  intros Hd Hv. rewrite B_eq in *. change (2 ^ 16 / 2) with (2 ^ 15) in *.
  destruct (decide (d ≤ 15)); [apply Z.pow_le_mono_r; lia|].
  assert (2 ^ 16 ≤ 2 ^ d) by (apply Z.pow_le_mono_r; lia). assert (0 < v1) by nia. nia.
Qed.

Lemma normalize_correct uo us vpre v1 vs d uspace vspace :
  Forall digit us → Forall digit (v1 :: vs) → 0 ≤ d → B / 2 ≤ v1 * 2 ^ d < B →
  uspace = replicate uo 0 ++ 0 :: us → vspace = vpre ++ v1 :: vs →
  ∃ w us' v1' vs',
    (if 0 <? d then
       uspace ← shl (length us) uspace (Z.of_nat uo) d;
       vspace ← shl (length vs) vspace (Z.of_nat (length vpre)) d;
       Ret (uspace, vspace)
     else Ret (uspace, vspace)) = Ret (replicate uo 0 ++ w :: us', vpre ++ v1' :: vs') ∧
    length us' = length us ∧ length vs' = length vs ∧ Forall digit (w :: us') ∧ Forall digit (v1' :: vs') ∧
    dval (w :: us') = dval us * 2 ^ d ∧ dval (v1' :: vs') = dval (v1 :: vs) * 2 ^ d ∧ B / 2 ≤ v1'.
Proof.
  intros Fu Fv Hd Hv1 -> ->. case_cmp.
  2: { assert (d = 0) as -> by lia. rewrite Z.pow_0_r in *. exists 0, us, v1, vs. split; [done|].
       do 2 (split; [done|]). split; [by constructor|]. split; [done|]. rewrite (dval_cons 0). lia. }
  pose proof B_eq as HB. assert (d < 16) as Hd16.
  { destruct (decide (d < 16)); [done|]. assert (2 ^ 16 ≤ 2 ^ d) by (apply Z.pow_le_mono_r; lia).
    rewrite HB in Hv1. change (2 ^ 16 / 2) with (2 ^ 15) in Hv1. assert (0 < v1) by nia. nia. }
  destruct (split_base d) as (HBd & ? & ?); [lia|].
  destruct (shl_correct (length us) (replicate uo 0) 0 us d) as (ys & E & Hys & Fys & Ey);
    [lia|done|by constructor|]. rewrite length_replicate in E. rewrite E. cbn [mbind res_bind].
  destruct (shl_correct (length vs) vpre v1 vs d) as (zs & E' & Hzs & Fzs & Ez); [lia|done|done|].
  rewrite E'. cbn [mbind res_bind].
  destruct ys as [|w us']; [done|]. destruct zs as [|v1' vs']; [done|].
  exists w, us', v1', vs'. split; [done|]. split; [by injection Hys|]. split; [by injection Hzs|].
  do 2 (split; [done|]).
  apply Forall_cons in Fv as [Hv Fv]. pose proof (dval_range _ Fu) as HU. pose proof (dval_range _ Fv) as HV.
  pose proof (B_pow (length us)). pose proof (B_pow (length vs)). unfold digit in Hv.
  assert (dval (w :: us') = dval us * 2 ^ d) as Eu.
  { rewrite Ey, (dval_cons 0), B_pow_S. apply Z.mod_small. nia. }
  assert (dval (v1' :: vs') = dval (v1 :: vs) * 2 ^ d) as Ev.
  { rewrite Ez, B_pow_S. apply Z.mod_small. rewrite dval_cons.
    assert (v1 + 1 ≤ 2 ^ (16 - d)) by nia. split; [nia|].
    assert ((v1 * B ^ Z.of_nat (length vs) + dval vs) < 2 ^ (16 - d) * B ^ Z.of_nat (length vs)) by nia.
    rewrite HBd at 2. nia. }
  do 2 (split; [done|]). rewrite !dval_cons in Ev.
  apply Forall_cons in Fzs as [_ Fzs]. pose proof (dval_range _ Fzs) as HV'.
  assert (length vs' = length vs) as Hl by (by injection Hzs). rewrite Hl in *.
  assert (B / 2 * B ^ Z.of_nat (length vs) < (v1' + 1) * B ^ Z.of_nat (length vs)) by nia. nia.
Qed.

Lemma clear_q_correct k q : (k ≤ length q)%nat → clear_q k q = Ret (replicate k 0 ++ drop k q).
Proof.
  revert q. induction k as [|k IH]; intros q Hk; [done|]. cbn [clear_q].
  rewrite wr_nat by lia. cbn [mbind res_bind]. rewrite IH by (rewrite length_insert; lia). f_equal.
  rewrite replicate_S_end, <-app_assoc. f_equal. rewrite (drop_S _ 0 k) by (apply list_lookup_insert_eq; lia).
  by rewrite drop_insert_lt by lia.
Qed.

Lemma digits_ull_correct x l : length l = 4%nat → Forall digit l → digits_ull (x :: l) = Ret (dval l).
Proof.
  intros Hl F. destruct l as [|a [|b [|c [|d [|]]]]]; try done.
  apply Forall_cons in F as [Ha F]. apply Forall_cons in F as [Hb F].
  apply Forall_cons in F as [Hc F]. apply Forall_cons in F as [Hd _].
  unfold digits_ull. cbn [rd mbind res_bind]. change ((x :: [a; b; c; d]).[1]) with (Ret a).
  change ((x :: [a; b; c; d]).[2]) with (Ret b). change ((x :: [a; b; c; d]).[3]) with (Ret c).
  change ((x :: [a; b; c; d]).[4]) with (Ret d). cbn [mbind res_bind].
  rewrite !COMBINE_eq by done. unfold digit in *. rewrite ull_eq by (rewrite B_eq in *; lia). f_equal.
  unfold dval. cbn [fold_left]. rewrite B_eq. ring.
Qed.

(** ** Leading zeros *)

Lemma skip_v_correct j v1 v2 v3 v4 :
  (v1 = 0 ∧ v2 = 0 ∧ v3 = 0 ∧ skip_v 5 [j; v1; v2; v3; v4] 0 4 = Ret (2, 1)) ∨
  ∃ vpre x y vs, [j; v1; v2; v3; v4] = vpre ++ x :: y :: vs ∧ x ≠ 0 ∧
    skip_v 5 [j; v1; v2; v3; v4] 0 4 = Ret (Z.of_nat (length vpre) - 1, Z.of_nat (length (x :: y :: vs))) ∧
    dval (x :: y :: vs) = dval [v1; v2; v3; v4] ∧ length (vpre ++ x :: y :: vs) = 5%nat ∧
    (∃ z, v1 :: v2 :: v3 :: v4 :: [] = z ++ x :: y :: vs).
Proof.
  destruct (decide (v1 = 0)) as [->|H1]; [|right; exists [j], v1, v2, [v3; v4]].
  2: { split; [done|]. split; [done|]. split; [|split; [done|split; [done|by exists []]]].
       by destruct v1. }
  destruct (decide (v2 = 0)) as [->|H2]; [|right; exists [j; 0], v2, v3, [v4]].
  2: { split; [done|]. split; [done|]. split; [|split; [done|split; [done|by exists [0]]]].
       by destruct v2. }
  destruct (decide (v3 = 0)) as [->|H3]; [|right; exists [j; 0; 0], v3, v4, []].
  2: { split; [done|]. split; [done|]. split; [|split; [done|split; [done|by exists [0; 0]]]].
       by destruct v3. }
  by left.
Qed.

Lemma skip_u_correct u1 u2 u3 u4 M : dval [u1; u2; u3; u4] ≠ 0 →
  ∃ uo us, [0; u1; u2; u3; u4] = replicate uo 0 ++ 0 :: us ∧
    skip_u 5 [0; u1; u2; u3; u4] 0 M = Ret (Z.of_nat uo, M - Z.of_nat uo) ∧
    dval us = dval [u1; u2; u3; u4] ∧ (∃ z, [u1; u2; u3; u4] = z ++ us).
Proof.
  intros H. destruct (decide (u1 = 0)) as [->|H1]; [|exists 0%nat, [u1; u2; u3; u4]].
  2: { split; [done|]. split; [|split; [done|by exists []]].
       transitivity (Ret (0, M)); [by destruct u1|do 2 f_equal; lia]. }
  destruct (decide (u2 = 0)) as [->|H2]; [|exists 1%nat, [u2; u3; u4]].
  2: { split; [done|]. split; [|split; [done|by exists [0]]].
       transitivity (Ret (1, M - 1)); [by destruct u2|do 2 f_equal; lia]. }
  destruct (decide (u3 = 0)) as [->|H3]; [|exists 2%nat, [u3; u4]].
  2: { split; [done|]. split; [|split; [done|by exists [0; 0]]].
       transitivity (Ret (2, M - 1 - 1)); [by destruct u3|do 2 f_equal; lia]. }
  destruct (decide (u4 = 0)) as [->|H4]; [done|exists 3%nat, [u4]].
  split; [done|]. split; [|split; [done|by exists [0; 0; 0]]].
  transitivity (Ret (3, M - 1 - 1 - 1)); [by destruct u4|do 2 f_equal; lia].
Qed.

(** ** Program D *)

(** The first window, and the remainder of the shifted numbers. *)
Lemma first_window n w us rest V d X :
  Forall digit (w :: us) → Forall digit rest → length us = n →
  0 ≤ d → 2 ^ d ≤ B / 2 → B / 2 * B ^ Z.of_nat n ≤ V * B →
  0 ≤ X < B ^ Z.of_nat (n + length rest) → dval ((w :: us) ++ rest) = X * 2 ^ d →
  dval (w :: us) < V * B.
Proof.
  intros Fw Fr Hn Hd Hd2 HV HX E. rewrite dval_app in E. pose proof (dval_range _ Fr).
  rewrite Nat2Z.inj_add, Z.pow_add_r in HX by lia.
  pose proof (B_pow n). pose proof (B_pow (length rest)).
  assert (0 < 2 ^ d) by (apply Z.pow_pos_nonneg; lia).
  assert (dval (w :: us) * B ^ Z.of_nat (length rest) < B ^ Z.of_nat n * 2 ^ d * B ^ Z.of_nat (length rest)) by nia.
  assert (dval (w :: us) < B ^ Z.of_nat n * 2 ^ d) by nia. nia.
Qed.

Lemma unscale X V Q R d : 0 < V → 0 ≤ d → X * 2 ^ d = Q * (V * 2 ^ d) + R → 0 ≤ R < V * 2 ^ d →
  Q = X / V ∧ R = X mod V * 2 ^ d ∧ R / 2 ^ d = X mod V.
Proof.
  intros HV Hd E HR. assert (0 < 2 ^ d) by (apply Z.pow_pos_nonneg; lia).
  assert (R = (X - Q * V) * 2 ^ d) as ER by lia. assert (0 ≤ X - Q * V < V) by nia.
  assert (Q = X / V) as EQ by (apply Z.div_unique with (X - Q * V); lia).
  assert (X - Q * V = X mod V) as Em by (apply Z.mod_unique with Q; lia).
  split; [done|]. rewrite ER, <-Em. split; [done|]. by rewrite Z.div_mul by lia.
Qed.

Lemma digits_ull_pad k l : (k + length l = 4)%nat → Forall digit l →
  digits_ull (replicate (S k) 0 ++ l) = Ret (dval l).
Proof.
  intros Hl Fl. cbn [replicate app]. rewrite digits_ull_correct.
  - f_equal. apply dval_zeros.
  - by rewrite length_app, length_replicate.
  - apply Forall_app. split; [|done]. by apply Forall_replicate.
Qed.

Lemma norm_lower v1 vs : Forall digit (v1 :: vs) → B / 2 ≤ v1 →
  B / 2 * B ^ Z.of_nat (length (v1 :: vs)) ≤ dval (v1 :: vs) * B.
Proof.
  intros [_ F]%Forall_cons Hn. pose proof (dval_range _ F). pose proof (B_pow (length vs)). pose proof B_pos.
  rewrite dval_cons. cbn [length]. rewrite B_pow_S.
  assert (B / 2 * B ^ Z.of_nat (length vs) ≤ v1 * B ^ Z.of_nat (length vs) + dval vs) by nia. nia.
Qed.

(** The remainder is shifted back. *)
Lemma remainder_correct k n R d r : (k + n = 4)%nat → length R = n → Forall digit R → 0 ≤ d → 2 ^ d ≤ B / 2 →
  dval R / 2 ^ d = r →
  (uspace ← (if negb (d =? 0) then shr n (replicate (S k) 0 ++ R) (Z.of_nat k) d
             else Ret (replicate (S k) 0 ++ R));
   r ← digits_ull uspace;
   Ret (Some r)) = Ret (Some r).
Proof.
  intros Hk Hn F Hd Hd2 Hr. pose proof B_eq as HB. destruct (Z.eqb_spec d 0); cbn [negb].
  - subst d. rewrite Z.pow_0_r, Z.div_1_r in Hr. cbn [mbind res_bind].
    rewrite digits_ull_pad by (done || lia). by rewrite <-Hr.
  - assert (d < 16) as Hd16.
    { destruct (decide (d < 16)); [done|]. assert (2 ^ 16 ≤ 2 ^ d) by (apply Z.pow_le_mono_r; lia).
      rewrite HB in Hd2. change (2 ^ 16 / 2) with (2 ^ 15) in Hd2. lia. }
    destruct (shr_correct n (replicate k 0) 0 R [] (Z.of_nat k) d) as (ws & E & Hws & Fws & Ew);
      [lia|done|by rewrite length_replicate|by constructor|].
    rewrite !app_nil_r in E. rewrite replicate_S_end, <-app_assoc. cbn [app]. rewrite E. cbn [mbind res_bind].
    rewrite cons_middle, app_assoc, <-replicate_S_end, digits_ull_pad by (done || lia). cbn [mbind res_bind].
    do 2 f_equal. rewrite Ew, (dval_cons 0), Z.mul_0_l, Z.add_0_l. rewrite Hr.
    pose proof (dval_range _ F) as HF. rewrite Hn in HF. assert (0 < 2 ^ d) by (apply Z.pow_pos_nonneg; lia).
    apply Z.mod_small. subst r. split; [apply Z.div_pos; lia|]. apply Z.div_lt_upper_bound; nia.
Qed.

Lemma div_finish_correct uo w us vpre v1 v2 vs qspace m d arq X V :
  let n := length (v1 :: v2 :: vs) in
  length us = (m + n)%nat → (uo + m + n = 4)%nat → length vpre = S (uo + m) → length qspace = 5%nat →
  take (4 - m) qspace = replicate (4 - m) 0 →
  Forall digit (w :: us) → Forall digit (v1 :: v2 :: vs) → B / 2 ≤ v1 → 0 ≤ d → 2 ^ d ≤ B / 2 →
  0 ≤ X < B ^ Z.of_nat (m + n) → 0 < V →
  dval (w :: us) = X * 2 ^ d → dval (v1 :: v2 :: vs) = V * 2 ^ d →
  div_finish (replicate uo 0 ++ w :: us) (vpre ++ v1 :: v2 :: vs) qspace (Z.of_nat uo)
    (Z.of_nat (length vpre) - 1) (Z.of_nat m) (Z.of_nat n) d arq =
  Ret (X / V, if arq then Some (X mod V) else None).
Proof.
  intros n Hus Hmn Hvp Hq Hq0 Fw Fv Hnorm Hd Hd2 HX HV EX EV. unfold div_finish.
  assert (2 ≤ n)%nat as Hn2 by (unfold n; cbn; lia).
  rewrite <-(app_nil_r (vpre ++ _)), <-app_assoc.
  rewrite (rd_window vpre (v1 :: v2 :: vs) [] v1 (Z.of_nat (length vpre) - 1 + 1) 0) by (done || lia). cbn [mbind res_bind].
  rewrite (rd_window vpre (v1 :: v2 :: vs) [] v2 _ 1) by (done || lia). cbn [mbind res_bind].
  rewrite !Nat2Z.id, <-(take_drop n us), <-(take_drop (4 - m) qspace), Hq0.
  rewrite <-(take_drop n us), app_comm_cons in EX, Fw. apply Forall_app in Fw as [Fw Fr].
  assert (length (take n us) = n ∧ length (drop n us) = m) as [Ht Hr].
  { rewrite length_take, length_drop. lia. }
  destruct (div_loop_correct m n (replicate uo 0) w (take n us) (drop n us) (replicate (4 - m) 0)
    (drop (4 - m) qspace) vpre v1 v2 vs [] (Z.of_nat uo) (Z.of_nat (length vpre) - 1) (4 - Z.of_nat m))
    as (qs & R & E & Hqs & Fqs & HR & FR & EQ & HRV).
  { done. } { done. } { done. } { rewrite length_drop. lia. } { by rewrite length_replicate. } { lia. }
  { rewrite length_replicate. lia. } { done. } { done. } { done. } { done. }
  { apply (first_window n w (take n us) (drop n us) _ d X); try done.
    - by apply norm_lower.
    - rewrite Hr. by rewrite Nat.add_comm. }
  cbn [app] in E |- *. rewrite E. cbn [mbind res_bind]. clear E.
  rewrite EX, EV in EQ. rewrite EV in HRV.
  destruct (unscale X V (dval qs) (dval R) d) as (EQ' & ER & ER'); [done..|].
  rewrite (app_assoc (replicate uo 0)), <-replicate_add, Nat.add_succ_r, <-Nat2Z.inj_add.
  replace (4 - m)%nat with (S (3 - m)) by lia.
  assert (digits_ull (replicate (S (3 - m)) 0 ++ qs) = Ret (X / V)) as ->.
  { rewrite digits_ull_pad by (done || lia). by rewrite EQ'. }
  destruct arq; [|done]. by rewrite (remainder_correct (uo + m) n R d (X mod V)) by (done || lia).
Qed.

(** Digits of the dividend that the divisor has too. *)
Lemma length_le us v1 vs : Forall digit us → Forall digit (v1 :: vs) → v1 ≠ 0 →
  dval (v1 :: vs) ≤ dval us → (length (v1 :: vs) ≤ length us)%nat ∧ 0 < dval (v1 :: vs).
Proof.
  intros Fu [Hv1 Fv]%Forall_cons Hnz Hle. rewrite dval_cons in *. unfold digit in Hv1.
  pose proof (dval_range _ Fu) as HU. pose proof (dval_range _ Fv) as HV. pose proof (B_pow (length vs)).
  split; [|nia]. cbn [length]. destruct (decide (length us ≤ length vs)%nat) as [Hc|]; [|lia].
  assert (B ^ Z.of_nat (length us) ≤ B ^ Z.of_nat (length vs)); [|nia].
  apply Z.pow_le_mono_r; [apply B_pos|lia].
Qed.

Lemma div_D_correct junk u1 u2 u3 u4 vpre v1 v2 vs arq :
  Forall digit [u1; u2; u3; u4] → Forall digit (v1 :: v2 :: vs) → v1 ≠ 0 →
  length (vpre ++ v1 :: v2 :: vs) = 5%nat →
  let X := dval [u1; u2; u3; u4] in
  let V := dval (v1 :: v2 :: vs) in
  V ≤ X →
  div_D junk [0; u1; u2; u3; u4] (vpre ++ v1 :: v2 :: vs) (Z.of_nat (length vpre) - 1)
    (Z.of_nat (length (v1 :: v2 :: vs))) arq = Ret (X / V, if arq then Some (X mod V) else None).
Proof.
  intros Fu Fv Hnz Hl X V HVX. unfold div_D. set (n := length (v1 :: v2 :: vs)) in *.
  destruct (length_le [u1; u2; u3; u4] v1 (v2 :: vs)) as [_ HV0]; [done..|].
  destruct (skip_u_correct u1 u2 u3 u4 (4 - Z.of_nat n)) as (uo & us & Eu & -> & EX & z & Ez);
    [change (X ≠ 0); change (0 < V) in HV0; lia|]. cbn [mbind res_bind].
  assert (Forall digit us) as Fus by (rewrite Ez in Fu; by apply Forall_app in Fu as [_ ?]).
  destruct (length_le us v1 (v2 :: vs)) as [Hlu _]; [done|done|done|rewrite EX; done|].
  assert (uo + length us = 4)%nat as Huo.
  { apply (f_equal length) in Eu. rewrite length_app, length_replicate in Eu. cbn in Eu. lia. }
  assert (∃ m, length us = (m + n)%nat) as [m Hm] by (exists (length us - n)%nat; unfold n; lia).
  assert (4 - Z.of_nat n - Z.of_nat uo = Z.of_nat m) as -> by lia.
  assert (2 ≤ n)%nat as Hn2 by (unfold n; cbn; lia).
  replace (Z.to_nat (4 - Z.of_nat m)) with (4 - m)%nat by lia.
  rewrite clear_q_correct by (cbn [fmap list_fmap length]; lia). cbn [mbind res_bind].
  rewrite <-(app_nil_r (vpre ++ _)), <-app_assoc, (rd_window vpre (v1 :: v2 :: vs) [] v1 _ 0) by (done || lia).
  cbn [mbind res_bind]. rewrite app_nil_r.
  apply Forall_cons in Fv as Fv'. destruct Fv' as [Hv1 _]. unfold digit in Hv1.
  destruct (norm_shift_correct 17 v1 0) as (d & -> & Hd & Hn); [lia| |].
  { change (2 ^ Z.of_nat 17) with (2 ^ 17). rewrite B_eq. lia. }
  cbn [mbind res_bind]. rewrite Z.add_0_l.
  destruct (normalize_correct uo us vpre v1 (v2 :: vs) d [0; u1; u2; u3; u4] (vpre ++ v1 :: v2 :: vs))
    as (w & us' & v1' & vs' & E & Hus' & Hvs' & Fus' & Fvs' & Eus' & Evs' & Hnorm); [done..|].
  replace (Z.to_nat (Z.of_nat m + Z.of_nat n)) with (length us) by lia.
  replace (Z.to_nat (Z.of_nat n - 1)) with (length (v2 :: vs)) by (unfold n; cbn [length]; lia).
  replace (Z.of_nat (length vpre) - 1 + 1) with (Z.of_nat (length vpre)) by lia.
  rewrite E. cbn [mbind res_bind]. destruct vs' as [|v2' vs']; [done|].
  assert (length (v1' :: v2' :: vs') = n) as Hn' by (unfold n; cbn [length] in *; lia).
  rewrite length_app in Hl. fold n in Hl. rewrite <-Hn'. apply div_finish_correct; rewrite ?Hn'; try done.
  - lia.
  - lia.
  - lia.
  - rewrite length_app, length_replicate, length_drop. cbn [fmap list_fmap length]. lia.
  - apply take_app_length'. by rewrite length_replicate.
  - by apply (norm_shift_bound v1).
  - unfold X. rewrite <-EX, <-Hm. by apply dval_range.
  - by rewrite Eus', EX.
Qed.

(** ** The division *)

Lemma ull_digits a : 0 ≤ a < 2 ^ 64 → ∃ x1 x2 x3 x4,
  u16 (HHALF (uu_ll a).(ui_H)) = x1 ∧ u16 (LHALF (uu_ll a).(ui_H)) = x2 ∧
  u16 (HHALF (uu_ll a).(ui_L)) = x3 ∧ u16 (LHALF (uu_ll a).(ui_L)) = x4 ∧
  Forall digit [x1; x2; x3; x4] ∧ dval [x1; x2; x3; x4] = a.
Proof.
  intros Ha. words a h l k.
  destruct (half_word h) as (x1 & x2 & -> & -> & H1 & H2 & Eh); [done|].
  destruct (half_word l) as (x3 & x4 & -> & -> & H3 & H4 & El); [done|]. rewrite <-B_eq in H1, H2, H3, H4.
  exists x1, x2, x3, x4. rewrite !u16_id by done. do 4 (split; [done|]). split; [by repeat (apply Forall_cons_2; [done|])|].
  unfold dval. cbn [fold_left]. rewrite B_eq. lia.
Qed.

Lemma div_step_digit r x t : 0 < t → digit t → 0 ≤ r < t → digit x →
  COMBINE r x = r * B + x ∧ u16 (COMBINE r x / t) = (r * B + x) / t ∧ digit ((r * B + x) / t) ∧
  0 ≤ (r * B + x) mod t < t.
Proof.
  unfold digit. intros Ht Htd Hr Hx. rewrite COMBINE_eq by (unfold digit; lia).
  assert (0 ≤ (r * B + x) / t < B) as Hq.
  { split; [apply Z.div_pos; nia|]. apply Z.div_lt_upper_bound; nia. }
  split; [done|]. split; [by apply u16_id|]. split; [done|]. apply Z.mod_pos_bound. lia.
Qed.

Lemma div_one_correct u1 u2 u3 u4 t : Forall digit [u1; u2; u3; u4] → digit t → t ≠ 0 →
  let X := dval [u1; u2; u3; u4] in
  div_one [0; u1; u2; u3; u4] t = Ret (X / t, X mod t).
Proof.
  intros Fu Ht Hnz X. apply Forall_cons in Fu as [H1 Fu]. apply Forall_cons in Fu as [H2 Fu].
  apply Forall_cons in Fu as [H3 Fu]. apply Forall_cons in Fu as [H4 _].
  assert (0 < t) as Ht0 by (unfold digit in Ht; lia).
  transitivity (
    let q1 := u16 (u1 / t) in
    let rbj := COMBINE (u1 mod t) u2 in
    let q2 := u16 (rbj / t) in
    let rbj := COMBINE (rbj mod t) u3 in
    let q3 := u16 (rbj / t) in
    let rbj := COMBINE (rbj mod t) u4 in
    let q4 := u16 (rbj / t) in
    Ret (ull (UU (COMBINE q1 q2) (COMBINE q3 q4)), rbj mod t)); [done|]. cbv zeta.
  assert (0 ≤ u1 mod t < t) as Hr1 by (apply Z.mod_pos_bound; lia).
  assert (digit (u1 / t)) as Hq1.
  { unfold digit in *. split; [apply Z.div_pos; lia|]. apply Z.div_lt_upper_bound; nia. }
  destruct (div_step_digit (u1 mod t) u2 t) as (-> & Hc2 & Hq2 & Hr2); [done..|].
  pose proof (Z.div_mod u1 t Hnz) as E1. pose proof (Z.div_mod (u1 mod t * B + u2) t Hnz) as E2.
  destruct (div_step_digit ((u1 mod t * B + u2) mod t) u3 t) as (-> & Hc3 & Hq3 & Hr3); [done..|].
  set (r2 := (u1 mod t * B + u2) mod t) in *. pose proof (Z.div_mod (r2 * B + u3) t Hnz) as E3.
  set (r3 := (r2 * B + u3) mod t) in *.
  destruct (div_step_digit r3 u4 t) as (-> & Hc4 & Hq4 & Hr4); [done..|].
  pose proof (Z.div_mod (r3 * B + u4) t Hnz) as E4.
  rewrite Hc2, Hc3, Hc4, (u16_id (u1 / t)) by done.
  clear Hc2 Hc3 Hc4. generalize dependent ((r3 * B + u4) mod t). generalize dependent ((r3 * B + u4) / t).
  generalize dependent ((r2 * B + u3) / t). generalize dependent ((u1 mod t * B + u2) / t).
  generalize dependent (u1 / t). intros q1 Hq1 E1 q2 Hq2 E2 q3 Hq3 E3 q4 Hq4 r4 Hr4 E4.
  rewrite !COMBINE_eq, ull_eq by (done || unfold digit in *; rewrite B_eq in *; lia).
  assert (X = t * (((q1 * B + q2) * B + q3) * B + q4) + r4) as EX.
  { clearbody r2 r3. clear Hr1. revert E1 E2. generalize (u1 mod t). intros r1 E1 E2.
    unfold X, dval. cbn [fold_left]. nia. }
  rewrite <-(Z.div_unique X t _ r4 (or_introl Hr4) EX), <-(Z.mod_unique X t _ r4 (or_introl Hr4) EX).
  do 2 f_equal. rewrite B_eq. lia.
Qed.

Lemma qdivrem_correct junk a b arq : 0 ≤ a < 2 ^ 64 → 0 < b < 2 ^ 64 →
  __qdivrem junk a b arq = Ret (a / b, if arq then Some (a mod b) else None).
Proof.
  intros Ha Hb. unfold __qdivrem. rewrite (proj2 (Z.eqb_neq b 0)) by lia. case_cmp.
  { by rewrite Z.div_small, Z.mod_small by lia. }
  destruct (ull_digits a) as (u1 & u2 & u3 & u4 & -> & -> & -> & -> & Fu & Ea); [done|].
  destruct (ull_digits b) as (v1 & v2 & v3 & v4 & -> & -> & -> & -> & Fv & Eb); [lia|].
  destruct (skip_v_correct (junk 0) v1 v2 v3 v4) as
    [(-> & -> & -> & ->)|(vpre & x & y & vs & El & Hx & -> & Ed & Hl & z & Ez)]; cbn [mbind res_bind].
  - change (dval [0; 0; 0; v4]) with (0 * B + v4) in Eb. change (1 =? 1) with true. cbn iota.
    change ([junk 0; 0; 0; 0; v4].[2 + 2]) with (Ret v4). cbn [mbind res_bind].
    apply Forall_app with (l1 := [0; 0; 0]) in Fv as [_ [Hv4 _]%Forall_cons].
    rewrite div_one_correct by (done || lia). cbn [mbind res_bind]. rewrite Ea.
    replace v4 with b by lia. done.
  - rewrite (proj2 (Z.eqb_neq _ 1)) by (cbn [length]; lia). rewrite El.
    rewrite div_D_correct; [by rewrite Ea, Ed, Eb|done| |done|done|rewrite Ed, Ea, Eb; done].
    rewrite Ez in Fv. by apply Forall_app in Fv as [_ ?].
Qed.

Lemma qdivrem_by_zero junk a arq : __qdivrem junk a 0 arq = Undef.
Proof. done. Qed.

(** The operands without their signs. *)
Lemma u64_abs a : - 2 ^ 63 ≤ a < 2 ^ 63 → (if a <? 0 then u64 (- u64 a) else u64 a) = Z.abs a.
Proof. intros. unfold u64. case_cmp; zdiv_lia. Qed.

Lemma divdi3_eq junk a b : - 2 ^ 63 ≤ a < 2 ^ 63 → - 2 ^ 63 ≤ b < 2 ^ 63 →
  __divdi3 junk a b =
  ('(uq, _) ← __qdivrem junk (Z.abs a) (Z.abs b) false;
   Ret (i64 (if xorb (a <? 0) (b <? 0) then u64 (- uq) else uq))).
Proof.
  intros Ha Hb. unfold __divdi3. pose proof (u64_abs a Ha) as Ea. pose proof (u64_abs b Hb) as Eb.
  destruct (a <? 0), (b <? 0); by rewrite Ea, Eb.
Qed.

Lemma moddi3_eq junk a b : - 2 ^ 63 ≤ a < 2 ^ 63 → - 2 ^ 63 ≤ b < 2 ^ 63 →
  __moddi3 junk a b =
  ('(_, r) ← __qdivrem junk (Z.abs a) (Z.abs b) true;
   ur ← deref r;
   Ret (i64 (if a <? 0 then u64 (- ur) else ur))).
Proof.
  intros Ha Hb. unfold __moddi3. pose proof (u64_abs a Ha) as Ea. rewrite (u64_abs b Hb).
  destruct (a <? 0); by rewrite Ea.
Qed.

Lemma signed_quot a b : b ≠ 0 →
  i64 (if xorb (a <? 0) (b <? 0) then u64 (- (Z.abs a / Z.abs b)) else Z.abs a / Z.abs b) = i64 (Z.quot a b).
Proof.
  intros Hb. assert (Z.quot a b = Z.sgn a * Z.sgn b * (Z.abs a / Z.abs b)) as -> by (by apply Z.quot_div).
  destruct (Z.ltb_spec a 0), (Z.ltb_spec b 0); cbn [xorb].
  - apply f_equal. rewrite !Z.sgn_neg by done. lia.
  - rewrite i64_u64, (Z.sgn_neg a), (Z.sgn_pos b) by lia. apply f_equal. lia.
  - rewrite i64_u64, (Z.sgn_neg b) by lia. apply f_equal. destruct (decide (a = 0)) as [->|]; [done|].
    rewrite Z.sgn_pos by lia. lia.
  - rewrite (Z.sgn_pos b) by lia. apply f_equal. destruct (decide (a = 0)) as [->|]; [done|].
    rewrite Z.sgn_pos by lia. lia.
Qed.

Lemma signed_rem a b : b ≠ 0 →
  i64 (if a <? 0 then u64 (- (Z.abs a mod Z.abs b)) else Z.abs a mod Z.abs b) = i64 (Z.rem a b).
Proof.
  intros Hb. assert (Z.rem a b = Z.sgn a * (Z.abs a mod Z.abs b)) as -> by (by apply Z.rem_mod).
  case_cmp.
  - rewrite i64_u64, Z.sgn_neg by done. apply f_equal. lia.
  - apply f_equal. destruct (decide (a = 0)) as [->|]; [by rewrite Z.mod_0_l by lia|]. rewrite Z.sgn_pos by lia. lia.
Qed.

Lemma quot_range a b : - 2 ^ 63 ≤ a < 2 ^ 63 → b ≠ 0 → ¬ (a = - 2 ^ 63 ∧ b = -1) →
  - 2 ^ 63 ≤ Z.quot a b < 2 ^ 63.
Proof.
  intros Ha Hb Hc. pose proof (Z.quot_rem' a b). pose proof (Z.rem_bound_abs a b Hb).
  assert (Z.abs (Z.quot a b) ≤ Z.abs a).
  { rewrite <-Z.quot_abs by done. rewrite Z.quot_div_nonneg by lia. apply Z.div_le_upper_bound; nia. }
  assert (Z.quot a b ≠ 2 ^ 63); [|lia]. intros E. apply Hc.
  assert (a = - 2 ^ 63) as -> by lia. split; [done|].
  destruct (decide (b = 1)) as [->|]; [rewrite Z.quot_1_r in E; lia|].
  destruct (decide (b = -1)) as [|]; [done|].
  assert (Z.abs (Z.quot (- 2 ^ 63) b) * Z.abs b ≤ 2 ^ 63); [|nia].
  rewrite <-Z.quot_abs, Z.quot_div_nonneg, Z.mul_comm by lia. apply (Z.mul_div_le (2 ^ 63)). lia.
Qed.

(** ** Properties *)

(** C6: [__qdivrem] divides: for a divisor other than 0 it returns the quotient and, where
    it is asked for, stores the remainder, whatever the stack held.  All of Program D
    is covered, with the case of a guessed digit that is one too large. *)
Theorem qdivrem_divides junk a b arq : 0 ≤ a < 2 ^ 64 → 0 < b < 2 ^ 64 →
  __qdivrem junk a b arq = Ret (a / b, if arq then Some (a mod b) else None).
Proof. apply qdivrem_correct. Qed.

(** The guessed digit is one too large here, and [v] is added back. *)
Lemma qdivrem_divides_witness :
  __qdivrem (λ _, 77) 0x800000000003 0x200000000001 true = Ret (3, Some 0x200000000000).
Proof. apply (qdivrem_divides (λ _, 77) 0x800000000003 0x200000000001 true); lia. Defined.

(** Signed division truncates toward zero and the remainder has the sign of the
    dividend; the one quotient that does not fit, of the least number by -1, wraps. *)
Theorem divdi3_truncates junk a b : - 2 ^ 63 ≤ a < 2 ^ 63 → - 2 ^ 63 ≤ b < 2 ^ 63 → b ≠ 0 →
  __divdi3 junk a b = Ret (if decide (a = - 2 ^ 63 ∧ b = -1) then - 2 ^ 63 else Z.quot a b) ∧
  __moddi3 junk a b = Ret (Z.rem a b).
Proof.
  intros Ha Hb Hnz. rewrite divdi3_eq, moddi3_eq, !qdivrem_correct by lia. cbn [mbind res_bind deref].
  split.
  - rewrite signed_quot by done. f_equal. case_decide as Hc; [by destruct Hc as [-> ->]|].
    apply i64_id. by apply quot_range.
  - rewrite signed_rem by done. f_equal. apply i64_id. pose proof (Z.rem_bound_abs a b Hnz). lia.
Qed.

Lemma divdi3_truncates_witness :
  __divdi3 (λ _, 0) (- 2 ^ 63) (-1) = Ret (- 2 ^ 63) ∧ __moddi3 (λ _, 0) (- 2 ^ 63) (-1) = Ret 0.
Proof. apply (divdi3_truncates (λ _, 0) (- 2 ^ 63) (-1)); lia. Defined.

(** Division by zero reaches [1 / zero] before any result. *)
Theorem division_by_zero junk a arq : __qdivrem junk a 0 arq = Undef ∧ __udivdi3 junk a 0 = Undef ∧
  __umoddi3 junk a 0 = Undef ∧ __divdi3 junk a 0 = Undef ∧ __moddi3 junk a 0 = Undef.
Proof. unfold __divdi3, __moddi3. by destruct (a <? 0). Qed.
