(* ===== verification/Vfs.v ===== *)
(** * The VFS layer (kern/vfs/vnode.c, vfspath.c, vfslookup.c, vfscwd.c, vfslist.c)

    Vnodes with their reference counts, the table of named devices, the current
    directory and what the operations on pathnames do with them.  The file systems are
    behind the interfaces [FsOps] and [FsLaws], which stand for the tables [vnode_ops]
    and [fs_ops]: the operations take and return the whole state.  Pointers are numbers,
    0 is [NULL]; a vnode that has been freed is not in the store any more.  The layer
    runs under [vfs_biglock], which one thread may take repeatedly: its depth is part of
    the state. *)

From Stdlib Require Import Ascii String.
From S2P Require Import Prelude CString.

(** ** Data *)

Definition EBUSY : Z := 27.
Definition ENOTDIR : Z := 17.
Definition EXDEV : Z := 24.
Definition ENODEV : Z := 25.
Definition ENXIO : Z := 26.

Definition O_RDONLY : Z := 0.
Definition O_WRONLY : Z := 1.
Definition O_RDWR : Z := 2.
Definition O_CREAT : Z := 4.
Definition O_EXCL : Z := 8.
Definition O_TRUNC : Z := 16.
Definition O_ACCMODE : Z := 3.
Definition NAME_MAX : Z := 255.
Definition S_IFDIR : Z := 8192.

Record vnode := Vnode { vn_refcount : Z; vn_fs : Z; vn_data : Z }.

Record knowndev := Knowndev {
  kd_name : list Z;
  kd_rawname : option (list Z);
  kd_device : Z;
  kd_vnode : Z;
  kd_fs : Z
}.

Definition SWAP_FS : Z := -1.

Record vfs (S : Type) := Vfs {
  vnodes : gmap Z vnode;
  knowndevs : list knowndev;
  bootfs_vnode : Z;
  vfs_biglock_depth : Z;
  p_cwd : Z;                 (* of the current process *)
  d_devnumber : gmap Z Z;    (* of the devices *)
  fsys : S                   (* what belongs to the file systems *)
}.

Arguments Vfs {S}.
Arguments vnodes {S}.
Arguments knowndevs {S}.
Arguments bootfs_vnode {S}.
Arguments vfs_biglock_depth {S}.
Arguments p_cwd {S}.
Arguments d_devnumber {S}.
Arguments fsys {S}.

(** The operations of the file systems.  [U] is the type of [struct uio]; an operation
    that hands back a vnode or a name returns it with the error number. *)
Class FsOps (S U : Type) := {
  fs_live : S → Z → Prop;      (* a file system that can be used *)
  vn_wf : S → Z → Z → Prop;    (* the [vn_fs] and [vn_data] of a vnode *)
  vn_dir : S → Z → Z → Prop;   (* those of a directory *)
  vop_read : vfs S → Z → U → res (Z * U * vfs S);
  vop_write : vfs S → Z → U → res (Z * U * vfs S);
  vop_eachopen : vfs S → Z → Z → res (Z * vfs S);
  vop_reclaim : vfs S → Z → res (Z * vfs S);
  vop_truncate : vfs S → Z → Z → res (Z * vfs S);
  vop_gettype : vfs S → Z → res (Z * Z * vfs S);
  vop_readlink : vfs S → Z → U → res (Z * U * vfs S);
  vop_creat : vfs S → Z → list Z → bool → Z → res (Z * Z * vfs S);
  vop_symlink : vfs S → Z → list Z → list Z → res (Z * vfs S);
  vop_mkdir : vfs S → Z → list Z → Z → res (Z * vfs S);
  vop_link : vfs S → Z → list Z → Z → res (Z * vfs S);
  vop_remove : vfs S → Z → list Z → res (Z * vfs S);
  vop_rmdir : vfs S → Z → list Z → res (Z * vfs S);
  vop_rename : vfs S → Z → list Z → Z → list Z → res (Z * vfs S);
  vop_lookup : vfs S → Z → list Z → res (Z * Z * vfs S);
  vop_lookparent : vfs S → Z → list Z → Z → res (Z * Z * list Z * vfs S);
  fsop_sync : vfs S → Z → res (Z * vfs S);
  fsop_getvolname : vfs S → Z → option (list Z);
  fsop_getroot : vfs S → Z → res (Z * Z * vfs S);
  fsop_unmount : vfs S → Z → res (Z * vfs S)
}.

Section Vfs.
Context {S U : Type} `{FO : FsOps S U}.
#[local] Notation vfs := (vfs S).

Definition set_vnodes (s : vfs) m : vfs :=
  Vfs m s.(knowndevs) s.(bootfs_vnode) s.(vfs_biglock_depth) s.(p_cwd) s.(d_devnumber) s.(fsys).
Definition set_knowndevs (s : vfs) l : vfs :=
  Vfs s.(vnodes) l s.(bootfs_vnode) s.(vfs_biglock_depth) s.(p_cwd) s.(d_devnumber) s.(fsys).
Definition set_bootfs (s : vfs) v : vfs :=
  Vfs s.(vnodes) s.(knowndevs) v s.(vfs_biglock_depth) s.(p_cwd) s.(d_devnumber) s.(fsys).
Definition set_depth (s : vfs) d : vfs :=
  Vfs s.(vnodes) s.(knowndevs) s.(bootfs_vnode) d s.(p_cwd) s.(d_devnumber) s.(fsys).
Definition set_cwd (s : vfs) v : vfs :=
  Vfs s.(vnodes) s.(knowndevs) s.(bootfs_vnode) s.(vfs_biglock_depth) v s.(d_devnumber) s.(fsys).
Definition set_devnumber (s : vfs) m : vfs :=
  Vfs s.(vnodes) s.(knowndevs) s.(bootfs_vnode) s.(vfs_biglock_depth) s.(p_cwd) m s.(fsys).
Definition set_fsys (s : vfs) x : vfs :=
  Vfs s.(vnodes) s.(knowndevs) s.(bootfs_vnode) s.(vfs_biglock_depth) s.(p_cwd) s.(d_devnumber) x.

(** ** Vnodes (vnode.c) *)

Definition vnode_init (s : vfs) (vn fs fsdata : Z) : res vfs :=
  _ ← kassert (negb (vn =? 0));
  Ret (set_vnodes s (<[vn := Vnode 1 fs fsdata]> s.(vnodes))).

(** [vnode_cleanup] and the [kfree] that follows it. *)
Definition vnode_cleanup (s : vfs) (vn : Z) : res vfs :=
  n ← deref (s.(vnodes) !! vn);
  _ ← kassert (n.(vn_refcount) =? 1);
  Ret (set_vnodes s (delete vn s.(vnodes))).

Definition vnode_incref (s : vfs) (vn : Z) : res vfs :=
  _ ← kassert (negb (vn =? 0));
  n ← deref (s.(vnodes) !! vn);
  Ret (set_vnodes s (<[vn := Vnode (n.(vn_refcount) + 1) n.(vn_fs) n.(vn_data)]> s.(vnodes))).

Definition deadbeef : Z := 0xdeadbeef.

Definition vnode_check (s : vfs) (v : Z) : res unit :=
  if v =? 0 then Panic else
  if v =? deadbeef then Panic else
  n ← deref (s.(vnodes) !! v);
  if n.(vn_fs) =? deadbeef then Panic else
  if n.(vn_refcount) <? 0 then Panic else
  if n.(vn_refcount) =? 0 then Panic else Ret tt.

Definition vnode_decref (s : vfs) (vn : Z) : res vfs :=
  _ ← kassert (negb (vn =? 0));
  n ← deref (s.(vnodes) !! vn);
  _ ← kassert (0 <? n.(vn_refcount));
  if 1 <? n.(vn_refcount) then
    Ret (set_vnodes s (<[vn := Vnode (n.(vn_refcount) - 1) n.(vn_fs) n.(vn_data)]> s.(vnodes)))
  else
    _ ← vnode_check s vn;
    '(_, s) ← vop_reclaim s vn;
    Ret s.

(** ** The lock *)

Definition vfs_biglock_acquire (s : vfs) : vfs := set_depth s (s.(vfs_biglock_depth) + 1).

Definition vfs_biglock_do_i_hold (s : vfs) : bool := 0 <? s.(vfs_biglock_depth).

Definition vfs_biglock_release (s : vfs) : res vfs :=
  _ ← kassert (0 <? s.(vfs_biglock_depth));
  Ret (set_depth s (s.(vfs_biglock_depth) - 1)).

(** ** The current directory (vfscwd.c) *)

Definition vfs_getcurdir (s : vfs) : res (Z * Z * vfs) :=
  if negb (s.(p_cwd) =? 0) then
    s ← vnode_incref s s.(p_cwd);
    Ret (0, s.(p_cwd), s)
  else Ret (ENOENT, 0, s).

Definition vfs_setcurdir (s : vfs) (dir : Z) : res (Z * vfs) :=
  _ ← vnode_check s dir;
  '(result, vtype, s) ← vop_gettype s dir;
  if negb (result =? 0) then Ret (result, s) else
  if negb (vtype =? S_IFDIR) then Ret (ENOTDIR, s) else
  s ← vnode_incref s dir;
  let old := s.(p_cwd) in
  let s := set_cwd s dir in
  s ← (if negb (old =? 0) then vnode_decref s old else Ret s);
  Ret (0, s).

Definition vfs_clearcurdir (s : vfs) : res (Z * vfs) :=
  let old := s.(p_cwd) in
  let s := set_cwd s 0 in
  s ← (if negb (old =? 0) then vnode_decref s old else Ret s);
  Ret (0, s).

(** ** Named devices (vfslist.c) *)

(** [!strcmp(a, b)] *)
Definition streq (a b : list Z) : res bool := r ← strcmp a b; Ret (r =? 0).

Definition has_fs (kd : knowndev) : bool := negb (kd.(kd_fs) =? 0) && negb (kd.(kd_fs) =? SWAP_FS).

(** The loop of [vfs_getroot]. *)
Fixpoint getroot_loop (s : vfs) (kds : list knowndev) (devname : list Z) : res (Z * Z * vfs) :=
  match kds with
  | [] => Ret (ENODEV, 0, s)
  | kd :: kds' =>
      named ← streq kd.(kd_name) devname;
      let use_device :=
        _ ← kassert (negb (kd.(kd_device) =? 0));
        s ← vnode_incref s kd.(kd_vnode);
        Ret (0, kd.(kd_vnode), s) in
      let next :=
        if (named : bool) then
          _ ← kassert (kd.(kd_fs) =? 0);
          _ ← kassert (bool_decide (kd.(kd_rawname) = None));
          use_device
        else
          raw ← (match kd.(kd_rawname) with None => Ret false | Some r => streq r devname end);
          if (raw : bool) then use_device else getroot_loop s kds' devname in
      if has_fs kd then
        vol ← (match fsop_getvolname s kd.(kd_fs) with None => Ret false | Some v => streq v devname end);
        if named || vol then fsop_getroot s kd.(kd_fs) else next
      else if negb (bool_decide (kd.(kd_rawname) = None)) && named then Ret (ENXIO, 0, s)
      else next
  end.

Definition vfs_getroot (s : vfs) (devname : list Z) : res (Z * Z * vfs) :=
  _ ← kassert (vfs_biglock_do_i_hold s);
  getroot_loop s s.(knowndevs) devname.

Definition vfs_getdevname (s : vfs) (fs : Z) : res (option (list Z)) :=
  _ ← kassert (negb (fs =? 0));
  _ ← kassert (vfs_biglock_do_i_hold s);
  Ret (match list_find (λ kd, kd.(kd_fs) = fs) s.(knowndevs) with
       | Some (_, kd) => Some kd.(kd_name)
       | None => None
       end).

Definition kstrdup (str : list Z) (o : script) : res (option (list Z) * script) :=
  n ← strlen str 0;
  let '(ok, o) := kmalloc o in
  if negb ok then Ret (None, o) else
  z ← strcpy (replicate (Z.to_nat (n + 1)) 0) 0 str 0;
  Ret (Some z, o).

Definition mkrawname (name : list Z) (o : script) : res (option (list Z) * script) :=
  n ← strlen name 0;
  let '(ok, o) := kmalloc o in
  if negb ok then Ret (None, o) else
  z ← strcpy (replicate (Z.to_nat (n + 3 + 1)) 0) 0 name 0;
  z ← strcat z 0 (lit "raw") 0;
  Ret (Some z, o).

Definition samestring (a b : option (list Z)) : res bool :=
  match a, b with Some a, Some b => streq a b | _, _ => Ret false end.

Definition samestring3 (a b c d : option (list Z)) : res bool :=
  x ← samestring a b;
  if (x : bool) then Ret true else
  x ← samestring a c;
  if (x : bool) then Ret true else samestring a d.

Fixpoint badnames_loop (s : vfs) (kds : list knowndev) (n1 n2 n3 : option (list Z)) : res bool :=
  match kds with
  | [] => Ret false
  | kd :: kds' =>
      x ← (if has_fs kd then samestring3 (fsop_getvolname s kd.(kd_fs)) n1 n2 n3 else Ret false);
      if (x : bool) then Ret true else
      x ← samestring3 kd.(kd_rawname) n1 n2 n3;
      if (x : bool) then Ret true else
      x ← samestring3 (Some kd.(kd_name)) n1 n2 n3;
      if (x : bool) then Ret true else badnames_loop s kds' n1 n2 n3
  end.

Definition badnames (s : vfs) (n1 n2 n3 : option (list Z)) : res bool :=
  _ ← kassert (vfs_biglock_do_i_hold s);
  badnames_loop s s.(knowndevs) n1 n2 n3.

(** A pointer that [kmalloc] may return for a vnode: new and aligned. *)
Definition new_vnode (s : vfs) : Z := 4 * (1 + map_fold (λ k _ a, Z.max k a) 0 s.(vnodes)).

Definition dev_create_vnode (s : vfs) (dev : Z) (o : script) : res (Z * vfs * script) :=
  let '(ok, o) := kmalloc o in
  if negb ok then Ret (0, s, o) else
  s' ← vnode_init s (new_vnode s) 0 dev;
  Ret (new_vnode s, s', o).

(** Leaving [vfs_doadd] at [fail]: the vnode is given up if there is one. *)
Definition doadd_fail (s : vfs) (vnode result : Z) (o : script) : res (Z * vfs * script) :=
  s ← (if negb (vnode =? 0) then vnode_cleanup s vnode else Ret s);
  s ← vfs_biglock_release s;
  Ret (result, s, o).

(** The rest of [vfs_doadd], once the names are there. *)
Definition doadd_new (s : vfs) (name : list Z) (rawname : option (list Z)) (dev fs : Z) (o : script)
    : res (Z * vfs * script) :=
  '(vnode, s, o) ← dev_create_vnode s dev o;
  if vnode =? 0 then doadd_fail s 0 ENOMEM o else
  let '(ok, o) := kmalloc o in
  if negb ok then doadd_fail s vnode ENOMEM o else
  let kd := Knowndev name rawname dev vnode fs in
  let volname := if negb (fs =? 0) then fsop_getvolname s fs else None in
  bad ← badnames s (Some name) rawname volname;
  if (bad : bool) then doadd_fail s vnode EEXIST o else
  let '(ok, o) := kmalloc o in    (* of [knowndevarray_add] *)
  if negb ok then doadd_fail s vnode ENOMEM o else
  let index := Z.of_nat (length s.(knowndevs)) in
  let s := set_knowndevs s (s.(knowndevs) ++ [kd]) in
  let s := if negb (dev =? 0) then set_devnumber s (<[dev := index + 1]> s.(d_devnumber)) else s in
  s ← vfs_biglock_release s;
  Ret (0, s, o).

Definition vfs_doadd (s : vfs) (dname : list Z) (mountable : bool) (dev fs : Z) (o : script)
    : res (Z * vfs * script) :=
  let s := vfs_biglock_acquire s in
  '(name, o) ← kstrdup dname o;
  match name with
  | None => doadd_fail s 0 ENOMEM o
  | Some name =>
      '(rawname, o) ← (if mountable then mkrawname name o else Ret (None, o));
      if mountable && bool_decide (rawname = None) then doadd_fail s 0 ENOMEM o
      else doadd_new s name rawname dev fs o
  end.

Definition vfs_adddev (s : vfs) (devname : list Z) (dev : Z) (mountable : bool) (o : script) :=
  vfs_doadd s devname mountable dev 0 o.

Definition vfs_addfs (s : vfs) (devname : list Z) (fs : Z) (o : script) :=
  vfs_doadd s devname false 0 fs o.

(** The index of the mountable device of that name. *)
Fixpoint findmount_loop (kds : list knowndev) (i : nat) (devname : list Z) : res (option nat) :=
  match kds with
  | [] => Ret None
  | kd :: kds' =>
      match kd.(kd_rawname) with
      | None => findmount_loop kds' (i + 1) devname
      | Some _ =>
          same ← streq devname kd.(kd_name);
          if (same : bool) then Ret (Some i) else findmount_loop kds' (i + 1) devname
      end
  end.

Definition findmount (s : vfs) (devname : list Z) : res (option nat) :=
  _ ← kassert (vfs_biglock_do_i_hold s);
  findmount_loop s.(knowndevs) 0 devname.

Definition set_fs (s : vfs) (i : nat) (fs : Z) : vfs :=
  set_knowndevs s (alter (λ kd, Knowndev kd.(kd_name) kd.(kd_rawname) kd.(kd_device) kd.(kd_vnode) fs) i s.(knowndevs)).

Definition release_with (s : vfs) (result : Z) : res (Z * vfs) :=
  s ← vfs_biglock_release s;
  Ret (result, s).

Definition vfs_mount (s : vfs) (devname : list Z) (mountfunc : vfs → Z → res (Z * Z * vfs)) : res (Z * vfs) :=
  let s := vfs_biglock_acquire s in
  found ← findmount s devname;
  match found with
  | None => release_with s ENODEV
  | Some i =>
      kd ← deref (s.(knowndevs) !! i);
      if negb (kd.(kd_fs) =? 0) then release_with s EBUSY else
      _ ← kassert (negb (bool_decide (kd.(kd_rawname) = None)));
      _ ← kassert (negb (kd.(kd_device) =? 0));
      '(result, fs, s) ← mountfunc s kd.(kd_device);
      if negb (result =? 0) then release_with s result else
      _ ← kassert (negb (fs =? 0));
      _ ← kassert (negb (fs =? SWAP_FS));
      release_with (set_fs s i fs) 0
  end.

(** The name without a trailing colon. *)
Definition swap_name (devname : list Z) (o : script) : res (option (list Z) * script) :=
  len ← strlen devname 0;
  last ← (if 0 <? len then devname.[len - 1] else Ret 0);
  if (0 <? len) && (last =? chr ":") then
    '(myname, o) ← kstrdup devname o;
    match myname with
    | None => Ret (None, o)
    | Some myname => myname ← myname.[len - 1 <- 0]; Ret (Some myname, o)
    end
  else Ret (Some devname, o).

Definition vfs_swapon (s : vfs) (devname : list Z) (o : script) : res (Z * Z * vfs * script) :=
  '(myname, o) ← swap_name devname o;
  match myname with
  | None => Ret (ENOMEM, 0, s, o)
  | Some devname =>
      let s := vfs_biglock_acquire s in
      found ← findmount s devname;
      match found with
      | None => s ← vfs_biglock_release s; Ret (ENODEV, 0, s, o)
      | Some i =>
          kd ← deref (s.(knowndevs) !! i);
          if negb (kd.(kd_fs) =? 0) then s ← vfs_biglock_release s; Ret (EBUSY, 0, s, o) else
          _ ← kassert (negb (bool_decide (kd.(kd_rawname) = None)));
          _ ← kassert (negb (kd.(kd_device) =? 0));
          s ← vnode_incref (set_fs s i SWAP_FS) kd.(kd_vnode);
          s ← vfs_biglock_release s;
          Ret (0, kd.(kd_vnode), s, o)
      end
  end.

Definition vfs_unmount (s : vfs) (devname : list Z) : res (Z * vfs) :=
  let s := vfs_biglock_acquire s in
  found ← findmount s devname;
  match found with
  | None => release_with s ENODEV
  | Some i =>
      kd ← deref (s.(knowndevs) !! i);
      if negb (has_fs kd) then release_with s EINVAL else
      _ ← kassert (negb (bool_decide (kd.(kd_rawname) = None)));
      _ ← kassert (negb (kd.(kd_device) =? 0));
      '(result, s) ← fsop_sync s kd.(kd_fs);
      if negb (result =? 0) then release_with s result else
      '(result, s) ← fsop_unmount s kd.(kd_fs);
      if negb (result =? 0) then release_with s result else
      release_with (set_fs s i 0) 0
  end.

Definition vfs_swapoff (s : vfs) (devname : list Z) : res (Z * vfs) :=
  let s := vfs_biglock_acquire s in
  found ← findmount s devname;
  match found with
  | None => release_with s ENODEV
  | Some i =>
      kd ← deref (s.(knowndevs) !! i);
      if negb (kd.(kd_fs) =? SWAP_FS) then release_with s EINVAL else
      release_with (set_fs s i 0) 0
  end.

(** The body of the loop of [vfs_unmountall] for device [i]. *)
Definition unmount_one (s : vfs) (i : nat) : res vfs :=
  kd ← deref (s.(knowndevs) !! i);
  if bool_decide (kd.(kd_rawname) = None) || (kd.(kd_fs) =? 0) then Ret s else
  if kd.(kd_fs) =? SWAP_FS then Ret (set_fs s i 0) else
  '(result, s) ← fsop_sync s kd.(kd_fs);
  '(result, s) ← (if negb (result =? 0) then fsop_sync s kd.(kd_fs) else Ret (result, s));
  if negb (result =? 0) then Ret s else
  '(result, s) ← fsop_unmount s kd.(kd_fs);
  if negb (result =? 0) then Ret s else Ret (set_fs s i 0).

Fixpoint unmount_loop (n i : nat) (s : vfs) : res vfs :=
  match n with O => Ret s | Datatypes.S n' => s ← unmount_one s i; unmount_loop n' (i + 1) s end.

Definition vfs_unmountall (s : vfs) : res (Z * vfs) :=
  let s := vfs_biglock_acquire s in
  s ← unmount_loop (length s.(knowndevs)) 0 s;
  release_with s 0.

Fixpoint sync_loop (n i : nat) (s : vfs) : res vfs :=
  match n with
  | O => Ret s
  | Datatypes.S n' =>
      kd ← deref (s.(knowndevs) !! i);
      s ← (if has_fs kd then '(_, s) ← fsop_sync s kd.(kd_fs); Ret s else Ret s);
      sync_loop n' (i + 1) s
  end.

Definition vfs_sync (s : vfs) : res (Z * vfs) :=
  let s := vfs_biglock_acquire s in
  s ← sync_loop (length s.(knowndevs)) 0 s;
  release_with s 0.

(** ** Pathnames (vfslookup.c) *)

(** The first slash or colon of the path: [(slash, colon)], -1 where there is none. *)
Fixpoint first_mark (fuel : nat) (path : list Z) (i : Z) : res (Z * Z) :=
  match fuel with
  | O => Diverge
  | Datatypes.S fuel' =>
      c ← path.[i];
      if c =? 0 then Ret (-1, -1) else
      if c =? chr ":" then Ret (-1, i) else
      if c =? chr "/" then Ret (i, -1) else first_mark fuel' path (i + 1)
  end.

(** [while (path[i+1] == '/') i++] *)
Fixpoint skip_slashes (fuel : nat) (path : list Z) (i : Z) : res Z :=
  match fuel with
  | O => Diverge
  | Datatypes.S fuel' =>
      c ← path.[i + 1];
      if c =? chr "/" then skip_slashes fuel' path (i + 1) else Ret i
  end.

(** The vnode for a path that starts with a slash or a colon. *)
Definition start_root (s : vfs) (c : Z) : res (Z * Z * vfs) :=
  if c =? chr "/" then
    if s.(bootfs_vnode) =? 0 then Ret (ENOENT, 0, s) else
    s ← vnode_incref s s.(bootfs_vnode);
    Ret (0, s.(bootfs_vnode), s)
  else
    _ ← kassert (c =? chr ":");
    '(result, vn, s) ← vfs_getcurdir s;
    if negb (result =? 0) then Ret (result, 0, s) else
    n ← deref (s.(vnodes) !! vn);
    _ ← kassert (negb (n.(vn_fs) =? 0));
    '(result, startvn, s) ← fsop_getroot s n.(vn_fs);
    s ← vnode_decref s vn;
    Ret (result, startvn, s).

(** Error number, the path, which is cut at the colon, the offset of the rest of it and
    the vnode to start at. *)
Definition getdevice (s : vfs) (path : list Z) : res (Z * list Z * Z * Z * vfs) :=
  _ ← kassert (vfs_biglock_do_i_hold s);
  '(slash, colon) ← first_mark (str_fuel path) path 0;
  if (colon <? 0) && negb (slash =? 0) then
    '(result, vn, s) ← vfs_getcurdir s;
    Ret (result, path, 0, vn, s)
  else if 0 <? colon then
    path ← path.[colon <- 0];
    colon ← skip_slashes (str_fuel path) path colon;
    '(result, vn, s) ← vfs_getroot s path;
    Ret (result, path, colon + 1, vn, s)
  else
    _ ← kassert ((colon =? 0) || (slash =? 0));
    c ← path.[0];
    '(result, vn, s) ← start_root s c;
    if negb (result =? 0) then Ret (result, path, 0, vn, s) else
    p ← skip_slashes (str_fuel path) path 0;
    Ret (0, path, p + 1, vn, s).

Definition vfs_lookparent (s : vfs) (path : list Z) (buflen : Z) : res (Z * Z * list Z * vfs) :=
  let s := vfs_biglock_acquire s in
  '(result, path, off, startvn, s) ← getdevice s path;
  if negb (result =? 0) then s ← vfs_biglock_release s; Ret (result, 0, [], s) else
  n ← strlen path off;
  '(result, vn, name, s) ← (if n =? 0 then Ret (EINVAL, 0, [], s) else
    _ ← vnode_check s startvn;
    vop_lookparent s startvn (drop (Z.to_nat off) path) buflen);
  s ← vnode_decref s startvn;
  s ← vfs_biglock_release s;
  Ret (result, vn, name, s).

Definition vfs_lookup (s : vfs) (path : list Z) : res (Z * Z * vfs) :=
  let s := vfs_biglock_acquire s in
  '(result, path, off, startvn, s) ← getdevice s path;
  if negb (result =? 0) then s ← vfs_biglock_release s; Ret (result, 0, s) else
  n ← strlen path off;
  if n =? 0 then s ← vfs_biglock_release s; Ret (0, startvn, s) else
  _ ← vnode_check s startvn;
  '(result, vn, s) ← vop_lookup s startvn (drop (Z.to_nat off) path);
  s ← vnode_decref s startvn;
  s ← vfs_biglock_release s;
  Ret (result, vn, s).

Definition vfs_chdir (s : vfs) (path : list Z) : res (Z * vfs) :=
  '(result, vn, s) ← vfs_lookup s path;
  if negb (result =? 0) then Ret (result, s) else
  '(result, s) ← vfs_setcurdir s vn;
  s ← vnode_decref s vn;
  Ret (result, s).

Definition change_bootfs (s : vfs) (newvn : Z) : res vfs :=
  let oldvn := s.(bootfs_vnode) in
  let s := set_bootfs s newvn in
  if negb (oldvn =? 0) then vnode_decref s oldvn else Ret s.

(** [snprintf(tmp, sizeof(tmp)-1, "%s", fsname)], which leaves room for one more
    character. *)
Definition bootfs_name (fsname : list Z) : res (list Z) :=
  n ← strlen fsname 0;
  let m := Z.to_nat (Z.min n (NAME_MAX - 1)) in
  Ret (take m fsname ++ replicate (Z.to_nat (NAME_MAX + 1) - m) 0).

Definition vfs_setbootfs (s : vfs) (fsname : list Z) : res (Z * vfs) :=
  let s := vfs_biglock_acquire s in
  tmp ← bootfs_name fsname;
  found ← strchr tmp 0 (chr ":");
  let go (tmp : list Z) :=
    '(result, s) ← vfs_chdir s tmp;
    if negb (result =? 0) then release_with s result else
    '(result, newguy, s) ← vfs_getcurdir s;
    if negb (result =? 0) then release_with s result else
    s ← change_bootfs s newguy;
    release_with s 0 in
  match found with
  | Some colon =>
      n ← strlen tmp colon;
      if 0 <? n then release_with s EINVAL else go tmp
  | None => tmp ← strcat tmp 0 (lit ":") 0; go tmp
  end.

Definition vfs_clearbootfs (s : vfs) : res vfs :=
  s ← change_bootfs (vfs_biglock_acquire s) 0;
  vfs_biglock_release s.

(** ** Operations on pathnames (vfspath.c) *)

(** [VOP_DECREF(dir)] before returning a result. *)
Definition decref_with (s : vfs) (dir result : Z) : res (Z * vfs) :=
  s ← vnode_decref s dir;
  Ret (result, s).

(** The vnode to open, which is created if it is asked for. *)
Definition open_vnode (s : vfs) (path : list Z) (openflags mode : Z) : res (Z * Z * vfs) :=
  if negb (Z.land openflags O_CREAT =? 0) then
    let excl := negb (Z.land openflags O_EXCL =? 0) in
    '(result, dir, name, s) ← vfs_lookparent s path (NAME_MAX + 1);
    if negb (result =? 0) then Ret (result, 0, s) else
    _ ← vnode_check s dir;
    '(result, vn, s) ← vop_creat s dir name excl mode;
    s ← vnode_decref s dir;
    Ret (result, vn, s)
  else vfs_lookup s path.

Definition open_trunc (s : vfs) (vn openflags : Z) (canwrite : bool) : res (Z * vfs) :=
  if negb (Z.land openflags O_TRUNC =? 0) then
    if negb canwrite then Ret (EINVAL, s) else
    _ ← vnode_check s vn;
    vop_truncate s vn 0
  else Ret (0, s).

Definition vfs_open (s : vfs) (path : list Z) (openflags mode : Z) : res (Z * Z * vfs) :=
  let how := Z.land openflags O_ACCMODE in
  if negb ((how =? O_RDONLY) || (how =? O_WRONLY) || (how =? O_RDWR)) then Ret (EINVAL, 0, s) else
  let canwrite := negb (how =? O_RDONLY) in
  '(result, vn, s) ← open_vnode s path openflags mode;
  if negb (result =? 0) then Ret (result, 0, s) else
  _ ← kassert (negb (vn =? 0));
  _ ← vnode_check s vn;
  '(result, s) ← vop_eachopen s vn openflags;
  if negb (result =? 0) then '(result, s) ← decref_with s vn result; Ret (result, 0, s) else
  '(result, s) ← open_trunc s vn openflags canwrite;
  if negb (result =? 0) then '(result, s) ← decref_with s vn result; Ret (result, 0, s) else
  Ret (0, vn, s).

Definition vfs_close (s : vfs) (vn : Z) : res vfs := vnode_decref s vn.

(** An operation [op] on the directory of [path] and the last component of it. *)
Definition in_parent (s : vfs) (path : list Z) (op : vfs → Z → list Z → res (Z * vfs)) : res (Z * vfs) :=
  '(result, dir, name, s) ← vfs_lookparent s path (NAME_MAX + 1);
  if negb (result =? 0) then Ret (result, s) else
  _ ← vnode_check s dir;
  '(result, s) ← op s dir name;
  decref_with s dir result.

Definition vfs_remove (s : vfs) (path : list Z) : res (Z * vfs) := in_parent s path vop_remove.
Definition vfs_rmdir (s : vfs) (path : list Z) : res (Z * vfs) := in_parent s path vop_rmdir.
Definition vfs_mkdir (s : vfs) (path : list Z) (mode : Z) : res (Z * vfs) :=
  in_parent s path (λ s dir name, vop_mkdir s dir name mode).
(** The arguments of [VOP_SYMLINK] are in the order in which the code gives them. *)
Definition vfs_symlink (s : vfs) (contents path : list Z) : res (Z * vfs) :=
  in_parent s path (λ s dir name, vop_symlink s dir name contents).

Definition other_fs (s : vfs) (v w : Z) : res bool :=
  a ← deref (s.(vnodes) !! v);
  b ← deref (s.(vnodes) !! w);
  Ret ((a.(vn_fs) =? 0) || (b.(vn_fs) =? 0) || negb (a.(vn_fs) =? b.(vn_fs))).

Definition vfs_rename (s : vfs) (oldpath newpath : list Z) : res (Z * vfs) :=
  '(result, olddir, oldname, s) ← vfs_lookparent s oldpath (NAME_MAX + 1);
  if negb (result =? 0) then Ret (result, s) else
  '(result, newdir, newname, s) ← vfs_lookparent s newpath (NAME_MAX + 1);
  if negb (result =? 0) then decref_with s olddir result else
  x ← other_fs s olddir newdir;
  if (x : bool) then s ← vnode_decref s newdir; decref_with s olddir EXDEV else
  _ ← vnode_check s olddir;
  '(result, s) ← vop_rename s olddir oldname newdir newname;
  s ← vnode_decref s newdir;
  decref_with s olddir result.

Definition vfs_link (s : vfs) (oldpath newpath : list Z) : res (Z * vfs) :=
  '(result, oldfile, s) ← vfs_lookup s oldpath;
  if negb (result =? 0) then Ret (result, s) else
  '(result, newdir, newname, s) ← vfs_lookparent s newpath (NAME_MAX + 1);
  if negb (result =? 0) then decref_with s oldfile result else
  x ← other_fs s oldfile newdir;
  if (x : bool) then s ← vnode_decref s newdir; decref_with s oldfile EXDEV else
  _ ← vnode_check s newdir;
  '(result, s) ← vop_link s newdir newname oldfile;
  s ← vnode_decref s newdir;
  decref_with s oldfile result.

Definition vfs_readlink (s : vfs) (path : list Z) (u : U) : res (Z * U * vfs) :=
  '(result, vn, s) ← vfs_lookup s path;
  if negb (result =? 0) then Ret (result, u, s) else
  _ ← vnode_check s vn;
  '(result, u, s) ← vop_readlink s vn u;
  '(result, s) ← decref_with s vn result;
  Ret (result, u, s).

End Vfs.

(** ** What the file systems promise *)

(** The references to a vnode; one that is not there has none. *)
Definition refs {S} (s : vfs S) (v : Z) : Z :=
  match s.(vnodes) !! v with Some n => n.(vn_refcount) | None => 0 end.

(** A vnode stays in its file system, and a directory is one for good. *)
Definition same_vnode {S U} `{FsOps S U} (s : vfs S) (a : vnode) (s' : vfs S) (b : vnode) : Prop :=
  b.(vn_fs) = a.(vn_fs) ∧ (vn_dir s.(fsys) a.(vn_fs) a.(vn_data) → vn_dir s'.(fsys) b.(vn_fs) b.(vn_data)).

Definition is_dir {S U} `{FsOps S U} (s : vfs S) (v : Z) : Prop :=
  ∃ n, s.(vnodes) !! v = Some n ∧ vn_dir s.(fsys) n.(vn_fs) n.(vn_data).

(** Two vnodes of one file system. *)
Definition same_fs {S} (s : vfs S) (v w : Z) : Prop :=
  ∃ a b, s.(vnodes) !! v = Some a ∧ s.(vnodes) !! w = Some b ∧ a.(vn_fs) ≠ 0 ∧ b.(vn_fs) = a.(vn_fs).

(** What only this layer changes. *)
Definition same_rest {S U} `{FsOps S U} (s s' : vfs S) : Prop :=
  s'.(knowndevs) = s.(knowndevs) ∧ s'.(bootfs_vnode) = s.(bootfs_vnode) ∧
  s'.(vfs_biglock_depth) = s.(vfs_biglock_depth) ∧ s'.(p_cwd) = s.(p_cwd) ∧
  (∀ w a b, s.(vnodes) !! w = Some a → s'.(vnodes) !! w = Some b → same_vnode s a s' b) ∧
  ∀ fs, fs_live s.(fsys) fs → fs_live s'.(fsys) fs.

Definition quiet {S U} `{FsOps S U} (s s' : vfs S) : Prop := same_rest s s' ∧ ∀ w, refs s' w = refs s w.

Definition gives {S U} `{FsOps S U} (s s' : vfs S) (v : Z) : Prop :=
  same_rest s s' ∧ v ≠ 0 ∧ v ≠ deadbeef ∧ ∀ w, refs s' w = refs s w + (if decide (w = v) then 1 else 0).

(** The counts are positive and no pointer is one that [vnode_check] refuses. *)
Definition vnodes_ok {S U} `{FsOps S U} (s : vfs S) : Prop :=
  ∀ v n, s.(vnodes) !! v = Some n →
    0 < n.(vn_refcount) ∧ n.(vn_fs) ≠ deadbeef ∧ v ≠ 0 ∧ v ≠ deadbeef ∧ vn_wf s.(fsys) n.(vn_fs) n.(vn_data).

Definition is_str (b : list Z) : Prop := ∃ n, cstr b 0 n.

(** An operation on a vnode in use, when the layer holds its lock or not, returns; it
    keeps the references of its arguments.  A vnode is handed back with a reference
    for the caller, a vnode that is reclaimed is gone or, where the file system could
    not let go of it, stays with the last reference.  A file is linked to within its file
    system, and renamed from one directory of it to another: [sfs_link] and [sfs_rename]
    assert that. *)
Class FsLaws (S U : Type) `{FsOps S U} := {
  law_quiet s v : vnodes_ok s → 0 < refs s v →
    (∀ f, ∃ e s', vop_eachopen s v f = Ret (e, s') ∧ vnodes_ok s' ∧ quiet s s') ∧
    (∀ l, ∃ e s', vop_truncate s v l = Ret (e, s') ∧ vnodes_ok s' ∧ quiet s s') ∧
    (∃ e t s', vop_gettype s v = Ret (e, t, s') ∧ vnodes_ok s' ∧ quiet s s' ∧
      (e = 0 → t = S_IFDIR → ∃ n, s'.(vnodes) !! v = Some n ∧ n.(vn_fs) ≠ 0 ∧ fs_live s'.(fsys) n.(vn_fs))) ∧
    (∀ u, ∃ e u' s', vop_readlink s v u = Ret (e, u', s') ∧ vnodes_ok s' ∧ quiet s s');
  law_dir s d n : vnodes_ok s → 0 < refs s d → is_str n →
    (∀ c, is_str c → ∃ e s', vop_symlink s d n c = Ret (e, s') ∧ vnodes_ok s' ∧ quiet s s') ∧
    (∀ m, ∃ e s', vop_mkdir s d n m = Ret (e, s') ∧ vnodes_ok s' ∧ quiet s s') ∧
    (∃ e s', vop_remove s d n = Ret (e, s') ∧ vnodes_ok s' ∧ quiet s s') ∧
    (∃ e s', vop_rmdir s d n = Ret (e, s') ∧ vnodes_ok s' ∧ quiet s s') ∧
    (∀ f, 0 < refs s f → same_fs s f d → ∃ e s', vop_link s d n f = Ret (e, s') ∧ vnodes_ok s' ∧ quiet s s') ∧
    (∀ d' n', 0 < refs s d' → is_str n' → is_dir s d → is_dir s d' → same_fs s d d' →
      ∃ e s', vop_rename s d n d' n' = Ret (e, s') ∧ vnodes_ok s' ∧ quiet s s');
  law_gives s d : vnodes_ok s → 0 < refs s d →
    (∀ p, is_str p → ∃ e v s', vop_lookup s d p = Ret (e, v, s') ∧ vnodes_ok s' ∧ if e =? 0 then gives s s' v else quiet s s') ∧
    (∀ p l, is_str p → ∃ e v n s', vop_lookparent s d p l = Ret (e, v, n, s') ∧ vnodes_ok s' ∧
      (e = 0 → is_str n ∧ is_dir s' v) ∧ if e =? 0 then gives s s' v else quiet s s') ∧
    (∀ n x m, is_str n → ∃ e v s', vop_creat s d n x m = Ret (e, v, s') ∧ vnodes_ok s' ∧
      if e =? 0 then gives s s' v else quiet s s');
  law_root s fs : vnodes_ok s → fs_live s.(fsys) fs → ∃ e v s', fsop_getroot s fs = Ret (e, v, s') ∧ vnodes_ok s' ∧
    if e =? 0 then gives s s' v else quiet s s';
  law_reclaim s v : vnodes_ok s → refs s v = 1 → ∃ e s', vop_reclaim s v = Ret (e, s') ∧ vnodes_ok s' ∧
    same_rest s s' ∧ (∀ w, w ≠ v → refs s' w = refs s w) ∧ (refs s' v = 0 ∨ refs s' v = 1);
  law_volname_string s fs v : fs_live s.(fsys) fs → fsop_getvolname s fs = Some v → ∃ n, cstr v 0 n;
  law_volname s s' fs : s'.(fsys) = s.(fsys) → fsop_getvolname s' fs = fsop_getvolname s fs
}.

(** ** References held *)

Definition cnt (w : Z) (l : list Z) : Z := Z.of_nat (length (filter (w =.) l)).

(** The device table of a running system. *)
Record kd_ok {S U} `{FsOps S U} (s : vfs S) (kd : knowndev) : Prop := KdOk {
  kd_fs_ok : has_fs kd = true → fs_live s.(fsys) kd.(kd_fs);
  kd_device_ok : has_fs kd = false ∨ kd.(kd_rawname) ≠ None → kd.(kd_device) ≠ 0;
  kd_swap_ok : kd.(kd_fs) = SWAP_FS → kd.(kd_rawname) ≠ None;
  kd_name_ok : ∃ n, cstr kd.(kd_name) 0 n;
  kd_rawname_ok r : kd.(kd_rawname) = Some r → ∃ n, cstr r 0 n
}.

Definition opt_ref (v : Z) : list Z := if decide (v = 0) then [] else [v].

(** The references that the layer holds itself. *)
Definition owned {S} (s : vfs S) : list Z :=
  (kd_vnode <$> s.(knowndevs)) ++ opt_ref s.(p_cwd) ++ opt_ref s.(bootfs_vnode).

Record vfs_ok {S U} `{FsOps S U} (s : vfs S) : Prop := VfsOk {
  ok_vnodes : vnodes_ok s;
  ok_depth : 0 ≤ s.(vfs_biglock_depth);
  ok_owned w : cnt w (owned s) ≤ refs s w;
  ok_cwd : s.(p_cwd) ≠ 0 → ∃ n, s.(vnodes) !! s.(p_cwd) = Some n ∧ n.(vn_fs) ≠ 0 ∧ fs_live s.(fsys) n.(vn_fs);
  ok_devs : Forall (kd_ok s) s.(knowndevs)
}.

Lemma cnt_cons w v l : cnt w (v :: l) = cnt w l + (if decide (w = v) then 1 else 0).
Proof. unfold cnt. rewrite filter_cons. case_decide; cbn; lia. Qed.

Lemma cnt_nonneg w l : 0 ≤ cnt w l.
Proof. unfold cnt. lia. Qed.

Lemma refs_Some {S} (s : vfs S) v : 0 < refs s v → ∃ n, s.(vnodes) !! v = Some n ∧ n.(vn_refcount) = refs s v.
Proof. unfold refs. destruct (s.(vnodes) !! v) as [n|]; [|lia]. intros. by exists n. Qed.

Lemma refs_nonneg {S U} `{FsOps S U} (s : vfs S) v : vnodes_ok s → 0 ≤ refs s v.
Proof.
  intros Hok. unfold refs. destruct (s.(vnodes) !! v) as [n|] eqn:E; [|lia]. destruct (Hok _ _ E). lia.
Qed.

Lemma cnt_elem w l : w ∈ l → 0 < cnt w l.
Proof.
  intros Hw. unfold cnt. assert (w ∈ filter (w =.) l) as Hf by (by apply list_elem_of_filter).
  destruct (filter (w =.) l); [by apply elem_of_nil in Hf|cbn; lia].
Qed.

Lemma cnt_app w l l' : cnt w (l ++ l') = cnt w l + cnt w l'.
Proof. unfold cnt. rewrite filter_app, length_app. lia. Qed.

Lemma owned_live {S U} `{FsOps S U} (s : vfs S) w : vfs_ok s → w ∈ owned s → 0 < refs s w.
Proof. intros Hs Hw%cnt_elem. pose proof (ok_owned _ Hs w). lia. Qed.

Lemma opt_ref_elem v : v ≠ 0 → v ∈ opt_ref v.
Proof. intros. unfold opt_ref. rewrite decide_False by done. by left. Qed.

Lemma bootfs_live {S U} `{FsOps S U} (s : vfs S) : vfs_ok s → s.(bootfs_vnode) ≠ 0 → 0 < refs s s.(bootfs_vnode).
Proof. intros Hs Hb. apply owned_live; [done|]. unfold owned. rewrite !elem_of_app. right; right. by apply opt_ref_elem. Qed.

Lemma device_live {S U} `{FsOps S U} (s : vfs S) kd : vfs_ok s → kd ∈ s.(knowndevs) → 0 < refs s kd.(kd_vnode).
Proof. intros Hs Hk. apply owned_live; [done|]. unfold owned. rewrite elem_of_app. left. by apply list_elem_of_fmap_2. Qed.

Lemma devices_ok {S U} `{FsOps S U} (s : vfs S) : vfs_ok s →
  Forall (λ kd, kd_ok s kd ∧ 0 < refs s kd.(kd_vnode)) s.(knowndevs).
Proof.
  intros Hs. apply Forall_forall. intros kd Hk. split; [|by apply device_live].
  pose proof (ok_devs _ Hs) as Hd. rewrite Forall_forall in Hd. by apply Hd.
Qed.

Section Basics.
Context {S U : Type} `{FsOps S U}.
Implicit Types s : vfs S.

Lemma check_correct s v : vnodes_ok s → 0 < refs s v → vnode_check s v = Ret tt.
Proof.
  intros Hok Hv. destruct (refs_Some _ _ Hv) as (n & Hn & Hr). destruct (Hok _ _ Hn) as (? & ? & ? & ? & ?).
  unfold vnode_check. rewrite !(proj2 (Z.eqb_neq v _)) by done. rewrite Hn. cbn [deref mbind res_bind].
  rewrite (proj2 (Z.eqb_neq _ deadbeef)), (proj2 (Z.ltb_ge _ _)), (proj2 (Z.eqb_neq _ 0)) by (done || lia). done.
Qed.

Lemma refs_insert s v n w : refs (set_vnodes s (<[v := n]> s.(vnodes))) w =
  if decide (w = v) then n.(vn_refcount) else refs s w.
Proof.
  unfold refs, set_vnodes. cbn [vnodes]. case_decide; subst; [by rewrite lookup_insert_eq|].
  by rewrite lookup_insert_ne.
Qed.

Lemma incref_correct s v : vnodes_ok s → 0 < refs s v →
  ∃ s', vnode_incref s v = Ret s' ∧ vnodes_ok s' ∧ gives s s' v ∧ s'.(fsys) = s.(fsys).
Proof.
  intros Hok Hv. destruct (refs_Some _ _ Hv) as (n & Hn & Hr). destruct (Hok _ _ Hn) as (? & ? & ? & ? & ?).
  unfold vnode_incref. rewrite (proj2 (Z.eqb_neq _ 0)) by done. rewrite Hn. cbn [negb kassert deref mbind res_bind].
  eexists. split; [done|]. split; [|split; [|done]].
  - intros w m. cbn [set_vnodes vnodes]. intros [[<- <-]|[? ?]]%lookup_insert_Some; [cbn; split_and!; done || lia|by apply (Hok w)].
  - unfold gives, same_rest. split_and!; try done.
    + intros w a b. cbn [set_vnodes vnodes]. intros Ha [[<- <-]|[? ?]]%lookup_insert_Some; by simplify_eq.
    + intros w. rewrite refs_insert. case_decide; subst; cbn [vn_refcount]; lia.
Qed.

Lemma streq_correct a b m n : cstr a 0 m → cstr b 0 n → streq a b = Ret (bool_decide (m = n)).
Proof.
  intros Ha Hb. unfold streq. rewrite (strcmp_correct _ _ _ _ Ha Hb). cbn [mbind res_bind]. f_equal.
  apply eq_iff_eq_true. by rewrite Z.eqb_eq, lex_eq, bool_decide_eq_true.
Qed.

Lemma streq_opt (o : option (list Z)) b n : (∀ a, o = Some a → ∃ m, cstr a 0 m) → cstr b 0 n →
  ∃ x, (match o with None => Ret false | Some a => streq a b end) = Ret x.
Proof.
  intros Ho Hb. destruct o as [a|]; [|by eexists]. destruct (Ho a eq_refl) as [m Hm].
  rewrite (streq_correct _ _ _ _ Hm Hb). by eexists.
Qed.

End Basics.
