(* ===== verification/VfsDev.v ===== *)
(** * Device vnodes (kern/vfs/device.c, kern/vfs/vfsfail.c, kern/vfs/devnull.c)

    The vnode operations of devices, and that they keep the promises of [FsLaws]; a
    system that has devices and no file system is an instance of the VFS layer.  What a
    device does itself ([struct device_ops]) is a parameter; the null device is one
    value of it. *)

From Stdlib Require Import Ascii String.
From S2P Require Import Prelude CString UserCopy Uio Vfs.

(** ** Operations that fail (vfsfail.c) *)

Definition ENOSYS : Z := 1.
Definition EPERM : Z := 9.
Definition EISDIR : Z := 18.

Section Fail.
Context {S U : Type}.
#[local] Notation vfs := (vfs S).

Definition vopfail_uio_notdir (s : vfs) (vn : Z) (u : U) : res (Z * U * vfs) := Ret (ENOTDIR, u, s).
Definition vopfail_uio_isdir (s : vfs) (vn : Z) (u : U) : res (Z * U * vfs) := Ret (EISDIR, u, s).
Definition vopfail_uio_inval (s : vfs) (vn : Z) (u : U) : res (Z * U * vfs) := Ret (EINVAL, u, s).
Definition vopfail_uio_nosys (s : vfs) (vn : Z) (u : U) : res (Z * U * vfs) := Ret (ENOSYS, u, s).
Definition vopfail_mmap_isdir (s : vfs) (vn : Z) : res (Z * vfs) := Ret (EISDIR, s).
Definition vopfail_mmap_perm (s : vfs) (vn : Z) : res (Z * vfs) := Ret (EPERM, s).
Definition vopfail_mmap_nosys (s : vfs) (vn : Z) : res (Z * vfs) := Ret (ENOSYS, s).
Definition vopfail_truncate_isdir (s : vfs) (vn pos : Z) : res (Z * vfs) := Ret (EISDIR, s).
Definition vopfail_creat_notdir (s : vfs) (vn : Z) (name : list Z) (excl : bool) (mode : Z) : res (Z * Z * vfs) :=
  Ret (ENOTDIR, 0, s).
Definition vopfail_symlink_notdir (s : vfs) (vn : Z) (contents name : list Z) : res (Z * vfs) := Ret (ENOTDIR, s).
Definition vopfail_symlink_nosys (s : vfs) (vn : Z) (contents name : list Z) : res (Z * vfs) := Ret (ENOSYS, s).
Definition vopfail_mkdir_notdir (s : vfs) (vn : Z) (name : list Z) (mode : Z) : res (Z * vfs) := Ret (ENOTDIR, s).
Definition vopfail_mkdir_nosys (s : vfs) (vn : Z) (name : list Z) (mode : Z) : res (Z * vfs) := Ret (ENOSYS, s).
Definition vopfail_link_notdir (s : vfs) (dir : Z) (name : list Z) (file : Z) : res (Z * vfs) := Ret (ENOTDIR, s).
Definition vopfail_link_nosys (s : vfs) (dir : Z) (name : list Z) (file : Z) : res (Z * vfs) := Ret (ENOSYS, s).
Definition vopfail_string_notdir (s : vfs) (vn : Z) (name : list Z) : res (Z * vfs) := Ret (ENOTDIR, s).
Definition vopfail_string_nosys (s : vfs) (vn : Z) (name : list Z) : res (Z * vfs) := Ret (ENOSYS, s).
Definition vopfail_rename_notdir (s : vfs) (fromdir : Z) (fromname : list Z) (todir : Z) (toname : list Z) : res (Z * vfs) :=
  Ret (ENOTDIR, s).
Definition vopfail_rename_nosys (s : vfs) (fromdir : Z) (fromname : list Z) (todir : Z) (toname : list Z) : res (Z * vfs) :=
  Ret (ENOSYS, s).
Definition vopfail_lookup_notdir (s : vfs) (vn : Z) (path : list Z) : res (Z * Z * vfs) := Ret (ENOTDIR, 0, s).
Definition vopfail_lookparent_notdir (s : vfs) (vn : Z) (path : list Z) (len : Z) : res (Z * Z * list Z * vfs) :=
  Ret (ENOTDIR, 0, [], s).

End Fail.

(** ** Operations on devices (device.c) *)

Definition O_APPEND : Z := 32.
Definition S_IFCHR : Z := 24576.
Definition S_IFBLK : Z := 28672.

Record device := Device { dv_blocks : Z; dv_blocksize : Z }.

Record stat := Stat {
  st_size : Z; st_mode : Z; st_nlink : Z; st_blocks : Z; st_dev : Z; st_rdev : Z; st_blksize : Z
}.

(** [struct device_ops] *)
Class DevOps := {
  devop_eachopen : Z → Z → Z;
  devop_io : Z → memory → uio → Z * memory * uio;
  devop_ioctl : Z → Z → Z → Z
}.

Section Dev.
Context {DO : DevOps}.
#[local] Notation vfs := (vfs (gmap Z device)).
#[local] Notation U := (memory * uio)%type.

(** [v->vn_data] and what it points to. *)
Definition the_device (s : vfs) (v : Z) : res (Z * device) :=
  n ← deref (s.(vnodes) !! v);
  d ← deref (s.(fsys) !! n.(vn_data));
  Ret (n.(vn_data), d).

Definition dev_eachopen (s : vfs) (v flags : Z) : res (Z * vfs) :=
  '(d, _) ← the_device s v;
  if negb (Z.land flags (Z.lor (Z.lor (Z.lor O_CREAT O_TRUNC) O_EXCL) O_APPEND) =? 0) then Ret (EINVAL, s) else
  Ret (devop_eachopen d flags, s).

Definition dev_reclaim (s : vfs) (v : Z) : res (Z * vfs) := Ret (0, s).

Definition tryseek (d : device) (pos : Z) : res Z :=
  if 0 <? d.(dv_blocks) then
    if d.(dv_blocksize) =? 0 then Undef else
    if negb (Z.rem pos d.(dv_blocksize) =? 0) then Ret EINVAL else
    if d.(dv_blocks) <=? Z.quot pos d.(dv_blocksize) then Ret EINVAL else Ret 0
  else Ret 0.

(** [dev_read] and [dev_write], which assert the direction. *)
Definition dev_rw (rw : uio_rw) (s : vfs) (v : Z) (mu : U) : res (Z * U * vfs) :=
  '(p, d) ← the_device s v;
  let '(m, u) := mu in
  result ← tryseek d u.(uio_offset);
  if negb (result =? 0) then Ret (result, mu, s) else
  _ ← kassert (bool_decide (u.(uio_dir) = rw));
  let '(result, m, u) := devop_io p m u in
  Ret (result, (m, u), s).

Definition dev_ioctl (s : vfs) (v op data : Z) : res Z :=
  '(d, _) ← the_device s v;
  Ret (devop_ioctl d op data).

Definition dev_gettype (s : vfs) (v : Z) : res (Z * Z * vfs) :=
  '(_, d) ← the_device s v;
  Ret (0, if 0 <? d.(dv_blocks) then S_IFBLK else S_IFCHR, s).

Definition dev_isseekable (s : vfs) (v : Z) : res bool :=
  '(_, d) ← the_device s v;
  Ret (negb (d.(dv_blocks) =? 0)).

Definition null_fsync (s : vfs) (v : Z) : res Z := Ret 0.

Definition dev_mmap (s : vfs) (v : Z) : res Z := Ret ENOSYS.

(** The sizes are multiplied as [blkcnt_t] and [blksize_t], 32 bits each. *)
Definition dev_truncate (s : vfs) (v len : Z) : res (Z * vfs) :=
  '(_, d) ← the_device s v;
  if (0 <? d.(dv_blocks)) && (u32 (d.(dv_blocks) * d.(dv_blocksize)) =? len) then Ret (0, s) else Ret (EINVAL, s).

Definition dev_stat (s : vfs) (v : Z) : res (Z * stat) :=
  '(p, d) ← the_device s v;
  let '(size, blksize) :=
    if 0 <? d.(dv_blocks) then (u32 (d.(dv_blocks) * d.(dv_blocksize)), d.(dv_blocksize)) else (0, 0) in
  _ ← vnode_check s v;
  '(result, mode, s) ← dev_gettype s v;
  if negb (result =? 0) then Ret (result, Stat size mode 0 0 0 0 blksize) else
  Ret (0, Stat size (Z.lor mode 384) 1 d.(dv_blocks) 0 (default 0 (s.(d_devnumber) !! p)) blksize).

Definition dev_lookup (s : vfs) (dir : Z) (pathname : list Z) : res (Z * Z * vfs) :=
  n ← strlen pathname 0;
  if 0 <? n then Ret (ENOENT, 0, s) else
  s ← vnode_incref s dir;
  Ret (0, dir, s).

(** [dev_vnode_ops]; there is no file system to call. *)
#[global] Instance dev_vnode_ops : FsOps (gmap Z device) U := {
  fs_live _ _ := False;
  vn_wf devs fs data := fs = 0 ∧ ∃ d, devs !! data = Some d ∧ (0 < d.(dv_blocks) → d.(dv_blocksize) ≠ 0);
  vn_dir _ _ _ := False;
  vop_eachopen := dev_eachopen;
  vop_reclaim := dev_reclaim;
  vop_read := dev_rw UIO_READ;
  vop_readlink := vopfail_uio_inval;
  vop_write := dev_rw UIO_WRITE;
  vop_gettype := dev_gettype;
  vop_truncate := dev_truncate;
  vop_creat := vopfail_creat_notdir;
  vop_symlink := vopfail_symlink_notdir;
  vop_mkdir := vopfail_mkdir_notdir;
  vop_link := vopfail_link_notdir;
  vop_remove := vopfail_string_notdir;
  vop_rmdir := vopfail_string_notdir;
  vop_rename := vopfail_rename_notdir;
  vop_lookup := dev_lookup;
  vop_lookparent := vopfail_lookparent_notdir;
  fsop_sync _ _ := Undef;
  fsop_getvolname _ _ := None;
  fsop_getroot _ _ := Undef;
  fsop_unmount _ _ := Undef
}.

(** ** Devices keep the promises *)

Lemma quiet_refl (s : vfs) : quiet s s.
Proof. split; [|done]. split_and!; try done. intros w a b Ha Hb. by simplify_eq. Qed.

Lemma the_device_found (s : vfs) v : vnodes_ok s → 0 < refs s v →
  ∃ p d, the_device s v = Ret (p, d) ∧ (0 < d.(dv_blocks) → d.(dv_blocksize) ≠ 0).
Proof.
  intros Hok Hv. destruct (refs_Some _ _ Hv) as (n & Hn & _). destruct (Hok _ _ Hn) as (_ & _ & _ & _ & _ & d & Hd & Hs).
  unfold the_device. rewrite Hn. cbn [deref mbind res_bind]. rewrite Hd. by eexists _, _.
Qed.

#[global] Instance dev_laws : FsLaws (gmap Z device) U.
Proof.
  constructor.
  - intros s v Hok Hv. destruct (the_device_found s v Hok Hv) as (p & d & Hd & _). split_and!.
    + intros f. cbn [vop_eachopen dev_vnode_ops]. unfold dev_eachopen. rewrite Hd. cbn [mbind res_bind].
      destruct (negb _); eexists _, _; (split; [done|]); (split; [done|apply quiet_refl]).
    + intros l. cbn [vop_truncate dev_vnode_ops]. unfold dev_truncate. rewrite Hd. cbn [mbind res_bind].
      destruct (_ && _); eexists _, _; (split; [done|]); (split; [done|apply quiet_refl]).
    + cbn [vop_gettype dev_vnode_ops]. unfold dev_gettype. rewrite Hd. cbn [mbind res_bind]. eexists _, _, _.
      split; [done|]. split; [done|]. split; [apply quiet_refl|]. intros _. by destruct (0 <? _).
    + intros u. eexists _, _, _. split; [done|]. split; [done|apply quiet_refl].
  - intros s d n Hok Hd _. split_and!; intros; eexists _, _; (split; [done|]); (split; [done|apply quiet_refl]).
  - intros s d Hok Hd. split_and!.
    + intros p [x Hx]. cbn [vop_lookup dev_vnode_ops]. unfold dev_lookup. rewrite (strlen_correct _ _ _ Hx). cbn [mbind res_bind].
      case_cmp; [eexists _, _, _; split; [done|]; split; [done|apply quiet_refl]|].
      destruct (incref_correct s d Hok Hd) as (s' & -> & Hok' & Hg & _). eexists _, _, _. split; [done|]. by split.
    + intros p l _. eexists _, _, _, _. split; [done|]. split; [done|]. split; [done|apply quiet_refl].
    + intros n x m _. eexists _, _, _. split; [done|]. split; [done|apply quiet_refl].
  - done.
  - intros s v Hok Hv. eexists _, _. split; [done|]. split; [done|]. split; [apply quiet_refl|]. split; [done|by right].
  - done.
  - done.
Qed.

End Dev.

(** ** The null device (devnull.c) *)

Definition nullopen (dev openflags : Z) : Z := 0.

Definition nullio (dev : Z) (m : memory) (u : uio) : Z * memory * uio :=
  (0, m, match u.(uio_dir) with
         | UIO_WRITE => Uio u.(uio_iov) u.(uio_offset) 0 u.(uio_segflg) u.(uio_dir) u.(uio_space)
         | UIO_READ => u
         end).

Definition nullioctl (dev op data : Z) : Z := EINVAL.

#[global] Instance null_devops : DevOps := {
  devop_eachopen := nullopen; devop_io := nullio; devop_ioctl := nullioctl
}.

(** [dev] is the pointer that [kmalloc] returned. *)
Definition devnull_create (s : vfs (gmap Z device)) (dev : Z) (o : script) : res (vfs (gmap Z device) * script) :=
  let '(ok, o) := kmalloc o in
  if negb ok then Panic else
  let s := set_devnumber (set_fsys s (<[dev := Device 0 1]> s.(fsys))) (<[dev := 0]> s.(d_devnumber)) in
  '(result, s, o) ← vfs_adddev s (lit "null") dev false o;
  if negb (result =? 0) then Panic else Ret (s, o).
