(* ===== verification/VfsList.v ===== *)
(** * The table of named devices (properties of kern/vfs/vfslist.c)

    No two devices of the table share a name, and a name leads to what the comment on
    [struct knowndev] says: the root of the file system, the device itself or
    [ENXIO]. *)

From Stdlib Require Import Ascii String.
From S2P Require Import Prelude CString UserCopy Uio Vfs VfsDev.

(** ** Names *)

(** The string that a buffer holds. *)
Fixpoint content (b : list Z) : list Z :=
  match b with [] => [] | c :: b' => if c =? 0 then [] else c :: content b' end.

Lemma content_cstr b n : cstr b 0 n → content b = n.
Proof.
  intros (_ & _ & F & rest & E). cbn in E. rewrite drop_0 in E. subst b.
  induction F as [|c n Hc _ IH]; [done|]. cbn. rewrite (proj2 (Z.eqb_neq c 0)) by lia. by rewrite IH.
Qed.

Section Names.
Context {S U : Type} `{FL : FsLaws S U}.
Implicit Types s : vfs S.

Definition volname s (kd : knowndev) : option (list Z) :=
  if has_fs kd then fsop_getvolname s kd.(kd_fs) else None.

Definition names s (kd : knowndev) : list (list Z) :=
  content <$> kd.(kd_name) :: option_list kd.(kd_rawname) ++ option_list (volname s kd).

Definition distinct s : Prop :=
  ∀ i j a b n, s.(knowndevs) !! i = Some a → s.(knowndevs) !! j = Some b →
    n ∈ names s a → n ∈ names s b → i = j.

Definition use_device s (kd : knowndev) : res (Z * Z * vfs S) :=
  s' ← vnode_incref s kd.(kd_vnode);
  Ret (0, kd.(kd_vnode), s').

(** What the name [n] of the device [kd] stands for. *)
Definition designates s (kd : knowndev) (n : list Z) : res (Z * Z * vfs S) :=
  if has_fs kd && bool_decide (n = content kd.(kd_name) ∨ Some n = content <$> volname s kd) then fsop_getroot s kd.(kd_fs) else
  if bool_decide (kd.(kd_rawname) = None ∨ n ≠ content kd.(kd_name)) then use_device s kd
  else Ret (ENXIO, 0, s).

Lemma streq_content (o : option (list Z)) dev n : (∀ a, o = Some a → is_str a) → cstr dev 0 n →
  (match o with None => Ret false | Some a => streq a dev end) = Ret (bool_decide (Some n = content <$> o)).
Proof.
  intros Ho Hd. destruct o as [a|]; [|by rewrite bool_decide_eq_false_2 by done].
  destruct (Ho a eq_refl) as [m Hm]. rewrite (streq_correct _ _ _ _ Hm Hd), <-(content_cstr _ _ Hm). f_equal.
  apply bool_decide_ext. cbn. naive_solver.
Qed.

Lemma elem_names s kd n : n ∈ names s kd ↔ n = content kd.(kd_name) ∨ Some n = content <$> kd.(kd_rawname) ∨
  Some n = content <$> volname s kd.
Proof.
  unfold names. cbn. rewrite elem_of_cons, fmap_app, elem_of_app.
  destruct (kd_rawname kd), (volname s kd); cbn; rewrite ?list_elem_of_singleton, ?elem_of_nil; naive_solver.
Qed.

Lemma getroot_loop_cons s kd kds dev n : kd_ok s kd → cstr dev 0 n →
  getroot_loop s (kd :: kds) dev = if bool_decide (n ∈ names s kd) then designates s kd n else getroot_loop s kds dev.
Proof.
  intros [Hlive Hdev Hsw [m Hm] Hraw] Hd. cbn [getroot_loop]. rewrite (streq_correct _ _ _ _ Hm Hd).
  rewrite (streq_content _ _ _ Hraw Hd). cbn [mbind res_bind]. rewrite (bool_decide_ext _ _ (elem_names s kd n)).
  assert (has_fs kd = false ∨ kd.(kd_rawname) ≠ None → (_ ← kassert (negb (kd.(kd_device) =? 0));
    s' ← vnode_incref s kd.(kd_vnode); Ret (0, kd.(kd_vnode), s')) = use_device s kd) as Huse.
  { intros Hh. rewrite (proj2 (Z.eqb_neq _ _)) by (by apply Hdev). done. }
  assert (has_fs kd = false → kd.(kd_rawname) = None → kd.(kd_fs) = 0) as Hfs0.
  { unfold has_fs. intros Hf Hr. destruct (Z.eqb_spec kd.(kd_fs) 0); [done|]. cbn in Hf.
    destruct (Z.eqb_spec kd.(kd_fs) SWAP_FS) as [E|]; [by apply Hsw in E|done]. }
  unfold designates. rewrite <-(content_cstr _ _ Hm).
  rewrite (bool_decide_ext (content kd.(kd_name) = n) (n = content kd.(kd_name))) by done.
  rewrite !bool_decide_or, bool_decide_not. unfold volname. destruct (has_fs kd) eqn:Hfs; cbn [andb].
  - rewrite (streq_content _ _ _ (λ v, law_volname_string s _ v (Hlive eq_refl)) Hd). cbn [mbind res_bind].
    do 3 (case_bool_decide; cbn [orb negb]; try done). rewrite orb_true_r. apply Huse. right. by destruct (kd_rawname kd).
  - rewrite (bool_decide_eq_false_2 (Some n = content <$> None)) by done. rewrite orb_false_r.
    destruct (kd_rawname kd) as [r|] eqn:Hr.
    + rewrite !(bool_decide_eq_false_2 (Some r = None)) by done. cbn [negb andb orb].
      do 2 (case_bool_decide; cbn [orb negb]; try done). apply Huse. by left.
    + rewrite !(bool_decide_eq_true_2 (None = None)), Hfs0 by done. cbn [negb andb orb kassert Z.eqb mbind res_bind].
      rewrite (bool_decide_eq_false_2 (Some n = content <$> None)), orb_false_r by done. case_bool_decide; [|done]. apply Huse. by left.
Qed.

Lemma getroot_loop_names s kds dev n : Forall (kd_ok s) kds → cstr dev 0 n →
  (∀ i j a b, kds !! i = Some a → kds !! j = Some b → n ∈ names s a → n ∈ names s b → i = j) →
  (∀ kd, kd ∈ kds → n ∈ names s kd → getroot_loop s kds dev = designates s kd n) ∧
  ((∀ kd, kd ∈ kds → n ∉ names s kd) → getroot_loop s kds dev = Ret (ENODEV, 0, s)).
Proof.
  intros F Hd. induction F as [|kd kds Hk _ IH]; intros Hu; [by split; [intros ? ?%elem_of_nil|]|].
  rewrite (getroot_loop_cons _ _ _ _ _ Hk Hd).
  destruct IH as [IH1 IH2]. { intros i j a b Hi Hj Ha Hb. pose proof (Hu (Datatypes.S i) (Datatypes.S j) a b Hi Hj Ha Hb). lia. }
  split.
  - intros kd' Hin Hn. apply elem_of_cons in Hin as [->|Hin]; [by rewrite bool_decide_eq_true_2|].
    rewrite bool_decide_eq_false_2; [by apply IH1|]. intros Hn'.
    apply list_elem_of_lookup in Hin as [j Hj]. by specialize (Hu 0%nat (Datatypes.S j) kd kd' eq_refl Hj Hn' Hn).
  - intros Hno. rewrite bool_decide_eq_false_2 by (apply Hno; left). apply IH2. intros kd' Hin. apply Hno. by right.
Qed.

(** ** Adding a device *)

Definition samestr (a b : option (list Z)) : bool :=
  match a, b with Some a, Some b => bool_decide (content a = content b) | _, _ => false end.

Definition opt_str (o : option (list Z)) : Prop := ∀ a, o = Some a → is_str a.

Lemma samestring_correct a b : opt_str a → opt_str b → samestring a b = Ret (samestr a b).
Proof.
  destruct a as [a|], b as [b|]; try done. intros Ha Hb.
  destruct (Ha a eq_refl) as [x Hx], (Hb b eq_refl) as [y Hy]. cbn.
  by rewrite (streq_correct _ _ _ _ Hx Hy), (content_cstr _ _ Hx), (content_cstr _ _ Hy).
Qed.

Lemma samestring3_correct a b c d : opt_str a → opt_str b → opt_str c → opt_str d →
  samestring3 a b c d = Ret (samestr a b || samestr a c || samestr a d).
Proof.
  intros. unfold samestring3. rewrite (samestring_correct a b) by done. cbn. destruct (samestr a b); [done|].
  rewrite (samestring_correct a c) by done. cbn. destruct (samestr a c); [done|]. by rewrite samestring_correct.
Qed.

(** The new device shares a name with a device of the table. *)
Definition clashes s (kd : knowndev) : Prop :=
  ∃ kd' n, kd' ∈ s.(knowndevs) ∧ n ∈ names s kd' ∧ n ∈ names s kd.

Lemma samestr_true a b : samestr a b = true ↔ ∃ n, Some n = content <$> a ∧ Some n = content <$> b.
Proof. destruct a, b; cbn; [|naive_solver..]. rewrite bool_decide_eq_true. split; [intros ->; by eexists|]. by intros (n & [= ->] & [= ->]). Qed.

Lemma badnames_loop_correct s kds new : Forall (kd_ok s) kds → kd_ok s new →
  ∃ b, badnames_loop s kds (Some new.(kd_name)) new.(kd_rawname) (volname s new) = Ret b ∧
    (b = true ↔ ∃ kd n, kd ∈ kds ∧ n ∈ names s kd ∧ n ∈ names s new).
Proof.
  intros F Hnew.
  assert (∀ kd, kd_ok s kd → opt_str (Some kd.(kd_name)) ∧ opt_str kd.(kd_rawname) ∧ opt_str (volname s kd)) as Hstr.
  { intros kd [Hl _ _ [m Hm] Hraw]. split_and!; [intros ? [= <-]; by exists m|done|].
    unfold volname. intros a. destruct (has_fs kd); [|done]. intros E. by eapply law_volname_string, E; apply Hl. }
  destruct (Hstr _ Hnew) as (H1 & H2 & H3).
  induction F as [|kd kds Hk _ (b & IH & Hb)]; [exists false; split; [done|]; split; [done|]; by intros (? & ? & []%elem_of_nil & _)|].
  destruct (Hstr _ Hk) as (K1 & K2 & K3). cbn [badnames_loop].
  assert ((if has_fs kd then samestring3 (fsop_getvolname s (kd_fs kd)) (Some (kd_name new)) (kd_rawname new) (volname s new)
    else Ret false) = samestring3 (volname s kd) (Some (kd_name new)) (kd_rawname new) (volname s new)) as ->
    by (unfold volname at 2; by destruct (has_fs kd)).
  set (hit := λ a, samestr a (Some (kd_name new)) || samestr a (kd_rawname new) || samestr a (volname s new)).
  exists (hit (volname s kd) || hit kd.(kd_rawname) || hit (Some kd.(kd_name)) || b). split.
  { rewrite (samestring3_correct (volname s kd)) by done. cbn [mbind res_bind]. fold (hit (volname s kd)).
    destruct (hit (volname s kd)); [done|]. rewrite (samestring3_correct (kd_rawname kd)) by done. cbn [mbind res_bind].
    fold (hit (kd_rawname kd)). destruct (hit (kd_rawname kd)); [done|].
    rewrite (samestring3_correct (Some (kd_name kd))) by done. cbn [mbind res_bind]. fold (hit (Some (kd_name kd))).
    by destruct (hit (Some (kd_name kd))). }
  assert (∀ a, hit a = true ↔ ∃ n, Some n = content <$> a ∧ n ∈ names s new) as Hhit.
  { intros a. unfold hit. rewrite !orb_true_iff, !samestr_true. setoid_rewrite elem_names. cbn. naive_solver. }
  rewrite !orb_true_iff, !Hhit, Hb. split.
  - intros [[[(n & E & Hn)|(n & E & Hn)]|(n & E & Hn)]|(kd' & n & Hin & Hn)].
    1-3: exists kd, n; split_and!; [left|apply elem_names|done]; auto. { by injection E; auto. }
    exists kd', n. by split; [right|].
  - intros (kd' & n & [->|Hin]%elem_of_cons & Hn & Hn').
    + apply elem_names in Hn as [->|[E|E]]; eauto 8.
    + right. eauto.
Qed.

Lemma kmalloc_failed o : (kmalloc o).1 = false → false ∈ o.
Proof. destruct o as [|[] o]; [done..|]. intros _. left. Qed.

Lemma kmalloc_later o : false ∈ (kmalloc o).2 → false ∈ o.
Proof. destruct o; [done|]. cbn. by right. Qed.

Lemma kstrdup_correct str n o : cstr str 0 n → Z.of_nat (length n) + 1 < 2 ^ 32 →
  ∃ z, cstr z 0 n ∧ kstrdup str o = Ret (if (kmalloc o).1 then Some z else None, (kmalloc o).2).
Proof.
  intros Hs Hl. unfold kstrdup. rewrite (strlen_correct _ _ _ Hs). cbn [mbind res_bind].
  destruct (kmalloc o) as [ok o'] eqn:E. cbn [fst snd].
  assert (Forall (λ c, 0 < c < 256) n) as F by apply Hs.
  set (b := replicate (Z.to_nat (Z.of_nat (length n) + 1)) 0).
  assert (Z.of_nat (length b) = Z.of_nat (length n) + 1) as Hb by (unfold b; rewrite length_replicate; lia).
  destruct (write_str_cstr b 0 n) as [Hz _]; [lia..|done|]. exists (write_str b 0 n). split; [done|].
  destruct ok; [|done]. cbn [negb]. by rewrite (strcpy_correct b 0 str 0 n) by (done || lia).
Qed.

Definition raw : list Z := bytes_of "raw".

Lemma mkrawname_correct str n o : cstr str 0 n → Z.of_nat (length n) + 4 < 2 ^ 32 →
  ∃ z, cstr z 0 (n ++ raw) ∧ mkrawname str o = Ret (if (kmalloc o).1 then Some z else None, (kmalloc o).2).
Proof.
  intros Hs Hl. unfold mkrawname. rewrite (strlen_correct _ _ _ Hs). cbn [mbind res_bind].
  destruct (kmalloc o) as [ok o'] eqn:E. cbn [fst snd].
  assert (Forall (λ c, 0 < c < 256) n) as F by apply Hs.
  set (b := replicate (Z.to_nat (Z.of_nat (length n) + 3 + 1)) 0).
  assert (Z.of_nat (length b) = Z.of_nat (length n) + 4) as Hb by (unfold b; rewrite length_replicate; lia).
  destruct (write_str_cstr b 0 n) as [Hz Hlen]; [lia..|done|].
  assert (cstr (lit "raw") 0 raw) as Hr.
  { split_and!; [lia|by vm_compute|by repeat constructor|by exists []]. }
  destruct (strcat_correct _ _ _ _ _ _ Hz Hr) as (z & Hcat & Hc & _); [cbn; rewrite Hlen; lia|].
  exists z. split; [done|]. destruct ok; [|done]. cbn [negb].
  rewrite (strcpy_correct b 0 str 0 n) by (done || lia). cbn [mbind res_bind]. by rewrite Hcat.
Qed.

(** The entry that [vfs_doadd] makes. *)
Record describes (kd : knowndev) (n : list Z) (mountable : bool) (dev fs vnode : Z) : Prop := Describes {
  desc_name : cstr kd.(kd_name) 0 n;
  desc_raw : if mountable then ∃ r, kd.(kd_rawname) = Some r ∧ cstr r 0 (n ++ raw) else kd.(kd_rawname) = None;
  desc_device : kd.(kd_device) = dev;
  desc_fs : kd.(kd_fs) = fs;
  desc_vnode : kd.(kd_vnode) = vnode
}.

Definition add_device s (kd : knowndev) : vfs S :=
  let s' := set_knowndevs (set_vnodes s (<[kd.(kd_vnode) := Vnode 1 0 kd.(kd_device)]> s.(vnodes))) (s.(knowndevs) ++ [kd]) in
  if kd.(kd_device) =? 0 then s'
  else set_devnumber s' (<[kd.(kd_device) := Z.of_nat (length s.(knowndevs)) + 1]> s.(d_devnumber)).

Lemma new_vnode_fresh s : s.(vnodes) !! new_vnode s = None ∧ 0 < new_vnode s ∧ new_vnode s mod 4 = 0.
Proof.
  assert (∀ m : gmap Z vnode, 0 ≤ map_fold (λ k _ a, Z.max k a) 0 m ∧
    ∀ k, is_Some (m !! k) → k ≤ map_fold (λ k _ a, Z.max k a) 0 m) as Hmax.
  { intros m. apply (map_fold_weak_ind (λ a m, 0 ≤ a ∧ ∀ k, is_Some (m !! k) → k ≤ a)).
    - split; [done|]. intros k [? E]. by rewrite lookup_empty in E.
    - intros i x m' r _ [IH0 IH]. split; [lia|]. intros k Hk. destruct (decide (k = i)) as [->|Hne]; [lia|].
      rewrite lookup_insert_ne in Hk by done. apply IH in Hk. lia. }
  destruct (Hmax s.(vnodes)) as [H0 H1]. unfold new_vnode. set (m := map_fold _ _ _) in *. split_and!; [|lia|zdiv_lia].
  apply eq_None_not_Some. intros Hx%H1. lia.
Qed.

Lemma set_depth_back s : set_depth (set_depth s (s.(vfs_biglock_depth) + 1)) (s.(vfs_biglock_depth) + 1 - 1) = s.
Proof. destruct s. unfold set_depth. cbn. f_equal. lia. Qed.

Lemma doadd_fail_correct s0 s v r o : 0 ≤ s0.(vfs_biglock_depth) →
  (v = 0 ∧ s = vfs_biglock_acquire s0) ∨
  (∃ n, s = set_vnodes (vfs_biglock_acquire s0) (<[v := n]> s0.(vnodes)) ∧ n.(vn_refcount) = 1 ∧ s0.(vnodes) !! v = None ∧ v ≠ 0) →
  doadd_fail s v r o = Ret (r, s0, o).
Proof.
  intros Hd Hs. unfold doadd_fail. assert ((if negb (v =? 0) then vnode_cleanup s v else Ret s) = Ret (vfs_biglock_acquire s0)) as ->.
  { destruct Hs as [[-> ->]|(n & -> & Hn & Hv & Hz)]; [done|]. rewrite (proj2 (Z.eqb_neq v 0)) by done. cbn [negb].
    unfold vnode_cleanup, set_vnodes. cbn. rewrite lookup_insert_eq. cbn. rewrite Hn. cbn.
    by rewrite delete_insert_id by done. }
  cbn [mbind res_bind]. unfold vfs_biglock_release. cbn. rewrite (proj2 (Z.ltb_lt 0 _)) by lia. cbn [kassert mbind res_bind]. do 3 f_equal. apply (set_depth_back s0).
Qed.

Lemma names_ext s s' kd : s'.(fsys) = s.(fsys) → names s' kd = names s kd.
Proof. intros E. unfold names, volname. by rewrite (law_volname s s' _ E). Qed.

Lemma kd_ok_ext s s' kd : s'.(fsys) = s.(fsys) → kd_ok s kd → kd_ok s' kd.
Proof. intros E [? ? ? ? ?]. split; rewrite ?E; done. Qed.

(** What [vfs_doadd] needs of its arguments. *)
Record addable s (dname n : list Z) (mountable : bool) (dev fs : Z) : Prop := Addable {
  add_name : cstr dname 0 n;
  add_length : Z.of_nat (length n) + 4 < 2 ^ 32;
  add_swap : fs ≠ SWAP_FS;
  add_live : fs ≠ 0 → fs_live s.(fsys) fs;
  add_device_set : fs = 0 ∨ mountable = true → dev ≠ 0;
  add_wf : vn_wf s.(fsys) 0 dev
}.

Lemma described_ok s dname n mountable dev fs kd v : addable s dname n mountable dev fs →
  describes kd n mountable dev fs v → kd_ok s kd.
Proof.
  intros [Hn _ Hsw Hl Hdev _] [Dn Dr <- <- _]. split.
  - unfold has_fs. intros E. apply Hl. intros E0. by rewrite E0 in E.
  - intros [E|E]; apply Hdev.
    + left. unfold has_fs in E. destruct (Z.eqb_spec kd.(kd_fs) 0); [done|]. by rewrite (proj2 (Z.eqb_neq _ _) Hsw) in E.
    + right. by destruct mountable.
  - done.
  - by exists n.
  - intros r E. destruct mountable; [|congruence]. destruct Dr as (r' & E' & Hr). rewrite E in E'. injection E' as <-. by exists (n ++ raw).
Qed.

(** After the names have been copied. *)
Lemma doadd_new_correct s name rawname n mountable dev fs o dname :
  vfs_ok s → addable s dname n mountable dev fs → cstr name 0 n →
  (if mountable then ∃ r, rawname = Some r ∧ cstr r 0 (n ++ raw) else rawname = None) →
  let kd := Knowndev name rawname dev (new_vnode s) fs in
  ∃ r s' o',
    doadd_new (vfs_biglock_acquire s) name rawname dev fs o = Ret (r, s', o') ∧
    ((r = ENOMEM ∧ false ∈ o ∧ s' = s) ∨ (r = EEXIST ∧ clashes s kd ∧ s' = s) ∨
     (r = 0 ∧ ¬ clashes s kd ∧ s' = add_device s kd)).
Proof.
  intros Hok Hadd Hn Hr kd. pose proof (ok_depth _ Hok) as Hdep. destruct (new_vnode_fresh s) as (Hfree & Hpos & _).
  assert (∀ r o', doadd_fail (vfs_biglock_acquire s) 0 r o' = Ret (r, s, o')) as Hfail0 by (intros; apply doadd_fail_correct; auto).
  unfold doadd_new, dev_create_vnode. change (new_vnode (vfs_biglock_acquire s)) with (new_vnode s).
  destruct (kmalloc o) as [ok1 o1] eqn:E1. destruct ok1; cbn [negb].
  2: { cbn [mbind res_bind Z.eqb]. rewrite Hfail0. do 3 eexists. split; [done|]. left. split_and!; [done| |done].
       apply kmalloc_failed. by rewrite E1. }
  unfold vnode_init. rewrite (proj2 (Z.eqb_neq (new_vnode s) 0)) by lia. cbn [negb kassert mbind res_bind].
  rewrite (proj2 (Z.eqb_neq (new_vnode s) 0)) by lia.
  set (s1 := set_vnodes (vfs_biglock_acquire s) (<[new_vnode s := Vnode 1 0 dev]> (vnodes (vfs_biglock_acquire s)))).
  assert (∀ r o', doadd_fail s1 (new_vnode s) r o' = Ret (r, s, o')) as Hfail1.
  { intros. apply doadd_fail_correct; [done|]. right. exists (Vnode 1 0 dev). split_and!; [done..|lia]. }
  assert (false ∈ o1 → false ∈ o) as Ho1 by (intros ?; apply kmalloc_later; by rewrite E1).
  destruct (kmalloc o1) as [ok2 o2] eqn:E2. destruct ok2; cbn [negb].
  2: { rewrite Hfail1. do 3 eexists. split; [done|]. left. split_and!; [done|apply Ho1, kmalloc_failed; by rewrite E2|done]. }
  assert (kd_ok s kd) as Hkd by (by eapply described_ok).
  assert ((if negb (fs =? 0) then fsop_getvolname s1 fs else None) = volname s1 kd) as ->.
  { unfold volname, has_fs. cbn. rewrite (proj2 (Z.eqb_neq fs SWAP_FS)) by apply Hadd. by rewrite andb_true_r. }
  unfold badnames. change (knowndevs s1) with (knowndevs s).
  assert (vfs_biglock_do_i_hold s1 = true) as -> by (apply Z.ltb_lt; cbn; lia).
  cbn [kassert mbind res_bind].
  destruct (badnames_loop_correct s1 s.(knowndevs) kd) as (b & Hb & Hbad).
  { eapply Forall_impl; [apply Hok|]. intros. by apply (kd_ok_ext s s1). } { by apply (kd_ok_ext s s1). }
  cbn [kd_name kd_rawname kd] in Hb. rewrite Hb. cbn [mbind res_bind].
  assert (b = true ↔ clashes s kd) as Hc.
  { rewrite Hbad. unfold clashes. by setoid_rewrite (names_ext s s1 _ eq_refl). }
  destruct b.
  { rewrite Hfail1. do 3 eexists. split; [done|]. right. left. split_and!; [done|by apply Hc|done]. }
  destruct (kmalloc o2) as [ok3 o3] eqn:E3. destruct ok3; cbn [negb].
  2: { rewrite Hfail1. do 3 eexists. split; [done|]. left. split_and!; [done| |done].
       apply Ho1, kmalloc_later. rewrite E2. apply kmalloc_failed. cbn. by rewrite E3. }
  exists 0, (add_device s kd), o3. split; [|right; right; split_and!; [done|by intros ?%Hc|done]].
  unfold vfs_biglock_release, add_device. cbn [kd_device kd]. destruct (dev =? 0); cbn [negb].
  all: rewrite (proj2 (Z.ltb_lt 0 _)) by (cbn; lia); cbn [kassert mbind res_bind]; do 3 f_equal;
    unfold set_depth, set_knowndevs, set_devnumber, set_vnodes; cbn; f_equal; lia.
Qed.

Lemma doadd_correct s dname n mountable dev fs o : vfs_ok s → addable s dname n mountable dev fs →
  ∃ r s' o' kd, vfs_doadd s dname mountable dev fs o = Ret (r, s', o') ∧
    describes kd n mountable dev fs (new_vnode s) ∧
    ((r = ENOMEM ∧ false ∈ o ∧ s' = s) ∨ (r = EEXIST ∧ clashes s kd ∧ s' = s) ∨
     (r = 0 ∧ ¬ clashes s kd ∧ s' = add_device s kd)).
Proof.
  intros Hok Hadd. pose proof (add_name _ _ _ _ _ _ Hadd) as Hn. pose proof (add_length _ _ _ _ _ _ Hadd) as Hlen.
  pose proof (ok_depth _ Hok) as Hdep. unfold vfs_doadd.
  assert (∀ r o', doadd_fail (vfs_biglock_acquire s) 0 r o' = Ret (r, s, o')) as Hfail by (intros; apply doadd_fail_correct; auto).
  destruct (kstrdup_correct dname n o Hn) as (name & Hname & ->); [lia|]. cbn [mbind res_bind].
  destruct (mkrawname_correct name n (kmalloc o).2 Hname Hlen) as (rawname & Hraw & Emk).
  set (given := if mountable then Some rawname else None).
  assert (if mountable then ∃ r, given = Some r ∧ cstr r 0 (n ++ raw) else given = None) as Hgiven
    by (unfold given; destruct mountable; [by eexists|done]).
  assert (describes (Knowndev name given dev (new_vnode s) fs) n mountable dev fs (new_vnode s)) as Hdesc by (by split).
  destruct (kmalloc o).1 eqn:E1.
  2: { rewrite Hfail. do 4 eexists. split; [done|]. split; [exact Hdesc|]. left. split_and!; [done|by apply kmalloc_failed|done]. }
  assert (∃ ok o1, (if mountable then mkrawname name (kmalloc o).2 else Ret (None, (kmalloc o).2)) =
    Ret (if ok : bool then given else None, o1) ∧ (false ∈ o1 → false ∈ o) ∧ (ok = false → mountable = true ∧ false ∈ o)) as (ok & o1 & -> & Ho1 & Hff).
  { unfold given. destruct mountable.
    - rewrite Emk. eexists _, _. split; [done|]. split; [by intros ?%kmalloc_later%kmalloc_later|].
      intros ?%kmalloc_failed. split; [done|by apply kmalloc_later].
    - exists true, (kmalloc o).2. split; [done|]. split; [apply kmalloc_later|done]. }
  cbn [mbind res_bind]. destruct ok.
  2: { destruct Hff as [-> Hf]; [done|]. cbn [andb]. rewrite bool_decide_eq_true_2, Hfail by done. do 4 eexists. split; [done|].
       split; [exact Hdesc|]. by left. }
  assert (mountable && bool_decide (given = None) = false) as ->.
  { unfold given. destruct mountable; [|done]. by rewrite bool_decide_eq_false_2. }
  destruct (doadd_new_correct s name given n mountable dev fs o1 dname Hok Hadd Hname Hgiven) as (r & s' & o' & -> & Hr).
  do 4 eexists. split; [done|]. split; [exact Hdesc|]. destruct Hr as [(? & ? & ?)|Hr]; [left; auto|by right].
Qed.

Lemma add_device_rest s kd : (add_device s kd).(fsys) = s.(fsys) ∧ (add_device s kd).(knowndevs) = s.(knowndevs) ++ [kd] ∧
  (add_device s kd).(vnodes) = <[kd.(kd_vnode) := Vnode 1 0 kd.(kd_device)]> s.(vnodes) ∧
  (add_device s kd).(p_cwd) = s.(p_cwd) ∧ (add_device s kd).(bootfs_vnode) = s.(bootfs_vnode) ∧
  (add_device s kd).(vfs_biglock_depth) = s.(vfs_biglock_depth).
Proof. unfold add_device. by destruct (_ =? 0). Qed.

Lemma add_device_distinct s kd : distinct s → ¬ clashes s kd → distinct (add_device s kd).
Proof.
  destruct (add_device_rest s kd) as (Ef & Ek & _). intros Hd Hc i j a b n. rewrite Ek, !(names_ext s _ _ Ef).
  intros [Ha|[Hi Ha]]%lookup_snoc_Some [Hb|[Hj Hb]]%lookup_snoc_Some Na Nb.
  - apply (Hd i j a b n); tauto.
  - subst b. destruct Hc. exists a, n. split_and!; [eapply list_elem_of_lookup_2, Ha|done..].
  - subst a. destruct Hc. exists b, n. split_and!; [eapply list_elem_of_lookup_2, Hb|done..].
  - lia.
Qed.

Lemma add_device_ok s dname n mountable dev fs kd : vfs_ok s → addable s dname n mountable dev fs →
  describes kd n mountable dev fs (new_vnode s) → vfs_ok (add_device s kd).
Proof.
  intros Hok Hadd Hdesc. pose proof (described_ok _ _ _ _ _ _ _ _ Hadd Hdesc) as Hkd.
  destruct (add_device_rest s kd) as (Ef & Ek & Ev & Ec & Eb & Ed). destruct (new_vnode_fresh s) as (Hfree & Hpos & Hal).
  pose proof (desc_vnode _ _ _ _ _ _ Hdesc) as Hv. pose proof (desc_device _ _ _ _ _ _ Hdesc) as Hdev.
  pose proof Hok as [Hvn Hdep Hown Hcwd Hdevs]. constructor.
  - intros v x. rewrite Ev, Ef, Hv. intros [[<- <-]|[Hne Hx]]%lookup_insert_Some; [|by apply Hvn].
    cbn. split_and!; [lia|done|lia| |rewrite Hdev; apply Hadd]. intros E. by rewrite E in Hal.
  - by rewrite Ed.
  - intros w. unfold owned. rewrite Ek, Ec, Eb, fmap_app, <-app_assoc, !cnt_app. cbn [fmap list_fmap]. rewrite cnt_cons.
    change (cnt w []) with 0. unfold refs. rewrite Ev, Hv. specialize (Hown w). unfold owned in Hown. rewrite !cnt_app in Hown.
    destruct (decide (w = new_vnode s)) as [->|Hne].
    + rewrite lookup_insert_eq. cbn. unfold refs in Hown. rewrite Hfree in Hown. lia.
    + rewrite lookup_insert_ne by done. unfold refs in Hown. lia.
  - rewrite Ec, Ev, Ef, Hv. intros Hc. destruct (Hcwd Hc) as (x & Hx & ?). exists x. split; [|done].
    rewrite lookup_insert_ne; [done|]. intros E. by rewrite <-E, Hfree in Hx.
  - rewrite Ek. apply Forall_app. split; [|by constructor; [apply (kd_ok_ext s)|constructor]].
    eapply Forall_impl; [exact Hdevs|]. intros. by apply (kd_ok_ext s).
Qed.

Lemma use_device_correct s kd : vfs_ok s → kd ∈ s.(knowndevs) →
  ∃ s', use_device s kd = Ret (0, kd.(kd_vnode), s') ∧ refs s' kd.(kd_vnode) = refs s kd.(kd_vnode) + 1.
Proof.
  intros Hok Hin. pose proof (devices_ok s Hok) as F. rewrite Forall_forall in F. destruct (F kd Hin) as [_ Hp].
  destruct (incref_correct s kd.(kd_vnode)) as (s' & E & _ & (_ & _ & _ & Hr) & _); [apply Hok|done|].
  exists s'. unfold use_device. rewrite E, Hr, decide_True by done. done.
Qed.

(** The names of a device that has no file system. *)
Lemma described_designates s kd n mountable dev v : describes kd n mountable dev 0 v →
  n ∈ names s kd ∧ designates s kd n = (if mountable then Ret (ENXIO, 0, s) else use_device s kd) ∧
  (mountable = true → n ++ raw ∈ names s kd ∧ designates s kd (n ++ raw) = use_device s kd).
Proof.
  intros [Dn Dr _ Df _]. pose proof (content_cstr _ _ Dn) as Cn.
  assert (has_fs kd = false) as Hfs by (unfold has_fs; by rewrite Df). unfold designates. rewrite Hfs. cbn [andb]. split_and!.
  - apply elem_names. by left.
  - destruct mountable.
    + destruct Dr as (r & Er & _). rewrite bool_decide_eq_false_2; [done|]. rewrite Er, Cn. by intros [|].
    + by rewrite bool_decide_eq_true_2 by auto.
  - intros ->. destruct Dr as (r & Er & Hr). split.
    + apply elem_names. right. left. by rewrite Er, <-(content_cstr _ _ Hr).
    + rewrite bool_decide_eq_true_2; [done|]. right. rewrite Cn. intros E%(f_equal length). rewrite length_app in E. cbn in E. lia.
Qed.

(** A device of the table has the name [n] or, if a raw name is wanted too, [n] followed by [raw]. *)
Definition taken s (n : list Z) (mountable : bool) : Prop :=
  ∃ kd m, kd ∈ s.(knowndevs) ∧ m ∈ names s kd ∧ (m = n ∨ mountable = true ∧ m = n ++ raw).

Lemma described_clashes s kd n mountable dev v : describes kd n mountable dev 0 v → clashes s kd ↔ taken s n mountable.
Proof.
  intros [Dn Dr _ Df _]. assert (∀ m, m ∈ names s kd ↔ m = n ∨ mountable = true ∧ m = n ++ raw) as Hm.
  { intros m. rewrite elem_names, (content_cstr _ _ Dn). assert (volname s kd = None) as -> by (unfold volname, has_fs; by rewrite Df).
    destruct mountable; [destruct Dr as (r & -> & Hr)|rewrite Dr]; cbn; [rewrite (content_cstr _ _ Hr)|]; naive_solver. }
  unfold clashes, taken. by setoid_rewrite Hm.
Qed.

Lemma acquire_ok s : vfs_ok s → vfs_ok (vfs_biglock_acquire s).
Proof. intros [H1 H2 H3 H4 H5]. split; [exact H1|cbn; lia|exact H3|exact H4|]. eapply Forall_impl; [exact H5|]. intros. by apply (kd_ok_ext s). Qed.

Lemma acquire_distinct s : distinct s → distinct (vfs_biglock_acquire s).
Proof. intros Hd i j a b n. rewrite !(names_ext s (vfs_biglock_acquire s)) by done. apply Hd. Qed.

(** ** Properties *)

(** When no two devices share a name, [vfs_getroot] finds the device by any of its names
    wherever it stands in the table: the name and the volume name of a mounted device lead to the
    root of its file system, the raw name and the only name of a device to the device itself, the
    name of a mountable device without file system to [ENXIO]; another name is [ENODEV]. *)
Theorem getroot_designates s dev n : vfs_ok s → distinct s → 0 < s.(vfs_biglock_depth) → cstr dev 0 n →
  (∀ kd, kd ∈ s.(knowndevs) → n ∈ names s kd → vfs_getroot s dev = designates s kd n) ∧
  ((∀ kd, kd ∈ s.(knowndevs) → n ∉ names s kd) → vfs_getroot s dev = Ret (ENODEV, 0, s)).
Proof.
  intros Hok Hd Hdep Hn. unfold vfs_getroot. assert (vfs_biglock_do_i_hold s = true) as -> by (by apply Z.ltb_lt).
  apply getroot_loop_names; [apply Hok|done|]. intros. by apply (Hd i j a b n).
Qed.

(** C16: [vfs_adddev] keeps the layer's state well formed and the names distinct.  It succeeds only if no device of
    the table has the name, or the raw name when a file system can be mounted on the new device, among its name, raw name
    and volume name.  It fails only with [EEXIST], when one has, or with [ENOMEM], when an allocation failed, both
    with the state as it was.  A device that was added is then found by its name, or by its name followed by [raw] when
    a file system can be mounted on it, its name then being [ENXIO]. *)
Theorem adddev_well_formed s dname n mountable dev o : vfs_ok s → distinct s → addable s dname n mountable dev 0 →
  ∃ r s' o', vfs_adddev s dname dev mountable o = Ret (r, s', o') ∧ vfs_ok s' ∧ distinct s' ∧
    (r = 0 ∧ ¬ taken s n mountable ∨ s' = s ∧ (r = EEXIST ∧ taken s n mountable ∨ r = ENOMEM ∧ false ∈ o)) ∧
    (r = 0 → ∀ devname x, cstr devname 0 x → x = (if mountable then n ++ raw else n) →
      ∃ s'', vfs_getroot (vfs_biglock_acquire s') devname = Ret (0, new_vnode s, s'') ∧ refs s'' (new_vnode s) = 2) ∧
    (r = 0 → mountable = true → ∀ devname, cstr devname 0 n →
      vfs_getroot (vfs_biglock_acquire s') devname = Ret (ENXIO, 0, vfs_biglock_acquire s')).
Proof.
  intros Hok Hd Hadd. destruct (doadd_correct s dname n mountable dev 0 o Hok Hadd) as (r & s' & o' & kd & E & Hdesc & Hr).
  pose proof (described_clashes s kd n mountable dev _ Hdesc) as Htk.
  exists r, s', o'. split; [done|]. destruct Hr as [(-> & Ho & ->)|[(-> & Hc & ->)|(-> & Hc & ->)]].
  1-2: do 2 (split; [done|]); split_and!; [tauto|done|done].
  pose proof (add_device_ok _ _ _ _ _ _ _ Hok Hadd Hdesc) as Hok'. pose proof (add_device_distinct _ _ Hd Hc) as Hd'.
  do 2 (split; [done|]). split; [tauto|]. set (s1 := vfs_biglock_acquire (add_device s kd)).
  assert (0 < s1.(vfs_biglock_depth)) as Hdep by (cbn; pose proof (ok_depth _ Hok'); lia).
  destruct (add_device_rest s kd) as (_ & Ek & Ev & _). assert (kd ∈ s1.(knowndevs)) as Hin.
  { cbn. rewrite Ek. apply elem_of_app. right. by left. }
  destruct (described_designates s1 kd n mountable dev _ Hdesc) as (Hn & En & Hraw).
  assert (∀ devname x, cstr devname 0 x → x ∈ names s1 kd → vfs_getroot s1 devname = designates s1 kd x) as Hget.
  { intros devname x Hx Hm. unfold vfs_getroot. assert (vfs_biglock_do_i_hold s1 = true) as -> by (by apply Z.ltb_lt).
    apply (getroot_loop_names s1 _ devname x); [apply (acquire_ok _ Hok')|done| |done..].
    intros. by apply (acquire_distinct _ Hd' i j a b x). }
  split.
  - intros _ devname x Hx ->. destruct (use_device_correct s1 kd (acquire_ok _ Hok') Hin) as (s'' & Eu & Hu).
    rewrite (desc_vnode _ _ _ _ _ _ Hdesc) in Eu, Hu.
    exists s''. split; [|rewrite Hu; unfold refs; cbn; rewrite Ev, (desc_vnode _ _ _ _ _ _ Hdesc), lookup_insert_eq; done].
    destruct mountable; [|by rewrite (Hget _ _ Hx Hn), En]. destruct (Hraw eq_refl) as [Hm Er]. by rewrite (Hget _ _ Hx Hm), Er.
  - intros _ -> devname Hx. by rewrite (Hget _ _ Hx Hn), En.
Qed.

End Names.

(** A system with one device, the null device at address 16, and nothing in the table. *)
Definition booting : vfs (gmap Z device) := Vfs ∅ [] 0 0 0 ∅ {[16 := Device 0 1]}.

Lemma booting_ok : vfs_ok booting.
Proof. split; [intros v n; cbn; by rewrite lookup_empty|done| |done|by constructor]. intros w. unfold refs. cbn. by rewrite lookup_empty. Qed.

Lemma lit_null : cstr (lit "null") 0 (bytes_of "null").
Proof. split_and!; [lia|by vm_compute|by repeat constructor|by exists []]. Qed.

Lemma booting_addable mountable : addable booting (lit "null") (bytes_of "null") mountable 16 0.
Proof. split; [apply lit_null|by vm_compute|done..|]. split; [done|]. by eexists. Qed.

(** The null device alone in the table, the lock held. *)
Definition null_added : vfs (gmap Z device) :=
  Vfs {[4 := Vnode 1 0 16]} [Knowndev (lit "null") None 16 4 0] 0 1 0 {[16 := 1]} {[16 := Device 0 1]}.

Lemma null_added_ok : vfs_ok null_added.
Proof.
  split; cbn.
  - intros v n. cbn. intros [<- <-]%lookup_singleton_Some. cbn. split_and!; try done. by eexists.
  - done.
  - intros w. unfold owned. cbn. rewrite cnt_cons. unfold refs. cbn. case_decide; [subst w|]; [by vm_compute|].
    by rewrite lookup_singleton_ne by done.
  - done.
  - constructor; [|done]. split; try done. exists (bytes_of "null"). apply lit_null.
Qed.

Lemma getroot_designates_witness :
  (∀ kd, kd ∈ null_added.(knowndevs) → bytes_of "null" ∈ names null_added kd →
     vfs_getroot null_added (lit "null") = designates null_added kd (bytes_of "null")) ∧
  ((∀ kd, kd ∈ null_added.(knowndevs) → bytes_of "null" ∉ names null_added kd) →
     vfs_getroot null_added (lit "null") = Ret (ENODEV, 0, null_added)).
Proof.
  apply (getroot_designates null_added (lit "null") (bytes_of "null")); [apply null_added_ok| |done|apply lit_null].
  intros [|i] [|j] a b n; [done|..]; cbn; rewrite ?lookup_nil; done.
Defined.

Lemma adddev_well_formed_witness : ∃ r s' o', vfs_adddev booting (lit "null") 16 true [] = Ret (r, s', o') ∧ vfs_ok s' ∧
  distinct s' ∧ r = 0.
Proof.
  destruct (adddev_well_formed booting (lit "null") (bytes_of "null") true 16 []) as (r & s' & o' & E & Hok & Hd & Hr & _).
  - apply booting_ok.
  - intros i j a b n. cbn. by rewrite lookup_nil.
  - apply booting_addable.
  - exists r, s', o'. split_and!; [done..|]. destruct Hr as [[? _]|[-> _]]; [done|]. by vm_compute in E.
Defined.
