(* ===== verification/VfsRefs.v ===== *)
(** * References to vnodes (properties of the VFS layer)

    Every operation of [Vfs] on pathnames gives back the references it takes and
    releases the lock as often as it acquires it. *)

From Stdlib Require Import Ascii String.
From S2P Require Import Prelude CString UserCopy Uio Vfs VfsDev VfsList.

(** [s'] is [s] with one more reference for each vnode of [l]; a vnode without any in
    [s] may have kept one.  The lock is held [d] times more. *)
Definition owes {S U} `{FsOps S U} (d : Z) (s : vfs S) (l : list Z) (s' : vfs S) : Prop :=
  (s'.(knowndevs) = s.(knowndevs) ∧ s'.(bootfs_vnode) = s.(bootfs_vnode) ∧
   s'.(vfs_biglock_depth) = s.(vfs_biglock_depth) + d ∧ s'.(p_cwd) = s.(p_cwd) ∧
   ∀ fs, fs_live s.(fsys) fs → fs_live s'.(fsys) fs) ∧
  (∀ w a b, 0 < refs s w → s.(vnodes) !! w = Some a → s'.(vnodes) !! w = Some b → same_vnode s a s' b) ∧
  ∀ w, refs s' w = refs s w + cnt w l ∨ refs s w = 0 ∧ refs s' w = cnt w l + 1.

Lemma same_vnode_trans {S U} `{FsOps S U} (s1 s2 s3 : vfs S) a b c : same_vnode s1 a s2 b → same_vnode s2 b s3 c → same_vnode s1 a s3 c.
Proof. intros [E1 H1] [E2 H2]. split; [congruence|auto]. Qed.

Lemma owes_refl {S U} `{FsOps S U} (s : vfs S) : owes 0 s [] s.
Proof.
  split_and!; [done|done|lia|done|done| |].
  - intros w a b _ Ha Hb. simplify_eq. by split.
  - intros w. left. change (cnt w []) with 0. lia.
Qed.

Lemma owes_le {S U} `{FsOps S U} d (s : vfs S) l s' w : owes d s l s' → vnodes_ok s → refs s w + cnt w l ≤ refs s' w.
Proof. intros (_ & _ & Hw) Hok. destruct (Hw w); [lia|]. lia. Qed.

(** ** Parsing *)

Inductive start := Cwd | Boot | CurFs | Dev (name : list Z).

Definition is_mark (c : Z) : Prop := c = chr ":" ∨ c = chr "/".
#[global] Instance is_mark_dec c : Decision (is_mark c).
Proof. unfold is_mark. apply _. Defined.

Fixpoint unslash (p : list Z) : list Z :=
  match p with [] => [] | c :: p' => if c =? chr "/" then unslash p' else p end.

(** [device:path], [/path], [:path] or a path relative to the current directory; slashes
    that follow the mark are dropped. *)
Definition parse (p : list Z) : start * list Z :=
  match list_find is_mark p with
  | None => (Cwd, p)
  | Some (k, c) =>
      if c =? chr ":" then
        if decide (k = 0%nat) then (CurFs, unslash (drop 1 p)) else (Dev (take k p), unslash (drop (k + 1) p))
      else if decide (k = 0%nat) then (Boot, unslash (drop 1 p)) else (Cwd, p)
  end.

(** How the lookup of the vnode to start at is done. *)
Definition begins {S U} `{FsOps S U} (s : vfs S) (b : start) (r : res (Z * Z * vfs S)) : Prop :=
  match b with
  | Cwd => r = vfs_getcurdir s
  | Boot => r = start_root s (chr "/")
  | CurFs => r = start_root s (chr ":")
  | Dev name => ∃ dev, cstr dev 0 name ∧ r = vfs_getroot s dev
  end.

Section Laws.
Context {S U : Type} `{FL : FsLaws S U}.
Implicit Types s : vfs S.

Lemma owes_quiet d s l s1 s2 : owes d s l s1 → vnodes_ok s → quiet s1 s2 → owes d s l s2.
Proof.
  intros (Hr & Hf & Hw) Hok ((E1 & E2 & E3 & E4 & E5 & E6) & Hq). split; [|split].
  - destruct Hr as (? & ? & ? & ? & Hl). split_and!; try (congruence || lia). intros fs Hfs. by apply E6, Hl.
  - intros w a b Hp Ha Hb. assert (0 < refs s1 w) as H1.
    { destruct (Hw w) as [E|[E _]]; [|lia]. pose proof (cnt_nonneg w l). lia. }
    destruct (refs_Some _ _ H1) as (n & Hn & _). apply (same_vnode_trans _ s1 _ _ n); [by apply (Hf w)|by apply (E5 w)].
  - intros w. rewrite Hq. apply Hw.
Qed.

Lemma owes_gives d s l s1 s2 v : owes d s l s1 → vnodes_ok s → gives s1 s2 v → owes d s (v :: l) s2.
Proof.
  intros (Hr & Hf & Hw) Hok ((E1 & E2 & E3 & E4 & E5 & E6) & _ & _ & Hq). split; [|split].
  - destruct Hr as (? & ? & ? & ? & Hl). split_and!; try (congruence || lia). intros fs Hfs. by apply E6, Hl.
  - intros w a b Hp Ha Hb. assert (0 < refs s1 w) as H1.
    { destruct (Hw w) as [E|[E _]]; [|lia]. pose proof (cnt_nonneg w l). lia. }
    destruct (refs_Some _ _ H1) as (n & Hn & _). apply (same_vnode_trans _ s1 _ _ n); [by apply (Hf w)|by apply (E5 w)].
  - intros w. rewrite Hq, cnt_cons. destruct (Hw w); [left|right]; lia.
Qed.

Lemma owes_decref d s l s1 v : vnodes_ok s → vnodes_ok s1 → owes d s (v :: l) s1 →
  ∃ s2, vnode_decref s1 v = Ret s2 ∧ vnodes_ok s2 ∧ owes d s l s2.
Proof.
  intros Hok Hok1 (Hr & Hf & Hw). pose proof (Hw v) as Hv. rewrite cnt_cons, decide_True in Hv by done.
  pose proof (cnt_nonneg v l) as Hc. pose proof (refs_nonneg s v Hok) as Hn0.
  assert (0 < refs s1 v) as Hp by lia. destruct (refs_Some _ _ Hp) as (n & Hn & Hrn).
  destruct (Hok1 _ _ Hn) as (? & ? & ? & ? & ?). unfold vnode_decref.
  rewrite (proj2 (Z.eqb_neq _ 0)) by done. rewrite Hn. cbn [negb kassert deref mbind res_bind].
  rewrite (proj2 (Z.ltb_lt 0 _)) by lia. cbn [kassert mbind res_bind].
  destruct (Z.ltb_spec 1 n.(vn_refcount)).
  - eexists. split; [done|]. split.
    { intros w m. cbn [set_vnodes vnodes]. intros [[<- <-]|[? ?]]%lookup_insert_Some; [cbn; split_and!; done || lia|by apply (Hok1 w)]. }
    split; [done|]. split.
    + intros w a b Hw0 Ha. cbn [set_vnodes vnodes]. intros [[<- <-]|[? ?]]%lookup_insert_Some; [|by apply (Hf w)].
      exact (Hf v a n Hw0 Ha Hn).
    + intros w. rewrite refs_insert. specialize (Hw w). rewrite cnt_cons in Hw.
      case_decide; [subst w; cbn [vn_refcount]|]; lia.
  - rewrite check_correct by done. cbn [mbind res_bind].
    destruct (law_reclaim s1 v Hok1) as (e & s2 & -> & Hok2 & (E1 & E2 & E3 & E4 & E5 & E6) & Ho & Hv2); [lia|].
    cbn [mbind res_bind]. exists s2. split; [done|]. split; [done|]. split; [|split].
    + destruct Hr as (? & ? & ? & ? & Hl). split_and!; try (congruence || lia). intros fs Hfs. by apply E6, Hl.
    + intros w a b Hw0 Ha Hb. assert (0 < refs s1 w) as Hl1.
      { specialize (Hw w). pose proof (cnt_nonneg w (v :: l)). lia. }
      destruct (refs_Some _ _ Hl1) as (m & Hm & _). apply (same_vnode_trans _ s1 _ _ m); [by apply (Hf w)|by apply (E5 w)].
    + intros w. specialize (Hw w). rewrite cnt_cons in Hw. case_decide; [subst w; lia|]. rewrite Ho by done. lia.
Qed.

Lemma owes_acquire d s l s1 : owes d s l s1 → owes (d + 1) s l (vfs_biglock_acquire s1).
Proof.
  intros ((? & ? & ? & ? & ?) & Hf & Hw). split; [|by split].
  cbn [vfs_biglock_acquire set_depth knowndevs bootfs_vnode vfs_biglock_depth p_cwd fsys]. split_and!; done || lia.
Qed.

Lemma owes_release d s l s1 : owes (d + 1) s l s1 → 0 ≤ d → 0 ≤ s.(vfs_biglock_depth) → vnodes_ok s1 →
  ∃ s2, vfs_biglock_release s1 = Ret s2 ∧ vnodes_ok s2 ∧ owes d s l s2.
Proof.
  intros ((E1 & E2 & E3 & E4 & E5) & Hf & Hw) Hd H0 Hok. unfold vfs_biglock_release.
  rewrite (proj2 (Z.ltb_lt _ _)) by lia. cbn [kassert mbind res_bind]. eexists. split; [done|]. split; [done|].
  split; [|by split]. cbn [set_depth knowndevs bootfs_vnode vfs_biglock_depth p_cwd fsys]. split_and!; done || lia.
Qed.

(** A vnode that has references before or is owed one can be used. *)
Lemma owes_live d s l s1 v : vnodes_ok s → owes d s l s1 → 0 < refs s v ∨ v ∈ l → 0 < refs s1 v.
Proof.
  intros Hok Ho Hv. pose proof (owes_le _ _ _ _ v Ho Hok). pose proof (refs_nonneg s v Hok). pose proof (cnt_nonneg v l).
  destruct Hv as [|Hv]; [lia|]. apply cnt_elem in Hv. lia.
Qed.

Definition holding (d : Z) s (l : list Z) s' : Prop := vnodes_ok s' ∧ owes d s l s'.

(** The outcome of an operation that hands back a vnode. *)
Definition gift (d : Z) s (l : list Z) (e v : Z) s' : Prop :=
  if e =? 0 then v ≠ 0 ∧ holding d s (v :: l) s' else holding d s l s'.

Lemma holding_gives d s l s1 e v s2 : vfs_ok s → holding d s l s1 → vnodes_ok s2 →
  (if e =? 0 then gives s1 s2 v else quiet s1 s2) → gift d s l e v s2.
Proof.
  intros [Hok _ _ _ _] [_ Ho] Hok2 Hg. unfold gift. case_cmp.
  - split; [by apply Hg|]. split; [done|]. by apply (owes_gives _ _ _ s1).
  - split; [done|]. by apply (owes_quiet _ _ _ s1).
Qed.

Lemma holding_incref d s l s1 v : vfs_ok s → holding d s l s1 → 0 < refs s v →
  ∃ s2, vnode_incref s1 v = Ret s2 ∧ gift d s l 0 v s2.
Proof.
  intros Hs [Hok1 Ho] Hv. destruct (incref_correct s1 v Hok1) as (s2 & -> & Hok2 & Hg & _).
  { apply (owes_live _ _ _ _ _ (ok_vnodes _ Hs) Ho). by left. }
  exists s2. split; [done|]. by apply (holding_gives _ _ _ s1 0).
Qed.

Lemma holding_rest d s l s1 : holding d s l s1 →
  s1.(knowndevs) = s.(knowndevs) ∧ s1.(bootfs_vnode) = s.(bootfs_vnode) ∧ s1.(p_cwd) = s.(p_cwd) ∧
  s1.(vfs_biglock_depth) = s.(vfs_biglock_depth) + d.
Proof. intros [_ ((? & ? & ? & ? & ?) & _)]. done. Qed.

Lemma holding_fs d s l s1 fs : holding d s l s1 → fs_live s.(fsys) fs → fs_live s1.(fsys) fs.
Proof. intros [_ ((_ & _ & _ & _ & ?) & _)]. auto. Qed.

Lemma getcurdir_correct d s l s1 : vfs_ok s → holding d s l s1 →
  ∃ e v s2, vfs_getcurdir s1 = Ret (e, v, s2) ∧ gift d s l e v s2 ∧ (e = 0 → v = s.(p_cwd)).
Proof.
  intros Hs Hh. destruct (holding_rest _ _ _ _ Hh) as (_ & _ & Ec & _). unfold vfs_getcurdir. rewrite Ec.
  destruct (Z.eqb_spec s.(p_cwd) 0) as [E|E]; cbn [negb].
  - eexists _, _, _. split; [done|]. by split.
  - destruct (ok_cwd _ Hs E) as (n & Hn & _).
    destruct (holding_incref d s l s1 s.(p_cwd) Hs Hh) as (s2 & -> & Hg).
    { unfold refs. rewrite Hn. by apply (ok_vnodes _ Hs _ _ Hn). }
    cbn [mbind res_bind]. assert (s2.(p_cwd) = s.(p_cwd)) as -> by (by destruct Hg as [_ [_ ((_ & _ & _ & ? & _) & _)]]).
    eexists _, _, _. split; [done|]. by split.
Qed.

(** What [vfs_getroot] returns holds a reference. *)
Lemma getroot_loop_correct d s l s1 kds devname n : vfs_ok s → holding d s l s1 → Forall (λ kd, kd_ok s kd ∧ 0 < refs s kd.(kd_vnode)) kds →
  cstr devname 0 n → ∃ e v s2, getroot_loop s1 kds devname = Ret (e, v, s2) ∧ gift d s l e v s2.
Proof.
  intros Hs Hh Hk Hd. induction Hk as [|kd kds [[Hlive Hdev Hsw [m Hm] Hraw] Hv] _ IH]; cbn [getroot_loop].
  { eexists _, _, _. by split. }
  rewrite (streq_correct _ _ _ _ Hm Hd). cbn [mbind res_bind].
  assert (kd.(kd_device) ≠ 0 → ∃ e v s2, (_ ← kassert (negb (kd.(kd_device) =? 0));
    s ← vnode_incref s1 kd.(kd_vnode); Ret (0, kd.(kd_vnode), s)) = Ret (e, v, s2) ∧ gift d s l e v s2) as Huse.
  { intros Hne. rewrite (proj2 (Z.eqb_neq _ _)) by done. cbn [negb kassert mbind res_bind].
    destruct (holding_incref d s l s1 _ Hs Hh Hv) as (s2 & -> & Hg). cbn [mbind res_bind]. eexists _, _, _. by split. }
  assert (∃ x, (match kd.(kd_rawname) with None => Ret false | Some r => streq r devname end) = Ret x ∧
    (x = true → kd.(kd_rawname) ≠ None)) as (raw & Hrw & Hrn).
  { destruct (streq_opt kd.(kd_rawname) devname n Hraw Hd) as [x Hx]. exists x. split; [done|]. intros ->.
    by destruct (kd_rawname kd). }
  rewrite Hrw. destruct (has_fs kd) eqn:Hfs.
  - assert (fs_live s1.(fsys) kd.(kd_fs)) as Hl1 by (apply (holding_fs _ _ _ _ _ Hh); by apply Hlive).
    destruct (streq_opt (fsop_getvolname s1 kd.(kd_fs)) devname n) as [vol ->]; [intros a; by apply law_volname_string|done|].
    cbn [mbind res_bind]. destruct (bool_decide (m = n) || vol) eqn:Hor.
    + destruct (law_root s1 kd.(kd_fs)) as (e & v & s2 & -> & Hok2 & Hg); [by destruct Hh|done|].
      eexists _, _, _. split; [done|]. by apply (holding_gives _ _ _ s1).
    + apply orb_false_iff in Hor as [-> _]. destruct raw; [|done]. apply Huse. apply Hdev. right. by apply Hrn.
  - destruct (bool_decide (kd.(kd_rawname) = None)) eqn:Hno; cbn [negb andb].
    + apply bool_decide_eq_true in Hno. destruct (bool_decide (m = n)); cbn [mbind res_bind].
      * assert (kd.(kd_fs) = 0) as ->.
        { unfold has_fs in Hfs. destruct (Z.eqb_spec kd.(kd_fs) 0); [done|]. cbn in Hfs.
          destruct (Z.eqb_spec kd.(kd_fs) SWAP_FS) as [E|]; [|done]. by apply Hsw in E. }
        cbn [Z.eqb kassert mbind res_bind]. apply Huse. apply Hdev. by left.
      * destruct raw; [|done]. by specialize (Hrn eq_refl).
    + destruct (bool_decide (m = n)); [eexists _, _, _; by split|]. cbn [mbind res_bind].
      destruct raw; [|done]. apply Huse. apply Hdev. by left.
Qed.

Lemma first_mark_correct fuel path i p : cstr path i p → (length p < fuel)%nat →
  first_mark fuel path i = Ret (match list_find is_mark p with
    | None => (-1, -1)
    | Some (k, c) => if c =? chr ":" then (-1, i + Z.of_nat k) else (i + Z.of_nat k, -1)
    end).
Proof.
  revert i p. induction fuel as [|fuel IH]; intros i p Hp Hf; [lia|]. cbn [first_mark].
  destruct p as [|c p].
  - rewrite (cstr_nil _ _ Hp). done.
  - apply cstr_cons in Hp as (Hc & -> & Hp). cbn [mbind res_bind]. cbn [list_find].
    rewrite (proj2 (Z.eqb_neq c 0)) by lia. cbn [length] in Hf.
    destruct (Z.eqb_spec c (chr ":")) as [->|Hn1].
    { rewrite decide_True by (by left). rewrite Z.eqb_refl. do 2 f_equal. cbn. lia. }
    destruct (Z.eqb_spec c (chr "/")) as [->|Hn2].
    { rewrite decide_True by (by right). do 2 f_equal. cbn. lia. }
    rewrite decide_False by (intros [?|?]; done). rewrite (IH _ p) by (done || lia).
    destruct (list_find is_mark p) as [[k c']|]; cbn; [|done].
    destruct (c' =? chr ":"); do 2 f_equal; lia.
Qed.

Lemma skip_slashes_correct fuel path i p : cstr path (i + 1) p → (length p < fuel)%nat →
  ∃ j, skip_slashes fuel path i = Ret j ∧ cstr path (j + 1) (unslash p).
Proof.
  revert i p. induction fuel as [|fuel IH]; intros i p Hp Hf; [lia|]. cbn [skip_slashes].
  destruct p as [|c p].
  - rewrite (cstr_nil _ _ Hp). exists i. by split.
  - pose proof Hp as (_ & -> & Hp')%cstr_cons. cbn [mbind res_bind unslash]. cbn [length] in Hf. case_cmp.
    + apply IH; [done|lia].
    + exists i. by split.
Qed.

(** Writing a terminator cuts a string. *)
Lemma cstr_cut b (xs : list Z) c ys : cstr b 0 (xs ++ c :: ys) →
  ∃ b', b.[Z.of_nat (length xs) <- 0] = Ret b' ∧ cstr b' 0 xs ∧ cstr b' (Z.of_nat (length xs) + 1) ys.
Proof.
  intros Hs. pose proof (cstr_bound _ _ _ Hs) as Hb. rewrite length_app in Hb. cbn [length] in Hb.
  destruct Hs as (_ & Hl & F & rest & E). cbn in E. rewrite drop_0 in E. apply Forall_app in F as [F1 [_ F2]%Forall_cons].
  assert (b = xs ++ c :: ys ++ 0 :: rest) as -> by (by rewrite E, <-app_assoc).
  rewrite wr_in_range by lia. rewrite Nat2Z.id, insert_app_r_alt, Nat.sub_diag by lia.
  eexists. split; [done|]. cbn [insert list_insert]. rewrite !length_app in *. cbn [length] in *. split; split_and!; try lia; try done.
  - rewrite length_app. cbn [length]. lia.
  - by eexists.
  - rewrite length_app. cbn [length]. lia.
  - exists rest. rewrite cons_middle, app_assoc. apply drop_app_length'. rewrite length_app. cbn [length]. lia.
Qed.

(** The path is taken apart as [parse] says. *)
Lemma getdevice_eq s path p : 0 < s.(vfs_biglock_depth) → cstr path 0 p →
  ∃ r path' off off', begins s (parse p).1 r ∧ cstr path' off (parse p).2 ∧
    getdevice s path = ('(e, v, s') ← r; Ret (e, path', if e =? 0 then off else off', v, s')).
Proof.
  intros Hd Hp. unfold getdevice, parse, vfs_biglock_do_i_hold. rewrite (proj2 (Z.ltb_lt _ _)) by done.
  cbn [kassert mbind res_bind]. rewrite (first_mark_correct _ _ _ p Hp) by (by eapply cstr_fuel).
  cbn [mbind res_bind]. destruct (list_find is_mark p) as [[k c]|] eqn:Ef.
  2: { cbn [Z.ltb Z.compare andb negb Z.eqb fst snd begins]. eexists _, path, 0, 0. split; [done|]. split; [done|].
       destruct (vfs_getcurdir s) as [[[e v] s']| | |]; try done. cbn. by destruct (e =? 0). }
  apply list_find_Some in Ef as (Hk & Hmark & _).
  assert (p = take k p ++ c :: drop (k + 1) p) as Esp.
  { rewrite Nat.add_1_r. symmetry. by apply take_drop_middle. }
  assert (Z.of_nat (length (take k p)) = Z.of_nat k) as Ek.
  { apply lookup_lt_Some in Hk. rewrite length_take. lia. }
  destruct (Z.eqb_spec c (chr ":")) as [->|Hc].
  - rewrite Z.add_0_l. cbn [Z.ltb Z.compare Z.eqb negb]. rewrite (proj2 (Z.ltb_ge (Z.of_nat k) 0)) by lia. cbn [andb].
    case_decide as Hk0.
    + subst k. change (0 <? Z.of_nat 0) with false. cbv iota. cbn [fst snd begins]. change (Z.of_nat 0 =? 0) with true.
      cbn [orb kassert mbind res_bind]. rewrite Esp in Hp. pose proof Hp as (_ & -> & Hp')%cstr_cons. cbn [mbind res_bind].
      destruct (skip_slashes_correct (str_fuel path) path 0 (drop 1 p)) as (j & Hj & Hc).
      { exact Hp'. } { exact (cstr_fuel _ _ _ Hp'). }
      eexists _, path, (j + 1), 0. split; [done|]. split; [done|].
      destruct (start_root s (chr ":")) as [[[e v] s']| | |]; try done. cbn [mbind res_bind].
      destruct (e =? 0) eqn:Ee; cbn [negb]; [|done]. rewrite Hj. cbn [mbind res_bind]. apply Z.eqb_eq in Ee. by subst e.
    + rewrite (proj2 (Z.ltb_lt 0 _)) by lia. cbn [fst snd begins]. rewrite Esp in Hp.
      destruct (cstr_cut path _ _ _ Hp) as (b' & Hw & Hc1 & Hc2). rewrite Ek in Hw, Hc2. rewrite Hw. cbn [mbind res_bind].
      destruct (skip_slashes_correct (str_fuel b') b' (Z.of_nat k) (drop (k + 1) p)) as (j & -> & Hc); [done|by eapply cstr_fuel|].
      cbn [mbind res_bind]. eexists _, b', (j + 1), (j + 1). split; [by exists b'|]. split; [done|].
      destruct (vfs_getroot s b') as [[[e v] s']| | |]; try done. cbn. by destruct (e =? 0).
  - rewrite Z.add_0_l. cbn [Z.ltb Z.compare andb].
    destruct Hmark as [ | -> ]; [done|]. case_decide as Hk0.
    + subst k. cbn [Z.eqb negb fst snd begins]. change (Z.of_nat 0 =? 0) with true. cbn [negb orb kassert mbind res_bind].
      rewrite Esp in Hp. pose proof Hp as (_ & -> & Hp')%cstr_cons. cbn [mbind res_bind].
      destruct (skip_slashes_correct (str_fuel path) path 0 (drop 1 p)) as (j & Hj & Hcj).
      { exact Hp'. } { exact (cstr_fuel _ _ _ Hp'). }
      eexists _, path, (j + 1), 0. split; [done|]. split; [done|].
      destruct (start_root s (chr "/")) as [[[e v] s']| | |]; try done. cbn [mbind res_bind].
      destruct (e =? 0) eqn:Ee; cbn [negb]; [|done]. rewrite Hj. cbn [mbind res_bind]. apply Z.eqb_eq in Ee. by subst e.
    + rewrite (proj2 (Z.eqb_neq (Z.of_nat k) 0)) by lia. cbn [negb fst snd begins]. eexists _, path, 0, 0.
      split; [done|]. split; [done|]. destruct (vfs_getcurdir s) as [[[e v] s']| | |]; try done. cbn. by destruct (e =? 0).
Qed.

Lemma holding_decref d s l s1 v : vfs_ok s → holding d s (v :: l) s1 →
  ∃ s2, vnode_decref s1 v = Ret s2 ∧ holding d s l s2.
Proof. intros [Hok _ _ _ _] [Hok1 Ho]. by apply owes_decref. Qed.

Lemma holding_release d s l s1 : vfs_ok s → 0 ≤ d → holding (d + 1) s l s1 →
  ∃ s2, vfs_biglock_release s1 = Ret s2 ∧ holding d s l s2.
Proof. intros [_ H0 _ _ _] Hd [Hok1 Ho]. by apply owes_release. Qed.

Lemma holding_acquire d s l s1 : holding d s l s1 → holding (d + 1) s l (vfs_biglock_acquire s1).
Proof. intros [Hok1 Ho]. split; [done|]. by apply owes_acquire. Qed.

Lemma holding_live d s l s1 v : vfs_ok s → holding d s l s1 → v ∈ l → vnodes_ok s1 ∧ 0 < refs s1 v.
Proof. intros [Hok _ _ _ _] [Hok1 Ho] Hv. split; [done|]. apply (owes_live _ _ _ _ _ Hok Ho). by right. Qed.

Lemma holding_check d s l s1 v : vfs_ok s → holding d s l s1 → v ∈ l → vnode_check s1 v = Ret tt.
Proof. intros Hs Hh Hv. destruct (holding_live _ _ _ _ _ Hs Hh Hv). by apply check_correct. Qed.

Lemma holding_quiet d s l s1 s2 : vfs_ok s → holding d s l s1 → vnodes_ok s2 → quiet s1 s2 → holding d s l s2.
Proof. intros [Hok _ _ _ _] [_ Ho] Hok2 Hq. split; [done|]. by apply (owes_quiet _ _ _ s1). Qed.

Lemma holding_swap d s v w l s1 : holding d s (v :: w :: l) s1 → holding d s (w :: v :: l) s1.
Proof.
  intros [? (? & ? & Hw)]. split; [done|]. split; [done|]. split; [done|]. intros x. specialize (Hw x).
  rewrite !cnt_cons in *. lia.
Qed.

Lemma start_root_correct d s l s1 c : vfs_ok s → holding d s l s1 → is_mark c →
  ∃ e v s2, start_root s1 c = Ret (e, v, s2) ∧ gift d s l e v s2.
Proof.
  intros Hs Hh Hc. unfold start_root. destruct (holding_rest _ _ _ _ Hh) as (_ & Eb & _ & _). case_cmp.
  - rewrite Eb. case_cmp; [eexists _, _, _; by split|].
    destruct (holding_incref d s l s1 s.(bootfs_vnode) Hs Hh) as (s2 & -> & Hg); [by apply bootfs_live|].
    cbn [mbind res_bind]. assert (s2.(bootfs_vnode) = s.(bootfs_vnode)) as -> by (by destruct Hg as [_ [_ ((_ & ? & _) & _)]]).
    eexists _, _, _. by split.
  - destruct Hc as [->|]; [|done]. rewrite Z.eqb_refl. cbn [kassert mbind res_bind].
    destruct (getcurdir_correct d s l s1 Hs Hh) as (e & v & s2 & -> & Hg & Hv). cbn [mbind res_bind].
    unfold gift in Hg. destruct (Z.eqb_spec e 0) as [->|He]; cbn [negb].
    2: { eexists _, _, _. split; [done|]. unfold gift. by rewrite (proj2 (Z.eqb_neq _ _)). }
    destruct Hg as [Hv0 Hh2]. specialize (Hv eq_refl). subst v.
    destruct (ok_cwd _ Hs Hv0) as (nd & Hn & Hfs & Hlive).
    assert (0 < refs s s.(p_cwd)) as Hp by (unfold refs; rewrite Hn; by apply (ok_vnodes _ Hs _ _ Hn)).
    destruct (holding_live _ _ _ _ s.(p_cwd) Hs Hh2) as [Hok2 Hl2]; [by left|].
    destruct (refs_Some _ _ Hl2) as (n2 & Hn2 & _). rewrite Hn2. cbn [deref mbind res_bind].
    assert (n2.(vn_fs) = nd.(vn_fs)) as -> by (destruct Hh2 as [_ (_ & Hf & _)]; by eapply (Hf s.(p_cwd))).
    rewrite (proj2 (Z.eqb_neq _ _)) by done. cbn [negb kassert mbind res_bind].
    destruct (law_root s2 nd.(vn_fs) Hok2) as (e & v & s3 & -> & Hok3 & Hg); [by apply (holding_fs _ _ _ _ _ Hh2)|]. cbn [mbind res_bind].
    pose proof (holding_gives _ _ _ _ e v s3 Hs Hh2 Hok3 Hg) as Hg3. unfold gift in Hg3 |- *.
    destruct (e =? 0) eqn:Ee.
    + destruct Hg3 as [Hv3 Hh3].
      apply holding_swap in Hh3. destruct (holding_decref _ _ _ _ _ Hs Hh3) as (s4 & -> & Hh4). cbn [mbind res_bind].
      eexists _, _, _. split; [done|]. by rewrite Ee.
    + destruct (holding_decref _ _ _ _ _ Hs Hg3) as (s4 & -> & Hh4). cbn [mbind res_bind].
      eexists _, _, _. split; [done|]. by rewrite Ee.
Qed.

Lemma begins_correct d s l s1 b r : vfs_ok s → holding d s l s1 → 1 ≤ d → begins s1 b r →
  ∃ e v s2, r = Ret (e, v, s2) ∧ gift d s l e v s2.
Proof.
  intros Hs Hh Hd. destruct (holding_rest _ _ _ _ Hh) as (Ek & _ & _ & Ed). pose proof (ok_depth _ Hs).
  destruct b as [| | |name]; cbn [begins].
  - intros ->. destruct (getcurdir_correct d s l s1 Hs Hh) as (e & v & s2 & -> & Hg & _). eexists _, _, _. by split.
  - intros ->. apply start_root_correct; [done|done|by right].
  - intros ->. apply start_root_correct; [done|done|by left].
  - intros (dev & Hdev & ->). unfold vfs_getroot, vfs_biglock_do_i_hold. rewrite (proj2 (Z.ltb_lt _ _)) by lia.
    cbn [kassert mbind res_bind]. rewrite Ek. apply (getroot_loop_correct _ _ _ _ _ _ name); [done|done|by apply devices_ok|done].
Qed.

Lemma getdevice_correct d s l s1 path p : vfs_ok s → holding d s l s1 → 1 ≤ d → cstr path 0 p →
  ∃ e path' off v s2, getdevice s1 path = Ret (e, path', off, v, s2) ∧ gift d s l e v s2 ∧
    (e = 0 → cstr path' off (parse p).2).
Proof.
  intros Hs Hh Hd Hp. destruct (holding_rest _ _ _ _ Hh) as (_ & _ & _ & Ed). pose proof (ok_depth _ Hs).
  destruct (getdevice_eq s1 path p) as (r & path' & off & off' & Hb & Hc & ->); [lia|done|].
  destruct (begins_correct _ _ _ _ _ _ Hs Hh Hd Hb) as (e & v & s2 & -> & Hg). cbn [mbind res_bind].
  eexists _, _, _, _, _. split; [done|]. split; [done|]. by intros ->.
Qed.

Lemma cstr_drop b p x : cstr b p x → is_str (drop (Z.to_nat p) b).
Proof.
  intros (? & ? & ? & rest & E). exists x. split_and!; [done|rewrite length_drop; lia|done|by exists rest].
Qed.

(** A vnode stays in its file system. *)
Lemma decref_fs s v s' w a b : vnodes_ok s → 0 < refs s v → vnode_decref s v = Ret s' →
  s.(vnodes) !! w = Some a → s'.(vnodes) !! w = Some b → same_vnode s a s' b ∧
  ∀ fs, fs_live s.(fsys) fs → fs_live s'.(fsys) fs.
Proof.
  intros Hok Hv. unfold vnode_decref. destruct (refs_Some _ _ Hv) as (nd & Hn & Hr). destruct (Hok _ _ Hn) as (? & ? & ? & ? & ?).
  rewrite (proj2 (Z.eqb_neq _ 0)) by done. rewrite Hn. cbn [negb kassert deref mbind res_bind].
  rewrite (proj2 (Z.ltb_lt 0 _)) by lia. cbn [kassert mbind res_bind].
  destruct (Z.ltb_spec 1 nd.(vn_refcount)).
  - intros [= <-] Ha. cbn [set_vnodes vnodes fsys]. intros [[<- <-]|[_ Hb]]%lookup_insert_Some; by simplify_eq.
  - rewrite check_correct by done. cbn [mbind res_bind].
    destruct (law_reclaim s v Hok) as (e & s2 & -> & _ & (_ & _ & _ & _ & E5 & E6) & _); [lia|]. cbn [mbind res_bind].
    intros [= <-] Ha Hb. split; [by apply (E5 w)|done].
Qed.

Lemma decref_dir s v s' w : vnodes_ok s → 0 < refs s v → vnode_decref s v = Ret s' → 0 < refs s' w → is_dir s w → is_dir s' w.
Proof.
  intros Hok Hv E Hw (a & Ha & Hd). destruct (refs_Some _ _ Hw) as (b & Hb & _). exists b. split; [done|].
  destruct (decref_fs s v s' w a b Hok Hv E Ha Hb) as [[_ Hs] _]. by apply Hs.
Qed.

Lemma lookparent_correct s l s1 path p buflen : vfs_ok s → holding 0 s l s1 → cstr path 0 p →
  ∃ e v name s2, vfs_lookparent s1 path buflen = Ret (e, v, name, s2) ∧ gift 0 s l e v s2 ∧ (e = 0 → is_str name ∧ is_dir s2 v).
Proof.
  intros Hs Hh Hp. unfold vfs_lookparent.
  destruct (getdevice_correct (0 + 1) s l (vfs_biglock_acquire s1) path p) as (e & path' & off & v & s2 & -> & Hg & Hc);
    [done|by apply holding_acquire|done|done|]. cbn [mbind res_bind]. unfold gift in Hg.
  destruct (Z.eqb_spec e 0) as [->|He]; cbn [negb].
  2: { destruct (holding_release 0 s l s2) as (s3 & -> & Hh3); [done..|]. cbn [mbind res_bind].
       eexists _, _, _, _. split; [done|]. unfold gift. by rewrite (proj2 (Z.eqb_neq _ _)). }
  destruct Hg as [Hv Hh2]. pose proof (cstr_drop _ _ _ (Hc eq_refl)) as Hstr. rewrite (strlen_correct _ _ _ (Hc eq_refl)). cbn [mbind res_bind].
  assert (∃ e' v' name s3, (if Z.of_nat (length (parse p).2) =? 0 then Ret (EINVAL, 0, [], s2)
    else _ ← vnode_check s2 v; vop_lookparent s2 v (drop (Z.to_nat off) path') buflen) = Ret (e', v', name, s3) ∧
    (if e' =? 0 then v' ≠ 0 ∧ holding (0 + 1) s (v :: v' :: l) s3 else holding (0 + 1) s (v :: l) s3) ∧
    (e' = 0 → is_str name ∧ is_dir s3 v')) as (e' & v' & name & s3 & -> & H3 & Hnm).
  { case_cmp; [eexists _, _, _, _; by split|]. rewrite (holding_check _ _ _ _ v Hs Hh2) by (by left). cbn [mbind res_bind].
    destruct (holding_live _ _ _ _ v Hs Hh2) as [Hok2 Hl2]; [by left|].
    destruct (law_gives s2 v Hok2 Hl2) as (_ & Hlp & _).
    destruct (Hlp (drop (Z.to_nat off) path') buflen Hstr) as (e' & v' & name & s3 & -> & Hok3 & Hnm & Hg3).
    eexists _, _, _, _. split; [done|]. split; [|done]. pose proof (holding_gives _ _ _ _ e' v' s3 Hs Hh2 Hok3 Hg3) as Hg.
    unfold gift in Hg. destruct (e' =? 0); [|done]. destruct Hg as [? ?]. split; [done|].
    by apply holding_swap. }
  cbn [mbind res_bind]. unfold gift. destruct (e' =? 0) eqn:Ee.
  - destruct H3 as [Hv' H3]. destruct (holding_decref _ _ _ _ _ Hs H3) as (s4 & E4 & H4). rewrite E4. cbn [mbind res_bind].
    destruct (holding_release 0 s (v' :: l) s4) as (s5 & E5 & H5); [done..|]. rewrite E5. cbn [mbind res_bind].
    eexists _, _, _, _. split; [done|]. rewrite Ee. split; [done|]. intros He'. destruct (Hnm He') as [Hn Hd]. split; [done|].
    unfold vfs_biglock_release in E5. res_inv. destruct (holding_live _ _ _ _ v Hs H3) as [Hok3 Hl3]; [by left|].
    apply (decref_dir s3 v s4 v' Hok3 Hl3 E4); [|done]. apply (holding_live _ _ _ _ v' Hs H4). by left.
  - destruct (holding_decref _ _ _ _ _ Hs H3) as (s4 & -> & H4). cbn [mbind res_bind].
    destruct (holding_release 0 s l s4) as (s5 & -> & H5); [done..|]. cbn [mbind res_bind].
    eexists _, _, _, _. split; [done|]. rewrite Ee. split; [done|]. intros ->. done.
Qed.

Lemma vfs_lookup_correct s l s1 path p : vfs_ok s → holding 0 s l s1 → cstr path 0 p →
  ∃ e v s2, vfs_lookup s1 path = Ret (e, v, s2) ∧ gift 0 s l e v s2.
Proof.
  intros Hs Hh Hp. unfold vfs_lookup.
  destruct (getdevice_correct (0 + 1) s l (vfs_biglock_acquire s1) path p) as (e & path' & off & v & s2 & -> & Hg & Hc);
    [done|by apply holding_acquire|done|done|]. cbn [mbind res_bind]. unfold gift in Hg.
  destruct (Z.eqb_spec e 0) as [->|He]; cbn [negb].
  2: { destruct (holding_release 0 s l s2) as (s3 & -> & Hh3); [done..|]. cbn [mbind res_bind].
       eexists _, _, _. split; [done|]. unfold gift. by rewrite (proj2 (Z.eqb_neq _ _)). }
  destruct Hg as [Hv Hh2]. rewrite (strlen_correct _ _ _ (Hc eq_refl)). cbn [mbind res_bind]. case_cmp.
  { destruct (holding_release 0 s (v :: l) s2) as (s3 & -> & Hh3); [done..|]. cbn [mbind res_bind].
    eexists _, _, _. by split. }
  rewrite (holding_check _ _ _ _ v Hs Hh2) by (by left). cbn [mbind res_bind].
  destruct (holding_live _ _ _ _ v Hs Hh2) as [Hok2 Hl2]; [by left|].
  destruct (law_gives s2 v Hok2 Hl2) as (Hlk & _ & _).
  destruct (Hlk (drop (Z.to_nat off) path') (cstr_drop _ _ _ (Hc eq_refl))) as (e' & v' & s3 & -> & Hok3 & Hg3). cbn [mbind res_bind].
  pose proof (holding_gives _ _ _ _ e' v' s3 Hs Hh2 Hok3 Hg3) as Hg. unfold gift in Hg |- *. destruct (e' =? 0) eqn:Ee.
  - destruct Hg as [Hv' H3]. apply holding_swap in H3.
    destruct (holding_decref _ _ _ _ _ Hs H3) as (s4 & -> & H4). cbn [mbind res_bind].
    destruct (holding_release 0 s (v' :: l) s4) as (s5 & -> & H5); [done..|]. cbn [mbind res_bind].
    eexists _, _, _. split; [done|]. by rewrite Ee.
  - destruct (holding_decref _ _ _ _ _ Hs Hg) as (s4 & -> & H4). cbn [mbind res_bind].
    destruct (holding_release 0 s l s4) as (s5 & -> & H5); [done..|]. cbn [mbind res_bind].
    eexists _, _, _. split; [done|]. by rewrite Ee.
Qed.

Lemma decref_with_correct d s l s1 v e : vfs_ok s → holding d s (v :: l) s1 →
  ∃ s2, decref_with s1 v e = Ret (e, s2) ∧ holding d s l s2.
Proof.
  intros Hs Hh. destruct (holding_decref _ _ _ _ _ Hs Hh) as (s2 & E & Hh2). exists s2. unfold decref_with.
  by rewrite E.
Qed.

(** The operations on a directory and a name in it. *)
Lemma in_parent_correct s path p op : vfs_ok s → cstr path 0 p →
  (∀ s1 d n, vnodes_ok s1 → 0 < refs s1 d → is_str n → ∃ e s2, op s1 d n = Ret (e, s2) ∧ vnodes_ok s2 ∧ quiet s1 s2) →
  ∃ e s', in_parent s path op = Ret (e, s') ∧ holding 0 s [] s'.
Proof.
  intros Hs Hp Hop. unfold in_parent.
  assert (holding 0 s [] s) as H0 by (split; [apply (ok_vnodes _ Hs)|apply owes_refl]).
  destruct (lookparent_correct s [] s path p (NAME_MAX + 1) Hs H0 Hp) as (e & v & name & s1 & -> & Hg & Hnm). cbn [mbind res_bind].
  unfold gift in Hg. destruct (Z.eqb_spec e 0) as [->|]; cbn [negb]; [|eexists _, _; by split]. destruct Hg as [Hv Hh1].
  rewrite (holding_check _ _ _ _ v Hs Hh1) by (by left). cbn [mbind res_bind].
  destruct (holding_live _ _ _ _ v Hs Hh1) as [Hok1 Hl1]; [by left|].
  destruct (Hop s1 v name Hok1 Hl1 (proj1 (Hnm eq_refl))) as (e' & s2 & -> & Hok2 & Hq). cbn [mbind res_bind].
  destruct (decref_with_correct 0 s [] s2 v e') as (s3 & -> & H3); [done|by apply (holding_quiet _ _ _ s1)|].
  eexists _, _. by split.
Qed.

Lemma open_vnode_correct s s1 path p flags mode : vfs_ok s → holding 0 s [] s1 → cstr path 0 p →
  ∃ e v s2, open_vnode s1 path flags mode = Ret (e, v, s2) ∧ gift 0 s [] e v s2.
Proof.
  unfold open_vnode.
  intros Hs H0 Hp. destruct (negb _); [|by apply (vfs_lookup_correct s [] s1 path p)]. cbv zeta.
  destruct (lookparent_correct s [] s1 path p (NAME_MAX + 1) Hs H0 Hp) as (e & v & name & s2 & -> & Hg & Hnm). cbn [mbind res_bind].
  unfold gift in Hg. destruct (Z.eqb_spec e 0) as [->|]; cbn [negb].
  2: { eexists _, _, _. split; [done|]. unfold gift. by rewrite (proj2 (Z.eqb_neq _ _)). }
  destruct Hg as [Hv Hh1]. rewrite (holding_check _ _ _ _ v Hs Hh1) by (by left). cbn [mbind res_bind].
  destruct (holding_live _ _ _ _ v Hs Hh1) as [Hok1 Hl1]; [by left|].
  destruct (law_gives s2 v Hok1 Hl1) as (_ & _ & Hcr).
  destruct (Hcr name (negb (Z.land flags O_EXCL =? 0)) mode (proj1 (Hnm eq_refl))) as (e' & v' & s3 & -> & Hok3 & Hg3). cbn [mbind res_bind].
  pose proof (holding_gives _ _ _ _ e' v' s3 Hs Hh1 Hok3 Hg3) as Hg. unfold gift in Hg |- *. destruct (e' =? 0) eqn:Ee'.
  - destruct Hg as [Hv' H3]. apply holding_swap in H3.
    destruct (holding_decref _ _ _ _ _ Hs H3) as (s4 & -> & H4). cbn [mbind res_bind].
    eexists _, _, _. split; [done|]. by rewrite Ee'.
  - destruct (holding_decref _ _ _ _ _ Hs Hg) as (s4 & -> & H4). cbn [mbind res_bind].
    eexists _, _, _. split; [done|]. by rewrite Ee'.
Qed.

Lemma open_trunc_correct s l s1 v flags c : vfs_ok s → holding 0 s l s1 → v ∈ l →
  ∃ e s2, open_trunc s1 v flags c = Ret (e, s2) ∧ holding 0 s l s2.
Proof.
  intros Hs Hh Hv. unfold open_trunc. destruct (negb _); [|by eexists _, _]. destruct (negb c); [by eexists _, _|].
  rewrite (holding_check _ _ _ _ v Hs Hh Hv). cbn [mbind res_bind].
  destruct (holding_live _ _ _ _ v Hs Hh Hv) as [Hok Hl].
  destruct (law_quiet s1 v Hok Hl) as (_ & Htr & _). destruct (Htr 0) as (e3 & s3 & -> & Hok3 & Hq3).
  eexists _, _. split; [done|]. by apply (holding_quiet _ _ _ s1).
Qed.

(** An open file is one more reference to its vnode. *)
Lemma open_correct s path p flags mode : vfs_ok s → cstr path 0 p →
  ∃ e v s', vfs_open s path flags mode = Ret (e, v, s') ∧ gift 0 s [] e v s'.
Proof.
  intros Hs Hp. unfold vfs_open. destruct (negb (_ || _)); [eexists _, _, _; split; [done|]|].
  { split; [apply (ok_vnodes _ Hs)|apply owes_refl]. }
  assert (holding 0 s [] s) as H0 by (split; [apply (ok_vnodes _ Hs)|apply owes_refl]).
  destruct (open_vnode_correct s s path p flags mode Hs H0 Hp) as (e & v & s1 & -> & Hg). cbn [mbind res_bind].
  unfold gift in Hg. destruct (e =? 0) eqn:Ee; cbn [negb].
  2: { eexists _, _, _. split; [done|]. unfold gift. by rewrite Ee. }
  destruct Hg as [Hv Hh1]. rewrite (proj2 (Z.eqb_neq v 0)) by done. cbn [negb kassert mbind res_bind].
  rewrite (holding_check _ _ _ _ v Hs Hh1) by (by left). cbn [mbind res_bind].
  destruct (holding_live _ _ _ _ v Hs Hh1) as [Hok1 Hl1]; [by left|].
  destruct (law_quiet s1 v Hok1 Hl1) as (Heo & _). destruct (Heo flags) as (e2 & s2 & -> & Hok2 & Hq2). cbn [mbind res_bind].
  pose proof (holding_quiet _ _ _ _ _ Hs Hh1 Hok2 Hq2) as Hh2.
  assert (∀ e' s3, e' ≠ 0 → holding 0 s [v] s3 → ∃ e v' s', ('(result, s) ← decref_with s3 v e'; Ret (result, 0, s)) = Ret (e, v', s') ∧
    gift 0 s [] e v' s') as Hfail.
  { intros e' s3 He' Hh3. destruct (decref_with_correct 0 s [] s3 v e' Hs Hh3) as (s4 & -> & H4). cbn [mbind res_bind].
    eexists _, _, _. split; [done|]. unfold gift. by rewrite (proj2 (Z.eqb_neq _ _)). }
  destruct (Z.eqb_spec e2 0) as [->|He2]; cbn [negb]; [|by apply Hfail].
  destruct (open_trunc_correct s [v] s2 v flags (negb (Z.land flags O_ACCMODE =? O_RDONLY)) Hs Hh2) as (e3 & s3 & -> & Hh3);
    [by left|].
  cbn [mbind res_bind]. destruct (Z.eqb_spec e3 0) as [->|He3]; cbn [negb]; [|by apply Hfail].
  eexists _, _, _. split; [done|]. by split.
Qed.

Lemma holding_keeps_ok s l s' : vfs_ok s → holding 0 s l s' → vfs_ok s'.
Proof.
  intros Hs [Hok' Ho]. pose proof Ho as ((E1 & E2 & E3 & E4 & E5) & Hf & Hw). destruct Hs as [Hok Hd Hown Hcwd Hdev].
  constructor.
  - done.
  - lia.
  - intros w. unfold owned. rewrite E1, E2, E4. pose proof (owes_le _ _ _ _ w Ho Hok). pose proof (cnt_nonneg w l).
    specialize (Hown w). unfold owned in Hown. lia.
  - rewrite E4. intros Hne. destruct (Hcwd Hne) as (nd & Hn & Hfs & Hlive).
    assert (0 < refs s s.(p_cwd)) as Hp by (unfold refs; rewrite Hn; by apply (Hok _ _ Hn)).
    assert (0 < refs s' s.(p_cwd)) as Hp' by (apply (owes_live _ _ _ _ _ Hok Ho); by left).
    destruct (refs_Some _ _ Hp') as (n' & Hn' & _). exists n'. split; [done|]. destruct (Hf _ _ _ Hp Hn Hn') as [-> _]. auto.
  - rewrite E1. eapply Forall_impl; [exact Hdev|]. intros kd [? ? ? ? ?]. constructor; auto.
Qed.

Lemma other_fs_returns s v w : 0 < refs s v → 0 < refs s w → ∃ b, other_fs s v w = Ret b ∧ (b = false → same_fs s v w).
Proof.
  intros Hv Hw. destruct (refs_Some _ _ Hv) as (a & Ha & _). destruct (refs_Some _ _ Hw) as (b & Hb & _).
  unfold other_fs. rewrite Ha, Hb. eexists. split; [done|]. intros [[H1 H2]%orb_false_elim H3]%orb_false_elim.
  exists a, b. apply Z.eqb_neq in H1. apply negb_false_iff, Z.eqb_eq in H3. done.
Qed.

(** One operation after another. *)
Lemma holding_trans s l s1 l' s2 : vnodes_ok s → holding 0 s l s1 → holding 0 s1 l' s2 → holding 0 s (l' ++ l) s2.
Proof.
  intros Hok [Hok1 ((? & ? & ? & ? & Hl1) & Hf1 & Hw1)] [Hok2 ((? & ? & ? & ? & Hl2) & Hf2 & Hw2)]. split; [done|]. split; [|split].
  - split_and!; try (congruence || lia). auto.
  - intros w a c Hp Ha Hc. assert (0 < refs s1 w) as Hp1 by (pose proof (cnt_nonneg w l); specialize (Hw1 w); lia).
    destruct (refs_Some _ _ Hp1) as (b & Hb & _). apply (same_vnode_trans _ s1 _ _ b); [by apply (Hf1 w)|by apply (Hf2 w)].
  - intros w. rewrite cnt_app. specialize (Hw1 w). specialize (Hw2 w). pose proof (cnt_nonneg w l). pose proof (cnt_nonneg w l').
    pose proof (refs_nonneg s w Hok). lia.
Qed.

(** A directory in use stays one. *)
Lemma holding_dir s l s' w : holding 0 s l s' → 0 < refs s w → 0 < refs s' w → is_dir s w → is_dir s' w.
Proof.
  intros [_ (_ & Hf & _)] Hw Hw' (a & Ha & Hd). destruct (refs_Some _ _ Hw') as (b & Hb & _). exists b. split; [done|].
  by apply (Hf w a b Hw Ha Hb).
Qed.

Lemma ok_holding s : vfs_ok s → holding 0 s [] s.
Proof. intros Hs. split; [apply (ok_vnodes _ Hs)|apply owes_refl]. Qed.

(** Both references of an operation on two vnodes are given back. *)
Lemma drop_both s s1 v w e : vfs_ok s → holding 0 s [w; v] s1 →
  ∃ s2, (s ← vnode_decref s1 w; decref_with s v e) = Ret (e, s2) ∧ holding 0 s [] s2.
Proof.
  intros Hs Hh. destruct (holding_decref _ _ _ _ _ Hs Hh) as (s2 & -> & H2). cbn [mbind res_bind].
  by apply decref_with_correct.
Qed.

Lemma rename_correct s path p path' p' : vfs_ok s → cstr path 0 p → cstr path' 0 p' →
  ∃ e s', vfs_rename s path path' = Ret (e, s') ∧ holding 0 s [] s'.
Proof.
  intros Hs Hp Hp'. unfold vfs_rename.
  destruct (lookparent_correct s [] s path p (NAME_MAX + 1) Hs (ok_holding s Hs) Hp) as (e & v & name & s1 & -> & Hg & Hnm).
  cbn [mbind res_bind]. unfold gift in Hg. destruct (Z.eqb_spec e 0) as [->|]; cbn [negb]; [|by eexists _, _]. destruct Hg as [_ H1].
  pose proof (holding_keeps_ok _ _ _ Hs H1) as Hs1. pose proof (ok_vnodes _ Hs) as Hok.
  destruct (lookparent_correct s1 [] s1 path' p' (NAME_MAX + 1) Hs1 (ok_holding s1 Hs1) Hp') as (e' & w & name' & s2 & -> & Hg & Hnm').
  cbn [mbind res_bind]. unfold gift in Hg. destruct (Z.eqb_spec e' 0) as [->|]; cbn [negb].
  2: { destruct (decref_with_correct _ _ _ _ v e' Hs (holding_trans _ _ _ _ _ Hok H1 Hg)) as (s3 & E3 & H3). eexists _, _. by split. }
  destruct Hg as [_ H12]. pose proof (holding_trans _ _ _ _ _ Hok H1 H12) as H2. cbn [app] in H2.
  destruct (holding_live _ _ _ _ v Hs H2) as [Hok2 Hlv]; [by right; left|].
  destruct (holding_live _ _ _ _ w Hs H2) as [_ Hlw]; [by left|].
  destruct (other_fs_returns s2 v w Hlv Hlw) as (b & -> & Hsame). cbn [mbind res_bind].
  destruct b; [destruct (drop_both s s2 v w EXDEV Hs H2) as (s3 & E3 & H3); eexists _, _; by split|].
  rewrite (holding_check _ _ _ _ v Hs H2) by (by right; left). cbn [mbind res_bind].
  destruct (Hnm eq_refl) as [Hn Hd], (Hnm' eq_refl) as [Hn' Hd'].
  destruct (law_dir s2 v name Hok2 Hlv Hn) as (_ & _ & _ & _ & _ & Hre).
  assert (is_dir s2 v) as Hd2.
  { apply (holding_dir s1 [w] s2 v H12); [|done|done]. apply (holding_live _ _ _ _ v Hs H1). by left. }
  destruct (Hre w name' Hlw Hn' Hd2 Hd' (Hsame eq_refl)) as (e3 & s3 & -> & Hok3 & Hq). cbn [mbind res_bind].
  destruct (drop_both s s3 v w e3 Hs) as (s4 & E4 & H4); [by apply (holding_quiet _ _ _ s2)|]. eexists _, _. by split.
Qed.

Lemma vfs_link_correct s path p path' p' : vfs_ok s → cstr path 0 p → cstr path' 0 p' →
  ∃ e s', vfs_link s path path' = Ret (e, s') ∧ holding 0 s [] s'.
Proof.
  intros Hs Hp Hp'. unfold vfs_link.
  destruct (vfs_lookup_correct s [] s path p Hs (ok_holding s Hs) Hp) as (e & v & s1 & -> & Hg).
  cbn [mbind res_bind]. unfold gift in Hg. destruct (e =? 0); cbn [negb]; [|by eexists _, _]. destruct Hg as [_ H1].
  pose proof (holding_keeps_ok _ _ _ Hs H1) as Hs1. pose proof (ok_vnodes _ Hs) as Hok.
  destruct (lookparent_correct s1 [] s1 path' p' (NAME_MAX + 1) Hs1 (ok_holding s1 Hs1) Hp') as (e' & w & name' & s2 & -> & Hg & Hnm').
  cbn [mbind res_bind]. unfold gift in Hg. destruct (Z.eqb_spec e' 0) as [->|]; cbn [negb].
  2: { destruct (decref_with_correct _ _ _ _ v e' Hs (holding_trans _ _ _ _ _ Hok H1 Hg)) as (s3 & E3 & H3). eexists _, _. by split. }
  destruct Hg as [_ H12]. pose proof (holding_trans _ _ _ _ _ Hok H1 H12) as H2. cbn [app] in H2.
  destruct (holding_live _ _ _ _ v Hs H2) as [Hok2 Hlv]; [by right; left|].
  destruct (holding_live _ _ _ _ w Hs H2) as [_ Hlw]; [by left|].
  destruct (other_fs_returns s2 v w Hlv Hlw) as (b & -> & Hsame). cbn [mbind res_bind].
  destruct b; [destruct (drop_both s s2 v w EXDEV Hs H2) as (s3 & E3 & H3); eexists _, _; by split|].
  rewrite (holding_check _ _ _ _ w Hs H2) by (by left). cbn [mbind res_bind].
  destruct (law_dir s2 w name' Hok2 Hlw (proj1 (Hnm' eq_refl))) as (_ & _ & _ & _ & Hln & _).
  destruct (Hln v Hlv (Hsame eq_refl)) as (e3 & s3 & -> & Hok3 & Hq). cbn [mbind res_bind].
  destruct (drop_both s s3 v w e3 Hs) as (s4 & E4 & H4); [by apply (holding_quiet _ _ _ s2)|]. eexists _, _. by split.
Qed.

Lemma readlink_correct s path p u : vfs_ok s → cstr path 0 p →
  ∃ e u' s', vfs_readlink s path u = Ret (e, u', s') ∧ holding 0 s [] s'.
Proof.
  intros Hs Hp. unfold vfs_readlink.
  destruct (vfs_lookup_correct s [] s path p Hs (ok_holding s Hs) Hp) as (e & v & s1 & -> & Hg).
  cbn [mbind res_bind]. unfold gift in Hg. destruct (e =? 0); cbn [negb]; [|by eexists _, _, _]. destruct Hg as [_ H1].
  rewrite (holding_check _ _ _ _ v Hs H1) by (by left). cbn [mbind res_bind].
  destruct (holding_live _ _ _ _ v Hs H1) as [Hok1 Hl]; [by left|].
  destruct (law_quiet s1 v Hok1 Hl) as (_ & _ & _ & Hrl). destruct (Hrl u) as (e2 & u2 & s2 & -> & Hok2 & Hq).
  cbn [mbind res_bind]. destruct (decref_with_correct 0 s [] s2 v e2 Hs) as (s3 & -> & H3).
  { by apply (holding_quiet _ _ _ s1). }
  eexists _, _, _. by split.
Qed.

(** ** The current directory *)

(** [s'] is [s] with the references of [plus] and without those of [minus]; a vnode
    that would have none left may have kept the last. *)
Definition moved s (plus minus : list Z) s' : Prop :=
  ∀ w, refs s' w = refs s w + cnt w plus - cnt w minus ∨ refs s w = cnt w minus ∧ refs s' w = cnt w plus + 1.

(** [s] before the reference to [v] was taken. *)
Definition without s (v : Z) : vfs S :=
  if decide (v = 0) then s else
  match s.(vnodes) !! v with
  | None => s
  | Some n =>
      set_vnodes s (if decide (n.(vn_refcount) = 1) then delete v s.(vnodes)
                    else <[v := Vnode (n.(vn_refcount) - 1) n.(vn_fs) n.(vn_data)]> s.(vnodes))
  end.

Lemma without_refs s v w : 0 < refs s v ∨ v = 0 → refs (without s v) w = refs s w - cnt w (opt_ref v).
Proof.
  intros Hv. unfold without, opt_ref. case_decide; [change (cnt w []) with 0; lia|]. destruct Hv as [Hv|]; [|done].
  destruct (refs_Some _ _ Hv) as (nd & Hn & Hr). rewrite Hn, cnt_cons. change (cnt w []) with 0. case_decide.
  - unfold refs, set_vnodes. cbn [vnodes]. destruct (decide (w = v)) as [->|].
    + rewrite lookup_delete_eq, Hn. lia.
    + rewrite lookup_delete_ne by done. lia.
  - rewrite refs_insert. cbn [vn_refcount]. destruct (decide (w = v)); [subst w; lia|lia].
Qed.

Lemma without_fsys s v : (without s v).(fsys) = s.(fsys).
Proof. unfold without. case_decide; [done|]. by destruct (s.(vnodes) !! v). Qed.

Lemma without_ok s v : vnodes_ok s → vnodes_ok (without s v).
Proof.
  intros Hok. unfold without. case_decide; [done|]. destruct (s.(vnodes) !! v) as [nd|] eqn:Hn; [|done].
  destruct (Hok _ _ Hn) as (? & ? & ? & ? & ?). intros w m. unfold set_vnodes. cbn [vnodes]. case_decide.
  - intros [_ ?]%lookup_delete_Some. by apply (Hok w).
  - intros [[<- <-]|[_ ?]]%lookup_insert_Some; [cbn; split_and!; done || lia|by apply (Hok w)].
Qed.

Lemma without_holding s v : vfs_ok s → 0 < refs s v ∨ v = 0 → holding 0 (without s v) (opt_ref v) s.
Proof.
  intros Hs Hv. split; [apply (ok_vnodes _ Hs)|]. split; [|split].
  - unfold without. case_decide; [|destruct (s.(vnodes) !! v)]; cbn; split_and!; done || lia.
  - intros w a b _. unfold without. case_decide; [|destruct (s.(vnodes) !! v) as [nd|] eqn:Hn]; [|cbn|]; intros Ha Hb; [by simplify_eq| |by simplify_eq].
    case_decide; [apply lookup_delete_Some in Ha as [_ Ha]; by simplify_eq|].
    apply lookup_insert_Some in Ha as [[<- <-]|[_ Ha]]; by simplify_eq.
  - intros w. left. rewrite without_refs by done. lia.
Qed.

Lemma rebase s l s1 v : vfs_ok s → 0 < refs s v ∨ v = 0 → holding 0 s l s1 → holding 0 (without s v) (opt_ref v ++ l) s1.
Proof.
  intros Hs Hv [Hok1 (Hr & Hf & Hw)]. destruct (without_holding s v Hs Hv) as [_ (Hr0 & Hf0 & _)].
  split; [done|]. split; [|split].
  - destruct Hr as (E1 & E2 & E3 & E4 & E5), Hr0 as (F1 & F2 & F3 & F4 & F5). split_and!; try (congruence || lia).
    intros fs Hfs. by apply E5, F5.
  - intros w a b Hp Ha Hb. rewrite without_refs in Hp by done. pose proof (cnt_nonneg w (opt_ref v)).
    assert (0 < refs s w) as Hl by lia. destruct (refs_Some _ _ Hl) as (m & Hm & _).
    apply (same_vnode_trans _ s _ _ m); [|by apply (Hf w)]. apply (Hf0 w a m); [rewrite without_refs by done; lia|done|done].
  - intros w. rewrite without_refs, cnt_app by done. destruct (Hw w) as [E|[E0 E]]; [left; lia|right].
    assert (cnt w (opt_ref v) = 0) as ->; [|lia]. unfold opt_ref. case_decide; [done|]. rewrite cnt_cons.
    change (cnt w []) with 0. case_decide; [subst; lia|lia].
Qed.

Lemma holding_set_cwd d s l s1 c : holding d s l s1 → holding d (set_cwd s c) l (set_cwd s1 c).
Proof.
  intros [Hok1 ((E1 & E2 & E3 & E4 & E5) & Hf & Hw)]. split; [exact Hok1|]. split; [|by split].
  cbn [set_cwd knowndevs bootfs_vnode vfs_biglock_depth p_cwd fsys]. done.
Qed.

Lemma cwd_live s : vfs_ok s → 0 < refs s s.(p_cwd) ∨ s.(p_cwd) = 0.
Proof.
  intros Hs. destruct (decide (s.(p_cwd) = 0)) as [|Hne]; [by right|left].
  destruct (ok_cwd _ Hs Hne) as (nd & Hn & _). unfold refs. rewrite Hn. by apply (ok_vnodes _ Hs _ _ Hn).
Qed.

Lemma drop_old b l s1 v : vnodes_ok b → holding 0 b (opt_ref v ++ l) s1 →
  ∃ s2, (if negb (v =? 0) then vnode_decref s1 v else Ret s1) = Ret s2 ∧ holding 0 b l s2.
Proof.
  intros Hb Hh. unfold opt_ref in Hh. destruct (Z.eqb_spec v 0); cbn [negb].
  - rewrite decide_True in Hh by done. by eexists.
  - rewrite decide_False in Hh by done. destruct Hh as [Hok1 Ho]. by apply owes_decref.
Qed.

Lemma setcurdir_correct s l s1 v : vfs_ok s → holding 0 s l s1 → v ∈ l →
  ∃ e s2, vfs_setcurdir s1 v = Ret (e, s2) ∧
    if e =? 0 then holding 0 (set_cwd (without s s.(p_cwd)) v) (v :: l) s2 ∧
      ∃ nd, s2.(vnodes) !! v = Some nd ∧ nd.(vn_fs) ≠ 0 ∧ fs_live s2.(fsys) nd.(vn_fs)
    else holding 0 s l s2.
Proof.
  intros Hs Hh Hv. unfold vfs_setcurdir. rewrite (holding_check _ _ _ _ v Hs Hh Hv). cbn [mbind res_bind].
  destruct (holding_live _ _ _ _ v Hs Hh Hv) as [Hok1 Hl1].
  destruct (law_quiet s1 v Hok1 Hl1) as (_ & _ & (e & t & s2 & -> & Hok2 & Hq & Hdir) & _). cbn [mbind res_bind].
  pose proof (holding_quiet _ _ _ _ _ Hs Hh Hok2 Hq) as Hh2.
  destruct (Z.eqb_spec e 0) as [->|He]; cbn [negb].
  2: { eexists _, _. split; [done|]. by rewrite (proj2 (Z.eqb_neq _ _)). }
  destruct (Z.eqb_spec t S_IFDIR) as [->|Ht]; cbn [negb]; [|by eexists _, _].
  destruct (Hdir eq_refl eq_refl) as (nd & Hn & Hfs & Hlive).
  destruct (holding_live _ _ _ _ v Hs Hh2 Hv) as [_ Hl2].
  destruct (incref_correct s2 v Hok2 Hl2) as (s3 & -> & Hok3 & Hg & Hsys). cbn [mbind res_bind].
  pose proof (cwd_live s Hs) as Hc. set (old := s.(p_cwd)) in *.
  assert (s3.(p_cwd) = old) as ->.
  { destruct (holding_rest _ _ _ _ Hh2) as (_ & _ & E & _). destruct Hg as ((_ & _ & _ & E' & _) & _). unfold old. congruence. }
  assert (holding 0 s (v :: l) s3) as Hh3.
  { split; [done|]. apply (owes_gives _ _ _ s2); [by destruct Hh2|apply (ok_vnodes _ Hs)|done]. }
  pose proof (holding_set_cwd _ _ _ _ v (rebase s _ s3 old Hs Hc Hh3)) as Hh4.
  assert (vnodes_ok (set_cwd (without s old) v)) as Hokb by exact (without_ok s old (ok_vnodes _ Hs)).
  destruct (drop_old (set_cwd (without s old) v) (v :: l) (set_cwd s3 v) old) as (s5 & E5 & Hh5);
    [done|done|].
  rewrite E5. cbn [mbind res_bind]. eexists _, _. split; [done|]. cbn [Z.eqb]. split; [done|].
  assert (∃ n3, s3.(vnodes) !! v = Some n3 ∧ n3.(vn_fs) = nd.(vn_fs)) as (n3 & Hn3 & Ef3).
  { assert (0 < refs s3 v) as Hl3 by (apply (holding_live _ _ _ _ v Hs Hh3); by left).
    destruct (refs_Some _ _ Hl3) as (n3 & Hn3 & _). exists n3. split; [done|].
    destruct Hg as ((_ & _ & _ & _ & Hf & _) & _). by eapply (Hf v). }
  assert (0 < refs s5 v) as Hl5.
  { destruct Hh5 as [_ Ho]. apply (owes_live _ _ _ _ v Hokb Ho). right. by left. }
  destruct (refs_Some _ _ Hl5) as (n5 & Hn5 & _). exists n5. split; [done|].
  destruct (Z.eqb_spec old 0) as [Eo|Eo]; cbn [negb] in E5.
  { injection E5 as <-. cbn [set_cwd vnodes] in Hn5. simplify_eq. cbn [set_cwd fsys]. rewrite Ef3, Hsys. done. }
  assert (0 < refs (set_cwd s3 v) old) as Ho3.
  { destruct Hh4 as [_ Ho]. apply (owes_live _ _ _ _ old Hokb Ho). right.
    rewrite elem_of_app. left. by apply opt_ref_elem. }
  destruct (decref_fs (set_cwd s3 v) old s5 v n3 n5 Hok3 Ho3 E5 Hn3 Hn5) as [[-> _] Hk]. rewrite Ef3. split; [done|].
  apply Hk. cbn [set_cwd fsys]. by rewrite Hsys.
Qed.

Lemma holding_ok s s' : vfs_ok s → holding 0 s [] s' → vfs_ok s'.
Proof. apply holding_keeps_ok. Qed.

Lemma chdir_correct s path p : vfs_ok s → cstr path 0 p →
  ∃ e s', vfs_chdir s path = Ret (e, s') ∧
    if e =? 0 then vfs_ok s' ∧ s'.(p_cwd) ≠ 0 ∧ s'.(knowndevs) = s.(knowndevs) ∧ s'.(bootfs_vnode) = s.(bootfs_vnode) ∧
      s'.(vfs_biglock_depth) = s.(vfs_biglock_depth) ∧ moved s [s'.(p_cwd)] (opt_ref s.(p_cwd)) s'
    else holding 0 s [] s'.
Proof.
  intros Hs Hp. unfold vfs_chdir.
  destruct (vfs_lookup_correct s [] s path p Hs (ok_holding s Hs) Hp) as (e & v & s1 & -> & Hg).
  cbn [mbind res_bind]. unfold gift in Hg. destruct (e =? 0) eqn:Ee; cbn [negb].
  2: { eexists _, _. split; [done|]. by rewrite Ee. }
  destruct Hg as [Hv H1]. destruct (setcurdir_correct s [v] s1 v Hs H1) as (e2 & s2 & -> & H2); [by left|]. cbn [mbind res_bind].
  destruct (Z.eqb_spec e2 0) as [->|He2].
  2: { destruct (holding_decref _ _ _ _ _ Hs H2) as (s3 & -> & H3). cbn [mbind res_bind]. eexists _, _. split; [done|].
       by rewrite (proj2 (Z.eqb_neq _ _)). }
  destruct H2 as [[Hok2 Ho2] (nd & Hn & Hfs & Hlive)]. 
  assert (vnodes_ok (set_cwd (without s s.(p_cwd)) v)) as Hokb by exact (without_ok s _ (ok_vnodes _ Hs)).
  destruct (owes_decref _ (set_cwd (without s s.(p_cwd)) v) [v] s2 v Hokb Hok2 Ho2) as (s3 & E3 & Hok3 & Ho3). rewrite E3. cbn [mbind res_bind].
  assert (0 < refs s2 v) as Hl2 by (apply (owes_live _ _ _ _ v Hokb Ho2); right; by left).
  assert (0 < refs s3 v) as Hl3 by (apply (owes_live _ _ _ _ v Hokb Ho3); right; by left).
  destruct (refs_Some _ _ Hl3) as (n3 & Hn3 & _).
  destruct (decref_fs s2 v s3 v nd n3 Hok2 Hl2 E3 Hn Hn3) as [[Ef _] Hk].
  eexists _, _. split; [done|]. cbn [Z.eqb].
  pose proof (without_holding s s.(p_cwd) Hs (cwd_live s Hs)) as [_ ((F1 & F2 & F3 & _ & F5) & _ & _)].
  pose proof Ho3 as ((E1' & E2' & E3' & E4' & E5') & _ & Hw). cbn [set_cwd knowndevs bootfs_vnode vfs_biglock_depth p_cwd fsys] in *.
  assert (∀ w, refs (set_cwd (without s s.(p_cwd)) v) w = refs s w - cnt w (opt_ref s.(p_cwd))) as Hrb
    by (intros w; exact (without_refs s _ w (cwd_live s Hs))).
  rewrite E4'. split; [|split_and!; try (done || congruence || lia)].
  2: { intros w. specialize (Hw w). rewrite Hrb in Hw. lia. }
  constructor.
  - done.
  - pose proof (ok_depth _ Hs). lia.
  - intros w. unfold owned. rewrite E1', E2', E4', <-F1, <-F2, !cnt_app. pose proof (ok_owned _ Hs w) as Hown. unfold owned in Hown.
    rewrite !cnt_app in Hown. pose proof (owes_le _ _ _ _ w Ho3 Hokb) as Hle. rewrite Hrb in Hle.
    unfold opt_ref at 1. rewrite decide_False by done. lia.
  - intros _. exists n3. rewrite E4', Ef. auto.
  - rewrite E1', <-F1. eapply Forall_impl; [exact (ok_devs _ Hs)|]. intros kd [G1 G2 G3 G4 G5]. constructor; auto.
    intros Hfs'. apply E5'. rewrite without_fsys. by apply G1.
Qed.

(** An operation returns, with the references, the lock and the tables as they were. *)
Definition balanced {A} s (r : res (A * vfs S)) : Prop :=
  ∃ a s', r = Ret (a, s') ∧ holding 0 s [] s' ∧ vfs_ok s'.

Lemma in_parent_balanced s path p op : vfs_ok s → cstr path 0 p →
  (∀ s1 d n, vnodes_ok s1 → 0 < refs s1 d → is_str n → ∃ e s2, op s1 d n = Ret (e, s2) ∧ vnodes_ok s2 ∧ quiet s1 s2) →
  balanced s (in_parent s path op).
Proof.
  intros Hs Hp Hop. destruct (in_parent_correct s path p op Hs Hp Hop) as (e & s' & E & Hh).
  exists e, s'. split_and!; [done..|]. by apply (holding_ok s).
Qed.

(** What [snprintf] leaves in [tmp] of a name. *)
Lemma bootfs_name_correct fsname n : cstr fsname 0 n →
  ∃ tmp, bootfs_name fsname = Ret tmp ∧ cstr tmp 0 (take 254 n).
Proof.
  intros Hn. unfold bootfs_name. rewrite (strlen_correct _ _ _ Hn). cbn [mbind res_bind]. eexists. split; [done|].
  destruct Hn as (_ & Hl & F & rest & E). rewrite drop_0 in E. subst fsname.
  set (m := Z.to_nat (Z.min (Z.of_nat (length n)) (NAME_MAX - 1))).
  assert (m = Nat.min 254 (length n)) as Hm by (unfold m, NAME_MAX; lia).
  assert (take m (n ++ 0 :: rest) = take 254 n) as ->.
  { rewrite take_app_le by lia. rewrite Hm. destruct (decide (254 ≤ length n)%nat); [by rewrite Nat.min_l|].
    rewrite Nat.min_r, !take_ge by lia. done. }
  split_and!; [done| |by apply Forall_take|].
  - rewrite length_app, length_take, length_replicate, Hm. change (Z.to_nat (NAME_MAX + 1)) with 256%nat. lia.
  - exists (replicate (255 - m) 0). rewrite drop_0. f_equal. change (Z.to_nat (NAME_MAX + 1)) with 256%nat.
    replace (256 - m)%nat with (Datatypes.S (255 - m)) by lia. done.
Qed.

(** ** Properties *)

(** C7: [vfs_open] of any path with any flags returns, and when it fails every reference it took
    is given back and the lock is released.  When it succeeds the caller holds one reference
    more, to the vnode handed back, and [vfs_close] gives it back. *)
Theorem open_close_balanced s path p flags mode : vfs_ok s → cstr path 0 p →
  ∃ e v s', vfs_open s path flags mode = Ret (e, v, s') ∧
    if e =? 0 then v ≠ 0 ∧ holding 0 s [v] s' ∧ vnode_check s' v = Ret tt ∧
      ∃ s'', vfs_close s' v = Ret s'' ∧ holding 0 s [] s'' ∧ vfs_ok s''
    else holding 0 s [] s' ∧ vfs_ok s'.
Proof.
  intros Hs Hp. destruct (open_correct s path p flags mode Hs Hp) as (e & v & s' & E & Hg).
  exists e, v, s'. split; [done|]. unfold gift in Hg. destruct (e =? 0); [|split; [done|by apply (holding_ok s)]].
  destruct Hg as [Hv Hh]. split_and!; [done..|by eapply holding_check; [done..|left]|].
  destruct (holding_decref 0 s [] s' v Hs Hh) as (s'' & E' & H'). exists s''. split_and!; [done..|]. by apply (holding_ok s).
Qed.

(** C15: The operations on pathnames return, whatever the paths name and wherever they fail, and
    leave the references, the lock and the tables of the layer as they found them, provided that the
    operations of the file systems themselves return and keep the references of their arguments.  A link and
    a rename need do so within one file system only, and a rename for two directories: the layer refuses the rest. *)
Theorem path_operations_balanced s path p path' p' mode u : vfs_ok s → cstr path 0 p → cstr path' 0 p' →
  balanced s (vfs_remove s path) ∧ balanced s (vfs_rmdir s path) ∧ balanced s (vfs_mkdir s path mode) ∧
  balanced s (vfs_symlink s path' path) ∧ balanced s (vfs_rename s path path') ∧ balanced s (vfs_link s path path') ∧
  balanced s (vfs_readlink s path u).
Proof.
  intros Hs Hp Hp'. split_and!.
  - eapply in_parent_balanced; [done..|]. intros s1 d n H1 H2 H3. apply (law_dir s1 d n H1 H2 H3).
  - eapply in_parent_balanced; [done..|]. intros s1 d n H1 H2 H3. apply (law_dir s1 d n H1 H2 H3).
  - eapply in_parent_balanced; [done..|]. intros s1 d n H1 H2 H3. apply (law_dir s1 d n H1 H2 H3).
  - eapply in_parent_balanced; [done..|]. intros s1 d n H1 H2 H3. apply (law_dir s1 d n H1 H2 H3). by exists p'.
  - destruct (rename_correct s path p path' p' Hs Hp Hp') as (e & s' & E & Hh). exists e, s'. split_and!; [done..|by apply (holding_ok s)].
  - destruct (vfs_link_correct s path p path' p' Hs Hp Hp') as (e & s' & E & Hh). exists e, s'. split_and!; [done..|by apply (holding_ok s)].
  - destruct (readlink_correct s path p u Hs Hp) as (e & u' & s' & E & Hh). exists (e, u'), s'. split_and!; [done..|by apply (holding_ok s)].
Qed.

(** [getdevice] takes a path apart as [parse] says: a device name up to the first colon, the
    boot file system for a leading slash, the current file system for a leading colon, the current
    directory otherwise, and the rest of the path without the slashes that follow the mark. *)
Theorem getdevice_parses s path p : 0 < s.(vfs_biglock_depth) → cstr path 0 p →
  ∃ r path' off off', begins s (parse p).1 r ∧ cstr path' off (parse p).2 ∧
    getdevice s path = ('(e, v, s') ← r; Ret (e, path', if e =? 0 then off else off', v, s')).
Proof. apply getdevice_eq. Qed.

(** [vfs_chdir] moves the process's reference: the new directory gains it and the old one
    loses it, and nothing else changes; when it fails nothing changes at all. *)
Theorem chdir_moves_reference s path p : vfs_ok s → cstr path 0 p →
  ∃ e s', vfs_chdir s path = Ret (e, s') ∧ vfs_ok s' ∧
    if e =? 0 then s'.(p_cwd) ≠ 0 ∧ moved s [s'.(p_cwd)] (opt_ref s.(p_cwd)) s' else holding 0 s [] s'.
Proof.
  intros Hs Hp. destruct (chdir_correct s path p Hs Hp) as (e & s' & E & H1). exists e, s'. split; [done|].
  destruct (e =? 0); [|split; [by apply (holding_ok s)|done]]. destruct H1 as (? & ? & _ & _ & _ & ?). auto.
Qed.

(** [vfs_setbootfs] refuses every name with a colon in it, one that ends in a colon included: the test
    for what follows the colon measures the string that begins at the colon. *)
Theorem setbootfs_refuses_colon s fsname n : 0 ≤ s.(vfs_biglock_depth) → cstr fsname 0 n → chr ":" ∈ take 254 n →
  vfs_setbootfs s fsname = Ret (EINVAL, s).
Proof.
  intros Hd Hn Hc. unfold vfs_setbootfs. destruct (bootfs_name_correct fsname n Hn) as (tmp & -> & Ht). cbn [mbind res_bind].
  rewrite (strchr_correct _ _ _ _ Ht). change (u8 (chr ":")) with (chr ":"). cbn [mbind res_bind].
  destruct (index_of (chr ":") (take 254 n)) as [i|] eqn:Ei; [|by apply index_of_None in Ei].
  destruct (index_of_Some _ _ _ Ei) as (Hi & Hat & _). cbn [fmap option_fmap option_map].
  set (t := take 254 n) in *. assert (Z.to_nat i < length t)%nat as Hlt.
  { destruct (decide (Z.to_nat i < length t)%nat); [done|]. by rewrite (list_lookup_middle t [] 0) in Hat by lia. }
  rewrite <-(take_drop (Z.to_nat i) t) in Ht. apply cstr_skip in Ht.
  rewrite length_take, Nat.min_l, Z2Nat.id in Ht by lia. rewrite (strlen_correct _ _ _ Ht). cbn [mbind res_bind].
  rewrite length_drop, (proj2 (Z.ltb_lt 0 _)) by lia. unfold release_with, vfs_biglock_release. cbn [vfs_biglock_acquire set_depth vfs_biglock_depth].
  rewrite (proj2 (Z.ltb_lt 0 _)) by lia. cbn [kassert mbind res_bind]. do 2 f_equal. apply (set_depth_back s).
Qed.

End Laws.

Lemma null_colon : cstr (lit "null:") 0 (bytes_of "null:").
Proof. split_and!; [lia|by vm_compute|by repeat constructor|by exists []]. Qed.

(** The path of the null device, opened for writing. *)
Lemma open_close_balanced_witness :
  ∃ v s', vfs_open null_added (lit "null:") O_WRONLY 0 = Ret (0, v, s') ∧ holding 0 null_added [v] s' ∧
    ∃ s'', vfs_close s' v = Ret s'' ∧ holding 0 null_added [] s''.
Proof.
  destruct (open_close_balanced null_added (lit "null:") (bytes_of "null:") O_WRONLY 0) as (e & v & s' & E & H).
  - apply null_added_ok.
  - apply null_colon.
  - assert (e = 0) as -> by (vm_compute in E; congruence). destruct H as (_ & H1 & _ & s'' & H2 & H3 & _).
    exists v, s'. split; [done|]. split; [done|]. by exists s''.
Defined.

Definition no_uio : memory * uio := (∅, Uio [] 0 0 UIO_SYSSPACE UIO_READ None).

(** Volumes of empty directories that assert, as [sfs_link] and [sfs_rename] do, that both vnodes are theirs. *)
Inductive volumes := Volumes.

Definition within (s : vfs volumes) (v w : Z) : res (Z * vfs volumes) :=
  a ← deref (s.(vnodes) !! v);
  b ← deref (s.(vnodes) !! w);
  _ ← kassert (a.(vn_fs) =? b.(vn_fs));
  Ret (0, s).

#[global] Instance volume_ops : FsOps volumes (memory * uio) := {
  fs_live _ fs := fs ≠ 0;
  vn_wf _ _ _ := True;
  vn_dir _ _ _ := True;
  vop_eachopen s _ _ := Ret (0, s);
  vop_reclaim s _ := Ret (0, s);
  vop_read := vopfail_uio_isdir;
  vop_readlink := vopfail_uio_isdir;
  vop_write := vopfail_uio_isdir;
  vop_gettype s _ := Ret (0, S_IFCHR, s);
  vop_truncate := vopfail_truncate_isdir;
  vop_creat := vopfail_creat_notdir;
  vop_symlink := vopfail_symlink_nosys;
  vop_mkdir := vopfail_mkdir_nosys;
  vop_link s d _ f := within s d f;
  vop_remove := vopfail_string_nosys;
  vop_rmdir := vopfail_string_nosys;
  vop_rename s d _ d' _ := within s d d';
  vop_lookup s d _ := s ← vnode_incref s d; Ret (0, d, s);
  vop_lookparent s d p _ := s ← vnode_incref s d; Ret (0, d, p, s);
  fsop_sync s _ := Ret (0, s);
  fsop_getvolname _ _ := None;
  fsop_getroot s _ := Ret (ENXIO, 0, s);
  fsop_unmount s _ := Ret (0, s)
}.

Lemma unchanged {S U} `{FsOps S U} (s : vfs S) : quiet s s.
Proof. split; [|done]. split_and!; try done. intros w a b Ha Hb. by simplify_eq. Qed.

Lemma within_correct s v w : vnodes_ok s → same_fs s v w → ∃ e s', within s v w = Ret (e, s') ∧ vnodes_ok s' ∧ quiet s s'.
Proof.
  intros Hok (a & b & Ha & Hb & _ & E). unfold within. rewrite Ha, Hb. cbn [deref mbind res_bind]. rewrite E, Z.eqb_refl.
  eexists _, _. split; [done|]. split; [done|apply unchanged].
Qed.

#[global] Instance volume_laws : FsLaws volumes (memory * uio).
Proof.
  constructor.
  - intros s v Hok _. split_and!; intros; [eexists _, _|eexists _, _|eexists _, _, _|eexists _, _, _]; (split; [done|]); (split; [done|]); try apply unchanged.
    by split; [apply unchanged|].
  - intros s d n Hok _ _. split_and!; intros; [by eexists _, _; split; [done|]; split; [|apply unchanged]..| |].
    + apply within_correct; [done|]. destruct H0 as (a & b & ? & ? & ? & ?). exists b, a. split_and!; congruence.
    + by apply within_correct.
  - intros s d Hok Hd. destruct (incref_correct s d Hok Hd) as (s' & E & Hok' & Hg & _). split_and!.
    + intros p _. cbn [vop_lookup volume_ops]. rewrite E. by eexists _, _, _.
    + intros p l Hp. cbn [vop_lookparent volume_ops]. rewrite E. eexists _, _, _, _. split; [done|]. split; [done|]. split; [|done].
      intros _. split; [done|]. destruct (refs_Some s' d) as (n & Hn & _); [destruct Hg as (_ & _ & _ & ->); rewrite decide_True by done; lia|]. by exists n.
    + intros n x m _. eexists _, _, _. split; [done|]. split; [done|apply unchanged].
  - intros s fs Hok _. eexists _, _, _. split; [done|]. split; [done|apply unchanged].
  - intros s v Hok Hv. eexists _, _. split; [done|]. split; [done|]. split; [apply unchanged|]. split; [done|by right].
  - done.
  - done.
Qed.

(** A process in a directory of volume 1; the system was started from volume 2. *)
Definition two_volumes : vfs volumes := Vfs {[4 := Vnode 1 1 0; 8 := Vnode 1 2 0]} [] 8 0 4 ∅ Volumes.

Lemma two_volumes_ok : vfs_ok two_volumes.
Proof.
  split.
  - intros v n. cbn. intros [[<- <-]|[_ [<- <-]%lookup_singleton_Some]]%lookup_insert_Some; by split_and!.
  - done.
  - intros w. change (owned two_volumes) with [4; 8]. unfold refs. cbn [two_volumes vnodes]. rewrite !cnt_cons. change (cnt w []) with 0.
    destruct (decide (w = 4)) as [->|]; [by vm_compute|]. rewrite lookup_insert_ne by congruence.
    destruct (decide (w = 8)) as [->|]; [by vm_compute|]. by rewrite lookup_singleton_ne by congruence.
  - intros _. by exists (Vnode 1 1 0).
  - by constructor.
Qed.

Lemma lit_x : cstr (lit "x") 0 (bytes_of "x").
Proof. split_and!; [lia|by vm_compute|by repeat constructor|by exists []]. Qed.

Lemma lit_slash_y : cstr (lit "/y") 0 (bytes_of "/y").
Proof. split_and!; [lia|by vm_compute|by repeat constructor|by exists []]. Qed.

(** A link and a rename to the other volume are refused; a device has no parent directory. *)
Lemma path_operations_balanced_witness :
  balanced null_added (vfs_remove null_added (lit "null:")) ∧
  balanced two_volumes (vfs_link two_volumes (lit "x") (lit "/y")) ∧
  ∃ s', vfs_rename two_volumes (lit "x") (lit "/y") = Ret (EXDEV, s') ∧ holding 0 two_volumes [] s'.
Proof.
  destruct (path_operations_balanced null_added (lit "null:") (bytes_of "null:") (lit "null:") (bytes_of "null:") 0 no_uio)
    as (H1 & _); [apply null_added_ok|apply null_colon..|].
  destruct (path_operations_balanced two_volumes (lit "x") (bytes_of "x") (lit "/y") (bytes_of "/y") 0 no_uio)
    as (_ & _ & _ & _ & (e & s' & E & Hh & _) & H2 & _); [apply two_volumes_ok|apply lit_x|apply lit_slash_y|].
  split_and!; [done..|]. exists s'. split; [|done]. rewrite E. do 2 f_equal. vm_compute in E. by injection E as <- _.
Defined.

Lemma getdevice_parses_witness : parse (bytes_of "null:") = (Dev (bytes_of "null"), []) ∧
  ∃ r path' off off', begins null_added (Dev (bytes_of "null")) r ∧ cstr path' off [] ∧
    getdevice null_added (lit "null:") = ('(e, v, s') ← r; Ret (e, path', if e =? 0 then off else off', v, s')).
Proof. split; [done|]. apply (getdevice_parses null_added (lit "null:") (bytes_of "null:")); [done|apply null_colon]. Defined.

Lemma chdir_moves_reference_witness : ∃ e s', vfs_chdir null_added (lit "null:") = Ret (e, s') ∧ e = ENOTDIR ∧
  holding 0 null_added [] s'.
Proof.
  destruct (chdir_moves_reference null_added (lit "null:") (bytes_of "null:")) as (e & s' & E & _ & H);
    [apply null_added_ok|apply null_colon|]. exists e, s'. split; [done|].
  assert (e = ENOTDIR) as -> by (vm_compute in E; vm_compute; congruence). by split.
Defined.

Lemma setbootfs_refuses_colon_witness : vfs_setbootfs null_added (lit "null:") = Ret (EINVAL, null_added).
Proof.
  apply (setbootfs_refuses_colon null_added (lit "null:") (bytes_of "null:")); [done|apply null_colon|].
  apply list_elem_of_In. cbn. auto 10.
Defined.
