(* ===== verification/Kmalloc.v ===== *)
(** * The kernel heap (kern/vm/kmalloc.c)

    Blocks smaller than half a page come from pages cut into blocks of one size, each
    with a free list in the first words of its free blocks; larger ones are whole
    pages.  A page of blocks is described by a [pageref]; pagerefs come from pages of
    their own, with a bit map of those in use.

    [words] is the memory of the kernel, in words of 32 bits, as far as it has been
    written; the pagerefs are in [refs], by address.  Whole pages come from
    [alloc_kpages] and [free_kpages], which are an interface ([KPages]).  An operation
    runs alone, also where it lets go of [kmalloc_spinlock] to call them.  The
    debugging options (SLOW, GUARDS, LABELS) are off, as in the source. *)

From S2P Require Import Prelude.

(** ** Data *)

Definition PAGE_SIZE : Z := 4096.
Definition PAGE_FRAME : Z := 0xfffff000.
Definition NSIZES : Z := 8.
Definition sizes : list Z := [16; 32; 64; 128; 256; 512; 1024; 2048].
Definition LARGEST_SUBPAGE_SIZE : Z := 2048.
Definition INVALID_OFFSET : Z := 0xffff.
Definition NPAGEREFS_PER_PAGE : Z := 256.
Definition INUSE_WORDS : Z := 8.
Definition NUM_PAGEREFPAGES : Z := 16.

Record pageref := Pageref {
  next_samesize : Z;
  next_all : Z;
  pageaddr_and_blocktype : Z;
  freelist_offset : Z;
  nfree : Z
}.

Definition PR_PAGEADDR (pr : pageref) : Z := Z.land pr.(pageaddr_and_blocktype) PAGE_FRAME.
Definition PR_BLOCKTYPE (pr : pageref) : Z := Z.land pr.(pageaddr_and_blocktype) 0xfff.
Definition MKPAB (pa blk : Z) : Z := Z.lor (Z.land pa PAGE_FRAME) (Z.land blk 0xfff).

Record kheap_root := Root {
  page : Z;
  pagerefs_inuse : list Z;
  numinuse : Z
}.

(** Whole pages: a call returns an address, 0 for failure, and the state. *)
Class KPages (P : Type) := {
  alloc_kpages : P → Z → res (Z * P);
  free_kpages : P → Z → res P
}.

Record kheap (P : Type) := Kheap {
  words : gmap Z Z;
  refs : gmap Z pageref;
  kheaproots : list kheap_root;
  sizebases : list Z;
  allbase : Z;
  kpages : P
}.
Arguments Kheap {P}.
Arguments words {P}.
Arguments refs {P}.
Arguments kheaproots {P}.
Arguments sizebases {P}.
Arguments allbase {P}.
Arguments kpages {P}.

Section Kheap.
Context {P : Type} `{KP : KPages P}.
#[local] Notation kheap := (kheap P).

Definition set_words (h : kheap) m : kheap := Kheap m h.(refs) h.(kheaproots) h.(sizebases) h.(allbase) h.(kpages).
Definition set_refs (h : kheap) r : kheap := Kheap h.(words) r h.(kheaproots) h.(sizebases) h.(allbase) h.(kpages).
Definition set_roots (h : kheap) l : kheap := Kheap h.(words) h.(refs) l h.(sizebases) h.(allbase) h.(kpages).
Definition set_sizebases (h : kheap) l : kheap := Kheap h.(words) h.(refs) h.(kheaproots) l h.(allbase) h.(kpages).
Definition set_allbase (h : kheap) p : kheap := Kheap h.(words) h.(refs) h.(kheaproots) h.(sizebases) p h.(kpages).
Definition set_kpages (h : kheap) p : kheap := Kheap h.(words) h.(refs) h.(kheaproots) h.(sizebases) h.(allbase) p.

(** ** Memory *)

Definition load (m : gmap Z Z) (a : Z) : res Z := deref (m !! a).

Fixpoint fill_loop (n : nat) (m : gmap Z Z) (ptr : Z) : gmap Z Z :=
  match n with O => m | S n' => fill_loop n' (<[ptr := 0xdeadbeef]> m) (ptr + 4) end.

Definition fill_deadbeef (m : gmap Z Z) (ptr len : Z) : gmap Z Z := fill_loop (Z.to_nat (len / 4)) m ptr.

(** ** Pagerefs *)

Definition allocpagerefpage (h : kheap) (i : Z) : res kheap :=
  root ← h.(kheaproots).[i];
  _ ← kassert (root.(page) =? 0);
  '(va, k) ← alloc_kpages h.(kpages) 1;
  let h := set_kpages h k in
  if va =? 0 then Ret h else
  _ ← kassert (va mod PAGE_SIZE =? 0);
  root ← h.(kheaproots).[i];
  if negb (root.(page) =? 0) then
    k ← free_kpages h.(kpages) va;
    let h := set_kpages h k in
    root ← h.(kheaproots).[i];
    _ ← kassert (negb (root.(page) =? 0));
    Ret h
  else
    roots ← h.(kheaproots).[i <- Root va root.(pagerefs_inuse) root.(numinuse)];
    Ret (set_roots h roots).

(** [for (k=1,j=0; k!=0; k<<=1,j++) if ((word & k)==0)] *)
Fixpoint clear_bit (fuel : nat) (word k j : Z) : res (option Z) :=
  match fuel with
  | O => Diverge
  | S fuel' =>
      if k =? 0 then Ret None else
      if Z.land word k =? 0 then Ret (Some j) else clear_bit fuel' word (u32 (Z.shiftl k 1)) (j + 1)
  end.

(** The first word that is not full, and its first bit that is clear. *)
Fixpoint find_clear (ws : list Z) (i : Z) : res (option (Z * Z)) :=
  match ws with
  | [] => Ret None
  | w :: ws' =>
      if w =? 0xffffffff then find_clear ws' (i + 1) else
      found ← clear_bit 33 w 1 0;
      match found with
      | Some j => Ret (Some (i, j))
      | None => Panic
      end
  end.

Fixpoint allocpageref_loop (n : nat) (whichroot : Z) (h : kheap) : res (Z * kheap) :=
  match n with
  | O => Ret (0, h)
  | S n' =>
      root ← h.(kheaproots).[whichroot];
      if NPAGEREFS_PER_PAGE <=? root.(numinuse) then allocpageref_loop n' (whichroot + 1) h else
      found ← find_clear root.(pagerefs_inuse) 0;
      match found with
      | None => allocpageref_loop n' (whichroot + 1) h
      | Some (i, j) =>
          w ← root.(pagerefs_inuse).[i];
          ws ← root.(pagerefs_inuse).[i <- Z.lor w (Z.shiftl 1 j)];
          roots ← h.(kheaproots).[whichroot <- Root root.(page) ws (root.(numinuse) + 1)];
          let h := set_roots h roots in
          h ← (if root.(page) =? 0 then allocpagerefpage h whichroot else Ret h);
          root ← h.(kheaproots).[whichroot];
          if root.(page) =? 0 then Ret (0, h) else Ret (root.(page) + 16 * (i * 32 + j), h)
      end
  end.

Definition allocpageref (h : kheap) : res (Z * kheap) := allocpageref_loop (Z.to_nat NUM_PAGEREFPAGES) 0 h.

Fixpoint freepageref_loop (n : nat) (whichroot : Z) (h : kheap) (p : Z) : res kheap :=
  match n with
  | O => Panic
  | S n' =>
      root ← h.(kheaproots).[whichroot];
      if root.(page) =? 0 then
        _ ← kassert (root.(numinuse) =? 0);
        freepageref_loop n' (whichroot + 1) h p
      else
        let j := u32 ((p - root.(page)) / 16) in
        if j <? NPAGEREFS_PER_PAGE then
          let i := j / 32 in
          let k := Z.shiftl 1 (j mod 32) in
          w ← root.(pagerefs_inuse).[i];
          _ ← kassert (negb (Z.land w k =? 0));
          ws ← root.(pagerefs_inuse).[i <- Z.land w (Z.lxor k 0xffffffff)];
          _ ← kassert (0 <? root.(numinuse));
          roots ← h.(kheaproots).[whichroot <- Root root.(page) ws (root.(numinuse) - 1)];
          Ret (set_roots h roots)
        else freepageref_loop n' (whichroot + 1) h p
  end.

Definition freepageref (h : kheap) (p : Z) : res kheap := freepageref_loop (Z.to_nat NUM_PAGEREFPAGES) 0 h p.

(** ** The lists of pagerefs *)

(** More than the pagerefs there are. *)
Definition list_fuel (h : kheap) : nat := S (size h.(refs)).

Definition set_next_samesize (r : pageref) (p : Z) : pageref :=
  Pageref p r.(next_all) r.(pageaddr_and_blocktype) r.(freelist_offset) r.(nfree).
Definition set_next_all (r : pageref) (p : Z) : pageref :=
  Pageref r.(next_samesize) p r.(pageaddr_and_blocktype) r.(freelist_offset) r.(nfree).

(** [guy] is the pageref whose field holds [cur]; [None] is the base of the list. *)
Fixpoint remove_samesize (fuel : nat) (h : kheap) (guy : option Z) (cur pr blktype : Z) : res kheap :=
  match fuel with
  | O => Diverge
  | S fuel' =>
      if cur =? 0 then Ret h else
      r ← deref (h.(refs) !! cur);
      if cur =? pr then
        match guy with
        | None => l ← h.(sizebases).[blktype <- r.(next_samesize)]; Ret (set_sizebases h l)
        | Some g =>
            x ← deref (h.(refs) !! g);
            Ret (set_refs h (<[g := set_next_samesize x r.(next_samesize)]> h.(refs)))
        end
      else remove_samesize fuel' h (Some cur) r.(next_samesize) pr blktype
  end.

Fixpoint remove_all (fuel : nat) (h : kheap) (guy : option Z) (cur pr : Z) : res kheap :=
  match fuel with
  | O => Diverge
  | S fuel' =>
      if cur =? 0 then Ret h else
      r ← deref (h.(refs) !! cur);
      if cur =? pr then
        match guy with
        | None => Ret (set_allbase h r.(next_all))
        | Some g =>
            x ← deref (h.(refs) !! g);
            Ret (set_refs h (<[g := set_next_all x r.(next_all)]> h.(refs)))
        end
      else remove_all fuel' h (Some cur) r.(next_all) pr
  end.

Definition remove_lists (h : kheap) (pr blktype : Z) : res kheap :=
  _ ← kassert ((0 <=? blktype) && (blktype <? NSIZES));
  base ← h.(sizebases).[blktype];
  h ← remove_samesize (list_fuel h) h None base pr blktype;
  remove_all (list_fuel h) h None h.(allbase) pr.

(** ** Blocks *)

Fixpoint blocktype_loop (szs : list Z) (i clientsz : Z) : res Z :=
  match szs with
  | [] => Panic
  | s :: szs' => if clientsz <=? s then Ret i else blocktype_loop szs' (i + 1) clientsz
  end.

Definition blocktype (clientsz : Z) : res Z := blocktype_loop sizes 0 clientsz.

(** At [doalloc]. *)
Definition doalloc (h : kheap) (pr : Z) : res (Z * kheap) :=
  r ← deref (h.(refs) !! pr);
  _ ← kassert (r.(freelist_offset) <? PAGE_SIZE);
  let prpage := PR_PAGEADDR r in
  let retptr := prpage + r.(freelist_offset) in
  fl ← load h.(words) retptr;
  let n := u16 (r.(nfree) - 1) in
  offset ← (if negb (fl =? 0) then
              _ ← kassert (0 <? n);
              _ ← kassert (u32 (fl - prpage) <? PAGE_SIZE);
              Ret (u16 (fl - prpage))
            else
              _ ← kassert (n =? 0);
              Ret INVALID_OFFSET);
  Ret (retptr, set_refs h (<[pr := Pageref r.(next_samesize) r.(next_all) r.(pageaddr_and_blocktype) offset n]> h.(refs))).

(** The first page of that size with a free block. *)
Fixpoint find_page (fuel : nat) (h : kheap) (pr blktype : Z) : res Z :=
  match fuel with
  | O => Diverge
  | S fuel' =>
      if pr =? 0 then Ret 0 else
      r ← deref (h.(refs) !! pr);
      _ ← kassert (PR_BLOCKTYPE r =? blktype);
      if 0 <? r.(nfree) then Ret pr else find_page fuel' h r.(next_samesize) blktype
  end.

(** The loop that links the blocks of a new page; [n] blocks are left, [i] is the next.
    It returns the last block too. *)
Fixpoint link_blocks (n : nat) (m : gmap Z Z) (fla size i fl : Z) : res (gmap Z Z * Z) :=
  match n with
  | O => Ret (m, fl)
  | S n' =>
      let fl := fla + i * size in
      let next := fla + (i - 1) * size in
      _ ← kassert (negb (fl =? next));
      link_blocks n' (<[fl := next]> m) fla size (i + 1) fl
  end.

(** A block of the page [prpage], which [alloc_kpages] has returned. *)
Definition subpage_newpage (h : kheap) (blktype prpage : Z) : res (Z * kheap) :=
  '(pr, h) ← allocpageref h;
  if pr =? 0 then
    k ← free_kpages h.(kpages) prpage;
    Ret (0, set_kpages h k)
  else
  size ← sizes.[blktype];
  let n := u16 (PAGE_SIZE / size) in
  '(m, fl) ← link_blocks (Z.to_nat (n - 1)) (<[prpage := 0]> h.(words)) prpage size 1 prpage;
  let offset := u16 (fl - prpage) in
  _ ← kassert (offset =? (n - 1) * size);
  base ← h.(sizebases).[blktype];
  bases ← h.(sizebases).[blktype <- pr];
  let r := Pageref base h.(allbase) (MKPAB prpage blktype) offset n in
  doalloc (Kheap m (<[pr := r]> h.(refs)) h.(kheaproots) bases pr h.(kpages)) pr.

Definition subpage_kmalloc (h : kheap) (sz : Z) : res (Z * kheap) :=
  blktype ← blocktype sz;
  base ← h.(sizebases).[blktype];
  pr ← find_page (list_fuel h) h base blktype;
  if negb (pr =? 0) then doalloc h pr else
  '(prpage, k) ← alloc_kpages h.(kpages) 1;
  let h := set_kpages h k in
  if prpage =? 0 then Ret (0, h) else
  _ ← kassert (prpage mod PAGE_SIZE =? 0);
  subpage_newpage h blktype prpage.

(** The pageref of the page that [ptraddr] is on, 0 if there is none. *)
Fixpoint find_ptr (fuel : nat) (h : kheap) (pr ptraddr : Z) : res Z :=
  match fuel with
  | O => Diverge
  | S fuel' =>
      if pr =? 0 then Ret 0 else
      r ← deref (h.(refs) !! pr);
      _ ← kassert (PR_BLOCKTYPE r <? NSIZES);
      if (PR_PAGEADDR r <=? ptraddr) && (ptraddr <? PR_PAGEADDR r + PAGE_SIZE) then Ret pr
      else find_ptr fuel' h r.(next_all) ptraddr
  end.

Definition subpage_kfree (h : kheap) (ptraddr : Z) : res (Z * kheap) :=
  pr ← find_ptr (list_fuel h) h h.(allbase) ptraddr;
  if pr =? 0 then Ret (-1, h) else
  r ← deref (h.(refs) !! pr);
  let prpage := PR_PAGEADDR r in
  let blktype := PR_BLOCKTYPE r in
  size ← sizes.[blktype];
  let offset := ptraddr - prpage in
  if (PAGE_SIZE <=? offset) || negb (offset mod size =? 0) then Panic else
  let m := fill_deadbeef h.(words) ptraddr size in
  let fla := prpage + offset in
  next ← (if r.(freelist_offset) =? INVALID_OFFSET then Ret 0
          else
            let next := prpage + r.(freelist_offset) in
            _ ← kassert (negb (fla =? next));
            Ret next);
  let m := <[fla := next]> m in
  let n := u16 (r.(nfree) + 1) in
  let h := set_refs (set_words h m)
             (<[pr := Pageref r.(next_samesize) r.(next_all) r.(pageaddr_and_blocktype) (u16 offset) n]> h.(refs)) in
  _ ← kassert (n <=? PAGE_SIZE / size);
  if n =? PAGE_SIZE / size then
    h ← remove_lists h pr blktype;
    h ← freepageref h pr;
    k ← free_kpages h.(kpages) prpage;
    Ret (0, set_kpages h k)
  else Ret (0, h).

Definition kmalloc (h : kheap) (sz : Z) : res (Z * kheap) :=
  if LARGEST_SUBPAGE_SIZE <=? sz then
    let npages := u32 (sz + PAGE_SIZE - 1) / PAGE_SIZE in
    '(address, k) ← alloc_kpages h.(kpages) npages;
    let h := set_kpages h k in
    if address =? 0 then Ret (0, h) else
    _ ← kassert (address mod PAGE_SIZE =? 0);
    Ret (address, h)
  else subpage_kmalloc h sz.

Definition kfree (h : kheap) (ptr : Z) : res kheap :=
  if ptr =? 0 then Ret h else
  '(result, h) ← subpage_kfree h ptr;
  if negb (result =? 0) then
    _ ← kassert (ptr mod PAGE_SIZE =? 0);
    k ← free_kpages h.(kpages) ptr;
    Ret (set_kpages h k)
  else Ret h.

End Kheap.

(** ** What whole pages promise *)

(** [kp_owned] has the pages handed out, by address, with their number; [kp_can p n]
    says that [n] pages in a row can be asked for.  An allocation fails or hands out
    pages of which none is in use. *)
Class KPagesLaws (P : Type) `{KPages P} := {
  kp_inv : P → Prop;
  kp_owned : P → gmap Z Z;
  kp_can : P → Z → Prop;
  law_aligned p a n : kp_inv p → kp_owned p !! a = Some n → a mod 4096 = 0 ∧ 0 < a ∧ 0 < n ∧ a + n * 4096 ≤ 2 ^ 32;
  law_disjoint p a n b m : kp_inv p → kp_owned p !! a = Some n → kp_owned p !! b = Some m → a ≠ b →
    a + n * 4096 ≤ b ∨ b + m * 4096 ≤ a;
  law_alloc p n : kp_inv p → 0 < n → kp_can p n → ∃ va p', alloc_kpages p n = Ret (va, p') ∧ kp_inv p' ∧
    (va = 0 ∧ kp_owned p' = kp_owned p ∨ va ≠ 0 ∧ kp_owned p !! va = None ∧ kp_owned p' = <[va := n]> (kp_owned p));
  law_free p a n : kp_inv p → kp_owned p !! a = Some n → ∃ p', free_kpages p a = Ret p' ∧ kp_inv p' ∧
    kp_owned p' = delete a (kp_owned p);
  law_can p n m va p' : kp_inv p → 0 < n → 0 < m → kp_can p (n + m) → kp_can p n ∧ (alloc_kpages p n = Ret (va, p') → kp_can p' m)
}.

(** ** Linked lists *)

Fixpoint linked (next : Z → option Z) (p : Z) (l : list Z) : Prop :=
  match l with
  | [] => p = 0
  | x :: l' => p = x ∧ x ≠ 0 ∧ ∃ q, next x = Some q ∧ linked next q l'
  end.

Lemma linked_ext next next' p l : (∀ x, x ∈ l → next' x = next x) → linked next p l → linked next' p l.
Proof.
  revert p. induction l as [|x l IH]; intros p Hx; [done|]. intros (-> & Hn & q & Hq & Hl). split_and!; [done..|].
  exists q. split; [by rewrite Hx by (by left)|]. apply IH; [|done]. intros y Hy. apply Hx. by right.
Qed.

Lemma nodup_bound (l : list Z) (m : gmap Z pageref) : NoDup l → (∀ x, x ∈ l → is_Some (m !! x)) →
  (length l ≤ size m)%nat.
Proof.
  intros Hnd Hm. rewrite <-(size_list_to_set (C:=gset Z) l) by done. rewrite <-size_dom.
  apply subseteq_size. intros x Hx%elem_of_list_to_set. by apply elem_of_dom, Hm.
Qed.

Lemma linked_unique next p l l' : linked next p l → linked next p l' → l = l'.
Proof.
  revert p l'. induction l as [|x l IH]; intros p [|y l']; cbn; [done|naive_solver..|].
  intros (-> & _ & q & Hq & Hl) (-> & _ & q' & Hq' & Hl'). rewrite Hq in Hq'. injection Hq' as <-. f_equal. by apply (IH q).
Qed.

(** Removing [x]: the link that led to [x] leads past it. *)
Lemma linked_remove next p l1 x l2 next' : linked next p (l1 ++ x :: l2) → NoDup (l1 ++ x :: l2) →
  (∀ y, y ∈ l1 ++ l2 → last l1 ≠ Some y → next' y = next y) →
  (∀ y, last l1 = Some y → next' y = next x) →
  ∃ q, next x = Some q ∧ linked next' (if decide (l1 = []) then q else p) (l1 ++ l2).
Proof.
  intros Hl Hnd. revert p Hl. induction l1 as [|y l1 IH]; intros p Hl Hoth Hlast.
  - destruct Hl as (-> & _ & q & Hq & Hl). exists q. split; [done|]. cbn. eapply linked_ext; [|exact Hl].
    intros y Hy. by apply Hoth.
  - destruct Hl as (-> & Hn & q0 & Hq0 & Hl). apply NoDup_cons in Hnd as [Hy Hnd].
    destruct (IH Hnd q0 Hl) as (q & Hq & Hl').
    + intros z Hz Hnl. apply Hoth; [by right|]. destruct l1; [|done]. cbn. intros [= ->]. apply Hy. set_solver.
    + intros z Hz. apply Hlast. by destruct l1.
    + exists q. split; [done|]. rewrite decide_False by done. cbn [app linked]. split_and!; [done..|].
      destruct l1 as [|z l1].
      * exists q. split; [|done]. rewrite (Hlast y eq_refl). done.
      * exists q0. split; [|done]. rewrite (Hoth y); [done|by left|]. cbn. intros E.
        assert (y ∈ z :: l1) by (eapply last_Some_elem_of, E). apply Hy. set_solver.
Qed.

(** ** Sizes *)

Definition bsize (t : Z) : Z := 16 * 2 ^ t.
Definition cap (t : Z) : Z := 4096 / bsize t.

Lemma type_cases (Q : Z → Prop) : Q 0 → Q 1 → Q 2 → Q 3 → Q 4 → Q 5 → Q 6 → Q 7 → ∀ t, 0 ≤ t < 8 → Q t.
Proof.
  intros. assert (t = 0 ∨ t = 1 ∨ t = 2 ∨ t = 3 ∨ t = 4 ∨ t = 5 ∨ t = 6 ∨ t = 7) as Ht by lia.
  by repeat destruct Ht as [->|Ht]; [..|subst].
Qed.

Lemma sizes_at t : 0 ≤ t < 8 → sizes.[t] = Ret (bsize t).
Proof. revert t. by apply type_cases. Qed.

Lemma bsize_facts t : 0 ≤ t < 8 → 16 ≤ bsize t ≤ 2048 ∧ bsize t mod 16 = 0 ∧ cap t * bsize t = 4096 ∧ 2 ≤ cap t ≤ 256.
Proof. revert t. apply type_cases; vm_compute; repeat split; done || congruence. Qed.

Lemma blocktype_correct sz : 0 ≤ sz < 2048 → ∃ t, blocktype sz = Ret t ∧ 0 ≤ t < 8 ∧ sz ≤ bsize t.
Proof.
  intros Hsz. unfold blocktype, sizes. cbn [blocktype_loop].
  assert (∀ t, 0 ≤ t < 8 → sz ≤ bsize t → ∃ t', Ret t = Ret t' ∧ 0 ≤ t' < 8 ∧ sz ≤ bsize t') as Hfound by (intros t; by exists t).
  repeat (case_cmp; [apply Hfound; [lia|done]|]). lia.
Qed.

(** ** The invariant *)

(** A page of blocks: its address, the index of its size and its free blocks. *)
Record info := Info { i_page : Z; i_type : Z; i_free : list Z }.

Definition on_page (I : info) (a : Z) : Prop := I.(i_page) ≤ a < I.(i_page) + 4096.
Definition is_block (I : info) (a : Z) : Prop := on_page I a ∧ (a - I.(i_page)) mod bsize I.(i_type) = 0.

Record page_ok (m : gmap Z Z) (I : info) : Prop := PageOk {
  pg_type : 0 ≤ I.(i_type) < 8;
  pg_nodup : NoDup I.(i_free);
  pg_block a : a ∈ I.(i_free) → is_block I a;
  pg_linked : linked (λ a, m !! a) (default 0 (head I.(i_free))) I.(i_free)
}.

(** The pageref of such a page. *)
Definition describes (r : pageref) (I : info) : Prop :=
  r.(pageaddr_and_blocktype) = I.(i_page) + I.(i_type) ∧ r.(nfree) = Z.of_nat (length I.(i_free)) ∧
  r.(freelist_offset) = match I.(i_free) with [] => INVALID_OFFSET | a :: _ => a - I.(i_page) end.

(** Pageref [j] of a page of pagerefs. *)
Definition bit (ws : list Z) (j : Z) : bool := Z.testbit (ws !!! Z.to_nat (j / 32)) (j mod 32).
Definition popcount (ws : list Z) : Z := Z.of_nat (length (filter (λ j, bit ws j = true) (seqZ 0 256))).

Record root_ok (root : kheap_root) : Prop := RootOk {
  root_words : length root.(pagerefs_inuse) = 8%nat;
  root_u32 w : w ∈ root.(pagerefs_inuse) → 0 ≤ w < 2 ^ 32;
  root_count : root.(numinuse) = popcount root.(pagerefs_inuse)
}.

Definition in_use (roots : list kheap_root) (pr : Z) : Prop :=
  ∃ i root j, roots !! i = Some root ∧ root.(page) ≠ 0 ∧ 0 ≤ j < 256 ∧ pr = root.(page) + 16 * j ∧
    bit root.(pagerefs_inuse) j = true.

(** The pagerefs that are marked. *)
Definition marked (roots : list kheap_root) : Z := foldr (λ root s, root.(numinuse) + s) 0 roots.

Lemma marked_insert roots w root root' : roots !! w = Some root → marked (<[w := root']> roots) = marked roots - root.(numinuse) + root'.(numinuse).
Proof.
  revert w. induction roots as [|x roots IH]; intros [|w] Hw; [done|done| |]; cbn in Hw.
  - injection Hw as ->. change (root'.(numinuse) + marked roots = root.(numinuse) + marked roots - root.(numinuse) + root'.(numinuse)). lia.
  - change (x.(numinuse) + marked (<[w := root']> roots) = x.(numinuse) + marked roots - root.(numinuse) + root'.(numinuse)). rewrite (IH w Hw). lia.
Qed.

Section Inv.
Context {P : Type} `{KL : KPagesLaws P}.
#[local] Notation kheap := (kheap P).
Implicit Types h : kheap.

(** The live blocks [live], by address and with their sizes, and the pages [G] of blocks,
    by pageref. *)
Record heap_ok (h : kheap) (G : gmap Z info) (live : gmap Z Z) : Prop := HeapOk {
  h_kpages : kp_inv h.(kpages);
  h_pages pr I : G !! pr = Some I → page_ok h.(words) I;
  h_refs pr I : G !! pr = Some I → ∃ r, h.(refs) !! pr = Some r ∧ describes r I;
  h_owned pr I : G !! pr = Some I → kp_owned h.(kpages) !! I.(i_page) = Some 1;
  h_distinct pr pr' I I' : G !! pr = Some I → G !! pr' = Some I' → I.(i_page) = I'.(i_page) → pr = pr';
  h_live pr I a n : G !! pr = Some I → on_page I a → live !! a = Some n → is_block I a ∧ a ∉ I.(i_free) ∧ n = bsize I.(i_type);
  h_free pr I a : G !! pr = Some I → is_block I a → live !! a = None → a ∈ I.(i_free);
  h_big p n : live !! p = Some n → (∃ pr I, G !! pr = Some I ∧ on_page I p) ∨
    ∃ k, kp_owned h.(kpages) !! p = Some k ∧ n = k * 4096 ∧ (∀ i root, h.(kheaproots) !! i = Some root → root.(page) ≠ p);
  h_all : ∃ l, linked (λ x, next_all <$> h.(refs) !! x) h.(allbase) l ∧ NoDup l ∧ ∀ x, x ∈ l ↔ is_Some (G !! x);
  h_sizebases : length h.(sizebases) = 8%nat;
  h_same t p : h.(sizebases) !! t = Some p →
    ∃ l, linked (λ x, next_samesize <$> h.(refs) !! x) p l ∧ NoDup l ∧
      ∀ x, x ∈ l ↔ ∃ I, G !! x = Some I ∧ I.(i_type) = Z.of_nat t;
  h_nroots : length h.(kheaproots) = 16%nat;
  h_roots i root : h.(kheaproots) !! i = Some root → root_ok root;
  h_inuse pr : is_Some (G !! pr) → in_use h.(kheaproots) pr;
  h_rootpage i root : h.(kheaproots) !! i = Some root → root.(page) ≠ 0 →
    kp_owned h.(kpages) !! root.(page) = Some 1 ∧ ∀ pr I, G !! pr = Some I → I.(i_page) ≠ root.(page);
  h_rootdistinct i j ri rj : h.(kheaproots) !! i = Some ri → h.(kheaproots) !! j = Some rj → ri.(page) ≠ 0 →
    ri.(page) = rj.(page) → i = j;
  h_prefix i j ri rj : h.(kheaproots) !! i = Some ri → h.(kheaproots) !! j = Some rj → (i < j)%nat →
    rj.(page) ≠ 0 → ri.(page) ≠ 0
}.

(** Whole pages that the heap refers to. *)
Definition used h (G : gmap Z info) (live : gmap Z Z) (b : Z) : Prop :=
  (∃ pr I, G !! pr = Some I ∧ I.(i_page) = b) ∨ (∃ i root, h.(kheaproots) !! i = Some root ∧ root.(page) = b ∧ b ≠ 0) ∨
  is_Some (live !! b).

(** Nothing else is kept: every page that the heap owns is referred to, and the pagerefs that
    are marked as in use belong to pages of blocks, [lost] of them excepted. *)
Definition accounts h (G : gmap Z info) (live : gmap Z Z) (lost : Z) : Prop :=
  (∀ b n, kp_owned h.(kpages) !! b = Some n → used h G live b) ∧ marked h.(kheaproots) = Z.of_nat (size G) + lost.

(** No page is entirely free. *)
Definition tight (G : gmap Z info) : Prop :=
  ∀ pr I, G !! pr = Some I → Z.of_nat (length I.(i_free)) < cap I.(i_type).

(** The pagerefs of a page that could not be had are all taken. *)
Definition exhausted (h : kheap) : Prop :=
  ∃ i root, h.(kheaproots) !! i = Some root ∧ root.(page) = 0 ∧ 256 ≤ root.(numinuse).

Definition frames (live : gmap Z Z) (h h' : kheap) : Prop :=
  ∀ p n a, live !! p = Some n → p ≤ a < p + n → h'.(words) !! a = h.(words) !! a.

Lemma page_aligned h G live pr I : heap_ok h G live → G !! pr = Some I →
  I.(i_page) mod 4096 = 0 ∧ 0 < I.(i_page) ∧ I.(i_page) + 4096 ≤ 2 ^ 32.
Proof.
  intros Hh HI. destruct (law_aligned _ _ _ (h_kpages _ _ _ Hh) (h_owned _ _ _ Hh _ _ HI)) as (? & ? & _ & ?). lia.
Qed.

End Inv.

Lemma land_frame x : 0 ≤ x < 2 ^ 32 → Z.land x PAGE_FRAME = x - x mod 4096.
Proof.
  intros Hx. change PAGE_FRAME with (Z.shiftl (Z.ones 20) 12).
  transitivity (Z.shiftl (Z.shiftr x 12) 12).
  - apply Z.bits_inj'. intros n Hn. rewrite Z.land_spec, !Z.shiftl_spec by done.
    destruct (Z.ltb_spec n 12); [rewrite !(Z.testbit_neg_r _ (n - 12)) by lia; apply andb_false_r|].
    rewrite Z.shiftr_spec by lia. replace (n - 12 + 12) with n by lia.
    destruct (Z.ltb_spec n 32); [by rewrite Z.ones_spec_low, andb_true_r by lia|].
    rewrite Z.ones_spec_high, andb_false_r by lia. symmetry.
    destruct (decide (x = 0)) as [->|]; [apply Z.testbit_0_l|]. apply Z.bits_above_log2; [lia|].
    apply Z.log2_lt_pow2; [lia|]. eapply Z.lt_le_trans; [apply Hx|]. apply Z.pow_le_mono_r; lia.
  - rewrite Z.shiftl_mul_pow2, Z.shiftr_div_pow2 by done. change (2 ^ 12) with 4096. pose proof (Z.div_mod x 4096). lia.
Qed.

Lemma land_low x : Z.land x 0xfff = x mod 4096.
Proof. change 0xfff with (Z.ones 12). by rewrite Z.land_ones. Qed.

(** The page and the type are read back from the pageref. *)
Lemma describes_read r I : I.(i_page) mod 4096 = 0 → 0 < I.(i_page) → I.(i_page) + 4096 ≤ 2 ^ 32 → 0 ≤ I.(i_type) < 8 →
  describes r I → PR_PAGEADDR r = I.(i_page) ∧ PR_BLOCKTYPE r = I.(i_type).
Proof.
  intros Ha H0 Hr Ht (Hp & _). unfold PR_PAGEADDR, PR_BLOCKTYPE. rewrite Hp, land_low, land_frame by lia.
  assert ((I.(i_page) + I.(i_type)) mod 4096 = I.(i_type)) as ->; [|lia].
  rewrite <-Z.add_mod_idemp_l, Ha, Z.add_0_l by done. apply Z.mod_small. lia.
Qed.

Lemma mkpab_eq pg t : pg mod 4096 = 0 → 0 < pg → pg + 4096 ≤ 2 ^ 32 → 0 ≤ t < 8 → MKPAB pg t = pg + t.
Proof.
  intros Ha H0 Hr Ht. unfold MKPAB. rewrite land_low, land_frame, Ha, Z.sub_0_r, (Z.mod_small t) by lia.
  change 4096 with (2 ^ 12) in Ha. rewrite Z.add_nocarry_lxor, Z.lxor_lor; [done|..]; apply Z.bits_inj'; intros n Hn; rewrite Z.land_spec, Z.bits_0.
  all: destruct (Z.ltb_spec n 12).
  all: try (assert (Z.testbit pg n = false) as -> by (rewrite <-(Z.mod_pow2_bits_low pg 12 n), Ha by lia; apply Z.testbit_0_l); done).
  all: assert (Z.testbit t n = false) as ->; [|apply andb_false_r].
  all: destruct (decide (t = 0)) as [->|]; [apply Z.testbit_0_l|]; apply Z.bits_above_log2; [lia|].
  all: apply Z.log2_lt_pow2; [lia|]; apply Z.lt_le_trans with (2 ^ 12); [lia|apply Z.pow_le_mono_r; lia].
Qed.

(** ** Bit maps of pagerefs *)

Lemma clear_bit_correct w fuel j k : 0 ≤ w < 2 ^ 32 → w ≠ 0xffffffff → 0 ≤ j ≤ 32 → (33 - j ≤ Z.of_nat fuel) →
  (∀ i, 0 ≤ i < j → Z.testbit w i = true) → k = (if decide (j < 32) then 2 ^ j else 0) →
  ∃ b, clear_bit fuel w k j = Ret (Some b) ∧ 0 ≤ b < 32 ∧ Z.testbit w b = false.
Proof.
  intros Hw Hf. revert j k. induction fuel as [|fuel IH]; intros j k Hj Hfuel Hset Hk; [lia|].
  cbn [clear_bit]. case_decide as Hlt; subst k.
  - rewrite (proj2 (Z.eqb_neq (2 ^ j) 0)) by (pose proof (Z.pow_pos_nonneg 2 j); lia).
    rewrite land_pow2_eqb by lia. destruct (Z.testbit w j) eqn:Hb; cbn [negb]; [|exists j; split; [done|]; split; [lia|done]].
    apply IH; [lia|lia| |].
    + intros i Hi. destruct (decide (i = j)) as [->|]; [done|]. apply Hset. lia.
    + rewrite Z.shiftl_mul_pow2 by lia. change (2 ^ 1) with 2. rewrite Z.mul_comm, <-Z.pow_succ_r by lia.
      case_decide; [apply u32_id; split; [apply Z.pow_nonneg; lia|apply Z.pow_lt_mono_r; lia]|].
      replace (Z.succ j) with 32 by lia. done.
  - destruct Hf. change 0xffffffff with (Z.ones 32). apply Z.bits_inj'. intros n Hn.
    destruct (Z.ltb_spec n 32); [rewrite Z.ones_spec_low by lia; apply Hset; lia|]. rewrite Z.ones_spec_high by lia.
    destruct (decide (w = 0)) as [->|]; [apply Z.testbit_0_l|]. apply Z.bits_above_log2; [lia|].
    apply Z.log2_lt_pow2; [lia|]. eapply Z.lt_le_trans; [apply Hw|apply Z.pow_le_mono_r; lia].
Qed.

Lemma find_clear_correct ws i : (∀ w, w ∈ ws → 0 ≤ w < 2 ^ 32) →
  (∃ k b w, find_clear ws i = Ret (Some (i + Z.of_nat k, b)) ∧ ws !! k = Some w ∧ 0 ≤ b < 32 ∧ Z.testbit w b = false) ∨
  (find_clear ws i = Ret None ∧ ∀ w, w ∈ ws → w = 0xffffffff).
Proof.
  revert i. induction ws as [|w ws IH]; intros i Hr; [by right; split; [|intros w ?%elem_of_nil]|]. cbn [find_clear].
  destruct (Z.eqb_spec w 0xffffffff) as [->|Hw].
  - destruct (IH (i + 1)) as [(k & b & w & E & Hk & Hb)|[E Hall]]; [intros; apply Hr; by right|left|right].
    + exists (S k), b, w. split; [rewrite E; do 3 f_equal; lia|done].
    + split; [done|]. intros w [->|Hw]%elem_of_cons; [done|by apply Hall].
  - left. destruct (clear_bit_correct w 33 0 1) as (b & -> & Hb & Ht); [apply Hr; by left|done|lia|lia|lia|done|].
    exists 0%nat, b, w. split; [cbn; do 3 f_equal; lia|done].
Qed.

Lemma bit_insert ws k w j : (k < length ws)%nat → 0 ≤ j →
  bit (<[k := w]> ws) j = if decide (j / 32 = Z.of_nat k) then Z.testbit w (j mod 32) else bit ws j.
Proof.
  intros Hk Hj. unfold bit. case_decide as E.
  - rewrite E, Nat2Z.id. by rewrite list_lookup_total_insert_eq by done.
  - rewrite list_lookup_total_insert_ne; [done|]. intros Ek. apply E. rewrite Ek, Z2Nat.id; [done|]. apply Z.div_pos; lia.
Qed.

Lemma filter_agree (f g : Z → Prop) `{∀ x, Decision (f x), ∀ x, Decision (g x)} (l : list Z) :
  (∀ k, k ∈ l → (f k ↔ g k)) → filter f l = filter g l.
Proof.
  induction l as [|x l IH]; [done|]. intros Hk. rewrite !filter_cons. assert (f x ↔ g x) as Hx by (apply Hk; by left).
  rewrite IH by (intros k Hl; apply Hk; by right). destruct (decide (f x)), (decide (g x)); tauto.
Qed.

Lemma filter_flip (f g : Z → Prop) `{∀ x, Decision (f x), ∀ x, Decision (g x)} (l : list Z) j : NoDup l → j ∈ l → ¬ f j → g j →
  (∀ k, k ∈ l → k ≠ j → (f k ↔ g k)) → length (filter g l) = S (length (filter f l)).
Proof.
  intros Hnd Hj Hf Hg Heq. induction Hnd as [|x l Hx Hnd IH]; [by apply elem_of_nil in Hj|].
  rewrite !filter_cons. destruct (decide (x = j)) as [->|Hne].
  - rewrite (decide_True (P := g j)), (decide_False (P := f j)) by done. cbn. do 2 f_equal. symmetry. apply filter_agree.
    intros k Hk. apply Heq; [by right|]. by intros ->.
  - apply elem_of_cons in Hj as [->|Hj]; [done|].
    assert (f x ↔ g x) as Hfg by (apply Heq; [by left|done]).
    assert (length (filter g l) = S (length (filter f l))) as E by (apply IH; [done|]; intros k Hk; apply Heq; by right).
    destruct (decide (f x)), (decide (g x)); cbn; rewrite E; tauto.
Qed.

Lemma popcount_flip ws ws' j : 0 ≤ j < 256 → bit ws j = false → bit ws' j = true →
  (∀ k, 0 ≤ k < 256 → k ≠ j → bit ws' k = bit ws k) → popcount ws' = popcount ws + 1.
Proof.
  intros Hj Hf Ht Heq. unfold popcount.
  rewrite (filter_flip (λ k, bit ws k = true) (λ k, bit ws' k = true) (seqZ 0 256) j); [lia|apply NoDup_seqZ|..].
  - apply elem_of_seqZ. lia.
  - by rewrite Hf.
  - done.
  - intros k Hk%elem_of_seqZ Hne. by rewrite Heq by (done || lia).
Qed.

Lemma popcount_full ws : length ws = 8%nat → (∀ w, w ∈ ws → w = 0xffffffff) → popcount ws = 256.
Proof.
  intros Hl Hall. unfold popcount. rewrite (filter_agree _ (λ _, True)); [by vm_compute|].
  intros k Hk%elem_of_seqZ. split; [done|]. intros _. unfold bit. rewrite (Hall (ws !!! _)).
  - change 0xffffffff with (Z.ones 32). apply Z.ones_spec_low. apply Z.mod_pos_bound. lia.
  - apply list_elem_of_lookup_total_2. rewrite Hl. assert (0 ≤ k / 32 < 8); [|lia].
    split; [apply Z.div_pos; lia|apply Z.div_lt_upper_bound; lia].
Qed.

Lemma popcount_pos ws j : 0 ≤ j < 256 → bit ws j = true → 0 < popcount ws.
Proof.
  intros Hj Hb. unfold popcount. assert (j ∈ filter (λ k, bit ws k = true) (seqZ 0 256)) as Hin.
  { apply list_elem_of_filter. split; [done|apply elem_of_seqZ; lia]. }
  destruct (filter _ _); [by apply elem_of_nil in Hin|cbn; lia].
Qed.

Lemma u32_or_range x y : 0 ≤ x < 2 ^ 32 → 0 ≤ y < 2 ^ 32 → 0 ≤ Z.lor x y < 2 ^ 32.
Proof.
  intros Hx Hy. split; [apply Z.lor_nonneg; lia|].
  destruct (decide (Z.lor x y = 0)) as [->|Hne]; [lia|]. apply Z.log2_lt_pow2; [pose proof (Z.lor_nonneg x y); lia|].
  rewrite Z.log2_lor by lia. apply Z.max_lub_lt; (destruct (decide (0 < x)), (decide (0 < y)); try (apply Z.log2_lt_pow2; lia)).
  all: rewrite Z.log2_nonpos; lia.
Qed.

Lemma land_le x y : 0 ≤ x → Z.land x y ≤ x.
Proof.
  intros Hx. assert (x = Z.land x y + Z.ldiff x y) as E.
  { rewrite Z.add_nocarry_lxor, Z.lxor_lor; [by rewrite Z.lor_comm, Z.lor_ldiff_and|..].
    all: apply Z.bits_inj'; intros n Hn; rewrite !Z.land_spec, Z.ldiff_spec, Z.bits_0; by destruct (Z.testbit x n), (Z.testbit y n). }
  assert (0 ≤ Z.ldiff x y) by (apply Z.ldiff_nonneg; by left). lia.
Qed.

(** Taking pageref [32 k + b] of a page of pagerefs. *)
Lemma set_bit_ok ws k b w : length ws = 8%nat → (∀ w, w ∈ ws → 0 ≤ w < 2 ^ 32) → ws !! k = Some w → 0 ≤ b < 32 →
  Z.testbit w b = false → let ws' := <[k := Z.lor w (Z.shiftl 1 b)]> ws in let j := Z.of_nat k * 32 + b in
  length ws' = 8%nat ∧ (∀ w, w ∈ ws' → 0 ≤ w < 2 ^ 32) ∧ popcount ws' = popcount ws + 1 ∧ 0 ≤ j < 256 ∧
  bit ws j = false ∧ ∀ i, 0 ≤ i → bit ws' i = bit ws i || (i =? j).
Proof.
  intros Hl Hr Hk Hb Hw ws' j. pose proof (lookup_lt_Some _ _ _ Hk) as Hlt. rewrite Hl in Hlt.
  assert (j / 32 = Z.of_nat k ∧ j mod 32 = b) as [Hj1 Hj2] by (unfold j; split; zdiv_lia).
  assert (∀ i, 0 ≤ i → bit ws' i = bit ws i || (i =? j)) as Hbits.
  { intros i Hi. unfold ws'. rewrite bit_insert by lia. case_decide as E.
    - unfold bit. rewrite E, Nat2Z.id, (list_lookup_total_correct _ _ _ Hk), Z.lor_spec. f_equal.
      rewrite Z.shiftl_1_l, Z.pow2_bits_eqb by lia. pose proof (Z.div_mod i 32).
      destruct (Z.eqb_spec i j) as [->|Hne]; [rewrite Hj2; apply Z.eqb_refl|]. apply Z.eqb_neq. lia.
    - destruct (Z.eqb_spec i j) as [->|]; [done|]. by rewrite orb_false_r. }
  assert (bit ws j = false) as Hoff by (unfold bit; by rewrite Hj1, Hj2, Nat2Z.id, (list_lookup_total_correct _ _ _ Hk)).
  split_and!; [by unfold ws'; rewrite length_insert| | |lia..|done|done].
  - intros x [i Hx]%list_elem_of_lookup. unfold ws' in Hx. apply list_lookup_insert_Some in Hx as [(<- & <- & _)|[_ Hx]].
    + destruct (Hr w) as [H0 H1]; [by eapply list_elem_of_lookup_2|]. apply u32_or_range; [done|].
      rewrite Z.shiftl_1_l. split; [apply Z.pow_nonneg; lia|apply Z.pow_lt_mono_r; lia].
    + by apply Hr, (list_elem_of_lookup_2 _ _ _ Hx).
  - apply popcount_flip with j; [lia|done|by rewrite Hbits, Z.eqb_refl, orb_true_r by lia|].
    intros i Hi Hne. rewrite Hbits, (proj2 (Z.eqb_neq i j)), orb_false_r by (done || lia). done.
Qed.

(** Giving back pageref [j]. *)
Lemma clear_bit_ok ws j : length ws = 8%nat → (∀ w, w ∈ ws → 0 ≤ w < 2 ^ 32) → 0 ≤ j < 256 → bit ws j = true →
  ∃ w, ws !! Z.to_nat (j / 32) = Some w ∧ Z.land w (Z.shiftl 1 (j mod 32)) ≠ 0 ∧
  let ws' := <[Z.to_nat (j / 32) := Z.land w (Z.lxor (Z.shiftl 1 (j mod 32)) 0xffffffff)]> ws in
  length ws' = 8%nat ∧ (∀ w, w ∈ ws' → 0 ≤ w < 2 ^ 32) ∧ popcount ws' = popcount ws - 1 ∧
  ∀ i, 0 ≤ i < 256 → bit ws' i = bit ws i && negb (i =? j).
Proof.
  intros Hl Hr Hj Hb. assert (0 ≤ j / 32 < 8) as Hd by (split; [apply Z.div_pos; lia|apply Z.div_lt_upper_bound; lia]).
  pose proof (Z.mod_pos_bound j 32 ltac:(lia)) as Hm. pose proof (Z.div_mod j 32) as Hdm.
  destruct (lookup_lt_is_Some_2 ws (Z.to_nat (j / 32))) as [w Hw]; [lia|]. exists w. split; [done|].
  assert (Z.testbit w (j mod 32) = true) as Hbit by (unfold bit in Hb; by rewrite (list_lookup_total_correct _ _ _ Hw) in Hb).
  rewrite Z.shiftl_1_l. split. { intros E. apply Z.eqb_eq in E. rewrite land_pow2_eqb, Hbit in E by lia. done. }
  intros ws'. assert (∀ i, 0 ≤ i < 256 → bit ws' i = bit ws i && negb (i =? j)) as Hbits.
  { intros i Hi. unfold ws'. rewrite bit_insert by lia. pose proof (Z.div_mod i 32). pose proof (Z.mod_pos_bound i 32 ltac:(lia)).
    case_decide as E.
    - rewrite Z2Nat.id in E by lia. unfold bit. rewrite E, (list_lookup_total_correct _ _ _ Hw), Z.land_spec, Z.lxor_spec. f_equal.
      change 0xffffffff with (Z.ones 32). rewrite Z.ones_spec_low, Z.pow2_bits_eqb, xorb_true_r by lia. f_equal.
      destruct (Z.eqb_spec i j) as [->|]; [apply Z.eqb_refl|]. apply Z.eqb_neq. lia.
    - destruct (Z.eqb_spec i j) as [->|]; [|by rewrite andb_true_r]. rewrite Z2Nat.id in E by lia. done. }
  split_and!; [by unfold ws'; rewrite length_insert| | |done].
  - intros x [i Hx]%list_elem_of_lookup. unfold ws' in Hx. apply list_lookup_insert_Some in Hx as [(<- & <- & _)|[_ Hx]].
    + destruct (Hr w) as [H0 H1]; [by eapply list_elem_of_lookup_2|]. split; [apply Z.land_nonneg; by left|].
      eapply Z.le_lt_trans; [apply land_le; done|done].
    + by apply Hr, (list_elem_of_lookup_2 _ _ _ Hx).
  - rewrite (popcount_flip ws' ws j); [lia|done|by rewrite Hbits, Z.eqb_refl, andb_false_r by lia|done|].
    intros i Hi Hne. rewrite Hbits, (proj2 (Z.eqb_neq i j)), andb_true_r by done. done.
Qed.
