(* ===== verification/KheapInv.v ===== *)
(** * The kernel heap keeps its promises (properties of kern/vm/kmalloc.c)

    The blocks handed out are disjoint and as large as was asked for, and their
    contents are left alone until they are freed; the state of the heap is an
    implementation of the map [live] of the live blocks. *)

From S2P Require Import Prelude Kmalloc.

Lemma u16_small x : 0 ≤ x < 65536 → u16 x = x.
Proof. apply Z.mod_small. Qed.

Section Heap.
Context {P : Type} `{KL : KPagesLaws P}.
#[local] Notation kheap := (kheap P).
Implicit Types h : kheap.

(** ** Changing a part of the state *)

Lemma heap_ok_kpages h G live k : heap_ok h G live → kp_inv k →
  (∀ b n, used h G live b → kp_owned h.(kpages) !! b = Some n → kp_owned k !! b = Some n) → heap_ok (set_kpages h k) G live.
Proof.
  intros Hh Hk Hu. destruct Hh as [H1 H2 H3 H4 H5 H6 H7 H8 H9 H10 H11 H12 H13 H14 H15 H16 H17].
  split; cbn [set_kpages words refs kheaproots sizebases allbase kpages]; try done.
  - intros pr I HI. apply Hu; [left; by eexists _, _|by eapply H4].
  - intros p n Hp. destruct (H8 p n Hp) as [?|(m & Hm & En & Hr)]; [by left|right]. exists m. split_and!; [|done..].
    apply Hu; [by right; right|done].
  - intros i root Hi Hp. destruct (H15 i root Hi Hp) as [Ho Hd]. split; [|done]. apply Hu; [|done]. right. left. by eexists _, _.
Qed.

Lemma pages_disjoint h G live pr pr' I I' a : heap_ok h G live → G !! pr = Some I → G !! pr' = Some I' → pr ≠ pr' →
  on_page I a → ¬ on_page I' a.
Proof.
  intros Hh HI HI' Hne Ha Ha'. assert (I.(i_page) ≠ I'.(i_page)) as Hp by (intros E; apply Hne; by eapply h_distinct).
  pose proof (law_disjoint _ _ _ _ _ (h_kpages _ _ _ Hh) (h_owned _ _ _ Hh _ _ HI) (h_owned _ _ _ Hh _ _ HI') Hp).
  unfold on_page in *. lia.
Qed.

(** A page of blocks with other blocks free. *)
Lemma heap_ok_page h G live pr I F r r' m live' : heap_ok h G live → G !! pr = Some I → h.(refs) !! pr = Some r →
  r'.(next_all) = r.(next_all) → r'.(next_samesize) = r.(next_samesize) →
  let I' := Info I.(i_page) I.(i_type) F in
  describes r' I' → page_ok m I' →
  (∀ a, ¬ on_page I a → m !! a = h.(words) !! a ∧ live' !! a = live !! a) →
  (∀ a n, on_page I a → live' !! a = Some n → is_block I a ∧ a ∉ F ∧ n = bsize I.(i_type)) →
  (∀ a, is_block I a → live' !! a = None → a ∈ F) →
  heap_ok (set_words (set_refs h (<[pr := r']> h.(refs))) m) (<[pr := I']> G) live'.
Proof.
  intros Hh HI Hr Ea Es I' Hd Hp Hout Hlive Hfree. pose proof (λ pr' I2 a, pages_disjoint h G live pr' pr I2 I a Hh) as Hdis.
  assert (∀ x, is_Some ((<[pr := I']> G) !! x) ↔ is_Some (G !! x)) as Hdom.
  { intros x. destruct (decide (x = pr)) as [->|]; [rewrite lookup_insert_eq; by rewrite HI|by rewrite lookup_insert_ne]. }
  assert (∀ (f : pageref → Z) x, f r' = f r → f <$> (<[pr := r']> h.(refs)) !! x = f <$> h.(refs) !! x) as Hnext.
  { intros f x Hf. destruct (decide (x = pr)) as [->|]; [rewrite lookup_insert_eq, Hr; cbn; by rewrite Hf|by rewrite lookup_insert_ne]. }
  assert (∀ x J, (<[pr := I']> G) !! x = Some J → ∃ J0, G !! x = Some J0 ∧ J.(i_page) = J0.(i_page) ∧ J.(i_type) = J0.(i_type)) as Hsame.
  { intros x J [[<- <-]|[_ HJ]]%lookup_insert_Some; [by exists I|by exists J]. }
  pose proof Hh as [H1 H2 H3 H4 H5 H6 H7 H8 H9 H10 H11 H12 H13 H14 H15 H16 H17].
  split; cbn [set_words set_refs words refs kheaproots sizebases allbase kpages]; try done.
  - intros x J [[<- <-]|[Hne HJ]]%lookup_insert_Some; [done|]. destruct (H2 x J HJ) as [? ? Hb Hl]. split; [done..|].
    eapply linked_ext; [|exact Hl]. intros a Ha. apply Hout. apply (Hdis x J a); [done..|]. by apply Hb.
  - intros x J [[<- <-]|[Hne HJ]]%lookup_insert_Some; [exists r'; by rewrite lookup_insert_eq|].
    rewrite lookup_insert_ne by done. by apply H3.
  - intros x J HJ. destruct (Hsame x J HJ) as (J0 & HJ0 & -> & _). by eapply H4.
  - intros x y J K HJ HK. destruct (Hsame x J HJ) as (J0 & HJ0 & -> & _), (Hsame y K HK) as (K0 & HK0 & -> & _). by eapply H5.
  - intros x J a n [[<- <-]|[Hne HJ]]%lookup_insert_Some Ha Hn; [by apply Hlive|]. rewrite (proj2 (Hout a (Hdis x J a HJ HI (not_eq_sym Hne) Ha))) in Hn.
    by eapply H6.
  - intros x J a [[<- <-]|[Hne HJ]]%lookup_insert_Some Ha Hn; [by apply Hfree|].
    rewrite (proj2 (Hout a (Hdis x J a HJ HI (not_eq_sym Hne) (proj1 Ha)))) in Hn. by eapply H7.
  - intros p n Hp'. destruct (decide (I.(i_page) ≤ p < I.(i_page) + 4096)) as [Hon|Hoff].
    + left. exists pr, I'. rewrite lookup_insert_eq. done.
    + rewrite (proj2 (Hout p Hoff)) in Hp'. destruct (H8 p n Hp') as [(x & J & HJ & Ha)|Hb]; [|by right].
      left. exists x, J. rewrite lookup_insert_ne; [done|]. intros <-. rewrite HI in HJ. injection HJ as <-. done.
  - destruct H9 as (l & Hl & Hnd & Hx). exists l. split_and!; [|done|intros x; by rewrite Hdom].
    eapply linked_ext; [|exact Hl]. intros x _. by apply (Hnext next_all).
  - intros t p Ht. destruct (H11 t p Ht) as (l & Hl & Hnd & Hx). exists l. split_and!; [|done|].
    + eapply linked_ext; [|exact Hl]. intros x _. by apply (Hnext next_samesize).
    + intros x. rewrite Hx. destruct (decide (x = pr)) as [->|Hne].
      * rewrite lookup_insert_eq, HI. split; [intros (J & [= <-] & E); by exists I'|intros (J & [= <-] & E); by exists I].
      * by rewrite lookup_insert_ne.
  - intros x Hx%Hdom. by apply H14.
  - intros i root Hi Hn. destruct (H15 i root Hi Hn) as [Ho Hne]. split; [done|]. intros x J HJ.
    destruct (Hsame x J HJ) as (J0 & HJ0 & -> & _). by eapply Hne.
Qed.

(** ** Allocating on a page *)

Lemma aligned_lt pg sz a b : 0 < sz → (a - pg) mod sz = 0 → (b - pg) mod sz = 0 → a < b → a + sz ≤ b.
Proof.
  intros Hs Ha Hb Hlt. apply Z.mod_divide in Ha as [x Hx]; [|lia]. apply Z.mod_divide in Hb as [y Hy]; [|lia].
  assert (x < y) by nia. nia.
Qed.

Definition all_blocks (I : info) : list Z := (λ k, I.(i_page) + k * bsize I.(i_type)) <$> seqZ 0 (cap I.(i_type)).

Lemma elem_all_blocks I a : 0 ≤ I.(i_type) < 8 → a ∈ all_blocks I ↔ is_block I a.
Proof.
  intros Ht. destruct (bsize_facts _ Ht) as (Hs & _ & Hc & _). unfold all_blocks, is_block, on_page.
  rewrite list_elem_of_fmap. split.
  - intros (k & -> & Hk%elem_of_seqZ). split; [nia|].
    replace (_ + k * _ - _) with (k * bsize I.(i_type)) by lia. apply Z.mod_mul. lia.
  - intros [Ha Hm]. apply Z.mod_divide in Hm as [k Hk]; [|lia]. exists k. split; [lia|]. apply elem_of_seqZ. nia.
Qed.

Lemma blocks_bound I l : 0 ≤ I.(i_type) < 8 → NoDup l → (∀ a, a ∈ l → is_block I a) →
  Z.of_nat (length l) ≤ cap I.(i_type) ∧ (Z.of_nat (length l) = cap I.(i_type) → ∀ a, is_block I a → a ∈ l).
Proof.
  intros Ht Hnd Hb. destruct (bsize_facts _ Ht) as (_ & _ & _ & Hc).
  assert (l ⊆+ all_blocks I) as Hsub by (apply NoDup_submseteq; [done|]; intros a Ha; by apply elem_all_blocks, Hb).
  assert (length (all_blocks I) = Z.to_nat (cap I.(i_type))) as Hl by (unfold all_blocks; by rewrite length_fmap, length_seqZ).
  split; [apply submseteq_length in Hsub; lia|]. intros El a Ha.
  rewrite (submseteq_length_Permutation _ _ Hsub) by lia. by apply elem_all_blocks.
Qed.

Lemma doalloc_correct h G live pr I a F : heap_ok h G live → G !! pr = Some I → I.(i_free) = a :: F →
  ∃ h', doalloc h pr = Ret (a, h') ∧ a ≠ 0 ∧ is_block I a ∧ live !! a = None ∧
    heap_ok h' (<[pr := Info I.(i_page) I.(i_type) F]> G) (<[a := bsize I.(i_type)]> live) ∧ h'.(words) = h.(words) ∧
    h'.(kheaproots) = h.(kheaproots) ∧ h'.(kpages) = h.(kpages).
Proof.
  intros Hh HI HF. destruct (h_refs _ _ _ Hh _ _ HI) as (r & Hr & Hd).
  destruct (page_aligned _ _ _ _ _ Hh HI) as (Hal & Hp0 & Hp1). pose proof (h_pages _ _ _ Hh _ _ HI) as [Ht Hnd Hb Hl].
  destruct (describes_read r I Hal Hp0 Hp1 Ht Hd) as [Epg _]. pose proof Hd as (Hpab & Hn & Ho). rewrite HF in *.
  apply NoDup_cons in Hnd as [HaF Hnd]. destruct Hl as (_ & Ha0 & q & Hq & Hl).
  assert (is_block I a) as Hba by (apply Hb; by left). pose proof Hba as [Hon Hmod]. unfold on_page in Hon.
  assert (∀ b, b ∈ F → is_block I b) as HbF by (intros; apply Hb; by right).
  assert (live !! a = None) as Hnone.
  { destruct (live !! a) as [n|] eqn:E; [|done]. destruct (h_live _ _ _ Hh _ _ _ _ HI (proj1 Hba) E) as (_ & Hni & _).
    rewrite HF in Hni. destruct Hni. by left. }
  assert (Z.of_nat (length F) + 1 ≤ 256) as Hlen.
  { destruct (blocks_bound I (a :: F) Ht) as [Hc _]; [by constructor|done|]. destruct (bsize_facts _ Ht) as (_ & _ & _ & ?). cbn in Hc. lia. }
  cbn [length] in Hn. unfold doalloc. rewrite Hr. cbn [deref mbind res_bind]. rewrite Ho, (proj2 (Z.ltb_lt _ PAGE_SIZE)) by (unfold PAGE_SIZE; lia).
  cbn [kassert mbind res_bind]. rewrite Epg. replace (i_page I + (a - i_page I)) with a by lia. unfold load. rewrite Hq.
  cbn [deref mbind res_bind]. replace (u16 (nfree r - 1)) with (Z.of_nat (length F)) by (rewrite u16_small; lia).
  assert ((if negb (q =? 0) then _ ← kassert (0 <? Z.of_nat (length F)); _ ← kassert (u32 (q - i_page I) <? PAGE_SIZE); Ret (u16 (q - i_page I))
    else _ ← kassert (Z.of_nat (length F) =? 0); Ret INVALID_OFFSET) = Ret (match F with [] => INVALID_OFFSET | b :: _ => b - I.(i_page) end)) as ->.
  { destruct F as [|b F'].
    - cbn in Hl. by subst q.
    - destruct Hl as (-> & Hb0 & _). rewrite (proj2 (Z.eqb_neq b 0)) by done. cbn [negb]. destruct (HbF b ltac:(by left)) as [Hob _].
      unfold on_page in Hob. rewrite (proj2 (Z.ltb_lt 0 _)) by (cbn; lia). cbn [kassert mbind res_bind]. rewrite u32_id, u16_small by lia.
      by rewrite (proj2 (Z.ltb_lt _ PAGE_SIZE)) by (unfold PAGE_SIZE; lia). }
  cbn [mbind res_bind]. eexists. split; [done|]. split_and!; [done..| |done|done|done].
  refine (heap_ok_page h G live pr I F r _ h.(words) _ Hh HI Hr _ _ _ _ _ _ _); [done..| | | | |].
  - split_and!; [done..|]. cbn. by destruct F.
  - split; cbn [i_page i_type i_free]; [done..|]. destruct F as [|b F']; [done|]. destruct Hl as (-> & ? & ?). by split_and!.
  - intros b Hb'. split; [done|]. rewrite lookup_insert_ne; [done|]. intros <-. by apply Hb'.
  - intros b n Hob [[<- <-]|[Hne Hn']]%lookup_insert_Some; [done|].
    destruct (h_live _ _ _ Hh _ _ _ _ HI Hob Hn') as (? & Hni & ?). rewrite HF in Hni. split_and!; [done| |done]. intros ?. apply Hni. by right.
  - intros b Hbb [Hn' Hne]%lookup_insert_None. pose proof (h_free _ _ _ Hh _ _ _ HI Hbb Hn') as Hin. rewrite HF in Hin.
    by apply elem_of_cons in Hin as [->|].
Qed.

(** ** Pagerefs *)

(** A page of pagerefs with other pagerefs in use. *)
Lemma heap_ok_root h G live w root root' : heap_ok h G live → h.(kheaproots) !! w = Some root → root_ok root' →
  root'.(page) = root.(page) →
  (∀ j, 0 ≤ j < 256 → is_Some (G !! (root.(page) + 16 * j)) → bit root.(pagerefs_inuse) j = true → bit root'.(pagerefs_inuse) j = true) →
  heap_ok (set_roots h (<[w := root']> h.(kheaproots))) G live.
Proof.
  intros Hh Hw Hok Hp Hbits. pose proof (lookup_lt_Some _ _ _ Hw) as Hlt.
  destruct Hh as [H1 H2 H3 H4 H5 H6 H7 H8 H9 H10 H11 H12 H13 H14 H15 H16 H17].
  assert (∀ i x, <[w := root']> h.(kheaproots) !! i = Some x → ∃ y, h.(kheaproots) !! i = Some y ∧ x.(page) = y.(page)) as Hsame.
  { intros i x [(<- & <- & _)|[_ Hx]]%list_lookup_insert_Some; [by exists root|by exists x]. }
  split; cbn [set_roots words refs kheaproots sizebases allbase kpages]; try done.
  - intros p n Hlive. destruct (H8 p n Hlive) as [?|(k & Hk & En & Hr)]; [by left|right]. exists k. split_and!; [done..|].
    intros i x Hx. destruct (Hsame i x Hx) as (y & Hy & ->). by eapply Hr.
  - by rewrite length_insert.
  - intros i x [(<- & <- & _)|[_ Hx]]%list_lookup_insert_Some; [done|by eapply H13].
  - intros pr Hpr. destruct (H14 pr Hpr) as (i & x & j & Hx & Hne & Hj & E & Hb). destruct (decide (i = w)) as [->|Hiw].
    + rewrite Hw in Hx. injection Hx as <-. exists w, root', j. rewrite Hp. split_and!; [by apply list_lookup_insert_eq|done..|lia|lia|done|].
      apply Hbits; [done|by rewrite <-E|done].
    + exists i, x, j. by rewrite list_lookup_insert_ne by done.
  - intros i x Hx Hne. destruct (Hsame i x Hx) as (y & Hy & E). rewrite E in Hne |- *. by eapply H15.
  - intros i j ri rj Hi Hj Hne E. destruct (Hsame i ri Hi) as (yi & Hyi & Ei), (Hsame j rj Hj) as (yj & Hyj & Ej).
    eapply H16; [done..|by rewrite <-Ei|congruence].
  - intros i j ri rj Hi Hj Hlt' Hne. destruct (Hsame i ri Hi) as (yi & Hyi & Ei), (Hsame j rj Hj) as (yj & Hyj & Ej).
    rewrite Ei. rewrite Ej in Hne. by eapply H17.
Qed.

(** A root gets its page. *)
Lemma heap_ok_rootpage h G live w root va k : heap_ok h G live → h.(kheaproots) !! w = Some root → root.(page) = 0 →
  kp_inv k → kp_owned h.(kpages) !! va = None → kp_owned k = <[va := 1]> (kp_owned h.(kpages)) → va ≠ 0 →
  (∀ i x, (i < w)%nat → h.(kheaproots) !! i = Some x → x.(page) ≠ 0) →
  heap_ok (set_roots (set_kpages h k) (<[w := Root va root.(pagerefs_inuse) root.(numinuse)]> h.(kheaproots))) G live.
Proof.
  intros Hh Hw Hp Hk Hva Eo Hne0 Hpre. pose proof (lookup_lt_Some _ _ _ Hw) as Hlt.
  destruct Hh as [H1 H2 H3 H4 H5 H6 H7 H8 H9 H10 H11 H12 H13 H14 H15 H16 H17].
  assert (∀ b n, kp_owned h.(kpages) !! b = Some n → kp_owned k !! b = Some n ∧ b ≠ va) as Hkeep.
  { intros b n Hb. assert (b ≠ va) by congruence. split; [by rewrite Eo, lookup_insert_ne|done]. }
  split; cbn [set_roots set_kpages words refs kheaproots sizebases allbase kpages]; try done.
  - intros pr I HI. by apply Hkeep, (H4 pr).
  - intros p n Hlive. destruct (H8 p n Hlive) as [?|(m & Hm & En & Hr)]; [by left|right]. exists m.
    destruct (Hkeep p m Hm) as [Hm' Hpva]. split_and!; [done..|].
    intros i x [(<- & <- & _)|[_ Hx]]%list_lookup_insert_Some; [done|by eapply Hr].
  - by rewrite length_insert.
  - intros i x [(<- & <- & _)|[_ Hx]]%list_lookup_insert_Some; [|by eapply H13]. destruct (H13 w root Hw). by split.
  - intros pr Hpr. destruct (H14 pr Hpr) as (i & x & j & Hx & Hne & Hj & E & Hb). exists i, x, j.
    rewrite list_lookup_insert_ne by congruence. done.
  - intros i x [(<- & <- & _)|[_ Hx]]%list_lookup_insert_Some Hne; cbn [page] in *.
    + split; [by rewrite Eo, lookup_insert_eq|]. intros pr I HI E. rewrite <-E, (H4 _ _ HI) in Hva. done.
    + destruct (H15 i x Hx Hne) as [Ho Hd]. by split; [apply Hkeep|].
  - intros i j ri rj [(<- & <- & _)|[? Hi]]%list_lookup_insert_Some [(<- & <- & _)|[? Hj]]%list_lookup_insert_Some Hne E; cbn [page] in *.
    + done.
    + destruct (H15 j rj Hj) as [Ho _]; congruence.
    + destruct (H15 i ri Hi Hne) as [Ho _]; congruence.
    + by eapply H16.
  - intros i j ri rj [(<- & <- & _)|[? Hi]]%list_lookup_insert_Some [(<- & <- & _)|[? Hj]]%list_lookup_insert_Some Hij Hne; cbn [page] in *.
    + done.
    + done.
    + by eapply Hpre.
    + by eapply H17.
Qed.

(** What a step on the roots leaves alone. *)
Definition same_blocks h h' : Prop :=
  h'.(words) = h.(words) ∧ h'.(refs) = h.(refs) ∧ h'.(sizebases) = h.(sizebases) ∧ h'.(allbase) = h.(allbase).

(** A pageref was handed out, or 0. *)
Record given h (G : gmap Z info) (live : gmap Z Z) (p : Z) h' : Prop := Given {
  gv_ok : heap_ok h' G live;
  gv_same : same_blocks h h';
  gv_owned b n : kp_owned h.(kpages) !! b = Some n → kp_owned h'.(kpages) !! b = Some n;
  gv_taken b n : kp_owned h'.(kpages) !! b = Some n → kp_owned h.(kpages) !! b = Some n ∨ ∃ i x, h'.(kheaproots) !! i = Some x ∧ x.(page) = b ∧ b ≠ 0;
  gv_kept i y : h.(kheaproots) !! i = Some y → y.(page) ≠ 0 → ∃ x, h'.(kheaproots) !! i = Some x ∧ x.(page) = y.(page);
  gv_none : p = 0 → marked h.(kheaproots) ≤ marked h'.(kheaproots) ≤ marked h.(kheaproots) + 1 ∧
    (marked h.(kheaproots) = 4096 ∨ ∃ k, alloc_kpages h.(kpages) 1 = Ret (0, k));
  gv_marked : p ≠ 0 → marked h'.(kheaproots) = marked h.(kheaproots) + 1;
  gv_roots i x : h'.(kheaproots) !! i = Some x → x.(page) ≠ 0 →
    (∃ y, h.(kheaproots) !! i = Some y ∧ y.(page) = x.(page)) ∨ kp_owned h.(kpages) !! x.(page) = None;
  gv_new : p ≠ 0 → G !! p = None ∧ in_use h'.(kheaproots) p ∧ ¬ exhausted h'
}.

Lemma pageref_page h G live i x pr : heap_ok h G live → h.(kheaproots) !! i = Some x → x.(page) ≠ 0 → is_Some (G !! pr) →
  x.(page) ≤ pr < x.(page) + 4096 → ∃ j, 0 ≤ j < 256 ∧ pr = x.(page) + 16 * j ∧ bit x.(pagerefs_inuse) j = true.
Proof.
  intros Hh Hx Hne Hpr Hin. destruct (h_inuse _ _ _ Hh pr Hpr) as (i' & y & j & Hy & Hyne & Hj & -> & Hb).
  assert (i' = i) as ->.
  { apply (h_rootdistinct _ _ _ Hh _ _ _ _ Hy Hx Hyne). destruct (decide (y.(page) = x.(page))) as [|Hd]; [done|].
    destruct (h_rootpage _ _ _ Hh _ _ Hx Hne) as [Ox _], (h_rootpage _ _ _ Hh _ _ Hy Hyne) as [Oy _].
    pose proof (law_disjoint _ _ _ _ _ (h_kpages _ _ _ Hh) Oy Ox Hd). lia. }
  rewrite Hx in Hy. injection Hy as <-. by exists j.
Qed.

Lemma allocpagerefpage_correct h G live w root : heap_ok h G live → kp_can h.(kpages) 1 → h.(kheaproots) !! w = Some root →
  root.(page) = 0 → (∀ i x, (i < w)%nat → h.(kheaproots) !! i = Some x → x.(page) ≠ 0) →
  ∃ va h', allocpagerefpage h (Z.of_nat w) = Ret h' ∧ heap_ok h' G live ∧ same_blocks h h' ∧
    h'.(kheaproots) = <[w := Root va root.(pagerefs_inuse) root.(numinuse)]> h.(kheaproots) ∧
    (va = 0 ∧ kp_owned h'.(kpages) = kp_owned h.(kpages) ∧ (∃ k, alloc_kpages h.(kpages) 1 = Ret (0, k)) ∨
     va ≠ 0 ∧ kp_owned h.(kpages) !! va = None ∧ kp_owned h'.(kpages) = <[va := 1]> (kp_owned h.(kpages))).
Proof.
  intros Hh Hcan Hw Hp Hpre. pose proof (lookup_lt_Some _ _ _ Hw) as Hlt. unfold allocpagerefpage.
  rewrite (rd_nat _ _ _ Hw). cbn [mbind res_bind]. rewrite Hp. cbn [Z.eqb kassert mbind res_bind].
  destruct (law_alloc h.(kpages) 1 (h_kpages _ _ _ Hh) ltac:(lia) Hcan) as (va & k & Ealloc & Hk & Hcase). rewrite Ealloc. cbn [mbind res_bind].
  destruct Hcase as [[-> Eo]|(Hne & Hva & Eo)].
  - exists 0. eexists. split; [done|]. split_and!; [|done| |left; split_and!; [done..|by exists k]].
    + apply heap_ok_kpages; [done..|]. intros b n _. by rewrite Eo.
    + cbn. rewrite <-Hp. destruct root. by rewrite list_insert_id.
  - rewrite (proj2 (Z.eqb_neq va 0)) by done.
    destruct (law_aligned k va 1 Hk ltac:(by rewrite Eo, lookup_insert_eq)) as (Hal & _).
    unfold PAGE_SIZE. rewrite Hal. cbn [Z.eqb kassert mbind res_bind]. change (kheaproots (set_kpages h k)) with (kheaproots h).
    rewrite (rd_nat _ _ _ Hw). cbn [mbind res_bind]. rewrite Hp. cbn [Z.eqb negb]. rewrite (wr_nat _ _ _ Hlt). cbn [mbind res_bind].
    exists va. eexists. split; [done|]. split_and!; [by apply heap_ok_rootpage|done|done|by right].
Qed.

Lemma exhausted_same h h' w x : h'.(kheaproots) = <[w := x]> h.(kheaproots) → ¬ exhausted h → x.(page) ≠ 0 → ¬ exhausted h'.
Proof.
  intros E Hex Hx (i & y & Hy & Hp & Hn). rewrite E in Hy.
  apply list_lookup_insert_Some in Hy as [(<- & <- & _)|[_ Hy]]; [done|]. apply Hex. by exists i, y.
Qed.

(** Pageref [k * 32 + b] of a root is taken; it was not in use. *)
Lemma take_bit h G live w root k b word : heap_ok h G live → h.(kheaproots) !! w = Some root →
  root.(pagerefs_inuse) !! k = Some word → 0 ≤ b < 32 → Z.testbit word b = false →
  let ws := <[k := Z.lor word (Z.shiftl 1 b)]> root.(pagerefs_inuse) in
  let j := Z.of_nat k * 32 + b in
  heap_ok (set_roots h (<[w := Root root.(page) ws (root.(numinuse) + 1)]> h.(kheaproots))) G live ∧ 0 ≤ j < 256 ∧ bit ws j = true ∧
  (root.(page) ≠ 0 → G !! (root.(page) + 16 * j) = None).
Proof.
  intros Hh Hw Hk Hb Hbit ws j. destruct (h_roots _ _ _ Hh _ _ Hw) as [Hl Hu Hc].
  destruct (set_bit_ok _ k b word Hl Hu Hk Hb Hbit) as (Hl' & Hu' & Hpop & Hj & Hoff & Hbits). fold ws j in Hl', Hu', Hpop, Hj, Hoff, Hbits.
  split_and!; [|lia|lia|by rewrite Hbits, Z.eqb_refl, orb_true_r by lia|].
  - apply (heap_ok_root h G live w root); [done..| |done|].
    + split; cbn; [done..|lia].
    + intros i Hi _ Hib. cbn. by rewrite Hbits, Hib by lia.
  - intros Hp. destruct (G !! _) as [I|] eqn:HI; [|done].
    destruct (pageref_page h G live w root _ Hh Hw Hp (mk_is_Some _ _ HI)) as (i & Hi & E & Hib); [lia|].
    assert (i = j) as -> by lia. congruence.
Qed.

(** No pageref is on a page that was not owned. *)
Lemma fresh_page_unused h h' G live w x j : heap_ok h G live → heap_ok h' G live →
  (∀ b n, kp_owned h.(kpages) !! b = Some n → kp_owned h'.(kpages) !! b = Some n) →
  kp_owned h.(kpages) !! x.(page) = None → h'.(kheaproots) !! w = Some x → x.(page) ≠ 0 → 0 ≤ j < 256 →
  G !! (x.(page) + 16 * j) = None.
Proof.
  intros Hh Hh' Hown Hva Hw Hne Hj. destruct (G !! _) as [I|] eqn:HI; [|done].
  destruct (h_inuse _ _ _ Hh _ (mk_is_Some _ _ HI)) as (i & y & j' & Hy & Hyne & Hj' & E & _).
  destruct (h_rootpage _ _ _ Hh _ _ Hy Hyne) as [Oy _], (h_rootpage _ _ _ Hh' _ _ Hw Hne) as [Ow _].
  assert (y.(page) ≠ x.(page)) as Hd by congruence.
  pose proof (law_disjoint _ _ _ _ _ (h_kpages _ _ _ Hh') (Hown _ _ Oy) Ow Hd). lia.
Qed.

(** A root that had no page has asked for one. *)
Lemma new_root_given h G live w root ws j va h' : heap_ok h G live → heap_ok h' G live → same_blocks h h' →
  h.(kheaproots) !! w = Some root → root.(page) = 0 → (w < length h.(kheaproots))%nat →
  h'.(kheaproots) = <[w := Root va ws (root.(numinuse) + 1)]> h.(kheaproots) → 0 ≤ j < 256 → bit ws j = true →
  marked h'.(kheaproots) = marked h.(kheaproots) + 1 → ¬ exhausted h →
  (va = 0 ∧ kp_owned h'.(kpages) = kp_owned h.(kpages) ∧ (∃ k, alloc_kpages h.(kpages) 1 = Ret (0, k)) ∨
   va ≠ 0 ∧ kp_owned h.(kpages) !! va = None ∧ kp_owned h'.(kpages) = <[va := 1]> (kp_owned h.(kpages))) →
  given h G live (if va =? 0 then 0 else va + 16 * j) h'.
Proof.
  intros Hh Hh' Hsame Hw Hp Hlt Er Hj Hon Hm Hex Hva.
  assert (h'.(kheaproots) !! w = Some (Root va ws (root.(numinuse) + 1))) as Hw' by (rewrite Er; by apply list_lookup_insert_eq).
  assert (∀ b n, kp_owned h.(kpages) !! b = Some n → kp_owned h'.(kpages) !! b = Some n) as Hown.
  { intros b n Hb. destruct Hva as [(_ & -> & _)|(_ & Hn & ->)]; [done|]. rewrite lookup_insert_ne; [done|congruence]. }
  assert (va ≠ 0 → 0 < va) as Hpos.
  { intros Hne. destruct Hva as [[? _]|(_ & _ & Eo)]; [done|]. destruct (law_aligned h'.(kpages) va 1 (h_kpages _ _ _ Hh')) as (_ & ? & _); [|done].
    by rewrite Eo, lookup_insert_eq. }
  split; try done.
  - intros b n Hb. destruct Hva as [(_ & E & _)|(Hne & _ & E)]; rewrite E in Hb; [by left|].
    apply lookup_insert_Some in Hb as [[<- _]|[_ Hb]]; [right|by left]. by eexists w, _.
  - intros i y Hy Hne. rewrite Er. exists y. rewrite list_lookup_insert_ne; [done|]. intros ->. congruence.
  - intros E. split; [lia|right]. destruct Hva as [(_ & _ & ?)|(Hne & _)]; [done|]. rewrite (proj2 (Z.eqb_neq va 0)) in E by done. specialize (Hpos Hne). lia.
  - intros i x. rewrite Er. intros [(<- & <- & _)|[_ Hx]]%list_lookup_insert_Some Hne; [right|left; by exists x]. by destruct Hva as [[? _]|(_ & ? & _)].
  - destruct Hva as [[-> _]|(Hne & Hn & _)]; [done|]. rewrite (proj2 (Z.eqb_neq va 0)) by done. intros _.
    split_and!; [|by exists w, (Root va ws (root.(numinuse) + 1)), j|by eapply exhausted_same].
    exact (fresh_page_unused h h' G live w (Root va ws (root.(numinuse) + 1)) j Hh Hh' Hown Hn Hw' Hne Hj).
Qed.

Lemma marked_full (roots : list kheap_root) : (∀ root, root ∈ roots → root.(numinuse) = 256) → marked roots = 256 * Z.of_nat (length roots).
Proof.
  induction roots as [|x roots IH]; intros Hx; [done|]. change (marked (x :: roots)) with (x.(numinuse) + marked roots).
  rewrite (Hx x), IH by (by left || (intros y Hy; apply Hx; by right)). cbn [length]. lia.
Qed.

Lemma popcount_le ws : popcount ws ≤ 256.
Proof. unfold popcount. pose proof (length_filter (λ j, bit ws j = true) (seqZ 0 256)) as Hl. change (length (seqZ 0 256)) with 256%nat in Hl. lia. Qed.

(** No root has a pageref left. *)
Lemma roots_full h G live : heap_ok h G live → (∀ i x, (i < 16)%nat → h.(kheaproots) !! i = Some x → x.(page) ≠ 0 ∧ 256 ≤ x.(numinuse)) →
  marked h.(kheaproots) = 4096.
Proof.
  intros Hh Hall. rewrite marked_full, (h_nroots _ _ _ Hh); [done|]. intros root [i Hi]%list_elem_of_lookup. pose proof (lookup_lt_Some _ _ _ Hi) as Hlt.
  rewrite (h_nroots _ _ _ Hh) in Hlt. destruct (Hall i root Hlt Hi) as [_ ?]. pose proof (root_count _ (h_roots _ _ _ Hh _ _ Hi)).
  pose proof (popcount_le root.(pagerefs_inuse)). lia.
Qed.

Lemma allocpageref_loop_correct n w h G live : heap_ok h G live → ¬ exhausted h → kp_can h.(kpages) 1 → (n + w = 16)%nat →
  (∀ i x, (i < w)%nat → h.(kheaproots) !! i = Some x → x.(page) ≠ 0 ∧ 256 ≤ x.(numinuse)) →
  ∃ p h', allocpageref_loop n (Z.of_nat w) h = Ret (p, h') ∧ given h G live p h'.
Proof.
  intros Hh Hex Hcan. revert w. induction n as [|n IH]; intros w Hnw Hpre.
  { exists 0, h. split; [done|]. assert (marked h.(kheaproots) = 4096) as Hm by (apply (roots_full h G live Hh); intros i x Hi; apply Hpre; lia).
    split; try done.
    - intros b m Hb. by left.
    - intros i y Hy _. by exists y.
    - intros _. split; [lia|by left].
    - intros i x Hx _. left. by exists x. }
  cbn [allocpageref_loop]. destruct (lookup_lt_is_Some_2 h.(kheaproots) w) as [root Hw]; [rewrite (h_nroots _ _ _ Hh); lia|].
  pose proof (lookup_lt_Some _ _ _ Hw) as Hlt. rewrite (rd_nat _ _ _ Hw). cbn [mbind res_bind].
  destruct (h_roots _ _ _ Hh _ _ Hw) as [Hl Hu Hc]. unfold NPAGEREFS_PER_PAGE. destruct (Z.leb_spec 256 root.(numinuse)) as [Hfull|Hroom].
  - replace (Z.of_nat w + 1) with (Z.of_nat (S w)) by lia. apply IH; [lia|]. intros i x Hi Hx.
    destruct (decide (i = w)) as [->|]; [|apply (Hpre i); [lia|done]]. rewrite Hw in Hx. injection Hx as <-. split; [|done].
    intros Hp. apply Hex. by exists w, root.
  - destruct (find_clear_correct root.(pagerefs_inuse) 0 Hu) as [(k & b & word & -> & Hk & Hb & Hbit)|[_ Hall]];
      [|pose proof (popcount_full _ Hl Hall); lia].
    cbn [mbind res_bind]. rewrite Z.add_0_l, (rd_nat _ _ _ Hk). cbn [mbind res_bind]. rewrite wr_nat by (by eapply lookup_lt_Some).
    cbn [mbind res_bind]. rewrite (wr_nat _ _ _ Hlt). cbn [mbind res_bind].
    destruct (take_bit h G live w root k b word Hh Hw Hk Hb Hbit) as (Hh1 & Hj & Hon & Hnew).
    set (ws := <[k := _]> root.(pagerefs_inuse)) in *. set (j := Z.of_nat k * 32 + b) in *. set (h1 := set_roots h _) in *.
    assert (h1.(kheaproots) !! w = Some (Root root.(page) ws (root.(numinuse) + 1))) as Hw1 by (by apply list_lookup_insert_eq).
    destruct (Z.eqb_spec root.(page) 0) as [Hp|Hp].
    + destruct (allocpagerefpage_correct h1 G live w _ Hh1 Hcan Hw1 Hp) as (va & h' & -> & Hh' & Hsame & Er & Hva).
      { intros i x Hi. cbn. rewrite list_lookup_insert_ne by lia. intros Hx. by apply (Hpre i x). }
      cbn [mbind res_bind]. cbn [h1 set_roots kheaproots kpages] in Er, Hva. rewrite list_insert_insert_eq in Er.
      assert (h'.(kheaproots) !! w = Some (Root va ws (root.(numinuse) + 1))) as Hw' by (rewrite Er; by apply list_lookup_insert_eq).
      rewrite (rd_nat _ _ _ Hw'). cbn [mbind res_bind page]. exists (if va =? 0 then 0 else va + 16 * j), h'.
      assert (marked h'.(kheaproots) = marked h.(kheaproots) + 1) as Hm by (rewrite Er, (marked_insert _ _ _ _ Hw); cbn; lia).
      split; [by destruct (va =? 0)|]. eapply new_root_given; [exact Hh|exact Hh'|exact Hsame|exact Hw|exact Hp|exact Hlt|exact Er|exact Hj|exact Hon|exact Hm|exact Hex|exact Hva].
    + cbn [mbind res_bind]. rewrite (rd_nat _ _ _ Hw1). cbn [mbind res_bind page]. rewrite (proj2 (Z.eqb_neq _ 0)) by done.
      destruct (h_rootpage _ _ _ Hh _ _ Hw Hp) as [Ho _]. destruct (law_aligned _ _ _ (h_kpages _ _ _ Hh) Ho) as (_ & ? & _).
      eexists _, h1. split; [done|]. split; try done.
      * intros b' m Hb'. by left.
      * intros i y Hy Hne. cbn. destruct (decide (i = w)) as [->|]; [|exists y; by rewrite list_lookup_insert_ne].
        rewrite Hw in Hy. injection Hy as <-. eexists. split; [by apply list_lookup_insert_eq|done].
      * lia.
      * intros _. cbn. rewrite (marked_insert _ _ _ _ Hw). cbn. lia.
      * intros i x. cbn. intros [(<- & <- & _)|[_ Hx]]%list_lookup_insert_Some Hne; left; [by exists root|by exists x].
      * intros _. split_and!; [by apply Hnew|by exists w, (Root root.(page) ws (root.(numinuse) + 1)), j|].
        apply (exhausted_same h h1 w (Root root.(page) ws (root.(numinuse) + 1))); done.
Qed.

(** ** A new page *)

Lemma heap_ok_new h G live pr r m base I : heap_ok h G live → G !! pr = None → pr ≠ 0 → in_use h.(kheaproots) pr →
  kp_owned h.(kpages) !! I.(i_page) = Some 1 → (∀ x J, G !! x = Some J → J.(i_page) ≠ I.(i_page)) →
  (∀ i root, h.(kheaproots) !! i = Some root → root.(page) ≠ I.(i_page)) → (∀ a, on_page I a → live !! a = None) →
  page_ok m I → (∀ a, is_block I a → a ∈ I.(i_free)) → describes r I →
  r.(next_all) = h.(allbase) → r.(next_samesize) = base → h.(sizebases) !! Z.to_nat I.(i_type) = Some base →
  (∀ a, ¬ on_page I a → m !! a = h.(words) !! a) →
  heap_ok (Kheap m (<[pr := r]> h.(refs)) h.(kheaproots) (<[Z.to_nat I.(i_type) := pr]> h.(sizebases)) pr h.(kpages)) (<[pr := I]> G) live.
Proof.
  intros Hh Hpr Hne0 Huse Hown Hnew Hroot Hlive Hpg Hfree Hd Ea Es Hb Hout.
  pose proof (pg_type _ _ Hpg) as Ht. pose proof Hh as [H1 H2 H3 H4 H5 H6 H7 H8 H9 H10 H11 H12 H13 H14 H15 H16 H17].
  assert (∀ x J a, G !! x = Some J → on_page J a → ¬ on_page I a) as Hdis.
  { intros x J a HJ Ha Ha'. pose proof (law_disjoint _ _ _ _ _ H1 (H4 _ _ HJ) Hown (Hnew _ _ HJ)). unfold on_page in *. lia. }
  assert (∀ (f : pageref → Z) l p, linked (λ x, f <$> h.(refs) !! x) p l → (∀ x, x ∈ l → is_Some (G !! x)) →
    f r = p → linked (λ x, f <$> (<[pr := r]> h.(refs)) !! x) pr (pr :: l)) as Hcons.
  { intros f l p Hl HlG <-. split_and!; [done..|]. exists (f r). rewrite lookup_insert_eq. split; [done|].
    eapply linked_ext; [|exact Hl]. intros x Hx%HlG. rewrite lookup_insert_ne; [done|]. intros <-. rewrite Hpr in Hx. by destruct Hx. }
  assert (∀ l : list Z, NoDup l → (∀ x, x ∈ l → is_Some (G !! x)) → NoDup (pr :: l)) as Hnodup.
  { intros l Hl HlG. constructor; [|done]. intros Hx%HlG. rewrite Hpr in Hx. by destruct Hx. }
  split; cbn [words refs kheaproots sizebases allbase kpages]; try done.
  - intros x J [[<- <-]|[_ HJ]]%lookup_insert_Some; [done|]. destruct (H2 x J HJ) as [? ? Hbl Hl]. split; [done..|].
    eapply linked_ext; [|exact Hl]. intros a Ha. apply Hout, (Hdis x J a HJ). by apply Hbl.
  - intros x J [[<- <-]|[Hne HJ]]%lookup_insert_Some; [exists r; by rewrite lookup_insert_eq|]. rewrite lookup_insert_ne by done. by apply H3.
  - intros x J [[<- <-]|[_ HJ]]%lookup_insert_Some; [done|by eapply H4].
  - intros x y J K [[<- <-]|[? HJ]]%lookup_insert_Some [[<- <-]|[? HK]]%lookup_insert_Some E.
    + done.
    + by destruct (Hnew _ _ HK).
    + by destruct (Hnew _ _ HJ).
    + by eapply H5.
  - intros x J a n [[<- <-]|[_ HJ]]%lookup_insert_Some Ha Hn; [by rewrite Hlive in Hn|by eapply H6].
  - intros x J a [[<- <-]|[_ HJ]]%lookup_insert_Some Ha Hn; [by apply Hfree|by eapply H7].
  - intros p n Hp. destruct (H8 p n Hp) as [(x & J & HJ & Ha)|Hbig]; [left|by right]. exists x, J.
    rewrite lookup_insert_ne; [done|]. congruence.
  - destruct H9 as (l & Hl & Hnd & Hx). exists (pr :: l). split_and!.
    + eapply Hcons; [done|by intros x ?%Hx|done].
    + apply Hnodup; [done|by intros x ?%Hx].
    + intros x. rewrite elem_of_cons, Hx. destruct (decide (x = pr)) as [->|]; [rewrite lookup_insert_eq; naive_solver|].
      rewrite lookup_insert_ne by done. naive_solver.
  - by rewrite length_insert.
  - intros t p [(<- & <- & _)|[Hne Hp]]%list_lookup_insert_Some.
    + destruct (H11 _ _ Hb) as (l & Hl & Hnd & Hx). assert (∀ x, x ∈ l → is_Some (G !! x)) as HlG by (intros x (J & ? & _)%Hx; by exists J).
      exists (pr :: l). split_and!; [by eapply Hcons|by apply Hnodup|]. intros x. rewrite elem_of_cons, Hx.
      destruct (decide (x = pr)) as [->|]; [|rewrite lookup_insert_ne by done; naive_solver].
      rewrite lookup_insert_eq. split; [intros _; exists I; split; [done|lia]|by left].
    + destruct (H11 _ _ Hp) as (l & Hl & Hnd & Hx). exists l.
      assert (∀ x, x ∈ l → x ≠ pr) as Hlpr by (intros x (J & ? & _)%Hx; congruence).
      split_and!; [|done|].
      * eapply linked_ext; [|exact Hl]. intros x Hxl%Hlpr. by rewrite lookup_insert_ne by done.
      * intros x. rewrite Hx. destruct (decide (x = pr)) as [->|]; [|by rewrite lookup_insert_ne by done].
        rewrite lookup_insert_eq, Hpr. split; [by intros (? & ? & _)|]. intros (J & [= <-] & E). lia.
  - intros x Hx. destruct (decide (x = pr)) as [->|]; [done|]. rewrite lookup_insert_ne in Hx by done. by apply H14.
  - intros i root Hi Hne. destruct (H15 i root Hi Hne) as [Ho Hd']. split; [done|].
    intros x J [[<- <-]|[_ HJ]]%lookup_insert_Some; [intros E; by eapply Hroot|by eapply Hd'].
Qed.

(** The free list of a new page, from the last block down. *)
Fixpoint down (pg sz : Z) (n : nat) : list Z := match n with O => [] | S n' => pg + Z.of_nat n' * sz :: down pg sz n' end.

Lemma elem_down pg sz n a : a ∈ down pg sz n ↔ ∃ k, 0 ≤ k < Z.of_nat n ∧ a = pg + k * sz.
Proof.
  induction n as [|n IH]; cbn [down]; [rewrite elem_of_nil; split; [done|intros (k & ? & _); lia]|].
  rewrite elem_of_cons, IH. split.
  - intros [->|(k & ? & ->)]; [exists (Z.of_nat n)|exists k]; split; (done || lia).
  - intros (k & Hk & ->). destruct (decide (k = Z.of_nat n)) as [->|]; [by left|right]. exists k. split; [lia|done].
Qed.

Lemma down_length pg sz n : length (down pg sz n) = n.
Proof. induction n as [|n IH]; cbn; [done|by rewrite IH]. Qed.

Lemma down_nodup pg sz n : 0 < sz → NoDup (down pg sz n).
Proof.
  intros Hs. induction n as [|n IH]; cbn; constructor; [|done]. intros (k & Hk & E)%elem_down. assert (k = Z.of_nat n) by nia. lia.
Qed.

Lemma down_linked next pg sz n : 0 < pg → 0 < sz → next pg = Some 0 →
  (∀ k, 1 ≤ k < Z.of_nat n → next (pg + k * sz) = Some (pg + (k - 1) * sz)) →
  linked next (default 0 (head (down pg sz n))) (down pg sz n).
Proof.
  intros Hp Hs H0. induction n as [|n IH]; intros Hn; [done|]. cbn [down head default linked]. split; [done|]. split; [nia|].
  exists (default 0 (head (down pg sz n))). split; [|apply IH; intros; apply Hn; lia].
  destruct n as [|n]; [cbn; by rewrite Z.add_0_r|]. rewrite Hn by lia. cbn [down head default]. by replace (Z.of_nat (S n) - 1) with (Z.of_nat n) by lia.
Qed.

Lemma link_blocks_correct n m fla sz i fl : 0 < sz → ∃ m', link_blocks n m fla sz i fl =
    Ret (m', if decide (n = 0%nat) then fl else fla + (i + Z.of_nat n - 1) * sz) ∧
  (∀ k, i ≤ k < i + Z.of_nat n → m' !! (fla + k * sz) = Some (fla + (k - 1) * sz)) ∧
  (∀ a, (∀ k, i ≤ k < i + Z.of_nat n → a ≠ fla + k * sz) → m' !! a = m !! a).
Proof.
  intros Hs. revert m i fl. induction n as [|n IH]; intros m i fl; cbn [link_blocks].
  { exists m. split_and!; [done|intros; lia|done]. }
  rewrite (proj2 (Z.eqb_neq _ _)) by nia. cbn [negb kassert mbind res_bind].
  destruct (IH (<[fla + i * sz := fla + (i - 1) * sz]> m) (i + 1) (fla + i * sz)) as (m' & -> & Hin & Hout).
  exists m'. split_and!.
  - do 2 f_equal. rewrite (decide_False (P := S n = 0%nat)) by done. case_decide; [subst n; f_equal; nia|f_equal; nia].
  - intros k Hk. destruct (decide (k = i)) as [->|]; [|apply Hin; lia].
    rewrite Hout; [apply lookup_insert_eq|]. intros k Hk'. nia.
  - intros a Ha. rewrite Hout, lookup_insert_ne; [done|intros <-; eapply (Ha i); [lia|done]|]. intros k Hk. apply Ha. lia.
Qed.

(** ** Live blocks *)

(** A live block lies inside pages that are owned: a page of blocks, or its own pages. *)
Lemma live_inside h G live p n : heap_ok h G live → live !! p = Some n →
  0 < n ∧ ((∃ pr I, G !! pr = Some I ∧ is_block I p ∧ n = bsize I.(i_type) ∧ p + n ≤ I.(i_page) + 4096) ∨
  ((∀ pr I, G !! pr = Some I → ¬ on_page I p) ∧ ∃ k, kp_owned h.(kpages) !! p = Some k ∧ n = k * 4096)).
Proof.
  intros Hh Hp. destruct (h_big _ _ _ Hh p n Hp) as [(pr & I & HI & Hon)|(k & Hk & -> & Hr)].
  - destruct (h_live _ _ _ Hh _ _ _ _ HI Hon Hp) as (Hb & _ & ->). pose proof (pg_type _ _ (h_pages _ _ _ Hh _ _ HI)) as Ht.
    destruct (bsize_facts _ Ht) as (Hs & _ & Hc & _). split; [lia|]. left. exists pr, I. split_and!; [done..|].
    destruct Hb as [_ Hm]. apply (aligned_lt I.(i_page)); [lia|done| |unfold on_page in Hon; lia].
    rewrite <-Hc. replace (I.(i_page) + cap I.(i_type) * bsize I.(i_type) - I.(i_page)) with (cap I.(i_type) * bsize I.(i_type)) by lia.
    apply Z.mod_mul. lia.
  - destruct (law_aligned _ _ _ (h_kpages _ _ _ Hh) Hk) as (_ & _ & Hk0 & _). split; [lia|].
    right. split; [|by exists k]. intros pr I HI Hon. destruct (h_live _ _ _ Hh _ _ _ _ HI Hon Hp) as (_ & _ & E).
    destruct (bsize_facts _ (pg_type _ _ (h_pages _ _ _ Hh _ _ HI))) as (Hs & _). lia.
Qed.

Lemma live_disjoint h G live p n q m : heap_ok h G live → live !! p = Some n → live !! q = Some m → p ≠ q → p + n ≤ q ∨ q + m ≤ p.
Proof.
  intros Hh Hp Hq Hne. destruct (live_inside _ _ _ _ _ Hh Hp) as (Hn & Cp), (live_inside _ _ _ _ _ Hh Hq) as (Hm & Cq).
  destruct Cp as [(x & I & HI & Hbp & En & Ep)|(Hoff & k & Hk & En)], Cq as [(y & J & HJ & Hbq & Em & Eq)|(Hoff' & l & Hl & Em)].
  - destruct (decide (x = y)) as [->|Hxy].
    + rewrite HI in HJ. injection HJ as <-. destruct Hbp as [_ Hmp], Hbq as [_ Hmq].
      destruct (decide (p < q)); [left; rewrite En; apply (aligned_lt I.(i_page)); (done || lia)|].
      right. rewrite Em. apply (aligned_lt I.(i_page)); (done || lia).
    + assert (I.(i_page) ≠ J.(i_page)) as Hd by (intros E; apply Hxy; by eapply h_distinct).
      pose proof (law_disjoint _ _ _ _ _ (h_kpages _ _ _ Hh) (h_owned _ _ _ Hh _ _ HI) (h_owned _ _ _ Hh _ _ HJ) Hd).
      destruct Hbp as [[? ?] _], Hbq as [[? ?] _]. lia.
  - assert (I.(i_page) ≠ q) as Hd by (intros <-; apply (Hoff' _ _ HI); unfold on_page; lia).
    pose proof (law_disjoint _ _ _ _ _ (h_kpages _ _ _ Hh) (h_owned _ _ _ Hh _ _ HI) Hl Hd). destruct Hbp as [[? ?] _]. lia.
  - assert (J.(i_page) ≠ p) as Hd by (intros <-; apply (Hoff _ _ HJ); unfold on_page; lia).
    pose proof (law_disjoint _ _ _ _ _ (h_kpages _ _ _ Hh) (h_owned _ _ _ Hh _ _ HJ) Hk Hd). destruct Hbq as [[? ?] _]. lia.
  - pose proof (law_disjoint _ _ _ _ _ (h_kpages _ _ _ Hh) Hk Hl Hne). lia.
Qed.

(** No live block reaches into pages that were not owned. *)
Lemma live_off_fresh h G live k pg c p n a : heap_ok h G live → kp_inv k → kp_owned h.(kpages) !! pg = None →
  kp_owned k = <[pg := c]> (kp_owned h.(kpages)) → live !! p = Some n → p ≤ a < p + n → ¬ pg ≤ a < pg + c * 4096.
Proof.
  intros Hh Hk Hpg Eo Hp Ha Hin.
  assert (∃ b m, kp_owned h.(kpages) !! b = Some m ∧ b ≤ p ∧ p + n ≤ b + m * 4096) as (b & m & Hb & ? & ?).
  { destruct (live_inside _ _ _ _ _ Hh Hp) as (_ & [(x & I & HI & [[? ?] _] & _ & ?)|(_ & m & Hm & ->)]).
    - exists I.(i_page), 1. split; [by eapply h_owned|lia].
    - exists p, m. split; [done|lia]. }
  assert (b ≠ pg) as Hne by congruence.
  assert (kp_owned k !! b = Some m) as Hb' by (by rewrite Eo, lookup_insert_ne).
  assert (kp_owned k !! pg = Some c) as Hc' by (by rewrite Eo, lookup_insert_eq).
  pose proof (law_disjoint _ _ _ _ _ Hk Hb' Hc' Hne). lia.
Qed.

(** ** Allocation below half a page *)

Lemma find_page_correct h G live t l fuel p : heap_ok h G live → linked (λ x, next_samesize <$> h.(refs) !! x) p l →
  (∀ x, x ∈ l → ∃ I, G !! x = Some I ∧ I.(i_type) = t) → (length l < fuel)%nat →
  (find_page fuel h p t = Ret 0 ∧ ∀ x I, x ∈ l → G !! x = Some I → I.(i_free) = []) ∨
  ∃ pr I a F, find_page fuel h p t = Ret pr ∧ pr ≠ 0 ∧ G !! pr = Some I ∧ I.(i_type) = t ∧ I.(i_free) = a :: F.
Proof.
  intros Hh. revert p fuel. induction l as [|x l IH]; intros p [|fuel] Hl HG Hf; [cbn in Hf; lia| |cbn in Hf; lia|]; cbn [find_page].
  { cbn in Hl. subst p. left. split; [done|]. by intros x I ?%elem_of_nil. }
  destruct Hl as (-> & Hx0 & q & Hq & Hl). destruct (HG x) as (I & HI & <-); [by left|].
  destruct (h_refs _ _ _ Hh _ _ HI) as (r & Hr & Hd). rewrite Hr in Hq. injection Hq as Eq.
  destruct (page_aligned _ _ _ _ _ Hh HI) as (Hal & Hp0 & Hp1). pose proof (pg_type _ _ (h_pages _ _ _ Hh _ _ HI)) as Ht.
  destruct (describes_read r I Hal Hp0 Hp1 Ht Hd) as [_ Et]. destruct Hd as (_ & Hn & _).
  rewrite (proj2 (Z.eqb_neq x 0)) by done. rewrite Hr. cbn [deref mbind res_bind]. rewrite Et, Z.eqb_refl. cbn [kassert mbind res_bind].
  rewrite Hn, Eq. destruct I.(i_free) as [|a F] eqn:EF.
  - cbn [length Z.of_nat Z.ltb Z.compare]. destruct (IH q fuel) as [[? Hno]|?]; [done|intros y Hy; apply HG; by right|cbn in Hf; lia|left|by right].
    split; [done|]. intros y J [->|Hy]%elem_of_cons HJ; [congruence|by eapply Hno].
  - rewrite (proj2 (Z.ltb_lt 0 _)) by (cbn; lia). right. by exists x, I, a, F.
Qed.

(** A block of at least [sz] bytes that overlaps no live one. *)
Record granted h (live : gmap Z Z) (sz p : Z) h' (n : Z) (G : gmap Z info) : Prop := Granted {
  gr_size : sz ≤ n;
  gr_address : p ≠ 0 ∧ p mod 16 = 0;
  gr_new : live !! p = None;
  gr_ok : heap_ok h' G (<[p := n]> live);
  gr_tight : tight G;
  gr_exhausted : ¬ exhausted h';
  gr_frames : frames live h h'
}.

Lemma block_aligned pg t a : pg mod 4096 = 0 → 0 ≤ t < 8 → (a - pg) mod bsize t = 0 → a mod 16 = 0.
Proof.
  intros Hpg Ht Ha. destruct (bsize_facts t Ht) as (Hs & Hd & _). apply Z.mod_divide in Ha as [x Hx]; [|lia].
  apply Z.mod_divide in Hd as [y Hy]; [|lia]. apply Z.mod_divide in Hpg as [z Hz]; [|lia].
  apply Z.mod_divide; [lia|]. exists (x * y + 256 * z). nia.
Qed.

Lemma tight_smaller G pr I F : tight G → Z.of_nat (length F) < cap I.(i_type) → tight (<[pr := Info I.(i_page) I.(i_type) F]> G).
Proof. intros Ht HF x J [[<- <-]|[_ HJ]]%lookup_insert_Some; [done|by eapply Ht]. Qed.

(** The first block of a page is granted. *)
Lemma doalloc_granted h0 h G live sz pr I a F : heap_ok h G live → G !! pr = Some I → I.(i_free) = a :: F → sz ≤ bsize I.(i_type) →
  (∀ x J, G !! x = Some J → x ≠ pr → Z.of_nat (length J.(i_free)) < cap J.(i_type)) → ¬ exhausted h → frames live h0 h →
  ∃ h' G', doalloc h pr = Ret (a, h') ∧ granted h0 live sz a h' (bsize I.(i_type)) G' ∧
    ∀ lost, accounts h G live lost → accounts h' G' (<[a := bsize I.(i_type)]> live) lost.
Proof.
  intros Hh HI HF Hsz Htight Hex Hfr. destruct (doalloc_correct h G live pr I a F Hh HI HF) as (h' & E & Ha0 & [Hon Hm] & Hnone & Hh' & Ew & Er & Ek).
  pose proof (h_pages _ _ _ Hh _ _ HI) as [Ht Hnd Hb _]. destruct (blocks_bound I I.(i_free) Ht Hnd Hb) as [Hc _]. rewrite HF in Hc. cbn in Hc.
  destruct (page_aligned _ _ _ _ _ Hh HI) as (Hal & _). exists h', (<[pr := Info I.(i_page) I.(i_type) F]> G).
  split; [done|]. split; [split; [done| |done|done| | |]|].
  - split; [done|]. by eapply block_aligned.
  - intros x J [[<- <-]|[Hne HJ]]%lookup_insert_Some; [cbn; lia|]. by apply (Htight x).
  - intros (i & x & Hx & ?). apply Hex. exists i, x. by rewrite <-Er.
  - intros p n b Hp Hpb. rewrite Ew. by eapply Hfr.
  - intros lost [Hu Hmk]. unfold accounts. rewrite Ek, Er, Hmk, map_size_insert, HI. split; [|done]. intros b n Hown.
    destruct (Hu b n Hown) as [(x & J & HJ & <-)|[(i & x & Hx & ?)|[c Hlc]]].
    + left. destruct (decide (x = pr)) as [->|]; [|exists x, J; by rewrite lookup_insert_ne].
      rewrite HI in HJ. injection HJ as <-. exists pr. eexists. by rewrite lookup_insert_eq.
    + right. left. exists i, x. by rewrite Er.
    + right. right. rewrite lookup_insert_is_Some. destruct (decide (a = b)); [by left|right; split; [done|by exists c]].
Qed.

(** The page [pg] cut into blocks. *)
Lemma new_page_ok h G live pr pg t m : heap_ok h G live → G !! pr = None → in_use h.(kheaproots) pr → 0 ≤ t < 8 →
  kp_owned h.(kpages) !! pg = Some 1 → (∀ x J, G !! x = Some J → J.(i_page) ≠ pg) →
  (∀ i root, h.(kheaproots) !! i = Some root → root.(page) ≠ pg) → (∀ a, pg ≤ a < pg + 4096 → live !! a = None) →
  m !! pg = Some 0 → (∀ k, 1 ≤ k < cap t → m !! (pg + k * bsize t) = Some (pg + (k - 1) * bsize t)) →
  (∀ a, ¬ pg ≤ a < pg + 4096 → m !! a = h.(words) !! a) →
  ∃ base, h.(sizebases) !! Z.to_nat t = Some base ∧
  heap_ok (Kheap m (<[pr := Pageref base h.(allbase) (pg + t) ((cap t - 1) * bsize t) (cap t)]> h.(refs)) h.(kheaproots)
    (<[Z.to_nat t := pr]> h.(sizebases)) pr h.(kpages)) (<[pr := Info pg t (down pg (bsize t) (Z.to_nat (cap t)))]> G) live.
Proof.
  intros Hh Hpr Huse Ht Hown Hnew Hroot Hlive H0 Hk Hout. destruct (bsize_facts t Ht) as (Hs & _ & Hc & Hcap).
  destruct (law_aligned _ _ _ (h_kpages _ _ _ Hh) Hown) as (Hal & Hp0 & _ & Hp1).
  assert (pr ≠ 0) as Hpr0.
  { destruct Huse as (i & x & j & Hx & Hne & Hj & -> & _). destruct (h_rootpage _ _ _ Hh _ _ Hx Hne) as [Ho _].
    destruct (law_aligned _ _ _ (h_kpages _ _ _ Hh) Ho) as (_ & ? & _). lia. }
  destruct (lookup_lt_is_Some_2 h.(sizebases) (Z.to_nat t)) as [base Hb]; [rewrite (h_sizebases _ _ _ Hh); lia|].
  exists base. split; [done|]. set (I := Info pg t (down pg (bsize t) (Z.to_nat (cap t)))).
  assert (∀ a, a ∈ I.(i_free) ↔ is_block I a) as Hblk.
  { intros a. rewrite <-elem_all_blocks by done. unfold all_blocks. cbn [i_free I i_page i_type]. rewrite elem_down, list_elem_of_fmap.
    split; [intros (k & Hk' & ->); exists k; split; [done|apply elem_of_seqZ; lia]|].
    intros (k & -> & Hk'%elem_of_seqZ). exists k. split; [lia|done]. }
  apply (heap_ok_new h G live pr _ m base I); try done.
  - split; cbn [i_free i_type I]; [done|apply down_nodup; lia|intros a Ha; by apply Hblk|].
    apply down_linked; [done|lia|done|]. intros k Hk'. apply Hk. lia.
  - intros a Ha. by apply Hblk.
  - split_and!; cbn [nfree pageaddr_and_blocktype freelist_offset i_page i_type i_free I]; [done|rewrite down_length; lia|].
    destruct (Z.to_nat (cap t)) as [|c] eqn:Ec; [lia|]. cbn [down]. replace (Z.of_nat c) with (cap t - 1) by lia. lia.
Qed.

Lemma newpage_correct h0 h G live sz t pg : h.(words) = h0.(words) → heap_ok h G live → tight G → ¬ exhausted h → kp_can h.(kpages) 1 → 0 ≤ t < 8 →
  sz ≤ bsize t → kp_owned h.(kpages) !! pg = Some 1 → ¬ used h G live pg →
  (∀ p n a, live !! p = Some n → p ≤ a < p + n → ¬ pg ≤ a < pg + 4096) →
  ∀ lost, (∀ b n, kp_owned h.(kpages) !! b = Some n → b ≠ pg → used h G live b) → marked h.(kheaproots) = Z.of_nat (size G) + lost →
  ∃ p h', subpage_newpage h t pg = Ret (p, h') ∧
    (p = 0 ∧ heap_ok h' G live ∧ h'.(words) = h0.(words) ∧ (∃ lost', lost ≤ lost' ≤ lost + 1 ∧ accounts h' G live lost') ∧
       (marked h.(kheaproots) = 4096 ∨ ∃ k, alloc_kpages h.(kpages) 1 = Ret (0, k)) ∨
     ∃ G', granted h0 live sz p h' (bsize t) G' ∧ accounts h' G' (<[p := bsize t]> live) lost).
Proof.
  intros E0 Hh Htight Hex Hcan Ht Hts Hpg Hun Hoff lost Hacc Hmk. destruct (bsize_facts t Ht) as (Hs & _ & Hc & Hcap). unfold subpage_newpage.
  destruct (allocpageref_loop_correct 16 0 h G live Hh Hex Hcan) as (pr & h1 & E & [Hh1 (Ew & Er & Es & Ea) Hown Htaken Hkept Hnone Hmarked Hroots Hnew]); [done|lia|].
  unfold allocpageref. change (Z.to_nat NUM_PAGEREFPAGES) with 16%nat. change (Z.of_nat 0) with 0 in E. rewrite E. cbn [mbind res_bind].
  pose proof (Hown _ _ Hpg) as Hpg1.
  assert (¬ used h1 G live pg) as Hun1.
  { intros [Hu|[(i & x & Hx & Ex & Hne)|Hu]]; apply Hun; [by left| |by right; right].
    destruct (Hroots i x Hx) as [(y & Hy & Ey)|Hno]; [congruence| |rewrite Ex, Hpg in Hno; done].
    right. left. exists i, y. split_and!; [done|congruence|done]. }
  assert (∀ b n, kp_owned h1.(kpages) !! b = Some n → b ≠ pg → used h1 G live b) as Hacc1.
  { intros b n Hb Hne. destruct (Htaken b n Hb) as [Hb'|?]; [|by right; left]. destruct (Hacc b n Hb' Hne) as [?|[(i & x & Hx & <- & Hx0)|?]]; [by left| |by right; right].
    right. left. destruct (Hkept i x Hx Hx0) as (y & Hy & Ey). exists i, y. by split_and!. }
  destruct (Z.eqb_spec pr 0) as [->|Hpr0].
  { destruct (law_free h1.(kpages) pg 1 (h_kpages _ _ _ Hh1) Hpg1) as (k & -> & Hk & Eo). cbn [mbind res_bind].
    eexists _, _. split; [done|left]. destruct (Hnone eq_refl) as [Hle Hwhy]. split_and!; [done| |by cbn; rewrite Ew| |done].
    - apply heap_ok_kpages; [done..|]. intros b n Hu Hb. rewrite Eo, lookup_delete_ne; [done|]. by intros <-.
    - exists (marked h1.(kheaproots) - Z.of_nat (size G)). split; [lia|]. split; cbn [set_kpages kheaproots kpages]; [|lia]. rewrite Eo.
      intros b n [Hne Hb]%lookup_delete_Some. apply (Hacc1 b n Hb (not_eq_sym Hne)). }
  destruct (Hnew Hpr0) as (HG & Huse & Hex1). rewrite (sizes_at t Ht). cbn [mbind res_bind].
  change (PAGE_SIZE / bsize t) with (cap t). rewrite (u16_small (cap t)) by lia.
  destruct (link_blocks_correct (Z.to_nat (cap t - 1)) (<[pg := 0]> h1.(words)) pg (bsize t) 1 pg) as (m & -> & Hin & Hout); [lia|].
  rewrite decide_False by lia. cbn [mbind res_bind]. rewrite Z2Nat.id in * by lia.
  replace (pg + (1 + (cap t - 1) - 1) * bsize t - pg) with ((cap t - 1) * bsize t) by lia.
  rewrite u16_small, Z.eqb_refl by nia. cbn [kassert mbind res_bind].
  destruct (law_aligned _ _ _ (h_kpages _ _ _ Hh1) Hpg1) as (Hal & Hp0 & _ & Hp1). rewrite mkpab_eq by (done || lia).
  destruct (new_page_ok h1 G live pr pg t m Hh1 HG Huse Ht Hpg1) as (base & Hb & Hh2).
  - intros x J HJ E'. apply Hun1. left. by exists x, J.
  - intros i x Hx E'. apply Hun1. right. left. exists i, x. split_and!; [done..|lia].
  - intros a Ha. destruct (live !! a) as [n|] eqn:El; [|done]. destruct (live_inside _ _ _ _ _ Hh El) as [Hn _].
    exfalso. apply (Hoff a n a El); lia.
  - rewrite Hout, lookup_insert_eq; [done|]. intros k Hk. nia.
  - intros k Hk. apply Hin. lia.
  - intros a Ha. rewrite Hout, lookup_insert_ne; [done|lia|]. intros k Hk ->. nia.
  - rewrite (rd_lookup _ t base) by (done || lia). cbn [mbind res_bind]. rewrite wr_in_range by (rewrite (h_sizebases _ _ _ Hh1); lia).
    cbn [mbind res_bind]. set (h2 := Kheap _ _ _ _ _ _) in *.
    destruct (Z.to_nat (cap t)) as [|c] eqn:Ec; [lia|].
    destruct (doalloc_granted h0 h2 _ live sz pr _ (pg + Z.of_nat c * bsize t) (down pg (bsize t) c) Hh2 (lookup_insert_eq _ _ _)) as (h' & G' & Ed & Hg & Hga); try done.
    + intros x J HJ Hne. rewrite lookup_insert_ne in HJ by done. by eapply Htight.
    + intros p n a Hp Ha. cbn [h2 words]. rewrite Hout, lookup_insert_ne; [by rewrite Ew, E0|..].
      * intros <-. apply (Hoff _ _ _ Hp Ha). lia.
      * intros k Hk ->. apply (Hoff _ _ _ Hp Ha). nia.
    + eexists _, _. split; [exact Ed|right]. exists G'. split; [done|]. apply Hga. split.
      * intros b n Hq. cbn [h2 kpages] in Hq. destruct (decide (b = pg)) as [->|Hne]; [left; exists pr; eexists; by rewrite lookup_insert_eq|].
        destruct (Hacc1 b n Hq Hne) as [(x & J & HJ & ?)|[?|?]]; [left|by right; left|by right; right].
        exists x, J. rewrite lookup_insert_ne; [done|congruence].
      * cbn [h2 kheaproots]. rewrite (Hmarked Hpr0), map_size_insert, HG. cbn [is_Some_dec]. lia.
Qed.

(** No page can be had, for blocks or for pagerefs, or there are no pagerefs left. *)
Definition no_pages h : Prop :=
  (∃ k, alloc_kpages h.(kpages) 1 = Ret (0, k)) ∨
  (∃ a k k', alloc_kpages h.(kpages) 1 = Ret (a, k) ∧ alloc_kpages k 1 = Ret (0, k')) ∨ marked h.(kheaproots) = 4096.

Lemma subpage_kmalloc_correct h G live sz t : heap_ok h G live → tight G → ¬ exhausted h → kp_can h.(kpages) 2 →
  blocktype sz = Ret t → 0 ≤ t < 8 → sz ≤ bsize t → ∀ lost, accounts h G live lost →
  ∃ p h', subpage_kmalloc h sz = Ret (p, h') ∧
    (p = 0 ∧ heap_ok h' G live ∧ h'.(words) = h.(words) ∧ (∃ lost', lost ≤ lost' ≤ lost + 1 ∧ accounts h' G live lost') ∧
       no_pages h ∧ (∀ pr I, G !! pr = Some I → I.(i_type) = t → I.(i_free) = []) ∨
     ∃ G', granted h live sz p h' (bsize t) G' ∧ accounts h' G' (<[p := bsize t]> live) lost).
Proof.
  intros Hh Htight Hex Hcan Et Ht Hts lost Hacc. unfold subpage_kmalloc. rewrite Et.
  cbn [mbind res_bind]. destruct (bsize_facts t Ht) as (Hs & _ & Hc & Hcap).
  destruct (lookup_lt_is_Some_2 h.(sizebases) (Z.to_nat t)) as [base Hb]; [rewrite (h_sizebases _ _ _ Hh); lia|].
  rewrite (rd_lookup _ t base) by (done || lia). cbn [mbind res_bind].
  destruct (h_same _ _ _ Hh _ _ Hb) as (l & Hl & Hnd & Hx). rewrite Z2Nat.id in Hx by lia.
  assert (length l < list_fuel h)%nat as Hfuel.
  { unfold list_fuel. apply Nat.lt_succ_r, nodup_bound; [done|]. intros x (I & HI & _)%Hx.
    destruct (h_refs _ _ _ Hh _ _ HI) as (r & Hr & _). by exists r. }
  destruct (find_page_correct h G live t l (list_fuel h) base Hh Hl) as [[-> Hfull]|(pr & I & a & F & -> & Hpr0 & HI & EI & HF)];
    [intros x ?; by apply Hx|done|..]; cbn [mbind res_bind].
  2: { rewrite (proj2 (Z.eqb_neq pr 0)) by done. cbn [negb].
       destruct (doalloc_granted h h G live sz pr I a F) as (h' & G' & E & Hg & Hga); try done; [by rewrite EI|by intros; eapply Htight|].
       exists a, h'. split; [done|right]. exists G'. rewrite <-EI. split; [done|by apply Hga]. }
  assert (∀ pr I, G !! pr = Some I → I.(i_type) = t → I.(i_free) = []) as Hfull'.
  { intros pr I HI EI. apply (Hfull pr I); [|done]. apply Hx. by exists I. }
  cbn [Z.eqb negb]. pose proof (h_kpages _ _ _ Hh) as Hk.
  destruct (law_can h.(kpages) 1 1 0 h.(kpages) Hk ltac:(lia) ltac:(lia) Hcan) as [Hcan1 _].
  destruct (law_alloc h.(kpages) 1 Hk ltac:(lia) Hcan1) as (pg & k & Ea & Hk' & Hcase). rewrite Ea. cbn [mbind res_bind].
  destruct (law_can h.(kpages) 1 1 pg k Hk ltac:(lia) ltac:(lia) Hcan) as [_ Hcan']. specialize (Hcan' Ea).
  destruct Hcase as [[-> Eo]|(Hpg0 & Hpg & Eo)].
  { cbn [Z.eqb]. eexists _, _. split; [done|left]. split_and!; [done| |done| |by left; exists k|done].
    - apply heap_ok_kpages; [done..|]. intros b n _. by rewrite Eo.
    - exists lost. split; [lia|]. destruct Hacc as [Hu ?]. split; [|done]. cbn. by rewrite Eo. }
  rewrite (proj2 (Z.eqb_neq pg 0)) by done. assert (kp_owned k !! pg = Some 1) as Hpg' by (by rewrite Eo, lookup_insert_eq).
  destruct (law_aligned k pg 1 Hk' Hpg') as (Hal & Hp0 & _). unfold PAGE_SIZE. rewrite Hal. cbn [Z.eqb kassert mbind res_bind].
  assert (∀ p n a, live !! p = Some n → p ≤ a < p + n → ¬ pg ≤ a < pg + 4096) as Hoff.
  { intros p n a Hp Ha. apply (live_off_fresh h G live k pg 1 p n a); done. }
  destruct Hacc as [Hu Hmk]. destruct (newpage_correct h (set_kpages h k) G live sz t pg) with (lost := lost) as (p & h' & E & Hres); try done; cycle 3.
  { exists p, h'. split; [done|]. destruct Hres as [(-> & ? & ? & ? & Hwhy)|?]; [left|by right]. split_and!; try done.
    right. destruct Hwhy as [?|(k' & ?)]; [by right|left]. by exists pg, k, k'. }
  - apply heap_ok_kpages; [done..|]. intros b n _ Hb'. rewrite Eo, lookup_insert_ne; [done|congruence].
  - intros [(x & I & HI & E)|[(i & x & Hx' & E & _)|[n Hn]]].
    + rewrite <-E, (h_owned _ _ _ Hh _ _ HI) in Hpg. done.
    + destruct (h_rootpage _ _ _ Hh i x Hx') as [Ho _]; [lia|]. congruence.
    + destruct (live_inside _ _ _ _ _ Hh Hn) as [? _]. apply (Hoff pg n pg Hn); lia.
  - intros b n Hbn Hne. cbn [set_kpages kpages] in Hbn. rewrite Eo, lookup_insert_ne in Hbn by congruence. by apply (Hu b n).
Qed.

(** ** Taking a page off the lists *)

(** All of a pageref but its links. *)
Definition body (r : pageref) : Z * Z * Z := (r.(pageaddr_and_blocktype), r.(freelist_offset), r.(nfree)).

Definition relink (last guy : option Z) : option Z := match last with Some g => Some g | None => guy end.

Lemma relink_cons y l guy : relink (last (y :: l)) guy = relink (last l) (Some y).
Proof.
  destruct l as [|z l]; [done|]. change (last (y :: z :: l)) with (last (z :: l)).
  destruct (last (z :: l)) eqn:E; [done|by apply last_None in E].
Qed.

Lemma remove_samesize_loop fuel h guy cur pr t l1 l2 : linked (λ x, next_samesize <$> h.(refs) !! x) cur (l1 ++ pr :: l2) →
  NoDup (l1 ++ pr :: l2) → (length l1 < fuel)%nat → ∃ r, h.(refs) !! pr = Some r ∧
  remove_samesize fuel h guy cur pr t =
    match relink (last l1) guy with
    | None => l ← h.(sizebases).[t <- r.(next_samesize)]; Ret (set_sizebases h l)
    | Some g => x ← deref (h.(refs) !! g); Ret (set_refs h (<[g := set_next_samesize x r.(next_samesize)]> h.(refs)))
    end.
Proof.
  revert guy cur fuel. induction l1 as [|y l1 IH]; intros guy cur [|fuel] Hl Hnd Hf; [cbn in Hf; lia| |cbn in Hf; lia|]; cbn [remove_samesize].
  - destruct Hl as (-> & Hpr & q & Hq & _). apply fmap_Some in Hq as (r & Hr & _). exists r. split; [done|].
    rewrite (proj2 (Z.eqb_neq pr 0)) by done. rewrite Hr. cbn [deref mbind res_bind]. by rewrite Z.eqb_refl.
  - destruct Hl as (-> & Hy & q & Hq & Hl). apply fmap_Some in Hq as (x & Hx & Eq). apply NoDup_cons in Hnd as [Hni Hnd].
    destruct (IH (Some y) q fuel Hl Hnd) as (r & Hr & E); [cbn in Hf; lia|]. exists r. split; [done|].
    rewrite (proj2 (Z.eqb_neq y 0)) by done. rewrite Hx. cbn [deref mbind res_bind].
    rewrite (proj2 (Z.eqb_neq y pr)) by (intros ->; apply Hni, elem_of_app; right; left). by rewrite <-Eq, E, relink_cons.
Qed.

Lemma remove_all_loop fuel h guy cur pr l1 l2 : linked (λ x, next_all <$> h.(refs) !! x) cur (l1 ++ pr :: l2) →
  NoDup (l1 ++ pr :: l2) → (length l1 < fuel)%nat → ∃ r, h.(refs) !! pr = Some r ∧
  remove_all fuel h guy cur pr =
    match relink (last l1) guy with
    | None => Ret (set_allbase h r.(next_all))
    | Some g => x ← deref (h.(refs) !! g); Ret (set_refs h (<[g := set_next_all x r.(next_all)]> h.(refs)))
    end.
Proof.
  revert guy cur fuel. induction l1 as [|y l1 IH]; intros guy cur [|fuel] Hl Hnd Hf; [cbn in Hf; lia| |cbn in Hf; lia|]; cbn [remove_all].
  - destruct Hl as (-> & Hpr & q & Hq & _). apply fmap_Some in Hq as (r & Hr & _). exists r. split; [done|].
    rewrite (proj2 (Z.eqb_neq pr 0)) by done. rewrite Hr. cbn [deref mbind res_bind]. by rewrite Z.eqb_refl.
  - destruct Hl as (-> & Hy & q & Hq & Hl). apply fmap_Some in Hq as (x & Hx & Eq). apply NoDup_cons in Hnd as [Hni Hnd].
    destruct (IH (Some y) q fuel Hl Hnd) as (r & Hr & E); [cbn in Hf; lia|]. exists r. split; [done|].
    rewrite (proj2 (Z.eqb_neq y 0)) by done. rewrite Hx. cbn [deref mbind res_bind].
    rewrite (proj2 (Z.eqb_neq y pr)) by (intros ->; apply Hni, elem_of_app; right; left). by rewrite <-Eq, E, relink_cons.
Qed.

(** One link of the map of pagerefs is changed. *)
Lemma relinked (m : gmap Z pageref) (f f' : pageref → Z) g x y : m !! g = Some x → body y = body x → f' y = f' x →
  (∀ z, body <$> (<[g := y]> m) !! z = body <$> m !! z) ∧ (∀ z, f' <$> (<[g := y]> m) !! z = f' <$> m !! z) ∧
  (∀ z, z ≠ g → f <$> (<[g := y]> m) !! z = f <$> m !! z) ∧ f <$> (<[g := y]> m) !! g = Some (f y) ∧
  (∀ z, is_Some ((<[g := y]> m) !! z) ↔ is_Some (m !! z)).
Proof.
  intros Hx Hb Hf. split_and!; try (intros z; destruct (decide (z = g)) as [->|]; [rewrite lookup_insert_eq, Hx|by rewrite lookup_insert_ne]).
  - cbn. by rewrite Hb.
  - cbn. by rewrite Hf.
  - done.
  - by rewrite lookup_insert_eq.
  - done.
Qed.

(** A list is split at one of its elements. *)
Lemma split_list (l : list Z) x : x ∈ l → NoDup l → ∃ l1 l2, l = l1 ++ x :: l2 ∧ NoDup (l1 ++ l2) ∧ ∀ y, y ∈ l1 ++ l2 ↔ y ∈ l ∧ y ≠ x.
Proof.
  intros (l1 & l2 & ->)%list_elem_of_split Hnd. exists l1, l2. split; [done|].
  apply NoDup_app in Hnd as (H1 & H2 & H3). apply NoDup_cons in H3 as [H4 H5].
  split; [apply NoDup_app; split_and!; [done| |done]; intros y Hy Hy'; apply (H2 y Hy); by right|].
  intros y. rewrite !elem_of_app, elem_of_cons. split; [|naive_solver].
  intros [Hy|Hy]; (split; [auto|]); intros ->; [apply (H2 x Hy); left|done].
Qed.

Lemma list_short h G live (l : list Z) : heap_ok h G live → NoDup l → (∀ x, x ∈ l → is_Some (G !! x)) → (length l < list_fuel h)%nat.
Proof.
  intros Hh Hnd Hx. unfold list_fuel. apply Nat.lt_succ_r, nodup_bound; [done|]. intros x [I HI]%Hx.
  destruct (h_refs _ _ _ Hh _ _ HI) as (r & Hr & _). by exists r.
Qed.

Lemma remove_samesize_ok h G live pr I base : heap_ok h G live → G !! pr = Some I → h.(sizebases) !! Z.to_nat I.(i_type) = Some base →
  ∃ h1, remove_samesize (list_fuel h) h None base pr I.(i_type) = Ret h1 ∧ h1.(words) = h.(words) ∧ h1.(kheaproots) = h.(kheaproots) ∧
    h1.(allbase) = h.(allbase) ∧ h1.(kpages) = h.(kpages) ∧ length h1.(sizebases) = 8%nat ∧
    (∀ z, body <$> h1.(refs) !! z = body <$> h.(refs) !! z) ∧ (∀ z, next_all <$> h1.(refs) !! z = next_all <$> h.(refs) !! z) ∧
    list_fuel h1 = list_fuel h ∧
    ∀ t p, h1.(sizebases) !! t = Some p → ∃ l, linked (λ x, next_samesize <$> h1.(refs) !! x) p l ∧ NoDup l ∧
      ∀ x, x ∈ l ↔ ∃ J, delete pr G !! x = Some J ∧ J.(i_type) = Z.of_nat t.
Proof.
  intros Hh HI Hb. pose proof (pg_type _ _ (h_pages _ _ _ Hh _ _ HI)) as Ht. pose proof (h_sizebases _ _ _ Hh) as Hlen.
  destruct (h_same _ _ _ Hh _ _ Hb) as (l & Hl & Hnd & Hx). rewrite Z2Nat.id in Hx by lia.
  assert (pr ∈ l) as Hpr by (apply Hx; by exists I).
  assert (length l < list_fuel h)%nat as Hf by (eapply list_short; [done..|]; intros x (J & HJ & _)%Hx; by exists J).
  destruct (split_list l pr Hpr Hnd) as (l1 & l2 & -> & Hnd' & Hmem).
  destruct (remove_samesize_loop (list_fuel h) h None base pr I.(i_type) l1 l2 Hl Hnd) as (r & Hr & ->); [rewrite length_app in Hf; lia|].
  assert (∀ t x, (∃ J, delete pr G !! x = Some J ∧ J.(i_type) = Z.of_nat t) ↔ (∃ J, G !! x = Some J ∧ J.(i_type) = Z.of_nat t) ∧ x ≠ pr) as Hdel.
  { intros t x. setoid_rewrite lookup_delete_Some. naive_solver. }
  destruct (last l1) as [g|] eqn:Elast; cbn [relink].
  - assert (g ∈ l1) as Hg by (by eapply last_Some_elem_of). assert (g ∈ l1 ++ pr :: l2) as Hgl by (apply elem_of_app; by left).
    destruct (proj1 (Hx g) Hgl) as (J & HJ & EJ). destruct (h_refs _ _ _ Hh _ _ HJ) as (x & Hxg & _). rewrite Hxg. cbn [deref mbind res_bind].
    eexists. split; [done|]. cbn [set_refs words refs kheaproots sizebases allbase kpages].
    destruct (relinked h.(refs) next_samesize next_all g x (set_next_samesize x r.(next_samesize)) Hxg eq_refl eq_refl) as (R1 & R2 & R3 & R4 & _).
    split_and!; [done..| |]. { unfold list_fuel. cbn [set_refs refs]. f_equal. by rewrite map_size_insert_Some by done. }
    intros t p Hp. setoid_rewrite Hdel. destruct (decide (t = Z.to_nat I.(i_type))) as [->|Hne].
    + rewrite Hb in Hp. injection Hp as <-. exists (l1 ++ l2). split_and!; [|done|intros y; rewrite Hmem, Hx, Z2Nat.id by lia; naive_solver].
      edestruct (linked_remove _ base l1 pr l2 (λ x0, next_samesize <$> <[g:=set_next_samesize x (next_samesize r)]> (refs h) !! x0) Hl Hnd) as (q & _ & Hl').
      * intros y _ Hy. apply R3. congruence.
      * intros y Hy. rewrite Elast in Hy. injection Hy as <-. rewrite R4, Hr. done.
      * rewrite decide_False in Hl'; [done|]. by intros ->.
    + destruct (h_same _ _ _ Hh _ _ Hp) as (l' & Hl' & Hn' & Hx'). exists l'. split_and!; [|done|].
      * eapply linked_ext; [|exact Hl']. intros y (K & HK & EK)%Hx'. apply R3. intros ->. rewrite HJ in HK. injection HK as <-. lia.
      * intros y. rewrite Hx'. split; [|naive_solver]. intros Hy. split; [done|]. intros ->. destruct Hy as (K & HK & EK). rewrite HI in HK. injection HK as <-. lia.
  - rewrite wr_in_range by lia. cbn [mbind res_bind]. eexists. split; [done|]. cbn [set_sizebases words refs kheaproots sizebases allbase kpages].
    split_and!; [done..|by rewrite length_insert|done|done|done|]. apply last_None in Elast as ->. cbn [app] in *.
    destruct Hl as (_ & _ & q & Hq & Hl). rewrite Hr in Hq. injection Hq as <-.
    intros t p [(<- & <- & _)|[Hne Hp]]%list_lookup_insert_Some; setoid_rewrite Hdel.
    + exists l2. split_and!; [done..|]. intros y. rewrite Hmem, Hx, Z2Nat.id by lia. done.
    + destruct (h_same _ _ _ Hh _ _ Hp) as (l' & Hl' & Hn' & Hx'). exists l'. split_and!; [done..|].
      intros y. rewrite Hx'. split; [|naive_solver]. intros Hy. split; [done|]. intros ->. destruct Hy as (K & HK & EK). rewrite HI in HK. injection HK as <-. lia.
Qed.

Lemma linked_next next p l x : linked next p l → x ∈ l → ∃ q, next x = Some q ∧ x ≠ 0.
Proof.
  revert p. induction l as [|y l IH]; intros p Hl Hx; [by apply elem_of_nil in Hx|].
  destruct Hl as (_ & Hy & q & Hq & Hl). apply elem_of_cons in Hx as [->|Hx]; [by exists q|by apply (IH q)].
Qed.

Lemma remove_all_ok h (G : gmap Z info) pr l : linked (λ x, next_all <$> h.(refs) !! x) h.(allbase) l → NoDup l →
  (∀ x, x ∈ l ↔ is_Some (G !! x)) → pr ∈ l → (length l < list_fuel h)%nat →
  ∃ h1, remove_all (list_fuel h) h None h.(allbase) pr = Ret h1 ∧ h1.(words) = h.(words) ∧ h1.(kheaproots) = h.(kheaproots) ∧
    h1.(sizebases) = h.(sizebases) ∧ h1.(kpages) = h.(kpages) ∧ (∀ z, body <$> h1.(refs) !! z = body <$> h.(refs) !! z) ∧
    (∀ z, next_samesize <$> h1.(refs) !! z = next_samesize <$> h.(refs) !! z) ∧
    ∃ l', linked (λ x, next_all <$> h1.(refs) !! x) h1.(allbase) l' ∧ NoDup l' ∧ ∀ x, x ∈ l' ↔ is_Some (delete pr G !! x).
Proof.
  intros Hl Hnd Hx Hpr Hf. destruct (split_list l pr Hpr Hnd) as (l1 & l2 & -> & Hnd' & Hmem).
  destruct (remove_all_loop (list_fuel h) h None h.(allbase) pr l1 l2 Hl Hnd) as (r & Hr & ->); [rewrite length_app in Hf; lia|].
  assert (∀ x, x ∈ l1 ++ l2 ↔ is_Some (delete pr G !! x)) as Hdel.
  { intros x. rewrite Hmem, Hx, lookup_delete_is_Some. naive_solver. }
  destruct (last l1) as [g|] eqn:Elast; cbn [relink].
  - assert (g ∈ l1) as Hg by (by eapply last_Some_elem_of). assert (∃ x, h.(refs) !! g = Some x) as [x Hxg].
    { destruct (linked_next _ _ _ g Hl) as (q & (x & Hx' & _)%fmap_Some & _); [apply elem_of_app; by left|by exists x]. }
    rewrite Hxg. cbn [deref mbind res_bind]. eexists. split; [done|]. cbn [set_refs words refs kheaproots sizebases allbase kpages].
    destruct (relinked h.(refs) next_all next_samesize g x (set_next_all x r.(next_all)) Hxg eq_refl eq_refl) as (R1 & R2 & R3 & R4 & _).
    split_and!; [done..|]. exists (l1 ++ l2). split_and!; [|done|done].
    edestruct (linked_remove _ h.(allbase) l1 pr l2 (λ y, next_all <$> <[g:=set_next_all x (next_all r)]> (refs h) !! y) Hl Hnd) as (q & _ & Hl').
    + intros y _ Hy. apply R3. congruence.
    + intros y Hy. rewrite Elast in Hy. injection Hy as <-. rewrite R4, Hr. done.
    + rewrite decide_False in Hl'; [done|]. by intros ->.
  - eexists. split; [done|]. cbn [set_allbase words refs kheaproots sizebases allbase kpages]. split_and!; [done..|].
    apply last_None in Elast as ->. cbn [app] in *. destruct Hl as (_ & _ & q & Hq & Hl). rewrite Hr in Hq. injection Hq as <-. by exists l2.
Qed.

Lemma body_describes r r' I : body r' = body r → describes r I → describes r' I.
Proof. unfold body, describes. intros [= -> -> ->]. done. Qed.

(** The page of [pr] is taken off both lists. *)
Lemma remove_lists_ok h G live pr I : heap_ok h G live → G !! pr = Some I → (∀ a, on_page I a → live !! a = None) →
  ∃ h1, remove_lists h pr I.(i_type) = Ret h1 ∧ heap_ok h1 (delete pr G) live ∧ h1.(words) = h.(words) ∧
    h1.(kheaproots) = h.(kheaproots) ∧ h1.(kpages) = h.(kpages).
Proof.
  intros Hh HI Hnone. pose proof (pg_type _ _ (h_pages _ _ _ Hh _ _ HI)) as Ht. unfold remove_lists, NSIZES.
  rewrite (proj2 (Z.leb_le 0 _)), (proj2 (Z.ltb_lt _ 8)) by lia. cbn [andb kassert mbind res_bind].
  destruct (lookup_lt_is_Some_2 h.(sizebases) (Z.to_nat I.(i_type))) as [base Hb]; [rewrite (h_sizebases _ _ _ Hh); lia|].
  rewrite (rd_lookup _ _ base) by (done || lia). cbn [mbind res_bind].
  destruct (remove_samesize_ok h G live pr I base Hh HI Hb) as (h1 & -> & W1 & K1 & A1 & P1 & L1 & B1 & N1 & F1 & S1). cbn [mbind res_bind].
  destruct (h_all _ _ _ Hh) as (l & Hl & Hnd & Hx).
  destruct (remove_all_ok h1 G pr l) as (h2 & -> & W2 & K2 & S2 & P2 & B2 & N2 & Hall).
  { rewrite A1. eapply linked_ext; [|exact Hl]. intros x _. apply N1. }
  { done. } { done. } { apply Hx. by exists I. } { rewrite F1. eapply list_short; [done..|]. intros x. apply Hx. }
  exists h2. split; [done|]. rewrite W2, K2, P2, W1, K1, P1. split; [|done].
  assert (∀ z, body <$> h2.(refs) !! z = body <$> h.(refs) !! z) as Hbody by (intros z; by rewrite B2, B1).
  assert (∀ x J, delete pr G !! x = Some J → x ≠ pr ∧ G !! x = Some J) as Hdel.
  { intros x J. rewrite lookup_delete_Some. naive_solver. }
  destruct Hh as [H1 H2 H3 H4 H5 H6 H7 H8 H9 H10 H11 H12 H13 H14 H15 H16 H17].
  split; rewrite ?W2, ?K2, ?P2, ?W1, ?K1, ?P1; try done.
  - intros x J [_ HJ]%Hdel. by eapply H2.
  - intros x J [_ HJ]%Hdel. destruct (H3 x J HJ) as (r & Hr & Hd). specialize (Hbody x). rewrite Hr in Hbody. cbn in Hbody.
    apply fmap_Some in Hbody as (r' & Hr' & E). exists r'. split; [done|]. eapply body_describes; [|done]. congruence.
  - intros x J [_ HJ]%Hdel. by eapply H4.
  - intros x y J K [_ HJ]%Hdel [_ HK]%Hdel. by eapply H5.
  - intros x J a n [_ HJ]%Hdel. by eapply H6.
  - intros x J a [_ HJ]%Hdel. by eapply H7.
  - intros p n Hp. destruct (H8 p n Hp) as [(x & J & HJ & Ha)|?]; [left|by right]. exists x, J. split; [|done].
    rewrite lookup_delete_ne; [done|]. intros <-. rewrite HI in HJ. injection HJ as <-. by rewrite Hnone in Hp.
  - by rewrite S2.
  - rewrite S2. intros t p Hp. destruct (S1 t p Hp) as (l' & Hl' & Hn' & Hx'). exists l'. split_and!; [|done..].
    eapply linked_ext; [|exact Hl']. intros x _. apply N2.
  - intros x [J HJ]. apply Hdel in HJ as [_ HJ]. apply H14. by exists J.
  - intros i root Hi Hne. destruct (H15 i root Hi Hne) as [Ho Hd]. split; [done|]. intros x J [_ HJ]%Hdel. by eapply Hd.
Qed.

End Heap.
