(* ===== verification/KheapFree.v ===== *)
(** * Freeing, and the kernel heap as a whole (properties of kern/vm/kmalloc.c) *)

From S2P Require Import Prelude Kmalloc KheapInv.

Section Free.
Context {P : Type} `{KL : KPagesLaws P}.
#[local] Notation kheap := (kheap P).
Implicit Types h : kheap.

(** ** Giving a pageref back *)

Lemma freepageref_loop_correct n w h G live i x j : heap_ok h G live → h.(kheaproots) !! i = Some x → x.(page) ≠ 0 → 0 ≤ j < 256 →
  bit x.(pagerefs_inuse) j = true → G !! (x.(page) + 16 * j) = None → (n + w = 16)%nat → (w ≤ i)%nat →
  ∃ h', freepageref_loop n (Z.of_nat w) h (x.(page) + 16 * j) = Ret h' ∧ heap_ok h' G live ∧ h'.(words) = h.(words) ∧ h'.(kpages) = h.(kpages) ∧
    ∃ ws, h'.(kheaproots) = <[i := Root x.(page) ws (x.(numinuse) - 1)]> h.(kheaproots).
Proof.
  intros Hh Hi Hne Hj Hb HG. pose proof (lookup_lt_Some _ _ _ Hi) as Hlt. rewrite (h_nroots _ _ _ Hh) in Hlt.
  destruct (h_rootpage _ _ _ Hh _ _ Hi Hne) as [Ox _]. destruct (law_aligned _ _ _ (h_kpages _ _ _ Hh) Ox) as (Hxa & Hx0 & _ & Hx1).
  revert w. induction n as [|n IH]; intros w Hnw Hwi; [lia|]. cbn [freepageref_loop].
  destruct (lookup_lt_is_Some_2 h.(kheaproots) w) as [y Hw]; [rewrite (h_nroots _ _ _ Hh); lia|]. rewrite (rd_nat _ _ _ Hw). cbn [mbind res_bind].
  destruct (decide (w = i)) as [->|Hwne].
  - rewrite Hi in Hw. injection Hw as <-. rewrite (proj2 (Z.eqb_neq _ 0)) by done.
    replace (x.(page) + 16 * j - x.(page)) with (j * 16) by lia. rewrite Z.div_mul, u32_id by lia.
    unfold NPAGEREFS_PER_PAGE. rewrite (proj2 (Z.ltb_lt j 256)) by lia. destruct (h_roots _ _ _ Hh _ _ Hi) as [Hl Hu Hc].
    destruct (clear_bit_ok _ j Hl Hu Hj Hb) as (word & Hword & Hset & Hl' & Hu' & Hpop & Hbits).
    assert (0 ≤ j / 32) by (apply Z.div_pos; lia).
    rewrite (rd_lookup _ _ word) by done. cbn [mbind res_bind]. rewrite (proj2 (Z.eqb_neq _ 0)) by done. cbn [negb kassert mbind res_bind].
    assert (j / 32 < 8) by (apply Z.div_lt_upper_bound; lia). rewrite wr_in_range by lia. cbn [mbind res_bind].
    pose proof (popcount_pos _ j Hj Hb) as Hpos. rewrite (proj2 (Z.ltb_lt 0 _)) by lia. cbn [kassert mbind res_bind].
    rewrite wr_nat by (by eapply lookup_lt_Some). cbn [mbind res_bind]. eexists. split; [done|].
    split_and!; [|done|done|by eexists _]. eapply heap_ok_root; [done|exact Hi| |done|].
    + split; cbn; [done..|lia].
    + intros k Hk HGk Hkb. cbn. rewrite Hbits, Hkb by done. destruct (Z.eqb_spec k j) as [->|]; [|done]. rewrite HG in HGk. by destruct HGk.
  - assert (y.(page) ≠ 0) as Hyne by (eapply (h_prefix _ _ _ Hh w i); [done..|lia|done]).
    rewrite (proj2 (Z.eqb_neq _ 0)) by done. destruct (h_rootpage _ _ _ Hh _ _ Hw Hyne) as [Oy _].
    destruct (law_aligned _ _ _ (h_kpages _ _ _ Hh) Oy) as (Hya & Hy0 & _ & Hy1).
    assert (y.(page) ≠ x.(page)) as Hd by (intros E; apply Hwne; by eapply h_rootdistinct).
    pose proof (law_disjoint _ _ _ _ _ (h_kpages _ _ _ Hh) Oy Ox Hd) as Hdis.
    assert (256 ≤ u32 ((x.(page) + 16 * j - y.(page)) / 16)) as Hfar.
    { set (z := (x.(page) + 16 * j - y.(page)) / 16). assert (16 * z ≤ x.(page) + 16 * j - y.(page) < 16 * z + 16) as Hz.
      { subst z. pose proof (Z.div_mod (x.(page) + 16 * j - y.(page)) 16). pose proof (Z.mod_pos_bound (x.(page) + 16 * j - y.(page)) 16). lia. }
      destruct (decide (0 ≤ z)); [rewrite u32_id; lia|]. unfold u32. rewrite <-(Z.mod_add z 1) by done. rewrite Z.mod_small; lia. }
    unfold NPAGEREFS_PER_PAGE. rewrite (proj2 (Z.ltb_ge _ 256)) by done. replace (Z.of_nat w + 1) with (Z.of_nat (S w)) by lia.
    apply IH; lia.
Qed.

(** ** The page of a pointer *)

Lemma find_ptr_correct h G live l fuel p a : heap_ok h G live → linked (λ x, next_all <$> h.(refs) !! x) p l →
  (∀ x, x ∈ l → is_Some (G !! x)) → (length l < fuel)%nat →
  (find_ptr fuel h p a = Ret 0 ∧ ∀ x I, x ∈ l → G !! x = Some I → ¬ on_page I a) ∨
  ∃ pr I, find_ptr fuel h p a = Ret pr ∧ pr ≠ 0 ∧ G !! pr = Some I ∧ on_page I a.
Proof.
  intros Hh. revert p fuel. induction l as [|x l IH]; intros p [|fuel] Hl HG Hf; [cbn in Hf; lia| |cbn in Hf; lia|]; cbn [find_ptr].
  { cbn in Hl. subst p. left. split; [done|]. by intros x I ?%elem_of_nil. }
  destruct Hl as (-> & Hx0 & q & Hq & Hl). destruct (HG x) as (I & HI); [by left|].
  destruct (h_refs _ _ _ Hh _ _ HI) as (r & Hr & Hd). rewrite Hr in Hq. injection Hq as Eq.
  destruct (page_aligned _ _ _ _ _ Hh HI) as (Hal & Hp0 & Hp1). pose proof (pg_type _ _ (h_pages _ _ _ Hh _ _ HI)) as Ht.
  destruct (describes_read r I Hal Hp0 Hp1 Ht Hd) as [Ep Et]. rewrite (proj2 (Z.eqb_neq x 0)) by done. rewrite Hr.
  cbn [deref mbind res_bind]. rewrite Et, Ep. unfold NSIZES, PAGE_SIZE. rewrite (proj2 (Z.ltb_lt _ 8)) by lia. cbn [kassert mbind res_bind].
  destruct (Z.leb_spec I.(i_page) a), (Z.ltb_spec a (I.(i_page) + 4096)); cbn [andb];
    [right; exists x, I; unfold on_page; split_and!; (done || lia)|..].
  all: rewrite Eq; destruct (IH q fuel Hl) as [[E Hno]|Hyes]; [intros y Hy; apply HG; by right|cbn in Hf; lia|left|by right].
  all: split; [done|]; intros y J [->|Hy]%elem_of_cons HJ; [rewrite HI in HJ; injection HJ as <-; unfold on_page; lia|by eapply Hno].
Qed.

(** ** Filling a block *)

Lemma fill_loop_out n m a b : ¬ a ≤ b < a + 4 * Z.of_nat n → fill_loop n m a !! b = m !! b.
Proof.
  revert m a. induction n as [|n IH]; intros m a Hb; [done|]. cbn [fill_loop]. rewrite IH by lia. rewrite lookup_insert_ne; [done|lia].
Qed.

Lemma fill_out m a t b : 0 ≤ t < 8 → ¬ a ≤ b < a + bsize t → fill_deadbeef m a (bsize t) !! b = m !! b.
Proof.
  intros Ht Hb. unfold fill_deadbeef. apply fill_loop_out. destruct (bsize_facts t Ht) as (? & Hd & _).
  apply Z.mod_divide in Hd as [k Hk]; [|lia]. assert (bsize t / 4 = 4 * k) as ->; [|lia].
  rewrite Hk. replace (k * 16) with (4 * k * 4) by lia. apply Z.div_mul. lia.
Qed.

(** ** Freeing a block *)

Lemma give_back h G live pr I r p n : heap_ok h G live → G !! pr = Some I → h.(refs) !! pr = Some r → on_page I p → live !! p = Some n →
  let m := <[p := default 0 (head I.(i_free))]> (fill_deadbeef h.(words) p (bsize I.(i_type))) in
  let r' := Pageref r.(next_samesize) r.(next_all) r.(pageaddr_and_blocktype) (p - I.(i_page)) (r.(nfree) + 1) in
  describes r I →
  heap_ok (set_refs (set_words h m) (<[pr := r']> h.(refs))) (<[pr := Info I.(i_page) I.(i_type) (p :: I.(i_free))]> G) (delete p live) ∧
  Z.of_nat (length I.(i_free)) + 1 ≤ cap I.(i_type) ∧ is_block I p ∧ n = bsize I.(i_type) ∧ p ∉ I.(i_free) ∧
  (∀ a, ¬ p ≤ a < p + n → m !! a = h.(words) !! a).
Proof.
  intros Hh HI Hr Hon Hp m r' Hd. destruct (h_live _ _ _ Hh _ _ _ _ HI Hon Hp) as (Hb & Hni & ->).
  pose proof (h_pages _ _ _ Hh _ _ HI) as [Ht Hnd Hbl Hl]. destruct (bsize_facts _ Ht) as (Hs & _).
  destruct (page_aligned _ _ _ _ _ Hh HI) as (_ & Hp0 & _).
  assert (NoDup (p :: I.(i_free))) as Hnd' by (by constructor).
  assert (∀ a, a ∈ p :: I.(i_free) → is_block I a) as Hbl' by (intros a [->|Ha]%elem_of_cons; [done|by apply Hbl]).
  destruct (blocks_bound I _ Ht Hnd' Hbl') as [Hcap _]. cbn in Hcap.
  assert (∀ a, ¬ p ≤ a < p + bsize I.(i_type) → m !! a = h.(words) !! a) as Hout.
  { intros a Ha. unfold m. rewrite lookup_insert_ne by lia. by apply fill_out. }
  assert (p + bsize I.(i_type) ≤ I.(i_page) + 4096) as Hend.
  { destruct (live_inside _ _ _ _ _ Hh Hp) as (_ & [(x & J & HJ & [HJp _] & _ & He)|[Hno _]]); [|by destruct (Hno pr I HI)].
    assert (x = pr) as ->. { destruct (decide (x = pr)) as [|Hne]; [done|]. by destruct (pages_disjoint h G live x pr J I p Hh HJ HI Hne HJp). }
    rewrite HI in HJ. by injection HJ as <-. }
  split_and!; [|lia|done..]. pose proof Hb as [[? ?] Hpm].
  refine (heap_ok_page h G live pr I (p :: I.(i_free)) r r' m (delete p live) Hh HI Hr _ _ _ _ _ _ _); [done..| | | | |].
  - destruct Hd as (? & Hn & _). split_and!; cbn; [done|lia|done].
  - split; cbn [i_page i_type i_free]; [done..|]. cbn [head default linked]. split; [done|]. split; [lia|].
    exists (default 0 (head I.(i_free))). split; [apply lookup_insert_eq|]. eapply linked_ext; [|exact Hl]. intros a Ha. apply Hout.
    destruct (Hbl a Ha) as [_ Ham]. assert (a ≠ p) by congruence.
    destruct (decide (a < p)); [lia|]. pose proof (aligned_lt I.(i_page) (bsize I.(i_type)) p a ltac:(lia) Hpm Ham ltac:(lia)). lia.
  - intros a Ha. split; [apply Hout; unfold on_page in Ha; lia|]. rewrite lookup_delete_ne; [done|]. by intros <-.
  - intros a k Ha [Hne Hk]%lookup_delete_Some. destruct (h_live _ _ _ Hh _ _ _ _ HI Ha Hk) as (? & ? & ?). split_and!; [done| |done].
    by intros [->|]%elem_of_cons.
  - intros a Ha [<-|Hk]%lookup_delete_None; [by left|right]. by eapply h_free.
Qed.

(** A page that is free altogether is given back. *)
Lemma release_page h G live pr I : heap_ok h G live → G !! pr = Some I → Z.of_nat (length I.(i_free)) = cap I.(i_type) →
  ∃ h1 h2 k, remove_lists h pr I.(i_type) = Ret h1 ∧ freepageref h1 pr = Ret h2 ∧ free_kpages h2.(kpages) I.(i_page) = Ret k ∧
    heap_ok (set_kpages h2 k) (delete pr G) live ∧ h2.(words) = h.(words) ∧ kp_owned k = delete I.(i_page) (kp_owned h.(kpages)) ∧
    marked h2.(kheaproots) = marked h.(kheaproots) - 1 ∧ ∀ lost, accounts h G live lost → accounts (set_kpages h2 k) (delete pr G) live lost.
Proof.
  intros Hh HI Hfull. pose proof (h_pages _ _ _ Hh _ _ HI) as [Ht Hnd Hbl _].
  destruct (blocks_bound I _ Ht Hnd Hbl) as [_ Hall]. specialize (Hall Hfull).
  assert (∀ a, on_page I a → live !! a = None) as Hnone.
  { intros a Ha. destruct (live !! a) as [n|] eqn:E; [|done]. destruct (h_live _ _ _ Hh _ _ _ _ HI Ha E) as (Hb & Hni & _). by apply Hall in Hb. }
  destruct (remove_lists_ok h G live pr I Hh HI Hnone) as (h1 & E1 & Hh1 & W1 & K1 & P1).
  destruct (h_inuse _ _ _ Hh pr (mk_is_Some _ _ HI)) as (i & x & j & Hx & Hne & Hj & -> & Hb).
  destruct (freepageref_loop_correct 16 0 h1 _ live i x j Hh1) as (h2 & E2 & Hh2 & W2 & P2 & ws & Er);
    [by rewrite K1|done..|by apply lookup_delete_eq|done|lia|].
  destruct (law_free h2.(kpages) I.(i_page) 1) as (q & Eq & Hq & Eo); [apply Hh2|rewrite P2, P1; by eapply h_owned|].
  assert (marked h2.(kheaproots) = marked h.(kheaproots) - 1) as Em by (rewrite Er, K1, (marked_insert _ _ _ _ Hx); cbn; lia).
  rewrite P2, P1 in Eo. exists h1, h2, q. split_and!; [done|exact E2|done| |congruence|done|done|].
  - apply heap_ok_kpages; [done..|]. intros b n Hu Hb'. rewrite P2, P1 in Hb'. rewrite Eo, lookup_delete_ne; [done|]. intros <-. destruct Hu as [(y & J & HJ & E)|[(i' & y & Hy & E & _)|[c Hc]]].
    + apply lookup_delete_Some in HJ as [Hd HJ]. apply Hd. by apply (h_distinct _ _ _ Hh _ _ I J HI HJ).
    + destruct (h_rootpage _ _ _ Hh i x Hx Hne) as [_ Hd]. rewrite Er, K1 in Hy.
      apply list_lookup_insert_Some in Hy as [(<- & <- & _)|[_ Hy]]; [by eapply (Hd _ I)|].
      destruct (page_aligned _ _ _ _ _ Hh HI) as (_ & ? & _).
      destruct (h_rootpage _ _ _ Hh i' y Hy) as [_ Hd']; [lia|]. by eapply (Hd' _ I).
    + rewrite Hnone in Hc; [done|]. unfold on_page. lia.
  - intros lost [Hu Hm]. split; cbn [set_kpages kheaproots kpages].
    + rewrite Eo. intros b n [Hd Hb']%lookup_delete_Some. destruct (Hu b n Hb') as [(y & J & HJ & <-)|[(i' & y & Hy & <- & Hy0)|?]]; [left| |by right; right].
      * exists y, J. rewrite lookup_delete_ne; [done|]. intros <-. congruence.
      * right. left. cbn [set_kpages kheaproots]. rewrite Er, K1. destruct (decide (i' = i)) as [->|]; [|exists i', y; by rewrite list_lookup_insert_ne].
        rewrite Hx in Hy. injection Hy as <-. exists i. eexists. rewrite list_lookup_insert_eq by (by eapply lookup_lt_Some). done.
    + rewrite Em, Hm, map_size_delete, HI. assert (size G ≠ 0%nat) by (by apply map_size_ne_0_lookup; exists (x.(page) + 16 * j); exists I). lia.
Qed.

(** The pages stay as they are while other blocks of the page of [p] are live; otherwise the page is given back,
    and the pageref too that a page of blocks has. *)
Definition given_back h (live : gmap Z Z) (p n : Z) h' : Prop :=
  let pg := p - p mod 4096 in
  (∃ q m, delete p live !! q = Some m ∧ pg ≤ q < pg + 4096) ∧ kp_owned h'.(kpages) = kp_owned h.(kpages) ∧
    marked h'.(kheaproots) = marked h.(kheaproots) ∨
  (∀ q m, delete p live !! q = Some m → ¬ pg ≤ q < pg + 4096) ∧ kp_owned h'.(kpages) = delete pg (kp_owned h.(kpages)) ∧
    marked h'.(kheaproots) = marked h.(kheaproots) - (if n <? 4096 then 1 else 0).

Lemma page_of I p : I.(i_page) mod 4096 = 0 → on_page I p → p - p mod 4096 = I.(i_page).
Proof. unfold on_page. intros. zdiv_lia. Qed.

Lemma accounts_give h G live pr I F p m rs lost : heap_ok h G live → G !! pr = Some I → on_page I p → accounts h G live lost →
  accounts (set_refs (set_words h m) rs) (<[pr := Info I.(i_page) I.(i_type) F]> G) (delete p live) lost.
Proof.
  intros Hh HI Hon [Hu Hm]. split; cbn [set_refs set_words kheaproots kpages]; [|by rewrite map_size_insert, HI].
  assert (used (set_refs (set_words h m) rs) (<[pr := Info I.(i_page) I.(i_type) F]> G) (delete p live) I.(i_page)) as HuI.
  { left. exists pr. eexists. by rewrite lookup_insert_eq. }
  intros b n Hb. destruct (Hu b n Hb) as [(x & J & HJ & <-)|[?|[c Hc]]]; [|by right; left|].
  - destruct (decide (x = pr)) as [->|]; [rewrite HI in HJ; by injection HJ as <-|]. left. exists x, J. by rewrite lookup_insert_ne.
  - destruct (decide (b = I.(i_page))) as [->|Hd]; [done|]. right. right. rewrite lookup_delete_ne; [by exists c|]. intros <-.
    pose proof (law_disjoint _ _ _ _ _ (h_kpages _ _ _ Hh) Hb (h_owned _ _ _ Hh _ _ HI) Hd).
    destruct (law_aligned _ _ _ (h_kpages _ _ _ Hh) Hb) as (? & ? & ? & ?). unfold on_page in Hon. lia.
Qed.

(** A page with a block that is not free has a live one. *)
Lemma live_left h G live pr I : heap_ok h G live → G !! pr = Some I → Z.of_nat (length I.(i_free)) < cap I.(i_type) →
  ∃ q m, live !! q = Some m ∧ on_page I q.
Proof.
  intros Hh HI Hlt. pose proof (h_pages _ _ _ Hh _ _ HI) as [Ht _ _ _]. destruct (bsize_facts _ Ht) as (Hs & _ & Hc & _).
  destruct (decide (Forall (λ q, live !! q = None) (all_blocks I))) as [Hall|(q & Hq & Hl)%not_Forall_Exists%Exists_exists].
  - exfalso. assert (length (all_blocks I) ≤ length I.(i_free))%nat; [|].
    + apply submseteq_length, NoDup_submseteq; [apply NoDup_fmap_2_strong; [|apply NoDup_seqZ]; intros; nia|]. intros a Ha. rewrite Forall_forall in Hall.
      eapply h_free; [done..|by apply elem_all_blocks|by apply Hall].
    + unfold all_blocks in *. rewrite length_fmap, length_seqZ in *. lia.
  - apply elem_all_blocks in Hq as [Hon _]; [|done]. destruct (live !! q) as [m|] eqn:E; [by exists q, m|done].
  - intros q. apply _.
Qed.

Lemma subpage_kfree_correct h G live p n : heap_ok h G live → tight G → live !! p = Some n →
  (∃ h' G', subpage_kfree h p = Ret (0, h') ∧ heap_ok h' G' (delete p live) ∧ tight G' ∧ frames (delete p live) h h' ∧
     given_back h live p n h' ∧ ∀ lost, accounts h G live lost → accounts h' G' (delete p live) lost) ∨
  (subpage_kfree h p = Ret (-1, h) ∧ ∀ pr I, G !! pr = Some I → ¬ on_page I p).
Proof.
  intros Hh Htight Hp. destruct (h_all _ _ _ Hh) as (l & Hl & Hnd & Hx). unfold subpage_kfree.
  assert (length l < list_fuel h)%nat as Hf by (eapply list_short; [done..|]; intros x; apply Hx).
  destruct (find_ptr_correct h G live l (list_fuel h) h.(allbase) p Hh Hl) as [[-> Hno]|(pr & I & -> & Hpr0 & HI & Hon)]; [intros x; apply Hx|done|..]; cbn [mbind res_bind].
  { right. split; [done|]. intros pr I HI. apply (Hno pr I); [apply Hx; by exists I|done]. }
  left. rewrite (proj2 (Z.eqb_neq pr 0)) by done. destruct (h_refs _ _ _ Hh _ _ HI) as (r & Hr & Hd). rewrite Hr. cbn [deref mbind res_bind].
  destruct (page_aligned _ _ _ _ _ Hh HI) as (Hal & Hp0 & Hp1). pose proof (pg_type _ _ (h_pages _ _ _ Hh _ _ HI)) as Ht.
  destruct (describes_read r I Hal Hp0 Hp1 Ht Hd) as [Ep Et]. rewrite Ep, Et, (sizes_at _ Ht). cbn [mbind res_bind].
  destruct (give_back h G live pr I r p n Hh HI Hr Hon Hp Hd) as (Hh1 & Hcap & [_ Hm] & -> & Hni & Hout).
  destruct (bsize_facts _ Ht) as (Hs & _ & _ & Hc). unfold on_page in Hon. unfold PAGE_SIZE. rewrite (proj2 (Z.leb_gt 4096 _)) by lia. rewrite Hm. cbn [Z.eqb negb orb].
  replace (i_page I + (p - i_page I)) with p by lia.
  assert ((if r.(freelist_offset) =? INVALID_OFFSET then Ret 0 else _ ← kassert (negb (p =? I.(i_page) + r.(freelist_offset))); Ret (I.(i_page) + r.(freelist_offset)))
    = Ret (default 0 (head I.(i_free)))) as ->.
  { destruct Hd as (_ & _ & ->). pose proof (pg_block _ _ (h_pages _ _ _ Hh _ _ HI)) as Hbl. destruct I.(i_free) as [|b F]; [done|].
    destruct (Hbl b ltac:(by left)) as [Hob _]. unfold on_page in Hob. unfold INVALID_OFFSET. rewrite (proj2 (Z.eqb_neq (b - _) _)) by lia.
    replace (i_page I + (b - i_page I)) with b by lia. rewrite (proj2 (Z.eqb_neq p b)); [done|]. intros ->. apply Hni. by left. }
  cbn [mbind res_bind]. destruct Hd as (Hpab & Hn & _). rewrite Hn in *. rewrite u16_small, (u16_small (_ - _)) by lia.
  change (4096 / bsize I.(i_type)) with (cap I.(i_type)). rewrite (proj2 (Z.leb_le _ _)) by done. cbn [kassert mbind res_bind].
  set (h1 := set_refs _ _) in *. set (I' := Info I.(i_page) I.(i_type) (p :: I.(i_free))) in *.
  assert (frames (delete p live) h h1) as Hfr.
  { intros q m a [Hne Hq]%lookup_delete_Some Ha. cbn. apply Hout. destruct (live_disjoint _ _ _ _ _ _ _ Hh Hp Hq Hne); lia. }
  destruct (Z.eqb_spec (Z.of_nat (length I.(i_free)) + 1) (cap I.(i_type))) as [Hfull|Hpart].
  - destruct (release_page h1 _ _ pr I' Hh1 (lookup_insert_eq _ _ _)) as (h2 & h3 & k & E2 & E3 & E4 & Hh4 & W & Eo & Em & Hacc); [cbn; lia|].
    cbn [i_type I' i_page] in *. rewrite E2. cbn [mbind res_bind]. rewrite E3. cbn [mbind res_bind]. rewrite E4. cbn [mbind res_bind].
    eexists _, _. split; [done|]. split; [exact Hh4|]. split_and!.
    + intros x J [Hne HJ]%lookup_delete_Some. rewrite lookup_insert_ne in HJ by done. by eapply Htight.
    + intros q m a Hq Ha. cbn. rewrite W. by eapply Hfr.
    + right. rewrite (page_of I p) by done. rewrite (proj2 (Z.ltb_lt _ 4096)) by lia. split_and!; [|done|done]. intros q m Hq Hon'.
      pose proof (h_pages _ _ _ Hh1 pr I' (lookup_insert_eq _ _ _)) as [_ Hnd' Hbl' _]. destruct (blocks_bound I' _ Ht Hnd' Hbl') as [_ Hall].
      destruct (h_live _ _ _ Hh1 pr I' q m (lookup_insert_eq _ _ _) Hon' Hq) as (Hbq & Hnq & _). apply Hnq, Hall; [cbn; lia|done].
    + intros lost Ha. apply Hacc. by apply accounts_give.
  - eexists _, _. split; [done|]. split; [exact Hh1|]. split_and!; [|done| |intros lost Ha; by apply accounts_give].
    + intros x J [[<- <-]|[_ HJ]]%lookup_insert_Some; [cbn; lia|by eapply Htight].
    + left. rewrite (page_of I p) by done. split_and!; [|done|done]. apply (live_left h1 _ _ pr I' Hh1 (lookup_insert_eq _ _ _)). cbn. lia.
Qed.

(** ** The heap and its clients *)

(** The bytes that a request gets. *)
Definition block_size (sz : Z) : Z :=
  if LARGEST_SUBPAGE_SIZE <=? sz then (sz + 4095) / 4096 * 4096
  else match blocktype sz with Ret t => bsize t | _ => 0 end.

(** The state [h] implements a heap with the live blocks [live]: every page it owns has a live block or holds pagerefs,
    and every pageref that is marked as in use belongs to a page of blocks, [lost] of them excepted. *)
Definition implements h (live : gmap Z Z) (lost : Z) : Prop := ∃ G, heap_ok h G live ∧ tight G ∧ accounts h G live lost.

(** Nothing to serve a request from: no page can be had, and for a block none is free on the pages there are. *)
Definition refused h (live : gmap Z Z) (sz : Z) : Prop :=
  if LARGEST_SUBPAGE_SIZE <=? sz then ∃ k, alloc_kpages h.(kpages) ((sz + 4095) / 4096) = Ret (0, k)
  else no_pages h ∧ ∃ G, heap_ok h G live ∧ ∀ pr I, G !! pr = Some I → blocktype sz = Ret I.(i_type) → I.(i_free) = [].

(** Enough pages are left for a request. *)
Definition enough h (sz : Z) : Prop :=
  kp_can h.(kpages) (if LARGEST_SUBPAGE_SIZE <=? sz then (sz + 4095) / 4096 else 2).

Lemma big_ok h G live k p c : heap_ok h G live → kp_inv k → kp_owned h.(kpages) !! p = None → kp_owned k = <[p := c]> (kp_owned h.(kpages)) →
  live !! p = None → p ≠ 0 → heap_ok (set_kpages h k) G (<[p := c * 4096]> live).
Proof.
  intros Hh Hk Hp Eo Hl Hp0. assert (heap_ok (set_kpages h k) G live) as Hh'.
  { apply heap_ok_kpages; [done..|]. intros b n _ Hb. rewrite Eo, lookup_insert_ne; [done|congruence]. }
  assert (kp_owned k !! p = Some c) as Hpk by (by rewrite Eo, lookup_insert_eq).
  destruct (law_aligned k p c Hk Hpk) as (_ & _ & Hc & _).
  assert (∀ pr I, G !! pr = Some I → ¬ on_page I p) as Hoff.
  { intros pr I HI Hon. pose proof (h_owned _ _ _ Hh' _ _ HI) as Ho. cbn in Ho.
    assert (I.(i_page) ≠ p) as Hd by (intros <-; rewrite (h_owned _ _ _ Hh _ _ HI) in Hp; done).
    pose proof (law_disjoint _ _ _ _ _ Hk Ho Hpk Hd). unfold on_page in Hon. lia. }
  destruct Hh' as [H1 H2 H3 H4 H5 H6 H7 H8 H9 H10 H11 H12 H13 H14 H15 H16 H17]. split; try done.
  - intros pr I a n HI Ha [[<- <-]|[_ Hn]]%lookup_insert_Some; [by destruct (Hoff pr I HI)|by eapply H6].
  - intros pr I a HI Ha [Hn Hne]%lookup_insert_None. by eapply H7.
  - intros q n [[<- <-]|[_ Hn]]%lookup_insert_Some; [|by apply H8]. right. exists c. split_and!; [done..|].
    intros i root Hi E. destruct (h_rootpage _ _ _ Hh i root Hi) as [Ho _]; [congruence|]. congruence.
Qed.

Lemma accounts_big h G live k p c lost : accounts h G live lost → kp_owned k = <[p := c]> (kp_owned h.(kpages)) →
  accounts (set_kpages h k) G (<[p := c * 4096]> live) lost.
Proof.
  intros [Hu Hm] Eo. split; [|done]. cbn. rewrite Eo. intros b n [[<- _]|[Hne Hb]]%lookup_insert_Some.
  - right. right. by rewrite lookup_insert_eq.
  - destruct (Hu b n Hb) as [?|[?|?]]; [by left|by right; left|right; right]. by rewrite lookup_insert_ne.
Qed.

(** The pagerefs of the pages that were had. *)
Definition root_refs (roots : list kheap_root) : list Z :=
  concat ((λ root, if root.(page) =? 0 then [] else (λ j, root.(page) + 16 * j) <$> filter (λ j, bit root.(pagerefs_inuse) j = true) (seqZ 0 256)) <$> roots).

Lemma root_refs_length roots i x : (∀ root, root ∈ roots → root_ok root) → roots !! i = Some x → x.(page) = 0 →
  Z.of_nat (length (root_refs roots)) + x.(numinuse) ≤ marked roots.
Proof.
  assert (∀ l, (∀ root, root ∈ l → root_ok root) → Z.of_nat (length (root_refs l)) ≤ marked l) as Hle.
  { induction l as [|y l IH]; intros Hok; [done|]. change (marked (y :: l)) with (y.(numinuse) + marked l). unfold root_refs. cbn [fmap list_fmap concat].
    rewrite length_app. specialize (IH (λ z Hz, Hok z (list_elem_of_further _ _ _ Hz))). unfold root_refs in IH.
    destruct (Hok y (list_elem_of_here _ _)) as [_ _ Hc]. rewrite Hc. unfold popcount. destruct (y.(page) =? 0); [cbn [length]; lia|rewrite length_fmap; lia]. }
  revert i. induction roots as [|y roots IH]; intros [|i] Hok Hi Hx; [done|done|..]; change (marked (y :: roots)) with (y.(numinuse) + marked roots);
    unfold root_refs; cbn [fmap list_fmap concat]; rewrite length_app.
  - injection Hi as ->. rewrite Hx. cbn [Z.eqb length]. pose proof (Hle roots (λ z Hz, Hok z (list_elem_of_further _ _ _ Hz))). unfold root_refs in *. lia.
  - specialize (IH i (λ z Hz, Hok z (list_elem_of_further _ _ _ Hz)) Hi Hx). unfold root_refs in IH.
    destruct (Hok y (list_elem_of_here _ _)) as [_ _ Hc]. rewrite Hc. unfold popcount. destruct (y.(page) =? 0); [cbn [length]; lia|rewrite length_fmap; lia].
Qed.

(** A page that was not had is exhausted by 256 lost pagerefs only. *)
Lemma not_exhausted h G live lost : heap_ok h G live → accounts h G live lost → lost < 256 → ¬ exhausted h.
Proof.
  intros Hh [_ Hm] Hlt (i & x & Hi & Hx & Hn).
  assert (∀ root, root ∈ h.(kheaproots) → root_ok root) as Hok.
  { intros root [k Hk]%list_elem_of_lookup. by eapply h_roots. }
  pose proof (root_refs_length h.(kheaproots) i x Hok Hi Hx) as Hlen.
  assert (size G ≤ length (root_refs h.(kheaproots)))%nat; [|lia].
  rewrite <-size_dom. unfold size, set_size. cbn [compose]. apply submseteq_length, NoDup_submseteq; [apply NoDup_elements|].
  intros pr Hpr%elem_of_elements%elem_of_dom. destruct (h_inuse _ _ _ Hh pr Hpr) as (k & y & j & Hy & Hne & Hj & -> & Hb).
  unfold root_refs. rewrite list_elem_of_In, in_concat. eexists. split; [apply list_elem_of_In, list_elem_of_fmap; exists y; split; [done|by eapply list_elem_of_lookup_2]|].
  rewrite (proj2 (Z.eqb_neq _ 0)) by done. apply list_elem_of_In, list_elem_of_fmap. exists j. split; [done|]. apply list_elem_of_filter. split; [done|apply elem_of_seqZ; lia].
Qed.

Lemma kmalloc_correct h live lost sz : implements h live lost → lost < 256 → 0 ≤ sz ≤ 2 ^ 32 - 4096 → enough h sz →
  ∃ p h', kmalloc h sz = Ret (p, h') ∧ frames live h h' ∧
    if p =? 0 then refused h live sz ∧ ∃ lost', lost ≤ lost' ≤ lost + 1 ∧ implements h' live lost'
    else sz ≤ block_size sz ∧ p mod 16 = 0 ∧ live !! p = None ∧ implements h' (<[p := block_size sz]> live) lost.
Proof.
  intros (G & Hh & Htight & Hacc) Hlost Hsz Hen. pose proof (not_exhausted h G live lost Hh Hacc Hlost) as Hex.
  unfold kmalloc, enough, block_size, refused, LARGEST_SUBPAGE_SIZE in *.
  destruct (Z.leb_spec 2048 sz) as [Hbig|Hsmall].
  - unfold PAGE_SIZE. replace (sz + 4096 - 1) with (sz + 4095) by lia. rewrite u32_id by lia.
    pose proof (Z.div_mod (sz + 4095) 4096). pose proof (Z.mod_pos_bound (sz + 4095) 4096). set (np := (sz + 4095) / 4096) in *.
    destruct (law_alloc h.(kpages) np (h_kpages _ _ _ Hh)) as (p & k & Ek & Hk & Hcase); [lia|done|]. rewrite Ek. cbn [mbind res_bind].
    destruct Hcase as [[-> Eo]|(Hp0 & Hp & Eo)].
    + cbn [Z.eqb]. eexists _, _. split; [done|]. split; [done|]. split; [by exists k|]. exists lost. split; [lia|]. exists G. split_and!; [|done|].
      * apply heap_ok_kpages; [done..|]. intros b n _. by rewrite Eo.
      * destruct Hacc as [Hu Hm]. split; [|done]. cbn. by rewrite Eo.
    + rewrite (proj2 (Z.eqb_neq p 0)) by done. destruct (law_aligned k p np Hk) as (Hal & _); [by rewrite Eo, lookup_insert_eq|].
      rewrite Hal. cbn [Z.eqb kassert mbind res_bind]. eexists _, _. split; [done|]. split; [done|].
      rewrite (proj2 (Z.eqb_neq p 0)) by done. assert (live !! p = None) as Hl.
      { destruct (live !! p) as [n|] eqn:E; [|done]. destruct (live_inside _ _ _ _ _ Hh E) as [? _].
        exfalso. apply (live_off_fresh h G live k p np p n p Hh Hk Hp Eo E); lia. }
      split_and!; [lia| |done|exists G; split_and!; [by apply big_ok|done|by eapply accounts_big]].
      apply Z.mod_divide in Hal as [z Hz]; [|lia]. apply Z.mod_divide; [lia|]. exists (256 * z). lia.
  - destruct (blocktype_correct sz ltac:(lia)) as (t & Et & Ht & Hts). rewrite Et.
    destruct (subpage_kmalloc_correct h G live sz t Hh Htight Hex Hen Et Ht Hts lost Hacc) as
      (p & h' & -> & [(-> & Hh' & Ew & (lost' & Hl & Hacc') & Hno & Hfull)|(G' & [Hs [Hp0 Hp16] Hn Hh' Ht' Hex' Hfr] & Hacc')]).
    + eexists _, _. split; [done|]. cbn [Z.eqb]. split; [by intros q n a _ _; rewrite Ew|]. split.
      * split; [done|]. exists G. split; [done|]. intros pr I HI [= ->]. by eapply Hfull.
      * exists lost'. split; [done|]. by exists G.
    + eexists _, _. split; [done|]. split; [done|]. rewrite (proj2 (Z.eqb_neq p 0)) by done. split_and!; [done..|]. by exists G'.
Qed.

Lemma accounts_big_free h G live k p lost : accounts h G live lost → kp_owned k = delete p (kp_owned h.(kpages)) →
  accounts (set_kpages h k) G (delete p live) lost.
Proof.
  intros [Hu Hm] Eo. split; [|done]. cbn. rewrite Eo. intros b n [Hne Hb]%lookup_delete_Some.
  destruct (Hu b n Hb) as [?|[?|?]]; [by left|by right; left|right; right]. by rewrite lookup_delete_ne.
Qed.

Lemma big_given_back h G live k p c : heap_ok h G live → live !! p = Some (c * 4096) → kp_owned h.(kpages) !! p = Some c →
  kp_owned k = delete p (kp_owned h.(kpages)) → given_back h live p (c * 4096) (set_kpages h k).
Proof.
  intros Hh Hp Hc Eo. destruct (law_aligned _ _ _ (h_kpages _ _ _ Hh) Hc) as (Hal & _ & Hc0 & _). right. rewrite Hal, Z.sub_0_r.
  rewrite (proj2 (Z.ltb_ge _ 4096)), Z.sub_0_r by lia. split_and!; [|done|done].
  intros q m [Hne Hq]%lookup_delete_Some Hin. destruct (live_disjoint _ _ _ _ _ _ _ Hh Hp Hq Hne); [lia|].
  destruct (live_inside _ _ _ _ _ Hh Hq) as [? _]. lia.
Qed.

Lemma kfree_correct h live lost p n : implements h live lost → live !! p = Some n →
  ∃ h', kfree h p = Ret h' ∧ implements h' (delete p live) lost ∧ frames (delete p live) h h' ∧ given_back h live p n h'.
Proof.
  intros (G & Hh & Htight & Hacc) Hp. unfold kfree. destruct (live_inside _ _ _ _ _ Hh Hp) as [Hn Hin].
  assert (p ≠ 0) as Hp0.
  { intros ->. destruct Hin as [(pr & I & HI & [[? ?] _] & _)|(_ & k & Hk & _)].
    - destruct (page_aligned _ _ _ _ _ Hh HI) as (_ & ? & _). lia.
    - destruct (law_aligned _ _ _ (h_kpages _ _ _ Hh) Hk) as (_ & ? & _). lia. }
  rewrite (proj2 (Z.eqb_neq p 0)) by done.
  destruct (subpage_kfree_correct h G live p n Hh Htight Hp) as [(h' & G' & -> & Hh' & Ht' & Hfr & Hgb & Hx')|[-> Hoff]]; cbn [mbind res_bind].
  - cbn [Z.eqb negb]. exists h'. split_and!; [done| |done|done]. exists G'. split_and!; [done..|auto].
  - cbn [Z.eqb negb]. destruct Hin as [(pr & I & HI & [Hon _] & _)|(_ & k & Hk & ->)]; [by destruct (Hoff pr I HI)|].
    destruct (law_aligned _ _ _ (h_kpages _ _ _ Hh) Hk) as (Hal & _). unfold PAGE_SIZE. rewrite Hal. cbn [Z.eqb kassert mbind res_bind].
    destruct (law_free _ _ _ (h_kpages _ _ _ Hh) Hk) as (q & -> & Hq & Eo). cbn [mbind res_bind]. eexists. split; [done|].
    split_and!; [|done|by eapply big_given_back]. exists G. split_and!; [|done|by eapply accounts_big_free].
    assert (heap_ok h G (delete p live)) as Hd.
    { destruct Hh as [H1 H2 H3 H4 H5 H6 H7 H8 H9 H10 H11 H12 H13 H14 H15 H16 H17]. split; try done.
      - intros pr I a m HI Ha [_ Hm]%lookup_delete_Some. by eapply H6.
      - intros pr I a HI Ha [<-|Hm]%lookup_delete_None; [by destruct (Hoff pr I HI); apply Ha|by eapply H7].
      - intros a m [_ Hm]%lookup_delete_Some. by apply H8. }
    apply heap_ok_kpages; [done..|]. intros b m Hu Hb. rewrite Eo, lookup_delete_ne; [done|]. intros <-.
    destruct Hu as [(pr & I & HI & E)|[(i & root & Hi & E & _)|[c Hc]]].
    + apply (Hoff pr I HI). unfold on_page. lia.
    + destruct (h_big _ _ _ Hh p _ Hp) as [(pr & I & HI & Ha)|(k' & _ & _ & Hr)]; [by destruct (Hoff pr I HI)|by eapply Hr].
    + by rewrite lookup_delete_eq in Hc.
Qed.

(** No word of a free list is inside a live block. *)
Lemma free_outside h G live pr I b p n : heap_ok h G live → G !! pr = Some I → b ∈ I.(i_free) → live !! p = Some n → ¬ p ≤ b < p + n.
Proof.
  intros Hh HI Hb Hp Hin. pose proof (h_pages _ _ _ Hh _ _ HI) as [Ht _ Hbl _]. destruct (Hbl b Hb) as [Hon Hm].
  destruct (live_inside _ _ _ _ _ Hh Hp) as (_ & [(x & J & HJ & Hbp & En & He)|(Hoff & k & Hk & En)]).
  - destruct (decide (x = pr)) as [->|Hne].
    + rewrite HI in HJ. injection HJ as <-. destruct (h_live _ _ _ Hh _ _ _ _ HI (proj1 Hbp) Hp) as (_ & Hni & _).
      assert (p ≠ b) by congruence. destruct (bsize_facts _ Ht) as (? & _). destruct Hbp as [_ Hpm].
      pose proof (aligned_lt I.(i_page) (bsize I.(i_type)) p b ltac:(lia) Hpm Hm ltac:(lia)). lia.
    + apply (pages_disjoint h G live pr x I J b Hh HI HJ (not_eq_sym Hne) Hon). destruct Hbp as [[? ?] _]. unfold on_page. lia.
  - assert (I.(i_page) ≠ p) as Hd by (intros <-; apply (Hoff pr I HI); unfold on_page; lia).
    pose proof (law_disjoint _ _ _ _ _ (h_kpages _ _ _ Hh) (h_owned _ _ _ Hh _ _ HI) Hk Hd). unfold on_page in Hon. lia.
Qed.

Lemma client_write h live lost p n a w : implements h live lost → live !! p = Some n → p ≤ a < p + n →
  implements (set_words h (<[a := w]> h.(words))) live lost.
Proof.
  intros (G & Hh & Ht & Hex) Hp Ha. exists G. split_and!; [|done|done].
  pose proof (λ pr I b, free_outside h G live pr I b p n Hh) as Hout.
  destruct Hh as [H1 H2 H3 H4 H5 H6 H7 H8 H9 H10 H11 H12 H13 H14 H15 H16 H17]. split; try done.
  intros pr I HI. destruct (H2 pr I HI) as [? ? ? Hl]. split; [done..|]. eapply linked_ext; [|exact Hl].
  intros b Hb. cbn. rewrite lookup_insert_ne; [done|]. intros <-. by apply (Hout pr I a HI Hb).
Qed.

(** The heap at start-up: all of it is zero. *)
Definition kheap_init (k : P) : kheap := Kheap ∅ ∅ (replicate 16 (Root 0 (replicate 8 0) 0)) (replicate 8 0) 0 k.

Lemma kheap_init_ok k : kp_inv k → kp_owned k = ∅ → implements (kheap_init k) ∅ 0.
Proof.
  intros Hk Ho. assert (∀ i root, kheaproots (kheap_init k) !! i = Some root → root = Root 0 (replicate 8 0) 0) as Hroot.
  { intros i root Hi. by apply lookup_replicate in Hi as [-> _]. }
  exists ∅. split_and!.
  - split; try done.
    + exists []. split_and!; [done|constructor|]. intros x. rewrite elem_of_nil, lookup_empty. split; [done|by intros [? ?]].
    + intros t p [-> _]%lookup_replicate. exists []. split_and!; [done|constructor|]. intros x. rewrite elem_of_nil, lookup_empty.
      split; [done|by intros (? & ? & _)].
    + intros i root ->%Hroot. split; [done| |by vm_compute]. intros w ->%elem_of_replicate_inv. lia.
    + intros x [? Hx]. by rewrite lookup_empty in Hx.
    + intros i root ->%Hroot Hne. by destruct Hne.
    + intros i j ri rj ->%Hroot _ Hne. by destruct Hne.
    + intros i j ri rj _ ->%Hroot _ Hne. by destruct Hne.
  - intros x I Hx. by rewrite lookup_empty in Hx.
  - split; [|by vm_compute]. cbn. rewrite Ho. intros b n Hb. by rewrite lookup_empty in Hb.
Qed.

(** What clients that free what they were given and write where they may can lead to, with the number of requests
    that were refused, at most 256. *)
Inductive history : kheap → gmap Z Z → Z → Prop :=
| hist_init k : kp_inv k → kp_owned k = ∅ → history (kheap_init k) ∅ 0
| hist_kmalloc h live f sz p h' : history h live f → f < 256 → 0 ≤ sz ≤ 2 ^ 32 - 4096 → enough h sz → kmalloc h sz = Ret (p, h') →
    history h' (if p =? 0 then live else <[p := block_size sz]> live) (if p =? 0 then f + 1 else f)
| hist_kfree h live f p n h' : history h live f → live !! p = Some n → kfree h p = Ret h' → history h' (delete p live) f
| hist_write h live f p n a w : history h live f → live !! p = Some n → p ≤ a < p + n → history (set_words h (<[a := w]> h.(words))) live f.

Lemma history_implements h live f : history h live f → ∃ lost, lost ≤ f ∧ implements h live lost.
Proof.
  induction 1 as [k Hk Ho|h live f sz p h' _ (lost & Hl & IH) Hf Hsz Hen E|h live f p n h' _ (lost & Hl & IH) Hp E|h live f p n a w _ (lost & Hl & IH) Hp Ha].
  - exists 0. split; [done|by apply kheap_init_ok].
  - destruct (kmalloc_correct h live lost sz IH ltac:(lia) Hsz Hen) as (p' & h'' & E' & _ & Hres). rewrite E in E'. injection E' as <- <-.
    destruct (p =? 0); [destruct Hres as (_ & lost' & ? & ?); exists lost'; split; [lia|done]|exists lost; split; [lia|apply Hres]].
  - destruct (kfree_correct h live lost p n IH Hp) as (h'' & E' & Hres & _). rewrite E in E'. injection E' as <-. by exists lost.
  - exists lost. split; [done|]. by eapply client_write.
Qed.

(** ** Properties *)

(** C10: The heap never panics on clients that ask for at most 2^32 - 4096 bytes at a time, free each block once and
    write only into blocks they hold, as long as fewer than 256 requests were refused since start-up and the page
    allocator returns for the pages that are asked of it: every live block can be freed, and every request returns.
    The live blocks never overlap. *)
Theorem kheap_safe h live f : history h live f →
  (∀ p n q m, live !! p = Some n → live !! q = Some m → p ≠ q → p + n ≤ q ∨ q + m ≤ p) ∧
  (∀ p n, live !! p = Some n → ∃ h', kfree h p = Ret h') ∧
  (∀ sz, f < 256 → 0 ≤ sz ≤ 2 ^ 32 - 4096 → enough h sz → ∃ p h', kmalloc h sz = Ret (p, h')).
Proof.
  intros (lost & Hl & Hh)%history_implements. split_and!.
  - destruct Hh as (G & Hh & _). intros. by eapply live_disjoint.
  - intros p n Hp. destruct (kfree_correct h live lost p n Hh Hp) as (h' & E & _). by exists h'.
  - intros sz Hf Hsz Hen. destruct (kmalloc_correct h live lost sz Hh ltac:(lia) Hsz Hen) as (p & h' & E & _). by exists p, h'.
Qed.

(** C11: A request of up to 2^32 - 4096 bytes, with fewer than 256 pagerefs lost so far and a page allocator that
    returns, gets a block of at least its size, aligned to 16 bytes, that overlaps no live block; the contents of every
    live block stay.  [kmalloc] returns 0 only when nothing can serve the request: the pages for a big one cannot
    be had, or no block of the size is free and a page of blocks or its pageref cannot be had.  The heap then is
    as before, but for one more pageref that may be lost. *)
Theorem kmalloc_grants h live lost sz : implements h live lost → lost < 256 → 0 ≤ sz ≤ 2 ^ 32 - 4096 → enough h sz →
  ∃ p h', kmalloc h sz = Ret (p, h') ∧ frames live h h' ∧
    if p =? 0 then refused h live sz ∧ ∃ lost', lost ≤ lost' ≤ lost + 1 ∧ implements h' live lost'
    else sz ≤ block_size sz ∧ p mod 16 = 0 ∧ implements h' (<[p := block_size sz]> live) lost ∧
      ∀ q m, live !! q = Some m → p + block_size sz ≤ q ∨ q + m ≤ p.
Proof.
  intros Hi Hl Hsz Hen. destruct (kmalloc_correct h live lost sz Hi Hl Hsz Hen) as (p & h' & E & Hfr & Hres). exists p, h'.
  split_and!; [done..|]. destruct (p =? 0); [done|]. destruct Hres as (H1 & H2 & Hn & H3). split_and!; [done..|].
  intros q m Hq. destruct H3 as (G & Hok & _). apply (live_disjoint _ _ _ p (block_size sz) q m Hok); [by rewrite lookup_insert_eq| |congruence].
  rewrite lookup_insert_ne; [done|congruence].
Qed.

(** C28: [kfree] of a live block returns, takes the block out of the live ones and leaves the contents of the others
    alone.  When no other live block is on its page the page, or all the pages of a big block, go back to the page
    allocator, and a page of blocks gives its pageref back too; otherwise the pages and the pagerefs stay as they are. *)
Theorem kfree_frees h live lost p n : implements h live lost → live !! p = Some n →
  ∃ h', kfree h p = Ret h' ∧ implements h' (delete p live) lost ∧ frames (delete p live) h h' ∧ given_back h live p n h'.
Proof. apply kfree_correct. Qed.

End Free.

(** ** Pages from a pool *)

(** An allocator of pages that never uses a page twice; [pl_script] says which calls fail. *)
Record pool := Pool { pl_script : script; pl_next : Z; pl_owned : gmap Z Z }.

#[global] Instance pool_kpages : KPages pool := {
  alloc_kpages p n :=
    match p.(pl_script) with
    | false :: o => Ret (0, Pool o p.(pl_next) p.(pl_owned))
    | o => Ret (p.(pl_next), Pool (tail o) (p.(pl_next) + n * 4096) (<[p.(pl_next) := n]> p.(pl_owned)))
    end;
  free_kpages p a := n ← deref (p.(pl_owned) !! a); Ret (Pool p.(pl_script) p.(pl_next) (delete a p.(pl_owned)))
}.

Record pool_ok (p : pool) : Prop := PoolOk {
  pool_next : p.(pl_next) mod 4096 = 0 ∧ 0 < p.(pl_next) ≤ 2 ^ 32;
  pool_each a n : p.(pl_owned) !! a = Some n → a mod 4096 = 0 ∧ 0 < a ∧ 0 < n ∧ a + n * 4096 ≤ p.(pl_next);
  pool_apart a n b m : p.(pl_owned) !! a = Some n → p.(pl_owned) !! b = Some m → a ≠ b → a + n * 4096 ≤ b ∨ b + m * 4096 ≤ a
}.

Lemma pool_alloc p n : pool_ok p → 0 < n → p.(pl_next) + n * 4096 ≤ 2 ^ 32 →
  pool_ok (Pool (tail p.(pl_script)) (p.(pl_next) + n * 4096) (<[p.(pl_next) := n]> p.(pl_owned))).
Proof.
  intros [[Ha Hr] He Hd] Hn Hroom. split; cbn.
  - split; [by rewrite Z.mod_add|lia].
  - intros a m [[<- <-]|[_ Hm]]%lookup_insert_Some; [lia|]. destruct (He a m Hm) as (? & ? & ? & ?). lia.
  - intros a m b k [[<- <-]|[_ Hm]]%lookup_insert_Some [[<- <-]|[_ Hk]]%lookup_insert_Some Hne; [done|..|by eapply Hd].
    + destruct (He b k Hk) as (? & ? & ? & ?). lia.
    + destruct (He a m Hm) as (? & ? & ? & ?). lia.
Qed.

#[global] Instance pool_laws : KPagesLaws pool.
Proof.
  refine {| kp_inv := pool_ok; kp_owned := pl_owned; kp_can p n := p.(pl_next) + n * 4096 ≤ 2 ^ 32 |}.
  - intros p a n Hp Hn. destruct (pool_each p Hp a n Hn) as (? & ? & ? & ?). pose proof (pool_next p Hp). lia.
  - intros p a n b m Hp. apply (pool_apart p Hp).
  - intros p n Hp Hn Hc. pose proof (pool_alloc p n Hp Hn Hc) as Hok. cbn [alloc_kpages pool_kpages].
    assert (p.(pl_next) ≠ 0 ∧ p.(pl_owned) !! p.(pl_next) = None) as [H0 Hno].
    { pose proof (pool_next p Hp). split; [lia|]. destruct (p.(pl_owned) !! p.(pl_next)) as [m|] eqn:E; [|done].
      destruct (pool_each p Hp _ _ E) as (? & ? & ? & ?). lia. }
    destruct p.(pl_script) as [|[] o] eqn:Es; eexists _, _; (split; [done|]); cbn in Hok |- *.
    + split; [done|]. by right.
    + split; [done|]. by right.
    + split; [|by left]. destruct Hp as [? ? ?]. by split.
  - intros p a n Hp Hn. cbn [free_kpages pool_kpages]. rewrite Hn. cbn. eexists. split; [done|]. split; [|done].
    destruct Hp as [? He Hd]. split; cbn; [done|..].
    + intros b m [_ Hm]%lookup_delete_Some. by apply He.
    + intros b m c k [_ Hm]%lookup_delete_Some [_ Hk]%lookup_delete_Some. by eapply Hd.
  - intros p n m va p' Hp Hn Hm Hc. split; [lia|]. cbn [alloc_kpages pool_kpages].
    destruct p.(pl_script) as [|[] o]; intros [= <- <-]; cbn; lia.
Defined.

Definition fresh_pool (o : script) : pool := Pool o 0x80400000 ∅.

Lemma fresh_pool_ok o : pool_ok (fresh_pool o).
Proof. split; [done|..]; intros a n; cbn; by rewrite lookup_empty. Qed.

(** Two blocks of one page, the first one written to and freed. *)
Definition used_heap : kheap pool := kheap_init (fresh_pool []).

Lemma used_heap_ok : implements used_heap ∅ 0.
Proof. apply kheap_init_ok; [apply fresh_pool_ok|done]. Qed.

Lemma first_block p h : kmalloc used_heap 20 = Ret (p, h) → p = 0x80400fe0.
Proof.
  assert (match kmalloc used_heap 20 with Ret (p, h) => p =? 0x80400fe0 | _ => false end = true) as Hc by (by vm_compute).
  intros E. rewrite E in Hc. by apply Z.eqb_eq.
Qed.

Lemma kheap_safe_witness : ∃ h live, history h live 0 ∧ (∃ p, live !! p = Some 32) ∧
  ∀ p n, live !! p = Some n → ∃ h', kfree h p = Ret h'.
Proof.
  assert (history used_heap ∅ 0) as H0 by (apply hist_init; [apply fresh_pool_ok|done]).
  assert (0 ≤ 20 ≤ 2 ^ 32 - 4096) as Hsz by lia. assert (enough used_heap 20) as Hen by (vm_compute; congruence).
  destruct (kmalloc_correct used_heap ∅ 0 20 used_heap_ok ltac:(lia) Hsz Hen) as (p & h & E & _). pose proof (first_block p h E) as ->.
  pose proof (hist_kmalloc used_heap ∅ 0 20 _ h H0 ltac:(lia) Hsz Hen E) as H1. cbn [Z.eqb] in H1.
  exists h, (<[0x80400fe0 := block_size 20]> ∅). split; [done|]. split; [by exists 0x80400fe0|].
  apply (kheap_safe h _ 0 H1).
Defined.

Lemma kmalloc_grants_witness : ∃ p h', kmalloc used_heap 20 = Ret (p, h') ∧ p ≠ 0 ∧ implements h' {[p := 32]} 0.
Proof.
  destruct (kmalloc_grants used_heap ∅ 0 20) as (p & h' & E & _ & Hres); [exact used_heap_ok|lia|lia|vm_compute; congruence|].
  exists p, h'. pose proof (first_block p _ E) as ->. split_and!; [done..|]. apply Hres.
Defined.

Lemma kfree_frees_witness : ∃ p h h', implements h {[p := 32]} 0 ∧ kfree h p = Ret h' ∧ implements h' ∅ 0 ∧
  marked h'.(kheaproots) = marked h.(kheaproots) - 1.
Proof.
  destruct (kmalloc_correct used_heap ∅ 0 20) as (p & h & E & _ & Hres); [exact used_heap_ok|lia|lia|vm_compute; congruence|].
  pose proof (first_block p _ E) as ->. destruct Hres as (_ & _ & _ & Hi).
  change (implements h {[0x80400fe0 := 32]} 0) in Hi.
  destruct (kfree_frees h {[0x80400fe0 := 32]} 0 0x80400fe0 32 Hi) as (h' & E' & Hi' & _ & Hg); [done|].
  rewrite delete_singleton_eq in Hi'. exists 0x80400fe0, h, h'. split_and!; [done..|].
  unfold given_back in Hg. rewrite delete_singleton_eq in Hg. destruct Hg as [((q & m & Hq & _) & _)|(_ & _ & ->)]; [by rewrite lookup_empty in Hq|done].
Defined.

(** Requests that fail: a page for blocks can be had, the page for its pageref cannot. *)
Fixpoint failing (n : nat) (h : kheap pool) : res (kheap pool) :=
  match n with O => Ret h | S n' => '(_, h) ← kmalloc h 16; failing n' h end.

(** [allocpageref] leaves a pageref marked as in use when the page for it cannot be had.  After 256 such failures the
    heap skips the page for good, and the first [kfree] that gives a whole page back panics. *)
Theorem kfree_panics_after_failures :
  let pages := concat (replicate 256 [true; false]) in
  (h ← failing 256 (kheap_init (fresh_pool pages)); '(p, h) ← kmalloc h 16; _ ← kfree h p; Ret tt) = Panic ∧
  (h ← failing 256 (kheap_init (fresh_pool pages)); '(p, h) ← kmalloc h 16; Ret (negb (p =? 0))) = Ret true.
Proof. split; by vm_compute. Qed.
