(* ===== verification/Qsort.v ===== *)
(** * Sorting (userland/lib/libc/stdlib/qsort.c)

    The array is a list of elements, each of which the code sees as [size] bytes; the
    comparison [f] is a parameter.  A call on a part of the array is a call on the
    elements of that part. *)

From Stdlib Require Import Sorting.Sorted.
From S2P Require Import Prelude.

Section Qsort.
Context {A : Type} (f : A → A → Z).

Definition COMPARE (data : list A) (aa bb : Z) : res Z :=
  if aa =? bb then Ret 0 else
  x ← data.[aa];
  y ← data.[bb];
  Ret (f x y).

Definition EXCHANGE (data : list A) (aa bb : Z) : res (list A) :=
  tmp ← data.[aa];
  y ← data.[bb];
  data ← data.[aa <- y];
  data.[bb <- tmp].

(** [while (head < tail)] *)
Fixpoint partition_loop (fuel : nat) (data : list A) (head tail pivot : Z) : res (list A * Z * Z * Z) :=
  if head <? tail then
    match fuel with
    | O => Diverge
    | S fuel' =>
        c ← COMPARE data head pivot;
        if c <=? 0 then partition_loop fuel' data (head + 1) tail pivot else
        c ← COMPARE data tail pivot;
        if 0 <? c then partition_loop fuel' data head (tail - 1) pivot else
        data ← EXCHANGE data head tail;
        let pivot := if pivot =? head then tail else if pivot =? tail then head else pivot in
        partition_loop fuel' data (head + 1) (tail - 1) pivot
    end
  else Ret (data, head, tail, pivot).

(** [while (tail > 0 && COMPARE(tail - 1, tail) == 0)] *)
Fixpoint strip_loop (fuel : nat) (data : list A) (tail : Z) : res Z :=
  match fuel with
  | O => Diverge
  | S fuel' =>
      if 0 <? tail then
        c ← COMPARE data (tail - 1) tail;
        if c =? 0 then strip_loop fuel' data (tail - 1) else Ret tail
      else Ret tail
  end.

(** Steps 1 to 3: the array and the first index of the back portion, and the pivot. *)
Definition partition (data : list A) : res (list A * Z * Z) :=
  let num := Z.of_nat (length data) in
  '(data, head, tail, pivot) ← partition_loop (length data) data 0 (num - 1) (num / 2);
  front ← (if tail <? head then Ret true else c ← COMPARE data head pivot; Ret (c <=? 0));
  Ret (data, if (front : bool) then tail + 1 else tail, pivot).

(** Step 4: the pivot goes to the end, and what equals it is left there. *)
Definition lop (data : list A) (pivot : Z) : res (list A * Z) :=
  let num := Z.of_nat (length data) in
  data ← (if pivot <? num - 1 then
            c ← COMPARE data pivot (num - 1);
            if 0 <? c then EXCHANGE data pivot (num - 1) else Ret data
          else Ret data);
  tail ← strip_loop (length data) data (num - 1);
  Ret (data, tail).

Fixpoint qsort (fuel : nat) (data : list A) : res (list A) :=
  match fuel with
  | O => Diverge
  | S fuel' =>
      let num := Z.of_nat (length data) in
      if num <=? 1 then Ret data else
      c ← (if num =? 2 then COMPARE data 0 1 else Ret 0);
      if 0 <? c then EXCHANGE data 0 1 else
      '(data, tail, pivot) ← partition data;
      if tail =? num then
        '(data, tail) ← lop data pivot;
        if 0 <? tail then
          front ← qsort fuel' (take (Z.to_nat tail) data);
          Ret (front ++ drop (Z.to_nat tail) data)
        else Ret data
      else
        _ ← kassert ((0 <? tail) && (tail <? num));
        front ← qsort fuel' (take (Z.to_nat tail) data);
        back ← qsort fuel' (drop (Z.to_nat tail) data);
        Ret (front ++ back)
  end.

(** ** Orders *)

(** The comparison function orders the elements, as the C standard asks for. *)
Class Comparison : Prop := {
  cmp_opp x y : Z.sgn (f y x) = - Z.sgn (f x y);
  cmp_trans x y z : f x y ≤ 0 → f y z ≤ 0 → f x z ≤ 0
}.

Context `{!Comparison}.

Definition le (x y : A) : Prop := f x y ≤ 0.

Lemma cmp_refl x : f x x = 0.
Proof. pose proof (cmp_opp x x). destruct (f x x); cbn in *; lia. Qed.

Lemma cmp_swap x y : 0 < f x y → f y x < 0.
Proof. intros Hp. pose proof (cmp_opp x y) as E. rewrite (Z.sgn_pos (f x y)) in E by done. apply Z.sgn_neg_iff. lia. Qed.

Lemma cmp_eq x y : f x y = 0 → f y x = 0.
Proof. intros E0. pose proof (cmp_opp x y) as E. rewrite E0 in E. cbn in E. by apply Z.sgn_null_iff. Qed.

Lemma COMPARE_correct data i j x y : data !! Z.to_nat i = Some x → data !! Z.to_nat j = Some y → 0 ≤ i → 0 ≤ j →
  COMPARE data i j = Ret (f x y).
Proof.
  intros Hx Hy Hi Hj. unfold COMPARE. destruct (Z.eqb_spec i j) as [->|].
  - rewrite Hx in Hy. injection Hy as <-. by rewrite cmp_refl.
  - by rewrite (rd_lookup _ i x), (rd_lookup _ j y).
Qed.

Lemma EXCHANGE_correct data i j x y : data !! Z.to_nat i = Some x → data !! Z.to_nat j = Some y → 0 ≤ i → 0 ≤ j →
  EXCHANGE data i j = Ret (<[Z.to_nat j := x]> (<[Z.to_nat i := y]> data)) ∧ <[Z.to_nat j := x]> (<[Z.to_nat i := y]> data) ≡ₚ data.
Proof.
  intros Hx Hy Hi Hj. pose proof (lookup_lt_Some _ _ _ Hx). pose proof (lookup_lt_Some _ _ _ Hy). split.
  - unfold EXCHANGE. rewrite (rd_lookup _ i x), (rd_lookup _ j y) by done. cbn [mbind res_bind].
    rewrite wr_in_range by lia. cbn [mbind res_bind]. rewrite wr_in_range by (rewrite length_insert; lia). done.
  - by apply Permutation_insert_swap.
Qed.
(** ** Partitioning *)

(** The elements before [h] are at most [pv], those after [t] are above. *)
Definition parted (data : list A) (pv : A) (h t : Z) : Prop :=
  (∀ i x, data !! i = Some x → Z.of_nat i < h → f x pv ≤ 0) ∧ (∀ i x, data !! i = Some x → t < Z.of_nat i → 0 < f x pv).

Lemma exchange_parted data pv h t x y : parted data pv h t → 0 ≤ h < t → data !! Z.to_nat h = Some x → data !! Z.to_nat t = Some y →
  0 < f x pv → f y pv ≤ 0 → parted (<[Z.to_nat t := x]> (<[Z.to_nat h := y]> data)) pv (h + 1) (t - 1).
Proof.
  intros [H1 H2] Ht Hx Hy Px Py. split; intros i z.
  - intros [(<- & <- & _)|[Hne Hz]]%list_lookup_insert_Some Hi; [lia|].
    apply list_lookup_insert_Some in Hz as [(<- & <- & _)|[Hne' Hz]]; [done|]. apply (H1 i z Hz). lia.
  - intros [(<- & <- & _)|[Hne Hz]]%list_lookup_insert_Some Hi; [done|].
    apply list_lookup_insert_Some in Hz as [(<- & <- & _)|[Hne' Hz]]; [lia|]. apply (H2 i z Hz). lia.
Qed.

Lemma partition_loop_correct fuel data h t p pv : parted data pv h t → 0 ≤ h → h ≤ t + 1 → t < Z.of_nat (length data) →
  0 ≤ p → data !! Z.to_nat p = Some pv → t - h ≤ Z.of_nat fuel →
  ∃ data' h' t' p', partition_loop fuel data h t p = Ret (data', h', t', p') ∧ data' ≡ₚ data ∧ parted data' pv h' t' ∧
    t' ≤ h' ≤ t' + 1 ∧ 0 ≤ h' ∧ t' < Z.of_nat (length data) ∧ 0 ≤ p' ∧ data' !! Z.to_nat p' = Some pv.
Proof.
  revert data h t p. induction fuel as [|fuel IH]; intros data h t p Hpt Hh Hht Ht Hp Hpv Hf; cbn [partition_loop];
    destruct (Z.ltb_spec h t) as [Hlt|Hge]; try (exists data, h, t, p; split_and!; (done || lia)).
  destruct (lookup_lt_is_Some_2 data (Z.to_nat h)) as [x Hx]; [lia|]. destruct (lookup_lt_is_Some_2 data (Z.to_nat t)) as [y Hy]; [lia|].
  rewrite (COMPARE_correct data h p x pv) by (done || lia). cbn [mbind res_bind]. destruct (Z.leb_spec (f x pv) 0) as [Hle|Hgt].
  { apply (IH data (h + 1) t p); try (done || lia). destruct Hpt as [H1 H2]. split; [|done]. intros i z Hz Hi.
    destruct (decide (Z.of_nat i = h)) as [E|]; [|apply (H1 i z Hz); lia]. assert (i = Z.to_nat h) as -> by lia. congruence. }
  rewrite (COMPARE_correct data t p y pv) by (done || lia). cbn [mbind res_bind]. destruct (Z.ltb_spec 0 (f y pv)) as [Hyg|Hyl].
  { apply (IH data h (t - 1) p); try (done || lia). destruct Hpt as [H1 H2]. split; [done|]. intros i z Hz Hi.
    destruct (decide (Z.of_nat i = t)) as [E|]; [|apply (H2 i z Hz); lia]. assert (i = Z.to_nat t) as -> by lia. congruence. }
  destruct (EXCHANGE_correct data h t x y Hx Hy) as [-> Hperm]; [lia..|]. cbn [mbind res_bind].
  pose proof (exchange_parted data pv h t x y Hpt ltac:(lia) Hx Hy Hgt Hyl) as Hpt'. set (data1 := <[_ := x]> _) in *.
  assert (length data1 = length data) as Hlen by (unfold data1; by rewrite !length_insert).
  assert (p ≠ h) as Hph by (intros ->; rewrite Hx in Hpv; injection Hpv as ->; rewrite cmp_refl in Hgt; lia).
  rewrite (proj2 (Z.eqb_neq p h)) by done.
  destruct (IH data1 (h + 1) (t - 1) (if p =? t then h else p)) as (d & h' & t' & p' & E & P1 & P2 & P3 & P4 & P5 & P6 & P7); try (done || lia).
  - case_cmp; lia.
  - unfold data1. destruct (Z.eqb_spec p t) as [->|Hpt2].
    + rewrite Hy in Hpv. injection Hpv as ->. rewrite list_lookup_insert_ne by lia. apply list_lookup_insert_eq. lia.
    + by rewrite !list_lookup_insert_ne by lia.
  - exists d, h', t', p'. split_and!; try (done || lia). by rewrite P1.
Qed.

Lemma partition_correct data : 2 ≤ Z.of_nat (length data) →
  ∃ data' k p pv, partition data = Ret (data', k, p) ∧ data' ≡ₚ data ∧ 0 < k ≤ Z.of_nat (length data) ∧
    (∀ x, x ∈ take (Z.to_nat k) data' → f x pv ≤ 0) ∧ (∀ x, x ∈ drop (Z.to_nat k) data' → 0 < f x pv) ∧
    0 ≤ p ∧ data' !! Z.to_nat p = Some pv.
Proof.
  intros Hl. unfold partition. set (num := Z.of_nat (length data)) in *. assert (0 ≤ num / 2 < num) as Hmid by zdiv_lia.
  destruct (lookup_lt_is_Some_2 data (Z.to_nat (num / 2))) as [pv Hpv]; [lia|].
  destruct (partition_loop_correct (length data) data 0 (num - 1) (num / 2) pv) as (d & h & t & p & -> & Hperm & [H1 H2] & Hht & Hh & Ht & Hp & Hdp);
    try (done || lia).
  { split; [lia|]. intros i x Hx%lookup_lt_Some. lia. }
  cbn [mbind res_bind]. pose proof (Permutation_length Hperm) as Hlen.
  assert (∃ fr, (if t <? h then Ret true else c ← COMPARE d h p; Ret (c <=? 0)) = Ret fr ∧
    parted d pv (if fr : bool then t + 1 else t) ((if fr then t + 1 else t) - 1) ∧ (fr = false → h = t)) as (fr & -> & [K1 K2] & Hfr).
  { destruct (Z.ltb_spec t h).
    - exists true. split; [done|]. split; [|done]. split; intros i x Hx Hi; [apply (H1 i x Hx)|apply (H2 i x Hx)]; lia.
    - assert (h = t) as -> by lia. destruct (lookup_lt_is_Some_2 d (Z.to_nat t)) as [x Hx]; [lia|].
      rewrite (COMPARE_correct d t p x pv) by (done || lia). cbn [mbind res_bind]. eexists. split; [done|]. split; [|done].
      destruct (Z.leb_spec (f x pv) 0); split; intros i z Hz Hi.
      + destruct (decide (Z.of_nat i = t)) as [E|]; [|apply (H1 i z Hz); lia]. assert (i = Z.to_nat t) as -> by lia. congruence.
      + apply (H2 i z Hz). lia.
      + apply (H1 i z Hz). lia.
      + destruct (decide (Z.of_nat i = t)) as [E|]; [|apply (H2 i z Hz); lia]. assert (i = Z.to_nat t) as -> by lia. by simplify_eq. }
  cbn [mbind res_bind]. exists d, (if fr then t + 1 else t), p, pv. set (k := if fr then t + 1 else t) in *.
  assert (0 < k) as Hk.
  { destruct (decide (0 < k)); [done|]. exfalso. pose proof (K2 (Z.to_nat p) pv Hdp ltac:(lia)) as Hc. rewrite cmp_refl in Hc. lia. }
  split; [done|]. split; [done|]. split; [destruct fr; unfold k in *; lia|]. split; [|split]; [..|by split].
  - intros x [i Hx]%list_elem_of_lookup. apply lookup_take_Some in Hx as [Hx Hi]. apply (K1 i x Hx). lia.
  - intros x [i Hx]%list_elem_of_lookup. rewrite lookup_drop in Hx. apply (K2 _ x Hx). lia.
Qed.

(** ** The largest elements *)

Lemma strip_loop_correct fuel data t top : 0 ≤ t → t < Z.of_nat (length data) → t < Z.of_nat fuel →
  (∀ i x, data !! i = Some x → t ≤ Z.of_nat i → f x top = 0) →
  ∃ t', strip_loop fuel data t = Ret t' ∧ 0 ≤ t' ≤ t ∧ ∀ x, x ∈ drop (Z.to_nat t') data → f x top = 0.
Proof.
  revert t. induction fuel as [|fuel IH]; intros t Ht Hl Hf Heq; [lia|]. cbn [strip_loop].
  assert (∀ x, x ∈ drop (Z.to_nat t) data → f x top = 0) as Hdrop.
  { intros x [i Hx]%list_elem_of_lookup. rewrite lookup_drop in Hx. apply (Heq _ x Hx). lia. }
  destruct (Z.ltb_spec 0 t); [|exists t; split_and!; (done || lia)].
  destruct (lookup_lt_is_Some_2 data (Z.to_nat (t - 1))) as [x Hx]; [lia|]. destruct (lookup_lt_is_Some_2 data (Z.to_nat t)) as [y Hy]; [lia|].
  rewrite (COMPARE_correct data (t - 1) t x y) by (done || lia). cbn [mbind res_bind].
  destruct (Z.eqb_spec (f x y) 0) as [E|]; [|exists t; split_and!; (done || lia)].
  destruct (IH (t - 1)) as (t' & E' & Ht' & Hd); [lia..| |exists t'; split_and!; (done || lia)].
  intros i z Hz Hi. destruct (decide (Z.of_nat i = t - 1)) as [Ei|]; [|apply (Heq i z Hz); lia].
  assert (i = Z.to_nat (t - 1)) as -> by lia. rewrite Hx in Hz. injection Hz as <-.
  pose proof (Heq _ y Hy ltac:(lia)) as Ey. apply cmp_eq in Ey as Ey'. apply cmp_eq in E as Ex.
  pose proof (cmp_trans x y top ltac:(lia) ltac:(lia)). pose proof (cmp_trans top y x ltac:(lia) ltac:(lia)).
  destruct (Z.lt_trichotomy (f x top) 0) as [Hn|[?|Hn]]; [|done|lia].
  pose proof (cmp_opp x top) as Eo. rewrite (Z.sgn_neg (f x top)) in Eo by done. destruct (f top x); cbn in Eo; lia.
Qed.

Lemma lop_correct data p pv : 2 ≤ Z.of_nat (length data) → 0 ≤ p → data !! Z.to_nat p = Some pv → (∀ x, x ∈ data → f x pv ≤ 0) →
  ∃ data' t, lop data p = Ret (data', t) ∧ data' ≡ₚ data ∧ 0 ≤ t < Z.of_nat (length data) ∧
    ∀ x y, x ∈ data' → y ∈ drop (Z.to_nat t) data' → f x y ≤ 0.
Proof.
  intros Hl Hp Hpv Hall. unfold lop. set (num := Z.of_nat (length data)) in *. pose proof (lookup_lt_Some _ _ _ Hpv) as Hpl.
  destruct (lookup_lt_is_Some_2 data (Z.to_nat (num - 1))) as [z Hz]; [lia|].
  assert (∃ d top, (if p <? num - 1 then c ← COMPARE data p (num - 1); if 0 <? c then EXCHANGE data p (num - 1) else Ret data else Ret data) = Ret d ∧
    d ≡ₚ data ∧ d !! Z.to_nat (num - 1) = Some top ∧ f pv top ≤ 0) as (d & top & -> & Hd & Htop & Hpt).
  { destruct (Z.ltb_spec p (num - 1)).
    - rewrite (COMPARE_correct data p (num - 1) pv z) by (done || lia). cbn [mbind res_bind]. destruct (Z.ltb_spec 0 (f pv z)).
      + destruct (EXCHANGE_correct data p (num - 1) pv z Hpv Hz) as [-> Hperm]; [lia..|]. eexists _, pv. split; [done|]. split; [done|].
        split; [apply list_lookup_insert_eq; rewrite length_insert; lia|]. rewrite cmp_refl. lia.
      + exists data, z. split_and!; (done || lia).
    - assert (p = num - 1) as -> by lia. exists data, pv. rewrite cmp_refl. split_and!; (done || lia). }
  cbn [mbind res_bind]. pose proof (Permutation_length Hd) as Hlen. rewrite Hlen.
  assert (∀ x, x ∈ d → f x top ≤ 0) as Hmax by (intros x Hx; rewrite Hd in Hx; by eapply cmp_trans; [apply Hall|]).
  destruct (strip_loop_correct (length data) d (num - 1) top) as (t & -> & Ht & Hdrop); [lia..| |].
  { intros i x Hx Hi. assert (i = Z.to_nat (num - 1)) as -> by (pose proof (lookup_lt_Some _ _ _ Hx); lia).
    rewrite Htop in Hx. injection Hx as <-. apply cmp_refl. }
  cbn [mbind res_bind]. exists d, t. split_and!; [done|done|lia|lia|]. intros x y Hx Hy.
  apply (cmp_trans x top y); [by apply Hmax|]. apply Hdrop in Hy. apply cmp_eq in Hy. lia.
Qed.

(** ** Sorting *)

Lemma sorted_app (l1 l2 : list A) : StronglySorted le l1 → StronglySorted le l2 → (∀ x y, x ∈ l1 → y ∈ l2 → le x y) → StronglySorted le (l1 ++ l2).
Proof.
  intros H1 H2 H12. induction H1 as [|x l H1 IH Hx]; [done|]. cbn. constructor; [apply IH; intros; apply H12; [by right|done]|].
  apply Forall_app. split; [done|]. apply Forall_forall. intros y Hy. apply H12; [left|done].
Qed.

Lemma sorted_all (l : list A) : (∀ x y, x ∈ l → y ∈ l → le x y) → StronglySorted le l.
Proof.
  induction l as [|a l IH]; intros Hall; constructor; [apply IH; intros; apply Hall; by right|].
  apply Forall_forall. intros y Hy. apply Hall; [left|by right].
Qed.

Lemma qsort_correct fuel data : (length data < fuel)%nat → ∃ l, qsort fuel data = Ret l ∧ l ≡ₚ data ∧ StronglySorted le l.
Proof.
  revert data. induction fuel as [|fuel IH]; intros data Hf; [lia|]. cbn [qsort]. set (num := Z.of_nat (length data)).
  destruct (Z.leb_spec num 1) as [Hsmall|Hbig].
  { exists data. split_and!; [done..|]. destruct data as [|x [|y l]]; [constructor|by repeat constructor|cbn in num; lia]. }
  destruct (lookup_lt_is_Some_2 data 0%nat) as [x Hx]; [lia|]. destruct (lookup_lt_is_Some_2 data 1%nat) as [y Hy]; [lia|].
  assert ((if num =? 2 then COMPARE data 0 1 else Ret 0) = Ret (if num =? 2 then f x y else 0)) as ->.
  { case_cmp; [|done]. by apply (COMPARE_correct data 0 1). }
  cbn [mbind res_bind]. destruct (Z.ltb_spec 0 (if num =? 2 then f x y else 0)) as [Hgt|_].
  { destruct (Z.eqb_spec num 2) as [E2|]; [|lia]. destruct data as [|x0 [|y0 [|]]]; cbn in num; try lia. injection Hx as ->. injection Hy as ->.
    exists [y; x]. split; [done|]. split; [apply perm_swap|]. apply cmp_swap in Hgt. repeat constructor. unfold le. lia. }
  destruct (partition_correct data) as (d & k & p & pv & -> & Hd & Hk & Hfront & Hback & Hp & Hpv); [lia|].
  cbn [mbind res_bind]. pose proof (Permutation_length Hd) as Hlen. destruct (Z.eqb_spec k num) as [->|Hkn].
  - assert (∀ z, z ∈ d → f z pv ≤ 0) as Hmax.
    { intros z Hz. apply Hfront. rewrite take_ge by lia. done. }
    destruct (lop_correct d p pv) as (d' & t & -> & Hd' & Ht & Hdrop); [lia|done..|]. cbn [mbind res_bind].
    pose proof (Permutation_length Hd') as Hlen'. assert (d' ≡ₚ data) as Hperm by (by rewrite Hd').
    assert (StronglySorted le (drop (Z.to_nat t) d')) as Hs.
    { apply sorted_all. intros u v Hu Hv. apply Hdrop; [|done]. rewrite <-(take_drop (Z.to_nat t) d'). apply elem_of_app. by right. }
    destruct (Z.ltb_spec 0 t).
    + destruct (IH (take (Z.to_nat t) d')) as (fr & -> & Hfr & Sfr); [rewrite length_take; lia|]. cbn [mbind res_bind].
      eexists. split; [done|]. split; [by rewrite Hfr, take_drop|]. apply sorted_app; [done..|]. intros u v Hu Hv. rewrite Hfr in Hu.
      apply Hdrop; [|done]. rewrite <-(take_drop (Z.to_nat t) d'). apply elem_of_app. by left.
    + exists d'. assert (t = 0) as -> by lia. by split_and!.
  - unfold kassert. rewrite (proj2 (Z.ltb_lt 0 k)), (proj2 (Z.ltb_lt k num)) by lia. cbn [mbind res_bind andb].
    destruct (IH (take (Z.to_nat k) d)) as (fr & -> & Hfr & Sfr); [rewrite length_take; lia|]. cbn [mbind res_bind].
    destruct (IH (drop (Z.to_nat k) d)) as (bk & -> & Hbk & Sbk); [rewrite length_drop; lia|]. cbn [mbind res_bind].
    eexists. split; [done|]. split; [by rewrite Hfr, Hbk, take_drop|]. apply sorted_app; [done..|]. intros u v Hu Hv.
    rewrite Hfr in Hu. rewrite Hbk in Hv. apply Hfront in Hu. apply Hback, cmp_swap in Hv. apply (cmp_trans u pv v); lia.
Qed.

End Qsort.

(** ** Properties *)

(** C31: for every comparison function that orders the elements, [qsort] returns with the
    array's own elements, each as often as before, in ascending order; no index leaves
    the array, the assertion on the split holds, and the recursion is at most as deep as
    the array is long. *)
Theorem qsort_sorts {A} (f : A → A → Z) (Hf : Comparison f) (fuel : nat) (data : list A) (Hfuel : (length data < fuel)%nat) :
  ∃ l, qsort f fuel data = Ret l ∧ l ≡ₚ data ∧ StronglySorted (le f) l.
Proof. by apply qsort_correct. Qed.

(** Integers, compared without overflow. *)
Definition intcmp (x y : Z) : Z := if x <? y then -1 else if y <? x then 1 else 0.

Lemma intcmp_orders : Comparison intcmp.
Proof.
  unfold intcmp. split; intros *.
  - destruct (Z.ltb_spec x y), (Z.ltb_spec y x); cbn; lia.
  - destruct (Z.ltb_spec x y), (Z.ltb_spec y x), (Z.ltb_spec y z), (Z.ltb_spec z y), (Z.ltb_spec x z), (Z.ltb_spec z x); lia.
Qed.

Lemma qsort_sorts_witness : ∃ l, qsort intcmp 9 [5; 1; 4; 1; 5; 9; 2; 6] = Ret l ∧ l ≡ₚ [5; 1; 4; 1; 5; 9; 2; 6] ∧ StronglySorted (le intcmp) l.
Proof. apply (qsort_sorts intcmp intcmp_orders 9). cbn. lia. Defined.

(** The same run. *)
Example qsort_run : qsort intcmp 9 [5; 1; 4; 1; 5; 9; 2; 6] = Ret [1; 1; 2; 4; 5; 5; 6; 9].
Proof. reflexivity. Qed.
