(* ===== verification/Files.v ===== *)
(** * File system calls (kern/syscall/file_syscalls.c, the open files of kern/proc/proc.c)

    A process keeps its open files in a hash table from keys made of descriptors to
    pointers to control blocks.  The calls run over the VFS layer of [Vfs], for every
    file system behind its interface; their buffers are ranges of the memory [k_mem].
    A control block that has been freed is not in [k_blocks] any more. *)

From Stdlib Require Import Ascii String.
From S2P Require Import Prelude CString LinkedList Hashtable UserCopy Uio Vfs VfsRefs VfsDev VfsList.
Import LinkedLists.

(** ** Data *)

Definition EBADF : Z := 30.
Definition OPEN_MAX : Z := 128.

Record fcblock := Fcblock { node : Z; offset : Z; permissions : Z }.

(** What the calls of all processes share. *)
Record kst (S : Type) := Kst {
  k_fs : vfs S;
  k_mem : memory;
  k_blocks : gmap Z fcblock;
  k_heap : script
}.
Arguments Kst {S}.
Arguments k_fs {S}.
Arguments k_mem {S}.
Arguments k_blocks {S}.
Arguments k_heap {S}.

(** The part of [struct proc] that has the open files. *)
Record ftab := Ftab { files : table Z; next_fd : Z }.

(** An address that is not in use. *)
Definition unused {A} (m : gmap Z A) : Z := map_fold (λ p _ top, Z.max (p + 1) top) 1 m.

Fixpoint free_bytes (n : nat) (m : memory) (a : Z) : memory :=
  match n with O => m | Datatypes.S n' => free_bytes n' (delete a m) (a + 1) end.

(** [int_to_byte_string(fd)] and the length of it. *)
Definition fd_key (fd : Z) (o : script) : res (hkey * script) :=
  '(digits, o) ← int_to_byte_string fd o;
  fdkey ← deref digits;
  n ← strlen fdkey 0;
  Ret (HKey (take (Z.to_nat (n + 1)) fdkey) n, o).

(** The keys in a table of open files are blocks that [int_to_byte_string] has made for
    the table, and that only [hashtable_remove] frees, once: their memory is not followed. *)
#[global] Instance file_keys : KeyMem Z unit := λ _ _, Ret tt.

Section Calls.
Context {S : Type} `{FO : FsOps S (memory * uio)}.
#[local] Notation kst := (kst S).

Definition set_heap (k : kst) o : kst := Kst k.(k_fs) k.(k_mem) k.(k_blocks) o.
Definition set_fs (k : kst) s : kst := Kst s k.(k_mem) k.(k_blocks) k.(k_heap).
Definition set_blocks (k : kst) b : kst := Kst k.(k_fs) k.(k_mem) b k.(k_heap).
Definition set_mem (k : kst) m : kst := Kst k.(k_fs) m k.(k_blocks) k.(k_heap).

Definition proc_addfile (k : kst) (t : ftab) (fdkey : hkey) (controlblock : Z) : res (Z * kst * ftab) :=
  if OPEN_MAX <=? hashtable_getsize t.(files) then Ret (EMFILE, k, t) else
  '(err, h, o) ← hashtable_add t.(files) fdkey controlblock k.(k_heap);
  Ret (err, set_heap k o, Ftab h t.(next_fd)).

(** ** The calls

    A call returns its value, [*error] and the state. *)

(** A path that is [NULL] is an array without elements. *)
Definition sys_open (k : kst) (t : ftab) (filename : list Z) (flags : Z) : res (Z * Z * kst * ftab) :=
  let '(ok, o) := kmalloc k.(k_heap) in
  let k := set_heap k o in
  if negb ok then Ret (-1, ENOMEM, k, t) else
  let ctrl := unused k.(k_blocks) in
  '(name, o) ← kstrdup filename k.(k_heap);
  '(vfsresult, v, s) ← vfs_open k.(k_fs) (default [] name) flags 0;
  let k := set_fs (set_heap k o) s in
  if negb (vfsresult =? 0) then Ret (-1, vfsresult, k, t) else
  let k := set_blocks k (<[ctrl := Fcblock v 0 (Z.land flags O_ACCMODE)]> k.(k_blocks)) in
  let fd := t.(next_fd) in
  '(fdkey, o) ← fd_key fd k.(k_heap);
  '(addresult, k, t) ← proc_addfile (set_heap k o) t fdkey ctrl;
  if negb (addresult =? 0) then Ret (-1, addresult, k, t) else
  Ret (fd, 0, k, Ftab t.(files) (i32 (t.(next_fd) + 1))).

Definition find_file (k : kst) (t : ftab) (fd : Z) : res (option Z * kst) :=
  '(fdkey, o) ← fd_key fd k.(k_heap);
  ctrl ← hashtable_find t.(files) fdkey;
  Ret (ctrl, set_heap k o).

(** The descriptors 0, 1 and 2 are opened when one of them is first used. *)
Definition open_console (k : kst) (t : ftab) : res (Z * kst * ftab) :=
  let last_fd := t.(next_fd) in
  '(_, _, k, t) ← sys_open k (Ftab t.(files) 0) (lit "con:") O_RDWR;
  '(_, _, k, t) ← sys_open k t (lit "con:") O_RDWR;
  '(_, error, k, t) ← sys_open k t (lit "con:") O_RDWR;
  Ret (error, k, Ftab t.(files) last_fd).

(** The control block of a descriptor that is read or written; with [None] the call
    fails with the error number. *)
Definition use_file (k : kst) (t : ftab) (fd : Z) : res (Z * option Z * kst * ftab) :=
  '(ctrl, k) ← find_file k t fd;
  match ctrl with
  | Some ctrl => Ret (0, Some ctrl, k, t)
  | None =>
      if fd <? 3 then
        '(error, k, t) ← open_console k t;
        '(ctrl, k) ← find_file k t fd;
        ctrl ← deref ctrl;
        Ret (error, Some ctrl, k, t)
      else Ret (EBADF, None, k, t)
  end.

Definition sys_read (k : kst) (t : ftab) (fd buf buflen : Z) : res (Z * Z * kst * ftab) :=
  '(error, ctrl, k, t) ← use_file k t fd;
  match ctrl with
  | None => Ret (-1, error, k, t)
  | Some ctrl =>
      c ← deref (k.(k_blocks) !! ctrl);
      if negb (c.(permissions) =? O_RDONLY) && negb (c.(permissions) =? O_RDWR) then Ret (-1, EBADF, k, t) else
      _ ← vnode_check k.(k_fs) c.(node);
      '(vop_result, (m, reader), s) ← vop_read k.(k_fs) c.(node) (k.(k_mem), uio_kinit buf buflen c.(offset) UIO_READ);
      let k := set_mem (set_fs k s) m in
      if negb (vop_result =? 0) then Ret (-1, EIO, k, t) else
      let result := i32 (reader.(uio_offset) - c.(offset)) in
      let k := set_blocks k (<[ctrl := Fcblock c.(node) reader.(uio_offset) c.(permissions)]> k.(k_blocks)) in
      Ret (result, error, k, t)
  end.

Definition sys_write (k : kst) (t : ftab) (fd buf nbytes : Z) : res (Z * Z * kst * ftab) :=
  '(error, ctrl, k, t) ← use_file k t fd;
  match ctrl with
  | None => Ret (-1, error, k, t)
  | Some ctrl =>
      c ← deref (k.(k_blocks) !! ctrl);
      if negb (c.(permissions) =? O_WRONLY) && negb (c.(permissions) =? O_RDWR) then Ret (-1, EBADF, k, t) else
      let '(ok, o) := kmalloc k.(k_heap) in
      let k := set_heap k o in
      if negb ok then Ret (-1, ENOMEM, k, t) else
      let bufcpy := unused k.(k_mem) in
      let '(xs, ok) := load_bytes (Z.to_nat nbytes) k.(k_mem) buf in
      if negb ok then Undef else
      let k := set_mem k (with_bytes k.(k_mem) bufcpy xs) in
      _ ← vnode_check k.(k_fs) c.(node);
      '(vop_result, (m, writer), s) ← vop_write k.(k_fs) c.(node) (k.(k_mem), uio_kinit bufcpy nbytes c.(offset) UIO_WRITE);
      let k := set_mem (set_fs k s) m in
      if negb (vop_result =? 0) then Ret (-1, EIO, k, t) else
      let result := i32 (writer.(uio_offset) - c.(offset)) in
      let k := set_blocks k (<[ctrl := Fcblock c.(node) writer.(uio_offset) c.(permissions)]> k.(k_blocks)) in
      Ret (result, error, set_mem k (free_bytes (Z.to_nat nbytes) k.(k_mem) bufcpy), t)
  end.

Definition close_from_process (k : kst) (t : ftab) (fd : Z) : res (Z * Z * kst * ftab) :=
  '(fdkey, o) ← fd_key fd k.(k_heap);
  '(ctrl, h, _, o) ← hashtable_remove t.(files) fdkey tt o;
  let k := set_heap k o in
  let t := Ftab h t.(next_fd) in
  match ctrl with
  | None => Ret (-1, EBADF, k, t)
  | Some ctrl =>
      c ← deref (k.(k_blocks) !! ctrl);
      s ← vfs_close k.(k_fs) c.(node);
      Ret (0, 0, set_blocks (set_fs k s) (delete ctrl k.(k_blocks)), t)
  end.

Definition sys_close (k : kst) (t : ftab) (fd : Z) : res (Z * Z * kst * ftab) := close_from_process k t fd.

(** The loop of [proc_create_fork] that copies the open files; [n] descriptors are left,
    [i] is the next.  Without memory for a block the loop goes on to write to [NULL]. *)
Fixpoint copy_files (n : nat) (i : Z) (k : kst) (parent : ftab) (child : table Z) : res (kst * table Z) :=
  match n with
  | O => Ret (k, child)
  | Datatypes.S n' =>
      '(fdkey, o) ← fd_key i k.(k_heap);
      controlblock ← hashtable_find parent.(files) fdkey;
      match controlblock with
      | None => copy_files n' (i + 1) (set_heap k o) parent child
      | Some controlblock =>
          let '(ok, o) := kmalloc o in
          if negb ok then Undef else
          let newcontrolblock := unused k.(k_blocks) in
          c ← deref (k.(k_blocks) !! controlblock);
          '(_, child, o) ← hashtable_add child fdkey newcontrolblock o;
          let k := set_heap (set_blocks k (<[newcontrolblock := Fcblock c.(node) c.(offset) c.(permissions)]> k.(k_blocks))) o in
          copy_files n' (i + 1) k parent child
      end
  end.

End Calls.

(** ** Keys *)

(** The key of a descriptor; other numbers get keys that no table has. *)
Definition key_of (fd : Z) : hkey :=
  match fd_key fd [] with
  | Ret (k, _) => if (0 <=? fd) && (fd <? 2 ^ 31) then k else HKey [fd] (-1)
  | _ => HKey [fd] (-1)
  end.

Lemma wr_length {A} (l : list A) i x l' : l.[i <- x] = Ret l' → length l' = length l.
Proof. unfold wr. destruct (_ && _); [|done]. intros E. injection E as <-. apply length_insert. Qed.

Lemma byte_string_loop_length fuel cond input b n b' n' : byte_string_loop fuel cond input b n = Ret (b', n') → length b' = length b.
Proof.
  revert cond input b n. induction fuel as [|fuel IH]; intros cond input b n; cbn [byte_string_loop]; [done|].
  destruct (_ && _); [|by intros [= -> _]]. destruct (wr b n _) as [b1| | |] eqn:E; try done. cbn [mbind res_bind].
  intros Hl%IH. by rewrite Hl, (wr_length _ _ _ _ E).
Qed.

Lemma int_to_byte_string_length input o b o' : int_to_byte_string input o = Ret (Some b, o') → length b = 6%nat.
Proof.
  unfold int_to_byte_string. destruct (kmalloc o) as [[] o1]; [|done]. unfold int_to_byte_string_nomalloc.
  destruct (byte_string_loop _ _ _ _ _) as [[d n]| | |] eqn:E; try done. cbn [mbind res_bind].
  destruct (wr d n 0) as [d1| | |] eqn:E1; try done. cbn [mbind res_bind]. intros [= <- _].
  by rewrite (wr_length _ _ _ _ E1), (byte_string_loop_length _ _ _ _ _ _ _ E).
Qed.

Lemma fd_key_string fd : 0 ≤ fd < 2 ^ 31 → ∃ s, fd_key fd [] = Ret (HKey (s ++ [0]) (Z.of_nat (length s)), []) ∧
  (length s ≤ 5)%nat ∧ Forall (λ c, 0 < c < 256) s ∧ byte_string_value s = fd.
Proof.
  intros Hfd. destruct (int_to_byte_string_correct fd Hfd) as (s & rest & E & _ & Hl & Hs & Hv). exists s. split_and!; [|done..].
  unfold fd_key. rewrite E. cbn [mbind res_bind deref]. rewrite (strlen_correct _ 0 s).
  - cbn [mbind res_bind]. do 2 f_equal. f_equal. replace (Z.to_nat _) with (length s + 1)%nat by lia.
    by rewrite take_app_add.
  - pose proof (int_to_byte_string_length _ _ _ _ E) as Hlen. split_and!; [done|lia|done|]. by exists rest.
Qed.

Lemma key_of_string fd : 0 ≤ fd < 2 ^ 31 → ∃ s, fd_key fd [] = Ret (key_of fd, []) ∧ key_of fd = HKey (s ++ [0]) (Z.of_nat (length s)) ∧
  (length s ≤ 5)%nat ∧ Forall (λ c, 0 < c < 256) s ∧ byte_string_value s = fd.
Proof.
  intros Hfd. destruct (fd_key_string fd Hfd) as (s & E & Hs). exists s. unfold key_of. rewrite E.
  rewrite (proj2 (Z.leb_le 0 fd)), (proj2 (Z.ltb_lt fd (2 ^ 31))) by lia. done.
Qed.

Lemma key_of_other fd : ¬ 0 ≤ fd < 2 ^ 31 → key_of fd = HKey [fd] (-1).
Proof.
  intros Hfd. unfold key_of. destruct (fd_key fd []) as [[k o]| | |]; [|done..].
  destruct (Z.leb_spec 0 fd), (Z.ltb_spec fd (2 ^ 31)); [lia|done..].
Qed.

Lemma fd_key_correct fd : 0 ≤ fd < 2 ^ 31 → fd_key fd [] = Ret (key_of fd, []) ∧ valid (key_of fd).
Proof.
  intros Hfd. destruct (key_of_string fd Hfd) as (s & E & Ek & Hl & Hs & _). split; [done|]. rewrite Ek.
  split; [by exists s|]. cbn [key keylen]. rewrite length_app. cbn [length]. lia.
Qed.

#[global] Instance key_of_inj : Inj (=) (=) key_of.
Proof.
  intros fd fd'. destruct (decide (0 ≤ fd < 2 ^ 31)) as [Hfd|Hfd], (decide (0 ≤ fd' < 2 ^ 31)) as [Hfd'|Hfd'].
  - destruct (key_of_string fd Hfd) as (s & _ & -> & _ & _ & <-), (key_of_string fd' Hfd') as (s' & _ & -> & _ & _ & <-).
    intros Ek. injection Ek as Ek _. by apply app_inj_tail in Ek as [-> _].
  - destruct (key_of_string fd Hfd) as (s & _ & -> & _). rewrite (key_of_other fd') by done. intros [=]. lia.
  - destruct (key_of_string fd' Hfd') as (s & _ & -> & _). rewrite (key_of_other fd) by done. intros [=]. lia.
  - rewrite !key_of_other by done. by intros [=].
Qed.

Lemma unused_fresh {A} (m : gmap Z A) p : is_Some (m !! p) → p < unused m.
Proof.
  unfold unused. revert p. apply (map_fold_weak_ind (λ top m, ∀ p, is_Some (m !! p) → p < top)).
  - intros p. rewrite lookup_empty. by intros [].
  - intros i x m' top _ IH p [y Hy]. apply lookup_insert_Some in Hy as [[-> _]|[_ Hy]]; [lia|].
    pose proof (IH p (mk_is_Some _ _ Hy)). lia.
Qed.

Lemma unused_None {A} (m : gmap Z A) : m !! unused m = None.
Proof. destruct (m !! unused m) as [x|] eqn:E; [|done]. pose proof (unused_fresh m _ (mk_is_Some _ _ E)). lia. Qed.

(** ** Giving a reference back *)

Section Close.
Context {S : Type} `{FL : FsLaws S (memory * uio)}.
Implicit Types s : vfs S.

(** The references [R] besides those of the layer. *)
Definition counted s (R : list Z) : Prop := ∀ w, cnt w (owned s ++ R) ≤ refs s w.

Lemma counted_holding s l s' R : vfs_ok s → counted s R → holding 0 s l s' → owned s' = owned s ∧ counted s' (l ++ R).
Proof.
  intros Hs Hc Hh. destruct (holding_rest _ _ _ _ Hh) as (E1 & E2 & E3 & _).
  assert (owned s' = owned s) as E by (unfold owned; congruence). split; [done|].
  intros w. specialize (Hc w). rewrite E, !cnt_app in *. destruct Hh as [_ Ho].
  pose proof (owes_le _ _ _ _ w Ho (ok_vnodes _ Hs)). lia.
Qed.

Lemma without_vfs_ok s v R : vfs_ok s → v ≠ 0 → counted s (v :: R) → vfs_ok (without s v) ∧ counted (without s v) R.
Proof.
  intros Hs Hv Hc. assert (0 < refs s v) as Hl.
  { specialize (Hc v). rewrite cnt_app, cnt_cons, decide_True in Hc by done. pose proof (cnt_nonneg v (owned s)). pose proof (cnt_nonneg v R). lia. }
  destruct (without_holding s v Hs (or_introl Hl)) as [_ ((E1 & E2 & E3 & E4 & E5) & Hf & _)].
  assert (owned (without s v) = owned s) as Eo by (unfold owned; congruence).
  assert (counted (without s v) R) as Hc'.
  { intros w. specialize (Hc w). rewrite Eo, without_refs by (by left). rewrite !cnt_app, !cnt_cons in *. unfold opt_ref.
    rewrite decide_False, cnt_cons by done. change (cnt w []) with 0. lia. }
  assert (∀ w, cnt w (owned (without s v)) ≤ refs (without s v) w) as Hown.
  { intros w. specialize (Hc' w). rewrite cnt_app in Hc'. pose proof (cnt_nonneg w R). lia. }
  split; [|done]. constructor; [apply without_ok, (ok_vnodes _ Hs)|pose proof (ok_depth _ Hs); lia|done| |].
  - rewrite <-E4. intros Hne. destruct (ok_cwd _ Hs Hne) as (n & Hn & Hfs & Hlive). rewrite without_fsys.
    assert (0 < refs (without s v) s.(p_cwd)) as Hp.
    { specialize (Hown s.(p_cwd)). rewrite Eo in Hown. assert (0 < cnt s.(p_cwd) (owned s)); [|lia].
      apply cnt_elem. unfold owned. rewrite !elem_of_app. right; left. by apply opt_ref_elem. }
    destruct (refs_Some _ _ Hp) as (n' & Hn' & _). exists n'. split; [done|]. destruct (Hf _ _ _ Hp Hn' Hn) as [<- _]. done.
  - rewrite <-E1. eapply Forall_impl; [apply (ok_devs _ Hs)|]. intros kd [? ? ? ? ?]. constructor; rewrite ?without_fsys; auto.
Qed.

Lemma close_correct s v R : vfs_ok s → v ≠ 0 → counted s (v :: R) →
  ∃ s', vfs_close s v = Ret s' ∧ vfs_ok s' ∧ counted s' R ∧ moved s [] [v] s' ∧ s'.(p_cwd) = s.(p_cwd).
Proof.
  intros Hs Hv Hc. destruct (without_vfs_ok s v R Hs Hv Hc) as [Hs0 Hc0]. assert (0 < refs s v) as Hl.
  { specialize (Hc v). rewrite cnt_app, cnt_cons, decide_True in Hc by done. pose proof (cnt_nonneg v (owned s)). pose proof (cnt_nonneg v R). lia. }
  pose proof (without_holding s v Hs (or_introl Hl)) as Hh. unfold opt_ref in Hh. rewrite decide_False in Hh by done.
  destruct (holding_decref 0 (without s v) [] s v Hs0 Hh) as (s' & E & Hh'). exists s'. split; [done|].
  split; [by apply (holding_ok (without s v))|]. destruct (counted_holding _ _ _ R Hs0 Hc0 Hh') as [_ Hc']. split; [done|].
  split.
  - intros w. destruct Hh' as [_ (_ & _ & Hw)]. destruct (Hw w) as [Ew|[Ew Ew']]; rewrite without_refs in Ew by (by left);
      unfold opt_ref in Ew; rewrite decide_False in Ew by done; change (cnt w []) with 0 in *; [left|right]; lia.
  - destruct (holding_rest _ _ _ _ Hh) as (_ & _ & E1 & _), (holding_rest _ _ _ _ Hh') as (_ & _ & E2 & _). congruence.
Qed.

End Close.

(** ** Open files *)

(** The open files of a process whose table has the pointers [P]. *)
Definition view (bl : gmap Z fcblock) (P : gmap Z Z) : gmap Z fcblock := omap (λ p, bl !! p) P.

Definition nodes (F : gmap Z fcblock) : list Z := (λ x, x.2.(node)) <$> map_to_list F.

Lemma cnt_perm w l l' : l ≡ₚ l' → cnt w l = cnt w l'.
Proof. intros E. unfold cnt. by rewrite E. Qed.

Lemma nodes_insert F fd b w : F !! fd = None → cnt w (nodes (<[fd := b]> F)) = cnt w (b.(node) :: nodes F).
Proof. intros Hn. apply cnt_perm. unfold nodes. by rewrite map_to_list_insert. Qed.

Lemma nodes_delete F fd b w : F !! fd = Some b → cnt w (nodes F) = cnt w (b.(node) :: nodes (delete fd F)).
Proof. intros Hb. apply cnt_perm. unfold nodes. by rewrite <-(map_to_list_delete _ _ _ Hb). Qed.

Lemma view_lookup bl P fd : view bl P !! fd = P !! fd ≫= λ p, bl !! p.
Proof. apply lookup_omap. Qed.

Record tab_ok (bl : gmap Z fcblock) (t : ftab) (P : gmap Z Z) : Prop := TabOk {
  tab_rep : represents t.(files) (kmap key_of P);
  tab_size : Z.of_nat (size P) ≤ OPEN_MAX;
  tab_fd fd p : P !! fd = Some p → 0 ≤ fd < 2 ^ 31 ∧ ∃ b, bl !! p = Some b ∧ b.(node) ≠ 0;
  tab_inj fd fd' p : P !! fd = Some p → P !! fd' = Some p → fd = fd'
}.

Lemma kmap_size (P : gmap Z Z) : size (kmap key_of P : gmap hkey Z) = size P.
Proof. rewrite <-!length_map_to_list, (Permutation_length (map_to_list_kmap key_of P)). apply length_fmap. Qed.

(** Blocks of the table that stay as they are. *)
Lemma tab_ok_blocks bl bl' t P : tab_ok bl t P → (∀ fd p, P !! fd = Some p → bl' !! p = bl !! p) → tab_ok bl' t P ∧ view bl' P = view bl P.
Proof.
  intros [H1 H2 H3 H4] Hsame. split.
  - split; [done..| |done]. intros fd p Hp. destruct (H3 _ _ Hp) as (? & b & ? & ?). split; [done|]. exists b. by rewrite (Hsame _ _ Hp).
  - apply map_eq. intros fd. rewrite !view_lookup. destruct (P !! fd) as [p|] eqn:E; [|done]. cbn. by apply (Hsame fd).
Qed.

Lemma tab_find bl t P fd : tab_ok bl t P → 0 ≤ fd < 2 ^ 31 → hashtable_find t.(files) (key_of fd) = Ret (P !! fd).
Proof.
  intros Ht Hfd. destruct (fd_key_correct fd Hfd) as [_ Hv]. rewrite (table_find_correct _ _ _ (tab_rep _ _ _ Ht) Hv).
  by rewrite (lookup_kmap key_of).
Qed.

Lemma tab_add bl t P fd c b : tab_ok bl t P → Z.of_nat (size P) < OPEN_MAX → 0 ≤ fd < 2 ^ 31 → b.(node) ≠ 0 → bl !! c = None →
  ∃ h, hashtable_add t.(files) (key_of fd) c [] = Ret (0, h, []) ∧
    ∀ n, tab_ok (<[c := b]> bl) (Ftab h n) (<[fd := c]> P) ∧ view (<[c := b]> bl) (<[fd := c]> P) = <[fd := b]> (view bl P).
Proof.
  intros Ht Hs Hfd Hb Hc. destruct (fd_key_correct fd Hfd) as [_ Hv]. unfold OPEN_MAX in *.
  destruct (table_add_correct _ _ (key_of fd) c (tab_rep _ _ _ Ht) Hv) as (h & -> & Hh); [rewrite kmap_size; lia|].
  exists h. split; [done|]. intros n. assert (∀ fd' p, P !! fd' = Some p → c ≠ p) as Hne.
  { intros fd' p Hp ->. destruct (tab_fd _ _ _ Ht _ _ Hp) as (_ & b' & ? & _). congruence. }
  split.
  - split; cbn [files].
    + by rewrite (kmap_insert key_of).
    + unfold OPEN_MAX. rewrite map_size_insert. destruct (P !! fd); cbn; lia.
    + intros fd' p [[<- <-]|[_ Hp]]%lookup_insert_Some; [split; [done|]; exists b; by rewrite lookup_insert_eq|].
      rewrite lookup_insert_ne by eauto. by apply (tab_fd _ _ _ Ht).
    + intros f1 f2 p [[<- <-]|[_ H1]]%lookup_insert_Some [[<- E]|[_ H2]]%lookup_insert_Some.
      * done.
      * by destruct (Hne _ _ H2).
      * subst p. by destruct (Hne _ _ H1).
      * by apply (tab_inj _ _ _ Ht _ _ p).
  - apply map_eq. intros fd'. rewrite view_lookup. destruct (decide (fd' = fd)) as [->|].
    + rewrite !lookup_insert_eq. cbn. by rewrite lookup_insert_eq.
    + rewrite !lookup_insert_ne, view_lookup by done. destruct (P !! fd') as [p|] eqn:E; [|done]. cbn. rewrite lookup_insert_ne; eauto.
Qed.

Lemma tab_remove bl t P fd : tab_ok bl t P → 0 ≤ fd < 2 ^ 31 →
  ∃ h, hashtable_remove t.(files) (key_of fd) tt [] = Ret (P !! fd, h, tt, []) ∧
    ∀ n, tab_ok (match P !! fd with Some c => delete c bl | None => bl end) (Ftab h n) (delete fd P) ∧
      view (match P !! fd with Some c => delete c bl | None => bl end) (delete fd P) = delete fd (view bl P).
Proof.
  intros Ht Hfd. destruct (fd_key_correct fd Hfd) as [_ Hv]. pose proof (tab_size _ _ _ Ht). unfold OPEN_MAX in *.
  destruct (table_remove_correct _ _ (key_of fd) tt (tab_rep _ _ _ Ht) Hv) as (h & -> & Hh); [rewrite kmap_size; lia|].
  exists h. split; [rewrite (lookup_kmap key_of); by destruct (P !! fd)|]. intros n.
  assert (∀ fd' p, delete fd P !! fd' = Some p → match P !! fd with Some c => delete c bl | None => bl end !! p = bl !! p) as Hsame.
  { intros fd' p [Hne Hp]%lookup_delete_Some. destruct (P !! fd) as [c|] eqn:E; [|done]. apply lookup_delete_ne.
    intros ->. apply Hne. by apply (tab_inj _ _ _ Ht _ _ p). }
  assert (tab_ok bl (Ftab h n) (delete fd P)) as Ht'.
  { split; cbn [files].
    - by rewrite (kmap_delete key_of).
    - unfold OPEN_MAX. rewrite map_size_delete. destruct (P !! fd); cbn; lia.
    - intros fd' p [_ Hp]%lookup_delete_Some. by apply (tab_fd _ _ _ Ht).
    - intros f1 f2 p [_ H1]%lookup_delete_Some [_ H2]%lookup_delete_Some. by apply (tab_inj _ _ _ Ht _ _ p). }
  destruct (tab_ok_blocks _ _ _ _ Ht' Hsame) as [? ->]. split; [done|]. apply map_eq. intros fd'. rewrite view_lookup.
  destruct (decide (fd' = fd)) as [->|]; [by rewrite !lookup_delete_eq|]. by rewrite !lookup_delete_ne, view_lookup.
Qed.

(** ** What reading and writing promise *)

(** A transfer through a buffer of the kernel returns, keeps the references and moves
    the offset by at most the length of the buffer; a read changes no byte outside of
    the buffer, a write none at all. *)
Class FileLaws (S : Type) `{FsOps S (memory * uio)} := {
  law_read s v m u : vnodes_ok s → 0 < refs s v → uio_ok None m u → u.(uio_dir) = UIO_READ →
    ∃ e m' u' s', vop_read s v (m, u) = Ret (e, (m', u'), s') ∧ vnodes_ok s' ∧ quiet s s' ∧
      u.(uio_offset) ≤ u'.(uio_offset) ≤ u.(uio_offset) + u.(uio_resid) ∧ dom m' = dom m ∧
      ∀ a, a ∉ iov_addrs u.(uio_iov) → m' !! a = m !! a;
  law_write s v m u : vnodes_ok s → 0 < refs s v → uio_ok None m u → u.(uio_dir) = UIO_WRITE →
    ∃ e u' s', vop_write s v (m, u) = Ret (e, (m, u'), s') ∧ vnodes_ok s' ∧ quiet s s' ∧
      u.(uio_offset) ≤ u'.(uio_offset) ≤ u.(uio_offset) + u.(uio_resid)
}.

(** ** The buffer of a write *)

Lemma unused_pos {A} (m : gmap Z A) : 1 ≤ unused m.
Proof. unfold unused. apply (map_fold_weak_ind (λ top _, 1 ≤ top)); [done|]. intros. lia. Qed.

Lemma free_bytes_lookup n m a i : free_bytes n m a !! i = if decide (a ≤ i < a + Z.of_nat n) then None else m !! i.
Proof.
  revert m a. induction n as [|n IH]; intros m a; cbn [free_bytes]; [rewrite decide_False by lia; done|].
  rewrite IH. destruct (decide (i = a)) as [->|]; [rewrite lookup_delete_eq; by repeat case_decide; try lia|].
  rewrite lookup_delete_ne by done. repeat case_decide; lia || done.
Qed.

Lemma buffer_freed m xs : free_bytes (length xs) (with_bytes m (unused m) xs) (unused m) = m.
Proof.
  apply map_eq. intros i. rewrite free_bytes_lookup, with_bytes_lookup. case_decide as E; [|done].
  destruct (m !! i) as [x|] eqn:Ei; [|done]. pose proof (unused_fresh m i (mk_is_Some _ _ Ei)). lia.
Qed.

Lemma buffer_apart m xs i : is_Some (m !! i) → with_bytes m (unused m) xs !! i = m !! i.
Proof. intros Hi%unused_fresh. rewrite with_bytes_lookup, decide_False by lia. done. Qed.

Lemma buffer_mapped m a xs : mapped (with_bytes m a xs) a (Z.of_nat (length xs)).
Proof. intros i Hi. rewrite with_bytes_lookup, decide_True by lia. apply lookup_lt_is_Some_2. lia. Qed.

(** Computes with the state of a call. *)
Ltac ksimpl :=
  cbn [set_heap set_fs set_blocks set_mem k_fs k_mem k_blocks k_heap files next_fd node offset permissions kmalloc negb mbind res_bind].

Section Correct.
Context {S : Type} `{FL : FsLaws S (memory * uio)} `{!FileLaws S}.
Implicit Types k : kst S.

(** A process with the pointers [P] in its table; [R] are the references that others hold. *)
Record ok (R : list Z) k (t : ftab) (P : gmap Z Z) : Prop := Ok {
  ok_heap : k.(k_heap) = [];
  ok_fs : vfs_ok k.(k_fs);
  ok_tab : tab_ok k.(k_blocks) t P;
  ok_refs : counted k.(k_fs) (nodes (view k.(k_blocks) P) ++ R)
}.

(** Control blocks of other processes stay as they are. *)
Definition others_kept (P : gmap Z Z) (bl bl' : gmap Z fcblock) : Prop :=
  ∀ p, is_Some (bl !! p) → (∀ fd, P !! fd ≠ Some p) → bl' !! p = bl !! p.

Lemma find_file_correct R k t P fd : ok R k t P → 0 ≤ fd < 2 ^ 31 → find_file k t fd = Ret (P !! fd, k).
Proof.
  intros [Hh _ Ht _] Hfd. unfold find_file. destruct (fd_key_correct fd Hfd) as [E _]. rewrite Hh, E. cbn [mbind res_bind].
  rewrite (tab_find _ _ _ _ Ht Hfd). cbn [mbind res_bind]. rewrite <-Hh. by destruct k.
Qed.

Lemma counted_perm (s : vfs S) R R' : (∀ w, cnt w R' ≤ cnt w R) → counted s R → counted s R'.
Proof. intros Hle Hc w. specialize (Hc w). specialize (Hle w). rewrite cnt_app in *. lia. Qed.

(** What a call that opens a file does with it. *)
Definition opened R k (t : ftab) P (n : list Z) (flags fd e : Z) k' (t' : ftab) : Prop :=
  k'.(k_mem) = k.(k_mem) ∧ others_kept P k.(k_blocks) k'.(k_blocks) ∧
  if e =? 0 then fd = t.(next_fd) ∧ t'.(next_fd) = t.(next_fd) + 1 ∧ ∃ c v, v ≠ 0 ∧ ok R k' t' (<[fd := c]> P) ∧
    view k'.(k_blocks) (<[fd := c]> P) = <[fd := Fcblock v 0 (Z.land flags O_ACCMODE)]> (view k.(k_blocks) P) ∧
    holding 0 k.(k_fs) [v] k'.(k_fs)
  else fd = -1 ∧ t' = t ∧ ok R k' t P ∧ view k'.(k_blocks) P = view k.(k_blocks) P ∧
    ((holding 0 k.(k_fs) [] k'.(k_fs) ∧ ∃ z v s', cstr z 0 n ∧ vfs_open k.(k_fs) z flags 0 = Ret (e, v, s')) ∨ e = EMFILE ∧ OPEN_MAX ≤ Z.of_nat (size P) ∧ ∃ v, holding 0 k.(k_fs) [v] k'.(k_fs)).

Lemma sys_open_correct R k t P name n flags : ok R k t P → cstr name 0 n → Z.of_nat (length n) + 1 < 2 ^ 32 → 0 ≤ t.(next_fd) < 2 ^ 31 - 1 →
  ∃ fd e k' t', sys_open k t name flags = Ret (fd, e, k', t') ∧ opened R k t P n flags fd e k' t'.
Proof.
  intros [Hh Hf Ht Hr] Hn Hl Hfd. destruct k as [fs m bl o], t as [h nf]. cbn [k_fs k_mem k_blocks k_heap next_fd] in *. subst o.
  unfold sys_open. cbn [kmalloc k_heap set_heap negb k_blocks k_fs k_mem].
  destruct (kstrdup_correct name n [] Hn Hl) as (z & Hz & ->). cbn [kmalloc fst snd mbind res_bind from_option id].
  destruct (open_correct fs z n flags 0 Hf Hz) as (e & v & s' & Eo & Hg). rewrite Eo. cbn [mbind res_bind set_fs set_heap k_fs k_mem k_blocks k_heap].
  unfold gift in Hg. destruct (Z.eqb_spec e 0) as [->|He]; cbn [negb].
  2: { destruct (counted_holding _ _ _ _ Hf Hr Hg) as [_ Hc]. eexists _, _, _, _. split; [done|]. split; [done|]. split; [done|].
    rewrite (proj2 (Z.eqb_neq e 0)) by done. split_and!; [done..| |done|left; split; [done|by eexists _, _, _]]. split; [done|by apply (holding_ok fs)|done|done]. }
  destruct Hg as [Hv Hh]. destruct (counted_holding _ _ _ _ Hf Hr Hh) as [_ Hc]. pose proof (holding_keeps_ok _ _ _ Hf Hh) as Hf'.
  ksimpl. destruct (fd_key_correct nf) as [-> _]; [lia|]. ksimpl.
  set (b := Fcblock v 0 _). set (c := unused bl). pose proof (unused_None bl) as Hun. fold c in Hun. unfold proc_addfile. cbn [files k_heap].
  assert (hashtable_getsize h = Z.of_nat (size P)) as ->.
  { destruct (tab_rep _ _ _ Ht) as (es & _ & _ & E). unfold hashtable_getsize. cbn [files] in E. by rewrite E, kmap_size. }
  assert (others_kept P bl (<[c := b]> bl)) as Hkept by (intros p [x Hx] _; apply lookup_insert_ne; congruence).
  destruct (Z.leb_spec OPEN_MAX (Z.of_nat (size P))) as [Hmax|Hmax]; cbn [mbind res_bind].
  - eexists _, _, _, _. split; [done|]. split; [done|]. split; [done|]. change (EMFILE =? 0) with false. cbn match.
    destruct (tab_ok_blocks bl (<[c := b]> bl) _ P Ht) as [Ht' Ev].
    { intros fd p Hp. apply lookup_insert_ne. destruct (tab_fd _ _ _ Ht _ _ Hp) as (_ & x & ? & _). congruence. }
    split_and!; [done..| |done|right; eauto]. split; ksimpl; [done|done|done|]. rewrite Ev.
    eapply counted_perm; [|exact Hc]. intros w. rewrite (cnt_app w [v]). pose proof (cnt_nonneg w [v]). lia.
  - destruct (tab_add bl _ P nf c b Ht Hmax) as (h' & E & Hadd); [lia|done|done|]. ksimpl. cbn [files] in E. rewrite E. ksimpl. cbn [Z.eqb negb].
    eexists _, _, _, _. split; [done|]. split; [done|]. split; [done|]. cbn [Z.eqb]; ksimpl. rewrite i32_id by lia.
    destruct (Hadd (nf + 1)) as [Ht' Ev]. split; [done|]. split; [done|]. exists c, v. split_and!; try done. split; ksimpl; [done|done|done|].
    rewrite Ev. eapply counted_perm; [|exact Hc]. intros w. rewrite !cnt_app, cnt_cons. change (cnt w []) with 0.
    destruct (view bl P !! nf) as [b0|] eqn:E0.
    + rewrite <-insert_delete_eq, nodes_insert, (nodes_delete _ _ _ w E0), !cnt_cons by apply lookup_delete_eq. cbn [node b]. case_decide; case_decide; lia.
    + rewrite nodes_insert, cnt_cons by done. cbn [node b]. lia.
Qed.

Lemma close_from_correct R k t P fd : ok R k t P → 0 ≤ fd < 2 ^ 31 →
  ∃ r e k' t', close_from_process k t fd = Ret (r, e, k', t') ∧ ok R k' t' (delete fd P) ∧
    view k'.(k_blocks) (delete fd P) = delete fd (view k.(k_blocks) P) ∧ t'.(next_fd) = t.(next_fd) ∧
    k'.(k_mem) = k.(k_mem) ∧ k'.(k_fs).(p_cwd) = k.(k_fs).(p_cwd) ∧ others_kept P k.(k_blocks) k'.(k_blocks) ∧
    match view k.(k_blocks) P !! fd with
    | None => r = -1 ∧ e = EBADF ∧ k'.(k_fs) = k.(k_fs)
    | Some b => r = 0 ∧ e = 0 ∧ moved k.(k_fs) [] [b.(node)] k'.(k_fs)
    end.
Proof.
  intros [Hh Hf Ht Hr] Hfd. destruct k as [fs m bl o], t as [h nf]. cbn [k_fs k_mem k_blocks k_heap next_fd] in *. subst o.
  unfold close_from_process. destruct (fd_key_correct fd) as [E _]; [lia|]. ksimpl. rewrite E. ksimpl.
  destruct (tab_remove bl _ P fd Ht Hfd) as (h' & E' & Hrem). cbn [files] in E'. rewrite E'. ksimpl. destruct (Hrem nf) as [Ht' Ev].
  rewrite view_lookup. destruct (P !! fd) as [c|] eqn:Ec; ksimpl.
  - destruct (tab_fd _ _ _ Ht _ _ Ec) as (_ & b & Hb & Hnode). rewrite Hb. cbn [deref]. ksimpl.
    assert (view bl P !! fd = Some b) as Hview by (rewrite view_lookup, Ec; done).
    destruct (close_correct fs b.(node) (nodes (delete fd (view bl P)) ++ R) Hf Hnode) as (s' & -> & Hf' & Hc & Hm & Ecwd).
    { eapply counted_perm; [|exact Hr]. intros w. rewrite app_comm_cons, !cnt_app, (nodes_delete _ _ _ w Hview). lia. }
    ksimpl. eexists _, _, _, _. split; [done|]. split_and!; try done.
    + split; ksimpl; [done|done|done|]. by rewrite Ev.
    + intros p _ Hp. ksimpl. apply lookup_delete_ne. intros ->. by apply (Hp fd).
    + cbn [option_bind]. by rewrite Hb.
  - eexists _, _, _, _. split; [done|]. split_and!; try done. split; ksimpl; [done|done|done|]. rewrite Ev.
    rewrite delete_id; [done|]. by rewrite view_lookup, Ec.
Qed.

Lemma tab_set bl t P fd c b b' : tab_ok bl t P → P !! fd = Some c → bl !! c = Some b → b'.(node) = b.(node) →
  tab_ok (<[c := b']> bl) t P ∧ view (<[c := b']> bl) P = <[fd := b']> (view bl P) ∧ ∀ w, cnt w (nodes (<[fd := b']> (view bl P))) = cnt w (nodes (view bl P)).
Proof.
  intros Ht Hc Hb Hn. assert (∀ fd' p, P !! fd' = Some p → fd' ≠ fd → c ≠ p) as Hne by (intros fd' p Hp Hd ->; apply Hd; by apply (tab_inj _ _ _ Ht _ _ p)).
  destruct (tab_fd _ _ _ Ht _ _ Hc) as (_ & b0 & Hb0 & Hn0). simplify_eq.
  assert (view bl P !! fd = Some b) as Hv by (rewrite view_lookup, Hc; done). split_and!.
  - destruct Ht as [H1 H2 H3 H4]. split; [done..| |done]. intros fd' p Hp. destruct (H3 _ _ Hp) as (? & x & Hx & Hxn). split; [done|].
    destruct (decide (p = c)) as [->|]; [exists b'; rewrite lookup_insert_eq; split; [done|congruence]|exists x; by rewrite lookup_insert_ne].
  - apply map_eq. intros fd'. rewrite view_lookup. destruct (decide (fd' = fd)) as [->|].
    + rewrite Hc, lookup_insert_eq. cbn. by rewrite lookup_insert_eq.
    + rewrite lookup_insert_ne, view_lookup by done. destruct (P !! fd') as [p|] eqn:E; [|done]. cbn. rewrite lookup_insert_ne; eauto.
  - intros w. rewrite <-insert_delete_eq, nodes_insert, (nodes_delete _ _ _ w Hv), !cnt_cons by apply lookup_delete_eq. by rewrite Hn.
Qed.

(** The references of the open files of the process. *)
Lemma file_live R k t P fd c b : ok R k t P → P !! fd = Some c → k.(k_blocks) !! c = Some b → 0 < refs k.(k_fs) b.(node).
Proof.
  intros [_ _ _ Hr] Hc Hb. specialize (Hr b.(node)). rewrite !cnt_app in Hr.
  assert (view k.(k_blocks) P !! fd = Some b) as Hv by (rewrite view_lookup, Hc; done).
  rewrite (nodes_delete _ _ _ _ Hv), cnt_cons, decide_True in Hr by done.
  pose proof (cnt_nonneg b.(node) (owned k.(k_fs))). pose proof (cnt_nonneg b.(node) R). pose proof (cnt_nonneg b.(node) (nodes (delete fd (view k.(k_blocks) P)))). lia.
Qed.

Lemma kinit_range m buf len off rw : 0 ≤ buf → 0 ≤ len < 2 ^ 32 → mapped m buf len → uio_ok None m (uio_kinit buf len off rw).
Proof.
  intros Hb Hl Hm. unfold uio_kinit. split; cbn.
  - constructor; [|done]. split_and!; cbn; done || lia.
  - unfold iov_addrs. cbn. rewrite app_nil_r, length_seqZ. split_and!; [lia..|]. by rewrite decide_True.
Qed.

(** The state after a transfer that kept the references. *)
Lemma after_transfer R k t P m s' : ok R k t P → vnodes_ok s' → quiet k.(k_fs) s' → ok R (set_mem (set_fs k s') m) t P.
Proof.
  intros [Hh Hf Ht Hr] Hok Hq. pose proof (holding_quiet 0 _ [] _ s' Hf (ok_holding _ Hf) Hok Hq) as Hh'.
  destruct (counted_holding _ _ _ _ Hf Hr Hh') as [_ Hc]. split; ksimpl; [done|by apply (holding_ok k.(k_fs))|done..].
Qed.

(** The state after the offset of an open file has moved. *)
Lemma after_seek R k t P fd c b off : ok R k t P → P !! fd = Some c → k.(k_blocks) !! c = Some b →
  let b' := Fcblock b.(node) off b.(permissions) in
  ok R (set_blocks k (<[c := b']> k.(k_blocks))) t P ∧ view (<[c := b']> k.(k_blocks)) P = <[fd := b']> (view k.(k_blocks) P) ∧
  others_kept P k.(k_blocks) (<[c := b']> k.(k_blocks)).
Proof.
  intros [Hh Hf Ht Hr] Hc Hb b'. destruct (tab_set _ _ _ _ _ _ b' Ht Hc Hb eq_refl) as (Ht' & Ev & Hcnt). split_and!; [|done|].
  - split; ksimpl; [done..|]. rewrite Ev. eapply counted_perm; [|exact Hr]. intros w. by rewrite !cnt_app, Hcnt.
  - intros p _ Hp. apply lookup_insert_ne. intros ->. by apply (Hp fd).
Qed.

Definition can_read (b : fcblock) : bool := (b.(permissions) =? O_RDONLY) || (b.(permissions) =? O_RDWR).
Definition can_write (b : fcblock) : bool := (b.(permissions) =? O_WRONLY) || (b.(permissions) =? O_RDWR).

(** A call that moves at most [len] bytes through the descriptor [fd]. *)
Definition transferred R k t P fd b (len r e : Z) k' : Prop :=
  ok R k' t P ∧ quiet k.(k_fs) k'.(k_fs) ∧ others_kept P k.(k_blocks) k'.(k_blocks) ∧
  (r = -1 ∧ e = EIO ∧ k'.(k_blocks) = k.(k_blocks) ∨
   e = 0 ∧ 0 ≤ r ≤ len ∧ view k'.(k_blocks) P = <[fd := Fcblock b.(node) (b.(offset) + r) b.(permissions)]> (view k.(k_blocks) P)).

Lemma sys_read_correct R k t P fd b buf len : ok R k t P → 0 ≤ fd < 2 ^ 31 → view k.(k_blocks) P !! fd = Some b → can_read b = true →
  0 ≤ buf → 0 ≤ len < 2 ^ 31 → mapped k.(k_mem) buf len →
  ∃ r e k', sys_read k t fd buf len = Ret (r, e, k', t) ∧ transferred R k t P fd b len r e k' ∧ dom k'.(k_mem) = dom k.(k_mem) ∧
    (∀ a, ¬ buf ≤ a < buf + len → k'.(k_mem) !! a = k.(k_mem) !! a) ∧
    (e ≠ 0 → ∃ e' x s', vop_read k.(k_fs) b.(node) (k.(k_mem), uio_kinit buf len b.(offset) UIO_READ) = Ret (e', x, s') ∧ e' ≠ 0).
Proof.
  intros Hk Hfd Hb Hp Hbuf Hl Hm. rewrite view_lookup in Hb. destruct (P !! fd) as [c|] eqn:Ec; [|done]. cbn in Hb.
  unfold sys_read, use_file. rewrite (find_file_correct _ _ _ _ _ Hk Hfd), Ec. ksimpl. rewrite Hb. cbn [deref mbind res_bind].
  rewrite <-negb_orb. fold (can_read b). rewrite Hp. cbn [negb]. pose proof (file_live _ _ _ _ _ _ _ Hk Ec Hb) as Hlive.
  pose proof (ok_vnodes _ (ok_fs _ _ _ _ Hk)) as Hok. rewrite (check_correct _ _ Hok Hlive). cbn [mbind res_bind].
  destruct (law_read k.(k_fs) b.(node) k.(k_mem) (uio_kinit buf len b.(offset) UIO_READ) Hok Hlive) as (e & m' & u' & s' & Evop & Hok' & Hq & Ho & Hdom & Hout);
    [by apply kinit_range; try lia|done|]. rewrite Evop. cbn [uio_kinit uio_offset uio_resid uio_iov] in Ho, Hout. ksimpl.
  pose proof (after_transfer _ _ _ _ m' s' Hk Hok' Hq) as Hk'.
  assert (∀ a, ¬ buf ≤ a < buf + len → m' !! a = k.(k_mem) !! a) as Hframe.
  { intros a Ha. apply Hout. unfold iov_addrs. cbn. rewrite app_nil_r, elem_of_seqZ. lia. }
  destruct (Z.eqb_spec e 0) as [->|He]; cbn [negb].
  - destruct (after_seek _ _ _ _ _ _ _ u'.(uio_offset) Hk' Ec Hb) as (Hk2 & Ev & Hkept). eexists _, _, _. split; [done|].
    split; [|by split_and!]. split; [done|]. split; [done|]. split; [done|]. right. rewrite i32_id by lia. split_and!; [done|lia..|].
    ksimpl. replace (b.(offset) + _) with u'.(uio_offset) by lia. done.
  - eexists _, _, _. split; [done|]. split; [|split_and!; [done..|by eexists _, _, _]]. split; [done|]. split; [done|]. split; [done|]. by left.
Qed.

Lemma sys_write_correct R k t P fd b buf len : ok R k t P → 0 ≤ fd < 2 ^ 31 → view k.(k_blocks) P !! fd = Some b → can_write b = true →
  0 ≤ len < 2 ^ 31 → mapped k.(k_mem) buf len →
  ∃ r e k', sys_write k t fd buf len = Ret (r, e, k', t) ∧ transferred R k t P fd b len r e k' ∧
    (e = 0 → k'.(k_mem) = k.(k_mem)) ∧ (∀ a, is_Some (k.(k_mem) !! a) → k'.(k_mem) !! a = k.(k_mem) !! a) ∧
    (e ≠ 0 → ∃ m' buf' e' x s', vop_write k.(k_fs) b.(node) (m', uio_kinit buf' len b.(offset) UIO_WRITE) = Ret (e', x, s') ∧ e' ≠ 0).
Proof.
  intros Hk Hfd Hb Hp Hl Hm. rewrite view_lookup in Hb. destruct (P !! fd) as [c|] eqn:Ec; [|done]. cbn in Hb.
  unfold sys_write, use_file. rewrite (find_file_correct _ _ _ _ _ Hk Hfd), Ec. ksimpl. rewrite Hb. cbn [deref mbind res_bind].
  rewrite <-negb_orb. fold (can_write b). rewrite Hp. cbn [negb].
  pose proof (ok_heap _ _ _ _ Hk) as Hh. rewrite Hh. cbn [kmalloc negb]. set (k1 := set_heap k []).
  assert (k1 = k) as -> by (unfold k1, set_heap; rewrite <-Hh; by destruct k).
  destruct (load_bytes_correct (Z.to_nat len) k.(k_mem) buf) as (xs & okb & -> & _ & _ & Hlen & Hmap). rewrite Z2Nat.id in Hmap by lia.
  rewrite (proj2 Hmap Hm) in *. cbn [negb]. specialize (Hlen eq_refl).
  set (m1 := with_bytes _ _ _). pose proof (file_live _ _ _ _ _ _ _ Hk Ec Hb) as Hlive.
  pose proof (ok_vnodes _ (ok_fs _ _ _ _ Hk)) as Hok. ksimpl. rewrite (check_correct _ _ Hok Hlive). cbn [mbind res_bind].
  destruct (law_write k.(k_fs) b.(node) m1 (uio_kinit (unused k.(k_mem)) len b.(offset) UIO_WRITE) Hok Hlive) as (e & u' & s' & Evop & Hok' & Hq & Ho);
    [|done|].
  { pose proof (unused_pos k.(k_mem)). apply kinit_range; [lia..|]. replace len with (Z.of_nat (length xs)) by lia. apply buffer_mapped. }
  rewrite Evop. cbn [uio_kinit uio_offset uio_resid] in Ho. ksimpl. pose proof (after_transfer _ _ _ _ m1 s' Hk Hok' Hq) as Hk'.
  destruct (Z.eqb_spec e 0) as [->|He]; cbn [negb].
  - destruct (after_seek _ _ _ _ _ _ _ u'.(uio_offset) Hk' Ec Hb) as (Hk2 & Ev & Hkept). eexists _, _, _. split; [done|].
    rewrite <-Hlen. unfold m1. rewrite buffer_freed. split; [|by ksimpl; split_and!].
    split; [by destruct Hk2; split|]. split; [done|]. split; [done|]. right. rewrite i32_id by lia. split_and!; [done|lia..|].
    ksimpl. replace (b.(offset) + _) with u'.(uio_offset) by lia. done.
  - eexists _, _, _. split; [done|]. split; [|split; [done|split; [|by eexists _, _, _, _, _]]].
    + split; [done|]. split; [done|]. split; [done|]. by left.
    + intros a Ha. by apply buffer_apart.
Qed.

(** ** The console *)

Lemma tab_ok_next bl h n n' P : tab_ok bl (Ftab h n) P → tab_ok bl (Ftab h n') P.
Proof. intros [? ? ? ?]. by split. Qed.

Lemma ok_next R k h n n' P : ok R k (Ftab h n) P → ok R k (Ftab h n') P.
Proof. intros [? ? ? ?]. split; [done..| |done]. by eapply tab_ok_next. Qed.

Lemma lit_con : cstr (lit "con:") 0 (bytes_of "con:").
Proof. split_and!; [lia|by vm_compute|by repeat constructor|by exists []]. Qed.

(** One of the calls that open the console. *)
Lemma open_con_correct R k t P : ok R k t P → 0 ≤ t.(next_fd) ≤ 2 →
  ∃ fd e k' t' P', sys_open k t (lit "con:") O_RDWR = Ret (fd, e, k', t') ∧ ok R k' t' P' ∧
    t.(next_fd) ≤ t'.(next_fd) ≤ t.(next_fd) + 1 ∧ ∀ f, 3 ≤ f → P' !! f = P !! f.
Proof.
  intros Hk Hn. destruct (sys_open_correct R k t P (lit "con:") (bytes_of "con:") O_RDWR Hk lit_con) as (fd & e & k' & t' & E & _ & _ & H');
    [by vm_compute|lia|]. exists fd, e, k', t'. destruct (Z.eqb_spec e 0).
  - destruct H' as (-> & Hn' & c & v & _ & Hk' & _). eexists. split; [done|]. split; [done|]. split; [lia|]. intros f Hf. apply lookup_insert_ne. lia.
  - destruct H' as (_ & -> & Hk' & _). exists P. split_and!; [done|done|lia..|done].
Qed.

Lemma open_console_correct R k t P : ok R k t P →
  ∃ e k' t' P', open_console k t = Ret (e, k', t') ∧ ok R k' t' P' ∧ t'.(next_fd) = t.(next_fd) ∧ ∀ f, 3 ≤ f → P' !! f = P !! f.
Proof.
  intros Hk. unfold open_console. destruct t as [h n]. cbn [files next_fd].
  destruct (open_con_correct R k (Ftab h 0) P) as (f1 & e1 & k1 & t1 & P1 & -> & H1 & N1 & E1); [by eapply ok_next|cbn; lia|]. cbn [mbind res_bind next_fd] in *.
  destruct (open_con_correct R k1 t1 P1 H1) as (f2 & e2 & k2 & t2 & P2 & -> & H2 & N2 & E2); [lia|]. cbn [mbind res_bind].
  destruct (open_con_correct R k2 t2 P2 H2) as (f3 & e3 & k3 & t3 & P3 & -> & H3 & N3 & E3); [lia|]. cbn [mbind res_bind].
  eexists _, _, _, P3. split; [done|]. destruct t3 as [h3 n3]. split; [by eapply ok_next|]. split; [done|].
  intros f Hf. by rewrite E3, E2, E1.
Qed.

(** ** A child's files *)

Lemma dom_size_lt (C P : gmap Z Z) i : (∀ fd, is_Some (C !! fd) → is_Some (P !! fd)) → is_Some (P !! i) → C !! i = None → (size C < size P)%nat.
Proof.
  intros Hs Hi Hn. rewrite <-!size_dom. apply subset_size. split.
  - intros fd. rewrite !elem_of_dom. apply Hs.
  - intros Hsub. apply elem_of_dom in Hi. apply Hsub in Hi. apply elem_of_dom in Hi as [x Hx]. congruence.
Qed.

(** The child's table has the descriptors from 3 to [i] of the parent, in blocks of its own. *)
Record copied (bl : gmap Z fcblock) (P : gmap Z Z) (i : Z) (bl' : gmap Z fcblock) (t : ftab) (C : gmap Z Z) : Prop := Copied {
  cp_parent p : is_Some (bl !! p) → bl' !! p = bl !! p;
  cp_tab : tab_ok bl' t C;
  cp_new fd p : C !! fd = Some p → bl !! p = None;
  cp_view fd : view bl' C !! fd = if decide (3 ≤ fd < i) then view bl P !! fd else None
}.

Lemma view_is_Some bl t P fd : tab_ok bl t P → is_Some (view bl P !! fd) ↔ is_Some (P !! fd).
Proof.
  intros Ht. rewrite view_lookup. destruct (P !! fd) as [p|] eqn:E; [|by split; intros []]. destruct (tab_fd _ _ _ Ht _ _ E) as (_ & b & Hb & _).
  cbn. rewrite Hb. by split; eexists.
Qed.

Lemma copied_nothing bl P h : represents h (∅ : gmap hkey Z) → copied bl P 3 bl (Ftab h 3) ∅.
Proof.
  intros Hh. split; [done|..].
  - split; cbn [files]; [by rewrite kmap_empty|by vm_compute|intros fd p; by rewrite lookup_empty..].
  - intros fd p. by rewrite lookup_empty.
  - intros fd. rewrite view_lookup, lookup_empty. case_decide; [lia|done].
Qed.

Lemma copied_parent bl t P i bl' t' C : tab_ok bl t P → copied bl P i bl' t' C → tab_ok bl' t P ∧ view bl' P = view bl P ∧ ∀ fd fd' p, P !! fd = Some p → C !! fd' ≠ Some p.
Proof.
  intros Ht [Hpar _ Hnew _]. assert (∀ fd p, P !! fd = Some p → is_Some (bl !! p)) as Hsome.
  { intros fd p Hp. destruct (tab_fd _ _ _ Ht _ _ Hp) as (_ & b & Hb & _). by eexists. }
  destruct (tab_ok_blocks _ bl' _ _ Ht) as [Ht' Ev]; [intros fd p Hp; by eapply Hpar, Hsome|]. split_and!; [done..|].
  intros fd fd' p Hp Hc. apply Hnew in Hc. apply Hsome in Hp as [x Hx]. congruence.
Qed.

Lemma copy_files_correct n i k bl0 t P h C : tab_ok bl0 t P → copied bl0 P i k.(k_blocks) (Ftab h 3) C → k.(k_heap) = [] →
  3 ≤ i → i + Z.of_nat n ≤ 2 ^ 31 →
  ∃ k' h' C', copy_files n i k t h = Ret (k', h') ∧ k'.(k_fs) = k.(k_fs) ∧ k'.(k_mem) = k.(k_mem) ∧ k'.(k_heap) = [] ∧
    copied bl0 P (i + Z.of_nat n) k'.(k_blocks) (Ftab h' 3) C'.
Proof.
  intros HP. revert i k h C. induction n as [|n IH]; intros i k h C Hc Hh Hi Hn; cbn [copy_files].
  { exists k, h, C. rewrite Z.add_0_r. done. }
  destruct k as [fs m bl o]. cbn [k_heap k_blocks] in *. subst o. destruct (fd_key_correct i) as [E _]; [lia|]. rewrite E. ksimpl.
  rewrite (tab_find _ _ _ i HP) by lia. ksimpl. replace (i + Z.of_nat (Datatypes.S n)) with (i + 1 + Z.of_nat n) by lia.
  destruct Hc as [Hpar Htab Hnew Hview]. destruct (P !! i) as [c|] eqn:Ec.
  2: { apply (IH (i + 1) (Kst fs m bl []) h C); [|done|lia|lia]. split; [done..|]. intros fd. ksimpl. rewrite Hview. destruct (decide (fd = i)) as [->|].
    - rewrite decide_False, view_lookup, Ec by lia. by case_decide.
    - repeat case_decide; try lia; done. }
  destruct (tab_fd _ _ _ HP _ _ Ec) as (_ & b & Hb & Hnode). rewrite (Hpar c) by done. rewrite Hb. cbn [deref]. ksimpl.
  set (b' := Fcblock b.(node) b.(offset) b.(permissions)). set (q := unused bl).
  assert (view bl0 P !! i = Some b') as Hvi by (rewrite view_lookup, Ec; cbn; rewrite Hb; by destruct b).
  assert (C !! i = None) as Hci.
  { destruct (C !! i) as [x|] eqn:Ex; [|done]. assert (is_Some (view bl C !! i)) as [y Hy] by (by apply (view_is_Some bl _ C i Htab)).
    rewrite Hview, decide_False in Hy by lia. done. }
  destruct (tab_add bl (Ftab h 3) C i q b' Htab) as (h' & E' & Hadd); [|lia|done|apply unused_None|].
  { pose proof (tab_size _ _ _ HP). assert (size C < size P)%nat; [|lia]. apply (dom_size_lt C P i); [|by eexists|done].
    intros fd Hfd%(view_is_Some bl _ C fd Htab). rewrite Hview in Hfd. case_decide; [|by destruct Hfd]. by apply (view_is_Some bl0 t P). }
  cbn [files] in E'. rewrite E'. ksimpl. destruct (Hadd 3) as [Htab' Ev].
  apply (IH (i + 1) (Kst fs m (<[q := b']> bl) []) h' (<[i := q]> C)); [|done|lia|lia]. ksimpl. assert (∀ p, is_Some (bl0 !! p) → q ≠ p) as Hq.
  { intros p Hp <-. pose proof (unused_None bl) as Hu. fold q in Hu. rewrite Hpar in Hu by done. rewrite Hu in Hp. by destruct Hp. }
  split; [|done| |].
  - intros p Hp. rewrite lookup_insert_ne by auto. auto.
  - intros fd p [[<- <-]|[_ Hp]]%lookup_insert_Some; [|by apply (Hnew fd)].
    destruct (bl0 !! q) as [x|] eqn:Ex; [|done]. by destruct (Hq q (mk_is_Some _ _ Ex)).
  - intros fd. rewrite Ev. destruct (decide (fd = i)) as [->|].
    + by rewrite lookup_insert_eq, decide_True by lia.
    + rewrite lookup_insert_ne, Hview by done. repeat case_decide; try lia; done.
Qed.

(** ** What a process sees *)

Inductive call :=
  | Open (filename : list Z) (flags : Z)
  | Close (fd : Z)
  | Read (fd buf len : Z)
  | Write (fd buf len : Z).

Definition perform k t (c : call) : res (Z * Z * kst S * ftab) :=
  match c with
  | Open filename flags => sys_open k t filename flags
  | Close fd => sys_close k t fd
  | Read fd buf len => sys_read k t fd buf len
  | Write fd buf len => sys_write k t fd buf len
  end.

(** Descriptors that are handed out are not in use. *)
Definition fresh_fd (t : ftab) (P : gmap Z Z) : Prop := 3 ≤ t.(next_fd) < 2 ^ 31 ∧ ∀ fd, is_Some (P !! fd) → fd < t.(next_fd).

(** A call of a process: the name is a string, the buffer is there and the descriptor is
    not one of the first three before they are open. *)
Definition permitted (m : memory) (t : ftab) (P : gmap Z Z) (c : call) : Prop :=
  match c with
  | Open filename _ => (∃ n, cstr filename 0 n ∧ Z.of_nat (length n) + 1 < 2 ^ 32) ∧ t.(next_fd) < 2 ^ 31 - 1
  | Close fd => 0 ≤ fd < 2 ^ 31
  | Read fd buf len | Write fd buf len =>
      0 ≤ fd < 2 ^ 31 ∧ (3 ≤ fd ∨ is_Some (P !! fd)) ∧ 0 ≤ buf ∧ 0 ≤ len < 2 ^ 31 ∧ mapped m buf len
  end.

(** A transfer on the open files [F]. *)
Definition seeks (F : gmap Z fcblock) (allowed : fcblock → bool) (fd len r e : Z) (F' : gmap Z fcblock) : Prop :=
  match F !! fd with
  | None => r = -1 ∧ e = EBADF ∧ F' = F
  | Some b =>
      if allowed b then r = -1 ∧ e = EIO ∧ F' = F ∨ e = 0 ∧ 0 ≤ r ≤ len ∧ F' = <[fd := Fcblock b.(node) (b.(offset) + r) b.(permissions)]> F
      else r = -1 ∧ e = EBADF ∧ F' = F
  end.

(** What a call that returns [r] and the error [e] does to the open files. *)
Definition effect (F : gmap Z fcblock) (c : call) (r e : Z) (F' : gmap Z fcblock) : Prop :=
  match c with
  | Open _ flags =>
      e = 0 ∧ F !! r = None ∧ (∃ v, F' = <[r := Fcblock v 0 (Z.land flags O_ACCMODE)]> F) ∨ e ≠ 0 ∧ r = -1 ∧ F' = F
  | Close fd => F' = delete fd F ∧ match F !! fd with Some _ => r = 0 ∧ e = 0 | None => r = -1 ∧ e = EBADF end
  | Read fd _ len => seeks F can_read fd len r e F'
  | Write fd _ len => seeks F can_write fd len r e F'
  end.

(** The bytes that a call may change. *)
Definition target (c : call) (a : Z) : Prop := match c with Read _ buf len => buf ≤ a < buf + len | _ => False end.

(** Where an error comes from that is not the caller's: the table is full, or the file
    system refuses. *)
Definition blamed k (F : gmap Z fcblock) (c : call) (e : Z) : Prop :=
  match c with
  | Open filename flags => e ≠ 0 → (e = EMFILE ∧ OPEN_MAX ≤ Z.of_nat (size F)) ∨
      ∃ n z v s', cstr filename 0 n ∧ cstr z 0 n ∧ vfs_open k.(k_fs) z flags 0 = Ret (e, v, s')
  | Close _ => True
  | Read fd buf len => e = EIO → ∃ b e' x s', F !! fd = Some b ∧
      vop_read k.(k_fs) b.(node) (k.(k_mem), uio_kinit buf len b.(offset) UIO_READ) = Ret (e', x, s') ∧ e' ≠ 0
  | Write fd _ len => e = EIO → ∃ b m' buf' e' x s', F !! fd = Some b ∧
      vop_write k.(k_fs) b.(node) (m', uio_kinit buf' len b.(offset) UIO_WRITE) = Ret (e', x, s') ∧ e' ≠ 0
  end.

(** What the state after a call satisfies. *)
Definition served R k P (c : call) (r e : Z) k' (t' : ftab) P' : Prop :=
  ok R k' t' P' ∧ fresh_fd t' P' ∧ effect (view k.(k_blocks) P) c r e (view k'.(k_blocks) P') ∧ blamed k (view k.(k_blocks) P) c e ∧
  others_kept P k.(k_blocks) k'.(k_blocks) ∧ ∀ a, is_Some (k.(k_mem) !! a) → ¬ target c a → k'.(k_mem) !! a = k.(k_mem) !! a.

Lemma served_same R k t P c r e : ok R k t P → fresh_fd t P → effect (view k.(k_blocks) P) c r e (view k.(k_blocks) P) →
  blamed k (view k.(k_blocks) P) c e → served R k P c r e k t P.
Proof. intros. split_and!; [done..|by intros ?|done]. Qed.

Lemma view_size R k t P : ok R k t P → size (view k.(k_blocks) P) = size P.
Proof.
  intros Hk. rewrite <-!size_dom. f_equal. apply set_eq. intros fd. rewrite !elem_of_dom. split.
  - intros ?. by eapply view_is_Some; [apply (ok_tab _ _ _ _ Hk)|].
  - intros [p Hp]. rewrite view_lookup, Hp. cbn. destruct (tab_fd _ _ _ (ok_tab _ _ _ _ Hk) _ _ Hp) as (_ & b & -> & _). by eexists.
Qed.

Lemma open_served R k t P filename flags : ok R k t P → fresh_fd t P → permitted k.(k_mem) t P (Open filename flags) →
  ∃ r e k' t' P', sys_open k t filename flags = Ret (r, e, k', t') ∧ served R k P (Open filename flags) r e k' t' P'.
Proof.
  intros Hk [Hn Hlt] ((n & Hname & Hl) & Hmax).
  destruct (sys_open_correct R k t P filename n flags Hk Hname Hl) as (fd & e & k' & t' & E & Em & Hkept & H'); [lia|].
  exists fd, e, k', t'. destruct (Z.eqb_spec e 0) as [->|].
  - destruct H' as (-> & Hn' & c & v & _ & Hk' & Ev & _). eexists. split; [done|]. split; [done|]. split.
    { split; [lia|]. intros fd [x Hx]. apply lookup_insert_Some in Hx as [[<- _]|[_ Hx]]; [lia|]. pose proof (Hlt _ (mk_is_Some _ _ Hx)). lia. }
    split; [|split; [by intros ?|split; [done|by rewrite Em]]]. left. split; [done|]. split; [|by exists v].
    destruct (view k.(k_blocks) P !! t.(next_fd)) as [b|] eqn:Eb; [|done]. exfalso.
    assert (is_Some (P !! t.(next_fd))) as Hp by (eapply view_is_Some; [apply (ok_tab _ _ _ _ Hk)|by eexists]). apply Hlt in Hp. lia.
  - destruct H' as (-> & -> & Hk' & Ev & Hwhy). exists P. split; [done|]. split; [done|]. split; [done|].
    split; [|split; [|split; [done|by rewrite Em]]]; [by right|]. intros _. rewrite (view_size _ _ _ _ Hk).
    destruct Hwhy as [(_ & z & v & s' & Hz & Eo)|(-> & Hfull & _)]; [right; by exists n, z, v, s'|by left].
Qed.

Lemma close_served R k t P fd : ok R k t P → fresh_fd t P → 0 ≤ fd < 2 ^ 31 →
  ∃ r e k' t' P', sys_close k t fd = Ret (r, e, k', t') ∧ served R k P (Close fd) r e k' t' P'.
Proof.
  intros Hk [Hn Hlt] Hfd. destruct (close_from_correct R k t P fd Hk Hfd) as (r & e & k' & t' & E & Hk' & Ev & Hn' & Em & _ & Hkept & H').
  eexists _, _, _, _, (delete fd P). split; [done|]. split; [done|]. split.
  { split; [lia|]. intros f [x Hx]. apply lookup_delete_Some in Hx as [_ Hx]. pose proof (Hlt _ (mk_is_Some _ _ Hx)). lia. }
  split; [|split; [done|by rewrite Em]]. split; [done|]. destruct (view k.(k_blocks) P !! fd); destruct H' as (? & ? & _); done.
Qed.

(** A descriptor that cannot be used. *)
Lemma transfer_refused R k t P fd : ok R k t P → 0 ≤ fd < 2 ^ 31 → 3 ≤ fd ∨ is_Some (P !! fd) →
  match view k.(k_blocks) P !! fd with
  | None => ∀ buf len, sys_read k t fd buf len = Ret (-1, EBADF, k, t) ∧ sys_write k t fd buf len = Ret (-1, EBADF, k, t)
  | Some b => ∀ buf len, (can_read b = false → sys_read k t fd buf len = Ret (-1, EBADF, k, t)) ∧
                         (can_write b = false → sys_write k t fd buf len = Ret (-1, EBADF, k, t))
  end.
Proof.
  intros Hk Hfd Hopen. unfold sys_read, sys_write, use_file. rewrite (find_file_correct _ _ _ _ _ Hk Hfd), view_lookup.
  destruct (P !! fd) as [c|] eqn:Ec; cbn [mbind res_bind option_bind].
  - destruct (tab_fd _ _ _ (ok_tab _ _ _ _ Hk) _ _ Ec) as (_ & b & Hb & _). rewrite Hb. cbn [deref mbind res_bind]. intros buf len.
    rewrite <-!negb_orb. fold (can_read b). fold (can_write b). split; by intros ->.
  - destruct Hopen as [Hge|[x Hx]]; [|done]. rewrite (proj2 (Z.ltb_ge fd 3)) by lia. done.
Qed.

Lemma read_served R k t P fd buf len : ok R k t P → fresh_fd t P → permitted k.(k_mem) t P (Read fd buf len) →
  ∃ r e k' t' P', sys_read k t fd buf len = Ret (r, e, k', t') ∧ served R k P (Read fd buf len) r e k' t' P'.
Proof.
  intros Hk Hf (Hfd & Hopen & Hbuf & Hl & Hm). pose proof (transfer_refused R k t P fd Hk Hfd Hopen) as Href.
  destruct (view k.(k_blocks) P !! fd) as [b|] eqn:Eb.
  2: { destruct (Href buf len) as [-> _]. eexists _, _, _, _, P. split; [done|]. apply served_same; [done..| |done]. cbn. unfold seeks. by rewrite Eb. }
  destruct (Href buf len) as [Hr _]. destruct (can_read b) eqn:Ep.
  2: { rewrite (Hr eq_refl). eexists _, _, _, _, P. split; [done|]. apply served_same; [done..| |done]. cbn. unfold seeks. by rewrite Eb, Ep. }
  destruct (sys_read_correct R k t P fd b buf len Hk Hfd Eb Ep Hbuf Hl Hm) as (r & e & k' & E & (Hk' & _ & Hkept & Hres) & _ & Hframe & Hwhy).
  eexists _, _, _, _, P. split; [done|]. split; [done|]. split; [done|]. split; [|split; [|split; [done|]]].
  - cbn. unfold seeks. rewrite Eb, Ep. destruct Hres as [(? & ? & ->)|?]; [by left|by right].
  - intros ->. destruct (Hwhy ltac:(done)) as (e' & x & s' & ? & ?). by exists b, e', x, s'.
  - intros a _ Ha. by apply Hframe.
Qed.

Lemma write_served R k t P fd buf len : ok R k t P → fresh_fd t P → permitted k.(k_mem) t P (Write fd buf len) →
  ∃ r e k' t' P', sys_write k t fd buf len = Ret (r, e, k', t') ∧ served R k P (Write fd buf len) r e k' t' P'.
Proof.
  intros Hk Hf (Hfd & Hopen & Hbuf & Hl & Hm). pose proof (transfer_refused R k t P fd Hk Hfd Hopen) as Href.
  destruct (view k.(k_blocks) P !! fd) as [b|] eqn:Eb.
  2: { destruct (Href buf len) as [_ ->]. eexists _, _, _, _, P. split; [done|]. apply served_same; [done..| |done]. cbn. unfold seeks. by rewrite Eb. }
  destruct (Href buf len) as [_ Hr]. destruct (can_write b) eqn:Ep.
  2: { rewrite (Hr eq_refl). eexists _, _, _, _, P. split; [done|]. apply served_same; [done..| |done]. cbn. unfold seeks. by rewrite Eb, Ep. }
  destruct (sys_write_correct R k t P fd b buf len Hk Hfd Eb Ep Hl Hm) as (r & e & k' & E & (Hk' & _ & Hkept & Hres) & _ & Hframe & Hwhy).
  eexists _, _, _, _, P. split; [done|]. split; [done|]. split; [done|]. split; [|split; [|split; [done|]]].
  - cbn. unfold seeks. rewrite Eb, Ep. destruct Hres as [(? & ? & ->)|?]; [by left|by right].
  - intros ->. destruct (Hwhy ltac:(done)) as (m' & buf' & e' & x & s' & ? & ?). by exists b, m', buf', e', x, s'.
  - intros a Ha _. by apply Hframe.
Qed.

(** ** Properties *)


(** [fork] gives the child the parent's open files from descriptor 3 on, at the same offsets, in control
    blocks of its own; the parent's files stay as they are.  No vnode gets a reference for the child. *)
Theorem fork_copies_files k t P h n : k.(k_heap) = [] → tab_ok k.(k_blocks) t P → represents h (∅ : gmap hkey Z) → 3 + Z.of_nat n ≤ 2 ^ 31 →
  ∃ k' h' C, copy_files n 3 k t h = Ret (k', h') ∧ k'.(k_fs) = k.(k_fs) ∧ tab_ok k'.(k_blocks) t P ∧
    view k'.(k_blocks) P = view k.(k_blocks) P ∧ tab_ok k'.(k_blocks) (Ftab h' 3) C ∧
    (∀ fd, view k'.(k_blocks) C !! fd = if decide (3 ≤ fd < 3 + Z.of_nat n) then view k.(k_blocks) P !! fd else None) ∧
    ∀ fd fd' p, P !! fd = Some p → C !! fd' ≠ Some p.
Proof.
  intros Hh Ht Hr Hn. destruct (copy_files_correct n 3 k k.(k_blocks) t P h ∅ Ht (copied_nothing _ _ _ Hr)) as (k' & h' & C & E & Ef & _ & _ & Hc); [done..|].
  exists k', h', C. destruct (copied_parent _ _ _ _ _ _ _ Ht Hc) as (Ht' & Ev & Hsep). destruct Hc as [_ Htab _ Hview]. by split_and!.
Qed.

(** A read from the descriptor -1 stops the kernel: -1 passes for one of the first three descriptors, which are
    opened on the console, but none of them is found under its key, which is that of the descriptor 127. *)
Theorem read_negative_crashes R k t P buf len : ok R k t P → P !! 127 = None → sys_read k t (-1) buf len = Undef.
Proof.
  intros Hk Hn. assert (fd_key (-1) [] = fd_key 127 []) as Ekey by (by vm_compute). destruct (fd_key_correct 127) as [E _]; [lia|]. rewrite E in Ekey.
  assert (∀ k' t' P', ok R k' t' P' → P' !! 127 = None → find_file k' t' (-1) = Ret (None, k')) as Hfind.
  { intros k' t' P' Hk' Hn'. rewrite <-Hn'. rewrite <-(find_file_correct R k' t' P' 127 Hk') by lia.
    unfold find_file. by rewrite (ok_heap _ _ _ _ Hk'), Ekey, E. }
  unfold sys_read, use_file. rewrite (Hfind k t P Hk Hn). cbn [mbind res_bind]. change (-1 <? 3) with true. cbn match.
  destruct (open_console_correct R k t P Hk) as (e & k' & t' & P' & -> & Hk' & _ & Hsame). cbn [mbind res_bind].
  rewrite (Hfind k' t' P' Hk'); [done|]. by rewrite Hsame.
Qed.

(** C37: A file that only one descriptor refers to dangles after a [fork]: when the parent closes it the file system may let
    go of the vnode, and the child's [close] of its copy then reads freed memory. *)
Theorem fork_file_dangles R k t P h n fd b k1 h1 r e k2 t2 : ok R k t P → represents h (∅ : gmap hkey Z) → 3 + Z.of_nat n ≤ 2 ^ 31 →
  3 ≤ fd < 3 + Z.of_nat n → view k.(k_blocks) P !! fd = Some b →
  copy_files n 3 k t h = Ret (k1, h1) → close_from_process k1 t fd = Ret (r, e, k2, t2) → refs k2.(k_fs) b.(node) = 0 →
  close_from_process k2 (Ftab h1 3) fd = Undef.
Proof.
  intros [Hheap Hfs Htab Hrefs] Hh Hn Hfd Hb Ecopy Eclose Hgone.
  destruct (copy_files_correct n 3 k k.(k_blocks) t P h ∅ Htab (copied_nothing _ _ _ Hh)) as (k' & h' & C & E & Ef & _ & Hheap1 & Hc); [done..|].
  rewrite E in Ecopy. injection Ecopy as -> ->. destruct (copied_parent _ _ _ _ _ _ _ Htab Hc) as (Ht1 & Ev & Hsep). destruct Hc as [_ HtabC _ Hview].
  assert (ok R k1 t P) as Hk1 by (split; [done|by rewrite Ef|done|by rewrite Ef, Ev]).
  destruct (close_from_correct R k1 t P fd Hk1) as (r' & e' & k2' & t2' & E2 & Hk2 & _ & _ & _ & _ & Hkept & _); [lia|].
  rewrite E2 in Eclose. injection Eclose as -> -> -> ->.
  assert (view k1.(k_blocks) C !! fd = Some b) as Hc by (rewrite Hview, decide_True by lia; done).
  rewrite view_lookup in Hc. destruct (C !! fd) as [c|] eqn:Ec; [|done]. cbn in Hc.
  destruct (tab_fd _ _ _ HtabC _ _ Ec) as (_ & b' & Hb' & Hnode). simplify_eq.
  unfold close_from_process. destruct (fd_key_correct fd) as [Ekey _]; [lia|]. rewrite (ok_heap _ _ _ _ Hk2), Ekey. cbn [mbind res_bind].
  destruct (tab_remove k1.(k_blocks) (Ftab h1 3) C fd HtabC) as (h2 & Erem & _); [lia|]. cbn [files] in *. rewrite Erem, Ec. ksimpl.
  rewrite (Hkept c), Hc; [|by eexists|intros f Hf; by destruct (Hsep f fd c)].
  cbn [deref mbind res_bind]. unfold vfs_close, vnode_decref. rewrite (proj2 (Z.eqb_neq _ 0)) by done. cbn [negb kassert mbind res_bind].
  unfold refs in Hgone. destruct (k2.(k_fs).(vnodes) !! b.(node)) as [nd|] eqn:En; [|done].
  destruct (ok_vnodes _ (ok_fs _ _ _ _ Hk2) _ _ En). lia.
Qed.

End Correct.

(** ** Devices keep the promises *)

Class DevLaws `{DevOps} := {
  law_io d m u e m' u' : uio_ok None m u → devop_io d m u = (e, m', u') →
    u.(uio_offset) ≤ u'.(uio_offset) ≤ u.(uio_offset) + u.(uio_resid) ∧ dom m' = dom m ∧
    (u.(uio_dir) = UIO_WRITE → m' = m) ∧ ∀ a, a ∉ iov_addrs u.(uio_iov) → m' !! a = m !! a
}.

#[global] Instance null_devlaws : @DevLaws null_devops.
Proof.
  constructor. intros d m u e m' u' (_ & Hr & _) [= <- <- <-].
  split_and!; try done; destruct u.(uio_dir); cbn; lia.
Qed.

(** A transfer of a device. *)
Lemma dev_rw_correct `{DevLaws} rw s v m u : vnodes_ok s → 0 < refs s v → uio_ok None m u → u.(uio_dir) = rw →
  ∃ e m' u', dev_rw rw s v (m, u) = Ret (e, (m', u'), s) ∧
    u.(uio_offset) ≤ u'.(uio_offset) ≤ u.(uio_offset) + u.(uio_resid) ∧ dom m' = dom m ∧
    (rw = UIO_WRITE → m' = m) ∧ ∀ a, a ∉ iov_addrs u.(uio_iov) → m' !! a = m !! a.
Proof.
  intros Hok Hv Hu Hd. destruct (the_device_found s v Hok Hv) as (p & d & E & Hs). unfold dev_rw. rewrite E. cbn [mbind res_bind].
  assert (∃ r, tryseek d u.(uio_offset) = Ret r) as [r ->].
  { unfold tryseek. destruct (Z.ltb_spec 0 d.(dv_blocks)); [|by eexists]. rewrite (proj2 (Z.eqb_neq _ 0)) by auto. repeat case_match; by eexists. }
  cbn [mbind res_bind]. assert (0 ≤ u.(uio_resid)) by apply Hu. destruct (Z.eqb_spec r 0) as [_|_]; cbn [negb].
  - rewrite bool_decide_true by done. cbn [kassert mbind res_bind]. destruct (devop_io p m u) as [[e m'] u'] eqn:Eio.
    destruct (law_io _ _ _ _ _ _ Hu Eio) as (? & ? & ? & ?). eexists _, _, _. split; [done|]. rewrite <-Hd. auto.
  - eexists _, _, _. split; [done|]. split_and!; [lia..|done|done|done].
Qed.

#[global] Instance dev_file_laws `{DevLaws} : FileLaws (gmap Z device).
Proof.
  constructor; intros s v m u Hok Hv Hu Hd; destruct (dev_rw_correct _ s v m u Hok Hv Hu Hd) as (e & m' & u' & E & Ho & Hdom & Hw & Hout).
  - exists e, m', u', s. split; [done|]. split; [done|]. split; [apply quiet_refl|]. by split.
  - rewrite (Hw eq_refl) in E. exists e, u', s. split; [done|]. split; [done|]. by split; [apply quiet_refl|].
Qed.

(** ** A file system that frees a vnode with its last reference *)

Definition free_vnode (s : vfs unit) (v : Z) : res (Z * vfs unit) := s ← vnode_cleanup s v; Ret (0, s).

#[global] Instance scratch_ops : FsOps unit (memory * uio) := {
  fs_live _ _ := False;
  vn_wf _ _ _ := True;
  vn_dir _ _ _ := False;
  vop_eachopen s _ _ := Ret (0, s);
  vop_reclaim := free_vnode;
  vop_read := vopfail_uio_inval;
  vop_readlink := vopfail_uio_inval;
  vop_write := vopfail_uio_inval;
  vop_gettype s _ := Ret (0, S_IFCHR, s);
  vop_truncate := vopfail_truncate_isdir;
  vop_creat := vopfail_creat_notdir;
  vop_symlink := vopfail_symlink_notdir;
  vop_mkdir := vopfail_mkdir_notdir;
  vop_link := vopfail_link_notdir;
  vop_remove := vopfail_string_notdir;
  vop_rmdir := vopfail_string_notdir;
  vop_rename := vopfail_rename_notdir;
  vop_lookup := vopfail_lookup_notdir;
  vop_lookparent := vopfail_lookparent_notdir;
  fsop_sync _ _ := Undef;
  fsop_getvolname _ _ := None;
  fsop_getroot _ _ := Undef;
  fsop_unmount _ _ := Undef
}.

Lemma same_quiet {S U} `{FsOps S U} (s : vfs S) : quiet s s.
Proof. split; [|done]. split_and!; try done. intros w a b Ha Hb. by simplify_eq. Qed.

#[global] Instance scratch_laws : FsLaws unit (memory * uio).
Proof.
  constructor.
  - intros s v Hok Hv. split_and!.
    1, 2: intros; eexists _, _; split; [done|]; by split; [|apply same_quiet].
    + eexists _, _, _. split; [done|]. split; [done|]. split; [apply same_quiet|]. done.
    + intros u. eexists _, _, _. split; [done|]. by split; [|apply same_quiet].
  - intros s d n Hok Hd _. split_and!; intros; eexists _, _; (split; [done|]); by split; [|apply same_quiet].
  - intros s d Hok Hd. split_and!; intros; [eexists _, _, _|eexists _, _, _, _|eexists _, _, _]; (split; [done|]); (split; [done|]); try apply same_quiet.
    split; [done|apply same_quiet].
  - done.
  - intros s v Hok Hv. destruct (refs_Some s v) as (n & Hn & Hr); [lia|]. cbn [vop_reclaim scratch_ops]. unfold free_vnode, vnode_cleanup.
    rewrite Hn. cbn [deref mbind res_bind]. rewrite (proj2 (Z.eqb_eq _ 1)) by lia. cbn [kassert mbind res_bind]. eexists _, _. split; [done|].
    split; [intros w x; cbn [set_vnodes vnodes]; intros [_ ?]%lookup_delete_Some; by apply (Hok w)|]. split.
    + split_and!; try done. intros w a b Ha. cbn [set_vnodes vnodes]. intros [_ Hb]%lookup_delete_Some. by simplify_eq.
    + split; [|left; unfold refs, set_vnodes; cbn [vnodes]; by rewrite lookup_delete_eq].
      intros w Hw. unfold refs, set_vnodes. cbn [vnodes]. by rewrite lookup_delete_ne.
  - done.
  - done.
Qed.

(** ** Concrete runs *)

(** A process without open files on a system with the null device; there are three bytes at
    address 100. *)
Definition null_system : kst (gmap Z device) := Kst null_added {[100 := 7; 101 := 8; 102 := 9]} ∅ [].
Definition no_files : ftab := Ftab (empty_table Z) 3.

Lemma empty_represents : represents (empty_table Z) (∅ : gmap hkey Z).
Proof. apply (represents_exact _ _ []); [apply empty_table_inv|done|done]. Qed.

Lemma no_files_ok bl : tab_ok bl no_files ∅.
Proof. split; [cbn; rewrite kmap_empty; apply empty_represents|by vm_compute|intros fd p; by rewrite lookup_empty..]. Qed.

Lemma null_system_ok : ok [] null_system no_files ∅.
Proof.
  split; [done|apply null_added_ok|apply no_files_ok|]. intros w. cbn [null_system k_fs k_blocks]. unfold view. rewrite omap_empty.
  change (nodes ∅) with ([] : list Z). rewrite !app_nil_r. apply (ok_owned _ null_added_ok).
Qed.

Lemma no_files_fresh : fresh_fd no_files ∅.
Proof. split; [by vm_compute|]. intros fd. rewrite lookup_empty. by intros []. Qed.


(** A table with the descriptor 3, whose block is at address 1. *)
Definition one_file : table Z :=
  match hashtable_add (empty_table Z) (key_of 3) 1 [] with Ret (_, h, _) => h | _ => empty_table Z end.

Lemma one_file_ok b : b.(node) ≠ 0 → tab_ok {[1 := b]} (Ftab one_file 4) {[3 := 1]} ∧ view {[1 := b]} {[3 := 1]} = {[3 := b]}.
Proof.
  intros Hb. destruct (tab_add ∅ no_files ∅ 3 1 b (no_files_ok _)) as (h & E & Hadd); [by vm_compute|done|done|done|].
  destruct (Hadd 4) as [Ht Ev]. assert (one_file = h) as -> by (unfold one_file; cbn [no_files files] in E; by rewrite E).
  split; [exact Ht|]. rewrite <-insert_empty, <-(insert_empty 3 1) in *. rewrite Ev. unfold view. by rewrite omap_empty.
Qed.

(** A process with one open file, on a file system that frees its vnode when it is closed. *)
Definition scratch : vfs unit := Vfs {[4 := Vnode 1 1 0]} [] 0 0 0 ∅ tt.
Definition one_open : kst unit := Kst scratch ∅ {[1 := Fcblock 4 0 O_RDWR]} [].

Lemma one_open_ok : ok [] one_open (Ftab one_file 4) {[3 := 1]}.
Proof.
  destruct (one_file_ok (Fcblock 4 0 O_RDWR)) as [Ht Ev]; [done|]. split; [done| |exact Ht|].
  - split; [|done| |done|by constructor].
    + intros v n. cbn. intros [<- <-]%lookup_singleton_Some. cbn. by split_and!.
    + intros w. unfold refs. cbn. destruct (decide (w = 4)) as [->|]; [by vm_compute|by rewrite lookup_singleton_ne].
  - intros w. cbn [one_open k_fs k_blocks]. rewrite Ev. change (cnt w [4] ≤ refs scratch w). rewrite cnt_cons. change (cnt w []) with 0.
    unfold refs. cbn. case_decide; [subst w; by vm_compute|by rewrite lookup_singleton_ne].
Qed.

Lemma fork_copies_files_witness : ∃ k' h' C, copy_files 1 3 one_open (Ftab one_file 4) (empty_table Z) = Ret (k', h') ∧
  k'.(k_fs) = scratch ∧ view k'.(k_blocks) C !! 3 = Some (Fcblock 4 0 O_RDWR).
Proof.
  destruct (one_file_ok (Fcblock 4 0 O_RDWR)) as [Ht Ev]; [done|].
  destruct (fork_copies_files one_open (Ftab one_file 4) {[3 := 1]} (empty_table Z) 1) as (k' & h' & C & E & Ef & _ & _ & _ & Hv & _);
    [done|exact Ht|apply empty_represents|done|].
  exists k', h', C. split_and!; [done..|]. rewrite Hv, decide_True by lia. cbn [one_open k_blocks]. rewrite Ev. apply lookup_singleton_eq.
Defined.

Lemma read_negative_crashes_witness : sys_read null_system no_files (-1) 100 3 = Undef.
Proof. apply (read_negative_crashes [] null_system no_files ∅); [apply null_system_ok|done]. Defined.

(** The state and the child's table after a fork, and the state after the parent has closed the file. *)
Definition forked : kst unit * table Z :=
  match copy_files 1 3 one_open (Ftab one_file 4) (empty_table Z) with Ret x => x | _ => (one_open, empty_table Z) end.
Definition parent_closed : Z * Z * kst unit * ftab :=
  match close_from_process forked.1 (Ftab one_file 4) 3 with Ret x => x | _ => (0, 0, one_open, no_files) end.

Lemma fork_file_dangles_witness :
  copy_files 1 3 one_open (Ftab one_file 4) (empty_table Z) = Ret forked ∧
  close_from_process forked.1 (Ftab one_file 4) 3 = Ret parent_closed ∧
  close_from_process parent_closed.1.2 (Ftab forked.2 3) 3 = Undef.
Proof.
  assert (copy_files 1 3 one_open (Ftab one_file 4) (empty_table Z) = Ret (forked.1, forked.2)) as E1 by (vm_compute; reflexivity).
  assert (close_from_process forked.1 (Ftab one_file 4) 3 =
    Ret (parent_closed.1.1.1, parent_closed.1.1.2, parent_closed.1.2, parent_closed.2)) as E2 by (vm_compute; reflexivity).
  split; [exact E1|]. split; [exact E2|].
  refine (fork_file_dangles [] one_open (Ftab one_file 4) {[3 := 1]} (empty_table Z) 1 3 (Fcblock 4 0 O_RDWR) _ _ _ _ _ _
    one_open_ok empty_represents _ _ _ E1 E2 _); [lia..| |vm_compute; reflexivity].
  destruct (one_file_ok (Fcblock 4 0 O_RDWR)) as [_ Ev]; [done|]. cbn [one_open k_blocks]. rewrite Ev. apply lookup_singleton_eq.
Defined.

(** [sys_write] computes its result from the offset, which the null device does not move: a write of three bytes to it
    reports that none were written. *)
Theorem write_null_reports_zero :
  ('(fd, _, k, t) ← sys_open null_system no_files (lit "null:") O_WRONLY;
   '(r, e, _, _) ← sys_write k t fd 100 3; Ret (r, e)) = Ret (0, 0).
Proof. by vm_compute. Qed.

(** With the table full, [sys_open] fails and keeps the reference to the vnode it has opened: the count of the null
    device's vnode stays one higher. *)
Theorem open_full_leaks :
  let full := Ftab (Hashtable OPEN_MAX 8 (empty_table Z).(h_vals)) 131 in
  ('(fd, e, k, t) ← sys_open null_system full (lit "null:") O_WRONLY; Ret (fd, e, refs k.(k_fs) 4)) = Ret (-1, EMFILE, 2) ∧
  refs null_system.(k_fs) 4 = 1.
Proof. split; by vm_compute. Qed.
