(* ===== verification/Proc.v ===== *)
(** * Processes (kern/proc/proc.c, kern/syscall/process_syscalls.c, [common_prog] of kern/main/menu.c)

    The process structures are a store from pointers to records; one that has been
    freed is not in it any more.  They are found through the directory of [PidTree],
    have their children in a list of [LinkedList] and their open files in a table as in
    [Files].  What a process does with address spaces is behind the interface [AsOps].
    A system call runs under the lock of the directory, [pids_lock]; [cv_wait] gives it
    up, so [sys_waitpid] is the part up to the wait and the part that a broadcast
    resumes.  A thread that waits has a [waiter].  What [cv_create] allocates counts as
    one allocation. *)

From S2P Require Import Prelude CString LinkedList Hashtable PidTree UserCopy Uio Vfs VfsRefs Files.
Import LinkedLists.

(** ** Data *)

Definition ENPROC : Z := 12.
Definition ESRCH : Z := 15.
Definition ECHILD : Z := 16.

Record proc := Proc {
  p_numthreads : Z;
  p_addrspace : Z;
  p_cwd : Z;
  pid : Z;
  parent : Z;
  waitpid : Z;
  wait : bool;                        (* false is [NULL] *)
  children : option (llist Z);
  p_files : option (table Z);
  p_next_fd : Z;
  exit_val : Z;
  exited : bool
}.

(** A thread that sleeps in [sys_waitpid] for the process [w_child]. *)
Record waiter := Waiter { w_pid : Z; w_child : positive; w_status : Z; w_woken : bool }.

Record thread := Thread { t_proc : option positive; t_wait : option waiter }.

Record kernel (S M : Type) := Kernel {
  io : kst S;
  spaces : M;
  pids : option pid_tree;
  pids_lock : bool;
  procs : gmap positive proc;
  threads : gmap positive thread;
  kproc : positive
}.
Arguments Kernel {S M}.
Arguments io {S M}.
Arguments spaces {S M}.
Arguments pids {S M}.
Arguments pids_lock {S M}.
Arguments procs {S M}.
Arguments threads {S M}.
Arguments kproc {S M}.

(** Address spaces (addrspace.h): [as_copy] of an address space for the process with the
    pid given returns the error number and the copy. *)
Class AsOps (M : Type) := {
  as_copy : M → Z → Z → res (Z * Z * M);
  as_destroy : M → Z → res M
}.

(** A pointer that is not in use. *)
Definition unused_ptr {A} (m : gmap positive A) : positive := map_fold (λ p _ top, Pos.max (p + 1) top) 1%positive m.

Definition set_numthreads (x : proc) n : proc := Proc n x.(p_addrspace) x.(p_cwd) x.(pid) x.(parent) x.(waitpid) x.(wait) x.(children) x.(p_files) x.(p_next_fd) x.(exit_val) x.(exited).
Definition set_addrspace (x : proc) a : proc := Proc x.(p_numthreads) a x.(p_cwd) x.(pid) x.(parent) x.(waitpid) x.(wait) x.(children) x.(p_files) x.(p_next_fd) x.(exit_val) x.(exited).
Definition set_p_cwd (x : proc) v : proc := Proc x.(p_numthreads) x.(p_addrspace) v x.(pid) x.(parent) x.(waitpid) x.(wait) x.(children) x.(p_files) x.(p_next_fd) x.(exit_val) x.(exited).
Definition set_parent (x : proc) q : proc := Proc x.(p_numthreads) x.(p_addrspace) x.(p_cwd) x.(pid) q x.(waitpid) x.(wait) x.(children) x.(p_files) x.(p_next_fd) x.(exit_val) x.(exited).
Definition set_waitpid (x : proc) q : proc := Proc x.(p_numthreads) x.(p_addrspace) x.(p_cwd) x.(pid) x.(parent) q x.(wait) x.(children) x.(p_files) x.(p_next_fd) x.(exit_val) x.(exited).
Definition set_wait (x : proc) w : proc := Proc x.(p_numthreads) x.(p_addrspace) x.(p_cwd) x.(pid) x.(parent) x.(waitpid) w x.(children) x.(p_files) x.(p_next_fd) x.(exit_val) x.(exited).
Definition set_children (x : proc) l : proc := Proc x.(p_numthreads) x.(p_addrspace) x.(p_cwd) x.(pid) x.(parent) x.(waitpid) x.(wait) l x.(p_files) x.(p_next_fd) x.(exit_val) x.(exited).
Definition set_files (x : proc) h : proc := Proc x.(p_numthreads) x.(p_addrspace) x.(p_cwd) x.(pid) x.(parent) x.(waitpid) x.(wait) x.(children) h x.(p_next_fd) x.(exit_val) x.(exited).
Definition set_exited (x : proc) v : proc := Proc x.(p_numthreads) x.(p_addrspace) x.(p_cwd) x.(pid) x.(parent) x.(waitpid) x.(wait) x.(children) x.(p_files) x.(p_next_fd) v true.

Section Proc.
Context {S M : Type} `{FO : FsOps S (memory * uio)} `{AO : AsOps M}.
#[local] Notation kernel := (kernel S M).

Definition set_io (K : kernel) x : kernel := Kernel x K.(spaces) K.(pids) K.(pids_lock) K.(procs) K.(threads) K.(kproc).
Definition set_spaces (K : kernel) x : kernel := Kernel K.(io) x K.(pids) K.(pids_lock) K.(procs) K.(threads) K.(kproc).
Definition set_pids (K : kernel) x : kernel := Kernel K.(io) K.(spaces) x K.(pids_lock) K.(procs) K.(threads) K.(kproc).
Definition set_lock (K : kernel) x : kernel := Kernel K.(io) K.(spaces) K.(pids) x K.(procs) K.(threads) K.(kproc).
Definition set_procs (K : kernel) x : kernel := Kernel K.(io) K.(spaces) K.(pids) K.(pids_lock) x K.(threads) K.(kproc).
Definition set_threads (K : kernel) x : kernel := Kernel K.(io) K.(spaces) K.(pids) K.(pids_lock) K.(procs) x K.(kproc).

Definition put_proc (K : kernel) (p : positive) (x : proc) : kernel := set_procs K (<[p := x]> K.(procs)).
Definition put_thread (K : kernel) (t : positive) (x : thread) : kernel := set_threads K (<[t := x]> K.(threads)).

(** One allocation. *)
Definition kalloc (K : kernel) : bool * kernel :=
  let '(ok, o) := kmalloc K.(io).(k_heap) in (ok, set_io K (set_heap K.(io) o)).

(** ** The lock of the directory *)

(** A thread that asks for a lock nobody gives up waits for ever. *)
Definition pid_acquire_lock (K : kernel) : res kernel := if K.(pids_lock) then Diverge else Ret (set_lock K true).

Definition pid_release_lock (K : kernel) : res kernel :=
  _ ← kassert K.(pids_lock);
  Ret (set_lock K false).

(** ** Threads of a process *)

Definition proc_addthread (K : kernel) (p : positive) (t : positive) : res (Z * kernel) :=
  th ← deref (K.(threads) !! t);
  _ ← kassert (bool_decide (th.(t_proc) = None));
  x ← deref (K.(procs) !! p);
  let K := put_proc K p (set_numthreads x (u32 (x.(p_numthreads) + 1))) in
  Ret (0, put_thread K t (Thread (Some p) th.(t_wait))).

Definition proc_remthread (K : kernel) (t : positive) : res kernel :=
  th ← deref (K.(threads) !! t);
  match th.(t_proc) with
  | None => Panic
  | Some p =>
      x ← deref (K.(procs) !! p);
      _ ← kassert (0 <? x.(p_numthreads));
      let K := put_proc K p (set_numthreads x (x.(p_numthreads) - 1)) in
      Ret (put_thread K t (Thread None th.(t_wait)))
  end.

(** The new thread is an allocation, its stack another one; the fields that only the
    scheduler reads are left out, and so is the test of the result of [proc_addthread],
    which is always 0. *)
Definition thread_fork (K : kernel) (p : positive) : res (Z * kernel) :=
  let '(ok, K) := kalloc K in
  if negb ok then Ret (ENOMEM, K) else
  let '(ok, K) := kalloc K in
  if negb ok then Ret (ENOMEM, K) else
  let t := unused_ptr K.(threads) in
  proc_addthread (put_thread K t (Thread None None)) p t.

(** ** Creation *)

(** [None] is [NULL], with the error number. *)
Definition proc_create (K : kernel) : res (option positive * Z * kernel) :=
  let '(ok, K) := kalloc K in
  if negb ok then Ret (None, ENOMEM, K) else
  let '(ok, K) := kalloc K in
  if negb ok then Ret (None, ENOMEM, K) else
  let '(l, o) := list_create K.(io).(k_heap) in
  let K := set_io K (set_heap K.(io) o) in
  match l with
  | None => Ret (None, ENOMEM, K)
  | Some l =>
      '(h, o) ← hashtable_create K.(io).(k_heap);
      let K := set_io K (set_heap K.(io) o) in
      match h with
      | None => _ ← list_destroy l; Ret (None, ENOMEM, K)
      | Some h =>
          let '(ok, K) := kalloc K in
          if negb ok then _ ← hashtable_destroy h; _ ← list_destroy l; Ret (None, ENOMEM, K) else
          let p := unused_ptr K.(procs) in
          match K.(pids) with
          | None =>
              let '(tree, o) := pid_create_tree (Some p) K.(io).(k_heap) in
              let K := set_pids (set_io K (set_heap K.(io) o)) tree in
              Ret (Some p, 0, put_proc K p (Proc 0 0 0 0 (-1) (-1) true (Some l) (Some h) 3 0 false))
          | Some tree =>
              '(pid, tree, o) ← pid_allocate (Some tree) p K.(io).(k_heap);
              let K := set_pids (set_io K (set_heap K.(io) o)) tree in
              if pid <? 0 then _ ← list_destroy l; _ ← hashtable_destroy h; Ret (None, ENPROC, K) else
              Ret (Some p, 0, put_proc K p (Proc 0 0 0 pid (-1) (-1) true (Some l) (Some h) 3 0 false))
          end
      end
  end.

(** The process of the kernel, the first one. *)
Definition proc_bootstrap (K : kernel) : res kernel :=
  '(newproc, err, K) ← proc_create K;
  match newproc, K.(pids) with
  | Some p, Some tree => if negb (err =? 0) then Panic else Ret (Kernel K.(io) K.(spaces) K.(pids) K.(pids_lock) K.(procs) K.(threads) p)
  | _, _ => Panic
  end.

(** ** Exit *)

Definition proc_destroy (K : kernel) (p : positive) : res kernel :=
  x ← deref (K.(procs) !! p);
  '(_, _, tree) ← pid_remove_proc tree_fuel K.(pids) x.(pid);
  Ret (set_procs (set_pids K tree) (delete p K.(procs))).

Definition proc_detatch (K : kernel) (p : positive) : res kernel :=
  _ ← kassert (negb (bool_decide (p = K.(kproc))));
  x ← deref (K.(procs) !! p);
  '(K, x) ← (if negb (x.(p_cwd) =? 0) then
               s ← vnode_decref K.(io).(k_fs) x.(p_cwd);
               let x := set_p_cwd x 0 in
               Ret (put_proc (set_io K (set_fs K.(io) s)) p x, x)
             else Ret (K, x));
  '(K, x) ← (if negb (x.(p_addrspace) =? 0) then
               let x' := set_addrspace x 0 in
               m ← as_destroy K.(spaces) x.(p_addrspace);
               Ret (put_proc (set_spaces K m) p x', x')
             else Ret (K, x));
  _ ← kassert (x.(p_numthreads) =? 0);
  Ret K.

(** The loop over the children; every turn takes one off the list. *)
Fixpoint orphan_children (fuel : nat) (K : kernel) (p : positive) : res kernel :=
  match fuel with
  | O => Diverge
  | Datatypes.S fuel' =>
      x ← deref (K.(procs) !! p);
      l ← deref x.(children);
      front ← list_front l;
      match front with
      | None => Ret K
      | Some childpid =>
          child ← pid_get_proc tree_fuel K.(pids) childpid;
          K ← (match child with
               | None => Ret K
               | Some child =>
                   c ← deref (K.(procs) !! child);
                   _ ← kassert (c.(pid) =? childpid);
                   if c.(exited) then proc_destroy K child
                   else Ret (put_proc K child (set_parent c (-1)))
               end);
          l ← list_pop_front l;
          x ← deref (K.(procs) !! p);
          orphan_children fuel' (put_proc K p (set_children x (Some l))) p
      end
  end.

(** [for (i = 0; i < next_fd; i++) close_from_process(i)], [n] descriptors being left. *)
Fixpoint close_files (n : nat) (i : Z) (k : kst S) (t : ftab) : res (kst S * ftab) :=
  match n with
  | O => Ret (k, t)
  | Datatypes.S n' =>
      '(_, _, k, t) ← close_from_process k t i;
      close_files n' (i + 1) k t
  end.

(** The threads that wait on the condition variable of the process [p]. *)
Definition wake (p : positive) (th : thread) : thread :=
  match th.(t_wait) with
  | Some w => if bool_decide (th.(t_proc) = Some p) then Thread th.(t_proc) (Some (Waiter w.(w_pid) w.(w_child) w.(w_status) true)) else th
  | None => th
  end.

Definition cv_broadcast (K : kernel) (p : positive) : res kernel :=
  x ← deref (K.(procs) !! p);
  _ ← kassert x.(wait);
  _ ← kassert K.(pids_lock);
  Ret (set_threads K (wake p <$> K.(threads))).

Definition proc_exit (K : kernel) (p : positive) (exitcode : Z) : res kernel :=
  K ← proc_detatch K p;
  x ← deref (K.(procs) !! p);
  l ← deref x.(children);
  K ← orphan_children (Datatypes.S (Z.to_nat (list_getsize l))) K p;
  x ← deref (K.(procs) !! p);
  l ← deref x.(children);
  _ ← list_destroy l;
  h ← deref x.(p_files);
  '(k, t) ← close_files (Z.to_nat x.(p_next_fd)) 0 K.(io) (Ftab h x.(p_next_fd));
  _ ← hashtable_destroy t.(files);
  let x := set_wait (set_files (set_children x None) None) false in
  let K := put_proc (set_io K k) p x in
  if x.(parent) =? -1 then proc_destroy K p else
  par ← pid_get_proc tree_fuel K.(pids) x.(parent);
  match par with
  | None => proc_destroy K p
  | Some par =>
      let K := put_proc K p (set_exited x exitcode) in
      y ← deref (K.(procs) !! par);
      if y.(waitpid) =? x.(pid) then cv_broadcast K par else Ret K
  end.

(** ** Processes from programs and from [fork] *)

Definition proc_create_runprogram (K : kernel) (cur : positive) : res (option positive * Z * kernel) :=
  '(newproc, error, K) ← proc_create K;
  match newproc with
  | None => Ret (None, error, K)
  | Some newproc =>
      c ← deref (K.(procs) !! cur);
      x ← deref (K.(procs) !! newproc);
      '(K, x) ← (if negb (c.(p_cwd) =? 0) then
                   s ← vnode_incref K.(io).(k_fs) c.(p_cwd);
                   Ret (set_io K (set_fs K.(io) s), set_p_cwd x c.(p_cwd))
                 else Ret (K, x));
      let K := put_proc K newproc (set_parent x 0) in
      let '(ok, K) := kalloc K in
      if negb ok then Undef else
      k ← deref (K.(procs) !! K.(kproc));
      l ← deref k.(children);
      '(_, l, o) ← list_push_back l x.(pid) K.(io).(k_heap);
      let K := set_io K (set_heap K.(io) o) in
      Ret (Some newproc, error, put_proc K K.(kproc) (set_children k (Some l)))
  end.

(** The files of the child: a table of its own, into which the parent's are copied.  Without
    memory for the table the process is destroyed and then used. *)
Definition fork_files (K : kernel) (par p : positive) : res kernel :=
  y ← deref (K.(procs) !! par);
  match y.(p_files) with
  | None => Ret K
  | Some ph =>
      '(h, o) ← hashtable_create K.(io).(k_heap);
      let K := set_io K (set_heap K.(io) o) in
      match h with
      | None => _ ← proc_exit K p 0; Undef
      | Some h =>
          '(k, h) ← copy_files (Z.to_nat (y.(p_next_fd) - 3)) 3 K.(io) (Ftab ph y.(p_next_fd)) h;
          x ← deref (K.(procs) !! p);
          Ret (put_proc (set_io K k) p (set_files x (Some h)))
      end
  end.

Definition proc_create_fork (K : kernel) (par : positive) : res (option positive * Z * kernel) :=
  '(newproc, error, K) ← proc_create K;
  match newproc with
  | None => Ret (None, error, K)
  | Some p =>
      y ← deref (K.(procs) !! par);
      x ← deref (K.(procs) !! p);
      '(K, x) ← (if negb (y.(p_addrspace) =? 0) then
                   '(_, a, m) ← as_copy K.(spaces) y.(p_addrspace) x.(pid);
                   Ret (set_spaces K m, set_addrspace x a)
                 else Ret (K, x));
      '(K, x) ← (if negb (y.(p_cwd) =? 0) then
                   s ← vnode_incref K.(io).(k_fs) y.(p_cwd);
                   Ret (set_io K (set_fs K.(io) s), set_p_cwd x y.(p_cwd))
                 else Ret (K, x));
      K ← fork_files (put_proc K p x) par p;
      let '(ok, K) := kalloc K in
      if negb ok then K ← proc_exit K p 0; Ret (None, ENOMEM, K) else
      y ← deref (K.(procs) !! par);
      l ← deref y.(children);
      '(_, l, o) ← list_push_back l x.(pid) K.(io).(k_heap);
      let K := set_io K (set_heap K.(io) o) in
      let K := put_proc K par (set_children y (Some l)) in
      x ← deref (K.(procs) !! p);
      Ret (Some p, error, put_proc K p (set_parent x y.(pid)))
  end.

(** ** Lists of children *)

(** The loop of [proc_remlist], which turns the list until its first value is in front again. *)
Fixpoint remlist_loop (fuel : nat) (l : llist Z) (cur first val : Z) (o : script) : res (llist Z * script) :=
  if cur =? first then Ret (l, o) else
  match fuel with
  | O => Diverge
  | Datatypes.S fuel' =>
      l ← list_pop_front l;
      if cur =? val then Ret (l, o) else
      '(_, l, o) ← list_push_back l cur o;
      cur ← list_front l;
      cur ← deref cur;
      remlist_loop fuel' l cur first val o
  end.

Definition proc_remlist (l : llist Z) (val : Z) (o : script) : res (llist Z * script) :=
  if list_isempty l then Ret (l, o) else
  let n := Z.to_nat (list_getsize l) in
  first ← list_front l;
  first ← deref first;
  l ← list_pop_front l;
  if (first =? val) || list_isempty l then Ret (l, o) else
  '(_, l, o) ← list_push_back l first o;
  cur ← list_front l;
  cur ← deref cur;
  remlist_loop n l cur first val o.

Definition proc_remchild (K : kernel) (p : positive) (child : Z) : res kernel :=
  x ← deref (K.(procs) !! p);
  l ← deref x.(children);
  '(l, o) ← proc_remlist l child K.(io).(k_heap);
  Ret (put_proc (set_io K (set_heap K.(io) o)) p (set_children x (Some l))).

(** ** System calls *)

(** The process of a thread. *)
Definition curproc (K : kernel) (t : positive) : res positive :=
  th ← deref (K.(threads) !! t);
  match th.(t_proc) with Some p => Ret p | None => Panic end.

Definition sys_getpid (K : kernel) (t : positive) : res (Z * kernel) :=
  p ← curproc K t;
  K ← pid_acquire_lock K;
  x ← deref (K.(procs) !! p);
  K ← pid_release_lock K;
  Ret (x.(pid), K).

(** The value, [*error] and the state. *)
Definition sys_fork (K : kernel) (t : positive) : res (Z * Z * kernel) :=
  p ← curproc K t;
  K ← pid_acquire_lock K;
  '(newproc, err, K) ← proc_create_fork K p;
  if negb (err =? 0) then Ret (-1, err, K) else
  newproc ← deref newproc;
  let '(ok, K) := kalloc K in
  if negb ok then K ← proc_exit K newproc 0; Ret (-1, ENOMEM, K) else
  '(_, K) ← thread_fork K newproc;
  K ← pid_release_lock K;
  x ← deref (K.(procs) !! newproc);
  Ret (x.(pid), 0, K).

(** An [int] in memory. *)
Definition int_bytes (x : Z) : list Z := [u8 (Z.shiftr x 24); u8 (Z.shiftr x 16); u8 (Z.shiftr x 8); u8 x].

Inductive wait_result := Returned (err : Z) | Asleep.

(** The end of [sys_waitpid], when the child has exited. *)
Definition waitpid_finish (K : kernel) (p child : positive) (pid status : Z) : res (wait_result * kernel) :=
  x ← deref (K.(procs) !! p);
  let K := put_proc K p (set_waitpid x (-1)) in
  c ← deref (K.(procs) !! child);
  '(err, K) ← (if negb (status =? 0) then
                 '(err, m) ← copyout (int_bytes c.(exit_val)) 0 K.(io).(k_mem) status 4;
                 Ret (err, set_io K (set_mem K.(io) m))
               else Ret (0, K));
  K ← proc_destroy K child;
  K ← proc_remchild K p pid;
  K ← pid_release_lock K;
  Ret (Returned err, K).

(** [while (!child->exited) cv_wait(...)], from the test on. *)
Definition waitpid_loop (K : kernel) (t p child : positive) (pid status : Z) : res (wait_result * kernel) :=
  c ← deref (K.(procs) !! child);
  if c.(exited) then waitpid_finish (put_thread K t (Thread (Some p) None)) p child pid status else
  x ← deref (K.(procs) !! p);
  _ ← kassert x.(wait);
  K ← pid_release_lock (put_thread K t (Thread (Some p) (Some (Waiter pid child status false))));
  Ret (Asleep, K).

Definition sys_waitpid (K : kernel) (t : positive) (pid status options : Z) : res (wait_result * kernel) :=
  p ← curproc K t;
  K ← pid_acquire_lock K;
  let fail (err : Z) := K ← pid_release_lock K; Ret (Returned err, K) in
  if negb (options =? 0) then fail EINVAL else
  err ← (if negb (status =? 0) then '(err, _) ← copyin K.(io).(k_mem) status [0; 0; 0; 0] 0 4; Ret err else Ret 0);
  if negb (err =? 0) then fail err else
  child ← pid_get_proc tree_fuel K.(pids) pid;
  match child with
  | None => fail ESRCH
  | Some child =>
      c ← deref (K.(procs) !! child);
      x ← deref (K.(procs) !! p);
      if negb (c.(parent) =? x.(Proc.pid)) then fail ECHILD else
      waitpid_loop (put_proc K p (set_waitpid x pid)) t p child pid status
  end.

(** A thread that has been woken takes the lock and looks again. *)
Definition waitpid_resume (K : kernel) (t : positive) : res (wait_result * kernel) :=
  th ← deref (K.(threads) !! t);
  w ← deref th.(t_wait);
  p ← curproc K t;
  K ← pid_acquire_lock K;
  waitpid_loop K t p w.(w_child) w.(w_pid) w.(w_status).

(** The thread is gone at the end. *)
Definition sys__exit (K : kernel) (t : positive) (exitcode : Z) : res kernel :=
  K ← pid_acquire_lock K;
  p ← curproc K t;
  K ← proc_remthread K t;
  K ← proc_exit K p exitcode;
  K ← pid_release_lock K;
  Ret (set_threads K (delete t K.(threads))).

(** The menu's command that runs a program, up to its [sys_waitpid] for the pid given. *)
Definition common_prog (K : kernel) (t : positive) : res (Z * option Z * kernel) :=
  p ← curproc K t;
  K ← pid_acquire_lock K;
  '(newproc, error, K) ← proc_create_runprogram K p;
  K ← pid_release_lock K;
  match newproc with
  | None => Ret (error, None, K)
  | Some newproc =>
      '(result, K) ← thread_fork K newproc;
      if negb (result =? 0) then
        K ← pid_acquire_lock K;
        K ← proc_exit K newproc 0;
        K ← pid_release_lock K;
        Ret (result, None, K)
      else
        x ← deref (K.(procs) !! newproc);
        Ret (0, Some x.(pid), K)
  end.

End Proc.
