(* ===== verification/ProcInv.v ===== *)
(** * The process tree: invariant, and what the operations of [Proc] keep of it

    The directory is followed while the processes fit into its first block, eight with the
    kernel: beyond that [pid_remove_proc] loses processes ([PidTree.pid_remove_loses_process]). *)

From S2P Require Import Prelude CString LinkedList Hashtable PidTree UserCopy Uio Vfs VfsRefs Files Proc.
Import LinkedLists.

(** ** A directory of one block *)

Definition dir_ok (tree : option pid_tree) (D : gmap Z positive) : Prop :=
  ∃ t, tree = Some t ∧ wf 1 true PID_MIN PID_MAX t ∧ D = list_to_map (bindings 1 t).

Lemma block_kernel t : wf 1 true PID_MIN PID_MAX t → local_pids t !! 0%nat = Some 0.
Proof.
  destruct t as [pids procs sizes subs]. intros (_ & _ & _ & _ & _ & _ & _ & Hpr & Hroot & _). destruct (Hroot eq_refl) as [q Hq].
  apply (Hpr 0%nat q Hq).
Qed.

Lemma dir_get tree D q : dir_ok tree D → pid_get_proc tree_fuel tree q = @Ret (option positive) (D !! q).
Proof.
  intros (t & -> & Hwf & ->). destruct (decide (0 ≤ q)) as [Hq|Hq].
  - destruct (pid_get_correct tree_fuel 1 _ _ _ t q Hwf Hq) as (r & -> & Hr); [unfold tree_fuel; lia|]. f_equal.
    pose proof (bindings_NoDup _ _ _ _ _ Hwf) as Hnd. destruct (list_to_map (bindings 1 t) !! q) as [p|] eqn:E.
    + apply Hr. by apply elem_of_list_to_map_2 in E.
    + destruct r as [p|]; [|done]. apply not_elem_of_list_to_map in E. destruct E. apply list_elem_of_fmap. exists (q, p). split; [done|]. by apply Hr.
  - pose proof (block_kernel t Hwf) as H0. assert (pid_get_proc tree_fuel (Some t) q = Ret None) as ->.
    { unfold tree_fuel. cbn [pid_get_proc locate]. rewrite (rd_lookup _ 0 0) by done. cbn [mbind res_bind].
      rewrite (proj2 (Z.eqb_neq q 0)), (proj2 (Z.ltb_lt q 0)) by lia. done. }
    f_equal. symmetry. apply not_elem_of_list_to_map. intros ([q' p] & -> & Hin)%list_elem_of_fmap. cbn in Hq.
    destruct (bindings_range _ _ _ _ _ _ _ Hwf Hin). lia.
Qed.

Lemma dir_alloc tree D p : dir_ok tree D → (size D < 8)%nat →
  ∃ q tree', pid_allocate tree p [] = Ret (q, tree', []) ∧ 0 < q ∧ D !! q = None ∧ dir_ok tree' (<[q := p]> D).
Proof.
  intros (t & -> & Hwf & ->) Hs. pose proof (bindings_NoDup _ _ _ _ _ Hwf) as Hnd. unfold pid_allocate.
  assert (length (bindings 1 t) < 8)%nat as Hlen.
  { by rewrite map_size_list_to_map in Hs. }
  destruct (allocate_correct tree_fuel 1 true PID_MIN PID_MAX t p [] Hwf) as (q & t' & o' & -> & Ho & Ha); [change (capacity 1) with 8; lia|unfold tree_fuel; lia|].
  apply suffix_nil_inv in Ho as ->. cbn [mbind res_bind]. destruct Ha as [(_ & []%failed_nil & _)|(Hq & Hwf' & Hb)].
  pose proof (bindings_NoDup _ _ _ _ _ Hwf') as Hnd'. rewrite Hb in Hnd'. apply NoDup_cons in Hnd' as [Hni _].
  exists q, (Some t'). split; [done|]. assert ((list_to_map (bindings 1 t) : gmap Z positive) !! q = None) as Hnone by (by apply not_elem_of_list_to_map).
  split_and!; [|done|].
  - destruct (decide (q = 0)) as [->|]; [|lia]. exfalso. apply Hni. pose proof (block_kernel t Hwf) as H0.
    destruct t as [pids procs sizes subs]. pose proof Hwf as (_ & _ & _ & _ & _ & _ & _ & _ & Hroot & _). destruct (Hroot eq_refl) as [k Hk].
    apply list_elem_of_fmap. exists (0, k). split; [done|]. apply elem_of_bindings. left. apply elem_of_here. by exists 0%nat.
  - exists t'. split; [done|]. split; [done|].
    rewrite (list_to_map_proper (bindings 1 t') ((q, p) :: bindings 1 t)); [done| |done]. by apply (bindings_NoDup _ _ _ _ _ Hwf').
Qed.

(** The block without the process in a slot. *)
Lemma block_remove pids procs sizes subs i q p : wf 1 true PID_MIN PID_MAX (PidTree pids procs sizes subs) →
  pids !! i = Some q → procs !! i = Some (Some p) → (0 < i)%nat →
  let t' := PidTree (<[i := -1]> pids) (<[i := None]> procs) sizes subs in
  wf 1 true PID_MIN PID_MAX t' ∧ bindings 1 (PidTree pids procs sizes subs) ≡ₚ (q, p) :: bindings 1 t'.
Proof.
  intros (Hl & Hlp & Hlz & Hls & Hw & Hlo & Hpids & Hpr & Hroot & Hsz & Hs) Hq Hp Hi t'. pose proof (lookup_lt_Some _ _ _ Hq). split.
  - cbn [wf t']. split_and!; rewrite ?length_insert; try done.
    + intros j x Hj. apply list_lookup_insert_Some in Hj as [(<- & <- & _)|(? & Hj)]; [by left|by apply Hpids].
    + intros j x Hj. apply list_lookup_insert_Some in Hj as [(_ & ? & _)|(? & Hj)]; [done|]. rewrite list_lookup_insert_ne by done. by eapply Hpr.
    + intros Hr. destruct (Hroot Hr) as [x Hx]. exists x. by rewrite list_lookup_insert_ne by lia.
    + intros j s Hj. destruct (Hs j s Hj) as (_ & _ & []).
  - unfold t'. cbn [bindings local_pids local_procs subtrees]. rewrite app_comm_cons. f_equiv.
    rewrite <-(here_insert (<[i := -1]> pids) (<[i := None]> procs) i q p); [|rewrite !length_insert; lia|apply list_lookup_insert_eq; lia].
    by rewrite !list_insert_insert_eq, !list_insert_id.
Qed.

Lemma dir_remove tree D q p : dir_ok tree D → D !! q = Some p → q ≠ 0 →
  ∃ tree', pid_remove_proc tree_fuel tree q = Ret (Some p, true, tree') ∧ dir_ok tree' (delete q D).
Proof.
  intros (t & -> & Hwf & ->) Hq Hq0. pose proof (bindings_NoDup _ _ _ _ _ Hwf) as Hnd. apply elem_of_list_to_map_2 in Hq.
  destruct (bindings_range _ _ _ _ _ _ _ Hwf Hq) as [Hr _]. pose proof (block_kernel t Hwf) as H0.
  destruct t as [pids procs sizes subs]. pose proof Hwf as (Hl & Hlp & Hlz & Hls & _ & _ & Hpids & Hpr & _ & Hsz & Hs).
  assert (∀ j, (j < 8)%nat → subs !! j = Some None ∧ sizes !! j = Some 0) as Hnone.
  { intros j Hj. destruct (lookup_lt_is_Some_2 subs j) as [s Es]; [lia|]. destruct s as [s|]; [by destruct (Hs j s Es) as (_ & _ & [])|].
    split; [done|]. by rewrite (Hsz j None Es). }
  apply elem_of_bindings in Hq as [Hq|(i & s & Hi & _)]; [|by destruct (Hs i s Hi) as (_ & _ & [])].
  cbn [local_pids local_procs] in *. apply elem_of_here in Hq as (i & Hqi & Hpi). pose proof (lookup_lt_Some _ _ _ Hqi) as Hi. rewrite Hl in Hi.
  assert (0 < i)%nat as Hi0 by (destruct i; [congruence|lia]). destruct (block_remove _ _ _ _ _ _ _ Hwf Hqi Hpi Hi0) as [Hwf' Hb].
  unfold tree_fuel. cbn [pid_remove_proc]. destruct (locate_correct 8 pids 0 q) as (pl & Hpl & Hcase); [done|done|lia|]. change (Z.of_nat 0) with 0 in Hpl. rewrite Hpl.
  cbn [mbind res_bind]. assert (pl = Here (Z.of_nat i)) as ->.
  { destruct pl as [k|k|].
    - destruct Hcase as (k' & -> & Hk'). do 2 f_equal. eapply (here_inj 0 true PID_MIN PID_MAX _ k' i q Hwf); [done|done|lia].
    - destruct Hcase as (k' & -> & Hk8 & Hlt & Hgt). exfalso. destruct (decide (i ≤ k')%nat) as [Hle|Hgt'].
      + pose proof (Hlt i q Hle Hqi). lia.
      + destruct Hgt as (x & Hx & Hqx); [lia|]. destruct (Hpids _ _ Hx) as [->|Ex]; [lia|].
        destruct (Hpids _ _ Hqi) as [->|Eq]; [lia|]. pose proof (pid_at_le 0 true PID_MIN PID_MAX (S k') i ltac:(vm_compute; congruence) eq_refl ltac:(lia)). lia.
    - destruct Hcase as (x & Hx & ?). rewrite H0 in Hx. injection Hx as <-. lia. }
  rewrite (rd_nat procs _ _ Hpi). cbn [mbind res_bind]. rewrite wr_nat by lia. cbn [mbind res_bind].
  rewrite (rd_nat sizes _ _ (proj2 (Hnone i ltac:(lia)))). cbn [mbind res_bind Z.eqb]. rewrite (proj2 (Z.eqb_neq (Z.of_nat i) 0)) by lia.
  replace (Z.of_nat i - 1) with (Z.of_nat (i - 1)) by lia. rewrite (rd_nat sizes _ _ (proj2 (Hnone (i - 1)%nat ltac:(lia)))). cbn [mbind res_bind Z.eqb].
  rewrite wr_nat by lia. cbn [mbind res_bind]. eexists. split; [done|]. eexists. split; [done|]. split; [done|].
  pose proof (bindings_NoDup _ _ _ _ _ Hwf') as Hnd'. rewrite (list_to_map_proper _ _ Hnd Hb). rewrite list_to_map_cons.
  rewrite Hb in Hnd. apply NoDup_cons in Hnd as [Hni _]. cbn [fst snd]. rewrite delete_insert_id; [done|]. by apply not_elem_of_list_to_map.
Qed.

Lemma dir_size tree D : dir_ok tree D → (size D ≤ 8)%nat.
Proof.
  intros (t & -> & Hwf & ->). rewrite map_size_list_to_map by (by eapply bindings_NoDup). destruct t as [pids procs sizes subs].
  destruct Hwf as (Hl & _). cbn [bindings local_pids local_procs subtrees]. rewrite length_app.
  assert (∀ l : list (option pid_tree), length (concat ((λ s, match s with Some s => bindings 0 s | None => [] end) <$> l)) = 0%nat) as ->
    by (induction l as [|[?|] ? IH]; cbn; done).
  unfold here. assert (∀ l : list (Z * option PidTree.proc), (length (omap (λ x, (x.1,.) <$> x.2) l) ≤ length l)%nat) as Hle
    by (induction l as [|[? [?|]] ? IH]; cbn; lia).
  specialize (Hle (zip pids procs)). rewrite length_zip in Hle. lia.
Qed.

(** ** Lists of children *)

Lemma remlist_loop_correct a fuel l cur first val b : rep l (a ++ first :: b) → hd_error (a ++ first :: b) = Some cur → val ∈ a →
  NoDup (a ++ first :: b) → (length a ≤ fuel)%nat → Z.of_nat (length (a ++ first :: b)) < 2 ^ 32 →
  ∃ l' ys, remlist_loop fuel l cur first val [] = Ret (l', []) ∧ rep l' ys ∧ val :: ys ≡ₚ a ++ first :: b.
Proof.
  revert fuel l cur b. induction a as [|x a IH]; intros fuel l cur b Hr Hc Hv Hnd Hf Hlen; [by apply elem_of_nil in Hv|].
  cbn in Hc. injection Hc as <-. destruct fuel as [|fuel]; [cbn in Hf; lia|]. cbn [remlist_loop].
  rewrite (proj2 (Z.eqb_neq x first)).
  2: { intros ->. cbn in Hnd. apply NoDup_cons in Hnd as [Hn _]. apply Hn, elem_of_app. right. left. }
  destruct (pop_front_correct _ _ Hr) as (l1 & -> & Hr1). cbn [mbind res_bind List.tl app] in *.
  destruct (Z.eqb_spec x val) as [->|Hne]; [by exists l1, (a ++ first :: b)|].
  pose proof (push_back_correct l1 _ x [] Hr1 ltac:(cbn [length] in Hlen; lia)) as (l2 & -> & Hr2). cbn [kmalloc snd mbind res_bind].
  rewrite <-app_assoc in Hr2. cbn [app] in Hr2. apply elem_of_cons in Hv as [->|Hv]; [done|].
  rewrite (front_correct _ _ Hr2). destruct a as [|y a]; [by apply elem_of_nil in Hv|]. cbn [hd_error app deref mbind res_bind].
  assert (((y :: a) ++ first :: b) ++ [x] ≡ₚ x :: (y :: a) ++ first :: b) as Hp by (symmetry; apply Permutation_cons_append).
  destruct (IH fuel l2 y (b ++ [x])) as (l' & ys & -> & Hr' & Hperm).
  - exact Hr2.
  - done.
  - done.
  - change ((y :: a) ++ first :: b ++ [x]) with ((y :: a) ++ (first :: b) ++ [x]). rewrite app_assoc, Hp. exact Hnd.
  - cbn in *. lia.
  - cbn [app length] in *. rewrite !length_app in *. cbn [length] in *. rewrite length_app. cbn [length]. lia.
  - exists l', ys. split; [done|]. split; [done|]. rewrite Hperm.
    change ((y :: a) ++ first :: b ++ [x]) with ((y :: a) ++ (first :: b) ++ [x]). by rewrite app_assoc, Hp.
Qed.

Lemma proc_remlist_correct l xs val : rep l xs → NoDup xs → val ∈ xs → Z.of_nat (length xs) < 2 ^ 32 - 1 →
  ∃ l' ys, proc_remlist l val [] = Ret (l', []) ∧ rep l' ys ∧ val :: ys ≡ₚ xs.
Proof.
  intros Hr Hnd Hv Hlen. unfold proc_remlist, list_isempty, list_getsize. rewrite (rep_lsize_eqb _ _ Hr).
  destruct xs as [|x xs]; [by apply elem_of_nil in Hv|]. rewrite (rep_size _ _ Hr), (front_correct _ _ Hr). cbn [hd_error deref mbind res_bind].
  destruct (pop_front_correct _ _ Hr) as (l1 & -> & Hr1). cbn [mbind res_bind List.tl] in *. rewrite (rep_lsize_eqb _ _ Hr1).
  destruct (Z.eqb_spec x val) as [->|Hne]; cbn [orb]; [by exists l1, xs|]. apply elem_of_cons in Hv as [->|Hv]; [done|].
  destruct xs as [|y xs]; [by apply elem_of_nil in Hv|]. pose proof (push_back_correct l1 _ x [] Hr1 ltac:(cbn [length] in *; lia)) as (l2 & -> & Hr2).
  cbn [kmalloc snd mbind res_bind]. rewrite (front_correct _ _ Hr2). cbn [hd_error app deref mbind res_bind].
  destruct (remlist_loop_correct (y :: xs) (Z.to_nat (Z.of_nat (length (x :: y :: xs)))) l2 y x val []) as (l' & ys & E & Hr' & Hp); [done|done|done| | | |].
  - rewrite <-Permutation_cons_append. exact Hnd.
  - cbn. lia.
  - rewrite length_app. cbn [length] in *. lia.
  - exists l', ys. rewrite Hp, <-Permutation_cons_append. done.
Qed.

(** ** Tables without files *)

Lemma destroy_empty (h : table Z) : represents h (∅ : gmap hkey Z) → hashtable_destroy h = Ret tt.
Proof.
  intros (es & [(_ & [Hmax _] & bs & Hs & Hl & _ & Hc) _] & Em & _). unfold hashtable_destroy.
  assert (es = []) as -> by (destruct es as [|[k v] es]; [done|]; cbn in Em; symmetry in Em; by apply insert_non_empty in Em).
  assert (bs = replicate (length bs) []) as Hb.
  { apply Permutation_nil_r in Hc. clear -Hc. induction bs as [|b bs IH]; [done|]. cbn in *. apply app_eq_nil in Hc as [-> Hc]. by rewrite <-IH. }
  rewrite Hb in Hs. apply (cleanup_correct _ _ 0 (length bs)); [done|lia|]. change (2 ^ 32) with 4294967296. lia.
Qed.

(** ** What address spaces promise *)

(** A copy that succeeds is a new address space; one that is destroyed is gone. *)
Class AsLaws (M : Type) `{AsOps M} := {
  as_live : M → gset Z;
  law_as_copy m a q : a ∈ as_live m → ∃ e b m', as_copy m a q = Ret (e, b, m') ∧
    (e = 0 → b ≠ 0 ∧ b ∉ as_live m ∧ as_live m' = {[b]} ∪ as_live m);
  law_as_destroy m a : a ∈ as_live m → ∃ m', as_destroy m a = Ret m' ∧ as_live m' = as_live m ∖ {[a]}
}.

(** ** The invariant *)

(** The directory has the processes under their pids. *)
Record indexed (D : gmap Z positive) (procs : gmap positive proc) : Prop := Indexed {
  ix_proc p x : procs !! p = Some x → D !! x.(pid) = Some p ∧ 0 ≤ x.(pid);
  ix_dir q p : D !! q = Some p → ∃ x, procs !! p = Some x ∧ x.(pid) = q
}.

(** What the processes that have not exited hold of the file system: their current
    directories and their open files. *)
Definition holds_of (bl : gmap Z fcblock) (g : Z * gmap Z Z) : list Z := opt_ref g.1 ++ nodes (view bl g.2).
Definition held (bl : gmap Z fcblock) (G : gmap positive (Z * gmap Z Z)) : list Z :=
  concat ((λ x, holds_of bl x.2) <$> map_to_list G).

Definition user_ptr (a : Z) : Prop := 0 ≤ a < 2 ^ 32.

(** A thread in [sys_waitpid] waits for a child of its process, and has been woken when
    the child has exited. *)
Definition waits_well (ps : gmap positive proc) (p : positive) (w : waiter) : Prop :=
  ∃ x c, ps !! p = Some x ∧ x.(waitpid) = w.(w_pid) ∧ ps !! w.(w_child) = Some c ∧ c.(pid) = w.(w_pid) ∧
    c.(parent) = x.(pid) ∧ w.(w_woken) = c.(exited) ∧ user_ptr w.(w_status).

(** The list of a process has its children. *)
Definition lists_children (ps : gmap positive proc) (x : proc) : Prop :=
  ∃ l cs, x.(children) = Some l ∧ rep l cs ∧ NoDup cs ∧
    ∀ c, c ∈ cs ↔ ∃ q y, ps !! q = Some y ∧ y.(pid) = c ∧ y.(parent) = x.(pid).

(** A process other than the kernel has at most one thread. *)
Definition threaded (ths : gmap positive thread) (p : positive) (x : proc) : Prop :=
  x.(p_numthreads) = 0 ∧ (∀ t th, ths !! t = Some th → th.(t_proc) ≠ Some p) ∨
  x.(p_numthreads) = 1 ∧ ∃ t th, ths !! t = Some th ∧ th.(t_proc) = Some p.

(** The processes are a forest: the parent of a process is another one that has not exited,
    or -1. *)
Record tree_ok (ps : gmap positive proc) (ths : gmap positive thread) (kp : positive) : Prop := TreeOk {
  tr_children p x : ps !! p = Some x → x.(exited) = false → lists_children ps x;
  tr_wait p x : ps !! p = Some x → x.(exited) = false → x.(wait) = true;
  tr_threads p x : ps !! p = Some x → x.(exited) = false → p ≠ kp → threaded ths p x;
  tr_zombie p x : ps !! p = Some x → x.(exited) = true → x.(parent) ≠ -1;
  tr_parent p x : ps !! p = Some x → x.(parent) ≠ -1 → ∃ q y, ps !! q = Some y ∧ y.(pid) = x.(parent) ∧ y.(exited) = false;
  tr_self p x : ps !! p = Some x → x.(parent) ≠ x.(pid);
  tr_kernel : ∃ x, ps !! kp = Some x ∧ x.(pid) = 0 ∧ x.(exited) = false ∧ x.(parent) = -1;
  tr_owner t th p : ths !! t = Some th → th.(t_proc) = Some p → ∃ x, ps !! p = Some x ∧ x.(exited) = false;
  tr_unique t t' th th' p : ths !! t = Some th → ths !! t' = Some th' → th.(t_proc) = Some p → th'.(t_proc) = Some p →
    p ≠ kp ∨ th.(t_wait) ≠ None ∧ th'.(t_wait) ≠ None → t = t';
  tr_waiters t th w : ths !! t = Some th → th.(t_wait) = Some w → ∃ p, th.(t_proc) = Some p ∧ waits_well ps p w
}.

(** The files of a process that has not exited. *)
Definition has_files (bl : gmap Z fcblock) (G : gmap positive (Z * gmap Z Z)) (p : positive) (x : proc) : Prop :=
  ∃ h P, x.(p_files) = Some h ∧ G !! p = Some (x.(p_cwd), P) ∧ tab_ok bl (Ftab h x.(p_next_fd)) P ∧
    3 ≤ x.(p_next_fd) < 2 ^ 31 ∧ ∀ fd, is_Some (P !! fd) → fd < x.(p_next_fd).

(** What the processes hold is theirs alone, and counted by the file system. *)
Record holds_ok {S M} `{FsOps S (memory * uio)} `{AsLaws M} (k : kst S) (m : M) (ps : gmap positive proc) (G : gmap positive (Z * gmap Z Z)) : Prop := HoldsOk {
  ho_heap : k.(k_heap) = [];
  ho_fs : vfs_ok k.(k_fs);
  ho_counted : counted k.(k_fs) (held k.(k_blocks) G);
  ho_files p x : ps !! p = Some x → x.(exited) = false → has_files k.(k_blocks) G p x;
  ho_holder p : is_Some (G !! p) → ∃ x, ps !! p = Some x ∧ x.(exited) = false;
  ho_space p x : ps !! p = Some x → x.(p_addrspace) ≠ 0 → x.(p_addrspace) ∈ as_live m;
  ho_spaces p q x y : ps !! p = Some x → ps !! q = Some y → x.(p_addrspace) ≠ 0 → x.(p_addrspace) = y.(p_addrspace) → p = q;
  ho_blocks p q g g' fd fd' c : G !! p = Some g → G !! q = Some g' → g.2 !! fd = Some c → g'.2 !! fd' = Some c → p = q
}.

Record kernel_ok {S M} `{FsOps S (memory * uio)} `{AsLaws M} (K : kernel S M) (D : gmap Z positive) (G : gmap positive (Z * gmap Z Z)) : Prop := KernelOk {
  ko_dir : dir_ok K.(pids) D;
  ko_index : indexed D K.(procs);
  ko_tree : tree_ok K.(procs) K.(threads) K.(kproc);
  ko_holds : holds_ok K.(io) K.(spaces) K.(procs) G
}.

(** ** References held *)

Lemma held_delete bl G p g w : G !! p = Some g → cnt w (held bl G) = cnt w (holds_of bl g ++ held bl (delete p G)).
Proof. intros Hg. apply cnt_perm. unfold held. rewrite <-(map_to_list_delete G p g Hg). done. Qed.

Lemma held_insert bl G p g w : G !! p = None → cnt w (held bl (<[p := g]> G)) = cnt w (holds_of bl g ++ held bl G).
Proof. intros Hg. apply cnt_perm. unfold held. rewrite map_to_list_insert by done. done. Qed.

(** The references do not depend on other blocks. *)
Lemma held_blocks bl bl' G : (∀ p g fd c, G !! p = Some g → g.2 !! fd = Some c → bl' !! c = bl !! c) → held bl' G = held bl G.
Proof.
  intros Hsame. unfold held. f_equal. apply list_fmap_ext. intros i [p g] Hi. cbn.
  assert (G !! p = Some g) as Hg by (apply elem_of_map_to_list; by eapply list_elem_of_lookup_2). unfold holds_of. do 2 f_equal.
  apply map_eq. intros fd. rewrite !view_lookup. destruct (g.2 !! fd) as [c|] eqn:E; [|done]. cbn. by eapply Hsame.
Qed.

(** ** Orphans *)

Definition orphan (cs : list Z) (y : proc) : option proc :=
  if decide (y.(pid) ∈ cs) then if y.(exited) then None else Some (set_parent y (-1)) else Some y.

Lemma indexed_inj D m p q x y : indexed D m → m !! p = Some x → m !! q = Some y → x.(pid) = y.(pid) → p = q.
Proof. intros Hi Hp Hq E. destruct (ix_proc _ _ Hi _ _ Hp) as [E1 _], (ix_proc _ _ Hi _ _ Hq) as [E2 _]. rewrite E in E1. congruence. Qed.

(** A process record that keeps its pid. *)
Lemma indexed_put D m p x y : indexed D m → m !! p = Some x → y.(pid) = x.(pid) → indexed D (<[p := y]> m).
Proof.
  intros [H1 H2] Hp E. split.
  - intros q z [[<- <-]|[_ Hz]]%lookup_insert_Some; [rewrite E; by apply H1|by apply H1].
  - intros q r Hq. destruct (H2 _ _ Hq) as (z & Hz & Ez). destruct (decide (r = p)) as [->|]; [|exists z; by rewrite lookup_insert_ne].
    exists y. rewrite lookup_insert_eq. split; [done|]. congruence.
Qed.

Lemma indexed_delete D m p x : indexed D m → m !! p = Some x → indexed (delete x.(pid) D) (delete p m).
Proof.
  intros Hi Hp. pose proof Hi as [H1 H2]. split.
  - intros q z [Hne Hz]%lookup_delete_Some. destruct (H1 _ _ Hz) as [E ?]. split; [|done]. rewrite lookup_delete_ne; [done|].
    intros E'. apply Hne. by apply (indexed_inj D m p q x z).
  - intros q r [Hne Hq]%lookup_delete_Some. destruct (H2 _ _ Hq) as (z & Hz & Ez). exists z. split; [|done]. rewrite lookup_delete_ne; [done|].
    intros ->. congruence.
Qed.

Lemma indexed_new D m p x : indexed D m → m !! p = None → D !! x.(pid) = None → 0 ≤ x.(pid) → indexed (<[x.(pid) := p]> D) (<[p := x]> m).
Proof.
  intros [H1 H2] Hp Hd H0. split.
  - intros q z [[<- <-]|[_ Hz]]%lookup_insert_Some; [by rewrite lookup_insert_eq|]. destruct (H1 _ _ Hz) as [E ?]. split; [|done].
    rewrite lookup_insert_ne; [done|]. intros E'. congruence.
  - intros q r [[<- <-]|[_ Hq]]%lookup_insert_Some; [exists x; by rewrite lookup_insert_eq|]. destruct (H2 _ _ Hq) as (z & Hz & Ez). exists z.
    split; [|done]. rewrite lookup_insert_ne; [done|]. intros ->. congruence.
Qed.

Section Inv.
Context {S M : Type} `{FL : FsLaws S (memory * uio)} `{AL : AsLaws M}.
#[local] Notation kernel := (kernel S M).
Implicit Types K : kernel.

Lemma proc_destroy_correct K D p x : dir_ok K.(pids) D → indexed D K.(procs) → K.(procs) !! p = Some x → x.(pid) ≠ 0 →
  ∃ tree, proc_destroy K p = Ret (set_procs (set_pids K tree) (delete p K.(procs))) ∧ dir_ok tree (delete x.(pid) D) ∧
    indexed (delete x.(pid) D) (delete p K.(procs)).
Proof.
  intros Hd Hi Hp Hne. destruct (ix_proc _ _ Hi _ _ Hp) as [Hx _]. destruct (dir_remove _ _ _ _ Hd Hx Hne) as (tree & E & Hd').
  exists tree. unfold proc_destroy. rewrite Hp. cbn [deref mbind res_bind]. rewrite E. cbn [mbind res_bind]. split; [done|]. split; [done|].
  by apply indexed_delete.
Qed.

(** Only the processes and the directory change. *)
Definition same_rest K K' : Prop :=
  K'.(io) = K.(io) ∧ K'.(spaces) = K.(spaces) ∧ K'.(pids_lock) = K.(pids_lock) ∧ K'.(threads) = K.(threads) ∧ K'.(kproc) = K.(kproc).

Lemma orphan_children_correct cs fuel K D p x l : dir_ok K.(pids) D → indexed D K.(procs) → K.(procs) !! p = Some x → x.(children) = Some l →
  rep l cs → NoDup cs → (∀ c, c ∈ cs → c ≠ 0 ∧ c ≠ x.(pid) ∧ ∃ q y, K.(procs) !! q = Some y ∧ y.(pid) = c) → (length cs < fuel)%nat →
  ∃ K' D' l', orphan_children fuel K p = Ret K' ∧ dir_ok K'.(pids) D' ∧ indexed D' K'.(procs) ∧ same_rest K K' ∧ rep l' [] ∧
    ∀ q, K'.(procs) !! q = if decide (q = p) then Some (set_children x (Some l')) else K.(procs) !! q ≫= orphan cs.
Proof.
  revert fuel K D x l. induction cs as [|c cs IH]; intros fuel K D x l Hd Hi Hp Hl Hr Hnd Hcs Hf; (destruct fuel as [|fuel]; [cbn in Hf; lia|]);
    cbn [orphan_children]; rewrite Hp; cbn [deref mbind res_bind]; rewrite Hl; cbn [deref mbind res_bind]; rewrite (front_correct _ _ Hr); cbn [hd_error mbind res_bind].
  { exists K, D, l. split_and!; try done. intros q. case_decide; [subst; rewrite Hp; by destruct x; cbn in *; subst|].
    destruct (K.(procs) !! q) as [y|]; [|done]. cbn. unfold orphan. by rewrite decide_False by apply not_elem_of_nil. }
  destruct (Hcs c) as (Hc0 & Hcx & q & y & Hq & Ey); [left|]. destruct (ix_proc _ _ Hi _ _ Hq) as [Hdq _]. rewrite Ey in Hdq.
  rewrite (dir_get _ _ c Hd), Hdq. cbn [mbind res_bind]. rewrite Hq. cbn [deref mbind res_bind]. rewrite (proj2 (Z.eqb_eq y.(pid) c)) by done. cbn [kassert mbind res_bind].
  assert (q ≠ p) as Hqp by (intros ->; simplify_eq). apply NoDup_cons in Hnd as [Hnc Hnd].
  destruct (pop_front_correct _ _ Hr) as (l1 & El1 & Hr1). cbn [List.tl] in Hr1.
  assert (∃ K1 D1, (if y.(exited) then proc_destroy K q else Ret (put_proc K q (set_parent y (-1)))) = Ret K1 ∧ dir_ok K1.(pids) D1 ∧ indexed D1 K1.(procs) ∧
    same_rest K K1 ∧ ∀ r, K1.(procs) !! r = if decide (r = q) then orphan [c] y else K.(procs) !! r) as (K1 & D1 & -> & Hd1 & Hi1 & Hs1 & Hl1).
  { unfold orphan. rewrite decide_True by (rewrite Ey; left). destruct y.(exited) eqn:Eex.
    - destruct (proc_destroy_correct K D q y Hd Hi Hq) as (tree & -> & Hd' & Hi'); [congruence|]. eexists _, _. split; [done|]. split_and!; try done.
      intros r. cbn. case_decide; [subst; apply lookup_delete_eq|by apply lookup_delete_ne].
    - eexists _, D. split; [done|]. split; [done|]. split; [by eapply indexed_put|]. split; [done|]. intros r. cbn. case_decide; [subst; apply lookup_insert_eq|by apply lookup_insert_ne]. }
  cbn [mbind res_bind]. rewrite El1. cbn [mbind res_bind]. assert (K1.(procs) !! p = Some x) as Hp1 by (rewrite Hl1, decide_False by done; done).
  rewrite Hp1. cbn [deref mbind res_bind].
  destruct (IH fuel (put_proc K1 p (set_children x (Some l1))) D1 (set_children x (Some l1)) l1) as (K2 & D2 & l2 & E2 & Hd2 & Hi2 & Hs2 & Hr2 & Hl2).
  - done.
  - by eapply indexed_put.
  - cbn. apply lookup_insert_eq.
  - done.
  - done.
  - done.
  - intros c' Hc'. destruct (Hcs c') as (? & ? & q' & y' & Hq' & Ey'); [by right|]. split; [done|]. split; [done|]. exists q', y'. split; [|done].
    assert (q' ≠ p) by (intros ->; simplify_eq). assert (q' ≠ q) by (intros ->; simplify_eq). cbn. rewrite lookup_insert_ne, Hl1, decide_False by done. done.
  - cbn in Hf. lia.
  - exists K2, D2, l2. split_and!; try done.
    + destruct Hs1 as (? & ? & ? & ? & ?), Hs2 as (? & ? & ? & ? & ?). cbn in *. split_and!; congruence.
    + intros r. rewrite Hl2. case_decide as Er; [done|]. cbn. rewrite lookup_insert_ne, Hl1 by done. case_decide as Erq.
      * subst r. rewrite Hq. cbn. unfold orphan. rewrite !decide_True by (rewrite Ey; left). destruct y.(exited); [done|]. cbn.
        rewrite decide_False; [done|]. cbn. by rewrite Ey.
      * destruct (K.(procs) !! r) as [z|] eqn:Ez; [|done]. cbn. unfold orphan. case_decide as C1; case_decide as C2; try done.
        -- by exfalso; apply C2; right.
        -- apply elem_of_cons in C2 as [Hz|]; [|done]. destruct Erq. eapply (indexed_inj D K.(procs)); [done..|]. congruence.
Qed.

(** ** What processes hold *)

(** Processes that change in something else, or go after they have exited. *)
Definition same_holds (x y : proc) : Prop :=
  y.(p_addrspace) = x.(p_addrspace) ∧ y.(p_cwd) = x.(p_cwd) ∧ y.(p_files) = x.(p_files) ∧ y.(p_next_fd) = x.(p_next_fd) ∧ y.(exited) = x.(exited).

Lemma holds_procs (k : kst S) (m : M) ps ps' G : holds_ok k m ps G →
  (∀ q y, ps' !! q = Some y → ∃ x, ps !! q = Some x ∧ same_holds x y) →
  (∀ q x, ps !! q = Some x → x.(exited) = false → is_Some (ps' !! q)) → holds_ok k m ps' G.
Proof.
  intros [Hh Hf Hc Hfi Hho Hsp Hsd Hbl] H1 H2. split; try done.
  - intros p y Hy Ey. destruct (H1 _ _ Hy) as (x & Hx & Ea & Ec & Ef & En & Ex). destruct (Hfi p x Hx) as (h & P & ? & ? & ? & ? & ?); [congruence|].
    exists h, P. rewrite Ec, Ef, En. done.
  - intros p Hp. destruct (Hho p Hp) as (x & Hx & Ex). destruct (H2 _ _ Hx Ex) as [y Hy]. exists y. split; [done|].
    destruct (H1 _ _ Hy) as (x' & Hx' & _ & _ & _ & _ & E). congruence.
  - intros p y Hy. destruct (H1 _ _ Hy) as (x & Hx & -> & _). eauto.
  - intros p q y y' Hy Hy'. destruct (H1 _ _ Hy) as (x & Hx & -> & _), (H1 _ _ Hy') as (x' & Hx' & -> & _). eauto.
Qed.

(** The files of a process, beside what the others hold. *)
Lemma holds_split (k : kst S) (m : M) ps G p x : holds_ok k m ps G → ps !! p = Some x → x.(exited) = false →
  ∃ h P, x.(p_files) = Some h ∧ G !! p = Some (x.(p_cwd), P) ∧ 3 ≤ x.(p_next_fd) < 2 ^ 31 ∧ (∀ fd, is_Some (P !! fd) → fd < x.(p_next_fd)) ∧
    ok (opt_ref x.(p_cwd) ++ held k.(k_blocks) (delete p G)) k (Ftab h x.(p_next_fd)) P.
Proof.
  intros Hho Hp Ex. destruct (ho_files _ _ _ _ Hho _ _ Hp Ex) as (h & P & Ef & Hg & Ht & Hn & Hfd). exists h, P. split_and!; try done; try lia.
  split; [apply Hho|apply Hho|done|]. eapply counted_perm; [|apply (ho_counted _ _ _ _ Hho)]. intros w.
  rewrite (held_delete _ _ _ _ w Hg). unfold holds_of. cbn [fst snd]. rewrite !cnt_app. lia.
Qed.

(** The control blocks of the other processes are not those of the process. *)
Lemma held_others (k k' : kst S) (m : M) ps G p v P : holds_ok k m ps G → G !! p = Some (v, P) → others_kept P k.(k_blocks) k'.(k_blocks) →
  (∀ q g fd c, delete p G !! q = Some g → g.2 !! fd = Some c → k'.(k_blocks) !! c = k.(k_blocks) !! c) ∧
  held k'.(k_blocks) (delete p G) = held k.(k_blocks) (delete p G).
Proof.
  intros Hho Hg Hk. assert (∀ q g fd c, delete p G !! q = Some g → g.2 !! fd = Some c → k'.(k_blocks) !! c = k.(k_blocks) !! c) as Hsame.
  { intros q g fd c [Hne Hq]%lookup_delete_Some Hc. apply Hk.
    - destruct (ho_holder _ _ _ _ Hho q) as (x & Hx & Ex); [by eexists|]. destruct (ho_files _ _ _ _ Hho _ _ Hx Ex) as (h & P' & _ & Hg' & Ht & _).
      simplify_eq. cbn in Hc. destruct (tab_fd _ _ _ Ht _ _ Hc) as (_ & b & ? & _). by eexists.
    - intros fd' Hc'. apply Hne. by eapply (ho_blocks _ _ _ _ Hho p q). }
  split; [done|]. by apply held_blocks.
Qed.

(** A process gives up all that it holds. *)
Lemma holds_exit (k k' : kst S) (m m' : M) ps ps' G p v P t : holds_ok k m ps G → G !! p = Some (v, P) → others_kept P k.(k_blocks) k'.(k_blocks) →
  ok (held k.(k_blocks) (delete p G)) k' t ∅ → as_live m' = as_live m → (∀ q, q ≠ p → ps' !! q = ps !! q) →
  (∀ y, ps' !! p = Some y → y.(exited) = true ∧ y.(p_addrspace) = 0) → holds_ok k' m' ps' (delete p G).
Proof.
  intros Hho Hg Hk Hok Hm Hne Hp. destruct (held_others _ _ _ _ _ _ _ _ Hho Hg Hk) as [Hsame Eheld].
  assert (∀ q y, ps' !! q = Some y → q = p ∧ y.(exited) = true ∧ y.(p_addrspace) = 0 ∨ q ≠ p ∧ ps !! q = Some y) as Hcase.
  { intros q y Hy. destruct (decide (q = p)) as [->|Hn]; [left; by destruct (Hp _ Hy)|right]. by rewrite <-Hne. }
  destruct Hok as [H1 H2 _ H4]. split.
  - done.
  - done.
  - rewrite Eheld. eapply counted_perm; [|exact H4]. intros w. rewrite cnt_app. pose proof (cnt_nonneg w (nodes (view k'.(k_blocks) ∅))). lia.
  - intros q y Hy Ey. destruct (Hcase _ _ Hy) as [(-> & ? & _)|[Hn Hy']]; [congruence|].
    destruct (ho_files _ _ _ _ Hho _ _ Hy' Ey) as (h & P' & ? & Hg' & Ht & ? & ?). exists h, P'. rewrite lookup_delete_ne by done. split; [done|]. split; [done|]. split; [|done].
    apply (tab_ok_blocks k.(k_blocks)); [done|]. intros fd c Hc. apply (Hsame q (y.(p_cwd), P') fd); [by rewrite lookup_delete_ne|done].
  - intros q [g [Hn Hq]%lookup_delete_Some]. rewrite Hne by done. apply (ho_holder _ _ _ _ Hho). by eexists.
  - intros q y Hy Ha. rewrite Hm. destruct (Hcase _ _ Hy) as [(_ & _ & ?)|[_ Hy']]; [done|]. by eapply (ho_space _ _ _ _ Hho).
  - intros q r y z Hy Hz Ha E. destruct (Hcase _ _ Hy) as [(_ & _ & ?)|[_ Hy']]; [done|]. destruct (Hcase _ _ Hz) as [(_ & _ & ?)|[_ Hz']]; [congruence|].
    by eapply (ho_spaces _ _ _ _ Hho q r).
  - intros q r g g' fd fd' c [_ Hq]%lookup_delete_Some [_ Hr]%lookup_delete_Some. by apply (ho_blocks _ _ _ _ Hho).
Qed.

(** ** Closing all files *)

Lemma others_kept_trans P P' bl bl1 bl2 : others_kept P bl bl1 → others_kept P' bl1 bl2 → P' ⊆ P → others_kept P bl bl2.
Proof.
  intros H1 H2 Hsub p Hp Hn. rewrite <-(H1 p Hp Hn). apply H2; [by rewrite (H1 p Hp Hn)|]. intros fd Hfd. apply (Hn fd). by eapply lookup_weaken.
Qed.

Lemma close_files_correct R n i k h nf P : ok R k (Ftab h nf) P → 0 ≤ i → i + Z.of_nat n ≤ 2 ^ 31 →
  ∃ k' h' P', close_files n i k (Ftab h nf) = Ret (k', Ftab h' nf) ∧ ok R k' (Ftab h' nf) P' ∧ k'.(k_mem) = k.(k_mem) ∧
    (∀ fd, P' !! fd = if decide (i ≤ fd < i + Z.of_nat n) then None else P !! fd) ∧ others_kept P k.(k_blocks) k'.(k_blocks).
Proof.
  revert i k h P. induction n as [|n IH]; intros i k h P Hk Hi Hn; cbn [close_files].
  { exists k, h, P. split_and!; try done. intros fd. by rewrite decide_False by lia. }
  destruct (close_from_correct R k _ P i Hk) as (r & e & k1 & [h1 nf1] & -> & Hk1 & _ & En & Em & _ & Hkept & _); [lia|]. cbn [mbind res_bind next_fd] in *. subst nf1.
  destruct (IH (i + 1) k1 h1 (delete i P) Hk1) as (k2 & h2 & P2 & -> & Hk2 & Em2 & HP & Hkept2); [lia..|].
  exists k2, h2, P2. split_and!; try done; [congruence| |eapply others_kept_trans; [done..|apply delete_subseteq]].
  intros fd. rewrite HP. destruct (decide (fd = i)) as [->|]; [rewrite lookup_delete_eq; by case_decide; case_decide; try lia|].
  rewrite lookup_delete_ne by done. case_decide; case_decide; try done; lia.
Qed.

(** ** Detaching *)

(** The directory of a process that gives up its reference. *)
Lemma holds_cwd (k : kst S) (m : M) ps G p x P : holds_ok k m ps G → ps !! p = Some x → x.(exited) = false → G !! p = Some (x.(p_cwd), P) → x.(p_cwd) ≠ 0 →
  ∃ s, vnode_decref k.(k_fs) x.(p_cwd) = Ret s ∧ holds_ok (set_fs k s) m (<[p := set_p_cwd x 0]> ps) (<[p := (0, P)]> G).
Proof.
  intros Hho Hp Ex Hg Hv. destruct Hho as [Hh Hf Hc Hfi Hhd Hsp Hsd Hbl].
  destruct (close_correct k.(k_fs) x.(p_cwd) (nodes (view k.(k_blocks) P) ++ held k.(k_blocks) (delete p G)) Hf Hv) as (s & E & Hs & Hcs & _).
  { eapply counted_perm; [|exact Hc]. intros w. rewrite (held_delete _ _ _ _ w Hg). unfold holds_of, opt_ref. cbn [fst snd]. rewrite decide_False by done.
    rewrite app_comm_cons, !cnt_app. change (x.(p_cwd) :: nodes (view k.(k_blocks) P)) with ([x.(p_cwd)] ++ nodes (view k.(k_blocks) P)). rewrite cnt_app. lia. }
  exists s. split; [done|]. assert (∀ q y, <[p := set_p_cwd x 0]> ps !! q = Some y → ∃ z, ps !! q = Some z ∧ y.(p_addrspace) = z.(p_addrspace)) as Hsame.
  { intros q y [[<- <-]|[_ Hq]]%lookup_insert_Some; by eexists. }
  assert (∀ q g, <[p := (0, P)]> G !! q = Some g → ∃ g', G !! q = Some g' ∧ g'.2 = g.2) as Hsame2 by (intros q g [[<- <-]|[_ Hq]]%lookup_insert_Some; by eexists).
  split; cbn [set_fs k_heap k_fs k_blocks].
  - done.
  - done.
  - rewrite <-insert_delete_eq. eapply counted_perm; [|exact Hcs]. intros w. rewrite held_insert by apply lookup_delete_eq. done.
  - intros q y [[<- <-]|[Hne Hq]]%lookup_insert_Some Ey.
    + destruct (Hfi _ _ Hp Ex) as (h & P2 & ? & Hg2 & ?). rewrite Hg in Hg2. injection Hg2 as <-. exists h, P. cbn. by rewrite lookup_insert_eq.
    + destruct (Hfi _ _ Hq Ey) as (h & P' & ? & Hg' & ?). exists h, P'. by rewrite lookup_insert_ne.
  - intros q Hq. rewrite lookup_insert_is_Some in Hq. destruct (decide (q = p)) as [->|]; [eexists; by rewrite lookup_insert_eq|].
    rewrite lookup_insert_ne by done. apply Hhd. by destruct Hq as [?|[_ ?]].
  - intros q y Hq. destruct (Hsame _ _ Hq) as (z & Hz & ->). eauto.
  - intros q r y z Hq Hr. destruct (Hsame _ _ Hq) as (y' & Hy & ->), (Hsame _ _ Hr) as (z' & Hz & ->). eauto.
  - intros q r g g' fd fd' c Hq Hr. destruct (Hsame2 _ _ Hq) as (? & ? & <-), (Hsame2 _ _ Hr) as (? & ? & <-). eauto.
Qed.

Lemma holds_space (k : kst S) (m : M) ps G p x : holds_ok k m ps G → ps !! p = Some x → x.(p_addrspace) ≠ 0 →
  ∃ m', as_destroy m x.(p_addrspace) = Ret m' ∧ holds_ok k m' (<[p := set_addrspace x 0]> ps) G.
Proof.
  intros [Hh Hf Hc Hfi Hhd Hsp Hsd Hbl] Hp Ha. destruct (law_as_destroy m x.(p_addrspace)) as (m' & E & Hm); [by eapply Hsp|].
  exists m'. split; [done|]. split; try done.
  - intros q y [[<- <-]|[Hne Hq]]%lookup_insert_Some Ey; [exact (Hfi _ _ Hp Ey)|by apply Hfi].
  - intros q Hq. destruct (Hhd q Hq) as (y & Hy & Ey). destruct (decide (q = p)) as [->|]; [|exists y; by rewrite lookup_insert_ne].
    rewrite lookup_insert_eq. eexists. split; [done|]. cbn. congruence.
  - intros q y [[<- <-]|[Hne Hq]]%lookup_insert_Some Ey; [done|]. rewrite Hm. apply elem_of_difference. split; [by eapply Hsp|].
    rewrite elem_of_singleton. intros E'. apply Hne. symmetry. by eapply (Hsd q p).
  - intros q r y z [[<- <-]|[Hne Hq]]%lookup_insert_Some [[<- <-]|[Hne' Hr]]%lookup_insert_Some Hy E'; cbn in *; try done; by eapply (Hsd q r).
Qed.

Definition detached (x : proc) : proc := set_addrspace (set_p_cwd x 0) 0.

Lemma proc_detatch_correct K G p x P : holds_ok K.(io) K.(spaces) K.(procs) G → K.(procs) !! p = Some x → x.(exited) = false → x.(p_numthreads) = 0 →
  p ≠ K.(kproc) → G !! p = Some (x.(p_cwd), P) →
  ∃ k m, proc_detatch K p = Ret (Kernel k m K.(pids) K.(pids_lock) (<[p := detached x]> K.(procs)) K.(threads) K.(kproc)) ∧ k.(k_mem) = K.(io).(k_mem) ∧
    holds_ok k m (<[p := detached x]> K.(procs)) (<[p := (0, P)]> G).
Proof.
  intros Hho Hp Ex Hn Hkp Hg. destruct K as [k m tree lock ps ths kp]. cbn [io spaces procs pids pids_lock threads kproc] in *.
  unfold proc_detatch. cbn [kproc procs]. rewrite bool_decide_eq_false_2 by done. cbn [negb kassert mbind res_bind]. rewrite Hp. cbn [deref mbind res_bind].
  assert (∃ k', (if negb (x.(p_cwd) =? 0) then
      s ← vnode_decref k.(k_fs) x.(p_cwd);
      Ret (put_proc (set_io (Kernel k m tree lock ps ths kp) (set_fs k s)) p (set_p_cwd x 0), set_p_cwd x 0)
    else Ret (Kernel k m tree lock ps ths kp, x)) = Ret (Kernel k' m tree lock (<[p := set_p_cwd x 0]> ps) ths kp, set_p_cwd x 0) ∧ k'.(k_mem) = k.(k_mem) ∧
    holds_ok k' m (<[p := set_p_cwd x 0]> ps) (<[p := (0, P)]> G)) as (k' & E1 & Em & Hho1).
  { destruct (Z.eqb_spec x.(p_cwd) 0) as [E0|E0]; cbn [negb].
    - exists k. replace (set_p_cwd x 0) with x by (by destruct x; cbn in *; subst). rewrite E0 in Hg. by rewrite !insert_id.
    - destruct (holds_cwd _ _ _ _ _ _ _ Hho Hp Ex Hg E0) as (s & -> & Hho1). by exists (set_fs k s). }
  cbn [io k_fs] in *. rewrite E1. cbn [mbind res_bind].
  change (set_p_cwd x 0).(p_addrspace) with x.(p_addrspace). destruct (Z.eqb_spec x.(p_addrspace) 0) as [E0|E0]; cbn [negb].
  - exists k', m. cbn [mbind res_bind set_p_cwd p_numthreads]. rewrite Hn. cbn [Z.eqb kassert mbind res_bind].
    replace (detached x) with (set_p_cwd x 0) by (unfold detached; by destruct x; cbn in *; subst). done.
  - destruct (holds_space _ _ _ _ p (set_p_cwd x 0) Hho1) as (m' & E2 & Hho2); [apply lookup_insert_eq|done|].
    cbn [set_p_cwd p_addrspace spaces] in E2 |- *. rewrite E2. cbn [mbind res_bind set_addrspace set_p_cwd p_numthreads]. rewrite Hn. cbn [Z.eqb kassert mbind res_bind].
    exists k', m'. unfold put_proc, set_procs, set_spaces. cbn [io spaces pids pids_lock procs threads kproc]. rewrite insert_insert_eq in *. done.
Qed.

End Inv.

(** ** The forest when a process exits *)

Lemma wake_proc p th : (wake p th).(t_proc) = th.(t_proc).
Proof. unfold wake. destruct th as [o [w|]]; cbn; [by case_bool_decide|done]. Qed.

Lemma wake_wait p th w' : (wake p th).(t_wait) = Some w' → ∃ w, th.(t_wait) = Some w ∧ w'.(w_pid) = w.(w_pid) ∧ w'.(w_child) = w.(w_child) ∧
  w'.(w_status) = w.(w_status) ∧ w'.(w_woken) = w.(w_woken) || bool_decide (th.(t_proc) = Some p).
Proof.
  unfold wake. destruct th as [o [w|]]; cbn; [|done]. case_bool_decide; cbn; intros [= <-]; exists w; split_and!; try done; [by rewrite orb_true_r|by rewrite orb_false_r].
Qed.

Section Exit.
Context (D : gmap Z positive) (ps : gmap positive proc) (ths : gmap positive thread) (kp p : positive) (x : proc) (cs : list Z).
Context (Hi : indexed D ps) (Ht : tree_ok ps ths kp) (Hp : ps !! p = Some x) (Ex : x.(exited) = false) (Hkp : p ≠ kp)
  (Hnone : ∀ t th, ths !! t = Some th → th.(t_proc) ≠ Some p)
  (Hcs : ∀ c, c ∈ cs ↔ ∃ q y, ps !! q = Some y ∧ y.(pid) = c ∧ y.(parent) = x.(pid)).

Lemma pid_nonneg q y : ps !! q = Some y → 0 ≤ y.(pid).
Proof. intros Hq. by destruct (ix_proc _ _ Hi _ _ Hq). Qed.

Lemma child_iff q y : ps !! q = Some y → y.(pid) ∈ cs ↔ y.(parent) = x.(pid).
Proof.
  intros Hq. rewrite Hcs. split; [|intros E; by exists q, y]. intros (r & z & Hr & E & Ez).
  assert (r = q) as -> by (by eapply (indexed_inj D ps)). congruence.
Qed.

(** The processes afterwards: the exiting one is [z]. *)
Context (ps' : gmap positive proc) (z : option proc) (Hps : ∀ q, ps' !! q = if decide (q = p) then z else ps !! q ≫= orphan cs).

Lemma orphaned_inv q y' : q ≠ p → ps' !! q = Some y' → ∃ y, ps !! q = Some y ∧ y'.(exited) = y.(exited) ∧
  (y.(parent) ≠ x.(pid) ∧ y' = y ∨ y.(parent) = x.(pid) ∧ y.(exited) = false ∧ y' = set_parent y (-1)).
Proof.
  intros Hne. rewrite Hps, decide_False by done. intros (y & Hy & Ho)%bind_Some. exists y. split; [done|]. unfold orphan in Ho.
  pose proof (child_iff _ _ Hy) as Hc. case_decide as Hin; [|simplify_eq; split; [done|]; left; naive_solver].
  destruct y.(exited) eqn:E; [done|]. simplify_eq. split; [done|]. right. naive_solver.
Qed.

Lemma orphaned_run q y : q ≠ p → ps !! q = Some y → y.(exited) = false → ∃ y', ps' !! q = Some y' ∧ y'.(exited) = false ∧ y'.(pid) = y.(pid) ∧ y'.(waitpid) = y.(waitpid).
Proof.
  intros Hne Hy Ey. rewrite Hps, decide_False, Hy by done. cbn. unfold orphan. rewrite Ey. case_decide; by eexists.
Qed.

Lemma orphaned_keep q y : q ≠ p → ps !! q = Some y → y.(parent) ≠ x.(pid) → ps' !! q = Some y.
Proof.
  intros Hne Hy Hpar. rewrite Hps, decide_False, Hy by done. cbn. unfold orphan. rewrite decide_False; [done|]. by rewrite (child_iff _ _ Hy).
Qed.

Lemma other_pid q y : q ≠ p → ps !! q = Some y → y.(pid) ≠ x.(pid).
Proof. intros Hne Hy E. apply Hne. by eapply (indexed_inj D ps). Qed.

(** Without a parent the process is gone; with one it has its exit code. *)
Context (Hz : match z with None => x.(parent) = -1 | Some z => x.(parent) ≠ -1 ∧ z.(pid) = x.(pid) ∧ z.(parent) = x.(parent) ∧ z.(exited) = true end).

Lemma exit_children q y : q ≠ p → ps !! q = Some y → lists_children ps y → lists_children ps' y.
Proof.
  intros Hne Hy (l & cs' & El & Hr & Hnd & Hc). exists l, cs'. split; [done|]. split; [done|]. split; [done|]. intros c. rewrite Hc.
  pose proof (other_pid _ _ Hne Hy). pose proof (pid_nonneg _ _ Hy). split.
  - intros (r & w & Hr' & Ew & Ep). destruct (decide (r = p)) as [->|Hrp].
    + rewrite Hp in Hr'. injection Hr' as <-. destruct z as [z'|] eqn:Ez; [|lia]. destruct Hz as (_ & E1 & E2 & _). exists p, z'.
      rewrite Hps, decide_True by done. split_and!; [done|congruence|congruence].
    + exists r, w. split; [|done]. apply orphaned_keep; [done..|congruence].
  - intros (r & w' & Hr' & Ew & Ep). destruct (decide (r = p)) as [->|Hrp].
    + rewrite Hps, decide_True in Hr' by done. rewrite Hr' in Hz. destruct Hz as (_ & E1 & E2 & _). exists p, x. split_and!; [done|congruence|congruence].
    + destruct (orphaned_inv _ _ Hrp Hr') as (w & Hw & _ & [[_ ->]|(_ & _ & ->)]); [by exists r, w|cbn in Ep; lia].
Qed.

(** The threads afterwards: those that wait for the process have been woken. *)
Context (f : thread → thread) (Hfp : ∀ th, (f th).(t_proc) = th.(t_proc))
  (Hfw : ∀ t th w', ths !! t = Some th → (f th).(t_wait) = Some w' → ∃ w, th.(t_wait) = Some w ∧ w'.(w_pid) = w.(w_pid) ∧ w'.(w_child) = w.(w_child) ∧
    w'.(w_status) = w.(w_status) ∧ w'.(w_woken) = w.(w_woken) || bool_decide (w.(w_child) = p)).

Lemma exit_waits q w w' : q ≠ p → waits_well ps q w → w'.(w_pid) = w.(w_pid) → w'.(w_child) = w.(w_child) →
  w'.(w_status) = w.(w_status) → w'.(w_woken) = w.(w_woken) || bool_decide (w.(w_child) = p) → (∃ y, ps !! q = Some y ∧ y.(exited) = false) → waits_well ps' q w'.
Proof.
  intros Hne (y & c & Hy & Ew & Hc & Ec & Ep & Ewk & Hst) E1 E2 E4 E3 (y0 & Hy0 & Ey0). simplify_eq.
  destruct (orphaned_run _ _ Hne Hy Ey0) as (y' & Hy' & _ & Epid & Ewait). pose proof (other_pid _ _ Hne Hy). pose proof (pid_nonneg _ _ Hy).
  unfold waits_well. rewrite E1, E2, E3, E4, Hy'. destruct (decide (w.(w_child) = p)) as [Ecp|Hcp].
  - rewrite Ecp in *. rewrite Hp in Hc. injection Hc as <-. rewrite bool_decide_eq_true_2, orb_true_r by done.
    rewrite (Hps p), decide_True by done. destruct z as [z'|]; [|lia]. destruct Hz as (_ & Z1 & Z2 & Z3). exists y', z'. split_and!; congruence.
  - rewrite bool_decide_eq_false_2, orb_false_r by done. exists y', c. split_and!; try congruence. apply orphaned_keep; [done..|congruence].
Qed.

Lemma exit_owner t th q : ths !! t = Some th → th.(t_proc) = Some q → q ≠ p ∧ ∃ y, ps !! q = Some y ∧ y.(exited) = false.
Proof. intros Hth Eq. split; [intros ->; by apply (Hnone t th)|]. by eapply (tr_owner _ _ _ Ht). Qed.

Lemma tree_exit : tree_ok ps' (f <$> ths) kp.
Proof.
  assert (∀ q y', ps' !! q = Some y' → y'.(exited) = false → q ≠ p ∧ ∃ y, ps !! q = Some y ∧ y.(exited) = false ∧
    (y.(parent) ≠ x.(pid) ∧ y' = y ∨ y.(parent) = x.(pid) ∧ y' = set_parent y (-1))) as Hrun.
  { intros q y' Hy' Ey'. assert (q ≠ p) as Hne.
    { intros ->. rewrite Hps, decide_True in Hy' by done. rewrite Hy' in Hz. destruct Hz as (_ & _ & _ & ?). congruence. }
    split; [done|]. destruct (orphaned_inv _ _ Hne Hy') as (y & Hy & E & Hcase). exists y. split; [done|]. split; [congruence|]. naive_solver. }
  split.
  - intros q y' Hy' Ey'. destruct (Hrun _ _ Hy' Ey') as (Hne & y & Hy & Ey & Hcase). pose proof (exit_children _ _ Hne Hy (tr_children _ _ _ Ht _ _ Hy Ey)) as Hc.
    destruct Hcase as [[_ ->]|[_ ->]]; [done|exact Hc].
  - intros q y' Hy' Ey'. destruct (Hrun _ _ Hy' Ey') as (Hne & y & Hy & Ey & Hcase). pose proof (tr_wait _ _ _ Ht _ _ Hy Ey). by destruct Hcase as [[_ ->]|[_ ->]].
  - intros q y' Hy' Ey' Hqk. destruct (Hrun _ _ Hy' Ey') as (Hne & y & Hy & Ey & Hcase).
    assert (threaded (f <$> ths) q y) as Hth; [|by destruct Hcase as [[_ ->]|[_ ->]]].
    destruct (tr_threads _ _ _ Ht _ _ Hy Ey Hqk) as [[En Hno]|(En & t & th & Hth & Eth)]; [left|right].
    + split; [done|]. intros t th' Hth'. rewrite lookup_fmap in Hth'. destruct (ths !! t) as [th|] eqn:E; [|done]. injection Hth' as <-. rewrite Hfp. eauto.
    + split; [done|]. exists t, (f th). by rewrite lookup_fmap, Hth, Hfp.
  - intros q y' Hy' Ey'. destruct (decide (q = p)) as [->|Hne].
    + rewrite Hps, decide_True in Hy' by done. rewrite Hy' in Hz. destruct Hz as (? & _ & ? & _). congruence.
    + destruct (orphaned_inv _ _ Hne Hy') as (y & Hy & E & [[_ ->]|(_ & E0 & _)]); [by eapply (tr_zombie _ _ _ Ht)|congruence].
  - intros q y' Hy' Epar. assert (∃ r y, ps !! r = Some y ∧ y.(pid) = y'.(parent) ∧ y.(exited) = false ∧ r ≠ p) as (r & y & Hy & E & Ey & Hne).
    { destruct (decide (q = p)) as [->|Hne].
      - rewrite Hps, decide_True in Hy' by done. rewrite Hy' in Hz. destruct Hz as (? & _ & E & _). destruct (tr_parent _ _ _ Ht _ _ Hp) as (r & y & Hy & Er & Ey); [done|].
        exists r, y. split_and!; [done|congruence|done|]. intros ->. pose proof (tr_self _ _ _ Ht _ _ Hp). congruence.
      - destruct (orphaned_inv _ _ Hne Hy') as (y & Hy & E & [[Hn ->]|(_ & _ & ->)]); [|by cbn in Epar]. destruct (tr_parent _ _ _ Ht _ _ Hy Epar) as (r & w & Hw & Er & Ew).
        exists r, w. split_and!; try done. intros ->. congruence. }
    destruct (orphaned_run _ _ Hne Hy Ey) as (w & Hw & Ew & Epid & _). exists r, w. split_and!; congruence.
  - intros q y' Hy'. destruct (decide (q = p)) as [->|Hne].
    + rewrite Hps, decide_True in Hy' by done. rewrite Hy' in Hz. destruct Hz as (_ & E1 & E2 & _). rewrite E1, E2. by apply (tr_self _ _ _ Ht p).
    + destruct (orphaned_inv _ _ Hne Hy') as (y & Hy & _ & [[_ ->]|(_ & _ & ->)]); [by apply (tr_self _ _ _ Ht q)|]. cbn. pose proof (pid_nonneg _ _ Hy). lia.
  - destruct (tr_kernel _ _ _ Ht) as (y & Hy & E1 & E2 & E3). exists y. split; [|done]. apply orphaned_keep; [done..|]. pose proof (pid_nonneg _ _ Hp). lia.
  - intros t th' q Hth' Eq. rewrite lookup_fmap in Hth'. destruct (ths !! t) as [th|] eqn:E; [|done]. injection Hth' as <-. rewrite Hfp in Eq.
    destruct (exit_owner _ _ _ E Eq) as (Hne & y & Hy & Ey). destruct (orphaned_run _ _ Hne Hy Ey) as (y' & ? & ? & _). by exists y'.
  - intros t t' th th' q Hth Hth'. rewrite lookup_fmap in Hth, Hth'. destruct (ths !! t) as [a|] eqn:E, (ths !! t') as [a'|] eqn:E'; try done.
    injection Hth as <-. injection Hth' as <-. rewrite !Hfp. intros Ea Ea' Hor. eapply (tr_unique _ _ _ Ht); [done..|]. destruct Hor as [?|[H1 H2]]; [by left|right].
    destruct (f a).(t_wait) as [w|] eqn:Ew; [|done]. destruct (f a').(t_wait) as [w'|] eqn:Ew'; [|done].
    destruct (Hfw _ _ _ E Ew) as (? & -> & _), (Hfw _ _ _ E' Ew') as (? & -> & _). done.
  - intros t th' w' Hth' Ew'. rewrite lookup_fmap in Hth'. destruct (ths !! t) as [th|] eqn:E; [|done]. injection Hth' as <-.
    destruct (Hfw _ _ _ E Ew') as (w & Ew & E1 & E2 & E3 & E4). destruct (tr_waiters _ _ _ Ht _ _ _ E Ew) as (q & Eq & Hq). exists q. rewrite Hfp. split; [done|].
    destruct (exit_owner _ _ _ E Eq). by eapply exit_waits.
Qed.

End Exit.

(** A thread waits for the process [p] when it belongs to the parent, which waits for its pid. *)
Lemma waits_for D ps ths kp p x t th w : indexed D ps → tree_ok ps ths kp → ps !! p = Some x → ths !! t = Some th → th.(t_wait) = Some w →
  w.(w_child) = p ↔ ∃ q y, th.(t_proc) = Some q ∧ ps !! q = Some y ∧ y.(pid) = x.(parent) ∧ y.(waitpid) = x.(pid).
Proof.
  intros Hi Ht Hp Hth Ew. destruct (tr_waiters _ _ _ Ht _ _ _ Hth Ew) as (q & Eq & y & c & Hy & E1 & Hc & E2 & E3 & E4 & _). split.
  - intros E. rewrite E, Hp in Hc. injection Hc as <-. exists q, y. split_and!; congruence.
  - intros (q' & y' & Eq' & Hy' & E5 & E6). simplify_eq. eapply (indexed_inj D ps); [done..|congruence].
Qed.

Section Exits.
Context (D : gmap Z positive) (ps ps' : gmap positive proc) (ths : gmap positive thread) (kp p : positive) (x : proc) (cs : list Z).
Context (Hi : indexed D ps) (Ht : tree_ok ps ths kp) (Hp : ps !! p = Some x) (Ex : x.(exited) = false) (Hkp : p ≠ kp)
  (Hnone : ∀ t th, ths !! t = Some th → th.(t_proc) ≠ Some p)
  (Hcs : ∀ c, c ∈ cs ↔ ∃ q y, ps !! q = Some y ∧ y.(pid) = c ∧ y.(parent) = x.(pid)).

Lemma tree_gone : x.(parent) = -1 → (∀ q, ps' !! q = if decide (q = p) then None else ps !! q ≫= orphan cs) → tree_ok ps' ths kp.
Proof.
  intros Epar Hps. rewrite <-(map_fmap_id ths). apply (tree_exit D ps ths kp p x cs Hi Ht Hp Hkp Hnone Hcs ps' None Hps Epar); [done|].
  intros t th w Hth Ew. exists w. split_and!; try done. rewrite bool_decide_eq_false_2; [by rewrite orb_false_r|]. rewrite (waits_for D ps ths kp p x t th w) by done.
  intros (q & y & _ & Hy & E & _). pose proof (pid_nonneg _ _ Hi _ _ Hy). lia.
Qed.

Lemma tree_zombie par y z : x.(parent) ≠ -1 → ps !! par = Some y → y.(pid) = x.(parent) → z.(pid) = x.(pid) → z.(parent) = x.(parent) → z.(exited) = true →
  (∀ q, ps' !! q = if decide (q = p) then Some z else ps !! q ≫= orphan cs) →
  tree_ok ps' (if y.(waitpid) =? x.(pid) then wake par <$> ths else ths) kp.
Proof.
  intros Epar Hy Ey E1 E2 E3 Hps. assert (x.(parent) ≠ -1 ∧ z.(pid) = x.(pid) ∧ z.(parent) = x.(parent) ∧ z.(exited) = true) as Hz by done.
  assert (∀ t th w, ths !! t = Some th → th.(t_wait) = Some w → w.(w_child) = p ↔ th.(t_proc) = Some par ∧ y.(waitpid) = x.(pid)) as Hw.
  { intros t th w Hth Ew. rewrite (waits_for D ps ths kp p x t th w) by done. split.
    - intros (q & y' & Eq & Hy' & E & E'). assert (q = par) as -> by (eapply (indexed_inj D ps); [done..|congruence]). simplify_eq. done.
    - intros [Eq E]. by exists par, y. }
  destruct (Z.eqb_spec y.(waitpid) x.(pid)) as [E|E].
  - apply (tree_exit D ps ths kp p x cs Hi Ht Hp Hkp Hnone Hcs ps' (Some z) Hps Hz); [apply wake_proc|].
    intros t th w' Hth Ew'. destruct (wake_wait _ _ _ Ew') as (w & Ew & ? & ? & ? & Ewk). exists w. split_and!; try done. rewrite Ewk. f_equal. apply bool_decide_ext.
    rewrite (Hw _ _ _ Hth Ew). naive_solver.
  - rewrite <-(map_fmap_id ths). apply (tree_exit D ps ths kp p x cs Hi Ht Hp Hkp Hnone Hcs ps' (Some z) Hps Hz); [done|].
    intros t th w Hth Ew. exists w. split_and!; try done. rewrite bool_decide_eq_false_2; [by rewrite orb_false_r|]. rewrite (Hw _ _ _ Hth Ew). naive_solver.
Qed.

End Exits.

(** ** Other changes of the forest *)

(** A process that keeps its place in the forest, while threads change. *)
Lemma tree_put ps ths ths' kp p x y : tree_ok ps ths kp → ps !! p = Some x →
  y.(pid) = x.(pid) → y.(parent) = x.(parent) → y.(wait) = x.(wait) → y.(children) = x.(children) → y.(exited) = x.(exited) →
  (∀ q z, <[p := y]> ps !! q = Some z → z.(exited) = false → q ≠ kp → threaded ths' q z) →
  (∀ t th q, ths' !! t = Some th → th.(t_proc) = Some q → ∃ th0, ths !! t = Some th0 ∧ th0.(t_proc) = Some q) →
  (∀ t t' th th', ths' !! t = Some th → ths' !! t' = Some th' → th.(t_proc) = Some kp → th'.(t_proc) = Some kp → th.(t_wait) ≠ None → th'.(t_wait) ≠ None → t = t') →
  (∀ t th w, ths' !! t = Some th → th.(t_wait) = Some w → ∃ q, th.(t_proc) = Some q ∧ waits_well (<[p := y]> ps) q w) →
  tree_ok (<[p := y]> ps) ths' kp.
Proof.
  intros Ht Hp E1 E2 E3 E4 E5 Hth Hown Huni Hw.
  assert (∀ q z, <[p := y]> ps !! q = Some z → ∃ z0, ps !! q = Some z0 ∧ z.(pid) = z0.(pid) ∧ z.(parent) = z0.(parent) ∧ z.(wait) = z0.(wait) ∧
    z.(children) = z0.(children) ∧ z.(exited) = z0.(exited)) as Hold.
  { intros q z [[<- <-]|[_ Hz]]%lookup_insert_Some; [by exists x|by exists z]. }
  assert (∀ q z0, ps !! q = Some z0 → ∃ z, <[p := y]> ps !! q = Some z ∧ z.(pid) = z0.(pid) ∧ z.(parent) = z0.(parent) ∧ z.(exited) = z0.(exited)) as Hnew.
  { intros q z0 Hz. destruct (decide (q = p)) as [->|]; [|exists z0; by rewrite lookup_insert_ne]. exists y. rewrite lookup_insert_eq. simplify_eq. done. }
  split.
  - intros q z Hz Ez. destruct (Hold _ _ Hz) as (z0 & Hz0 & Epid & _ & _ & Ech & Eex). destruct (tr_children _ _ _ Ht _ _ Hz0) as (l & cs & ? & ? & ? & Hc); [congruence|].
    exists l, cs. split_and!; [congruence|done|done|]. intros c. rewrite Hc, Epid. split.
    + intros (r & w & Hr & <- & Ep). destruct (Hnew _ _ Hr) as (w' & ? & ? & ? & _). exists r, w'. split_and!; congruence.
    + intros (r & w & Hr & <- & Ep). destruct (Hold _ _ Hr) as (w' & ? & ? & ? & _). exists r, w'. split_and!; congruence.
  - intros q z Hz Ez. destruct (Hold _ _ Hz) as (z0 & Hz0 & _ & _ & -> & _ & Eex). apply (tr_wait _ _ _ Ht q); congruence.
  - done.
  - intros q z Hz Ez. destruct (Hold _ _ Hz) as (z0 & Hz0 & _ & -> & _ & _ & Eex). apply (tr_zombie _ _ _ Ht q); congruence.
  - intros q z Hz. destruct (Hold _ _ Hz) as (z0 & Hz0 & _ & -> & _ & _ & _). intros Hne. destruct (tr_parent _ _ _ Ht _ _ Hz0 Hne) as (r & w & Hr & ? & ?).
    destruct (Hnew _ _ Hr) as (w' & ? & ? & _ & ?). exists r, w'. split_and!; congruence.
  - intros q z Hz. destruct (Hold _ _ Hz) as (z0 & Hz0 & -> & -> & _). by apply (tr_self _ _ _ Ht q).
  - destruct (tr_kernel _ _ _ Ht) as (z0 & Hz0 & ? & ? & ?). destruct (Hnew _ _ Hz0) as (z & ? & ? & ? & ?). exists z. split_and!; congruence.
  - intros t th q Hq Eq. destruct (Hown _ _ _ Hq Eq) as (th0 & H0 & E0). destruct (tr_owner _ _ _ Ht _ _ _ H0 E0) as (z0 & Hz0 & ?).
    destruct (Hnew _ _ Hz0) as (z & ? & _ & _ & ?). exists z. split; congruence.
  - intros t t' th th' q H1 H2 Eq Eq' Hor. destruct (decide (q = kp)) as [->|Hne]; [destruct Hor as [?|[? ?]]; [done|by eapply Huni]|].
    destruct (Hown _ _ _ H1 Eq) as (a & Ha & Ea), (Hown _ _ _ H2 Eq') as (b & Hb & Eb). eapply (tr_unique _ _ _ Ht t t' a b q); [done..|by left].
  - done.
Qed.

(** A process that waits as before. *)
Lemma waits_put ps p x y q w : ps !! p = Some x → y.(pid) = x.(pid) → y.(parent) = x.(parent) → y.(exited) = x.(exited) →
  (q = p → y.(waitpid) = x.(waitpid)) → waits_well ps q w → waits_well (<[p := y]> ps) q w.
Proof.
  intros Hp E1 E2 E3 E4 (z & c & Hz & ? & Hc & ? & ? & ? & ?).
  assert (∃ z', <[p := y]> ps !! q = Some z' ∧ z'.(pid) = z.(pid) ∧ z'.(waitpid) = z.(waitpid)) as (z' & ? & ? & ?).
  { destruct (decide (q = p)) as [->|]; [exists y; rewrite lookup_insert_eq; simplify_eq; by rewrite E4|exists z; by rewrite lookup_insert_ne]. }
  assert (∃ c', <[p := y]> ps !! w.(w_child) = Some c' ∧ c'.(pid) = c.(pid) ∧ c'.(parent) = c.(parent) ∧ c'.(exited) = c.(exited)) as (c' & ? & ? & ? & ?).
  { destruct (decide (w.(w_child) = p)) as [E|]; [rewrite E in *; rewrite Hp in Hc; injection Hc as <-; exists y; by rewrite lookup_insert_eq|exists c; by rewrite lookup_insert_ne]. }
  exists z', c'. split_and!; congruence.
Qed.

(** A thread leaves its process. *)
Lemma tree_remthread ps ths kp p x t : tree_ok ps ths kp → ps !! p = Some x → x.(exited) = false → p ≠ kp → ths !! t = Some (Thread (Some p) None) →
  x.(p_numthreads) = 1 ∧ tree_ok (<[p := set_numthreads x 0]> ps) (<[t := Thread None None]> ths) kp.
Proof.
  intros Ht Hp Ex Hkp Hth. split; [destruct (tr_threads _ _ _ Ht _ _ Hp Ex Hkp) as [[_ Hno]|[? _]]; [by destruct (Hno _ _ Hth)|done]|].
  assert (∀ t' th q, <[t := Thread None None]> ths !! t' = Some th → th.(t_proc) = Some q → t' ≠ t ∧ ths !! t' = Some th) as Hold.
  { intros t' th q [[<- <-]|[? ?]]%lookup_insert_Some; done. }
  apply (tree_put ps ths _ kp p x); try done.
  - intros q z [[<- <-]|[Hne Hz]]%lookup_insert_Some Ez Hq.
    + left. split; [done|]. intros t' th' Hth' E. destruct (Hold _ _ _ Hth' E) as [Hne Hth2]. apply Hne. symmetry. eapply (tr_unique _ _ _ Ht t t'); [done..|by left].
    + destruct (tr_threads _ _ _ Ht _ _ Hz Ez Hq) as [[En Hno]|(En & t' & th' & Ht' & Eq)]; [left|right]; (split; [done|]).
      * intros t' th' Hth' E. destruct (Hold _ _ _ Hth' E) as [_ Hth2]. by apply (Hno _ _ Hth2).
      * exists t', th'. rewrite lookup_insert_ne; [done|]. intros ->. rewrite Hth in Ht'. injection Ht' as <-. cbn in Eq. congruence.
  - intros t' th q Hth' E. destruct (Hold _ _ _ Hth' E). by exists th.
  - intros t1 t2 th th' H1 H2 E1 E2 ? ?. destruct (Hold _ _ _ H1 E1), (Hold _ _ _ H2 E2). eapply (tr_unique _ _ _ Ht); [done..|by right].
  - intros t' th w [[<- <-]|[? Hth']]%lookup_insert_Some Ew; [done|]. destruct (tr_waiters _ _ _ Ht _ _ _ Hth' Ew) as (q & ? & ?). exists q. split; [done|].
    by apply (waits_put _ _ x).
Qed.

(** A thread without process goes. *)
Lemma tree_drop ps ths kp t th : tree_ok ps ths kp → ths !! t = Some th → th.(t_proc) = None → tree_ok ps (delete t ths) kp.
Proof.
  intros [H1 H2 H3 H4 H5 H6 H7 H8 H9 H10] Hth En. split; try done.
  - intros p x Hp Ex Hk. destruct (H3 _ _ Hp Ex Hk) as [[? Hno]|(? & t' & th' & Ht' & E)]; [left|right]; (split; [done|]).
    + intros t' th' [_ Ht']%lookup_delete_Some. eauto.
    + exists t', th'. rewrite lookup_delete_ne; [done|]. intros ->. congruence.
  - intros t' th' p [_ Ht']%lookup_delete_Some. eauto.
  - intros t1 t2 th1 th2 p [_ Ht1]%lookup_delete_Some [_ Ht2]%lookup_delete_Some. eauto.
  - intros t' th' w [_ Ht']%lookup_delete_Some. eauto.
Qed.

(** ** Waiting *)

(** No thread of the process waits. *)
Definition awake (ths : gmap positive thread) (p : positive) : Prop := ∀ t th, ths !! t = Some th → th.(t_proc) = Some p → th.(t_wait) = None.

(** A thread starts or ends to wait. *)
Lemma tree_setwait ps ths kp p t th o : tree_ok ps ths kp → ths !! t = Some th → th.(t_proc) = Some p →
  (o ≠ None → ∀ t' th', t' ≠ t → ths !! t' = Some th' → th'.(t_proc) = Some p → th'.(t_wait) = None) → (∀ w, o = Some w → waits_well ps p w) →
  tree_ok ps (<[t := Thread (Some p) o]> ths) kp.
Proof.
  intros Ht Hth Ep Hno Hw. assert (∀ t' th' q, <[t := Thread (Some p) o]> ths !! t' = Some th' → th'.(t_proc) = Some q → ∃ th0, ths !! t' = Some th0 ∧ th0.(t_proc) = Some q) as Hold.
  { intros t' th' q [[<- <-]|[_ Ht']]%lookup_insert_Some; cbn; [intros [= <-]; by exists th|by exists th']. }
  assert (∀ p0 x, ps !! p0 = Some x → x.(exited) = false → p0 ≠ kp → threaded (<[t := Thread (Some p) o]> ths) p0 x) as Hthr.
  { intros p0 x Hp0 Ex Hk. destruct (tr_threads _ _ _ Ht _ _ Hp0 Ex Hk) as [[? Hn]|(? & t' & th' & Ht' & E)]; [left|right]; (split; [done|]).
    - intros t' th' Ht' E. destruct (Hold _ _ _ Ht' E) as (th0 & ? & ?). by apply (Hn t' th0).
    - destruct (decide (t' = t)) as [->|]; [|exists t', th'; by rewrite lookup_insert_ne]. exists t, (Thread (Some p) o). rewrite lookup_insert_eq. cbn. split; [done|]. congruence. }
  destruct Ht as [H1 H2 H3 H4 H5 H6 H7 H8 H9 H10]. split; try done.
  - intros t' th' q Ht' E. destruct (Hold _ _ _ Ht' E) as (th0 & ? & ?). eauto.
  - intros t1 t2 th1 th2 q Ht1 Ht2 E1 E2 Hor. destruct (decide (q = kp)) as [->|Hk].
    2: { destruct (Hold _ _ _ Ht1 E1) as (a & ? & ?), (Hold _ _ _ Ht2 E2) as (b & ? & ?). eapply (H9 t1 t2 a b q); auto. }
    destruct Hor as [?|[W1 W2]]; [done|]. apply lookup_insert_Some in Ht1 as [[<- <-]|[Hn1 Ht1]], Ht2 as [[<- <-]|[Hn2 Ht2]]; cbn in *; simplify_eq; try done.
    + destruct W2. by apply (Hno W1 t2 th2).
    + destruct W1. by apply (Hno W2 t1 th1).
    + eapply (H9 t1 t2 th1 th2); eauto.
  - intros t' th' w [[<- <-]|[_ Ht']]%lookup_insert_Some Ew; cbn in *; [|by eapply H10]. exists p. auto.
Qed.

(** A process of which no thread waits is given another pid to wait for. *)
Lemma tree_waitpid ps ths kp p x q : tree_ok ps ths kp → ps !! p = Some x → awake ths p → tree_ok (<[p := set_waitpid x q]> ps) ths kp.
Proof.
  intros Ht Hp Hno. apply (tree_put ps ths ths kp p x); try done.
  - intros r z [[<- <-]|[_ Hz]]%lookup_insert_Some; [exact (tr_threads _ _ _ Ht _ _ Hp)|by apply (tr_threads _ _ _ Ht)].
  - eauto.
  - intros t t' th th' ? ? ? ? ? ?. eapply (tr_unique _ _ _ Ht t t' th th' kp); auto.
  - intros t th w Hth Ew. destruct (tr_waiters _ _ _ Ht _ _ _ Hth Ew) as (r & Er & Hr). exists r. split; [done|]. apply (waits_put _ _ x); try done.
    intros ->. rewrite (Hno _ _ Hth Er) in Ew. done.
Qed.

(** A child that has exited goes, and its pid from the list of the parent. *)
Lemma tree_reap D ps ths kp p x ch c l cs l' ys : indexed D ps → tree_ok ps ths kp → ps !! p = Some x → x.(exited) = false → awake ths p →
  ps !! ch = Some c → c.(parent) = x.(pid) → c.(exited) = true → x.(children) = Some l → rep l cs → NoDup cs →
  (∀ i, i ∈ cs ↔ ∃ q y, ps !! q = Some y ∧ y.(pid) = i ∧ y.(parent) = x.(pid)) → rep l' ys → c.(pid) :: ys ≡ₚ cs →
  tree_ok (<[p := set_children x (Some l')]> (delete ch ps)) ths kp.
Proof.
  intros Hi Ht Hp Ex Hno Hch Ec Ecx Hl Hr Hnd Hcs Hr' Hys. assert (ch ≠ p) as Hcp by (intros ->; congruence).
  assert (∀ q y, <[p := set_children x (Some l')]> (delete ch ps) !! q = Some y → q = p ∧ y = set_children x (Some l') ∨ q ≠ p ∧ q ≠ ch ∧ ps !! q = Some y) as Hold.
  { intros q y [[<- <-]|[? [? ?]%lookup_delete_Some]]%lookup_insert_Some; [by left|by right]. }
  assert (∀ q y, ps !! q = Some y → q ≠ ch → ∃ y', <[p := set_children x (Some l')]> (delete ch ps) !! q = Some y' ∧ y'.(pid) = y.(pid) ∧ y'.(parent) = y.(parent) ∧
    y'.(exited) = y.(exited) ∧ y'.(waitpid) = y.(waitpid)) as Hnew.
  { intros q y Hq Hne. destruct (decide (q = p)) as [->|]; [|exists y; by rewrite lookup_insert_ne, lookup_delete_ne by done]. simplify_eq.
    eexists. by rewrite lookup_insert_eq. }
  assert (NoDup (c.(pid) :: ys)) as [Hnin Hnd']%NoDup_cons by (by rewrite Hys).
  assert (∀ y i, (∃ q z, <[p := set_children x (Some l')]> (delete ch ps) !! q = Some z ∧ z.(pid) = i ∧ z.(parent) = y) ↔
    ∃ q z, ps !! q = Some z ∧ z.(pid) = i ∧ z.(parent) = y ∧ q ≠ ch) as Hiff.
  { intros y i. split.
    - intros (q & z & Hq & E1 & E2). destruct (Hold _ _ Hq) as [[-> ->]|(? & ? & ?)]; [by exists p, x|by exists q, z].
    - intros (q & z & Hq & E1 & E2 & Hne). destruct (Hnew _ _ Hq Hne) as (z' & ? & ? & ? & _). exists q, z'. split_and!; congruence. }
  split.
  - intros q y Hq Ey. destruct (Hold _ _ Hq) as [[-> ->]|(Hqp & Hqc & Hy)].
    + exists l', ys. split_and!; try done. intros i. rewrite Hiff. cbn. trans (i ∈ cs ∧ i ≠ c.(pid)).
      { rewrite <-Hys, elem_of_cons. split; [intros Hin; split; [by right|by intros ->]|naive_solver]. }
      rewrite Hcs. split.
      * intros [(r & z & Hz & E1 & E2) Hne]. exists r, z. split_and!; try done. intros ->. congruence.
      * intros (r & z & Hz & E1 & E2 & Hne). split; [by exists r, z|]. intros E. apply Hne. eapply (indexed_inj D ps); [done..|congruence].
    + destruct (tr_children _ _ _ Ht _ _ Hy Ey) as (l0 & cs0 & ? & ? & ? & Hc0). exists l0, cs0. split_and!; try done. intros i. rewrite Hiff, Hc0. split.
      * intros (r & z & Hz & E1 & E2). exists r, z. split_and!; try done. intros ->. rewrite Hch in Hz. injection Hz as <-. apply Hqp. eapply (indexed_inj D ps); [done..|congruence].
      * intros (r & z & Hz & E1 & E2 & _). by exists r, z.
  - intros q y Hq Ey. destruct (Hold _ _ Hq) as [[-> ->]|(_ & _ & Hy)]; [exact (tr_wait _ _ _ Ht _ _ Hp Ex)|by apply (tr_wait _ _ _ Ht q)].
  - intros q y Hq Ey Hk. destruct (Hold _ _ Hq) as [[-> ->]|(_ & _ & Hy)]; [exact (tr_threads _ _ _ Ht _ _ Hp Ex Hk)|by apply (tr_threads _ _ _ Ht)].
  - intros q y Hq Ey. destruct (Hold _ _ Hq) as [[-> ->]|(_ & _ & Hy)]; [by cbn in Ey; congruence|by apply (tr_zombie _ _ _ Ht q)].
  - intros q y Hq Hne. assert (∃ y0, ps !! q = Some y0 ∧ y0.(parent) = y.(parent)) as (y0 & Hy0 & E0) by (destruct (Hold _ _ Hq) as [[-> ->]|(_ & _ & ?)]; by eexists).
    destruct (tr_parent _ _ _ Ht _ _ Hy0) as (r & z & Hz & E1 & E2); [congruence|]. destruct (Hnew r z Hz) as (z' & ? & ? & _ & ? & _); [intros ->; congruence|].
    exists r, z'. split_and!; congruence.
  - intros q y Hq. destruct (Hold _ _ Hq) as [[-> ->]|(_ & _ & Hy)]; [exact (tr_self _ _ _ Ht _ _ Hp)|by apply (tr_self _ _ _ Ht q)].
  - destruct (tr_kernel _ _ _ Ht) as (y & Hy & E1 & E2 & E3). destruct (Hnew kp y Hy) as (y' & ? & ? & ? & ? & _); [intros <-; congruence|]. exists y'. split_and!; congruence.
  - intros t th q Hth Eq. destruct (tr_owner _ _ _ Ht _ _ _ Hth Eq) as (y & Hy & Ey). destruct (Hnew q y Hy) as (y' & ? & _ & _ & ? & _); [intros ->; congruence|].
    exists y'. split; congruence.
  - apply Ht.
  - intros t th w Hth Ew. destruct (tr_waiters _ _ _ Ht _ _ _ Hth Ew) as (q & Eq & y & z & Hy & E1 & Hz & E2 & E3 & E4 & E5). exists q. split; [done|].
    assert (q ≠ p) as Hqp by (intros ->; rewrite (Hno _ _ Hth Eq) in Ew; done). destruct (tr_owner _ _ _ Ht _ _ _ Hth Eq) as (y0 & Hy0 & Ey0). simplify_eq.
    destruct (Hnew q y Hy) as (y' & ? & ? & ? & ? & ?); [intros ->; congruence|]. destruct (Hnew _ z Hz) as (z' & ? & ? & ? & ? & ?).
    { intros E. rewrite E, Hch in Hz. injection Hz as <-. apply Hqp. eapply (indexed_inj D ps); [done..|congruence]. }
    exists y', z'. split_and!; congruence.
Qed.

(** ** A new process *)

(** A process [z] with one thread is added as a child of [p]. *)
Section New.
Context (D : gmap Z positive) (ps : gmap positive proc) (ths : gmap positive thread) (kp p r t : positive) (x z : proc) (l' : llist Z) (cs : list Z).
Context (Hi : indexed D ps) (Ht : tree_ok ps ths kp) (Hp : ps !! p = Some x) (Ex : x.(exited) = false) (Hr : ps !! r = None) (Hth : ths !! t = None)
  (HD : D !! z.(pid) = None) (H0 : 0 < z.(pid)) (Ez1 : z.(parent) = x.(pid)) (Ez2 : z.(exited) = false) (Ez3 : z.(wait) = true)
  (Ez4 : ∃ l0, z.(children) = Some l0 ∧ rep l0 []) (Ez5 : z.(p_numthreads) = 1)
  (Hnd : NoDup cs)
  (Hcs : ∀ c, c ∈ cs ↔ ∃ q y, ps !! q = Some y ∧ y.(pid) = c ∧ y.(parent) = x.(pid)) (Hrep' : rep l' (cs ++ [z.(pid)])).

Let ps' : gmap positive proc := <[p := set_children x (Some l')]> (<[r := z]> ps).
Let ths' : gmap positive thread := <[t := Thread (Some r) None]> ths.

Lemma new_old q y : ps' !! q = Some y → q = p ∧ y = set_children x (Some l') ∨ q = r ∧ y = z ∨ q ≠ p ∧ q ≠ r ∧ ps !! q = Some y.
Proof. intros [[<- <-]|[? [[<- <-]|[? ?]]%lookup_insert_Some]]%lookup_insert_Some; naive_solver. Qed.

Lemma new_keeps q y : ps !! q = Some y → q ≠ r ∧ ∃ y', ps' !! q = Some y' ∧ y'.(pid) = y.(pid) ∧ y'.(parent) = y.(parent) ∧ y'.(exited) = y.(exited) ∧ y'.(waitpid) = y.(waitpid).
Proof.
  intros Hq. assert (q ≠ r) by (intros ->; congruence). split; [done|]. unfold ps'. destruct (decide (q = p)) as [->|].
  - simplify_eq. eexists. by rewrite lookup_insert_eq.
  - exists y. by rewrite !lookup_insert_ne by done.
Qed.

Lemma new_at : ps' !! r = Some z.
Proof. unfold ps'. rewrite lookup_insert_ne, lookup_insert_eq by congruence. done. Qed.

(** No process has the new pid, or has it for its parent. *)
Lemma new_fresh q y : ps !! q = Some y → y.(pid) ≠ z.(pid) ∧ y.(parent) ≠ z.(pid).
Proof.
  intros Hq. split; [intros E; destruct (ix_proc _ _ Hi _ _ Hq); congruence|]. intros E.
  destruct (tr_parent _ _ _ Ht _ _ Hq) as (q' & y' & Hq' & E' & _); [lia|]. destruct (ix_proc _ _ Hi _ _ Hq'). congruence.
Qed.

Lemma new_thread t' th' q : ths' !! t' = Some th' → th'.(t_proc) = Some q → t' = t ∧ q = r ∧ th'.(t_wait) = None ∨ t' ≠ t ∧ q ≠ r ∧ ths !! t' = Some th'.
Proof.
  intros [[<- <-]|[? Ht']]%lookup_insert_Some E; [left; naive_solver|right]. split_and!; try done. intros ->.
  destruct (tr_owner _ _ _ Ht _ _ _ Ht' E) as (? & ? & _). congruence.
Qed.

Lemma new_lists q y : ps !! q = Some y → lists_children ps y → y.(pid) ≠ x.(pid) → lists_children ps' y.
Proof.
  intros Hq (l0 & cs0 & ? & ? & ? & Hc) Hne. exists l0, cs0. split_and!; try done. intros c. rewrite Hc. split.
  - intros (q' & w & Hw & <- & E). destruct (new_keeps _ _ Hw) as (_ & w' & ? & ? & ? & _). exists q', w'. split_and!; congruence.
  - intros (q' & w & Hw & <- & E). destruct (new_old _ _ Hw) as [[-> ->]|[[-> ->]|(_ & _ & ?)]]; [by exists p, x|congruence|by exists q', w].
Qed.

Lemma new_parent : lists_children ps' (set_children x (Some l')).
Proof.
  exists l', (cs ++ [z.(pid)]). split; [done|]. split; [done|]. split.
  { apply NoDup_app. split; [done|]. split; [|apply NoDup_singleton]. intros c (q & y & Hq' & <- & _)%Hcs E%list_elem_of_singleton. by destruct (new_fresh _ _ Hq'). }
  intros c. rewrite elem_of_app, list_elem_of_singleton, Hcs. cbn. split.
  - intros [(q & y & Hq' & <- & E)| ->]; [|exists r, z; split; [apply new_at|done]]. destruct (new_keeps _ _ Hq') as (_ & y' & ? & ? & ? & _). exists q, y'. split_and!; congruence.
  - intros (q & y & Hq' & <- & E). destruct (new_old _ _ Hq') as [[-> ->]|[[-> ->]|(_ & _ & ?)]]; [left; by exists p, x|by right|left; by exists q, y].
Qed.

Lemma new_childless : lists_children ps' z.
Proof.
  destruct Ez4 as (l0 & ? & ?). exists l0, []. split_and!; [done|done|constructor|]. intros c. split; [by intros ?%elem_of_nil|]. intros (q & y & Hq' & <- & E).
  destruct (new_old _ _ Hq') as [[-> ->]|[[-> ->]|(_ & _ & Hy)]].
  - by destruct (new_fresh _ _ Hp).
  - destruct (new_fresh _ _ Hp). congruence.
  - by destruct (new_fresh _ _ Hy).
Qed.

Lemma new_threaded q y : ps !! q = Some y → threaded ths q y → threaded ths' q y.
Proof.
  intros Hy [[? Hn]|(? & t' & th' & Ht' & E)]; [left|right]; (split; [done|]).
  - intros t' th' Ht' E. destruct (new_thread _ _ _ Ht' E) as [(_ & -> & _)|(_ & _ & Ht'')]; [congruence|by apply (Hn _ _ Ht'')].
  - exists t', th'. unfold ths'. rewrite lookup_insert_ne by congruence. done.
Qed.

Lemma tree_new : tree_ok ps' ths' kp.
Proof.
  split.
  - intros q y Hq Ey. destruct (new_old _ _ Hq) as [[-> ->]|[[-> ->]|(Hqp & _ & Hy)]]; [apply new_parent|apply new_childless|].
    apply (new_lists q); [done|by apply (tr_children _ _ _ Ht q)|]. intros E. apply Hqp. by eapply (indexed_inj D ps).
  - intros q y Hq Ey. destruct (new_old _ _ Hq) as [[-> ->]|[[-> ->]|(_ & _ & Hy)]]; [exact (tr_wait _ _ _ Ht _ _ Hp Ex)|done|by apply (tr_wait _ _ _ Ht q)].
  - intros q y Hq Ey Hk. destruct (new_old _ _ Hq) as [[-> ->]|[[-> ->]|(_ & _ & Hy)]].
    + exact (new_threaded _ _ Hp (tr_threads _ _ _ Ht _ _ Hp Ex Hk)).
    + right. split; [done|]. exists t, (Thread (Some r) None). split; [apply lookup_insert_eq|done].
    + apply new_threaded; [done|]. by apply (tr_threads _ _ _ Ht).
  - intros q y Hq Ey. destruct (new_old _ _ Hq) as [[-> ->]|[[-> ->]|(_ & _ & Hy)]]; [cbn in Ey; congruence|congruence|by apply (tr_zombie _ _ _ Ht q)].
  - intros q y Hq Hne. assert (∃ q' w, ps !! q' = Some w ∧ w.(pid) = y.(parent) ∧ w.(exited) = false) as (q' & w & Hw & E & Ew).
    { destruct (new_old _ _ Hq) as [[-> ->]|[[-> ->]|(_ & _ & Hy)]]; [exact (tr_parent _ _ _ Ht _ _ Hp Hne)|by exists p, x|by apply (tr_parent _ _ _ Ht q)]. }
    destruct (new_keeps _ _ Hw) as (_ & w' & ? & ? & _ & ? & _). exists q', w'. split_and!; congruence.
  - intros q y Hq. destruct (new_old _ _ Hq) as [[-> ->]|[[-> ->]|(_ & _ & Hy)]]; [exact (tr_self _ _ _ Ht _ _ Hp)|rewrite Ez1; by destruct (new_fresh _ _ Hp)|by apply (tr_self _ _ _ Ht q)].
  - destruct (tr_kernel _ _ _ Ht) as (y & Hy & ? & ? & ?). destruct (new_keeps _ _ Hy) as (_ & y' & ? & ? & ? & ? & _). exists y'. split_and!; congruence.
  - intros t' th' q Ht' E. destruct (new_thread _ _ _ Ht' E) as [(_ & -> & _)|(_ & _ & Ht'')]; [exists z; split; [apply new_at|done]|].
    destruct (tr_owner _ _ _ Ht _ _ _ Ht'' E) as (y & Hy & ?). destruct (new_keeps _ _ Hy) as (_ & y' & ? & _ & _ & ? & _). exists y'. split; congruence.
  - intros t1 t2 th1 th2 q H1 H2 E1 E2 Hor. destruct (new_thread _ _ _ H1 E1) as [(-> & -> & ?)|(_ & ? & H1')], (new_thread _ _ _ H2 E2) as [(-> & ? & ?)|(_ & ? & H2')]; try done.
    by eapply (tr_unique _ _ _ Ht).
  - intros t' th' w Ht' Ew. apply lookup_insert_Some in Ht' as [[<- <-]|[_ Ht']]; [done|]. destruct (tr_waiters _ _ _ Ht _ _ _ Ht' Ew) as (q & Eq & y & c & Hy & ? & Hc & ? & ? & ? & ?).
    destruct (new_keeps _ _ Hy) as (_ & y' & ? & ? & ? & ? & ?), (new_keeps _ _ Hc) as (_ & c' & ? & ? & ? & ? & ?). exists q. split; [done|]. exists y', c'. split_and!; congruence.
Qed.

End New.

(** A list of one child is emptied even when the child is not the one looked for. *)
Lemma proc_remlist_loses l y val o : rep l [y] → val ≠ y → ∃ l', proc_remlist l val o = Ret (l', o) ∧ rep l' [].
Proof.
  intros Hr Hne. unfold proc_remlist, list_isempty. rewrite (rep_lsize_eqb _ _ Hr), (front_correct _ _ Hr). cbn [hd_error deref mbind res_bind].
  destruct (pop_front_correct _ _ Hr) as (l1 & -> & Hr1). cbn [mbind res_bind List.tl] in *. rewrite (rep_lsize_eqb _ _ Hr1). rewrite orb_true_r. by exists l1.
Qed.
