(* ===== verification/ProcSys.v ===== *)
(** * The process system calls on the invariant of [ProcInv]

    Every call that is permitted returns and keeps the invariant, and does to the table of
    processes what the abstract operation does. *)

From S2P Require Import Prelude CString LinkedList Hashtable PidTree UserCopy Uio Vfs VfsRefs Files Proc ProcInv.
Import LinkedLists.

(** Steps of the monad and fields of the state. *)
Ltac psimpl := cbn [mbind res_bind deref kassert negb set_io set_spaces set_pids set_lock set_procs set_threads put_proc put_thread
  io spaces pids pids_lock procs threads kproc t_proc t_wait].

(** ** The processes as a table *)

(** The parent of every pid, and the exit code of a process that has exited. *)
Definition info (x : proc) : Z * option Z := (x.(parent), if x.(exited) then Some x.(exit_val) else None).
Definition ptable (D : gmap Z positive) (ps : gmap positive proc) : gmap Z (Z * option Z) := omap (λ p, info <$> ps !! p) D.

Lemma ptable_spec D ps q i : indexed D ps → ptable D ps !! q = Some i ↔ ∃ p x, ps !! p = Some x ∧ x.(pid) = q ∧ info x = i.
Proof.
  intros Hi. unfold ptable. rewrite lookup_omap. split.
  - intros (p & Hp & E)%bind_Some. destruct (ix_dir _ _ Hi _ _ Hp) as (x & Hx & Ex). rewrite Hx in E. injection E as <-. by exists p, x.
  - intros (p & x & Hx & <- & <-). destruct (ix_proc _ _ Hi _ _ Hx) as [-> _]. cbn. by rewrite Hx.
Qed.

Lemma ptable_at D ps p x : indexed D ps → ps !! p = Some x → ptable D ps !! x.(pid) = Some (info x).
Proof. intros Hi Hp. apply ptable_spec; [done|]. by exists p, x. Qed.

(** Tables that have the same processes. *)
Lemma ptable_eq D ps T : indexed D ps → (∀ q i, T !! q = Some i ↔ ∃ p x, ps !! p = Some x ∧ x.(pid) = q ∧ info x = i) → ptable D ps = T.
Proof. intros Hi HT. apply map_eq. intros q. apply option_eq. intros i. by rewrite HT, ptable_spec. Qed.

(** The children of [q] lose their parent, and are gone when they have exited. *)
Definition orphan_row (q : Z) (i : Z * option Z) : option (Z * option Z) :=
  if i.1 =? q then match i.2 with Some _ => None | None => Some (-1, None) end else Some i.

Definition exit_table (q code : Z) (T : gmap Z (Z * option Z)) : gmap Z (Z * option Z) :=
  match T !! q with
  | Some (par, _) => if par =? -1 then delete q (omap (orphan_row q) T) else <[q := (par, Some code)]> (omap (orphan_row q) T)
  | None => T
  end.

Lemma ptable_put D ps p x y : indexed D ps → ps !! p = Some x → y.(pid) = x.(pid) → ptable D (<[p := y]> ps) = <[x.(pid) := info y]> (ptable D ps).
Proof.
  intros Hi Hp E. apply map_eq. intros q. unfold ptable. destruct (ix_proc _ _ Hi _ _ Hp) as [Hd _]. rewrite lookup_omap. destruct (decide (q = x.(pid))) as [->|Hne].
  - rewrite Hd, lookup_insert_eq. cbn. by rewrite lookup_insert_eq.
  - rewrite lookup_insert_ne, lookup_omap by done. destruct (D !! q) as [r|] eqn:Er; [|done]. cbn. rewrite lookup_insert_ne; [done|]. intros ->.
    destruct (ix_dir _ _ Hi _ _ Er) as (x' & ? & ?). congruence.
Qed.

Lemma ptable_same D ps p x y : indexed D ps → ps !! p = Some x → y.(pid) = x.(pid) → info y = info x → ptable D (<[p := y]> ps) = ptable D ps.
Proof. intros Hi Hp E Ei. rewrite (ptable_put _ _ _ x), Ei by done. apply insert_id. by apply ptable_at with p. Qed.

Lemma ptable_delete D ps p x : indexed D ps → ps !! p = Some x → ptable (delete x.(pid) D) (delete p ps) = delete x.(pid) (ptable D ps).
Proof.
  intros Hi Hp. apply map_eq. intros q. unfold ptable. rewrite lookup_omap. destruct (decide (q = x.(pid))) as [->|Hne]; [by rewrite !lookup_delete_eq|].
  rewrite !lookup_delete_ne, lookup_omap by done. destruct (D !! q) as [r|] eqn:Er; [|done]. cbn. rewrite lookup_delete_ne; [done|]. intros ->.
  destruct (ix_dir _ _ Hi _ _ Er) as (x' & ? & ?). congruence.
Qed.

Section Table.
Context (D D' : gmap Z positive) (ps ps' : gmap positive proc) (p : positive) (x : proc) (cs : list Z).
Context (Hi : indexed D ps) (Hi' : indexed D' ps') (Hp : ps !! p = Some x) (Hself : x.(parent) ≠ x.(pid))
  (Hcs : ∀ c, c ∈ cs ↔ ∃ q y, ps !! q = Some y ∧ y.(pid) = c ∧ y.(parent) = x.(pid)).

(** The table after the loop over the children. *)
Lemma ptable_orphan : (∀ q, ps' !! q = if decide (q = p) then Some x else ps !! q ≫= orphan cs) → ptable D' ps' = omap (orphan_row x.(pid)) (ptable D ps).
Proof.
  intros Hps. apply ptable_eq; [done|]. intros q i. rewrite lookup_omap, bind_Some. split.
  - intros (j & Hj & Ho). apply (ptable_spec _ _ _ _ Hi) in Hj as (r & y & Hy & <- & <-). unfold orphan_row in Ho. cbn [info fst snd] in Ho.
    pose proof (child_iff _ _ _ _ Hi Hcs _ _ Hy) as Hc. destruct (decide (r = p)) as [->|Hne].
    + simplify_eq. exists p, x. rewrite Hps, decide_True by done. rewrite (proj2 (Z.eqb_neq _ _)) in Ho by done. by injection Ho as <-.
    + exists r. rewrite Hps, decide_False, Hy by done. cbn. unfold orphan. destruct (Z.eqb_spec y.(parent) x.(pid)) as [E|E].
      * rewrite decide_True by (by apply Hc). destruct y.(exited) eqn:Ey; [done|]. injection Ho as <-. eexists. split; [done|]. split; [done|]. unfold info. cbn. by rewrite Ey.
      * rewrite decide_False by (by rewrite Hc). injection Ho as <-. by exists y.
  - intros (r & y' & Hy' & <- & <-). rewrite Hps in Hy'. case_decide as Hrp.
    + injection Hy' as <-. exists (info x). rewrite (ptable_at _ _ _ _ Hi Hp). split; [done|]. unfold orphan_row. cbn. by rewrite (proj2 (Z.eqb_neq _ _)).
    + apply bind_Some in Hy' as (y & Hy & Ho). pose proof (child_iff _ _ _ _ Hi Hcs _ _ Hy) as Hc. exists (info y). unfold orphan in Ho. unfold orphan_row.
      case_decide as Hin.
      * destruct y.(exited) eqn:Ey; [done|]. injection Ho as <-. cbn [set_parent pid info parent fst snd exited exit_val]. rewrite Ey. split.
        -- rewrite (ptable_at _ _ _ _ Hi Hy). unfold info. by rewrite Ey.
        -- rewrite (proj2 (Z.eqb_eq _ _)) by (by apply Hc). unfold info. cbn. by rewrite Ey.
      * injection Ho as <-. split; [by apply ptable_at with r|]. cbn. rewrite (proj2 (Z.eqb_neq _ _)); [done|]. by rewrite <-Hc.
Qed.

End Table.

(** ** Exit *)

Section Sys.
Context {S M : Type} `{FL : FsLaws S (memory * uio)} `{AL : AsLaws M}.
#[local] Notation kernel := (kernel S M).
Implicit Types K : kernel.

(** What a call does with the threads: some that wait are woken. *)
Definition woken (ths ths' : gmap positive thread) : Prop := ths' = ths ∨ ∃ p, ths' = wake p <$> ths.

Lemma orphan_same cs y y' : orphan cs y = Some y' → same_holds y y'.
Proof. unfold orphan. case_decide; [destruct (y.(exited)) eqn:E; [done|]|]; intros [= <-]; by unfold same_holds. Qed.

Lemma holds_orphaned (k : kst S) (m : M) ps ps' G p x cs l : holds_ok k m ps G → ps !! p = Some x → ps' !! p = Some (set_children x (Some l)) →
  (∀ q, q ≠ p → ps' !! q = ps !! q ≫= orphan cs) → holds_ok k m ps' G.
Proof.
  intros Hho Hp Hp' Hne. apply (holds_procs _ _ ps); [done|..].
  - intros q y Hy. destruct (decide (q = p)) as [->|Hq]; [simplify_eq; by exists x|]. rewrite Hne in Hy by done. apply bind_Some in Hy as (z & Hz & Ho).
    exists z. split; [done|]. by apply (orphan_same cs).
  - intros q y Hy Ey. destruct (decide (q = p)) as [->|Hq]; [by eexists|]. rewrite Hne, Hy by done. cbn. unfold orphan. rewrite Ey. by case_decide.
Qed.

(** The loop that closes the files of a process leaves it without any. *)
Lemma files_closed (k : kst S) (m : M) ps G p x P h : holds_ok k m ps G → ps !! p = Some x → x.(exited) = false → x.(p_cwd) = 0 → x.(p_files) = Some h →
  G !! p = Some (0, P) →
  ∃ k' h', close_files (Z.to_nat x.(p_next_fd)) 0 k (Ftab h x.(p_next_fd)) = Ret (k', Ftab h' x.(p_next_fd)) ∧ hashtable_destroy h' = Ret tt ∧ k'.(k_mem) = k.(k_mem) ∧
    ∀ ps', (∀ q, q ≠ p → ps' !! q = ps !! q) → (∀ y, ps' !! p = Some y → y.(exited) = true ∧ y.(p_addrspace) = 0) → holds_ok k' m ps' (delete p G).
Proof.
  intros Hho Hp Ex Ec Ef Hg. destruct (holds_split _ _ _ _ _ _ Hho Hp Ex) as (h' & P' & Ef' & Hg' & Hnf & Hfd & Hok). rewrite Ec in *.
  rewrite Ef in Ef'. injection Ef' as <-. rewrite Hg in Hg'. injection Hg' as <-.
  destruct (close_files_correct _ (Z.to_nat x.(p_next_fd)) 0 _ _ _ _ Hok) as (k1 & h1 & P1 & E & Hok1 & Em & HP & Hkept); [lia..|].
  assert (P1 = ∅) as ->.
  { apply map_empty. intros fd. rewrite HP. case_decide as Hr; [done|]. destruct (P !! fd) as [c|] eqn:Hc; [|done]. exfalso.
    pose proof (Hfd fd ltac:(by eexists)). destruct (tab_fd _ _ _ (ok_tab _ _ _ _ Hok) _ _ Hc) as [? _]. lia. }
  exists k1, h1. split; [done|]. split.
  { apply destroy_empty. pose proof (tab_rep _ _ _ (ok_tab _ _ _ _ Hok1)) as Hrep. by rewrite kmap_empty in Hrep. }
  split; [done|]. intros ps' Hne Hp'. apply (holds_exit k k1 m m ps ps' G p 0 P (Ftab h1 x.(p_next_fd))); done.
Qed.

(** What is left of a process that has given up what it held, and the rest of [proc_exit]. *)
Definition bare (x : proc) : proc := set_wait (set_files (set_children (detached x) None) None) false.

Definition exit_end K (p : positive) (x : proc) (exitcode : Z) : res kernel :=
  if x.(parent) =? -1 then proc_destroy K p else
  par ← pid_get_proc tree_fuel K.(pids) x.(parent);
  match par with
  | None => proc_destroy K p
  | Some par =>
      let K := put_proc K p (set_exited x exitcode) in
      y ← deref (K.(procs) !! par);
      if y.(waitpid) =? x.(pid) then cv_broadcast K par else Ret K
  end.

Lemma exit_start_correct K D G p x cs l : kernel_ok K D G → K.(procs) !! p = Some x → x.(exited) = false → x.(p_numthreads) = 0 → p ≠ K.(kproc) →
  x.(children) = Some l → rep l cs → NoDup cs → (∀ c, c ∈ cs ↔ ∃ q y, K.(procs) !! q = Some y ∧ y.(pid) = c ∧ y.(parent) = x.(pid)) →
  ∃ k m tree D' ps, (∀ code, proc_exit K p code = exit_end (Kernel k m tree K.(pids_lock) ps K.(threads) K.(kproc)) p (bare x) code) ∧
    dir_ok tree D' ∧ indexed D' ps ∧ k.(k_mem) = K.(io).(k_mem) ∧
    (∀ q, ps !! q = if decide (q = p) then Some (bare x) else K.(procs) !! q ≫= orphan cs) ∧
    ∀ ps', (∀ q, q ≠ p → ps' !! q = ps !! q) → (∀ y, ps' !! p = Some y → y.(exited) = true ∧ y.(p_addrspace) = 0) → holds_ok k m ps' (delete p G).
Proof.
  intros [Hd Hi Ht Hho] Hp Ex Hn Hkp Hl Hr Hnd Hcs. destruct (holds_split _ _ _ _ _ _ Hho Hp Ex) as (h & P & Ef & Hg & Hnf & Hfd & _).
  destruct (proc_detatch_correct K G p x P Hho Hp Ex Hn Hkp Hg) as (k1 & m1 & E1 & Em1 & Hho1).
  set (K1 := Kernel k1 m1 K.(pids) K.(pids_lock) (<[p := detached x]> K.(procs)) K.(threads) K.(kproc)) in *.
  assert (K1.(procs) !! p = Some (detached x)) as Hp1 by apply lookup_insert_eq.
  destruct (orphan_children_correct cs (Datatypes.S (Z.to_nat (list_getsize l))) K1 D p (detached x) l) as (K2 & D2 & l2 & E2 & Hd2 & Hi2 & Hs2 & Hr2 & Hps2).
  - done.
  - by apply (indexed_put _ _ _ x).
  - done.
  - done.
  - done.
  - done.
  - intros c (q & y & Hy & <- & Ey)%Hcs. pose proof (pid_nonneg _ _ Hi _ _ Hp) as H0x. assert (q ≠ p) as Hqp.
    { intros ->. rewrite Hp in Hy. injection Hy as <-. by apply (tr_self _ _ _ Ht p x). }
    split_and!; [|by apply (other_pid D K.(procs) p x Hi Hp q y)|exists q, y; split; [by apply lookup_insert_Some; right|done]].
    intros E0. destruct (tr_kernel _ _ _ Ht) as (z & Hz & Ez & _ & Ez'). assert (q = K.(kproc)) as -> by (eapply (indexed_inj D K.(procs)); [done..|congruence]).
    rewrite Hz in Hy. injection Hy as <-. lia.
  - unfold list_getsize. rewrite (rep_size _ _ Hr). lia.
  - destruct K2 as [k2 m2 tree2 lock2 ps2 ths2 kp2]. destruct Hs2 as (Es1 & Es2 & Es3 & Es4 & Es5). cbn [io spaces pids pids_lock procs threads kproc K1] in *. subst.
    assert (∀ q, q ≠ p → ps2 !! q = K.(procs) !! q ≫= orphan cs) as Hother by (intros q Hq; by rewrite Hps2, decide_False, lookup_insert_ne by done).
    assert (ps2 !! p = Some (set_children (detached x) (Some l2))) as Hp2 by (by rewrite Hps2, decide_True).
    destruct (files_closed k1 m1 ps2 (<[p := (0, P)]> G) p (set_children (detached x) (Some l2)) P h) as (k3 & h3 & E3 & E4 & Em & Hho3).
    + apply (holds_orphaned _ _ (<[p := detached x]> K.(procs)) ps2 _ p (detached x) cs l2); [done|done|done|]. intros q Hq. by rewrite Hother, lookup_insert_ne.
    + done.
    + done.
    + done.
    + done.
    + apply lookup_insert_eq.
    + rewrite delete_insert_eq in Hho3. exists k3, m1, tree2, D2, (<[p := bare x]> ps2). split_and!.
      * intros code. unfold proc_exit. rewrite E1. cbn [mbind res_bind].
        change (K1.(procs) !! p) with (<[p := detached x]> K.(procs) !! p). rewrite Hp1. cbn [deref mbind res_bind]. change (detached x).(children) with x.(children).
        rewrite Hl. cbn [deref mbind res_bind]. rewrite E2. cbn [mbind res_bind procs]. rewrite Hp2. cbn [deref mbind res_bind set_children children].
        rewrite (destroy_correct _ _ Hr2). cbn [mbind res_bind]. change (p_files _) with x.(p_files) at 1. rewrite Ef. cbn [deref mbind res_bind io].
        rewrite E3. cbn [mbind res_bind files]. rewrite E4. cbn [mbind res_bind]. done.
      * done.
      * by apply (indexed_put _ _ _ (set_children (detached x) (Some l2))).
      * congruence.
      * intros q. case_decide; [subst; apply lookup_insert_eq|]. rewrite lookup_insert_ne by done. by apply Hother.
      * intros ps' Hne Hp'. apply Hho3; [|done]. intros q Hq. rewrite Hne, lookup_insert_ne by done. done.
Qed.

(** A process that has no thread exits: it is gone when it has no parent, else it keeps its
    exit code for the parent, which is woken when it waits for it. *)
Lemma proc_exit_correct K D G p x code : kernel_ok K D G → K.(pids_lock) = true → K.(procs) !! p = Some x → x.(exited) = false → x.(p_numthreads) = 0 →
  p ≠ K.(kproc) →
  ∃ K' D', proc_exit K p code = Ret K' ∧ kernel_ok K' D' (delete p G) ∧ K'.(pids_lock) = true ∧ K'.(kproc) = K.(kproc) ∧ K'.(io).(k_mem) = K.(io).(k_mem) ∧
    ptable D' K'.(procs) = exit_table x.(pid) code (ptable D K.(procs)) ∧ woken K.(threads) K'.(threads).
Proof.
  intros Hko Hlock Hp Ex Hn Hkp. pose proof Hko as [Hd Hi Ht Hho]. destruct (tr_children _ _ _ Ht _ _ Hp Ex) as (l & cs & Hl & Hr & Hnd & Hcs).
  assert (∀ t th, K.(threads) !! t = Some th → th.(t_proc) ≠ Some p) as Hnone.
  { destruct (tr_threads _ _ _ Ht _ _ Hp Ex Hkp) as [[_ ?]|[? _]]; [done|congruence]. }
  pose proof (tr_self _ _ _ Ht _ _ Hp) as Hself. assert (x.(pid) ≠ 0) as Hpid.
  { intros E. destruct (tr_kernel _ _ _ Ht) as (y & Hy & Ey & _). apply Hkp. eapply (indexed_inj D K.(procs)); [done..|congruence]. }
  destruct (exit_start_correct K D G p x cs l Hko Hp Ex Hn Hkp Hl Hr Hnd Hcs) as (k & m & tree & D' & ps & E & Hd' & Hi' & Em & Hps & Hho').
  rewrite E. unfold exit_end. change (bare x).(parent) with x.(parent). change (bare x).(pid) with x.(pid).
  assert (ps !! p = Some (bare x)) as Hpb by (by rewrite Hps, decide_True).
  assert (ptable D' (<[p := x]> ps) = omap (orphan_row x.(pid)) (ptable D K.(procs))) as ET.
  { apply (ptable_orphan D D' K.(procs) (<[p := x]> ps) p x cs Hi); [by apply (indexed_put _ _ _ (bare x))|done..|].
    intros q. case_decide; [subst; apply lookup_insert_eq|]. by rewrite lookup_insert_ne, Hps, decide_False. }
  unfold exit_table. rewrite (ptable_at _ _ _ _ Hi Hp). unfold info at 1. destruct (Z.eqb_spec x.(parent) (-1)) as [Epar|Epar].
  - destruct (proc_destroy_correct (Kernel k m tree K.(pids_lock) ps K.(threads) K.(kproc)) D' p (bare x) Hd' Hi' Hpb Hpid) as (tree' & -> & Hd2 & Hi2).
    eexists _, _. split; [done|]. cbn [set_procs set_pids io spaces pids pids_lock procs threads kproc] in *.
    split_and!; try done; [|rewrite <-ET|by left].
    + split; [done|done| |].
      * apply (tree_gone D K.(procs) (delete p ps) K.(threads) K.(kproc) p x cs Hi Ht Hp Hkp Hnone Hcs Epar). intros q. case_decide; [subst; apply lookup_delete_eq|].
        by rewrite lookup_delete_ne, Hps, decide_False.
      * apply Hho'; [intros q Hq; by apply lookup_delete_ne|intros y Hy; exfalso; revert Hy; cbn; by rewrite lookup_delete_eq].
    + change x.(pid) with (bare x).(pid). rewrite (ptable_delete _ _ _ _ Hi' Hpb). cbn [bare set_wait set_files set_children detached set_addrspace set_p_cwd pid].
      rewrite (ptable_put D' ps p (bare x) x Hi' Hpb) by done. by rewrite delete_insert_eq.
  - destruct (tr_parent _ _ _ Ht _ _ Hp Epar) as (par & y & Hy & Ey & Eey). assert (par ≠ p) as Hpp by (intros ->; congruence).
    destruct (orphaned_run K.(procs) p cs ps _ Hps par y Hpp Hy Eey) as (y' & Hy' & _ & Epid & Ewait). destruct (ix_proc _ _ Hi' _ _ Hy') as [Hdp _].
    rewrite Epid, Ey in Hdp. cbn [pids]. rewrite (dir_get _ _ _ Hd'), Hdp. cbn [mbind res_bind put_proc set_procs procs].
    rewrite lookup_insert_ne by done. rewrite Hy'. cbn [deref mbind res_bind]. rewrite Ewait.
    set (ps2 := <[p := set_exited (bare x) code]> ps). set (ths2 := if y.(waitpid) =? x.(pid) then wake par <$> K.(threads) else K.(threads)).
    exists (Kernel k m tree K.(pids_lock) ps2 ths2 K.(kproc)), D'. cbn [io spaces pids pids_lock procs threads kproc]. split_and!; try done.
    + unfold ths2. destruct (y.(waitpid) =? x.(pid)); [|done]. unfold cv_broadcast. cbn [procs pids_lock put_proc set_procs]. rewrite lookup_insert_ne by done.
      rewrite Hy'. cbn [deref mbind res_bind]. assert (y'.(wait) = true) as Ew.
      { destruct (orphaned_inv D K.(procs) p x cs Hi Hcs ps _ Hps par y' Hpp Hy') as (w & Hw & _ & Hcase). simplify_eq. pose proof (tr_wait _ _ _ Ht _ _ Hy Eey).
        by destruct Hcase as [[_ ->]|(_ & _ & ->)]. }
      by rewrite Ew, Hlock.
    + split; [done|by apply (indexed_put _ _ _ (bare x))| |].
      * apply (tree_zombie D K.(procs) ps2 K.(threads) K.(kproc) p x cs Hi Ht Hp Hkp Hnone Hcs par y (set_exited (bare x) code)); try done.
        intros q. unfold ps2. case_decide; [subst; apply lookup_insert_eq|]. by rewrite lookup_insert_ne, Hps, decide_False.
      * apply Hho'; [intros q Hq; by apply lookup_insert_ne|]. intros z Hz. revert Hz. unfold ps2. cbn. rewrite lookup_insert_eq. by intros [= <-].
    + rewrite <-ET. unfold ps2. rewrite (ptable_put D' ps p (bare x) x Hi' Hpb) by done. rewrite (ptable_put D' ps p (bare x) _ Hi' Hpb) by done.
      by rewrite insert_insert_eq.
    + unfold ths2. destruct (y.(waitpid) =? x.(pid)); [right; by exists par|by left].
Qed.

(** The threads other than the caller's stay with their processes and keep waiting. *)
Definition same_waiter (th th' : thread) : Prop :=
  th'.(t_proc) = th.(t_proc) ∧
  match th.(t_wait), th'.(t_wait) with
  | None, None => True
  | Some w, Some w' => w'.(w_pid) = w.(w_pid) ∧ w'.(w_child) = w.(w_child) ∧ w'.(w_status) = w.(w_status)
  | _, _ => False
  end.

Lemma woken_same ths ths' t th : woken ths ths' → ths !! t = Some th → ∃ th', ths' !! t = Some th' ∧ same_waiter th th'.
Proof.
  intros [->|[p ->]] Hth; [exists th; split; [done|]; split; [done|]; by destruct th.(t_wait)|]. exists (wake p th). rewrite lookup_fmap, Hth. split; [done|].
  split; [apply wake_proc|]. unfold wake. destruct th as [o [w|]]; cbn; [|done]. by case_bool_decide.
Qed.

Lemma sys__exit_correct K D G t p x code : kernel_ok K D G → K.(pids_lock) = false → K.(threads) !! t = Some (Thread (Some p) None) → p ≠ K.(kproc) →
  K.(procs) !! p = Some x →
  ∃ K' D', sys__exit K t code = Ret K' ∧ kernel_ok K' D' (delete p G) ∧ K'.(pids_lock) = false ∧ K'.(kproc) = K.(kproc) ∧ K'.(io).(k_mem) = K.(io).(k_mem) ∧
    ptable D' K'.(procs) = exit_table x.(pid) code (ptable D K.(procs)) ∧ K'.(threads) !! t = None ∧
    ∀ t' th, t' ≠ t → K.(threads) !! t' = Some th → ∃ th', K'.(threads) !! t' = Some th' ∧ same_waiter th th'.
Proof.
  intros [Hd Hi Ht Hho] Hlock Hth Hkp Hp. destruct K as [k m tree lock ps ths kp]. cbn [io spaces pids pids_lock procs threads kproc] in *. subst lock.
  destruct (tr_owner _ _ _ Ht _ _ _ Hth eq_refl) as (x' & Hx' & Ex). rewrite Hp in Hx'. injection Hx' as <-.
  destruct (tree_remthread _ _ _ _ _ _ Ht Hp Ex Hkp Hth) as [En Ht1].
  set (K1 := Kernel k m tree true (<[p := set_numthreads x 0]> ps) (<[t := Thread None None]> ths) kp).
  assert (kernel_ok K1 D G) as Hko1.
  { split; cbn [K1 io spaces pids pids_lock procs threads kproc]; [done|by apply (indexed_put _ _ _ x)|done|]. apply (holds_procs _ _ ps); [done|..].
    - intros q y [[<- <-]|[_ Hq]]%lookup_insert_Some; [by exists x|by exists y].
    - intros q y Hq _. rewrite lookup_insert_is_Some. destruct (decide (p = q)); [by left|right; split; [done|by eexists]]. }
  destruct (proc_exit_correct K1 D G p (set_numthreads x 0) code Hko1) as (K2 & D2 & E & [Hd2 Hi2 Ht2 Hho2] & Hl2 & Hkp2 & Em & ET & Hw); [done|apply lookup_insert_eq|done..|].
  destruct (woken_same _ _ t (Thread None None) Hw) as (th2 & Hth2 & Eproc & _); [apply lookup_insert_eq|].
  exists (set_threads (set_lock K2 false) (delete t K2.(threads))), D2. split.
  { unfold sys__exit, pid_acquire_lock, curproc, proc_remthread. psimpl. rewrite Hth. psimpl. rewrite Hp. psimpl. rewrite En.
    change (0 <? 1) with true. psimpl. change (put_thread _ _ _) with K1. rewrite E. cbn [mbind res_bind]. unfold pid_release_lock. rewrite Hl2. done. }
  cbn [set_threads set_lock io spaces pids pids_lock procs threads kproc]. split_and!; try done.
  - split; [done|done|by apply (tree_drop _ _ _ _ th2)|done].
  - rewrite ET. cbn [K1 procs set_numthreads pid]. f_equal. by apply (ptable_same _ _ _ x).
  - apply lookup_delete_eq.
  - intros t' th Hne Hth'. destruct (woken_same _ _ t' th Hw) as (th' & ? & ?); [unfold K1; psimpl; by rewrite lookup_insert_ne|]. exists th'. by rewrite lookup_delete_ne.
Qed.

(** ** Waiting *)

(** The exit code in the memory of the caller, where it asks for it. *)
Definition reported (m : memory) (status v err : Z) (m' : memory) : Prop :=
  if status =? 0 then err = 0 ∧ m' = m else
  err = 0 ∧ user_range status 4 ∧ mapped m status 4 ∧ m' = with_bytes m status (int_bytes v) ∨
  err = EFAULT ∧ ¬ (user_range status 4 ∧ mapped m status 4) ∧ ∀ a, ¬ status ≤ a < status + 4 → m' !! a = m !! a.

Lemma report_correct (k : kst S) v status : 0 ≤ status < 2 ^ 32 →
  ∃ err m, (if negb (status =? 0) then '(err, m) ← copyout (int_bytes v) 0 k.(k_mem) status 4; Ret (err, set_mem k m) else Ret (0, k)) = Ret (err, set_mem k m) ∧
    reported k.(k_mem) status v err m.
Proof.
  intros Hs. unfold reported. destruct (Z.eqb_spec status 0) as [E|E]; cbn [negb]; [exists 0, k.(k_mem); split; [by destruct k|done]|].
  assert (user_range status 4 ∨ ¬ user_range status 4) as [Hu|Hu] by (unfold user_range; lia).
  - destruct (copyout_correct (int_bytes v) 0 k.(k_mem) status 4 Hs) as (e & m & -> & Hout & Hcase); [lia|done|lia|by cbn|]. cbn [mbind res_bind].
    exists e, m. split; [done|]. destruct Hcase as [(-> & ? & ->)|[-> ?]]; [left|right; naive_solver]. done.
  - rewrite (copyout_refused _ _ _ _ _ Hs) by (done || lia). cbn [mbind res_bind]. eexists _, _. split; [done|]. right. naive_solver.
Qed.

Lemma dir_children tree D ps x cs : dir_ok tree D → indexed D ps → NoDup cs → (∀ c, c ∈ cs ↔ ∃ q y, ps !! q = Some y ∧ y.(pid) = c ∧ y.(parent) = x.(pid)) → (length cs ≤ 8)%nat.
Proof.
  intros Hd Hi Hnd Hcs. trans (size D); [|by apply (dir_size tree)]. rewrite <-size_dom, <-(size_list_to_set (C := gset Z)) by done. apply subseteq_size.
  intros c Hc. apply elem_of_list_to_set, Hcs in Hc as (q & y & Hq & <- & _). apply elem_of_dom. destruct (ix_proc _ _ Hi _ _ Hq) as [-> _]. by eexists.
Qed.

Lemma holds_reap (k : kst S) (m : M) ps G p x ch c y : holds_ok k m ps G → ps !! p = Some x → ps !! ch = Some c → c.(exited) = true → ch ≠ p → same_holds x y →
  holds_ok k m (<[p := y]> (delete ch ps)) G.
Proof.
  intros Hho Hp Hch Ec Hne Hs. apply (holds_procs _ _ ps); [done|..].
  - intros q z [[<- <-]|[? [? ?]%lookup_delete_Some]]%lookup_insert_Some; [by exists x|by exists z].
  - intros q z Hq Ez. assert (q ≠ ch) by (intros ->; congruence). destruct (decide (q = p)) as [->|]; [rewrite lookup_insert_eq; by eexists|].
    rewrite lookup_insert_ne, lookup_delete_ne by done. by eexists.
Qed.

Lemma holds_mem (k : kst S) mm (m : M) ps G : holds_ok k m ps G → holds_ok (set_mem k mm) m ps G.
Proof. by intros [? ? ? ? ? ? ? ?]. Qed.

(** The parent takes the exit code of a child and the child is gone. *)
Lemma waitpid_finish_correct K D G p x ch c status : kernel_ok K D G → K.(pids_lock) = true → K.(procs) !! p = Some x → x.(exited) = false → awake K.(threads) p →
  K.(procs) !! ch = Some c → c.(parent) = x.(pid) → c.(exited) = true → 0 ≤ status < 2 ^ 32 →
  ∃ err K', waitpid_finish K p ch c.(pid) status = Ret (Returned err, K') ∧ kernel_ok K' (delete c.(pid) D) G ∧ K'.(pids_lock) = false ∧ K'.(kproc) = K.(kproc) ∧
    K'.(threads) = K.(threads) ∧ ptable (delete c.(pid) D) K'.(procs) = delete c.(pid) (ptable D K.(procs)) ∧
    reported K.(io).(k_mem) status c.(exit_val) err K'.(io).(k_mem).
Proof.
  intros [Hd Hi Ht Hho] Hlock Hp Ex Hno Hch Ec Ecx Hs. destruct K as [k m tree lock ps ths kp]. cbn [io spaces pids pids_lock procs threads kproc] in *. subst lock.
  assert (ch ≠ p) as Hcp by (intros ->; congruence). pose proof (tree_waitpid _ _ _ _ _ (-1) Ht Hp Hno) as Ht1. set (x1 := set_waitpid x (-1)) in *.
  assert (indexed D (<[p := x1]> ps)) as Hi1 by (by apply (indexed_put _ _ _ x)).
  assert (<[p := x1]> ps !! p = Some x1) as Hp1 by apply lookup_insert_eq. assert (<[p := x1]> ps !! ch = Some c) as Hch1 by (by rewrite lookup_insert_ne).
  destruct (tr_children _ _ _ Ht1 _ _ Hp1 Ex) as (l & cs & Hl & Hr & Hnd & Hcs). pose proof (dir_children _ _ _ _ _ Hd Hi1 Hnd Hcs) as Hlen.
  destruct (proc_remlist_correct l cs c.(pid) Hr Hnd) as (l' & ys & El & Hr' & Hys); [apply Hcs; by exists ch, c|lia|].
  assert (c.(pid) ≠ 0) as Hpid.
  { intros E. destruct (tr_kernel _ _ _ Ht) as (y & Hy & Ey & Ee & _). assert (ch = kp) as -> by (eapply (indexed_inj D ps); [done..|congruence]). congruence. }
  destruct (report_correct k c.(exit_val) status Hs) as (err & mm & Erep & Hrep).
  destruct (proc_destroy_correct (Kernel (set_mem k mm) m tree true (<[p := x1]> ps) ths kp) D ch c Hd Hi1 Hch1 Hpid) as (tree' & Edes & Hd2 & Hi2).
  exists err, (Kernel (set_mem k mm) m tree' false (<[p := set_children x1 (Some l')]> (delete ch ps)) ths kp).
  assert (<[p := x1]> (delete ch ps) = delete ch (<[p := x1]> ps)) as Eps by (by rewrite delete_insert_ne).
  assert (<[p := set_children x1 (Some l')]> (delete ch ps) = <[p := set_children x1 (Some l')]> (delete ch (<[p := x1]> ps))) as Eps2.
  { by rewrite delete_insert_ne, insert_insert_eq. }
  assert (delete ch (<[p := x1]> ps) !! p = Some x1) as Hp2 by (by rewrite lookup_delete_ne).
  split; [|cbn [io spaces pids pids_lock procs threads kproc] in *; split; [split|split_and!; try done]].
  - unfold waitpid_finish. psimpl. rewrite Hp. psimpl. change (set_waitpid x (-1)) with x1. rewrite Hch1. psimpl.
    assert ((if negb (status =? 0) then '(err, m0) ← copyout (int_bytes c.(exit_val)) 0 k.(k_mem) status 4;
        Ret (err, set_io (put_proc (Kernel k m tree true ps ths kp) p x1) (set_mem k m0)) else Ret (0, put_proc (Kernel k m tree true ps ths kp) p x1)) =
      Ret (err, Kernel (set_mem k mm) m tree true (<[p := x1]> ps) ths kp)) as E1.
    { destruct (negb (status =? 0)).
      - destruct (copyout _ _ _ _ _) as [[e m0]| | |]; try done. cbn [mbind res_bind] in *. injection Erep as -> E. unfold set_io, put_proc, set_procs. psimpl. by rewrite E.
      - injection Erep as <- E. rewrite <-E. done. }
    unfold put_proc, set_io, set_procs in E1 |- *. psimpl. cbn [io spaces pids pids_lock procs threads kproc] in E1. rewrite E1. psimpl.
    rewrite Edes. psimpl. unfold proc_remchild. psimpl. rewrite Hp2. psimpl. rewrite Hl. psimpl. cbn [set_mem k_heap]. rewrite (ho_heap _ _ _ _ Hho), El. psimpl.
    unfold pid_release_lock. psimpl. unfold set_lock, put_proc, set_io, set_procs, set_pids. psimpl. rewrite Eps2.
    unfold set_heap, set_mem. cbn [k_heap k_fs k_mem k_blocks]. by rewrite (ho_heap _ _ _ _ Hho).
  - done.
  - rewrite Eps2. by apply (indexed_put _ _ _ x1).
  - rewrite Eps2. by apply (tree_reap D (<[p := x1]> ps) ths kp p x1 ch c l cs l' ys).
  - apply holds_mem. by apply (holds_reap _ _ _ _ _ x _ c).
  - rewrite Eps2. rewrite (ptable_same _ _ _ x1), (ptable_delete _ _ _ _ Hi1 Hch1) by done. f_equal. by apply (ptable_same _ _ _ x).
Qed.

(** The loop of [sys_waitpid], whatever the thread did before. *)
Lemma waitpid_loop_correct K D G t th p x ch c status : kernel_ok K D G → K.(pids_lock) = true → K.(threads) !! t = Some th → th.(t_proc) = Some p →
  (∀ t' th', t' ≠ t → K.(threads) !! t' = Some th' → th'.(t_proc) = Some p → th'.(t_wait) = None) →
  K.(procs) !! p = Some x → x.(waitpid) = c.(pid) → K.(procs) !! ch = Some c → c.(parent) = x.(pid) → user_ptr status →
  ∃ r K' D' o, waitpid_loop K t p ch c.(pid) status = Ret (r, K') ∧ kernel_ok K' D' G ∧ K'.(pids_lock) = false ∧ K'.(kproc) = K.(kproc) ∧
    K'.(threads) = <[t := Thread (Some p) o]> K.(threads) ∧
    if c.(exited) then ∃ err, r = Returned err ∧ o = None ∧ ptable D' K'.(procs) = delete c.(pid) (ptable D K.(procs)) ∧
      reported K.(io).(k_mem) status c.(exit_val) err K'.(io).(k_mem)
    else r = Asleep ∧ o = Some (Waiter c.(pid) ch status false) ∧ D' = D ∧ K'.(procs) = K.(procs) ∧ K'.(io) = K.(io).
Proof.
  intros [Hd Hi Ht Hho] Hlock Hth Ep Hno Hp Ew Hch Ec Hs. destruct (tr_owner _ _ _ Ht _ _ _ Hth Ep) as (x' & Hx' & Ex). rewrite Hp in Hx'. injection Hx' as <-.
  unfold waitpid_loop. rewrite Hch. psimpl. destruct c.(exited) eqn:Ecx.
  - set (ths := <[t := Thread (Some p) None]> K.(threads)). assert (tree_ok K.(procs) ths K.(kproc)) as Ht1 by (by apply (tree_setwait _ _ _ _ _ th)).
    destruct (waitpid_finish_correct (put_thread K t (Thread (Some p) None)) D G p x ch c status) as (err & K' & -> & Hko & ? & ? & Eth & ET & Hrep); try done.
    { cbn. intros t' th' [[<- <-]|[Hne Ht']]%lookup_insert_Some E; [done|by apply (Hno t')]. }
    eexists _, K', _, None. split; [done|]. split_and!; try done. by exists err.
  - rewrite Hp. psimpl. rewrite (tr_wait _ _ _ Ht _ _ Hp Ex). psimpl. unfold pid_release_lock. psimpl. rewrite Hlock. psimpl.
    eexists _, _, D, _. split; [done|]. psimpl. split_and!; try done. split; psimpl; [done|done| |done]. apply (tree_setwait _ _ _ _ _ th); try done.
    intros w [= <-]. exists x, c. by rewrite Ecx.
Qed.

(** A thread that is woken finds that the child has exited. *)
Lemma waitpid_resume_correct K D G t p w : kernel_ok K D G → K.(pids_lock) = false → K.(threads) !! t = Some (Thread (Some p) (Some w)) → w.(w_woken) = true →
  ∃ x v err K' D', K.(procs) !! p = Some x ∧ ptable D K.(procs) !! w.(w_pid) = Some (x.(pid), Some v) ∧
    waitpid_resume K t = Ret (Returned err, K') ∧ kernel_ok K' D' G ∧ K'.(pids_lock) = false ∧ K'.(kproc) = K.(kproc) ∧
    K'.(threads) = <[t := Thread (Some p) None]> K.(threads) ∧
    ptable D' K'.(procs) = delete w.(w_pid) (ptable D K.(procs)) ∧ reported K.(io).(k_mem) w.(w_status) v err K'.(io).(k_mem).
Proof.
  intros Hko Hlock Hth Ewk. pose proof Hko as [Hd Hi Ht Hho]. destruct (tr_waiters _ _ _ Ht _ _ _ Hth eq_refl) as (q & [= <-] & x & c & Hp & E1 & Hch & E2 & E3 & E4 & E5).
  rewrite Ewk in E4. destruct (waitpid_loop_correct (set_lock K true) D G t (Thread (Some p) (Some w)) p x w.(w_child) c w.(w_status)) as (r & K' & D' & o & E & Hko' & Hl & Hk & Eth & Hcase).
  - by destruct Hko.
  - done.
  - done.
  - done.
  - intros t' th' Hne Ht' Ep. destruct th'.(t_wait) as [w'|] eqn:Ew'; [|done]. destruct Hne. eapply (tr_unique _ _ _ Ht t' t); [done..|]. right. by rewrite Ew'.
  - done.
  - congruence.
  - done.
  - done.
  - done.
  - rewrite <-E4 in Hcase. destruct Hcase as (err & -> & -> & ET & Hrep). exists x, c.(exit_val), err, K', D'. split; [done|]. split.
    { rewrite <-E2, (ptable_at _ _ _ _ Hi Hch). unfold info. by rewrite <-E4, E3. }
    split_and!; try done; [|by rewrite ET, E2]. unfold waitpid_resume, curproc, pid_acquire_lock. rewrite Hth. psimpl. rewrite Hlock. psimpl. by rewrite <-E2.
Qed.

(** What [sys_waitpid] does to the table of processes and to memory when it is called. *)
Definition readable (m : memory) (status : Z) : Prop := user_range status 4 ∧ mapped m status 4.

Definition waited (T : gmap Z (Z * option Z)) (m : memory) (me q status options : Z) (r : wait_result) (T' : gmap Z (Z * option Z)) (m' : memory) : Prop :=
  if negb (options =? 0) then r = Returned EINVAL ∧ T' = T ∧ m' = m else
  status ≠ 0 ∧ ¬ readable m status ∧ r = Returned EFAULT ∧ T' = T ∧ m' = m ∨
  (status ≠ 0 → readable m status) ∧
  match T !! q with
  | None => r = Returned ESRCH ∧ T' = T ∧ m' = m
  | Some (par, st) =>
      if negb (par =? me) then r = Returned ECHILD ∧ T' = T ∧ m' = m else
      match st with
      | Some v => r = Returned 0 ∧ T' = delete q T ∧ m' = if status =? 0 then m else with_bytes m status (int_bytes v)
      | None => r = Asleep ∧ T' = T ∧ m' = m
      end
  end.

Lemma probe_correct m status : user_ptr status → status ≠ 0 →
  ∃ e buf, copyin m status [0; 0; 0; 0] 0 4 = Ret (e, buf) ∧ (e = 0 ∧ readable m status ∨ e = EFAULT ∧ ¬ readable m status).
Proof.
  intros Hs E. unfold readable. assert (user_range status 4 ∨ ¬ user_range status 4) as [Hu|Hu] by (unfold user_range; lia).
  - destruct (copyin_correct [0; 0; 0; 0] 0 m status 4 Hs) as (e & xs & -> & _ & _ & Hcase); [lia|done|lia|by cbn|]. eexists _, _. split; [done|]. naive_solver.
  - rewrite (copyin_refused _ _ _ _ _ Hs) by (done || lia). eexists _, _. split; [done|]. right. naive_solver.
Qed.

Lemma reported_ok m status v err m' : reported m status v err m' → (status ≠ 0 → readable m status) → err = 0 ∧ m' = if status =? 0 then m else with_bytes m status (int_bytes v).
Proof. unfold reported, readable. destruct (Z.eqb_spec status 0); [done|]. naive_solver. Qed.

Lemma sys_waitpid_correct K D G t p x q status options : kernel_ok K D G → K.(pids_lock) = false → K.(threads) !! t = Some (Thread (Some p) None) →
  awake K.(threads) p → K.(procs) !! p = Some x → user_ptr status →
  ∃ r K' D' o, sys_waitpid K t q status options = Ret (r, K') ∧ kernel_ok K' D' G ∧ K'.(pids_lock) = false ∧ K'.(kproc) = K.(kproc) ∧
    waited (ptable D K.(procs)) K.(io).(k_mem) x.(pid) q status options r (ptable D' K'.(procs)) K'.(io).(k_mem) ∧
    K'.(threads) = <[t := Thread (Some p) o]> K.(threads) ∧
    match r with Returned _ => o = None | Asleep => ∃ ch, o = Some (Waiter q ch status false) end.
Proof.
  intros Hko Hlock Hth Haw Hp Hs. pose proof Hko as [Hd Hi Ht Hho]. unfold sys_waitpid, curproc, pid_acquire_lock. rewrite Hth. psimpl. rewrite Hlock. psimpl.
  set (T := ptable D K.(procs)) in *. set (m := K.(io).(k_mem)).
  assert (∀ e, waited T m x.(pid) q status options (Returned e) T m →
    ∃ r K' D' o, (K0 ← pid_release_lock (set_lock K true); Ret (Returned e, K0)) = Ret (r, K') ∧ kernel_ok K' D' G ∧ K'.(pids_lock) = false ∧ K'.(kproc) = K.(kproc) ∧
      waited T m x.(pid) q status options r (ptable D' K'.(procs)) K'.(io).(k_mem) ∧ K'.(threads) = <[t := Thread (Some p) o]> K.(threads) ∧
      match r with Returned _ => o = None | Asleep => ∃ ch, o = Some (Waiter q ch status false) end) as Hfail.
  { intros e HQ. exists (Returned e), (set_lock K false), D, None. psimpl. rewrite insert_id by done. unfold pid_release_lock. psimpl. split_and!; done. }
  destruct (negb (options =? 0)) eqn:Eopt; [apply Hfail; unfold waited; by rewrite Eopt|].
  assert (∃ e, (if negb (status =? 0) then '(err, _) ← copyin m status [0; 0; 0; 0] 0 4; Ret err else Ret 0) = Ret e ∧
    (e = 0 ∧ (status ≠ 0 → readable m status) ∨ e = EFAULT ∧ status ≠ 0 ∧ ¬ readable m status)) as (e & -> & He).
  { destruct (Z.eqb_spec status 0) as [E|E]; cbn [negb]; [exists 0; split; [done|]; by left|].
    destruct (probe_correct m status Hs E) as (e & buf & -> & Hcase). exists e. split; [done|]. naive_solver. }
  psimpl. destruct He as [[-> Hread]|(-> & Hs0 & Hread)].
  2: { change (EFAULT =? 0) with false. cbn [negb]. apply Hfail. unfold waited. rewrite Eopt. by left. }
  cbn [Z.eqb negb]. rewrite (dir_get _ _ q Hd). psimpl. destruct (D !! q) as [ch|] eqn:Eq.
  2: { apply Hfail. unfold waited. rewrite Eopt. right. split; [done|]. assert (T !! q = None) as -> by (unfold T, ptable; by rewrite lookup_omap, Eq). done. }
  destruct (ix_dir _ _ Hi _ _ Eq) as (c & Hch & <-). rewrite Hch. psimpl. rewrite Hp. psimpl. pose proof (ptable_at _ _ _ _ Hi Hch : T !! _ = _) as HT. unfold info in HT.
  destruct (Z.eqb_spec c.(parent) x.(pid)) as [Ec|Ec]; cbn [negb].
  2: { apply Hfail. unfold waited. rewrite Eopt. right. split; [done|]. by rewrite HT, (proj2 (Z.eqb_neq _ _)). }
  assert (ch ≠ p) as Hcp by (intros ->; pose proof (tr_self _ _ _ Ht _ _ Hch); congruence).
  assert (indexed D (<[p := set_waitpid x c.(pid)]> K.(procs))) as Hi1 by (by apply (indexed_put _ _ _ x)).
  assert (ptable D (<[p := set_waitpid x c.(pid)]> K.(procs)) = T) as ET1 by (by apply (ptable_same _ _ _ x)).
  destruct (waitpid_loop_correct (put_proc (set_lock K true) p (set_waitpid x c.(pid))) D G t (Thread (Some p) None) p (set_waitpid x c.(pid)) ch c status)
    as (r & K' & D' & o & E & Hko' & Hl & Hk & Eth & Hcase).
  - split; psimpl; [done|done|by apply tree_waitpid|]. apply (holds_procs _ _ K.(procs)); [done|..].
    + intros r y [[<- <-]|[_ Hr]]%lookup_insert_Some; [by exists x|by exists y].
    + intros r y Hr _. rewrite lookup_insert_is_Some. destruct (decide (p = r)); [by left|right; split; [done|by eexists]].
  - done.
  - done.
  - done.
  - intros t' th' _ Ht'. by apply (Haw t').
  - apply lookup_insert_eq.
  - done.
  - psimpl. by rewrite lookup_insert_ne.
  - done.
  - done.
  - exists r, K', D', o. split; [done|]. split; [done|]. split; [done|]. split; [done|]. cbn [put_proc set_lock set_procs io spaces pids pids_lock procs threads kproc] in *. unfold waited. rewrite Eopt.
    destruct c.(exited) eqn:Ecx.
    + destruct Hcase as (err & -> & -> & ET & Hrep). rewrite ET1 in ET. destruct (reported_ok _ _ _ _ _ Hrep Hread) as [-> Em]. split_and!; try done. right. split; [done|].
      rewrite HT, Ec, Z.eqb_refl. cbn [negb]. done.
    + destruct Hcase as (-> & -> & -> & Eps & Eio). split_and!; try done; [|by exists ch]. right. split; [done|]. rewrite HT, Ec, Z.eqb_refl. cbn [negb].
      by rewrite Eps, ET1, Eio.
Qed.

(** ** Creation *)

Lemma unused_ptr_fresh {A} (m : gmap positive A) : m !! unused_ptr m = None.
Proof.
  assert (∀ p, is_Some (m !! p) → (p < unused_ptr m)%positive) as Hlt.
  { unfold unused_ptr. apply (map_fold_weak_ind (λ r (m : gmap positive A), ∀ p, is_Some (m !! p) → (p < r)%positive)); [intros p [? ?]; by rewrite lookup_empty in *|].
    intros i v m' r Hi IH p Hp. rewrite lookup_insert_is_Some in Hp. destruct Hp as [<-|[_ Hp]]; [lia|]. pose proof (IH p Hp). lia. }
  destruct (m !! unused_ptr m) eqn:E; [|done]. pose proof (Hlt (unused_ptr m) ltac:(by eexists)). lia.
Qed.

Definition new_proc (q : Z) (l : llist Z) (h : table Z) : proc := Proc 0 0 0 q (-1) (-1) true (Some l) (Some h) 3 0 false.

Lemma proc_create_correct K D : dir_ok K.(pids) D → K.(io).(k_heap) = [] → (size D < 8)%nat →
  ∃ q l h tree, proc_create K = Ret (Some (unused_ptr K.(procs)), 0,
      Kernel K.(io) K.(spaces) tree K.(pids_lock) (<[unused_ptr K.(procs) := new_proc q l h]> K.(procs)) K.(threads) K.(kproc)) ∧
    0 < q ∧ D !! q = None ∧ dir_ok tree (<[q := unused_ptr K.(procs)]> D) ∧ rep l [] ∧ represents h (∅ : gmap hkey Z).
Proof.
  intros Hd Hh Hs. destruct K as [[fs mm bl o] m tree lock ps ths kp]. cbn [io spaces pids pids_lock procs threads kproc k_heap] in *. subst o.
  destruct (dir_alloc _ _ (unused_ptr ps) Hd Hs) as (q & tree' & E & Hq & Hn & Hd'). pose proof Hd as (t & -> & _).
  destruct (create_represents Z) as (h & Eh & Hrep). exists q, (LList ∅ None None 0), h, tree'. split; [|split_and!; try done; apply rep_empty].
  unfold proc_create, kalloc. cbn [kmalloc io k_heap set_io set_heap negb list_create k_fs k_mem k_blocks]. rewrite Eh. cbn [mbind res_bind kmalloc io k_heap set_io set_heap negb pids procs].
  rewrite E. cbn [mbind res_bind]. rewrite (proj2 (Z.ltb_ge q 0)) by lia. done.
Qed.

Lemma thread_fork_correct K p z : K.(io).(k_heap) = [] → K.(procs) !! p = Some z → z.(p_numthreads) = 0 →
  thread_fork K p = Ret (0, Kernel K.(io) K.(spaces) K.(pids) K.(pids_lock) (<[p := set_numthreads z 1]> K.(procs))
    (<[unused_ptr K.(threads) := Thread (Some p) None]> K.(threads)) K.(kproc)).
Proof.
  intros Hh Hp Hn. destruct K as [[fs mm bl o] m tree lock ps ths kp]. cbn [io spaces pids pids_lock procs threads kproc k_heap] in *. subst o.
  unfold thread_fork, kalloc, proc_addthread. cbn [kmalloc io k_heap set_io set_heap negb k_fs k_mem k_blocks]. psimpl. rewrite lookup_insert_eq. psimpl.
  rewrite bool_decide_eq_true_2 by done. psimpl. rewrite Hp. psimpl. rewrite Hn. unfold put_thread, put_proc, set_threads, set_procs. psimpl. by rewrite insert_insert_eq.
Qed.

(** A process that is given nothing but a reference to a directory and an address space. *)
Lemma holds_new (k : kst S) s' (m m' : M) ps G p z h : holds_ok k m ps G → ps !! p = None → z.(exited) = false → z.(p_files) = Some h → represents h (∅ : gmap hkey Z) →
  z.(p_next_fd) = 3 → vfs_ok s' → counted s' (opt_ref z.(p_cwd) ++ held k.(k_blocks) G) → as_live m ⊆ as_live m' →
  (z.(p_addrspace) ≠ 0 → z.(p_addrspace) ∈ as_live m' ∧ z.(p_addrspace) ∉ as_live m) → holds_ok (set_fs k s') m' (<[p := z]> ps) (<[p := (z.(p_cwd), ∅)]> G).
Proof.
  intros Hho Hp Ez Ef Hh En Hs Hc Hm Ha. assert (G !! p = None) as Hg.
  { destruct (G !! p) eqn:E; [|done]. destruct (ho_holder _ _ _ _ Hho p) as (? & ? & _); [by eexists|congruence]. }
  destruct Hho as [H1 H2 H3 H4 H5 H6 H7 H8]. split; cbn [set_fs k_heap k_fs k_blocks]; try done.
  - eapply counted_perm; [|exact Hc]. intros w. rewrite held_insert by done. unfold holds_of. cbn [fst snd]. rewrite !cnt_app.
    assert (nodes (view k.(k_blocks) ∅) = []) as -> by (by vm_compute). change (cnt w []) with 0. lia.
  - intros q y [[<- <-]|[Hne Hq]]%lookup_insert_Some Ey.
    + exists h, ∅. rewrite lookup_insert_eq, En. split; [done|]. split; [done|]. split; [|split; [done|by intros fd [? ?]]].
      split; cbn [files]; [by rewrite kmap_empty|by vm_compute|intros fd c; by rewrite lookup_empty..].
    + destruct (H4 _ _ Hq Ey) as (h' & P & ? & ? & ?). exists h', P. by rewrite lookup_insert_ne.
  - intros q Hq. rewrite lookup_insert_is_Some in Hq. destruct (decide (q = p)) as [->|]; [exists z; by rewrite lookup_insert_eq|].
    rewrite lookup_insert_ne by done. apply H5. by destruct Hq as [?|[_ ?]].
  - intros q y [[<- <-]|[_ Hq]]%lookup_insert_Some; [naive_solver|]. intros. apply Hm. eauto.
  - intros q r y w [[<- <-]|[Hne Hq]]%lookup_insert_Some [[<- <-]|[Hne' Hr]]%lookup_insert_Some Hy E; try done.
    + destruct (Ha Hy) as [_ []]. rewrite E. apply (H6 _ _ Hr). congruence.
    + rewrite E in Hy. destruct (Ha Hy) as [_ []]. rewrite <-E. apply (H6 _ _ Hq). congruence.
    + by eapply (H7 q r).
  - intros q r g g' fd fd' c [[<- <-]|[_ Hq]]%lookup_insert_Some [[<- <-]|[_ Hr]]%lookup_insert_Some; cbn; rewrite ?lookup_empty; try done. by apply (H8 q r).
Qed.

(** The new process shares the directory of another one. *)
Lemma holds_incref (k : kst S) (m : M) ps G p y : holds_ok k m ps G → ps !! p = Some y → y.(exited) = false → y.(p_cwd) ≠ 0 →
  ∃ s, vnode_incref k.(k_fs) y.(p_cwd) = Ret s ∧ vfs_ok s ∧ counted s (opt_ref y.(p_cwd) ++ held k.(k_blocks) G).
Proof.
  intros Hho Hp Ey Hv. destruct (ho_files _ _ _ _ Hho _ _ Hp Ey) as (h & P & _ & Hg & _). pose proof (ho_counted _ _ _ _ Hho) as Hc. pose proof (ho_fs _ _ _ _ Hho) as Hs.
  destruct (holding_incref 0 k.(k_fs) [] k.(k_fs) y.(p_cwd) Hs) as (s & E & Hgift); [split; [apply Hs|apply owes_refl]| |].
  - specialize (Hc y.(p_cwd)). rewrite cnt_app, (held_delete _ _ _ _ _ Hg) in Hc. unfold holds_of in Hc. cbn [fst snd] in Hc. rewrite !cnt_app in Hc.
    pose proof (cnt_elem _ _ (opt_ref_elem _ Hv)). pose proof (cnt_nonneg y.(p_cwd) (owned k.(k_fs))). pose proof (cnt_nonneg y.(p_cwd) (nodes (view k.(k_blocks) P))).
    pose proof (cnt_nonneg y.(p_cwd) (held k.(k_blocks) (delete p G))). lia.
  - exists s. split; [done|]. unfold gift in Hgift. cbn [Z.eqb] in Hgift. destruct Hgift as [_ Hh]. split; [by eapply holding_keeps_ok|].
    unfold opt_ref. rewrite decide_False by done. by apply (counted_holding _ _ _ _ Hs Hc Hh).
Qed.

Lemma ptable_new D ps p z : indexed D ps → ps !! p = None → D !! z.(pid) = None → ptable (<[z.(pid) := p]> D) (<[p := z]> ps) = <[z.(pid) := info z]> (ptable D ps).
Proof.
  intros Hi Hp Hd. apply map_eq. intros q. unfold ptable. rewrite lookup_omap. destruct (decide (q = z.(pid))) as [->|Hne].
  - rewrite !lookup_insert_eq. cbn. by rewrite lookup_insert_eq.
  - rewrite !lookup_insert_ne, lookup_omap by done. destruct (D !! q) as [r|] eqn:Er; [|done]. cbn. rewrite lookup_insert_ne; [done|]. intros ->.
    destruct (ix_dir _ _ Hi _ _ Er) as (x' & ? & ?). congruence.
Qed.

(** The state with the new process [z], its thread and its pid in the list of the parent [p]. *)
Definition with_child K (s : vfs S) (m : M) tree lock (p : positive) (x : proc) (l : llist Z) (z : proc) : kernel :=
  Kernel (set_fs K.(io) s) m tree lock (<[p := set_children x (Some l)]> (<[unused_ptr K.(procs) := z]> K.(procs)))
    (<[unused_ptr K.(threads) := Thread (Some (unused_ptr K.(procs))) None]> K.(threads)) K.(kproc).

Lemma with_child_correct K D G s m tree lock p x l l' cs z h : kernel_ok K D G → K.(procs) !! p = Some x → x.(exited) = false →
  x.(children) = Some l → rep l cs → NoDup cs → (∀ c, c ∈ cs ↔ ∃ q y, K.(procs) !! q = Some y ∧ y.(pid) = c ∧ y.(parent) = x.(pid)) → rep l' (cs ++ [z.(pid)]) →
  dir_ok tree (<[z.(pid) := unused_ptr K.(procs)]> D) → D !! z.(pid) = None → 0 < z.(pid) → z.(parent) = x.(pid) → z.(exited) = false → z.(wait) = true →
  (∃ l0, z.(children) = Some l0 ∧ rep l0 []) → z.(p_numthreads) = 1 → z.(p_files) = Some h → represents h (∅ : gmap hkey Z) → z.(p_next_fd) = 3 →
  vfs_ok s → counted s (opt_ref z.(p_cwd) ++ held K.(io).(k_blocks) G) → as_live K.(spaces) ⊆ as_live m →
  (z.(p_addrspace) ≠ 0 → z.(p_addrspace) ∈ as_live m ∧ z.(p_addrspace) ∉ as_live K.(spaces)) →
  kernel_ok (with_child K s m tree lock p x l' z) (<[z.(pid) := unused_ptr K.(procs)]> D) (<[unused_ptr K.(procs) := (z.(p_cwd), ∅)]> G) ∧
  ptable (<[z.(pid) := unused_ptr K.(procs)]> D) (with_child K s m tree lock p x l' z).(procs) = <[z.(pid) := (x.(pid), None)]> (ptable D K.(procs)).
Proof.
  intros [Hd Hi Ht Hho] Hp Ex Hl Hr Hnd Hcs Hr' Hd' HD H0z Ez1 Ez2 Ez3 Ez4 Ez5 Ez6 Hh Ez7 Hs Hc Hm Ha. unfold with_child.
  set (r := unused_ptr K.(procs)) in *. assert (K.(procs) !! r = None) as Hr0 by apply unused_ptr_fresh. assert (p ≠ r) as Hpr by (intros ->; congruence).
  assert (indexed (<[z.(pid) := r]> D) (<[r := z]> K.(procs))) as Hi1 by (apply indexed_new; [done..|lia]).
  assert (<[r := z]> K.(procs) !! p = Some x) as Hp1 by (by rewrite lookup_insert_ne). split; [split|]; cbn [io spaces pids procs threads kproc].
  - done.
  - by apply (indexed_put _ _ _ x).
  - apply (tree_new D _ _ _ _ _ _ _ _ _ cs); try done. apply unused_ptr_fresh.
  - apply (holds_procs _ _ (<[r := z]> K.(procs))); [by apply (holds_new _ _ K.(spaces) _ _ _ _ _ h)|..].
    + intros q y [[<- <-]|[_ Hq]]%lookup_insert_Some; [by exists x|by exists y].
    + intros q y Hq _. rewrite lookup_insert_is_Some. destruct (decide (p = q)); [by left|right; split; [done|by eexists]].
  - rewrite (ptable_same _ _ _ x), (ptable_new _ _ _ _ Hi Hr0 HD) by done. unfold info. by rewrite Ez1, Ez2.
Qed.

(** The directory of the new process. *)
Lemma share_cwd K G p y z : holds_ok K.(io) K.(spaces) K.(procs) G → K.(procs) !! p = Some y → y.(exited) = false → z.(p_cwd) = 0 → ∀ K',
  K'.(io) = K.(io) → ∃ s, (if negb (y.(p_cwd) =? 0) then
      s ← vnode_incref K'.(io).(k_fs) y.(p_cwd);
      Ret (set_io K' (set_fs K'.(io) s), set_p_cwd z y.(p_cwd))
    else Ret (K', z)) = Ret (set_io K' (set_fs K.(io) s), set_p_cwd z y.(p_cwd)) ∧ vfs_ok s ∧ counted s (opt_ref y.(p_cwd) ++ held K.(io).(k_blocks) G).
Proof.
  intros Hho Hp Ey Ez K' EK. rewrite EK. destruct (Z.eqb_spec y.(p_cwd) 0) as [E|E]; cbn [negb].
  - exists K.(io).(k_fs). rewrite E. split; [|split; [apply Hho|apply (ho_counted _ _ _ _ Hho)]]. destruct K' as [k' ? ? ? ? ? ?]. cbn in EK. subst k'.
    unfold set_io. psimpl. destruct z; cbn in *; subst. by destruct (K.(io)).
  - destruct (holds_incref _ _ _ _ _ _ Hho Hp Ey E) as (s & -> & ? & ?). by exists s.
Qed.

Lemma copy_files_none n i (k : kst S) bl t P h : tab_ok bl t P → k.(k_heap) = [] → (∀ fd, 3 ≤ fd → P !! fd = None) → 3 ≤ i → i + Z.of_nat n ≤ 2 ^ 31 →
  copy_files n i k t h = Ret (k, h).
Proof.
  intros Ht Hh HP. revert i. induction n as [|n IH]; intros i Hi Hn; cbn [copy_files]; [done|]. destruct (fd_key_correct i) as [E _]; [lia|]. rewrite Hh, E. cbn [mbind res_bind].
  rewrite (tab_find _ _ _ i Ht) by lia. rewrite HP by done. cbn [mbind res_bind]. replace (set_heap k []) with k by (destruct k; cbn in *; by subst). apply IH; lia.
Qed.

Lemma kalloc_correct K : K.(io).(k_heap) = [] → kalloc K = (true, K).
Proof. intros Hh. destruct K as [[fs mm bl o] m tree lock ps ths kp]. cbn in *. by subst. Qed.

(** The pid at the end of the list of children. *)
Lemma push_child l cs D ps x q tree : dir_ok tree D → indexed D ps → NoDup cs → (∀ c, c ∈ cs ↔ ∃ q y, ps !! q = Some y ∧ y.(pid) = c ∧ y.(parent) = x.(pid)) → rep l cs →
  ∃ e l', list_push_back l q [] = Ret (e, l', []) ∧ rep l' (cs ++ [q]).
Proof.
  intros Hd Hi Hnd Hcs Hr. pose proof (dir_children _ _ _ _ _ Hd Hi Hnd Hcs). destruct (push_back_correct l cs q [] Hr) as (l' & -> & Hr'); [lia|]. by eexists _, l'.
Qed.

(** The thread of the new process is made after its pid is in the list. *)
Lemma fork_last K s m tree lock p x l z : K.(io).(k_heap) = [] → K.(procs) !! p = Some x → z.(p_numthreads) = 0 →
  thread_fork (Kernel (set_fs K.(io) s) m tree lock (<[p := set_children x (Some l)]> (<[unused_ptr K.(procs) := z]> K.(procs))) K.(threads) K.(kproc)) (unused_ptr K.(procs)) =
  Ret (0, with_child K s m tree lock p x l (set_numthreads z 1)).
Proof.
  intros Hh Hp Hz. assert (p ≠ unused_ptr K.(procs)) as Hpr by (intros E; pose proof (unused_ptr_fresh K.(procs)); congruence).
  rewrite (thread_fork_correct _ _ z); [|done|psimpl; by rewrite lookup_insert_ne, lookup_insert_eq|done]. psimpl. unfold with_child.
  by rewrite insert_insert_ne, insert_insert_eq by done.
Qed.

(** The menu starts a program: a child of the kernel, with a new pid and one thread. *)
Lemma common_prog_correct K D G t p : kernel_ok K D G → K.(pids_lock) = false → K.(threads) !! t = Some (Thread (Some p) None) → (size D < 8)%nat →
  ∃ q K' D' G' t', common_prog K t = Ret (0, Some q, K') ∧ kernel_ok K' D' G' ∧ K'.(pids_lock) = false ∧ K'.(kproc) = K.(kproc) ∧ K'.(io).(k_mem) = K.(io).(k_mem) ∧
    0 < q ∧ ptable D K.(procs) !! q = None ∧ ptable D' K'.(procs) = <[q := (0, None)]> (ptable D K.(procs)) ∧
    K.(threads) !! t' = None ∧ ∃ r, K'.(threads) = <[t' := Thread (Some r) None]> K.(threads).
Proof.
  intros Hko Hlock Hth Hsize. pose proof Hko as [Hd Hi Ht Hho]. pose proof (ho_heap _ _ _ _ Hho) as Hh. destruct (tr_owner _ _ _ Ht _ _ _ Hth eq_refl) as (y & Hy & Ey).
  destruct (tr_kernel _ _ _ Ht) as (x & Hx & Ex0 & Ex & _). destruct (tr_children _ _ _ Ht _ _ Hx Ex) as (l & cs & Hl & Hr & Hnd & Hcs).
  destruct (proc_create_correct (set_lock K true) D Hd Hh Hsize) as (q & l0 & h & tree & Ecr & Hq & HD & Hd' & Hr0 & Hrep). psimpl.
  destruct (push_child _ _ _ _ _ q _ Hd Hi Hnd Hcs Hr) as (e & l' & Epush & Hr'). set (r := unused_ptr K.(procs)).
  assert (K.(procs) !! r = None) as Hrn by apply unused_ptr_fresh. assert (p ≠ r) by (intros ->; congruence). assert (K.(kproc) ≠ r) by (intros E; congruence).
  set (K1 := Kernel K.(io) K.(spaces) tree true (<[r := new_proc q l0 h]> K.(procs)) K.(threads) K.(kproc)).
  destruct (share_cwd K G p y (new_proc q l0 h) Hho Hy Ey eq_refl K1 eq_refl) as (s & Ecwd & Hs & Hc).
  set (z := set_parent (set_p_cwd (new_proc q l0 h) y.(p_cwd)) 0).
  destruct (with_child_correct K D G s K.(spaces) tree false K.(kproc) x l l' cs (set_numthreads z 1) h) as [Hko' ET]; try done.
  { by exists l0. }
  assert ((with_child K s K.(spaces) tree false K.(kproc) x l' (set_numthreads z 1)).(procs) !! r = Some (set_numthreads z 1)) as Hz1.
  { unfold with_child. psimpl. fold r. by rewrite lookup_insert_ne, lookup_insert_eq. }
  eexists q, _, _, _, (unused_ptr K.(threads)). split; [|split; [exact Hko'|]].
  - unfold common_prog, curproc, pid_acquire_lock. rewrite Hth. psimpl. rewrite Hlock. unfold proc_create_runprogram. psimpl. cbn [set_lock procs] in Ecr. rewrite Ecr. psimpl.
    fold r. rewrite (lookup_insert_ne _ r p) by done. rewrite Hy, lookup_insert_eq. psimpl. fold K1. cbn [K1 io] in Ecwd. rewrite Ecwd. psimpl. fold z.
    rewrite kalloc_correct by done. unfold K1, set_io. psimpl. rewrite insert_insert_eq, lookup_insert_ne, Hx by done. psimpl. rewrite Hl. psimpl.
    cbn [set_fs k_heap]. rewrite Hh. change (pid (set_p_cwd (new_proc q l0 h) (p_cwd y))) with q. rewrite Epush. psimpl. unfold pid_release_lock, set_lock, put_proc, set_procs, set_io. psimpl.
    replace (set_heap (set_fs K.(io) s) []) with (set_fs K.(io) s) by (unfold set_heap, set_fs; cbn; by rewrite Hh).
    unfold r. rewrite (fork_last K) by done. psimpl. cbn [Z.eqb negb]. fold r. by rewrite Hz1.
  - split_and!; try done.
    + change q with (set_numthreads z 1).(pid). unfold ptable. rewrite lookup_omap. cbn. by rewrite HD.
    + rewrite ET. cbn. by rewrite Ex0.
    + apply unused_ptr_fresh.
    + by eexists.
Qed.

(** The address space of the child. *)
Definition copies (m : M) (a : Z) : Prop := a ≠ 0 → ∀ q, ∃ b m', as_copy m a q = Ret (0, b, m').

Lemma copy_space K G p y z : holds_ok K.(io) K.(spaces) K.(procs) G → K.(procs) !! p = Some y → copies K.(spaces) y.(p_addrspace) → z.(p_addrspace) = 0 → ∀ K',
  K'.(spaces) = K.(spaces) → ∃ b m, (if negb (y.(p_addrspace) =? 0) then
      '(_, a, m) ← as_copy K'.(spaces) y.(p_addrspace) z.(pid);
      Ret (set_spaces K' m, set_addrspace z a)
    else Ret (K', z)) = Ret (set_spaces K' m, set_addrspace z b) ∧ as_live K.(spaces) ⊆ as_live m ∧ (b ≠ 0 → b ∈ as_live m ∧ b ∉ as_live K.(spaces)).
Proof.
  intros Hho Hp Hcopy Ez K' EK. rewrite EK. destruct (Z.eqb_spec y.(p_addrspace) 0) as [E|E]; cbn [negb].
  - exists 0, K.(spaces). split; [|done]. destruct K' as [? m' ? ? ? ? ?]. cbn in EK. subst m'. unfold set_spaces. psimpl. by destruct z; cbn in *; subst.
  - destruct (Hcopy E z.(pid)) as (b & m & Ec). destruct (law_as_copy K.(spaces) y.(p_addrspace) z.(pid)) as (e & b' & m' & Ec' & Hlaw); [by eapply (ho_space _ _ _ _ Hho)|].
    rewrite Ec' in Ec. injection Ec as -> -> ->. destruct (Hlaw eq_refl) as (_ & Hb & Hlive). exists b, m. rewrite Ec'. split; [done|]. rewrite Hlive. set_solver.
Qed.

(** [fork] makes a child of the caller: a new pid, a copy of the address space, the same
    directory and one thread.  Open files are left out: see [Files.fork_file_dangles]. *)
Lemma sys_fork_correct K D G t p x v P : kernel_ok K D G → K.(pids_lock) = false → K.(threads) !! t = Some (Thread (Some p) None) → (size D < 8)%nat →
  K.(procs) !! p = Some x → G !! p = Some (v, P) → (∀ fd, 3 ≤ fd → P !! fd = None) → copies K.(spaces) x.(p_addrspace) →
  ∃ q K' D' G' t', sys_fork K t = Ret (q, 0, K') ∧ kernel_ok K' D' G' ∧ K'.(pids_lock) = false ∧ K'.(kproc) = K.(kproc) ∧ K'.(io).(k_mem) = K.(io).(k_mem) ∧
    0 < q ∧ ptable D K.(procs) !! q = None ∧ ptable D' K'.(procs) = <[q := (x.(pid), None)]> (ptable D K.(procs)) ∧
    K.(threads) !! t' = None ∧ ∃ r, K'.(threads) = <[t' := Thread (Some r) None]> K.(threads).
Proof.
  intros Hko Hlock Hth Hsize Hx HG HP Hcopy. pose proof Hko as [Hd Hi Ht Hho]. pose proof (ho_heap _ _ _ _ Hho) as Hh.
  destruct (tr_owner _ _ _ Ht _ _ _ Hth eq_refl) as (x' & Hx' & Ex). rewrite Hx in Hx'. injection Hx' as <-. destruct (tr_children _ _ _ Ht _ _ Hx Ex) as (l & cs & Hl & Hr & Hnd & Hcs).
  destruct (ho_files _ _ _ _ Hho _ _ Hx Ex) as (ph & P' & Eph & HG' & Htab & Hnf & _). rewrite HG in HG'. injection HG' as Ev <-.
  destruct (proc_create_correct (set_lock K true) D Hd Hh Hsize) as (q & l0 & h0 & tree & Ecr & Hq & HD & Hd' & Hr0 & Hrep0). psimpl.
  destruct (push_child _ _ _ _ _ q _ Hd Hi Hnd Hcs Hr) as (e & l' & Epush & Hr'). destruct (create_represents Z) as (h & Eh & Hrep). set (r := unused_ptr K.(procs)).
  assert (K.(procs) !! r = None) as Hrn by apply unused_ptr_fresh. assert (p ≠ r) by (intros ->; congruence). set (z0 := new_proc q l0 h0).
  set (K1 := Kernel K.(io) K.(spaces) tree true (<[r := z0]> K.(procs)) K.(threads) K.(kproc)).
  destruct (copy_space K G p x z0 Hho Hx Hcopy eq_refl K1 eq_refl) as (b & m & Espace & Hlive & Hb).
  destruct (share_cwd K G p x (set_addrspace z0 b) Hho Hx Ex eq_refl (set_spaces K1 m) eq_refl) as (s & Ecwd & Hs & Hc).
  set (z1 := set_p_cwd (set_addrspace z0 b) x.(p_cwd)) in *. set (z := set_parent (set_files z1 (Some h)) x.(pid)).
  destruct (with_child_correct K D G s m tree false p x l l' cs (set_numthreads z 1) h) as [Hko' ET]; try done.
  { by exists l0. }
  assert ((with_child K s m tree true p x l' (set_numthreads z 1)).(procs) !! r = Some (set_numthreads z 1)) as Hz1.
  { unfold with_child. psimpl. fold r. by rewrite lookup_insert_ne, lookup_insert_eq. }
  assert (proc_create_fork (set_lock K true) p = Ret (Some r, 0, Kernel (set_fs K.(io) s) m tree true
    (<[p := set_children x (Some l')]> (<[r := z]> K.(procs))) K.(threads) K.(kproc))) as Efork.
  { unfold proc_create_fork. cbn [set_lock procs] in Ecr. rewrite Ecr. psimpl. fold r. fold z0. rewrite (lookup_insert_ne _ r p) by done. rewrite Hx, lookup_insert_eq. psimpl.
    fold K1. cbn [K1 spaces] in Espace. rewrite Espace. psimpl. cbn [set_spaces K1 io] in Ecwd. change (set_p_cwd (set_addrspace z0 b) (p_cwd x)) with z1. change (io K1) with (io K). rewrite Ecwd. psimpl. unfold fork_files, K1, set_io, set_spaces, put_proc, set_procs. psimpl.
    rewrite insert_insert_eq, (lookup_insert_ne _ r p) by done. rewrite Hx. psimpl. rewrite Eph. cbn [set_fs k_heap]. rewrite Hh, Eh. psimpl.
    replace (set_heap (set_fs K.(io) s) []) with (set_fs K.(io) s) by (unfold set_heap, set_fs; cbn; by rewrite Hh).
    rewrite (copy_files_none _ _ (set_fs K.(io) s) _ _ _ h Htab) by (done || lia). psimpl. rewrite lookup_insert_eq. psimpl. rewrite insert_insert_eq.
    rewrite kalloc_correct by done. psimpl. rewrite (lookup_insert_ne _ r p), Hx by done. psimpl. rewrite Hl. psimpl. cbn [set_fs k_heap]. rewrite Hh.
    change (pid z1) with q. rewrite Epush. psimpl. rewrite lookup_insert_ne, lookup_insert_eq by done. psimpl.
    replace (set_heap (set_fs K.(io) s) []) with (set_fs K.(io) s) by (unfold set_heap, set_fs; cbn; by rewrite Hh).
    by rewrite (insert_insert_ne _ r p), insert_insert_eq by done. }
  eexists q, _, _, _, (unused_ptr K.(threads)). split; [|split; [exact Hko'|]].
  - unfold sys_fork, curproc, pid_acquire_lock. rewrite Hth. psimpl. rewrite Hlock. psimpl. rewrite Efork. psimpl. cbn [Z.eqb negb]. rewrite kalloc_correct by done. cbn [negb].
    unfold r. rewrite (fork_last K) by done. psimpl. unfold pid_release_lock. cbn [with_child pids_lock kassert mbind res_bind]. fold r.
    change (procs (set_lock (with_child K s m tree true p x l' (set_numthreads z 1)) false)) with (procs (with_child K s m tree true p x l' (set_numthreads z 1))).
    rewrite Hz1. done.
  - split_and!; try done.
    + change q with (set_numthreads z 1).(pid). unfold ptable. rewrite lookup_omap. cbn. by rewrite HD.
    + apply unused_ptr_fresh.
    + by eexists.
Qed.

(** ** Start *)

(** The start of the kernel: its process, and the first thread as [cpu_create] adds it. *)
Definition boot (k : kst S) (m : M) : res kernel :=
  K ← proc_bootstrap (Kernel k m None false ∅ ∅ 1);
  '(_, K) ← proc_addthread (put_thread K 1 (Thread None None)) K.(kproc) 1;
  Ret K.

Lemma boot_dir (p : positive) : ∃ t, pid_create_tree (@Some positive p) [] = (Some t, []) ∧ dir_ok (Some t) {[0 := p]}.
Proof.
  eexists. split; [done|]. eexists. split; [done|]. split; [|done].
  cbn [wf]. split_and!; [done|done|done|done|vm_compute; congruence|done|..].
  - intros i q Hi. apply (list_lookup_insert_Some (replicate 8 (-1)) 0) in Hi as [(<- & <- & _)|(_ & Hi)]; [by right|]. apply lookup_replicate in Hi as [-> _]. by left.
  - intros i q Hi. apply (list_lookup_insert_Some (replicate 8 None) 0) in Hi as [(<- & _ & _)|(_ & Hi)]; [done|]. by apply lookup_replicate in Hi as [? _].
  - intros _. by exists p.
  - intros i s Hi. apply (lookup_replicate 8 None) in Hi as [-> Hi]. by rewrite (lookup_replicate_2 8 0) by done.
  - intros i s Hi. by apply (lookup_replicate 8 None) in Hi as [? _].
Qed.

Lemma lookup_only {A} (m : gmap positive A) p x q y : m = {[p := x]} → m !! q = Some y → q = p ∧ y = x.
Proof. intros -> [-> ->]%lookup_singleton_Some. done. Qed.

Lemma boot_correct (k : kst S) (m : M) : k.(k_heap) = [] → vfs_ok k.(k_fs) → counted k.(k_fs) [] →
  ∃ K D G, boot k m = Ret K ∧ kernel_ok K D G ∧ K.(pids_lock) = false ∧ K.(io) = k ∧ ptable D K.(procs) = {[0 := (-1, None)]} ∧
    K.(threads) = {[1%positive := Thread (Some K.(kproc)) None]}.
Proof.
  intros Hh Hf Hc. destruct k as [fs mm bl o]. cbn [k_heap k_fs] in *. subst o. destruct (create_represents Z) as (h & Eh & Hrep). destruct (boot_dir 1%positive) as (t & Et & Hd).
  set (x := set_numthreads (new_proc 0 (LList ∅ None None 0) h) 1).
  exists (Kernel (Kst fs mm bl []) m (Some t) false {[1%positive := x]} {[1%positive := Thread (Some 1%positive) None]} 1), {[0 := 1%positive]}, {[1%positive := (0, ∅)]}.
  assert (∀ q y, ({[1%positive := x]} : gmap positive proc) !! q = Some y → q = 1%positive ∧ y = x) as Hps by (intros q y; by apply lookup_only).
  assert (∀ q y, ({[1%positive := Thread (Some 1%positive) None]} : gmap positive thread) !! q = Some y → q = 1%positive ∧ y = Thread (Some 1%positive) None) as Hths
    by (intros q y; by apply lookup_only).
  split_and!; try done.
  - unfold boot, proc_bootstrap, proc_create, kalloc. cbn [kmalloc io k_heap set_io set_heap negb list_create k_fs k_mem k_blocks]. rewrite Eh.
    cbn [mbind res_bind kmalloc io k_heap set_io set_heap negb pids procs]. change (unused_ptr ∅) with 1%positive. rewrite Et. psimpl. cbn [Z.eqb negb]. unfold proc_addthread. psimpl.
    rewrite !lookup_insert_eq. psimpl. rewrite bool_decide_eq_true_2 by done. psimpl. unfold put_thread, put_proc, set_threads, set_procs. psimpl.
    by rewrite !insert_insert_eq.
  - split; cbn [io spaces pids procs threads kproc].
    + done.
    + split.
      * intros q y [-> ->]%Hps. by rewrite lookup_singleton_eq.
      * intros q p [<- <-]%lookup_singleton_Some. exists x. by rewrite lookup_singleton_eq.
    + assert (({[1%positive := x]} : gmap positive proc) !! 1%positive = Some x) as Hx by apply lookup_singleton_eq. split.
      * intros q y [-> ->]%Hps _. exists (LList ∅ None None 0), []. split_and!; [done|apply rep_empty|constructor|]. intros c. split; [by intros ?%elem_of_nil|].
        intros (q & y & [-> ->]%Hps & _ & E). done.
      * by intros q y [-> ->]%Hps _.
      * by intros q y [-> ->]%Hps _ ?.
      * by intros q y [-> ->]%Hps ?.
      * by intros q y [-> ->]%Hps ?.
      * by intros q y [-> ->]%Hps.
      * by exists x.
      * intros q th p [-> ->]%Hths [= <-]. by exists x.
      * by intros q q' th th' p [-> _]%Hths [-> _]%Hths.
      * by intros q th w [-> ->]%Hths.
    + split; cbn [k_heap k_fs k_blocks]; try done.
      * intros q y [-> ->]%Hps _. exists h, ∅. rewrite lookup_singleton_eq. split; [done|]. split; [done|]. split; [|split; [done|by intros fd [? ?]]].
        split; cbn [files]; [by rewrite kmap_empty|by vm_compute|intros fd c; by rewrite lookup_empty..].
      * intros q [g [<- _]%lookup_singleton_Some]. exists x. by rewrite lookup_singleton_eq.
      * by intros q y [-> ->]%Hps.
      * by intros q q' y y' [-> _]%Hps [-> _]%Hps.
      * by intros q q' g g' fd fd' c [<- _]%lookup_singleton_Some [<- _]%lookup_singleton_Some.
Qed.

End Sys.
