(* ===== verification/ProcRun.v ===== *)
(** * Histories of process system calls

    The threads of the system make calls one after the other, from the start of the kernel
    on: the directory lock makes every call, and every half of a [waitpid] that sleeps, one
    step. *)

From S2P Require Import Prelude CString LinkedList Hashtable PidTree UserCopy Uio Vfs VfsDev VfsList VfsRefs Files Proc ProcInv ProcSys.
Import LinkedLists.

(** ** Calls *)

Inductive syscall := Getpid | Fork | Waitpid (pid status options : Z) | Resume | Exit (code : Z) | Run.
Inductive answer := Value (v : Z) | Waited (r : wait_result) | Ended.

(** The table of the processes of a state. *)
Definition kdir {S M} (K : kernel S M) : gmap Z positive :=
  match K.(pids) with Some t => list_to_map (bindings 1 t) | None => ∅ end.
Definition ktable {S M} (K : kernel S M) : gmap Z (Z * option Z) := ptable (kdir K) K.(procs).

Lemma kdir_eq {S M} (K : kernel S M) D : dir_ok K.(pids) D → D = kdir K.
Proof. intros (t & E & _ & ->). unfold kdir. by rewrite E. Qed.

Lemma size_indexed D ps : indexed D ps → (size D ≤ size ps)%nat.
Proof.
  intros Hi. rewrite <-length_map_to_list, <-(length_fmap snd), <-(length_map_to_list ps), <-(length_fmap fst (map_to_list ps)).
  apply submseteq_length, NoDup_submseteq.
  - apply NoDup_fmap_2_strong; [|apply NoDup_map_to_list]. intros [q p] [q' p'] H1%elem_of_map_to_list H2%elem_of_map_to_list E. cbn in E. subst p'.
    destruct (ix_dir _ _ Hi _ _ H1) as (x & Hx & <-), (ix_dir _ _ Hi _ _ H2) as (x' & Hx' & <-). congruence.
  - intros p ([q p'] & -> & Hq%elem_of_map_to_list)%list_elem_of_fmap. destruct (ix_dir _ _ Hi _ _ Hq) as (x & Hx & _). cbn.
    apply list_elem_of_fmap. exists (p', x). split; [done|]. by apply elem_of_map_to_list.
Qed.

Section Run.
Context {S M : Type} `{FL : FsLaws S (memory * uio)} `{AL : AsLaws M}.
#[local] Notation kernel := (kernel S M).
Implicit Types K : kernel.

Definition call K (t : positive) (c : syscall) : res (answer * kernel) :=
  match c with
  | Getpid => '(v, K) ← sys_getpid K t; Ret (Value v, K)
  | Fork => '(v, _, K) ← sys_fork K t; Ret (Value v, K)
  | Waitpid pid status options => '(r, K) ← sys_waitpid K t pid status options; Ret (Waited r, K)
  | Resume => '(r, K) ← waitpid_resume K t; Ret (Waited r, K)
  | Exit code => K ← sys__exit K t code; Ret (Ended, K)
  | Run => '(_, pid, K) ← common_prog K t; pid ← deref pid; Ret (Value pid, K)
  end.

(** No descriptor from 3 on is open. *)
Definition no_open (x : proc) : Prop := ∀ h fd, x.(p_files) = Some h → 3 ≤ fd < 2 ^ 31 → hashtable_find h (key_of fd) = Ret None.

(** What is asked of a call.  Only a thread that does not wait makes one; it resumes when it
    has been woken.  A new process needs a slot in the first block of the directory, and
    [fork] a copy of the address space and no open files, which it shares without counting
    them.  Threads of the kernel wait one at a time; the kernel does not exit. *)
Definition permitted K (t : positive) (c : syscall) (p : positive) (x : proc) (o : option waiter) : Prop :=
  K.(threads) !! t = Some (Thread (Some p) o) ∧ K.(procs) !! p = Some x ∧
  match c with
  | Resume => ∃ w, o = Some w ∧ w.(w_woken) = true
  | Getpid => o = None
  | Fork => o = None ∧ (size K.(procs) < 8)%nat ∧ no_open x ∧ copies K.(spaces) x.(p_addrspace)
  | Run => o = None ∧ (size K.(procs) < 8)%nat
  | Waitpid _ status _ => o = None ∧ awake K.(threads) p ∧ user_ptr status
  | Exit _ => o = None ∧ p ≠ K.(kproc)
  end.

(** What a call of the process [me] does to the table of processes and to memory. *)
Definition answers (T : gmap Z (Z * option Z)) (m : memory) (me : Z) (o : option waiter) (c : syscall) (a : answer) (T' : gmap Z (Z * option Z)) (m' : memory) : Prop :=
  match c with
  | Getpid => a = Value me ∧ T' = T ∧ m' = m
  | Fork => ∃ q, a = Value q ∧ 0 < q ∧ T !! q = None ∧ T' = <[q := (me, None)]> T ∧ m' = m
  | Run => ∃ q, a = Value q ∧ 0 < q ∧ T !! q = None ∧ T' = <[q := (0, None)]> T ∧ m' = m
  | Waitpid q status options => ∃ r, a = Waited r ∧ waited T m me q status options r T' m'
  | Resume => ∃ w v err, o = Some w ∧ T !! w.(w_pid) = Some (me, Some v) ∧ a = Waited (Returned err) ∧ T' = delete w.(w_pid) T ∧ reported m w.(w_status) v err m'
  | Exit code => a = Ended ∧ T' = exit_table me code T ∧ m' = m
  end.

(** A state between calls. *)
Definition good K : Prop := K.(pids_lock) = false ∧ ∃ G, kernel_ok K (kdir K) G.

Lemma good_intro K D G : K.(pids_lock) = false → kernel_ok K D G → good K ∧ D = kdir K.
Proof. intros Hl Hk. pose proof (kdir_eq _ _ (ko_dir _ _ _ Hk)) as ->. split; [|done]. split; [done|]. by exists G. Qed.

Lemma call_correct K t c p x o : good K → permitted K t c p x o →
  ∃ a K', call K t c = Ret (a, K') ∧ good K' ∧ answers (ktable K) K.(io).(k_mem) x.(pid) o c a (ktable K') K'.(io).(k_mem).
Proof.
  intros [Hlock [G Hko]] (Hth & Hp & Hc). unfold ktable. pose proof Hko as [Hd Hi Ht Hho]. pose proof (size_indexed _ _ Hi) as Hsz.
  destruct c as [| |q status options| |code|]; cbn [call answers].
  - subst o. unfold sys_getpid, curproc, pid_acquire_lock, pid_release_lock. rewrite Hth. psimpl. rewrite Hlock. psimpl. rewrite Hp. psimpl.
    eexists _, _. split; [done|]. assert (kdir (set_lock (set_lock K true) false) = kdir K) as E by done. split; [|done]. split; [done|]. exists G. by destruct Hko.
  - destruct Hc as (-> & Hs & Hopen & Hcopy). destruct (tr_owner _ _ _ Ht _ _ _ Hth eq_refl) as (x' & Hx' & Ex). rewrite Hp in Hx'. injection Hx' as <-.
    destruct (ho_files _ _ _ _ Hho _ _ Hp Ex) as (h & P & Ef & HG & Htab & _).
    destruct (sys_fork_correct K (kdir K) G t p x x.(p_cwd) P Hko Hlock Hth) as (q & K' & D' & G' & t' & -> & Hko' & Hl' & _ & Em & Hq & Hn & ET & _); [lia|done|done| |done|].
    { intros fd Hfd. destruct (P !! fd) as [c|] eqn:E; [|done]. destruct (tab_fd _ _ _ Htab _ _ E) as [Hr _].
      pose proof (Hopen h fd Ef ltac:(lia)) as Hf. pose proof (tab_find _ _ _ fd Htab ltac:(lia)) as Hf'. cbn [files] in Hf'. congruence. }
    destruct (good_intro _ _ _ Hl' Hko') as [? ->]. eexists _, K'. split; [done|]. split; [done|]. exists q. by rewrite ET, Em.
  - destruct Hc as (-> & Haw & Hs). destruct (sys_waitpid_correct K (kdir K) G t p x q status options Hko Hlock Hth Haw Hp Hs) as (r & K' & D' & o & -> & Hko' & Hl' & _ & Hw & _).
    destruct (good_intro _ _ _ Hl' Hko') as [? ->]. eexists _, K'. split; [done|]. split; [done|]. by exists r.
  - destruct Hc as (w & -> & Hwk). destruct (waitpid_resume_correct K (kdir K) G t p w Hko Hlock Hth Hwk) as (x' & v & err & K' & D' & Hx' & HT & -> & Hko' & Hl' & _ & _ & ET & Hrep).
    rewrite Hp in Hx'. injection Hx' as <-. destruct (good_intro _ _ _ Hl' Hko') as [? ->]. eexists _, K'. split; [done|]. split; [done|]. by exists w, v, err.
  - destruct Hc as [-> Hk]. destruct (sys__exit_correct K (kdir K) G t p x code Hko Hlock Hth Hk Hp) as (K' & D' & -> & Hko' & Hl' & _ & Em & ET & _).
    destruct (good_intro _ _ _ Hl' Hko') as [? ->]. eexists _, K'. split; [done|]. split; [done|]. by rewrite ET, Em.
  - destruct Hc as [-> Hs]. destruct (common_prog_correct K (kdir K) G t p Hko Hlock Hth) as (q & K' & D' & G' & t' & -> & Hko' & Hl' & _ & Em & Hq & Hn & ET & _); [lia|].
    destruct (good_intro _ _ _ Hl' Hko') as [? ->]. eexists _, K'. split; [done|]. split; [done|]. exists q. by rewrite ET, Em.
Qed.

(** One call of one thread. *)
Definition step K K' : Prop := ∃ t c p x o a, permitted K t c p x o ∧ call K t c = Ret (a, K').

Lemma good_steps K K' : good K → rtc step K K' → good K'.
Proof.
  intros Hg Hs. induction Hs as [K|K K1 K2 (t & c & p & x & o & a & Hc & E) _ IH]; [done|]. apply IH.
  destruct (call_correct _ _ _ _ _ _ Hg Hc) as (a' & K1' & E' & ? & _). rewrite E in E'. by injection E' as _ <-.
Qed.

(** The processes form a forest under the kernel, and nobody waits for a child that has exited without having been woken. *)
Definition forest K : Prop :=
  ktable K !! 0 = Some (-1, None) ∧
  (∀ q par st, ktable K !! q = Some (par, st) → 0 ≤ q ∧ if decide (par = -1) then st = None else par ≠ q ∧ ∃ gp, ktable K !! par = Some (gp, None)) ∧
  ∀ t p w, K.(threads) !! t = Some (Thread (Some p) (Some w)) → ∃ x st, K.(procs) !! p = Some x ∧ ktable K !! w.(w_pid) = Some (x.(pid), st) ∧ (w.(w_woken) = true ↔ st ≠ None).

Lemma good_forest K : good K → forest K.
Proof.
  intros [_ [G [Hd Hi Ht _]]]. unfold forest, ktable. split_and!.
  - destruct (tr_kernel _ _ _ Ht) as (x & Hx & E & Ee & Ep). rewrite <-E, (ptable_at _ _ _ _ Hi Hx). unfold info. by rewrite Ee, Ep.
  - intros q par st (p & x & Hp & <- & E)%ptable_spec; [|done]. injection E as <- <-. split; [by apply (pid_nonneg _ _ Hi p)|]. case_decide as Epar.
    + destruct x.(exited) eqn:Ex; [|done]. by destruct (tr_zombie _ _ _ Ht _ _ Hp Ex).
    + split; [by apply (tr_self _ _ _ Ht p)|]. destruct (tr_parent _ _ _ Ht _ _ Hp Epar) as (r & y & Hy & <- & Ey). exists y.(parent).
      rewrite (ptable_at _ _ _ _ Hi Hy). unfold info. by rewrite Ey.
  - intros t p w Hth. destruct (tr_waiters _ _ _ Ht _ _ _ Hth eq_refl) as (q & [= <-] & x & c & Hx & _ & Hc & E1 & E2 & E3 & _). exists x. eexists. split; [done|].
    rewrite <-E1, <-E2, E3, (ptable_at _ _ _ _ Hi Hc). split; [done|]. by destruct c.(exited).
Qed.

(** ** The lock on the error paths *)

Lemma kalloc_lock K ok K' : kalloc K = (ok, K') → K'.(pids_lock) = K.(pids_lock).
Proof. unfold kalloc. destruct (kmalloc _). by intros [= _ <-]. Qed.

(** What is known of the calls that a computation made. *)
Ltac lock_fact E := apply kalloc_lock in E.

(** Case analysis on how a computation returned. *)
Ltac returned :=
  let R := fresh "R" in intros R; cbn zeta in R; repeat (res_inv; match goal with
  | H : match ?x with _ => _ end = Ret _ |- _ => destruct x eqn:?
  | H : pair _ _ = pair _ _ |- _ => injection H as H
  | E : kalloc _ = _ |- _ => apply kalloc_lock in E
  | E : _ = Ret _ |- _ => lock_fact E
  end); res_inv; simplify_eq;
  cbn [set_io set_spaces set_pids set_lock set_procs set_threads put_proc put_thread pids_lock] in *; try congruence.

Lemma proc_destroy_lock K p K' : proc_destroy K p = Ret K' → K'.(pids_lock) = K.(pids_lock).
Proof. unfold proc_destroy. returned. Qed.

Lemma proc_create_lock K r e K' : proc_create K = Ret (r, e, K') → K'.(pids_lock) = K.(pids_lock).
Proof. unfold proc_create. returned. Qed.

Lemma proc_detatch_lock K p K' : proc_detatch K p = Ret K' → K'.(pids_lock) = K.(pids_lock).
Proof. unfold proc_detatch. returned. Qed.

Lemma cv_broadcast_lock K p K' : cv_broadcast K p = Ret K' → K'.(pids_lock) = K.(pids_lock).
Proof. unfold cv_broadcast. returned. Qed.

Ltac lock_fact E ::= first [apply proc_destroy_lock in E | apply proc_create_lock in E | apply proc_detatch_lock in E | apply cv_broadcast_lock in E].

Lemma orphan_children_lock fuel K p K' : orphan_children fuel K p = Ret K' → K'.(pids_lock) = K.(pids_lock).
Proof.
  revert K. induction fuel as [|fuel IH]; intros K; cbn [orphan_children]; [done|]. returned.
  all: match goal with E : orphan_children _ _ _ = _ |- _ => apply IH in E end.
  all: cbn [set_procs put_proc pids_lock] in *; congruence.
Qed.

Lemma proc_exit_lock K p c K' : proc_exit K p c = Ret K' → K'.(pids_lock) = K.(pids_lock).
Proof.
  unfold proc_exit. returned. all: match goal with E : orphan_children _ _ _ = _ |- _ => apply orphan_children_lock in E end.
  all: cbn [set_io set_procs put_proc pids_lock] in *; congruence.
Qed.

Lemma fork_files_lock K par p K' : fork_files K par p = Ret K' → K'.(pids_lock) = K.(pids_lock).
Proof. unfold fork_files. returned. Qed.

Ltac lock_fact E ::= first [apply proc_create_lock in E | apply proc_exit_lock in E | apply fork_files_lock in E].

Lemma proc_create_fork_lock K p r e K' : proc_create_fork K p = Ret (r, e, K') → K'.(pids_lock) = K.(pids_lock).
Proof. unfold proc_create_fork. returned. Qed.

Lemma sys_fork_lock K t v e K' : sys_fork K t = Ret (v, e, K') → e ≠ 0 → K'.(pids_lock) = true.
Proof.
  unfold sys_fork, pid_acquire_lock. intros E He. revert E. returned.
  all: repeat match goal with E : proc_create_fork _ _ = _ |- _ => apply proc_create_fork_lock in E end.
  all: cbn [set_lock pids_lock] in *; congruence.
Qed.

(** ** Properties *)


(** C4: While memory lasts and there are at most eight processes, the kernel included, whichever threads make whichever
    calls from the start of the kernel on (one thread of a process waiting at a time, [fork] only of processes that have no
    file but the console open and whose address space can be copied, the kernel not exiting), the processes are a forest under the kernel: the parent of a process has not exited, a process that has exited has a parent
    to ask for it, and a thread that waits for a child has been woken as soon as the child has exited; the directory lock is
    free between these calls and every one of them returns. *)
Theorem process_forest (k : kst S) (m : M) : k.(k_heap) = [] → vfs_ok k.(k_fs) → counted k.(k_fs) [] →
  ∃ K0, boot k m = Ret K0 ∧ ∀ K, rtc step K0 K → forest K ∧ K.(pids_lock) = false ∧
    ∀ t c p x o, permitted K t c p x o → ∃ a K', call K t c = Ret (a, K') ∧ step K K'.
Proof.
  intros Hh Hf Hc. destruct (boot_correct k m Hh Hf Hc) as (K0 & D & G & E & Hko & Hl & _). exists K0. split; [done|]. intros K Hs.
  pose proof (good_steps K0 K (proj1 (good_intro _ _ _ Hl Hko)) Hs) as Hg. split; [by apply good_forest|]. split; [apply Hg|].
  intros t c p x o Hc'. destruct (call_correct K t c p x o Hg Hc') as (a & K' & E' & _). exists a, K'. split; [done|]. by exists t, c, p, x, o, a.
Qed.


(** C38: Every time [fork] reports an error, which it does as soon as there is no memory for the process, it has
    returned with the lock of the directory taken: the next [getpid], [fork], [waitpid] or [_exit] of any thread waits for
    the lock for ever. *)
Theorem fork_failure_keeps_lock K t p : K.(pids_lock) = false → K.(threads) !! t = Some (Thread (Some p) None) →
  (∀ v e K', sys_fork K t = Ret (v, e, K') → e ≠ 0 → K'.(pids_lock) = true ∧
    ∀ t' p' w, K'.(threads) !! t' = Some (Thread (Some p') w) → sys_getpid K' t' = Diverge ∧ sys_fork K' t' = Diverge ∧
      (∀ pid status options, sys_waitpid K' t' pid status options = Diverge) ∧ ∀ code, sys__exit K' t' code = Diverge) ∧
  (∀ o, K.(io).(k_heap) = false :: o → ∃ K', sys_fork K t = Ret (-1, ENOMEM, K')).
Proof.
  intros Hlock Hth. split.
  - intros v e K' E He. assert (K'.(pids_lock) = true) as Hl' by by apply (sys_fork_lock K t v e).
    split; [done|]. intros t' p' w Ht'. unfold sys_getpid, sys_fork, sys_waitpid, sys__exit, curproc, pid_acquire_lock. rewrite Ht', Hl'. done.
  - intros o Eh. unfold sys_fork, curproc, pid_acquire_lock. rewrite Hth. psimpl. rewrite Hlock. psimpl.
    unfold proc_create_fork, proc_create, kalloc. psimpl. rewrite Eh. cbn [kmalloc negb mbind res_bind]. change (ENOMEM =? 0) with false. cbn [negb]. by eexists.
Qed.

End Run.

(** ** A small system *)

(** Address spaces as a set of pointers. *)
#[global] Instance set_asops : AsOps (gmap Z unit) := {
  as_copy m a _ := Ret (0, unused m, <[unused m := tt]> m);
  as_destroy m a := Ret (delete a m)
}.

#[global] Instance set_aslaws : AsLaws (gmap Z unit).
Proof.
  refine {| as_live := dom |}.
  - intros m a q Ha. eexists _, _, _. split; [done|]. intros _. pose proof (unused_pos m). split; [lia|]. split; [apply not_elem_of_dom, unused_None|apply dom_insert_L].
  - intros m a Ha. eexists. split; [done|]. apply dom_delete_L.
Defined.

(** The kernel with the null device, after its start, with a program, and with the menu waiting for it. *)
Definition off : kernel (gmap Z device) (gmap Z unit) := Kernel null_system ∅ None false ∅ ∅ 1.
Definition started : kernel (gmap Z device) (gmap Z unit) := match boot null_system ∅ with Ret K => K | _ => off end.
Definition running : kernel (gmap Z device) (gmap Z unit) := match call started 1 Run with Ret (_, K) => K | _ => off end.
Definition first_pid : Z := match call started 1 Run with Ret (Value q, _) => q | _ => 0 end.
Definition waiting : kernel (gmap Z device) (gmap Z unit) := match call running 1 (Waitpid first_pid 0 0) with Ret (_, K) => K | _ => off end.

Lemma null_counted : counted null_system.(k_fs) [].
Proof. intros w. rewrite app_nil_r. apply (ok_owned _ null_added_ok). Qed.

Lemma started_good : good started.
Proof.
  destruct (boot_correct null_system (∅ : gmap Z unit) eq_refl null_added_ok null_counted) as (K & D & G & E & Hko & Hl & _).
  unfold started. rewrite E. by apply (good_intro K D G).
Qed.

Definition proc_at (K : kernel (gmap Z device) (gmap Z unit)) (p : positive) : proc :=
  default (new_proc 0 (LList ∅ None None 0) (empty_table Z)) (K.(procs) !! p).

Lemma run_permitted : permitted started 1 Run 1 (proc_at started 1) None.
Proof. split; [by vm_compute|]. split; [by vm_compute|]. split; [done|]. vm_compute. lia. Qed.

Lemma running_good : good running.
Proof.
  destruct (call_correct _ _ _ _ _ _ started_good run_permitted) as (a & K' & E & Hg & _). unfold running. by rewrite E.
Qed.

(** No thread but the first has a pointer to wait for. *)
Lemma running_awake : awake running.(threads) 1.
Proof.
  assert (running.(threads) = {[1%positive := Thread (Some 1%positive) None; 2%positive := Thread (Some 2%positive) None]}) as -> by by vm_compute.
  intros t th [[<- <-]|[_ [<- <-]%lookup_singleton_Some]]%lookup_insert_Some; done.
Qed.

Lemma wait_permitted : permitted running 1 (Waitpid first_pid 0 0) 1 (proc_at running 1) None.
Proof. split; [by vm_compute|]. split; [by vm_compute|]. split; [done|]. split; [apply running_awake|done]. Qed.

Lemma waiting_good : good waiting.
Proof.
  destruct (call_correct _ _ _ _ _ _ running_good wait_permitted) as (a & K' & E & Hg & _). unfold waiting. by rewrite E.
Qed.


Lemma process_forest_witness : ∃ K0 : kernel (gmap Z device) (gmap Z unit), boot null_system ∅ = Ret K0 ∧ ∀ K, rtc step K0 K → forest K ∧ K.(pids_lock) = false ∧
  ∀ t c p x o, permitted K t c p x o → ∃ a K', call K t c = Ret (a, K') ∧ step K K'.
Proof. apply process_forest; [done|apply null_added_ok|apply null_counted]. Defined.


Definition out_of_memory : kernel (gmap Z device) (gmap Z unit) := set_io started (set_heap null_system [false]).

Lemma fork_failure_keeps_lock_witness :
  (∀ v e K', sys_fork out_of_memory 1 = Ret (v, e, K') → e ≠ 0 → K'.(pids_lock) = true ∧
    ∀ t' p' w, K'.(threads) !! t' = Some (Thread (Some p') w) → sys_getpid K' t' = Diverge ∧ sys_fork K' t' = Diverge ∧
      (∀ pid status options, sys_waitpid K' t' pid status options = Diverge) ∧ ∀ code, sys__exit K' t' code = Diverge) ∧
  (∀ o, out_of_memory.(io).(k_heap) = false :: o → ∃ K', sys_fork out_of_memory 1 = Ret (-1, ENOMEM, K')).
Proof. apply (fork_failure_keeps_lock out_of_memory 1 1); by vm_compute. Defined.
