(* ===== verification/Umalloc.v ===== *)
(** * The user-level allocator (userland/lib/libc/stdlib/malloc.c)

    The memory of the process is a map from addresses to words of 32 bits, from the start
    of the heap to the break; an access outside of it, or to a word that has not been
    written, is [Undef].  A header is two words of bit fields.  [errx] ends the program,
    which is [Panic].  Whether [sbrk] succeeds is a script as for [kmalloc]. *)

From S2P Require Import Prelude.

(** ** Headers *)

Definition MBLOCKSIZE : Z := 8.
Definition MBLOCKSHIFT : Z := 3.
Definition MMAGIC : Z := 2.
Definition PAGE_SIZE : Z := 4096.

Record mheader := Mheader {
  mh_prevblock : Z;
  mh_pad : Z;
  mh_magic1 : Z;
  mh_nextblock : Z;
  mh_inuse : Z;
  mh_magic2 : Z
}.

(** The first field of a word has its highest bits. *)
Definition pack (hi mid lo : Z) : Z := Z.lor (Z.shiftl hi 3) (Z.lor (Z.shiftl mid 2) lo).

Definition unpack (w0 w1 : Z) : mheader :=
  Mheader (Z.shiftr w0 3) (Z.land (Z.shiftr w0 2) 1) (Z.land w0 3) (Z.shiftr w1 3) (Z.land (Z.shiftr w1 2) 1) (Z.land w1 3).

Definition M_NEXTOFF (mh : mheader) : Z := u32 (Z.shiftl mh.(mh_nextblock) MBLOCKSHIFT).
Definition M_PREVOFF (mh : mheader) : Z := u32 (Z.shiftl mh.(mh_prevblock) MBLOCKSHIFT).
Definition M_SIZE (mh : mheader) : Z := u32 (M_NEXTOFF mh - MBLOCKSIZE).
Definition M_OK (mh : mheader) : bool := (mh.(mh_magic1) =? MMAGIC) && (mh.(mh_magic2) =? MMAGIC).
Definition M_MKFIELD (off : Z) : Z := Z.shiftr off MBLOCKSHIFT.

Definition set_prevblock (mh : mheader) x : mheader := Mheader x mh.(mh_pad) mh.(mh_magic1) mh.(mh_nextblock) mh.(mh_inuse) mh.(mh_magic2).
Definition set_nextblock (mh : mheader) x : mheader := Mheader mh.(mh_prevblock) mh.(mh_pad) mh.(mh_magic1) x mh.(mh_inuse) mh.(mh_magic2).
Definition set_inuse (mh : mheader) x : mheader := Mheader mh.(mh_prevblock) mh.(mh_pad) mh.(mh_magic1) mh.(mh_nextblock) x mh.(mh_magic2).

(** ** The state *)

Record uheap := Uheap {
  __heapbase : Z;
  __heaptop : Z;
  ustart : Z;        (* where the break was at first *)
  ubreak : Z;
  uwords : gmap Z Z;
  usbrks : script
}.

Definition set_words (h : uheap) m : uheap := Uheap h.(__heapbase) h.(__heaptop) h.(ustart) h.(ubreak) m h.(usbrks).
Definition set_bounds (h : uheap) b t : uheap := Uheap b t h.(ustart) h.(ubreak) h.(uwords) h.(usbrks).

Definition accessible (h : uheap) (a : Z) : bool := (h.(ustart) <=? a) && (a + 4 <=? h.(ubreak)).

Definition load (h : uheap) (a : Z) : res Z := if accessible h a then deref (h.(uwords) !! a) else Undef.
Definition store (h : uheap) (a w : Z) : res uheap := if accessible h a then Ret (set_words h (<[a := w]> h.(uwords))) else Undef.

(** [*mh], and assignments to its fields. *)
Definition get_mh (h : uheap) (a : Z) : res mheader :=
  w0 ← load h a;
  w1 ← load h (a + 4);
  Ret (unpack w0 w1).

Definition put_mh (h : uheap) (a : Z) (mh : mheader) : res uheap :=
  h ← store h a (pack mh.(mh_prevblock) mh.(mh_pad) mh.(mh_magic1));
  store h (a + 4) (pack mh.(mh_nextblock) mh.(mh_inuse) mh.(mh_magic2)).

Definition M_NEXT (a : Z) (mh : mheader) : Z := u32 (a + M_NEXTOFF mh).
Definition M_PREV (a : Z) (mh : mheader) : Z := u32 (a - M_PREVOFF mh).
Definition M_DATA (a : Z) : Z := u32 (a + MBLOCKSIZE).

(** The old break, or -1; the change is signed. *)
Definition sbrk (h : uheap) (change : Z) : Z * uheap :=
  let '(ok, o) := kmalloc h.(usbrks) in
  if ok then (h.(ubreak), Uheap h.(__heapbase) h.(__heaptop) h.(ustart) (u32 (h.(ubreak) + i32 change)) h.(uwords) o)
  else (2 ^ 32 - 1, Uheap h.(__heapbase) h.(__heaptop) h.(ustart) h.(ubreak) h.(uwords) o).

(** ** malloc *)

Definition __malloc_init (h : uheap) : res uheap :=
  _ ← kassert ((h.(__heapbase) =? 0) && (h.(__heaptop) =? 0));
  let '(x, h) := sbrk h 0 in
  if (x =? 2 ^ 32 - 1) || (x =? 0) then Panic else
  let h := set_bounds h x x in
  if negb (x mod MBLOCKSIZE =? 0) then
    let adjust := MBLOCKSIZE - x mod MBLOCKSIZE in
    let '(y, h) := sbrk h adjust in
    if (y =? 2 ^ 32 - 1) || negb (y =? x) then Panic else
    Ret (set_bounds h (u32 (x + adjust)) (u32 (x + adjust)))
  else Ret h.

(** 0 is [NULL]. *)
Definition __malloc_sbrk (h : uheap) (size : Z) : res (Z * uheap) :=
  let '(x, h) := sbrk h size in
  if x =? 2 ^ 32 - 1 then Ret (0, h) else
  if negb (x =? h.(__heaptop)) then Panic else
  Ret (x, set_bounds h h.(__heapbase) (u32 (h.(__heaptop) + size))).

Definition __malloc_split (h : uheap) (mh size : Z) : res uheap :=
  _ ← kassert (size mod MBLOCKSIZE =? 0);
  x ← get_mh h mh;
  if u32 (M_SIZE x - size) <? 2 * MBLOCKSIZE then Ret h else
  let mhnext := M_NEXT mh x in
  let oldsize := M_SIZE x in
  let x := set_nextblock x (M_MKFIELD (u32 (size + MBLOCKSIZE))) in
  h ← put_mh h mh x;
  let mhnew := M_NEXT mh x in
  _ ← kassert (negb (mhnew =? mhnext));
  let y := Mheader (M_MKFIELD (u32 (size + MBLOCKSIZE))) 0 MMAGIC (M_MKFIELD (u32 (oldsize - size))) 0 MMAGIC in
  h ← put_mh h mhnew y;
  if negb (mhnext =? h.(__heaptop)) then
    z ← get_mh h mhnext;
    put_mh h mhnext (set_prevblock z y.(mh_nextblock))
  else Ret h.

(** The search: the block it has found, or the last header, the size of the last block and where it ended. *)
Inductive search := Found (p : Z) (h : uheap) | Nothing (mh : option Z) (rightprevblock i : Z).

Fixpoint first_fit (fuel : nat) (h : uheap) (i : Z) (mh : option Z) (rightprevblock size : Z) : res search :=
  if h.(__heaptop) <=? i then Ret (Nothing mh rightprevblock i) else
  match fuel with
  | O => Diverge
  | S fuel' =>
      x ← get_mh h i;
      _ ← kassert (M_OK x);
      _ ← kassert (x.(mh_prevblock) =? rightprevblock);
      if negb (x.(mh_inuse) =? 0) || (M_SIZE x <? size) then
        first_fit fuel' h (u32 (i + M_NEXTOFF x)) (Some i) x.(mh_nextblock) size
      else
        h ← __malloc_split h i size;
        x ← get_mh h i;
        h ← put_mh h i (set_inuse x 1);
        Ret (Found (M_DATA i) h)
  end.

(** The turns that the search can take. *)
Definition search_fuel (h : uheap) : nat := Z.to_nat ((h.(__heaptop) - h.(__heapbase)) / MBLOCKSIZE).

(** [if (mh != NULL && !mh->mh_inuse)] *)
Definition free_top (h : uheap) (mh : option Z) : res (option (Z * mheader)) :=
  match mh with
  | None => Ret None
  | Some a => x ← get_mh h a; Ret (if x.(mh_inuse) =? 0 then Some (a, x) else None)
  end.

Definition malloc (h : uheap) (size : Z) : res (Z * uheap) :=
  h ← (if h.(__heapbase) =? 0 then __malloc_init h else Ret h);
  _ ← kassert (negb ((h.(__heapbase) =? 0) || (h.(__heaptop) =? 0) || (h.(__heaptop) <? h.(__heapbase))));
  let size := Z.land (u32 (size + MBLOCKSIZE - 1)) (u32 (Z.lnot (MBLOCKSIZE - 1))) in
  r ← first_fit (search_fuel h) h h.(__heapbase) None 0 size;
  match r with
  | Found p h => Ret (p, h)
  | Nothing mh rightprevblock i =>
      _ ← kassert (i =? h.(__heaptop));
      top ← free_top h mh;
      morespace ← (match top with
                   | Some (_, x) => _ ← kassert (M_SIZE x <? size); Ret (u32 (size - M_SIZE x))
                   | None => Ret (u32 (MBLOCKSIZE + size))
                   end);
      let morespace := u32 (PAGE_SIZE * (u32 (morespace + PAGE_SIZE - 1) / PAGE_SIZE)) in
      '(p, h) ← __malloc_sbrk h morespace;
      if p =? 0 then Ret (0, h) else
      '(a, h) ← (match top with
                 | Some (a, x) =>
                     h ← put_mh h a (set_inuse (set_nextblock x (M_MKFIELD (u32 (M_NEXTOFF x + morespace)))) 1);
                     Ret (a, h)
                 | None => h ← put_mh h p (Mheader rightprevblock 0 MMAGIC (M_MKFIELD morespace) 1 MMAGIC); Ret (p, h)
                 end);
      h ← __malloc_split h a size;
      Ret (M_DATA a, h)
  end.

(** ** free *)

Fixpoint deadbeef_loop (n : nat) (h : uheap) (x : Z) : res uheap :=
  match n with
  | O => Ret h
  | S n' => h ← store h x 0xdeadbeef; deadbeef_loop n' h (x + 4)
  end.

Definition __malloc_deadbeef (h : uheap) (ptr size : Z) : res uheap := deadbeef_loop (Z.to_nat (size / 4)) h ptr.

Definition __malloc_trymerge (h : uheap) (mh mhnext : Z) : res uheap :=
  x ← get_mh h mh;
  y ← get_mh h mhnext;
  _ ← kassert (x.(mh_nextblock) =? y.(mh_prevblock));
  if negb (x.(mh_inuse) =? 0) || negb (y.(mh_inuse) =? 0) then Ret h else
  let mhnextnext := M_NEXT mhnext y in
  let x := set_nextblock x (M_MKFIELD (u32 (MBLOCKSIZE + M_SIZE x + MBLOCKSIZE + M_SIZE y))) in
  h ← put_mh h mh x;
  h ← (if negb (mhnextnext =? h.(__heaptop)) then
         z ← get_mh h mhnextnext;
         put_mh h mhnextnext (set_prevblock z x.(mh_nextblock))
       else Ret h);
  __malloc_deadbeef h mhnext MBLOCKSIZE.

Definition free (h : uheap) (x : Z) : res uheap :=
  if x =? 0 then Ret h else
  _ ← kassert (negb ((h.(__heapbase) =? 0) || (h.(__heaptop) =? 0) || (h.(__heaptop) <? h.(__heapbase))));
  if (x <? h.(__heapbase)) || (h.(__heaptop) <=? x) then Panic else
  let mh := x - MBLOCKSIZE in
  y ← get_mh h mh;
  _ ← kassert (M_OK y);
  _ ← kassert (negb (y.(mh_inuse) =? 0));
  let y := set_inuse y 0 in
  h ← put_mh h mh y;
  h ← __malloc_deadbeef h (M_DATA mh) (M_SIZE y);
  let mhnext := M_NEXT mh y in
  h ← (if negb (mhnext =? h.(__heaptop)) then __malloc_trymerge h mh mhnext else Ret h);
  if negb (mh =? h.(__heapbase)) then
    y ← get_mh h mh;
    __malloc_trymerge h (M_PREV mh y) mh
  else Ret h.

(** ** The heap as a list of blocks

    A block is its size with the header, and whether it is in use. *)

Notation block := (Z * bool)%type.

Definition total (bs : list block) : Z := foldr (λ b s, b.1 + s) 0 bs.
Definition size_ok (b : block) : Prop := b.1 mod 8 = 0 ∧ 8 ≤ b.1.

(** The size of the last block, or [p]. *)
Definition prev_size (p : Z) (bs : list block) : Z := from_option fst p (last bs).

Definition mk (prev n : Z) (u : bool) : mheader := Mheader (prev / 8) 0 MMAGIC (n / 8) (Z.b2z u) MMAGIC.
Definition with_mh (m : gmap Z Z) (a : Z) (mh : mheader) : gmap Z Z :=
  <[a + 4 := pack mh.(mh_nextblock) mh.(mh_inuse) mh.(mh_magic2)]> (<[a := pack mh.(mh_prevblock) mh.(mh_pad) mh.(mh_magic1)]> m).
Definition has_mh (m : gmap Z Z) (a : Z) (mh : mheader) : Prop :=
  m !! a = Some (pack mh.(mh_prevblock) mh.(mh_pad) mh.(mh_magic1)) ∧ m !! (a + 4) = Some (pack mh.(mh_nextblock) mh.(mh_inuse) mh.(mh_magic2)).

(** The headers of the blocks from the address [a] on, [p] being the size of the block before. *)
Fixpoint layout (m : gmap Z Z) (a p : Z) (bs : list block) : Prop :=
  match bs with
  | [] => True
  | (n, u) :: bs => has_mh m a (mk p n u) ∧ layout m (a + n) n bs
  end.

Record laid (h : uheap) (bs : list block) : Prop := Laid {
  ld_base : 0 < h.(__heapbase);
  ld_align : h.(__heapbase) mod 8 = 0;
  ld_start : h.(ustart) ≤ h.(__heapbase);
  ld_top : h.(__heaptop) = h.(__heapbase) + total bs;
  ld_break : h.(ubreak) = h.(__heaptop);
  ld_small : h.(__heaptop) ≤ 2 ^ 31;
  ld_sizes : Forall size_ok bs;
  ld_layout : layout h.(uwords) h.(__heapbase) 0 bs
}.

(** ** Headers *)

Lemma land_shiftl_low hi x k : 0 ≤ k → 0 ≤ x < 2 ^ k → Z.land (Z.shiftl hi k) x = 0.
Proof.
  intros Hk Hx. apply Z.bits_inj'. intros i Hi. rewrite Z.land_spec, Z.bits_0, Z.shiftl_spec by lia. destruct (decide (i < k)).
  - by rewrite Z.testbit_neg_r by lia.
  - destruct (decide (x = 0)) as [->|]; [by rewrite Z.bits_0, andb_false_r|]. rewrite (Z.bits_above_log2 x); [by rewrite andb_false_r|lia|].
    apply Z.log2_lt_pow2; [lia|]. pose proof (Z.pow_le_mono_r 2 k i). lia.
Qed.

Lemma lor_shiftl_low hi x k : 0 ≤ k → 0 ≤ x < 2 ^ k → Z.lor (Z.shiftl hi k) x = hi * 2 ^ k + x.
Proof. intros Hk Hx. pose proof (Z.add_lor_land (Z.shiftl hi k) x) as E. rewrite (land_shiftl_low hi x k Hk Hx), Z.add_0_r in E. rewrite E. by rewrite Z.shiftl_mul_pow2. Qed.

Lemma pack_sum hi mid lo : 0 ≤ mid < 2 → 0 ≤ lo < 4 → pack hi mid lo = hi * 8 + mid * 4 + lo.
Proof. intros. unfold pack. rewrite (lor_shiftl_low mid lo 2) by lia. rewrite lor_shiftl_low by lia. lia. Qed.

Lemma unpack_pack p pad m n u k : 0 ≤ pad < 2 → 0 ≤ m < 4 → 0 ≤ u < 2 → 0 ≤ k < 4 → unpack (pack p pad m) (pack n u k) = Mheader p pad m n u k.
Proof.
  intros. rewrite !pack_sum by done. unfold unpack.
  assert (∀ x, Z.land x 3 = x mod 4) as E3 by (intros x; apply (Z.land_ones x 2); lia).
  assert (∀ x, Z.land x 1 = x mod 2) as E1 by (intros x; apply (Z.land_ones x 1); lia).
  rewrite !E3, !E1, !Z.shiftr_div_pow2 by lia. f_equal; zdiv_lia.
Qed.

(** Headers that blocks have. *)
Lemma mk_next p n u : n mod 8 = 0 → 0 ≤ n < 2 ^ 32 → M_NEXTOFF (mk p n u) = n.
Proof. intros Hn Hr. unfold M_NEXTOFF, MBLOCKSHIFT. cbn [mk mh_nextblock]. rewrite Z.shiftl_mul_pow2 by lia. rewrite u32_id; zdiv_lia. Qed.

Lemma mk_prev p n u : p mod 8 = 0 → 0 ≤ p < 2 ^ 32 → M_PREVOFF (mk p n u) = p.
Proof. intros Hn Hr. unfold M_PREVOFF, MBLOCKSHIFT. cbn [mk mh_prevblock]. rewrite Z.shiftl_mul_pow2 by lia. rewrite u32_id; zdiv_lia. Qed.

Lemma mk_size p n u : n mod 8 = 0 → 8 ≤ n < 2 ^ 32 → M_SIZE (mk p n u) = n - 8.
Proof. intros Hn Hr. unfold M_SIZE, MBLOCKSIZE. rewrite mk_next by lia. apply u32_id. lia. Qed.

Lemma mkfield n : M_MKFIELD n = n / 8.
Proof. unfold M_MKFIELD, MBLOCKSHIFT. by rewrite Z.shiftr_div_pow2. Qed.

(** ** Reading and writing headers *)

Lemma get_mh_correct h a p n u : h.(ustart) ≤ a → a + 8 ≤ h.(ubreak) → has_mh h.(uwords) a (mk p n u) → get_mh h a = Ret (mk p n u).
Proof.
  intros H1 H2 [E1 E2]. unfold get_mh, load, accessible. rewrite !(proj2 (Z.leb_le _ _)) by lia. cbn [andb]. rewrite E1, E2. cbn [deref mbind res_bind].
  rewrite unpack_pack; [done|..]; destruct u; cbn; unfold MMAGIC; lia.
Qed.

Lemma put_mh_correct h a x : h.(ustart) ≤ a → a + 8 ≤ h.(ubreak) → put_mh h a x = Ret (set_words h (with_mh h.(uwords) a x)).
Proof.
  intros H1 H2. unfold put_mh, store, accessible. rewrite !(proj2 (Z.leb_le _ _)) by lia. cbn [andb mbind res_bind set_words ustart ubreak].
  rewrite !(proj2 (Z.leb_le _ _)) by lia. done.
Qed.

Lemma with_mh_has m a x : has_mh (with_mh m a x) a x.
Proof. unfold has_mh, with_mh. rewrite lookup_insert_eq, lookup_insert_ne by lia. by rewrite lookup_insert_eq. Qed.

Lemma with_mh_ne m a x k : k ≠ a → k ≠ a + 4 → with_mh m a x !! k = m !! k.
Proof. intros. unfold with_mh. by rewrite !lookup_insert_ne. Qed.

Lemma has_mh_ne m m' a x : (∀ k, k = a ∨ k = a + 4 → m' !! k = m !! k) → has_mh m a x → has_mh m' a x.
Proof. intros E [? ?]. split; rewrite E; auto. Qed.

(** ** Layouts *)

Lemma total_app l1 l2 : total (l1 ++ l2) = total l1 + total l2.
Proof. induction l1 as [|b l1 IH]; cbn; [done|]. unfold total in *. rewrite IH. lia. Qed.

Lemma total_cons n u l : total ((n, u) :: l) = n + total l.
Proof. done. Qed.

Lemma total_nonneg bs : Forall size_ok bs → 0 ≤ total bs ∧ total bs mod 8 = 0.
Proof. induction 1 as [|[n u] bs [H1 H2] _ [IH1 IH2]]; cbn in *; [done|]. fold (total bs) in *. split; [lia|zdiv_lia]. Qed.

Lemma prev_size_app p l1 l2 : prev_size p (l1 ++ l2) = prev_size (prev_size p l1) l2.
Proof. unfold prev_size. rewrite last_app. by destruct (last l2). Qed.

Lemma layout_app m a p l1 l2 : layout m a p (l1 ++ l2) ↔ layout m a p l1 ∧ layout m (a + total l1) (prev_size p l1) l2.
Proof.
  revert a p. induction l1 as [|[n u] l1 IH]; intros a p; cbn [app layout].
  - cbn. rewrite Z.add_0_r. naive_solver.
  - rewrite IH, total_cons. replace (a + n + total l1) with (a + (n + total l1)) by lia.
    assert (prev_size n l1 = prev_size p ((n, u) :: l1)) as -> by (unfold prev_size; by rewrite last_cons; destruct (last l1)). naive_solver.
Qed.

(** A layout depends on the words of its range. *)
Lemma layout_frame m m' a p bs : Forall size_ok bs → layout m a p bs → (∀ k, a ≤ k < a + total bs → m' !! k = m !! k) → layout m' a p bs.
Proof.
  intros Hs. revert a p. induction Hs as [|[n u] bs [_ Hn] Hs IH]; intros a p; cbn [layout]; [done|]. rewrite total_cons. pose proof (total_nonneg bs Hs). cbn in Hn.
  intros [Hh Hl] E. split; [eapply has_mh_ne; [|exact Hh]; intros k Hk; apply E; lia|]. apply IH; [done|]. intros k Hk. apply E. lia.
Qed.

(** The header of the first block after a change of the size of the block before. *)
Definition relink (m : gmap Z Z) (a p : Z) (bs : list block) : gmap Z Z :=
  match bs with [] => m | (n, u) :: _ => with_mh m a (mk p n u) end.

Lemma relink_layout m a p p' bs : Forall size_ok bs → layout m a p bs → layout (relink m a p' bs) a p' bs.
Proof.
  destruct bs as [|[n u] bs]; [done|]. intros [[_ Hn] Hs]%Forall_cons [_ Hl]. cbn in Hn |- *. split; [apply with_mh_has|]. eapply layout_frame; [done|exact Hl|].
  intros k Hk. apply with_mh_ne; lia.
Qed.

Lemma relink_ne m a p bs k : k ≠ a → k ≠ a + 4 → relink m a p bs !! k = m !! k.
Proof. destruct bs as [|[n u] bs]; [done|]. apply with_mh_ne. Qed.

(** ** The heap *)

Lemma laid_at h l1 n u l2 : laid h (l1 ++ (n, u) :: l2) →
  let a := h.(__heapbase) + total l1 in
  has_mh h.(uwords) a (mk (prev_size 0 l1) n u) ∧ layout h.(uwords) (a + n) n l2 ∧ layout h.(uwords) h.(__heapbase) 0 l1 ∧
  Forall size_ok l1 ∧ Forall size_ok l2 ∧ n mod 8 = 0 ∧ 8 ≤ n ∧ 0 < a ∧ h.(ustart) ≤ a ∧ h.(__heapbase) ≤ a ∧ a mod 8 = 0 ∧
  h.(__heaptop) = a + n + total l2 ∧ 0 ≤ total l2 ∧ h.(__heaptop) ≤ 2 ^ 31 ∧ h.(ubreak) = h.(__heaptop).
Proof.
  intros [H1 H2 H3 H4 H5 H6 H7 H8]. cbn zeta. apply layout_app in H8 as [H8 [H9 H10]]. apply Forall_app in H7 as [S1 [[Sn Sn'] S2]%Forall_cons].
  rewrite total_app, total_cons in H4. destruct (total_nonneg _ S1), (total_nonneg _ S2). cbn in Sn, Sn'. split_and!; try done; try lia. zdiv_lia.
Qed.

Lemma laid_get h l1 n u l2 : laid h (l1 ++ (n, u) :: l2) → get_mh h (h.(__heapbase) + total l1) = Ret (mk (prev_size 0 l1) n u).
Proof. intros Hl. destruct (laid_at _ _ _ _ _ Hl) as (Hh & _ & _ & _ & _ & _ & ? & _ & ? & _ & _ & ? & ? & _ & ?). apply get_mh_correct; [lia|lia|done]. Qed.

Lemma laid_words h bs bs' m : laid h bs → layout m h.(__heapbase) 0 bs' → total bs' = total bs → Forall size_ok bs' → laid (set_words h m) bs'.
Proof. intros [H1 H2 H3 H4 H5 H6 H7 H8] Hl Ht Hs. split; cbn [set_words __heapbase __heaptop ustart ubreak uwords]; try done. congruence. Qed.

(** The code that links the block after. *)
Lemma relink_correct h a p p' l : layout h.(uwords) a p l → Forall size_ok l → h.(ustart) ≤ a → h.(ubreak) = a + total l → h.(__heaptop) = h.(ubreak) →
  (if negb (a =? h.(__heaptop)) then z ← get_mh h a; put_mh h a (set_prevblock z (p' / 8)) else Ret h) = Ret (set_words h (relink h.(uwords) a p' l)).
Proof.
  intros Hl Hs Ha Hb Ht. destruct l as [|[n u] l]; cbn [total foldr] in Hb.
  - rewrite (proj2 (Z.eqb_eq _ _)) by lia. cbn. by destruct h.
  - apply Forall_cons in Hs as [[_ Hn] Hs]. pose proof (total_nonneg _ Hs). unfold total in *. cbn in Hn, Hb. rewrite (proj2 (Z.eqb_neq _ _)) by lia. destruct Hl as [Hh _].
    cbn [negb]. rewrite (get_mh_correct _ _ _ _ _ Ha ltac:(lia) Hh). cbn [mbind res_bind]. by rewrite put_mh_correct by lia.
Qed.

(** What is left of a block of which [size] bytes are taken. *)
Definition cut (n : Z) (u : bool) (size : Z) : list block :=
  if n - 8 - size <? 16 then [(n, u)] else [(size + 8, u); (n - 8 - size, false)].

Lemma cut_total n u size : total (cut n u size) = n.
Proof. unfold cut. case_match; cbn; lia. Qed.

Lemma cut_sizes n u size : n mod 8 = 0 → size mod 8 = 0 → 0 ≤ size → size + 8 ≤ n → Forall size_ok (cut n u size).
Proof. intros. unfold cut. destruct (Z.ltb_spec (n - 8 - size) 16); repeat constructor; cbn; zdiv_lia || lia. Qed.

Lemma split_correct h l1 n u l2 size : laid h (l1 ++ (n, u) :: l2) → size mod 8 = 0 → 0 ≤ size → size + 8 ≤ n →
  let a := h.(__heapbase) + total l1 in
  ∃ m, __malloc_split h a size = Ret (set_words h m) ∧ laid (set_words h m) (l1 ++ cut n u size ++ l2) ∧
    ∀ k, k ∉ [a; a + 4; a + size + 8; a + size + 12; a + n; a + n + 4] → m !! k = h.(uwords) !! k.
Proof.
  intros Hl Hm H0 Hn a. destruct (laid_at _ _ _ _ _ Hl) as (Hh & Hl2 & Hl1 & S1 & S2 & Hn8 & Hge & Ha0 & Has & Hab & Ha8 & Htop & Ht2 & Hsm & Hbr). fold a in Hh, Hl2, Ha0, Has, Hab, Ha8, Htop.
  unfold __malloc_split, MBLOCKSIZE. rewrite Hm. cbn [Z.eqb kassert mbind res_bind].
  pose proof (laid_get _ _ _ _ _ Hl) as Eget. fold a in Eget. rewrite Eget. cbn [mbind res_bind]. rewrite mk_size, u32_id by lia.
  unfold cut. change (2 * 8) with 16. destruct (Z.ltb_spec (n - 8 - size) 16) as [Hlt|Hge'].
  - exists h.(uwords). assert (set_words h h.(uwords) = h) as -> by (by destruct h). split_and!; done.
  - set (prev := prev_size 0 l1) in *. unfold M_NEXT. rewrite mk_next by lia. rewrite !(u32_id (size + 8)), !mkfield by lia.
    change (set_nextblock (mk prev n u) ((size + 8) / 8)) with (mk prev (size + 8) u). rewrite mk_next by zdiv_lia. fold a. rewrite !u32_id by lia.
    rewrite put_mh_correct by lia. cbn [mbind res_bind]. rewrite (proj2 (Z.eqb_neq _ _)) by lia. cbn [negb kassert mbind res_bind].
    change (Mheader ((size + 8) / 8) 0 MMAGIC ((n - 8 - size) / 8) 0 MMAGIC) with (mk (size + 8) (n - 8 - size) false).
    rewrite put_mh_correct by (cbn; lia). cbn [mbind res_bind mk mh_nextblock].
    set (m1 := with_mh h.(uwords) a (mk prev (size + 8) u)). set (m2 := with_mh m1 (a + (size + 8)) (mk (size + 8) (n - 8 - size) false)).
    change (set_words (set_words h m1) _) with (set_words h m2). assert (layout m2 (a + n) n l2) as Hm2.
    { eapply layout_frame; [done|exact Hl2|]. intros k Hk. unfold m2, m1. rewrite !with_mh_ne by lia. done. }
    rewrite (relink_correct (set_words h m2) (a + n) n (n - 8 - size) l2) by (cbn; done || lia).
    exists (relink m2 (a + n) (n - 8 - size) l2). split; [done|]. split.
    + apply (laid_words h _ _ _ Hl).
      * assert (∀ k, k < a → relink m2 (a + n) (n - 8 - size) l2 !! k = h.(uwords) !! k) as Hlow.
        { intros k Hk. rewrite relink_ne by lia. unfold m2, m1. by rewrite !with_mh_ne by lia. }
        apply layout_app. split; [eapply layout_frame; [done|exact Hl1|]; intros k Hk; apply Hlow; unfold a; lia|]. fold a. fold prev. cbn [app layout]. split; [|split].
        -- eapply has_mh_ne; [|apply (with_mh_has h.(uwords) a (mk prev (size + 8) u))]. intros k Hk. rewrite relink_ne by lia. unfold m2. by rewrite with_mh_ne by lia.
        -- eapply has_mh_ne; [|apply (with_mh_has m1 (a + (size + 8)) (mk (size + 8) (n - 8 - size) false))]. intros k Hk. by rewrite relink_ne by lia.
        -- replace (a + (size + 8) + (n - 8 - size)) with (a + n) by lia. by apply (relink_layout _ _ n).
      * cbn [app]. rewrite !total_app, !total_cons. lia.
      * apply Forall_app. split; [done|]. repeat constructor; cbn; try done; zdiv_lia || lia.
    + intros k Hk. rewrite !not_elem_of_cons in Hk. rewrite relink_ne by naive_solver. unfold m2, m1. rewrite !with_mh_ne by (naive_solver lia). done.
Qed.

Lemma mark_block h l1 n u u' l2 : laid h (l1 ++ (n, u) :: l2) →
  let a := h.(__heapbase) + total l1 in let m := with_mh h.(uwords) a (mk (prev_size 0 l1) n u') in
  put_mh h a (mk (prev_size 0 l1) n u') = Ret (set_words h m) ∧ laid (set_words h m) (l1 ++ (n, u') :: l2).
Proof.
  intros Hl a m. destruct (laid_at _ _ _ _ _ Hl) as (Hh & Hl2 & Hl1 & S1 & S2 & Hn8 & Hge & Ha0 & Has & Hab & Ha8 & Htop & Ht2 & Hsm & Hbr). fold a in Hh, Hl2, Has, Htop.
  split; [apply put_mh_correct; lia|]. apply (laid_words h _ _ _ Hl); [|by rewrite !total_app, !total_cons|apply Forall_app; by repeat constructor].
  apply layout_app. fold a. cbn [layout]. split; [|split; [apply with_mh_has|]].
  - eapply layout_frame; [done|exact Hl1|]. intros k Hk. apply with_mh_ne; unfold a; lia.
  - eapply layout_frame; [done|exact Hl2|]. intros k Hk. apply with_mh_ne; lia.
Qed.

(** ** First fit *)

(** A block that the search passes over. *)
Definition passed (size : Z) (b : block) : Prop := b.2 = true ∨ b.1 < size + 8.

#[global] Instance passed_dec size b : Decision (passed size b).
Proof. unfold passed. apply _. Defined.

(** The address of the last header. *)
Fixpoint last_header (a : Z) (bs : list block) : option Z :=
  match bs with
  | [] => None
  | (n, _) :: bs => Some (default a (last_header (a + n) bs))
  end.

Lemma last_header_snoc a bs b : last_header a (bs ++ [b]) = Some (a + total bs).
Proof.
  revert a. induction bs as [|[n u] bs IH]; intros a; cbn [app last_header]; [destruct b; cbn; f_equal; lia|]. rewrite IH, total_cons. cbn [default from_option id]. f_equal. lia.
Qed.

Definition found_at (h : uheap) (l1 : list block) (n : Z) (l2 : list block) (size p : Z) (h' : uheap) : Prop :=
  ∃ m, h' = set_words h m ∧ p = h.(__heapbase) + total l1 + 8 ∧ laid h' (l1 ++ cut n true size ++ l2) ∧
    ∀ k, k < h.(__heapbase) + total l1 ∨ h.(__heapbase) + total l1 + n + 8 ≤ k → m !! k = h.(uwords) !! k.

Lemma take_block h l1 n l2 size : laid h (l1 ++ (n, false) :: l2) → size mod 8 = 0 → 0 ≤ size → size + 8 ≤ n →
  let a := h.(__heapbase) + total l1 in
  ∃ p h', (h ← __malloc_split h a size; x ← get_mh h a; h ← put_mh h a (set_inuse x 1); Ret (Found (M_DATA a) h)) = Ret (Found p h') ∧ found_at h l1 n l2 size p h'.
Proof.
  intros Hl Hm H0 Hn a. destruct (laid_at _ _ _ _ _ Hl) as (_ & _ & _ & _ & _ & _ & Hge & Ha0 & _ & _ & _ & Htop & Ht2 & Hsm & _). fold a in Ha0, Htop.
  destruct (split_correct _ _ _ _ _ _ Hl Hm H0 Hn) as (m & E & Hl' & Hframe). fold a in E, Hframe. rewrite E. cbn [mbind res_bind].
  assert (∃ n' r, cut n false size = (n', false) :: r ∧ cut n true size = (n', true) :: r) as (n' & r & Ec & Ec') by (unfold cut; case_match; by eexists _, _).
  rewrite Ec in Hl'. cbn [app] in Hl'. pose proof (laid_get _ _ _ _ _ Hl') as Eget. cbn [set_words __heapbase] in Eget. fold a in Eget. rewrite Eget. cbn [mbind res_bind].
  change (set_inuse (mk (prev_size 0 l1) n' false) 1) with (mk (prev_size 0 l1) n' true). destruct (mark_block _ _ _ _ true _ Hl') as [Eput Hl2].
  cbn [set_words __heapbase uwords] in Eput, Hl2. fold a in Eput, Hl2. rewrite Eput. cbn [mbind res_bind]. eexists _, _. split; [done|]. eexists. split; [done|].
  split; [unfold M_DATA, MBLOCKSIZE; rewrite u32_id by lia; done|]. split; [rewrite Ec'; exact Hl2|]. fold a. intros k Hk. rewrite with_mh_ne by lia.
  apply Hframe. rewrite !not_elem_of_cons. split_and!; try lia. apply not_elem_of_nil.
Qed.

Lemma first_fit_correct h size : size mod 8 = 0 → 0 ≤ size → ∀ l2 l1 fuel mh, laid h (l1 ++ l2) → (length l2 ≤ fuel)%nat →
  let i := h.(__heapbase) + total l1 in
  (∃ s n t p h', l2 = s ++ (n, false) :: t ∧ Forall (passed size) s ∧ size + 8 ≤ n ∧
    first_fit fuel h i mh (prev_size 0 l1 / 8) size = Ret (Found p h') ∧ found_at h (l1 ++ s) n t size p h') ∨
  (Forall (passed size) l2 ∧
    first_fit fuel h i mh (prev_size 0 l1 / 8) size = Ret (Nothing (match last_header i l2 with Some a => Some a | None => mh end) (prev_size 0 (l1 ++ l2) / 8) h.(__heaptop))).
Proof.
  intros Hm H0 l2. induction l2 as [|[n u] l2 IH]; intros l1 fuel mh Hl Hf i.
  { right. split; [done|]. rewrite app_nil_r in *. pose proof (ld_top _ _ Hl) as E. fold i in E. destruct fuel; cbn [first_fit]; rewrite (proj2 (Z.leb_le _ _)) by lia; cbn; by rewrite E. }
  destruct (laid_at _ _ _ _ _ Hl) as (_ & _ & _ & _ & _ & Hn8 & Hge & Ha0 & _ & _ & _ & Htop & Ht2 & Hsm & _). fold i in Ha0, Htop.
  destruct fuel as [|fuel]; [cbn in Hf; lia|]. cbn [first_fit]. rewrite (proj2 (Z.leb_gt _ _)) by lia. pose proof (laid_get _ _ _ _ _ Hl) as Eget. fold i in Eget. rewrite Eget. cbn [mbind res_bind].
  change (M_OK (mk (prev_size 0 l1) n u)) with true. cbn [kassert mbind res_bind]. cbn [mk mh_prevblock mh_inuse]. rewrite Z.eqb_refl. cbn [kassert mbind res_bind].
  fold (mk (prev_size 0 l1) n u). rewrite mk_size, mk_next by lia. cbn [mk mh_nextblock]. destruct (decide (passed size (n, u))) as [Hp|Hp].
  - assert (negb (Z.b2z u =? 0) || (n - 8 <? size) = true) as ->.
    { destruct Hp as [Hp|Hp]; cbn in Hp; [by subst u|]. rewrite (proj2 (Z.ltb_lt _ _)) by lia. apply orb_true_r. }
    rewrite u32_id by lia. specialize (IH (l1 ++ [(n, u)]) fuel (Some i)). rewrite <-app_assoc in IH. cbn [app] in IH. specialize (IH Hl ltac:(cbn in Hf; lia)).
    rewrite total_app, total_cons, prev_size_app in IH. cbn [total foldr] in IH. replace (h.(__heapbase) + (total l1 + (n + 0))) with (i + n) in IH by (unfold i; lia).
    change (prev_size (prev_size 0 l1) [(n, u)]) with n in IH. destruct IH as [(s & n' & t & p & h' & -> & Hs & Hn' & E & Hat)|[Hs E]].
    + left. exists ((n, u) :: s), n', t, p, h'. split_and!; try done; [by constructor|]. by rewrite <-app_assoc in Hat.
    + right. split; [by constructor|]. rewrite E. cbn [app last_header]. by destruct (last_header (i + n) l2).
  - unfold passed in Hp. cbn in Hp. assert (u = false) as -> by (destruct u; naive_solver). rewrite (proj2 (Z.ltb_ge _ _)) by (apply Z.nlt_ge; naive_solver lia). cbn [Z.b2z Z.eqb negb orb].
    left. destruct (take_block _ _ _ _ _ Hl Hm H0) as (p & h' & E & Hat); [apply Z.nlt_ge; naive_solver|]. fold i in E. exists [], n, l2, p, h'. rewrite app_nil_r. split_and!; try done.
    apply Z.nlt_ge. naive_solver.
Qed.

(** ** malloc *)

Definition round8 (size : Z) : Z := (size + 7) / 8 * 8.

Lemma round_correct size : 0 ≤ size → size + 7 < 2 ^ 32 → Z.land (u32 (size + MBLOCKSIZE - 1)) (u32 (Z.lnot (MBLOCKSIZE - 1))) = round8 size.
Proof.
  intros H0 Hs. unfold MBLOCKSIZE. rewrite u32_id by lia. change (u32 (Z.lnot (8 - 1))) with (Z.ldiff (Z.ones 32) (Z.ones 3)).
  assert (Z.land (size + 8 - 1) (Z.ldiff (Z.ones 32) (Z.ones 3)) = Z.ldiff (Z.land (size + 8 - 1) (Z.ones 32)) (Z.ones 3)) as ->.
  { apply Z.bits_inj'. intros i Hi. by rewrite !Z.land_spec, !Z.ldiff_spec, Z.land_spec, andb_assoc. }
  rewrite Z.land_ones, Z.mod_small, Z.ldiff_ones_r, Z.shiftl_mul_pow2, Z.shiftr_div_pow2 by lia. unfold round8. f_equal. f_equal. lia.
Qed.

Lemma round8_bounds size : 0 ≤ size → size ≤ round8 size ≤ size + 7 ∧ round8 size mod 8 = 0.
Proof. intros. unfold round8. split; [zdiv_lia|]. by rewrite Z.mod_mul. Qed.

Lemma pages_correct x : 0 < x → x + 4095 < 2 ^ 31 → ∃ q, u32 (PAGE_SIZE * (u32 (x + PAGE_SIZE - 1) / PAGE_SIZE)) = q ∧ x ≤ q ≤ x + 4095 ∧ q mod 8 = 0 ∧ 4096 ≤ q.
Proof.
  intros H0 Hx. unfold PAGE_SIZE. rewrite (u32_id (x + 4096 - 1)) by lia. eexists. split; [done|]. rewrite u32_id by zdiv_lia. zdiv_lia.
Qed.

(** The words of the blocks in use. *)
Fixpoint data (a : Z) (bs : list block) (k : Z) : Prop :=
  match bs with
  | [] => False
  | (n, u) :: bs => u = true ∧ a + 8 ≤ k < a + n ∨ data (a + n) bs k
  end.

Lemma data_app a l1 l2 k : data a (l1 ++ l2) k ↔ data a l1 k ∨ data (a + total l1) l2 k.
Proof.
  revert a. induction l1 as [|[n u] l1 IH]; intros a; cbn [app data]; [cbn; rewrite Z.add_0_r; naive_solver|]. rewrite IH, total_cons, Z.add_assoc. naive_solver.
Qed.

Lemma data_range a bs k : Forall size_ok bs → data a bs k → a + 8 ≤ k < a + total bs.
Proof.
  intros Hs. revert a. induction Hs as [|[n u] bs [_ Hn] Hs IH]; intros a; cbn [data]; [done|]. rewrite total_cons. pose proof (total_nonneg _ Hs). cbn in Hn.
  intros [[_ ?]|?%IH]; lia.
Qed.

(** A block of at least [r] bytes is handed out where there was none in use, and nothing in a block in use changes. *)
Definition granted (h : uheap) (bs : list block) (r p : Z) (h' : uheap) (bs' : list block) : Prop :=
  ∃ l1 old n l2, bs = l1 ++ old ++ l2 ∧ bs' = l1 ++ cut n true r ++ l2 ∧ Forall (λ b, b.2 = false) old ∧ r + 8 ≤ n ∧ p = h.(__heapbase) + total l1 + 8 ∧
    (old = [(n, false)] ∨ l2 = [] ∧ 4096 ≤ n) ∧ laid h' bs' ∧ h'.(__heapbase) = h.(__heapbase) ∧
    ∀ k, data h.(__heapbase) bs k → h'.(uwords) !! k = h.(uwords) !! k.

Lemma free_top_correct h bs : laid h bs →
  (∃ l n, bs = l ++ [(n, false)] ∧ free_top h (last_header h.(__heapbase) bs) = Ret (Some (h.(__heapbase) + total l, mk (prev_size 0 l) n false))) ∨
  free_top h (last_header h.(__heapbase) bs) = Ret None.
Proof.
  intros Hl. destruct bs as [|[n u] l _] using rev_ind; [by right|]. rewrite last_header_snoc. cbn [free_top]. rewrite (laid_get _ _ _ _ _ Hl). cbn [mbind res_bind mk mh_inuse].
  destruct u; [by right|]. left. by exists l, n.
Qed.

(** The heap with more space at the top, all of it in a block in use. *)
Lemma grow_laid h l old n more o : laid h (l ++ old) → n = total old + more → n mod 8 = 0 → 8 ≤ n → 0 ≤ more → h.(__heaptop) + more ≤ 2 ^ 31 →
  let a := h.(__heapbase) + total l in
  laid (Uheap h.(__heapbase) (h.(__heaptop) + more) h.(ustart) (h.(ubreak) + more) (with_mh h.(uwords) a (mk (prev_size 0 l) n true)) o) (l ++ [(n, true)]).
Proof.
  intros [H1 H2 H3 H4 H5 H6 H7 H8] Hn Hn8 Hge Hmore Hsm a. apply Forall_app in H7 as [S1 _]. apply layout_app in H8 as [L1 _]. rewrite total_app in H4.
  split; cbn [__heapbase __heaptop ustart ubreak uwords]; try done; try lia.
  - rewrite total_app, total_cons. cbn. lia.
  - apply Forall_app. split; [done|]. by repeat constructor.
  - apply layout_app. fold a. cbn [layout]. split; [|split; [apply with_mh_has|done]]. eapply layout_frame; [done|exact L1|]. intros k Hk. apply with_mh_ne; unfold a; lia.
Qed.

Lemma grow_last h l old n more r o : laid h (l ++ old) → Forall (λ b, b.2 = false) old → n = total old + more → n mod 8 = 0 → r mod 8 = 0 → 0 ≤ r → r + 8 ≤ n → 4096 ≤ more →
  h.(__heaptop) + more ≤ 2 ^ 31 →
  let a := h.(__heapbase) + total l in
  let h1 := Uheap h.(__heapbase) (h.(__heaptop) + more) h.(ustart) (h.(ubreak) + more) h.(uwords) o in
  ∃ p h' bs', (h ← put_mh h1 a (mk (prev_size 0 l) n true); h ← __malloc_split h a r; Ret (M_DATA a, h)) = Ret (p, h') ∧ granted h (l ++ old) r p h' bs'.
Proof.
  intros Hl Hold Hn Hn8 Hr8 Hr0 Hr Hmore Hsm a h1. pose proof Hl as [H1 H2 H3 H4 H5 H6 H7 H8]. apply Forall_app in H7 as [S1 S2]. rewrite total_app in H4.
  destruct (total_nonneg _ S1), (total_nonneg _ S2). pose proof (grow_laid h l old n more o Hl Hn Hn8 ltac:(lia) ltac:(lia) Hsm) as Hg. cbn zeta in Hg. fold a in Hg.
  rewrite put_mh_correct by (cbn; lia). cbn [mbind res_bind h1 uwords].
  set (h2 := set_words h1 (with_mh h.(uwords) a (mk (prev_size 0 l) n true))). change (laid h2 (l ++ [(n, true)])) in Hg. destruct (split_correct h2 l n true [] r Hg Hr8 Hr0 Hr) as (m & E & Hl' & Hframe).
  change (h2.(__heapbase) + total l) with a in E, Hframe. rewrite E. cbn [mbind res_bind]. eexists _, _, _. split; [done|]. exists l, old, n, []. rewrite app_nil_r. split_and!; try done.
  - unfold M_DATA, MBLOCKSIZE. rewrite u32_id by lia. done.
  - right. split; [done|lia].
  - intros k Hk. apply data_app in Hk. assert (k < a) as Hlt.
    { destruct Hk as [Hk|Hk]; [apply (data_range _ _ _ S1) in Hk; lia|]. exfalso. clear -Hold Hk. revert Hk. generalize (h.(__heapbase) + total l) as b.
      induction Hold as [|[n u] old Hu _ IH]; intros b; cbn [data]; [done|]. cbn in Hu. naive_solver. }
    cbn [set_words uwords]. rewrite Hframe; [|rewrite !not_elem_of_cons; split_and!; try lia; apply not_elem_of_nil]. unfold h2. cbn [uwords]. apply with_mh_ne; lia.
Qed.

Lemma sbrk_correct h more : 0 ≤ more < 2 ^ 31 → 0 < h.(__heaptop) → h.(ubreak) = h.(__heaptop) → h.(__heaptop) + more ≤ 2 ^ 31 →
  (∃ o, h.(usbrks) = false :: o ∧ __malloc_sbrk h more = Ret (0, Uheap h.(__heapbase) h.(__heaptop) h.(ustart) h.(ubreak) h.(uwords) o)) ∨
  ∃ o, __malloc_sbrk h more = Ret (h.(__heaptop), Uheap h.(__heapbase) (h.(__heaptop) + more) h.(ustart) (h.(ubreak) + more) h.(uwords) o).
Proof.
  intros Hm Ht Hb Hs. unfold __malloc_sbrk, sbrk. destruct h.(usbrks) as [|[] o] eqn:Eo; cbn [kmalloc]; [right|right|left].
  1,2: (rewrite (proj2 (Z.eqb_neq _ _)) by lia; cbn [__heaptop]; rewrite Hb, Z.eqb_refl; cbn [negb]; rewrite i32_id, !u32_id by lia; by eexists).
  by exists o.
Qed.

Lemma blocks_fit bs : Forall size_ok bs → 8 * Z.of_nat (length bs) ≤ total bs.
Proof. induction 1 as [|[n u] bs [_ Hn] _ IH]; [done|]. rewrite total_cons. cbn in Hn. cbn [length]. lia. Qed.

Lemma search_fuel_enough h bs : laid h bs → (length bs ≤ search_fuel h)%nat.
Proof.
  intros Hl. unfold search_fuel, MBLOCKSIZE. rewrite (ld_top _ _ Hl). pose proof (blocks_fit _ (ld_sizes _ _ Hl)). replace (h.(__heapbase) + total bs - h.(__heapbase)) with (total bs) by lia.
  apply Nat2Z.inj_le. rewrite Z2Nat.id by zdiv_lia. zdiv_lia.
Qed.

Lemma malloc_correct h bs size : laid h bs → 0 ≤ size → h.(__heaptop) + size + 4111 ≤ 2 ^ 31 →
  (∃ o, Forall (passed (round8 size)) bs ∧ h.(usbrks) = false :: o ∧ malloc h size = Ret (0, Uheap h.(__heapbase) h.(__heaptop) h.(ustart) h.(ubreak) h.(uwords) o)) ∨
  ∃ p h' bs', malloc h size = Ret (p, h') ∧ granted h bs (round8 size) p h' bs'.
Proof.
  intros Hl H0 Hroom. pose proof Hl as [H1 H2 H3 H4 H5 H6 H7 H8]. destruct (total_nonneg _ H7) as [Ht0 Ht8]. destruct (round8_bounds size H0) as [Hr Hr8].
  unfold malloc. rewrite (proj2 (Z.eqb_neq h.(__heapbase) 0)) by lia. cbn [mbind res_bind].
  rewrite (proj2 (Z.eqb_neq h.(__heapbase) 0)), (proj2 (Z.eqb_neq h.(__heaptop) 0)), (proj2 (Z.ltb_ge h.(__heaptop) h.(__heapbase))) by lia. cbn [orb negb kassert mbind res_bind].
  rewrite round_correct by lia. set (r := round8 size) in *.
  destruct (first_fit_correct h r Hr8 ltac:(lia) bs [] (search_fuel h) None Hl (search_fuel_enough _ _ Hl)) as [(s & n & t & p & h' & -> & Hs & Hn & E & m & -> & -> & Hl' & Hframe)|[Hs E]];
    cbn [total foldr prev_size last from_option] in E; rewrite Z.add_0_r in E; change (0 / 8) with 0 in E; rewrite E; cbn [mbind res_bind].
  - right. eexists _, _, _. split; [done|]. cbn [app] in Hl', Hframe. exists s, [(n, false)], n, t. split_and!; try done; [by repeat constructor|by left|].
    intros k Hk. cbn [set_words uwords]. apply Hframe. apply Forall_app in H7 as [S1 [_ S2]%Forall_cons]. apply data_app in Hk as [Hk%(data_range _ _ _ S1)|Hk]; [lia|].
    cbn [data] in Hk. destruct Hk as [[? _]|Hk%(data_range _ _ _ S2)]; [done|lia].
  - rewrite Z.eqb_refl. cbn [kassert mbind res_bind app]. replace (match last_header h.(__heapbase) bs with Some a => Some a | None => None end) with (last_header h.(__heapbase) bs)
      by (by destruct (last_header h.(__heapbase) bs)).
    destruct (free_top_correct h bs Hl) as [(l & n & -> & ->)| ->]; cbn [mbind res_bind].
    + pose proof Hs as Hs'. apply Forall_app in Hs' as [_ Hn]. rewrite Forall_singleton in Hn. destruct Hn as [Hn|Hn]; [done|]. cbn in Hn.
      apply Forall_app in H7 as [S1 S2]. rewrite Forall_singleton in S2. destruct S2 as [Sn Sn']. cbn in Sn, Sn'. rewrite total_app, total_cons in H4. cbn [total foldr] in H4. destruct (total_nonneg _ S1).
      rewrite mk_size by lia. rewrite (proj2 (Z.ltb_lt _ _)) by lia. cbn [kassert mbind res_bind]. rewrite (u32_id (r - _)) by lia.
      destruct (pages_correct (r - (n - 8))) as (q & -> & Hq & Hq8 & Hq'); [lia..|].
      destruct (sbrk_correct h q) as [(o & Eo & ->)|(o & ->)]; [lia..|left; by exists o|right]. cbn [mbind res_bind]. rewrite (proj2 (Z.eqb_neq _ _)) by lia.
      rewrite mk_next, (u32_id (n + q)), mkfield by lia.
      change (set_inuse (set_nextblock (mk (prev_size 0 l) n false) ((n + q) / 8)) 1) with (mk (prev_size 0 l) (n + q) true).
      destruct (grow_last h l [(n, false)] (n + q) q r o Hl) as (p & h' & bs' & Eg & Hg); [by repeat constructor|cbn; lia|zdiv_lia|done|lia|lia|lia|lia|].
      exists p, h', bs'. split; [|done]. rewrite <-Eg. destruct (put_mh _ _ _); done.
    + rewrite (u32_id (MBLOCKSIZE + r)) by (unfold MBLOCKSIZE; lia). destruct (pages_correct (MBLOCKSIZE + r)) as (q & -> & Hq & Hq8 & Hq'); [unfold MBLOCKSIZE; lia..|].
      unfold MBLOCKSIZE in Hq. destruct (sbrk_correct h q) as [(o & Eo & ->)|(o & ->)]; [lia..|left; by exists o|right]. cbn [mbind res_bind]. rewrite (proj2 (Z.eqb_neq _ _)) by lia.
      rewrite mkfield. change (Mheader (prev_size 0 bs / 8) 0 MMAGIC (q / 8) 1 MMAGIC) with (mk (prev_size 0 bs) q true).
      rewrite <-(app_nil_r bs) in Hl. destruct (grow_last h bs [] q q r o Hl) as (p & h' & bs' & Eg & Hg); [done|cbn; lia|done|done|lia|lia|lia|lia|].
      rewrite app_nil_r in Hg. exists p, h', bs'. split; [|done]. rewrite <-H4 in Eg. rewrite <-Eg. destruct (put_mh _ _ _); done.
Qed.

(** ** free *)

Lemma deadbeef_correct n h x : h.(ustart) ≤ x → x + 4 * Z.of_nat n ≤ h.(ubreak) →
  ∃ m, deadbeef_loop n h x = Ret (set_words h m) ∧ (∀ k, ¬ x ≤ k < x + 4 * Z.of_nat n → m !! k = h.(uwords) !! k) ∧
    ∀ i, (i < n)%nat → m !! (x + 4 * Z.of_nat i) = Some 0xdeadbeef.
Proof.
  revert h x. induction n as [|n IH]; intros h x H1 H2; cbn [deadbeef_loop].
  - exists h.(uwords). split; [by destruct h|]. split; [done|lia].
  - unfold store, accessible. rewrite !(proj2 (Z.leb_le _ _)) by lia. cbn [andb mbind res_bind].
    destruct (IH (set_words h (<[x := 0xdeadbeef]> h.(uwords))) (x + 4)) as (m & -> & Hout & Hin); [cbn; lia..|]. exists m. split; [done|]. split.
    + intros k Hk. rewrite Hout by lia. cbn. rewrite lookup_insert_ne by lia. done.
    + intros [|i] Hi; [rewrite Hout by lia; cbn; rewrite Z.add_0_r; apply lookup_insert_eq|]. rewrite <-(Hin i) by lia. f_equal. lia.
Qed.

(** Words inside a block do not matter. *)
Lemma laid_fill h l1 n u l2 m : laid h (l1 ++ (n, u) :: l2) → let a := h.(__heapbase) + total l1 in
  (∀ k, ¬ a + 8 ≤ k < a + n → m !! k = h.(uwords) !! k) → laid (set_words h m) (l1 ++ (n, u) :: l2).
Proof.
  intros Hl a Hm. destruct (laid_at _ _ _ _ _ Hl) as (Hh & Hl2 & Hl1 & S1 & S2 & Hn8 & Hge & _). fold a in Hh, Hl2.
  apply (laid_words h _ _ _ Hl); [|done|apply Forall_app; by repeat constructor]. apply layout_app. fold a. cbn [layout]. split_and!.
  - eapply layout_frame; [done|exact Hl1|]. intros k Hk. apply Hm. unfold a. lia.
  - eapply has_mh_ne; [|exact Hh]. intros k Hk. apply Hm. lia.
  - eapply layout_frame; [done|exact Hl2|]. intros k Hk. apply Hm. lia.
Qed.

Definition merged (n1 : Z) (u1 : bool) (n2 : Z) (u2 : bool) : list block := if u1 || u2 then [(n1, u1); (n2, u2)] else [(n1 + n2, false)].

Lemma trymerge_correct h l1 n1 u1 n2 u2 l2 : laid h (l1 ++ (n1, u1) :: (n2, u2) :: l2) →
  let a := h.(__heapbase) + total l1 in
  ∃ m, __malloc_trymerge h a (a + n1) = Ret (set_words h m) ∧ laid (set_words h m) (l1 ++ merged n1 u1 n2 u2 ++ l2) ∧
    (∀ k, ¬ a ≤ k < a + 8 → ¬ a + n1 ≤ k < a + n1 + 8 → ¬ a + n1 + n2 ≤ k < a + n1 + n2 + 8 → m !! k = h.(uwords) !! k) ∧
    (u1 || u2 = false → m !! (a + n1) = Some 0xdeadbeef ∧ m !! (a + n1 + 4) = Some 0xdeadbeef).
Proof.
  intros Hl a. destruct (laid_at _ _ _ _ _ Hl) as (Hh & Hl2 & Hl1 & S1 & S2 & Hn8 & Hge & Ha0 & Has & Hab & Ha8 & Htop & Ht2 & Hsm & Hbr). fold a in Hh, Hl2, Ha0, Has, Hab, Ha8, Htop.
  destruct Hl2 as [Hh2 Hl2]. apply Forall_cons in S2 as [[Sn Sn'] S2]. cbn in Sn, Sn'. rewrite total_cons in Htop, Ht2. destruct (total_nonneg _ S2).
  unfold __malloc_trymerge. pose proof (laid_get _ _ _ _ _ Hl) as Eget. fold a in Eget. rewrite Eget. cbn [mbind res_bind]. rewrite (get_mh_correct h (a + n1) n1 n2 u2) by (lia || done).
  cbn [mbind res_bind]. cbn [mk mh_nextblock mh_prevblock mh_inuse]. rewrite Z.eqb_refl. cbn [kassert mbind res_bind]. fold (mk (prev_size 0 l1) n1 u1) (mk n1 n2 u2). unfold merged.
  assert (negb (Z.b2z u1 =? 0) || negb (Z.b2z u2 =? 0) = u1 || u2) as -> by (by destruct u1, u2). destruct (u1 || u2) eqn:Eu.
  { exists h.(uwords). assert (set_words h h.(uwords) = h) as -> by (by destruct h). split_and!; done. }
  apply orb_false_iff in Eu as [-> ->]. unfold M_NEXT, MBLOCKSIZE. rewrite !mk_size, mk_next by lia. rewrite !u32_id by lia. replace (8 + (n1 - 8) + 8 + (n2 - 8)) with (n1 + n2) by lia.
  rewrite mkfield. change (set_nextblock (mk (prev_size 0 l1) n1 false) ((n1 + n2) / 8)) with (mk (prev_size 0 l1) (n1 + n2) false).
  rewrite put_mh_correct by lia. cbn [mbind res_bind mk mh_nextblock]. set (m1 := with_mh h.(uwords) a _).
  assert (layout m1 (a + n1 + n2) n2 l2) as Hm1 by (eapply layout_frame; [done|exact Hl2|]; intros k Hk; apply with_mh_ne; lia).
  rewrite (relink_correct (set_words h m1) (a + n1 + n2) n2 (n1 + n2) l2) by (cbn; done || lia). cbn [mbind res_bind]. set (m2 := relink m1 (a + n1 + n2) (n1 + n2) l2).
  change (set_words (set_words h m1) _) with (set_words h m2). unfold __malloc_deadbeef. change (Z.to_nat (8 / 4)) with 2%nat.
  destruct (deadbeef_correct 2 (set_words h m2) (a + n1)) as (m3 & -> & Hout & Hin); [cbn; lia..|]. cbn [set_words uwords] in Hout. exists m3. split; [done|]. split_and!.
  - assert (laid (set_words h m2) (l1 ++ (n1 + n2, false) :: l2)) as Hlm.
    { apply (laid_words h _ _ _ Hl); [|rewrite !total_app, !total_cons; lia|apply Forall_app; split; [done|]; constructor; [|done]; split; cbn; zdiv_lia || lia].
      apply layout_app. fold a. cbn [layout]. split_and!.
      - eapply layout_frame; [done|exact Hl1|]. intros k Hk. unfold m2, m1. rewrite relink_ne, with_mh_ne by (unfold a; lia). done.
      - eapply has_mh_ne; [|apply (with_mh_has h.(uwords) a)]. intros k Hk. unfold m2. rewrite relink_ne by lia. done.
      - rewrite Z.add_assoc. by apply (relink_layout _ _ n2). }
    apply (laid_fill _ _ _ _ _ m3 Hlm). cbn [set_words __heapbase uwords]. fold a. intros k Hk. apply Hout. lia.
  - intros k K1 K2 K3. rewrite Hout by lia. unfold m2, m1. rewrite relink_ne, with_mh_ne by lia. done.
  - intros _. split; [rewrite <-(Hin 0%nat) by lia|rewrite <-(Hin 1%nat) by lia]; f_equal; lia.
Qed.

(** What merging with the block after and with the block before makes of a free block of [n] bytes. *)
Definition right_of (n : Z) (l2 : list block) (n' : Z) (l2' : list block) : Prop :=
  (n' = n ∧ l2' = l2 ∧ ∀ b, head l2 = Some b → b.2 = true) ∨ l2 = (n' - n, false) :: l2'.
Definition left_of (l1 : list block) (n : Z) (l1' : list block) (n' : Z) : Prop :=
  (n' = n ∧ l1' = l1 ∧ ∀ b, last l1 = Some b → b.2 = true) ∨ l1 = l1' ++ [(n' - n, false)].

Lemma merge_right h l1 n l2 : laid h (l1 ++ (n, false) :: l2) → let a := h.(__heapbase) + total l1 in
  ∃ m n' l2', (if negb (a + n =? h.(__heaptop)) then __malloc_trymerge h a (a + n) else Ret h) = Ret (set_words h m) ∧
    laid (set_words h m) (l1 ++ (n', false) :: l2') ∧ right_of n l2 n' l2' ∧ ∀ k, data h.(__heapbase) (l1 ++ (n, false) :: l2) k → m !! k = h.(uwords) !! k.
Proof.
  intros Hl a. destruct (laid_at _ _ _ _ _ Hl) as (_ & _ & _ & S1 & S2 & _ & Hge & _ & _ & _ & _ & Htop & Ht2 & _). fold a in Htop. destruct l2 as [|[n2 u2] l2].
  { cbn in Htop. rewrite (proj2 (Z.eqb_eq _ _)) by lia. exists h.(uwords), n, []. assert (set_words h h.(uwords) = h) as -> by (by destruct h). split_and!; try done. by left. }
  apply Forall_cons in S2 as [[_ Sn] S2]. cbn in Sn. rewrite total_cons in Htop, Ht2. destruct (total_nonneg _ S2). rewrite (proj2 (Z.eqb_neq _ _)) by lia. cbn [negb].
  destruct (trymerge_correct h l1 n false n2 u2 l2 Hl) as (m & E & Hm & Hf & _). fold a in E, Hf. rewrite E. unfold merged in Hm. cbn [orb] in Hm.
  exists m, (if u2 then n else n + n2), (if u2 then (n2, u2) :: l2 else l2). split; [done|]. split; [by destruct u2|]. split.
  - destruct u2; [left; split_and!; [done..|by intros ? [= <-]]|right]. do 2 f_equal. lia.
  - intros k Hk. apply data_app in Hk. fold a in Hk. cbn [data] in Hk. apply Hf.
    all: destruct Hk as [Hk%(data_range _ _ _ S1)|[[? _]|[[_ Hk]|Hk%(data_range _ _ _ S2)]]]; [unfold a; lia|done|lia|lia].
Qed.

Lemma merge_left h l1 n l2 : laid h (l1 ++ (n, false) :: l2) → let a := h.(__heapbase) + total l1 in
  ∃ m l1' n', (if negb (a =? h.(__heapbase)) then y ← get_mh h a; __malloc_trymerge h (M_PREV a y) a else Ret h) = Ret (set_words h m) ∧
    laid (set_words h m) (l1' ++ (n', false) :: l2) ∧ left_of l1 n l1' n' ∧ (∀ k, data h.(__heapbase) (l1 ++ (n, false) :: l2) k → m !! k = h.(uwords) !! k) ∧
    ∃ y, get_mh (set_words h m) a = Ret y ∧ M_OK y && negb (y.(mh_inuse) =? 0) = false.
Proof.
  intros Hl a. destruct (laid_at _ _ _ _ _ Hl) as (_ & _ & _ & S1 & S2 & _ & Hge & Ha & Has & Hab & _ & Htop & Ht2 & Hsm & Hbr). fold a in Htop, Ha, Has, Hab.
  pose proof (laid_get _ _ _ _ _ Hl) as Eget. fold a in Eget. destruct l1 as [|[n0 u0] l1 _] using rev_ind.
  { cbn in a. rewrite (proj2 (Z.eqb_eq a _)) by (unfold a; lia). exists h.(uwords), [], n. assert (set_words h h.(uwords) = h) as -> by (by destruct h). split_and!; try done; [by left|].
    eexists. split; [exact Eget|]. by rewrite andb_false_r. }
  apply Forall_app in S1 as [S1 S0]. rewrite Forall_singleton in S0. destruct S0 as [S0 S0']. cbn in S0, S0'. destruct (total_nonneg _ S1).
  assert (a = h.(__heapbase) + total l1 + n0) as Ea by (unfold a; rewrite total_app, total_cons; cbn; lia).
  rewrite (proj2 (Z.eqb_neq _ _)) by lia. cbn [negb]. rewrite Eget. cbn [mbind res_bind]. unfold M_PREV. rewrite prev_size_app. change (prev_size (prev_size 0 l1) [(n0, u0)]) with n0.
  pose proof (ld_base _ _ Hl). rewrite mk_prev, u32_id by lia. rewrite <-app_assoc in Hl. cbn [app] in Hl.
  destruct (trymerge_correct h l1 n0 u0 n false l2 Hl) as (m & E & Hm & Hf & Hd). rewrite <-Ea in E, Hf, Hd. replace (a - n0) with (h.(__heapbase) + total l1) by lia. rewrite E. unfold merged in Hm. rewrite orb_false_r in *.
  exists m, (if u0 then l1 ++ [(n0, u0)] else l1), (if u0 then n else n0 + n). split; [done|]. split; [destruct u0; [by rewrite <-app_assoc|done]|]. split_and!.
  - destruct u0; [left; split_and!; [done..|by rewrite last_snoc; intros ? [= <-]]|right]. do 3 f_equal. lia.
  - intros k Hk. rewrite <-app_assoc in Hk. apply data_app in Hk. cbn [app data] in Hk. rewrite <-Ea in Hk. apply Hf.
    all: destruct Hk as [Hk%(data_range _ _ _ S1)|[[_ Hk]|[[? _]|Hk%(data_range _ _ _ S2)]]]; [lia|lia|done|lia].
  - destruct u0.
    + assert (laid (set_words h m) ((l1 ++ [(n0, true)]) ++ (n, false) :: l2)) as Hm' by (by rewrite <-app_assoc). apply laid_get in Hm'. cbn [set_words __heapbase] in Hm'. fold a in Hm'.
      eexists. split; [exact Hm'|]. by rewrite andb_false_r.
    + destruct (Hd eq_refl) as [D1 D2]. unfold get_mh, load, accessible. cbn [set_words ustart ubreak uwords]. rewrite !(proj2 (Z.leb_le _ _)) by lia. cbn [andb]. rewrite D1, D2. cbn [mbind res_bind].
      eexists. split; [reflexivity|]. by vm_compute.
Qed.

Lemma data_right a l1 n l2 n' l2' k : right_of n l2 n' l2' → data a (l1 ++ (n, false) :: l2) k → data a (l1 ++ (n', false) :: l2') k.
Proof.
  intros [(-> & -> & _)| ->]; [done|]. rewrite !data_app. cbn [data]. replace (a + total l1 + n + (n' - n)) with (a + total l1 + n') by lia. naive_solver.
Qed.

(** A block in use becomes a free block full of [deadbeef]. *)
Lemma release_correct h l1 n l2 : laid h (l1 ++ (n, true) :: l2) → let a := h.(__heapbase) + total l1 in
  ∃ m, (h ← put_mh h a (mk (prev_size 0 l1) n false); __malloc_deadbeef h (M_DATA a) (n - 8)) = Ret (set_words h m) ∧ laid (set_words h m) (l1 ++ (n, false) :: l2) ∧
    ∀ k, data h.(__heapbase) (l1 ++ (n, false) :: l2) k → m !! k = h.(uwords) !! k.
Proof.
  intros Hl a. destruct (laid_at _ _ _ _ _ Hl) as (_ & _ & _ & S1 & S2 & Hn8 & Hge & Ha & Has & Hab & _ & Htop & Ht2 & Hsm & Hbr). fold a in Htop, Ha, Has, Hab.
  destruct (mark_block _ _ _ _ false _ Hl) as [Eput Hl1]. fold a in Eput, Hl1. rewrite Eput. cbn [mbind res_bind]. unfold M_DATA, MBLOCKSIZE, __malloc_deadbeef. rewrite u32_id by lia.
  set (m1 := with_mh _ _ _) in *. assert (4 * Z.of_nat (Z.to_nat ((n - 8) / 4)) = n - 8) as En by (rewrite Z2Nat.id; zdiv_lia).
  destruct (deadbeef_correct (Z.to_nat ((n - 8) / 4)) (set_words h m1) (a + 8)) as (m & -> & Hm & _); [cbn [set_words ustart ubreak]; lia..|]. rewrite En in Hm. cbn [set_words uwords] in Hm.
  exists m. split; [done|]. split; [apply (laid_fill _ _ _ _ _ m Hl1); cbn [set_words __heapbase uwords]; fold a; intros k Hk; apply Hm; lia|].
  intros k Hk. apply data_app in Hk. fold a in Hk. cbn [data] in Hk. assert (k < a ∨ a + n ≤ k) as Hk'.
  { destruct Hk as [Hk%(data_range _ _ _ S1)|[[? _]|Hk%(data_range _ _ _ S2)]]; [left; unfold a; lia|done|right; lia]. }
  rewrite Hm by lia. apply with_mh_ne; lia.
Qed.

Lemma free_blocks h l1 n l2 : laid h (l1 ++ (n, true) :: l2) → let x := h.(__heapbase) + total l1 + 8 in x < h.(__heaptop) →
  ∃ m l1' n1 n2 l2', free h x = Ret (set_words h m) ∧ laid (set_words h m) (l1' ++ (n2, false) :: l2') ∧ right_of n l2 n1 l2' ∧ left_of l1 n1 l1' n2 ∧
    (∀ k, data h.(__heapbase) (l1 ++ (n, false) :: l2) k → m !! k = h.(uwords) !! k) ∧ free (set_words h m) x = Panic.
Proof.
  intros Hl x Hx. destruct (laid_at _ _ _ _ _ Hl) as (_ & _ & _ & S1 & S2 & Hn8 & Hge & Ha & Has & Hab & _ & Htop & Ht2 & Hsm & Hbr). pose proof (ld_base _ _ Hl).
  destruct (release_correct h l1 n l2 Hl) as (m1 & E1 & L1 & F1). destruct (merge_right _ _ _ _ L1) as (m2 & n1 & l2' & E2 & L2 & R & F2).
  destruct (merge_left _ _ _ _ L2) as (m3 & l1' & n2 & E3 & L3 & L & F3 & y & E4 & Hy). cbn [set_words __heapbase __heaptop uwords] in *. set (a := h.(__heapbase) + total l1) in *.
  exists m3, l1', n1, n2, l2'. assert (Ex : ∀ m, free (set_words h m) x = (y ← get_mh (set_words h m) a; _ ← kassert (M_OK y); _ ← kassert (negb (y.(mh_inuse) =? 0));
    let y := set_inuse y 0 in h ← put_mh (set_words h m) a y; h ← __malloc_deadbeef h (M_DATA a) (M_SIZE y); let mhnext := M_NEXT a y in
    h ← (if negb (mhnext =? h.(__heaptop)) then __malloc_trymerge h a mhnext else Ret h);
    if negb (a =? h.(__heapbase)) then y ← get_mh h a; __malloc_trymerge h (M_PREV a y) a else Ret h)).
  { intros m. unfold free, MBLOCKSIZE. cbn [set_words __heapbase __heaptop]. rewrite (proj2 (Z.eqb_neq x 0)), (proj2 (Z.eqb_neq h.(__heapbase) 0)), (proj2 (Z.eqb_neq h.(__heaptop) 0)),
      (proj2 (Z.ltb_ge h.(__heaptop) h.(__heapbase))), (proj2 (Z.ltb_ge x h.(__heapbase))), (proj2 (Z.leb_gt h.(__heaptop) x)) by (unfold x; lia). cbn [orb negb kassert mbind res_bind].
    replace (x - 8) with a by (unfold x, a; lia). done. }
  split_and!; try done.
  - replace h with (set_words h h.(uwords)) at 1 by (by destruct h). rewrite Ex. replace (set_words h h.(uwords)) with h by (by destruct h). pose proof (laid_get _ _ _ _ _ Hl) as Eg. fold a in Eg. rewrite Eg.
    cbn [mbind res_bind]. change (M_OK (mk (prev_size 0 l1) n true)) with true. cbn [kassert mbind res_bind mk mh_inuse Z.b2z Z.eqb negb]. fold (mk (prev_size 0 l1) n true).
    change (set_inuse (mk (prev_size 0 l1) n true) 0) with (mk (prev_size 0 l1) n false). cbn zeta. unfold M_NEXT. rewrite mk_size, mk_next, u32_id by lia.
    destruct (put_mh h a _) as [h1| | |]; try done. cbn [mbind res_bind] in E1 |- *. rewrite E1. cbn [mbind res_bind set_words __heaptop]. rewrite E2. cbn [mbind res_bind set_words __heapbase]. exact E3.
  - intros k Hk. rewrite F3 by (eapply data_right; eauto). cbn. rewrite F2 by done. by apply F1.
  - rewrite Ex. change (set_words (set_words (set_words h m1) m2) m3) with (set_words h m3) in E4. rewrite E4. cbn [mbind res_bind]. destruct (M_OK y); [|done]. cbn [andb] in Hy. by rewrite Hy.
Qed.

(** ** What the program holds

    No two free blocks are adjacent, and the last block is never an empty one in use. *)

Fixpoint coalesced (before : bool) (bs : list block) : Prop :=
  match bs with
  | [] => True
  | (_, u) :: bs => before || u = true ∧ coalesced u bs
  end.

Definition last_used (before : bool) (bs : list block) : bool := from_option snd before (last bs).

Record tidy (bs : list block) : Prop := Tidy {
  td_coalesced : coalesced true bs;
  td_last : ∀ b, last bs = Some b → 16 ≤ b.1
}.

Lemma coalesced_app b l1 l2 : coalesced b (l1 ++ l2) ↔ coalesced b l1 ∧ coalesced (last_used b l1) l2.
Proof.
  revert b. induction l1 as [|[n u] l1 IH]; intros b; cbn [app coalesced]; [naive_solver|]. rewrite IH. unfold last_used. destruct l1 as [|c l1]; [cbn; naive_solver|].
  change (last ((n, u) :: c :: l1)) with (last (c :: l1)). destruct (last (c :: l1)) eqn:E; [cbn; naive_solver|]. by apply last_None in E.
Qed.

Lemma coalesced_true b l : coalesced b l → coalesced true l.
Proof. destruct l as [|[n u] l]; cbn; naive_solver. Qed.

Lemma last_replace l1 c d (l2 : list block) : (∀ b, last (l1 ++ c ++ l2) = Some b → 16 ≤ b.1) → (l2 = [] → ∀ b, last d = Some b → 16 ≤ b.1) → d ≠ [] →
  ∀ b, last (l1 ++ d ++ l2) = Some b → 16 ≤ b.1.
Proof.
  intros H1 H2 Hd b. destruct l2 as [|e l2 _] using rev_ind.
  - rewrite app_nil_r, last_app. destruct (last d) eqn:E; [intros [= <-]; by apply H2|]. by apply last_None in E.
  - intros Hb. apply H1. by rewrite !app_assoc, last_snoc in Hb |- *.
Qed.

Lemma granted_tidy h bs r p h' bs' : granted h bs r p h' bs' → tidy bs → tidy bs'.
Proof.
  intros (l1 & old & n & l2 & -> & -> & Hold & Hn & _ & Hor & _) [Hc Hlast]. split.
  - apply coalesced_app in Hc as [C1 C2]. apply coalesced_app in C2 as [_ C2]. apply coalesced_app. split; [done|]. apply coalesced_app.
    assert (coalesced false l2) as C2'. { destruct Hor as [-> |[-> _]]; done. }
    unfold cut. destruct (_ <? _); cbn [coalesced last_used last from_option snd]; rewrite orb_true_r; split_and!; try done. by apply coalesced_true in C2'.
  - apply (last_replace _ old); [done| |unfold cut; by destruct (_ <? _)]. intros -> b. rewrite app_nil_r in Hlast.
    unfold cut. destruct (Z.ltb_spec (n - 8 - r) 16) as [Hlt|Hge]; intros [= <-]; cbn; [|done]. destruct Hor as [-> |[_ ?]]; [|lia].
    by apply (Hlast (n, false)); rewrite last_snoc.
Qed.

Lemma freed_tidy l1 n l2 n1 l2' l1' n2 : Forall size_ok (l1 ++ (n, true) :: l2) → tidy (l1 ++ (n, true) :: l2) → right_of n l2 n1 l2' → left_of l1 n1 l1' n2 → tidy (l1' ++ (n2, false) :: l2').
Proof.
  intros Hs [Hc Hlast] HR HL. apply Forall_app in Hs as [S1 [[_ Sn] S2]%Forall_cons]. cbn in Sn. apply coalesced_app in Hc as [C1 [_ C2]].
  assert (coalesced false l2' ∧ n ≤ n1 ∧ ∀ b, last (l1 ++ (n1, false) :: l2') = Some b → 16 ≤ b.1) as (C2' & Hn1 & Hlast').
  { destruct HR as [(-> & -> & Hh)|El2].
    - split_and!; [|lia|]; [destruct l2 as [|[k u] l2]; [done|]; destruct C2; split; [by apply (Hh (k, u))|done]|].
      apply (last_replace _ [(n, true)] [(n, false)]); [done| |done]. intros -> b [= <-]. by apply (Hlast (n, true)); rewrite last_snoc.
    - rewrite El2 in S2, C2, Hlast. apply Forall_cons in S2 as [[_ S0] S2]. cbn in S0, C2. destruct C2 as [_ C2]. split_and!; [done|lia|].
      apply (last_replace _ [(n, true); (n1 - n, false)] [(n1, false)]); [done| |done]. intros -> b [= <-]. cbn. lia. }
  destruct HL as [(-> & -> & Hh)| ->].
  - split; [|done]. apply coalesced_app. split; [done|]. split; [|done]. rewrite orb_false_r. unfold last_used. destruct (last l1) as [b|] eqn:E; [by apply Hh|done].
  - apply Forall_app in S1 as [S1 S0]. rewrite Forall_singleton in S0. destruct S0 as [_ S0]. cbn in S0. apply coalesced_app in C1 as [C1 [C0 _]]. split.
    + apply coalesced_app. split; [done|]. by split.
    + rewrite <-app_assoc in Hlast'. apply (last_replace _ [(n2 - n1, false); (n1, false)] [(n2, false)]); [done| |done]. intros -> b [= <-]. cbn. lia.
Qed.

(** The pointers that have been handed out, each with the bytes behind it. *)
Fixpoint ptrs (a : Z) (bs : list block) : list (Z * Z) :=
  match bs with
  | [] => []
  | (n, u) :: bs => (if u then [(a + 8, n - 8)] else []) ++ ptrs (a + n) bs
  end.

Lemma ptrs_app a l1 l2 : ptrs a (l1 ++ l2) = ptrs a l1 ++ ptrs (a + total l1) l2.
Proof.
  revert a. induction l1 as [|[n u] l1 IH]; intros a; cbn [app ptrs]; [cbn; by rewrite Z.add_0_r|]. by rewrite IH, total_cons, app_assoc, Z.add_assoc.
Qed.

Lemma ptrs_free a bs : Forall (λ b : block, b.2 = false) bs → ptrs a bs = [].
Proof. intros Hb. revert a. induction Hb as [|[n u] bs Hu Hb IH]; intros a; cbn [ptrs]; [done|]. cbn in Hu. subst u. apply IH. Qed.

Lemma ptrs_range a bs q : Forall size_ok bs → q ∈ ptrs a bs → a + 8 ≤ q.1 ∧ 0 ≤ q.2 ∧ q.1 + q.2 ≤ a + total bs.
Proof.
  intros Hs. revert a. induction Hs as [|[n u] bs [_ Hn] Hs IH]; intros a; cbn [ptrs]; [by intros ?%elem_of_nil|]. cbn in Hn. rewrite total_cons. pose proof (total_nonneg _ Hs).
  intros [Hq|Hq%IH]%elem_of_app; [|lia]. destruct u; [|by apply elem_of_nil in Hq]. apply list_elem_of_singleton in Hq as ->. cbn. lia.
Qed.

Lemma ptrs_data a bs q k : q ∈ ptrs a bs → q.1 ≤ k < q.1 + q.2 → data a bs k.
Proof.
  intros Hq Hk. revert a Hq. induction bs as [|[n u] bs IH]; intros a; cbn [ptrs data]; [by intros ?%elem_of_nil|]. intros [Hq|Hq%IH]%elem_of_app; [|by right].
  destruct u; [|by apply elem_of_nil in Hq]. apply list_elem_of_singleton in Hq as ->. cbn in Hk. left. split; [done|lia].
Qed.

(** [live] has the sizes that the program has asked for. *)
Definition owns (live : gmap Z Z) (P : list (Z * Z)) : Prop :=
  (∀ q, q ∈ P → ∃ sz, live !! q.1 = Some sz ∧ 0 ≤ sz ≤ q.2) ∧ ∀ p sz, live !! p = Some sz → ∃ s, (p, s) ∈ P.

Lemma owns_grant live P1 P2 p s sz : owns live (P1 ++ P2) → (∀ q, q ∈ P1 ++ P2 → q.1 ≠ p) → 0 ≤ sz ≤ s → owns (<[p := sz]> live) (P1 ++ (p, s) :: P2).
Proof.
  intros [O1 O2] Hp Hs. split.
  - intros q Hq. rewrite elem_of_app, elem_of_cons in Hq. assert (q = (p, s) ∨ q ∈ P1 ++ P2) as [-> |Hq'] by (rewrite elem_of_app; naive_solver).
    + exists sz. cbn. by rewrite lookup_insert_eq.
    + rewrite lookup_insert_ne by (intros E; by apply (Hp q Hq')). by apply O1.
  - intros q t. destruct (decide (q = p)) as [-> |Hne]; [intros _; exists s; set_solver|]. rewrite lookup_insert_ne by done. intros [s' Hs']%O2. exists s'. set_solver.
Qed.

Lemma owns_free live P1 P2 p s : owns live (P1 ++ (p, s) :: P2) → (∀ q, q ∈ P1 ++ P2 → q.1 ≠ p) → owns (delete p live) (P1 ++ P2).
Proof.
  intros [O1 O2] Hp. split.
  - intros q Hq. rewrite lookup_delete_ne by (intros E; by apply (Hp q Hq)). apply O1. set_solver.
  - intros q t. destruct (decide (q = p)) as [-> |Hne]; [by rewrite lookup_delete_eq|]. rewrite lookup_delete_ne by done. intros [s' Hs']%O2. exists s'.
    rewrite elem_of_app, elem_of_cons in *. naive_solver.
Qed.

(** The heap is well-formed and serves exactly the blocks of [live]. *)
Definition serves (h : uheap) (live : gmap Z Z) : Prop := ∃ bs, laid h bs ∧ tidy bs ∧ owns live (ptrs h.(__heapbase) bs).

Lemma serves_data h bs live p sz k : owns live (ptrs h.(__heapbase) bs) → live !! p = Some sz → p ≤ k < p + sz → data h.(__heapbase) bs k.
Proof.
  intros [O1 O2] Hp Hk. destruct (O2 _ _ Hp) as [s Hs]. destruct (O1 _ Hs) as (sz' & E & ?). cbn in *. simplify_eq. eapply ptrs_data; [done|]. cbn. lia.
Qed.

Lemma granted_serves h bs r p h' bs' live size : laid h bs → tidy bs → owns live (ptrs h.(__heapbase) bs) → granted h bs r p h' bs' → 0 ≤ size ≤ r → r mod 8 = 0 →
  serves h' (<[p := size]> live) ∧ p mod 8 = 0 ∧ 0 < p ∧ p + size ≤ h'.(ubreak) ∧ ∀ q sz, live !! q = Some sz → q + sz + 8 ≤ p ∨ p + size + 8 ≤ q.
Proof.
  intros Hl Ht Ho Hg Hs Hr8. pose proof (granted_tidy _ _ _ _ _ _ Hg Ht) as Ht'. destruct Hg as (l1 & old & n & l2 & -> & -> & Hold & Hn & Hp & Hor & Hl' & Hb & _).
  rewrite !ptrs_app, (ptrs_free _ old Hold) in Ho. cbn [app] in Ho. assert (∃ c, cut n true r = (r + 8 + c, true) :: tail (cut n true r) ∧ 0 ≤ c ∧ Forall (λ b : block, b.2 = false) (tail (cut n true r))) as (c & Ec & Hc & Hct).
  { unfold cut. destruct (_ <? _); [exists (n - r - 8)|exists 0]; cbn; (split; [f_equal; f_equal; lia|split; [lia|by repeat constructor]]). }
  pose proof (ld_sizes _ _ Hl) as Hsz. apply Forall_app in Hsz as [S1 [_ S2]%Forall_app]. pose proof (ld_base _ _ Hl). pose proof (ld_align _ _ Hl). destruct (total_nonneg _ S1), (total_nonneg _ S2).
  assert (Hin : ∀ q, q ∈ ptrs h.(__heapbase) l1 ++ ptrs (h.(__heapbase) + total l1 + total old) l2 → q.1 + q.2 + 8 ≤ p ∨ p + r + 8 ≤ q.1).
  { intros q [Hq%ptrs_range|Hq%ptrs_range]%elem_of_app; [lia|done| |done]. right. destruct Hor as [-> |[-> _]]; [cbn in Hq; lia|cbn in Hq; lia]. }
  split_and!; [|rewrite Hp; zdiv_lia|lia| |].
  - exists (l1 ++ cut n true r ++ l2). split_and!; try done. rewrite !ptrs_app, Hb, Ec. cbn [ptrs app]. rewrite (ptrs_free _ _ Hct), <-Hp. cbn [app].
    rewrite <-Ec, cut_total. assert (ptrs (h.(__heapbase) + total l1 + n) l2 = ptrs (h.(__heapbase) + total l1 + total old) l2) as ->.
    { destruct Hor as [-> |[-> _]]; [|done]. f_equal. cbn. lia. }
    apply owns_grant; [done| |lia]. intros q Hq E. pose proof (Hin q Hq). destruct (proj1 Ho q Hq) as (? & _ & ?). lia.
  - rewrite (ld_break _ _ Hl'), (ld_top _ _ Hl'), Hb, !total_app, cut_total. lia.
  - intros q sz Hq. destruct (proj2 Ho _ _ Hq) as [s Hs']. destruct (proj1 Ho _ Hs') as (sz' & E & ?). pose proof (Hin _ Hs'). cbn in *. simplify_eq. lia.
Qed.

Lemma ptrs_freed a l1 n l2 n1 l2' l1' n2 : right_of n l2 n1 l2' → left_of l1 n1 l1' n2 → ptrs a (l1' ++ (n2, false) :: l2') = ptrs a l1 ++ ptrs (a + total l1 + n) l2.
Proof.
  intros HR HL. rewrite ptrs_app. cbn [ptrs app]. assert (ptrs (a + total l1 + n) l2 = ptrs (a + total l1 + n1) l2') as ->.
  { destruct HR as [(-> & -> & _)| ->]; [done|]. cbn [ptrs app]. f_equal. lia. }
  destruct HL as [(-> & -> & _)| ->]; [done|]. rewrite ptrs_app, total_app, total_cons. cbn [ptrs app total foldr]. rewrite app_nil_r. do 2 f_equal. lia.
Qed.

Lemma ptrs_split a bs q : q ∈ ptrs a bs → ∃ l1 n l2, bs = l1 ++ (n, true) :: l2 ∧ q = (a + total l1 + 8, n - 8).
Proof.
  revert a. induction bs as [|[n u] bs IH]; intros a; cbn [ptrs]; [by intros ?%elem_of_nil|]. intros [Hq|(l1 & k & l2 & -> & ->)%IH]%elem_of_app.
  - destruct u; [|by apply elem_of_nil in Hq]. apply list_elem_of_singleton in Hq as ->. exists [], n, bs. cbn. by rewrite Z.add_0_r.
  - exists ((n, u) :: l1), k, l2. rewrite total_cons. split; [done|]. f_equal. lia.
Qed.

Lemma free_serves h live p sz : serves h live → live !! p = Some sz →
  ∃ h', free h p = Ret h' ∧ serves h' (delete p live) ∧ free h' p = Panic ∧
    ∀ q t k, q ≠ p → live !! q = Some t → q ≤ k < q + t → h'.(uwords) !! k = h.(uwords) !! k.
Proof.
  intros (bs & Hl & Ht & Ho) Hp. destruct (proj2 Ho _ _ Hp) as [s Hs]. destruct (ptrs_split _ _ _ Hs) as (l1 & n & l2 & -> & E). injection E as -> _.
  destruct (laid_at _ _ _ _ _ Hl) as (_ & _ & _ & S1 & S2 & _ & Hn & _ & _ & _ & _ & Htop & Ht2 & _).
  assert (h.(__heapbase) + total l1 + 8 < h.(__heaptop)) as Hx.
  { destruct l2 as [|[n' u'] l2]; [pose proof (td_last _ Ht (n, true) (last_snoc _ _)) as H16; cbn in H16; cbn in Htop; lia|].
    apply Forall_cons in S2 as [[_ Sn] S2]. cbn in Sn. rewrite total_cons in Htop. destruct (total_nonneg _ S2). lia. }
  destruct (free_blocks _ _ _ _ Hl Hx) as (m & l1' & n1 & n2 & l2' & Ef & Hl' & HR & HL & Hframe & Hagain). set (p := h.(__heapbase) + total l1 + 8) in *.
  rewrite ptrs_app in Ho. cbn [ptrs app] in Ho. fold p in Ho.
  assert (owns (delete p live) (ptrs h.(__heapbase) l1 ++ ptrs (h.(__heapbase) + total l1 + n) l2)) as Ho'.
  { apply (owns_free _ _ _ _ _ Ho). intros q [Hq%ptrs_range|Hq%ptrs_range]%elem_of_app; [|done| |done]; unfold p; lia. }
  exists (set_words h m). split_and!; try done.
  - exists (l1' ++ (n2, false) :: l2'). split_and!; [done|by eapply freed_tidy; [exact (ld_sizes _ _ Hl)|..]|]. cbn [set_words __heapbase]. by rewrite (ptrs_freed _ l1 n l2 n1 l2').
  - intros q t k Hq Et Hk. cbn. apply Hframe. apply (serves_data h _ (delete p live) q t); [|by rewrite lookup_delete_ne|done].
    rewrite ptrs_app. cbn [ptrs app]. done.
Qed.

(** Before the first call the break is somewhere, and nothing has been asked of the heap. *)
Lemma init_serves h : h.(__heapbase) = 0 → h.(__heaptop) = 0 → 0 < h.(ubreak) → h.(ubreak) + 8 ≤ 2 ^ 31 → h.(ustart) ≤ h.(ubreak) → h.(usbrks) = [] →
  ∃ h', __malloc_init h = Ret h' ∧ serves h' ∅ ∧ h'.(usbrks) = [] ∧ h'.(__heaptop) ≤ h.(ubreak) + 7.
Proof.
  intros Hb Ht H0 Hs Hst Ho. unfold __malloc_init, sbrk. rewrite Hb, Ht, Ho. change (kmalloc []) with (true, @nil bool). cbn [Z.eqb andb kassert mbind res_bind]. cbn [ubreak ustart uwords usbrks __heapbase __heaptop].
  change (i32 0) with 0. rewrite Z.add_0_r, (u32_id h.(ubreak)), (proj2 (Z.eqb_neq h.(ubreak) (2 ^ 32 - 1))), (proj2 (Z.eqb_neq h.(ubreak) 0)) by lia. cbn [orb]. unfold MBLOCKSIZE.
  destruct (Z.eqb_spec (h.(ubreak) mod 8) 0) as [E|E]; cbn [negb].
  - eexists. split; [done|]. cbn [set_bounds __heaptop usbrks]. split; [|split; [done|lia]]. exists []. split; [split; cbn; try done; lia|]. split; [by split|]. split; [by intros ? ?%elem_of_nil|done].
  - cbn [set_bounds ubreak ustart uwords usbrks __heapbase __heaptop]. change (kmalloc []) with (true, @nil bool). cbv iota. rewrite Z.eqb_refl, (proj2 (Z.eqb_neq h.(ubreak) (2 ^ 32 - 1))) by lia. cbn [orb negb].
    rewrite i32_id, !u32_id by zdiv_lia. eexists. split; [done|]. cbn [set_bounds __heaptop usbrks]. split; [|split; [done|zdiv_lia]]. exists [].
    split; [split; cbn; try done; try zdiv_lia|]. split; [by split|]. split; [by intros ? ?%elem_of_nil|done].
Qed.

(** Sizes whose rounding leaves the width of [size_t]. *)
Lemma round_huge size : 2 ^ 32 - 4103 ≤ size ≤ 2 ^ 32 - 8 →
  ∃ r, Z.land (u32 (size + MBLOCKSIZE - 1)) (u32 (Z.lnot (MBLOCKSIZE - 1))) = r ∧ 2 ^ 32 - 4096 ≤ r ≤ 2 ^ 32 - 8 ∧ r mod 8 = 0 ∧
    u32 (PAGE_SIZE * (u32 (u32 (MBLOCKSIZE + r) + PAGE_SIZE - 1) / PAGE_SIZE)) = 0.
Proof.
  intros Hs. exists (round8 size). rewrite round_correct by lia. split; [done|]. assert (2 ^ 32 - 4096 ≤ round8 size ≤ 2 ^ 32 - 8) as Hr by (unfold round8; zdiv_lia).
  split; [done|]. split; [unfold round8; by rewrite Z.mod_mul|]. unfold MBLOCKSIZE, PAGE_SIZE. set (r := round8 size) in *.
  assert (0 ≤ u32 (u32 (8 + r) + 4096 - 1) < 4096) as Hz by (unfold u32; zdiv_lia). rewrite Z.div_small by done. done.
Qed.

Lemma huge_grow h bs size : laid h bs → last_used true bs = true → h.(usbrks) = [] → 2 ^ 32 - 4103 ≤ size ≤ 2 ^ 32 - 8 → malloc h size = Undef.
Proof.
  intros Hl Hu Ho Hs. pose proof Hl as [H1 H2 H3 H4 H5 H6 H7 H8]. destruct (total_nonneg _ H7) as [Ht0 _]. destruct (round_huge size Hs) as (r & Er & Hr & Hr8 & Em).
  unfold malloc. rewrite (proj2 (Z.eqb_neq h.(__heapbase) 0)) by lia. cbn [mbind res_bind].
  rewrite (proj2 (Z.eqb_neq h.(__heapbase) 0)), (proj2 (Z.eqb_neq h.(__heaptop) 0)), (proj2 (Z.ltb_ge h.(__heaptop) h.(__heapbase))) by lia. cbn [orb negb kassert mbind res_bind]. rewrite Er.
  destruct (first_fit_correct h r Hr8 ltac:(lia) bs [] (search_fuel h) None Hl (search_fuel_enough _ _ Hl)) as [(s & n & t & p & h' & -> & Hs' & Hn & _)|[_ E]].
  { apply Forall_app in H7 as [S1 [_ S2]%Forall_cons]. rewrite total_app, total_cons in H4. destruct (total_nonneg _ S1), (total_nonneg _ S2). lia. }
  cbn [total foldr prev_size last from_option] in E. rewrite Z.add_0_r in E. change (0 / 8) with 0 in E. rewrite E. cbn [mbind res_bind]. rewrite Z.eqb_refl. cbn [kassert mbind res_bind app].
  replace (match last_header h.(__heapbase) bs with Some a => Some a | None => None end) with (last_header h.(__heapbase) bs) by (by destruct (last_header h.(__heapbase) bs)).
  destruct (free_top_correct h bs Hl) as [(l & n & -> & _)| ->]; [by unfold last_used in Hu; rewrite last_snoc in Hu|]. cbn [mbind res_bind]. rewrite Em.
  unfold __malloc_sbrk, sbrk. rewrite Ho. change (kmalloc []) with (true, @nil bool). cbn [__heaptop __heapbase ubreak]. change (i32 0) with 0. rewrite Z.add_0_r, H5, u32_id, Z.eqb_refl by lia.
  rewrite (proj2 (Z.eqb_neq h.(__heaptop) (2 ^ 32 - 1))) by lia. cbn [negb mbind res_bind set_bounds]. rewrite (proj2 (Z.eqb_neq h.(__heaptop) 0)) by lia.
  unfold put_mh, store, accessible. cbn [set_bounds ustart ubreak]. rewrite (proj2 (Z.leb_gt (h.(__heaptop) + 4) _)) by lia. by rewrite andb_false_r.
Qed.

(** Heaps to look at: nothing asked yet; and 100 bytes at [0x400008]. *)
Definition empty_heap : uheap := Uheap 0x400000 0x400000 0x400000 0x400000 ∅ [].
Definition one_block : uheap :=
  Uheap 0x400000 0x401000 0x400000 0x401000 (with_mh (with_mh ∅ 0x400000 (mk 0 112 true)) 0x400070 (mk 112 3984 false)) [].

Lemma empty_laid : laid empty_heap [].
Proof. split; cbn; done. Qed.

Lemma one_block_made : malloc empty_heap 100 = Ret (0x400008, one_block).
Proof. vm_compute. reflexivity. Qed.

Lemma one_block_serves : serves one_block {[0x400008 := 100]}.
Proof.
  exists [(112, true); (3984, false)]. split_and!.
  - split; try (cbn; done); try by repeat constructor.
  - split; [done|]. by intros b [= <-].
  - split.
    + intros q Hq. cbn in Hq. apply list_elem_of_singleton in Hq as ->. exists 100. split; [by vm_compute|cbn; lia].
    + intros p sz [<- <-]%lookup_singleton_Some. exists 104. by apply list_elem_of_singleton.
Qed.

(** ** Properties *)

(** C26: [malloc] on a well-formed heap returns if the top of the heap, the size and 4111 bytes more stay within the two gigabytes of user space
    (sizes for which the sums wrap are not refused).  Either the kernel refuses more memory, [NULL] is returned and nothing changes; or the pointer
    is aligned, points to the bytes asked for below the break, these and the headers overlap no block that the program holds, the heap now serves
    the new block as well, and the bytes of the others are as they were. *)
Theorem malloc_grants h live size : serves h live → 0 ≤ size → h.(__heaptop) + size + 4111 ≤ 2 ^ 31 →
  ∃ p h', malloc h size = Ret (p, h') ∧
    ((p = 0 ∧ head h.(usbrks) = Some false ∧ serves h' live ∧ h'.(uwords) = h.(uwords)) ∨
     (0 < p ∧ p mod 8 = 0 ∧ p + size ≤ h'.(ubreak) ∧ (∀ q sz, live !! q = Some sz → q + sz + 8 ≤ p ∨ p + size + 8 ≤ q) ∧
      serves h' (<[p := size]> live) ∧ ∀ q sz k, live !! q = Some sz → q ≤ k < q + sz → h'.(uwords) !! k = h.(uwords) !! k)).
Proof.
  intros (bs & Hl & Ht & Ho) H0 Hroom. destruct (round8_bounds size H0) as [Hr Hr8].
  destruct (malloc_correct h bs size Hl H0 Hroom) as [(o & _ & Eo & E)|(p & h' & bs' & E & Hg)]; eexists _, _; (split; [exact E|]); [left|right].
  - rewrite Eo. split_and!; try done. exists bs. split_and!; try done. by destruct Hl.
  - destruct (granted_serves _ _ _ _ _ _ live size Hl Ht Ho Hg) as (? & ? & ? & ? & ?); [lia|done|]. split_and!; try done.
    intros q sz k Hq Hk. destruct Hg as (? & ? & ? & ? & _ & _ & _ & _ & _ & _ & _ & _ & Hd). apply Hd. by eapply serves_data.
Qed.

Lemma malloc_grants_witness : ∃ p h', malloc one_block 24 = Ret (p, h') ∧
  ((p = 0 ∧ head one_block.(usbrks) = Some false ∧ serves h' {[0x400008 := 100]} ∧ h'.(uwords) = one_block.(uwords)) ∨
   (0 < p ∧ p mod 8 = 0 ∧ p + 24 ≤ h'.(ubreak) ∧ (∀ q sz, ({[0x400008 := 100]} : gmap Z Z) !! q = Some sz → q + sz + 8 ≤ p ∨ p + 24 + 8 ≤ q) ∧
    serves h' (<[p := 24]> {[0x400008 := 100]}) ∧ ∀ q sz k, ({[0x400008 := 100]} : gmap Z Z) !! q = Some sz → q ≤ k < q + sz → h'.(uwords) !! k = one_block.(uwords) !! k)).
Proof. apply (malloc_grants one_block {[0x400008 := 100]} 24); [apply one_block_serves|lia|cbn; lia]. Defined.

(** C27: [free] of a pointer that the program holds returns; the heap, its free neighbours merged, then serves the other blocks, whose bytes are as they were, and
    a second [free] of the pointer stops the program. *)
Theorem free_takes_back h live p sz : serves h live → live !! p = Some sz →
  ∃ h', free h p = Ret h' ∧ serves h' (delete p live) ∧ free h' p = Panic ∧
    ∀ q t k, q ≠ p → live !! q = Some t → q ≤ k < q + t → h'.(uwords) !! k = h.(uwords) !! k.
Proof. apply free_serves. Qed.

Lemma free_takes_back_witness : ∃ h', free one_block 0x400008 = Ret h' ∧ serves h' (delete 0x400008 {[0x400008 := 100]}) ∧ free h' 0x400008 = Panic ∧
  ∀ q t k, q ≠ 0x400008 → ({[0x400008 := 100]} : gmap Z Z) !! q = Some t → q ≤ k < q + t → h'.(uwords) !! k = one_block.(uwords) !! k.
Proof. apply (free_takes_back one_block {[0x400008 := 100]} 0x400008 100); [apply one_block_serves|by vm_compute]. Defined.

(** C36: When the heap is empty or its last block is in use, and the kernel refuses no memory, the sizes from 2^32 - 4103 on are not refused by
    [malloc].  The last seven round to a block of no bytes; those before make [malloc] ask for no memory and write the header of the new block past
    the break. *)
Theorem malloc_huge_wraps h bs size : laid h bs → last_used true bs = true → h.(usbrks) = [] → 2 ^ 32 - 4103 ≤ size < 2 ^ 32 →
  malloc h size = if size <=? 2 ^ 32 - 8 then Undef else malloc h 0.
Proof.
  intros Hl Hu Ho Hs. destruct (Z.leb_spec size (2 ^ 32 - 8)) as [Hle|Hgt]; [apply (huge_grow h bs); done || lia|].
  unfold malloc, MBLOCKSIZE. replace (Z.land (u32 (size + 8 - 1)) _) with 0; [done|]. symmetry.
  assert (size = 2 ^ 32 - 7 ∨ size = 2 ^ 32 - 6 ∨ size = 2 ^ 32 - 5 ∨ size = 2 ^ 32 - 4 ∨ size = 2 ^ 32 - 3 ∨ size = 2 ^ 32 - 2 ∨ size = 2 ^ 32 - 1) as E by lia.
  destruct_or! E; subst size; reflexivity.
Qed.

Lemma malloc_huge_wraps_witness : malloc empty_heap (2 ^ 32 - 100) = Undef ∧ malloc empty_heap (2 ^ 32 - 1) = malloc empty_heap 0.
Proof. split; [apply (malloc_huge_wraps empty_heap [] (2 ^ 32 - 100))|apply (malloc_huge_wraps empty_heap [] (2 ^ 32 - 1))]; (apply empty_laid || done). Defined.
